(* ===== verification/_CoqProject ===== *)
-Q . S2P
Prelude.v
Bitmap.v
Sync.v
Pmm.v
Frames.v
Alloc.v
Hmalloc.v
HmallocSpec.v
HmallocHeap.v
HmallocThm.v
Ringbuffer.v
Vma.v
VmaSearch.v
Paging.v
PagingSpec.v
AddrSpace.v
Vmm.v
ProcQueue.v
Sched.v
SchedSpec.v
Semaphore.v
Cstring.v
Number.v
Format.v
TtyControl.v
Vfs.v
VfsWalk.v
VfsThm.v
VfsPath.v
VfsFd.v
Slab.v
Initrd.v
InitrdFs.v
InitrdMem.v
InitrdFile.v
InitrdTree.v
InitrdDir.v
InitrdDirThm.v
InitrdCalls.v
Ustar.v
UstarThm.v
UstarLoad.v
Elf.v
ElfThm.v
ElfLaunch.v
UserMem.v
Hbfi.v
Proc.v
ProcThm.v
ProcLife.v
ProcExit.v
ProcWait.v
