(* ===== verification/Prelude.v ===== *)
(** * Hojicha: a verification development of the kernel and its C library

    Hojicha is a small x86_64 operating system: a single-core pre-emptive kernel
    ([src/kernel]), a C library shared by the kernel and user programs
    ([src/libc]) and a few programs.  This library models the parts with a
    logic of their own as executable functions and proves what they promise.

    ** The program and its models

    - Memory.  [pmm.c] hands out physical frames from a bitmap ([bitmap.c]);
      [vmm.c] edits four-level page tables through a recursive mapping and a
      scratch window, and records what is mapped in the areas of [vma.c];
      [hmalloc.c] is the heap over whole pages and [slab.c] the allocator of
      small objects over the heap.  Models: [Bitmap], [Sync] (interrupt flag and
      spinlock), [Pmm], [Frames], [Vma] and [VmaSearch], [Paging] (the hardware
      walk and the code that edits tables), [PagingSpec], [AddrSpace], [Vmm],
      [Hmalloc] with [HmallocSpec], [HmallocHeap] and [HmallocThm], [Slab].
    - Processes.  [proc_queue.c] keeps processes in linked queues,
      [scheduler.c], [mp_utils.c] and [sleep.c] schedule them round robin,
      [wait_queue.c], [semaphore.c] and [mutex.c] block and wake them.  Models:
      [ProcQueue], [Sched] and [SchedSpec], [Semaphore].
    - Files.  [vfs.c] resolves paths over mounted file systems and keeps open
      files; [syscall_utils.c] and [syscall_dup2.c] keep descriptors;
      [initrd.c] is the file system the kernel boots from.  Models: [Vfs],
      [VfsWalk], [VfsThm], [VfsPath], [VfsFd], [Initrd], [InitrdFs],
      [InitrdMem], [InitrdFile] (contents), [InitrdTree], [InitrdDir],
      [InitrdDirThm], [InitrdCalls] (directories), [Ustar], [UstarThm] and
      [UstarLoad] (the loader of the boot archive).
    - Terminal and library.  [ringbuffer.c], the escape sequences of
      [tty_control.c], [libc/string], the number conversions of [libc/stdlib]
      and the formatter of [libc/stdio].  Models: [Ringbuffer], [TtyControl],
      [Cstring], [Number], [Format].

    ** How the code is modelled

    Every C function is one definition of the same name, in the monad
    [prog W] of this file: a function of a world [W], a record of the globals
    and heaps the component touches, with an [outcome].  [Ret] is a return,
    [Abort] a call of [abort], [Fault] undefined behaviour (a dereference of
    [NULL] or of memory that is not there, a division by zero, an overflow of a
    signed number) and [OutOfFuel] a loop that did not end.  [wp p Q w] says that
    [p] returns from [w], in a state where [Q] holds; all theorems are stated
    with it or as equations, so each of them includes that the code returns and
    does not fault.  Structures live in finite maps from addresses, 0 being
    [NULL]; machine integers are [Z] with the wrap written where the code can
    wrap ([u64], [u32], [u8]).  Pointers that alias do so in the model.

    Loops that are not structural take fuel.  It is always a bound computed
    from the state (the number of nodes, of mapped bytes, of bits, of path
    bytes, of pages in a range), and the theorems show that it suffices: none
    of them has fuel in its statement, and none is about the loops that run out.

    ** Interfaces

    Components meet in classes, so that a client is proved against what it may
    assume and the implementation discharges it:
    - [Alloc.Allocator] and [AllocatorLaws] ([malloc], [calloc], [slab_calloc],
      [free] with the live blocks): promised by [Hmalloc] (over
      [HeapSource], the pages) and by [Slab] (over [Allocator] itself), used by
      [Slab], [Vma], [Vmm], [Ringbuffer], [Vfs] and [Initrd];
    - [Frames.FrameAlloc]: promised by [Pmm], used by the page tables;
    - [VfsWalk.VfsFs] and [VfsLaws]: a file system as a tree that its operations
      answer from, promised by [InitrdFs], used by the walk of paths;
    - [VfsFd.VfsFileLaws]: what closing a file must leave alone;
    - [Format.Sink]: the output callback of the formatter.

    ** What the theorems show

    - Memory.  Frames: the lowest free one is taken, a free releases one page,
      the counters are exact; as the code is written the boot allocator is
      never left.  Page tables: the recursive addresses reach the tables on the
      path, mapping installs exactly one translation with the flags asked for,
      address spaces do not affect each other, [vmm_map] and [vmm_unmap] agree
      with the areas.  Areas: sorted and disjoint lists, cut and merged as
      ranges; searches are first and last fit.  Heaps: blocks are disjoint, of
      the size asked for, boundary tags and free list stay exact, every sequence
      of slab calls keeps live objects apart.
    - Processes.  The queues refine lists; a yield rotates the ready processes
      so that each runs within a round; the timer pre-empts, sleepers wake in
      time order; semaphores refine holders and a fair queue of waiters.
    - Files.  A lookup computes the reference resolution of a path with links
      and mounts and balances its references; the path [vfs_getcwd] writes looks
      up to where it started; counts of open files equal the descriptors;
      reads, writes and seeks refine a store of byte strings; creating,
      linking and removing refine a tree of named nodes, whatever a client
      calls; loading an archive gives exactly its entries.
    - Library.  Ring buffer against a bounded queue, parser of escape sequences
      against its grammar, string functions against lists, numbers and formats
      against their text, always inside the buffers.

    The files that end in [Spec] or [Thm] hold the statements where a component
    needs more than one file; otherwise they follow the operations.  A theorem
    with hypotheses is applied to a concrete state in a lemma of its name with
    [_witness].

    ** Not modelled

    The hardware below the code: TLBs, permission faults (a translation is
    computed with its permissions, but the kernel's accesses are not checked
    against them), other cores, the time an interrupt takes.  A context switch
    is a parameter of the scheduler that stands for the other processes.
    Drivers that only move bytes to ports and pixels ([tty.c], [keyboard.c],
    [pit.c], [pic.c], [serial.c], the fonts), descriptor tables, FPU and
    assembly, boot code and the boot protocol headers, logging, user programs
    and tests: they have no state worth a theorem, or are data.  System calls other than the
    descriptors', process creation, the executable loader and the device file
    system are not modelled yet; they combine the components that are.
    [vmm_initialize] builds the first address space and is not here; the
    theorems start from address spaces that are well-formed. *)

From Stdlib Require Export ZArith Lia Sorting.Sorted.
From stdpp Require Export sorting base numbers list gmap option.
(** stdpp's names for lists, over the Standard Library's. *)
Export list_basics.list list_relations.list list_monad.list list_misc.list.

#[global] Open Scope Z_scope.

Declare Scope hojicha_scope.
Delimit Scope hojicha_scope with hj.

(** ** Machine integers

    The kernel is an LP64 x86_64 program: [haddr_t], [uintptr_t], [size_t] and
    [uint64_t] are 64 bits wide, [uint32_t] 32, [uint8_t] 8.  They are kept as
    [Z] and every operation that can wrap is wrapped where the code does it. *)
Definition u64 (z : Z) : Z := z mod 2 ^ 64.
Definition u32 (z : Z) : Z := z mod 2 ^ 32.
Definition u8 (z : Z) : Z := z mod 2 ^ 8.

(** [(haddr_t)-1]: the largest 64-bit value. *)
Definition UINT64_MAX : Z := 2 ^ 64 - 1.

(** The range of a 64-bit unsigned value. *)
Definition is_u64 (z : Z) : Prop := 0 ≤ z < 2 ^ 64.

(** ** Outcomes

    A C function either returns, calls [abort()] (the kernel's halt), does
    something the C standard leaves undefined or the hardware traps on (a NULL
    or dangling dereference, an access outside an object), or the model's loop
    bound was not enough.  The theorems establish [Ret]: memory safety and
    termination come with every functional statement. *)
Inductive outcome (A : Type) : Type :=
| Ret (a : A)
| Abort
| Fault
| OutOfFuel.
Arguments Ret {A} a.
Arguments Abort {A}.
Arguments Fault {A}.
Arguments OutOfFuel {A}.

#[global] Instance outcome_ret : MRet outcome := @Ret.
#[global] Instance outcome_bind : MBind outcome := λ A B f m,
  match m with
  | Ret a => f a
  | Abort => Abort
  | Fault => Fault
  | OutOfFuel => OutOfFuel
  end.

(** Reading an object that must exist. *)
Definition deref {A} (o : option A) : outcome A :=
  match o with Some a => Ret a | None => Fault end.

(** ** State-passing programs with outcomes *)
Definition prog (S A : Type) : Type := S → outcome (A * S).

#[global] Instance prog_ret {S} : MRet (prog S) := λ A a s, Ret (a, s).
#[global] Instance prog_bind {S} : MBind (prog S) := λ A B f m s,
  match m s with
  | Ret (a, s') => f a s'
  | Abort => Abort
  | Fault => Fault
  | OutOfFuel => OutOfFuel
  end.

Definition gets {S A} (f : S → A) : prog S A := λ s, Ret (f s, s).
Definition modify {S} (f : S → S) : prog S unit := λ s, Ret (tt, f s).
Definition lift {S A} (m : outcome A) : prog S A := λ s, a ← m; Ret (a, s).
Definition fault {S A} : prog S A := λ _, Fault.
Definition halt {S A} : prog S A := λ _, Abort.
(** A loop that exhausted its bound. *)
Definition diverge {S A} : prog S A := λ _, OutOfFuel.
Definition when {S} (b : bool) (m : prog S unit) : prog S unit :=
  if b then m else mret tt.

(** Total-correctness weakest precondition: the program returns, and the
    result and final state satisfy [Q]. *)
Definition wp {S A} (m : prog S A) (Q : A → S → Prop) (s : S) : Prop :=
  match m s with
  | Ret (a, s') => Q a s'
  | _ => False
  end.

Section wp.
Context {S : Type}.
Implicit Types (s : S).

Lemma wp_ret {A} (a : A) Q s : Q a s → wp (mret a) Q s.
Proof. done. Qed.

Lemma wp_bind {A B} (m : prog S A) (f : A → prog S B) Q s :
  wp m (λ a s', wp (f a) Q s') s → wp (m ≫= f) Q s.
Proof.
  unfold wp, mbind, prog_bind. destruct (m s) as [[a s']| | |]; done.
Qed.

Lemma wp_mono {A} (m : prog S A) (P Q : A → S → Prop) s :
  wp m P s → (∀ a s', P a s' → Q a s') → wp m Q s.
Proof. unfold wp. destruct (m s) as [[a s']| | |]; eauto. Qed.

Lemma wp_gets {A} (f : S → A) Q s : Q (f s) s → wp (gets f) Q s.
Proof. done. Qed.

Lemma wp_modify (f : S → S) Q s : Q tt (f s) → wp (modify f) Q s.
Proof. done. Qed.

Lemma wp_lift {A} (o : outcome A) a Q s :
  o = Ret a → Q a s → wp (lift o) Q s.
Proof. by intros ->. Qed.

(** What [wp] says, as an equation: the only way to use it on a closed run. *)
Lemma wp_inv {A} (m : prog S A) Q s :
  wp m Q s ↔ ∃ a s', m s = Ret (a, s') ∧ Q a s'.
Proof.
  unfold wp. destruct (m s) as [[a s']| | |]; split;
    first [by eauto | done | by intros (?&?&[= <- <-]&?)].
Qed.

(** Running the first step of a bind. *)
Lemma bind_run {A B} (m : prog S A) (f : A → prog S B) s a s' :
  m s = Ret (a, s') → (m ≫= f) s = f a s'.
Proof. unfold mbind, prog_bind. by intros ->. Qed.

Lemma bind_cong {A B} (m m' : prog S A) (f : A → prog S B) s s' :
  m s = m' s' → (m ≫= f) s = (m' ≫= f) s'.
Proof. unfold mbind, prog_bind. by intros ->. Qed.

Lemma bind_assoc_run {A B C} (m : prog S A) (f : A → prog S B) (g : B → prog S C) s :
  ((m ≫= f) ≫= g) s = (m ≫= λ a, f a ≫= g) s.
Proof. unfold mbind, prog_bind. by destruct (m s) as [[]| | |]. Qed.

End wp.

(** ** Bits of machine words *)
Section bits.
Implicit Types (a i n k : Z).

Lemma land_ones_mod a n : 0 ≤ n → Z.land a (2 ^ n - 1) = a mod 2 ^ n.
Proof. intros. rewrite <- Z.land_ones by done. by rewrite Z.ones_equiv. Qed.

Lemma land_pow2_testbit a k :
  0 ≤ k → (Z.land a (Z.shiftl 1 k) =? 0) = negb (Z.testbit a k).
Proof.
  intros Hk. rewrite Z.shiftl_1_l.
  destruct (Z.testbit a k) eqn:Hb; simpl.
  - apply Z.eqb_neq. intros H0.
    assert (Z.testbit (Z.land a (2 ^ k)) k = false) as H by (by rewrite H0, Z.bits_0).
    by rewrite Z.land_spec, Hb, Z.pow2_bits_true in H.
  - apply Z.eqb_eq, Z.bits_inj'. intros i Hi.
    rewrite Z.bits_0, Z.land_spec, Z.pow2_bits_eqb by done.
    destruct (Z.eqb_spec k i); subst; [by rewrite Hb | by rewrite andb_false_r].
Qed.

Lemma testbit_small a i n : 0 ≤ a < 2 ^ n → n ≤ i → Z.testbit a i = false.
Proof.
  intros [H0 H1] Hi. destruct (Z.eq_dec a 0) as [->|]; [apply Z.bits_0|].
  apply Z.bits_above_log2; [done|].
  apply Z.lt_le_trans with n; [|done]. apply Z.log2_lt_pow2; lia.
Qed.

Lemma u8_range a : 0 ≤ u8 a < 256.
Proof. unfold u8. apply Z.mod_pos_bound. lia. Qed.

Lemma u8_testbit a k : 0 ≤ k < 8 → Z.testbit (u8 a) k = Z.testbit a k.
Proof. intros. unfold u8. by rewrite Z.mod_pow2_bits_low by lia. Qed.

Lemma u64_range a : is_u64 (u64 a).
Proof. unfold u64, is_u64. apply Z.mod_pos_bound. lia. Qed.

Lemma u64_small a : is_u64 a → u64 a = a.
Proof. intros. unfold u64. by apply Z.mod_small. Qed.

(** Masking the low [k] bits of a 64-bit value. *)
Lemma land_high_mask a k :
  is_u64 a → 0 ≤ k ≤ 64 → Z.land a (UINT64_MAX - (2 ^ k - 1)) = a - a mod 2 ^ k.
Proof.
  intros Ha Hk. assert (UINT64_MAX - (2 ^ k - 1) = Z.shiftl (Z.ones (64 - k)) k) as ->.
  { rewrite Z.shiftl_mul_pow2, Z.ones_equiv, Z.mul_pred_l by lia.
    rewrite <- Z.pow_add_r by lia. unfold UINT64_MAX. replace (64 - k + k) with 64 by lia. lia. }
  replace (a - a mod 2 ^ k) with (Z.shiftl (Z.shiftr a k) k).
  2:{ rewrite Z.shiftl_mul_pow2, Z.shiftr_div_pow2 by lia. pose proof (Z.div_mod a (2 ^ k)). lia. }
  apply Z.bits_inj'. intros n Hn. rewrite Z.land_spec.
  destruct (Z.lt_ge_cases n k).
  - rewrite !Z.shiftl_spec_low by done. apply andb_false_r.
  - rewrite !Z.shiftl_spec, Z.shiftr_spec by lia. replace (n - k + k) with n by lia.
    destruct (Z.lt_ge_cases n 64).
    + rewrite Z.ones_spec_low by lia. apply andb_true_r.
    + rewrite Z.ones_spec_high by lia. rewrite andb_false_r. symmetry. by apply (testbit_small a n 64).
Qed.

(** Two bytes with the same low eight bits are equal. *)
Lemma byte_ext a b :
  0 ≤ a < 256 → 0 ≤ b < 256 →
  (∀ k, 0 ≤ k < 8 → Z.testbit a k = Z.testbit b k) → a = b.
Proof.
  intros Ha Hb H. apply Z.bits_inj'. intros k Hk.
  destruct (Z.lt_ge_cases k 8); [by apply H|].
  by rewrite !(testbit_small _ k 8) by lia.
Qed.
End bits.

(** ** Lists *)

(** A filter that keeps everything. *)
Lemma filter_all {A} (P : A → Prop) `{∀ x, Decision (P x)} (l : list A) :
  (∀ x, x ∈ l → P x) → filter P l = l.
Proof.
  induction l as [|x l IH]; intros Hall; [done|].
  rewrite filter_cons_True by (apply Hall; set_solver). f_equal. apply IH.
  intros y Hy. apply Hall. set_solver.
Qed.

(** ** Automation *)
Create HintDb hojicha.
Create Rewrite HintDb hj_shift.
#[export] Hint Resolve u8_range u64_range : hojicha.
#[export] Hint Rewrite @Z.shiftr_div_pow2 using lia : hj_shift.

(** Decide every boolean comparison of [Z] in the goal or the context. *)
Ltac zbool :=
  repeat match goal with
  | |- context [Z.eqb ?a ?b] => destruct (Z.eqb_spec a b)
  | |- context [Z.ltb ?a ?b] => destruct (Z.ltb_spec a b)
  | |- context [Z.leb ?a ?b] => destruct (Z.leb_spec a b)
  | H : context [Z.eqb ?a ?b] |- _ => destruct (Z.eqb_spec a b)
  | H : context [Z.ltb ?a ?b] |- _ => destruct (Z.ltb_spec a b)
  | H : context [Z.leb ?a ?b] |- _ => destruct (Z.leb_spec a b)
  end.

(** Linear arithmetic with division by constants. *)
Ltac zdiv := Z.to_euclidean_division_equations; lia.

(** Run the binds of a computation whose first step is known, and nothing else. *)
Ltac orun :=
  cbn [mbind outcome_bind mret outcome_ret deref prog_bind prog_ret].
