(* ===== verification/Bitmap.v ===== *)
(** * Bitmap: [kernel/utils/bitmap.c]

    The bitmap behind the physical memory manager and the slab caches: a byte
    array plus the cached bounds of the clear bits.  [BitmapSpec] states what a
    bitmap is (its bits, and that the cached bounds are exactly the least and
    the greatest clear index); the theorems show that every operation keeps it
    so, that no access leaves the array, and what each returns. *)
From S2P Require Import Prelude.

(** ** Data and operations *)

Record bitmap_t := MkBitmap {
  storage : option (list Z);
  bit_count : Z;
  byte_count : Z;
  lowest_clear_idx : Z;
  highest_clear_idx : Z;
}.

Definition set_storage (b : bitmap_t) (st : list Z) : bitmap_t :=
  MkBitmap (Some st) (bit_count b) (byte_count b)
    (lowest_clear_idx b) (highest_clear_idx b).
Definition set_bounds (b : bitmap_t) (lo hi : Z) : bitmap_t :=
  MkBitmap (storage b) (bit_count b) (byte_count b) lo hi.

(** [storage[i]], which must lie inside the array. *)
Definition byte_at (st : list Z) (i : Z) : outcome Z := deref (st !! Z.to_nat i).

Definition bitmap_storage_size (bit_count : Z) : Z :=
  Z.shiftr (u64 (bit_count + 7)) 3.

(** [memset] on the first [n] bytes of a buffer, one store per iteration. *)
Fixpoint memset_loop (n i : nat) (v : Z) (buf : list Z) : outcome (list Z) :=
  match n with
  | O => Ret buf
  | S n' =>
      if bool_decide (i < length buf)%nat
      then memset_loop n' (S i) v (<[i := u8 v]> buf) else Fault
  end.
Definition memset (buf : list Z) (value size : Z) : outcome (list Z) :=
  memset_loop (Z.to_nat size) 0 value buf.

(** The pointer [bitmap] may be NULL ([None]); the result is the object it
    points to afterwards. *)
Definition bitmap_init (bitmap : option bitmap_t) (buf : option (list Z))
    (count : Z) (default_set : bool) : outcome (option bitmap_t) :=
  match bitmap with
  | None => Ret None
  | Some _ =>
      let b := MkBitmap buf count (bitmap_storage_size count) count count in
      match buf with
      | None => Ret (Some b)
      | Some st =>
          if count =? 0 then Ret (Some b)
          else
            st' ← memset st (if default_set then 255 else 0) (byte_count b);
            let b' := set_storage b st' in
            Ret (Some (if negb default_set
                       then set_bounds b' 0 (u64 (count - 1)) else b'))
      end
  end.

Definition bitmap_get (bitmap : option bitmap_t) (idx : Z) : outcome bool :=
  match bitmap with
  | None => Ret false
  | Some b =>
      match storage b with
      | None => Ret false
      | Some st =>
          if bit_count b <=? idx then Ret false
          else
            byte ← byte_at st (Z.shiftr idx 3);
            Ret (negb (Z.land byte (Z.shiftl 1 (Z.land idx 7)) =? 0))
      end
  end.

(** [~(num >> idx) & 1], tried upwards from bit 0. *)
Fixpoint lowest_zero_loop (n : nat) (idx num : Z) : Z :=
  match n with
  | O => 7
  | S n' =>
      if negb (Z.land (Z.lnot (Z.shiftr num idx)) 1 =? 0) then idx
      else lowest_zero_loop n' (idx + 1) num
  end.
Definition bitmap_get_lowest_zero_bit (num : Z) : Z := lowest_zero_loop 8 0 num.

Fixpoint highest_zero_loop (n : nat) (idx num : Z) : Z :=
  match n with
  | O => 0
  | S n' =>
      if negb (Z.land (Z.lnot (Z.shiftr num idx)) 1 =? 0) then idx
      else highest_zero_loop n' (idx - 1) num
  end.
Definition bitmap_get_highest_zero_bit (num : Z) : Z := highest_zero_loop 8 7 num.

(** The byte with the bits below [bit] set: [byte |= (1 << bit) - 1]. *)
Definition mask_below (bit byte : Z) : Z :=
  u8 (Z.lor byte (Z.shiftl 1 bit - 1)).
(** The byte with the bits above [bit] set:
    [if (bit < 7) byte |= 0xFF << (bit + 1)]. *)
Definition mask_above (bit byte : Z) : Z :=
  if bit <? 7 then u8 (Z.lor byte (Z.shiftl 255 (bit + 1))) else byte.

(** The body of the forward scan's [for], [n] bytes from [byte_idx]. *)
Fixpoint find_forward_loop (n : nat) (st : list Z) (start last byte_idx : Z)
    : outcome (option Z) :=
  match n with
  | O => Ret None
  | S n' =>
      byte0 ← byte_at st byte_idx;
      let byte1 := if byte_idx =? Z.shiftr start 3
                   then mask_below (Z.land start 7) byte0 else byte0 in
      let byte := if byte_idx =? Z.shiftr last 3
                  then mask_above (Z.land last 7) byte1 else byte1 in
      if negb (byte =? 255)
      then Ret (Some (Z.shiftl byte_idx 3 + bitmap_get_lowest_zero_bit byte))
      else find_forward_loop n' st start last (byte_idx + 1)
  end.

(** [out] says whether the caller's result pointer is non-NULL; the value
    stored through it is the [Some]. *)
Definition bitmap_find_clear_forward (bitmap : option bitmap_t)
    (start last : Z) (out : bool) : outcome (option Z) :=
  match bitmap with
  | None => Ret None
  | Some b =>
      if negb out || (last <? start) || (bit_count b <=? start) then Ret None
      else
        let last := if bit_count b <=? last then u64 (bit_count b - 1) else last in
        st ← deref (storage b);
        let start_byte := Z.shiftr start 3 in
        let end_byte := Z.shiftr last 3 in
        find_forward_loop (Z.to_nat (end_byte - start_byte + 1))
          st start last start_byte
  end.

(** The backward scan runs down from [start_byte] and breaks at [end_byte]. *)
Fixpoint find_backward_loop (n : nat) (st : list Z) (start last byte_idx : Z)
    : outcome (option Z) :=
  match n with
  | O => OutOfFuel
  | S n' =>
      byte0 ← byte_at st byte_idx;
      let byte1 := if byte_idx =? Z.shiftr start 3
                   then mask_above (Z.land start 7) byte0 else byte0 in
      let byte := if byte_idx =? Z.shiftr last 3
                  then mask_below (Z.land last 7) byte1 else byte1 in
      if negb (byte =? 255)
      then Ret (Some (Z.shiftl byte_idx 3 + bitmap_get_highest_zero_bit byte))
      else if byte_idx =? Z.shiftr last 3 then Ret None
      else find_backward_loop n' st start last (u64 (byte_idx - 1))
  end.

Definition bitmap_find_clear_backward (bitmap : option bitmap_t)
    (start last : Z) (out : bool) : outcome (option Z) :=
  match bitmap with
  | None => Ret None
  | Some b =>
      if negb out || (start <? last) || (bit_count b <=? last) then Ret None
      else
        let start := if bit_count b <=? start then u64 (bit_count b - 1) else start in
        st ← deref (storage b);
        let start_byte := Z.shiftr start 3 in
        let end_byte := Z.shiftr last 3 in
        find_backward_loop (Z.to_nat (start_byte - end_byte + 1))
          st start last start_byte
  end.

Definition bitmap_refresh_bounds_after_set (bitmap : option bitmap_t) (idx : Z)
    : outcome (option bitmap_t) :=
  match bitmap with
  | None => Ret None
  | Some b =>
      if (bit_count b <=? lowest_clear_idx b) || (bit_count b <=? highest_clear_idx b)
      then Ret (Some b)
      else
        (* the first [if]: [inl] is the early return *)
        r1 ← (if idx =? lowest_clear_idx b then
                next ← bitmap_find_clear_forward (Some b) (u64 (idx + 1))
                         (highest_clear_idx b) true;
                Ret (match next with
                     | Some n => inr (set_bounds b n (highest_clear_idx b))
                     | None => inl (set_bounds b (bit_count b) (bit_count b))
                     end)
              else Ret (inr b));
        match r1 with
        | inl b1 => Ret (Some b1)
        | inr b1 =>
            if idx =? highest_clear_idx b1 then
              prev ← (if 0 <? idx
                      then bitmap_find_clear_backward (Some b1) (u64 (idx - 1))
                             (lowest_clear_idx b1) true
                      else Ret None);
              Ret (Some (match prev with
                         | Some p => set_bounds b1 (lowest_clear_idx b1) p
                         | None => set_bounds b1 (bit_count b1) (bit_count b1)
                         end))
            else Ret (Some b1)
        end
  end.

Definition bitmap_set (bitmap : option bitmap_t) (idx : Z)
    : outcome (bool * option bitmap_t) :=
  match bitmap with
  | None => Ret (false, None)
  | Some b =>
      match storage b with
      | None => Ret (false, Some b)
      | Some st =>
          if bit_count b <=? idx then Ret (false, Some b)
          else
            g ← bitmap_get (Some b) idx;
            if (g : bool) then Ret (true, Some b)
            else
              byte ← byte_at st (Z.shiftr idx 3);
              let byte' := u8 (Z.lor byte (Z.shiftl 1 (Z.land idx 7))) in
              let b1 := set_storage b (<[Z.to_nat (Z.shiftr idx 3) := byte']> st) in
              b2 ← bitmap_refresh_bounds_after_set (Some b1) idx;
              Ret (true, b2)
      end
  end.

Definition bitmap_clear (bitmap : option bitmap_t) (idx : Z)
    : outcome (bool * option bitmap_t) :=
  match bitmap with
  | None => Ret (false, None)
  | Some b =>
      match storage b with
      | None => Ret (false, Some b)
      | Some st =>
          if bit_count b <=? idx then Ret (false, Some b)
          else
            g ← bitmap_get (Some b) idx;
            if negb g then Ret (true, Some b)
            else
              byte ← byte_at st (Z.shiftr idx 3);
              let byte' := u8 (Z.land byte (Z.lnot (Z.shiftl 1 (Z.land idx 7)))) in
              let b1 := set_storage b (<[Z.to_nat (Z.shiftr idx 3) := byte']> st) in
              if (bit_count b1 <=? lowest_clear_idx b1) ||
                 (bit_count b1 <=? highest_clear_idx b1)
              then Ret (true, Some (set_bounds b1 idx idx))
              else
                let b2 := if idx <? lowest_clear_idx b1
                          then set_bounds b1 idx (highest_clear_idx b1) else b1 in
                let b3 := if highest_clear_idx b2 <? idx
                          then set_bounds b2 (lowest_clear_idx b2) idx else b2 in
                Ret (true, Some b3)
      end
  end.

Definition bitmap_find_clear (bitmap : option bitmap_t) (out : bool)
    : outcome (option Z) :=
  match bitmap with
  | None => Ret None
  | Some b =>
      if negb out || negb (bool_decide (is_Some (storage b))) ||
         (bit_count b <=? lowest_clear_idx b) || (bit_count b <=? highest_clear_idx b)
      then Ret None
      else bitmap_find_clear_forward (Some b) (lowest_clear_idx b)
             (highest_clear_idx b) true
  end.

(** ** Specification *)

(** Bit [i] of the array. *)
Definition bit (st : list Z) (i : Z) : bool :=
  Z.testbit (default 0 (st !! Z.to_nat (i / 8))) (i mod 8).

(** The shape of a bitmap with storage [st]. *)
Record bm_shape (b : bitmap_t) (st : list Z) : Prop := {
  bm_storage : storage b = Some st;
  bm_count : 0 ≤ bit_count b ≤ 2 ^ 64 - 8;
  bm_length : Z.of_nat (length st) = (bit_count b + 7) / 8;
  bm_bytes : Forall (λ x, 0 ≤ x < 256) st;
}.

Definition all_set (st : list Z) (lo hi : Z) : Prop :=
  ∀ i, lo ≤ i < hi → bit st i = true.

(** Index [i] is a clear bit of the bitmap. *)
Definition clear_bit (b : bitmap_t) (st : list Z) (i : Z) : Prop :=
  0 ≤ i < bit_count b ∧ bit st i = false.

(** The cached bounds are exact: none when no bit is clear, and otherwise the
    least and the greatest clear index. *)
Definition bm_bounds (b : bitmap_t) (st : list Z) : Prop :=
  (lowest_clear_idx b = bit_count b ∧ highest_clear_idx b = bit_count b ∧
     ∀ i, ¬ clear_bit b st i) ∨
  (clear_bit b st (lowest_clear_idx b) ∧ clear_bit b st (highest_clear_idx b) ∧
     ∀ i, clear_bit b st i → lowest_clear_idx b ≤ i ≤ highest_clear_idx b).

Definition bm_ok (b : bitmap_t) (st : list Z) : Prop :=
  bm_shape b st ∧ bm_bounds b st.

(** *** Bytes and their masks *)

Lemma land_7 i : Z.land i 7 = i mod 8.
Proof. change 7 with (2 ^ 3 - 1). by rewrite land_ones_mod. Qed.

Lemma shiftr_3 i : Z.shiftr i 3 = i / 8.
Proof. by rewrite Z.shiftr_div_pow2. Qed.

Lemma shiftl_3 i : Z.shiftl i 3 = 8 * i.
Proof. rewrite Z.shiftl_mul_pow2 by done. lia. Qed.

Lemma zero_bit_test num k :
  0 ≤ k → negb (Z.land (Z.lnot (Z.shiftr num k)) 1 =? 0) = negb (Z.testbit num k).
Proof.
  intros Hk. change 1 with (Z.shiftl 1 0). rewrite land_pow2_testbit by done.
  rewrite Z.lnot_spec, Z.shiftr_spec by done.
  by rewrite Z.add_0_l, negb_involutive.
Qed.

Lemma testbit_pred_shiftl n k :
  0 ≤ n → 0 ≤ k → Z.testbit (Z.shiftl 1 n - 1) k = (k <? n).
Proof.
  intros Hn Hk. rewrite Z.shiftl_1_l, Z.sub_1_r, <- Z.ones_equiv.
  destruct (Z.ltb_spec k n).
  - by apply Z.ones_spec_low.
  - by apply Z.ones_spec_high.
Qed.

Lemma mask_below_spec n byte k :
  0 ≤ n < 8 → 0 ≤ k < 8 →
  Z.testbit (mask_below n byte) k = Z.testbit byte k || (k <? n).
Proof.
  intros Hn Hk. unfold mask_below.
  by rewrite u8_testbit, Z.lor_spec, testbit_pred_shiftl by lia.
Qed.

Lemma mask_above_spec n byte k :
  0 ≤ n < 8 → 0 ≤ k < 8 →
  Z.testbit (mask_above n byte) k = Z.testbit byte k || (n <? k).
Proof.
  intros Hn Hk. unfold mask_above. destruct (Z.ltb_spec n 7).
  - rewrite u8_testbit, Z.lor_spec, Z.shiftl_spec by lia. f_equal.
    destruct (Z.ltb_spec n k).
    + change 255 with (Z.ones 8). by rewrite Z.ones_spec_low by lia.
    + by rewrite Z.testbit_neg_r by lia.
  - replace (n <? k) with false by lia. by rewrite orb_false_r.
Qed.

Lemma mask_below_range n byte : 0 ≤ mask_below n byte < 256.
Proof. unfold mask_below. eauto with hojicha. Qed.

Lemma mask_above_range n byte :
  0 ≤ byte < 256 → 0 ≤ mask_above n byte < 256.
Proof. unfold mask_above. destruct (n <? 7); eauto with hojicha. Qed.

Lemma full_byte byte :
  0 ≤ byte < 256 →
  (byte =? 255) = true ↔ ∀ k, 0 ≤ k < 8 → Z.testbit byte k = true.
Proof.
  intros Hb. rewrite Z.eqb_eq. split.
  - intros -> k Hk. change 255 with (Z.ones 8). by apply Z.ones_spec_low.
  - intros H. apply byte_ext; [done|lia|]. intros k Hk. rewrite H by done.
    change 255 with (Z.ones 8). by rewrite Z.ones_spec_low.
Qed.

Lemma non_full_byte byte :
  0 ≤ byte < 256 → byte ≠ 255 → ∃ k, 0 ≤ k < 8 ∧ Z.testbit byte k = false.
Proof.
  intros Hb Hne.
  destruct (decide (Exists (λ k, Z.testbit byte k = false) (seqZ 0 8))) as [He|He].
  - apply list.Exists_exists in He as (k & Hin%elem_of_seqZ & Hk). exists k. split; [lia|done].
  - exfalso. apply Hne, Z.eqb_eq, full_byte; [done|]. intros k Hk.
    destruct (Z.testbit byte k) eqn:E; [done|]. exfalso. apply He, list.Exists_exists.
    exists k. split; [apply elem_of_seqZ; lia|done].
Qed.

(** The two scans of a byte return its least and greatest zero bit. *)
Lemma lowest_zero_loop_spec n idx num :
  0 ≤ idx → (∃ k, idx ≤ k < idx + Z.of_nat n ∧ Z.testbit num k = false) →
  let r := lowest_zero_loop n idx num in
  idx ≤ r < idx + Z.of_nat n ∧ Z.testbit num r = false ∧
  ∀ j, idx ≤ j < r → Z.testbit num j = true.
Proof.
  revert idx. induction n as [|n IH]; intros idx Hi (k & Hk & Hbit); [lia|].
  cbn [lowest_zero_loop]. rewrite zero_bit_test by done.
  destruct (Z.testbit num idx) eqn:E; simpl.
  - destruct (IH (idx + 1)) as (Hr & Hz & Hlow); [lia| |].
    { exists k. split; [|done]. destruct (Z.eq_dec k idx); [congruence|lia]. }
    split; [lia|]. split; [done|]. intros j Hj.
    destruct (Z.eq_dec j idx) as [->|]; [done|]. apply Hlow. lia.
  - split; [lia|]. split; [done|]. intros. lia.
Qed.

Lemma highest_zero_loop_spec n idx num :
  idx - Z.of_nat n = -1 → (∃ k, 0 ≤ k ≤ idx ∧ Z.testbit num k = false) →
  let r := highest_zero_loop n idx num in
  0 ≤ r ≤ idx ∧ Z.testbit num r = false ∧
  ∀ j, r < j ≤ idx → Z.testbit num j = true.
Proof.
  revert idx. induction n as [|n IH]; intros idx Hi (k & Hk & Hbit); [lia|].
  cbn [highest_zero_loop]. rewrite zero_bit_test by lia.
  destruct (Z.testbit num idx) eqn:E; simpl.
  - destruct (IH (idx - 1)) as (Hr & Hz & Hhigh); [lia| |].
    { exists k. split; [|done]. destruct (Z.eq_dec k idx); [congruence|lia]. }
    split; [lia|]. split; [done|]. intros j Hj.
    destruct (Z.eq_dec j idx) as [->|]; [done|]. apply Hhigh. lia.
  - split; [lia|]. split; [done|]. intros. lia.
Qed.

Lemma lowest_zero_bit_spec byte :
  0 ≤ byte < 256 → byte ≠ 255 →
  let r := bitmap_get_lowest_zero_bit byte in
  0 ≤ r < 8 ∧ Z.testbit byte r = false ∧ ∀ j, 0 ≤ j < r → Z.testbit byte j = true.
Proof.
  intros Hb Hne. apply lowest_zero_loop_spec; [done|].
  destruct (non_full_byte byte Hb Hne) as (k & ? & ?). exists k. split; [lia|done].
Qed.

Lemma highest_zero_bit_spec byte :
  0 ≤ byte < 256 → byte ≠ 255 →
  let r := bitmap_get_highest_zero_bit byte in
  0 ≤ r < 8 ∧ Z.testbit byte r = false ∧ ∀ j, r < j < 8 → Z.testbit byte j = true.
Proof.
  intros Hb Hne.
  destruct (highest_zero_loop_spec 8 7 byte) as (Hr & Hz & Hh); [done| |].
  { destruct (non_full_byte byte Hb Hne) as (k & ? & ?). exists k. split; [lia|done]. }
  split; [unfold bitmap_get_highest_zero_bit; lia|]. split; [done|].
  intros j Hj. apply Hh. unfold bitmap_get_highest_zero_bit in *. lia.
Qed.

(** *** The array scans *)

Lemma byte_at_ok st i :
  0 ≤ i < Z.of_nat (length st) → Forall (λ x, 0 ≤ x < 256) st →
  ∃ byte, byte_at st i = Ret byte ∧ st !! Z.to_nat i = Some byte ∧ 0 ≤ byte < 256.
Proof.
  intros Hi Hall. destruct (lookup_lt_is_Some_2 st (Z.to_nat i)) as [byte Hb]; [lia|].
  exists byte. unfold byte_at. rewrite Hb. split; [done|]. split; [done|].
  by eapply Forall_lookup_1 in Hall.
Qed.

(** The bit at [8 * i + k] of the array is bit [k] of byte [i]. *)
Lemma bit_split st i k byte :
  0 ≤ i → 0 ≤ k < 8 → st !! Z.to_nat i = Some byte →
  bit st (8 * i + k) = Z.testbit byte k.
Proof.
  intros Hi Hk Hb. unfold bit.
  replace ((8 * i + k) / 8) with i by (apply Z.div_unique with k; lia).
  replace ((8 * i + k) mod 8) with k by (apply Z.mod_unique with i; lia).
  by rewrite Hb.
Qed.

(** The byte the scans look at: bits outside [lo..hi] read as set. *)
Definition scan_byte (below above : Z) (byte_idx byte0 : Z) : Z :=
  let byte1 := if byte_idx =? Z.shiftr below 3
               then mask_below (Z.land below 7) byte0 else byte0 in
  if byte_idx =? Z.shiftr above 3 then mask_above (Z.land above 7) byte1 else byte1.

Lemma mask_comm m n byte :
  0 ≤ m < 8 → 0 ≤ n < 8 → 0 ≤ byte < 256 →
  mask_above m (mask_below n byte) = mask_below n (mask_above m byte).
Proof.
  intros Hm Hn Hb. apply byte_ext; eauto using mask_below_range, mask_above_range.
  intros k Hk. rewrite mask_above_spec, !mask_below_spec, mask_above_spec by done.
  by rewrite <- !orb_assoc, (orb_comm (k <? n)).
Qed.

Lemma scan_byte_range lo hi i byte0 :
  0 ≤ byte0 < 256 → 0 ≤ scan_byte lo hi i byte0 < 256.
Proof.
  intros. unfold scan_byte.
  destruct (i =? Z.shiftr lo 3), (i =? Z.shiftr hi 3);
    eauto using mask_below_range, mask_above_range.
Qed.

Lemma scan_byte_spec st lo hi i byte0 k :
  0 ≤ lo → lo / 8 ≤ i ≤ hi / 8 → 0 ≤ k < 8 →
  st !! Z.to_nat i = Some byte0 →
  Z.testbit (scan_byte lo hi i byte0) k =
    bit st (8 * i + k) || (8 * i + k <? lo) || (hi <? 8 * i + k).
Proof.
  intros Hlo Hi Hk Hb. assert (0 ≤ lo / 8) by (apply Z.div_pos; lia).
  rewrite (bit_split st i k byte0) by (done || lia). unfold scan_byte.
  rewrite !shiftr_3, !land_7.
  pose proof (Z.mod_pos_bound lo 8). pose proof (Z.mod_pos_bound hi 8).
  pose proof (Z.div_mod lo 8). pose proof (Z.div_mod hi 8).
  replace (8 * i + k <? lo) with ((i =? lo / 8) && (k <? lo mod 8)) by (zbool; lia).
  replace (hi <? 8 * i + k) with ((i =? hi / 8) && (hi mod 8 <? k)) by (zbool; lia).
  destruct (i =? lo / 8), (i =? hi / 8); simpl;
    rewrite ?mask_above_spec, ?mask_below_spec, ?orb_false_r by lia; done.
Qed.

(** What a scan of [lo..hi] for a clear bit must return. *)
Definition first_clear (st : list Z) (lo hi : Z) (r : option Z) : Prop :=
  match r with
  | Some j => lo ≤ j ≤ hi ∧ bit st j = false ∧ all_set st lo j
  | None => all_set st lo (hi + 1)
  end.
Definition last_clear (st : list Z) (lo hi : Z) (r : option Z) : Prop :=
  match r with
  | Some j => lo ≤ j ≤ hi ∧ bit st j = false ∧ all_set st (j + 1) (hi + 1)
  | None => all_set st lo (hi + 1)
  end.

(** Within one byte: a full scan byte has no clear bit of [lo..hi], and the
    zero bits of a non-full one are clear bits of [lo..hi]. *)
Lemma scan_byte_full st lo hi i byte0 :
  0 ≤ lo → lo / 8 ≤ i ≤ hi / 8 → st !! Z.to_nat i = Some byte0 →
  0 ≤ byte0 < 256 → scan_byte lo hi i byte0 = 255 →
  ∀ x, 8 * i ≤ x < 8 * i + 8 → lo ≤ x ≤ hi → bit st x = true.
Proof.
  intros Hlo Hi Hb Hr Hfull x Hx Hin.
  pose proof (scan_byte_spec st lo hi i byte0 (x - 8 * i) Hlo Hi ltac:(lia) Hb) as H.
  rewrite Hfull in H. replace (8 * i + (x - 8 * i)) with x in H by lia.
  change 255 with (Z.ones 8) in H. rewrite Z.ones_spec_low in H by lia.
  replace (x <? lo) with false in H by lia. replace (hi <? x) with false in H by lia.
  by rewrite !orb_false_r in H.
Qed.

Lemma scan_byte_bit st lo hi i byte0 k :
  0 ≤ lo → lo / 8 ≤ i ≤ hi / 8 → 0 ≤ k < 8 → st !! Z.to_nat i = Some byte0 →
  Z.testbit (scan_byte lo hi i byte0) k = false →
  lo ≤ 8 * i + k ≤ hi ∧ bit st (8 * i + k) = false.
Proof.
  intros Hlo Hi Hk Hb H. rewrite (scan_byte_spec st) in H by done.
  apply orb_false_elim in H as [[H1 H2]%orb_false_elim H3]. split; [lia|done].
Qed.

Lemma scan_byte_set st lo hi i byte0 k :
  0 ≤ lo → lo / 8 ≤ i ≤ hi / 8 → 0 ≤ k < 8 → st !! Z.to_nat i = Some byte0 →
  Z.testbit (scan_byte lo hi i byte0) k = true →
  lo ≤ 8 * i + k ≤ hi → bit st (8 * i + k) = true.
Proof.
  intros Hlo Hi Hk Hb H Hin. rewrite (scan_byte_spec st) in H by done.
  replace (8 * i + k <? lo) with false in H by lia.
  replace (hi <? 8 * i + k) with false in H by lia. by rewrite !orb_false_r in H.
Qed.

Lemma find_forward_loop_spec n st start last i :
  0 ≤ start → start / 8 ≤ i → i + Z.of_nat n = last / 8 + 1 →
  last / 8 < Z.of_nat (length st) → Forall (λ x, 0 ≤ x < 256) st →
  (∀ x, start ≤ x ≤ last → x < 8 * i → bit st x = true) →
  ∃ r, find_forward_loop n st start last i = Ret r ∧ first_clear st start last r.
Proof.
  revert i. induction n as [|n IH]; intros i H0 Hi Hn Hlen Hall Hset.
  { exists None. split; [done|]. intros x Hx. apply Hset; [lia|].
    pose proof (Z.div_mod last 8). pose proof (Z.mod_pos_bound last 8). lia. }
  assert (0 ≤ start / 8) by (apply Z.div_pos; lia).
  destruct (byte_at_ok st i) as (byte0 & Hat & Hlk & Hr); [lia|done|].
  cbn [find_forward_loop]. rewrite Hat. cbn [mbind outcome_bind].
  fold (scan_byte start last i byte0). set (byte := scan_byte start last i byte0).
  pose proof (scan_byte_range start last i byte0 Hr) as Hbr. fold byte in Hbr.
  destruct (Z.eqb_spec byte 255) as [Hfull|Hne]; simpl.
  - apply IH; [done|lia|lia|done|done|]. intros x Hx Hx8.
    destruct (Z.lt_ge_cases x (8 * i)); [by apply Hset|].
    apply (scan_byte_full st start last i byte0); (done || lia).
  - destruct (lowest_zero_bit_spec byte Hbr Hne) as (Hk & Hz & Hlow).
    set (k := bitmap_get_lowest_zero_bit byte) in *. rewrite shiftl_3.
    eexists. split; [done|]. simpl.
    destruct (scan_byte_bit st start last i byte0 k) as [Hin Hclr]; try done; try lia.
    split; [done|]. split; [done|]. intros x Hx.
    destruct (Z.lt_ge_cases x (8 * i)); [apply Hset; lia|].
    replace x with (8 * i + (x - 8 * i)) by lia.
    apply (scan_byte_set st start last i byte0); try done; try lia.
    apply Hlow. lia.
Qed.

Lemma find_backward_loop_spec n st start last i :
  0 ≤ last ≤ start → start < 2 ^ 64 → i ≤ start / 8 → i - Z.of_nat n = last / 8 - 1 →
  (0 < n)%nat → start / 8 < Z.of_nat (length st) → Forall (λ x, 0 ≤ x < 256) st →
  (∀ x, last ≤ x ≤ start → 8 * i + 8 ≤ x → bit st x = true) →
  ∃ r, find_backward_loop n st start last i = Ret r ∧ last_clear st last start r.
Proof.
  revert i. induction n as [|n IH]; intros i H0 H64 Hi Hn Hpos Hlen Hall Hset; [lia|].
  assert (0 ≤ last / 8) by (apply Z.div_pos; lia).
  destruct (byte_at_ok st i) as (byte0 & Hat & Hlk & Hr); [lia|done|].
  cbn [find_backward_loop]. rewrite Hat. cbn [mbind outcome_bind].
  set (byte := if i =? Z.shiftr last 3 then _ else _).
  assert (byte = scan_byte last start i byte0) as Hbyte.
  { subst byte. unfold scan_byte. rewrite !land_7.
    pose proof (Z.mod_pos_bound last 8). pose proof (Z.mod_pos_bound start 8).
    destruct (i =? Z.shiftr last 3), (i =? Z.shiftr start 3); try done.
    symmetry. apply mask_comm; lia. }
  pose proof (scan_byte_range last start i byte0 Hr) as Hbr. rewrite <- Hbyte in Hbr.
  destruct (Z.eqb_spec byte 255) as [Hfull|Hne]; simpl.
  - assert (∀ x, last ≤ x ≤ start → 8 * i ≤ x → bit st x = true) as Hset'.
    { intros x Hx Hx8. destruct (Z.lt_ge_cases x (8 * i + 8)); [|by apply Hset].
      apply (scan_byte_full st last start i byte0); (done || lia). }
    rewrite shiftr_3. destruct (Z.eqb_spec i (last / 8)) as [He|Hne].
    + exists None. split; [done|]. intros x Hx. apply Hset'; [lia|].
      pose proof (Z.div_mod last 8). pose proof (Z.mod_pos_bound last 8). lia.
    + rewrite u64_small by (unfold is_u64; Z.to_euclidean_division_equations; lia).
      apply IH; try done; try lia. intros x Hx Hx8. apply Hset'; lia.
  - destruct (highest_zero_bit_spec byte Hbr Hne) as (Hk & Hz & Hhigh).
    set (k := bitmap_get_highest_zero_bit byte) in *. rewrite shiftl_3.
    rewrite Hbyte in Hz, Hhigh.
    eexists. split; [done|]. simpl.
    destruct (scan_byte_bit st last start i byte0 k) as [Hin Hclr]; try done; try lia.
    split; [done|]. split; [done|]. intros x Hx.
    destruct (Z.lt_ge_cases x (8 * i + 8)); [|apply Hset; lia].
    replace x with (8 * i + (x - 8 * i)) by lia.
    apply (scan_byte_set st last start i byte0); try done; try lia.
    apply Hhigh. lia.
Qed.

(** Shape facts about the last byte. *)
Lemma bm_index b st i :
  bm_shape b st → 0 ≤ i < bit_count b → 0 ≤ i / 8 < Z.of_nat (length st).
Proof.
  intros [_ Hc Hl _] Hi. rewrite Hl. Z.to_euclidean_division_equations. lia.
Qed.

Lemma find_clear_forward_spec b st start last :
  bm_shape b st → 0 ≤ start ≤ last → last < bit_count b →
  ∃ r, bitmap_find_clear_forward (Some b) start last true = Ret r ∧
       first_clear st start last r.
Proof.
  intros Hs H0 Hl. destruct (Hs) as [Hst Hc Hlen Hall].
  unfold bitmap_find_clear_forward. simpl.
  replace (last <? start) with false by lia.
  replace (bit_count b <=? start) with false by lia.
  replace (bit_count b <=? last) with false by lia. simpl.
  rewrite Hst, !shiftr_3. simpl.
  assert (start / 8 ≤ last / 8) by (apply Z.div_le_mono; lia).
  pose proof (bm_index b st last Hs ltac:(lia)).
  apply find_forward_loop_spec; try done; try lia.
  intros x Hx Hx8. pose proof (Z.div_mod start 8). pose proof (Z.mod_pos_bound start 8). lia.
Qed.

Lemma find_clear_backward_spec b st start last :
  bm_shape b st → 0 ≤ last ≤ start → start < bit_count b →
  ∃ r, bitmap_find_clear_backward (Some b) start last true = Ret r ∧
       last_clear st last start r.
Proof.
  intros Hs H0 Hl. destruct (Hs) as [Hst Hc Hlen Hall].
  unfold bitmap_find_clear_backward. simpl.
  replace (start <? last) with false by lia.
  replace (bit_count b <=? last) with false by lia.
  replace (bit_count b <=? start) with false by lia. simpl.
  rewrite Hst, !shiftr_3. simpl.
  assert (last / 8 ≤ start / 8) by (apply Z.div_le_mono; lia).
  pose proof (bm_index b st start Hs ltac:(lia)).
  apply find_backward_loop_spec; try done; try lia.
  intros x Hx Hx8. pose proof (Z.div_mod start 8). pose proof (Z.mod_pos_bound start 8). lia.
Qed.

(** *** Reading and writing one bit *)

(** [st'] is [st] with bit [idx] set to [v]. *)
Definition bit_updated (st st' : list Z) (idx : Z) (v : bool) : Prop :=
  ∀ j, 0 ≤ j → bit st' j = if j =? idx then v else bit st j.

Lemma bit_insert st idx byte byte' v :
  0 ≤ idx → st !! Z.to_nat (idx / 8) = Some byte →
  (∀ k, 0 ≤ k < 8 → Z.testbit byte' k = if k =? idx mod 8 then v else Z.testbit byte k) →
  bit_updated st (<[Z.to_nat (idx / 8) := byte']> st) idx v.
Proof.
  intros H0 Hlk Hk j Hj. unfold bit.
  pose proof (Z.mod_pos_bound j 8 ltac:(lia)).
  destruct (Z.eq_dec (j / 8) (idx / 8)) as [He|Hne].
  - rewrite He, list_lookup_insert_eq by (by eapply lookup_lt_Some).
    simpl. rewrite Hk, Hlk by done. simpl.
    replace (j =? idx) with (j mod 8 =? idx mod 8); [done|].
    pose proof (Z.div_mod j 8). pose proof (Z.div_mod idx 8). zbool; lia.
  - rewrite list_lookup_insert_ne.
    + destruct (Z.eqb_spec j idx); congruence.
    + intros He. apply Hne. assert (0 ≤ j / 8) by (apply Z.div_pos; lia).
      assert (0 ≤ idx / 8) by (apply Z.div_pos; lia). lia.
Qed.

Lemma shape_insert b st i byte' :
  bm_shape b st → 0 ≤ byte' < 256 →
  bm_shape (set_storage b (<[i := byte']> st)) (<[i := byte']> st).
Proof.
  intros [Hst Hc Hl Hall] Hb. split; simpl; try done.
  - by rewrite length_insert.
  - by apply Forall_insert.
Qed.

Lemma bitmap_get_spec b st idx :
  bm_shape b st → 0 ≤ idx < bit_count b →
  bitmap_get (Some b) idx = Ret (bit st idx).
Proof.
  intros Hs Hi. destruct (Hs) as [Hst Hc Hl Hall]. unfold bitmap_get. rewrite Hst.
  replace (bit_count b <=? idx) with false by lia. rewrite shiftr_3, land_7.
  destruct (byte_at_ok st (idx / 8)) as (byte & Hat & Hlk & Hr);
    [by eapply bm_index|done|].
  rewrite Hat. simpl. rewrite land_pow2_testbit, negb_involutive by (apply Z.mod_pos_bound; lia).
  unfold bit. by rewrite Hlk.
Qed.

Lemma bitmap_get_high b idx : bit_count b ≤ idx → bitmap_get (Some b) idx = Ret false.
Proof.
  intros H. unfold bitmap_get. destruct (storage b); [|done].
  by replace (bit_count b <=? idx) with true by lia.
Qed.

(** The store of [bitmap_set] and of [bitmap_clear]. *)
Lemma set_byte_spec st idx byte :
  0 ≤ idx → st !! Z.to_nat (idx / 8) = Some byte →
  bit_updated st (<[Z.to_nat (idx / 8) := u8 (Z.lor byte (Z.shiftl 1 (idx mod 8)))]> st)
    idx true.
Proof.
  intros H0 Hlk. eapply bit_insert; [done..|]. intros k Hk.
  rewrite u8_testbit, Z.lor_spec, Z.shiftl_1_l, Z.pow2_bits_eqb
    by (done || apply Z.mod_pos_bound; lia).
  rewrite (Z.eqb_sym (idx mod 8)). destruct (k =? idx mod 8); by rewrite ?orb_true_r, ?orb_false_r.
Qed.

Lemma clear_byte_spec st idx byte :
  0 ≤ idx → st !! Z.to_nat (idx / 8) = Some byte →
  bit_updated st
    (<[Z.to_nat (idx / 8) := u8 (Z.land byte (Z.lnot (Z.shiftl 1 (idx mod 8))))]> st)
    idx false.
Proof.
  intros H0 Hlk. eapply bit_insert; [done..|]. intros k Hk.
  rewrite u8_testbit, Z.land_spec, Z.lnot_spec, Z.shiftl_1_l, Z.pow2_bits_eqb
    by (done || lia || (apply Z.mod_pos_bound; lia)).
  rewrite (Z.eqb_sym (idx mod 8)). destruct (k =? idx mod 8); by rewrite ?andb_false_r, ?andb_true_r.
Qed.

(** Replacing the bounds of a well-shaped bitmap by exact ones. *)
Lemma set_bounds_none b st :
  bm_shape b st → (∀ i, ¬ clear_bit b st i) →
  bm_ok (set_bounds b (bit_count b) (bit_count b)) st.
Proof. intros [] ?. split; [by split|]. by left. Qed.

Lemma set_bounds_some b st lo hi :
  bm_shape b st → clear_bit b st lo → clear_bit b st hi →
  (∀ i, clear_bit b st i → lo ≤ i ≤ hi) → bm_ok (set_bounds b lo hi) st.
Proof. intros [] ???. split; [by split|]. by right. Qed.

Section refresh.
Context (b b1 : bitmap_t) (st st1 : list Z) (idx : Z).
Context (Hb : bm_bounds b st) (Hs1 : bm_shape b1 st1).
Context (Hb1 : bit_count b1 = bit_count b ∧
               lowest_clear_idx b1 = lowest_clear_idx b ∧
               highest_clear_idx b1 = highest_clear_idx b).
Context (Hclr : clear_bit b st idx) (Hupd : bit_updated st st1 idx true).

(** The clear bits after the store are those before it, less [idx]. *)
Lemma clear_after_set i : clear_bit b1 st1 i ↔ clear_bit b st i ∧ i ≠ idx.
Proof.
  destruct Hb1 as (Ec & _). unfold clear_bit. rewrite Ec.
  split; intros H.
  - destruct H as [Hr Hi]. rewrite Hupd in Hi by lia.
    destruct (Z.eqb_spec i idx); [done|]. by split.
  - destruct H as [[Hr Hi] Hne]. rewrite Hupd by lia.
    by replace (i =? idx) with false by lia.
Qed.

Lemma refresh_in_bounds : clear_bit b st (lowest_clear_idx b) ∧
  clear_bit b st (highest_clear_idx b) ∧
  ∀ i, clear_bit b st i → lowest_clear_idx b ≤ i ≤ highest_clear_idx b.
Proof. destruct Hb as [(_ & _ & H)|H]; [by destruct (H idx)|done]. Qed.

(** The scan of [lo..hi] finds nothing only if no clear bit is left there. *)
Lemma no_clear_in lo hi i :
  all_set st1 lo (hi + 1) → lo ≤ i ≤ hi → ¬ clear_bit b1 st1 i.
Proof. intros Ha Hi [_ Hf]. rewrite Ha in Hf by lia. done. Qed.

Lemma refresh_low :
  idx = lowest_clear_idx b →
  ∃ r, bitmap_find_clear_forward (Some b1) (u64 (idx + 1)) (highest_clear_idx b) true
         = Ret r ∧
       match r with
       | Some n => clear_bit b1 st1 n ∧ ∀ i, clear_bit b1 st1 i → n ≤ i
       | None => ∀ i, ¬ clear_bit b1 st1 i
       end.
Proof.
  intros Heq. destruct refresh_in_bounds as (Hlo & Hhi & Hin).
  destruct Hb1 as (Ec & _). destruct (Hs1) as [_ Hc _ _].
  destruct (Hlo) as [? _]. destruct (Hhi) as [? _].
  rewrite u64_small by (unfold is_u64; lia).
  destruct (Z.eq_dec idx (highest_clear_idx b)) as [Heq'|Hne].
  - exists None. split.
    + unfold bitmap_find_clear_forward.
      by replace (highest_clear_idx b <? idx + 1) with true by lia.
    + intros i [Hi Hne]%clear_after_set. apply Hin in Hi. lia.
  - pose proof (Hin _ Hclr).
    destruct (find_clear_forward_spec b1 st1 (idx + 1) (highest_clear_idx b) Hs1)
      as ([n|] & Hr & Hf); [lia|lia| |]; eexists; (split; [exact Hr|]).
    + destruct Hf as (Hn & Hnc & Hns). split; [split; [lia|done]|].
      intros i Hi. apply Z.nlt_ge. intros Hlt.
      assert (idx + 1 ≤ i). { apply clear_after_set in Hi as [Hi ?]. apply Hin in Hi. lia. }
      destruct Hi as [_ Hi]. rewrite Hns in Hi by lia. done.
    + intros i Hi. apply (no_clear_in _ _ i Hf); [|done].
      apply clear_after_set in Hi as [Hi ?]. apply Hin in Hi. lia.
Qed.

Lemma refresh_high :
  idx = highest_clear_idx b → idx ≠ lowest_clear_idx b →
  ∃ n, bitmap_find_clear_backward (Some b1) (u64 (idx - 1)) (lowest_clear_idx b) true
         = Ret (Some n) ∧
       clear_bit b1 st1 n ∧ ∀ i, clear_bit b1 st1 i → i ≤ n.
Proof.
  intros Heq Hne. destruct refresh_in_bounds as (Hlo & Hhi & Hin).
  destruct Hb1 as (Ec & _). destruct (Hs1) as [_ Hc _ _].
  destruct (Hlo) as [? _]. destruct (Hhi) as [? _]. pose proof (Hin _ Hclr).
  rewrite u64_small by (unfold is_u64; lia).
  destruct (find_clear_backward_spec b1 st1 (idx - 1) (lowest_clear_idx b) Hs1)
    as ([n|] & Hr & Hf); [lia|lia| |].
  - exists n. split; [done|]. destruct Hf as (Hn & Hnc & Hns). split; [split; [lia|done]|].
    intros i Hi. apply Z.nlt_ge. intros Hlt.
    assert (i ≤ idx - 1). { apply clear_after_set in Hi as [Hi ?]. apply Hin in Hi. lia. }
    destruct Hi as [_ Hi]. rewrite Hns in Hi by lia. done.
  - exfalso. apply (no_clear_in _ _ (lowest_clear_idx b) Hf); [lia|].
    apply clear_after_set. split; [done|lia].
Qed.

(** After bit [idx] has been set, the refresh makes the bounds exact again. *)
Lemma refresh_bounds_spec :
  ∃ b2, bitmap_refresh_bounds_after_set (Some b1) idx = Ret (Some b2) ∧
        bm_ok b2 st1 ∧ bit_count b2 = bit_count b.
Proof.
  destruct refresh_in_bounds as (Hlo & Hhi & Hin). destruct (Hb1) as (Ec & El & Eh).
  destruct (Hlo) as [? _]. destruct (Hhi) as [? _].
  unfold bitmap_refresh_bounds_after_set. rewrite El, Eh, Ec.
  replace (bit_count b <=? lowest_clear_idx b) with false by lia.
  replace (bit_count b <=? highest_clear_idx b) with false by lia. cbn [orb].
  destruct (Z.eqb_spec idx (lowest_clear_idx b)) as [Heq|Hne].
  - destruct (refresh_low Heq) as ([n|] & Hr & Hn); rewrite Hr;
      cbn -[set_bounds bitmap_find_clear_backward].
    + destruct Hn as [Hn Hleast]. cbn [set_bounds highest_clear_idx].
      destruct (Z.eqb_spec idx (highest_clear_idx b)) as [Heq'|Hne'].
      { exfalso. apply clear_after_set in Hn as [Hn ?]. apply Hin in Hn. lia. }
      eexists. split; [done|]. split; [|done]. apply set_bounds_some; try done.
      * apply clear_after_set. split; [done|lia].
      * intros i Hi. split; [by apply Hleast|]. apply Hin. by apply clear_after_set in Hi as [].
    + eexists. split; [done|]. split; [|done]. rewrite <- Ec. by apply set_bounds_none.
  - cbn [mbind outcome_bind]. rewrite Eh.
    destruct (Z.eqb_spec idx (highest_clear_idx b)) as [Heq'|Hne'].
    + replace (0 <? idx) with true by (pose proof (Hin _ Hclr); lia). rewrite El.
      destruct (refresh_high Heq' Hne) as (n & Hr & Hn & Hgreatest). rewrite Hr. simpl.
      eexists. split; [done|]. split; [|done]. apply set_bounds_some; try done.
      * apply clear_after_set. split; [done|lia].
      * intros i Hi. split; [|by apply Hgreatest]. apply Hin. by apply clear_after_set in Hi as [].
    + eexists. split; [done|]. split; [|done]. split; [done|]. right. rewrite El, Eh.
      split; [apply clear_after_set; by split; [|lia]|].
      split; [apply clear_after_set; by split; [|lia]|].
      intros i Hi. apply Hin. by apply clear_after_set in Hi as [].
Qed.
End refresh.

(** ** Theorems about the operations *)

Lemma bitmap_set_spec b st idx :
  bm_ok b st → 0 ≤ idx < bit_count b →
  ∃ b' st', bitmap_set (Some b) idx = Ret (true, Some b') ∧ bm_ok b' st' ∧
            bit_count b' = bit_count b ∧ bit_updated st st' idx true.
Proof.
  intros [Hs Hb] Hi. destruct (Hs) as [Hst _ _ Hall].
  unfold bitmap_set. rewrite Hst. replace (bit_count b <=? idx) with false by lia.
  rewrite (bitmap_get_spec b st) by done. orun.
  destruct (bit st idx) eqn:Hbit.
  - exists b, st. split_and!; try done. intros j Hj. destruct (Z.eqb_spec j idx); congruence.
  - rewrite shiftr_3, land_7.
    destruct (byte_at_ok st (idx / 8)) as (byte & Hat & Hlk & Hr);
      [by eapply bm_index|done|]. rewrite Hat. orun.
    pose proof (set_byte_spec st idx byte ltac:(lia) Hlk) as Hupd.
    set (st1 := <[_ := _]> st) in *.
    destruct (refresh_bounds_spec b (set_storage b st1) st st1 idx) as (b2 & Hr2 & Hok & Hc); try done.
    { apply shape_insert; eauto with hojicha. }
    rewrite Hr2. simpl. by exists b2, st1.
Qed.

Lemma bitmap_clear_spec b st idx :
  bm_ok b st → 0 ≤ idx < bit_count b →
  ∃ b' st', bitmap_clear (Some b) idx = Ret (true, Some b') ∧ bm_ok b' st' ∧
            bit_count b' = bit_count b ∧ bit_updated st st' idx false.
Proof.
  intros [Hs Hb] Hi. destruct (Hs) as [Hst Hc _ Hall].
  unfold bitmap_clear. rewrite Hst. replace (bit_count b <=? idx) with false by lia.
  rewrite (bitmap_get_spec b st) by done. simpl.
  destruct (bit st idx) eqn:Hbit; simpl.
  2:{ exists b, st. split_and!; try done. intros j Hj. destruct (Z.eqb_spec j idx); congruence. }
  rewrite shiftr_3, land_7.
  destruct (byte_at_ok st (idx / 8)) as (byte & Hat & Hlk & Hr);
    [by eapply bm_index|done|]. rewrite Hat. simpl.
  pose proof (clear_byte_spec st idx byte ltac:(lia) Hlk) as Hupd.
  set (st1 := <[_ := _]> st) in *. set (b1 := set_storage b st1).
  assert (bm_shape b1 st1) as Hs1 by (apply shape_insert; eauto with hojicha).
  assert (∀ i, clear_bit b1 st1 i ↔ clear_bit b st i ∨ i = idx) as Hcl.
  { intros i. unfold clear_bit. simpl. split.
    - intros [Hri Hbi]. rewrite Hupd in Hbi by lia. destruct (Z.eqb_spec i idx); auto.
    - intros [[? Hbi]| ->]; (split; [done|]); rewrite Hupd by lia; [|by rewrite Z.eqb_refl].
      destruct (i =? idx); done. }
  destruct Hb as [(El & Eh & Hnone)|(Hlo & Hhi & Hin)].
  - rewrite El. replace (bit_count b <=? bit_count b) with true by lia. simpl.
    exists (set_bounds b1 idx idx), st1. split_and!; try done. apply set_bounds_some; try done.
    1,2: apply Hcl; by right. intros i [Hi'| ->]%Hcl; [by destruct (Hnone i)|lia].
  - destruct (Hlo) as [? _]. destruct (Hhi) as [? _].
    replace (bit_count b <=? lowest_clear_idx b) with false by lia.
    replace (bit_count b <=? highest_clear_idx b) with false by lia. simpl.
    eexists _, st1. split; [done|]. split; [|split; [by repeat case_match|done]].
    destruct (Z.ltb_spec idx (lowest_clear_idx b)) as [?|?]; cbn -[Z.ltb];
      destruct (Z.ltb_spec (highest_clear_idx b) idx) as [?|?]; cbn -[Z.ltb];
      (split; [destruct Hs1; by split|]); right; (split; [|split]);
      try (intros i [[? ?]%Hin| ->]%Hcl; simpl; lia);
      apply Hcl; simpl; tauto.
Qed.

Lemma bitmap_find_clear_spec b st :
  bm_ok b st →
  ∃ r, bitmap_find_clear (Some b) true = Ret r ∧
       match r with
       | Some i => clear_bit b st i ∧ ∀ j, clear_bit b st j → i ≤ j
       | None => ∀ j, ¬ clear_bit b st j
       end.
Proof.
  intros [Hs Hb]. destruct (Hs) as [Hst Hc _ _]. unfold bitmap_find_clear.
  rewrite Hst, bool_decide_eq_true_2 by done.
  destruct Hb as [(El & Eh & Hnone)|(Hlo & Hhi & Hin)].
  - rewrite El. replace (bit_count b <=? bit_count b) with true by lia. by exists None.
  - destruct (Hlo) as [? Hb]. destruct (Hhi) as [? _].
    replace (bit_count b <=? lowest_clear_idx b) with false by lia.
    replace (bit_count b <=? highest_clear_idx b) with false by lia. cbn [orb negb].
    destruct (find_clear_forward_spec b st (lowest_clear_idx b) (highest_clear_idx b) Hs)
      as ([j|] & Hr & Hf); [pose proof (Hin _ Hlo); lia|lia| |].
    + exists (Some j). split; [done|]. destruct Hf as (Hj & Hjc & Hset).
      assert (j = lowest_clear_idx b) as ->.
      { destruct (Z.eq_dec j (lowest_clear_idx b)); [done|].
        rewrite Hset in Hb by lia. done. }
      split; [done|]. intros i Hi. by apply Hin.
    + exfalso. rewrite Hf in Hb; [done|]. pose proof (Hin _ Hlo). lia.
Qed.

(** *** Initialisation *)

Lemma memset_loop_spec n i v buf :
  (i + n ≤ length buf)%nat →
  memset_loop n i v buf = Ret (take i buf ++ replicate n (u8 v) ++ drop (i + n) buf).
Proof.
  revert i buf. induction n as [|n IH]; intros i buf Hn; simpl.
  { by rewrite Nat.add_0_r, take_drop. }
  rewrite bool_decide_eq_true_2 by lia. rewrite IH by (rewrite length_insert; lia).
  f_equal. rewrite (take_S_r _ _ (u8 v)) by (apply list_lookup_insert_eq; lia).
  rewrite take_insert_ge by lia. rewrite drop_insert_lt by lia.
  rewrite <- app_assoc. simpl. by rewrite Nat.add_succ_r.
Qed.

Lemma memset_spec buf v n :
  0 ≤ n → Z.of_nat (length buf) = n → memset buf v n = Ret (replicate (Z.to_nat n) (u8 v)).
Proof.
  intros Hn Hl. unfold memset. rewrite memset_loop_spec by lia.
  rewrite drop_ge by lia. by rewrite app_nil_r.
Qed.

Lemma bit_replicate n v i :
  0 ≤ i / 8 < Z.of_nat n → bit (replicate n v) i = Z.testbit v (i mod 8).
Proof. intros Hi. unfold bit. by rewrite lookup_replicate_2 by lia. Qed.

Lemma storage_size_small n :
  0 ≤ n ≤ 2 ^ 64 - 8 → bitmap_storage_size n = (n + 7) / 8.
Proof.
  intros Hn. unfold bitmap_storage_size.
  by rewrite u64_small, shiftr_3 by (unfold is_u64; lia).
Qed.

Lemma bitmap_init_spec b0 buf count default_set :
  0 < count ≤ 2 ^ 64 - 8 → Z.of_nat (length buf) = (count + 7) / 8 →
  ∃ b st, bitmap_init (Some b0) (Some buf) count default_set = Ret (Some b) ∧
          bm_ok b st ∧ bit_count b = count ∧
          ∀ i, 0 ≤ i < count → bit st i = default_set.
Proof.
  intros Hc Hl. unfold bitmap_init. replace (count =? 0) with false by lia.
  cbn [byte_count]. rewrite storage_size_small by lia.
  rewrite memset_spec by (done || (apply Z.div_pos; lia)). orun.
  set (st := replicate _ _). set (b := MkBitmap (Some buf) _ _ _ _).
  assert (bm_shape (set_storage b st) st) as Hs.
  { split; simpl; [done|lia| |].
    - unfold st. rewrite length_replicate. apply Z2Nat.id, Z.div_pos; lia.
    - apply Forall_replicate, u8_range. }
  assert (∀ i, 0 ≤ i < count → bit st i = default_set) as Hbits.
  { intros i Hi. unfold st. rewrite bit_replicate.
    2:{ pose proof (bm_index _ _ i Hs Hi) as H. unfold st in H.
        by rewrite length_replicate in H. }
    pose proof (Z.mod_pos_bound i 8). rewrite u8_testbit by lia.
    destruct default_set; [|apply Z.bits_0].
    change 255 with (Z.ones 8). by apply Z.ones_spec_low; lia. }
  eexists _, st. split; [done|]. destruct default_set; cbn [negb].
  - split; [|done]. split; [done|]. left. split_and!; try done.
    intros i [Hi Hf]. by rewrite Hbits in Hf.
  - rewrite u64_small by (unfold is_u64; lia). split; [|done].
    apply set_bounds_some; try done; try (split; simpl; [lia|apply Hbits; lia]).
    intros i [Hi _]. simpl in Hi. lia.
Qed.

(** ** The bitmap as a finite set

    What the clients rely on: a bitmap represents the set of its set bits, and
    each operation is the set operation of its name. *)
Module BitmapSpec.

(** [b] is a bitmap of [n] bits whose set bits are [X]. *)
Definition bm_rep (b : bitmap_t) (n : Z) (X : gset Z) : Prop :=
  bit_count b = n ∧ (∀ i, i ∈ X → 0 ≤ i < n) ∧
  ∃ st, bm_ok b st ∧ ∀ i, 0 ≤ i < n → bit st i = bool_decide (i ∈ X).

Section rep.
Context (b : bitmap_t) (n : Z) (X : gset Z) (Hrep : bm_rep b n X).

Lemma get_rep idx : 0 ≤ idx → bitmap_get (Some b) idx = Ret (bool_decide (idx ∈ X)).
Proof using Hrep.
  destruct Hrep as (Hn & HX & st & [Hs _] & Hbits). intros Hi.
  destruct (Z.lt_ge_cases idx n).
  - rewrite (bitmap_get_spec b st), Hbits by (done || lia). done.
  - rewrite bitmap_get_high by lia. f_equal. symmetry. apply bool_decide_eq_false.
    intros Hin%HX. lia.
Qed.

Lemma updated_rep b' st st' idx v :
  bit_count b' = n → bm_ok b' st' → 0 ≤ idx < n →
  (∀ i, 0 ≤ i < n → bit st i = bool_decide (i ∈ X)) → bit_updated st st' idx v →
  bm_rep b' n (if v then {[idx]} ∪ X else X ∖ {[idx]}).
Proof using Hrep.
  destruct Hrep as (_ & HX & _). intros Hn Hok Hi Hbits Hupd.
  split; [done|]. split.
  { intros i Hin. destruct v; [|apply HX; set_solver].
    apply elem_of_union in Hin as [->%elem_of_singleton|?]; [done|by apply HX]. }
  exists st'. split; [done|]. intros i Hr. rewrite Hupd by lia.
  destruct (Z.eqb_spec i idx) as [->|Hne].
  - destruct v; symmetry; [apply bool_decide_eq_true|apply bool_decide_eq_false]; set_solver.
  - rewrite Hbits by done. apply bool_decide_ext. destruct v; set_solver.
Qed.

Lemma set_rep idx :
  0 ≤ idx < n →
  ∃ b', bitmap_set (Some b) idx = Ret (true, Some b') ∧ bm_rep b' n ({[idx]} ∪ X).
Proof using Hrep.
  intros Hi. destruct (Hrep) as (Hn & _ & st & Hok & Hbits).
  destruct (bitmap_set_spec b st idx Hok) as (b' & st' & Hr & Hok' & Hc & Hu); [lia|].
  exists b'. split; [done|]. by apply (updated_rep b' st st' idx true); [congruence|..].
Qed.

Lemma clear_rep idx :
  0 ≤ idx < n →
  ∃ b', bitmap_clear (Some b) idx = Ret (true, Some b') ∧ bm_rep b' n (X ∖ {[idx]}).
Proof using Hrep.
  intros Hi. destruct (Hrep) as (Hn & _ & st & Hok & Hbits).
  destruct (bitmap_clear_spec b st idx Hok) as (b' & st' & Hr & Hok' & Hc & Hu); [lia|].
  exists b'. split; [done|]. by apply (updated_rep b' st st' idx false); [congruence|..].
Qed.

(** Out of range, both are refused and change nothing. *)
Lemma set_clear_high idx :
  n ≤ idx → bitmap_set (Some b) idx = Ret (false, Some b) ∧
            bitmap_clear (Some b) idx = Ret (false, Some b).
Proof using Hrep.
  destruct Hrep as (Hn & _ & st & [[Hst _ _ _] _] & _). intros Hi.
  unfold bitmap_set, bitmap_clear. rewrite Hst, Hn.
  by replace (n <=? idx) with true by lia.
Qed.

Lemma find_rep :
  ∃ r, bitmap_find_clear (Some b) true = Ret r ∧
       match r with
       | Some i => 0 ≤ i < n ∧ (i ∉ X) ∧ (∀ j, 0 ≤ j < i → j ∈ X)
       | None => ∀ j, 0 ≤ j < n → j ∈ X
       end.
Proof using Hrep.
  destruct Hrep as (Hn & HX & st & Hok & Hbits).
  destruct (bitmap_find_clear_spec b st Hok) as (r & Hr & H). exists r. split; [done|].
  assert (∀ j, 0 ≤ j < n → j ∉ X → clear_bit b st j) as Hclr.
  { intros j Hj HjX. split; [lia|]. rewrite Hbits by done. by apply bool_decide_eq_false. }
  destruct r as [i|].
  - destruct H as [[Hi Hbi] Hleast]. rewrite Hn in Hi. rewrite Hbits in Hbi by done.
    split; [done|]. split; [by apply bool_decide_eq_false in Hbi|].
    intros j Hj. destruct (decide (j ∈ X)) as [|HjX]; [done|].
    apply Hclr, Hleast in HjX; lia.
  - intros j Hj. destruct (decide (j ∈ X)) as [|HjX]; [done|].
    exfalso. by apply (H j), Hclr.
Qed.
End rep.

Lemma init_rep b0 buf n default_set :
  0 < n ≤ 2 ^ 64 - 8 → Z.of_nat (length buf) = (n + 7) / 8 →
  ∃ b, bitmap_init (Some b0) (Some buf) n default_set = Ret (Some b) ∧
       bm_rep b n (if default_set then list_to_set (seqZ 0 n) else ∅).
Proof.
  intros Hn Hl. destruct (bitmap_init_spec b0 buf n default_set Hn Hl) as (b & st & Hr & Hok & Hc & Hb).
  exists b. split; [done|]. split; [done|]. split.
  { intros i Hi. destruct default_set; [|set_solver].
    apply elem_of_list_to_set, elem_of_seqZ in Hi. lia. }
  exists st. split; [done|]. intros i Hi. rewrite Hb by done. symmetry.
  destruct default_set; [apply bool_decide_eq_true|apply bool_decide_eq_false; set_solver].
  apply elem_of_list_to_set, elem_of_seqZ. lia.
Qed.

(** *** Sequences of calls *)

(** A call of the bitmap's interface, and what the caller sees of it. *)
Inductive bitmap_call :=
| CallGet (idx : Z)
| CallSet (idx : Z)
| CallClear (idx : Z)
| CallFind.
Inductive bitmap_answer :=
| AnsBool (ok : bool)
| AnsIdx (found : option Z).

Definition call_index (c : bitmap_call) : Z :=
  match c with CallGet i | CallSet i | CallClear i => i | CallFind => 0 end.

(** The implementation: the C functions, on the object in memory. *)
Definition bitmap_exec (c : bitmap_call) (b : option bitmap_t)
    : outcome (bitmap_answer * option bitmap_t) :=
  match c with
  | CallGet i => r ← bitmap_get b i; Ret (AnsBool r, b)
  | CallSet i => ('(r, b') ← bitmap_set b i; Ret (AnsBool r, b'))
  | CallClear i => ('(r, b') ← bitmap_clear b i; Ret (AnsBool r, b'))
  | CallFind => r ← bitmap_find_clear b true; Ret (AnsIdx r, b)
  end.

(** The specification: a set of indices below [n]. *)
Definition set_find (n : Z) (X : gset Z) : option Z :=
  head (filter (λ i, i ∉ X) (seqZ 0 n)).
Definition set_exec (n : Z) (c : bitmap_call) (X : gset Z) : bitmap_answer * gset Z :=
  match c with
  | CallGet i => (AnsBool (bool_decide (i ∈ X)), X)
  | CallSet i => if i <? n then (AnsBool true, {[i]} ∪ X) else (AnsBool false, X)
  | CallClear i => if i <? n then (AnsBool true, X ∖ {[i]}) else (AnsBool false, X)
  | CallFind => (AnsIdx (set_find n X), X)
  end.

Fixpoint bitmap_run (cs : list bitmap_call) (b : option bitmap_t)
    : outcome (list bitmap_answer * option bitmap_t) :=
  match cs with
  | [] => Ret ([], b)
  | c :: cs' =>
      '(a, b1) ← bitmap_exec c b;
      '(l, b2) ← bitmap_run cs' b1;
      Ret (a :: l, b2)
  end.
Fixpoint set_run (n : Z) (cs : list bitmap_call) (X : gset Z)
    : list bitmap_answer * gset Z :=
  match cs with
  | [] => ([], X)
  | c :: cs' =>
      let '(a, X1) := set_exec n c X in
      let '(l, X2) := set_run n cs' X1 in
      (a :: l, X2)
  end.

(** A filter that keeps nothing. *)
Lemma filter_Forall_not (P : Z → Prop) `{∀ x, Decision (P x)} (l : list Z) :
  Forall (λ x, ¬ P x) l → filter P l = [].
Proof. induction 1; [done|]. by rewrite filter_cons_False. Qed.

(** [head] of a filtered interval is the least element the filter keeps. *)
Lemma head_filter_seqZ (P : Z → Prop) `{∀ x, Decision (P x)} m k i :
  m ≤ i < m + k → P i → (∀ j, m ≤ j < i → ¬ P j) →
  head (filter P (seqZ m k)) = Some i.
Proof.
  intros Hi HP Hlow. replace k with ((i - m) + (k - (i - m))) by lia.
  rewrite seqZ_app, list.filter_app by lia.
  rewrite (filter_Forall_not P (seqZ m (i - m))); simpl.
  - replace (m + (i - m)) with i by lia. rewrite seqZ_cons by lia.
    by rewrite filter_cons_True by done.
  - apply list.Forall_forall. intros j Hj%elem_of_seqZ. apply Hlow. lia.
Qed.

Lemma set_find_none n X : (∀ j, 0 ≤ j < n → j ∈ X) → set_find n X = None.
Proof.
  intros H. unfold set_find. rewrite filter_Forall_not; [done|].
  apply list.Forall_forall. intros j Hj%elem_of_seqZ Hn. apply Hn, H. lia.
Qed.

Lemma exec_refines c b n X :
  bm_rep b n X → 0 ≤ call_index c →
  ∃ b', bitmap_exec c (Some b) = Ret (fst (set_exec n c X), Some b') ∧
        bm_rep b' n (snd (set_exec n c X)).
Proof.
  intros Hrep Hi. destruct c as [i|i|i|]; cbn [bitmap_exec set_exec call_index fst snd] in *.
  - rewrite (get_rep b n X) by done. by exists b.
  - destruct (Z.ltb_spec i n).
    + destruct (set_rep b n X Hrep i) as (b' & Hr & ?); [lia|]. rewrite Hr. by exists b'.
    + destruct (set_clear_high b n X Hrep i) as [Hr _]; [lia|]. rewrite Hr. by exists b.
  - destruct (Z.ltb_spec i n).
    + destruct (clear_rep b n X Hrep i) as (b' & Hr & ?); [lia|]. rewrite Hr. by exists b'.
    + destruct (set_clear_high b n X Hrep i) as [_ Hr]; [lia|]. rewrite Hr. by exists b.
  - destruct (find_rep b n X Hrep) as ([i|] & Hr & H); rewrite Hr; exists b; (split; [|done]);
      orun; do 3 f_equal.
    + destruct H as (Hr' & HX & Hlow). symmetry. apply head_filter_seqZ; [lia|done|].
      intros j Hj HjX. apply HjX, Hlow. lia.
    + by rewrite set_find_none.
Qed.

Lemma run_refines cs b n X :
  bm_rep b n X → Forall (λ c, 0 ≤ call_index c) cs →
  ∃ b', bitmap_run cs (Some b) = Ret (fst (set_run n cs X), Some b') ∧
        bm_rep b' n (snd (set_run n cs X)).
Proof.
  intros Hrep Hcs. revert b X Hrep. induction Hcs as [|c cs Hc _ IH]; intros b X Hrep.
  { by exists b. }
  destruct (exec_refines c b n X Hrep Hc) as (b1 & He & Hrep1). simpl. rewrite He. orun.
  destruct (set_exec n c X) as [a X1]. simpl in *.
  destruct (IH b1 X1 Hrep1) as (b2 & Hr & Hrep2). rewrite Hr. orun.
  destruct (set_run n cs X1) as [l X2]. by exists b2.
Qed.

(** C15: for every sequence of [bitmap_get], [bitmap_set], [bitmap_clear] and
    [bitmap_find_clear] calls on a bitmap that represents a set, the calls all
    return (no access leaves the storage array), and they answer exactly what
    the set of indices answers: [get] is membership, [set] and [clear] succeed
    iff the index is in range and then add and remove it, and [find_clear]
    yields the least index outside the set or fails when every bit is set. *)
Theorem bitmap_refines_set cs b n X :
  bm_rep b n X → Forall (λ c, 0 ≤ call_index c) cs →
  ∃ b', bitmap_run cs (Some b) = Ret (fst (set_run n cs X), Some b') ∧
        bm_rep b' n (snd (set_run n cs X)).
Proof. apply run_refines. Qed.

(** A 12-bit bitmap, as [bitmap_init] leaves it. *)
Definition demo_bitmap : bitmap_t := MkBitmap (Some [0; 0]) 12 2 0 11.

Lemma demo_bitmap_init :
  bitmap_init (Some (MkBitmap None 0 0 0 0)) (Some [7; 9]) 12 false
    = Ret (Some demo_bitmap).
Proof. reflexivity. Qed.

Lemma demo_bitmap_rep : bm_rep demo_bitmap 12 ∅.
Proof.
  destruct (init_rep (MkBitmap None 0 0 0 0) [7; 9] 12 false) as (b & Hr & Hrep);
    [lia|reflexivity|].
  rewrite demo_bitmap_init in Hr. injection Hr as <-. exact Hrep.
Qed.

Lemma bitmap_refines_set_witness :
  ∃ b', bitmap_run [CallSet 0; CallSet 1; CallFind; CallSet 11; CallClear 0; CallFind;
                    CallGet 1; CallSet 12] (Some demo_bitmap)
        = Ret ([AnsBool true; AnsBool true; AnsIdx (Some 2); AnsBool true; AnsBool true;
                AnsIdx (Some 0); AnsBool true; AnsBool false], Some b').
Proof.
  destruct (bitmap_refines_set
    [CallSet 0; CallSet 1; CallFind; CallSet 11; CallClear 0; CallFind; CallGet 1; CallSet 12]
    demo_bitmap 12 ∅ demo_bitmap_rep) as (b' & Hr & _).
  - repeat constructor; simpl; lia.
  - exists b'. rewrite Hr. vm_compute. reflexivity.
Defined.

(** [bitmap_init] yields a bitmap that represents the full or the empty
    set of [count] indices, whatever the buffer held before; the cached bounds
    are exact from the start (the bits past [count] of the last byte are never
    taken for clear ones). *)
Theorem bitmap_init_represents b0 buf count default_set :
  0 < count ≤ 2 ^ 64 - 8 → Z.of_nat (length buf) = bitmap_storage_size count →
  ∃ b, bitmap_init (Some b0) (Some buf) count default_set = Ret (Some b) ∧
       bm_rep b count (if default_set then list_to_set (seqZ 0 count) else ∅).
Proof.
  intros Hc Hl. apply init_rep; [done|]. by rewrite Hl, storage_size_small by lia.
Qed.

Lemma bitmap_init_represents_witness :
  ∃ b, bitmap_init (Some demo_bitmap) (Some [1; 2]) 12 true = Ret (Some b) ∧
       bm_rep b 12 (list_to_set (seqZ 0 12)).
Proof. apply (bitmap_init_represents demo_bitmap [1; 2] 12 true); [lia|reflexivity]. Defined.

End BitmapSpec.
