(* ===== verification/Sync.v ===== *)
(** * Sync: [kernel/include/utils/irq.h], [kernel/mp/spinlock.c]

    Interrupt masking and the spinlock.  Hojicha runs one core, so a lock that
    is taken while interrupts are off and is already held spins forever; the
    model says so with [OutOfFuel], and the theorems of the clients show that
    it never happens there. *)
From S2P Require Import Prelude.

(** [IRQ_RFLAGS_IF]: the interrupt-enable bit of RFLAGS. *)
Definition IRQ_RFLAGS_IF : Z := Z.shiftl 1 9.

(** The instructions [cli] and [sti] on RFLAGS. *)
Definition cli (rflags : Z) : Z := Z.land rflags (Z.lnot IRQ_RFLAGS_IF).
Definition sti (rflags : Z) : Z := Z.lor rflags IRQ_RFLAGS_IF.

(** [pushfq; popq; cli]: the old RFLAGS, and RFLAGS with interrupts off. *)
Definition irq_store (rflags : Z) : Z * Z := (rflags, cli rflags).

Definition irq_load (irq_state rflags : Z) : Z :=
  if negb (Z.land irq_state IRQ_RFLAGS_IF =? 0) then sti rflags else rflags.

(** [lock->locked] and RFLAGS. *)
Record spin_t := MkSpin { locked : Z; rflags : Z }.

Definition spinlock_init (lock : bool) (s : spin_t) : spin_t :=
  if negb lock then s else MkSpin 0 (rflags s).

(** [lock] says whether the pointer is non-NULL.  The test-and-set loop exits
    at once when the lock was free, and never otherwise. *)
Definition spinlock_lock (lock : bool) (s : spin_t) : outcome (Z * spin_t) :=
  if negb lock then Ret (0, s)
  else
    let '(irq_state, fl) := irq_store (rflags s) in
    if locked s =? 0 then Ret (irq_state, MkSpin 1 fl) else OutOfFuel.

Definition spinlock_unlock (irq_state : Z) (s : spin_t) : spin_t :=
  MkSpin 0 (irq_load irq_state (rflags s)).

Lemma irq_round_trip fl :
  0 ≤ fl → Z.testbit fl 9 = true → irq_load fl (cli fl) = fl.
Proof.
  intros H0 Hb. unfold irq_load, cli, sti, IRQ_RFLAGS_IF.
  rewrite land_pow2_testbit, Hb by done. simpl. rewrite Z.shiftl_1_l.
  apply Z.bits_inj'. intros i Hi.
  rewrite Z.lor_spec, Z.land_spec, Z.lnot_spec, Z.pow2_bits_eqb by done.
  destruct (Z.eqb_spec 9 i) as [<-|]; [by rewrite Hb|]. by destruct (Z.testbit fl i).
Qed.

Lemma irq_round_trip_off fl : Z.testbit fl 9 = false → irq_load fl (cli fl) = fl.
Proof.
  intros Hb. unfold irq_load, cli, IRQ_RFLAGS_IF.
  rewrite land_pow2_testbit, Hb by done. simpl. rewrite Z.shiftl_1_l.
  apply Z.bits_inj'. intros i Hi.
  rewrite Z.land_spec, Z.lnot_spec, Z.pow2_bits_eqb by done.
  destruct (Z.eqb_spec 9 i) as [<-|]; [by rewrite Hb|]. by destruct (Z.testbit fl i).
Qed.

(** Interrupts off and restored. *)
Lemma irq_section fl : irq_load fl (cli fl) = fl.
Proof.
  destruct (Z.testbit fl 9) eqn:Hb; [|by apply irq_round_trip_off].
  unfold irq_load, cli, sti, IRQ_RFLAGS_IF.
  rewrite land_pow2_testbit, Hb by done. cbn [negb]. rewrite Z.shiftl_1_l.
  apply Z.bits_inj'. intros i Hi.
  rewrite Z.lor_spec, Z.land_spec, Z.lnot_spec, Z.pow2_bits_eqb by done.
  destruct (Z.eqb_spec 9 i) as [<-|]; [by rewrite Hb|]. by destruct (Z.testbit fl i).
Qed.

(** A critical section over a free lock leaves lock and RFLAGS as they were. *)
Lemma spinlock_section s :
  0 ≤ rflags s → locked s = 0 →
  ∃ irq s1, spinlock_lock true s = Ret (irq, s1) ∧ spinlock_unlock irq s1 = s.
Proof.
  intros H0 Hl. unfold spinlock_lock, irq_store. rewrite Hl. simpl.
  eexists _, _. split; [done|]. destruct s as [l fl]. simpl in *. subst.
  unfold spinlock_unlock. simpl. f_equal.
  destruct (Z.testbit fl 9) eqn:E; [by apply irq_round_trip|by apply irq_round_trip_off].
Qed.
