(* ===== verification/Pmm.v ===== *)
(** * Pmm: [kernel/memory/pmm.c]

    The physical memory manager: the boot-time survey of the memory map, the
    page bitmap, and frame allocation.  [Pmm.v] models every function of the
    file; the accessors [pmm_state_get_*] are the projections of [pmm_state]. *)
From S2P Require Import Prelude Bitmap Sync.
Import BitmapSpec.

(** ** Data *)

Definition PAGE_SIZE : Z := 4096.
Definition PAGE_PRESENT : Z := 1.
Definition PAGE_WRITABLE : Z := 2.

Record pmm_state := MkPmm {
  total_mem : Z;
  total_pages : Z;
  free_pages : Z;
  page_size : Z;
  kernel_start : Z;
  kernel_vstart : Z;
  kernel_end : Z;
  kernel_vend : Z;
  kernel_page_count : Z;
  mem_bitmap : Z;
  bitmap_size : Z;
  max_section_length : Z;
  max_section_start_addr : Z;
  first_early_alloc_addr : Z;
  last_early_alloc_addr : Z;
  memmap_is_initialized : bool;
}.

(** The static variables of the file: [pmm], [pmm_bitmap], [pmm_spinlock]. *)
Record pmm_world := MkWorld {
  pmm : pmm_state;
  pmm_bitmap : bitmap_t;
  pmm_spinlock : spin_t;
}.

Definition set_free_pages (p : pmm_state) (n : Z) : pmm_state :=
  MkPmm (total_mem p) (total_pages p) n (page_size p) (kernel_start p)
    (kernel_vstart p) (kernel_end p) (kernel_vend p) (kernel_page_count p)
    (mem_bitmap p) (bitmap_size p) (max_section_length p)
    (max_section_start_addr p) (first_early_alloc_addr p)
    (last_early_alloc_addr p) (memmap_is_initialized p).
Definition set_last_early (p : pmm_state) (a : Z) : pmm_state :=
  MkPmm (total_mem p) (total_pages p) (free_pages p) (page_size p) (kernel_start p)
    (kernel_vstart p) (kernel_end p) (kernel_vend p) (kernel_page_count p)
    (mem_bitmap p) (bitmap_size p) (max_section_length p)
    (max_section_start_addr p) (first_early_alloc_addr p) a (memmap_is_initialized p).
Definition set_mem_bitmap (p : pmm_state) (a : Z) : pmm_state :=
  MkPmm (total_mem p) (total_pages p) (free_pages p) (page_size p) (kernel_start p)
    (kernel_vstart p) (kernel_end p) (kernel_vend p) (kernel_page_count p)
    a (bitmap_size p) (max_section_length p) (max_section_start_addr p)
    (first_early_alloc_addr p) (last_early_alloc_addr p) (memmap_is_initialized p).

Definition upd_pmm (f : pmm_state → pmm_state) : prog pmm_world unit :=
  modify (λ w, MkWorld (f (pmm w)) (pmm_bitmap w) (pmm_spinlock w)).
Definition upd_bitmap (b : bitmap_t) : prog pmm_world unit :=
  modify (λ w, MkWorld (pmm w) b (pmm_spinlock w)).
Definition upd_spin (s : spin_t) : prog pmm_world unit :=
  modify (λ w, MkWorld (pmm w) (pmm_bitmap w) s).

(** ** Page arithmetic *)

Definition align_to_next_page (addr : Z) : Z := u64 (Z.shiftr addr 12 + 1).
Definition align_to_prev_page (addr : Z) : Z := Z.shiftr addr 12.
Definition pmm_addr_to_page (addr : Z) : Z := align_to_prev_page addr.
Definition pmm_addr_to_page_ceil (addr : Z) : Z :=
  Z.shiftr (u64 (addr + PAGE_SIZE - 1)) 12.
Definition pmm_page_to_addr_base (page : Z) : Z := u64 (Z.shiftl page 12).

(** ** Frames *)

Definition early_alloc : prog pmm_world Z :=
  ret ← gets (λ w, last_early_alloc_addr (pmm w));
  _ ← upd_pmm (λ p, set_last_early p (u64 (last_early_alloc_addr p + PAGE_SIZE)));
  mret ret.

(** The static bitmap is never NULL. *)
Definition bitmap_update (f : option bitmap_t → outcome (bool * option bitmap_t))
    : prog pmm_world unit :=
  b ← gets pmm_bitmap;
  r ← lift (f (Some b));
  b' ← lift (deref (snd r));
  upd_bitmap b'.

Definition mark_page (idx : Z) : prog pmm_world unit :=
  p ← gets pmm;
  if total_pages p <=? idx then mret tt
  else
    b ← gets pmm_bitmap;
    g ← lift (bitmap_get (Some b) idx);
    if (g : bool) then mret tt
    else
      _ ← bitmap_update (λ b, bitmap_set b idx);
      when (0 <? free_pages p)
        (upd_pmm (λ p, set_free_pages p (free_pages p - 1))).

Definition clear_page (idx : Z) : prog pmm_world unit :=
  p ← gets pmm;
  if total_pages p <=? idx then mret tt
  else
    b ← gets pmm_bitmap;
    g ← lift (bitmap_get (Some b) idx);
    if negb g then mret tt
    else
      _ ← bitmap_update (λ b, bitmap_clear b idx);
      upd_pmm (λ p, set_free_pages p (u64 (free_pages p + 1))).

(** [spinlock_lock(&pmm_spinlock)] and its release. *)
Definition pmm_lock : prog pmm_world Z :=
  s ← gets pmm_spinlock;
  r ← lift (spinlock_lock true s);
  _ ← upd_spin (snd r);
  mret (fst r).
Definition pmm_unlock (lock_count : Z) : prog pmm_world unit :=
  s ← gets pmm_spinlock;
  upd_spin (spinlock_unlock lock_count s).

Definition pmm_alloc_frame : prog pmm_world Z :=
  p ← gets pmm;
  if negb (memmap_is_initialized p) then early_alloc
  else
    lock_count ← pmm_lock;
    b ← gets pmm_bitmap;
    found ← lift (bitmap_find_clear (Some b) true);
    match found with
    | Some page_idx =>
        _ ← mark_page page_idx;
        _ ← pmm_unlock lock_count;
        mret (pmm_page_to_addr_base page_idx)
    | None =>
        _ ← pmm_unlock lock_count;
        mret 0
    end.

Definition pmm_free_frame (addr : Z) : prog pmm_world unit :=
  lock_count ← pmm_lock;
  _ ← clear_page (pmm_addr_to_page addr);
  pmm_unlock lock_count.

(** ** Boot *)

(** A limine memory-map entry; the types the survey looks at. *)
Record memmap_entry := MkEntry { base : Z; length_ : Z; type_ : Z }.
Definition LIMINE_MEMMAP_USABLE : Z := 0.
Definition LIMINE_MEMMAP_ACPI_RECLAIMABLE : Z := 2.

(** What the bootloader hands over: the executable's addresses and the map. *)
Record boot_info := MkBoot {
  physical_base : Z;
  virtual_base : Z;
  entries : list memmap_entry;
  kernel_start_vaddr : Z;
  kernel_end_vaddr : Z;
}.

(** One iteration of the survey: (total_mem, max length, its start). *)
Definition survey_entry (acc : Z * Z * Z) (e : memmap_entry) : Z * Z * Z :=
  let '(total, maxlen, maxstart) := acc in
  let total := u64 (total + length_ e) in
  if ((type_ e =? LIMINE_MEMMAP_USABLE) || (type_ e =? LIMINE_MEMMAP_ACPI_RECLAIMABLE))
     && (maxlen <? length_ e)
  then (total, length_ e, base e) else (total, maxlen, maxstart).

Definition pmm_initialize (bi : boot_info) : prog pmm_world unit :=
  let kernel_size_bytes := u64 (kernel_end_vaddr bi - kernel_start_vaddr bi) in
  let kstart := physical_base bi in
  let kvend := pmm_page_to_addr_base (align_to_next_page
                 (u64 (virtual_base bi + kernel_size_bytes + 1))) in
  let kernel_end_ := u64 (kstart + kernel_size_bytes) in
  let kend := pmm_page_to_addr_base (align_to_next_page kernel_end_) in
  let kpages := pmm_addr_to_page (u64 (kernel_end_ - kstart + 4095)) in
  let '(total, maxlen, maxstart) := foldl survey_entry (0, 0, 0) (entries bi) in
  let pages := Z.shiftr total 12 in
  let bsize := bitmap_storage_size pages in
  if maxlen <? u64 (kend - kstart + bsize) then halt
  else
    let maxlen' := if total <? u64 (maxstart + maxlen)
                   then u64 (maxlen - u64 (u64 (maxstart + maxlen) - total))
                   else maxlen in
    let first := pmm_page_to_addr_base (align_to_next_page maxstart) in
    modify (λ w,
      MkWorld
        (MkPmm total pages 0 PAGE_SIZE kstart (virtual_base bi) kend kvend kpages
           (mem_bitmap (pmm w)) bsize maxlen' maxstart first first false)
        (pmm_bitmap w)
        (spinlock_init true (pmm_spinlock w))).

Section boot.
(** [vmm_map_at_paddr(g_kernel.vmm, virt, phys, flags)] of [vmm.c]; it
    allocates page-table frames from this same allocator. *)
Context (vmm_map_at_paddr : Z → Z → Z → prog pmm_world Z).
(** What the memory mapped for the bitmap holds before it is set. *)
Context (bitmap_buffer : list Z).

(** The loop over [i = 1 .. pages_for_bitmap]; the result is [bitmap_paddr],
    unset while no iteration has run. *)
Fixpoint map_bitmap_loop (n : nat) (i : Z) (bitmap_paddr : option Z)
    : prog pmm_world (option Z) :=
  match n with
  | O => mret bitmap_paddr
  | S n' =>
      addr ← early_alloc;
      kvend ← gets (λ w, kernel_vend (pmm w));
      _ ← vmm_map_at_paddr (u64 (kvend + PAGE_SIZE * i)) addr
            (Z.lor PAGE_PRESENT PAGE_WRITABLE);
      map_bitmap_loop n' (i + 1) (if i =? 1 then Some addr else bitmap_paddr)
  end.

Fixpoint clear_loop (n : nat) (i : Z) : prog pmm_world unit :=
  match n with
  | O => mret tt
  | S n' => _ ← clear_page i; clear_loop n' (i + 1)
  end.

Definition pmm_initialize_bitmap : prog pmm_world unit :=
  p0 ← gets pmm;
  let pages_for_bitmap := u64 (bitmap_size p0 + PAGE_SIZE - 1) / PAGE_SIZE in
  paddr ← map_bitmap_loop (Z.to_nat pages_for_bitmap) 1 None;
  _ ← upd_pmm (λ p, set_mem_bitmap p (u64 (kernel_vend p + PAGE_SIZE)));
  p ← gets pmm;
  b ← gets pmm_bitmap;
  b' ← lift (bitmap_init (Some b) (Some bitmap_buffer) (total_pages p) true);
  b'' ← lift (deref b');
  _ ← upd_bitmap b'';
  bitmap_paddr ← lift (deref paddr);
  let section_end := u64 (max_section_start_addr p + max_section_length p) in
  let last_page := align_to_prev_page section_end in
  let first_page_after_bitmap :=
    align_to_next_page (u64 (bitmap_paddr + bitmap_size p)) in
  if last_page <=? first_page_after_bitmap then halt
  else clear_loop
         (Z.to_nat (align_to_next_page section_end - first_page_after_bitmap + 1))
         first_page_after_bitmap.
End boot.

(** ** Specification

    The allocator owns a set of pages: [X] is the set of used page numbers. *)

Record pages_ok (w : pmm_world) (X : gset Z) : Prop := {
  ok_bitmap : bm_rep (pmm_bitmap w) (total_pages (pmm w)) X;
  ok_total : 0 ≤ total_pages (pmm w) ≤ 2 ^ 52;
  ok_free : free_pages (pmm w) = total_pages (pmm w) - Z.of_nat (size X);
}.

(** Between calls the lock is free. *)
Definition lock_free (w : pmm_world) : Prop :=
  locked (pmm_spinlock w) = 0 ∧ 0 ≤ rflags (pmm_spinlock w).

(** Everything but the bitmap and the free count is as before. *)
Definition same_but_free (w w' : pmm_world) : Prop :=
  pmm w' = set_free_pages (pmm w) (free_pages (pmm w')) ∧
  pmm_spinlock w' = pmm_spinlock w.

(** Page numbers below [n] are at most [n] many. *)
Lemma size_below (X : gset Z) n :
  0 ≤ n → (∀ i, i ∈ X → 0 ≤ i < n) → Z.of_nat (size X) ≤ n.
Proof.
  intros Hn HX. transitivity (Z.of_nat (size (list_to_set (seqZ 0 n) : gset Z))).
  - apply Nat2Z.inj_le, subseteq_size. intros i Hi. apply elem_of_list_to_set, elem_of_seqZ.
    apply HX in Hi. lia.
  - rewrite size_list_to_set by apply NoDup_seqZ. rewrite length_seqZ. lia.
Qed.

Lemma rep_size b n X : bm_rep b n X → 0 ≤ n → Z.of_nat (size X) ≤ n.
Proof. intros (_ & HX & _) Hn. by apply size_below. Qed.

Lemma size_add (X : gset Z) i : i ∉ X → Z.of_nat (size ({[i]} ∪ X)) = Z.of_nat (size X) + 1.
Proof. intros Hi. rewrite size_union by set_solver. rewrite size_singleton. lia. Qed.

Lemma size_remove (X : gset Z) i : i ∈ X → Z.of_nat (size (X ∖ {[i]})) = Z.of_nat (size X) - 1.
Proof.
  intros Hi. rewrite (union_difference_singleton_L i X) at 2 by done.
  rewrite size_add by set_solver. lia.
Qed.

Lemma wp_bitmap_update f b' Q w :
  f (Some (pmm_bitmap w)) = Ret (true, Some b') →
  Q tt (MkWorld (pmm w) b' (pmm_spinlock w)) → wp (bitmap_update f) Q w.
Proof.
  intros Hf HQ. unfold bitmap_update. apply wp_bind, wp_gets, wp_bind.
  eapply wp_lift; [exact Hf|]. apply wp_bind. by eapply wp_lift.
Qed.

Lemma wp_mark_page i X w :
  pages_ok w X → 0 ≤ i < total_pages (pmm w) → i ∉ X →
  wp (mark_page i) (λ _ w', pages_ok w' ({[i]} ∪ X) ∧ same_but_free w w') w.
Proof.
  intros [Hrep Ht Hf] Hi HX. unfold mark_page. apply wp_bind, wp_gets.
  replace (total_pages (pmm w) <=? i) with false by lia.
  apply wp_bind, wp_gets, wp_bind.
  eapply wp_lift; [eapply get_rep; [exact Hrep|lia]|]. rewrite bool_decide_eq_false_2 by done.
  destruct (set_rep _ _ _ Hrep i Hi) as (b' & Hset & Hrep').
  apply wp_bind. eapply wp_bitmap_update; [exact Hset|].
  pose proof (rep_size _ _ _ Hrep' ltac:(lia)) as Hsz. rewrite size_add in Hsz by done.
  replace (0 <? free_pages (pmm w)) with true by lia.
  apply wp_modify. split; [|done]. split; simpl; try done.
  rewrite size_add by done. lia.
Qed.

Lemma wp_clear_page i X w :
  pages_ok w X → 0 ≤ i →
  wp (clear_page i) (λ _ w', pages_ok w' (X ∖ {[i]}) ∧ same_but_free w w') w.
Proof.
  intros Hok Hi. destruct (Hok) as [Hrep Ht Hf].
  assert (i ∉ X → pages_ok w (X ∖ {[i]}) ∧ same_but_free w w) as Hskip.
  { intros HX. replace (X ∖ {[i]}) with X by set_solver. split; [done|].
    split; [by destruct (pmm w)|done]. }
  unfold clear_page. apply wp_bind, wp_gets.
  destruct (Z.leb_spec (total_pages (pmm w)) i).
  { apply wp_ret, Hskip. destruct Hrep as (_ & HX & _). intros ?%HX. lia. }
  apply wp_bind, wp_gets, wp_bind.
  eapply wp_lift; [eapply get_rep; [exact Hrep|lia]|].
  destruct (decide (i ∈ X)) as [HX|HX].
  2:{ rewrite bool_decide_eq_false_2 by done. by apply wp_ret, Hskip. }
  rewrite bool_decide_eq_true_2 by done. cbn [negb].
  destruct (clear_rep _ _ _ Hrep i ltac:(lia)) as (b' & Hclr & Hrep').
  apply wp_bind. eapply wp_bitmap_update; [exact Hclr|]. apply wp_modify.
  pose proof (rep_size _ _ _ Hrep' ltac:(lia)) as Hsz. rewrite size_remove in Hsz by done.
  simpl. rewrite u64_small by (unfold is_u64; lia).
  split; [|done]. split; simpl; try done. rewrite size_remove by done. lia.
Qed.

(** The critical sections: the lock is free on entry, so it is taken at once,
    and the value it returns puts lock and RFLAGS back. *)
Lemma wp_pmm_lock Q w :
  lock_free w →
  (∀ irq s1, spinlock_unlock irq s1 = pmm_spinlock w →
             Q irq (MkWorld (pmm w) (pmm_bitmap w) s1)) →
  wp pmm_lock Q w.
Proof.
  intros [Hl Hr] HQ. destruct (spinlock_section _ Hr Hl) as (irq & s1 & Hlock & Hun).
  unfold pmm_lock. apply wp_bind, wp_gets, wp_bind.
  eapply wp_lift; [exact Hlock|]. apply wp_bind, wp_modify, wp_ret. by apply HQ.
Qed.

Lemma wp_pmm_unlock irq Q w :
  Q tt (MkWorld (pmm w) (pmm_bitmap w) (spinlock_unlock irq (pmm_spinlock w))) →
  wp (pmm_unlock irq) Q w.
Proof. intros HQ. unfold pmm_unlock. by apply wp_bind, wp_gets, wp_modify. Qed.

(** [pages_ok] does not depend on the lock. *)
Lemma pages_ok_spin w X s :
  pages_ok w X ↔ pages_ok (MkWorld (pmm w) (pmm_bitmap w) s) X.
Proof. split; intros [? ? ?]; by split. Qed.

(** Byte address of a page number, without wrap-around. *)
Lemma page_to_addr i : 0 ≤ i < 2 ^ 52 → pmm_page_to_addr_base i = i * PAGE_SIZE.
Proof.
  intros Hi. unfold pmm_page_to_addr_base, PAGE_SIZE.
  rewrite Z.shiftl_mul_pow2 by done. rewrite u64_small; unfold is_u64; lia.
Qed.

Lemma addr_to_page i off :
  0 ≤ off < PAGE_SIZE → pmm_addr_to_page (i * PAGE_SIZE + off) = i.
Proof.
  unfold PAGE_SIZE, pmm_addr_to_page, align_to_prev_page. intros Hoff.
  rewrite Z.shiftr_div_pow2 by done. symmetry. apply Z.div_unique with off; lia.
Qed.

(** What an allocation leaves: the lowest unused page is taken, or none is
    left. *)
Definition alloc_post (w : pmm_world) (X : gset Z) (addr : Z) (w' : pmm_world) : Prop :=
  pmm_spinlock w' = pmm_spinlock w ∧
  ((addr = 0 ∧ w' = w ∧ ∀ j, 0 ≤ j < total_pages (pmm w) → j ∈ X) ∨
   (∃ i, addr = i * PAGE_SIZE ∧ 0 ≤ i < total_pages (pmm w) ∧ (i ∉ X) ∧
         (∀ j, 0 ≤ j < i → j ∈ X) ∧ pages_ok w' ({[i]} ∪ X) ∧ same_but_free w w')).

Lemma wp_pmm_alloc_frame w X :
  pages_ok w X → lock_free w → memmap_is_initialized (pmm w) = true →
  wp pmm_alloc_frame (alloc_post w X) w.
Proof.
  intros Hok Hlk Hmm.
  unfold pmm_alloc_frame. apply wp_bind, wp_gets. rewrite Hmm. cbn [negb].
  apply wp_bind, wp_pmm_lock; [done|]. intros irq s1 Hun.
  apply wp_bind, wp_gets, wp_bind. cbn [pmm_bitmap].
  destruct (find_rep _ _ _ (ok_bitmap _ _ Hok)) as ([i|] & Hr & Hf);
    (eapply wp_lift; [exact Hr|]).
  - destruct Hf as (Hi & HX & Hlow). apply wp_bind.
    eapply wp_mono; [apply wp_mark_page; [by apply pages_ok_spin|done..]|].
    intros _ w1 [Hok1 [Hp Hs]]. apply wp_bind, wp_pmm_unlock, wp_ret. simpl in *.
    rewrite Hs, Hun. split; [done|]. right. exists i.
    split; [apply page_to_addr; pose proof (ok_total _ _ Hok); lia|].
    split; [done|]. split; [done|]. split; [done|].
    split; [by apply (pages_ok_spin w1)|done].
  - apply wp_bind, wp_pmm_unlock, wp_ret. simpl. rewrite Hun.
    split; [done|]. left. by destruct w.
Qed.

Lemma wp_pmm_free_frame w X i off :
  pages_ok w X → lock_free w → 0 ≤ i → 0 ≤ off < PAGE_SIZE →
  wp (pmm_free_frame (i * PAGE_SIZE + off))
     (λ _ w', pages_ok w' (X ∖ {[i]}) ∧ same_but_free w w') w.
Proof.
  intros Hok Hlk Hi Hoff.
  unfold pmm_free_frame. rewrite addr_to_page by done.
  apply wp_bind, wp_pmm_lock; [done|]. intros irq s1 Hun. apply wp_bind.
  eapply wp_mono; [apply wp_clear_page; [by apply pages_ok_spin|done]|].
  intros _ w1 [Hok1 [Hp Hs]]. apply wp_pmm_unlock. simpl in *.
  split; [by apply (pages_ok_spin w1)|]. split; [done|]. simpl. by rewrite Hs, Hun.
Qed.

(** ** Theorems *)


(** [pmm_free_frame] of any address inside a page makes exactly that page
    unused (the free count grows by one if it was used; freeing an unused page
    or an address beyond the managed memory changes nothing), and leaves the
    lock and the interrupt flag as they were. *)
Theorem pmm_free_frame_releases w X i off :
  pages_ok w X → lock_free w → 0 ≤ i → 0 ≤ off < PAGE_SIZE →
  ∃ w', pmm_free_frame (i * PAGE_SIZE + off) w = Ret (tt, w') ∧
        pages_ok w' (X ∖ {[i]}) ∧ same_but_free w w'.
Proof.
  intros Hok Hlk Hi Hoff. pose proof (wp_pmm_free_frame w X i off Hok Hlk Hi Hoff) as Hwp.
  apply wp_inv in Hwp as ([] & w' & ? & ?). by exists w'.
Qed.

(** ** The page bitmap after boot *)

Lemma same_but_free_trans w1 w2 w3 :
  same_but_free w1 w2 → same_but_free w2 w3 → same_but_free w1 w3.
Proof. intros [H1 L1] [H2 L2]. split; [by rewrite H2, H1|by rewrite L2]. Qed.

Lemma wp_clear_loop n i X w :
  pages_ok w X → 0 ≤ i →
  wp (clear_loop n i)
     (λ _ w', pages_ok w' (X ∖ list_to_set (seqZ i (Z.of_nat n))) ∧ same_but_free w w') w.
Proof.
  revert i X w. induction n as [|n IH]; intros i X w Hok Hi; cbn [clear_loop].
  - apply wp_ret. split; [|split; [by destruct w as [[] ? ?]|done]].
    by replace (X ∖ _) with X by (apply set_eq; simpl; set_solver).
  - apply wp_bind. eapply wp_mono; [by apply wp_clear_page|]. intros _ w1 [Hok1 Hs1].
    eapply wp_mono; [apply IH; [exact Hok1|lia]|]. intros _ w2 [Hok2 Hs2].
    split; [|by eapply same_but_free_trans]. rewrite seqZ_cons by lia.
    replace (Z.pred (Z.of_nat (S n))) with (Z.of_nat n) by lia.
    replace (Z.succ i) with (i + 1) by lia. cbn [list_to_set].
    by rewrite <- difference_difference_l_L.
Qed.

(** Only the bump pointer of the early allocator differs. *)
Definition only_bumped (w w' : pmm_world) : Prop :=
  ∃ a, w' = MkWorld (set_last_early (pmm w) a) (pmm_bitmap w) (pmm_spinlock w).

Lemma only_bumped_trans w1 w2 w3 :
  only_bumped w1 w2 → only_bumped w2 w3 → only_bumped w1 w3.
Proof. intros [a ->] [b ->]. by exists b. Qed.

Section boot_spec.
Context (vmm_map : Z → Z → Z → prog pmm_world Z) (buffer : list Z).
(** While the memory map is not initialised, mapping a page returns and takes
    its page-table frames from the early allocator. *)
Context (vmm_map_bumps : ∀ v p f w,
           memmap_is_initialized (pmm w) = false →
           wp (vmm_map v p f) (λ _ w', only_bumped w w') w).

Lemma wp_map_bitmap_loop n i o w :
  1 ≤ i → memmap_is_initialized (pmm w) = false →
  wp (map_bitmap_loop vmm_map n i o)
     (λ r w', only_bumped w w' ∧
        r = if decide (n ≠ 0%nat ∧ i = 1)
            then Some (last_early_alloc_addr (pmm w)) else o) w.
Proof using vmm_map_bumps.
  revert i o w. induction n as [|n IH]; intros i o w Hi Hm; cbn [map_bitmap_loop].
  - apply wp_ret. split; [by exists (last_early_alloc_addr (pmm w)); destruct w as [[] ? ?]|].
    by rewrite decide_False by tauto.
  - apply wp_bind. unfold early_alloc. apply wp_bind, wp_gets, wp_bind, wp_modify, wp_ret.
    apply wp_bind, wp_gets, wp_bind.
    eapply wp_mono; [by apply vmm_map_bumps|]. intros _ w1 [a ->].
    eapply wp_mono; [apply IH; [lia|done]|]. intros r w2 [[b ->] Hr].
    split; [by exists b|]. revert Hr. zbool; repeat case_decide; try done; lia.
Qed.

Section run.
Context (w : pmm_world).
Let end_ := u64 (max_section_start_addr (pmm w) + max_section_length (pmm w)).
Let first := u64 (last_early_alloc_addr (pmm w) + bitmap_size (pmm w)) / PAGE_SIZE + 1.
Context (Hm : memmap_is_initialized (pmm w) = false)
        (Ht : 0 < total_pages (pmm w) ≤ 2 ^ 52) (Hf : free_pages (pmm w) = 0)
        (Hs : bitmap_size (pmm w) = bitmap_storage_size (total_pages (pmm w)))
        (Hb : Z.of_nat (length buffer) = bitmap_size (pmm w)).

Lemma bitmap_size_range : 0 < bitmap_size (pmm w) ≤ 2 ^ 50.
Proof using Hs Ht.
  clear Hb. rewrite Hs, storage_size_small by lia.
  pose proof (Z.div_mod (total_pages (pmm w) + 7) 8).
  pose proof (Z.mod_pos_bound (total_pages (pmm w) + 7) 8). lia.
Qed.

(** Up to the clearing loop: the frames are mapped and every page is used. *)
Lemma boot_prefix :
  ∃ w1, pages_ok w1 (list_to_set (seqZ 0 (total_pages (pmm w)))) ∧
    pmm_initialize_bitmap vmm_map buffer w =
    (if end_ / PAGE_SIZE <=? first then halt
     else clear_loop (Z.to_nat (end_ / PAGE_SIZE + 2 - first)) first) w1.
Proof using vmm_map_bumps Hm Ht Hf Hs Hb.
  pose proof bitmap_size_range as Hsz.
  destruct (init_rep (pmm_bitmap w) buffer (total_pages (pmm w)) true)
    as (b & Hinit & Hrep); [lia|rewrite Hb, Hs, storage_size_small; lia|].
  set (n := Z.to_nat (u64 (bitmap_size (pmm w) + PAGE_SIZE - 1) / PAGE_SIZE)).
  assert (n ≠ 0%nat) as Hn.
  { unfold n, PAGE_SIZE. rewrite u64_small by (unfold is_u64; lia).
    pose proof (Z.div_str_pos (bitmap_size (pmm w) + 4096 - 1) 4096). lia. }
  pose proof (wp_map_bitmap_loop n 1 None w ltac:(lia) Hm) as Hloop.
  apply wp_inv in Hloop as (r & w1 & Hloop & [a ->] & Hr).
  rewrite decide_True in Hr by done. subst r.
  eexists (MkWorld (set_mem_bitmap (set_last_early (pmm w) a) _) b (pmm_spinlock w)).
  split.
  { split; simpl; [done|lia|]. rewrite size_list_to_set by apply NoDup_seqZ.
    rewrite length_seqZ, Hf. lia. }
  unfold pmm_initialize_bitmap, mbind, prog_bind, gets. fold n. rewrite Hloop.
  unfold upd_pmm, upd_bitmap, modify, lift. cbn -[bitmap_init clear_loop Z.to_nat u64].
  rewrite Hinit. cbn -[clear_loop Z.to_nat u64 Z.add Z.sub].
  fold end_. unfold align_to_next_page, align_to_prev_page.
  rewrite !Z.shiftr_div_pow2 by done. change (2 ^ 12) with PAGE_SIZE.
  assert (∀ x, u64 (u64 x / PAGE_SIZE + 1) = u64 x / PAGE_SIZE + 1) as Hu.
  { intros x. apply u64_small. unfold is_u64, PAGE_SIZE. pose proof (u64_range x) as [? ?].
    pose proof (Z.div_pos (u64 x) 4096). pose proof (Z.div_le_upper_bound (u64 x) 4096 (2 ^ 64)).
    split; [lia|]. pose proof (Z.div_lt_upper_bound (u64 x) 4096 (2 ^ 52)). lia. }
  unfold end_ at 2. rewrite !Hu. fold end_ first.
  by replace (end_ / PAGE_SIZE + 1 - first + 1) with (end_ / PAGE_SIZE + 2 - first) by lia.
Qed.

(** [pmm_initialize_bitmap] returns with a page bitmap in which every
    managed page is used except those from the page after the bitmap's frames
    up to and including the two pages that follow the end of the largest
    region (the clearing loop's bound is one past [align_to_next_page]'s page),
    and with a free count that agrees; it halts exactly when the largest
    region ends at or before the page after the bitmap. *)
Theorem pmm_initialize_bitmap_frees :
  if end_ / PAGE_SIZE <=? first then pmm_initialize_bitmap vmm_map buffer w = Abort
  else ∃ w', pmm_initialize_bitmap vmm_map buffer w = Ret (tt, w') ∧
             pages_ok w' (list_to_set (seqZ 0 (total_pages (pmm w))) ∖
                          list_to_set (seqZ first (end_ / PAGE_SIZE + 2 - first))).
Proof using vmm_map_bumps Hm Ht Hf Hs Hb.
  destruct boot_prefix as (w1 & Hok & ->).
  destruct (Z.leb_spec (end_ / PAGE_SIZE) first); [done|].
  assert (0 ≤ first) as H0.
  { unfold first, PAGE_SIZE. pose proof (u64_range (last_early_alloc_addr (pmm w) +
      bitmap_size (pmm w))) as [? _].
    pose proof (Z.div_pos (u64 (last_early_alloc_addr (pmm w) + bitmap_size (pmm w))) 4096). lia. }
  pose proof (wp_clear_loop (Z.to_nat (end_ / PAGE_SIZE + 2 - first)) first _ w1 Hok H0) as Hwp.
  apply wp_inv in Hwp as ([] & w' & Hr & Hok' & _). exists w'. split; [done|].
  by rewrite Z2Nat.id in Hok' by lia.
Qed.
End run.
End boot_spec.

(** A concrete allocator: 12 pages, pages 0, 1 and 2 in use. *)
Definition demo_pmm (flag : bool) : pmm_state :=
  MkPmm (12 * 4096) 12 9 4096 0 0 0 0 0 0 2 0 0 0 0 flag.
Definition demo_world (flag : bool) : pmm_world :=
  MkWorld (demo_pmm flag) (MkBitmap (Some [7; 0]) 12 2 3 11) (MkSpin 0 514).

Lemma demo_world_ok flag : pages_ok (demo_world flag) {[0; 1; 2]} ∧ lock_free (demo_world flag).
Proof.
  split; [|by split]. split; [|simpl; lia|reflexivity].
  destruct (run_refines [CallSet 0; CallSet 1; CallSet 2] demo_bitmap 12 ∅ demo_bitmap_rep)
    as (b' & Hr & Hrep); [repeat constructor; simpl; lia|].
  assert (b' = pmm_bitmap (demo_world flag)) as ->.
  { vm_compute in Hr. injection Hr as <-. reflexivity. }
  replace {[0; 1; 2]} with (snd (set_run 12 [CallSet 0; CallSet 1; CallSet 2] ∅));
    [done|]. vm_compute. reflexivity.
Qed.


Lemma pmm_free_frame_releases_witness :
  ∃ w', pmm_free_frame (1 * PAGE_SIZE + 8) (demo_world true) = Ret (tt, w') ∧
        pages_ok w' ({[0; 1; 2]} ∖ {[1]}).
Proof.
  destruct (demo_world_ok true) as [Hok Hlk].
  destruct (pmm_free_frame_releases (demo_world true) {[0; 1; 2]} 1 8 Hok Hlk)
    as (w' & Hr & Hok' & _); [lia|unfold PAGE_SIZE; lia|].
  exists w'. split; assumption.
Defined.

(** ** The boot sequence never leaves early allocation *)

(** A program that keeps [memmap_is_initialized]. *)
Definition keeps_flag {A} (m : prog pmm_world A) : Prop :=
  ∀ w a w', m w = Ret (a, w') →
    memmap_is_initialized (pmm w') = memmap_is_initialized (pmm w).

Section keeps_flag.
Lemma keeps_ret {A} (a : A) : keeps_flag (mret a).
Proof. by intros w x w' [= <- <-]. Qed.
Lemma keeps_gets {A} (f : pmm_world → A) : keeps_flag (gets f).
Proof. by intros w x w' [= <- <-]. Qed.
Lemma keeps_lift {A} (o : outcome A) : keeps_flag (lift o).
Proof. intros w x w'. unfold lift. by destruct o; intros [= <- <-]. Qed.
Lemma keeps_halt {A} : keeps_flag (halt (A := A)).
Proof. done. Qed.
Lemma keeps_bind {A B} (m : prog pmm_world A) (f : A → prog pmm_world B) :
  keeps_flag m → (∀ a, keeps_flag (f a)) → keeps_flag (m ≫= f).
Proof.
  intros Hm Hf w b w' H. unfold mbind, prog_bind in H.
  destruct (m w) as [[a w1]| | |] eqn:E; try discriminate H.
  by rewrite (Hf _ _ _ _ H), (Hm _ _ _ E).
Qed.
Lemma keeps_upd_bitmap b : keeps_flag (upd_bitmap b).
Proof. by intros w x w' [= <- <-]. Qed.
Lemma keeps_upd_spin s : keeps_flag (upd_spin s).
Proof. by intros w x w' [= <- <-]. Qed.
Lemma keeps_upd_pmm f :
  (∀ p, memmap_is_initialized (f p) = memmap_is_initialized p) → keeps_flag (upd_pmm f).
Proof. intros Hf w x w' [= <- <-]. apply Hf. Qed.
Lemma keeps_if {A} (b : bool) (m1 m2 : prog pmm_world A) :
  keeps_flag m1 → keeps_flag m2 → keeps_flag (if b then m1 else m2).
Proof. by destruct b. Qed.
End keeps_flag.

Create HintDb pmm_keeps.
#[export] Hint Resolve keeps_ret keeps_gets keeps_lift keeps_halt keeps_bind
  keeps_upd_bitmap keeps_upd_spin keeps_upd_pmm keeps_if : pmm_keeps.

(** Unfold nothing but the program at hand, and go through its structure. *)
Ltac keeps := repeat first
  [ apply keeps_bind; [|intros ?] | apply keeps_if
  | by auto with pmm_keeps | case_match ].

Lemma keeps_early_alloc : keeps_flag early_alloc.
Proof. unfold early_alloc. keeps. Qed.
Lemma keeps_mark_page i : keeps_flag (mark_page i).
Proof. unfold mark_page, bitmap_update, when. keeps. Qed.
Lemma keeps_clear_page i : keeps_flag (clear_page i).
Proof. unfold clear_page, bitmap_update. keeps. Qed.
#[export] Hint Resolve keeps_early_alloc keeps_mark_page keeps_clear_page : pmm_keeps.
Lemma keeps_alloc_frame : keeps_flag pmm_alloc_frame.
Proof. unfold pmm_alloc_frame, pmm_lock, pmm_unlock. keeps. Qed.
Lemma keeps_free_frame a : keeps_flag (pmm_free_frame a).
Proof. unfold pmm_free_frame, pmm_lock, pmm_unlock. keeps. Qed.
Lemma keeps_clear_loop n i : keeps_flag (clear_loop n i).
Proof. revert i. induction n; intros i; simpl; keeps. Qed.
#[export] Hint Resolve keeps_alloc_frame keeps_free_frame keeps_clear_loop : pmm_keeps.

(** One call of the allocator. *)
Inductive pmm_step : pmm_world → pmm_world → Prop :=
| step_alloc w a w' : pmm_alloc_frame w = Ret (a, w') → pmm_step w w'
| step_free a w w' : pmm_free_frame a w = Ret (tt, w') → pmm_step w w'.

Lemma steps_keep w w' :
  rtc pmm_step w w' → memmap_is_initialized (pmm w') = memmap_is_initialized (pmm w).
Proof.
  induction 1 as [|w w1 w' Hs _ IH]; [done|]. rewrite IH.
  destruct Hs as [? ? ? H|? ? ? H]; [eapply keeps_alloc_frame|eapply keeps_free_frame]; exact H.
Qed.

Section reach.
Context (vmm_map : Z → Z → Z → prog pmm_world Z) (buffer : list Z).
(** Mapping a page touches the allocator's state only by calling it. *)
Context (vmm_map_allocates : ∀ v p f w r w',
           vmm_map v p f w = Ret (r, w') → rtc pmm_step w w').

(** The states the kernel can put the allocator in: [pmm_initialize], then
    [pmm_initialize_bitmap] and any allocations and releases. *)
Inductive pmm_reachable : pmm_world → Prop :=
| reach_boot bi w0 w : pmm_initialize bi w0 = Ret (tt, w) → pmm_reachable w
| reach_bitmap w w' :
    pmm_reachable w → pmm_initialize_bitmap vmm_map buffer w = Ret (tt, w') →
    pmm_reachable w'
| reach_step w w' : pmm_reachable w → pmm_step w w' → pmm_reachable w'.

Lemma keeps_map v p f : keeps_flag (vmm_map v p f).
Proof using vmm_map_allocates.
  intros w a w' H. by eapply steps_keep, vmm_map_allocates.
Qed.

Lemma keeps_map_loop n i o : keeps_flag (map_bitmap_loop vmm_map n i o).
Proof using vmm_map_allocates.
  revert i o. induction n; intros i o; simpl; [keeps|].
  apply keeps_bind; [keeps|]. intros a. apply keeps_bind; [keeps|]. intros kv.
  apply keeps_bind; [apply keeps_map|]. auto.
Qed.

Lemma reachable_early w : pmm_reachable w → memmap_is_initialized (pmm w) = false.
Proof using vmm_map_allocates.
  induction 1 as [bi w0 w H|w w' _ IH H|w w' _ IH H].
  - unfold pmm_initialize in H.
    destruct (foldl survey_entry (0, 0, 0) (entries bi)) as [[t l] s].
    destruct (l <? _); [discriminate H|]. injection H as <-. done.
  - rewrite <- IH. revert H. apply (fun K => K w tt w').
    unfold pmm_initialize_bitmap. apply keeps_bind; [keeps|]. intros p.
    apply keeps_bind; [apply keeps_map_loop|]. intros o. keeps.
  - rewrite <- IH. apply steps_keep. by apply rtc_once.
Qed.

(** C33: nothing in the boot sequence or the allocator ever sets
    [memmap_is_initialized], so in every reachable state [pmm_alloc_frame] is
    the boot-time bump allocator: it hands out the next address after the
    last one, never consults the bitmap, never reports exhaustion, and a
    freed frame is never handed out again by it. *)
Theorem pmm_stuck_in_early_alloc w :
  pmm_reachable w →
  pmm_alloc_frame w =
    Ret (last_early_alloc_addr (pmm w),
         MkWorld (set_last_early (pmm w)
                    (u64 (last_early_alloc_addr (pmm w) + PAGE_SIZE)))
                 (pmm_bitmap w) (pmm_spinlock w)).
Proof using vmm_map_allocates.
  intros Hr%reachable_early. unfold pmm_alloc_frame, gets, mbind, prog_bind.
  by rewrite Hr.
Qed.
End reach.

(** *** A concrete boot

    One usable region of 12 pages from physical address 0, a one-page kernel,
    and a mapping routine that takes one page-table frame per page. *)
Definition demo_boot : boot_info :=
  MkBoot 0 (2 ^ 32) [MkEntry 0 (12 * 4096) 0] (2 ^ 32) (2 ^ 32 + 100).
Definition demo_map (v p f : Z) : prog pmm_world Z := pmm_alloc_frame.

Definition demo_booted : pmm_world :=
  match pmm_initialize demo_boot (demo_world false) with
  | Ret (_, w) => w | _ => demo_world false
  end.

Lemma demo_map_bumps v p f w :
  memmap_is_initialized (pmm w) = false → wp (demo_map v p f) (λ _ w', only_bumped w w') w.
Proof.
  intros Hm. unfold demo_map, pmm_alloc_frame. apply wp_bind, wp_gets. rewrite Hm. cbn [negb].
  unfold early_alloc. apply wp_bind, wp_gets, wp_bind, wp_modify, wp_ret. by eexists.
Qed.

Lemma demo_booted_ok : pmm_initialize demo_boot (demo_world false) = Ret (tt, demo_booted).
Proof. vm_compute. reflexivity. Qed.

Lemma pmm_stuck_in_early_alloc_witness :
  ∃ w', pmm_alloc_frame demo_booted = Ret (4096, w').
Proof.
  eexists.
  rewrite (pmm_stuck_in_early_alloc demo_map [0; 0]
    (fun v p f w r w' H => rtc_once _ _ (step_alloc w r w' H)) demo_booted
    (reach_boot demo_map [0; 0] demo_boot (demo_world false) demo_booted demo_booted_ok)).
  reflexivity.
Defined.

(** The page-table frame taken while the bitmap was mapped (page 2) is free in
    the resulting bitmap. *)
Lemma pmm_initialize_bitmap_frees_witness :
  ∃ w', pmm_initialize_bitmap demo_map [0; 0] demo_booted = Ret (tt, w') ∧
        free_pages (pmm w') = 10 ∧ last_early_alloc_addr (pmm w') = 3 * 4096 ∧
        bitmap_get (Some (pmm_bitmap w')) 2 = Ret false.
Proof.
  assert (0 < total_pages (pmm demo_booted) ≤ 2 ^ 52) as Ht by (vm_compute; intuition congruence).
  destruct (pmm_initialize_bitmap_frees demo_map [0; 0] demo_map_bumps demo_booted
    eq_refl Ht eq_refl eq_refl eq_refl) as (w' & Hr & _).
  exists w'. split; [exact Hr|].
  vm_compute in Hr. injection Hr as <-. split; [reflexivity|split; reflexivity].
Defined.
