(* ===== verification/Frames.v ===== *)
(** * Frames: the physical memory manager as its clients see it

    [FrameAlloc] is what [vmm.c] relies on: frames in use are never handed out
    again.  [pmm.c] discharges it once its memory map is initialised. *)
From S2P Require Import Prelude Bitmap Sync Pmm.
Import BitmapSpec.

(** ** What the physical memory manager promises *)
Class FrameAlloc (F : Type) := {
  (** [pmm_alloc_frame] (0 is out of memory) and [pmm_free_frame]. *)
  fa_alloc : F → outcome (Z * F);
  fa_free : Z → F → outcome (unit * F);
  (** The end of the managed memory. *)
  fa_top : F → Z;
  (** The frames in use are exactly those of the set. *)
  fa_rep : F → gset Z → Prop;
}.

(** A page frame below [top]. *)
Definition frame_ok (top f : Z) : Prop := f mod 4096 = 0 ∧ 0 < f < top.

Class FrameLaws (F : Type) `{FrameAlloc F} := {
  fa_top_law f L : fa_rep f L → fa_top f ≤ 2 ^ 52;
  fa_alloc_law f L :
    fa_rep f L →
    ∃ a f', fa_alloc f = Ret (a, f') ∧ fa_top f' = fa_top f ∧
      ((a = 0 ∧ fa_rep f' L ∧ ∀ g, frame_ok (fa_top f) g → g ∈ L) ∨
       (frame_ok (fa_top f) a ∧ (a ∉ L) ∧ fa_rep f' ({[a]} ∪ L)));
  fa_free_law f L a :
    fa_rep f L → frame_ok (fa_top f) a →
    ∃ f', fa_free a f = Ret (tt, f') ∧ fa_top f' = fa_top f ∧ fa_rep f' (L ∖ {[a]});
}.

(** ** [pmm.c] keeps the promise *)

Definition frame_of (i : Z) : Z := i * PAGE_SIZE.

Definition pmm_frames (w : pmm_world) (L : gset Z) : Prop :=
  ∃ X, pages_ok w X ∧ lock_free w ∧ memmap_is_initialized (pmm w) = true ∧
       0 ∈ X ∧ total_pages (pmm w) ≤ 2 ^ 40 ∧ L = set_map frame_of X.

#[global] Instance pmm_frame_alloc : FrameAlloc pmm_world := {
  fa_alloc := pmm_alloc_frame;
  fa_free := pmm_free_frame;
  fa_top w := total_pages (pmm w) * PAGE_SIZE;
  fa_rep := pmm_frames;
}.

Lemma frame_of_elem (X : gset Z) i : frame_of i ∈ (set_map frame_of X : gset Z) ↔ i ∈ X.
Proof.
  rewrite elem_of_map. unfold frame_of, PAGE_SIZE. split; [|by eauto].
  intros (j & Hj & ?). by replace i with j by lia.
Qed.

Lemma same_but_free_flags w w' :
  same_but_free w w' → lock_free w → memmap_is_initialized (pmm w) = true →
  lock_free w' ∧ memmap_is_initialized (pmm w') = true ∧ total_pages (pmm w') = total_pages (pmm w).
Proof. intros [Hp Hs] Hl Hm. unfold lock_free. rewrite Hs. split; [done|]. by rewrite Hp. Qed.

#[global] Instance pmm_frame_laws : FrameLaws pmm_world.
Proof.
  split.
  - intros w L (X & _ & _ & _ & _ & Ht & _). cbn. unfold PAGE_SIZE. lia.
  - intros w L (X & Hok & Hlk & Hm & H0 & Ht & ->).
    pose proof (wp_pmm_alloc_frame w X Hok Hlk Hm) as Hwp.
    apply wp_inv in Hwp as (a & w' & Hr & Hs & Hcase). exists a, w'. split; [done|].
    destruct Hcase as [(-> & -> & Hfull)|(i & -> & Hi & HiX & _ & Hok' & Hsame)].
    + split; [done|]. left. split; [done|]. split; [by exists X|].
      intros g [Hg0 Hg]. cbn in Hg. unfold PAGE_SIZE in Hg.
      replace g with (frame_of (g / 4096)) by (unfold frame_of, PAGE_SIZE; zdiv).
      apply frame_of_elem, Hfull. zdiv.
    + destruct (same_but_free_flags _ _ Hsame Hlk Hm) as (Hlk' & Hm' & Ht').
      split; [cbn; by rewrite Ht'|]. right. assert (i ≠ 0) by (intros ->; done).
      split; [split; cbn; unfold PAGE_SIZE; [apply Z.mod_mul; lia|lia]|].
      split; [change (i * PAGE_SIZE) with (frame_of i); by rewrite frame_of_elem|].
      exists ({[i]} ∪ X). split; [done|]. split; [done|]. split; [done|]. split; [set_solver|].
      split; [by rewrite Ht'|]. change (i * PAGE_SIZE) with (frame_of i). set_solver.
  - intros w L a (X & Hok & Hlk & Hm & H0 & Ht & ->) [Ha Hb].
    cbn in Hb. unfold PAGE_SIZE in Hb. set (i := a / 4096). assert (a = i * 4096 + 0) as Hai by zdiv.
    pose proof (wp_pmm_free_frame w X i 0 Hok Hlk) as Hwp. unfold PAGE_SIZE in Hwp.
    rewrite <- Hai in Hwp. specialize (Hwp ltac:(zdiv) ltac:(lia)).
    apply wp_inv in Hwp as ([] & w' & Hr & Hok' & Hsame). exists w'. split; [done|].
    destruct (same_but_free_flags _ _ Hsame Hlk Hm) as (Hlk' & Hm' & Ht').
    split; [cbn; by rewrite Ht'|]. exists (X ∖ {[i]}). split; [done|]. split; [done|]. split; [done|].
    assert (i ≠ 0) by lia. split; [set_solver|]. split; [by rewrite Ht'|].
    apply set_eq. intros g. rewrite elem_of_difference, elem_of_singleton, !elem_of_map.
    unfold frame_of, PAGE_SIZE. split.
    + intros [(j & -> & Hj) Hne]. exists j. split; [done|]. set_solver by lia.
    + intros (j & -> & Hj). apply elem_of_difference in Hj as [Hj Hne]. split; [by exists j|].
      intros E. apply Hne, elem_of_singleton. lia.
Qed.
