(* ===== verification/Alloc.v ===== *)
(** * Alloc: what an allocator promises its clients

    Three allocators are stacked in the kernel: [hmalloc.c] over pages, [slab.c]
    over [malloc], and everything that keeps linked nodes over [slab_calloc].
    [Allocator] is the interface between the layers; a client is written and
    proved against [AllocatorLaws], and an implementation discharges it. *)
From S2P Require Import Prelude.

Section interface.
Context (A : Type).

Class Allocator := {
  (** The live blocks: payload address to size in bytes. *)
  al_live : A → gmap Z Z;
  (** The allocator's own invariant. *)
  al_ok : A → Prop;
  (** Zero is NULL. *)
  al_alloc : Z → A → outcome (Z * A);
  al_free : Z → A → outcome (unit * A);
}.
End interface.

Arguments al_live {A _}.
Arguments al_ok {A _}.
Arguments al_alloc {A _}.
Arguments al_free {A _}.

(** [[p, p + n)] meets no block of [m]. *)
Definition block_fresh (p n : Z) (m : gmap Z Z) : Prop :=
  ∀ q k, m !! q = Some k → p + n ≤ q ∨ q + k ≤ p.

(** The laws hold for requests of less than [L] bytes: an allocator that adds a
    header to every block passes larger requests on than it receives. *)
Class AllocatorLaws (L : Z) (A : Type) `{Allocator A} := {
  (** A request returns; it either fails and changes no block, or adds one new
      block of at least the requested size that meets no live one. *)
  al_alloc_law (a : A) n :
    al_ok a → 0 < n < L →
    ∃ p a', al_alloc n a = Ret (p, a') ∧ al_ok a' ∧
      ((p = 0 ∧ al_live a' = al_live a) ∨
       (∃ k, 0 < p ∧ n ≤ k ∧ p + k ≤ 2 ^ 64 ∧ al_live a !! p = None ∧
        block_fresh p k (al_live a) ∧ al_live a' = <[p := k]> (al_live a)));
  al_free_law (a : A) p n :
    al_ok a → al_live a !! p = Some n →
    ∃ a', al_free p a = Ret (tt, a') ∧ al_ok a' ∧ al_live a' = delete p (al_live a);
  al_free_null (a : A) : al_free 0 a = Ret (tt, a);
}.

(** ** Blocks *)
Section blocks.
Implicit Types (L : gmap Z Z).

(** Blocks that are apart and inside the address space. *)
Record blocks_ok L : Prop := {
  bo_range p k : L !! p = Some k → 0 < p ∧ 0 < k ∧ p + k ≤ 2 ^ 64;
  bo_apart p k q j : L !! p = Some k → L !! q = Some j → p ≠ q → p + k ≤ q ∨ q + j ≤ p;
}.

(** A request of [n] bytes turned [L] into [L']. *)
Definition took L (p n : Z) L' : Prop :=
  (p = 0 ∧ L' = L) ∨
  (∃ k, 0 < p ∧ n ≤ k ∧ p + k ≤ 2 ^ 64 ∧ L !! p = None ∧ block_fresh p k L ∧ L' = <[p := k]> L).
Definition undo (p : Z) L : gmap Z Z := if p =? 0 then L else delete p L.

Lemma took_mono L p n L' q k : took L p n L' → L !! q = Some k → L' !! q = Some k.
Proof.
  intros [[_ ->]|(j & _ & _ & _ & Hn & _ & ->)] Hq; [done|]. rewrite lookup_insert_ne; [done|]. congruence.
Qed.
Lemma took_blocks L p n L' : blocks_ok L → took L p n L' → 0 < n → blocks_ok L'.
Proof.
  intros Hb Ht Hn. destruct Ht as [[_ ->]|(j & Hp & Hj & Hend & Hnone & Hf & ->)]; [done|]. split.
  - intros q k [[<- <-]|[_ Hq]]%lookup_insert_Some; [lia|by apply (bo_range _ Hb)].
  - intros q k r i [[<- <-]|[Hne Hq]]%lookup_insert_Some [[<- <-]|[Hne' Hr]]%lookup_insert_Some Hqr; try done.
    + by apply Hf.
    + destruct (Hf _ _ Hq); lia.
    + by eapply (bo_apart _ Hb).
Qed.
Lemma took_undo L p n L' : took L p n L' → undo p L' = L.
Proof.
  intros [[-> ->]|(j & Hp & _ & _ & Hn & _ & ->)]; unfold undo; [done|].
  rewrite (proj2 (Z.eqb_neq p 0)) by lia. by apply delete_insert_id.
Qed.
Lemma undo_comm p q L : undo p (undo q L) = undo q (undo p L).
Proof. unfold undo. destruct (p =? 0), (q =? 0); try done. apply delete_delete. Qed.
Lemma undo_blocks p L : blocks_ok L → blocks_ok (undo p L).
Proof.
  intros Hb. unfold undo. destruct (p =? 0); [done|]. split.
  - intros q k [_ Hq]%lookup_delete_Some. by apply (bo_range _ Hb).
  - intros q k r j [_ Hq]%lookup_delete_Some [_ Hr]%lookup_delete_Some. by apply (bo_apart _ Hb).
Qed.

Lemma took_live L p n L' : took L p n L' → p = 0 ∨ is_Some (L' !! p).
Proof. intros [[-> _]|(k & _ & _ & _ & _ & _ & ->)]; [by left|right]. rewrite lookup_insert_eq. by eexists. Qed.
Lemma undo_keeps p q L : p ≠ q ∨ p = 0 → is_Some (L !! q) → is_Some (undo p L !! q).
Proof.
  unfold undo. intros Hpq Hq. destruct (Z.eqb_spec p 0); [done|]. rewrite lookup_delete_ne; [done|naive_solver].
Qed.
Lemma took_ne L p n L' q : took L p n L' → is_Some (L !! q) → p ≠ q ∨ p = 0.
Proof.
  intros [[-> _]|(k & _ & _ & _ & Hn & _)] [j Hj]; [by right|left]. intros ->. congruence.
Qed.

(** Three requests are given back in any order. *)
Lemma give_back_three L p1 n1 L1 p2 n2 L2 p3 n3 L3 :
  took L p1 n1 L1 → took L1 p2 n2 L2 → took L2 p3 n3 L3 →
  (p1 = 0 ∨ is_Some (L3 !! p1)) ∧ (p2 = 0 ∨ is_Some (undo p1 L3 !! p2)) ∧
  (p3 = 0 ∨ is_Some (undo p2 (undo p1 L3) !! p3)) ∧ undo p3 (undo p2 (undo p1 L3)) = L.
Proof.
  intros H1 H2 H3. pose proof (took_live _ _ _ _ H1) as E1. pose proof (took_live _ _ _ _ H2) as E2.
  pose proof (took_live _ _ _ _ H3) as E3.
  assert (∀ q, is_Some (L1 !! q) → is_Some (L2 !! q)) as M12 by (intros q [k Hk]; eexists; eapply took_mono; eauto).
  assert (∀ q, is_Some (L2 !! q) → is_Some (L3 !! q)) as M23 by (intros q [k Hk]; eexists; eapply took_mono; eauto).
  assert (p2 = 0 ∨ p1 = 0 ∨ p1 ≠ p2) as N12.
  { destruct E1 as [?|E1]; [auto|]. destruct (took_ne _ _ _ _ _ H2 E1) as [?|?]; auto. }
  assert (p3 = 0 ∨ p1 = 0 ∨ p1 ≠ p3) as N13.
  { destruct E1 as [?|E1]; [auto|]. destruct (took_ne _ _ _ _ _ H3 (M12 _ E1)) as [?|?]; auto. }
  assert (p3 = 0 ∨ p2 = 0 ∨ p2 ≠ p3) as N23.
  { destruct E2 as [?|E2]; [auto|]. destruct (took_ne _ _ _ _ _ H3 E2) as [?|?]; auto. }
  split; [naive_solver|]. split.
  { destruct N12 as [?|N12]; [by left|]. destruct E2 as [?|E2]; [by left|right].
    apply undo_keeps; [naive_solver|auto]. }
  split.
  { destruct E3 as [?|E3]; [by left|right]. destruct (decide (p3 = 0)) as [->|]; [|].
    - destruct H3 as [[_ ->]|(k & ? & _)]; [|lia]. destruct E3 as [k Hk].
      do 2 (apply undo_keeps; [destruct (decide (p1 = 0)), (decide (p2 = 0)); naive_solver|]). by eexists.
    - apply undo_keeps; [naive_solver|]. apply undo_keeps; [naive_solver|done]. }
  rewrite (undo_comm p2 p1), (undo_comm p3 p1), (undo_comm p3 p2).
  by rewrite (took_undo _ _ _ _ H3), (took_undo _ _ _ _ H2), (took_undo _ _ _ _ H1).
Qed.
End blocks.

Lemma allocator_laws_weaken {A : Type} `{Allocator A} L L' :
  L' ≤ L → AllocatorLaws L A → AllocatorLaws L' A.
Proof.
  intros HL Hlaws. split.
  - intros a n Hok Hn. apply al_alloc_law; [done|lia].
  - intros a p n. apply al_free_law.
  - apply al_free_null.
Qed.

(** The addresses an allocator may still hand out. *)
Class AllocatorArena (A : Type) `{Allocator A} := {
  al_arena : A → Z → Prop;
  al_arena_alloc (a : A) n p a' : al_ok a → 0 < n → al_alloc n a = Ret (p, a') →
    (∀ x, al_arena a' x → al_arena a x) ∧
    (p ≠ 0 → ∀ k x, al_live a' !! p = Some k → p ≤ x < p + k → al_arena a x);
  al_arena_free (a : A) p a' : al_ok a → al_free p a = Ret (tt, a') → ∀ x, al_arena a' x → al_arena a x;
}.

(** ** A simple instance: a bump allocator with a budget

    It shows that the laws can hold, and instantiates them in the examples. *)
Record bump := MkBump { bump_next : Z; bump_budget : nat; bump_live : gmap Z Z }.

Definition bump_ok (b : bump) : Prop :=
  0 < bump_next b ∧ ∀ p n, bump_live b !! p = Some n → 0 < n ∧ p + n ≤ bump_next b.
Definition bump_alloc (n : Z) (b : bump) : outcome (Z * bump) :=
  match bump_budget b with
  | S k =>
      if bump_next b + n <=? 2 ^ 64
      then Ret (bump_next b,
                MkBump (bump_next b + n) k (<[bump_next b := n]> (bump_live b)))
      else Ret (0, b)
  | O => Ret (0, b)
  end.
Definition bump_free (p : Z) (b : bump) : outcome (unit * bump) :=
  Ret (tt, if p =? 0 then b
           else MkBump (bump_next b) (bump_budget b) (delete p (bump_live b))).

#[global] Instance bump_allocator : Allocator bump := {
  al_live := bump_live; al_ok b := bump_ok b ∧ bump_live b !! 0 = None;
  al_alloc := bump_alloc; al_free := bump_free;
}.

#[global] Instance bump_laws L : AllocatorLaws L bump.
Proof.
  split.
  - intros a n [[H0 Hok] Hz] Hn. simpl. unfold bump_alloc.
    destruct (bump_budget a) as [|k];
      [exists 0, a; by split; [|split; [|left]]|].
    destruct (Z.leb_spec (bump_next a + n) (2 ^ 64));
      [|exists 0, a; by split; [|split; [|left]]].
    eexists _, _. split; [done|].
    assert (block_fresh (bump_next a) n (bump_live a)) as Hf
      by (intros q m Hq%Hok; lia).
    assert (bump_live a !! bump_next a = None) as Hnone.
    { destruct (bump_live a !! bump_next a) as [m|] eqn:E; [|done]. apply Hok in E. lia. }
    split; [|right; exists n; simpl; split_and!; (done || lia)].
    split; [|simpl; by rewrite lookup_insert_ne by lia]. split; simpl; [lia|].
    intros p m. rewrite lookup_insert_Some. intros [[<- <-]|[_ Hp%Hok]]; lia.
  - intros a p n [[H0 Hok] Hz] Hp. simpl in *. unfold bump_free.
    replace (p =? 0) with false by (symmetry; apply Z.eqb_neq; congruence).
    eexists. split; [done|]. split; [|done]. split; simpl; [split; [done|]|].
    + intros q m Hq. simpl in Hq. apply lookup_delete_Some in Hq as [_ Hq]. eauto.
    + rewrite lookup_delete_None. eauto.
  - done.
Qed.

#[global] Instance bump_arena : AllocatorArena bump.
Proof.
  refine {| al_arena := λ b x, bump_next b ≤ x |}.
  - intros a n p a' [[H0 Hok] Hz] Hn. cbn. unfold bump_alloc.
    destruct (bump_budget a) as [|k]; [intros [= <- <-]; split; [done|]; intros Hp; by destruct Hp|].
    destruct (Z.leb_spec (bump_next a + n) (2 ^ 64)); [|intros [= <- <-]; split; [done|]; intros Hp; by destruct Hp].
    intros [= <- <-]. cbn. split; [lia|]. intros _ j x. rewrite lookup_insert_eq. intros [= <-]. lia.
  - intros a p a' _. cbn. unfold bump_free. intros [= <-] x. by destruct (p =? 0).
Defined.
