(* ===== verification/Hmalloc.v ===== *)
(** * Hmalloc: [libc/hmalloc/hmalloc.c]

    The general-purpose allocator of the kernel and of user programs: a heap of
    contiguous blocks with boundary tags (a packed header of 25 bytes before the
    payload, a footer of 8 bytes after it), an address-ordered list of the free
    blocks, splitting on allocation and coalescing on release.

    The heap memory is kept by field: [h_size !! a] is [size_bytes] of the
    header at address [a], and so on; a load from an address where no header was
    ever written is a [Fault].  The pages come from [HeapSource]: [vmm_map] in
    the kernel, [sbrk] in a user program. *)
From S2P Require Import Prelude Sync Alloc.

(** ** The pages below the heap *)
Class HeapSource (M : Type) := {
  (** [map_heap_pages(addr, pages)]: 0 is failure. *)
  hs_map : Z → Z → M → outcome (Z * M);
}.
Class HeapSourceLaws (M : Type) `{HeapSource M} := {
  (** It maps at the address asked for, below the middle of the address space,
      or fails. *)
  hs_map_law (m : M) a n :
    0 < a → 0 < n → a mod 4096 = 0 →
    ∃ r m', hs_map a n m = Ret (r, m') ∧ (r = 0 ∨ (r = a ∧ a + n * 4096 ≤ 2 ^ 63));
}.

(** ** Data *)
Definition PAGE_SIZE : Z := 4096.
Definition MAX_GROW_SIZE : Z := 160.
Definition SIZEOF_HEADER : Z := 25.
Definition SIZEOF_FOOTER : Z := 8.
Definition BLOCK_OVERHEAD : Z := SIZEOF_HEADER + SIZEOF_FOOTER.

Record hstate (M : Type) := MkHeap {
  (** [struct block_header], by field. *)
  h_free : gmap Z bool;
  h_size : gmap Z Z;
  h_next : gmap Z Z;
  h_footer : gmap Z Z;
  (** [struct block_footer]. *)
  f_header : gmap Z Z;
  (** The static variables of the file, the flags register, the pages. *)
  free_regions : Z;
  heap_grow_size : Z;
  first_available_vaddr : Z;
  last_footer : Z;
  heap_initialized : bool;
  rflags : Z;
  source : M;
}.
Arguments MkHeap {M} _ _ _ _ _ _ _ _ _ _ _ _.
Arguments h_free {M} _.
Arguments h_size {M} _.
Arguments h_next {M} _.
Arguments h_footer {M} _.
Arguments f_header {M} _.
Arguments free_regions {M} _.
Arguments heap_grow_size {M} _.
Arguments first_available_vaddr {M} _.
Arguments last_footer {M} _.
Arguments heap_initialized {M} _.
Arguments rflags {M} _.
Arguments source {M} _.

Definition addr_to_page (addr : Z) : Z := addr / PAGE_SIZE.
Definition page_to_addr_base (page : Z) : Z := u64 (page * PAGE_SIZE).
Definition align_up (addr alignment : Z) : Z :=
  Z.land (u64 (addr + alignment - 1)) (UINT64_MAX - (alignment - 1)).

(** [Some pages] is [true] with [*pages] stored. *)
Definition bytes_to_pages (size : Z) : option Z :=
  if UINT64_MAX - BLOCK_OVERHEAD - PAGE_SIZE + 1 <? size then None
  else
    let pages := addr_to_page (u64 (size + BLOCK_OVERHEAD + PAGE_SIZE - 1)) in
    Some (if pages =? 0 then 1 else pages).

Section ops.
Context {M : Type} {source_M : HeapSource M}.
Abbreviation W := (hstate M).

(** *** Field loads and stores *)
Definition get {V} (f : W → gmap Z V) (a : Z) : prog W V := λ w,
  v ← deref (f w !! a); Ret (v, w).

Definition set_is_free (a : Z) (v : bool) : prog W unit := modify (λ w,
  MkHeap (<[a := v]> (h_free w)) (h_size w) (h_next w) (h_footer w) (f_header w)
    (free_regions w) (heap_grow_size w) (first_available_vaddr w) (last_footer w)
    (heap_initialized w) (rflags w) (source w)).
Definition set_size (a v : Z) : prog W unit := modify (λ w,
  MkHeap (h_free w) (<[a := v]> (h_size w)) (h_next w) (h_footer w) (f_header w)
    (free_regions w) (heap_grow_size w) (first_available_vaddr w) (last_footer w)
    (heap_initialized w) (rflags w) (source w)).
Definition set_next (a v : Z) : prog W unit := modify (λ w,
  MkHeap (h_free w) (h_size w) (<[a := v]> (h_next w)) (h_footer w) (f_header w)
    (free_regions w) (heap_grow_size w) (first_available_vaddr w) (last_footer w)
    (heap_initialized w) (rflags w) (source w)).
Definition set_footer (a v : Z) : prog W unit := modify (λ w,
  MkHeap (h_free w) (h_size w) (h_next w) (<[a := v]> (h_footer w)) (f_header w)
    (free_regions w) (heap_grow_size w) (first_available_vaddr w) (last_footer w)
    (heap_initialized w) (rflags w) (source w)).
Definition set_header (a v : Z) : prog W unit := modify (λ w,
  MkHeap (h_free w) (h_size w) (h_next w) (h_footer w) (<[a := v]> (f_header w))
    (free_regions w) (heap_grow_size w) (first_available_vaddr w) (last_footer w)
    (heap_initialized w) (rflags w) (source w)).
Definition set_free_regions (v : Z) : prog W unit := modify (λ w,
  MkHeap (h_free w) (h_size w) (h_next w) (h_footer w) (f_header w)
    v (heap_grow_size w) (first_available_vaddr w) (last_footer w)
    (heap_initialized w) (rflags w) (source w)).
Definition set_last_footer (v : Z) : prog W unit := modify (λ w,
  MkHeap (h_free w) (h_size w) (h_next w) (h_footer w) (f_header w)
    (free_regions w) (heap_grow_size w) (first_available_vaddr w) v
    (heap_initialized w) (rflags w) (source w)).
Definition set_statics (grow first : Z) (init : bool) : prog W unit := modify (λ w,
  MkHeap (h_free w) (h_size w) (h_next w) (h_footer w) (f_header w)
    (free_regions w) grow first (last_footer w) init (rflags w) (source w)).
Definition set_rflags (v : Z) : prog W unit := modify (λ w,
  MkHeap (h_free w) (h_size w) (h_next w) (h_footer w) (f_header w)
    (free_regions w) (heap_grow_size w) (first_available_vaddr w) (last_footer w)
    (heap_initialized w) v (source w)).

Definition map_heap_pages (a n : Z) : prog W Z := λ w,
  '(r, m) ← hs_map a n (source w);
  Ret (r, MkHeap (h_free w) (h_size w) (h_next w) (h_footer w) (f_header w)
            (free_regions w) (heap_grow_size w) (first_available_vaddr w) (last_footer w)
            (heap_initialized w) (rflags w) m).

Definition hmalloc_lock : prog W Z :=
  fl ← gets rflags;
  _ ← set_rflags (snd (irq_store fl));
  mret (fst (irq_store fl)).
Definition hmalloc_unlock (irq_state : Z) : prog W unit :=
  fl ← gets rflags;
  set_rflags (irq_load irq_state fl).

(** No walk of the free list is longer than the number of headers. *)
Definition list_fuel : prog W nat := gets (λ w, S (size (h_next w))).

(** *** The free list *)

Fixpoint insert_loop (n : nat) (prev block : Z) : prog W Z :=
  match n with
  | O => diverge
  | S n' =>
      nx ← get h_next prev;
      if negb (nx =? 0) && (nx <? block) then insert_loop n' nx block else mret prev
  end.

Definition insert_free_block (block : Z) : prog W unit :=
  if block =? 0 then mret tt
  else
    _ ← set_is_free block true;
    fr ← gets free_regions;
    if (fr =? 0) || (block <? fr) then
      _ ← set_next block fr;
      set_free_regions block
    else
      n ← list_fuel;
      prev ← insert_loop n fr block;
      nx ← get h_next prev;
      _ ← set_next block nx;
      set_next prev block.

Fixpoint find_first_fit_loop (n : nat) (block sz : Z) : prog W Z :=
  match n with
  | O => diverge
  | S n' =>
      if block =? 0 then mret 0
      else
        s ← get h_size block;
        f ← get h_free block;
        if (sz <=? s) && f then mret block
        else nx ← get h_next block; find_first_fit_loop n' nx sz
  end.
Definition find_first_fit_block (block sz : Z) : prog W Z :=
  n ← list_fuel;
  find_first_fit_loop n block sz.

(** [while (prev->next != NULL && prev->next != block)] *)
Fixpoint seek_loop (n : nat) (prev block : Z) : prog W Z :=
  match n with
  | O => diverge
  | S n' =>
      nx ← get h_next prev;
      if negb (nx =? 0) && negb (nx =? block) then seek_loop n' nx block else mret prev
  end.

Definition remove_from_free_list (block : Z) : prog W unit :=
  fr ← gets free_regions;
  if (block =? 0) || (fr =? 0) then mret tt
  else if fr =? block then
    nx ← get h_next block;
    _ ← set_free_regions nx;
    set_next block 0
  else
    n ← list_fuel;
    prev ← seek_loop n fr block;
    nx ← get h_next prev;
    if nx =? block then
      bx ← get h_next block;
      _ ← set_next prev bx;
      set_next block 0
    else mret tt.

(** [while (prev != NULL && prev->next != old_block)] *)
Fixpoint replace_loop (n : nat) (prev old : Z) : prog W Z :=
  match n with
  | O => diverge
  | S n' =>
      if prev =? 0 then mret 0
      else
        nx ← get h_next prev;
        if negb (nx =? old) then replace_loop n' nx old else mret prev
  end.

Definition replace_free_list_block (old_block new_block : Z) : prog W unit :=
  if (old_block =? 0) || (new_block =? 0) then mret tt
  else
    fr ← gets free_regions;
    if fr =? old_block then
      nx ← get h_next old_block;
      _ ← set_next new_block nx;
      _ ← set_free_regions new_block;
      set_next old_block 0
    else
      n ← list_fuel;
      prev ← replace_loop n fr old_block;
      if negb (prev =? 0) then
        nx ← get h_next old_block;
        _ ← set_next new_block nx;
        _ ← set_next prev new_block;
        set_next old_block 0
      else
        _ ← insert_free_block new_block;
        set_next old_block 0.

(** *** Blocks *)

Definition is_block_header_in_heap (block : Z) : prog W bool :=
  w ← gets id;
  mret (negb (block =? 0) && (first_available_vaddr w <=? block) &&
        (u64 (block + SIZEOF_HEADER) <=? last_footer w)).
Definition is_footer_in_heap (footer : Z) : prog W bool :=
  w ← gets id;
  mret (negb (footer =? 0) && (first_available_vaddr w <=? footer) && (footer <=? last_footer w)).

Definition get_next (block : Z) : prog W Z :=
  ok ← is_block_header_in_heap block;
  if negb ok then mret 0
  else
    footer_addr ← get h_footer block;
    ok ← is_footer_in_heap footer_addr;
    if negb ok then mret 0
    else
      let next_addr := u64 (footer_addr + SIZEOF_FOOTER) in
      lf ← gets last_footer;
      if lf <=? next_addr then mret 0
      else
        ok ← is_block_header_in_heap next_addr;
        if negb ok then mret 0
        else
          nf ← get h_footer next_addr;
          ok ← is_footer_in_heap nf;
          if negb ok then mret 0
          else
            h ← get f_header nf;
            if negb (h =? next_addr) then mret 0 else mret next_addr.

Definition get_previous (block : Z) : prog W Z :=
  ok ← is_block_header_in_heap block;
  if negb ok then mret 0
  else
    first ← gets first_available_vaddr;
    if block <? u64 (first + SIZEOF_HEADER + SIZEOF_FOOTER) then mret 0
    else
      let previous_footer := u64 (block - SIZEOF_FOOTER) in
      ok ← is_footer_in_heap previous_footer;
      if negb ok then mret 0
      else
        previous ← get f_header previous_footer;
        ok ← is_block_header_in_heap previous;
        if negb ok then mret 0
        else if block <=? previous then mret 0
        else
          pf ← get h_footer previous;
          if negb (pf =? previous_footer) then mret 0 else mret previous.

Definition merge_blocks (first second : Z) : prog W unit :=
  ff ← get h_footer first;
  _ ← set_header ff 0;
  sf ← get h_footer second;
  _ ← set_footer first sf;
  _ ← set_header sf first;
  sn ← get h_next second;
  _ ← set_next first sn;
  fs ← get h_size first;
  ss ← get h_size second;
  _ ← set_size first (u64 (fs + (ss + BLOCK_OVERHEAD)));
  _ ← set_is_free second false;
  _ ← set_size second 0;
  _ ← set_next second 0;
  set_footer second 0.

Definition set_footer_at (block addr : Z) : prog W unit :=
  _ ← set_header addr block;
  set_footer block addr.

Definition split_region (block sz : Z) : prog W Z :=
  let leftover := u64 (block + SIZEOF_HEADER + SIZEOF_FOOTER + sz) in
  bf ← get h_footer block;
  _ ← set_footer leftover bf;
  _ ← set_header bf leftover;
  _ ← set_footer_at block (u64 (leftover - SIZEOF_FOOTER));
  bs ← get h_size block;
  _ ← set_size leftover (u64 (bs - sz - SIZEOF_HEADER - SIZEOF_FOOTER));
  bn ← get h_next block;
  _ ← set_next leftover bn;
  _ ← set_is_free leftover true;
  mret leftover.

Definition occupy_block (block sz : Z) : prog W unit :=
  _ ← set_is_free block false;
  let size_needed_for_split := u64 (sz + SIZEOF_HEADER + SIZEOF_FOOTER) in
  bs ← get h_size block;
  _ ← (if bs <=? size_needed_for_split then remove_from_free_list block
       else
         leftover ← split_region block sz;
         _ ← set_size block sz;
         replace_free_list_block block leftover);
  set_next block 0.

Definition grow_heap_by (pages : Z) : prog W Z :=
  if pages =? 0 then mret 0
  else
    lf ← gets last_footer;
    let addr_to_map := align_up (u64 (lf + SIZEOF_FOOTER)) PAGE_SIZE in
    new_pages ← map_heap_pages addr_to_map pages;
    if new_pages =? 0 then mret 0
    else
      last_block ← get f_header lf;
      let new_block := u64 (lf + SIZEOF_FOOTER) in
      let difference := u64 (new_pages - u64 (lf + SIZEOF_FOOTER)) in
      _ ← set_is_free new_block true;
      let sz := u64 (page_to_addr_base pages + difference - SIZEOF_HEADER - SIZEOF_FOOTER) in
      _ ← set_size new_block sz;
      _ ← set_next new_block 0;
      let new_block_footer := u64 (new_block + SIZEOF_HEADER + sz) in
      _ ← set_header new_block_footer new_block;
      _ ← set_footer new_block new_block_footer;
      _ ← set_last_footer new_block_footer;
      lfree ← get h_free last_block;
      new_block ← (if (lfree : bool) then
                     _ ← remove_from_free_list last_block;
                     _ ← merge_blocks last_block new_block;
                     mret last_block
                   else mret new_block);
      _ ← insert_free_block new_block;
      mret new_block.

Definition grow_heap : prog W Z :=
  w ← gets id;
  _ ← set_statics (u64 (heap_grow_size w + 1)) (first_available_vaddr w) (heap_initialized w);
  grow_heap_by (heap_grow_size w).

(** *** The interface *)

Definition initialize_heap_region (heap_start pages : Z) : prog W bool :=
  _ ← set_free_regions heap_start;
  if heap_start =? 0 then mret false
  else
    w ← gets id;
    _ ← set_statics (heap_grow_size w) heap_start (heap_initialized w);
    _ ← set_is_free heap_start true;
    let sz := u64 (page_to_addr_base pages - SIZEOF_HEADER - SIZEOF_FOOTER) in
    _ ← set_size heap_start sz;
    _ ← set_next heap_start 0;
    let free_region_footer := u64 (heap_start + SIZEOF_HEADER + sz) in
    _ ← set_header free_region_footer heap_start;
    _ ← set_footer heap_start free_region_footer;
    _ ← set_last_footer free_region_footer;
    let g := heap_grow_size w in
    _ ← set_statics (if g <? MAX_GROW_SIZE then u64 (Z.shiftl g 1) else g) heap_start true;
    mret true.

(** The kernel's initialisation; [vmm_first] is the first address of [g_kernel.vmm]. *)
Definition hmalloc_initialize (vmm_first : Z) : prog W unit :=
  w ← gets id;
  _ ← set_statics 5 (first_available_vaddr w) (heap_initialized w);
  heap_region ← map_heap_pages vmm_first 5;
  ok ← initialize_heap_region heap_region 5;
  if (ok : bool) then mret tt else halt.

Definition hmalloc_page_aligned (sz : Z) : prog W Z :=
  lock_state ← hmalloc_lock;
  init ← gets heap_initialized;
  match (if (init : bool) then bytes_to_pages sz else None) with
  | None => _ ← hmalloc_unlock lock_state; mret 0
  | Some pages =>
      new_block ← grow_heap_by pages;
      if new_block =? 0 then _ ← hmalloc_unlock lock_state; mret 0
      else
        _ ← occupy_block new_block sz;
        _ ← hmalloc_unlock lock_state;
        mret new_block
  end.

Definition hmalloc (sz : Z) : prog W Z :=
  lock_state ← hmalloc_lock;
  init ← gets heap_initialized;
  if negb init then _ ← hmalloc_unlock lock_state; mret 0
  else
    match bytes_to_pages sz with
    | None => _ ← hmalloc_unlock lock_state; mret 0
    | Some pages =>
        grow ← gets heap_grow_size;
        if grow <? pages then
          new_block ← grow_heap_by pages;
          if new_block =? 0 then _ ← hmalloc_unlock lock_state; mret 0
          else
            _ ← occupy_block new_block sz;
            _ ← hmalloc_unlock lock_state;
            mret (u64 (new_block + SIZEOF_HEADER))
        else
          fr ← gets free_regions;
          first_fit ← find_first_fit_block fr sz;
          first_fit ← (if first_fit =? 0 then grow_heap else mret first_fit);
          if first_fit =? 0 then _ ← hmalloc_unlock lock_state; mret 0
          else
            _ ← occupy_block first_fit sz;
            _ ← hmalloc_unlock lock_state;
            mret (u64 (first_fit + SIZEOF_HEADER))
    end.

(** The checks [hfree] and [hmalloc_usable_size] make on a pointer: [Some] the
    header, or [None] where they return early. *)
Definition checked_block (ptr : Z) : prog W (option Z) :=
  w ← gets id;
  if (ptr =? 0) || negb (heap_initialized w) then mret None
  else
    let current_block := u64 (ptr - SIZEOF_HEADER) in
    if (current_block <? first_available_vaddr w) || (last_footer w <=? current_block) then mret None
    else
      cf ← get h_footer current_block;
      ok ← is_footer_in_heap cf;
      if negb ok then mret None
      else
        h ← get f_header cf;
        if negb (h =? current_block) then mret None
        else
          f ← get h_free current_block;
          if (f : bool) then mret None else mret (Some current_block).

Definition hfree (ptr : Z) : prog W unit :=
  lock_state ← hmalloc_lock;
  b ← checked_block ptr;
  match b with
  | None => hmalloc_unlock lock_state
  | Some current_block =>
      _ ← set_is_free current_block true;
      _ ← set_next current_block 0;
      previous_block ← get_previous current_block;
      pfree ← (if previous_block =? 0 then mret false else get h_free previous_block);
      current_block ← (if (pfree : bool) then
                         _ ← remove_from_free_list previous_block;
                         _ ← merge_blocks previous_block current_block;
                         mret previous_block
                       else mret current_block);
      next_block ← get_next current_block;
      nfree ← (if next_block =? 0 then mret false else get h_free next_block);
      _ ← (if (nfree : bool) then
             _ ← remove_from_free_list next_block;
             merge_blocks current_block next_block
           else mret tt);
      _ ← insert_free_block current_block;
      hmalloc_unlock lock_state
  end.

Definition hmalloc_usable_size (ptr : Z) : prog W Z :=
  lock_state ← hmalloc_lock;
  b ← checked_block ptr;
  match b with
  | None => _ ← hmalloc_unlock lock_state; mret 0
  | Some current_block =>
      sz ← get h_size current_block;
      _ ← hmalloc_unlock lock_state;
      mret sz
  end.
End ops.
