(* ===== verification/HmallocSpec.v ===== *)
(** * HmallocSpec: the allocator keeps its heap

    The heap of [Hmalloc] as a list of contiguous blocks, its free list as the
    addresses of the free ones in order, no two free blocks adjacent; every
    operation keeps this, and the allocator meets the interface of [Alloc]. *)
From S2P Require Import Prelude Sync Alloc Hmalloc.

(** ** The free list as a linked list *)
Fixpoint links (h : gmap Z Z) (p : Z) (l : list Z) : Prop :=
  match l with
  | [] => p = 0
  | x :: l' => p = x ∧ x ≠ 0 ∧ ∃ nx, h !! x = Some nx ∧ links h nx l'
  end.

Section links.
Implicit Types (h : gmap Z Z) (l : list Z).

Lemma links_agree h h' p l :
  (∀ x, x ∈ l → h' !! x = h !! x) → links h p l → links h' p l.
Proof.
  revert p. induction l as [|x l IH]; intros p Hag; [done|]. cbn.
  intros (-> & Hx & nx & Hn & Hl). split; [done|]. split; [done|]. exists nx.
  rewrite Hag by set_solver. split; [done|]. apply IH; [|done]. intros y Hy. apply Hag. set_solver.
Qed.

Lemma links_insert h k v p l : k ∉ l → links h p l → links (<[k := v]> h) p l.
Proof. intros Hk. apply links_agree. intros x Hx. apply lookup_insert_ne. by intros ->. Qed.

Lemma links_length h p l : NoDup l → links h p l → (length l ≤ size h)%nat.
Proof.
  intros Hnd Hl. assert (∀ x, x ∈ l → x ∈ dom h) as Hin.
  { clear Hnd. revert p Hl. induction l as [|y l IH]; intros p Hl x Hx; [by apply elem_of_nil in Hx|].
    cbn in Hl. destruct Hl as (-> & _ & nx & Hn & Hl). apply elem_of_cons in Hx as [->|Hx];
      [by eapply elem_of_dom_2|by eapply IH]. }
  rewrite <- size_dom. rewrite <- (size_list_to_set (C := gset Z) l Hnd).
  apply subseteq_size. intros x Hx%elem_of_list_to_set. by apply Hin.
Qed.

(** The cell before [x :: l2]. *)
Lemma links_split h p l1 l2 :
  links h p (l1 ++ l2) →
  match last l1 with
  | None => links h p l2
  | Some q => ∃ nx, h !! q = Some nx ∧ links h nx l2
  end.
Proof.
  revert p. induction l1 as [|x l1 IH]; intros p; [done|]. cbn [app links].
  intros (_ & _ & nx & Hn & Hl). specialize (IH nx Hl).
  destruct l1 as [|y l1]; [by exists nx|].
  change (last (x :: y :: l1)) with (last (y :: l1)). destruct (last (y :: l1)) eqn:E; [done|].
  by apply last_None in E.
Qed.

(** Replacing what follows [q]. *)
Lemma links_replace h p l1 q l2 l2' v :
  NoDup (l1 ++ [q]) → links h p (l1 ++ q :: l2) → links (<[q := v]> h) v l2' →
  links (<[q := v]> h) p (l1 ++ q :: l2').
Proof.
  revert p. induction l1 as [|x l1 IH]; intros p Hnd; cbn [app links].
  - intros (-> & Hq & nx & Hn & _) Hl. split; [done|]. split; [done|]. exists v.
    by rewrite lookup_insert_eq.
  - intros (-> & Hx & nx & Hn & Hl) Hl2. split; [done|]. split; [done|]. exists nx.
    apply NoDup_cons in Hnd as [Hxn Hnd]. rewrite lookup_insert_ne by set_solver.
    split; [done|]. by apply IH.
Qed.

Lemma links_hd h p l : links h p l → p = default 0 (head l).
Proof. destruct l; [done|]. by intros [-> _]. Qed.

Lemma links_nonzero h p l x : links h p l → x ∈ l → x ≠ 0.
Proof.
  revert p. induction l as [|y l IH]; intros p Hl Hx; [by apply elem_of_nil in Hx|].
  cbn in Hl. destruct Hl as (-> & Hy & nx & _ & Hl). apply elem_of_cons in Hx as [->|Hx]; eauto.
Qed.

Lemma free_links_lookup h p l1 x l2 :
  links h p (l1 ++ x :: l2) → ∃ nx, h !! x = Some nx ∧ links h nx l2.
Proof.
  revert p. induction l1 as [|y l1 IH]; intros p; cbn [app links].
  - intros (_ & _ & nx & Hn & Hl). by exists nx.
  - intros (_ & _ & nx & _ & Hl). by eapply IH.
Qed.
End links.

(** ** Operations on the free list *)
Section freelist.
Context {M : Type} {source_M : HeapSource M}.
Abbreviation W := (hstate M).
Implicit Types (w : W).

Lemma wp_get {V} (f : W → gmap Z V) a v (Q : V → W → Prop) w :
  f w !! a = Some v → Q v w → wp (get f a) Q w.
Proof. intros Hv HQ. unfold wp, get. by rewrite Hv. Qed.

(** [w'] differs from [w] in the free list only. *)
Definition with_list (nx : gmap Z Z) (fr : Z) w : W :=
  MkHeap (h_free w) (h_size w) nx (h_footer w) (f_header w) fr (heap_grow_size w)
    (first_available_vaddr w) (last_footer w) (heap_initialized w) (rflags w) (source w).

Lemma with_list_id w : with_list (h_next w) (free_regions w) w = w.
Proof. by destruct w. Qed.

Lemma wp_set_next_block a v (Q : unit → W → Prop) w :
  Q tt (with_list (<[a := v]> (h_next w)) (free_regions w) w) → wp (set_next a v) Q w.
Proof. done. Qed.
Lemma wp_set_free_regions v (Q : unit → W → Prop) w :
  Q tt (with_list (h_next w) v w) → wp (set_free_regions v) Q w.
Proof. done. Qed.

(** The walk to the cell before [x]. *)
Lemma wp_seek n p l1 x l2 w :
  links (h_next w) p (l1 ++ x :: l2) → NoDup (l1 ++ x :: l2) → p ≠ x → (length l1 ≤ n)%nat →
  wp (seek_loop n p x) (λ r w', w' = w ∧ last l1 = Some r) w.
Proof.
  revert p l1. induction n as [|n IH]; intros p l1 Hl Hnd Hp Hn.
  { destruct l1; [|simpl in Hn; lia]. cbn in Hl. by destruct Hl as [-> _]. }
  destruct l1 as [|y l1]; [cbn in Hl; by destruct Hl as [-> _]|].
  cbn [app links] in Hl. destruct Hl as (-> & Hy & nx & Hx & Hl). cbn [seek_loop].
  apply wp_bind. eapply wp_get; [exact Hx|].
  cbn [app] in Hnd. apply NoDup_cons in Hnd as [Hyn Hnd].
  destruct l1 as [|z l1].
  - cbn in Hl. destruct Hl as [-> _].
    rewrite Z.eqb_refl, andb_false_r. by apply wp_ret.
  - pose proof (links_nonzero _ _ _ nx Hl) as Hnz. cbn [app links] in Hl. destruct Hl as [-> Hl'].
    assert (z ≠ x) as Hzx by (intros ->; apply NoDup_cons in Hnd as [Hd _]; apply Hd; set_solver).
    rewrite (proj2 (Z.eqb_neq z 0)) by (apply Hnz; cbn; set_solver).
    rewrite (proj2 (Z.eqb_neq z x)) by done. cbn [negb andb].
    eapply wp_mono; [apply (IH z (z :: l1))|]; [by split|done|done|simpl in *; lia|].
    intros r w' [-> Hlast]. split; [done|]. by rewrite last_cons_cons.
Qed.

(** [w'] is [w] with free list [l]; [h_next] still covers every header. *)
Definition relisted w (l : list Z) (w' : W) : Prop :=
  ∃ nx fr, w' = with_list nx fr w ∧ links nx fr l ∧
    ∀ a, is_Some (h_next w !! a) → is_Some (nx !! a).

Lemma wp_list_remove l1 x l2 w :
  links (h_next w) (free_regions w) (l1 ++ x :: l2) → NoDup (l1 ++ x :: l2) →
  wp (remove_from_free_list x) (λ _ w', relisted w (l1 ++ l2) w') w.
Proof.
  intros Hl Hnd. pose proof (links_nonzero _ _ _ x Hl ltac:(set_solver)) as Hx0.
  destruct (free_links_lookup _ _ _ _ _ Hl) as (xn & Hxn & Hl2).
  assert (∀ v a, is_Some (h_next w !! a) → is_Some (<[x := v]> (h_next w) !! a)) as Hsome
    by (intros v a Ha; rewrite lookup_insert_is_Some'; by right).
  apply NoDup_app in Hnd as Hnd'. destruct Hnd' as (Hnd1 & Hdis & [Hx2 Hnd2]%NoDup_cons).
  unfold remove_from_free_list. apply wp_bind, wp_gets.
  rewrite (proj2 (Z.eqb_neq x 0)) by done. cbn [orb].
  destruct l1 as [|y l1].
  - assert (free_regions w = x) as Hfr by (cbn in Hl; apply Hl).
    rewrite Hfr. rewrite (proj2 (Z.eqb_neq x 0)) by done. rewrite Z.eqb_refl.
    apply wp_bind. eapply wp_get; [exact Hxn|]. apply wp_bind, wp_set_free_regions, wp_set_next_block.
    exists (<[x := 0]> (h_next w)), xn. split; [done|]. split; [by apply links_insert|by apply Hsome].
  - assert (free_regions w = y) as Hfr by (cbn in Hl; apply Hl).
    assert (y ≠ x) as Hyx by (intros ->; apply (Hdis x); set_solver).
    pose proof (links_nonzero _ _ _ y Hl ltac:(set_solver)) as Hy0.
    rewrite (proj2 (Z.eqb_neq (free_regions w) 0)), (proj2 (Z.eqb_neq (free_regions w) x)) by congruence.
    apply wp_bind, wp_gets. apply wp_bind. eapply wp_mono.
    { eapply wp_seek; [exact Hl|done|congruence|]. apply links_length in Hl; [|done].
      rewrite length_app in Hl. simpl in *. lia. }
    intros r ? [-> Hlast]. apply last_Some in Hlast as [l1' El]. rewrite El in *. clear El y l1 Hyx Hy0 Hfr.
    rewrite <- app_assoc in Hl. cbn [app] in Hl.
    destruct (free_links_lookup _ _ _ _ _ Hl) as (rn & Hrn & Hrl). cbn in Hrl. destruct Hrl as [-> _].
    apply wp_bind. eapply wp_get; [exact Hrn|]. rewrite Z.eqb_refl.
    apply wp_bind. eapply wp_get; [exact Hxn|]. apply wp_bind, wp_set_next_block, wp_set_next_block.
    cbn [h_next free_regions with_list].
    assert (r ≠ x) as Hrx by (intros ->; apply (Hdis x); set_solver).
    assert (x ∉ l1' ++ [r] ++ l2) as Hxl.
    { rewrite !elem_of_app. intros [?|[?|?]]; [apply (Hdis x); set_solver|set_solver|done]. }
    exists (<[x := 0]> (<[r := xn]> (h_next w))), (free_regions w).
    split; [done|]. split.
    + apply links_insert; [by rewrite <- app_assoc|]. rewrite <- app_assoc. cbn [app].
      eapply links_replace; [done|exact Hl|]. apply links_insert; [|done].
      intros Hr2. apply (Hdis r); set_solver.
    + intros a Ha. rewrite !lookup_insert_is_Some'. auto.
Qed.

(** The walk to the last cell below [x]. *)
Lemma wp_insert_loop n p q l x w :
  links (h_next w) p (q :: l) → StronglySorted Z.lt (q :: l) → q < x → x ∉ q :: l → (length l < n)%nat →
  wp (insert_loop n p x)
    (λ r w', w' = w ∧ ∃ l1 l2, q :: l = l1 ++ l2 ∧ last l1 = Some r ∧
       (∀ y, y ∈ l1 → y < x) ∧ (∀ y, y ∈ l2 → x < y)) w.
Proof.
  revert p q l. induction n as [|n IH]; intros p q l Hl Hs Hq Hx Hn; [lia|].
  cbn [links] in Hl. destruct Hl as (-> & Hq0 & nx & Hnx & Hl). cbn [insert_loop].
  apply wp_bind. eapply wp_get; [exact Hnx|].
  destruct l as [|z l].
  { cbn in Hl. subst nx. cbn [Z.eqb negb andb]. apply wp_ret. split; [done|].
    exists [q], []. split_and!; [done|done| |]; set_solver. }
  pose proof (links_nonzero _ _ _ z Hl ltac:(set_solver)) as Hz0.
  cbn [links] in Hl. destruct Hl as [-> Hl].
  rewrite (proj2 (Z.eqb_neq z 0)) by done. cbn [negb andb].
  apply StronglySorted_inv in Hs as [Hs Hall]. destruct (Z.ltb_spec z x) as [Hlt|Hge].
  - eapply wp_mono; [apply (IH z z l)|]; [by split|done|done|set_solver|simpl in Hn; lia|].
    intros r w' (-> & l1 & l2 & Heq & Hlast & H1 & H2). split; [done|].
    exists (q :: l1), l2. rewrite Heq. split; [done|]. split.
    { destruct l1; [done|]. by rewrite last_cons_cons. }
    split; [|done]. intros y [->|Hy]%elem_of_cons; auto.
  - apply wp_ret. split; [done|]. exists [q], (z :: l). split_and!; [done|done|set_solver|].
    assert (z ≠ x) by set_solver. apply StronglySorted_inv in Hs as [_ Hzl].
    intros y [->|Hy]%elem_of_cons; [lia|]. rewrite Forall_forall in Hzl. specialize (Hzl y Hy). lia.
Qed.

Definition with_free (f : gmap Z bool) w : W :=
  MkHeap f (h_size w) (h_next w) (h_footer w) (f_header w) (free_regions w) (heap_grow_size w)
    (first_available_vaddr w) (last_footer w) (heap_initialized w) (rflags w) (source w).

Lemma sorted_nodup (l : list Z) : StronglySorted Z.lt l → NoDup l.
Proof.
  induction 1 as [|x l _ IH Hall]; [apply NoDup_nil_2|]. apply NoDup_cons. split; [|done].
  intros Hx. rewrite Forall_forall in Hall. specialize (Hall x Hx). lia.
Qed.

(** A value cuts a list in at most one place. *)
Lemma cut_unique (x : Z) (a b c d : list Z) :
  a ++ b = c ++ d → (∀ y, y ∈ a → y < x) → (∀ y, y ∈ b → x < y) →
  (∀ y, y ∈ c → y < x) → (∀ y, y ∈ d → x < y) → a = c ∧ b = d.
Proof.
  revert b c d. induction a as [|y a IH]; intros b [|z c] d He Ha Hb Hc Hd; cbn in He.
  - done.
  - subst b. specialize (Hb z ltac:(set_solver)). specialize (Hc z ltac:(set_solver)). lia.
  - subst d. specialize (Ha y ltac:(set_solver)). specialize (Hd y ltac:(set_solver)). lia.
  - injection He as -> He. destruct (IH b c d He) as [-> ->]; try done; set_solver.
Qed.

(** Linking [x] in after [r]. *)
Lemma links_linked_in nx fr l1 r l2 x rn :
  links nx fr (l1 ++ r :: l2) → links nx rn l2 → NoDup (l1 ++ r :: l2) → x ∉ l1 ++ r :: l2 → x ≠ 0 →
  links (<[r := x]> (<[x := rn]> nx)) fr (l1 ++ r :: x :: l2).
Proof.
  intros Hl Hrl Hnd Hx Hx0. apply NoDup_app in Hnd as Hnd'. destruct Hnd' as (H1 & Hdis & [Hr2 H2]%NoDup_cons).
  eapply (links_replace _ _ _ _ l2).
  - apply NoDup_app. split; [done|]. split; [|apply NoDup_singleton].
    intros y Hy Hyr. apply (Hdis y Hy). set_solver.
  - by apply links_insert.
  - assert (x ≠ r) by set_solver. cbn [links]. split; [done|]. split; [done|]. exists rn.
    rewrite lookup_insert_ne by done. rewrite lookup_insert_eq. split; [done|].
    apply links_insert; [done|]. apply links_insert; [set_solver|done].
Qed.

Lemma wp_insert l1 l2 x w :
  links (h_next w) (free_regions w) (l1 ++ l2) → StronglySorted Z.lt (l1 ++ l2) → x ≠ 0 →
  (∀ y, y ∈ l1 → y < x) → (∀ y, y ∈ l2 → x < y) →
  wp (insert_free_block x)
     (λ _ w', relisted (with_free (<[x := true]> (h_free w)) w) (l1 ++ x :: l2) w') w.
Proof.
  intros Hl Hs Hx0 H1 H2.
  assert (x ∉ l1 ++ l2) as Hx.
  { rewrite elem_of_app. intros [Hy|Hy]; [specialize (H1 _ Hy)|specialize (H2 _ Hy)]; lia. }
  pose proof (sorted_nodup _ Hs) as Hnd.
  unfold insert_free_block. rewrite (proj2 (Z.eqb_neq x 0)) by done. apply wp_bind, wp_modify.
  apply wp_bind, wp_gets. cbn [free_regions].
  destruct l1 as [|q l1].
  - assert ((free_regions w =? 0) || (x <? free_regions w) = true) as ->.
    { destruct l2 as [|y l2]; cbn in Hl; [by rewrite Hl|]. destruct Hl as [-> _].
      specialize (H2 y ltac:(set_solver)). apply orb_true_iff. right. by apply Z.ltb_lt. }
    apply wp_bind, wp_set_next_block, wp_set_free_regions. cbn [app].
    exists (<[x := free_regions w]> (h_next w)), x. split; [done|]. split.
    + cbn [links]. split; [done|]. split; [done|]. exists (free_regions w).
      rewrite lookup_insert_eq. split; [done|]. by apply links_insert.
    + intros a Ha. rewrite lookup_insert_is_Some'. by right.
  - assert (free_regions w = q) as Hfr by (cbn in Hl; apply Hl).
    pose proof (links_nonzero _ _ _ q Hl ltac:(set_solver)) as Hq0.
    pose proof (H1 q ltac:(set_solver)) as Hqx.
    assert ((free_regions w =? 0) || (x <? free_regions w) = false) as ->.
    { rewrite Hfr. apply orb_false_iff. split; [by apply Z.eqb_neq|apply Z.ltb_ge; lia]. }
    apply wp_bind, wp_gets, wp_bind. cbn [app] in Hl, Hs, Hx, Hnd.
    eapply wp_mono; [eapply (wp_insert_loop _ _ q (l1 ++ l2))|];
      [exact Hl|done|done|done| |].
    { apply links_length in Hl; [|done]. cbn [h_next]. simpl in *. lia. }
    intros r ? (-> & m1 & m2 & Heq & Hlast & Hm1 & Hm2).
    assert (m1 = q :: l1 ∧ m2 = l2) as [-> ->].
    { symmetry in Heq. by apply (cut_unique x m1 m2 (q :: l1) l2). }
    apply last_Some in Hlast as [l1' El]. rewrite El in *.
    change (q :: l1 ++ l2) with ((q :: l1) ++ l2) in *. rewrite El in *. clear El q l1 Hfr Hq0 Hqx.
    rewrite <- app_assoc in Hl. cbn [app] in Hl.
    destruct (free_links_lookup _ _ _ _ _ Hl) as (rn & Hrn & Hrl).
    apply wp_bind. eapply wp_get; [exact Hrn|]. apply wp_bind, wp_set_next_block, wp_set_next_block.
    cbn [h_next free_regions with_list].
    exists (<[r := x]> (<[x := rn]> (h_next w))), (free_regions w). split; [done|]. split.
    + rewrite <- app_assoc in Hx, Hnd |- *. cbn [app] in *. by apply links_linked_in.
    + intros a Ha. rewrite !lookup_insert_is_Some'. auto.
Qed.

Lemma wp_replace_loop n p l1 x l2 w :
  links (h_next w) p (l1 ++ x :: l2) → NoDup (l1 ++ x :: l2) → p ≠ x → (length l1 ≤ n)%nat →
  wp (replace_loop n p x) (λ r w', w' = w ∧ last l1 = Some r) w.
Proof.
  revert p l1. induction n as [|n IH]; intros p l1 Hl Hnd Hp Hn.
  { destruct l1; [|simpl in Hn; lia]. cbn in Hl. by destruct Hl as [-> _]. }
  destruct l1 as [|y l1]; [cbn in Hl; by destruct Hl as [-> _]|].
  cbn [app links] in Hl. destruct Hl as (-> & Hy & nx & Hx & Hl). cbn [replace_loop].
  rewrite (proj2 (Z.eqb_neq y 0)) by done.
  apply wp_bind. eapply wp_get; [exact Hx|].
  cbn [app] in Hnd. apply NoDup_cons in Hnd as [Hyn Hnd].
  destruct l1 as [|z l1].
  - cbn in Hl. destruct Hl as [-> _]. rewrite Z.eqb_refl. by apply wp_ret.
  - assert (nx = z) as -> by (cbn in Hl; apply Hl).
    assert (z ≠ x) as Hzx by (intros ->; apply NoDup_cons in Hnd as [Hd _]; apply Hd; set_solver).
    rewrite (proj2 (Z.eqb_neq z x)) by done. cbn [negb].
    eapply wp_mono; [apply (IH z (z :: l1))|]; [done|done|done|simpl in *; lia|].
    intros r w' [-> Hlast]. split; [done|]. by rewrite last_cons_cons.
Qed.

(** The leftover takes the place of the block it was split from. *)
Lemma wp_replace l1 x l2 y w :
  links (h_next w) (free_regions w) (l1 ++ x :: l2) → NoDup (l1 ++ x :: l2) →
  y ≠ 0 → y ∉ l1 ++ x :: l2 →
  wp (replace_free_list_block x y) (λ _ w', relisted w (l1 ++ y :: l2) w') w.
Proof.
  intros Hl Hnd Hy0 Hy. pose proof (links_nonzero _ _ _ x Hl ltac:(set_solver)) as Hx0.
  destruct (free_links_lookup _ _ _ _ _ Hl) as (xn & Hxn & Hl2).
  apply NoDup_app in Hnd as Hnd'. destruct Hnd' as (Hnd1 & Hdis & [Hx2 Hnd2]%NoDup_cons).
  unfold replace_free_list_block. rewrite (proj2 (Z.eqb_neq x 0)), (proj2 (Z.eqb_neq y 0)) by done.
  cbn [orb]. apply wp_bind, wp_gets.
  assert (x ≠ y) as Hxy by set_solver.
  destruct l1 as [|q l1].
  - assert (free_regions w = x) as Hfr by (cbn in Hl; apply Hl).
    rewrite Hfr, Z.eqb_refl. apply wp_bind. eapply wp_get; [exact Hxn|].
    apply wp_bind, wp_set_next_block, wp_bind, wp_set_free_regions, wp_set_next_block.
    cbn [h_next free_regions with_list app].
    exists (<[x := 0]> (<[y := xn]> (h_next w))), y. split; [done|]. split.
    + cbn [links]. split; [done|]. split; [done|]. exists xn.
      rewrite lookup_insert_ne by done. rewrite lookup_insert_eq. split; [done|].
      apply links_insert; [done|]. apply links_insert; [set_solver|done].
    + intros a Ha. rewrite !lookup_insert_is_Some'. auto.
  - assert (free_regions w = q) as Hfr by (cbn in Hl; apply Hl).
    assert (q ≠ x) as Hqx by (intros ->; apply (Hdis x); set_solver).
    rewrite (proj2 (Z.eqb_neq (free_regions w) x)) by congruence.
    apply wp_bind, wp_gets, wp_bind. eapply wp_mono.
    { eapply wp_replace_loop; [exact Hl|done|congruence|]. apply links_length in Hl; [|done].
      rewrite length_app in Hl. simpl in *. lia. }
    intros r ? [-> Hlast]. apply last_Some in Hlast as [l1' El]. rewrite El in *. clear El q l1 Hqx Hfr.
    pose proof (links_nonzero _ _ _ r Hl ltac:(set_solver)) as Hr0.
    rewrite (proj2 (Z.eqb_neq r 0)) by done. cbn [negb].
    rewrite <- app_assoc in Hl. cbn [app] in Hl.
    destruct (free_links_lookup _ _ _ _ _ Hl) as (rn & Hrn & Hrl). cbn in Hrl. destruct Hrl as [-> _].
    apply wp_bind. eapply wp_get; [exact Hxn|]. apply wp_bind, wp_set_next_block, wp_bind, wp_set_next_block, wp_set_next_block.
    cbn [h_next free_regions with_list].
    assert (r ≠ x) as Hrx by (intros ->; apply (Hdis x); set_solver).
    assert (r ≠ y) as Hry by set_solver.
    assert (x ∉ l1' ++ [r] ++ y :: l2) as Hxl.
    { rewrite !elem_of_app. intros [?|[?|?]]; [apply (Hdis x); set_solver|set_solver|set_solver]. }
    exists (<[x := 0]> (<[r := y]> (<[y := xn]> (h_next w)))), (free_regions w).
    split; [done|]. split.
    + apply links_insert; [by rewrite <- app_assoc|]. rewrite <- app_assoc. cbn [app].
      eapply links_replace; [done|apply links_insert; [|exact Hl]; set_solver|].
      cbn [links]. split; [done|]. split; [done|]. exists xn.
      rewrite lookup_insert_ne by done. rewrite lookup_insert_eq. split; [done|].
      apply links_insert; [intros Hr2; apply (Hdis r); set_solver|].
      apply links_insert; [set_solver|done].
    + intros a Ha. rewrite !lookup_insert_is_Some'. auto.
Qed.

(** First fit. *)
Lemma wp_find_fit n p l sz w :
  links (h_next w) p l → (length l < n)%nat →
  (∀ x, x ∈ l → is_Some (h_size w !! x) ∧ h_free w !! x = Some true) →
  wp (find_first_fit_loop n p sz)
    (λ r w', w' = w ∧ (r = 0 ∨ (r ∈ l ∧ ∃ s, h_size w !! r = Some s ∧ sz ≤ s))) w.
Proof.
  revert p l. induction n as [|n IH]; intros p l Hl Hn Hh; [lia|]. cbn [find_first_fit_loop].
  destruct l as [|x l]; cbn [links] in Hl.
  - subst p. cbn [Z.eqb]. apply wp_ret. auto.
  - destruct Hl as (-> & Hx0 & nx & Hnx & Hl). rewrite (proj2 (Z.eqb_neq x 0)) by done.
    destruct (Hh x ltac:(set_solver)) as [[s Hs] Hf].
    apply wp_bind. eapply wp_get; [exact Hs|]. apply wp_bind. eapply wp_get; [exact Hf|].
    rewrite andb_true_r. destruct (Z.leb_spec sz s).
    + apply wp_ret. split; [done|]. right. split; [set_solver|]. by exists s.
    + apply wp_bind. eapply wp_get; [exact Hnx|].
      eapply wp_mono; [apply (IH nx l)|]; [done|simpl in Hn; lia|intros y Hy; apply Hh; set_solver|].
      intros r w' (-> & [->|(Hr & Hsz)]); split; auto. right. split; [set_solver|done].
Qed.
End freelist.
