(* ===== verification/HmallocHeap.v ===== *)
(** * HmallocHeap: blocks, splitting and coalescing *)
From S2P Require Import Prelude Sync Alloc Hmalloc HmallocSpec.

(** ** Blocks *)
Record blk := Blk { b_addr : Z; b_size : Z; b_free : bool }.
Definition ftr (b : blk) : Z := b_addr b + 25 + b_size b.
Definition b_end (b : blk) : Z := b_addr b + 33 + b_size b.
Arguments ftr : simpl never.
Arguments b_end : simpl never.

(** The blocks fill [[a, e)]. *)
Fixpoint contig (a : Z) (bs : list blk) (e : Z) : Prop :=
  match bs with
  | [] => a = e
  | b :: bs' => b_addr b = a ∧ 0 ≤ b_size b ∧ contig (b_end b) bs' e
  end.

(** The addresses of the free ones. *)
Fixpoint frees (bs : list blk) : list Z :=
  match bs with
  | [] => []
  | b :: bs' => if b_free b then b_addr b :: frees bs' else frees bs'
  end.

(** No two neighbours are free. *)
Fixpoint apart (bs : list blk) : Prop :=
  match bs with
  | b :: (c :: _) as bs' => (b_free b && b_free c = false) ∧ apart bs'
  | _ => True
  end.

Section geometry.
Implicit Types (b c : blk) (bs : list blk).

Lemma contig_app a bs1 bs2 e :
  contig a (bs1 ++ bs2) e ↔ ∃ m, contig a bs1 m ∧ contig m bs2 e.
Proof.
  revert a. induction bs1 as [|b bs1 IH]; intros a; cbn [app contig].
  - split; [by eauto|]. by intros (m & -> & ?).
  - rewrite IH. split; [intros (? & ? & m & ? & ?); exists m; by split_and!|].
    intros (m & (? & ? & ?) & ?). split_and!; eauto.
Qed.

Lemma contig_le a bs e : contig a bs e → a ≤ e.
Proof.
  revert a. induction bs as [|b bs IH]; intros a; cbn [contig]; [lia|].
  intros (<- & ? & H%IH). unfold b_end in H. lia.
Qed.

Lemma contig_range a bs e b : contig a bs e → b ∈ bs → a ≤ b_addr b ∧ b_end b ≤ e ∧ 0 ≤ b_size b.
Proof.
  intros Hc Hb. apply list_elem_of_split in Hb as (l1 & l2 & ->).
  apply contig_app in Hc as (m & H1%contig_le & Hm). cbn [contig] in Hm.
  destruct Hm as (-> & ? & H2%contig_le). lia.
Qed.

Lemma frees_app bs1 bs2 : frees (bs1 ++ bs2) = frees bs1 ++ frees bs2.
Proof. induction bs1 as [|b bs1 IH]; cbn; [done|]. destruct (b_free b); cbn; by rewrite IH. Qed.

Lemma elem_of_frees bs x : x ∈ frees bs ↔ ∃ b, b ∈ bs ∧ b_free b = true ∧ b_addr b = x.
Proof.
  induction bs as [|b bs IH]; cbn.
  - split; [by intros ?%elem_of_nil|]. by intros (? & ?%elem_of_nil & _).
  - destruct (b_free b) eqn:E; rewrite ?elem_of_cons, IH; split.
    + intros [->|(c & Hc & ?)]; [exists b; set_solver|exists c; set_solver].
    + intros (c & [->|Hc]%elem_of_cons & Hf & <-); [by left|right; by exists c].
    + intros (c & Hc & ?). exists c. set_solver.
    + intros (c & [->|Hc]%elem_of_cons & Hf & <-); [congruence|by exists c].
Qed.

Lemma frees_sorted a bs e : contig a bs e → StronglySorted Z.lt (frees bs).
Proof.
  revert a. induction bs as [|b bs IH]; intros a; cbn [contig frees]; [constructor|].
  intros (<- & ? & Hc). specialize (IH _ Hc). destruct (b_free b); [|done].
  constructor; [done|]. apply Forall_forall. intros x (c & Hc' & _ & <-)%elem_of_frees.
  destruct (contig_range _ _ _ _ Hc Hc') as (Hb & _). unfold b_end in Hb. lia.
Qed.

(** Two blocks of the heap with the same address or footer are the same place. *)
Lemma contig_before a bs1 b bs2 e c :
  contig a (bs1 ++ b :: bs2) e → c ∈ bs1 → b_end c ≤ b_addr b ∧ 0 ≤ b_size c.
Proof.
  intros (m & H1 & Hm)%contig_app Hc. cbn [contig] in Hm. destruct Hm as (<- & _).
  destruct (contig_range _ _ _ _ H1 Hc) as (? & ? & ?). lia.
Qed.
Lemma contig_after a bs1 b bs2 e c :
  contig a (bs1 ++ b :: bs2) e → c ∈ bs2 → b_end b ≤ b_addr c ∧ 0 ≤ b_size c ∧ 0 ≤ b_size b.
Proof.
  intros (m & H1 & Hm)%contig_app Hc. cbn [contig] in Hm. destruct Hm as (<- & ? & H2).
  destruct (contig_range _ _ _ _ H2 Hc) as (? & ? & ?). lia.
Qed.

Lemma apart_app bs1 bs2 :
  apart (bs1 ++ bs2) ↔ apart bs1 ∧ apart bs2 ∧
    (∀ b c, last bs1 = Some b → head bs2 = Some c → b_free b && b_free c = false).
Proof.
  induction bs1 as [|b bs1 IH]; cbn [app].
  - cbn. split; [by intros|]. by intros (_ & ? & _).
  - destruct bs1 as [|c bs1].
    + cbn. destruct bs2 as [|d bs2]; cbn.
      * split; [by intros|done].
      * split; [intros [? ?]; split_and!; try done; by intros ? ? [= <-] [= <-]|].
        intros (_ & ? & H). split; [by apply H|done].
    + change (last (b :: c :: bs1)) with (last (c :: bs1)).
      cbn [app apart] in *. rewrite IH. tauto.
Qed.
End geometry.

(** ** Tags in memory *)

(** Reduce the projections of an updated state; run one store. *)
Ltac hcbn :=
  cbn [h_free h_size h_next h_footer f_header free_regions heap_grow_size first_available_vaddr
       last_footer heap_initialized rflags source with_list with_free].
Tactic Notation "hcbn" "in" hyp(H) :=
  cbn [h_free h_size h_next h_footer f_header free_regions heap_grow_size first_available_vaddr
       last_footer heap_initialized rflags source with_list with_free] in H.
Ltac hset := apply wp_bind, wp_modify; hcbn.
Section heap.
Context {M : Type} {source_M : HeapSource M}.
Abbreviation W := (hstate M).
Implicit Types (w : W).

Record tagged w b : Prop := {
  tg_free : h_free w !! b_addr b = Some (b_free b);
  tg_size : h_size w !! b_addr b = Some (b_size b);
  tg_footer : h_footer w !! b_addr b = Some (ftr b);
  tg_header : f_header w !! ftr b = Some (b_addr b);
  tg_next : is_Some (h_next w !! b_addr b);
}.

(** Everything but the headers, the footers and the free list. *)
Definition same_static w w' : Prop :=
  heap_grow_size w' = heap_grow_size w ∧ first_available_vaddr w' = first_available_vaddr w ∧
  last_footer w' = last_footer w ∧ heap_initialized w' = heap_initialized w ∧
  rflags w' = rflags w ∧ source w' = source w.

Lemma same_static_trans w1 w2 w3 : same_static w1 w2 → same_static w2 w3 → same_static w1 w3.
Proof. intros (?&?&?&?&?&?) (?&?&?&?&?&?). repeat split; congruence. Qed.

(** The blocks [b1 ++ c :: b2], where [c] is marked free but is not (or no
    longer) on the free list: the state between the steps of [hfree]. *)
Record hole w (b1 : list blk) (c : blk) (b2 : list blk) : Prop := {
  hl_init : heap_initialized w = true;
  hl_contig : contig (first_available_vaddr w) (b1 ++ c :: b2) (last_footer w + 8);
  hl_tags : Forall (tagged w) (b1 ++ c :: b2);
  hl_free : b_free c = true;
  hl_links : links (h_next w) (free_regions w) (frees b1 ++ frees b2);
  hl_apart1 : apart b1;
  hl_apart2 : apart b2;
  hl_range : 0 < first_available_vaddr w ∧ last_footer w + 8 ≤ 2 ^ 63;
}.

(** Between calls. *)
Record heap_ok w bs : Prop := {
  ho_init : heap_initialized w = true;
  ho_contig : contig (first_available_vaddr w) bs (last_footer w + 8);
  ho_tags : Forall (tagged w) bs;
  ho_ne : bs ≠ [];
  ho_links : links (h_next w) (free_regions w) (frees bs);
  ho_apart : apart bs;
  ho_range : 0 < first_available_vaddr w ∧ last_footer w + 8 ≤ 2 ^ 63;
}.

Lemma relisted_tagged w l w' b : relisted w l w' → tagged w b → tagged w' b.
Proof. intros (nx & fr & -> & _ & Hs) [? ? ? ? ?]. split; try done. by apply Hs. Qed.

Lemma relisted_static w l w' : relisted w l w' → same_static w w'.
Proof. by intros (nx & fr & -> & _ & _). Qed.

(** What [merge_blocks] does to the tags. *)
Lemma wp_merge x y w :
  tagged w x → tagged w y → b_addr y = b_end x → 0 ≤ b_size x → 0 ≤ b_size y →
  b_size x + b_size y + 33 < 2 ^ 64 →
  wp (merge_blocks (b_addr x) (b_addr y))
    (λ _ w', same_static w w' ∧ free_regions w' = free_regions w ∧
       tagged w' (Blk (b_addr x) (b_size x + b_size y + 33) (b_free x)) ∧
       (∃ u v, h_next w' = <[b_addr y := u]> (<[b_addr x := v]> (h_next w))) ∧
       ∀ b, tagged w b → b_addr b ≠ b_addr x → b_addr b ≠ b_addr y →
            ftr b ≠ ftr x → ftr b ≠ ftr y → tagged w' b) w.
Proof.
  intros [Fx Sx Tx Hx Nx] [Fy Sy Ty Hy [ny Ny]] Hadj H0x H0y Hov.
  assert (b_addr x ≠ b_addr y) as Hne by (unfold b_end in Hadj; lia).
  assert (ftr x ≠ ftr y) as Hfne by (unfold ftr, b_end in *; lia).
  unfold merge_blocks. apply wp_bind. eapply wp_get; [exact Tx|].
  hset. apply wp_bind. eapply wp_get; [exact Ty|].
  hset. hset. apply wp_bind. eapply wp_get; [exact Ny|].
  hset. apply wp_bind. eapply wp_get; [exact Sx|].
  apply wp_bind. eapply wp_get; [exact Sy|].
  do 4 hset. apply wp_modify. hcbn. split; [done|]. split; [done|]. split; [|split; [by eexists _, _|]].
  - replace (ftr y) with (ftr (Blk (b_addr x) (b_size x + b_size y + 33) (b_free x)))
      by (unfold ftr, b_end in *; cbn [b_addr b_size]; lia).
    split; cbn [h_free h_size h_next h_footer f_header b_addr b_size b_free].
    + by rewrite lookup_insert_ne.
    + rewrite lookup_insert_ne by done. rewrite lookup_insert_eq. f_equal.
      unfold BLOCK_OVERHEAD, SIZEOF_HEADER, SIZEOF_FOOTER. rewrite u64_small; [lia|unfold is_u64; lia].
    + rewrite lookup_insert_ne by done. by rewrite lookup_insert_eq.
    + by rewrite lookup_insert_eq.
    + rewrite lookup_insert_ne by done. rewrite lookup_insert_eq. by eexists.
  - intros b [Fb Sb Tb Hb Nb] Hbx Hby Hfx Hfy.
    split; cbn [h_free h_size h_next h_footer f_header].
    + by rewrite !lookup_insert_ne.
    + by rewrite !lookup_insert_ne.
    + by rewrite !lookup_insert_ne.
    + by rewrite !lookup_insert_ne.
    + by rewrite !lookup_insert_ne.
Qed.

(** The blocks on either side of two neighbours keep their tags. *)
Lemma merge_keeps a b1 x y b2 e w w' :
  contig a (b1 ++ x :: y :: b2) e →
  (∀ b, tagged w b → b_addr b ≠ b_addr x → b_addr b ≠ b_addr y →
        ftr b ≠ ftr x → ftr b ≠ ftr y → tagged w' b) →
  Forall (tagged w) (b1 ++ x :: y :: b2) → Forall (tagged w') (b1 ++ b2).
Proof.
  intros Hc Hk Ht. rewrite Forall_forall in Ht. apply Forall_forall. intros b Hb.
  assert (tagged w b) as Hbt by (apply Ht; set_solver).
  pose proof (contig_range _ _ _ x Hc ltac:(set_solver)) as (_ & _ & Hx).
  assert (contig a ((b1 ++ [x]) ++ y :: b2) e) as Hc' by (by rewrite <- app_assoc).
  pose proof (contig_after _ _ _ _ _ y Hc ltac:(set_solver)) as (Hxy & Hy & _).
  apply elem_of_app in Hb as [Hb|Hb].
  - destruct (contig_before _ _ _ _ _ _ Hc Hb) as [? ?].
    apply Hk; [done|unfold ftr, b_end in *; lia..].
  - pose proof (contig_after _ _ _ _ _ b Hc' Hb) as (? & ? & _).
    apply Hk; [done|unfold ftr, b_end in *; lia..].
Qed.

Lemma contig_merge a b1 x y b2 e f :
  contig a (b1 ++ x :: y :: b2) e →
  contig a (b1 ++ Blk (b_addr x) (b_size x + b_size y + 33) f :: b2) e.
Proof.
  rewrite !contig_app. intros (m & H1 & Hm). exists m. split; [done|].
  cbn [contig] in *. destruct Hm as (? & ? & ? & ? & H2).
  cbn [b_addr b_size]. split; [done|]. split; [lia|].
  by replace (b_end (Blk (b_addr x) (b_size x + b_size y + 33) f)) with (b_end y)
    by (unfold b_end in *; cbn [b_addr b_size]; lia).
Qed.

(** The free blocks around a hole, in order. *)
Lemma hole_sorted a b1 c b2 e : contig a (b1 ++ c :: b2) e → StronglySorted Z.lt (frees b1 ++ frees b2).
Proof.
  intros Hc. rewrite <- frees_app.
  assert (frees (b1 ++ b2) = frees (b1 ++ Blk (b_addr c) (b_size c) false :: b2)) as ->
    by (by rewrite !frees_app).
  eapply frees_sorted. apply contig_app in Hc as (m & H1 & Hm). apply contig_app.
  exists m. split; [exact H1|exact Hm].
Qed.

Lemma not_in_frees a b1 c b2 e : contig a (b1 ++ c :: b2) e → b_addr c ∉ frees b1 ++ frees b2.
Proof.
  intros Hc. rewrite elem_of_app, !elem_of_frees.
  intros [(b & Hb & _ & E)|(b & Hb & _ & E)].
  - destruct (contig_before _ _ _ _ _ _ Hc Hb). unfold b_end in *. lia.
  - destruct (contig_after _ _ _ _ _ _ Hc Hb) as (? & ? & ?). unfold b_end in *. lia.
Qed.

(** Coalescing: [x] and [y] are neighbours, neither is on the free list, and
    the others are those of [b1] and [b2]. *)
Lemma wp_coalesce b1 x y b2 w :
  heap_initialized w = true →
  contig (first_available_vaddr w) (b1 ++ x :: y :: b2) (last_footer w + 8) →
  Forall (tagged w) (b1 ++ x :: y :: b2) → b_free x = true →
  links (h_next w) (free_regions w) (frees b1 ++ frees b2) → apart b1 → apart b2 →
  0 < first_available_vaddr w ∧ last_footer w + 8 ≤ 2 ^ 63 →
  wp (merge_blocks (b_addr x) (b_addr y))
    (λ _ w', same_static w w' ∧
       hole w' b1 (Blk (b_addr x) (b_size x + b_size y + 33) true) b2) w.
Proof.
  intros Hi Hc Ht Hf Hl Ha1 Ha2 [Hr1 Hr2].
  assert (contig (first_available_vaddr w) ((b1 ++ [x]) ++ y :: b2) (last_footer w + 8)) as Hc'
    by (by rewrite <- app_assoc).
  pose proof (contig_range _ _ _ x Hc ltac:(set_solver)) as (Hx1 & Hx2 & Hx3).
  pose proof (contig_range _ _ _ y Hc ltac:(set_solver)) as (Hy1 & Hy2 & Hy3).
  assert (b_addr y = b_end x) as Hadj.
  { apply contig_app in Hc as (m & _ & Hm). cbn [contig] in Hm. by destruct Hm as (_ & _ & ? & _). }
  rewrite Forall_forall in Ht. eapply wp_mono.
  { apply wp_merge; [apply Ht; set_solver..|done|done|done|unfold b_end in *; lia]. }
  intros _ w' (Hs & Hfr & Hm & (u & v & Hn) & Hk). split; [done|].
  destruct Hs as (_ & Hfa & Hlf & Hin & _). split.
  - by rewrite Hin.
  - rewrite Hfa, Hlf. by apply contig_merge.
  - apply Forall_forall. intros b Hb.
    assert (b = Blk (b_addr x) (b_size x + b_size y + 33) true ∨ b ∈ b1 ++ b2) as [->|Hb'] by set_solver.
    + by rewrite Hf in Hm.
    + assert (Forall (tagged w') (b1 ++ b2)) as Hall
        by (eapply merge_keeps; [exact Hc|exact Hk|by apply Forall_forall]).
      rewrite Forall_forall in Hall. by apply Hall.
  - done.
  - rewrite Hn, Hfr. apply links_insert.
    + pose proof (not_in_frees _ _ _ _ _ Hc') as Hny. rewrite frees_app in Hny. set_solver.
    + apply links_insert; [|done]. pose proof (not_in_frees _ _ _ _ _ Hc) as Hnx.
      cbn [frees] in Hnx. destruct (b_free y); set_solver.
  - done.
  - done.
  - by rewrite Hfa, Hlf.
Qed.

(** Closing the hole. *)
Lemma wp_close b1 c b2 w :
  hole w b1 c b2 →
  (∀ b, last b1 = Some b → b_free b = false) → (∀ b, head b2 = Some b → b_free b = false) →
  wp (insert_free_block (b_addr c)) (λ _ w', same_static w w' ∧ heap_ok w' (b1 ++ c :: b2)) w.
Proof.
  intros [Hi Hc Ht Hf Hl Ha1 Ha2 Hr] Hb1 Hb2.
  pose proof (contig_range _ _ _ c Hc ltac:(set_solver)) as (Hc1 & _ & _).
  eapply wp_mono.
  { apply (wp_insert (frees b1) (frees b2)); [done|by eapply hole_sorted|lia|..].
    - intros y (b & Hb & _ & <-)%elem_of_frees.
      destruct (contig_before _ _ _ _ _ _ Hc Hb). unfold b_end in *. lia.
    - intros y (b & Hb & _ & <-)%elem_of_frees.
      destruct (contig_after _ _ _ _ _ _ Hc Hb) as (? & ? & ?). unfold b_end in *. lia. }
  intros _ w' (nx & fr & -> & Hl' & Hn). hcbn. split; [done|]. hcbn in Hl'. hcbn in Hn. split; hcbn.
  - done.
  - done.
  - rewrite Forall_forall in Ht. apply Forall_forall. intros b Hb. destruct (Ht b Hb) as [Fb Sb Tb Hdb Nb].
    split; hcbn; [|done|done|done|by apply Hn].
    destruct (decide (b_addr c = b_addr b)) as [E|Hne]; [|by rewrite lookup_insert_ne].
    destruct (Ht c ltac:(set_solver)) as [Fc _ _ _ _]. rewrite E in Fc. rewrite E, lookup_insert_eq. congruence.
  - by destruct b1.
  - rewrite frees_app. cbn [frees]. by rewrite Hf.
  - apply apart_app. split; [done|]. split.
    + change (c :: b2) with ([c] ++ b2). apply apart_app. split; [done|]. split; [done|].
      intros ? d [= <-] Hd. by rewrite (Hb2 d Hd), andb_false_r.
    + intros b d Hb [= <-]. by rewrite (Hb1 b Hb).
  - done.
Qed.

(** ** Neighbours *)

(** Addresses of the heap are far below the wrap-around. *)
Lemma block_in_heap w bs b :
  contig (first_available_vaddr w) bs (last_footer w + 8) → b ∈ bs →
  0 < first_available_vaddr w ∧ last_footer w + 8 ≤ 2 ^ 63 →
  is_block_header_in_heap (b_addr b) w = Ret (true, w) ∧ is_footer_in_heap (ftr b) w = Ret (true, w).
Proof.
  intros Hc Hb [Hr1 Hr2]. destruct (contig_range _ _ _ _ Hc Hb) as (H1 & H2 & H3).
  unfold b_end, ftr in *. unfold is_block_header_in_heap, is_footer_in_heap, gets, mbind, prog_bind, mret, prog_ret.
  cbn [id]. unfold SIZEOF_HEADER. rewrite u64_small by (unfold is_u64; lia).
  rewrite (proj2 (Z.eqb_neq (b_addr b) 0)), (proj2 (Z.eqb_neq (b_addr b + 25 + b_size b) 0)) by lia.
  rewrite (proj2 (Z.leb_le (first_available_vaddr w) (b_addr b))) by lia.
  rewrite (proj2 (Z.leb_le (first_available_vaddr w) (b_addr b + 25 + b_size b))) by lia.
  rewrite (proj2 (Z.leb_le (b_addr b + 25) _)), (proj2 (Z.leb_le (b_addr b + 25 + b_size b) _)) by lia.
  done.
Qed.

Lemma wp_of_run {B} (m : prog W B) b (Q : B → W → Prop) w : m w = Ret (b, w) → Q b w → wp m Q w.
Proof. intros H HQ. unfold wp. by rewrite H. Qed.

Lemma wp_get_previous w b1 c b2 :
  hole w b1 c b2 →
  wp (get_previous (b_addr c))
     (λ r w', w' = w ∧ r = match last b1 with Some p => b_addr p | None => 0 end) w.
Proof.
  intros [Hi Hc Ht Hf Hl Ha1 Ha2 Hr]. pose proof Hr as [Hr1 Hr2].
  pose proof (contig_range _ _ _ c Hc ltac:(set_solver)) as (Hc1 & Hc2 & Hc3). unfold b_end in *.
  unfold get_previous. apply wp_bind.
  eapply wp_of_run; [apply (block_in_heap w (b1 ++ c :: b2) c); [done|set_solver|done]|].
  cbn [negb]. apply wp_bind, wp_gets. unfold SIZEOF_HEADER, SIZEOF_FOOTER.
  rewrite u64_small by (unfold is_u64; lia).
  destruct (last b1) as [p|] eqn:Hlast.
  2:{ apply last_None in Hlast as ->. cbn [app contig] in Hc. destruct Hc as (Hc & _).
      rewrite (proj2 (Z.ltb_lt _ _)) by lia. by apply wp_ret. }
  apply last_Some in Hlast as [b1' ->]. rewrite <- app_assoc in Hc, Ht. cbn [app] in Hc, Ht.
  pose proof (contig_range _ _ _ p Hc ltac:(set_solver)) as (Hp1 & Hp2 & Hp3).
  assert (b_addr c = b_end p) as Hadj.
  { apply contig_app in Hc as (m & _ & Hm). cbn [contig] in Hm. by destruct Hm as (_ & _ & ? & _). }
  unfold b_end in *. rewrite (proj2 (Z.ltb_ge _ _)) by lia.
  rewrite u64_small by (unfold is_u64; lia).
  replace (b_addr c - 8) with (ftr p) by (unfold ftr; lia).
  destruct (block_in_heap w _ p Hc ltac:(set_solver) Hr) as [Hb Hft].
  apply wp_bind. eapply wp_of_run; [exact Hft|]. cbn [negb].
  rewrite Forall_forall in Ht. destruct (Ht p ltac:(set_solver)) as [Fp Sp Tp Hp Np].
  apply wp_bind. eapply wp_get; [exact Hp|].
  apply wp_bind. eapply wp_of_run; [exact Hb|]. cbn [negb].
  rewrite (proj2 (Z.leb_gt _ _)) by lia.
  apply wp_bind. eapply wp_get; [exact Tp|]. rewrite Z.eqb_refl. by apply wp_ret.
Qed.

Lemma wp_block_next w b1 c b2 :
  hole w b1 c b2 →
  wp (get_next (b_addr c))
     (λ r w', w' = w ∧ r = match head b2 with Some n => b_addr n | None => 0 end) w.
Proof.
  intros [Hi Hc Ht Hf Hl Ha1 Ha2 Hr]. pose proof Hr as [Hr1 Hr2].
  pose proof (contig_range _ _ _ c Hc ltac:(set_solver)) as (Hc1 & Hc2 & Hc3).
  destruct (block_in_heap w _ c Hc ltac:(set_solver) Hr) as [Hb Hft].
  rewrite Forall_forall in Ht. destruct (Ht c ltac:(set_solver)) as [Fc Sc Tc Hcc Nc].
  unfold get_next. apply wp_bind. eapply wp_of_run; [exact Hb|]. cbn [negb].
  apply wp_bind. eapply wp_get; [exact Tc|]. apply wp_bind. eapply wp_of_run; [exact Hft|]. cbn [negb].
  apply wp_bind, wp_gets. unfold SIZEOF_FOOTER.
  rewrite u64_small by (unfold is_u64, ftr, b_end in *; lia).
  replace (ftr c + 8) with (b_end c) by (unfold ftr, b_end; lia).
  destruct b2 as [|n b2]; cbn [head].
  { apply contig_app in Hc as (m & _ & Hm). cbn [contig] in Hm. destruct Hm as (_ & _ & Hm).
    rewrite (proj2 (Z.leb_le _ _)) by lia. by apply wp_ret. }
  assert (b_addr n = b_end c) as Hadj.
  { apply contig_app in Hc as (m & _ & Hm). cbn [contig] in Hm. by destruct Hm as (_ & _ & ? & _). }
  pose proof (contig_range _ _ _ n Hc ltac:(set_solver)) as (Hn1 & Hn2 & Hn3).
  rewrite (proj2 (Z.leb_gt _ _)) by (unfold b_end in *; lia). rewrite <- Hadj.
  destruct (block_in_heap w _ n Hc ltac:(set_solver) Hr) as [Hnb Hnft].
  destruct (Ht n ltac:(set_solver)) as [Fn Sn Tn Hnn Nn].
  apply wp_bind. eapply wp_of_run; [exact Hnb|]. cbn [negb].
  apply wp_bind. eapply wp_get; [exact Tn|]. apply wp_bind. eapply wp_of_run; [exact Hnft|]. cbn [negb].
  apply wp_bind. eapply wp_get; [exact Hnn|]. rewrite Z.eqb_refl. by apply wp_ret.
Qed.

(** ** Coalescing with either neighbour *)

Lemma wp_merge_previous w b1 p c b2 :
  hole w (b1 ++ [p]) c b2 → b_free p = true →
  wp (_ ← remove_from_free_list (b_addr p);
      _ ← merge_blocks (b_addr p) (b_addr c); mret (b_addr p))
    (λ r w', r = b_addr p ∧ same_static w w' ∧
       hole w' b1 (Blk (b_addr p) (b_size p + b_size c + 33) true) b2) w.
Proof.
  intros [Hi Hc Ht Hf Hl Ha1 Ha2 Hr] Hp.
  pose proof (hole_sorted _ _ _ _ _ Hc) as Hs.
  rewrite frees_app in Hl, Hs. cbn [frees] in Hl, Hs. rewrite Hp, <- app_assoc in Hl, Hs. cbn [app] in Hl, Hs.
  rewrite <- app_assoc in Hc, Ht. cbn [app] in Hc, Ht.
  apply apart_app in Ha1 as (Ha1 & _ & _).
  apply wp_bind. eapply wp_mono; [apply wp_list_remove; [exact Hl|by apply sorted_nodup]|].
  intros [] w1 Hre. pose proof (relisted_static _ _ _ Hre) as Hst.
  assert (Forall (tagged w1) (b1 ++ p :: c :: b2)) as Ht1
    by (eapply Forall_impl; [exact Ht|]; intros b; by eapply relisted_tagged).
  destruct Hst as (Hg & Hfa & Hlf & Hin & Hrf & Hso). destruct Hre as (nx & fr & Hw1 & Hl1 & _). subst w1.
  apply wp_bind. eapply wp_mono; [by apply (wp_coalesce b1 p c b2)|].
  intros _ w2 [Hst2 Hh]. by apply wp_ret.
Qed.

Lemma wp_merge_next w b1 c n b2 :
  hole w b1 c (n :: b2) → b_free n = true →
  wp (_ ← remove_from_free_list (b_addr n); merge_blocks (b_addr c) (b_addr n))
    (λ _ w', same_static w w' ∧ hole w' b1 (Blk (b_addr c) (b_size c + b_size n + 33) true) b2) w.
Proof.
  intros [Hi Hc Ht Hf Hl Ha1 Ha2 Hr] Hn.
  pose proof (hole_sorted _ _ _ _ _ Hc) as Hs.
  cbn [frees] in Hl, Hs. rewrite Hn in Hl, Hs.
  change (n :: b2) with ([n] ++ b2) in Ha2. apply apart_app in Ha2 as (_ & Ha2 & _).
  apply wp_bind. eapply wp_mono; [apply wp_list_remove; [exact Hl|by apply sorted_nodup]|].
  intros [] w1 Hre. pose proof (relisted_static _ _ _ Hre) as Hst.
  assert (Forall (tagged w1) (b1 ++ c :: n :: b2)) as Ht1
    by (eapply Forall_impl; [exact Ht|]; intros b; by eapply relisted_tagged).
  destruct Hst as (Hg & Hfa & Hlf & Hin & Hrf & Hso). destruct Hre as (nx & fr & Hw1 & Hl1 & _). subst w1.
  eapply wp_mono; [by apply (wp_coalesce b1 c n b2)|]. intros [] w2 [Hst2 Hh]. by split.
Qed.

(** ** Occupying a free block *)

(** [w'] after [split_region] and the store of the new size. *)
Lemma wp_split_block {B} w b sz (k : Z → prog W B) Q :
  tagged w b → 0 ≤ sz → sz + 33 < b_size b → 0 < b_addr b → b_end b ≤ 2 ^ 63 →
  (∀ w', let l := Blk (b_addr b + 33 + sz) (b_size b - sz - 33) true in
       same_static w w' ∧ free_regions w' = free_regions w ∧
       tagged w' (Blk (b_addr b) sz (b_free b)) ∧ tagged w' l ∧
       (∃ v, h_next w' = <[b_addr l := v]> (h_next w)) ∧
       (∀ c, tagged w c → b_addr c ≠ b_addr b → b_addr c ≠ b_addr l →
            ftr c ≠ ftr b → ftr c ≠ b_addr l - 8 → tagged w' c) →
       wp (k (b_addr l)) Q w') →
  wp (leftover ← split_region (b_addr b) sz; _ ← set_size (b_addr b) sz; k leftover) Q w.
Proof.
  intros [Fb Sb Tb Hb [nb Nb]] Hsz Hbig Hpos Hend Hk. unfold b_end in Hend. cbn zeta in Hk.
  cbn [b_addr b_size b_free] in Hk.
  unfold split_region. apply wp_bind. unfold SIZEOF_HEADER, SIZEOF_FOOTER.
  rewrite (u64_small (b_addr b + 25 + 8 + sz)) by (unfold is_u64; lia).
  replace (b_addr b + 25 + 8 + sz) with (b_addr b + 33 + sz) by lia.
  set (l := b_addr b + 33 + sz). assert (l ≠ b_addr b) as Hne by (unfold l; lia).
  rewrite (u64_small (l - 8)) by (unfold is_u64, l; lia).
  assert (ftr b ≠ l - 8) as Hfne by (unfold ftr, l; lia).
  apply wp_bind. eapply wp_get; [exact Tb|]. hset. hset. unfold set_footer_at.
  apply wp_bind. hset. apply wp_modify. hcbn.
  apply wp_bind. eapply wp_get; [exact Sb|]. hset.
  apply wp_bind. eapply wp_get; [exact Nb|]. hset. hset. apply wp_ret. hset. apply Hk.
  rewrite (u64_small (b_size b - sz - 25 - 8)) by (unfold is_u64; lia). fold l.
  assert (ftr (Blk l (b_size b - sz - 33) true) = ftr b) as Hfl
    by (unfold ftr, l; cbn [b_addr b_size]; lia).
  assert (ftr (Blk (b_addr b) sz (b_free b)) = l - 8) as Hfb
    by (unfold ftr, l; cbn [b_addr b_size]; lia).
  split; [done|]. split; [done|]. split; [|split; [|split; [by eexists|]]].
  - split; rewrite ?Hfb; hcbn; cbn [b_addr b_size b_free].
    + by rewrite lookup_insert_ne.
    + by rewrite lookup_insert_eq.
    + by rewrite lookup_insert_eq.
    + by rewrite lookup_insert_eq.
    + rewrite lookup_insert_ne by done. by eexists.
  - split; rewrite ?Hfl; hcbn; cbn [b_addr b_size b_free].
    + by rewrite lookup_insert_eq.
    + rewrite lookup_insert_ne by done. rewrite lookup_insert_eq. f_equal. lia.
    + rewrite lookup_insert_ne by done. by rewrite lookup_insert_eq.
    + rewrite lookup_insert_ne by done. by rewrite lookup_insert_eq.
    + rewrite lookup_insert_eq. by eexists.
  - intros c [Fc Sc Tc Hc Nc] H1 H2 H3 H4.
    split; hcbn; by rewrite !lookup_insert_ne.
Qed.

Lemma tagged_with_next w b a v :
  tagged w b → tagged (with_list (<[a := v]> (h_next w)) (free_regions w) w) b.
Proof. intros [? ? ? ? ?]. split; try done. hcbn. rewrite lookup_insert_is_Some'. by right. Qed.

(** The block is taken whole, or its front is and the rest stays free. *)
Definition occupied (b : blk) (sz : Z) (bs : list blk) : Prop :=
  bs = [Blk (b_addr b) (b_size b) false] ∨
  bs = [Blk (b_addr b) sz false; Blk (b_addr b + 33 + sz) (b_size b - sz - 33) true].

Lemma contig_occupied a b1 b b2 e sz bs :
  contig a (b1 ++ b :: b2) e → 0 ≤ sz → (sz + 33 < b_size b ∨ length bs = 1%nat) → occupied b sz bs →
  contig a (b1 ++ bs ++ b2) e.
Proof.
  rewrite !contig_app. intros (m & H1 & Hm) Hsz Hbig Hocc. exists m. split; [done|].
  cbn [contig] in Hm. destruct Hm as (Ha & Hs & H2).
  destruct Hocc as [->| ->]; cbn [app contig b_addr b_size]; [by split_and!|].
  destruct Hbig as [Hbig|?]; [|done]. split; [done|]. split; [lia|].
  split; [unfold b_end; cbn [b_addr b_size]; lia|]. split; [lia|].
  replace (b_end _) with (b_end b) by (unfold b_end; cbn [b_addr b_size]; lia). done.
Qed.

(** The rest of the heap does not touch the block. *)
Lemma other_blocks a b1 b b2 e c :
  contig a (b1 ++ b :: b2) e → c ∈ b1 ++ b2 →
  b_addr c ≠ b_addr b ∧ ftr c ≠ ftr b ∧ (b_end c ≤ b_addr b ∨ b_end b ≤ b_addr c) ∧ 0 ≤ b_size c.
Proof.
  intros Hc [Hcb|Hcb]%elem_of_app;
    pose proof (contig_range _ _ _ b Hc ltac:(set_solver)) as (_ & _ & Hb).
  - destruct (contig_before _ _ _ _ _ _ Hc Hcb). unfold ftr, b_end in *. lia.
  - destruct (contig_after _ _ _ _ _ _ Hc Hcb) as (? & ? & ?). unfold ftr, b_end in *. lia.
Qed.

(** The heap is apart again when the front of a free block is taken. *)
Lemma apart_occupied b1 b b2 sz bs :
  apart (b1 ++ b :: b2) → b_free b = true → occupied b sz bs → apart (b1 ++ bs ++ b2).
Proof.
  intros Ha Hf Hocc. apply apart_app in Ha as (Ha1 & Ha2 & _). change (b :: b2) with ([b] ++ b2) in Ha2.
  apply apart_app in Ha2 as (_ & Ha2 & Ha2').
  assert (∀ c, head b2 = Some c → b_free c = false) as Hright.
  { intros c Hch. specialize (Ha2' b c eq_refl Hch). by rewrite Hf in Ha2'. }
  apply apart_app. split; [done|].
  destruct Hocc as [->| ->]; (split; [|by intros c d _ [= <-]; apply andb_false_r]).
  - apply apart_app. split_and!; try done. by intros ? d [= <-].
  - change [?x; ?y] with ([x] ++ [y]). rewrite <- app_assoc. apply apart_app.
    split_and!; try done; [|by intros ? d [= <-]].
    apply apart_app. split_and!; try done. intros ? d [= <-] Hd. by rewrite (Hright d Hd), andb_false_r.
Qed.

(** The heap after the free list has been adjusted and the block's link is stored. *)
Lemma occupied_heap w w' b1 b b2 sz bs v :
  heap_ok w (b1 ++ b :: b2) → b_free b = true → 0 ≤ sz → (sz + 33 < b_size b ∨ length bs = 1%nat) →
  occupied b sz bs → same_static w w' → Forall (tagged w') (b1 ++ bs ++ b2) →
  links (h_next w') (free_regions w') (frees (b1 ++ bs ++ b2)) → b_addr b ∉ frees (b1 ++ bs ++ b2) →
  heap_ok (with_list (<[b_addr b := v]> (h_next w')) (free_regions w') w') (b1 ++ bs ++ b2).
Proof.
  intros [Hi Hc _ _ _ Ha Hr] Hf Hsz Hbig Hocc (_ & Hfa & Hlf & Hin & _) Ht Hl Hnot.
  split; hcbn; rewrite ?Hfa, ?Hlf; [congruence| | | | | |done].
  - by eapply contig_occupied.
  - eapply Forall_impl; [exact Ht|]. intros c. apply tagged_with_next.
  - by destruct b1, Hocc as [->| ->].
  - by apply links_insert.
  - by eapply apart_occupied.
Qed.

(** Taking the whole block. *)
Lemma wp_occupy_whole w w1 b1 b b2 sz :
  heap_ok w (b1 ++ b :: b2) → b_free b = true → 0 ≤ sz → same_static w w1 →
  tagged w1 (Blk (b_addr b) (b_size b) false) → (∀ c, c ∈ b1 ++ b2 → tagged w1 c) →
  links (h_next w1) (free_regions w1) (frees b1 ++ b_addr b :: frees b2) →
  NoDup (frees b1 ++ b_addr b :: frees b2) →
  wp (_ ← remove_from_free_list (b_addr b); set_next (b_addr b) 0)
    (λ _ w', same_static w w' ∧ ∃ bs, occupied b sz bs ∧ heap_ok w' (b1 ++ bs ++ b2)) w1.
Proof.
  intros Hok Hf Hsz Hst1 Htb Ht Hl Hnd. apply wp_bind.
  eapply wp_mono; [by apply wp_list_remove|]. intros [] w2 Hre. apply wp_set_next_block.
  pose proof (same_static_trans _ _ _ Hst1 (relisted_static _ _ _ Hre)) as Hst2.
  split; [done|]. exists [Blk (b_addr b) (b_size b) false]. split; [by left|].
  eapply (occupied_heap w w2 b1 b b2 sz); [done|done|done|by right|by left|done| | |].
  - apply Forall_forall. intros c Hcb. eapply relisted_tagged; [done|].
    assert (c = Blk (b_addr b) (b_size b) false ∨ c ∈ b1 ++ b2) as [->|?] by set_solver; auto.
  - destruct Hre as (nx & fr & -> & Hl2 & _). rewrite !frees_app. done.
  - rewrite !frees_app. cbn [frees b_free app]. eapply not_in_frees, Hok.
Qed.

(** Splitting it. *)
Lemma wp_occupy_split w w1 b1 b b2 sz :
  heap_ok w (b1 ++ b :: b2) → b_free b = true → 0 ≤ sz → sz + 33 < b_size b → same_static w w1 →
  tagged w1 (Blk (b_addr b) (b_size b) false) → (∀ c, c ∈ b1 ++ b2 → tagged w1 c) →
  links (h_next w1) (free_regions w1) (frees b1 ++ b_addr b :: frees b2) →
  NoDup (frees b1 ++ b_addr b :: frees b2) →
  wp (_ ← (leftover ← split_region (b_addr b) sz; _ ← set_size (b_addr b) sz;
           replace_free_list_block (b_addr b) leftover); set_next (b_addr b) 0)
    (λ _ w', same_static w w' ∧ ∃ bs, occupied b sz bs ∧ heap_ok w' (b1 ++ bs ++ b2)) w1.
Proof.
  intros Hok Hf Hsz Hbig Hst1 Htb Ht1 Hl1 Hnd. pose proof (ho_contig _ _ Hok) as Hc.
  pose proof (contig_range _ _ _ b Hc ltac:(set_solver)) as (Hb1 & Hb2 & Hb3).
  pose proof (ho_range _ _ Hok) as [Hr1 Hr2].
  apply wp_bind. eapply (wp_split_block w1 (Blk (b_addr b) (b_size b) false));
    [done|done|done|cbn [b_addr]; lia|unfold b_end in *; cbn [b_addr b_size]; lia|].
  cbn zeta. cbn [b_addr b_size b_free]. intros w2 (Hst2 & Hfr2 & Htb2 & Htl2 & (v & Hn2) & Hk2).
  set (lft := Blk (b_addr b + 33 + sz) (b_size b - sz - 33) true) in *.
  assert (b_addr lft ∉ frees b1 ++ b_addr b :: frees b2) as Hlnew.
  { rewrite elem_of_app, elem_of_cons, !elem_of_frees. cbn [lft b_addr].
    intros [(c & Hcb & _ & E)|[E|(c & Hcb & _ & E)]]; [|lia|];
      destruct (other_blocks _ _ _ _ _ c Hc ltac:(set_solver)) as (_ & _ & ? & ?); unfold b_end in *; lia. }
  assert (∀ c, c ∈ b1 ++ b2 → tagged w2 c) as Ht2.
  { intros c Hcb. destruct (other_blocks _ _ _ _ _ c Hc Hcb) as (Hne & Hfe & Hpos & ?).
    apply Hk2; [by apply Ht1|done| |done|];
      cbn [lft b_addr]; unfold ftr, b_end in *; cbn [b_addr b_size] in *; lia. }
  eapply wp_mono.
  { apply (wp_replace (frees b1) (b_addr b) (frees b2)); [|done|cbn [lft b_addr]; lia|done].
    rewrite Hn2, Hfr2. by apply links_insert. }
  intros [] w3 Hre. apply wp_set_next_block.
  pose proof (same_static_trans _ _ _ (same_static_trans _ _ _ Hst1 Hst2) (relisted_static _ _ _ Hre)) as Hst3.
  split; [done|]. exists [Blk (b_addr b) sz false; lft]. split; [by right|].
  eapply (occupied_heap w w3 b1 b b2 sz); [done|done|done|by left|by right|done| | |].
  - apply Forall_forall. intros c Hcb. eapply relisted_tagged; [done|].
    assert (c = Blk (b_addr b) sz false ∨ c = lft ∨ c ∈ b1 ++ b2) as [->|[->|?]] by set_solver; auto.
  - destruct Hre as (nx & fr & -> & Hl3 & _). rewrite !frees_app. done.
  - rewrite !frees_app. cbn [frees b_free lft app b_addr].
    pose proof (not_in_frees _ _ _ _ _ Hc) as Hnb. rewrite elem_of_app, elem_of_cons.
    rewrite elem_of_app in Hnb. intros [?|[?|?]]; [tauto|lia|tauto].
Qed.

Lemma wp_occupy w b1 b b2 sz :
  heap_ok w (b1 ++ b :: b2) → b_free b = true → 0 ≤ sz ≤ b_size b →
  wp (occupy_block (b_addr b) sz)
    (λ _ w', same_static w w' ∧ ∃ bs, occupied b sz bs ∧ heap_ok w' (b1 ++ bs ++ b2)) w.
Proof.
  intros Hok Hf Hsz. pose proof Hok as [_ Hc Ht _ Hl _ [Hr1 Hr2]].
  pose proof (contig_range _ _ _ b Hc ltac:(set_solver)) as (Hb1 & Hb2 & Hb3).
  pose proof (sorted_nodup _ (frees_sorted _ _ _ Hc)) as Hnd.
  rewrite frees_app in Hl, Hnd. cbn [frees] in Hl, Hnd. rewrite Hf in Hl, Hnd.
  rewrite Forall_forall in Ht. unfold occupy_block. hset.
  set (w1 := MkHeap _ _ _ _ _ _ _ _ _ _ _ _). assert (same_static w w1) as Hst1 by done.
  assert (tagged w1 (Blk (b_addr b) (b_size b) false)) as Htb1.
  { destruct (Ht b ltac:(set_solver)) as [? ? ? ? ?]. split; try done. hcbn. apply lookup_insert_eq. }
  assert (∀ c, c ∈ b1 ++ b2 → tagged w1 c) as Ht1.
  { intros c Hcb. destruct (other_blocks _ _ _ _ _ c Hc Hcb) as (Hne & _).
    destruct (Ht c ltac:(set_solver)) as [? ? ? ? ?]. split; try done. unfold w1. hcbn. by rewrite lookup_insert_ne. }
  assert (links (h_next w1) (free_regions w1) (frees b1 ++ b_addr b :: frees b2)) as Hl1 by done.
  clearbody w1. apply wp_bind. eapply wp_get; [apply (tg_size _ _ Htb1)|]. cbn [b_size].
  unfold SIZEOF_HEADER, SIZEOF_FOOTER. unfold b_end in Hb2.
  rewrite u64_small by (unfold is_u64; lia). replace (sz + 25 + 8) with (sz + 33) by lia.
  destruct (Z.leb_spec (b_size b) (sz + 33)).
  - by apply wp_occupy_whole; try lia.
  - by apply wp_occupy_split; try lia.
Qed.

(** ** Growing the heap *)

(** The allocated payloads and their sizes. *)
Fixpoint useds (bs : list blk) : list (Z * Z) :=
  match bs with
  | [] => []
  | b :: bs' => if b_free b then useds bs' else (b_addr b + 25, b_size b) :: useds bs'
  end.

Lemma useds_app bs1 bs2 : useds (bs1 ++ bs2) = useds bs1 ++ useds bs2.
Proof. induction bs1 as [|b bs1 IH]; cbn; [done|]. destruct (b_free b); cbn; by rewrite IH. Qed.

(** The invariant only looks at the heap. *)
Lemma heap_ok_same w w' bs :
  h_free w' = h_free w → h_size w' = h_size w → h_next w' = h_next w → h_footer w' = h_footer w →
  f_header w' = f_header w → free_regions w' = free_regions w →
  first_available_vaddr w' = first_available_vaddr w → last_footer w' = last_footer w →
  heap_initialized w' = heap_initialized w → heap_ok w bs → heap_ok w' bs.
Proof.
  intros E1 E2 E3 E4 E5 E6 E7 E8 E9 [Hi Hc Ht Hn Hl Ha Hr].
  split; rewrite ?E3, ?E6, ?E7, ?E8, ?E9; try done.
  eapply Forall_impl; [exact Ht|]. intros b [? ? ? ? ?].
  split; rewrite ?E1, ?E2, ?E3, ?E4, ?E5; done.
Qed.

Lemma align_up_spec a :
  0 ≤ a ≤ 2 ^ 63 → let r := align_up a PAGE_SIZE in a ≤ r < a + 4096 ∧ r mod 4096 = 0.
Proof.
  intros Ha. unfold align_up, PAGE_SIZE. change (4096 - 1) with (2 ^ 12 - 1).
  rewrite u64_small by (unfold is_u64; lia).
  rewrite land_high_mask by (unfold is_u64; lia). change (2 ^ 12) with 4096. cbn zeta. zdiv.
Qed.

Definition with_source (m : M) w : W :=
  MkHeap (h_free w) (h_size w) (h_next w) (h_footer w) (f_header w) (free_regions w)
    (heap_grow_size w) (first_available_vaddr w) (last_footer w) (heap_initialized w) (rflags w) m.

(** A new block after the last one. *)
Definition with_new_block (n : blk) w : W :=
  MkHeap (<[b_addr n := true]> (h_free w)) (<[b_addr n := b_size n]> (h_size w))
    (<[b_addr n := 0]> (h_next w)) (<[b_addr n := ftr n]> (h_footer w))
    (<[ftr n := b_addr n]> (f_header w)) (free_regions w)
    (heap_grow_size w) (first_available_vaddr w) (ftr n) (heap_initialized w) (rflags w) (source w).

Lemma hole_new_block w bs n :
  heap_ok w bs → b_addr n = last_footer w + 8 → 0 ≤ b_size n → b_free n = true → b_end n ≤ 2 ^ 63 →
  hole (with_new_block n w) bs n [].
Proof.
  intros [Hi Hc Ht Hne Hl Ha Hr] Haddr Hsz Hf Hend.
  assert (∀ b, b ∈ bs → b_addr b ≠ b_addr n ∧ ftr b ≠ ftr n) as Hdiff.
  { intros b Hb. destruct (contig_range _ _ _ _ Hc Hb) as (? & ? & ?). unfold b_end, ftr in *. lia. }
  split; cbn [with_new_block heap_initialized first_available_vaddr last_footer h_next free_regions].
  - done.
  - apply contig_app. exists (last_footer w + 8). split; [done|]. cbn [contig].
    split; [done|]. split; [done|]. unfold b_end, ftr. lia.
  - apply Forall_app. split.
    + rewrite Forall_forall in Ht. apply Forall_forall. intros b Hb. destruct (Hdiff b Hb) as [Hd1 Hd2].
      destruct (Ht b Hb) as [? ? ? ? ?].
      split; cbn [with_new_block h_free h_size h_next h_footer f_header]; by rewrite lookup_insert_ne.
    + constructor; [|constructor]. split; cbn [with_new_block h_free h_size h_next h_footer f_header];
        rewrite lookup_insert_eq; rewrite ?Hf; done.
  - done.
  - cbn [frees]. rewrite app_nil_r. apply links_insert; [|done].
    intros (b & Hb & _ & E)%elem_of_frees. by destruct (Hdiff b Hb).
  - done.
  - done.
  - unfold b_end, ftr in *. lia.
Qed.

Lemma wp_map_heap_pages a n r m (Q : Z → W → Prop) w :
  hs_map a n (source w) = Ret (r, m) → Q r (with_source m w) → wp (map_heap_pages a n) Q w.
Proof. intros Hm HQ. unfold wp, map_heap_pages. by rewrite Hm. Qed.

Context {laws_M : HeapSourceLaws M}.

(** Where the last block ends. *)
Lemma last_block_footer w b1 p : heap_ok w (b1 ++ [p]) → ftr p = last_footer w.
Proof.
  intros Hok. pose proof (ho_contig _ _ Hok) as Hc. apply contig_app in Hc as (? & _ & Hc). cbn [contig] in Hc.
  destruct Hc as (_ & _ & Hc). unfold b_end, ftr in *. lia.
Qed.

(** The new block is joined with the last one when that is free, and listed. *)
Lemma wp_grow_list w w1 b1 p n k :
  heap_ok w (b1 ++ [p]) → hole w1 (b1 ++ [p]) n [] → k ≤ b_size n → rflags w1 = rflags w →
  wp (r ← (if b_free p then _ ← remove_from_free_list (b_addr p);
                            _ ← merge_blocks (b_addr p) (b_addr n); mret (b_addr p)
           else mret (b_addr n));
      _ ← insert_free_block r; mret r)
    (λ r w', rflags w' = rflags w ∧ ∃ b1' c, r = b_addr c ∧ b_free c = true ∧ heap_ok w' (b1' ++ [c]) ∧
       k ≤ b_size c ∧ useds b1' = useds (b1 ++ [p])) w1.
Proof.
  intros Hok Hh1 Hk Hrf. pose proof (ho_apart _ _ Hok) as Hap. apply apart_app in Hap as (_ & _ & Hap).
  pose proof (contig_range _ _ _ p (ho_contig _ _ Hok) ltac:(set_solver)) as (_ & _ & Hp0).
  pose proof (hl_free _ _ _ _ Hh1) as Hn.
  apply wp_bind. destruct (b_free p) eqn:Hpf.
  - eapply wp_mono; [by apply wp_merge_previous|]. intros r w2 (-> & Hst & Hh2).
    apply wp_bind. eapply wp_mono; [apply (wp_close _ _ _ _ Hh2); [|done]|].
    { intros b Hb. specialize (Hap b p Hb eq_refl). by rewrite Hpf, andb_true_r in Hap. }
    intros [] w3 [Hst3 Hok3]. apply wp_ret.
    split; [destruct Hst as (_&_&_&_&?&_), Hst3 as (_&_&_&_&?&_); congruence|].
    eexists b1, _. split; [|split; [|split; [exact Hok3|]]]; [done|done|].
    split; [cbn [b_size]; lia|]. rewrite useds_app. cbn [useds]. by rewrite Hpf, app_nil_r.
  - apply wp_ret, wp_bind. eapply wp_mono; [apply (wp_close _ _ _ _ Hh1); [|done]|].
    { intros b Hb. rewrite last_snoc in Hb. by injection Hb as <-. }
    intros [] w3 [Hst3 Hok3]. apply wp_ret.
    split; [destruct Hst3 as (_&_&_&_&?&_); congruence|]. by exists (b1 ++ [p]), n.
Qed.

Lemma wp_grow w bs pages :
  heap_ok w bs → 0 < pages →
  wp (grow_heap_by pages)
    (λ r w', (r = 0 ∧ ∃ m, w' = with_source m w) ∨
       (rflags w' = rflags w ∧ ∃ b1 c, r = b_addr c ∧ b_free c = true ∧ heap_ok w' (b1 ++ [c]) ∧
          pages * 4096 - 33 ≤ b_size c ∧ useds b1 = useds bs)) w.
Proof.
  intros Hok Hp. pose proof (ho_range _ _ Hok) as [Hr1 Hr2].
  pose proof (contig_le _ _ _ (ho_contig _ _ Hok)) as Hle.
  unfold grow_heap_by. rewrite (proj2 (Z.eqb_neq pages 0)) by lia. apply wp_bind, wp_gets.
  unfold SIZEOF_FOOTER, SIZEOF_HEADER. set (e := last_footer w + 8).
  rewrite (u64_small e) by (unfold is_u64, e in *; lia).
  destruct (align_up_spec e ltac:(unfold e in *; lia)) as [Hal Hal0].
  set (A := align_up e PAGE_SIZE) in *.
  destruct (hs_map_law (source w) A pages ltac:(unfold e in *; lia) Hp Hal0) as (r & m & Hmap & Hcase).
  apply wp_bind. eapply wp_map_heap_pages; [exact Hmap|].
  destruct Hcase as [->|[-> HA]]; [left; split; [done|by exists m]|].
  rewrite (proj2 (Z.eqb_neq A 0)) by (unfold e in *; lia).
  destruct (last bs) as [p|] eqn:Hlast; [|by apply last_None in Hlast; destruct (ho_ne _ _ Hok)].
  apply last_Some in Hlast as [b1 ->].
  pose proof (last_block_footer _ _ _ Hok) as Hftr.
  pose proof (ho_tags _ _ Hok) as Ht. rewrite Forall_forall in Ht.
  destruct (Ht p ltac:(set_solver)) as [Fp Sp Tp Hp' Np]. rewrite Hftr in Hp'.
  apply wp_bind. eapply wp_get; [exact Hp'|].
  set (n := Blk e (pages * 4096 + (A - e) - 33) true).
  rewrite (u64_small (A - e)) by (unfold is_u64, e in *; lia).
  unfold page_to_addr_base, PAGE_SIZE. rewrite (u64_small (pages * 4096)) by (unfold is_u64, e in *; lia).
  replace (pages * 4096 + (A - e) - 25 - 8) with (b_size n) by (cbn [n b_size]; lia).
  assert (0 ≤ b_size n ∧ b_end n ≤ 2 ^ 63) as [Hn0 Hn1]
    by (unfold b_end; cbn [n b_addr b_size]; unfold e in *; lia).
  rewrite (u64_small (b_size n)) by (unfold is_u64, b_end in *; cbn [n b_addr] in *; unfold e in *; lia).
  replace (e + 25 + b_size n) with (ftr n) by (unfold ftr; cbn [n b_addr]; lia).
  rewrite (u64_small (ftr n))
    by (unfold is_u64, b_end, ftr in *; cbn [n b_addr] in *; unfold e in *; lia).
  do 6 hset. change e with (b_addr n).
  pose proof (hole_new_block w (b1 ++ [p]) n Hok eq_refl Hn0 eq_refl Hn1) as Hh.
  set (w1 := MkHeap _ _ _ _ _ _ _ _ _ _ _ _).
  assert (w1 = with_source m (with_new_block n w)) as Hw1 by done.
  assert (hole w1 (b1 ++ [p]) n []) as Hh1.
  { rewrite Hw1. destruct Hh as [? ? Ht1 ? ? ? ? ?]. split; try done.
    eapply Forall_impl; [exact Ht1|]. intros b [? ? ? ? ?]. by split. }
  assert (rflags w1 = rflags w) as Hrf by done.
  assert (h_free w1 !! b_addr p = Some (b_free p)) as Hfp.
  { pose proof (hl_tags _ _ _ _ Hh1) as Ht1. rewrite Forall_forall in Ht1.
    apply (tg_free _ _ (Ht1 p ltac:(set_solver))). }
  clearbody w1. clear Hw1 Hh. apply wp_bind. eapply wp_get; [exact Hfp|].
  eapply wp_mono.
  { apply (wp_grow_list w w1 b1 p n (pages * 4096 - 33)); try done. cbn [n b_size]. unfold e in *. lia. }
  intros r w2 H. by right.
Qed.
End heap.
