(* ===== verification/HmallocThm.v ===== *)
(** * HmallocThm: [hmalloc] and [hfree] implement the allocator interface *)
From S2P Require Import Prelude Sync Alloc Hmalloc HmallocSpec HmallocHeap.

Section calls.
Context {M : Type} {source_M : HeapSource M} {laws_M : HeapSourceLaws M}.
Abbreviation W := (hstate M).
Implicit Types (w : W).

Definition with_rflags (fl : Z) w : W :=
  MkHeap (h_free w) (h_size w) (h_next w) (h_footer w) (f_header w) (free_regions w)
    (heap_grow_size w) (first_available_vaddr w) (last_footer w) (heap_initialized w) fl (source w).

Lemma heap_ok_rflags fl w bs : heap_ok w bs → heap_ok (with_rflags fl w) bs.
Proof. by apply heap_ok_same. Qed.

(** A call between [hmalloc_lock] and [hmalloc_unlock]. *)
Lemma wp_lock {B} (k : Z → prog W B) Q w :
  wp (k (rflags w)) Q (with_rflags (cli (rflags w)) w) → wp (l ← hmalloc_lock; k l) Q w.
Proof. done. Qed.

Lemma wp_unlock fl (Q : unit → W → Prop) w :
  rflags w = cli fl → Q tt (with_rflags fl w) → wp (hmalloc_unlock fl) Q w.
Proof.
  intros Hf HQ. unfold hmalloc_unlock. apply wp_bind, wp_gets. rewrite Hf, irq_section. done.
Qed.

(** ** [hfree] *)

Lemma wp_checked_block w b1 b b2 :
  heap_ok w (b1 ++ b :: b2) → b_free b = false →
  wp (checked_block (b_addr b + 25)) (λ r w', w' = w ∧ r = Some (b_addr b)) w.
Proof.
  intros [Hi Hc Ht Hne Hl Ha Hr] Hf. pose proof Hr as [Hr1 Hr2].
  destruct (contig_range _ _ _ b Hc ltac:(set_solver)) as (Hb1 & Hb2 & Hb3).
  destruct (block_in_heap w _ b Hc ltac:(set_solver) Hr) as [_ Hft].
  rewrite Forall_forall in Ht. destruct (Ht b ltac:(set_solver)) as [Fb Sb Tb Hb Nb].
  unfold checked_block. apply wp_bind, wp_gets. cbn [id]. rewrite Hi. unfold SIZEOF_HEADER.
  rewrite (proj2 (Z.eqb_neq (b_addr b + 25) 0)) by lia. cbn [orb negb].
  replace (b_addr b + 25 - 25) with (b_addr b) by lia.
  unfold b_end in Hb2. rewrite u64_small by (unfold is_u64; lia).
  rewrite (proj2 (Z.ltb_ge _ _)), (proj2 (Z.leb_gt _ _)) by lia. cbn [orb].
  apply wp_bind. eapply wp_get; [exact Tb|]. apply wp_bind. eapply wp_of_run; [exact Hft|]. cbn [negb].
  apply wp_bind. eapply wp_get; [exact Hb|]. rewrite Z.eqb_refl. cbn [negb].
  apply wp_bind. eapply wp_get; [exact Fb|]. rewrite Hf. by apply wp_ret.
Qed.

(** The released block, marked free but not listed. *)
Definition with_released (a : Z) w : W :=
  MkHeap (<[a := true]> (h_free w)) (h_size w) (<[a := 0]> (h_next w)) (h_footer w) (f_header w)
    (free_regions w) (heap_grow_size w) (first_available_vaddr w) (last_footer w)
    (heap_initialized w) (rflags w) (source w).

Lemma hole_released w b1 b b2 :
  heap_ok w (b1 ++ b :: b2) → b_free b = false →
  hole (with_released (b_addr b) w) b1 (Blk (b_addr b) (b_size b) true) b2.
Proof.
  intros [Hi Hc Ht Hne Hl Ha Hr] Hf. apply apart_app in Ha as (Ha1 & Ha2 & _).
  change (b :: b2) with ([b] ++ b2) in Ha2. apply apart_app in Ha2 as (_ & Ha2 & _).
  rewrite frees_app in Hl. cbn [frees] in Hl. rewrite Hf in Hl.
  split; cbn [with_released heap_initialized first_available_vaddr last_footer h_next free_regions];
    try done.
  - apply contig_app in Hc as (m & H1 & Hm). apply contig_app. exists m. split; [exact H1|exact Hm].
  - rewrite Forall_forall in Ht. apply Forall_forall. intros c Hcb.
    assert (c = Blk (b_addr b) (b_size b) true ∨ c ∈ b1 ++ b2) as [->|Hcb'] by set_solver.
    + destruct (Ht b ltac:(set_solver)) as [? ? ? ? ?]. split;
        cbn [with_released h_free h_size h_next h_footer f_header b_addr b_size b_free]; try done;
        by rewrite lookup_insert_eq.
    + assert (b_addr c ≠ b_addr b) as Hd.
      { apply elem_of_app in Hcb' as [Hcb'|Hcb'];
          [destruct (contig_before _ _ _ _ _ _ Hc Hcb')
          |destruct (contig_after _ _ _ _ _ _ Hc Hcb') as (? & ? & ?)]; unfold b_end in *; lia. }
      destruct (Ht c ltac:(set_solver)) as [? ? ? ? ?].
      split; cbn [with_released h_free h_size h_next h_footer f_header]; rewrite ?lookup_insert_ne; done.
  - apply links_insert; [by eapply not_in_frees|done].
Qed.

Definition ends_used (bs : list blk) : Prop := ∀ b, last bs = Some b → b_free b = false.
Definition starts_used (bs : list blk) : Prop := ∀ b, head bs = Some b → b_free b = false.

(** The step of [hfree] that looks at the previous block. *)
Lemma wp_step_previous {B} w b1 c b2 (k : Z → prog W B) Q :
  hole w b1 c b2 →
  (∀ w' b1' c', hole w' b1' c' b2 → same_static w w' → ends_used b1' → useds b1' = useds b1 →
     wp (k (b_addr c')) Q w') →
  wp (previous_block ← get_previous (b_addr c);
      pfree ← (if previous_block =? 0 then mret false else get h_free previous_block);
      current_block ← (if (pfree : bool) then
                         _ ← remove_from_free_list previous_block;
                         _ ← merge_blocks previous_block (b_addr c);
                         mret previous_block
                       else mret (b_addr c));
      k current_block) Q w.
Proof.
  intros Hh Hk. apply wp_bind. eapply wp_mono; [by eapply wp_get_previous|]. intros r ? [-> ->].
  destruct (last b1) as [p|] eqn:Hlast.
  2:{ apply wp_bind, wp_ret, wp_bind, wp_ret. apply (Hk w b1 c); try done. intros b Hb. congruence. }
  apply last_Some in Hlast as [b1' ->].
  pose proof (hl_range _ _ _ _ Hh) as [Hr1 _].
  pose proof (contig_range _ _ _ p (hl_contig _ _ _ _ Hh) ltac:(set_solver)) as (Hp1 & _).
  rewrite (proj2 (Z.eqb_neq (b_addr p) 0)) by lia.
  pose proof (hl_tags _ _ _ _ Hh) as Ht. rewrite Forall_forall in Ht.
  apply wp_bind. eapply wp_get; [apply (tg_free _ _ (Ht p ltac:(set_solver)))|].
  apply wp_bind. destruct (b_free p) eqn:Hpf.
  - eapply wp_mono; [by apply wp_merge_previous|]. intros r w' (-> & Hst & Hh').
    change (b_addr p) with (b_addr (Blk (b_addr p) (b_size p + b_size c + 33) true)).
    eapply Hk; [exact Hh'|done| |rewrite useds_app; cbn [useds]; by rewrite Hpf, app_nil_r].
    intros b Hb. pose proof (hl_apart1 _ _ _ _ Hh) as Ha. apply apart_app in Ha as (_ & _ & Ha).
    specialize (Ha b p Hb eq_refl). by rewrite Hpf, andb_true_r in Ha.
  - apply wp_ret. apply (Hk w (b1' ++ [p]) c); try done. intros b Hb. rewrite last_snoc in Hb.
    by injection Hb as <-.
Qed.

(** The step that looks at the next block. *)
Lemma wp_step_next {B} w b1 c b2 (k : prog W B) Q :
  hole w b1 c b2 →
  (∀ w' c' b2', hole w' b1 c' b2' → b_addr c' = b_addr c → same_static w w' → starts_used b2' →
     useds b2' = useds b2 → wp k Q w') →
  wp (next_block ← get_next (b_addr c);
      nfree ← (if next_block =? 0 then mret false else get h_free next_block);
      _ ← (if (nfree : bool) then
             _ ← remove_from_free_list next_block;
             merge_blocks (b_addr c) next_block
           else mret tt);
      k) Q w.
Proof.
  intros Hh Hk. apply wp_bind. eapply wp_mono; [by eapply wp_block_next|]. intros r ? [-> ->].
  destruct b2 as [|n b2]; cbn [head].
  { apply wp_bind, wp_ret, wp_bind, wp_ret. by apply (Hk w c []). }
  pose proof (hl_range _ _ _ _ Hh) as [Hr1 _].
  pose proof (contig_range _ _ _ n (hl_contig _ _ _ _ Hh) ltac:(set_solver)) as (Hn1 & _).
  rewrite (proj2 (Z.eqb_neq (b_addr n) 0)) by lia.
  pose proof (hl_tags _ _ _ _ Hh) as Ht. rewrite Forall_forall in Ht.
  apply wp_bind. eapply wp_get; [apply (tg_free _ _ (Ht n ltac:(set_solver)))|].
  apply wp_bind. destruct (b_free n) eqn:Hnf.
  - eapply wp_mono; [by apply wp_merge_next|]. intros [] w' [Hst Hh'].
    eapply Hk; [exact Hh'|done|done| |cbn [useds]; by rewrite Hnf].
    intros b Hb. pose proof (hl_apart2 _ _ _ _ Hh) as Ha. change (n :: b2) with ([n] ++ b2) in Ha.
    apply apart_app in Ha as (_ & _ & Ha). specialize (Ha n b eq_refl Hb). by rewrite Hnf in Ha.
  - apply wp_ret. apply (Hk w c (n :: b2)); try done. by intros b [= <-].
Qed.

Lemma wp_hfree w b1 b b2 :
  heap_ok w (b1 ++ b :: b2) → b_free b = false →
  wp (hfree (b_addr b + 25))
    (λ _ w', rflags w' = rflags w ∧ ∃ bs', heap_ok w' bs' ∧ useds bs' = useds b1 ++ useds b2) w.
Proof.
  intros Hok Hf. unfold hfree. apply wp_lock. set (w0 := with_rflags _ w).
  assert (heap_ok w0 (b1 ++ b :: b2)) as Hok0 by (by apply heap_ok_rflags).
  assert (rflags w0 = cli (rflags w)) as Hrf by done. clearbody w0. clear Hok.
  apply wp_bind. eapply wp_mono; [by eapply wp_checked_block|]. intros r ? [-> ->].
  hset. hset. fold (with_released (b_addr b) w0).
  pose proof (hole_released _ _ _ _ Hok0 Hf) as Hh.
  eapply (wp_step_previous _ b1 (Blk (b_addr b) (b_size b) true) b2); [exact Hh|]. intros w2 b1' c' Hh2 Hst2 He1 Hu1.
  eapply wp_step_next; [exact Hh2|]. intros w3 c'' b2' Hh3 Haddr Hst3 He2 Hu2.
  rewrite <- Haddr. apply wp_bind. eapply wp_mono; [by apply wp_close|].
  intros [] w4 [Hst4 Hok4]. apply wp_unlock.
  { destruct Hst2 as (_&_&_&_&H2&_), Hst3 as (_&_&_&_&H3&_), Hst4 as (_&_&_&_&H4&_).
    rewrite H4, H3, H2. done. }
  split; [done|]. exists (b1' ++ c'' :: b2'). split; [by apply heap_ok_rflags|].
  rewrite useds_app. cbn [useds]. rewrite (hl_free _ _ _ _ Hh3). by rewrite Hu1, Hu2.
Qed.

(** ** [hmalloc] *)

Lemma bytes_to_pages_spec sz :
  0 ≤ sz < 2 ^ 62 → ∃ pages, bytes_to_pages sz = Some pages ∧ 0 < pages ∧ sz + 33 ≤ pages * 4096.
Proof.
  intros Hsz. unfold bytes_to_pages, addr_to_page, BLOCK_OVERHEAD, SIZEOF_HEADER, SIZEOF_FOOTER, PAGE_SIZE.
  rewrite (proj2 (Z.ltb_ge _ _)) by (unfold UINT64_MAX; lia).
  rewrite u64_small by (unfold is_u64; lia).
  assert (0 < (sz + (25 + 8) + 4096 - 1) / 4096) as Hp by zdiv.
  rewrite (proj2 (Z.eqb_neq _ 0)) by lia. eexists. split; [done|]. split; [done|]. zdiv.
Qed.

(** What an allocation of [sz] bytes leaves. *)
Definition hmalloc_post w bs (sz r : Z) w' : Prop :=
  rflags w' = rflags w ∧ ∃ bs', heap_ok w' bs' ∧
    ((r = 0 ∧ useds bs' = useds bs) ∨
     (∃ u1 u2 s, sz ≤ s ∧ 0 < r ∧ useds bs = u1 ++ u2 ∧ useds bs' = u1 ++ (r, s) :: u2)).

(** The end of every successful path: occupy, unlock, return the payload. *)
Lemma wp_occupy_return w0 w bs b1 b b2 sz :
  heap_ok w (b1 ++ b :: b2) → b_free b = true → 0 ≤ sz ≤ b_size b →
  rflags w = cli (rflags w0) → useds bs = useds b1 ++ useds b2 →
  wp (_ ← occupy_block (b_addr b) sz; _ ← hmalloc_unlock (rflags w0);
      mret (u64 (b_addr b + SIZEOF_HEADER))) (hmalloc_post w0 bs sz) w.
Proof.
  intros Hok Hf Hsz Hrf Hu. pose proof (ho_range _ _ Hok) as [Hr1 Hr2].
  destruct (contig_range _ _ _ b (ho_contig _ _ Hok) ltac:(set_solver)) as (Hb1 & Hb2 & Hb3).
  unfold b_end in Hb2. apply wp_bind. eapply wp_mono; [by apply wp_occupy|].
  intros [] w1 (Hst & bs' & Hocc & Hok1). apply wp_bind. apply wp_unlock.
  { destruct Hst as (_&_&_&_&Hst&_). congruence. }
  apply wp_ret. unfold SIZEOF_HEADER. rewrite u64_small by (unfold is_u64; lia).
  split; [done|]. exists (b1 ++ bs' ++ b2). split; [by apply heap_ok_rflags|]. right.
  exists (useds b1), (useds b2). rewrite !useds_app.
  destruct Hocc as [->| ->]; cbn [useds b_free b_addr b_size app];
    [exists (b_size b)|exists sz]; split_and!; (done || lia).
Qed.

(** The path on which the heap grew. *)
Lemma wp_grow_return w0 w bs pages sz :
  heap_ok w bs → 0 ≤ sz → sz + 33 ≤ pages * 4096 → 0 < pages →
  rflags w = cli (rflags w0) →
  wp (grow_heap_by pages)
    (λ b, wp (if b =? 0 then _ ← hmalloc_unlock (rflags w0); mret 0
              else _ ← occupy_block b sz; _ ← hmalloc_unlock (rflags w0);
                   mret (u64 (b + SIZEOF_HEADER)))
            (hmalloc_post w0 bs sz)) w.
Proof.
  intros Hok Hsz Hp Hp0 Hrf. eapply wp_mono; [by apply wp_grow|].
  intros r w1 [(-> & m & ->)|(Hr & b1 & c & -> & Hcf & Hok1 & Hcs & Hu)].
  - apply wp_bind, wp_unlock; [done|]. apply wp_ret. split; [done|]. exists bs.
    split; [|by left]. by apply (heap_ok_same w).
  - pose proof (ho_range _ _ Hok1) as [Hr1 _].
    destruct (contig_range _ _ _ c (ho_contig _ _ Hok1) ltac:(set_solver)) as (Hc1 & _).
    rewrite (proj2 (Z.eqb_neq (b_addr c) 0)) by lia.
    apply (wp_occupy_return w0 w1 bs b1 c []); [done|done|lia|congruence|].
    by rewrite <- Hu, app_nil_r.
Qed.

Lemma wp_hmalloc w bs sz :
  heap_ok w bs → 0 ≤ sz < 2 ^ 62 → wp (hmalloc sz) (hmalloc_post w bs sz) w.
Proof.
  intros Hok Hsz. destruct (bytes_to_pages_spec sz Hsz) as (pages & Hpg & Hp0 & Hp1).
  unfold hmalloc. apply wp_lock. set (w0 := with_rflags _ w).
  assert (heap_ok w0 bs) as Hok0 by (by apply heap_ok_rflags).
  assert (rflags w0 = cli (rflags w)) as Hrf by done. clearbody w0.
  apply wp_bind, wp_gets. rewrite (ho_init _ _ Hok0). cbn [negb]. rewrite Hpg.
  apply wp_bind, wp_gets. destruct (Z.ltb_spec (heap_grow_size w0) pages) as [Hlt|Hge].
  { apply wp_bind, wp_grow_return; [done|lia..|done]. }
  apply wp_bind, wp_gets, wp_bind. unfold find_first_fit_block. apply wp_bind, wp_gets.
  pose proof (ho_links _ _ Hok0) as Hl. pose proof (ho_tags _ _ Hok0) as Ht. rewrite Forall_forall in Ht.
  eapply wp_mono.
  { eapply (wp_find_fit _ _ (frees bs)); [exact Hl| |].
    - apply links_length in Hl; [lia|]. eapply sorted_nodup, frees_sorted, Hok0.
    - intros x (b & Hb & Hf & <-)%elem_of_frees. destruct (Ht b Hb) as [Fb Sb _ _ _].
      rewrite Hf in Fb. split; [by eexists|done]. }
  intros r ? (-> & Hr).
  assert (r = 0 ∨ ∃ b1 b b2, bs = b1 ++ b :: b2 ∧ r = b_addr b ∧ b_free b = true ∧ sz ≤ b_size b)
    as [->|(b1 & b & b2 & -> & -> & Hf & Hs)].
  { destruct Hr as [->|[Hin (s & Hs & Hle)]]; [by left|right].
    apply elem_of_frees in Hin as (b & Hb & Hf & <-). apply list_elem_of_split in Hb as (b1 & b2 & ->).
    exists b1, b, b2. split_and!; try done. rewrite (tg_size _ _ (Ht b ltac:(set_solver))) in Hs.
    by injection Hs as ->. }
  - cbn [Z.eqb]. apply wp_bind. unfold grow_heap. apply wp_bind, wp_gets. cbn [id].
    apply wp_bind, wp_modify. hcbn.
    apply wp_grow_return; [by apply (heap_ok_same w0)|lia..|done].
  - assert (0 < b_addr b).
    { destruct (contig_range _ _ _ b (ho_contig _ _ Hok0) ltac:(set_solver)) as (? & _).
      pose proof (ho_range _ _ Hok0). lia. }
    rewrite (proj2 (Z.eqb_neq (b_addr b) 0)) by lia. apply wp_bind, wp_ret.
    rewrite (proj2 (Z.eqb_neq (b_addr b) 0)) by lia.
    apply (wp_occupy_return w w0 _ b1 b b2); [done|done|lia|done|].
    rewrite useds_app. cbn [useds]. by rewrite Hf.
Qed.

(** ** The live blocks, read from the heap *)

Fixpoint read_blocks (n : nat) w (a e : Z) : list blk :=
  match n with
  | O => []
  | S n' =>
      if a =? e then []
      else match h_size w !! a, h_free w !! a with
           | Some s, Some f => Blk a s f :: read_blocks n' w (a + 33 + s) e
           | _, _ => []
           end
  end.

Definition heap_live w : gmap Z Z :=
  list_to_map (useds (read_blocks (S (size (h_size w))) w
                        (first_available_vaddr w) (last_footer w + 8))).

Lemma read_blocks_spec n w a bs e :
  contig a bs e → Forall (tagged w) bs → (length bs < n)%nat → read_blocks n w a e = bs.
Proof.
  revert a bs. induction n as [|n IH]; intros a bs Hc Ht Hn; [lia|]. cbn [read_blocks].
  destruct bs as [|b bs]; cbn [contig] in Hc.
  - by rewrite Hc, Z.eqb_refl.
  - destruct Hc as (<- & Hs & Hc). pose proof (contig_le _ _ _ Hc) as Hle. unfold b_end in Hle.
    apply Forall_cons in Ht as [[Fb Sb _ _ _] Ht].
    rewrite (proj2 (Z.eqb_neq _ _)) by lia. rewrite Sb, Fb.
    replace (b_addr b + 33 + b_size b) with (b_end b) by done.
    rewrite (IH _ bs) by (done || (simpl in Hn; lia)). by destruct b.
Qed.

Lemma heap_live_spec w bs : heap_ok w bs → heap_live w = list_to_map (useds bs).
Proof.
  intros [Hi Hc Ht Hne Hl Ha Hr]. unfold heap_live. rewrite (read_blocks_spec _ w _ bs); try done.
  assert (NoDup (b_addr <$> bs)) as Hnd.
  { clear -Hc. revert Hc. generalize (first_available_vaddr w) as a, (last_footer w + 8) as e.
    induction bs as [|b bs IH]; intros a e Hc; cbn [fmap list_fmap contig] in *; [apply NoDup_nil_2|].
    destruct Hc as (<- & Hs & Hc). apply NoDup_cons. split; [|by eapply IH].
    intros (c & E & Hc')%list_elem_of_fmap. destruct (contig_range _ _ _ _ Hc Hc') as (? & _).
    unfold b_end in *. lia. }
  assert (length bs ≤ size (h_size w))%nat; [|lia].
  rewrite <- size_dom, <- (length_fmap b_addr), <- (size_list_to_set (C := gset Z) (b_addr <$> bs)) by done.
  apply subseteq_size. intros x (b & -> & Hb)%elem_of_list_to_set%list_elem_of_fmap.
  rewrite Forall_forall in Ht. apply elem_of_dom. rewrite (tg_size _ _ (Ht b Hb)). by eexists.
Qed.

Lemma elem_of_useds bs p n : (p, n) ∈ useds bs ↔ ∃ b, b ∈ bs ∧ b_free b = false ∧ p = b_addr b + 25 ∧ n = b_size b.
Proof.
  induction bs as [|b bs IH]; cbn [useds].
  - split; [by intros ?%elem_of_nil|]. by intros (? & ?%elem_of_nil & _).
  - destruct (b_free b) eqn:E; rewrite ?elem_of_cons, IH; split.
    + intros (c & Hc & ?). exists c. set_solver.
    + intros (c & [->|Hc]%elem_of_cons & Hf & ?); [congruence|by exists c].
    + intros [[= -> ->]|(c & Hc & ?)]; [exists b; set_solver|exists c; set_solver].
    + intros (c & [->|Hc]%elem_of_cons & Hf & -> & ->); [by left|right; by exists c].
Qed.

(** Two places of the list of live blocks do not overlap. *)
Lemma useds_disjoint a bs e u1 p n u2 q k :
  contig a bs e → useds bs = u1 ++ (p, n) :: u2 → (q, k) ∈ u1 ++ u2 →
  p + n ≤ q ∨ q + k ≤ p.
Proof.
  revert a u1. induction bs as [|b bs IH]; intros a u1 Hc Hu Hq; cbn [useds contig] in *;
    [by destruct u1|].
  destruct Hc as (<- & Hs & Hc). destruct (b_free b) eqn:Hf; [by eapply IH|].
  assert (∀ x m, (x, m) ∈ useds bs → b_addr b + 25 + b_size b ≤ x) as Hafter.
  { intros x m (c & Hc' & _ & -> & _)%elem_of_useds. destruct (contig_range _ _ _ _ Hc Hc') as (? & _).
    unfold b_end in *. lia. }
  destruct u1 as [|u u1]; cbn [app] in Hu, Hq.
  - simplify_eq. left. by apply Hafter in Hq.
  - injection Hu as <- Hu. apply elem_of_cons in Hq as [[= -> ->]|Hq]; [right|by eapply IH].
    apply (Hafter p n). rewrite Hu. set_solver.
Qed.

Lemma useds_nodup a bs e : contig a bs e → NoDup (useds bs).*1.
Proof.
  revert a. induction bs as [|b bs IH]; intros a Hc; cbn [useds contig] in *; [apply NoDup_nil_2|].
  destruct Hc as (<- & Hs & Hc). specialize (IH _ Hc). destruct (b_free b); [done|].
  cbn [fmap list_fmap fst]. apply NoDup_cons. split; [|done].
  intros ([x m] & E & (c & Hc' & _ & -> & _)%elem_of_useds)%list_elem_of_fmap. cbn in E.
  destruct (contig_range _ _ _ _ Hc Hc') as (? & _). unfold b_end in *. lia.
Qed.

Lemma live_middle (u1 u2 : list (Z * Z)) p n :
  NoDup (u1 ++ (p, n) :: u2).*1 →
  (list_to_map (u1 ++ (p, n) :: u2) : gmap Z Z) = <[p := n]> (list_to_map (u1 ++ u2)) ∧
  (list_to_map (u1 ++ u2) : gmap Z Z) !! p = None.
Proof.
  intros Hnd. assert (u1 ++ (p, n) :: u2 ≡ₚ (p, n) :: u1 ++ u2) as Hp
    by (by rewrite Permutation_middle). split.
  - by rewrite (list_to_map_proper _ _ Hnd Hp).
  - apply not_elem_of_list_to_map_1. rewrite Hp in Hnd. cbn in Hnd. by apply NoDup_cons in Hnd as [? _].
Qed.

(** The allocator's own invariant: some list of blocks fills the heap. *)
Definition heap_inv w : Prop := ∃ bs, heap_ok w bs.

Lemma hmalloc_live w bs sz r w' :
  heap_ok w bs → hmalloc_post w bs sz r w' →
  heap_inv w' ∧ rflags w' = rflags w ∧
  ((r = 0 ∧ heap_live w' = heap_live w) ∨
   (∃ k, 0 < r ∧ sz ≤ k ∧ r + k ≤ 2 ^ 63 ∧ heap_live w !! r = None ∧
      block_fresh r k (heap_live w) ∧ heap_live w' = <[r := k]> (heap_live w))).
Proof.
  intros Hok (Hrf & bs' & Hok' & Hcase). split; [by exists bs'|]. split; [done|].
  rewrite (heap_live_spec _ _ Hok), (heap_live_spec _ _ Hok').
  destruct Hcase as [[-> ->]|(u1 & u2 & s & Hs & Hr0 & Hu & Hu')]; [by left|right].
  pose proof (useds_nodup _ _ _ (ho_contig _ _ Hok')) as Hnd. rewrite Hu' in Hnd.
  destruct (live_middle _ _ _ _ Hnd) as [Hmap Hnone]. exists s. rewrite Hu, Hu'.
  assert ((r, s) ∈ useds bs') as Hin by (rewrite Hu'; set_solver).
  apply elem_of_useds in Hin as (b & Hb & _ & Hr & ->).
  destruct (contig_range _ _ _ _ (ho_contig _ _ Hok') Hb) as (_ & He & _).
  pose proof (ho_range _ _ Hok') as [_ Hr2]. unfold b_end in He.
  split_and!; [done|done|lia|done| |done].
  intros q k Hq. apply elem_of_list_to_map_2 in Hq.
  by apply (useds_disjoint _ bs' _ u1 r (b_size b) u2 q k (ho_contig _ _ Hok') Hu').
Qed.

Lemma live_block w bs p n :
  heap_ok w bs → heap_live w !! p = Some n →
  ∃ b1 b b2, bs = b1 ++ b :: b2 ∧ b_free b = false ∧ p = b_addr b + 25 ∧ n = b_size b.
Proof.
  intros Hok Hp. rewrite (heap_live_spec _ _ Hok) in Hp. apply elem_of_list_to_map_2 in Hp.
  apply elem_of_useds in Hp as (b & Hb & Hf & -> & ->). apply list_elem_of_split in Hb as (b1 & b2 & ->).
  by exists b1, b, b2.
Qed.

Lemma hfree_live w b1 b b2 w' :
  heap_ok w (b1 ++ b :: b2) → b_free b = false →
  (rflags w' = rflags w ∧ ∃ bs', heap_ok w' bs' ∧ useds bs' = useds b1 ++ useds b2) →
  heap_inv w' ∧ rflags w' = rflags w ∧ heap_live w' = delete (b_addr b + 25) (heap_live w).
Proof.
  intros Hok Hf (Hrf & bs' & Hok' & Hu). split; [by exists bs'|]. split; [done|].
  rewrite (heap_live_spec _ _ Hok), (heap_live_spec _ _ Hok'), Hu.
  pose proof (useds_nodup _ _ _ (ho_contig _ _ Hok)) as Hnd.
  rewrite useds_app in *. cbn [useds] in *. rewrite Hf in *.
  destruct (live_middle _ _ _ _ Hnd) as [-> Hnone]. by rewrite delete_insert_id.
Qed.

Lemma wp_usable_size w b1 b b2 :
  heap_ok w (b1 ++ b :: b2) → b_free b = false →
  wp (hmalloc_usable_size (b_addr b + 25)) (λ r w', r = b_size b ∧ w' = w) w.
Proof.
  intros Hok Hf. unfold hmalloc_usable_size. apply wp_lock.
  apply wp_bind. eapply wp_mono; [eapply wp_checked_block; [by apply heap_ok_rflags|done]|].
  intros r ? [-> ->]. pose proof (ho_tags _ _ Hok) as Ht. rewrite Forall_forall in Ht.
  apply wp_bind. eapply wp_get; [apply (tg_size _ _ (Ht b ltac:(set_solver)))|].
  apply wp_bind, wp_unlock; [done|]. apply wp_ret. split; [done|]. by destruct w.
Qed.
End calls.

(** ** The interface, discharged *)
Section interface.
Context {M : Type} {source_M : HeapSource M} {laws_M : HeapSourceLaws M}.

#[global] Instance hmalloc_allocator : Allocator (hstate M) := {
  al_live := heap_live;
  al_ok := heap_inv;
  al_alloc := hmalloc;
  al_free := hfree;
}.

Lemma hfree_null (w : hstate M) : hfree 0 w = Ret (tt, w).
Proof.
  enough (wp (hfree 0) (λ _ w', w' = w) w) as Hwp by (apply wp_inv in Hwp as ([] & ? & Hr & ->); done).
  unfold hfree. apply wp_lock. apply wp_bind. unfold checked_block. apply wp_bind, wp_gets.
  cbn [Z.eqb orb]. apply wp_ret, wp_unlock; [done|]. by destruct w.
Qed.

#[global] Instance hmalloc_laws : AllocatorLaws (2 ^ 62) (hstate M).
Proof.
  split.
  - intros w n [bs Hok] Hn. pose proof (wp_hmalloc w bs n Hok ltac:(lia)) as Hwp.
    apply wp_inv in Hwp as (p & w' & Hr & Hpost). exists p, w'. split; [done|].
    destruct (hmalloc_live _ _ _ _ _ Hok Hpost) as (Hinv & _ & Hcase). split; [done|].
    destruct Hcase as [?|(k & ? & ? & ? & ? & ? & ?)]; [by left|right; exists k; split_and!; (done || lia)].
  - intros w p n [bs Hok] Hp. destruct (live_block _ _ _ _ Hok Hp) as (b1 & b & b2 & -> & Hf & -> & ->).
    pose proof (wp_hfree w b1 b b2 Hok Hf) as Hwp. apply wp_inv in Hwp as ([] & w' & Hr & Hpost).
    exists w'. split; [done|]. by destruct (hfree_live _ _ _ _ _ Hok Hf Hpost) as (? & _ & ?).
  - apply hfree_null.
Qed.
End interface.

(** ** Initialisation *)
Section initialize.
Context {M : Type} {source_M : HeapSource M}.
Implicit Types (w : hstate M).

Definition region_block (a pages : Z) : blk := Blk a (pages * 4096 - 33) true.

(** A region of whole pages becomes one free block. *)
Lemma wp_initialize_heap_region w a pages :
  0 < a → 0 < pages → a + pages * 4096 ≤ 2 ^ 63 →
  wp (initialize_heap_region a pages) (λ ok w', ok = true ∧ heap_ok w' [region_block a pages]) w.
Proof.
  intros Ha Hp Hend. unfold initialize_heap_region. apply wp_bind, wp_set_free_regions. hcbn.
  rewrite (proj2 (Z.eqb_neq a 0)) by lia. apply wp_bind, wp_gets. cbn [id].
  unfold page_to_addr_base, PAGE_SIZE, SIZEOF_HEADER, SIZEOF_FOOTER.
  rewrite (u64_small (pages * 4096)) by (unfold is_u64; lia).
  rewrite (u64_small (pages * 4096 - 25 - 8)) by (unfold is_u64; lia).
  replace (pages * 4096 - 25 - 8) with (b_size (region_block a pages)) by (cbn; lia).
  replace (a + 25 + b_size (region_block a pages)) with (ftr (region_block a pages)) by done.
  rewrite (u64_small (ftr _)) by (unfold is_u64, ftr; cbn [region_block b_addr b_size]; lia).
  do 8 hset. apply wp_ret. split; [done|].
  split; hcbn; try done.
  - cbn [contig region_block b_addr b_size]. split; [done|]. split; [lia|].
    unfold b_end, ftr. cbn [region_block b_addr b_size]. lia.
  - constructor; [|constructor]. split; hcbn; cbn [region_block b_addr b_size b_free];
      rewrite lookup_insert_eq; done.
  - cbn. split; [done|]. split; [lia|]. exists 0. by rewrite lookup_insert_eq.
  - unfold ftr. cbn [region_block b_addr b_size]. lia.
Qed.
End initialize.

(** ** Theorems *)
Section theorems.
Context {M : Type} {source_M : HeapSource M} {laws_M : HeapSourceLaws M}.
Implicit Types (w : hstate M).


End theorems.

(** ** A concrete heap

    A source with a budget of pages. *)
#[global] Instance budget_source : HeapSource Z := {
  hs_map a n m := Ret (if (n <=? m) && (a + n * 4096 <=? 2 ^ 63) then (a, m - n) else (0, m));
}.
#[global] Instance budget_source_laws : HeapSourceLaws Z.
Proof.
  split. intros m a n Ha Hn _. cbn.
  destruct ((n <=? m) && (a + n * 4096 <=? 2 ^ 63)) eqn:E; eexists _, _; (split; [done|]); [right|by left].
  split; [done|]. lia.
Qed.

Definition blank_heap : hstate Z := MkHeap ∅ ∅ ∅ ∅ ∅ 0 0 0 0 false 514 100.

Definition ready_heap : hstate Z :=
  match hmalloc_initialize 0x10000 blank_heap with
  | Ret (_, w) => w
  | _ => blank_heap
  end.

Lemma ready_heap_inv : heap_inv ready_heap.
Proof.
  exists [region_block 0x10000 5].
  pose proof (wp_initialize_heap_region
    (MkHeap ∅ ∅ ∅ ∅ ∅ 0 5 0 0 false 514 95) 0x10000 5 ltac:(lia) ltac:(lia) ltac:(lia)) as Hwp.
  apply wp_inv in Hwp as (ok & w' & Hr & _ & Hok).
  assert (w' = ready_heap) as <-; [|done].
  vm_compute in Hr. injection Hr as _ <-. vm_compute. reflexivity.
Qed.

(** Split, coalesce and grow on a concrete run. *)
Example hmalloc_run :
  match (a ← hmalloc 100; b ← hmalloc 200; _ ← hfree a; c ← hmalloc 50; d ← hmalloc 30000;
         _ ← hfree b; mret [a; b; c; d]) ready_heap with
  | Ret (l, w) => l = [65561; 65694; 65561; 65927] ∧
                  map_to_list (heap_live w) = [(65927, 30000); (65561, 50)] ∧ free_regions w = 65619
  | _ => False
  end.
Proof. vm_compute. split_and!; reflexivity. Qed.


(** The heap after one allocation. *)
Definition used_heap : hstate Z :=
  match hmalloc 100 ready_heap with Ret (_, w) => w | _ => blank_heap end.

Lemma used_heap_inv : heap_inv used_heap ∧ heap_live used_heap !! 65561 = Some 100.
Proof.
  split; [|vm_compute; reflexivity]. destruct ready_heap_inv as [bs Hok].
  pose proof (wp_hmalloc ready_heap bs 100 Hok ltac:(lia)) as Hwp.
  apply wp_inv in Hwp as (p & w' & Hr & Hpost).
  destruct (hmalloc_live _ _ _ _ _ Hok Hpost) as (Hinv & _).
  unfold used_heap. by rewrite Hr.
Qed.

