(* ===== verification/Ringbuffer.v ===== *)
(** * Ringbuffer: [kernel/utils/ringbuffer.c]

    The ring of pointers behind the keyboard and the terminal input.  Slot 0 of
    the buffer is never used and position 0 means "not started"; the theorems
    say exactly which queue the pair of positions implements, overflow included. *)
From S2P Require Import Prelude Alloc.

(** ** Data and operations *)

(** Calls of the lock callbacks, in order. *)
Inductive lock_event := ReadLock | ReadUnlock | WriteLock | WriteUnlock.

(** [buf_ptr] is the address of the slots, [buf] what they hold; the lock and
    the four callbacks matter only through being NULL or not. *)
Record ringbuffer := MkRing {
  buf_ptr : Z;
  buf : list Z;
  read_pos : Z;
  write_pos : Z;
  size_ : Z;
  lock : bool;
  read_lock_fn : bool;
  read_unlock_fn : bool;
  write_lock_fn : bool;
  write_unlock_fn : bool;
  events : list lock_event;
}.

Definition set_read (r : ringbuffer) (pos : Z) : ringbuffer :=
  MkRing (buf_ptr r) (buf r) pos (write_pos r) (size_ r) (lock r) (read_lock_fn r)
    (read_unlock_fn r) (write_lock_fn r) (write_unlock_fn r) (events r).
Definition set_write (r : ringbuffer) (pos : Z) : ringbuffer :=
  MkRing (buf_ptr r) (buf r) (read_pos r) pos (size_ r) (lock r) (read_lock_fn r)
    (read_unlock_fn r) (write_lock_fn r) (write_unlock_fn r) (events r).
Definition set_buf (r : ringbuffer) (b : list Z) : ringbuffer :=
  MkRing (buf_ptr r) b (read_pos r) (write_pos r) (size_ r) (lock r) (read_lock_fn r)
    (read_unlock_fn r) (write_lock_fn r) (write_unlock_fn r) (events r).
Definition record (r : ringbuffer) (e : lock_event) : ringbuffer :=
  MkRing (buf_ptr r) (buf r) (read_pos r) (write_pos r) (size_ r) (lock r)
    (read_lock_fn r) (read_unlock_fn r) (write_lock_fn r) (write_unlock_fn r)
    (events r ++ [e]).

Definition read_locks (r : ringbuffer) : bool :=
  lock r && read_lock_fn r && read_unlock_fn r.
Definition write_locks (r : ringbuffer) : bool :=
  lock r && write_lock_fn r && write_unlock_fn r.
Definition RINGBUFFER_READ_LOCK (r : ringbuffer) : ringbuffer :=
  if read_locks r then record r ReadLock else r.
Definition RINGBUFFER_READ_UNLOCK (r : ringbuffer) : ringbuffer :=
  if read_locks r then record r ReadUnlock else r.
Definition RINGBUFFER_WRITE_LOCK (r : ringbuffer) : ringbuffer :=
  if write_locks r then record r WriteLock else r.
Definition RINGBUFFER_WRITE_UNLOCK (r : ringbuffer) : ringbuffer :=
  if write_locks r then record r WriteUnlock else r.

(** [sizeof(ringbuffer_t)] and [sizeof(void* )]. *)
Definition RING_SIZEOF : Z := 72.
Definition PTR_SIZEOF : Z := 8.

Section create.
Context {A : Type} `{Allocator A}.

(** The result is the new ring with its address, or NULL.  A successful
    [slab_calloc] of [n] bytes holds [n / 8] zeroed slots. *)
Definition ringbuffer_new (size : Z) (lk rl ru wl wu : bool) (a : A)
    : outcome (option (Z * ringbuffer) * A) :=
  let bytes := u64 ((size + 1) * PTR_SIZEOF) in
  '(ret, a1) ← al_alloc RING_SIZEOF a;
  '(buffer, a2) ← al_alloc bytes a1;
  if (ret =? 0) || (buffer =? 0) then
    '(_, a3) ← al_free ret a2;
    '(_, a4) ← al_free buffer a3;
    Ret (None, a4)
  else
    Ret (Some (ret, MkRing buffer (replicate (Z.to_nat (bytes / PTR_SIZEOF)) 0)
                      0 0 size lk rl ru wl wu []), a2).

Definition ringbuffer_free (ptr : Z) (r : ringbuffer) (a : A) : outcome (unit * A) :=
  '(_, a1) ← al_free (buf_ptr r) a;
  al_free ptr a1.
End create.

(** [r->buf[i] = v], which must lie inside the buffer. *)
Definition slot_store (r : ringbuffer) (i v : Z) : outcome ringbuffer :=
  if bool_decide (Z.to_nat i < length (buf r))%nat
  then Ret (set_buf r (<[Z.to_nat i := v]> (buf r))) else Fault.

Definition ringbuffer_write (r : ringbuffer) (value : Z) : outcome ringbuffer :=
  let r := RINGBUFFER_WRITE_LOCK r in
  let r := if write_pos r =? 0 then set_write r 1 else r in
  r ← slot_store r (write_pos r) value;
  let r := set_write r (u64 (write_pos r + 1)) in
  let r := if size_ r <? write_pos r then set_write r 1 else r in
  Ret (RINGBUFFER_WRITE_UNLOCK r).

(** [false] leaves the caller's [*out] alone: [None]. *)
Definition ringbuffer_read (r : ringbuffer) : outcome (option Z * ringbuffer) :=
  let r := RINGBUFFER_READ_LOCK r in
  if read_pos r =? write_pos r then Ret (None, RINGBUFFER_READ_UNLOCK r)
  else
    let r := if read_pos r =? 0 then set_read r 1 else r in
    v ← deref (buf r !! Z.to_nat (read_pos r));
    let r := set_read r (u64 (read_pos r + 1)) in
    let r := if size_ r <? read_pos r then set_read r 1 else r in
    Ret (Some v, RINGBUFFER_READ_UNLOCK r).

(** ** Specification

    The queue a ring of [n] slots implements.  Until the first successful read
    it holds up to [n] values, and a write to a full one discards all the older
    values.  After the first read it holds [n - 1]: the write that would make it
    [n] makes the positions equal and so empties it. *)
Record fifo := MkFifo { started : bool; pending : list Z }.

Definition fifo_write (n : Z) (v : Z) (f : fifo) : fifo :=
  MkFifo (started f)
    (if started f
     then if Z.of_nat (length (pending f)) =? n - 1 then [] else pending f ++ [v]
     else if Z.of_nat (length (pending f)) =? n then [v] else pending f ++ [v]).
Definition fifo_read (f : fifo) : option Z * fifo :=
  match pending f with
  | [] => (None, f)
  | v :: q => (Some v, MkFifo true q)
  end.

(** Slot of the [k]th value after slot [p] in a ring of [n] slots. *)
Definition slot (n p k : Z) : Z := (p - 1 + k) mod n + 1.

Record ring_rep (r : ringbuffer) (f : fifo) : Prop := {
  rr_size : 1 ≤ size_ r < 2 ^ 60;
  rr_length : Z.of_nat (length (buf r)) = size_ r + 1;
  rr_read : if started f then 1 ≤ read_pos r ≤ size_ r else read_pos r = 0;
  rr_room : Z.of_nat (length (pending f)) < if started f then size_ r else size_ r + 1;
  rr_write :
    write_pos r = if negb (started f) && (Z.of_nat (length (pending f)) =? 0) then 0
                  else slot (size_ r) (if started f then read_pos r else 1)
                         (Z.of_nat (length (pending f)));
  rr_slots : ∀ k v, pending f !! k = Some v →
    buf r !! Z.to_nat (slot (size_ r) (if started f then read_pos r else 1) (Z.of_nat k))
      = Some v;
}.

(** *** Positions *)
Section slot.
Context (n : Z) (Hn : 1 ≤ n).

Lemma slot_range p k : 1 ≤ slot n p k ≤ n.
Proof using Hn. unfold slot. pose proof (Z.mod_pos_bound (p - 1 + k) n). lia. Qed.

Lemma slot_0 p : 1 ≤ p ≤ n → slot n p 0 = p.
Proof using Hn. intros Hp. unfold slot. rewrite Z.mod_small; lia. Qed.

Lemma slot_slot p j k : slot n (slot n p j) k = slot n p (j + k).
Proof using Hn.
  unfold slot. f_equal. replace ((p - 1 + j) mod n + 1 - 1 + k) with ((p - 1 + j) mod n + k) by lia.
  rewrite Zplus_mod_idemp_l. f_equal. lia.
Qed.

Lemma slot_wrap p k : slot n p (n + k) = slot n p k.
Proof using Hn.
  unfold slot. f_equal. replace (p - 1 + (n + k)) with (p - 1 + k + 1 * n) by lia.
  apply Z.mod_add. lia.
Qed.

(** The step both positions take. *)
Lemma slot_step p : 1 ≤ p ≤ n → (if n <? p + 1 then 1 else p + 1) = slot n p 1.
Proof using Hn.
  intros Hp. unfold slot. destruct (Z.ltb_spec n (p + 1)).
  - replace (p - 1 + 1) with n by lia. rewrite Z_mod_same_full. lia.
  - rewrite Z.mod_small; lia.
Qed.

Lemma slot_inj p j k : 0 ≤ j < n → 0 ≤ k < n → slot n p j = slot n p k → j = k.
Proof using Hn.
  unfold slot. intros Hj Hk Heq.
  pose proof (Z.div_mod (p - 1 + j) n ltac:(lia)).
  pose proof (Z.div_mod (p - 1 + k) n ltac:(lia)).
  assert ((p - 1 + j) / n = (p - 1 + k) / n) by nia. nia.
Qed.
End slot.

(** *** The two operations, on the fields *)

(** The fields other than buffer, positions and the lock trace are as before. *)
Definition same_ring (r r' : ringbuffer) : Prop :=
  size_ r' = size_ r ∧ buf_ptr r' = buf_ptr r ∧ lock r' = lock r ∧
  read_lock_fn r' = read_lock_fn r ∧ read_unlock_fn r' = read_unlock_fn r ∧
  write_lock_fn r' = write_lock_fn r ∧ write_unlock_fn r' = write_unlock_fn r.

Definition read_trace (r : ringbuffer) : list lock_event :=
  if read_locks r then [ReadLock; ReadUnlock] else [].
Definition write_trace (r : ringbuffer) : list lock_event :=
  if write_locks r then [WriteLock; WriteUnlock] else [].

(** Run the record updates and the binds, leaving arithmetic alone. *)
Ltac ring_cbn := cbn -[u64 Z.add Z.ltb Z.eqb Z.to_nat Z.pow Z.lt Z.le].

Lemma write_fields r v pos :
  pos = (if write_pos r =? 0 then 1 else write_pos r) →
  0 ≤ pos → pos + 1 < 2 ^ 64 → (Z.to_nat pos < length (buf r))%nat →
  ∃ r', ringbuffer_write r v = Ret r' ∧ same_ring r r' ∧ read_pos r' = read_pos r ∧
        buf r' = <[Z.to_nat pos := v]> (buf r) ∧
        write_pos r' = (if size_ r <? pos + 1 then 1 else pos + 1) ∧
        events r' = events r ++ write_trace r.
Proof.
  intros -> H0 Hw Hlen. unfold ringbuffer_write, RINGBUFFER_WRITE_LOCK.
  unfold slot_store, RINGBUFFER_WRITE_UNLOCK, write_trace, write_locks.
  destruct r as [bp b rp wp sz lk rl ru wl wu ev]. cbn [write_pos buf size_ read_pos events] in *.
  set (pos := if wp =? 0 then 1 else wp) in *.
  assert (u64 (pos + 1) = pos + 1) as Hu by (apply u64_small; unfold is_u64; lia).
  unfold pos in *. clear pos.
  destruct lk, wl, wu; ring_cbn; destruct (Z.eqb_spec wp 0); ring_cbn;
    rewrite bool_decide_eq_true_2 by done; ring_cbn; rewrite Hu;
    (match goal with |- context [sz <? ?x] => destruct (Z.ltb_spec sz x) end; eexists; (split; [reflexivity|]); ring_cbn;
     rewrite <- ?(assoc app), ?app_nil_r; repeat split).
Qed.

Lemma read_fields_empty r :
  read_pos r = write_pos r →
  ∃ r', ringbuffer_read r = Ret (None, r') ∧ same_ring r r' ∧ buf r' = buf r ∧
        read_pos r' = read_pos r ∧ write_pos r' = write_pos r ∧
        events r' = events r ++ read_trace r.
Proof.
  intros Heq. unfold ringbuffer_read, RINGBUFFER_READ_LOCK, RINGBUFFER_READ_UNLOCK.
  unfold read_trace, read_locks.
  destruct r as [bp b rp wp sz lk rl ru wl wu ev]. cbn [write_pos read_pos] in *. subst wp.
  destruct lk, rl, ru; simpl; rewrite Z.eqb_refl; eexists; (split; [reflexivity|]); simpl;
    rewrite <- ?(assoc app), ?app_nil_r; repeat split.
Qed.

Lemma read_fields r v pos :
  read_pos r ≠ write_pos r → pos = (if read_pos r =? 0 then 1 else read_pos r) →
  0 ≤ pos → pos + 1 < 2 ^ 64 → buf r !! Z.to_nat pos = Some v →
  ∃ r', ringbuffer_read r = Ret (Some v, r') ∧ same_ring r r' ∧ buf r' = buf r ∧
        write_pos r' = write_pos r ∧
        read_pos r' = (if size_ r <? pos + 1 then 1 else pos + 1) ∧
        events r' = events r ++ read_trace r.
Proof.
  intros Hne -> H0 Hw Hv. unfold ringbuffer_read, RINGBUFFER_READ_LOCK.
  unfold RINGBUFFER_READ_UNLOCK, read_trace, read_locks.
  destruct r as [bp b rp wp sz lk rl ru wl wu ev]. cbn [write_pos buf size_ read_pos events] in *.
  apply Z.eqb_neq in Hne.
  set (pos := if rp =? 0 then 1 else rp) in *.
  assert (u64 (pos + 1) = pos + 1) as Hu by (apply u64_small; unfold is_u64; lia).
  unfold pos in *. clear pos.
  destruct lk, rl, ru; ring_cbn; rewrite Hne; destruct (Z.eqb_spec rp 0); ring_cbn;
    rewrite Hv; ring_cbn; rewrite Hu;
    (match goal with |- context [sz <? ?x] => destruct (Z.ltb_spec sz x) end; eexists; (split; [reflexivity|]); ring_cbn;
     rewrite <- ?(assoc app), ?app_nil_r; repeat split).
Qed.

(** *** The two operations, on the queue *)

(** Where a queue that starts in slot [base] continues after a write: the value
    is in the next slot, and the older ones are where they were, unless the ring
    is full and the first is overwritten. *)
Definition base (r : ringbuffer) (f : fifo) : Z := if started f then read_pos r else 1.

Record written (r : ringbuffer) (f : fifo) (v : Z) (r' : ringbuffer) : Prop := {
  wr_same : same_ring r r';
  wr_read : read_pos r' = read_pos r;
  wr_write : write_pos r' = slot (size_ r) (base r f) (Z.of_nat (length (pending f)) + 1);
  wr_length : length (buf r') = length (buf r);
  wr_new : buf r' !! Z.to_nat (slot (size_ r) (base r f) (Z.of_nat (length (pending f)))) = Some v;
  wr_old : ∀ k w, pending f !! k = Some w → Z.of_nat k < size_ r →
    (Z.of_nat (length (pending f)) = size_ r → k ≠ 0%nat) →
    buf r' !! Z.to_nat (slot (size_ r) (base r f) (Z.of_nat k)) = Some w;
}.

Lemma base_range r f : ring_rep r f → 1 ≤ base r f ≤ size_ r.
Proof. intros [Hs _ Hrd _ _ _]. unfold base. destruct (started f); lia. Qed.

Lemma write_slot r f :
  ring_rep r f →
  (if write_pos r =? 0 then 1 else write_pos r)
    = slot (size_ r) (base r f) (Z.of_nat (length (pending f))).
Proof.
  intros Hrep. pose proof (base_range r f Hrep) as Hb. destruct Hrep as [Hs _ _ _ Hwr _].
  pose proof (slot_range (size_ r) ltac:(lia) (base r f) (Z.of_nat (length (pending f)))).
  rewrite Hwr. unfold base in *.
  destruct (negb (started f) && (Z.of_nat (length (pending f)) =? 0)) eqn:E.
  - apply andb_prop in E as [Hst%negb_true_iff ->%Z.eqb_eq]. rewrite Hst in *.
    simpl. by rewrite slot_0 by lia.
  - by replace (slot _ _ _ =? 0) with false by lia.
Qed.

(** Two values of a queue of at most [n] share a slot only when it is full. *)
Lemma slot_clash n p k len :
  1 ≤ n → 0 ≤ k < n → 0 ≤ len ≤ n → k ≠ len → slot n p k = slot n p len → len = n ∧ k = 0.
Proof.
  intros Hn Hk Hl Hne Heq. destruct (decide (len < n)).
  - apply slot_inj in Heq; lia.
  - split; [lia|]. replace len with (n + 0) in Heq by lia.
    rewrite slot_wrap in Heq by lia. apply slot_inj in Heq; lia.
Qed.

Lemma write_written r f v :
  ring_rep r f →
  ∃ r', ringbuffer_write r v = Ret r' ∧ written r f v r' ∧ events r' = events r ++ write_trace r.
Proof.
  intros Hrep. pose proof (base_range r f Hrep) as Hbase. pose proof (write_slot r f Hrep) as Hpos.
  destruct Hrep as [Hs Hl Hrd Hroom _ Hsl]. fold (base r f) in Hsl.
  set (len := Z.of_nat (length (pending f))) in *.
  pose proof (slot_range (size_ r) ltac:(lia) (base r f) len) as Hr.
  destruct (write_fields r v (slot (size_ r) (base r f) len))
    as (r' & Hw & Hsame & Hrp & Hb & Hwp & Hev); [done|lia|lia|lia|].
  exists r'. split; [done|]. split; [|done]. rewrite slot_step, slot_slot in Hwp by lia.
  split; rewrite ?Hb; fold len; try done.
  - apply length_insert.
  - apply list_lookup_insert_eq. lia.
  - intros k w Hk Hkn H0. pose proof (lookup_lt_Some _ _ _ Hk).
    pose proof (slot_range (size_ r) ltac:(lia) (base r f) (Z.of_nat k)).
    rewrite list_lookup_insert_ne; [by apply Hsl|]. intros Heq.
    destruct (slot_clash (size_ r) (base r f) (Z.of_nat k) len); try lia.
    destruct (started f); lia.
Qed.

Lemma written_append r f v r' :
  ring_rep r f → written r f v r' →
  Z.of_nat (length (pending f)) < (if started f then size_ r - 1 else size_ r) →
  ring_rep r' (MkFifo (started f) (pending f ++ [v])).
Proof.
  intros [Hs Hl Hrd Hroom Hwr Hsl] [[Hsz _] Hrp Hwp Hlen Hnew Hold] Hlt.
  split; cbn [started pending]; rewrite ?Hsz, ?Hrp, ?length_app, ?Hlen;
    fold (base r f); try done.
  - simpl. destruct (started f); lia.
  - rewrite Hwp. replace (Z.of_nat (length (pending f) + length [v]))
      with (Z.of_nat (length (pending f)) + 1) by (simpl; lia).
    by replace (Z.of_nat (length (pending f)) + 1 =? 0) with false by lia; rewrite andb_false_r.
  - intros k w [Hk|(Hk & Hw')]%lookup_app_Some.
    + pose proof (lookup_lt_Some _ _ _ Hk). apply Hold; [done|destruct (started f); lia..].
    + apply list_lookup_singleton_Some in Hw' as [Hk0 <-].
      by replace (Z.of_nat k) with (Z.of_nat (length (pending f))) by lia.
Qed.

Lemma write_rep r f v :
  ring_rep r f →
  ∃ r', ringbuffer_write r v = Ret r' ∧ same_ring r r' ∧
        ring_rep r' (fifo_write (size_ r) v f) ∧ events r' = events r ++ write_trace r.
Proof.
  intros Hrep. destruct (write_written r f v Hrep) as (r' & Hw & Hwr & Hev).
  exists r'. split; [done|]. split; [apply Hwr|]. split; [|done].
  pose proof (written_append r f v r' Hrep Hwr) as Happ.
  destruct (Hwr) as [[Hsz _] Hrp Hwp Hlen Hnew _]. destruct Hrep as [Hs Hl Hrd Hroom _ _].
  unfold fifo_write, base in *. destruct f as [[] q]; cbn [started pending] in *.
  - destruct (Z.eqb_spec (Z.of_nat (length q)) (size_ r - 1)); [|apply Happ; lia].
    split; cbn [started pending length]; rewrite ?Hsz, ?Hrp, ?Hlen; try (done || lia).
    rewrite Hwp. replace (_ + 1) with (size_ r + 0) by lia. by rewrite slot_wrap by lia.
  - destruct (Z.eqb_spec (Z.of_nat (length q)) (size_ r)) as [E|]; [|apply Happ; lia].
    split; cbn [started pending length]; rewrite ?Hsz, ?Hrp, ?Hlen; try (done || lia).
    + rewrite Hwp, E. by rewrite slot_wrap by lia.
    + intros [|k] w Hk; [|done]. injection Hk as <-. rewrite <- Hnew, E.
      rewrite <- (Z.add_0_r (size_ r)) at 3. by rewrite slot_wrap by lia.
Qed.

Lemma read_rep r f :
  ring_rep r f →
  ∃ r', ringbuffer_read r = Ret (fst (fifo_read f), r') ∧ same_ring r r' ∧
        ring_rep r' (snd (fifo_read f)) ∧ events r' = events r ++ read_trace r.
Proof.
  intros Hrep. destruct (Hrep) as [Hs Hl Hrd Hroom Hwr Hsl].
  destruct f as [st [|v q]]; cbn [started pending fifo_read fst snd length] in *.
  - destruct (read_fields_empty r) as (r' & Hr & Hsame & Hb & Hrp & Hwp & Hev).
    { rewrite Hwr. destruct st; cbn [negb andb Z.eqb Z.of_nat]; [by rewrite slot_0 by lia|done]. }
    exists r'. split; [done|]. split; [done|]. split; [|done].
    destruct Hsame as [Hsz _]. split; cbn [started pending length];
      rewrite ?Hsz, ?Hb, ?Hrp, ?Hwp; done.
  - set (n := size_ r) in *. set (p := if st then read_pos r else 1) in *.
    assert (1 ≤ p ≤ n) as Hp by (unfold p; destruct st; lia).
    assert ((Z.of_nat (S (length q)) =? 0) = false) as Hz by (apply Z.eqb_neq; lia).
    rewrite Hz, andb_false_r in Hwr.
    pose proof (Hsl 0%nat v eq_refl) as Hv. cbn [Z.of_nat] in Hv. rewrite slot_0 in Hv by lia.
    destruct (read_fields r v p) as (r' & Hr & Hsame & Hb & Hwp & Hrp & Hev); [| |lia|lia|done|].
    + rewrite Hwr. destruct st.
      * intros Heq. fold p in Heq. rewrite <- (slot_0 n ltac:(lia) p) in Heq at 1 by lia.
        apply slot_inj in Heq; lia.
      * rewrite Hrd. pose proof (slot_range n ltac:(lia) p (Z.of_nat (S (length q)))). lia.
    + unfold p. destruct st; [|by rewrite Hrd]. by replace (read_pos r =? 0) with false by lia.
    + exists r'. split; [done|]. split; [done|]. split; [|done].
      destruct Hsame as [Hsz _]. fold n in Hrp. rewrite slot_step in Hrp by lia.
      split; cbn [started pending length negb andb]; rewrite ?Hsz, ?Hb, ?Hwp, ?Hrp, ?slot_slot by lia.
      * done.
      * done.
      * apply slot_range. lia.
      * destruct st; fold n; lia.
      * rewrite Hwr. f_equal. lia.
      * intros k w Hk. fold n. rewrite slot_slot by lia. specialize (Hsl (S k) w Hk).
        rewrite <- Hsl. do 3 f_equal. lia.
Qed.

(** *** Sequences of calls *)

Inductive ring_call := RingWrite (v : Z) | RingRead.

(** The values the reads delivered ([None] for a starved read). *)
Fixpoint ring_run (cs : list ring_call) (r : ringbuffer)
    : outcome (list (option Z) * ringbuffer) :=
  match cs with
  | [] => Ret ([], r)
  | RingWrite v :: cs' => r1 ← ringbuffer_write r v; ring_run cs' r1
  | RingRead :: cs' =>
      '(x, r1) ← ringbuffer_read r;
      '(l, r2) ← ring_run cs' r1;
      Ret (x :: l, r2)
  end.
Fixpoint fifo_run (n : Z) (cs : list ring_call) (f : fifo) : list (option Z) * fifo :=
  match cs with
  | [] => ([], f)
  | RingWrite v :: cs' => fifo_run n cs' (fifo_write n v f)
  | RingRead :: cs' =>
      let '(l, f2) := fifo_run n cs' (snd (fifo_read f)) in (fst (fifo_read f) :: l, f2)
  end.

(** The lock callbacks a sequence makes: one pair per call. *)
Fixpoint run_trace (cs : list ring_call) (r : ringbuffer) : list lock_event :=
  match cs with
  | [] => []
  | RingWrite _ :: cs' => write_trace r ++ run_trace cs' r
  | RingRead :: cs' => read_trace r ++ run_trace cs' r
  end.

Lemma run_trace_same cs r r' : same_ring r r' → run_trace cs r' = run_trace cs r.
Proof.
  intros (_ & _ & Hl & H1 & H2 & H3 & H4).
  induction cs as [|[v|] cs IH]; simpl; [done| |]; rewrite IH; f_equal;
    unfold write_trace, read_trace, write_locks, read_locks; by rewrite Hl, ?H1, ?H2, ?H3, ?H4.
Qed.

Lemma run_rep cs r f :
  ring_rep r f →
  ∃ r', ring_run cs r = Ret (fst (fifo_run (size_ r) cs f), r') ∧ size_ r' = size_ r ∧
        ring_rep r' (snd (fifo_run (size_ r) cs f)) ∧ events r' = events r ++ run_trace cs r.
Proof.
  revert r f. induction cs as [|[v|] cs IH]; intros r f Hrep; simpl.
  - exists r. by rewrite app_nil_r.
  - destruct (write_rep r f v Hrep) as (r1 & -> & Hsame & Hrep1 & Hev1). orun.
    destruct (IH _ _ Hrep1) as (r2 & Hr & Hsz & Hrep2 & Hev2).
    pose proof (run_trace_same cs r r1 Hsame) as Ht. destruct Hsame as [Hs _].
    rewrite Hs in *. exists r2. by rewrite Hev2, Hev1, Ht, (assoc app).
  - destruct (read_rep r f Hrep) as (r1 & -> & Hsame & Hrep1 & Hev1). orun.
    destruct (IH _ _ Hrep1) as (r2 & Hr & Hsz & Hrep2 & Hev2).
    pose proof (run_trace_same cs r r1 Hsame) as Ht. destruct Hsame as [Hs _].
    rewrite Hs in *. rewrite Hr. orun. destruct (fifo_run (size_ r) cs _) as [l f2].
    exists r2. by rewrite Hev2, Hev1, Ht, (assoc app).
Qed.

(** ** Theorems *)


(** The plain queue: what it delivers, and the most it ever holds. *)
Fixpoint queue_run (cs : list ring_call) (q : list Z) : list (option Z) :=
  match cs with
  | [] => []
  | RingWrite v :: cs' => queue_run cs' (q ++ [v])
  | RingRead :: cs' => head q :: queue_run cs' (tail q)
  end.
Fixpoint queue_peak (cs : list ring_call) (q : list Z) : Z :=
  Z.max (Z.of_nat (length q))
    match cs with
    | [] => 0
    | RingWrite v :: cs' => queue_peak cs' (q ++ [v])
    | RingRead :: cs' => queue_peak cs' (tail q)
    end.

Lemma queue_peak_length cs q : Z.of_nat (length q) ≤ queue_peak cs q.
Proof. destruct cs; simpl; lia. Qed.

Lemma fifo_plain n cs f :
  queue_peak cs (pending f) < n → fst (fifo_run n cs f) = queue_run cs (pending f).
Proof.
  revert f. induction cs as [|[v|] cs IH]; intros [st q] Hpk; cbn [queue_peak pending] in Hpk;
    [done| |]; cbn [fifo_run queue_run pending].
  - pose proof (queue_peak_length cs (q ++ [v])) as Hlen. rewrite length_app in Hlen. simpl in Hlen.
    assert (fifo_write n v (MkFifo st q) = MkFifo st (q ++ [v])) as ->.
    { unfold fifo_write. cbn [started pending]. f_equal.
      destruct st; [replace (_ =? n - 1) with false by lia|replace (_ =? n) with false by lia]; done. }
    apply (IH (MkFifo st (q ++ [v]))). cbn [pending]. lia.
  - assert (pending (snd (fifo_read (MkFifo st q))) = tail q ∧
            fst (fifo_read (MkFifo st q)) = head q) as [Hq Hh] by (by destruct q).
    rewrite Hh, <- Hq, <- IH by (rewrite Hq; lia).
    by destruct (fifo_run n cs _).
Qed.

(** as long as never more than [size - 1] values are pending, no value is
    lost, duplicated or reordered: the reads of any sequence of calls deliver
    what a plain first-in first-out queue delivers. *)
Theorem ringbuffer_fifo cs r f :
  ring_rep r f → queue_peak cs (pending f) < size_ r →
  ∃ r', ring_run cs r = Ret (queue_run cs (pending f), r').
Proof.
  intros Hrep Hpk. destruct (run_rep cs r f Hrep) as (r' & Hr & _).
  exists r'. by rewrite Hr, fifo_plain.
Qed.

Section create_spec.
Context {A : Type} `{AllocatorLaws (2 ^ 61) A}.

Lemma new_rep size lk rl ru wl wu bp :
  1 ≤ size < 2 ^ 57 →
  ring_rep (MkRing bp (replicate (Z.to_nat (u64 ((size + 1) * PTR_SIZEOF) / PTR_SIZEOF)) 0)
              0 0 size lk rl ru wl wu []) (MkFifo false []).
Proof.
  intros Hs. unfold PTR_SIZEOF. rewrite u64_small by (unfold is_u64; lia).
  rewrite Z.div_mul by lia. split; simpl; try done; try lia.
  rewrite length_replicate. lia.
Qed.

(** against any lawful allocator, [ringbuffer_new] returns; either it fails
    and has given back whatever it took, or it yields an empty ring that owns
    two new blocks, and [ringbuffer_free] then gives exactly these back. *)
Theorem ringbuffer_new_free size lk rl ru wl wu (a : A) :
  al_ok a → 1 ≤ size < 2 ^ 57 →
  ∃ res a', ringbuffer_new size lk rl ru wl wu a = Ret (res, a') ∧ al_ok a' ∧
    match res with
    | None => al_live a' = al_live a
    | Some (ptr, r) =>
        ring_rep r (MkFifo false []) ∧ size_ r = size ∧
        ∃ a'', ringbuffer_free ptr r a' = Ret (tt, a'') ∧ al_ok a'' ∧ al_live a'' = al_live a
    end.
Proof using H0.
  intros Hok Hs. unfold ringbuffer_new.
  assert (u64 ((size + 1) * PTR_SIZEOF) = (size + 1) * 8) as Hu
    by (unfold PTR_SIZEOF; apply u64_small; unfold is_u64; lia).
  destruct (al_alloc_law a RING_SIZEOF Hok) as (p & a1 & -> & Hok1 & Hp); [unfold RING_SIZEOF; lia|].
  orun.
  destruct (al_alloc_law a1 (u64 ((size + 1) * PTR_SIZEOF)) Hok1) as (b & a2 & -> & Hok2 & Hb);
    [rewrite Hu; lia|].
  orun.
  destruct Hp as [[-> Hl1]|(k & Hp & _ & _ & Hpf & _ & Hl1)], Hb as [[-> Hl2]|(j & Hb & _ & _ & Hbf & _ & Hl2)];
    rewrite ?(proj2 (Z.eqb_neq p 0)), ?(proj2 (Z.eqb_neq b 0)), ?orb_true_r by lia;
    cbn [Z.eqb orb]; rewrite ?al_free_null; orun; rewrite ?al_free_null; orun.
  - eexists _, _. split; [done|]. split; [done|]. congruence.
  - destruct (al_free_law a2 b j Hok2) as (a3 & -> & Hok3 & Hl3);
      [by rewrite Hl2, lookup_insert_eq|].
    eexists _, _. split; [done|]. split; [done|]. by rewrite Hl3, Hl2, delete_insert_id, Hl1.
  - destruct (al_free_law a2 p k Hok2) as (a3 & -> & Hok3 & Hl3);
      [by rewrite Hl2, Hl1, lookup_insert_eq|].
    orun. rewrite al_free_null.
    eexists _, _. split; [done|]. split; [done|]. by rewrite Hl3, Hl2, Hl1, delete_insert_id.
  - eexists _, _. split; [done|]. split; [done|]. split; [by apply new_rep|]. split; [done|].
    unfold ringbuffer_free. cbn [buf_ptr].
    destruct (al_free_law a2 b j Hok2) as (a3 & -> & Hok3 & Hl3);
      [by rewrite Hl2, lookup_insert_eq|].
    orun. rewrite Hl2, delete_insert_id in Hl3 by done.
    destruct (al_free_law a3 p k Hok3) as (a4 & -> & Hok4 & Hl4);
      [by rewrite Hl3, Hl1, lookup_insert_eq|].
    eexists. split; [done|]. split; [done|]. by rewrite Hl4, Hl3, Hl1, delete_insert_id.
Qed.
End create_spec.

(** *** Examples

    A ring of three slots with all callbacks.  After the first read two values
    fit; the write that fills the third slot empties the ring. *)
Definition demo_ring : ringbuffer :=
  MkRing 4096 [0; 0; 0; 0] 0 0 3 true true true true true [].

Lemma demo_ring_rep : ring_rep demo_ring (MkFifo false []).
Proof. apply (new_rep 3 true true true true true 4096). lia. Qed.


Lemma ringbuffer_fifo_witness :
  ∃ r', ring_run [RingWrite 7; RingRead; RingWrite 8; RingWrite 9; RingRead; RingWrite 10;
                  RingRead; RingRead; RingRead] demo_ring
        = Ret ([Some 7; Some 8; Some 9; Some 10; None], r').
Proof.
  apply (ringbuffer_fifo [RingWrite 7; RingRead; RingWrite 8; RingWrite 9; RingRead; RingWrite 10;
                  RingRead; RingRead; RingRead] demo_ring _ demo_ring_rep).
  reflexivity.
Defined.

Lemma ringbuffer_new_free_witness :
  ∃ res a', ringbuffer_new 3 true true true true true (MkBump 64 1 ∅) = Ret (res, a') ∧
            res = None ∧ al_live a' = ∅.
Proof.
  destruct (ringbuffer_new_free 3 true true true true true (MkBump 64 1 ∅))
    as (res & a' & Hr & _ & Hres); [by split|lia|].
  exists res, a'. split; [exact Hr|]. vm_compute in Hr. injection Hr as <- <-.
  split; [reflexivity|exact Hres].
Defined.
