(* ===== verification/Vma.v ===== *)
(** * Vma: [kernel/memory/vma.c]

    The virtual memory areas of an address space: a doubly linked list of
    page-aligned, disjoint, sorted ranges.  The nodes live in a heap (pointers
    are addresses, 0 is NULL) and come from [slab_calloc], here any [Allocator].
    The theorems relate the linked list to the finite list of areas it holds. *)
From S2P Require Import Prelude Alloc.

(** ** Data *)

Definition VMA_PAGE_SIZE : Z := 4096.
(** [sizeof(vma_t)]. *)
Definition VMA_SIZEOF : Z := 56.

Record vma := MkVma {
  start : Z;
  end_ : Z;
  access : Z;
  flags : Z;
  offset : Z;
  next : Z;
  prev : Z;
}.

Definition set_start (v : vma) (x : Z) : vma :=
  MkVma x (end_ v) (access v) (flags v) (offset v) (next v) (prev v).
Definition set_end (v : vma) (x : Z) : vma :=
  MkVma (start v) x (access v) (flags v) (offset v) (next v) (prev v).
Definition set_next (v : vma) (x : Z) : vma :=
  MkVma (start v) (end_ v) (access v) (flags v) (offset v) x (prev v).
Definition set_prev (v : vma) (x : Z) : vma :=
  MkVma (start v) (end_ v) (access v) (flags v) (offset v) (next v) x.

(** The nodes in memory, the list head [*head] an operation works on, and the
    allocator behind [slab_calloc] and [slab_free]. *)
Record vworld (A : Type) := MkVW {
  nodes : gmap Z vma;
  head : Z;
  alloc : A;
}.
Arguments MkVW {A} _ _ _.
Arguments nodes {A} _.
Arguments head {A} _.
Arguments alloc {A} _.

(** ** Ranges *)

(** [addr & (VMA_PAGE_SIZE - 1)] is zero. *)
Definition page_aligned (addr : Z) : bool := Z.land addr (VMA_PAGE_SIZE - 1) =? 0.

Definition vma_range_valid (st en : Z) : bool :=
  if en <? st then false
  else if negb (page_aligned st) then false
  else if negb (page_aligned (u64 (en + 1))) then false
  else true.

Definition vma_overlaps (v : vma) (st en : Z) : bool :=
  (start v <=? en) && (st <=? end_ v).

(** [addr & ~(VMA_PAGE_SIZE - 1)] on 64 bits. *)
Definition mask_page (addr : Z) : Z := Z.land addr (UINT64_MAX - (VMA_PAGE_SIZE - 1)).
Definition vma_align_up (addr : Z) : Z := mask_page (u64 (addr + VMA_PAGE_SIZE - 1)).
Definition vma_align_down (addr : Z) : Z := mask_page addr.

(** [Some end] is [true] with the value stored through [end_out]. *)
Definition vma_range_fits (st min max length : Z) : option Z :=
  if (st <? min) || (max <? st) then None
  else if UINT64_MAX - st <? u64 (length - 1) then None
  else
    let en := u64 (st + length - 1) in
    if max <? en then None else Some en.

(** ** The list *)
Section ops.
Context {A : Type} {alloc_A : Allocator A}.
Abbreviation W := (vworld A).

Definition load (p : Z) : prog W vma := λ w, v ← deref (nodes w !! p); Ret (v, w).
(** A field assignment through [p]. *)
Definition update (p : Z) (f : vma → vma) : prog W unit :=
  v ← load p;
  modify (λ w, MkVW (<[p := f v]> (nodes w)) (head w) (alloc w)).
Definition set_head (p : Z) : prog W unit := modify (λ w, MkVW (nodes w) p (alloc w)).

Definition slab_calloc_vma : prog W Z := λ w,
  '(p, a) ← al_alloc VMA_SIZEOF (alloc w);
  Ret (p, MkVW (if p =? 0 then nodes w else <[p := MkVma 0 0 0 0 0 0 0]> (nodes w))
            (head w) a).
Definition slab_free_vma (p : Z) : prog W unit := λ w,
  '(_, a) ← al_free p (alloc w);
  Ret (tt, MkVW (delete p (nodes w)) (head w) a).

(** No walk along the list is longer than the number of nodes. *)
Definition walk_fuel : prog W nat := gets (λ w, S (size (nodes w))).

Fixpoint tail_loop (n : nat) (tail : Z) : prog W Z :=
  match n with
  | O => diverge
  | S n' =>
      t ← load tail;
      if negb (next t =? 0) then tail_loop n' (next t) else mret tail
  end.

Definition vma_link_before (before node : Z) : prog W unit :=
  if before =? 0 then
    tail ← gets head;
    if tail =? 0 then set_head node
    else
      n ← walk_fuel;
      tail ← tail_loop n tail;
      _ ← update tail (λ v, set_next v node);
      update node (λ v, set_prev v tail)
  else
    _ ← update node (λ v, set_next v before);
    b ← load before;
    _ ← update node (λ v, set_prev v (prev b));
    _ ← update before (λ v, set_prev v node);
    n ← load node;
    if negb (prev n =? 0) then update (prev n) (λ v, set_next v node)
    else set_head node.

Definition vma_unlink (node : Z) : prog W unit :=
  n ← load node;
  _ ← (if negb (prev n =? 0) then update (prev n) (λ v, set_next v (next n))
       else set_head (next n));
  n ← load node;
  _ ← when (negb (next n =? 0)) (update (next n) (λ v, set_prev v (prev n)));
  slab_free_vma node.

(** The scan of [vma_insert]; [None] is its early [return false]. *)
Fixpoint insert_scan (n : nat) (st cur : Z) : prog W (option Z) :=
  match n with
  | O => diverge
  | S n' =>
      if cur =? 0 then mret (Some cur)
      else
        c ← load cur;
        if end_ c <? st then
          if end_ c =? UINT64_MAX then mret None
          else insert_scan n' st (next c)
        else mret (Some cur)
  end.

(** [hp] says whether the [vma_t**] is non-NULL. *)
Definition vma_insert (hp : bool) (st en acc fl off : Z) : prog W bool :=
  if negb hp || negb (vma_range_valid st en) then mret false
  else
    h ← gets head;
    n ← walk_fuel;
    r ← insert_scan n st h;
    match r with
    | None => mret false
    | Some cur =>
        ov ← (if cur =? 0 then mret false
              else c ← load cur; mret (vma_overlaps c st en));
        if (ov : bool) then mret false
        else
          node ← slab_calloc_vma;
          if node =? 0 then mret false
          else
            _ ← update node (λ v, MkVma st en acc fl off (next v) (prev v));
            _ ← vma_link_before cur node;
            mret true
    end.

Fixpoint remove_scan (n : nat) (st cur : Z) : prog W Z :=
  match n with
  | O => diverge
  | S n' =>
      if cur =? 0 then mret cur
      else
        c ← load cur;
        if end_ c <? st then remove_scan n' st (next c) else mret cur
  end.

Definition vma_remove (hp : bool) (st en : Z) : prog W bool :=
  if negb hp || negb (vma_range_valid st en) then mret false
  else
    h ← gets head;
    n ← walk_fuel;
    cur ← remove_scan n st h;
    if cur =? 0 then mret true
    else
      c ← load cur;
      if st <? start c then mret true
      else
        let remove_end := if en <? end_ c then en else end_ c in
        if (st =? start c) && (remove_end =? end_ c) then
          _ ← vma_unlink cur; mret true
        else if st =? start c then
          _ ← update cur (λ v, set_start v (u64 (remove_end + 1))); mret true
        else if remove_end =? end_ c then
          _ ← update cur (λ v, set_end v (u64 (st - 1))); mret true
        else
          split ← slab_calloc_vma;
          if split =? 0 then mret false
          else
            _ ← update split (λ v, MkVma (u64 (remove_end + 1)) (end_ c) (access c)
                                     (flags c) (offset c) (next v) (prev v));
            _ ← update cur (λ v, set_end v (u64 (st - 1)));
            c ← load cur;
            _ ← vma_link_before (next c) split;
            mret true.

Fixpoint clear_loop (n : nat) : prog W unit :=
  match n with
  | O => diverge
  | S n' =>
      h ← gets head;
      if h =? 0 then mret tt
      else
        c ← load h;
        _ ← slab_free_vma h;
        _ ← set_head (next c);
        clear_loop n'
  end.

Definition vma_clear (hp : bool) : prog W unit :=
  if negb hp then mret tt else n ← walk_fuel; clear_loop n.

Fixpoint copy_loop (n : nat) (cur : Z) : prog W bool :=
  match n with
  | O => diverge
  | S n' =>
      if cur =? 0 then mret true
      else
        c ← load cur;
        ok ← vma_insert true (start c) (end_ c) (access c) (flags c) (offset c);
        if negb ok then _ ← vma_clear true; mret false
        else
          c ← load cur;
          copy_loop n' (next c)
  end.

(** [dst] is the list whose head the state holds. *)
Definition vma_copy_list (dst : bool) (src : Z) : prog W bool :=
  h ← gets head;
  if negb dst || negb (h =? 0) then mret false
  else n ← walk_fuel; copy_loop n src.

(** ** Searches *)

Fixpoint forward_loop (n : nat) (cur candidate en min max length : Z) : prog W (option Z) :=
  match n with
  | O => diverge
  | S n' =>
      if cur =? 0 then mret (Some candidate)
      else
        c ← load cur;
        if end_ c <? candidate then forward_loop n' (next c) candidate en min max length
        else if en <? start c then mret (Some candidate)
        else if end_ c =? UINT64_MAX then mret None
        else
          let candidate := u64 (end_ c + 1) in
          match vma_range_fits candidate min max length with
          | None => mret None
          | Some en => forward_loop n' (next c) candidate en min max length
          end
  end.

(** [out] says whether the result pointer is non-NULL; [Some] is [true] with
    the value stored there. *)
Definition vma_find_free_forward (hd hint min max length : Z) (out : bool)
    : prog W (option Z) :=
  if negb out || (length =? 0) || (max <? min) then mret None
  else if negb (page_aligned length) then mret None
  else
    let candidate := if hint =? 0 then min else hint in
    let candidate :=
      if negb (page_aligned candidate) then
        if UINT64_MAX - (VMA_PAGE_SIZE - 1) <? candidate then None
        else Some (vma_align_up candidate)
      else Some candidate in
    match candidate with
    | None => mret None
    | Some candidate =>
        let candidate := if candidate <? min then min else candidate in
        match vma_range_fits candidate min max length with
        | None => mret None
        | Some en =>
            n ← walk_fuel;
            forward_loop n hd candidate en min max length
        end
    end.

Fixpoint last_below_loop (n : nat) (cur pv en : Z) : prog W Z :=
  match n with
  | O => diverge
  | S n' =>
      if cur =? 0 then mret pv
      else
        c ← load cur;
        if start c <=? en then last_below_loop n' (next c) cur en else mret pv
  end.

(** The inner [while (current != NULL && current->start > end)]. *)
Fixpoint skip_above_loop (n : nat) (cur en : Z) : prog W Z :=
  match n with
  | O => diverge
  | S n' =>
      if cur =? 0 then mret cur
      else
        c ← load cur;
        if en <? start c then skip_above_loop n' (prev c) en else mret cur
  end.

Fixpoint backward_loop (n m : nat) (cur candidate min max length : Z) : prog W (option Z) :=
  match n with
  | O => diverge
  | S n' =>
      match vma_range_fits candidate min max length with
      | None => mret None
      | Some en =>
          cur ← skip_above_loop m cur en;
          if cur =? 0 then mret (Some candidate)
          else
            c ← load cur;
            if end_ c <? candidate then mret (Some candidate)
            else if start c <=? min then mret None
            else if start c - min <? length then mret None
            else backward_loop n' m (prev c) (vma_align_down (start c - length)) min max length
      end
  end.

Definition vma_find_free_backward (hd hint min max length : Z) (out : bool)
    : prog W (option Z) :=
  if negb out || (length =? 0) || (max <? min) then mret None
  else if negb (page_aligned length) then mret None
  else if max - min <? u64 (length - 1) then mret None
  else
    let highest := vma_align_down (u64 (max - length + 1)) in
    let candidate := if hint =? 0 then highest else vma_align_down hint in
    let candidate := if highest <? candidate then highest else candidate in
    match vma_range_fits candidate min max length with
    | None => mret None
    | Some en =>
        n ← walk_fuel;
        cur ← last_below_loop n hd 0 en;
        backward_loop n n cur candidate min max length
    end.

Fixpoint fixed_loop (n : nat) (cur addr en : Z) : prog W (option Z) :=
  match n with
  | O => diverge
  | S n' =>
      if cur =? 0 then mret (Some addr)
      else
        c ← load cur;
        if en <? start c then mret (Some addr)
        else if vma_overlaps c addr en then mret None
        else fixed_loop n' (next c) addr en
  end.

Definition vma_find_free_fixed (hd addr min max length : Z) (out : bool)
    : prog W (option Z) :=
  if negb out || (length =? 0) || (max <? min) then mret None
  else if negb (page_aligned addr) then mret None
  else if negb (page_aligned length) then mret None
  else
    match vma_range_fits addr min max length with
    | None => mret None
    | Some en => n ← walk_fuel; fixed_loop n hd addr en
    end.
End ops.

(** ** The areas a list holds *)

Record area := Area {
  a_start : Z;
  a_end : Z;
  a_access : Z;
  a_flags : Z;
  a_offset : Z;
}.
Definition node_of (a : area) (nx pv : Z) : vma :=
  MkVma (a_start a) (a_end a) (a_access a) (a_flags a) (a_offset a) nx pv.

(** [dseg h p pv l q lt]: from [p], whose predecessor is [pv], the nodes of [l]
    are linked both ways; the segment runs into [q] and its last node is [lt]. *)
Fixpoint dseg (h : gmap Z vma) (p pv : Z) (l : list (Z * area)) (q lt : Z) : Prop :=
  match l with
  | [] => p = q ∧ pv = lt
  | (x, a) :: l' =>
      p = x ∧ x ≠ 0 ∧
      ∃ nx, h !! x = Some (node_of a nx pv) ∧ dseg h nx x l' q lt
  end.

(** An area: page-aligned, non-empty, within 64 bits. *)
Definition area_valid (a : area) : Prop :=
  0 ≤ a_start a ≤ a_end a ∧ a_end a < 2 ^ 64 ∧
  vma_range_valid (a_start a) (a_end a) = true.

(** Sorted and disjoint. *)
Definition areas_ok (l : list area) : Prop :=
  Forall area_valid l ∧ StronglySorted (λ a b, a_end a < a_start b) l.

Section rep.
Context {A : Type} {alloc_A : Allocator A}.

(** The state's list holds the areas of [l], in nodes the allocator knows. *)
Record vma_rep (w : vworld A) (l : list (Z * area)) : Prop := {
  vr_list : ∃ lt, dseg (nodes w) (head w) 0 l 0 lt;
  vr_nodup : NoDup l.*1;
  vr_areas : areas_ok l.*2;
  vr_alloc : al_ok (alloc w);
  vr_live : ∀ p, is_Some (nodes w !! p) → is_Some (al_live (alloc w) !! p);
}.
End rep.

(** *** Segments *)
Section segments.
Implicit Types (h : gmap Z vma) (l : list (Z * area)).

Lemma dseg_app h p pv l1 l2 q lt :
  dseg h p pv (l1 ++ l2) q lt ↔ ∃ m mt, dseg h p pv l1 m mt ∧ dseg h m mt l2 q lt.
Proof.
  revert p pv. induction l1 as [|[x a] l1 IH]; intros p pv; simpl.
  - naive_solver.
  - setoid_rewrite IH. naive_solver.
Qed.

(** Only the nodes of the segment matter. *)
Lemma dseg_agree h h' p pv l q lt :
  (∀ x, x ∈ l.*1 → h' !! x = h !! x) → dseg h p pv l q lt → dseg h' p pv l q lt.
Proof.
  revert p pv. induction l as [|[x a] l IH]; intros p pv Hag; simpl; [done|].
  intros (-> & Hx & nx & Hn & Hs). split; [done|]. split; [done|]. exists nx.
  split; [by rewrite Hag by (simpl; set_solver)|].
  apply IH; [|done]. intros y Hy. apply Hag. simpl. set_solver.
Qed.

Lemma dseg_insert h x v p pv l q lt :
  x ∉ l.*1 → dseg h p pv l q lt → dseg (<[x := v]> h) p pv l q lt.
Proof.
  intros Hx. apply dseg_agree. intros y Hy. apply lookup_insert_ne. set_solver.
Qed.

Lemma dseg_delete h x p pv l q lt :
  x ∉ l.*1 → dseg h p pv l q lt → dseg (delete x h) p pv l q lt.
Proof.
  intros Hx. apply dseg_agree. intros y Hy. apply lookup_delete_ne. set_solver.
Qed.

(** The nodes of a segment are in the heap, and not NULL. *)
Lemma dseg_lookup h p pv l q lt x :
  dseg h p pv l q lt → x ∈ l.*1 → is_Some (h !! x) ∧ x ≠ 0.
Proof.
  revert p pv. induction l as [|[y a] l IH]; intros p pv; simpl; [set_solver|].
  intros (-> & Hy & nx & Hn & Hs) [->|Hx]%elem_of_cons; [by eauto|]. by eapply IH.
Qed.

Lemma dseg_last h p pv l a x q lt :
  dseg h p pv (l ++ [(x, a)]) q lt → lt = x ∧ x ≠ 0 ∧ ∃ pv', h !! x = Some (node_of a q pv').
Proof.
  rewrite dseg_app. intros (m & mt & _ & Hs). simpl in Hs.
  destruct Hs as (-> & Hx & nx & Hn & -> & ->). eauto.
Qed.

(** Redirecting the last node of a segment. *)
Lemma dseg_set_next h p pv l x a q lt q' v :
  x ∉ l.*1 → dseg h p pv (l ++ [(x, a)]) q lt → h !! x = Some v →
  dseg (<[x := set_next v q']> h) p pv (l ++ [(x, a)]) q' x.
Proof.
  rewrite !dseg_app. intros Hx (m & mt & Hs1 & Hs2) Hv. exists m, mt.
  split; [by apply dseg_insert|]. simpl in *.
  destruct Hs2 as (-> & H0 & nx & Hn & -> & ->). split; [done|]. split; [done|].
  exists q'. rewrite lookup_insert_eq. split; [|done].
  rewrite Hv in Hn. injection Hn as ->. done.
Qed.

(** Redirecting the first node of a segment. *)
Lemma dseg_set_prev h p pv l x a q lt pv' v :
  x ∉ l.*1 → dseg h p pv ((x, a) :: l) q lt → h !! x = Some v →
  dseg (<[x := set_prev v pv']> h) p pv' ((x, a) :: l) q lt.
Proof.
  simpl. intros Hx (-> & H0 & nx & Hn & Hs) Hv. split; [done|]. split; [done|].
  exists nx. rewrite lookup_insert_eq. rewrite Hv in Hn. injection Hn as ->.
  split; [done|]. by apply dseg_insert.
Qed.

(** A walk visits at most as many nodes as the heap has. *)
Lemma dseg_size h p pv l q lt :
  NoDup l.*1 → dseg h p pv l q lt → (length l ≤ size h)%nat.
Proof.
  intros Hnd Hs. rewrite <- (length_fmap fst), <- (size_dom (D := gset Z)).
  rewrite <- (size_list_to_set (C := gset Z)) by done.
  apply subseteq_size. intros x Hx%elem_of_list_to_set.
  apply elem_of_dom. by eapply dseg_lookup.
Qed.
End segments.

(** *** Programs on the heap *)

Definition first_ptr (l : list (Z * area)) : Z :=
  match l with [] => 0 | (x, _) :: _ => x end.

Lemma dseg_first h p pv l lt : dseg h p pv l 0 lt → p = first_ptr l.
Proof. destruct l as [|[x a] l]; simpl; naive_solver. Qed.

(** The last node of a segment that starts at the head, or NULL. *)
Lemma dseg_end h p l q lt :
  dseg h p 0 l q lt → (lt = 0 ∧ l = []) ∨ (∃ l' a, l = l' ++ [(lt, a)] ∧ lt ≠ 0).
Proof.
  destruct l as [|[x a] l'] using rev_ind; simpl; [naive_solver|].
  intros (-> & Hx & _)%dseg_last. right. by exists l', a.
Qed.

Section wp_heap.
Context {A : Type} {alloc_A : Allocator A}.
Implicit Types (w : vworld A).

Lemma wp_load p v (Q : vma → vworld A → Prop) w :
  nodes w !! p = Some v → Q v w → wp (load p) Q w.
Proof. intros Hv HQ. unfold load, wp. by rewrite Hv. Qed.

Lemma wp_update p f v (Q : unit → vworld A → Prop) w :
  nodes w !! p = Some v →
  Q tt (MkVW (<[p := f v]> (nodes w)) (head w) (alloc w)) → wp (update p f) Q w.
Proof. intros Hv HQ. apply wp_bind. by eapply wp_load. Qed.

(** Outside the node and the list nothing changes, and no node appears. *)
Definition frame (w w' : vworld A) (ps : list Z) : Prop :=
  (∀ x, x ∉ ps → nodes w' !! x = nodes w !! x) ∧
  (∀ x, is_Some (nodes w' !! x) ↔ is_Some (nodes w !! x)) ∧ alloc w' = alloc w.

Lemma frame_refl w ps : frame w w ps.
Proof. done. Qed.

Lemma frame_trans w1 w2 w3 ps : frame w1 w2 ps → frame w2 w3 ps → frame w1 w3 ps.
Proof.
  intros (H1 & D1 & E1) (H2 & D2 & E2). split; [|split].
  - intros x Hx. by rewrite H2, H1.
  - intros x. by rewrite D2, D1.
  - congruence.
Qed.

Lemma frame_update w x v u ps hd :
  nodes w !! x = Some u → x ∈ ps → frame w (MkVW (<[x := v]> (nodes w)) hd (alloc w)) ps.
Proof.
  intros Hu Hx. split; [|split; [|done]]; simpl.
  - intros y Hy. apply lookup_insert_ne. set_solver.
  - intros y. destruct (decide (y = x)) as [->|]; [|by rewrite lookup_insert_ne].
    rewrite lookup_insert_eq, Hu. by split.
Qed.

Lemma wp_tail_loop n p pv l t b lt w :
  dseg (nodes w) p pv (l ++ [(t, b)]) 0 lt → (length l < n)%nat →
  wp (tail_loop n p) (λ r w', r = t ∧ w' = w) w.
Proof.
  revert n p pv. induction l as [|[x a] l IH]; intros [|n] p pv; simpl; try lia.
  - intros (-> & Hx & nx & Hn & -> & _) _. apply wp_bind. eapply wp_load; [exact Hn|].
    by apply wp_ret.
  - intros (-> & Hx & nx & Hn & Hs) Hl. apply wp_bind. eapply wp_load; [exact Hn|]. simpl.
    assert (nx ≠ 0) as Hnx.
    { destruct l as [|[y c] l]; simpl in Hs; naive_solver. }
    replace (nx =? 0) with false by lia. simpl. eapply IH; [exact Hs|lia].
Qed.

Lemma wp_link_last w l node a lt :
  dseg (nodes w) (head w) 0 l 0 lt → NoDup l.*1 → node ∉ l.*1 → node ≠ 0 →
  nodes w !! node = Some (node_of a 0 0) →
  wp (vma_link_before 0 node) (λ _ w',
    dseg (nodes w') (head w') 0 (l ++ [(node, a)]) 0 node ∧ frame w w' (node :: l.*1)) w.
Proof.
  intros Hs Hnd Hnew Hn0 Hnode. unfold vma_link_before. simpl. apply wp_bind, wp_gets.
  destruct (dseg_end _ _ _ _ _ Hs) as [[-> ->]|(l' & b & -> & Hlt)].
  - destruct Hs as [-> _]. simpl. apply wp_modify. simpl. split; [|done].
    split; [done|]. split; [done|]. by exists 0.
  - rewrite (dseg_first _ _ _ _ _ Hs).
    assert (first_ptr (l' ++ [(lt, b)]) ≠ 0) as Hf.
    { rewrite <- (dseg_first _ _ _ _ _ Hs).
      destruct l' as [|[y c] l']; simpl in Hs; naive_solver. }
    replace (_ =? 0) with false by lia. rewrite <- (dseg_first _ _ _ _ _ Hs).
    apply wp_bind, wp_gets, wp_bind.
    pose proof (dseg_size _ _ _ _ _ _ Hnd Hs) as Hsz. rewrite length_app in Hsz. simpl in Hsz.
    eapply wp_mono; [eapply wp_tail_loop; [exact Hs|lia]|]. intros r ? [-> ->].
    destruct (dseg_last _ _ _ _ _ _ _ _ Hs) as (_ & _ & pv & Ht).
    rewrite fmap_app in Hnd, Hnew. simpl in Hnd, Hnew.
    apply list.NoDup_app in Hnd as (Hnd & Hdis & _).
    assert (lt ∉ l'.*1) as Hlt' by set_solver. assert (lt ≠ node) as Hne by set_solver.
    apply wp_bind. eapply wp_update; [exact Ht|].
    eapply wp_update; [simpl; by rewrite lookup_insert_ne|]. simpl. split.
    + apply dseg_app. exists node, lt. split.
      * apply dseg_insert; [rewrite fmap_app; simpl; set_solver|].
        by eapply dseg_set_next.
      * simpl. split; [done|]. split; [done|]. exists 0. by rewrite lookup_insert_eq.
    + eapply frame_trans; [by eapply (frame_update w lt); [|rewrite fmap_app; set_solver]|].
      eapply (frame_update (MkVW _ (head w) _)); [simpl; by rewrite lookup_insert_ne|set_solver].
Qed.

(** [if (prev != NULL) prev->next = q' else *head = q'] *)
Lemma wp_relink_prev w l q mt q' :
  dseg (nodes w) (head w) 0 l q mt → NoDup l.*1 →
  wp (if negb (mt =? 0) then update mt (λ v, set_next v q') else set_head q')
     (λ _ w', dseg (nodes w') (head w') 0 l q' mt ∧ frame w w' l.*1) w.
Proof.
  intros Hs Hnd. destruct (dseg_end _ _ _ _ _ Hs) as [[-> ->]|(l' & c & -> & Hmt0)].
  - simpl. apply wp_modify. by split.
  - replace (mt =? 0) with false by lia. simpl.
    destruct (dseg_last _ _ _ _ _ _ _ _ Hs) as (_ & _ & pv & Ht).
    rewrite fmap_app in Hnd |- *. apply list.NoDup_app in Hnd as (_ & Hdis & _).
    eapply wp_update; [exact Ht|]. simpl. split.
    + eapply dseg_set_next; [set_solver|exact Hs|exact Ht].
    + eapply frame_update; [exact Ht|set_solver].
Qed.

(** [if (next != NULL) next->prev = pv'] *)
Lemma wp_relink_next w l nx pv pv' lt :
  dseg (nodes w) nx pv l 0 lt → NoDup l.*1 →
  wp (when (negb (nx =? 0)) (update nx (λ v, set_prev v pv')))
     (λ _ w', (∃ lt', dseg (nodes w') nx pv' l 0 lt') ∧ head w' = head w ∧ frame w w' l.*1) w.
Proof.
  intros Hs Hnd. destruct l as [|[x a] l]; simpl in Hs.
  - destruct Hs as [-> ->]. apply wp_ret. split; [by exists pv'|done].
  - pose proof Hs as (-> & Hx & nx' & Hn & _). replace (x =? 0) with false by lia. simpl.
    apply list.NoDup_cons in Hnd as [Hxl _].
    eapply wp_update; [exact Hn|]. split; [|split; [done|]].
    + exists lt. eapply dseg_set_prev; [done|exact Hs|done].
    + eapply frame_update; [exact Hn|set_solver].
Qed.

(** Up to the last store: the node is linked to [x] and [x] back to the node. *)
Lemma dseg_link_middle h hd l1 x b l2 lt m mt node a :
  dseg h hd 0 l1 m mt → dseg h m mt ((x, b) :: l2) 0 lt →
  NoDup (l1 ++ (x, b) :: l2).*1 → node ∉ (l1 ++ (x, b) :: l2).*1 → node ≠ 0 →
  ∃ v, h !! x = Some v ∧ prev v = mt ∧
       let h' := <[x := set_prev v node]> (<[node := node_of a x mt]> h) in
       dseg h' hd 0 l1 m mt ∧ dseg h' node mt ((node, a) :: (x, b) :: l2) 0 lt.
Proof.
  intros Hs1 Hs2 Hnd Hnew Hn0. rewrite fmap_app in Hnd, Hnew. simpl in Hnd, Hnew.
  apply list.NoDup_app in Hnd as (Hnd1 & Hdis & [Hx Hnd2]%list.NoDup_cons).
  assert (x ∉ l1.*1) as Hx1 by set_solver. assert (node ≠ x) as Hne by set_solver.
  pose proof Hs2 as (-> & Hx0 & nx & Hn & Hs3).
  eexists. split; [exact Hn|]. split; [done|]. simpl. split.
  - apply dseg_insert; [done|]. apply dseg_insert; [set_solver|done].
  - split; [done|]. split; [done|]. exists x. rewrite lookup_insert_ne by done.
    rewrite lookup_insert_eq. split; [done|].
    apply (dseg_set_prev _ _ mt); [done| |by rewrite lookup_insert_ne].
    apply dseg_insert; [simpl; set_solver|done].
Qed.

Lemma wp_link_middle w l1 x b l2 node a lt :
  dseg (nodes w) (head w) 0 (l1 ++ (x, b) :: l2) 0 lt → NoDup (l1 ++ (x, b) :: l2).*1 →
  node ∉ (l1 ++ (x, b) :: l2).*1 → node ≠ 0 → nodes w !! node = Some (node_of a 0 0) →
  wp (vma_link_before x node) (λ _ w',
    dseg (nodes w') (head w') 0 (l1 ++ (node, a) :: (x, b) :: l2) 0 lt ∧
    frame w w' (node :: (l1 ++ (x, b) :: l2).*1)) w.
Proof.
  intros Hs Hnd Hnew Hn0 Hnode.
  destruct (proj1 (dseg_app _ _ _ _ _ _ _) Hs) as (m & mt & Hs1 & Hs2).
  destruct (dseg_link_middle _ _ _ _ _ _ _ _ _ node a Hs1 Hs2 Hnd Hnew Hn0)
    as (v & Hx & Hmt & Hl1 & Hl2).
  assert (x ≠ 0) as Hx0 by (simpl in Hs2; tauto).
  assert (node ≠ x) as Hne by (rewrite fmap_app in Hnew; set_solver).
  assert (x ∈ node :: (l1 ++ (x, b) :: l2).*1) as Hxin by (rewrite fmap_app; set_solver).
  unfold vma_link_before. replace (x =? 0) with false by lia.
  apply wp_bind. eapply wp_update; [exact Hnode|].
  apply wp_bind. eapply wp_load; [simpl; by rewrite lookup_insert_ne|].
  apply wp_bind. eapply wp_update; [simpl; by rewrite lookup_insert_eq|].
  apply wp_bind. eapply wp_update; [simpl; by rewrite !lookup_insert_ne|].
  apply wp_bind. eapply wp_load;
    [simpl; by rewrite lookup_insert_ne, lookup_insert_eq|].
  simpl. rewrite Hmt, insert_insert_eq. fold (node_of a x mt).
  set (h' := <[x := _]> _) in *.
  assert (∀ hd, frame w (MkVW h' hd (alloc w)) (node :: (l1 ++ (x, b) :: l2).*1)) as Hfr.
  { intros hd. eapply (frame_trans _ (MkVW (<[node := node_of a x mt]> (nodes w)) hd (alloc w)));
      [eapply frame_update; [exact Hnode|set_solver]|].
    eapply (frame_update (MkVW _ hd _)); [simpl; by rewrite lookup_insert_ne|done]. }
  rewrite fmap_app in Hnd, Hnew. pose proof Hnd as (Hnd1 & Hdis & _)%list.NoDup_app.
  eapply wp_mono; [apply (wp_relink_prev (MkVW h' (head w) (alloc w)) l1 m mt node Hl1 Hnd1)|].
  intros _ w' [Hl1' Hf']. split.
  - apply dseg_app. exists node, mt. split; [done|]. eapply dseg_agree; [|exact Hl2].
    intros y Hy. apply Hf'. set_solver.
  - eapply frame_trans; [apply (Hfr (head w))|]. destruct Hf' as (Hf' & Hdom & Hal).
    split; [|done]. intros y Hy. apply Hf'. rewrite fmap_app in Hy. set_solver.
Qed.

Lemma wp_link_before w l1 l2 node a lt :
  dseg (nodes w) (head w) 0 (l1 ++ l2) 0 lt → NoDup (l1 ++ l2).*1 →
  node ∉ (l1 ++ l2).*1 → node ≠ 0 → nodes w !! node = Some (node_of a 0 0) →
  wp (vma_link_before (first_ptr l2) node) (λ _ w',
    (∃ lt', dseg (nodes w') (head w') 0 (l1 ++ (node, a) :: l2) 0 lt') ∧
    frame w w' (node :: (l1 ++ l2).*1)) w.
Proof.
  destruct l2 as [|[x b] l2]; simpl; intros Hs Hnd Hnew Hn0 Hnode.
  - rewrite !app_nil_r in *. eapply wp_mono; [by eapply wp_link_last|].
    intros _ w' [Hs' Hf]. eauto.
  - eapply wp_mono; [by eapply wp_link_middle|]. intros _ w' [Hs' Hf]. eauto.
Qed.
End wp_heap.

(** *** Lists of areas *)
Section areas.
Implicit Types (l : list area).

Definition before (a b : area) : Prop := a_end a < a_start b.

Lemma areas_ok_app l1 l2 :
  areas_ok (l1 ++ l2) ↔
  areas_ok l1 ∧ areas_ok l2 ∧ ∀ a b, a ∈ l1 → b ∈ l2 → before a b.
Proof.
  unfold areas_ok, before. rewrite Forall_app, StronglySorted_app. tauto.
Qed.

Lemma areas_ok_cons a l :
  areas_ok (a :: l) ↔ area_valid a ∧ areas_ok l ∧ ∀ b, b ∈ l → before a b.
Proof.
  rewrite (areas_ok_app [a] l). unfold areas_ok at 1.
  rewrite list.Forall_singleton. split; [|intros (? & ? & Hb)].
  - intros ([Ha _] & Hl & Hb). split; [done|]. split; [done|]. intros b. apply Hb. set_solver.
  - split; [|split; [done|]]; [split; [done|repeat constructor]|].
    intros ? b ->%list_elem_of_singleton. apply Hb.
Qed.

(** What an address maps to. *)
Fixpoint area_at (l : list area) (x : Z) : option (Z * Z * Z) :=
  match l with
  | [] => None
  | a :: l' =>
      if (a_start a <=? x) && (x <=? a_end a)
      then Some (a_access a, a_flags a, a_offset a) else area_at l' x
  end.

Lemma area_at_app l1 l2 x :
  area_at (l1 ++ l2) x = match area_at l1 x with Some r => Some r | None => area_at l2 x end.
Proof. induction l1 as [|a l1 IH]; simpl; [done|]. by destruct (_ && _). Qed.

Lemma area_at_outside l x :
  (∀ a, a ∈ l → a_end a < x ∨ x < a_start a) → area_at l x = None.
Proof.
  induction l as [|a l IH]; intros Hout; simpl; [done|].
  pose proof (Hout a ltac:(set_solver)).
  replace ((a_start a <=? x) && (x <=? a_end a)) with false by lia.
  apply IH. intros b Hb. apply Hout. set_solver.
Qed.
End areas.

Definition area_overlaps (a : area) (st en : Z) : bool :=
  (a_start a <=? en) && (st <=? a_end a).

Section insert_spec.
Context {A : Type} {alloc_A : Allocator A} {laws_A : AllocatorLaws (2 ^ 61) A}.
Implicit Types (w : vworld A).

Lemma wp_calloc w :
  al_ok (alloc w) → (∀ p, is_Some (nodes w !! p) → is_Some (al_live (alloc w) !! p)) →
  wp slab_calloc_vma (λ p w', head w' = head w ∧ al_ok (alloc w') ∧
    (∀ q, is_Some (nodes w' !! q) → is_Some (al_live (alloc w') !! q)) ∧
    ((p = 0 ∧ nodes w' = nodes w ∧ ∃ a, al_alloc VMA_SIZEOF (alloc w) = Ret (0, a)) ∨
     (p ≠ 0 ∧ nodes w !! p = None ∧ nodes w' = <[p := MkVma 0 0 0 0 0 0 0]> (nodes w)))) w.
Proof using laws_A.
  intros Hok Hlive. unfold slab_calloc_vma, wp.
  destruct (al_alloc_law (alloc w) VMA_SIZEOF Hok) as (p & a & Ha & Hok' & Hp);
    [unfold VMA_SIZEOF; lia|].
  rewrite Ha. orun. simpl. split; [done|]. split; [done|].
  destruct Hp as [[-> Hl]|(k & Hp & _ & _ & Hnone & _ & Hl)]; simpl.
  - rewrite Hl. split; [done|]. left. eauto.
  - replace (p =? 0) with false by lia.
    assert (nodes w !! p = None) as Hn.
    { destruct (nodes w !! p) eqn:E; [|done]. destruct (Hlive p) as [? Hk]; [by rewrite E|].
      by rewrite Hk in Hnone. }
    rewrite Hl. split; [|right; split; [lia|done]]. intros q Hq. cbn [nodes] in Hq.
    destruct (decide (q = p)) as [->|Hne]; [by rewrite lookup_insert_eq|].
    rewrite lookup_insert_ne in Hq by done. rewrite lookup_insert_ne by done. by apply Hlive.
Qed.

Lemma wp_insert_scan n p pv l st lt w :
  dseg (nodes w) p pv l 0 lt → (length l < n)%nat → st < 2 ^ 64 →
  wp (insert_scan n st p) (λ r w', w' = w ∧
    ∃ l1 l2, l = l1 ++ l2 ∧ r = Some (first_ptr l2) ∧ (∀ a, a ∈ l1.*2 → a_end a < st) ∧
      (∀ x a l2', l2 = (x, a) :: l2' → st ≤ a_end a)) w.
Proof.
  revert n p pv. induction l as [|[x a] l IH]; intros [|n] p pv; simpl; try lia.
  - intros [-> ->] _ Hst. apply wp_ret. split; [done|]. exists [], []. set_solver.
  - intros (-> & Hx & nx & Hn & Hs) Hl Hst. replace (x =? 0) with false by lia.
    apply wp_bind. eapply wp_load; [exact Hn|]. simpl.
    destruct (Z.ltb_spec (a_end a) st).
    + replace (a_end a =? UINT64_MAX) with false by (unfold UINT64_MAX; lia).
      eapply wp_mono; [eapply IH; [exact Hs|lia|done]|].
      intros r ? [-> (l1 & l2 & -> & -> & H1 & H2)]. split; [done|].
      exists ((x, a) :: l1), l2. split; [done|]. split; [done|]. split; [|done].
      simpl. intros b [->|Hb]%elem_of_cons; [done|by apply H1].
    + apply wp_ret. split; [done|]. exists [], ((x, a) :: l). split; [done|]. split; [done|].
      split; [set_solver|]. by intros ? ? ? [= <- <- <-].
Qed.

(** The heap outside the nodes of [l] is left alone. *)
Definition untouched w w' (l : list (Z * area)) : Prop :=
  ∀ x, x ∉ l.*1 → nodes w' !! x = nodes w !! x.

Lemma untouched_app w w' l l' : untouched w w' l → untouched w w' (l ++ l').
Proof. intros Hu x Hx. apply Hu. rewrite fmap_app in Hx. set_solver. Qed.

Lemma rep_fuel w l : vma_rep w l → (length l < S (size (nodes w)))%nat.
Proof. intros [[lt Hs] Hnd _ _ _]. pose proof (dseg_size _ _ _ _ _ _ Hnd Hs). lia. Qed.

Lemma rep_fresh w l p : vma_rep w l → nodes w !! p = None → p ∉ l.*1.
Proof.
  intros [[lt Hs] _ _ _ _] Hn Hp. destruct (dseg_lookup _ _ _ _ _ _ _ Hs Hp) as [Hx _].
  rewrite Hn in Hx. by destruct Hx.
Qed.

Lemma nodup_middle (l1 l2 : list (Z * area)) p a :
  NoDup (l1 ++ l2).*1 → p ∉ (l1 ++ l2).*1 → NoDup (l1 ++ (p, a) :: l2).*1.
Proof.
  rewrite !fmap_app. simpl. rewrite !list.NoDup_app, list.NoDup_cons. set_solver.
Qed.

(** Linking a fresh node with area [a] between [l1] and [l2]. *)
Lemma wp_link_new w w1 l1 l2 p a :
  vma_rep w (l1 ++ l2) → p ≠ 0 → nodes w !! p = None →
  nodes w1 = <[p := node_of a 0 0]> (nodes w) → head w1 = head w → al_ok (alloc w1) →
  (∀ q, is_Some (nodes w1 !! q) → is_Some (al_live (alloc w1) !! q)) →
  areas_ok (l1 ++ (p, a) :: l2).*2 →
  wp (vma_link_before (first_ptr l2) p)
     (λ _ w', vma_rep w' (l1 ++ (p, a) :: l2) ∧ untouched w w' (l1 ++ (p, a) :: l2)) w1.
Proof.
  intros Hrep Hp0 Hfresh Hnodes Hhd Hok Hlive Har.
  pose proof (rep_fresh w _ p Hrep Hfresh) as Hpn.
  destruct Hrep as [[lt Hs] Hnd _ _ _].
  assert (dseg (nodes w1) (head w1) 0 (l1 ++ l2) 0 lt) as Hs1
    by (rewrite Hnodes, Hhd; by apply dseg_insert).
  eapply wp_mono; [eapply wp_link_before; [exact Hs1|done..|by rewrite Hnodes, lookup_insert_eq]|].
  intros _ w' [[lt' Hs'] (Hfr & Hdom & Hal)]. split.
  - split; [by exists lt'|by apply nodup_middle|done|by rewrite Hal|].
    intros q Hq%Hdom. rewrite Hal. by apply Hlive.
  - intros x Hx. rewrite fmap_app, fmap_cons in Hx. cbn [fst] in Hx.
    rewrite Hfr by (rewrite fmap_app; set_solver). rewrite Hnodes.
    apply lookup_insert_ne. set_solver.
Qed.

Lemma overlap_test w l1 l2 st en lt :
  dseg (nodes w) (head w) 0 (l1 ++ l2) 0 lt →
  wp (if first_ptr l2 =? 0 then mret false
      else c ← load (first_ptr l2); mret (vma_overlaps c st en))
     (λ b w', w' = w ∧ b = match l2 with [] => false | (_, a) :: _ => area_overlaps a st en end) w.
Proof.
  intros (m & mt & _ & Hs)%dseg_app. destruct l2 as [|[x a] l2]; simpl in *; [by apply wp_ret|].
  destruct Hs as (-> & Hx & nx & Hn & _). replace (x =? 0) with false by lia.
  apply wp_bind. eapply wp_load; [exact Hn|]. by apply wp_ret.
Qed.

(** Where an area goes: above everything that ends before it, below the rest. *)
Lemma areas_insert l1 l2 st en acc fl off :
  areas_ok (l1 ++ l2) → vma_range_valid st en = true → is_u64 st → is_u64 en →
  (∀ a, a ∈ l1 → a_end a < st) → (∀ a, a ∈ l2 → en < a_start a) →
  areas_ok (l1 ++ Area st en acc fl off :: l2).
Proof.
  intros (H1 & H2 & H12)%areas_ok_app Hv Hst Hen Hlo Hhi.
  apply areas_ok_app. split; [done|]. split.
  - apply areas_ok_cons. split; [|split; [done|]; intros b Hb; by apply Hhi].
    unfold area_valid. simpl. unfold is_u64 in *. split; [|split; [lia|done]].
    unfold vma_range_valid in Hv. destruct (Z.ltb_spec en st); [done|lia].
  - intros a b Ha [->|Hb]%elem_of_cons; [by apply Hlo|by apply H12].
Qed.

(** A sorted list whose first area ends at or after [st] and does not meet
    [st..en] lies above it. *)
Lemma areas_above a l st en :
  areas_ok (a :: l) → st ≤ a_end a → area_overlaps a st en = false →
  ∀ b, b ∈ a :: l → en < a_start b.
Proof.
  intros ((Hv & _ & _) & Hl & Hb)%areas_ok_cons Hst Hov b [->|Hin]%elem_of_cons;
    unfold area_overlaps in Hov; [lia|].
  specialize (Hb b Hin). unfold before in Hb. lia.
Qed.

(** Why an insertion is refused. *)
Definition insert_refused w (l : list (Z * area)) (st en : Z) : Prop :=
  vma_range_valid st en = false ∨
  (∃ a, a ∈ l.*2 ∧ area_overlaps a st en = true) ∨
  (∃ a, al_alloc VMA_SIZEOF (alloc w) = Ret (0, a)).

Definition insert_post w l st en acc fl off (b : bool) w' : Prop :=
  if b then
    vma_range_valid st en = true ∧ (∀ a, a ∈ l.*2 → area_overlaps a st en = false) ∧
    ∃ p l1 l2, l = l1 ++ l2 ∧ nodes w !! p = None ∧
               vma_rep w' (l1 ++ (p, Area st en acc fl off) :: l2) ∧
               untouched w w' (l1 ++ (p, Area st en acc fl off) :: l2)
  else
    vma_rep w' l ∧ insert_refused w l st en ∧ nodes w' = nodes w ∧ head w' = head w.

Lemma wp_vma_insert w l st en acc fl off :
  vma_rep w l → is_u64 st → is_u64 en →
  wp (vma_insert true st en acc fl off) (insert_post w l st en acc fl off) w.
Proof using laws_A.
  intros Hrep Hst Hen. pose proof (rep_fuel _ _ Hrep) as Hfuel.
  unfold vma_insert. cbn [negb orb].
  destruct (vma_range_valid st en) eqn:Hv; cbn [negb].
  2:{ apply wp_ret. split; [done|]. split; [by left|done]. }
  apply wp_bind, wp_gets, wp_bind, wp_gets, wp_bind.
  destruct (Hrep) as [[lt Hs] Hnd Har Hok Hlive].
  eapply wp_mono; [eapply wp_insert_scan; [exact Hs|done|apply Hst]|].
  intros r ? [-> (l1 & l2 & -> & -> & Hlo & Hhi)].
  apply wp_bind. eapply wp_mono; [by eapply overlap_test|]. intros ov ? [-> ->].
  rewrite fmap_app in Har. pose proof Har as (_ & Har2 & _)%areas_ok_app.
  destruct (match l2 with [] => _ | _ => _ end) eqn:Hov.
  { apply wp_ret. split; [done|]. split; [|done]. right. left.
    destruct l2 as [|[x a] l2]; [done|]. exists a. rewrite fmap_app. set_solver. }
  assert (∀ a, a ∈ l2.*2 → en < a_start a) as Habove.
  { destruct l2 as [|[x a] l2]; [set_solver|].
    rewrite fmap_cons in Har2 |- *. cbn [snd] in Har2 |- *.
    apply (areas_above a l2.*2 st); [done| |done]. by eapply Hhi. }
  apply wp_bind. eapply wp_mono; [by apply wp_calloc|].
  intros p w1 (Hhd & Hok1 & Hl1 & [(-> & Hn1 & Hfail)|(Hp & Hfresh & Hn1)]).
  { simpl. apply wp_ret. split.
    - split; rewrite ?Hn1, ?Hhd, ?fmap_app; try done; [by exists lt|by rewrite <- fmap_app|].
      intros q Hq. apply Hl1. by rewrite Hn1.
    - split; [|done]. right. by right. }
  replace (p =? 0) with false by lia.
  apply wp_bind. eapply wp_update; [by rewrite Hn1, lookup_insert_eq|].
  apply wp_bind. rewrite Hn1, insert_insert_eq. cbn [next prev].
  eapply wp_mono; [eapply (wp_link_new w _ l1 l2 p (Area st en acc fl off)); try done|].
  - cbn [nodes alloc]. intros q Hq. apply Hl1. rewrite Hn1.
    destruct (decide (q = p)) as [->|]; [by rewrite lookup_insert_eq|].
    rewrite lookup_insert_ne in Hq |- * by done. done.
  - rewrite fmap_app. by apply areas_insert.
  - intros _ w' [Hrep' Hun]. apply wp_ret. split; [done|]. split.
    + intros a. rewrite fmap_app. intros [Ha|Ha]%elem_of_app; unfold area_overlaps;
        [specialize (Hlo a Ha)|specialize (Habove a Ha)]; lia.
    + exists p, l1, l2. split_and!; done.
Qed.
End insert_spec.

Section remove_spec.
Context {A : Type} {alloc_A : Allocator A} {laws_A : AllocatorLaws (2 ^ 61) A}.
Implicit Types (w : vworld A).

Lemma wp_free w p (Q : unit → vworld A → Prop) :
  al_ok (alloc w) → is_Some (al_live (alloc w) !! p) →
  (∀ a, al_ok a → al_live a = delete p (al_live (alloc w)) →
        Q tt (MkVW (delete p (nodes w)) (head w) a)) →
  wp (slab_free_vma p) Q w.
Proof using laws_A.
  intros Hok [n Hp] HQ. unfold slab_free_vma, wp.
  destruct (al_free_law (alloc w) p n Hok Hp) as (a & -> & Hok' & Hl). orun. by apply HQ.
Qed.

Lemma wp_vma_unlink w l1 x a l2 :
  vma_rep w (l1 ++ (x, a) :: l2) →
  wp (vma_unlink x) (λ _ w', vma_rep w' (l1 ++ l2) ∧ untouched w w' (l1 ++ (x, a) :: l2)) w.
Proof using laws_A.
  intros [[lt Hs] Hnd Har Hok Hlive].
  apply dseg_app in Hs as (m & mt & Hs1 & Hs2).
  rewrite fmap_app in Hnd. apply list.NoDup_app in Hnd as (Hnd1 & Hdis & [Hx Hnd2]%list.NoDup_cons).
  assert (x ∉ l1.*1) as Hx1 by set_solver.
  pose proof Hs2 as (-> & Hx0 & nx & Hn & Hs3).
  unfold vma_unlink. apply wp_bind. eapply wp_load; [exact Hn|]. cbn [node_of prev next].
  apply wp_bind. eapply wp_mono; [by eapply wp_relink_prev|]. intros _ w1 [Hs1' (Hf1 & Hd1 & Ha1)].
  assert (nodes w1 !! x = Some (node_of a nx mt)) as Hn1 by (by rewrite Hf1).
  apply wp_bind. eapply wp_load; [exact Hn1|]. cbn [node_of prev next].
  assert (dseg (nodes w1) nx x l2 0 lt) as Hs3'
    by (eapply dseg_agree; [|exact Hs3]; intros y Hy; apply Hf1; set_solver).
  apply wp_bind. eapply wp_mono; [by eapply (wp_relink_next w1 l2 nx x mt)|].
  intros _ w2 ([lt' Hs4] & Hh2 & Hf2 & Hd2 & Ha2).
  assert (∀ y, is_Some (nodes w2 !! y) ↔ is_Some (nodes w !! y)) as Hd by (intros y; by rewrite Hd2, Hd1).
  apply wp_free; [by rewrite Ha2, Ha1|rewrite Ha2, Ha1; apply Hlive; by rewrite Hn|].
  intros al Hok' Hl'. split.
  - split; cbn [nodes head alloc]; try done.
    + exists lt'. apply dseg_app. exists nx, mt. rewrite Hh2.
      split; apply dseg_delete; try done.
      eapply dseg_agree; [|exact Hs1']. intros y Hy. apply Hf2. set_solver.
    + rewrite fmap_app. apply list.NoDup_app. set_solver.
    + rewrite fmap_app in Har |- *. apply areas_ok_app in Har as (? & [_ [? _]]%areas_ok_cons & Hb).
      apply areas_ok_app. set_solver.
    + intros q Hq. rewrite Hl', Ha2, Ha1.
      destruct (decide (q = x)) as [->|Hne]; [by rewrite lookup_delete_eq in Hq; destruct Hq|].
      rewrite lookup_delete_ne in Hq by done. rewrite lookup_delete_ne by done.
      apply Hlive. by apply Hd.
  - intros y Hy. rewrite fmap_app in Hy. cbn [nodes]. rewrite lookup_delete_ne by set_solver.
    rewrite Hf2, Hf1 by set_solver. done.
Qed.

Lemma wp_remove_scan n p pv l st lt w :
  dseg (nodes w) p pv l 0 lt → (length l < n)%nat →
  wp (remove_scan n st p) (λ r w', w' = w ∧
    ∃ l1 l2, l = l1 ++ l2 ∧ r = first_ptr l2 ∧ (∀ a, a ∈ l1.*2 → a_end a < st) ∧
      (∀ x a l2', l2 = (x, a) :: l2' → st ≤ a_end a)) w.
Proof.
  revert n p pv. induction l as [|[x a] l IH]; intros [|n] p pv; simpl; try lia.
  - intros [-> ->] _. apply wp_ret. split; [done|]. exists [], []. set_solver.
  - intros (-> & Hx & nx & Hn & Hs) Hl. replace (x =? 0) with false by lia.
    apply wp_bind. eapply wp_load; [exact Hn|]. simpl.
    destruct (Z.ltb_spec (a_end a) st).
    + eapply wp_mono; [eapply IH; [exact Hs|lia]|].
      intros r ? [-> (l1 & l2 & -> & -> & H1 & H2)]. split; [done|].
      exists ((x, a) :: l1), l2. split; [done|]. split; [done|]. split; [|done].
      simpl. intros b [->|Hb]%elem_of_cons; [done|by apply H1].
    + apply wp_ret. split; [done|]. exists [], ((x, a) :: l). split; [done|]. split; [done|].
      split; [set_solver|]. by intros ? ? ? [= <- <- <-].
Qed.

(** Giving a node another area that lies within its own. *)
Lemma rep_retarget w l1 x a l2 a' v :
  vma_rep w (l1 ++ (x, a) :: l2) → areas_ok (l1 ++ (x, a') :: l2).*2 →
  nodes w !! x = Some v →
  let w' := MkVW (<[x := node_of a' (next v) (prev v)]> (nodes w)) (head w) (alloc w) in
  vma_rep w' (l1 ++ (x, a') :: l2) ∧ untouched w w' (l1 ++ (x, a) :: l2).
Proof.
  intros [[lt Hs] Hnd Har Hok Hlive] Har' Hv w'. split.
  - split; cbn [w' nodes head alloc]; try done.
    + exists lt. apply dseg_app in Hs as (m & mt & Hs1 & Hs2).
      rewrite fmap_app in Hnd. apply list.NoDup_app in Hnd as (_ & Hdis & [Hx _]%list.NoDup_cons).
      apply dseg_app. exists m, mt. split; [apply dseg_insert; [set_solver|done]|].
      destruct Hs2 as (-> & Hx0 & nx & Hn & Hs3). rewrite Hv in Hn. injection Hn as ->.
      split; [done|]. split; [done|]. exists nx. rewrite lookup_insert_eq. split; [done|].
      by apply dseg_insert.
    + by rewrite fmap_app in Hnd |- *.
    + intros q Hq. apply Hlive. destruct (decide (q = x)) as [->|]; [by rewrite Hv|].
      by rewrite lookup_insert_ne in Hq.
  - intros y Hy. cbn [w' nodes]. rewrite fmap_app in Hy. apply lookup_insert_ne. set_solver.
Qed.

(** What remains of [a] without [st..en]. *)
Definition with_end (a : area) (e : Z) : area :=
  Area (a_start a) e (a_access a) (a_flags a) (a_offset a).
Definition with_start (a : area) (s : Z) : area :=
  Area s (a_end a) (a_access a) (a_flags a) (a_offset a).
Definition area_cut (a : area) (st en : Z) : list area :=
  (if a_start a <? st then [with_end a (st - 1)] else []) ++
  (if en <? a_end a then [with_start a (en + 1)] else []).

(** Only the area that holds [st] is cut; nothing happens when [st] is free. *)
Fixpoint remove_areas (st en : Z) (l : list area) : list area :=
  match l with
  | [] => []
  | a :: l' =>
      if a_end a <? st then a :: remove_areas st en l'
      else if st <? a_start a then a :: l'
      else area_cut a st en ++ l'
  end.

Lemma remove_areas_skip st en l1 l2 :
  (∀ a, a ∈ l1 → a_end a < st) → remove_areas st en (l1 ++ l2) = l1 ++ remove_areas st en l2.
Proof.
  induction l1 as [|a l1 IH]; intros Hlo; simpl; [done|].
  replace (a_end a <? st) with true by (specialize (Hlo a ltac:(set_solver)); lia).
  rewrite IH; [done|]. intros b Hb. apply Hlo. set_solver.
Qed.

Lemma range_valid_spec st en :
  vma_range_valid st en = true ↔
  st ≤ en ∧ page_aligned st = true ∧ page_aligned (u64 (en + 1)) = true.
Proof.
  unfold vma_range_valid. destruct (Z.ltb_spec en st), (page_aligned st),
    (page_aligned (u64 (en + 1))); simpl; intuition (done || lia).
Qed.

(** The two pieces of a cut area are areas again. *)
Lemma area_cut_valid a st en :
  area_valid a → vma_range_valid st en = true → is_u64 st → is_u64 en →
  a_start a ≤ st ≤ a_end a →
  (a_start a < st → area_valid (with_end a (st - 1))) ∧
  (en < a_end a → area_valid (with_start a (en + 1))).
Proof.
  intros (Hr & Hm & (_ & Hs & He)%range_valid_spec) (Hse & Hst & Hen)%range_valid_spec Hu Hv Hin.
  unfold area_valid, is_u64 in *. cbn [with_end with_start a_start a_end].
  split; intros Hlt; (split; [lia|split; [lia|]]); apply range_valid_spec; (split; [lia|]).
  - split; [done|]. replace (st - 1 + 1) with st by lia. by rewrite u64_small by (unfold is_u64; lia).
  - split; [|done]. by rewrite u64_small in Hen by (unfold is_u64; lia).
Qed.

Lemma areas_ok_shrink l1 a l2 b :
  areas_ok (l1 ++ a :: l2) → area_valid b → a_start a ≤ a_start b → a_end b ≤ a_end a →
  areas_ok (l1 ++ b :: l2).
Proof.
  intros (H1 & (Ha & H2 & Hb)%areas_ok_cons & H12)%areas_ok_app Hv Hlo Hhi.
  apply areas_ok_app. split; [done|]. split.
  - apply areas_ok_cons. split; [done|]. split; [done|]. intros c Hc.
    specialize (Hb c Hc). unfold before in *. lia.
  - intros c d Hc [->|Hd]%elem_of_cons; [|apply H12; set_solver].
    specialize (H12 c a Hc ltac:(set_solver)). unfold before in *. lia.
Qed.

Definition remove_post w l st en (b : bool) w' : Prop :=
  if b then
    vma_range_valid st en = true ∧
    ∃ l', vma_rep w' l' ∧ l'.*2 = remove_areas st en l.*2 ∧ untouched w w' (l ++ l')
  else
    vma_rep w' l ∧ nodes w' = nodes w ∧ head w' = head w ∧
    (vma_range_valid st en = false ∨ ∃ a, al_alloc VMA_SIZEOF (alloc w) = Ret (0, a)).

(** The cut of the area that holds [st], once the scan has found it. *)
Section cut.
Context (w : vworld A) (l1 l2 : list (Z * area)) (x : Z) (a : area) (st en : Z).
Let l := l1 ++ (x, a) :: l2.
Context (Hrep : vma_rep w l) (Hst : is_u64 st) (Hen : is_u64 en).
Context (Hv : vma_range_valid st en = true) (Hin : a_start a ≤ st ≤ a_end a).
Context (Hlo : ∀ b, b ∈ l1.*2 → a_end b < st).

Lemma cut_areas : areas_ok (l1.*2 ++ a :: l2.*2) ∧ area_valid a.
Proof using Hrep.
  pose proof (vr_areas _ _ Hrep) as Har. unfold l in Har. rewrite fmap_app, fmap_cons in Har.
  split; [done|]. by apply areas_ok_app in Har as (_ & [? _]%areas_ok_cons & _).
Qed.

(** The post-condition from the new list. *)
Lemma cut_post w' l1' : untouched w w' (l ++ l1') → vma_rep w' l1' →
  l1'.*2 = l1.*2 ++ area_cut a st en ++ l2.*2 → remove_post w l st en true w'.
Proof using laws_A Hv Hin Hlo.
  intros Hun Hr Heq. split; [done|]. exists l1'. split; [done|]. split; [|done].
  unfold l. rewrite fmap_app, fmap_cons, remove_areas_skip by done. cbn [remove_areas snd].
  replace (a_end a <? st) with false by lia. by replace (st <? a_start a) with false by lia.
Qed.

(** The node's area is replaced by one of its two pieces. *)
Lemma wp_trim a' f :
  area_valid a' → a_start a ≤ a_start a' → a_end a' ≤ a_end a →
  (∀ v, start v = a_start a → end_ v = a_end a → access v = a_access a → flags v = a_flags a →
        offset v = a_offset a → f v = node_of a' (next v) (prev v)) →
  [a'] = area_cut a st en →
  wp (_ ← update x f; mret true) (remove_post w l st en) w.
Proof using laws_A Hrep Hv Hin Hlo.
  intros Ha' Hs He Hf Hcut. pose proof cut_areas as [Har _].
  destruct (vr_list _ _ Hrep) as [lt Hd]. unfold l in Hd.
  apply dseg_app in Hd as (m & mt & _ & _ & Hx0 & nx & Hn & _).
  apply wp_bind. eapply wp_update; [exact Hn|]. apply wp_ret.
  assert (areas_ok (l1 ++ (x, a') :: l2).*2) as Har'
    by (rewrite fmap_app; by eapply areas_ok_shrink).
  destruct (rep_retarget w l1 x a l2 a' _ Hrep Har' Hn) as [Hr Hun].
  rewrite Hf by done. eapply cut_post; [by apply untouched_app|exact Hr|].
  by rewrite <- Hcut, fmap_app.
Qed.

(** The two pieces, in the order the code links them. *)
Lemma cut_two_areas :
  a_start a < st → en < a_end a →
  areas_ok (l1.*2 ++ with_end a (st - 1) :: l2.*2) ∧
  areas_ok (l1.*2 ++ with_end a (st - 1) :: with_start a (en + 1) :: l2.*2).
Proof using laws_A Hrep Hst Hen Hv Hin Hlo.
  intros Hs He. pose proof cut_areas as [Har Ha].
  destruct (area_cut_valid a st en Ha Hv Hst Hen Hin) as [Hv1 Hv2].
  assert (areas_ok (l1.*2 ++ with_end a (st - 1) :: l2.*2)) as Hok1
    by (eapply areas_ok_shrink; [exact Har|by apply Hv1|simpl; lia..]).
  pose proof (proj1 (range_valid_spec st en) Hv) as (Hse & _).
  split; [done|]. apply areas_ok_app in Hok1 as (H1 & (Hw & H2 & Hb)%areas_ok_cons & H12).
  apply areas_ok_app in Har as (_ & (_ & _ & Hb')%areas_ok_cons & H12').
  apply areas_ok_app. split; [done|]. split.
  - apply areas_ok_cons. split; [done|]. split.
    + apply areas_ok_cons. split; [by apply Hv2|]. split; [done|]. intros b Hbl. by apply Hb'.
    + unfold before. simpl. intros b [->|Hbl]%elem_of_cons; [simpl; lia|by apply Hb].
  - unfold before. intros b c Hbl [->|[->|Hc]%elem_of_cons]%elem_of_cons.
    + apply H12; set_solver.
    + specialize (H12' b a Hbl ltac:(set_solver)). unfold before in H12'. simpl. lia.
    + apply H12'; set_solver.
Qed.

Lemma wp_split_link p w1 :
  a_start a < st → en < a_end a → p ≠ 0 → nodes w !! p = None →
  nodes w1 = <[p := MkVma 0 0 0 0 0 0 0]> (nodes w) → head w1 = head w → al_ok (alloc w1) →
  (∀ q, is_Some (nodes w1 !! q) → is_Some (al_live (alloc w1) !! q)) →
  wp (_ ← update p (λ v, MkVma (u64 (en + 1)) (a_end a) (a_access a) (a_flags a)
                           (a_offset a) (next v) (prev v));
      _ ← update x (λ v, set_end v (u64 (st - 1)));
      c ← load x;
      _ ← vma_link_before (next c) p;
      mret true) (remove_post w l st en) w1.
Proof using laws_A Hrep Hst Hen Hv Hin Hlo.
  intros Hs He Hp Hfresh Hn1 Hhd Hok1 Hl1.
  pose proof cut_areas as [Har Ha]. destruct (cut_two_areas Hs He) as [Har1 Har2].
  assert (u64 (en + 1) = en + 1 ∧ u64 (st - 1) = st - 1) as [Hu1 Hu2].
  { destruct Ha as (? & ? & _). unfold is_u64 in *. split; apply u64_small; unfold is_u64; lia. }
  destruct (vr_list _ _ Hrep) as [lt Hd]. unfold l in Hd.
  apply dseg_app in Hd as (m & mt & _ & _ & Hx0 & nx & Hn & Hs2).
  rewrite (dseg_first _ _ _ _ _ Hs2) in Hn.
  assert (p ≠ x) as Hne by (intros ->; congruence).
  apply wp_bind. eapply wp_update; [by rewrite Hn1, lookup_insert_eq|].
  rewrite Hn1, insert_insert_eq. cbn [nodes head alloc next prev].
  apply wp_bind. eapply wp_update; [cbn [nodes]; by rewrite lookup_insert_ne|].
  apply wp_bind. eapply wp_load; [cbn [nodes]; by rewrite lookup_insert_eq|].
  cbn [nodes head alloc set_end node_of start end_ access flags offset next prev].
  rewrite Hu1, Hu2, insert_insert_ne by done.
  (* the state with the shortened area, as if it had been there before *)
  assert (areas_ok (l1 ++ (x, with_end a (st - 1)) :: l2).*2) as Har3 by (by rewrite fmap_app).
  destruct (rep_retarget w l1 x a l2 (with_end a (st - 1)) _ Hrep Har3 Hn) as [Hr1 Hun1]. cbn [next prev node_of] in Hr1, Hun1.
  set (w0 := MkVW _ _ _) in Hr1, Hun1.
  replace (l1 ++ (x, with_end a (st - 1)) :: l2)
    with ((l1 ++ [(x, with_end a (st - 1))]) ++ l2) in Hr1 by (by rewrite <- (assoc app)).
  apply wp_bind. eapply wp_mono.
  - eapply (wp_link_new w0 _ (l1 ++ [(x, with_end a (st - 1))]) l2 p (with_start a (en + 1)));
      try done; cbn [w0 nodes head alloc]; try done.
    + by rewrite lookup_insert_ne.
    + intros q Hq. apply Hl1. rewrite Hn1.
      destruct (decide (q = p)) as [->|]; [by rewrite lookup_insert_eq|].
      rewrite !lookup_insert_ne in Hq |- * by done.
      destruct (decide (q = x)) as [->|]; [by rewrite Hn|by rewrite lookup_insert_ne in Hq].
    + by rewrite !fmap_app, <- (assoc app).
  - intros _ w' [Hr' Hun']. apply wp_ret. eapply cut_post; [|exact Hr'|].
    + intros y Hy. rewrite (fmap_app fst l) in Hy. apply not_elem_of_app in Hy as [Hy1 Hy2].
      rewrite (Hun' y Hy2). by apply Hun1.
    + rewrite !fmap_app, <- !(assoc app). unfold area_cut.
      replace (a_start a <? st) with true by lia. by replace (en <? a_end a) with true by lia.
Qed.

Lemma wp_split :
  a_start a < st → en < a_end a →
  wp (split ← slab_calloc_vma;
      if split =? 0 then mret false
      else
        _ ← update split (λ v, MkVma (u64 (en + 1)) (a_end a) (a_access a) (a_flags a)
                                 (a_offset a) (next v) (prev v));
        _ ← update x (λ v, set_end v (u64 (st - 1)));
        c ← load x;
        _ ← vma_link_before (next c) split;
        mret true) (remove_post w l st en) w.
Proof using laws_A Hrep Hst Hen Hv Hin Hlo.
  intros Hs He. apply wp_bind. eapply wp_mono; [apply wp_calloc; apply Hrep|].
  intros p w1 (Hhd & Hok1 & Hl1 & [(-> & Hn1 & Hfail)|(Hp & Hfresh & Hn1)]).
  - simpl. apply wp_ret.
    split; [|split; [done|split; [done|by right]]].
    destruct Hrep as [? ? ? ? ?]. split; rewrite ?Hn1, ?Hhd; try done.
    intros q Hq. apply Hl1. by rewrite Hn1.
  - replace (p =? 0) with false by lia. by apply wp_split_link.
Qed.

(** The four cases of the cut. *)
Lemma wp_cut :
  let remove_end := if en <? a_end a then en else a_end a in
  wp (if (st =? a_start a) && (remove_end =? a_end a) then
        _ ← vma_unlink x; mret true
      else if st =? a_start a then
        _ ← update x (λ v, set_start v (u64 (remove_end + 1))); mret true
      else if remove_end =? a_end a then
        _ ← update x (λ v, set_end v (u64 (st - 1))); mret true
      else
        split ← slab_calloc_vma;
        if split =? 0 then mret false
        else
          _ ← update split (λ v, MkVma (u64 (remove_end + 1)) (a_end a) (a_access a) (a_flags a)
                                   (a_offset a) (next v) (prev v));
          _ ← update x (λ v, set_end v (u64 (st - 1)));
          c ← load x;
          _ ← vma_link_before (next c) split;
          mret true) (remove_post w l st en) w.
Proof using laws_A Hrep Hst Hen Hv Hin Hlo.
  intros r. pose proof cut_areas as [Har Ha].
  destruct (area_cut_valid a st en Ha Hv Hst Hen Hin) as [Hv1 Hv2].
  assert (en < a_end a → r = en) as Hr1 by (unfold r; destruct (Z.ltb_spec en (a_end a)); lia).
  assert (r = a_end a ↔ a_end a ≤ en) as Hr2 by (unfold r; destruct (Z.ltb_spec en (a_end a)); lia).
  assert (en < a_end a → u64 (en + 1) = en + 1) as Hu1.
  { destruct Ha as (? & ? & _). unfold is_u64 in *. intros. apply u64_small. unfold is_u64. lia. }
  assert (a_start a < st → u64 (st - 1) = st - 1) as Hu2.
  { destruct Ha as (? & ? & _). unfold is_u64 in *. intros. apply u64_small. unfold is_u64. lia. }
  destruct (Z.eqb_spec st (a_start a)) as [Es|Es], (Z.eqb_spec r (a_end a)) as [Er|Er]; cbn [andb].
  - apply wp_bind. eapply wp_mono; [by apply wp_vma_unlink|]. intros _ w' [Hr' Hun'].
    apply wp_ret. eapply cut_post; [by apply untouched_app|exact Hr'|]. rewrite fmap_app. unfold area_cut.
    replace (a_start a <? st) with false by lia. by replace (en <? a_end a) with false by lia.
  - rewrite Hr1, Hu1 by lia. apply (wp_trim (with_start a (en + 1))); [apply Hv2; lia|simpl..].
    + apply range_valid_spec in Hv. lia.
    + lia.
    + intros v _ Hve Hva Hvf Hvo. unfold set_start, node_of, with_start. simpl. by rewrite Hve, Hva, Hvf, Hvo.
    + unfold area_cut. replace (a_start a <? st) with false by lia.
      by replace (en <? a_end a) with true by lia.
  - rewrite Hu2 by lia. apply (wp_trim (with_end a (st - 1))); [apply Hv1; lia|simpl..].
    + lia.
    + lia.
    + intros v Hvs _ Hva Hvf Hvo. unfold set_end, node_of, with_end. simpl. by rewrite Hvs, Hva, Hvf, Hvo.
    + unfold area_cut. replace (a_start a <? st) with true by lia.
      by replace (en <? a_end a) with false by lia.
  - rewrite Hr1 by lia. apply wp_split; lia.
Qed.
End cut.

Lemma wp_vma_remove w l st en :
  vma_rep w l → is_u64 st → is_u64 en →
  wp (vma_remove true st en) (remove_post w l st en) w.
Proof using laws_A.
  intros Hrep Hst Hen. pose proof (rep_fuel _ _ Hrep) as Hfuel.
  unfold vma_remove. cbn [negb orb].
  destruct (vma_range_valid st en) eqn:Hv; cbn [negb].
  2:{ apply wp_ret. split; [done|]. split; [done|]. split; [done|by left]. }
  apply wp_bind, wp_gets, wp_bind, wp_gets, wp_bind.
  destruct (vr_list _ _ Hrep) as [lt Hs].
  eapply wp_mono; [eapply wp_remove_scan; [exact Hs|done]|].
  intros r ? [-> (l1 & l2 & -> & -> & Hlo & Hhi)].
  assert (remove_areas st en (l1 ++ l2).*2 = (l1 ++ l2).*2 → remove_post w (l1 ++ l2) st en true w)
    as Hnoop by (intros Heq; split; [done|]; exists (l1 ++ l2); split_and!; done).
  destruct l2 as [|[x a] l2].
  { simpl. apply wp_ret, Hnoop. by rewrite fmap_app, remove_areas_skip. }
  apply dseg_app in Hs as (m & mt & _ & _ & Hx0 & nx & Hn & _). simpl.
  replace (x =? 0) with false by lia. apply wp_bind. eapply wp_load; [exact Hn|].
  cbn [node_of start end_ access flags offset].
  specialize (Hhi x a l2 eq_refl).
  destruct (Z.ltb_spec st (a_start a)).
  { apply wp_ret, Hnoop. rewrite fmap_app, remove_areas_skip by done. simpl.
    replace (a_end a <? st) with false by lia. by replace (st <? a_start a) with true by lia. }
  assert (a_start a ≤ st ≤ a_end a) as Hin by lia.
  by apply wp_cut.
Qed.
End remove_spec.

(** *** Clearing and copying *)
Section copy_spec.
Context {A : Type} {alloc_A : Allocator A} {laws_A : AllocatorLaws (2 ^ 61) A}.
Implicit Types (w : vworld A).

(** The allocator side of [vma_rep]. *)
Definition heap_ok w : Prop :=
  al_ok (alloc w) ∧
  ∀ p, is_Some (nodes w !! p) → is_Some (al_live (alloc w) !! p).

Lemma rep_heap_ok w l : vma_rep w l → heap_ok w.
Proof. intros [_ _ _ ? ?]. by split. Qed.

(** All nodes of [l] are gone, and no other. *)
Definition cleared w w' (l : list (Z * area)) : Prop :=
  head w' = 0 ∧ heap_ok w' ∧ untouched w w' l ∧ ∀ x, x ∈ l.*1 → nodes w' !! x = None.

Lemma wp_vma_clear_loop n pv l lt w :
  dseg (nodes w) (head w) pv l 0 lt → NoDup l.*1 → heap_ok w → (length l < n)%nat →
  wp (clear_loop n) (λ _ w', cleared w w' l) w.
Proof using laws_A.
  revert n pv w. induction l as [|[x a] l IH]; intros [|n] pv w; simpl; try lia;
    intros Hs Hnd Hok Hn; apply wp_bind, wp_gets.
  { destruct Hs as [Hh _]. rewrite Hh. apply wp_ret. split; [done|]. split; [done|].
    split; [done|]. simpl. set_solver. }
  destruct Hs as (-> & Hx & nx & Hv & Hs). replace (x =? 0) with false by lia.
  apply list.NoDup_cons in Hnd as [Hxl Hnd]. destruct Hok as [Hok Hlive].
  apply wp_bind. eapply wp_load; [exact Hv|].
  apply wp_bind. apply wp_free; [done|apply Hlive; by rewrite Hv|].
  intros al Hok' Hl'. apply wp_bind, wp_modify. cbn [node_of next nodes head alloc].
  eapply wp_mono; [eapply (IH n x)|].
  - cbn [nodes head]. by apply dseg_delete.
  - done.
  - split; [done|]. cbn [nodes alloc]. intros p Hp.
    destruct (decide (p = x)) as [->|Hne]; [by rewrite lookup_delete_eq in Hp; destruct Hp|].
    rewrite lookup_delete_ne in Hp by done. rewrite Hl', lookup_delete_ne by done. by apply Hlive.
  - lia.
  - intros _ w' (Hh & Hok2 & Hun & Hgone). split_and!; try done.
    + intros y [Hyx Hyl]%not_elem_of_cons. rewrite Hun by done. cbn [nodes].
      by apply lookup_delete_ne.
    + intros y [->|Hy]%elem_of_cons; [|by apply Hgone].
      rewrite Hun by done. cbn [nodes fst]. apply lookup_delete_eq.
Qed.

Lemma wp_vma_clear w l :
  vma_rep w l → wp (vma_clear true) (λ _ w', cleared w w' l) w.
Proof using laws_A.
  intros Hrep. pose proof (rep_fuel _ _ Hrep). pose proof (rep_heap_ok _ _ Hrep).
  destruct Hrep as [[lt Hs] Hnd _ _ _]. unfold vma_clear. cbn [negb].
  apply wp_bind, wp_gets. by eapply wp_vma_clear_loop.
Qed.

(** An area above all of a list is inserted at its end. *)
Lemma insert_at_end (l1 l2 : list area) a :
  areas_ok (l1 ++ a :: l2) → (∀ b, b ∈ l2 → before b a) → l2 = [].
Proof.
  intros (_ & (Ha & H2 & Hb)%areas_ok_cons & _)%areas_ok_app Hlt.
  destruct l2 as [|b l2]; [done|]. exfalso.
  specialize (Hb b ltac:(set_solver)). specialize (Hlt b ltac:(set_solver)).
  apply areas_ok_cons in H2 as [(? & _ & _) _]. destruct Ha as (? & _ & _).
  unfold before in *. lia.
Qed.

(** The loop invariant: the areas before [ls] are copied to [ld], whose nodes
    are new, and the rest of the heap is as in [w0]. *)
Definition copied w0 w (ld : list (Z * area)) (done_ : list area) : Prop :=
  vma_rep w ld ∧ ld.*2 = done_ ∧ untouched w0 w ld ∧ ∀ x, x ∈ ld.*1 → nodes w0 !! x = None.

Definition copy_post w0 (src : list area) (b : bool) w' : Prop :=
  if b then ∃ ld, copied w0 w' ld src
  else nodes w' = nodes w0 ∧ head w' = 0 ∧ heap_ok w'.

Lemma copied_lookup w0 w ld done_ x v :
  copied w0 w ld done_ → nodes w0 !! x = Some v → nodes w !! x = Some v.
Proof.
  intros (_ & _ & Hun & Hnew) Hv. rewrite Hun; [done|]. intros Hx.
  rewrite Hnew in Hv by done. done.
Qed.

Lemma copied_clear w0 w w' ld done_ :
  copied w0 w ld done_ → cleared w w' ld → nodes w' = nodes w0 ∧ head w' = 0 ∧ heap_ok w'.
Proof.
  intros (_ & _ & Hun & Hnew) (Hh & Hok & Hun' & Hgone). split; [|done].
  apply map_eq. intros x. destruct (decide (x ∈ ld.*1)).
  - rewrite Hgone, Hnew by done. done.
  - rewrite Hun', Hun by done. done.
Qed.

Lemma copied_step w0 w w' ld done_ a :
  copied w0 w ld done_ → areas_ok (done_ ++ [a]) →
  insert_post w ld (a_start a) (a_end a) (a_access a) (a_flags a) (a_offset a) true w' →
  ∃ ld', copied w0 w' ld' (done_ ++ [a]).
Proof.
  intros (Hrep & <- & Hun & Hnew) Har (_ & _ & p & l1 & l2 & -> & Hp & Hrep' & Hun').
  replace (Area _ _ _ _ _) with a in Hrep', Hun' by (by destruct a).
  assert (l2.*2 = []) as Hl2.
  { pose proof (vr_areas _ _ Hrep') as Har'. rewrite fmap_app, fmap_cons in Har'.
    eapply insert_at_end; [exact Har'|]. intros b Hb.
    apply areas_ok_app in Har as (_ & _ & Har). apply Har; [|set_solver].
    rewrite fmap_app. set_solver. }
  apply fmap_nil_inv in Hl2 as ->. exists (l1 ++ [(p, a)]). rewrite !app_nil_r in *.
  split; [done|]. split; [by rewrite fmap_app|].
  split.
  - intros x Hx. rewrite (Hun' x Hx). apply Hun. rewrite fmap_app in Hx. set_solver.
  - intros x. rewrite fmap_app. intros [Hx| ->%list_elem_of_singleton]%elem_of_app; [by apply Hnew|].
    cbn [fst]. rewrite <- (Hun p); [done|]. by apply (rep_fresh w).
Qed.

Lemma wp_copy_loop n w0 w ls0 ls p pv lt ld :
  copied w0 w ld ls0 → dseg (nodes w0) p pv ls 0 lt → areas_ok (ls0 ++ ls.*2) →
  (length ls < n)%nat →
  wp (copy_loop n p) (copy_post w0 (ls0 ++ ls.*2)) w.
Proof using laws_A.
  revert n w ls0 p pv ld. induction ls as [|[x a] ls IH]; intros [|n] w ls0 p pv ld; try (simpl; lia);
    intros Hc Hs Har Hn; cbn [copy_loop].
  { destruct Hs as [-> _]. simpl. rewrite app_nil_r. apply wp_ret. by exists ld. }
  destruct Hs as (-> & Hx & nx & Hv & Hs). replace (x =? 0) with false by lia.
  apply wp_bind. eapply wp_load; [by eapply copied_lookup|].
  cbn [node_of start end_ access flags offset].
  rewrite fmap_cons in Har. cbn [snd] in Har.
  assert (area_valid a) as Ha by (by apply areas_ok_app in Har as (_ & [? _]%areas_ok_cons & _)).
  destruct Ha as (Ha1 & Ha2 & _). pose proof Hc as (Hrep & _).
  apply wp_bind. eapply wp_mono; [apply wp_vma_insert; [exact Hrep|unfold is_u64; lia..]|].
  intros [] w1 Hins; cbn [negb].
  - rewrite cons_middle, (assoc app) in Har.
    pose proof (proj1 (areas_ok_app _ _) Har) as (Har1 & _).
    destruct (copied_step _ _ _ _ _ _ Hc Har1 Hins) as [ld' Hc'].
    apply wp_bind. eapply wp_load; [by eapply copied_lookup|]. cbn [node_of next].
    rewrite fmap_cons, cons_middle, (assoc app). eapply IH; [exact Hc'|exact Hs|done|].
    simpl in Hn. lia.
  - destruct Hins as (Hrep1 & _ & Hn1 & Hh1).
    assert (copied w0 w1 ld ls0) as Hc1.
    { destruct Hc as (_ & Hl & Hun & Hnew). split; [done|]. split; [done|].
      split; [|done]. intros y Hy. rewrite Hn1. by apply Hun. }
    apply wp_bind. eapply wp_mono; [by apply wp_vma_clear|]. intros [] w2 Hcl.
    apply wp_ret. by eapply copied_clear.
Qed.
End copy_spec.

(** *** What addresses map to *)

Lemma area_at_insert l1 a l2 x :
  areas_ok (l1 ++ a :: l2) →
  area_at (l1 ++ a :: l2) x =
    if (a_start a <=? x) && (x <=? a_end a)
    then Some (a_access a, a_flags a, a_offset a) else area_at (l1 ++ l2) x.
Proof.
  intros (_ & _ & H12)%areas_ok_app. rewrite !area_at_app. simpl.
  destruct ((a_start a <=? x) && (x <=? a_end a)) eqn:E; [|done].
  rewrite area_at_outside; [done|]. intros b Hb.
  specialize (H12 b a Hb ltac:(set_solver)). unfold before in H12. lia.
Qed.

(** [x] lies in the area that holds [st]. *)
Definition same_area (l : list area) (st x : Z) : bool :=
  existsb (λ a, (a_start a <=? st) && (st <=? a_end a) &&
                (a_start a <=? x) && (x <=? a_end a)) l.

Lemma area_at_cut a st en x :
  a_start a ≤ st ≤ a_end a → st ≤ en →
  area_at (area_cut a st en) x =
    if (a_start a <=? x) && (x <=? a_end a)
    then if (st <=? x) && (x <=? en) then None else Some (a_access a, a_flags a, a_offset a)
    else None.
Proof.
  intros Hin Hse. unfold area_cut.
  destruct (Z.ltb_spec (a_start a) st), (Z.ltb_spec en (a_end a)); simpl; zbool; simpl; try done; lia.
Qed.

Lemma same_area_outside l st x :
  (∀ a, a ∈ l → st < a_start a) → same_area l st x = false.
Proof.
  induction l as [|a l IH]; intros Hout; simpl; [done|].
  rewrite IH by (intros b Hb; apply Hout; set_solver).
  specialize (Hout a ltac:(set_solver)). lia.
Qed.

Lemma area_at_remove l st en x :
  areas_ok l → st ≤ en →
  area_at (remove_areas st en l) x =
    if (st <=? x) && (x <=? en) && same_area l st x then None else area_at l x.
Proof.
  intros Hok Hse. induction l as [|a l IH]; simpl; [by rewrite andb_false_r|].
  apply areas_ok_cons in Hok as ((Ha & _) & Hl & Hb). specialize (IH Hl).
  destruct (Z.ltb_spec (a_end a) st).
  - simpl. rewrite IH.
    replace ((a_start a <=? st) && (st <=? a_end a)) with false by lia. simpl.
    destruct ((a_start a <=? x) && (x <=? a_end a)) eqn:E; [|done].
    by replace ((st <=? x) && (x <=? en)) with false by lia.
  - assert (same_area l st x = false ∨ st < a_start a ∨ a_start a ≤ st) as Hs by lia.
    assert (same_area l st x = false) as Hs'.
    { apply same_area_outside. intros b Hbl. specialize (Hb b Hbl). unfold before in Hb. lia. }
    rewrite Hs'. destruct (Z.ltb_spec st (a_start a)).
    + replace (a_start a <=? st) with false by lia. simpl. by rewrite andb_false_r.
    + rewrite area_at_app, area_at_cut by lia.
      replace (a_start a <=? st) with true by lia. replace (st <=? a_end a) with true by lia. simpl.
      assert (area_at l x = None ∨ a_end a < x) as [Hn|Hn].
      { destruct (Z.lt_ge_cases (a_end a) x); [by right|left]. apply area_at_outside.
        intros b Hbl. specialize (Hb b Hbl). unfold before in Hb. lia. }
      * rewrite Hn. zbool; simpl; try done; lia.
      * zbool; simpl; try done; lia.
Qed.

(** ** Theorems *)
Section theorems.
Context {A : Type} {alloc_A : Allocator A} {laws_A : AllocatorLaws (2 ^ 61) A}.
Implicit Types (w : vworld A).

(** C23: [vma_insert] always returns.  It succeeds exactly when the range is
    page-aligned and non-empty, meets no area of the list and a node can be
    allocated; the list then is a sorted list of disjoint areas again, every
    address of the range maps to the new attributes and every other address to
    what it mapped to before, and the heap outside the list is untouched.  When
    it is refused, list and heap are as before. *)
Theorem vma_insert_correct w l st en acc fl off :
  vma_rep w l → is_u64 st → is_u64 en →
  ∃ b w', vma_insert true st en acc fl off w = Ret (b, w') ∧
    if b then
      vma_range_valid st en = true ∧ (∀ a, a ∈ l.*2 → area_overlaps a st en = false) ∧
      ∃ l', vma_rep w' l' ∧ untouched w w' l' ∧
        ∀ x, area_at l'.*2 x =
             if (st <=? x) && (x <=? en) then Some (acc, fl, off) else area_at l.*2 x
    else vma_rep w' l ∧ insert_refused w l st en ∧ nodes w' = nodes w ∧ head w' = head w.
Proof using laws_A.
  intros Hrep Hst Hen. pose proof (wp_vma_insert w l st en acc fl off Hrep Hst Hen) as Hwp.
  apply wp_inv in Hwp as (b & w' & Hr & Hpost). exists b, w'. split; [done|].
  destruct b; [|done]. destruct Hpost as (Hv & Hno & p & l1 & l2 & -> & _ & Hrep' & Hun).
  split; [done|]. split; [done|]. eexists. split; [exact Hrep'|]. split; [done|].
  intros x. pose proof (vr_areas _ _ Hrep') as Har. rewrite !fmap_app, fmap_cons in *.
  by rewrite area_at_insert.
Qed.


(** copying a list into an empty one returns.  On success the copy has the
    same areas in the same order in nodes of its own and the source is intact;
    on failure every node already made is freed again: the heap is exactly what
    it was and the destination is empty. *)
Theorem vma_copy_list_correct w src ls lt :
  heap_ok w → head w = 0 → dseg (nodes w) src 0 ls 0 lt → NoDup ls.*1 → areas_ok ls.*2 →
  ∃ b w', vma_copy_list true src w = Ret (b, w') ∧ dseg (nodes w') src 0 ls 0 lt ∧
    if b then ∃ l', vma_rep w' l' ∧ l'.*2 = ls.*2 ∧ (∀ x, x ∈ l'.*1 → x ∉ ls.*1)
    else nodes w' = nodes w ∧ head w' = 0 ∧ heap_ok w'.
Proof using laws_A.
  intros [Hok Hlive] Hh Hs Hnd Har.
  assert (copied w w [] []) as Hc.
  { split; [|split; [done|split; [done|]]].
    - split; [exists 0; by rewrite Hh|apply NoDup_nil_2|split; constructor|done..].
    - intros x Hx. by apply elem_of_nil in Hx. }
  assert (wp (vma_copy_list true src) (copy_post w ls.*2) w) as Hwp.
  { unfold vma_copy_list. apply wp_bind, wp_gets. rewrite Hh. cbn [negb orb Z.eqb].
    apply wp_bind, wp_gets. eapply (wp_copy_loop _ w w [] ls); [exact Hc|exact Hs|done|].
    pose proof (dseg_size _ _ _ _ _ _ Hnd Hs). lia. }
  apply wp_inv in Hwp as ([] & w' & Hr & Hpost); eexists _, w'; (split; [exact Hr|]); simpl in Hpost.
  - destruct Hpost as [ld Hcp]. assert (∀ x, x ∈ ls.*1 → x ∉ ld.*1) as Hdis.
    { intros x Hx Hld. destruct Hcp as (_ & _ & _ & Hnew).
      destruct (dseg_lookup _ _ _ _ _ _ _ Hs Hx) as [[v Hv] _]. by rewrite Hnew in Hv. }
    destruct Hcp as (Hrep & Heq & Hun & _). split.
    + eapply dseg_agree; [|exact Hs]. intros x Hx. by apply Hun, Hdis.
    + exists ld. split; [done|]. split; [done|]. intros x Hx Hls. by apply (Hdis x).
  - destruct Hpost as (Hn & Hpost). by rewrite Hn.
Qed.
End theorems.

(** *** Examples: two areas with a gap of one page between them *)
Definition demo_areas : list (Z * area) :=
  [(64, Area 4096 16383 1 2 0); (120, Area 20480 24575 3 0 0)].
Definition demo_vmas : vworld bump :=
  MkVW {[ 64 := node_of (Area 4096 16383 1 2 0) 120 0;
          120 := node_of (Area 20480 24575 3 0 0) 0 64 ]} 64
       (MkBump 1000 1 {[ 64 := VMA_SIZEOF; 120 := VMA_SIZEOF ]}).

Lemma demo_areas_ok : areas_ok demo_areas.*2.
Proof.
  split; [repeat constructor; simpl; lia|].
  repeat constructor; simpl; lia.
Qed.

Lemma demo_heap_ok : heap_ok demo_vmas.
Proof.
  split.
  - split; [split; [done|]|done]. intros p n. simpl.
    rewrite lookup_insert_Some, lookup_singleton_Some. unfold VMA_SIZEOF.
    intros [[<- <-]|(_ & <- & <-)]; lia.
  - intros p. simpl. intros [v Hv].
    rewrite lookup_insert_Some, lookup_singleton_Some in Hv.
    destruct Hv as [[<- _]|(_ & <- & _)]; by eexists.
Qed.

Lemma demo_dseg : dseg (nodes demo_vmas) 64 0 demo_areas 0 120.
Proof.
  simpl. split; [done|]. split; [done|]. exists 120. split; [reflexivity|].
  split; [done|]. split; [done|]. exists 0. by split.
Qed.

Lemma demo_nodup : NoDup demo_areas.*1.
Proof. apply (bool_decide_unpack _). vm_compute. exact I. Qed.

Lemma demo_vmas_rep : vma_rep demo_vmas demo_areas.
Proof.
  destruct demo_heap_ok as [Hok Hlive].
  split; [exists 120; apply demo_dseg|apply demo_nodup|apply demo_areas_ok|done|done].
Qed.

(** The gap is filled. *)
Lemma vma_insert_correct_witness :
  ∃ w' l', vma_insert true 16384 20479 7 8 9 demo_vmas = Ret (true, w') ∧ vma_rep w' l' ∧
    area_at l'.*2 17000 = Some (7, 8, 9) ∧ area_at l'.*2 5000 = Some (1, 2, 0).
Proof.
  destruct (vma_insert_correct demo_vmas demo_areas 16384 20479 7 8 9 demo_vmas_rep)
    as (b & w' & Hr & Hb); [unfold is_u64; lia..|].
  assert (b = true) as -> by (vm_compute in Hr; by injection Hr as <- _).
  destruct Hb as (_ & _ & l' & Hrep & _ & Hat). exists w', l'.
  split; [exact Hr|]. split; [exact Hrep|]. rewrite !Hat. split; reflexivity.
Defined.


(** One node can be allocated, two are needed: the copy fails and leaks nothing. *)
Lemma vma_copy_list_correct_witness :
  ∃ w', vma_copy_list true 64 (MkVW (nodes demo_vmas) 0 (alloc demo_vmas)) = Ret (false, w') ∧
        nodes w' = nodes demo_vmas.
Proof.
  destruct (vma_copy_list_correct (MkVW (nodes demo_vmas) 0 (alloc demo_vmas)) 64 demo_areas 120
              demo_heap_ok eq_refl demo_dseg demo_nodup demo_areas_ok) as (b & w' & Hr & _ & Hb).
  assert (b = false) as -> by (vm_compute in Hr; by injection Hr as <- _).
  exists w'. split; [exact Hr|]. exact (proj1 Hb).
Defined.
