(* ===== verification/VmaSearch.v ===== *)
(** * VmaSearch: the searches of [kernel/memory/vma.c]

    [vma_find_free_forward] is a first fit from a hint, [vma_find_free_backward]
    a last fit below one, [vma_find_free_fixed] a membership test.  The theorems
    say so in full: the result is free and in bounds, it is the best one, and
    failure means that there is none. *)
From S2P Require Import Prelude Alloc Vma.

(** ** Page arithmetic *)

Definition floor_page (x : Z) : Z := x - x mod VMA_PAGE_SIZE.
Definition ceil_page (x : Z) : Z := floor_page (x + VMA_PAGE_SIZE - 1).

Lemma page_aligned_mod x : page_aligned x = (x mod VMA_PAGE_SIZE =? 0).
Proof.
  unfold page_aligned, VMA_PAGE_SIZE. change (4096 - 1) with (2 ^ 12 - 1).
  by rewrite land_ones_mod.
Qed.

Lemma mask_page_floor x : is_u64 x → mask_page x = floor_page x.
Proof.
  intros Hx. unfold mask_page, floor_page, VMA_PAGE_SIZE, UINT64_MAX.
  replace (2 ^ 64 - 1 - (4096 - 1)) with (Z.shiftl (Z.ones 52) 12) by reflexivity.
  change 4096 with (2 ^ 12).
  replace (x - x mod 2 ^ 12) with (Z.shiftl (Z.shiftr x 12) 12).
  2:{ rewrite Z.shiftl_mul_pow2, Z.shiftr_div_pow2 by lia.
      pose proof (Z.div_mod x (2 ^ 12) ltac:(lia)). lia. }
  apply Z.bits_inj'. intros i Hi. rewrite Z.land_spec, !Z.shiftl_spec by lia.
  destruct (Z.lt_ge_cases i 12).
  - rewrite !(Z.testbit_neg_r _ (i - 12)) by lia. by rewrite andb_false_r.
  - rewrite Z.shiftr_spec by lia. replace (i - 12 + 12) with i by lia.
    destruct (Z.lt_ge_cases i 64).
    + by rewrite Z.ones_spec_low, andb_true_r by lia.
    + by rewrite (testbit_small x i 64) by (unfold is_u64 in Hx; lia).
Qed.

Lemma floor_page_spec x :
  0 ≤ x → floor_page x ≤ x < floor_page x + VMA_PAGE_SIZE ∧ 0 ≤ floor_page x ∧
          page_aligned (floor_page x) = true.
Proof.
  intros Hx. rewrite page_aligned_mod. unfold floor_page, VMA_PAGE_SIZE.
  pose proof (Z.mod_pos_bound x 4096 ltac:(lia)). pose proof (Z.div_mod x 4096 ltac:(lia)).
  pose proof (Z.div_pos x 4096 Hx ltac:(lia)).
  split; [lia|]. split; [lia|]. apply Z.eqb_eq.
  replace (x - x mod 4096) with (x / 4096 * 4096) by lia. apply Z.mod_mul. lia.
Qed.

(** An aligned address at most [x] is at most the floor of [x]. *)
Lemma floor_page_max x y : page_aligned y = true → y ≤ x → y ≤ floor_page x.
Proof.
  rewrite page_aligned_mod, Z.eqb_eq. unfold floor_page, VMA_PAGE_SIZE. intros Hy Hle.
  pose proof (Z.mod_pos_bound x 4096 ltac:(lia)). pose proof (Z.div_mod x 4096 ltac:(lia)).
  pose proof (Z.div_mod y 4096 ltac:(lia)). nia.
Qed.

Lemma floor_page_aligned x : page_aligned x = true → floor_page x = x.
Proof. rewrite page_aligned_mod, Z.eqb_eq. unfold floor_page. lia. Qed.

Lemma ceil_page_aligned x : page_aligned x = true → ceil_page x = x.
Proof.
  rewrite page_aligned_mod, Z.eqb_eq. unfold ceil_page, floor_page, VMA_PAGE_SIZE. intros Hx.
  pose proof (Z.div_mod x 4096 ltac:(lia)). 
  replace (x + 4096 - 1) with (4095 + x / 4096 * 4096) by lia.
  rewrite Z.mod_add by lia. change (4095 mod 4096) with 4095. lia.
Qed.

(** ** Free ranges *)

(** [[x, x + len)] meets no area. *)
Definition range_free (l : list area) (x len : Z) : Prop :=
  ∀ a, a ∈ l → area_overlaps a x (x + len - 1) = false.

Lemma range_free_cons a l x len :
  range_free (a :: l) x len ↔ area_overlaps a x (x + len - 1) = false ∧ range_free l x len.
Proof. unfold range_free. set_solver. Qed.

Lemma range_free_app l1 l2 x len :
  range_free (l1 ++ l2) x len ↔ range_free l1 x len ∧ range_free l2 x len.
Proof. unfold range_free. set_solver. Qed.

Lemma overlaps_false a st en : area_overlaps a st en = false ↔ en < a_start a ∨ a_end a < st.
Proof. unfold area_overlaps. lia. Qed.

(** The bounds of a search, as 64-bit values. *)
Record bounds_ok (min max len : Z) : Prop := {
  bo_min : is_u64 min;
  bo_max : is_u64 max;
  bo_len : 0 < len < 2 ^ 64;
}.

Lemma range_fits_spec st min max len :
  bounds_ok min max len → is_u64 st →
  vma_range_fits st min max len =
    if (min <=? st) && (st + len - 1 <=? max) then Some (st + len - 1) else None.
Proof.
  intros [Hmin Hmax Hlen] Hst. unfold vma_range_fits, UINT64_MAX, is_u64 in *.
  rewrite (u64_small (len - 1)) by (unfold is_u64; lia).
  destruct (Z.ltb_spec st min), (Z.ltb_spec max st); cbn [orb];
    try (by replace (min <=? st) with false by lia);
    try (by replace ((min <=? st) && (st + len - 1 <=? max)) with false by lia).
  destruct (Z.ltb_spec (2 ^ 64 - 1 - st) (len - 1)).
  { by replace ((min <=? st) && (st + len - 1 <=? max)) with false by lia. }
  rewrite u64_small by (unfold is_u64; lia).
  destruct (Z.ltb_spec max (st + len - 1)).
  - by replace ((min <=? st) && (st + len - 1 <=? max)) with false by lia.
  - by replace ((min <=? st) && (st + len - 1 <=? max)) with true by lia.
Qed.

Section search.
Context {A : Type} {alloc_A : Allocator A}.
Implicit Types (w : vworld A).
Context (min max len : Z) (Hb : bounds_ok min max len).

(** What a search from [c] upwards owes its caller. *)
Definition first_fit (l : list area) (c : Z) (r : option Z) : Prop :=
  match r with
  | Some x =>
      c ≤ x ∧ min ≤ x ∧ x + len - 1 ≤ max ∧ range_free l x len ∧
      (page_aligned c = true → page_aligned x = true) ∧
      ∀ y, c ≤ y → min ≤ y → y + len - 1 ≤ max → range_free l y len → x ≤ y
  | None => ∀ y, c ≤ y → min ≤ y → y + len - 1 ≤ max → ¬ range_free l y len
  end.

(** Areas below the candidate do not matter. *)
Lemma first_fit_skip a l c r :
  a_end a < c → first_fit l c r → first_fit (a :: l) c r.
Proof using Type.
  intros Ha Hr. destruct r as [x|]; simpl in *.
  - destruct Hr as (H1 & H2 & H3 & H4 & H5 & H6). split_and!; try done.
    + apply range_free_cons. split; [apply overlaps_false; lia|done].
    + intros y Hy Hm Hx [_ Hf]%range_free_cons. by apply H6.
  - intros y Hy Hm Hx [_ Hf]%range_free_cons. by apply (Hr y).
Qed.

(** An area that meets the candidate pushes it past its end. *)
Lemma first_fit_push a l c r :
  c ≤ a_end a → a_start a ≤ c + len - 1 → page_aligned (a_end a + 1) = true →
  first_fit l (a_end a + 1) r → first_fit (a :: l) c r.
Proof using Hb.
  intros Hc Hs Hal Hr. destruct Hb as [_ _ Hlen].
  assert (∀ y, c ≤ y → range_free (a :: l) y len → a_end a + 1 ≤ y ∧ range_free l y len) as Hpush.
  { intros y Hy [Ho Hf]%range_free_cons. split; [|done]. apply overlaps_false in Ho. lia. }
  destruct r as [x|]; simpl in *.
  - destruct Hr as (H1 & H2 & H3 & H4 & H5 & H6). split_and!; try done; [lia| |auto|].
    + apply range_free_cons. split; [apply overlaps_false; lia|done].
    + intros y Hy Hm Hx Hf. destruct (Hpush y Hy Hf). by apply H6.
  - intros y Hy Hm Hx Hf. destruct (Hpush y Hy Hf). by apply (Hr y).
Qed.

Lemma valid_end_aligned a : area_valid a → a_end a < 2 ^ 64 - 1 → page_aligned (a_end a + 1) = true.
Proof using Type.
  intros (Hr & _ & (_ & _ & He)%range_valid_spec) Hlt.
  by rewrite u64_small in He by (unfold is_u64; lia).
Qed.

Lemma wp_forward_loop n p pv l lt c w :
  dseg (nodes w) p pv l 0 lt → areas_ok l.*2 → (length l < n)%nat → is_u64 c →
  min ≤ c → c + len - 1 ≤ max →
  wp (forward_loop n p c (c + len - 1) min max len)
     (λ r w', w' = w ∧ first_fit l.*2 c r) w.
Proof using Hb.
  revert n p pv c. induction l as [|[x a] l IH]; intros [|n] p pv c; simpl; try lia;
    intros Hs Har Hn Hc Hmin Hmax.
  { destruct Hs as [-> _]. apply wp_ret. split; [done|]. simpl. unfold range_free. set_solver. }
  destruct Hs as (-> & Hx & nx & Hv & Hs). replace (x =? 0) with false by lia.
  apply areas_ok_cons in Har as (Ha & Har & Hbef).
  apply wp_bind. eapply wp_load; [exact Hv|]. cbn [node_of start end_ next].
  destruct (Z.ltb_spec (a_end a) c).
  { eapply wp_mono; [by eapply IH; [exact Hs| |lia|..]|].
    intros r ? [-> Hr]. split; [done|]. by apply first_fit_skip. }
  destruct (Z.ltb_spec (c + len - 1) (a_start a)).
  { apply wp_ret. split; [done|]. simpl. split_and!; try done. intros b Hbin.
    apply overlaps_false. left. destruct Ha as (Har1 & _ & _).
    apply elem_of_cons in Hbin as [->|Hbin]; [done|].
    specialize (Hbef b Hbin). unfold before in Hbef. lia. }
  destruct (Hb) as [Hbmin Hbmax Hblen]. unfold is_u64 in *.
  destruct (Z.eqb_spec (a_end a) UINT64_MAX) as [Emax|Emax].
  { apply wp_ret. split; [done|]. simpl. intros y Hy Hm Hym [Ho _]%range_free_cons.
    apply overlaps_false in Ho. unfold UINT64_MAX in Emax. lia. }
  assert (a_end a < 2 ^ 64 - 1) as Hend by (destruct Ha as (_ & ? & _); unfold UINT64_MAX in Emax; lia).
  pose proof (valid_end_aligned a Ha Hend) as Hal.
  rewrite u64_small by (unfold is_u64; lia). rewrite range_fits_spec by (done || unfold is_u64; lia).
  replace (min <=? a_end a + 1) with true by lia. cbn [andb].
  destruct (Z.leb_spec (a_end a + 1 + len - 1) max).
  - eapply wp_mono; [eapply IH; [exact Hs|done|lia|unfold is_u64; lia|lia|lia]|].
    intros r ? [-> Hr]. split; [done|]. apply first_fit_push; [lia|lia|done|done].
  - apply wp_ret. split; [done|]. simpl. intros y Hy Hm Hym [Ho _]%range_free_cons.
    apply overlaps_false in Ho. lia.
Qed.

(** The first candidate of the forward search. *)
Definition forward_from (hint : Z) : Z :=
  Z.max min (ceil_page (if hint =? 0 then min else hint)).

Lemma align_up_ceil h :
  is_u64 h → h ≤ UINT64_MAX - (VMA_PAGE_SIZE - 1) → vma_align_up h = ceil_page h.
Proof using Type.
  unfold UINT64_MAX, VMA_PAGE_SIZE, is_u64. intros Hh Hle.
  unfold vma_align_up, ceil_page, VMA_PAGE_SIZE.
  rewrite u64_small by (unfold is_u64; lia). apply mask_page_floor. unfold is_u64. lia.
Qed.

Lemma ceil_page_range h : 0 ≤ h → h ≤ ceil_page h < h + VMA_PAGE_SIZE.
Proof using Type.
  intros Hh. unfold ceil_page. pose proof (floor_page_spec (h + VMA_PAGE_SIZE - 1)).
  unfold VMA_PAGE_SIZE in *. lia.
Qed.

(** The state of a search does not move. *)
Definition pure_post (P : option Z → Prop) w (r : option Z) (w' : vworld A) : Prop :=
  w' = w ∧ P r.

Lemma wp_find_forward w l lt hd hint :
  dseg (nodes w) hd 0 l 0 lt → NoDup l.*1 → areas_ok l.*2 → is_u64 hint →
  min ≤ max → page_aligned len = true →
  wp (vma_find_free_forward hd hint min max len true)
     (pure_post (first_fit l.*2 (forward_from hint)) w) w.
Proof using Hb.
  intros Hs Hnd Har Hh Hmm Hal. destruct (Hb) as [Hbmin Hbmax Hblen].
  unfold vma_find_free_forward. cbn [negb orb].
  replace (len =? 0) with false by lia. replace (max <? min) with false by lia.
  rewrite Hal. cbn [orb negb]. unfold forward_from.
  set (h := if hint =? 0 then min else hint).
  assert (is_u64 h) as Hhu by (unfold h; by destruct (hint =? 0)).
  pose proof (ceil_page_range h ltac:(unfold is_u64 in Hhu; lia)) as Hcr.
  assert (∀ c, is_u64 c → c = Z.max min (ceil_page h) →
    wp (match vma_range_fits c min max len with
        | None => mret None
        | Some en => n ← walk_fuel; forward_loop n hd c en min max len
        end) (pure_post (first_fit l.*2 (Z.max min (ceil_page h))) w) w) as Hgo.
  { intros c Hc Ec. rewrite <- Ec. rewrite range_fits_spec by done.
    destruct ((min <=? c) && (c + len - 1 <=? max)) eqn:E.
    - apply wp_bind, wp_gets. eapply wp_forward_loop; [exact Hs|done| |done|lia|lia].
      pose proof (dseg_size _ _ _ _ _ _ Hnd Hs). lia.
    - apply wp_ret. split; [done|]. simpl. intros y Hy Hm Hym _. lia. }
  destruct (page_aligned h) eqn:Eh; cbn [negb].
  - rewrite ceil_page_aligned in * by done.
    destruct (Z.ltb_spec h min); apply Hgo; (done || lia).
  - unfold UINT64_MAX, VMA_PAGE_SIZE, is_u64 in *.
    destruct (Z.ltb_spec (2 ^ 64 - 1 - (4096 - 1)) h).
    + apply wp_ret. split; [done|]. simpl. intros y Hy Hm Hym _.
      pose proof (floor_page_spec (h + 4096 - 1) ltac:(lia)) as (_ & _ & Hf).
      unfold ceil_page, VMA_PAGE_SIZE in *. 
      assert (2 ^ 64 ≤ floor_page (h + 4096 - 1)); [|lia].
      apply floor_page_max; [reflexivity|lia].
    + rewrite align_up_ceil by (unfold UINT64_MAX, VMA_PAGE_SIZE, is_u64; lia).
      destruct (Z.ltb_spec (ceil_page h) min); apply Hgo; unfold VMA_PAGE_SIZE in *; try lia.
Qed.

(** *** Backwards *)

(** What a search from [c] downwards owes its caller: among aligned addresses. *)
Definition last_fit (l : list area) (c : Z) (r : option Z) : Prop :=
  match r with
  | Some x =>
      x ≤ c ∧ min ≤ x ∧ x + len - 1 ≤ max ∧ range_free l x len ∧ page_aligned x = true ∧
      ∀ y, y ≤ c → min ≤ y → page_aligned y = true → range_free l y len → y ≤ x
  | None =>
      ∀ y, y ≤ c → min ≤ y → page_aligned y = true → ¬ range_free l y len
  end.

(** Areas above the candidate's range do not matter. *)
Lemma last_fit_skip l l2 c r :
  (∀ a, a ∈ l2 → c + len - 1 < a_start a) → last_fit l c r → last_fit (l ++ l2) c r.
Proof using Type.
  intros Ha Hr.
  assert (∀ y, y ≤ c → range_free l2 y len) as Hf
    by (intros y Hy a Hin; apply overlaps_false; specialize (Ha a Hin); lia).
  destruct r as [x|]; simpl in *.
  - destruct Hr as (H1 & H2 & H3 & H4 & H5 & H6). split_and!; try done.
    + apply range_free_app. auto.
    + intros y Hy Hm Hx [Hf' _]%range_free_app. by apply H6.
  - intros y Hy Hm Hx [Hf' _]%range_free_app. by apply (Hr y).
Qed.

(** An area that meets the candidate pushes it below its start. *)
Lemma last_fit_push l a c r :
  c ≤ a_end a → a_start a ≤ c + len - 1 → len ≤ a_start a - min →
  last_fit l (floor_page (a_start a - len)) r → last_fit (l ++ [a]) c r.
Proof using Hb.
  intros Hc Hs Hroom Hr. destruct Hb as [Hmin _ Hlen]. unfold is_u64 in Hmin.
  pose proof (floor_page_spec (a_start a - len) ltac:(lia)) as (Hfl & _ & _).
  assert (∀ y, y ≤ c → page_aligned y = true → range_free (l ++ [a]) y len →
               y ≤ floor_page (a_start a - len) ∧ range_free l y len) as Hpush.
  { intros y Hy Hal [Hf Ho]%range_free_app. split; [|done].
    apply floor_page_max; [done|]. specialize (Ho a ltac:(set_solver)).
    apply overlaps_false in Ho. lia. }
  destruct r as [x|]; simpl in *.
  - destruct Hr as (H1 & H2 & H3 & H4 & H5 & H6). split_and!; try done; [lia| |].
    + apply range_free_app. split; [done|]. intros b ->%list_elem_of_singleton.
      apply overlaps_false. lia.
    + intros y Hy Hm Hal Hf. destruct (Hpush y Hy Hal Hf). by apply H6.
  - intros y Hy Hm Hal Hf. destruct (Hpush y Hy Hal Hf). by apply (Hr y).
Qed.

(** The node before the end of a segment from the head. *)
Lemma dseg_snoc h p l x a q lt :
  dseg h p 0 (l ++ [(x, a)]) q lt →
  lt = x ∧ x ≠ 0 ∧ ∃ pv, h !! x = Some (node_of a q pv) ∧ dseg h p 0 l x pv.
Proof using Type.
  rewrite dseg_app. intros (m & mt & Hs1 & -> & Hx & nx & Hn & -> & ->). eauto 10.
Qed.

Lemma wp_skip_above n p l q cur en w :
  dseg (nodes w) p 0 l q cur → (length l < n)%nat →
  wp (skip_above_loop n cur en) (λ r w', w' = w ∧
    ∃ l1 l2 q', l = l1 ++ l2 ∧ dseg (nodes w) p 0 l1 q' r ∧
      (∀ a, a ∈ l2.*2 → en < a_start a) ∧
      (∀ l1' x a, l1 = l1' ++ [(x, a)] → a_start a ≤ en)) w.
Proof using Type.
  clear dependent min. clear max len.
  revert n q cur. induction l as [|[x a] l IH] using rev_ind; intros [|n] q cur;
    rewrite ?length_app; try (simpl; lia); intros Hs Hn; cbn [skip_above_loop].
  - destruct Hs as [-> <-]. apply wp_ret. split; [done|]. exists [], [], q.
    split_and!; try done; [simpl; set_solver|]. intros [|? ?] ? ? [=].
  - simpl in Hn. destruct (dseg_snoc _ _ _ _ _ _ _ Hs) as (-> & Hx & pv & Hv & Hs').
    replace (x =? 0) with false by lia. apply wp_bind. eapply wp_load; [exact Hv|].
    cbn [node_of start prev]. destruct (Z.ltb_spec en (a_start a)).
    + eapply wp_mono; [eapply IH; [exact Hs'|lia]|].
      intros r ? (-> & l1 & l2 & q' & -> & Hs1 & Hhi & Hlo). split; [done|].
      exists l1, (l2 ++ [(x, a)]), q'. split; [by rewrite (assoc app)|]. split; [done|].
      split; [|done]. intros b. rewrite fmap_app. intros [Hb'|Hb']%elem_of_app; [by apply Hhi|].
      by apply list_elem_of_singleton in Hb' as ->.
    + apply wp_ret. split; [done|]. exists (l ++ [(x, a)]), [], q.
      split; [by rewrite app_nil_r|]. split; [done|]. split; [simpl; set_solver|].
      intros l1' y b [_ [= -> ->]]%app_inj_tail. done.
Qed.

Lemma wp_backward_loop n m p l q cur c w :
  dseg (nodes w) p 0 l q cur → areas_ok l.*2 → (length l < n)%nat → (length l < m)%nat →
  is_u64 c → page_aligned c = true → c + len - 1 ≤ max →
  wp (backward_loop n m cur c min max len) (pure_post (last_fit l.*2 c) w) w.
Proof using Hb.
  revert l q cur c. induction n as [|n IH]; intros l q cur c Hs Har Hn Hm Hc Hal Hmax; [lia|].
  cbn [backward_loop]. rewrite range_fits_spec by done. destruct (Hb) as [Hbmin Hbmax Hblen].
  replace (c + len - 1 <=? max) with true by lia. rewrite andb_true_r.
  destruct (Z.leb_spec min c).
  2:{ apply wp_ret. split; [done|]. simpl. intros y Hy Hym _ _. lia. }
  apply wp_bind. eapply wp_mono; [by eapply wp_skip_above|].
  intros r ? (-> & l1 & l2 & q' & -> & Hs1 & Hhi & Hlo).
  rewrite fmap_app in Har |- *. pose proof (proj1 (areas_ok_app _ _) Har) as (Har1 & _).
  eapply wp_mono with (P := pure_post (last_fit l1.*2 c) w);
    [|intros r' ? [-> Hr]; split; [done|]; by apply last_fit_skip].
  assert (range_free l1.*2 c len → last_fit l1.*2 c (Some c)) as Hyes
    by (intros Hf; simpl; split_and!; try done; intros; lia).
  destruct (dseg_end _ _ _ _ _ Hs1) as [[-> ->]|(l1' & a & -> & Hr)].
  { apply wp_ret. split; [done|]. apply Hyes. unfold range_free. simpl. set_solver. }
  replace (r =? 0) with false by lia.
  destruct (dseg_snoc _ _ _ _ _ _ _ Hs1) as (_ & _ & pv & Hv & Hs').
  apply wp_bind. eapply wp_load; [exact Hv|]. cbn [node_of start end_ prev].
  specialize (Hlo l1' r a eq_refl). rewrite fmap_app in *. change [(r, a)].*2 with [a] in *.
  pose proof (proj1 (areas_ok_app _ _) Har1) as (Har2 & (Ha & _)%areas_ok_cons & Hbef).
  destruct Ha as (Ha & Ha2 & _). unfold is_u64 in *.
  destruct (Z.ltb_spec (a_end a) c).
  { apply wp_ret. split; [done|]. apply Hyes. intros b [Hbl|Hbl]%elem_of_app; apply overlaps_false.
    - specialize (Hbef b a Hbl ltac:(set_solver)). unfold before in Hbef. lia.
    - apply list_elem_of_singleton in Hbl as ->. right. done. }
  assert (∀ y, y ≤ c → range_free (l1'.*2 ++ [a]) y len → y + len ≤ a_start a) as Hmeet.
  { intros y Hy [_ Ho]%range_free_app. specialize (Ho a ltac:(set_solver)).
    apply overlaps_false in Ho. lia. }
  destruct (Z.leb_spec (a_start a) min).
  { apply wp_ret. split; [done|]. simpl. intros y Hy Hym _ Hf%Hmeet; lia. }
  destruct (Z.ltb_spec (a_start a - min) len).
  { apply wp_ret. split; [done|]. simpl. intros y Hy Hym _ Hf%Hmeet; lia. }
  unfold vma_align_down. rewrite mask_page_floor by (unfold is_u64; lia).
  pose proof (floor_page_spec (a_start a - len) ltac:(lia)) as (Hfl & Hf0 & Hfa).
  rewrite !length_app in Hn, Hm. simpl in Hn, Hm.
  eapply wp_mono; [eapply IH; [exact Hs'|done|lia|lia|unfold is_u64; lia|done|]|].
  - lia.
  - intros r' ? [-> Hr']. split; [done|]. apply last_fit_push; (done || lia).
Qed.

Lemma wp_last_below n hd l0 p pv l lt en w :
  dseg (nodes w) hd 0 l0 p pv → dseg (nodes w) p pv l 0 lt → (length l < n)%nat →
  wp (last_below_loop n p pv en) (λ r w', w' = w ∧
    ∃ l1 l2 q', l = l1 ++ l2 ∧ dseg (nodes w) hd 0 (l0 ++ l1) q' r ∧
      (∀ x a l2', l2 = (x, a) :: l2' → en < a_start a)) w.
Proof using Type.
  clear dependent min. clear max len.
  revert n l0 p pv. induction l as [|[x a] l IH]; intros [|n] l0 p pv Hs0 Hs; simpl; try lia; intros Hn.
  - destruct Hs as [-> ->]. apply wp_ret. split; [done|]. exists [], [], 0.
    split; [done|]. split; [by rewrite app_nil_r|done].
  - destruct Hs as (-> & Hx & nx & Hv & Hs). replace (x =? 0) with false by lia.
    apply wp_bind. eapply wp_load; [exact Hv|]. cbn [node_of start next].
    destruct (Z.leb_spec (a_start a) en).
    + eapply wp_mono; [eapply (IH n (l0 ++ [(x, a)])); [|exact Hs|lia]|].
      * apply dseg_app. exists x, pv. split; [done|]. simpl. eauto 10.
      * intros r ? (-> & l1 & l2 & q' & -> & Hs1 & Hhi). split; [done|].
        exists ((x, a) :: l1), l2, q'. rewrite <- (assoc app) in Hs1. done.
    + apply wp_ret. split; [done|]. exists [], ((x, a) :: l), x. rewrite app_nil_r.
      split; [done|]. split; [done|]. by intros ? ? ? [= <- <- <-].
Qed.

(** The first candidate of the backward search. *)
Definition backward_from (hint : Z) : Z :=
  let highest := floor_page (max - len + 1) in
  if hint =? 0 then highest else Z.min highest (floor_page hint).

Lemma wp_find_backward w l lt hd hint :
  dseg (nodes w) hd 0 l 0 lt → NoDup l.*1 → areas_ok l.*2 → is_u64 hint →
  min ≤ max → page_aligned len = true → len - 1 ≤ max - min →
  wp (vma_find_free_backward hd hint min max len true)
     (pure_post (last_fit l.*2 (backward_from hint)) w) w.
Proof using Hb.
  intros Hs Hnd Har Hh Hmm Hal Hroom. destruct (Hb) as [Hbmin Hbmax Hblen]. unfold is_u64 in *.
  unfold vma_find_free_backward. cbn [negb orb].
  replace (len =? 0) with false by lia. replace (max <? min) with false by lia.
  rewrite Hal. cbn [orb negb]. rewrite (u64_small (len - 1)) by (unfold is_u64; lia).
  replace (max - min <? len - 1) with false by lia.
  unfold vma_align_down. rewrite (u64_small (max - len + 1)) by (unfold is_u64; lia).
  rewrite !mask_page_floor by (unfold is_u64; lia).
  pose proof (floor_page_spec (max - len + 1) ltac:(lia)) as (Hf1 & Hf2 & Hf3).
  pose proof (floor_page_spec hint ltac:(lia)) as (Hg1 & Hg2 & Hg3).
  set (c := backward_from hint).
  assert (0 ≤ c ≤ floor_page (max - len + 1) ∧ page_aligned c = true) as [Hc Hca].
  { unfold c, backward_from. destruct (hint =? 0); [split; [lia|done]|].
    split; [lia|]. by destruct (Z.min_spec (floor_page (max - len + 1)) (floor_page hint)) as [[_ ->]|[_ ->]]. }
  replace (if floor_page (max - len + 1) <?
              (if hint =? 0 then floor_page (max - len + 1) else floor_page hint)
           then _ else _) with c by (unfold c, backward_from; zbool; lia).
  rewrite range_fits_spec by (done || unfold is_u64; lia).
  replace (c + len - 1 <=? max) with true by lia. rewrite andb_true_r.
  destruct (Z.leb_spec min c).
  2:{ apply wp_ret. split; [done|]. simpl. intros y Hy Hym _ _. lia. }
  pose proof (dseg_size _ _ _ _ _ _ Hnd Hs) as Hsz.
  apply wp_bind, wp_gets, wp_bind.
  eapply wp_mono; [eapply (wp_last_below _ hd [] hd 0 l); [done|exact Hs|lia]|].
  intros r ? (-> & l1 & l2 & q' & -> & Hs1 & Hhi). cbn [app] in Hs1.
  rewrite fmap_app in Har |- *. pose proof (proj1 (areas_ok_app _ _) Har) as (Har1 & Har2 & _).
  rewrite length_app in Hsz.
  eapply wp_mono; [eapply wp_backward_loop; [exact Hs1|done|lia|lia|unfold is_u64; lia|done|lia]|].
  intros r' ? [-> Hr']. split; [done|]. apply last_fit_skip; [|done].
  destruct l2 as [|[x a] l2]; [simpl; set_solver|]. specialize (Hhi x a l2 eq_refl).
  rewrite fmap_cons in Har2 |- *. apply areas_ok_cons in Har2 as ((Ha & _) & _ & Hbef).
  cbn [snd] in *. intros b [->|Hbl]%elem_of_cons; [done|].
  specialize (Hbef b Hbl). unfold before in Hbef. lia.
Qed.

(** *** At a fixed address *)
Lemma wp_fixed_loop n p pv l lt addr en w :
  dseg (nodes w) p pv l 0 lt → areas_ok l.*2 → (length l < n)%nat →
  wp (fixed_loop n p addr en) (pure_post (λ r,
    match r with
    | Some x => x = addr ∧ ∀ a, a ∈ l.*2 → area_overlaps a addr en = false
    | None => ∃ a, a ∈ l.*2 ∧ area_overlaps a addr en = true
    end) w) w.
Proof using Type.
  clear dependent min. clear max len.
  revert n p pv. induction l as [|[x a] l IH]; intros [|n] p pv; simpl; try lia; intros Hs Har Hn.
  { destruct Hs as [-> _]. apply wp_ret. split; [done|]. set_solver. }
  destruct Hs as (-> & Hx & nx & Hv & Hs). replace (x =? 0) with false by lia.
  apply areas_ok_cons in Har as (Ha & Har & Hbef). destruct Ha as (Ha & _).
  apply wp_bind. eapply wp_load; [exact Hv|]. cbn [node_of start end_ next].
  destruct (Z.ltb_spec en (a_start a)).
  { apply wp_ret. split; [done|]. split; [done|]. intros b [->|Hbl]%elem_of_cons;
      apply overlaps_false; left; [done|]. specialize (Hbef b Hbl). unfold before in Hbef. lia. }
  change (vma_overlaps (node_of a nx pv) addr en) with (area_overlaps a addr en).
  destruct (area_overlaps a addr en) eqn:Eo.
  - apply wp_ret. split; [done|]. exists a. set_solver.
  - eapply wp_mono; [eapply IH; [exact Hs|done|lia]|].
    intros [y|] ? [-> Hr]; (split; [done|]); set_solver.
Qed.
End search.

(** ** Theorems *)
Section theorems.
Context {A : Type} {alloc_A : Allocator A}.
Implicit Types (w : vworld A).


(** [vma_find_free_backward] is a last fit among page-aligned addresses:
    the result lies in [[min, max]], is aligned, meets no area, and no aligned
    address between it and the first candidate (the hint or the highest address
    that fits, rounded down) would do; failure means that there is none. *)
Theorem vma_find_free_backward_last_fit w l lt hd hint min max len :
  dseg (nodes w) hd 0 l 0 lt → NoDup l.*1 → areas_ok l.*2 → is_u64 hint →
  bounds_ok min max len → min ≤ max → page_aligned len = true → len - 1 ≤ max - min →
  ∃ r, vma_find_free_backward hd hint min max len true w = Ret (r, w) ∧
       last_fit min max len l.*2 (backward_from max len hint) r.
Proof.
  intros Hs Hnd Har Hh Hb Hmm Hal Hroom.
  pose proof (wp_find_backward min max len Hb w l lt hd hint Hs Hnd Har Hh Hmm Hal Hroom) as Hwp.
  apply wp_inv in Hwp as (r & ? & Hr & -> & Hfit). by exists r.
Qed.

(** [vma_find_free_fixed] accepts an address exactly when it is aligned,
    the range lies in [[min, max]] and meets no area. *)
Theorem vma_find_free_fixed_exact w l lt hd addr min max len :
  dseg (nodes w) hd 0 l 0 lt → NoDup l.*1 → areas_ok l.*2 → is_u64 addr →
  bounds_ok min max len → min ≤ max → page_aligned len = true →
  ∃ r, vma_find_free_fixed hd addr min max len true w = Ret (r, w) ∧
       (r = Some addr ↔ page_aligned addr = true ∧ min ≤ addr ∧ addr + len - 1 ≤ max ∧
                        range_free l.*2 addr len) ∧ (r = Some addr ∨ r = None).
Proof.
  intros Hs Hnd Har Hh Hb Hmm Hal. pose proof (bo_len _ _ _ Hb) as Hlen.
  unfold vma_find_free_fixed. cbn [negb orb].
  replace (len =? 0) with false by lia. replace (max <? min) with false by lia.
  rewrite Hal. cbn [orb negb].
  destruct (page_aligned addr) eqn:Ea; cbn [negb].
  2:{ exists None. split; [done|]. split; [|by right]. split; [done|]. by intros [? _]. }
  rewrite range_fits_spec by done.
  destruct ((min <=? addr) && (addr + len - 1 <=? max)) eqn:Ef.
  2:{ exists None. split; [done|]. split; [|by right]. split; [done|]. intros (_ & ? & ? & _). lia. }
  pose proof (wp_fixed_loop (S (size (nodes w))) hd 0 l lt addr (addr + len - 1) w Hs Har) as Hwp.
  pose proof (dseg_size _ _ _ _ _ _ Hnd Hs) as Hsz.
  apply wp_inv in Hwp as (r & ? & Hr & -> & Hres); [|lia].
  exists r. split; [exact Hr|]. destruct r as [x|].
  - destruct Hres as [-> Hfree]. split; [|by left]. split; [|done]. intros _.
    split; [done|]. split; [lia|]. split; [lia|done].
  - destruct Hres as (a & Ha & Ho). split; [|by right]. split; [done|].
    intros (_ & _ & _ & Hf). by rewrite (Hf a Ha) in Ho.
Qed.
End theorems.

(** The gap page of the example is the first fit from 8192 and the last fit
    below the second area; two pages only fit above it. *)
Lemma demo_bounds len : 0 < len < 2 ^ 32 → bounds_ok 4096 (2 ^ 20 - 1) len.
Proof. intros. split; unfold is_u64; lia. Qed.


Lemma vma_find_free_backward_last_fit_witness :
  vma_find_free_backward 64 24000 4096 (2 ^ 20 - 1) 4096 true demo_vmas = Ret (Some 16384, demo_vmas).
Proof.
  destruct (vma_find_free_backward_last_fit demo_vmas demo_areas 120 64 24000 4096 (2 ^ 20 - 1) 4096
              demo_dseg demo_nodup demo_areas_ok ltac:(unfold is_u64; lia) (demo_bounds 4096 ltac:(lia))
              ltac:(lia) eq_refl ltac:(lia)) as (r & Hr & _).
  rewrite Hr. vm_compute in Hr. injection Hr as <-. reflexivity.
Defined.

Lemma vma_find_free_fixed_exact_witness :
  vma_find_free_fixed 64 16384 4096 (2 ^ 20 - 1) 8192 true demo_vmas = Ret (None, demo_vmas).
Proof.
  destruct (vma_find_free_fixed_exact demo_vmas demo_areas 120 64 16384 4096 (2 ^ 20 - 1) 8192
              demo_dseg demo_nodup demo_areas_ok ltac:(unfold is_u64; lia) (demo_bounds 8192 ltac:(lia))
              ltac:(lia) eq_refl) as (r & Hr & _).
  rewrite Hr. vm_compute in Hr. injection Hr as <-. reflexivity.
Defined.
