(* ===== verification/Paging.v ===== *)
(** * Paging: the four-level page tables of [kernel/memory/vmm.c]

    The x86_64 memory management unit and the part of [vmm.c] that edits page
    tables: the index and flag helpers, the recursive mapping, the scratch
    window ([map_in_current_cr3], [scratch_map_table]) and the walks that find
    or create a page table.  Every access of the code to a table is an access
    to a virtual address, translated by the tables themselves: that the
    recursive addresses and the scratch window reach the intended table is
    proved, not assumed.  There is no TLB: [_invlpg] is a no-op here. *)
From S2P Require Import Prelude Alloc Vma Pmm Frames.

(** ** Constants and pure helpers *)
Definition PAGE_USER_ACCESIBLE : Z := 4.
Definition PAGE_EXECUTABLE : Z := 0x200.
Definition PAGE_NO_EXECUTE : Z := Z.shiftl 1 63.
Definition CANONICAL_HIGH : Z := Z.shiftl 0xFFFF 48.
Definition LAST_VADDR : Z := 0xFFFF7AAAAAAAAAAA.
Definition LOW_REGION_END : Z := 0x100000.
Definition MAPPING_STRUCTURE_MASK : Z := 0xFFFFFFFFFFFFF000.
Definition ENTRY_PHYS_MASK : Z := 0x000FFFFFFFFFF000.
Definition PD_ENTRIES : Z := 511.
Definition RECURSIVE_IDX : Z := 510.
Definition KERNEL_PML4_FIRST : Z := 256.
Definition KERNEL_PML4_LAST : Z := 511.
Definition VIRT_SCRATCH_ADDR : Z := 0xFFFFFFFF70000000.
Definition VIRT_PML4 : Z := VIRT_SCRATCH_ADDR + 0x1000.
Definition VIRT_SCRATCH_L4 : Z := VIRT_PML4 + 0x1000.
Definition VIRT_SCRATCH_L3 : Z := VIRT_SCRATCH_L4 + 0x1000.
Definition VIRT_SCRATCH_L2 : Z := VIRT_SCRATCH_L3 + 0x1000.
Definition VIRT_SCRATCH_L1 : Z := VIRT_SCRATCH_L2 + 0x1000.

(** [~x] on 64 bits. *)
Definition not64 (x : Z) : Z := UINT64_MAX - x.

Definition get_pml4_idx (virt : Z) : Z := Z.land (Z.shiftr virt 39) PD_ENTRIES.
Definition get_pml3_idx (virt : Z) : Z := Z.land (Z.shiftr virt 30) PD_ENTRIES.
Definition get_pd_idx (virt : Z) : Z := Z.land (Z.shiftr virt 21) PD_ENTRIES.
Definition get_pt_idx (virt : Z) : Z := Z.land (Z.shiftr virt 12) PD_ENTRIES.

(** The recursive addresses of the tables on the path to [virt]. *)
Definition get_pml4_entry (virt : Z) : Z :=
  Z.lor (Z.lor (Z.lor (Z.lor CANONICAL_HIGH (Z.shiftl RECURSIVE_IDX 39))
    (Z.shiftl RECURSIVE_IDX 30)) (Z.shiftl RECURSIVE_IDX 21))
    (u32 (Z.shiftl (get_pml4_idx virt) 12)).
Definition get_current_pml4 : Z :=
  Z.lor (Z.lor (Z.lor (Z.lor CANONICAL_HIGH (Z.shiftl RECURSIVE_IDX 39))
    (Z.shiftl RECURSIVE_IDX 30)) (Z.shiftl RECURSIVE_IDX 21))
    (Z.shiftl RECURSIVE_IDX 12).
Definition get_pml3_entry (virt : Z) : Z :=
  Z.lor (Z.lor (Z.lor (Z.lor CANONICAL_HIGH (Z.shiftl RECURSIVE_IDX 39))
    (Z.shiftl RECURSIVE_IDX 30)) (u32 (Z.shiftl (get_pml4_idx virt) 21)))
    (u32 (Z.shiftl (get_pml3_idx virt) 12)).
Definition get_pd_entry (virt : Z) : Z :=
  Z.lor (Z.lor (Z.lor (Z.lor CANONICAL_HIGH (Z.shiftl RECURSIVE_IDX 39))
    (Z.shiftl (get_pml4_idx virt) 30)) (u32 (Z.shiftl (get_pml3_idx virt) 21)))
    (u32 (Z.shiftl (get_pd_idx virt) 12)).

Definition entry_is_present (entry : Z) : bool := Z.land entry PAGE_PRESENT =? PAGE_PRESENT.
Definition entry_phys (entry : Z) : Z := Z.land entry ENTRY_PHYS_MASK.
Definition entry_flags (entry : Z) : Z := Z.land entry (not64 ENTRY_PHYS_MASK).

Definition is_higher_half (virt : Z) : bool := KERNEL_PML4_FIRST <=? get_pml4_idx virt.

(** [flags & bit] as a condition. *)
Definition has (flags bit : Z) : bool := negb (Z.land flags bit =? 0).

Definition normalize_leaf_flags (virt flags : Z) : Z :=
  let leaf_flags := Z.land flags (not64 PAGE_EXECUTABLE) in
  let leaf_flags :=
    if is_higher_half virt then Z.land leaf_flags (not64 PAGE_USER_ACCESIBLE) else leaf_flags in
  if is_higher_half virt && negb (has flags PAGE_EXECUTABLE)
  then Z.lor leaf_flags PAGE_NO_EXECUTE
  else if has flags PAGE_EXECUTABLE then Z.land leaf_flags (not64 PAGE_NO_EXECUTE)
  else leaf_flags.

Definition normalize_table_flags (virt flags : Z) : Z :=
  let table_flags := Z.lor PAGE_PRESENT PAGE_WRITABLE in
  let table_flags :=
    if has flags PAGE_USER_ACCESIBLE && negb (is_higher_half virt)
    then Z.lor table_flags PAGE_USER_ACCESIBLE else table_flags in
  if is_higher_half virt && negb (has flags PAGE_EXECUTABLE)
  then Z.lor table_flags PAGE_NO_EXECUTE
  else if has flags PAGE_EXECUTABLE then Z.land table_flags (not64 PAGE_NO_EXECUTE)
  else table_flags.

(** [clear_nx] and [set_user_access] as functions of the entry they update. *)
Definition clear_nx (entry flags : Z) : Z :=
  if has flags PAGE_EXECUTABLE && has entry PAGE_NO_EXECUTE
  then Z.land entry (not64 PAGE_NO_EXECUTE) else entry.
Definition set_user_access (entry virt flags : Z) : Z :=
  if Z.land flags PAGE_USER_ACCESIBLE =? 0 then entry
  else if is_higher_half virt then entry
  else if Z.land entry PAGE_USER_ACCESIBLE =? 0 then Z.lor entry PAGE_USER_ACCESIBLE
  else entry.

Definition flags_to_mapping_request (flags : Z) : Z :=
  if Z.land flags PAGE_NO_EXECUTE =? 0 then Z.lor flags PAGE_EXECUTABLE else flags.

(** ** The memory management unit

    Physical memory as 64-bit words: a word is named by its frame and its index
    in the frame. *)
Abbreviation memory := (gmap (Z * Z) Z).

(** Bits 47 to 63 of a virtual address agree. *)
Definition canonical (va : Z) : bool :=
  (Z.shiftr va 47 =? 0) || (Z.shiftr va 47 =? 2 ^ 17 - 1).

(** The table or page that entry [i] of table [t] points to. *)
Definition next_table (m : memory) (t i : Z) : option Z :=
  e ← m !! (t, i);
  if entry_is_present e then Some (entry_phys e) else None.

(** The leaf entry that the hardware walk finds for [va] from root [t4]. *)
Definition entry_at (m : memory) (t4 va : Z) : option Z :=
  t3 ← next_table m t4 (get_pml4_idx va);
  t2 ← next_table m t3 (get_pml3_idx va);
  t1 ← next_table m t2 (get_pd_idx va);
  e ← m !! (t1, get_pt_idx va);
  if entry_is_present e then Some e else None.

(** The permissions of [va]: writable and user need the bit at every level, and
    one no-execute bit on the way is enough. *)
Definition perms_at (m : memory) (t4 va : Z) : option (bool * bool * bool) :=
  let fold e acc :=
    let '(wr, us, nx) := acc in
    (wr && Z.testbit e 1, us && Z.testbit e 2, nx || Z.testbit e 63) in
  e4 ← m !! (t4, get_pml4_idx va);
  t3 ← next_table m t4 (get_pml4_idx va);
  e3 ← m !! (t3, get_pml3_idx va);
  t2 ← next_table m t3 (get_pml3_idx va);
  e2 ← m !! (t2, get_pd_idx va);
  e1 ← entry_at m t4 va;
  Some (fold e1 (fold e2 (fold e3 (fold e4 (true, true, false))))).

(** Translation of the word at [va], the root table being [cr3]. *)
Definition translate (m : memory) (cr3 va : Z) : option (Z * Z) :=
  if canonical va then
    t3 ← next_table m cr3 (get_pml4_idx va);
    t2 ← next_table m t3 (get_pml3_idx va);
    t1 ← next_table m t2 (get_pd_idx va);
    pg ← next_table m t1 (get_pt_idx va);
    Some (pg, Z.shiftr (va mod 4096) 3)
  else None.

(** ** State *)

(** [struct vmm]. *)
Record vmm := MkVmm {
  first_available_vaddr : Z;
  last_available_vaddr : Z;
  kernel_offset : Z;
  pml4_phys : Z;
  vma_list : Z;
}.

(** Physical memory and the root register; the frames; the [vmm_t] objects and
    the area nodes on the heap; the virtual address of the kernel's PML4 and
    the kernel's own [vmm_t]. *)
Record mworld (F A : Type) := MkMW {
  phys : memory;
  cr3 : Z;
  frames : F;
  vmms : gmap Z vmm;
  areas : vworld A;
  virtual_directory : Z;
  g_kernel_vmm : Z;
}.
Arguments MkMW {F A} _ _ _ _ _ _ _.
Arguments phys {F A} _.
Arguments cr3 {F A} _.
Arguments frames {F A} _.
Arguments vmms {F A} _.
Arguments areas {F A} _.
Arguments virtual_directory {F A} _.
Arguments g_kernel_vmm {F A} _.

Section ops.
Context {F : Type} {frames_F : FrameAlloc F} {A : Type} {alloc_A : Allocator A}.
Abbreviation W := (mworld F A).

Definition with_phys (m : memory) (w : W) : W :=
  MkMW m (cr3 w) (frames w) (vmms w) (areas w) (virtual_directory w) (g_kernel_vmm w).
Definition with_frames (f : F) (w : W) : W :=
  MkMW (phys w) (cr3 w) f (vmms w) (areas w) (virtual_directory w) (g_kernel_vmm w).

(** A load and a store of the word at a virtual address; a page fault or an
    access outside memory is a [Fault]. *)
Definition vload (va : Z) : prog W Z := λ w,
  k ← deref (translate (phys w) (cr3 w) va);
  v ← deref (phys w !! k);
  Ret (v, w).
Definition vstore (va v : Z) : prog W unit := λ w,
  k ← deref (translate (phys w) (cr3 w) va);
  _ ← deref (phys w !! k);
  Ret (tt, with_phys (<[k := v]> (phys w)) w).

Definition alloc_frame : prog W Z := λ w,
  '(a, f) ← fa_alloc (frames w); Ret (a, with_frames f w).
Definition free_frame (a : Z) : prog W unit := λ w,
  '(_, f) ← fa_free a (frames w); Ret (tt, with_frames f w).

(** [memset(p, 0, PAGE_SIZE)] and [memcpy(d, s, PAGE_SIZE)], word by word. *)
Fixpoint memset_words (n : nat) (p : Z) : prog W unit :=
  match n with
  | O => mret tt
  | S n' => _ ← vstore p 0; memset_words n' (p + 8)
  end.
Definition memset_page (p : Z) : prog W unit := memset_words 512 p.

Fixpoint memcpy_words (n : nat) (d s : Z) : prog W unit :=
  match n with
  | O => mret tt
  | S n' => v ← vload s; _ ← vstore d v; memcpy_words n' (d + 8) (s + 8)
  end.
Definition memcpy_page (d s : Z) : prog W unit := memcpy_words 512 d s.

(** [entry & (PAGE_PRESENT | PAGE_WRITABLE)] *)
Definition mapped_bits (entry : Z) : bool := has entry (Z.lor PAGE_PRESENT PAGE_WRITABLE).

(** A level of [map_in_current_cr3]: make entry [idx] of [table] usable and
    clear the table [child] it points to if it was not. *)
Definition ensure_level (table idx child : Z) : prog W unit :=
  e ← vload (table + 8 * idx);
  if mapped_bits e then mret tt
  else
    f ← alloc_frame;
    _ ← vstore (table + 8 * idx) (Z.lor (Z.lor f PAGE_PRESENT) PAGE_WRITABLE);
    memset_page child.

Definition map_in_current_cr3 (virt phys_ flags : Z) : prog W Z :=
  let virt_base := Z.land virt MAPPING_STRUCTURE_MASK in
  let pml4 := get_current_pml4 in
  let pml3 := get_pml4_entry virt in
  let pml4_idx := get_pml4_idx virt in
  if pml4_idx =? RECURSIVE_IDX then mret 0
  else
    _ ← ensure_level pml4 pml4_idx pml3;
    let pd := get_pml3_entry virt in
    _ ← ensure_level pml3 (get_pml3_idx virt) pd;
    let pt := get_pd_entry virt in
    _ ← ensure_level pd (get_pd_idx virt) pt;
    _ ← vstore (pt + 8 * get_pt_idx virt) (Z.lor phys_ flags);
    mret virt_base.

Definition scratch_map_table (scratch_addr phys_ : Z) : prog W Z :=
  r ← map_in_current_cr3 scratch_addr phys_ (Z.lor PAGE_PRESENT PAGE_WRITABLE);
  if r =? 0 then mret 0 else mret scratch_addr.

Definition scratch_map_page (scratch_addr phys_ : Z) : prog W Z :=
  scratch_map_table scratch_addr phys_.

(** [clear_nx(&table[idx], flags); set_user_access(&table[idx], virt, flags)] *)
Definition relax_entry (table idx virt flags : Z) : prog W unit :=
  e ← vload (table + 8 * idx);
  _ ← vstore (table + 8 * idx) (clear_nx e flags);
  e ← vload (table + 8 * idx);
  vstore (table + 8 * idx) (set_user_access e virt flags).

Definition walk_to_child_table (table idx scratch_addr virt flags : Z) (create : bool)
    : prog W Z :=
  e ← vload (table + 8 * idx);
  if negb (entry_is_present e) then
    if negb create then mret 0
    else
      new_table_phys ← alloc_frame;
      if new_table_phys =? 0 then mret 0
      else
        _ ← vstore (table + 8 * idx)
              (Z.lor new_table_phys (normalize_table_flags virt flags));
        new_table ← scratch_map_table scratch_addr new_table_phys;
        if new_table =? 0 then
          _ ← vstore (table + 8 * idx) 0;
          _ ← free_frame new_table_phys;
          mret 0
        else
          _ ← memset_page new_table;
          mret new_table
  else
    _ ← relax_entry table idx virt flags;
    e ← vload (table + 8 * idx);
    scratch_map_table scratch_addr (entry_phys e).

Definition load_vmm (p : Z) : prog W vmm := λ w, v ← deref (vmms w !! p); Ret (v, w).

Definition walk_non_kernel_to_pt (vmm virt flags : Z) (create : bool) : prog W Z :=
  let pml4_idx := get_pml4_idx virt in
  let pml3_idx := get_pml3_idx virt in
  let pd_idx := get_pd_idx virt in
  if pml4_idx =? RECURSIVE_IDX then mret 0
  else
    v ← load_vmm vmm;
    pml4 ← scratch_map_table VIRT_SCRATCH_L4 (pml4_phys v);
    if pml4 =? 0 then mret 0
    else
      pml3 ← walk_to_child_table pml4 pml4_idx VIRT_SCRATCH_L3 virt flags create;
      if pml3 =? 0 then mret 0
      else
        pd ← walk_to_child_table pml3 pml3_idx VIRT_SCRATCH_L2 virt flags create;
        if pd =? 0 then mret 0
        else walk_to_child_table pd pd_idx VIRT_SCRATCH_L1 virt flags create.

(** The kernel's branch of [map_at_paddr_internal], one level. *)
Definition kernel_level (table idx child virt flags table_flags : Z) : prog W bool :=
  e ← vload (table + 8 * idx);
  ok ← (if entry_is_present e then mret true
        else
          f ← alloc_frame;
          if f =? 0 then mret false
          else
            _ ← vstore (table + 8 * idx) (Z.lor f table_flags);
            _ ← memset_page child;
            mret true);
  if (ok : bool) then _ ← relax_entry table idx virt flags; mret true else mret false.

Definition map_at_paddr_internal (vmm virt phys_ flags : Z) : prog W Z :=
  let virt_base := Z.land virt MAPPING_STRUCTURE_MASK in
  let leaf_flags := normalize_leaf_flags virt flags in
  let table_flags := normalize_table_flags virt flags in
  let pml4_idx := get_pml4_idx virt in
  if pml4_idx =? RECURSIVE_IDX then mret 0
  else
    k ← gets g_kernel_vmm;
    if negb (vmm =? k) then
      pt ← walk_non_kernel_to_pt vmm virt flags true;
      if pt =? 0 then mret 0
      else
        _ ← vstore (pt + 8 * get_pt_idx virt) (Z.lor phys_ leaf_flags);
        mret virt_base
    else
      let pml3 := get_pml4_entry virt in
      vd ← gets virtual_directory;
      ok ← kernel_level vd pml4_idx pml3 virt flags table_flags;
      if negb ok then mret 0
      else
        let pd := get_pml3_entry virt in
        ok ← kernel_level pml3 (get_pml3_idx virt) pd virt flags table_flags;
        if negb ok then mret 0
        else
          let pt := get_pd_entry virt in
          ok ← kernel_level pd (get_pd_idx virt) pt virt flags table_flags;
          if negb ok then mret 0
          else
            _ ← vstore (pt + 8 * get_pt_idx virt) (Z.lor phys_ leaf_flags);
            mret virt_base.

Definition map_at_paddr_with_leaf_flags (vmm virt phys_ leaf_flags : Z) : prog W Z :=
  let virt_base := Z.land virt MAPPING_STRUCTURE_MASK in
  pt ← walk_non_kernel_to_pt vmm virt (flags_to_mapping_request leaf_flags) true;
  if pt =? 0 then mret 0
  else
    _ ← vstore (pt + 8 * get_pt_idx virt) (Z.lor phys_ leaf_flags);
    mret virt_base.

Definition unmap_internal (vmm virt : Z) : prog W Z :=
  let virt_base := Z.land virt MAPPING_STRUCTURE_MASK in
  let pml4_idx := get_pml4_idx virt in
  if pml4_idx =? RECURSIVE_IDX then mret 0
  else
    k ← gets g_kernel_vmm;
    if negb (vmm =? k) then
      pt ← walk_non_kernel_to_pt vmm virt 0 false;
      if pt =? 0 then mret 0
      else
        _ ← vstore (pt + 8 * get_pt_idx virt) 0;
        mret virt_base
    else
      vd ← gets virtual_directory;
      e ← vload (vd + 8 * pml4_idx);
      if negb (entry_is_present e) then mret 0
      else
        let pml3 := get_pml4_entry virt in
        e ← vload (pml3 + 8 * get_pml3_idx virt);
        if negb (entry_is_present e) then mret 0
        else
          let pd := get_pml3_entry virt in
          e ← vload (pd + 8 * get_pd_idx virt);
          if negb (entry_is_present e) then mret 0
          else
            let pt := get_pd_entry virt in
            _ ← vstore (pt + 8 * get_pt_idx virt) 0;
            mret virt_base.
End ops.

(** ** Arithmetic of addresses and entries *)
Section arith.
Implicit Types (a b n i j k virt e f : Z).

Lemma lor_add a b n : 0 ≤ n → 0 ≤ b < 2 ^ n → a mod 2 ^ n = 0 → Z.lor a b = a + b.
Proof.
  intros Hn Hb Ha. symmetry. apply Z.add_nocarry_lor, Z.bits_inj'. intros i Hi.
  rewrite Z.bits_0, Z.land_spec. destruct (Z.lt_ge_cases i n) as [Hlt|Hge].
  - rewrite <- (Z.mod_pow2_bits_low a n i) by lia. by rewrite Ha, Z.bits_0.
  - rewrite (testbit_small b i n) by lia. apply andb_false_r.
Qed.

(** An index of a table. *)
Definition is_idx i : Prop := 0 ≤ i < 512.

Lemma land_511 a : Z.land a PD_ENTRIES = a mod 512.
Proof. exact (land_ones_mod a 9 ltac:(lia)). Qed.

Lemma idx_spec virt :
  get_pml4_idx virt = (virt / 2 ^ 39) mod 512 ∧ get_pml3_idx virt = (virt / 2 ^ 30) mod 512 ∧
  get_pd_idx virt = (virt / 2 ^ 21) mod 512 ∧ get_pt_idx virt = (virt / 2 ^ 12) mod 512.
Proof.
  unfold get_pml4_idx, get_pml3_idx, get_pd_idx, get_pt_idx.
  by rewrite !land_511, !Z.shiftr_div_pow2 by lia.
Qed.

Lemma pml4_idx_range virt : is_idx (get_pml4_idx virt).
Proof. destruct (idx_spec virt) as (-> & _). unfold is_idx. by apply Z.mod_pos_bound. Qed.
Lemma pml3_idx_range virt : is_idx (get_pml3_idx virt).
Proof. destruct (idx_spec virt) as (_ & -> & _). unfold is_idx. by apply Z.mod_pos_bound. Qed.
Lemma pd_idx_range virt : is_idx (get_pd_idx virt).
Proof. destruct (idx_spec virt) as (_ & _ & -> & _). unfold is_idx. by apply Z.mod_pos_bound. Qed.
Lemma pt_idx_range virt : is_idx (get_pt_idx virt).
Proof. destruct (idx_spec virt) as (_ & _ & _ & ->). unfold is_idx. by apply Z.mod_pos_bound. Qed.

(** The address of the page at path [a, b, c, d] in the upper half. *)
Definition vaddr a b c d : Z :=
  CANONICAL_HIGH + a * 2 ^ 39 + b * 2 ^ 30 + c * 2 ^ 21 + d * 2 ^ 12.

Lemma CANONICAL_HIGH_eq : CANONICAL_HIGH = 0xFFFF * 2 ^ 48.
Proof. reflexivity. Qed.

Lemma lor_vaddr a b c d :
  is_idx a → is_idx b → is_idx c → is_idx d →
  Z.lor (Z.lor (Z.lor (Z.lor CANONICAL_HIGH (Z.shiftl a 39)) (Z.shiftl b 30))
    (Z.shiftl c 21)) (Z.shiftl d 12) = vaddr a b c d.
Proof.
  unfold is_idx, vaddr. intros Ha Hb Hc Hd. rewrite CANONICAL_HIGH_eq, !Z.shiftl_mul_pow2 by lia.
  rewrite (lor_add _ (a * 2 ^ 39) 48) by (lia || zdiv).
  rewrite (lor_add _ (b * 2 ^ 30) 39) by (lia || zdiv).
  rewrite (lor_add _ (c * 2 ^ 21) 30) by (lia || zdiv).
  by rewrite (lor_add _ (d * 2 ^ 12) 21) by (lia || zdiv).
Qed.

Lemma u32_shift_idx i k : is_idx i → 0 ≤ k ≤ 21 → u32 (Z.shiftl i k) = Z.shiftl i k.
Proof.
  unfold is_idx, u32. intros Hi Hk. rewrite Z.shiftl_mul_pow2 by lia. apply Z.mod_small.
  split; [lia|]. apply Z.lt_le_trans with (512 * 2 ^ k); [nia|].
  change (2 ^ 32) with (2 ^ 11 * 2 ^ 21). pose proof (Z.pow_le_mono_r 2 k 21). lia.
Qed.

Lemma recursive_addrs virt :
  get_current_pml4 = vaddr 510 510 510 510 ∧
  get_pml4_entry virt = vaddr 510 510 510 (get_pml4_idx virt) ∧
  get_pml3_entry virt = vaddr 510 510 (get_pml4_idx virt) (get_pml3_idx virt) ∧
  get_pd_entry virt = vaddr 510 (get_pml4_idx virt) (get_pml3_idx virt) (get_pd_idx virt).
Proof.
  pose proof (pml4_idx_range virt). pose proof (pml3_idx_range virt). pose proof (pd_idx_range virt).
  assert (is_idx RECURSIVE_IDX) by (unfold is_idx, RECURSIVE_IDX; lia).
  unfold get_current_pml4, get_pml4_entry, get_pml3_entry, get_pd_entry.
  rewrite !u32_shift_idx by (done || lia). rewrite !lor_vaddr by done. done.
Qed.

(** What the hardware makes of such an address. *)
Lemma translate_vaddr m c3 a b c d i :
  256 ≤ a < 512 → is_idx b → is_idx c → is_idx d → is_idx i →
  translate m c3 (vaddr a b c d + 8 * i) =
    (t3 ← next_table m c3 a; t2 ← next_table m t3 b; t1 ← next_table m t2 c;
     pg ← next_table m t1 d; Some (pg, i)).
Proof.
  unfold is_idx. intros Ha Hb Hc Hd Hi. unfold translate.
  assert (canonical (vaddr a b c d + 8 * i) = true) as ->.
  { unfold canonical, vaddr. rewrite CANONICAL_HIGH_eq, Z.shiftr_div_pow2 by lia.
    apply orb_true_iff. right. apply Z.eqb_eq. zdiv. }
  destruct (idx_spec (vaddr a b c d + 8 * i)) as (-> & -> & -> & ->).
  unfold vaddr. rewrite CANONICAL_HIGH_eq, Z.shiftr_div_pow2 by lia.
  replace (((65535 * 2 ^ 48 + a * 2 ^ 39 + b * 2 ^ 30 + c * 2 ^ 21 + d * 2 ^ 12 + 8 * i) / 2 ^ 39) mod 512)
    with a by zdiv.
  replace (((65535 * 2 ^ 48 + a * 2 ^ 39 + b * 2 ^ 30 + c * 2 ^ 21 + d * 2 ^ 12 + 8 * i) / 2 ^ 30) mod 512)
    with b by zdiv.
  replace (((65535 * 2 ^ 48 + a * 2 ^ 39 + b * 2 ^ 30 + c * 2 ^ 21 + d * 2 ^ 12 + 8 * i) / 2 ^ 21) mod 512)
    with c by zdiv.
  replace (((65535 * 2 ^ 48 + a * 2 ^ 39 + b * 2 ^ 30 + c * 2 ^ 21 + d * 2 ^ 12 + 8 * i) / 2 ^ 12) mod 512)
    with d by zdiv.
  replace ((65535 * 2 ^ 48 + a * 2 ^ 39 + b * 2 ^ 30 + c * 2 ^ 21 + d * 2 ^ 12 + 8 * i) mod 4096 / 2 ^ 3)
    with i by zdiv.
  done.
Qed.
End arith.

(** ** Entries *)
Section entries.
Implicit Types (e f fl virt flags : Z).

Lemma present_testbit e : entry_is_present e = Z.testbit e 0.
Proof.
  unfold entry_is_present. change PAGE_PRESENT with (Z.ones 1) at 1.
  rewrite Z.land_ones by lia. change (2 ^ 1) with 2. rewrite <- Z.bit0_mod.
  by destruct (Z.testbit e 0).
Qed.

Lemma has_testbit flags k : 0 ≤ k → has flags (Z.shiftl 1 k) = Z.testbit flags k.
Proof. intros. unfold has. by rewrite land_pow2_testbit, negb_involutive. Qed.
Lemma has_user flags : has flags PAGE_USER_ACCESIBLE = Z.testbit flags 2.
Proof. exact (has_testbit flags 2 ltac:(lia)). Qed.
Lemma has_exec flags : has flags PAGE_EXECUTABLE = Z.testbit flags 9.
Proof. exact (has_testbit flags 9 ltac:(lia)). Qed.
Lemma has_nx flags : has flags PAGE_NO_EXECUTE = Z.testbit flags 63.
Proof. exact (has_testbit flags 63 ltac:(lia)). Qed.

(** A frame is its own entry address. *)
Lemma entry_phys_frame f : f mod 4096 = 0 → 0 ≤ f < 2 ^ 52 → entry_phys f = f.
Proof.
  intros Ha Hf. unfold entry_phys.
  replace f with (Z.shiftl (f / 4096) 12) by (rewrite Z.shiftl_mul_pow2 by lia; zdiv).
  change ENTRY_PHYS_MASK with (Z.shiftl (Z.ones 40) 12).
  rewrite <- Z.shiftl_land, Z.land_ones, Z.mod_small by (lia || zdiv). done.
Qed.

Lemma entry_phys_lor e fl : Z.land fl ENTRY_PHYS_MASK = 0 → entry_phys (Z.lor e fl) = entry_phys e.
Proof. intros H. unfold entry_phys. by rewrite Z.land_lor_distr_l, H, Z.lor_0_r. Qed.

Lemma entry_phys_land e k :
  Z.land (not64 k) ENTRY_PHYS_MASK = ENTRY_PHYS_MASK →
  entry_phys (Z.land e (not64 k)) = entry_phys e.
Proof. intros H. unfold entry_phys. by rewrite <- Z.land_assoc, H. Qed.

Lemma table_flags_spec virt flags :
  Z.land (normalize_table_flags virt flags) ENTRY_PHYS_MASK = 0 ∧
  Z.testbit (normalize_table_flags virt flags) 0 = true ∧
  Z.testbit (normalize_table_flags virt flags) 1 = true ∧
  Z.testbit (normalize_table_flags virt flags) 2 = has flags PAGE_USER_ACCESIBLE && negb (is_higher_half virt) ∧
  Z.testbit (normalize_table_flags virt flags) 63 = is_higher_half virt && negb (has flags PAGE_EXECUTABLE).
Proof.
  unfold normalize_table_flags.
  by destruct (has flags PAGE_USER_ACCESIBLE), (is_higher_half virt), (has flags PAGE_EXECUTABLE).
Qed.

(** [clear_nx] then [set_user_access]. *)
Definition relax (e virt flags : Z) : Z := set_user_access (clear_nx e flags) virt flags.

Lemma relax_phys e virt flags : entry_phys (relax e virt flags) = entry_phys e.
Proof.
  unfold relax, set_user_access, clear_nx.
  repeat case_match; by rewrite ?entry_phys_lor, ?entry_phys_land.
Qed.

Lemma clear_nx_testbit e flags i :
  0 ≤ i < 64 →
  Z.testbit (clear_nx e flags) i = Z.testbit e i && negb ((i =? 63) && has flags PAGE_EXECUTABLE).
Proof.
  intros Hi. unfold clear_nx. rewrite has_nx.
  destruct (has flags PAGE_EXECUTABLE); cbn [andb];
    [|by rewrite andb_false_r, andb_true_r].
  rewrite andb_true_r. destruct (Z.testbit e 63) eqn:E.
  - rewrite Z.land_spec. f_equal. change (not64 PAGE_NO_EXECUTE) with (Z.ones 63).
    destruct (Z.eqb_spec i 63) as [->|]; [done|]. apply Z.ones_spec_low. lia.
  - destruct (Z.eqb_spec i 63) as [->|]; [by rewrite E|by rewrite andb_true_r].
Qed.

Lemma set_user_testbit e virt flags i :
  0 ≤ i → Z.testbit (set_user_access e virt flags) i =
    Z.testbit e i || ((i =? 2) && (has flags PAGE_USER_ACCESIBLE && negb (is_higher_half virt))).
Proof.
  intros Hi. unfold set_user_access.
  replace (Z.land flags PAGE_USER_ACCESIBLE =? 0) with (negb (has flags PAGE_USER_ACCESIBLE))
    by (unfold has; by rewrite negb_involutive).
  destruct (has flags PAGE_USER_ACCESIBLE); cbn [andb negb]; [|by rewrite andb_false_r, orb_false_r].
  destruct (is_higher_half virt); cbn [andb negb]; [by rewrite andb_false_r, orb_false_r|].
  rewrite andb_true_r.
  replace (Z.land e PAGE_USER_ACCESIBLE =? 0) with (negb (Z.testbit e 2))
    by (symmetry; exact (land_pow2_testbit e 2 ltac:(lia))).
  destruct (Z.testbit e 2) eqn:E; cbn [negb].
  - destruct (Z.eqb_spec i 2) as [->|]; [by rewrite E|by rewrite orb_false_r].
  - rewrite Z.lor_spec. f_equal. change PAGE_USER_ACCESIBLE with (2 ^ 2).
    rewrite Z.pow2_bits_eqb by lia. apply Z.eqb_sym.
Qed.

Lemma relax_testbit e virt flags i :
  0 ≤ i < 64 →
  Z.testbit (relax e virt flags) i =
    Z.testbit e i && negb ((i =? 63) && has flags PAGE_EXECUTABLE)
    || ((i =? 2) && (has flags PAGE_USER_ACCESIBLE && negb (is_higher_half virt))).
Proof. intros. unfold relax. rewrite set_user_testbit by lia. by rewrite clear_nx_testbit. Qed.

Lemma relax_present e virt flags : entry_is_present (relax e virt flags) = entry_is_present e.
Proof. rewrite !present_testbit. rewrite relax_testbit by lia. cbn [Z.eqb andb negb]. by rewrite andb_true_r, orb_false_r. Qed.

(** What an entry on the path to a lower-half page must allow. *)
Definition entry_permits (e flags : Z) : Prop :=
  Z.testbit e 1 = true ∧ (has flags PAGE_USER_ACCESIBLE = true → Z.testbit e 2 = true) ∧
  (has flags PAGE_EXECUTABLE = true → Z.testbit e 63 = false).

Lemma relax_permits e virt flags :
  is_higher_half virt = false → Z.testbit e 1 = true → entry_permits (relax e virt flags) flags.
Proof.
  intros Hh H1. unfold entry_permits. rewrite !relax_testbit, H1, Hh by lia.
  split; [done|]. split; intros ->; [apply orb_true_r|].
  cbn. by rewrite andb_false_r.
Qed.

Lemma new_entry_permits f virt flags :
  is_higher_half virt = false → entry_permits (Z.lor f (normalize_table_flags virt flags)) flags ↔
  (has flags PAGE_EXECUTABLE = true → Z.testbit f 63 = false).
Proof.
  intros Hh. destruct (table_flags_spec virt flags) as (_ & _ & H1 & H2 & H63).
  unfold entry_permits. rewrite !Z.lor_spec, H1, H2, H63, Hh, !orb_true_r. cbn [andb negb].
  rewrite orb_false_r. split; [by intros (_ & _ & ?)|]. intros H. split; [done|].
  split; [intros ->; apply orb_true_r|done].
Qed.
End entries.
