(* ===== verification/PagingSpec.v ===== *)
(** * PagingSpec: what the page-table code of [vmm.c] guarantees

    The scratch window, the tree of tables of an address space, and the proof
    that the walks of [Paging.v] keep the tree and reach the right table. *)
From S2P Require Import Prelude Alloc Vma Pmm Frames Paging.

Arguments translate : simpl never.
Arguments next_table : simpl never.

(** Table indices: of an address, or between constants. *)
Ltac solve_idx :=
  match goal with
  | H : ?P |- ?P => exact H
  | |- is_idx (get_pml4_idx ?v) => exact (pml4_idx_range v)
  | |- is_idx (get_pml3_idx ?v) => exact (pml3_idx_range v)
  | |- is_idx (get_pd_idx ?v) => exact (pd_idx_range v)
  | |- is_idx (get_pt_idx ?v) => exact (pt_idx_range v)
  | |- _ => unfold is_idx in *; lia
  end.

(** Projections of an updated state. *)
Ltac wcbn :=
  cbn [with_phys with_frames phys cr3 frames vmms areas virtual_directory g_kernel_vmm].

(** One step of the option monad. *)
Ltac ocbn := cbn [mbind option_bind].

Lemma next_table_insert_ne (m : memory) k v t i :
  k ≠ (t, i) → next_table (<[k := v]> m) t i = next_table m t i.
Proof. intros. unfold next_table. by rewrite lookup_insert_ne. Qed.

Lemma next_table_lookup (m : memory) t i e :
  m !! (t, i) = Some e →
  next_table m t i = if entry_is_present e then Some (entry_phys e) else None.
Proof. unfold next_table. by intros ->. Qed.

Lemma next_table_agree (m m' : memory) t i :
  m' !! (t, i) = m !! (t, i) → next_table m' t i = next_table m t i.
Proof. unfold next_table. by intros ->. Qed.

Lemma next_table_Some (m : memory) t i f :
  next_table m t i = Some f → ∃ e, m !! (t, i) = Some e ∧ entry_is_present e = true ∧ entry_phys e = f.
Proof.
  unfold next_table. destruct (m !! (t, i)) as [e|]; [|done]. cbn.
  destruct (entry_is_present e) eqn:E; [|done]. intros [= <-]. by exists e.
Qed.

(** ** The scratch window

    Pages 0 to 5 of one page table of the kernel's half ([S1], reached through
    [S3] and [S2]) are where the code maps the frames it wants to touch. *)
Record wtabs := MkTabs { S3 : Z; S2 : Z; S1 : Z }.

Record window (m : memory) (c : Z) (K : wtabs) : Prop := {
  w_rec : next_table m c 510 = Some c;
  w_3 : next_table m c 511 = Some (S3 K);
  w_2 : next_table m (S3 K) 509 = Some (S2 K);
  w_1 : next_table m (S2 K) 384 = Some (S1 K);
}.

(** The words the window depends on. *)
Definition window_word (c : Z) (K : wtabs) (k : Z * Z) : Prop :=
  k = (c, 510) ∨ k = (c, 511) ∨ k = (S3 K, 509) ∨ k = (S2 K, 384).

Lemma window_agree m m' c K :
  (∀ k, window_word c K k → m' !! k = m !! k) → window m c K → window m' c K.
Proof.
  unfold window_word. intros Hag [H1 H2 H3 H4].
  split; (rewrite (next_table_agree m); [done|apply Hag; eauto 6]).
Qed.

Lemma window_insert m c K k v : ¬ window_word c K k → window m c K → window (<[k := v]> m) c K.
Proof.
  intros Hk. apply window_agree. intros k' Hk'. apply lookup_insert_ne. by intros ->.
Qed.

(** The address of page [k] of the window. *)
Definition slot (k : Z) : Z := vaddr 511 509 384 k.
Definition is_slot (k : Z) : Prop := 0 ≤ k < 6.

Lemma slot_pos k : 0 ≤ k → (slot k =? 0) = false.
Proof. unfold slot, vaddr. rewrite CANONICAL_HIGH_eq. lia. Qed.

Lemma slots :
  VIRT_SCRATCH_ADDR = slot 0 ∧ VIRT_PML4 = slot 1 ∧ VIRT_SCRATCH_L4 = slot 2 ∧
  VIRT_SCRATCH_L3 = slot 3 ∧ VIRT_SCRATCH_L2 = slot 4 ∧ VIRT_SCRATCH_L1 = slot 5.
Proof. done. Qed.

Lemma slot_idx k : is_slot k →
  get_pml4_idx (slot k) = 511 ∧ get_pml3_idx (slot k) = 509 ∧
  get_pd_idx (slot k) = 384 ∧ get_pt_idx (slot k) = k.
Proof.
  unfold is_slot, slot, vaddr. rewrite CANONICAL_HIGH_eq. intros Hk.
  destruct (idx_spec (0xFFFF * 2 ^ 48 + 511 * 2 ^ 39 + 509 * 2 ^ 30 + 384 * 2 ^ 21 + k * 2 ^ 12))
    as (-> & -> & -> & ->). split_and!; zdiv.
Qed.

Lemma slot_base k : is_slot k → Z.land (slot k) MAPPING_STRUCTURE_MASK = slot k.
Proof.
  unfold is_slot. intros Hk.
  assert (k = 0 ∨ k = 1 ∨ k = 2 ∨ k = 3 ∨ k = 4 ∨ k = 5) as Hc by lia.
  by destruct Hc as [->|[->|[->|[->|[->| ->]]]]].
Qed.

(** An entry the code writes for frame [f]: present and writable. *)
Definition rw (f : Z) : Z := Z.lor f (Z.lor PAGE_PRESENT PAGE_WRITABLE).

Lemma rw_present f : entry_is_present (rw f) = true.
Proof. rewrite present_testbit. unfold rw. rewrite Z.lor_spec. apply orb_true_r. Qed.

Lemma rw_phys f : f mod 4096 = 0 → 0 ≤ f < 2 ^ 52 → entry_phys (rw f) = f.
Proof. intros. unfold rw. rewrite entry_phys_lor by done. by apply entry_phys_frame. Qed.

Lemma present_mapped e : entry_is_present e = true → mapped_bits e = true.
Proof.
  rewrite present_testbit. unfold mapped_bits, has. intros H.
  destruct (Z.eqb_spec (Z.land e (Z.lor PAGE_PRESENT PAGE_WRITABLE)) 0) as [E|]; [|done].
  assert (Z.testbit (Z.land e (Z.lor PAGE_PRESENT PAGE_WRITABLE)) 0 = false) as H'
    by (by rewrite E, Z.bits_0).
  by rewrite Z.land_spec, H in H'.
Qed.

(** Recursive addresses reach the tables on the path. *)
Section recursion.
Context (m : memory) (c : Z) (Hrec : next_table m c 510 = Some c).

Lemma recursive_pml4 i : is_idx i → translate m c (get_current_pml4 + 8 * i) = Some (c, i).
Proof.
  intros. destruct (recursive_addrs 0) as (-> & _).
  rewrite translate_vaddr by solve_idx. by do 4 (rewrite Hrec; ocbn).
Qed.

Lemma recursive_pml3 virt t3 i :
  is_idx i → next_table m c (get_pml4_idx virt) = Some t3 →
  translate m c (get_pml4_entry virt + 8 * i) = Some (t3, i).
Proof.
  intros Hi H3. destruct (recursive_addrs virt) as (_ & -> & _).
  rewrite translate_vaddr by solve_idx.
  do 3 (rewrite Hrec; ocbn). by rewrite H3.
Qed.

Lemma recursive_pd virt t3 t2 i :
  is_idx i → next_table m c (get_pml4_idx virt) = Some t3 →
  next_table m t3 (get_pml3_idx virt) = Some t2 →
  translate m c (get_pml3_entry virt + 8 * i) = Some (t2, i).
Proof.
  intros Hi H3 H2. destruct (recursive_addrs virt) as (_ & _ & -> & _).
  rewrite translate_vaddr by solve_idx.
  do 2 (rewrite Hrec; ocbn). rewrite H3; ocbn. by rewrite H2.
Qed.

Lemma recursive_pt virt t3 t2 t1 i :
  is_idx i → next_table m c (get_pml4_idx virt) = Some t3 →
  next_table m t3 (get_pml3_idx virt) = Some t2 →
  next_table m t2 (get_pd_idx virt) = Some t1 →
  translate m c (get_pd_entry virt + 8 * i) = Some (t1, i).
Proof.
  intros Hi H3 H2 H1. destruct (recursive_addrs virt) as (_ & _ & _ & ->).
  rewrite translate_vaddr
    by solve_idx.
  rewrite Hrec; ocbn. rewrite H3; ocbn. rewrite H2; ocbn. by rewrite H1.
Qed.
End recursion.

(** Through a slot that holds frame [t] the code sees the words of [t]. *)
Lemma slot_translate m c K k t i :
  window m c K → is_slot k → is_idx i → t mod 4096 = 0 → 0 ≤ t < 2 ^ 52 →
  m !! (S1 K, k) = Some (rw t) →
  translate m c (slot k + 8 * i) = Some (t, i).
Proof.
  intros [_ H3 H2 H1] Hk Hi Ha Ht Hs. unfold slot, is_slot in *.
  rewrite translate_vaddr by solve_idx.
  rewrite H3; ocbn. rewrite H2; ocbn. rewrite H1; ocbn.
  rewrite (next_table_lookup _ _ _ _ Hs), rw_present. ocbn. by rewrite rw_phys.
Qed.

(** ** The operations on memory *)
Section wp_memory.
Context {F : Type} {frames_F : FrameAlloc F} {A : Type} {alloc_A : Allocator A}.
Abbreviation W := (mworld F A).
Implicit Types (w : W) (K : wtabs).

Lemma wp_vload va k v (Q : Z → W → Prop) w :
  translate (phys w) (cr3 w) va = Some k → phys w !! k = Some v → Q v w → wp (vload va) Q w.
Proof. intros Ht Hv HQ. unfold wp, vload. rewrite Ht. orun. by rewrite Hv. Qed.

Lemma wp_vstore va k v v0 (Q : unit → W → Prop) w :
  translate (phys w) (cr3 w) va = Some k → phys w !! k = Some v0 →
  Q tt (with_phys (<[k := v]> (phys w)) w) → wp (vstore va v) Q w.
Proof. intros Ht Hv HQ. unfold wp, vstore. rewrite Ht. orun. by rewrite Hv. Qed.

(** A level that is already there is left alone. *)
Lemma wp_ensure_level table idx child t (Q : unit → W → Prop) w f :
  translate (phys w) (cr3 w) (table + 8 * idx) = Some (t, idx) →
  next_table (phys w) t idx = Some f → Q tt w → wp (ensure_level table idx child) Q w.
Proof.
  intros Ht Hn HQ. apply next_table_Some in Hn as (e & He & Hp & _).
  unfold ensure_level. apply wp_bind. eapply wp_vload; [done..|].
  by rewrite present_mapped.
Qed.

(** [scratch_map_table] writes one entry of the window and nothing else. *)
Lemma wp_scratch K k f v0 (Q : Z → W → Prop) w :
  window (phys w) (cr3 w) K → is_slot k → phys w !! (S1 K, k) = Some v0 →
  Q (slot k) (with_phys (<[(S1 K, k) := rw f]> (phys w)) w) →
  wp (scratch_map_table (slot k) f) Q w.
Proof.
  intros [Hr H3 H2 H1] Hk Hv HQ. destruct (slot_idx k Hk) as (E4 & E3 & E2 & E1).
  assert (is_idx k) by (unfold is_slot, is_idx in *; lia).
  unfold scratch_map_table, map_in_current_cr3. rewrite E4, E3, E2, E1, slot_base by done.
  rewrite <- E4 in H3. rewrite <- E3 in H2. rewrite <- E2 in H1.
  apply wp_bind. change (511 =? RECURSIVE_IDX) with false. cbv iota.
  apply wp_bind. eapply wp_ensure_level;
    [apply recursive_pml4; [done|solve_idx]|rewrite <- E4; exact H3|].
  apply wp_bind. eapply wp_ensure_level;
    [eapply recursive_pml3; [done|solve_idx|exact H3]|rewrite <- E3; exact H2|].
  apply wp_bind. eapply wp_ensure_level;
    [eapply recursive_pd; [done|solve_idx|exact H3|exact H2]|rewrite <- E2; exact H1|].
  apply wp_bind. eapply wp_vstore;
    [eapply recursive_pt; [done|solve_idx|exact H3|exact H2|exact H1]|exact Hv|].
  apply wp_ret. rewrite slot_pos by (unfold is_slot in Hk; lia). by apply wp_ret.
Qed.

(** ** Clearing a page *)

(** The first [n] words from index [i] set to zero. *)
Fixpoint zero_words (n : nat) (f i : Z) (m : memory) : memory :=
  match n with
  | O => m
  | S n' => zero_words n' f (i + 1) (<[(f, i) := 0]> m)
  end.

Lemma zero_words_lookup n f i m k :
  zero_words n f i m !! k =
    if decide (k.1 = f ∧ i ≤ k.2 < i + Z.of_nat n) then Some 0 else m !! k.
Proof.
  revert i m. induction n as [|n IH]; intros i m; cbn [zero_words];
    [case_decide; [lia|done]|].
  rewrite IH. destruct k as [g j]. cbn [fst snd] in *.
  destruct (decide (g = f ∧ i + 1 ≤ j < i + 1 + Z.of_nat n));
    destruct (decide (g = f ∧ i ≤ j < i + Z.of_nat (S n))); try lia; [done| |].
  - assert (g = f ∧ j = i) as [-> ->] by lia. by rewrite lookup_insert_eq.
  - rewrite lookup_insert_ne; [done|]. intros [= <- <-]. lia.
Qed.

Definition not_window K w (f : Z) : Prop := f ≠ cr3 w ∧ f ≠ S3 K ∧ f ≠ S2 K ∧ f ≠ S1 K.

Lemma not_window_word K w f i : not_window K w f → ¬ window_word (cr3 w) K (f, i).
Proof. intros (? & ? & ? & ?) [[=]|[[=]|[[=]|[=]]]]; congruence. Qed.

Lemma wp_memset_words K n k f i (Q : unit → W → Prop) w :
  window (phys w) (cr3 w) K → is_slot k → phys w !! (S1 K, k) = Some (rw f) →
  f mod 4096 = 0 → 0 ≤ f < 2 ^ 52 → not_window K w f →
  0 ≤ i → i + Z.of_nat n ≤ 512 → (∀ j, is_idx j → is_Some (phys w !! (f, j))) →
  Q tt (with_phys (zero_words n f i (phys w)) w) →
  wp (memset_words n (slot k + 8 * i)) Q w.
Proof.
  revert i w. induction n as [|n IH]; intros i w Hw Hk Hs Ha Hf Hnw Hi Hn Hram HQ.
  { apply wp_ret. by destruct w. }
  cbn [memset_words]. destruct (Hram i) as [v Hv]; [unfold is_idx; lia|].
  apply wp_bind. eapply wp_vstore; [eapply slot_translate; try done; unfold is_idx; lia|exact Hv|].
  replace (slot k + 8 * i + 8) with (slot k + 8 * (i + 1)) by lia.
  apply IH; cbn [phys cr3 with_phys]; try done; try lia.
  - apply window_insert; [|done]. by apply not_window_word.
  - rewrite lookup_insert_ne; [done|]. destruct Hnw as (_ & _ & _ & ?). congruence.
  - intros j Hj. destruct (decide ((f, i) = (f, j))) as [->|];
      [rewrite lookup_insert_eq|rewrite lookup_insert_ne by done]; eauto.
Qed.
End wp_memory.

(** ** The tables of an address space

    [T] names every table of the lower half by the path of indices that leads
    to it from the root; no two paths share a table. *)
Abbreviation tables := (gmap (list Z) Z).

(** The indices below the table at path [p]: the root's upper half belongs to
    the kernel. *)
Definition path_idx (p : list Z) (i : Z) : Prop :=
  0 ≤ i < match p with [] => 256 | _ => 512 end.

Record tree (m : memory) (P : Z) (T : tables) : Prop := {
  t_root : T !! [] = Some P;
  t_inj p q f : T !! p = Some f → T !! q = Some f → p = q;
  (** Below a table that is not a leaf, an entry is present exactly when the
      child is in [T], and points to it. *)
  t_down p f i : T !! p = Some f → (length p < 3)%nat → path_idx p i →
    next_table m f i = T !! (p ++ [i]);
  t_up p i f : T !! (p ++ [i]) = Some f →
    is_Some (T !! p) ∧ path_idx p i ∧ (length p < 3)%nat;
  (** Entries that point to tables are writable. *)
  t_write p f i e : T !! p = Some f → (length p < 3)%nat → path_idx p i →
    m !! (f, i) = Some e → entry_is_present e = true → Z.testbit e 1 = true;
}.

Lemma path_idx_idx p i : path_idx p i → is_idx i.
Proof. unfold path_idx, is_idx. destruct p; lia. Qed.

(** The leaf entry of the page at path [a, b, c, d], if it is present. *)
Definition leaf (m : memory) (T : tables) (a b c d : Z) : option Z :=
  f ← T !! [a; b; c];
  e ← m !! (f, d);
  if entry_is_present e then Some e else None.

Lemma leaf_agree m m' T T' a b c d f :
  T !! [a; b; c] = Some f → T' !! [a; b; c] = Some f → m' !! (f, d) = m !! (f, d) →
  leaf m' T' a b c d = leaf m T a b c d.
Proof. intros H1 H2 H3. unfold leaf. rewrite H1, H2. ocbn. by rewrite H3. Qed.

(** Relaxing an entry keeps the tree. *)
Lemma tree_relax m P T p t i e e' :
  tree m P T → T !! p = Some t → (length p < 3)%nat → path_idx p i →
  m !! (t, i) = Some e → entry_phys e' = entry_phys e →
  entry_is_present e' = entry_is_present e → (Z.testbit e 1 = true → Z.testbit e' 1 = true) →
  tree (<[(t, i) := e']> m) P T.
Proof.
  intros HT Hp Hl Hi He Hph Hpr H1. split; [apply HT|apply HT| |apply HT|].
  - intros q f j Hq Hlq Hj. destruct (decide ((t, i) = (f, j))) as [[= -> ->]|Hne].
    + rewrite <- (t_down _ _ _ HT q f j) by done. unfold next_table.
      rewrite lookup_insert_eq, He. ocbn. by rewrite Hpr, Hph.
    + rewrite next_table_insert_ne by done. by apply (t_down _ _ _ HT q).
  - intros q f j e2 Hq Hlq Hj. destruct (decide ((t, i) = (f, j))) as [[= -> ->]|Hne].
    + rewrite lookup_insert_eq. intros [= <-]. rewrite Hpr. intros Hpe. apply H1.
      by apply (t_write _ _ _ HT q f j e).
    + rewrite lookup_insert_ne by done. by apply (t_write _ _ _ HT q).
Qed.

(** Words that no table of the tree uses as an entry for a table. *)
Lemma tree_agree m m' P T :
  tree m P T →
  (∀ p f i, T !! p = Some f → (length p < 3)%nat → path_idx p i → m' !! (f, i) = m !! (f, i)) →
  tree m' P T.
Proof.
  intros HT Hag. split; [apply HT|apply HT| |apply HT|].
  - intros p f i Hp Hl Hi. rewrite <- (t_down _ _ _ HT p f i) by done.
    by apply next_table_agree, (Hag p).
  - intros p f i e Hp Hl Hi. rewrite (Hag p) by done. by apply (t_write _ _ _ HT p).
Qed.

(** A cleared frame becomes the child at index [i] of the table at [p]. *)
Lemma tree_grow m m' P T p t i f e :
  tree m P T → T !! p = Some t → (length p < 3)%nat → path_idx p i →
  T !! (p ++ [i]) = None → (∀ q, T !! q ≠ Some f) →
  m' !! (t, i) = Some e → entry_is_present e = true → entry_phys e = f → Z.testbit e 1 = true →
  (∀ j, is_idx j → m' !! (f, j) = Some 0) →
  (∀ q g j, T !! q = Some g → (length q < 3)%nat → path_idx q j → (g, j) ≠ (t, i) →
     m' !! (g, j) = m !! (g, j)) →
  tree m' P (<[p ++ [i] := f]> T).
Proof.
  intros HT Hp Hl Hi Hnone Hfresh He Hpr Hph H1 Hz Hag.
  assert (∀ j, T !! ((p ++ [i]) ++ [j]) = None) as Hbelow.
  { intros j. apply eq_None_not_Some. intros [g Hg].
    apply (t_up _ _ _ HT) in Hg as [[? Hx] _]. congruence. }
  assert (∀ q j, q ++ [j] = p ++ [i] → q = p ∧ j = i) as Hsnoc
    by (intros q j [? [= ->]]%app_inj_2; done).
  split.
  - rewrite lookup_insert_ne by (by destruct p). apply HT.
  - intros q r g. rewrite !lookup_insert_Some.
    intros [[<- <-]|[_ Hq]] [[<- ?]|[_ Hr]]; simplify_eq; try done.
    + by apply Hfresh in Hr.
    + by apply Hfresh in Hq.
    + by eapply (t_inj _ _ _ HT).
  - intros q g j Hq Hlq Hj. apply lookup_insert_Some in Hq as [[<- <-]|[Hne Hq]].
    + rewrite lookup_insert_ne by (intros H%(f_equal length); rewrite !length_app in H; simpl in H; lia).
      rewrite Hbelow. unfold next_table. by rewrite Hz by (by eapply path_idx_idx).
    + destruct (decide ((g, j) = (t, i))) as [[= -> ->]|Hgj].
      * assert (q = p) as -> by (by eapply (t_inj _ _ _ HT)). rewrite lookup_insert_eq.
        rewrite (next_table_lookup _ _ _ _ He), Hpr. by f_equal.
      * rewrite lookup_insert_ne.
        2:{ intros H. symmetry in H. apply Hsnoc in H as [-> ->]. congruence. }
        rewrite <- (t_down _ _ _ HT q g j) by done. by apply next_table_agree, (Hag q).
  - intros q j g Hq. apply lookup_insert_Some in Hq as [[Heq <-]|[_ Hq]].
    + symmetry in Heq. apply Hsnoc in Heq as [-> ->]. split; [|done].
      rewrite lookup_insert_ne by (intros H%(f_equal length); rewrite !length_app in H; simpl in H; lia).
      by exists t.
    + apply (t_up _ _ _ HT) in Hq as ([x Hx] & ? & ?). split; [|done].
      destruct (decide (p ++ [i] = q)) as [->|]; [by rewrite lookup_insert_eq|].
      rewrite lookup_insert_ne by done. by exists x.
  - intros q g j e2 Hq Hlq Hj. apply lookup_insert_Some in Hq as [[<- <-]|[Hne Hq]].
    + rewrite Hz by (by eapply path_idx_idx). by intros [= <-].
    + destruct (decide ((g, j) = (t, i))) as [[= -> ->]|Hgj];
        [rewrite He; intros [= <-]; done|].
      rewrite (Hag q) by done. by apply (t_write _ _ _ HT q).
Qed.

(** ** The walk, one level *)
Section walk.
Context {F : Type} {frames_F : FrameAlloc F} {laws_F : FrameLaws F}.
Context {A : Type} {alloc_A : Allocator A}.
Abbreviation W := (mworld F A).
Implicit Types (w : W) (K : wtabs) (T : tables).

(** The machine state outside any one address space. *)
Record sys w K (L : gset Z) : Prop := {
  sys_frames : fa_rep (frames w) L;
  sys_ram f i : frame_ok (fa_top (frames w)) f → is_idx i → is_Some (phys w !! (f, i));
  sys_win : window (phys w) (cr3 w) K;
  sys_kernel f : f ∈ [cr3 w; S3 K; S2 K; S1 K] → f ∈ L ∧ frame_ok (fa_top (frames w)) f;
}.

(** An address space with root [P] and tables [T]: its tables are frames in
    use, apart from those of the window. *)
Record space w K (L : gset Z) (P : Z) T : Prop := {
  sp_sys : sys w K L;
  sp_tree : tree (phys w) P T;
  sp_live p f : T !! p = Some f → f ∈ L ∧ frame_ok (fa_top (frames w)) f;
  sp_apart p f : T !! p = Some f →
    f ≠ S3 K ∧ f ≠ S2 K ∧ f ≠ S1 K ∧ (p ≠ [] → f ≠ cr3 w);
}.

(** Everything but memory and the frame allocator is the same. *)
Definition same_rest w w' : Prop :=
  cr3 w' = cr3 w ∧ vmms w' = vmms w ∧ areas w' = areas w ∧
  virtual_directory w' = virtual_directory w ∧ g_kernel_vmm w' = g_kernel_vmm w ∧
  fa_top (frames w') = fa_top (frames w).

Lemma same_rest_refl w : same_rest w w.
Proof. done. Qed.
Lemma same_rest_trans w1 w2 w3 : same_rest w1 w2 → same_rest w2 w3 → same_rest w1 w3.
Proof. intros (?&?&?&?&?&?) (?&?&?&?&?&?). repeat split; congruence. Qed.

Lemma frame_bound w K L f : sys w K L → frame_ok (fa_top (frames w)) f → f mod 4096 = 0 ∧ 0 ≤ f < 2 ^ 52.
Proof. intros Hs [Ha Hf]. pose proof (fa_top_law _ _ (sys_frames _ _ _ Hs)). split; [done|lia]. Qed.

(** Table words below the root's upper half are not words of the window. *)
Lemma table_word w K L P T p t i :
  space w K L P T → T !! p = Some t → path_idx p i → ¬ window_word (cr3 w) K (t, i).
Proof.
  intros Hsp Hp Hi. destruct (sp_apart _ _ _ _ _ Hsp p t Hp) as (H3 & H2 & H1 & Hc).
  destruct p as [|x p].
  - unfold path_idx in Hi. intros [[= _ ?]|[[= _ ?]|[[= ? _]|[= ? _]]]]; (lia || congruence).
  - specialize (Hc ltac:(done)). intros [[= ? _]|[[= ? _]|[[= ? _]|[= ? _]]]]; congruence.
Qed.

Lemma sys_insert w K L k v : ¬ window_word (cr3 w) K k → sys w K L → sys (with_phys (<[k := v]> (phys w)) w) K L.
Proof.
  intros Hk [Hf Hr Hw Hl]. split; [done| |by apply window_insert|done].
  intros f i Hfr Hi. cbn. destruct (decide (k = (f, i))) as [->|];
    [rewrite lookup_insert_eq; eauto|rewrite lookup_insert_ne by done; by apply Hr].
Qed.

Lemma slot_word w K k : is_slot k → ¬ window_word (cr3 w) K (S1 K, k).
Proof. unfold is_slot. intros Hk [[= _ ?]|[[= _ ?]|[[= _ ?]|[= _ ?]]]]; lia. Qed.

(** Loads and stores through a slot that holds [t]. *)
Lemma slot_addr w K L k t i :
  sys w K L → is_slot k → is_idx i → frame_ok (fa_top (frames w)) t →
  phys w !! (S1 K, k) = Some (rw t) →
  translate (phys w) (cr3 w) (slot k + 8 * i) = Some (t, i).
Proof.
  intros Hs Hk Hi Ht Hsl. destruct (frame_bound _ _ _ _ Hs Ht).
  eapply slot_translate; [apply Hs|done..].
Qed.

Lemma wp_relax_entry table t i e virt flags (Q : unit → W → Prop) w :
  translate (phys w) (cr3 w) (table + 8 * i) = Some (t, i) → phys w !! (t, i) = Some e →
  translate (<[(t, i) := clear_nx e flags]> (phys w)) (cr3 w) (table + 8 * i) = Some (t, i) →
  Q tt (with_phys (<[(t, i) := relax e virt flags]> (phys w)) w) →
  wp (relax_entry table i virt flags) Q w.
Proof.
  intros Ht He Ht' HQ. unfold relax_entry. apply wp_bind. eapply wp_vload; [done..|].
  apply wp_bind. eapply wp_vstore; [done..|].
  apply wp_bind. eapply wp_vload; [exact Ht'|apply lookup_insert_eq|].
  eapply wp_vstore; [exact Ht'|apply lookup_insert_eq|].
  unfold with_phys. cbn [phys cr3 frames vmms areas virtual_directory g_kernel_vmm].
  by rewrite insert_insert_eq.
Qed.

(** Every frame is in use. *)
Definition full w (L : gset Z) : Prop := ∀ g, frame_ok (fa_top (frames w)) g → g ∈ L.

Lemma wp_alloc_frame K L (Q : Z → W → Prop) w :
  sys w K L →
  (∀ f, fa_rep f L → fa_top f = fa_top (frames w) → full w L → Q 0 (with_frames f w)) →
  (∀ a f, frame_ok (fa_top (frames w)) a → a ∉ L → fa_rep f ({[a]} ∪ L) →
     fa_top f = fa_top (frames w) → Q a (with_frames f w)) →
  wp alloc_frame Q w.
Proof.
  intros Hs H0 H1. destruct (fa_alloc_law _ _ (sys_frames _ _ _ Hs)) as (a & f & Hr & Ht & Hc).
  unfold wp, alloc_frame. rewrite Hr. orun.
  destruct Hc as [(-> & Hrep & Hfull)|(Hok & Hn & Hrep)]; eauto.
Qed.

(** What a successful step to the child at index [i] of table [t] leaves. *)
Record child_made w K (L : gset Z) (P : Z) T (p : list Z) (t i k flags : Z)
    w' (f : Z) T' (L' : gset Z) : Prop := {
  cm_space : space w' K L' P T';
  cm_child : T' !! (p ++ [i]) = Some f;
  cm_slot : phys w' !! (S1 K, k) = Some (rw f);
  cm_new : (T' = T ∧ L' = L) ∨
           (T !! (p ++ [i]) = None ∧ T' = <[p ++ [i] := f]> T ∧ L' = {[f]} ∪ L ∧ (f ∉ L) ∧
            ∀ j, is_idx j → phys w' !! (f, j) = Some 0);
  cm_entry : ∃ e, phys w' !! (t, i) = Some e ∧ entry_permits e flags;
  cm_frame g j : (g, j) ≠ (t, i) → (g = S1 K → 6 ≤ j) → (T !! (p ++ [i]) = None → g ≠ f) →
    phys w' !! (g, j) = phys w !! (g, j);
  cm_rest : same_rest w w';
}.

Lemma space_frames w K L P T f :
  space w K L P T → fa_rep f L → fa_top f = fa_top (frames w) → space (with_frames f w) K L P T.
Proof.
  intros [[Hf Hr Hw Hk] HT Hl Ha] Hrep Htop. split; [split| | |]; cbn; rewrite ?Htop; done.
Qed.

Lemma space_sys w w' K L P T :
  space w K L P T → sys w' K L → tree (phys w') P T → same_rest w w' → space w' K L P T.
Proof.
  intros Hsp Hs HT (Hc & _ & _ & _ & _ & Htop). split; [done|done| |].
  - rewrite Htop. apply Hsp.
  - rewrite Hc. apply Hsp.
Qed.

(** Writing a slot of the window leaves every tree alone. *)
Lemma tree_slot w K L P T k v :
  space w K L P T → tree (<[(S1 K, k) := v]> (phys w)) P T.
Proof.
  intros Hsp. apply (tree_agree (phys w)); [apply Hsp|]. intros p f i Hp _ _.
  apply lookup_insert_ne. destruct (sp_apart _ _ _ _ _ Hsp p f Hp) as (_ & _ & ? & _). congruence.
Qed.

(** The child exists: its entry is relaxed and it is mapped in the slot. *)
Lemma wp_child_present w K L P T p t i k k' virt flags create f :
  space w K L P T → T !! p = Some t → (length p < 3)%nat → path_idx p i →
  is_higher_half virt = false → is_slot k → is_slot k' → k ≠ k' →
  phys w !! (S1 K, k) = Some (rw t) → T !! (p ++ [i]) = Some f →
  wp (walk_to_child_table (slot k) i (slot k') virt flags create)
    (λ r w', r = slot k' ∧ child_made w K L P T p t i k' flags w' f T L) w.
Proof.
  intros Hsp Hp Hl Hi Hlow Hk Hk' Hkk Hsl Hc.
  pose proof (path_idx_idx _ _ Hi) as Hix. pose proof (sp_sys _ _ _ _ _ Hsp) as Hs.
  destruct (sp_live _ _ _ _ _ Hsp p t Hp) as [_ Htok].
  destruct (sp_apart _ _ _ _ _ Hsp p t Hp) as (_ & _ & Ht1 & _).
  pose proof (table_word _ _ _ _ _ _ _ _ Hsp Hp Hi) as Hnw.
  pose proof (t_down _ _ _ (sp_tree _ _ _ _ _ Hsp) p t i Hp Hl Hi) as Hd. rewrite Hc in Hd.
  apply next_table_Some in Hd as (e & He & Hpr & Hph).
  pose proof (t_write _ _ _ (sp_tree _ _ _ _ _ Hsp) p t i e Hp Hl Hi He Hpr) as Hwr.
  assert (∀ v, sys (with_phys (<[(t, i) := v]> (phys w)) w) K L) as Hsv by (intros; by apply sys_insert).
  assert (∀ v, <[(t, i) := v]> (phys w) !! (S1 K, k) = Some (rw t)) as Hslv
    by (intros v; rewrite lookup_insert_ne by congruence; done).
  unfold walk_to_child_table. apply wp_bind.
  eapply wp_vload; [by eapply slot_addr|exact He|]. rewrite Hpr. cbn [negb].
  apply wp_bind. eapply wp_relax_entry; [by eapply slot_addr|exact He| |].
  { exact (slot_addr _ K L k t i (Hsv _) Hk Hix Htok (Hslv _)). }
  set (m1 := <[(t, i) := relax e virt flags]> (phys w)).
  assert (space (with_phys m1 w) K L P T) as Hsp1.
  { eapply (space_sys w); [done|apply Hsv| |done]. eapply tree_relax; try done; [by apply Hsp|..].
    - apply relax_phys.
    - apply relax_present.
    - intros _. by apply relax_permits. }
  apply wp_bind. eapply wp_vload;
    [exact (slot_addr (with_phys m1 w) K L k t i (Hsv _) Hk Hix Htok (Hslv _))|apply lookup_insert_eq|].
  rewrite relax_phys, Hph.
  destruct (sys_ram _ _ _ (Hsv (relax e virt flags)) (S1 K) k') as [v0 Hv0];
    [apply Hs; set_solver|unfold is_slot, is_idx in *; lia|].
  eapply (wp_scratch K); [apply (sys_win _ _ _ (Hsv _))|done|exact Hv0|]. split; [done|].
  cbn [with_phys phys cr3 frames vmms areas virtual_directory g_kernel_vmm]. fold m1.
  assert ((t, i) ≠ (S1 K, k')) as Hne by congruence.
  split.
  - eapply (space_sys (with_phys m1 w)); [done| |by apply (tree_slot (with_phys m1 w) K L)|done].
    apply (sys_insert (with_phys m1 w)); [by apply (slot_word w)|apply Hsv].
  - done.
  - apply lookup_insert_eq.
  - by left.
  - exists (relax e virt flags). cbn. rewrite lookup_insert_ne by done. unfold m1.
    rewrite lookup_insert_eq. split; [done|by apply relax_permits].
  - intros g j Hg Hj _. cbn. rewrite lookup_insert_ne.
    2:{ intros [= <- <-]. specialize (Hj eq_refl). unfold is_slot in Hk'. lia. }
    unfold m1. by rewrite lookup_insert_ne.
  - done.
Qed.

(** The memory after a new child [f] has been installed at entry [i] of [t] and
    cleared through slot [k']. *)
Definition grown_memory (m : memory) K (t i k' f e : Z) : memory :=
  zero_words 512 f 0 (<[(S1 K, k') := rw f]> (<[(t, i) := e]> m)).

Lemma grown_lookup m K t i k' f e g j :
  is_idx j →
  grown_memory m K t i k' f e !! (g, j) =
    if decide (g = f) then Some 0 else <[(S1 K, k') := rw f]> (<[(t, i) := e]> m) !! (g, j).
Proof.
  unfold is_idx. intros Hj. unfold grown_memory. rewrite zero_words_lookup. cbn [fst snd].
  destruct (decide (g = f)); case_decide; (done || lia).
Qed.

Lemma grown_other m K t i k' f e g j :
  (g, j) ≠ (t, i) → (g, j) ≠ (S1 K, k') → g ≠ f →
  grown_memory m K t i k' f e !! (g, j) = m !! (g, j).
Proof.
  intros Ht Hs Hg. unfold grown_memory. rewrite zero_words_lookup. cbn [fst snd].
  rewrite decide_False by tauto. by rewrite !lookup_insert_ne.
Qed.
#[local] Opaque grown_memory.

Section create.
Context (w : W) (K : wtabs) (L : gset Z) (P : Z) (T : tables).
Context (p : list Z) (t i k k' virt flags : Z).
Context (Hsp : space w K L P T) (Hp : T !! p = Some t) (Hl : (length p < 3)%nat).
Context (Hi : path_idx p i) (Hlow : is_higher_half virt = false).
Context (Hk : is_slot k) (Hk' : is_slot k') (Hkk : k ≠ k').
Context (Hsl : phys w !! (S1 K, k) = Some (rw t)) (Hnone : T !! (p ++ [i]) = None).

Lemma create_entry : ∃ e, phys w !! (t, i) = Some e ∧ entry_is_present e = false.
Proof.
  pose proof (t_down _ _ _ (sp_tree _ _ _ _ _ Hsp) p t i Hp Hl Hi) as Hd. rewrite Hnone in Hd.
  destruct (sys_ram _ _ _ (sp_sys _ _ _ _ _ Hsp) t i) as [e He];
    [by apply (sp_live _ _ _ _ _ Hsp p)|by eapply path_idx_idx|].
  exists e. split; [done|]. rewrite (next_table_lookup _ _ _ _ He) in Hd.
  by destruct (entry_is_present e).
Qed.

Lemma create_fresh f : f ∉ L → not_window K w f ∧ (∀ q, T !! q ≠ Some f) ∧ f ≠ t.
Proof.
  intros HfL.
  pose proof (sys_kernel _ _ _ (sp_sys _ _ _ _ _ Hsp)) as Hkl.
  assert (∀ q, T !! q ≠ Some f) as Hq by (intros q Hq; by apply (sp_live _ _ _ _ _ Hsp) in Hq as [? _]).
  split; [|split; [done|intros ->; by apply (Hq p)]].
  assert (∀ g, g ∈ [cr3 w; S3 K; S2 K; S1 K] → f ≠ g) as H by (intros g Hg ->; by apply Hkl in Hg as [? _]).
  split_and!; apply H; rewrite !elem_of_cons; tauto.
Qed.

Context (f : Z) (fs : F) (Hf : frame_ok (fa_top (frames w)) f) (HfL : f ∉ L).
Context (Hrep : fa_rep fs ({[f]} ∪ L)) (Htop : fa_top fs = fa_top (frames w)).

Let e := Z.lor f (normalize_table_flags virt flags).
Let m' := grown_memory (phys w) K t i k' f e.
Let w' := with_phys m' (with_frames fs w).

Lemma create_new_entry : entry_is_present e = true ∧ entry_phys e = f ∧ entry_permits e flags.
Proof.
  destruct (table_flags_spec virt flags) as (Hm & H0 & _).
  destruct (frame_bound _ _ _ _ (sp_sys _ _ _ _ _ Hsp) Hf) as [Ha Hb].
  unfold e. split; [|split].
  - rewrite present_testbit, Z.lor_spec, H0. apply orb_true_r.
  - rewrite entry_phys_lor by done. by apply entry_phys_frame.
  - apply new_entry_permits; [done|]. intros _. apply (testbit_small f 63 52); lia.
Qed.

Lemma create_frame g j :
  (g, j) ≠ (t, i) → (g = S1 K → 6 ≤ j) → g ≠ f → m' !! (g, j) = phys w !! (g, j).
Proof.
  intros Hne Hj Hg. apply grown_other; [done| |done].
  intros [= -> ->]. specialize (Hj eq_refl). unfold is_slot in Hk'. lia.
Qed.

Lemma create_made : child_made w K L P T p t i k' flags w' f (<[p ++ [i] := f]> T) ({[f]} ∪ L).
Proof.
  unfold w'. destruct (create_fresh f HfL) as (Hnw & Hfr & Hft). destruct create_new_entry as (Hpr & Hph & Hpe).
  pose proof (path_idx_idx _ _ Hi) as Hix.
  destruct (sp_apart _ _ _ _ _ Hsp p t Hp) as (_ & _ & Ht1 & _).
  pose proof (table_word _ _ _ _ _ _ _ _ Hsp Hp Hi) as Htw.
  assert (m' !! (t, i) = Some e) as He.
  { unfold m'. rewrite grown_lookup by done. rewrite decide_False by congruence.
    rewrite lookup_insert_ne by congruence. apply lookup_insert_eq. }
  assert (tree m' P (<[p ++ [i] := f]> T)) as HT'.
  { eapply tree_grow; [apply Hsp|done..|exact He|done|done|apply Hpe| |].
    - intros j Hj. unfold m'. rewrite grown_lookup by done. by rewrite decide_True.
    - intros q g j Hq _ _ Hne. apply create_frame; [done| |intros ->; by apply Hfr in Hq].
      intros ->. by apply (sp_apart _ _ _ _ _ Hsp) in Hq as (_ & _ & ? & _). }
  pose proof (sp_sys _ _ _ _ _ Hsp) as Hs. destruct Hnw as (Hc & H3 & H2 & H1).
  split; wcbn.
  - split.
    + split; wcbn; rewrite ?Htop; [done| | |].
      * intros g j Hg Hj. unfold m'. rewrite grown_lookup by done.
        destruct (decide (g = f)); [by eexists|]. 
        pose proof (sys_insert w K L (t, i) e Htw Hs) as Hs1.
        by apply (sys_ram _ _ _ (sys_insert _ K L (S1 K, k') (rw f) (slot_word _ K k' Hk') Hs1)).
      * apply (window_agree (phys w)); [|apply Hs]. intros [g j] Hgj. apply create_frame.
        -- intros [= -> ->]. done.
        -- intros ->. destruct Hgj as [[= _ ->]|[[= _ ->]|[[= _ ->]|[= _ ->]]]]; lia.
        -- intros ->. destruct Hgj as [[=]|[[=]|[[=]|[=]]]]; congruence.
      * intros g [Hg ?]%(sys_kernel _ _ _ Hs). split; [by apply elem_of_union_r|done].
    + done.
    + wcbn. rewrite Htop. intros q g [[_ <-]|[_ Hq]]%lookup_insert_Some;
        [split; [by apply elem_of_union_l, elem_of_singleton|done]|].
      apply (sp_live _ _ _ _ _ Hsp) in Hq as [? ?]. split; [by apply elem_of_union_r|done].
    + wcbn. intros q g [[_ <-]|[_ Hq]]%lookup_insert_Some; [done|]. by apply (sp_apart _ _ _ _ _ Hsp).
  - apply lookup_insert_eq.
  - unfold m'. rewrite grown_lookup by (unfold is_slot, is_idx in *; lia).
    rewrite decide_False by congruence. apply lookup_insert_eq.
  - right. split_and!; try done. intros j Hj. unfold m'. rewrite grown_lookup by done. by rewrite decide_True.
  - by exists e.
  - intros g j Hne Hj Hg. apply create_frame; auto.
  - by split_and!.
Qed.
End create.

(** The child is made: a fresh cleared table. *)
Lemma wp_child_absent w K L P T p t i k k' virt flags create :
  space w K L P T → T !! p = Some t → (length p < 3)%nat → path_idx p i →
  is_higher_half virt = false → is_slot k → is_slot k' → k ≠ k' →
  phys w !! (S1 K, k) = Some (rw t) → T !! (p ++ [i]) = None →
  wp (walk_to_child_table (slot k) i (slot k') virt flags create)
    (λ r w', (r = 0 ∧ space w' K L P T ∧ phys w' = phys w ∧ same_rest w w' ∧ (create = true → full w L)) ∨
             (create = true ∧ r = slot k' ∧ ∃ f, child_made w K L P T p t i k' flags w' f
                           (<[p ++ [i] := f]> T) ({[f]} ∪ L))) w.
Proof.
  intros Hsp Hp Hl Hi Hlow Hk Hk' Hkk Hsl Hnone.
  destruct (create_entry w K L P T p t i Hsp Hp Hl Hi Hnone) as (e & He & Hpr).
  pose proof (path_idx_idx _ _ Hi) as Hix. pose proof (sp_sys _ _ _ _ _ Hsp) as Hs.
  destruct (sp_live _ _ _ _ _ Hsp p t Hp) as [_ Htok].
  unfold walk_to_child_table. apply wp_bind.
  eapply wp_vload; [by eapply slot_addr|exact He|]. rewrite Hpr. cbn [negb].
  destruct create; cbn [negb]; [|apply wp_ret; left; by split_and!].
  apply wp_bind. eapply wp_alloc_frame; [done|..].
  { intros fs Hrep Htop Hfull. apply wp_ret. left. split_and!; try done. by apply space_frames. }
  intros f fs Hf HfL Hrep Htop.
  assert ((f =? 0) = false) as -> by (apply Z.eqb_neq; destruct Hf; lia).
  destruct (create_fresh w K L P T p t Hsp Hp f HfL) as (Hnw & Hfr & Hft).
  destruct (sp_apart _ _ _ _ _ Hsp p t Hp) as (_ & _ & Ht1 & _).
  pose proof (table_word _ _ _ _ _ _ _ _ Hsp Hp Hi) as Htw.
  apply wp_bind. eapply wp_vstore;
    [exact (slot_addr w K L k t i Hs Hk Hix Htok Hsl)|exact He|].
  pose proof (sys_insert w K L (t, i) (Z.lor f (normalize_table_flags virt flags)) Htw Hs) as Hs1.
  apply wp_bind.
  destruct (sys_ram _ _ _ Hs1 (S1 K) k') as [v0 Hv0];
    [apply Hs; rewrite !elem_of_cons; tauto|unfold is_slot, is_idx in *; lia|].
  eapply (wp_scratch K); [apply (sys_win _ _ _ Hs1)|done|exact Hv0|].
  pose proof (sys_insert _ K L (S1 K, k') (rw f) (slot_word _ K k' Hk') Hs1) as Hs2.
  rewrite slot_pos by (unfold is_slot in Hk'; lia). apply wp_bind.
  destruct (frame_bound _ _ _ _ Hs Hf) as [Ha Hb].
  unfold memset_page. replace (slot k') with (slot k' + 8 * 0) at 1 by lia.
  eapply (wp_memset_words K 512 k' f 0);
    [exact (sys_win _ _ _ Hs2)|exact Hk'|apply lookup_insert_eq|exact Ha|exact Hb|exact Hnw|lia|lia| |].
  - intros j Hj. by apply (sys_ram _ _ _ Hs2).
  - apply wp_ret. right. split; [done|]. split; [done|]. exists f.
    exact (create_made w K L P T p t i k' virt flags Hsp Hp Hl Hi Hlow Hk' Hnone f fs Hf HfL Hrep Htop).
Qed.

(** One level of the walk, in either case. *)
Definition child_result w K L P T p t i k' flags (create : bool) (r : Z) w' : Prop :=
  (r = 0 ∧ space w' K L P T ∧ phys w' = phys w ∧ same_rest w w' ∧ T !! (p ++ [i]) = None ∧
   (create = true → full w L)) ∨
  (r = slot k' ∧ ∃ f T' L', child_made w K L P T p t i k' flags w' f T' L' ∧
   (create = false → T' = T ∧ L' = L)).

Lemma wp_walk_child w K L P T p t i k k' virt flags create :
  space w K L P T → T !! p = Some t → (length p < 3)%nat → path_idx p i →
  is_higher_half virt = false → is_slot k → is_slot k' → k ≠ k' →
  phys w !! (S1 K, k) = Some (rw t) →
  wp (walk_to_child_table (slot k) i (slot k') virt flags create)
     (child_result w K L P T p t i k' flags create) w.
Proof.
  intros Hsp Hp Hl Hi Hlow Hk Hk' Hkk Hsl. destruct (T !! (p ++ [i])) as [f|] eqn:Hc.
  - eapply wp_mono; [by apply (wp_child_present w K L P T p t i k k' virt flags create f)|]. intros r w' [-> Hm].
    right. split; [done|]. by exists f, T, L.
  - eapply wp_mono; [by apply (wp_child_absent w K L P T p t i k k' virt flags create)|].
    intros r w' [(-> & ? & ? & ? & ?)|(-> & -> & f & Hm)]; [left; by split_and!|].
    right. split; [done|]. by eexists f, _, _.
Qed.

(** ** What any part of a walk may do to the machine *)
Record evolves w K (L : gset Z) (P : Z) T w' (L' : gset Z) T' : Prop := {
  ev_space : space w' K L' P T';
  ev_sub p f : T !! p = Some f → T' !! p = Some f;
  (** The frames taken are the new tables. *)
  ev_live f : f ∈ L' ↔ f ∈ L ∨ ∃ p, T !! p = None ∧ T' !! p = Some f;
  ev_fresh p f : T !! p = None → T' !! p = Some f → f ∉ L;
  (** No page of the space changes. *)
  ev_leaf a b c d : is_idx d → leaf (phys w') T' a b c d = leaf (phys w) T a b c d;
  (** Only the space's tables and the slots of the window are written, and not
      the kernel's half of the root. *)
  ev_frame g j : (∀ p, T' !! p ≠ Some g) → (g = S1 K → 6 ≤ j) → phys w' !! (g, j) = phys w !! (g, j);
  ev_root j : 256 ≤ j → phys w' !! (P, j) = phys w !! (P, j);
  ev_rest : same_rest w w';
}.

Lemma evolves_mem w K L P T w' :
  space w K L P T → space w' K L P T → phys w' = phys w → same_rest w w' →
  evolves w K L P T w' L T.
Proof.
  intros Hsp Hsp' Hm Hr. split; try rewrite Hm; try done.
  - intros f. split; [by left|]. intros [?|(p & ? & ?)]; congruence.
  - congruence.
Qed.

Lemma evolves_refl w K L P T : space w K L P T → evolves w K L P T w L T.
Proof. intros. by apply evolves_mem. Qed.

Lemma evolves_trans w K L P T w1 L1 T1 w2 L2 T2 :
  evolves w K L P T w1 L1 T1 → evolves w1 K L1 P T1 w2 L2 T2 → evolves w K L P T w2 L2 T2.
Proof.
  intros [Hs Hsub Hlv Hfs Hlf Hfr Hrt Hre] [Hs' Hsub' Hlv' Hfs' Hlf' Hfr' Hrt' Hre']. split.
  - done.
  - eauto.
  - intros f. rewrite Hlv', Hlv. split.
    + intros [[?|(p & Hn & Hp)]|(p & Hn & Hp)]; [by left|right; eauto|].
      right. exists p. split; [|done]. destruct (T !! p) eqn:E; [|done]. apply Hsub in E. congruence.
    + intros [?|(p & Hn & Hp)]; [by left; left|].
      destruct (T1 !! p) as [f'|] eqn:E; [|right; eauto].
      left; right. exists p. split; [done|]. apply Hsub' in E as E'. congruence.
  - intros p f Hn Hp. destruct (T1 !! p) as [f'|] eqn:E.
    + apply Hsub' in E as E'. simplify_eq. by eapply Hfs.
    + intros HL. eapply Hfs'; [done..|]. apply Hlv. by left.
  - intros a b c d Hd. by rewrite Hlf', Hlf.
  - intros g j Hg Hj. rewrite Hfr' by done. apply Hfr; [|done].
    intros p Hp%Hsub'. by apply (Hg p).
  - intros j Hj. by rewrite Hrt', Hrt.
  - by eapply same_rest_trans.
Qed.

Lemma child_evolves w K L P T p t i k' flags w' f T' L' :
  space w K L P T → T !! p = Some t → (length p < 3)%nat → path_idx p i →
  child_made w K L P T p t i k' flags w' f T' L' → evolves w K L P T w' L' T'.
Proof.
  intros Hsp Hp Hl Hi Hm. pose proof (sp_tree _ _ _ _ _ Hsp) as HT.
  assert (∀ q g, T !! q = Some g → T' !! q = Some g) as Hsub.
  { intros q g Hq. destruct (cm_new _ _ _ _ _ _ _ _ _ _ _ _ _ _ Hm) as [[-> _]|(Hn & -> & _)]; [done|].
    rewrite lookup_insert_ne; [done|congruence]. }
  assert (∀ g, T !! (p ++ [i]) = None → g ∈ L → g ≠ f) as Hold.
  { intros g Hn Hg ->. destruct (cm_new _ _ _ _ _ _ _ _ _ _ _ _ _ _ Hm) as [[-> _]|(_ & _ & _ & ? & _)];
      [|done]. by rewrite (cm_child _ _ _ _ _ _ _ _ _ _ _ _ _ _ Hm) in Hn. }
  split.
  - apply Hm.
  - done.
  - intros g. destruct (cm_new _ _ _ _ _ _ _ _ _ _ _ _ _ _ Hm) as [[-> ->]|(Hn & -> & -> & _)].
    + split; [by left|]. intros [?|(? & ? & ?)]; congruence.
    + rewrite elem_of_union, elem_of_singleton. split.
      * intros [->|?]; [right|by left]. exists (p ++ [i]). by rewrite lookup_insert_eq.
      * intros [?|(q & Hq & [[_ <-]|[_ ?]]%lookup_insert_Some)]; [by right|by left|congruence].
  - intros q g Hn Hq. destruct (cm_new _ _ _ _ _ _ _ _ _ _ _ _ _ _ Hm) as [[-> _]|(_ & -> & _ & Hf & _)];
      [congruence|]. apply lookup_insert_Some in Hq as [[_ <-]|[_ ?]]; [done|congruence].
  - intros a b c d Hd. destruct (T !! [a; b; c]) as [g|] eqn:Hg.
    + eapply leaf_agree; [done|by apply Hsub|]. apply (cm_frame _ _ _ _ _ _ _ _ _ _ _ _ _ _ Hm).
      * intros [= -> ->]. assert (p = [a; b; c]) as -> by (by eapply (t_inj _ _ _ HT)). simpl in Hl. lia.
      * intros ->. by apply (sp_apart _ _ _ _ _ Hsp) in Hg as (_ & _ & ? & _).
      * intros Hn. apply Hold; [done|]. by apply (sp_live _ _ _ _ _ Hsp) in Hg as [? _].
    + unfold leaf. rewrite Hg. ocbn.
      destruct (cm_new _ _ _ _ _ _ _ _ _ _ _ _ _ _ Hm) as [[-> _]|(Hn & -> & _ & _ & Hz)]; [by rewrite Hg|].
      destruct (decide (p ++ [i] = [a; b; c])) as [Heq|Heq].
      * rewrite Heq, lookup_insert_eq. ocbn. by rewrite Hz.
      * by rewrite lookup_insert_ne, Hg.
  - intros g j Hg Hj. apply (cm_frame _ _ _ _ _ _ _ _ _ _ _ _ _ _ Hm); [|done|].
    + intros [= -> ->]. by apply (Hg p), Hsub.
    + intros _ ->. apply (Hg (p ++ [i])), Hm.
  - intros j Hj. apply (cm_frame _ _ _ _ _ _ _ _ _ _ _ _ _ _ Hm).
    + intros [= -> ->]. assert (p = []) as -> by (eapply (t_inj _ _ _ HT); [done|apply HT]).
      unfold path_idx in Hi. lia.
    + intros ->. pose proof (t_root _ _ _ HT) as Hr.
      by apply (sp_apart _ _ _ _ _ Hsp) in Hr as (_ & _ & ? & _).
    + intros Hn. apply Hold; [done|]. pose proof (t_root _ _ _ HT) as Hr.
      by apply (sp_live _ _ _ _ _ Hsp) in Hr as [? _].
  - apply Hm.
Qed.

(** ** The whole walk *)

Lemma evolves_slot w K L P T k v :
  space w K L P T → is_slot k →
  evolves w K L P T (with_phys (<[(S1 K, k) := v]> (phys w)) w) L T.
Proof.
  intros Hsp Hk. pose proof (sp_sys _ _ _ _ _ Hsp) as Hs.
  assert (∀ p f j, T !! p = Some f → <[(S1 K, k) := v]> (phys w) !! (f, j) = phys w !! (f, j)) as Ht.
  { intros p f j Hp. apply lookup_insert_ne.
    apply (sp_apart _ _ _ _ _ Hsp) in Hp as (_ & _ & ? & _). congruence. }
  split; wcbn.
  - eapply (space_sys w); [done|apply sys_insert; [by apply slot_word|done]| |done]. by eapply tree_slot.
  - done.
  - intros f. split; [by left|]. intros [?|(? & ? & ?)]; congruence.
  - congruence.
  - intros a b c d _. unfold leaf. destruct (T !! [a; b; c]) as [f|] eqn:E; [|done]. ocbn. by rewrite (Ht _ _ _ E).
  - intros g j _ Hj. apply lookup_insert_ne. intros [= <- <-]. specialize (Hj eq_refl).
    unfold is_slot in Hk. lia.
  - intros j _. eapply Ht, Hsp.
  - done.
Qed.

(** The entries on the path to a page allow what the mapping asks for. *)
Definition path_permits (m : memory) (P : Z) T (a b c flags : Z) : Prop :=
  ∃ t3 t2 e4 e3 e2, T !! [a] = Some t3 ∧ T !! [a; b] = Some t2 ∧
    m !! (P, a) = Some e4 ∧ m !! (t3, b) = Some e3 ∧ m !! (t2, c) = Some e2 ∧
    entry_permits e4 flags ∧ entry_permits e3 flags ∧ entry_permits e2 flags.

(** A step below another table does not change an entry made before it. *)
Lemma child_keeps w K L P T p t i k' flags w' f T' L' q g j :
  space w K L P T → T !! p = Some t → T !! q = Some g → q ≠ p →
  child_made w K L P T p t i k' flags w' f T' L' → phys w' !! (g, j) = phys w !! (g, j).
Proof.
  intros Hsp Hp Hq Hne Hm. apply (cm_frame _ _ _ _ _ _ _ _ _ _ _ _ _ _ Hm).
  - intros [= -> ->]. by apply Hne; eapply (t_inj _ _ _ (sp_tree _ _ _ _ _ Hsp)).
  - intros ->. by apply (sp_apart _ _ _ _ _ Hsp) in Hq as (_ & _ & ? & _).
  - intros Hn ->. destruct (cm_new _ _ _ _ _ _ _ _ _ _ _ _ _ _ Hm) as [[-> _]|(_ & _ & _ & ? & _)].
    + by rewrite (cm_child _ _ _ _ _ _ _ _ _ _ _ _ _ _ Hm) in Hn.
    + by apply (sp_live _ _ _ _ _ Hsp) in Hq as [? _].
Qed.

Lemma tree_below m P T p q : tree m P T → T !! p = None → T !! (p ++ q) = None.
Proof.
  intros HT Hp. induction q as [|x q IH] using rev_ind; [by rewrite app_nil_r|].
  rewrite app_assoc. apply eq_None_not_Some. intros [f Hf].
  apply (t_up _ _ _ HT) in Hf as [[? ?] _]. congruence.
Qed.

Definition walk_result w K (L : gset Z) (P : Z) T (virt flags : Z) (create : bool) (r : Z) w' : Prop :=
  let a := get_pml4_idx virt in
  let b := get_pml3_idx virt in
  let c := get_pd_idx virt in
  ∃ T' L', evolves w K L P T w' L' T' ∧ (create = false → T' = T ∧ L' = L) ∧
    ((r = 0 ∧ T !! [a; b; c] = None ∧ (create = true → full w' L')) ∨
     (r = slot 5 ∧ ∃ f, T' !! [a; b; c] = Some f ∧ phys w' !! (S1 K, 5) = Some (rw f) ∧
      path_permits (phys w') P T' a b c flags)).

Lemma evolves_none w K L P T w' L' T' p :
  evolves w K L P T w' L' T' → T' !! p = None → T !! p = None.
Proof. intros Hev Hn. destruct (T !! p) eqn:E; [|done]. apply (ev_sub _ _ _ _ _ _ _ _ Hev) in E. congruence. Qed.

Lemma full_same w w' L : same_rest w w' → full w L → full w' L.
Proof. intros (_ & _ & _ & _ & _ & Ht) Hf g. rewrite Ht. apply Hf. Qed.

(** A walk that stops at a missing table. *)
Lemma walk_stops w K L P T virt flags create w1 L1 T1 w2 p q :
  evolves w K L P T w1 L1 T1 → (create = false → T1 = T ∧ L1 = L) →
  space w2 K L1 P T1 → phys w2 = phys w1 → same_rest w1 w2 → T1 !! p = None →
  [get_pml4_idx virt; get_pml3_idx virt; get_pd_idx virt] = p ++ q →
  (create = true → full w1 L1) → walk_result w K L P T virt flags create 0 w2.
Proof.
  intros Hev Hc Hsp2 Hm Hr Hn Hpq Hfull. exists T1, L1. split; [|split; [done|left]].
  - eapply evolves_trans; [done|]. apply evolves_mem; [apply Hev|done..].
  - split; [done|]. split; [|intros Hcr; by eapply full_same, Hfull].
    rewrite Hpq. eapply evolves_none; [done|]. eapply tree_below; [apply (ev_space _ _ _ _ _ _ _ _ Hev)|done].
Qed.
End walk.
