(* ===== verification/AddrSpace.v ===== *)
(** * AddrSpace: mapping and unmapping pages

    [walk_non_kernel_to_pt] and the operations of [vmm.c] built on it, as
    updates of the abstract address space: the function from the path of a page
    to its leaf entry. *)
From S2P Require Import Prelude Alloc Vma Pmm Frames Paging PagingSpec.

Section walk.
Context {F : Type} {frames_F : FrameAlloc F} {laws_F : FrameLaws F}.
Context {A : Type} {alloc_A : Allocator A}.
Abbreviation W := (mworld F A).
Implicit Types (w : W) (K : wtabs) (T : tables).

Lemma low_idx virt : is_higher_half virt = false →
  path_idx [] (get_pml4_idx virt) ∧ (get_pml4_idx virt =? RECURSIVE_IDX) = false.
Proof.
  unfold is_higher_half, path_idx, KERNEL_PML4_FIRST, RECURSIVE_IDX.
  pose proof (pml4_idx_range virt) as Hr. unfold is_idx in Hr.
  intros H%Z.leb_gt. split; [lia|apply Z.eqb_neq; lia].
Qed.

Lemma wp_load_vmm v vm (Q : vmm → W → Prop) w : vmms w !! v = Some vm → Q vm w → wp (load_vmm v) Q w.
Proof. intros Hv HQ. unfold wp, load_vmm. by rewrite Hv. Qed.

(** The last level of the walk. *)
Lemma wp_walk_last w K L P T w1 L1 T1 w2 f3 T2 L2 w3 f2 T3 L3 virt flags create :
  let a := get_pml4_idx virt in
  let b := get_pml3_idx virt in
  let c := get_pd_idx virt in
  evolves w K L P T w1 L1 T1 → (create = false → T1 = T ∧ L1 = L) → is_higher_half virt = false →
  child_made w1 K L1 P T1 [] P a 3 flags w2 f3 T2 L2 → (create = false → T2 = T1 ∧ L2 = L1) →
  child_made w2 K L2 P T2 [a] f3 b 4 flags w3 f2 T3 L3 → (create = false → T3 = T2 ∧ L3 = L2) →
  wp (walk_to_child_table (slot 4) c (slot 5) virt flags create)
     (walk_result w K L P T virt flags create) w3.
Proof.
  intros a b c Hev Hc1 Hlow Hm2 Hc2 Hm3 Hc3. destruct (low_idx virt Hlow) as [Ha _].
  pose proof (ev_space _ _ _ _ _ _ _ _ Hev) as Hsp1.
  pose proof (cm_space _ _ _ _ _ _ _ _ _ _ _ _ _ _ Hm2) as Hsp2.
  pose proof (cm_space _ _ _ _ _ _ _ _ _ _ _ _ _ _ Hm3) as Hsp3.
  pose proof (cm_child _ _ _ _ _ _ _ _ _ _ _ _ _ _ Hm2) as H3. cbn [app] in H3.
  pose proof (cm_child _ _ _ _ _ _ _ _ _ _ _ _ _ _ Hm3) as H2. cbn [app] in H2.
  pose proof (t_root _ _ _ (sp_tree _ _ _ _ _ Hsp1)) as Hr1.
  pose proof (t_root _ _ _ (sp_tree _ _ _ _ _ Hsp2)) as Hr2.
  pose proof (t_root _ _ _ (sp_tree _ _ _ _ _ Hsp3)) as Hr3.
  assert (path_idx [a] b) as Hb by (unfold path_idx; apply pml3_idx_range).
  assert (path_idx [a; b] c) as Hcx by (unfold path_idx; apply pd_idx_range).
  pose proof (child_evolves _ _ _ _ _ _ _ _ _ _ _ _ _ _ Hsp1 Hr1 ltac:(simpl; lia) Ha Hm2) as Hev2.
  pose proof (child_evolves _ _ _ _ _ _ _ _ _ _ _ _ _ _ Hsp2 H3 ltac:(simpl; lia) Hb Hm3) as Hev3.
  pose proof (evolves_trans _ _ _ _ _ _ _ _ _ _ _ (evolves_trans _ _ _ _ _ _ _ _ _ _ _ Hev Hev2) Hev3) as Hev'.
  assert (create = false → T3 = T ∧ L3 = L) as Hc'.
  { intros Hcr. destruct (Hc1 Hcr) as [-> ->], (Hc2 Hcr) as [-> ->]. by apply Hc3. }
  eapply wp_mono.
  { apply (wp_walk_child w3 K L3 P T3 [a; b] f2 c 4 5 virt flags create); try done.
    - simpl; lia.
    - apply (cm_slot _ _ _ _ _ _ _ _ _ _ _ _ _ _ Hm3). }
  intros r w4 [(-> & Hsp4 & Hm & Hr & Hn & Hfull)|(-> & f & T4 & L4 & Hm4 & Hc4)].
  { eapply (walk_stops _ _ _ _ _ _ _ _ w3 L3 T3 w4 [a; b; c] []); done. }
  pose proof (child_evolves _ _ _ _ _ _ _ _ _ _ _ _ _ _ Hsp3 H2 ltac:(simpl; lia) Hcx Hm4) as Hev4.
  exists T4, L4. split; [by eapply evolves_trans|]. split.
  { intros Hcr. destruct (Hc' Hcr) as [-> ->]. by apply Hc4. }
  right. split; [done|]. exists f. split; [apply Hm4|]. split; [apply Hm4|].
  pose proof (ev_sub _ _ _ _ _ _ _ _ Hev3 _ _ H3) as H3'.
  destruct (cm_entry _ _ _ _ _ _ _ _ _ _ _ _ _ _ Hm2) as (e4 & He4 & Hp4).
  destruct (cm_entry _ _ _ _ _ _ _ _ _ _ _ _ _ _ Hm3) as (e3 & He3 & Hp3).
  destruct (cm_entry _ _ _ _ _ _ _ _ _ _ _ _ _ _ Hm4) as (e2 & He2 & Hp2).
  exists f3, f2, e4, e3, e2. split_and!; try done.
  - by apply (ev_sub _ _ _ _ _ _ _ _ Hev4).
  - by apply (ev_sub _ _ _ _ _ _ _ _ Hev4).
  - etrans; [by apply (child_keeps w3 K L3 P T3 [a; b] f2 c 5 flags w4 f T4 L4 [] P a)|].
    etrans; [by apply (child_keeps w2 K L2 P T2 [a] f3 b 4 flags w3 f2 T3 L3 [] P a)|done].
  - etrans; [by apply (child_keeps w3 K L3 P T3 [a; b] f2 c 5 flags w4 f T4 L4 [a] f3 b)|done].
Qed.

(** [walk_non_kernel_to_pt] reaches the page table of a lower-half address, and
    makes the missing tables when asked to. *)
Lemma wp_walk w K L P T v vm virt flags create :
  space w K L P T → vmms w !! v = Some vm → pml4_phys vm = P → is_higher_half virt = false →
  wp (walk_non_kernel_to_pt v virt flags create) (walk_result w K L P T virt flags create) w.
Proof.
  intros Hsp Hv HP Hlow. destruct (low_idx virt Hlow) as [Ha Hrec].
  unfold walk_non_kernel_to_pt. rewrite Hrec. apply wp_bind. eapply wp_load_vmm; [done|].
  rewrite HP. change VIRT_SCRATCH_L4 with (slot 2). change VIRT_SCRATCH_L3 with (slot 3).
  change VIRT_SCRATCH_L2 with (slot 4). change VIRT_SCRATCH_L1 with (slot 5).
  pose proof (sp_sys _ _ _ _ _ Hsp) as Hs.
  destruct (sys_ram _ _ _ Hs (S1 K) 2) as [v0 Hv0];
    [apply Hs; rewrite !elem_of_cons; tauto|unfold is_idx; lia|].
  apply wp_bind. eapply (wp_scratch K); [apply Hs|unfold is_slot; lia|done|].
  rewrite slot_pos by lia.
  pose proof (evolves_slot w K L P T 2 (rw P) Hsp ltac:(unfold is_slot; lia)) as Hev1.
  set (w1 := with_phys _ w) in Hev1 |- *.
  assert (phys w1 !! (S1 K, 2) = Some (rw P)) as Hsl1 by apply lookup_insert_eq. clearbody w1.
  pose proof (ev_space _ _ _ _ _ _ _ _ Hev1) as Hsp1.
  pose proof (t_root _ _ _ (sp_tree _ _ _ _ _ Hsp1)) as Hr1.
  apply wp_bind. eapply wp_mono.
  { apply (wp_walk_child w1 K L P T [] P _ 2 3 virt flags create); try done. simpl; lia. }
  intros r w2 [(-> & Hsp2 & Hm & Hr & Hn & Hfull)|(-> & f3 & T2 & L2 & Hm2 & Hc2)].
  { apply wp_ret. eapply (walk_stops _ _ _ _ _ _ _ _ w1 L T w2 [_] [_; _]); done. }
  rewrite slot_pos by lia.
  pose proof (cm_space _ _ _ _ _ _ _ _ _ _ _ _ _ _ Hm2) as Hsp2.
  pose proof (cm_child _ _ _ _ _ _ _ _ _ _ _ _ _ _ Hm2) as H3. cbn [app] in H3.
  pose proof (child_evolves _ _ _ _ _ _ _ _ _ _ _ _ _ _ Hsp1 Hr1 ltac:(simpl; lia) Ha Hm2) as Hev2.
  apply wp_bind. eapply wp_mono.
  { apply (wp_walk_child w2 K L2 P T2 [get_pml4_idx virt] f3 _ 3 4 virt flags create); try done.
    - simpl; lia.
    - unfold path_idx; apply pml3_idx_range.
    - apply (cm_slot _ _ _ _ _ _ _ _ _ _ _ _ _ _ Hm2). }
  intros r w3 [(-> & Hsp3 & Hm & Hr & Hn & Hfull)|(-> & f2 & T3 & L3 & Hm3 & Hc3)].
  { apply wp_ret. eapply (walk_stops _ _ _ _ _ _ _ _ w2 L2 T2 w3
      [get_pml4_idx virt; get_pml3_idx virt] [_]); try done.
    by eapply evolves_trans. }
  rewrite slot_pos by lia. by eapply wp_walk_last.
Qed.

(** ** Pages of the lower half *)

(** The addresses of the lower half. *)
Definition user_addr (x : Z) : Prop := 0 ≤ x < 2 ^ 47.

Lemma user_low x : user_addr x → is_higher_half x = false.
Proof.
  unfold user_addr. intros Hx. unfold is_higher_half, KERNEL_PML4_FIRST.
  destruct (idx_spec x) as (-> & _). apply Z.leb_gt. zdiv.
Qed.

Lemma same_page x y :
  user_addr x → user_addr y →
  get_pml4_idx x = get_pml4_idx y → get_pml3_idx x = get_pml3_idx y →
  get_pd_idx x = get_pd_idx y → get_pt_idx x = get_pt_idx y → x / 4096 = y / 4096.
Proof.
  unfold user_addr. intros Hx Hy.
  destruct (idx_spec x) as (-> & -> & -> & ->), (idx_spec y) as (-> & -> & -> & ->).
  intros. zdiv.
Qed.

Lemma page_idx x y :
  x / 4096 = y / 4096 →
  get_pml4_idx x = get_pml4_idx y ∧ get_pml3_idx x = get_pml3_idx y ∧
  get_pd_idx x = get_pd_idx y ∧ get_pt_idx x = get_pt_idx y.
Proof.
  intros H. destruct (idx_spec x) as (-> & -> & -> & ->), (idx_spec y) as (-> & -> & -> & ->).
  assert (∀ z n, 0 ≤ n → z / 2 ^ (12 + n) = (z / 4096) / 2 ^ n) as Hd.
  { intros z n Hn. rewrite Z.pow_add_r by lia. change (2 ^ 12) with 4096.
    by rewrite Z.div_div by lia. }
  change (2 ^ 39) with (2 ^ (12 + 27)). change (2 ^ 30) with (2 ^ (12 + 18)).
  change (2 ^ 21) with (2 ^ (12 + 9)). change (2 ^ 12) with 4096.
  rewrite !Hd by lia. by rewrite H.
Qed.

Lemma mask_base x : is_u64 x → Z.land x MAPPING_STRUCTURE_MASK = x - x mod 4096.
Proof.
  intros Hx. change MAPPING_STRUCTURE_MASK with (UINT64_MAX - (2 ^ 12 - 1)).
  by apply land_high_mask.
Qed.

(** The hardware walk of a lower-half address is the look-up in the tree. *)
Lemma entry_at_leaf m P T x :
  tree m P T → is_higher_half x = false →
  entry_at m P x = leaf m T (get_pml4_idx x) (get_pml3_idx x) (get_pd_idx x) (get_pt_idx x).
Proof.
  intros HT Hx. destruct (low_idx x Hx) as [Ha _]. unfold entry_at, leaf.
  rewrite (t_down _ _ _ HT [] P) by (apply HT || done || (simpl; lia)). cbn [app].
  assert (∀ p q, T !! p = None → T !! (p ++ q) = None) as Hno by (intros; by eapply tree_below).
  destruct (T !! [get_pml4_idx x]) as [t3|] eqn:E3; ocbn.
  2:{ pose proof (Hno [_] [get_pml3_idx x; get_pd_idx x] E3) as E. cbn [app] in E. by rewrite E. }
  rewrite (t_down _ _ _ HT [_] t3)
    by (done || (simpl; lia) || (unfold path_idx; apply pml3_idx_range)). cbn [app].
  destruct (T !! [get_pml4_idx x; get_pml3_idx x]) as [t2|] eqn:E2; ocbn.
  2:{ pose proof (Hno [_; _] [get_pd_idx x] E2) as E. cbn [app] in E. by rewrite E. }
  rewrite (t_down _ _ _ HT [_; _] t2)
    by (done || (simpl; lia) || (unfold path_idx; apply pd_idx_range)). done.
Qed.

(** A present entry as what a walk finds. *)
Definition visible (e : Z) : option Z := if entry_is_present e then Some e else None.

(** Storing a leaf entry changes one page. *)
Lemma space_store_leaf w K L P T virt f e :
  space w K L P T → user_addr virt →
  T !! [get_pml4_idx virt; get_pml3_idx virt; get_pd_idx virt] = Some f →
  let w' := with_phys (<[(f, get_pt_idx virt) := e]> (phys w)) w in
  space w' K L P T ∧
  ∀ x, user_addr x →
    entry_at (phys w') P x = if x / 4096 =? virt / 4096 then visible e else entry_at (phys w) P x.
Proof.
  intros Hsp Hu Hf w'. pose proof (sp_tree _ _ _ _ _ Hsp) as HT.
  assert (tree (phys w') P T) as HT'.
  { apply (tree_agree (phys w)); [done|]. intros p g i Hp Hl Hi. apply lookup_insert_ne.
    intros [= -> _]. assert (p = [get_pml4_idx virt; get_pml3_idx virt; get_pd_idx virt]) as ->
      by (by eapply (t_inj _ _ _ HT)). simpl in Hl. lia. }
  split.
  - eapply (space_sys w); [done| |done|done]. apply sys_insert; [|apply Hsp].
    eapply (table_word _ _ _ _ _ _ _ _ Hsp Hf). unfold path_idx. apply pt_idx_range.
  - intros x Hx. rewrite !(entry_at_leaf _ P T) by (done || by apply user_low).
    destruct (Z.eqb_spec (x / 4096) (virt / 4096)) as [E|Hne].
    + destruct (page_idx _ _ E) as (-> & -> & -> & ->). unfold leaf. rewrite Hf. ocbn.
      unfold w'. wcbn. by rewrite lookup_insert_eq.
    + destruct (T !! [get_pml4_idx x; get_pml3_idx x; get_pd_idx x]) as [g|] eqn:Hg;
        [|unfold leaf; by rewrite Hg].
      eapply leaf_agree; [done..|]. unfold w'. wcbn. apply lookup_insert_ne. intros [= -> Ht].
      apply Hne, same_page; try done; assert ([get_pml4_idx x; get_pml3_idx x; get_pd_idx x] =
        [get_pml4_idx virt; get_pml3_idx virt; get_pd_idx virt]) as [= H1 H2 H3]
        by (by eapply (t_inj _ _ _ HT)); congruence.
Qed.

(** ** Mapping a page *)

(** What an operation on an address space may touch: its own tables, fresh
    frames that become its tables, and the slots of the window. *)
Record touched w K (L : gset Z) (P : Z) T w' (L' : gset Z) T' : Prop := {
  to_space : space w' K L' P T';
  to_sub p f : T !! p = Some f → T' !! p = Some f;
  to_live : L ⊆ L';
  to_fresh p f : T !! p = None → T' !! p = Some f → f ∉ L;
  to_frame g j : (∀ p, T' !! p ≠ Some g) → (g = S1 K → 6 ≤ j) → phys w' !! (g, j) = phys w !! (g, j);
  to_root j : 256 ≤ j → phys w' !! (P, j) = phys w !! (P, j);
  to_rest : same_rest w w';
}.

Lemma evolves_touched w K L P T w' L' T' :
  evolves w K L P T w' L' T' → touched w K L P T w' L' T'.
Proof.
  intros [? ? Hlv ? ? ? ? ?]. split; try done. intros f Hf. apply Hlv. by left.
Qed.

Lemma touched_trans w K L P T w1 L1 T1 w2 L2 T2 :
  touched w K L P T w1 L1 T1 → touched w1 K L1 P T1 w2 L2 T2 → touched w K L P T w2 L2 T2.
Proof.
  intros [Hs Hsub Hlv Hfs Hfr Hrt Hre] [Hs' Hsub' Hlv' Hfs' Hfr' Hrt' Hre']. split.
  - done.
  - eauto.
  - by trans L1.
  - intros p f Hn Hp. destruct (T1 !! p) as [f'|] eqn:E.
    + apply Hsub' in E as E'. simplify_eq. by eapply Hfs.
    + intros HL%Hlv. by eapply Hfs'.
  - intros g j Hg Hj. rewrite Hfr' by done. apply Hfr; [|done].
    intros p Hp%Hsub'. by apply (Hg p).
  - intros j Hj. by rewrite Hrt', Hrt.
  - by eapply same_rest_trans.
Qed.

Lemma evolves_entry w K L P T w' L' T' x :
  space w K L P T → evolves w K L P T w' L' T' → user_addr x →
  entry_at (phys w') P x = entry_at (phys w) P x.
Proof.
  intros Hsp Hev Hx%user_low.
  rewrite (entry_at_leaf _ P T') by (done || apply (ev_space _ _ _ _ _ _ _ _ Hev)).
  rewrite (entry_at_leaf _ P T) by (done || apply Hsp).
  apply Hev, pt_idx_range.
Qed.

Lemma touched_store w K L P T w' L' T' virt f e :
  touched w K L P T w' L' T' → user_addr virt →
  T' !! [get_pml4_idx virt; get_pml3_idx virt; get_pd_idx virt] = Some f →
  touched w K L P T (with_phys (<[(f, get_pt_idx virt) := e]> (phys w')) w') L' T'.
Proof.
  intros [Hsp Hsub Hlv Hfs Hfr Hrt Hre] Hu Hf.
  destruct (space_store_leaf _ _ _ _ _ virt f e Hsp Hu Hf) as [Hsp' _].
  split; [done..| | |done]; wcbn.
  - intros g j Hg Hj. rewrite lookup_insert_ne by (intros [= -> _]; by apply Hg in Hf). by apply Hfr.
  - intros j Hj. rewrite lookup_insert_ne; [by apply Hrt|]. intros [= -> _].
    pose proof (t_root _ _ _ (sp_tree _ _ _ _ _ Hsp)) as Hr.
    assert ([get_pml4_idx virt; get_pml3_idx virt; get_pd_idx virt] = []) as [=]
      by (by eapply (t_inj _ _ _ (sp_tree _ _ _ _ _ Hsp))).
Qed.

(** Another address space does not notice. *)
Lemma touched_other w K L P T w' L' T' P2 T2 x :
  touched w K L P T w' L' T' → space w K L P2 T2 →
  (∀ p q f, T !! p = Some f → T2 !! q ≠ Some f) → user_addr x →
  entry_at (phys w') P2 x = entry_at (phys w) P2 x.
Proof.
  intros Hto Hsp2 Hdis Hx%user_low.
  assert (∀ q f j, T2 !! q = Some f → phys w' !! (f, j) = phys w !! (f, j)) as Hw.
  { intros q f j Hq. apply (to_frame _ _ _ _ _ _ _ _ Hto).
    - intros p Hp. destruct (T !! p) as [f'|] eqn:E.
      + rewrite (to_sub _ _ _ _ _ _ _ _ Hto _ _ E) in Hp. simplify_eq. by eapply Hdis.
      + destruct (sp_live _ _ _ _ _ Hsp2 _ _ Hq) as [HfL _].
        by eapply (to_fresh _ _ _ _ _ _ _ _ Hto).
    - intros ->. by apply (sp_apart _ _ _ _ _ Hsp2) in Hq as (_ & _ & ? & _). }
  assert (tree (phys w') P2 T2) as HT2
    by (apply (tree_agree (phys w)); [apply Hsp2|]; eauto).
  rewrite !(entry_at_leaf _ P2 T2) by (done || apply Hsp2).
  destruct (T2 !! [get_pml4_idx x; get_pml3_idx x; get_pd_idx x]) as [g|] eqn:Hg;
    [|unfold leaf; by rewrite Hg].
  eapply leaf_agree; eauto.
Qed.

(** What mapping [e] at [virt] leaves: it fails for want of a frame and no page
    of the space changes, or the entry is there, every other page is what it
    was, and the tables above allow what [flags] ask for. *)
Definition map_post w K (L : gset Z) (P : Z) T (virt flags e r : Z) w' : Prop :=
  ∃ L' T', touched w K L P T w' L' T' ∧
    ((r = 0 ∧ full w' L' ∧ ∀ x, user_addr x → entry_at (phys w') P x = entry_at (phys w) P x) ∨
     (r = virt - virt mod 4096 ∧
      path_permits (phys w') P T' (get_pml4_idx virt) (get_pml3_idx virt) (get_pd_idx virt) flags ∧
      ∀ x, user_addr x → entry_at (phys w') P x =
        if x / 4096 =? virt / 4096 then visible e else entry_at (phys w) P x)).

Lemma wp_map_after_walk w K L P T v vm virt flags e :
  space w K L P T → vmms w !! v = Some vm → pml4_phys vm = P → user_addr virt →
  wp (pt ← walk_non_kernel_to_pt v virt flags true;
      if pt =? 0 then mret 0
      else _ ← vstore (pt + 8 * get_pt_idx virt) e; mret (Z.land virt MAPPING_STRUCTURE_MASK))
     (map_post w K L P T virt flags e) w.
Proof.
  intros Hsp Hv HP Hu. apply wp_bind. eapply wp_mono; [by eapply wp_walk, user_low|].
  intros r w' (T' & L' & Hev & _ & [(-> & Hn & Hfull)|(-> & f & Hf & Hsl & Hperm)]).
  - apply wp_ret. exists L', T'. split; [by apply evolves_touched|]. left.
    split; [done|]. split; [by apply Hfull|]. intros x Hx. by eapply evolves_entry.
  - rewrite slot_pos by lia. pose proof (ev_space _ _ _ _ _ _ _ _ Hev) as Hsp'.
    destruct (sp_live _ _ _ _ _ Hsp' _ _ Hf) as [_ Hfok].
    pose proof (sp_sys _ _ _ _ _ Hsp') as Hs'.
    destruct (sys_ram _ _ _ Hs' f (get_pt_idx virt) Hfok (pt_idx_range virt)) as [v0 Hv0].
    apply wp_bind. eapply wp_vstore; [|exact Hv0|].
    { eapply slot_addr; [done|unfold is_slot; lia|apply pt_idx_range|done..]. }
    apply wp_ret. exists L', T'. split; [apply touched_store; [by apply evolves_touched|done..]|].
    right. rewrite mask_base by (unfold user_addr, is_u64 in *; lia). split; [done|]. split.
    + destruct Hperm as (t3 & t2 & e4 & e3 & e2 & H3 & H2 & He4 & He3 & He2 & Hp).
      exists t3, t2, e4, e3, e2. pose proof (sp_tree _ _ _ _ _ Hsp') as HT.
      assert (∀ p g j, T' !! p = Some g → (length p < 3)%nat →
        <[(f, get_pt_idx virt) := e]> (phys w') !! (g, j) = phys w' !! (g, j)) as Hkeep.
      { intros p g j Hp' Hl. apply lookup_insert_ne. intros [= -> _].
        assert (p = [get_pml4_idx virt; get_pml3_idx virt; get_pd_idx virt]) as ->
          by (by eapply (t_inj _ _ _ HT)). simpl in Hl. lia. }
      wcbn. rewrite (Hkeep [] P) by (apply HT || (simpl; lia)).
      rewrite (Hkeep _ _ _ H3), (Hkeep _ _ _ H2) by (simpl; lia).
      do 5 (split; [done|]). exact Hp.
    + intros x Hx. destruct (space_store_leaf _ _ _ _ _ virt f e Hsp' Hu Hf) as [_ He]. rewrite (He x Hx).
      case_match; [done|]. by eapply evolves_entry.
Qed.

Lemma wp_map_at_paddr w K L P T v vm virt ph flags :
  space w K L P T → vmms w !! v = Some vm → pml4_phys vm = P → user_addr virt →
  v ≠ g_kernel_vmm w →
  wp (map_at_paddr_internal v virt ph flags)
     (map_post w K L P T virt flags (Z.lor ph (normalize_leaf_flags virt flags))) w.
Proof.
  intros Hsp Hv HP Hu Hk. unfold map_at_paddr_internal.
  destruct (low_idx virt (user_low _ Hu)) as [_ ->]. apply wp_bind, wp_gets.
  assert ((v =? g_kernel_vmm w) = false) as -> by (by apply Z.eqb_neq). cbn [negb].
  by eapply wp_map_after_walk.
Qed.

(** Unmapping: fails when the page has no table, and otherwise clears the one
    entry. *)
Lemma wp_unmap_internal w K L P T v vm virt :
  space w K L P T → vmms w !! v = Some vm → pml4_phys vm = P → user_addr virt →
  v ≠ g_kernel_vmm w →
  wp (unmap_internal v virt)
     (λ r w', touched w K L P T w' L T ∧
        (r = 0 ∨ r = virt - virt mod 4096) ∧
        (r = 0 → 4096 ≤ virt → entry_at (phys w) P virt = None) ∧
        ∀ x, user_addr x → entry_at (phys w') P x =
          if x / 4096 =? virt / 4096 then None else entry_at (phys w) P x) w.
Proof.
  intros Hsp Hv HP Hu Hk. unfold unmap_internal.
  destruct (low_idx virt (user_low _ Hu)) as [_ ->]. apply wp_bind, wp_gets.
  assert ((v =? g_kernel_vmm w) = false) as -> by (by apply Z.eqb_neq). cbn [negb].
  apply wp_bind. eapply wp_mono; [by eapply wp_walk, user_low|].
  intros r w' (T' & L' & Hev & Hsame & Hcase). destruct (Hsame eq_refl) as [-> ->].
  pose proof (ev_space _ _ _ _ _ _ _ _ Hev) as Hsp'.
  destruct Hcase as [(-> & Hn & _)|(-> & f & Hf & Hsl & _)].
  - apply wp_ret. assert (∀ x, user_addr x → x / 4096 = virt / 4096 → entry_at (phys w) P x = None) as Hno.
    { intros x Hx E. rewrite (entry_at_leaf _ P T) by (apply Hsp || by apply user_low).
      destruct (page_idx _ _ E) as (-> & -> & -> & _). unfold leaf. by rewrite Hn. }
    split; [by apply evolves_touched|]. split; [by left|]. split; [intros; by apply Hno|].
    intros x Hx. rewrite (evolves_entry w K L P T w' L T) by done.
    destruct (Z.eqb_spec (x / 4096) (virt / 4096)); [by apply Hno|done].
  - rewrite slot_pos by lia. destruct (sp_live _ _ _ _ _ Hsp' _ _ Hf) as [_ Hfok].
    pose proof (sp_sys _ _ _ _ _ Hsp') as Hs'.
    destruct (sys_ram _ _ _ Hs' f (get_pt_idx virt) Hfok (pt_idx_range virt)) as [v0 Hv0].
    apply wp_bind. eapply wp_vstore; [|exact Hv0|].
    { eapply slot_addr; [done|unfold is_slot; lia|apply pt_idx_range|done..]. }
    apply wp_ret. rewrite mask_base by (unfold user_addr, is_u64 in *; lia).
    split; [apply touched_store; [by apply evolves_touched|done..]|]. split; [by right|].
    split; [intros H0 Hge; exfalso; zdiv|].
    intros x Hx. destruct (space_store_leaf _ _ _ _ _ virt f 0 Hsp' Hu Hf) as [_ He]. rewrite (He x Hx).
    case_match; [done|]. by eapply evolves_entry.
Qed.

(** ** Permissions *)

Lemma leaf_flags_testbit virt flags i :
  is_higher_half virt = false → 0 ≤ i < 64 → i ≠ 9 → i ≠ 63 →
  Z.testbit (normalize_leaf_flags virt flags) i = Z.testbit flags i.
Proof.
  intros Hh Hi H9 H63. unfold normalize_leaf_flags. rewrite Hh. cbn [andb].
  assert (∀ x k, 0 ≤ k < 64 → k ≠ i → Z.testbit (Z.land x (not64 (2 ^ k))) i = Z.testbit x i) as Hclr.
  { intros x k Hk Hne. rewrite Z.land_spec.
    replace (not64 (2 ^ k)) with (Z.ldiff (Z.ones 64) (2 ^ k)).
    - rewrite Z.ldiff_spec, Z.ones_spec_low, Z.pow2_bits_false by lia. apply andb_true_r.
    - change (not64 (2 ^ k)) with (Z.ones 64 - 2 ^ k).
      rewrite Z.sub_nocarry_ldiff; [done|]. apply Z.bits_inj'. intros n Hn.
      rewrite Z.ldiff_spec, Z.bits_0. destruct (Z.eq_dec n k) as [->|].
      + rewrite Z.ones_spec_low by lia. apply andb_false_r.
      + by rewrite Z.pow2_bits_false by lia. }
  change PAGE_EXECUTABLE with (2 ^ 9). change PAGE_NO_EXECUTE with (2 ^ 63).
  destruct (has flags (2 ^ 9)); rewrite ?(Hclr _ 63), (Hclr _ 9) by lia; done.
Qed.

Lemma leaf_flags_exec virt flags :
  is_higher_half virt = false → has flags PAGE_EXECUTABLE = true →
  Z.testbit (normalize_leaf_flags virt flags) 63 = false.
Proof.
  intros Hh He. unfold normalize_leaf_flags. rewrite Hh, He. cbn [andb negb].
  rewrite Z.land_spec. apply andb_false_r.
Qed.

(** The permissions of a page whose tables allow what [flags] ask for are those
    of its leaf entry. *)
Lemma permits_perms m P T virt flags e :
  tree m P T → is_higher_half virt = false →
  path_permits m P T (get_pml4_idx virt) (get_pml3_idx virt) (get_pd_idx virt) flags →
  entry_at m P virt = Some e →
  ∃ us nx, perms_at m P virt = Some (Z.testbit e 1, us, nx) ∧
    (has flags PAGE_USER_ACCESIBLE = true → us = Z.testbit e 2) ∧
    (Z.testbit e 2 = false → us = false) ∧
    (has flags PAGE_EXECUTABLE = true → nx = Z.testbit e 63) ∧
    (Z.testbit e 63 = true → nx = true).
Proof.
  intros HT Hlow (t3 & t2 & e4 & e3 & e2 & H3 & H2 & He4 & He3 & He2 & Hp4 & Hp3 & Hp2) He.
  destruct (low_idx virt Hlow) as [Ha _]. unfold perms_at. rewrite He4. ocbn.
  rewrite (t_down _ _ _ HT [] P) by (apply HT || done || (simpl; lia)). cbn [app]. rewrite H3. ocbn.
  rewrite He3. ocbn. rewrite (t_down _ _ _ HT [_] t3)
    by (done || (simpl; lia) || (unfold path_idx; apply pml3_idx_range)). cbn [app]. rewrite H2. ocbn.
  rewrite He2. ocbn. rewrite He. ocbn.
  destruct Hp4 as (-> & U4 & X4), Hp3 as (-> & U3 & X3), Hp2 as (-> & U2 & X2).
  eexists _, _. split; [done|]. cbn [andb orb]. split_and!.
  - intros Hu. by rewrite U4, U3, U2.
  - intros ->. apply andb_false_r.
  - intros Hx. by rewrite X4, X3, X2.
  - intros ->. apply orb_true_r.
Qed.

(** The end of the walk: the entry just mapped. *)
Lemma map_post_perms w K L P T virt flags ph r w' :
  user_addr virt → 4096 ≤ virt → entry_phys ph = ph → 0 ≤ ph →
  map_post w K L P T virt flags (Z.lor ph (normalize_leaf_flags virt flags)) r w' →
  r ≠ 0 → Z.testbit flags 0 = true →
  ∃ nx, perms_at (phys w') P virt = Some (Z.testbit flags 1, Z.testbit flags 2, nx) ∧
    (has flags PAGE_EXECUTABLE = true → nx = false).
Proof.
  intros Hu Hge Hph Hph0 (L' & T' & Hto & Hcase) Hr0 Hp0.
  destruct Hcase as [(-> & _)|(-> & Hperm & He)]; [done|].
  specialize (He virt Hu). rewrite Z.eqb_refl in He.
  pose proof (user_low _ Hu) as Hlow.
  assert (∀ i, 0 ≤ i < 9 →
    Z.testbit (Z.lor ph (normalize_leaf_flags virt flags)) i = Z.testbit flags i) as Hbit.
  { intros i Hi. rewrite Z.lor_spec, leaf_flags_testbit by (done || lia).
    rewrite <- Hph. unfold entry_phys. rewrite Z.land_spec.
    change ENTRY_PHYS_MASK with (Z.shiftl (Z.ones 40) 12).
    by rewrite Z.shiftl_spec_low, andb_false_r by lia. }
  unfold visible in He. rewrite present_testbit, Hbit, Hp0 in He by lia.
  destruct (permits_perms _ _ _ _ _ _ (sp_tree _ _ _ _ _ (to_space _ _ _ _ _ _ _ _ Hto)) Hlow Hperm He)
    as (us & nx & -> & U1 & U0 & X1 & X0).
  rewrite Hbit in U1, U0 by lia. rewrite Hbit by lia.
  exists nx. split.
  - do 3 f_equal. rewrite <- has_user in *. destruct (has flags PAGE_USER_ACCESIBLE); auto.
  - intros Hx. rewrite X1 by done. rewrite Z.lor_spec, leaf_flags_exec by done.
    rewrite <- Hph. unfold entry_phys. by rewrite Z.land_spec, andb_false_r.
Qed.
End walk.
