(* ===== verification/Vmm.v ===== *)
(** * Vmm: the interface of [kernel/memory/vmm.c]

    Address spaces as the rest of the kernel sees them: creating, copying and
    freeing one, mapping and unmapping pages together with the areas that
    record them, and looking for free room.  The page tables are those of
    [Paging], the areas those of [Vma]. *)
From S2P Require Import Prelude Alloc Bitmap Sync Pmm Frames Vma Paging PagingSpec AddrSpace.

(** [sizeof(vmm_t)]. *)
Definition VMM_SIZEOF : Z := 40.

Definition set_vma_list (v : vmm) (h : Z) : vmm :=
  MkVmm (first_available_vaddr v) (last_available_vaddr v) (kernel_offset v) (pml4_phys v) h.

Section ops.
Context {F : Type} {frames_F : FrameAlloc F} {A : Type} {alloc_A : Allocator A}.
Abbreviation W := (mworld F A).

Definition with_vmms (m : gmap Z vmm) (w : W) : W :=
  MkMW (phys w) (cr3 w) (frames w) m (areas w) (virtual_directory w) (g_kernel_vmm w).
Definition with_areas (a : vworld A) (w : W) : W :=
  MkMW (phys w) (cr3 w) (frames w) (vmms w) a (virtual_directory w) (g_kernel_vmm w).

(** An area operation on [&vmm->vma_list]. *)
Definition on_areas {B} (v : Z) (op : prog (vworld A) B) : prog W B := λ w,
  vm ← deref (vmms w !! v);
  '(b, a) ← op (MkVW (nodes (areas w)) (vma_list vm) (alloc (areas w)));
  Ret (b, with_areas a (with_vmms (<[v := set_vma_list vm (head a)]> (vmms w)) w)).

(** ** Areas of mappings *)

Definition track_vma (v virt flags : Z) : prog W bool :=
  k ← gets g_kernel_vmm;
  if (v =? 0) || (v =? k) then mret false
  else if is_higher_half virt then mret false
  else mret (negb (Z.land flags PAGE_USER_ACCESIBLE =? 0)).

Definition insert_vma (v virt byte_count flags : Z) : prog W bool :=
  t ← track_vma v virt flags;
  if negb t then mret true
  else if byte_count =? 0 then mret true
  else if UINT64_MAX - virt <? u64 (byte_count - 1) then mret false
  else on_areas v (vma_insert true virt (u64 (virt + byte_count - 1)) flags 0 0).

Definition remove_vma (v virt : Z) : prog W bool :=
  k ← gets g_kernel_vmm;
  if (v =? 0) || (v =? k) then mret true
  else if is_higher_half virt then mret true
  else on_areas v (vma_remove true virt (Z.lor virt (PAGE_SIZE - 1))).

(** ** Mapping *)

Definition map_single (v virt flags : Z) : prog W Z :=
  new_page ← alloc_frame;
  if new_page =? 0 then mret 0
  else map_at_paddr_internal v virt new_page flags.

(** [while (page_count-- > 0)]; [false] is the early return. *)
Fixpoint map_loop (n : nat) (v virt flags : Z) : prog W bool :=
  match n with
  | O => mret true
  | S n' =>
      res ← map_single v virt flags;
      if res =? 0 then mret false
      else map_loop n' v (u64 (virt + PAGE_SIZE)) flags
  end.

Definition vmm_map (v virt page_count flags : Z) : prog W Z :=
  let virt_base := Z.land virt MAPPING_STRUCTURE_MASK in
  if UINT64_MAX / PAGE_SIZE <? page_count then mret 0
  else
    let byte_count := u64 (page_count * PAGE_SIZE) in
    ok ← insert_vma v virt_base byte_count flags;
    if negb ok then mret 0
    else
      ok ← map_loop (Z.to_nat page_count) v virt flags;
      if (ok : bool) then mret virt_base
      else
        _ ← remove_vma v virt_base;
        mret 0.

Definition vmm_map_at_paddr (v virt phys_ flags : Z) : prog W Z :=
  let virt_base := Z.land virt MAPPING_STRUCTURE_MASK in
  ok ← insert_vma v virt_base PAGE_SIZE flags;
  if negb ok then mret 0
  else
    r ← map_at_paddr_internal v virt phys_ flags;
    if r =? 0 then
      _ ← remove_vma v (Z.land virt MAPPING_STRUCTURE_MASK);
      mret 0
    else mret r.

Definition vmm_unmap (v virt : Z) : prog W Z :=
  virt_base ← unmap_internal v virt;
  if virt_base =? 0 then mret 0
  else
    ok ← remove_vma v virt_base;
    if negb ok then mret 0 else mret virt_base.

(** ** Room: [(KERNEL_PML4_FIRST << 39) - 1] is the last user address.  The
    result is [Some] the value stored through [out]. *)
Definition USER_MAX : Z := Z.shiftl KERNEL_PML4_FIRST 39 - 1.

Definition vmm_find_free_region_forward (v hint length : Z) (out : bool) : prog W (option Z) :=
  if (v =? 0) || negb out then mret None
  else
    vm ← load_vmm v;
    on_areas v (vma_find_free_forward (vma_list vm) hint (first_available_vaddr vm) USER_MAX length out).

Definition vmm_find_free_region_backward (v hint max length : Z) (out : bool) : prog W (option Z) :=
  if (v =? 0) || negb out then mret None
  else
    vm ← load_vmm v;
    let max := if USER_MAX <? max then USER_MAX else max in
    on_areas v (vma_find_free_backward (vma_list vm) hint (first_available_vaddr vm) max length out).

Definition vmm_find_free_region_fixed (v addr length : Z) (out : bool) : prog W (option Z) :=
  if (v =? 0) || negb out then mret None
  else
    vm ← load_vmm v;
    on_areas v (vma_find_free_fixed (vma_list vm) addr (first_available_vaddr vm) USER_MAX length out).

(** ** Walking the lower half *)

(** [for (i = i0; ...; ++i)] with [n] iterations; [false] is a [return false]
    of the body. *)
Fixpoint for_idx (n : nat) (i : Z) (body : Z → prog W bool) : prog W bool :=
  match n with
  | O => mret true
  | S n' =>
      ok ← body i;
      if (ok : bool) then for_idx n' (i + 1) body else mret false
  end.

(** Entry [idx] of table [phys_], seen through the scratch page [s]; the loop
    body [k] runs on a present entry. *)
Definition with_entry (s phys_ idx : Z) (k : Z → prog W bool) : prog W bool :=
  table ← scratch_map_table s phys_;
  if table =? 0 then mret false
  else
    e ← vload (table + 8 * idx);
    if negb (entry_is_present e) then mret true else k e.

(** The tail of a loop over a table: its frame is freed when asked to. *)
Definition then_free (m : prog W bool) (free_tables : bool) (table : Z) : prog W bool :=
  ok ← m;
  if (ok : bool) then _ ← when free_tables (free_frame table); mret true else mret false.

Definition walk_lower_mappings (v : Z) (callback : Z → Z → Z → prog W bool)
    (free_tables : bool) : prog W bool :=
  for_idx (Z.to_nat KERNEL_PML4_FIRST) 0 (λ pml4_idx,
    vm ← load_vmm v;
    with_entry VIRT_SCRATCH_L4 (pml4_phys vm) pml4_idx (λ e4,
      let pml3_phys := entry_phys e4 in
      then_free (for_idx (Z.to_nat (PD_ENTRIES + 1)) 0 (λ pml3_idx,
        with_entry VIRT_SCRATCH_L3 pml3_phys pml3_idx (λ e3,
          let pd_phys := entry_phys e3 in
          then_free (for_idx (Z.to_nat (PD_ENTRIES + 1)) 0 (λ pd_idx,
            with_entry VIRT_SCRATCH_L2 pd_phys pd_idx (λ e2,
              let pt_phys := entry_phys e2 in
              then_free (for_idx (Z.to_nat (PD_ENTRIES + 1)) 0 (λ pt_idx,
                with_entry VIRT_SCRATCH_L1 pt_phys pt_idx (λ pt_entry,
                  let virt := Z.lor (Z.lor (Z.lor (Z.shiftl pml4_idx 39) (Z.shiftl pml3_idx 30))
                                (Z.shiftl pd_idx 21)) (Z.shiftl pt_idx 12) in
                  callback v virt pt_entry)))
                free_tables pt_phys)))
            free_tables pd_phys)))
        free_tables pml3_phys)).

Definition copy_mapping (dst : Z) (src virt entry : Z) : prog W bool :=
  new_page ← alloc_frame;
  if new_page =? 0 then mret false
  else
    src_page ← scratch_map_page VIRT_SCRATCH_ADDR (entry_phys entry);
    dst_page ← scratch_map_page VIRT_PML4 new_page;
    if (src_page =? 0) || (dst_page =? 0) then
      _ ← free_frame new_page;
      mret false
    else
      _ ← memcpy_page dst_page src_page;
      r ← map_at_paddr_with_leaf_flags dst virt new_page (entry_flags entry);
      if r =? 0 then
        _ ← free_frame new_page;
        mret false
      else mret true.

Definition destroy_mapping (v virt entry : Z) : prog W bool :=
  _ ← free_frame (entry_phys entry);
  mret true.

Definition vmm_copy_mappings (dst src : Z) : prog W bool :=
  walk_lower_mappings src (copy_mapping dst) false.
Definition vmm_destroy_mappings (v : Z) : prog W unit :=
  _ ← walk_lower_mappings v destroy_mapping true;
  mret tt.

(** ** Address spaces *)

(** [slab_alloc(sizeof(vmm_t))] followed by the [memset], and [slab_free]. *)
Definition slab_alloc_vmm : prog W Z := λ w,
  '(p, a) ← al_alloc VMM_SIZEOF (alloc (areas w));
  let w1 := with_areas (MkVW (nodes (areas w)) (head (areas w)) a) w in
  Ret (p, if p =? 0 then w1 else with_vmms (<[p := MkVmm 0 0 0 0 0]> (vmms w)) w1).
Definition slab_free_vmm (p : Z) : prog W unit := λ w,
  '(_, a) ← al_free p (alloc (areas w));
  Ret (tt, with_vmms (delete p (vmms w))
             (with_areas (MkVW (nodes (areas w)) (head (areas w)) a) w)).
Definition store_vmm (p : Z) (f : vmm → vmm) : prog W unit :=
  vm ← load_vmm p;
  modify (λ w, with_vmms (<[p := f vm]> (vmms w)) w).

(** The kernel's half of the root, without the recursive entry. *)
Fixpoint copy_kernel_entries (n : nat) (idx new_pml4 kernel_pml4 : Z) : prog W unit :=
  match n with
  | O => mret tt
  | S n' =>
      _ ← (if idx =? RECURSIVE_IDX then mret tt
           else
             e ← vload (kernel_pml4 + 8 * idx);
             vstore (new_pml4 + 8 * idx) e);
      copy_kernel_entries n' (idx + 1) new_pml4 kernel_pml4
  end.

Definition vmm_new (flags : Z) : prog W Z :=
  v ← slab_alloc_vmm;
  if v =? 0 then mret 0
  else
    pml4 ← alloc_frame;
    if pml4 =? 0 then
      _ ← slab_free_vmm v;
      mret 0
    else
      k ← gets g_kernel_vmm;
      kvm ← load_vmm k;
      _ ← store_vmm v (λ vm, MkVmm (first_available_vaddr vm) (last_available_vaddr vm)
                               (kernel_offset kvm) pml4 (vma_list vm));
      new_pml4 ← scratch_map_table VIRT_SCRATCH_L4 pml4;
      kernel_pml4 ← scratch_map_table VIRT_SCRATCH_L3 (pml4_phys kvm);
      if (new_pml4 =? 0) || (kernel_pml4 =? 0) then
        _ ← free_frame pml4;
        _ ← slab_free_vmm v;
        mret 0
      else
        _ ← memset_page new_pml4;
        _ ← copy_kernel_entries (Z.to_nat (KERNEL_PML4_LAST - KERNEL_PML4_FIRST + 1))
              KERNEL_PML4_FIRST new_pml4 kernel_pml4;
        _ ← vstore (new_pml4 + 8 * RECURSIVE_IDX)
              (Z.lor (Z.lor (Z.lor pml4 PAGE_PRESENT) PAGE_WRITABLE)
                 (Z.land flags PAGE_USER_ACCESIBLE));
        _ ← store_vmm v (λ vm, MkVmm LOW_REGION_END LAST_VADDR (kernel_offset vm) pml4 (vma_list vm));
        mret v.

Definition vmm_free (v : Z) : prog W unit :=
  k ← gets g_kernel_vmm;
  if (v =? 0) || (v =? k) then mret tt
  else
    _ ← vmm_destroy_mappings v;
    _ ← on_areas v (vma_clear true);
    vm ← load_vmm v;
    _ ← free_frame (pml4_phys vm);
    slab_free_vmm v.

Definition vmm_copy (src : Z) : prog W Z :=
  if src =? 0 then mret 0
  else
    svm ← load_vmm src;
    src_pml4 ← scratch_map_table VIRT_SCRATCH_L4 (pml4_phys svm);
    if src_pml4 =? 0 then mret 0
    else
      e ← vload (src_pml4 + 8 * RECURSIVE_IDX);
      dst ← vmm_new (entry_flags e);
      if dst =? 0 then mret 0
      else
        svm ← load_vmm src;
        _ ← store_vmm dst (λ vm, MkVmm (first_available_vaddr svm) (last_available_vaddr svm)
                                   (kernel_offset svm) (pml4_phys vm) (vma_list vm));
        ok ← vmm_copy_mappings dst src;
        if negb ok then
          _ ← vmm_free dst;
          mret 0
        else
          ok ← on_areas dst (vma_copy_list true (vma_list svm));
          if negb ok then
            _ ← vmm_free dst;
            mret 0
          else mret dst.
End ops.

(** ** Mapping a run of pages *)
Section map.
Context {F : Type} {frames_F : FrameAlloc F} {laws_F : FrameLaws F}.
Context {A : Type} {alloc_A : Allocator A}.
Abbreviation W := (mworld F A).
Implicit Types (w : W) (K : wtabs) (T : tables).

Lemma leaf_flags_user x y flags :
  user_addr x → user_addr y → normalize_leaf_flags x flags = normalize_leaf_flags y flags.
Proof. intros Hx%user_low Hy%user_low. unfold normalize_leaf_flags. by rewrite Hx, Hy. Qed.

(** A frame taken for data becomes in use; nothing else changes. *)
Lemma touched_alloc w K L P T f fs :
  space w K L P T → fa_rep fs ({[f]} ∪ L) → fa_top fs = fa_top (frames w) →
  touched w K L P T (with_frames fs w) ({[f]} ∪ L) T.
Proof.
  intros [[Hf Hr Hw Hk] HT Hl Ha] Hrep Htop. split; try done.
  - split; [split| | |]; wcbn; rewrite ?Htop; try done.
    + intros g Hg. destruct (Hk g Hg). split; [by apply elem_of_union_r|done].
    + intros p g Hp. destruct (Hl p g Hp). split; [by apply elem_of_union_r|done].
  - apply union_subseteq_r.
  - congruence.
Qed.

Lemma touched_nomem w K L P T f :
  space w K L P T → fa_rep f L → fa_top f = fa_top (frames w) →
  touched w K L P T (with_frames f w) L T.
Proof.
  intros Hsp Hrep Htop. split; try done; [by apply space_frames|congruence].
Qed.

Definition single_post w K (L : gset Z) (P : Z) T (virt flags r : Z) w' : Prop :=
  ∃ L' T', touched w K L P T w' L' T' ∧
    ((r = 0 ∧ full w' L' ∧ ∀ x, user_addr x → entry_at (phys w') P x = entry_at (phys w) P x) ∨
     (∃ f, r = virt - virt mod 4096 ∧ frame_ok (fa_top (frames w)) f ∧ (f ∉ L) ∧ f ∈ L' ∧ (∀ p, T' !! p ≠ Some f) ∧
      ∀ x, user_addr x → entry_at (phys w') P x =
        if x / 4096 =? virt / 4096 then visible (Z.lor f (normalize_leaf_flags virt flags))
        else entry_at (phys w) P x)).

Lemma wp_map_single w K L P T v vm virt flags :
  space w K L P T → vmms w !! v = Some vm → pml4_phys vm = P → user_addr virt →
  v ≠ g_kernel_vmm w → wp (map_single v virt flags) (single_post w K L P T virt flags) w.
Proof.
  intros Hsp Hv HP Hu Hk. unfold map_single. apply wp_bind.
  eapply wp_alloc_frame; [by apply Hsp|..].
  { intros fs Hrep Htop Hfull. apply wp_ret. exists L, T. split; [by apply touched_nomem|].
    left. split; [done|]. split; [|done]. intros g. wcbn. rewrite Htop. apply Hfull. }
  intros f fs Hf HfL Hrep Htop.
  assert ((f =? 0) = false) as -> by (apply Z.eqb_neq; destruct Hf; lia).
  pose proof (touched_alloc _ _ _ _ _ _ _ Hsp Hrep Htop) as Hto.
  eapply wp_mono; [apply (wp_map_at_paddr _ K ({[f]} ∪ L) P T v vm); try done; apply Hto|].
  intros r w' (L' & T' & Hto' & Hcase). exists L', T'. split; [by eapply touched_trans|].
  destruct Hcase as [(-> & Hfull & He)|(-> & _ & He)]; [by left|]. right. exists f.
  split; [done|]. split; [done|]. split; [done|]. split; [|split; [|done]].
  - apply (to_live _ _ _ _ _ _ _ _ Hto'). by apply elem_of_union_l, elem_of_singleton.
  - intros p Hp. destruct (T !! p) as [g|] eqn:E.
    + rewrite (to_sub _ _ _ _ _ _ _ _ Hto' _ _ E) in Hp. simplify_eq.
      by apply (sp_live _ _ _ _ _ Hsp) in E as [? _].
    + eapply (to_fresh _ _ _ _ _ _ _ _ Hto'); [exact E|exact Hp|]. by apply elem_of_union_l, elem_of_singleton.
Qed.

(** A frame in use that is no table does not become one. *)
Lemma touched_not_table w K L P T w' L' T' f :
  touched w K L P T w' L' T' → f ∈ L → (∀ p, T !! p ≠ Some f) → ∀ p, T' !! p ≠ Some f.
Proof.
  intros Hto Hf Hn p Hp. destruct (T !! p) as [g|] eqn:E.
  - rewrite (to_sub _ _ _ _ _ _ _ _ Hto _ _ E) in Hp. simplify_eq. by apply (Hn p).
  - by eapply (to_fresh _ _ _ _ _ _ _ _ Hto).
Qed.

(** The frame of the page of [x] in a run of frames that starts at [virt]. *)
Definition run_frame (fs : list Z) (virt x : Z) : option Z :=
  if virt / 4096 <=? x / 4096 then fs !! Z.to_nat (x / 4096 - virt / 4096) else None.

Definition loop_post w K (L : gset Z) (P : Z) T (n : nat) (virt flags : Z) (ok : bool) w' : Prop :=
  ∃ L' T' fs, touched w K L P T w' L' T' ∧ NoDup fs ∧
    (∀ f, f ∈ fs → frame_ok (fa_top (frames w)) f ∧ (f ∉ L) ∧ f ∈ L' ∧ ∀ p, T' !! p ≠ Some f) ∧
    (if ok then length fs = n else (length fs < n)%nat ∧ full w' L') ∧
    ∀ x, user_addr x → entry_at (phys w') P x =
      match run_frame fs virt x with
      | Some f => visible (Z.lor f (normalize_leaf_flags virt flags))
      | None => entry_at (phys w) P x
      end.

Lemma run_frame_nil virt x : run_frame [] virt x = None.
Proof. unfold run_frame. by case_match. Qed.

Lemma run_frame_cons f fs virt x :
  run_frame (f :: fs) virt x =
    if x / 4096 =? virt / 4096 then Some f else run_frame fs (virt + 4096) x.
Proof.
  unfold run_frame. replace ((virt + 4096) / 4096) with (virt / 4096 + 1) by zdiv.
  destruct (Z.eqb_spec (x / 4096) (virt / 4096)) as [E|Hne].
  - rewrite E, Z.leb_refl, Z.sub_diag. done.
  - destruct (Z.leb_spec (virt / 4096) (x / 4096)), (Z.leb_spec (virt / 4096 + 1) (x / 4096));
      [|lia|lia|done].
    replace (Z.to_nat (x / 4096 - virt / 4096)) with (S (Z.to_nat (x / 4096 - (virt / 4096 + 1)))) by lia.
    done.
Qed.

Lemma wp_map_loop n w K L P T v vm virt flags :
  space w K L P T → vmms w !! v = Some vm → pml4_phys vm = P → v ≠ g_kernel_vmm w →
  4096 ≤ virt → virt + 4096 * Z.of_nat n ≤ 2 ^ 47 →
  wp (map_loop n v virt flags) (loop_post w K L P T n virt flags) w.
Proof.
  revert w L T virt. induction n as [|n IH]; intros w L T virt Hsp Hv HP Hk Hge Hle; cbn [map_loop].
  { apply wp_ret. exists L, T, []. split; [by apply evolves_touched, evolves_refl|].
    split; [apply NoDup_nil_2|]. split; [intros f Hf; by apply elem_of_nil in Hf|]. split; [done|].
    intros x Hx. by rewrite run_frame_nil. }
  assert (user_addr virt) as Hu by (unfold user_addr; lia).
  apply wp_bind. eapply wp_mono; [by apply (wp_map_single w K L P T v vm)|].
  intros r w1 (L1 & T1 & Hto1 & [(-> & Hfull & He)|(f & -> & Hf & HfL & HfL1 & HfT & He)]).
  { apply wp_ret. exists L1, T1, []. split; [done|].
    split; [apply NoDup_nil_2|]. split; [intros f Hf; by apply elem_of_nil in Hf|].
    split; [split; [simpl; lia|done]|].
    intros x Hx. rewrite He by done. by rewrite run_frame_nil. }
  assert ((virt - virt mod 4096 =? 0) = false) as -> by (apply Z.eqb_neq; zdiv).
  replace (u64 (virt + PAGE_SIZE)) with (virt + 4096)
    by (rewrite u64_small; [done|unfold is_u64, PAGE_SIZE; lia]).
  destruct (to_rest _ _ _ _ _ _ _ _ Hto1) as (_ & Hvm & _ & _ & Hg & Htop).
  eapply wp_mono; [apply (IH w1 L1 T1)|]; [apply Hto1|by rewrite Hvm|done|by rewrite Hg|lia|lia|].
  intros ok w2 (L2 & T2 & fs & Hto2 & Hnd & Hfs & Hok & He2).
  pose proof (to_live _ _ _ _ _ _ _ _ Hto1) as HL1. pose proof (to_live _ _ _ _ _ _ _ _ Hto2) as HL2.
  exists L2, T2, (f :: fs). split; [by eapply touched_trans|]. split.
  { apply NoDup_cons. split; [|done]. intros Hin. by destruct (Hfs f Hin) as (_ & ? & _). }
  split.
  { intros g [->|Hg']%elem_of_cons; [split_and!; auto; by eapply touched_not_table|].
    destruct (Hfs g Hg') as (Hgk & HgL & HgL2 & HgT).
    rewrite Htop in Hgk. split; [done|]. split; [|done]. intros HL. by apply HgL, HL1. }
  split; [destruct ok; [simpl; congruence|destruct Hok; simpl; split; [lia|done]]|].
  intros x Hx. rewrite He2 by done. rewrite run_frame_cons. rewrite He by done.
  destruct (Nat.eq_dec n O) as [->|Hn0].
  - assert (fs = []) as -> by (destruct ok; [by apply nil_length_inv|destruct Hok; lia]).
    rewrite !run_frame_nil. by destruct (x / 4096 =? virt / 4096).
  - rewrite (leaf_flags_user (virt + 4096) virt) by (unfold user_addr in *; lia).
    destruct (Z.eqb_spec (x / 4096) (virt / 4096)) as [E|Hne]; [|done].
    unfold run_frame. replace ((virt + 4096) / 4096) with (virt / 4096 + 1) by zdiv.
    destruct (Z.leb_spec (virt / 4096 + 1) (x / 4096)); [lia|done].
Qed.
End map.

(** ** Pages together with their areas *)
Section areas.
Context {F : Type} {frames_F : FrameAlloc F} {laws_F : FrameLaws F}.
Context {A : Type} {alloc_A : Allocator A} {laws_A : AllocatorLaws (2 ^ 61) A}.
Abbreviation W := (mworld F A).
Implicit Types (w : W) (K : wtabs) (T : tables).

(** The area list of a [vmm_t]. *)
Definition areas_of w (vm : vmm) : vworld A :=
  MkVW (nodes (areas w)) (vma_list vm) (alloc (areas w)).

(** [v] is an address space of a process, with root [P], tables [T] and areas
    [l]. *)
Record user_space w K (L : gset Z) (v P : Z) T (l : list (Z * area)) : Prop := {
  us_space : space w K L P T;
  us_process : v ≠ 0 ∧ v ≠ g_kernel_vmm w;
  us_areas : ∃ vm, vmms w !! v = Some vm ∧ pml4_phys vm = P ∧ vma_rep (areas_of w vm) l;
}.

Lemma wp_on_areas {B} v vm (op : prog (vworld A) B) (Q : B → W → Prop) w :
  vmms w !! v = Some vm →
  wp op (λ b a, Q b (with_areas a (with_vmms (<[v := set_vma_list vm (head a)]> (vmms w)) w)))
     (areas_of w vm) →
  wp (on_areas v op) Q w.
Proof.
  intros Hv. rewrite wp_inv. intros (b & a & Hr & HQ). unfold wp, on_areas. rewrite Hv. orun.
  unfold areas_of in Hr. rewrite Hr. by orun.
Qed.

(** Area bookkeeping does not touch the tables. *)
Lemma user_space_areas w K L v P T l vm a l' :
  user_space w K L v P T l → vmms w !! v = Some vm → vma_rep a l' →
  user_space (with_areas a (with_vmms (<[v := set_vma_list vm (head a)]> (vmms w)) w)) K L v P T l'.
Proof.
  intros [[[? ? ? ?] ? ? ?] Hp (vm' & Hv & HP & _)] Hvm Hrep.
  assert (vm' = vm) as -> by congruence.
  split; [by split|done|]. exists (set_vma_list vm (head a)). cbn [vmms with_areas with_vmms].
  rewrite lookup_insert_eq. split; [done|]. split; [done|].
  unfold areas_of. cbn [areas with_areas vma_list set_vma_list]. by destruct a.
Qed.

(** Page-table work does not touch the areas. *)
Lemma user_space_tables w K L v P T l w' L' T' :
  user_space w K L v P T l → touched w K L P T w' L' T' → user_space w' K L' v P T' l.
Proof.
  intros [Hsp [Hv0 Hvk] (vm & Hv & HP & Hrep)] Hto.
  destruct (to_rest _ _ _ _ _ _ _ _ Hto) as (_ & Hvm & Har & _ & Hg & _).
  split; [apply Hto|by rewrite Hg|]. exists vm. unfold areas_of. by rewrite Hvm, Har.
Qed.

(** What [insert_vma] does for a tracked mapping. *)
Lemma wp_insert_vma w K L v P T l virt n flags :
  user_space w K L v P T l → has flags PAGE_USER_ACCESIBLE = true →
  0 ≤ virt → 0 < n → virt + n ≤ 2 ^ 47 →
  wp (insert_vma v virt n flags)
    (λ b w', phys w' = phys w ∧ fa_top (frames w') = fa_top (frames w) ∧
       if b then
         ∃ l', user_space w' K L v P T l' ∧
           ∀ x, area_at l'.*2 x =
             if (virt <=? x) && (x <=? virt + n - 1) then Some (flags, 0, 0) else area_at l.*2 x
       else
         user_space w' K L v P T l ∧
         ((∃ a, a ∈ l.*2 ∧ area_overlaps a virt (virt + n - 1) = true) ∨
          vma_range_valid virt (virt + n - 1) = false ∨
          ∃ a, al_alloc VMA_SIZEOF (alloc (areas w)) = Ret (0, a))) w.
Proof.
  intros Hus Hfl Hv0 Hn Hle. destruct (us_process _ _ _ _ _ _ _ Hus) as [Hnz Hnk].
  destruct (us_areas _ _ _ _ _ _ _ Hus) as (vm & Hv & HP & Hrep).
  assert (user_addr virt) as Hu by (unfold user_addr; lia).
  unfold insert_vma, track_vma. apply wp_bind, wp_bind, wp_gets.
  assert ((v =? 0) || (v =? g_kernel_vmm w) = false) as ->
    by (apply orb_false_iff; split; by apply Z.eqb_neq).
  rewrite (user_low _ Hu). apply wp_ret.
  change (negb (Z.land flags PAGE_USER_ACCESIBLE =? 0)) with (has flags PAGE_USER_ACCESIBLE).
  rewrite Hfl. cbn [negb]. rewrite !u64_small by (unfold is_u64; lia).
  assert ((n =? 0) = false) as -> by (apply Z.eqb_neq; lia).
  assert ((UINT64_MAX - virt <? n - 1) = false) as -> by (apply Z.ltb_ge; unfold UINT64_MAX; lia).
  eapply wp_on_areas; [done|].
  eapply wp_mono; [apply (wp_vma_insert _ l); [done|unfold is_u64; lia..]|].
  intros [|] a; cbn [insert_post].
  - intros (_ & _ & p & l1 & l2 & -> & _ & Hrep' & _). split; [done|]. split; [done|].
    eexists. split; [by eapply user_space_areas|]. intros x.
    pose proof (vr_areas _ _ Hrep') as Har. rewrite !fmap_app, fmap_cons in *.
    by rewrite area_at_insert.
  - intros (Hrep' & Href & _). split; [done|]. split; [done|].
    split; [by eapply user_space_areas|]. destruct Href as [?|[?|?]]; auto.
Qed.

Lemma wp_remove_vma w K L v P T l virt :
  user_space w K L v P T l → user_addr virt → virt mod 4096 = 0 →
  wp (remove_vma v virt)
    (λ b w', phys w' = phys w ∧ fa_top (frames w') = fa_top (frames w) ∧
       if b then
         ∃ l', user_space w' K L v P T l' ∧
           ∀ x, area_at l'.*2 x =
             if (virt <=? x) && (x <=? virt + 4095) && same_area l.*2 virt x then None
             else area_at l.*2 x
       else user_space w' K L v P T l) w.
Proof.
  intros Hus Hu Ha. destruct (us_process _ _ _ _ _ _ _ Hus) as [Hnz Hnk].
  destruct (us_areas _ _ _ _ _ _ _ Hus) as (vm & Hv & HP & Hrep).
  unfold remove_vma. apply wp_bind, wp_gets.
  assert ((v =? 0) || (v =? g_kernel_vmm w) = false) as ->
    by (apply orb_false_iff; split; by apply Z.eqb_neq).
  rewrite (user_low _ Hu). change (PAGE_SIZE - 1) with 4095.
  rewrite (lor_add virt 4095 12) by (done || lia).
  eapply wp_on_areas; [done|].
  eapply wp_mono; [apply (wp_vma_remove _ l); [done|unfold user_addr, is_u64 in *; lia..]|].
  intros [|] a; cbn [remove_post].
  - intros (Hval & l' & Hrep' & Heq & _). split; [done|]. split; [done|].
    exists l'. split; [by eapply user_space_areas|]. intros x. rewrite Heq.
    apply area_at_remove; [apply Hrep|lia].
  - intros (Hrep' & _). split; [done|]. split; [done|]. by eapply user_space_areas.
Qed.
End areas.

(** ** Theorems *)

(** C22: the recursive slot of the root makes the page tables of the running
    address space addressable: through [get_current_pml4], [get_pml4_entry],
    [get_pml3_entry] and [get_pd_entry] the hardware reaches word [i] of the root
    and of the third-, second- and first-level tables on the path to [virt],
    whatever [virt] is. *)
Theorem recursive_mapping_reaches_tables m c virt t3 t2 t1 i :
  next_table m c RECURSIVE_IDX = Some c → is_idx i →
  next_table m c (get_pml4_idx virt) = Some t3 →
  next_table m t3 (get_pml3_idx virt) = Some t2 →
  next_table m t2 (get_pd_idx virt) = Some t1 →
  translate m c (get_current_pml4 + 8 * i) = Some (c, i) ∧
  translate m c (get_pml4_entry virt + 8 * i) = Some (t3, i) ∧
  translate m c (get_pml3_entry virt + 8 * i) = Some (t2, i) ∧
  translate m c (get_pd_entry virt + 8 * i) = Some (t1, i).
Proof.
  intros Hr Hi H3 H2 H1. split; [by apply recursive_pml4|]. split; [by eapply recursive_pml3|].
  split; [by eapply recursive_pd|by eapply recursive_pt].
Qed.

Section theorems.
Context {F : Type} {frames_F : FrameAlloc F} {laws_F : FrameLaws F}.
Context {A : Type} {alloc_A : Allocator A} {laws_A : AllocatorLaws (2 ^ 61) A}.
Abbreviation W := (mworld F A).
Implicit Types (w : W) (K : wtabs) (T : tables).

(** C2: [map_at_paddr_internal] on a process address space returns.  When a
    table is needed and no frame is left it returns 0 and no page of the space
    changes; otherwise the hardware walk now finds [phys | leaf flags] for the
    page of [virt], with the writable and user permissions of [flags] in effect
    at every level (and executable if [flags] ask for it), and finds for every
    other page what it found before.  The tree of tables stays well formed. *)
Theorem map_at_paddr_installs w K L v P T l virt ph flags :
  user_space w K L v P T l → user_addr virt → 4096 ≤ virt →
  0 ≤ ph → entry_phys ph = ph → Z.testbit flags 0 = true →
  ∃ r w' L' T', map_at_paddr_internal v virt ph flags w = Ret (r, w') ∧
    user_space w' K L' v P T' l ∧
    if r =? 0 then full w' L' ∧ ∀ x, user_addr x → entry_at (phys w') P x = entry_at (phys w) P x
    else r = virt - virt mod 4096 ∧
      (∀ x, user_addr x → entry_at (phys w') P x =
         if x / 4096 =? virt / 4096 then Some (Z.lor ph (normalize_leaf_flags virt flags))
         else entry_at (phys w) P x) ∧
      ∃ nx, perms_at (phys w') P virt = Some (Z.testbit flags 1, Z.testbit flags 2, nx) ∧
        (has flags PAGE_EXECUTABLE = true → nx = false).
Proof.
  intros Hus Hu Hge Hph0 Hph Hfl. destruct (us_process _ _ _ _ _ _ _ Hus) as [_ Hnk].
  destruct (us_areas _ _ _ _ _ _ _ Hus) as (vm & Hv & HP & _).
  pose proof (wp_map_at_paddr w K L P T v vm virt ph flags (us_space _ _ _ _ _ _ _ Hus) Hv HP Hu Hnk) as Hwp.
  apply wp_inv in Hwp as (r & w' & Hr & Hpost).
  pose proof (λ H0, map_post_perms w K L P T virt flags ph r w' Hu Hge Hph Hph0 Hpost H0 Hfl) as Hperm.
  destruct Hpost as (L' & T' & Hto & Hcase). exists r, w', L', T'. split; [done|].
  split; [by eapply user_space_tables|]. destruct Hcase as [(-> & Hfull & He)|(-> & _ & He)]; [done|].
  assert (virt - virt mod 4096 ≠ 0) as Hnz by zdiv.
  rewrite (proj2 (Z.eqb_neq _ _) Hnz). split; [done|]. split; [|by apply Hperm].
  intros x Hx. rewrite He by done. case_match; [|done]. unfold visible.
  by rewrite present_testbit, Z.lor_spec, leaf_flags_testbit, Hfl, orb_true_r
    by (lia || by apply user_low).
Qed.

(** C3: address spaces are isolated: mapping or unmapping a page in one leaves
    every translation of any other address space of the machine, and the
    kernel's half of the root, exactly as it was. *)
Theorem address_spaces_isolated w K L v P T l P2 T2 virt ph flags :
  user_space w K L v P T l → space w K L P2 T2 →
  (∀ p q f, T !! p = Some f → T2 !! q ≠ Some f) → user_addr virt →
  (∃ r w', map_at_paddr_internal v virt ph flags w = Ret (r, w') ∧
    (∀ x, user_addr x → entry_at (phys w') P2 x = entry_at (phys w) P2 x) ∧
    (∀ j, 256 ≤ j → phys w' !! (P, j) = phys w !! (P, j))) ∧
  (∃ r w', unmap_internal v virt w = Ret (r, w') ∧
    (∀ x, user_addr x → entry_at (phys w') P2 x = entry_at (phys w) P2 x) ∧
    (∀ j, 256 ≤ j → phys w' !! (P, j) = phys w !! (P, j))).
Proof.
  intros Hus Hsp2 Hdis Hu. destruct (us_process _ _ _ _ _ _ _ Hus) as [_ Hnk].
  destruct (us_areas _ _ _ _ _ _ _ Hus) as (vm & Hv & HP & _).
  pose proof (us_space _ _ _ _ _ _ _ Hus) as Hsp.
  pose proof (wp_map_at_paddr w K L P T v vm virt ph flags Hsp Hv HP Hu Hnk) as Hm.
  pose proof (wp_unmap_internal w K L P T v vm virt Hsp Hv HP Hu Hnk) as Hun.
  apply wp_inv in Hm as (r & w' & Hr & L' & T' & Hto & _).
  apply wp_inv in Hun as (r2 & w2 & Hr2 & Hto2 & _).
  split; [exists r, w'|exists r2, w2]; (split; [done|]); (split; [|by eapply to_root]);
    intros x Hx; by eapply touched_other.
Qed.

(** What [vmm_map] leaves: the frames [fs] it gave to the first pages of the
    range, and how far it came. *)
Definition vmm_map_post w K (L : gset Z) (v P : Z) T l (virt n flags r : Z) w' : Prop :=
  ∃ L' T' l' fs,
    user_space w' K L' v P T' l' ∧ NoDup fs ∧
    (∀ f, f ∈ fs → frame_ok (fa_top (frames w)) f ∧ (f ∉ L) ∧ f ∈ L') ∧
    (∀ x, user_addr x → entry_at (phys w') P x =
       match run_frame fs virt x with
       | Some f => visible (Z.lor f (normalize_leaf_flags virt flags))
       | None => entry_at (phys w) P x
       end) ∧
    ((r = virt ∧ Z.of_nat (length fs) = n ∧
      ∀ x, area_at l'.*2 x =
        if (virt <=? x) && (x <=? virt + 4096 * n - 1) then Some (flags, 0, 0) else area_at l.*2 x) ∨
     (r = 0 ∧ fs = [] ∧ l' = l ∧
      ((∃ a, a ∈ l.*2 ∧ area_overlaps a virt (virt + 4096 * n - 1) = true) ∨
       vma_range_valid virt (virt + 4096 * n - 1) = false ∨
       ∃ a, al_alloc VMA_SIZEOF (alloc (areas w)) = Ret (0, a))) ∨
     (r = 0 ∧ Z.of_nat (length fs) < n ∧ full w' L')).

Lemma wp_vmm_map w K L v P T l virt n flags :
  user_space w K L v P T l → has flags PAGE_USER_ACCESIBLE = true →
  virt mod 4096 = 0 → 4096 ≤ virt → 0 < n → virt + 4096 * n ≤ 2 ^ 47 →
  wp (vmm_map v virt n flags) (vmm_map_post w K L v P T l virt n flags) w.
Proof.
  intros Hus Hfl Hal Hge Hn Hle.
  assert (user_addr virt) as Hu by (unfold user_addr; lia).
  unfold vmm_map. rewrite mask_base by (unfold is_u64; lia).
  replace (virt - virt mod 4096) with virt by lia.
  assert ((UINT64_MAX / PAGE_SIZE <? n) = false) as ->
    by (apply Z.ltb_ge; change (UINT64_MAX / PAGE_SIZE) with (2 ^ 52 - 1); lia).
  replace (u64 (n * PAGE_SIZE)) with (4096 * n)
    by (rewrite u64_small; [unfold PAGE_SIZE; lia|unfold is_u64, PAGE_SIZE; lia]).
  apply wp_bind. eapply wp_mono;
    [apply (wp_insert_vma w K L v P T l virt (4096 * n) flags); try done; lia|].
  intros [|] w1 (Hm1 & Ht1 & Hpost); cbn [negb].
  2:{ destruct Hpost as [Hus1 Href]. apply wp_ret. exists L, T, l, [].
      split; [done|]. split; [apply NoDup_nil_2|].
      split; [intros f Hf; by apply elem_of_nil in Hf|]. rewrite Hm1.
      split; [intros x _; by rewrite run_frame_nil|]. right. left. by split_and!. }
  destruct Hpost as (l1 & Hus1 & Har). destruct (us_process _ _ _ _ _ _ _ Hus1) as [_ Hnk].
  destruct (us_areas _ _ _ _ _ _ _ Hus1) as (vm & Hv & HP & _).
  apply wp_bind. eapply wp_mono.
  { apply (wp_map_loop (Z.to_nat n) w1 K L P T v vm virt flags); try done; [apply Hus1|lia]. }
  intros ok w2 (L2 & T2 & fs & Hto & Hnd & Hfs & Hok & He).
  assert (∀ f, f ∈ fs → frame_ok (fa_top (frames w)) f ∧ (f ∉ L) ∧ f ∈ L2) as Hfs'
    by (intros f Hf; rewrite <- Ht1; by destruct (Hfs f Hf) as (? & ? & ? & _)).
  rewrite Hm1 in He. pose proof (user_space_tables _ _ _ _ _ _ _ _ _ _ Hus1 Hto) as Hus2.
  destruct ok.
  - apply wp_ret. exists L2, T2, l1, fs. do 4 (split; [done|]). left. split; [done|]. split; [lia|done].
  - destruct Hok as [Hlt Hfull]. apply wp_bind. eapply wp_mono; [by apply wp_remove_vma|].
    intros b w3 (Hm3 & Ht3 & Hb). apply wp_ret.
    assert (∃ l', user_space w3 K L2 v P T2 l') as [l' Hus3]
      by (destruct b; [destruct Hb as (l' & ? & _); by exists l'|by exists l1]).
    exists L2, T2, l', fs. do 3 (split; [done|]). rewrite Hm3. split; [done|].
    right. right. split; [done|]. split; [lia|]. intros g. rewrite Ht3. apply Hfull.
Qed.

(** C19: [vmm_map] of [n] pages on a process address space returns.  Success
    gives every page of the range a frame of its own that was not in use, with
    the leaf flags asked for, leaves every other page alone, and records exactly
    the range as an area.  It refuses, changing no page and no area, when the
    range meets an area (or is not page aligned, or the heap is exhausted).
    Otherwise memory is full: fewer than [n] pages were mapped before the frames
    ran out, and those stay mapped. *)
Theorem vmm_map_correct w K L v P T l virt n flags :
  user_space w K L v P T l → has flags PAGE_USER_ACCESIBLE = true →
  virt mod 4096 = 0 → 4096 ≤ virt → 0 < n → virt + 4096 * n ≤ 2 ^ 47 →
  ∃ r w', vmm_map v virt n flags w = Ret (r, w') ∧ vmm_map_post w K L v P T l virt n flags r w'.
Proof. intros. by apply wp_inv, wp_vmm_map. Qed.

End theorems.

(** ** A concrete machine

    Twelve frames managed by [pmm.c]; frame 1 is the root in use, frames 2 to 4
    the tables of the scratch window, frame 5 the root of a process with an empty
    lower half; frames 6 to 11 are free. *)
Import BitmapSpec.

Definition machine_pmm : pmm_world :=
  MkWorld (MkPmm (12 * 4096) 12 6 4096 0 0 0 0 0 0 2 0 0 0 0 true)
    (MkBitmap (Some [63; 0]) 12 2 6 11) (MkSpin 0 514).

Fixpoint blank_frames (n : nat) : memory :=
  match n with
  | O => ∅
  | S n' => zero_words 512 (Z.of_nat n * 4096) 0 (blank_frames n')
  end.

Definition machine_memory : memory :=
  <[(0x1000, 510) := rw 0x1000]> (<[(0x1000, 511) := rw 0x2000]>
  (<[(0x2000, 509) := rw 0x3000]> (<[(0x3000, 384) := rw 0x4000]>
  (<[(0x5000, 510) := rw 0x5000]> (<[(0x5000, 511) := rw 0x2000]> (blank_frames 11)))))).

Definition machine : mworld pmm_world bump :=
  MkMW machine_memory 0x1000 machine_pmm
    {[64 := MkVmm 0 0 0 0x1000 0; 128 := MkVmm 0x100000 LAST_VADDR 0 0x5000 0]}
    (MkVW ∅ 0 (MkBump 256 10 ∅)) 0 64.

Definition machine_tabs : wtabs := MkTabs 0x2000 0x3000 0x4000.
Definition machine_live : gset Z := set_map frame_of ({[0; 1; 2; 3; 4; 5]} : gset Z).
(** An address space with nothing below its root. *)
Definition root_only (r : Z) : tables := {[ [] := r ]}.
Definition machine_tables : tables := root_only 0x5000.

Lemma blank_frames_lookup n f i :
  0 < f ≤ Z.of_nat n * 4096 → f mod 4096 = 0 → is_idx i → blank_frames n !! (f, i) = Some 0.
Proof.
  intros Hf Ha Hi. induction n as [|n IH]; [lia|]. cbn [blank_frames]. rewrite zero_words_lookup.
  cbn [fst snd]. case_decide as Hd; [done|]. apply IH. unfold is_idx in Hi. split; [lia|].
  assert (f ≠ Z.of_nat (S n) * 4096) by (intros E; apply Hd; lia). zdiv.
Qed.

Lemma machine_frames : pmm_frames machine_pmm machine_live.
Proof.
  exists {[0; 1; 2; 3; 4; 5]}. split; [|split_and!; try done; set_solver].
  split; [|simpl; lia|reflexivity].
  destruct (run_refines [CallSet 0; CallSet 1; CallSet 2; CallSet 3; CallSet 4; CallSet 5]
              demo_bitmap 12 ∅ demo_bitmap_rep)
    as (b' & Hr & Hrep); [repeat constructor; simpl; lia|].
  assert (b' = pmm_bitmap machine_pmm) as ->.
  { vm_compute in Hr. injection Hr as <-. reflexivity. }
  replace {[0; 1; 2; 3; 4; 5]}
    with (snd (set_run 12 [CallSet 0; CallSet 1; CallSet 2; CallSet 3; CallSet 4; CallSet 5] ∅));
    [done|]. vm_compute. reflexivity.
Qed.

Lemma machine_ram f i :
  frame_ok (12 * 4096) f → is_idx i → is_Some (machine_memory !! (f, i)).
Proof.
  intros [Ha Hf] Hi. unfold machine_memory.
  do 6 (apply lookup_insert_is_Some'; right). rewrite blank_frames_lookup; [by eexists|split; [lia|simpl; zdiv]|done|done].
Qed.

Lemma machine_low r i : r ∈ [0x1000; 0x5000] → 0 ≤ i < 256 → machine_memory !! (r, i) = Some 0.
Proof.
  rewrite !elem_of_cons, elem_of_nil. intros Hr Hi. unfold machine_memory.
  do 6 (rewrite lookup_insert_ne by (intros [= ?]; lia)).
  apply blank_frames_lookup; [lia|by destruct Hr as [->|[->|[]]]|unfold is_idx; lia].
Qed.

Lemma machine_space r :
  r ∈ [0x1000; 0x5000] → space machine machine_tabs machine_live r (root_only r).
Proof.
  intros Hr. assert (∀ p f, root_only r !! p = Some f → p = [] ∧ f = r) as Hone.
  { unfold root_only. intros p f [<- <-]%lookup_singleton_Some. done. }
  split; [split| | |].
  - exact machine_frames.
  - exact machine_ram.
  - split; vm_compute; reflexivity.
  - intros f Hf. change (fa_top (frames machine)) with (12 * 4096).
    rewrite !elem_of_cons in Hf. cbn [machine machine_tabs cr3 S3 S2 S1] in Hf.
    assert (f = frame_of 1 ∨ f = frame_of 2 ∨ f = frame_of 3 ∨ f = frame_of 4) as Hf'
      by (unfold frame_of, PAGE_SIZE; destruct Hf as [?|[?|[?|[?|[]%elem_of_nil]]]]; lia).
    destruct Hf' as [->|[->|[->| ->]]]; (split; [apply frame_of_elem; set_solver|split; [done|]];
      unfold frame_of, PAGE_SIZE; lia).
  - split.
    + apply lookup_singleton_eq.
    + intros p q f [-> _]%Hone [-> _]%Hone. done.
    + intros p f i [-> ->]%Hone _ Hi. cbn [app]. unfold root_only.
      rewrite lookup_singleton_ne by done. unfold next_table. wcbn. unfold machine. wcbn.
      by rewrite machine_low.
    + intros p i f [? _]%Hone. by destruct p.
    + intros p f i e [-> ->]%Hone _ Hi. unfold machine. wcbn. rewrite machine_low by done. by intros [= <-].
  - intros p f [-> ->]%Hone. change (fa_top (frames machine)) with (12 * 4096).
    rewrite !elem_of_cons, elem_of_nil in Hr.
    assert (r = frame_of 1 ∨ r = frame_of 5) as [->| ->] by (unfold frame_of, PAGE_SIZE; lia);
      (split; [apply frame_of_elem; set_solver|split; [done|]]; unfold frame_of, PAGE_SIZE; lia).
  - intros p f [-> ->]%Hone. rewrite !elem_of_cons, elem_of_nil in Hr. cbn. split_and!; try done; lia.
Qed.

Lemma machine_user_space : user_space machine machine_tabs machine_live 128 0x5000 machine_tables [].
Proof.
  split; [apply (machine_space 0x5000); set_solver|by split|].
  exists (MkVmm 0x100000 LAST_VADDR 0 0x5000 0). split; [done|]. split; [done|].
  split; cbn.
  - by exists 0.
  - apply NoDup_nil_2.
  - split; constructor.
  - split; [|done]. split; [simpl; lia|]. intros p n Hp. cbn [bump_live] in Hp. by apply lookup_empty_Some in Hp.
  - intros p Hp. by apply lookup_empty_is_Some in Hp.
Qed.

(** The code runs on this machine: two pages at 4 MiB. *)
Example machine_maps :
  match vmm_map 128 0x400000 2 (PAGE_PRESENT + PAGE_WRITABLE + PAGE_USER_ACCESIBLE) machine with
  | Ret (r, w) => r = 0x400000 ∧ entry_at (phys w) 0x5000 0x401000 = Some (0xA000 + 7) ∧
                  perms_at (phys w) 0x5000 0x401000 = Some (true, true, false)
  | _ => False
  end.
Proof. vm_compute. split_and!; reflexivity. Qed.

Lemma recursive_mapping_reaches_tables_witness :
  translate machine_memory 0x1000 (get_pd_entry VIRT_SCRATCH_ADDR + 8 * 3) = Some (0x4000, 3).
Proof.
  apply (recursive_mapping_reaches_tables machine_memory 0x1000 VIRT_SCRATCH_ADDR 0x2000 0x3000 0x4000 3);
    try (vm_compute; reflexivity). unfold is_idx; lia.
Defined.

Lemma map_at_paddr_installs_witness :
  ∃ r w' L' T', map_at_paddr_internal 128 0x400000 0x7000 7 machine = Ret (r, w') ∧
    user_space w' machine_tabs L' 128 0x5000 T' [] ∧
    if r =? 0 then full w' L' ∧ ∀ x, user_addr x → entry_at (phys w') 0x5000 x = entry_at machine_memory 0x5000 x
    else r = 0x400000 - 0x400000 mod 4096 ∧
      (∀ x, user_addr x → entry_at (phys w') 0x5000 x =
         if x / 4096 =? 0x400000 / 4096 then Some (Z.lor 0x7000 (normalize_leaf_flags 0x400000 7))
         else entry_at machine_memory 0x5000 x) ∧
      ∃ nx, perms_at (phys w') 0x5000 0x400000 = Some (Z.testbit 7 1, Z.testbit 7 2, nx) ∧
        (has 7 PAGE_EXECUTABLE = true → nx = false).
Proof.
  apply (map_at_paddr_installs machine machine_tabs machine_live 128 0x5000 machine_tables []
           0x400000 0x7000 7 machine_user_space);
    [unfold user_addr; lia|lia|lia|reflexivity|reflexivity].
Defined.

Lemma vmm_map_correct_witness :
  ∃ r w', vmm_map 128 0x400000 2 7 machine = Ret (r, w') ∧
    vmm_map_post machine machine_tabs machine_live 128 0x5000 machine_tables [] 0x400000 2 7 r w'.
Proof.
  apply (vmm_map_correct machine machine_tabs machine_live 128 0x5000 machine_tables []
           0x400000 2 7 machine_user_space); (reflexivity || lia).
Defined.


Lemma address_spaces_isolated_witness :
  ∃ r w', map_at_paddr_internal 128 0x400000 0x7000 7 machine = Ret (r, w') ∧
    ∀ x, user_addr x → entry_at (phys w') 0x1000 x = entry_at machine_memory 0x1000 x.
Proof.
  destruct (address_spaces_isolated machine machine_tabs machine_live 128 0x5000 machine_tables []
              0x1000 (root_only 0x1000) 0x400000 0x7000 7 machine_user_space)
    as [(r & w' & Hr & He & _) _].
  - apply (machine_space 0x1000). set_solver.
  - unfold machine_tables, root_only.
    intros p q f [_ <-]%lookup_singleton_Some [_ Hq]%lookup_singleton_Some. lia.
  - unfold user_addr; lia.
  - exists r, w'. split; [exact Hr|exact He].
Defined.
