(* ===== verification/ProcQueue.v ===== *)
(** * ProcQueue: [kernel/mp/proc_queue.c], and the state of [kernel/mp]

    The intrusive singly linked queues of processes.  Processes and queues live
    in two heaps (0 is NULL); a process is in at most one queue because its
    [next] field is the link.  The theorems relate each operation to the list
    of processes a queue holds. *)
From S2P Require Import Prelude.

(** ** Data *)

Definition PROC_STATUS_RUNNING : Z := 1.
Definition PROC_STATUS_READY_TO_RUN : Z := 2.
Definition PROC_STATUS_SLEEPING_TIMER : Z := 4.
Definition PROC_STATUS_BLOCKED : Z := 8.
Definition PROC_STATUS_READY_TO_DIE : Z := 16.
Definition PROC_STATUS_UNINITIALIZED : Z := 255.
Definition MAX_CHILDREN : Z := 256.

(** The fields of [struct proc] the code of [kernel/mp] decides on. *)
Record proc := MkProc {
  status : Z;
  is_kernel_proc : bool;
  pid : Z;
  next : Z;
  elapsed : Z;
  sleep_until : Z;
  switch_timestamp : Z;
  children : option (list Z);
  parent : Z;
  exit_code : Z;
}.

Definition set_next (p : proc) (x : Z) : proc :=
  MkProc (status p) (is_kernel_proc p) (pid p) x (elapsed p) (sleep_until p)
    (switch_timestamp p) (children p) (parent p) (exit_code p).
Definition set_status (p : proc) (x : Z) : proc :=
  MkProc x (is_kernel_proc p) (pid p) (next p) (elapsed p) (sleep_until p)
    (switch_timestamp p) (children p) (parent p) (exit_code p).
Definition set_elapsed (p : proc) (x : Z) : proc :=
  MkProc (status p) (is_kernel_proc p) (pid p) (next p) x (sleep_until p)
    (switch_timestamp p) (children p) (parent p) (exit_code p).
Definition set_sleep_until (p : proc) (x : Z) : proc :=
  MkProc (status p) (is_kernel_proc p) (pid p) (next p) (elapsed p) x
    (switch_timestamp p) (children p) (parent p) (exit_code p).
Definition set_switch_timestamp (p : proc) (x : Z) : proc :=
  MkProc (status p) (is_kernel_proc p) (pid p) (next p) (elapsed p) (sleep_until p)
    x (children p) (parent p) (exit_code p).
Definition set_children (p : proc) (x : option (list Z)) : proc :=
  MkProc (status p) (is_kernel_proc p) (pid p) (next p) (elapsed p) (sleep_until p)
    (switch_timestamp p) x (parent p) (exit_code p).
Definition set_parent (p : proc) (x : Z) : proc :=
  MkProc (status p) (is_kernel_proc p) (pid p) (next p) (elapsed p) (sleep_until p)
    (switch_timestamp p) (children p) x (exit_code p).
Definition set_exit_code (p : proc) (x : Z) : proc :=
  MkProc (status p) (is_kernel_proc p) (pid p) (next p) (elapsed p) (sleep_until p)
    (switch_timestamp p) (children p) (parent p) x.

(** [proc_queue_t] and [wait_queue_t] are the same pair of pointers. *)
Record proc_queue := MkQueue { qhead : Z; qtail : Z }.

(** The counters of [struct sched_state]; its three queues are in the queue heap. *)
Record sched_state := MkSched {
  idle_switch_timestamp : Z;
  quantum_remaining : Z;
  tick_interval_ns : Z;
  time_elapsed : Z;
  time_idle : Z;
  irq_lock_count : Z;
  switch_lock_count : Z;
  switch_lock_flag : bool;
}.

(** The kernel as [kernel/mp] sees it: the processes, the queues,
    [g_kernel.current_process], [*g_kernel.sched], the clock of the PIT, the
    interrupt-enable flag, the semaphores (limit and current locks) and
    mutexes (their semaphore) by address, and what other components keep. *)
Record kworld_of (X : Type) := MkWorld {
  procs : gmap Z proc;
  queues : gmap Z proc_queue;
  current : Z;
  sched : sched_state;
  clock : Z;
  interrupts : bool;
  semaphores : gmap Z (Z * Z);
  mutexes : gmap Z Z;
  ext : X;
}.
Arguments MkWorld {X}.
Arguments procs {X}.
Arguments queues {X}.
Arguments current {X}.
Arguments sched {X}.
Arguments clock {X}.
Arguments interrupts {X}.
Arguments semaphores {X}.
Arguments mutexes {X}.
Arguments ext {X}.

Section world.
Context {X : Type}.
Abbreviation kworld := (kworld_of X).
Implicit Types (w : kworld).

Definition set_procs (w : kworld) (m : gmap Z proc) : kworld :=
  MkWorld m (queues w) (current w) (sched w) (clock w) (interrupts w) (semaphores w) (mutexes w) (ext w).
Definition set_queues (w : kworld) (m : gmap Z proc_queue) : kworld :=
  MkWorld (procs w) m (current w) (sched w) (clock w) (interrupts w) (semaphores w) (mutexes w) (ext w).

Definition load_proc (p : Z) : prog kworld proc := λ w, v ← deref (procs w !! p); Ret (v, w).
Definition update_proc (p : Z) (f : proc → proc) : prog kworld unit :=
  v ← load_proc p;
  modify (λ w, set_procs w (<[p := f v]> (procs w))).
Definition load_queue (q : Z) : prog kworld proc_queue := λ w, v ← deref (queues w !! q); Ret (v, w).
Definition set_qhead (q x : Z) : prog kworld unit :=
  v ← load_queue q;
  modify (λ w, set_queues w (<[q := MkQueue x (qtail v)]> (queues w))).
Definition set_qtail (q x : Z) : prog kworld unit :=
  v ← load_queue q;
  modify (λ w, set_queues w (<[q := MkQueue (qhead v) x]> (queues w))).

(** ** Operations *)

Definition proc_get_next (p : Z) : prog kworld Z := v ← load_proc p; mret (next v).
Definition proc_set_next (p x : Z) : prog kworld unit := update_proc p (λ v, set_next v x).

Definition proc_queue_init (q : Z) : prog kworld unit :=
  if q =? 0 then mret tt
  else _ ← set_qhead q 0; set_qtail q 0.

Definition proc_queue_empty (q : Z) : prog kworld bool :=
  if q =? 0 then mret true else v ← load_queue q; mret (qhead v =? 0).

Definition proc_queue_head (q : Z) : prog kworld Z :=
  if q =? 0 then mret 0 else v ← load_queue q; mret (qhead v).

Definition proc_queue_tail (q : Z) : prog kworld Z :=
  if q =? 0 then mret 0 else v ← load_queue q; mret (qtail v).

Definition proc_queue_push_head (q p : Z) : prog kworld unit :=
  if (q =? 0) || (p =? 0) then mret tt
  else
    v ← load_queue q;
    _ ← proc_set_next p (qhead v);
    _ ← set_qhead q p;
    v ← load_queue q;
    when (qtail v =? 0) (set_qtail q p).

Definition proc_queue_push_tail (q p : Z) : prog kworld unit :=
  if (q =? 0) || (p =? 0) then mret tt
  else
    _ ← proc_set_next p 0;
    v ← load_queue q;
    if qhead v =? 0 then _ ← set_qhead q p; set_qtail q p
    else
      _ ← proc_set_next (qtail v) p;
      set_qtail q p.

Definition proc_queue_pop_head (q : Z) : prog kworld Z :=
  if q =? 0 then mret 0
  else
    v ← load_queue q;
    if qhead v =? 0 then mret 0
    else
      let p := qhead v in
      n ← proc_get_next p;
      _ ← set_qhead q n;
      v ← load_queue q;
      _ ← when (qhead v =? 0) (set_qtail q 0);
      _ ← proc_set_next p 0;
      mret p.

Definition proc_queue_insert_after (q after p : Z) : prog kworld unit :=
  if (q =? 0) || (after =? 0) || (p =? 0) then mret tt
  else
    n ← proc_get_next after;
    _ ← proc_set_next p n;
    _ ← proc_set_next after p;
    v ← load_queue q;
    when (qtail v =? after) (set_qtail q p).

Definition proc_queue_remove_after (q prev : Z) : prog kworld Z :=
  if q =? 0 then mret 0
  else if prev =? 0 then proc_queue_pop_head q
  else
    p ← proc_get_next prev;
    if p =? 0 then mret 0
    else
      n ← proc_get_next p;
      _ ← proc_set_next prev n;
      v ← load_queue q;
      _ ← when (qtail v =? p) (set_qtail q prev);
      _ ← proc_set_next p 0;
      mret p.

(** No walk along a queue visits more processes than there are. *)
Definition walk_fuel : prog kworld nat := gets (λ w, S (size (procs w))).

Fixpoint remove_loop (n : nat) (q p prev curr : Z) : prog kworld bool :=
  match n with
  | O => diverge
  | S n' =>
      if curr =? 0 then mret false
      else if curr =? p then
        x ← proc_get_next curr;
        _ ← (if prev =? 0 then set_qhead q x else proc_set_next prev x);
        v ← load_queue q;
        _ ← when (qtail v =? curr) (set_qtail q prev);
        _ ← proc_set_next curr 0;
        mret true
      else
        x ← proc_get_next curr;
        remove_loop n' q p curr x
  end.

Definition proc_queue_remove (q p : Z) : prog kworld bool :=
  if (q =? 0) || (p =? 0) then mret false
  else
    v ← load_queue q;
    n ← walk_fuel;
    remove_loop n q p 0 (qhead v).

(** A callback [pred(proc, ctx)] reads the process it is given. *)
Fixpoint find_loop (n : nat) (pred : proc → bool) (prev curr : Z) : prog kworld (option (Z * Z)) :=
  match n with
  | O => diverge
  | S n' =>
      if curr =? 0 then mret None
      else
        v ← load_proc curr;
        if pred v then mret (Some (prev, curr)) else find_loop n' pred curr (next v)
  end.

(** [Some (prev, proc)] is [true] with the two out-values; they are NULL otherwise. *)
Definition proc_queue_find (q : Z) (pred : option (proc → bool)) : prog kworld (option (Z * Z)) :=
  match pred with
  | None => mret None
  | Some pr =>
      if q =? 0 then mret None
      else
        v ← load_queue q;
        n ← walk_fuel;
        find_loop n pr 0 (qhead v)
  end.

Fixpoint find_last_loop (n : nat) (pred : proc → bool) (last curr : Z) : prog kworld Z :=
  match n with
  | O => diverge
  | S n' =>
      if curr =? 0 then mret last
      else
        v ← load_proc curr;
        find_last_loop n' pred (if pred v then curr else last) (next v)
  end.

Definition proc_queue_find_last (q : Z) (pred : option (proc → bool)) : prog kworld Z :=
  match pred with
  | None => mret 0
  | Some pr =>
      if q =? 0 then mret 0
      else v ← load_queue q; n ← walk_fuel; find_last_loop n pr 0 (qhead v)
  end.

Fixpoint find_prefix_loop (n : nat) (pred : proc → bool) (last curr : Z) : prog kworld Z :=
  match n with
  | O => diverge
  | S n' =>
      if curr =? 0 then mret last
      else
        v ← load_proc curr;
        if negb (pred v) then mret last else find_prefix_loop n' pred curr (next v)
  end.

Definition proc_queue_find_last_prefix (q : Z) (pred : option (proc → bool)) : prog kworld Z :=
  match pred with
  | None => mret 0
  | Some pr =>
      if q =? 0 then mret 0
      else v ← load_queue q; n ← walk_fuel; find_prefix_loop n pr 0 (qhead v)
  end.

Fixpoint for_each_loop (n : nat) (each : Z → prog kworld unit) (curr : Z) : prog kworld unit :=
  match n with
  | O => diverge
  | S n' =>
      if curr =? 0 then mret tt
      else
        _ ← each curr;
        x ← proc_get_next curr;
        for_each_loop n' each x
  end.

Definition proc_queue_for_each (q : Z) (each : option (Z → prog kworld unit)) : prog kworld unit :=
  match each with
  | None => mret tt
  | Some f =>
      if q =? 0 then mret tt
      else v ← load_queue q; n ← walk_fuel; for_each_loop n f (qhead v)
  end.

Definition proc_queue_splice_prefix_tail (dst src last : Z) : prog kworld unit :=
  if (dst =? 0) || (src =? 0) then mret tt
  else
    s ← load_queue src;
    if (qhead s =? 0) || (last =? 0) then mret tt
    else
      let first := qhead s in
      x ← proc_get_next last;
      _ ← set_qhead src x;
      s ← load_queue src;
      _ ← when (qtail s =? last) (set_qtail src 0);
      _ ← proc_set_next last 0;
      d ← load_queue dst;
      if qhead d =? 0 then _ ← set_qhead dst first; set_qtail dst last
      else
        _ ← proc_set_next (qtail d) first;
        set_qtail dst last.

(** ** The list a queue holds *)

(** The [next] field of every process. *)
Definition links (w : kworld) : gmap Z Z := next <$> procs w.

(** From [h] the links run through [l] into [q]. *)
Fixpoint lseg (m : gmap Z Z) (h : Z) (l : list Z) (q : Z) : Prop :=
  match l with
  | [] => h = q
  | x :: l' => h = x ∧ x ≠ 0 ∧ ∃ n, m !! x = Some n ∧ lseg m n l' q
  end.

Record qrep (w : kworld) (q : Z) (l : list Z) : Prop := {
  qr_ptr : q ≠ 0;
  qr_queue : queues w !! q = Some (MkQueue (default 0 (head l)) (default 0 (last l)));
  qr_links : lseg (links w) (default 0 (head l)) l 0;
  qr_nodup : NoDup l;
}.

(** Only the links of [ps] and the queues of [qs] differ. *)
Record relinked (w w' : kworld) (ps qs : list Z) : Prop := {
  rl_procs : ∀ x, x ∉ ps → procs w' !! x = procs w !! x;
  rl_fields : ∀ x, ∃ n, procs w' !! x = (λ v, set_next v n) <$> procs w !! x;
  rl_queues : ∀ q, q ∉ qs → queues w' !! q = queues w !! q;
  rl_rest : current w' = current w ∧ sched w' = sched w ∧ clock w' = clock w ∧
            interrupts w' = interrupts w ∧ semaphores w' = semaphores w ∧ mutexes w' = mutexes w ∧ ext w' = ext w;
}.

(** *** Segments *)
Section lseg.
Implicit Types (m : gmap Z Z).

Lemma lseg_app m h l1 l2 q : lseg m h (l1 ++ l2) q ↔ ∃ x, lseg m h l1 x ∧ lseg m x l2 q.
Proof.
  revert h. induction l1 as [|y l1 IH]; intros h; simpl; [naive_solver|].
  setoid_rewrite IH. naive_solver.
Qed.

Lemma lseg_agree m m' h l q :
  (∀ x, x ∈ l → m' !! x = m !! x) → lseg m h l q → lseg m' h l q.
Proof.
  revert h. induction l as [|y l IH]; intros h Hag; simpl; [done|].
  intros (-> & Hy & n & Hn & Hs). split; [done|]. split; [done|]. exists n.
  split; [by rewrite Hag by set_solver|]. apply IH; [|done]. intros x Hx. apply Hag. set_solver.
Qed.

Lemma lseg_insert m x n h l q : x ∉ l → lseg m h l q → lseg (<[x := n]> m) h l q.
Proof. intros Hx. apply lseg_agree. intros y Hy. apply lookup_insert_ne. set_solver. Qed.

Lemma lseg_head m h l : lseg m h l 0 → h = default 0 (head l).
Proof. destruct l; simpl; naive_solver. Qed.

Lemma lseg_lookup m h l q x : lseg m h l q → x ∈ l → is_Some (m !! x) ∧ x ≠ 0.
Proof.
  revert h. induction l as [|y l IH]; intros h; simpl; [set_solver|].
  intros (-> & Hy & n & Hn & Hs) [->|Hx]%elem_of_cons; [by eauto|]. by eapply IH.
Qed.

(** Redirecting the last link. *)
Lemma lseg_set_last m h l x q n :
  x ∉ l → lseg m h (l ++ [x]) q → lseg (<[x := n]> m) h (l ++ [x]) n.
Proof.
  rewrite !lseg_app. intros Hx (y & Hs1 & -> & Hx0 & k & Hk & ->). exists x.
  split; [by apply lseg_insert|]. simpl. rewrite lookup_insert_eq. eauto.
Qed.

Lemma lseg_size m h l q : NoDup l → lseg m h l q → (length l ≤ size m)%nat.
Proof.
  intros Hnd Hs. rewrite <- (size_dom (D := gset Z)), <- (size_list_to_set (C := gset Z)) by done.
  apply subseteq_size. intros x Hx%elem_of_list_to_set. apply elem_of_dom. by eapply lseg_lookup.
Qed.
End lseg.

(** *** Programs *)

Lemma wp_load_proc p v (Q : proc → kworld → Prop) w :
  procs w !! p = Some v → Q v w → wp (load_proc p) Q w.
Proof. intros Hv HQ. unfold load_proc, wp. by rewrite Hv. Qed.

Lemma wp_update_proc p f v (Q : unit → kworld → Prop) w :
  procs w !! p = Some v → Q tt (set_procs w (<[p := f v]> (procs w))) → wp (update_proc p f) Q w.
Proof. intros Hv HQ. apply wp_bind. by eapply wp_load_proc. Qed.

Lemma wp_load_queue q v (Q : proc_queue → kworld → Prop) w :
  queues w !! q = Some v → Q v w → wp (load_queue q) Q w.
Proof. intros Hv HQ. unfold load_queue, wp. by rewrite Hv. Qed.

Lemma wp_set_qhead q x v (Q : unit → kworld → Prop) w :
  queues w !! q = Some v →
  Q tt (set_queues w (<[q := MkQueue x (qtail v)]> (queues w))) → wp (set_qhead q x) Q w.
Proof. intros Hv HQ. apply wp_bind. by eapply wp_load_queue. Qed.

Lemma wp_set_qtail q x v (Q : unit → kworld → Prop) w :
  queues w !! q = Some v →
  Q tt (set_queues w (<[q := MkQueue (qhead v) x]> (queues w))) → wp (set_qtail q x) Q w.
Proof. intros Hv HQ. apply wp_bind. by eapply wp_load_queue. Qed.

Lemma wp_get_next p v (Q : Z → kworld → Prop) w :
  procs w !! p = Some v → Q (next v) w → wp (proc_get_next p) Q w.
Proof. intros Hv HQ. apply wp_bind. by eapply wp_load_proc. Qed.

Lemma links_set_next w p v x : procs w !! p = Some v →
  links (set_procs w (<[p := set_next v x]> (procs w))) = <[p := x]> (links w).
Proof. intros Hv. unfold links. simpl. by rewrite fmap_insert. Qed.

Lemma links_lookup w p : links w !! p = next <$> procs w !! p.
Proof. apply lookup_fmap. Qed.

Lemma links_Some w p n : links w !! p = Some n → ∃ v, procs w !! p = Some v ∧ next v = n.
Proof. rewrite links_lookup. destruct (procs w !! p); naive_solver. Qed.

Lemma next_same (o : option proc) : ∃ n, o = (λ v, set_next v n) <$> o.
Proof. destruct o as [v|]; [exists (next v)|by exists 0]. by destruct v. Qed.

(** Setting a link that exists: the new world and its links. *)
Lemma wp_set_next p x (Q : unit → kworld → Prop) w :
  is_Some (links w !! p) →
  (∀ w', links w' = <[p := x]> (links w) → queues w' = queues w → relinked w w' [p] [] → Q tt w') →
  wp (proc_set_next p x) Q w.
Proof.
  intros [n Hn] HQ. apply links_Some in Hn as (v & Hv & <-).
  eapply wp_update_proc; [exact Hv|]. apply HQ; [by apply links_set_next|done|].
  split; simpl; [| |done|done].
  - intros y Hy. apply lookup_insert_ne. set_solver.
  - intros y. destruct (decide (y = p)) as [->|Hne].
    + rewrite lookup_insert_eq, Hv. by exists x.
    + rewrite lookup_insert_ne by done. apply next_same.
Qed.

Lemma relinked_refl w : relinked w w [] [].
Proof. split; try done. intros x. apply next_same. Qed.

Lemma relinked_trans w1 w2 w3 ps qs ps' qs' :
  relinked w1 w2 ps qs → relinked w2 w3 ps' qs' → relinked w1 w3 (ps ++ ps') (qs ++ qs').
Proof.
  intros [P1 F1 Q1 (R1 & R2 & R3 & R4 & R5 & R6 & R7)] [P2 F2 Q2 (S1 & S2 & S3 & S4 & S5 & S6 & S7)]. split.
  - intros x Hx. rewrite P2, P1 by set_solver. done.
  - intros x. destruct (F1 x) as [n Hn], (F2 x) as [k Hk]. exists k. rewrite Hk, Hn.
    by destruct (procs w1 !! x).
  - intros q Hq. rewrite Q2, Q1 by set_solver. done.
  - by rewrite S1, S2, S3, S4, S5, S6, S7.
Qed.

Lemma relinked_mono w w' ps qs ps' qs' :
  relinked w w' ps qs → (∀ x, x ∈ ps → x ∈ ps') → (∀ x, x ∈ qs → x ∈ qs') → relinked w w' ps' qs'.
Proof.
  intros [P F Q R] Hp Hq. split; try done.
  - intros x Hx. apply P. auto.
  - intros q Hx. apply Q. auto.
Qed.

Lemma relinked_queue w q v u :
  queues w !! q = Some v → relinked w (set_queues w (<[q := u]> (queues w))) [] [q].
Proof.
  intros Hv. split; simpl; try done.
  - intros x. apply next_same.
  - intros y Hy. apply lookup_insert_ne. set_solver.
Qed.

(** A queue that is not touched keeps its list. *)
Lemma qrep_relinked w w' ps qs q l :
  relinked w w' ps qs → qrep w q l → q ∉ qs → (∀ x, x ∈ l → x ∉ ps) → qrep w' q l.
Proof.
  intros [P F Q R] [Hq Hqu Hl Hnd] Hqs Hps. split; [done|by rewrite Q| |done].
  eapply lseg_agree; [|exact Hl]. intros x Hx. rewrite !links_lookup. by rewrite P by auto.
Qed.

(** Queue stores, in the same style as [wp_set_next]. *)
Lemma wp_qhead q x v (Q : unit → kworld → Prop) w :
  queues w !! q = Some v →
  (∀ w', queues w' = <[q := MkQueue x (qtail v)]> (queues w) → links w' = links w →
         relinked w w' [] [q] → Q tt w') →
  wp (set_qhead q x) Q w.
Proof. intros Hv HQ. eapply wp_set_qhead; [exact Hv|]. apply HQ; [done|done|by eapply relinked_queue]. Qed.

Lemma wp_qtail q x v (Q : unit → kworld → Prop) w :
  queues w !! q = Some v →
  (∀ w', queues w' = <[q := MkQueue (qhead v) x]> (queues w) → links w' = links w →
         relinked w w' [] [q] → Q tt w') →
  wp (set_qtail q x) Q w.
Proof. intros Hv HQ. eapply wp_set_qtail; [exact Hv|]. apply HQ; [done|done|by eapply relinked_queue]. Qed.

(** Close a [relinked] goal from the steps in the context. *)
Ltac relink :=
  eapply relinked_mono; [repeat first [eassumption | eapply relinked_trans; [eassumption|]]|
    set_solver | set_solver].

(** The two shapes of a list, seen from its end. *)
Lemma list_end (l : list Z) : l = [] ∨ ∃ l' x, l = l' ++ [x].
Proof. destruct l as [|x l _] using rev_ind; [by left|right; eauto]. Qed.

Lemma head_snoc (l : list Z) x : default 0 (head (l ++ [x])) = default x (head l).
Proof. by destruct l. Qed.

Lemma lseg_nonzero m l x q : lseg m (default 0 (head (x :: l))) (x :: l) q → x ≠ 0.
Proof. simpl. tauto. Qed.

Lemma lseg_head_nonzero m h l x q : lseg m h (l ++ [x]) q → h ≠ 0.
Proof. destruct l; simpl; naive_solver. Qed.

Lemma NoDup_snoc (l : list Z) x : NoDup (l ++ [x]) ↔ NoDup l ∧ x ∉ l.
Proof.
  rewrite NoDup_app. split.
  - intros (H1 & H2 & _). split; [done|]. set_solver.
  - intros [H1 H2]. split; [done|]. split; [set_solver|]. apply NoDup_singleton.
Qed.

Lemma wp_push_tail q p l w :
  qrep w q l → is_Some (procs w !! p) → p ≠ 0 → p ∉ l →
  wp (proc_queue_push_tail q p) (λ _ w', qrep w' q (l ++ [p]) ∧ relinked w w' (p :: l) [q]) w.
Proof.
  intros [Hq Hqu Hl Hnd] Hp Hp0 Hpl. unfold proc_queue_push_tail.
  replace ((q =? 0) || (p =? 0)) with false by lia.
  assert (is_Some (links w !! p)) as Hlp by (rewrite links_lookup; by apply fmap_is_Some).
  apply wp_bind, wp_set_next; [done|]. intros w1 Hl1 Hq1 R1.
  apply wp_bind. eapply wp_load_queue; [by rewrite Hq1|]. cbn [qhead qtail].
  assert (lseg (links w1) (default 0 (head l)) l 0) as Hs1 by (rewrite Hl1; by apply lseg_insert).
  destruct (list_end l) as [->|(l' & t & ->)].
  - simpl. apply wp_bind. eapply wp_qhead; [by rewrite Hq1|]. intros w2 Hq2 Hl2 R2.
    eapply wp_qtail; [by rewrite Hq2, lookup_insert_eq|]. intros w3 Hq3 Hl3 R3. split; [|relink].
    split; [done|by rewrite Hq3, lookup_insert_eq| |by apply NoDup_singleton].
    simpl. rewrite Hl3, Hl2, Hl1, lookup_insert_eq. eauto.
  - assert (default 0 (head (l' ++ [t])) ≠ 0) as Hh by (by eapply lseg_head_nonzero).
    replace (_ =? 0) with false by lia. rewrite last_snoc. cbn [default from_option id].
    apply NoDup_snoc in Hnd as [Hnd Ht].
    apply wp_bind, wp_set_next; [eapply (lseg_lookup _ _ _ _ t Hs1); set_solver|].
    intros w2 Hl2 Hq2 R2.
    eapply wp_qtail; [by rewrite Hq2, Hq1|]. intros w3 Hq3 Hl3 R3. split; [|relink].
    split; [done| | |].
    + rewrite Hq3, lookup_insert_eq. cbn [qhead]. rewrite last_snoc. by destruct l'.
    + rewrite Hl3, Hl2. replace (default 0 (head ((l' ++ [t]) ++ [p])))
        with (default 0 (head (l' ++ [t]))) by (by destruct l').
      apply lseg_app. exists p. split; [by eapply lseg_set_last|]. simpl.
      rewrite lookup_insert_ne by set_solver. rewrite Hl1, lookup_insert_eq. eauto.
    + apply NoDup_snoc. split; [|done]. apply NoDup_snoc. done.
Qed.

Lemma wp_push_head q p l w :
  qrep w q l → is_Some (procs w !! p) → p ≠ 0 → p ∉ l →
  wp (proc_queue_push_head q p) (λ _ w', qrep w' q (p :: l) ∧ relinked w w' [p] [q]) w.
Proof.
  intros [Hq Hqu Hl Hnd] Hp Hp0 Hpl. unfold proc_queue_push_head.
  replace ((q =? 0) || (p =? 0)) with false by lia.
  assert (is_Some (links w !! p)) as Hlp by (rewrite links_lookup; by apply fmap_is_Some).
  apply wp_bind. eapply wp_load_queue; [exact Hqu|]. cbn [qhead qtail].
  apply wp_bind, wp_set_next; [done|]. intros w1 Hl1 Hq1 R1.
  apply wp_bind. eapply wp_qhead; [by rewrite Hq1|]. intros w2 Hq2 Hl2 R2.
  apply wp_bind. eapply wp_load_queue; [by rewrite Hq2, lookup_insert_eq|]. cbn [qhead qtail].
  assert (lseg (links w2) p (p :: l) 0) as Hs.
  { rewrite Hl2, Hl1. simpl. rewrite lookup_insert_eq. split; [done|]. split; [done|].
    eexists. split; [done|]. by apply lseg_insert. }
  assert (NoDup (p :: l)) by (by apply NoDup_cons).
  destruct (list_end l) as [->|(l' & t & ->)].
  - simpl. eapply wp_qtail; [by rewrite Hq2, lookup_insert_eq|]. intros w3 Hq3 Hl3 R3.
    split; [|relink]. split; [done|by rewrite Hq3, lookup_insert_eq|by rewrite Hl3|done].
  - rewrite last_snoc. cbn [default from_option id].
    assert (t ≠ 0) as Ht by (eapply (lseg_lookup _ _ _ _ t Hl); set_solver).
    replace (t =? 0) with false by lia. cbn [when]. apply wp_ret. split; [|relink].
    split; [done| |done|done]. rewrite Hq2, lookup_insert_eq. cbn [qtail].
    by rewrite app_comm_cons, !last_snoc.
Qed.

Lemma wp_pop_head q l w :
  qrep w q l →
  wp (proc_queue_pop_head q) (λ r w', r = default 0 (head l) ∧ qrep w' q (tail l) ∧
    relinked w w' (take 1 l) [q] ∧ (∀ p, head l = Some p → links w' !! p = Some 0)) w.
Proof.
  intros Hrep. destruct (Hrep) as [Hq Hqu Hl Hnd]. unfold proc_queue_pop_head.
  replace (q =? 0) with false by lia.
  apply wp_bind. eapply wp_load_queue; [exact Hqu|]. cbn [qhead].
  destruct l as [|x l]; cbn [head default from_option id tail take].
  { simpl. apply wp_ret. split; [done|]. split; [done|]. split; [|done].
    eapply relinked_mono; [apply relinked_refl|set_solver..]. }
  destruct Hl as (_ & Hx & n & Hn & Hs). replace (x =? 0) with false by lia.
  destruct (links_Some _ _ _ Hn) as (v & Hv & <-).
  apply wp_bind. eapply wp_get_next; [exact Hv|].
  apply wp_bind. eapply wp_qhead; [exact Hqu|]. intros w1 Hq1 Hl1 R1.
  apply wp_bind. eapply wp_load_queue; [by rewrite Hq1, lookup_insert_eq|]. cbn [qhead qtail].
  apply NoDup_cons in Hnd as [Hxl Hnd].
  pose proof (lseg_head _ _ _ Hs) as Hnv. rewrite Hnv in *. apply wp_bind.
  assert (∀ w2, links w2 = links w →
    queues w2 = <[q := MkQueue (default 0 (head l)) (default 0 (last l))]> (queues w) →
    relinked w w2 [] [q] →
    wp (_ ← proc_set_next x 0; mret x) (λ r w', r = x ∧ qrep w' q l ∧
      relinked w w' [x] [q] ∧ (∀ p, Some x = Some p → links w' !! p = Some 0)) w2) as Hgo.
  { intros w2 Hl2 Hq2 R2. apply wp_bind, wp_set_next; [by rewrite Hl2, Hn|].
    intros w3 Hl3 Hq3 R3. apply wp_ret. split; [done|]. split; [|split; [relink|]].
    - split; [done|by rewrite Hq3, Hq2, lookup_insert_eq| |done].
      rewrite Hl3, Hl2. by apply lseg_insert.
    - intros p [= <-]. by rewrite Hl3, lookup_insert_eq. }
  destruct (list_end l) as [->|(l' & t & ->)].
  - simpl. eapply wp_qtail; [by rewrite Hq1, lookup_insert_eq|]. intros w2 Hq2 Hl2 R2.
    apply Hgo; [by rewrite Hl2, Hl1|by rewrite Hq2, Hq1, insert_insert_eq|relink].
  - assert (default 0 (head (l' ++ [t])) ≠ 0) as Hh by (by eapply lseg_head_nonzero).
    replace (_ =? 0) with false by lia. cbn [when]. apply wp_ret.
    apply Hgo; [done| |done]. rewrite Hq1. by rewrite last_cons, last_snoc.
Qed.

(** Cutting a list at an element. *)
Lemma lseg_middle m h l1 x l2 q :
  lseg m h (l1 ++ x :: l2) q →
  x ≠ 0 ∧ lseg m h l1 x ∧ ∃ n, m !! x = Some n ∧ lseg m n l2 q.
Proof. rewrite lseg_app. intros (y & Hs & -> & Hx & n & Hn & Hs2). eauto. Qed.

Lemma nodup_middle_inv (l1 l2 : list Z) x :
  NoDup (l1 ++ x :: l2) → NoDup (l1 ++ l2) ∧ (x ∉ l1) ∧ (x ∉ l2).
Proof. rewrite !NoDup_app, NoDup_cons. set_solver. Qed.

(** The head of a list with something in the middle does not depend on what
    follows it. *)
Lemma head_middle (l1 l2 l3 : list Z) x :
  default 0 (head (l1 ++ x :: l2)) = default 0 (head (l1 ++ x :: l3)).
Proof. by destruct l1. Qed.

Lemma last_middle (l1 l2 : list Z) x : last (l1 ++ x :: l2) = last (x :: l2).
Proof. apply last_app_cons. Qed.

(** [x] is last exactly when nothing follows it. *)
Lemma last_is_middle (l1 l2 : list Z) x :
  x ∉ l2 → default 0 (last (l1 ++ x :: l2)) = x ↔ l2 = [].
Proof.
  intros Hx. rewrite last_middle, last_cons. split; [|by intros ->].
  destruct (list_end l2) as [->|(l' & t & ->)]; [done|]. rewrite last_snoc. set_solver.
Qed.

Lemma wp_insert_after q a p l1 l2 w :
  qrep w q (l1 ++ a :: l2) → is_Some (procs w !! p) → p ≠ 0 → p ∉ l1 ++ a :: l2 →
  wp (proc_queue_insert_after q a p)
     (λ _ w', qrep w' q (l1 ++ a :: p :: l2) ∧ relinked w w' [p; a] [q]) w.
Proof.
  intros [Hq Hqu Hl Hnd] Hp Hp0 Hpl. unfold proc_queue_insert_after.
  destruct (lseg_middle _ _ _ _ _ _ Hl) as (Ha0 & Hs1 & n & Hn & Hs2).
  destruct (nodup_middle_inv _ _ _ Hnd) as (Hnd' & Ha1 & Ha2).
  replace ((q =? 0) || (a =? 0) || (p =? 0)) with false by lia.
  destruct (links_Some _ _ _ Hn) as (v & Hv & <-).
  apply wp_bind. eapply wp_get_next; [exact Hv|].
  assert (is_Some (links w !! p)) as Hlp by (rewrite links_lookup; by apply fmap_is_Some).
  apply wp_bind, wp_set_next; [done|]. intros w1 Hl1 Hq1 R1.
  assert (p ≠ a) as Hpa by set_solver.
  apply wp_bind, wp_set_next; [rewrite Hl1, lookup_insert_ne, Hn by done; by eexists|].
  intros w2 Hl2 Hq2 R2.
  apply wp_bind. eapply wp_load_queue; [by rewrite Hq2, Hq1|]. cbn [qtail].
  assert (lseg (links w2) (default 0 (head (l1 ++ a :: p :: l2))) (l1 ++ a :: p :: l2) 0) as Hs.
  { rewrite (head_middle l1 (p :: l2) l2), Hl2, Hl1. apply lseg_app. exists a.
    split; [apply lseg_insert; [done|]; apply lseg_insert; set_solver|]. simpl.
    rewrite lookup_insert_eq. split; [done|]. split; [done|]. exists p. split; [done|].
    rewrite lookup_insert_ne, lookup_insert_eq by done. split; [done|]. split; [done|].
    exists (next v). split; [done|]. apply lseg_insert; [done|]. apply lseg_insert; set_solver. }
  assert (NoDup (l1 ++ a :: p :: l2)) as Hnd2.
  { rewrite NoDup_app in Hnd |- *. rewrite NoDup_cons in Hnd. rewrite !NoDup_cons. set_solver. }
  destruct (Z.eqb_spec (default 0 (last (l1 ++ a :: l2))) a) as [E|E]; cbn [when].
  - apply last_is_middle in E as ->; [|done].
    eapply wp_qtail; [by rewrite Hq2, Hq1|]. intros w3 Hq3 Hl3 R3. split; [|relink].
    split; [done| |by rewrite Hl3|done]. rewrite Hq3, lookup_insert_eq. cbn [qhead].
    by rewrite (head_middle l1 [p] []), (last_middle l1 [p]).
  - apply wp_ret. split; [|relink]. split; [done| |done|done].
    rewrite Hq2, Hq1, Hqu, !last_middle, (head_middle l1 (p :: l2) l2). do 2 f_equal.
    destruct (list_end l2) as [->|(l' & t & ->)]; [by rewrite last_is_middle in E by set_solver|].
    by rewrite !app_comm_cons, !last_snoc.
Qed.

(** Unlinking [x] behind [prev] (0 for the head of the queue). *)
Lemma unlink_lseg w w' l1 x l2 n :
  lseg (links w) (default 0 (head (l1 ++ x :: l2))) (l1 ++ x :: l2) 0 →
  NoDup (l1 ++ x :: l2) → links w !! x = Some n →
  links w' = (if decide (l1 = []) then links w
              else <[default 0 (last l1) := n]> (links w)) →
  lseg (links w') (default 0 (head (l1 ++ l2))) (l1 ++ l2) 0.
Proof.
  intros Hl Hnd Hn Hl'. destruct (lseg_middle _ _ _ _ _ _ Hl) as (Hx & Hs1 & n' & Hn' & Hs2).
  assert (n' = n) as -> by congruence. destruct (nodup_middle_inv _ _ _ Hnd) as (Hnd' & Hx1 & Hx2).
  rewrite Hl'. destruct (list_end l1) as [->|(l' & t & ->)].
  - rewrite decide_True by done. simpl. by rewrite <- (lseg_head _ _ _ Hs2).
  - rewrite decide_False by (by destruct l'). rewrite last_snoc. cbn [default from_option id].
    apply NoDup_app in Hnd' as (Hndl & Hdis & _). apply NoDup_snoc in Hndl as [Hndl Ht].
    apply lseg_app. exists n. split; [|apply lseg_insert; [set_solver|done]].
    replace (default 0 (head ((l' ++ [t]) ++ l2)))
      with (default 0 (head ((l' ++ [t]) ++ x :: l2))) by (by destruct l').
    by eapply lseg_set_last.
Qed.

(** [if (prev == NULL) head = n else prev->next = n; if (tail == x) tail = prev;
    x->next = NULL], shared by the two removals. *)
Lemma wp_unlink {R} q x l1 l2 n (r : R) w :
  qrep w q (l1 ++ x :: l2) → links w !! x = Some n →
  wp (_ ← (if default 0 (last l1) =? 0 then set_qhead q n
           else proc_set_next (default 0 (last l1)) n);
      v ← load_queue q;
      _ ← when (qtail v =? x) (set_qtail q (default 0 (last l1)));
      _ ← proc_set_next x 0;
      mret r) (λ r' w', r' = r ∧ qrep w' q (l1 ++ l2) ∧
        relinked w w' (l1 ++ [x]) [q] ∧ links w' !! x = Some (0 : Z)) w.
Proof.
  intros Hrep Hn. destruct (Hrep) as [Hq Hqu Hl Hnd].
  destruct (nodup_middle_inv _ _ _ Hnd) as (Hnd' & Hx1 & Hx2).
  destruct (lseg_middle _ _ _ _ _ _ Hl) as (Hx0 & Hs1 & n' & Hn' & Hs2).
  assert (n' = n) as -> by congruence.
  set (pv := default 0 (last l1)).
  apply wp_bind.
  eapply wp_mono with (P := λ _ w1,
    links w1 = (if decide (l1 = []) then links w else <[pv := n]> (links w)) ∧
    queues w1 !! q = Some (MkQueue (default 0 (head (l1 ++ l2))) (default 0 (last (l1 ++ x :: l2)))) ∧
    relinked w w1 l1 [q]).
  { unfold pv. destruct (list_end l1) as [->|(l' & t & ->)].
    - simpl. eapply wp_qhead; [exact Hqu|]. intros w1 Hq1 Hl1 R1. split; [done|].
      split; [|relink]. rewrite Hq1, lookup_insert_eq. do 2 f_equal. by apply lseg_head in Hs2.
    - rewrite last_snoc. cbn [default from_option id].
      assert (t ≠ 0) as Ht by (eapply (lseg_lookup _ _ _ _ t Hs1); set_solver).
      replace (t =? 0) with false by lia. rewrite decide_False by (by destruct l').
      apply wp_set_next; [eapply (lseg_lookup _ _ _ _ t Hs1); set_solver|].
      intros w1 Hl1 Hq1 R1. split; [done|]. split; [|relink]. rewrite Hq1, Hqu.
      by destruct l'. }
  intros _ w1 (Hl1 & Hq1 & R1).
  pose proof (unlink_lseg w w1 l1 x l2 n Hl Hnd Hn Hl1) as Hs.
  apply wp_bind. eapply wp_load_queue; [exact Hq1|]. cbn [qtail]. apply wp_bind.
  eapply wp_mono with (P := λ _ w2, links w2 = links w1 ∧
    queues w2 !! q = Some (MkQueue (default 0 (head (l1 ++ l2))) (default 0 (last (l1 ++ l2)))) ∧
    relinked w1 w2 [] [q]).
  { destruct (Z.eqb_spec (default 0 (last (l1 ++ x :: l2))) x) as [E|E]; cbn [when].
    - apply last_is_middle in E as ->; [|done]. eapply wp_qtail; [exact Hq1|].
      intros w2 Hq2 Hl2 R2. split; [done|]. split; [|done].
      by rewrite Hq2, lookup_insert_eq, !app_nil_r.
    - apply wp_ret. split; [done|]. split.
      + rewrite Hq1. do 2 f_equal.
        destruct (list_end l2) as [->|(l' & t & ->)]; [by rewrite last_is_middle in E by set_solver|].
        rewrite last_middle, last_cons, (assoc app), !last_snoc. done.
      + eapply relinked_mono; [apply relinked_refl|set_solver..]. }
  intros _ w2 (Hl2 & Hq2 & R2). apply wp_bind, wp_set_next.
  { rewrite Hl2, Hl1. destruct (decide (l1 = [])); [by rewrite Hn|].
    destruct (decide (pv = x)) as [->|]; [by rewrite lookup_insert_eq|].
    by rewrite lookup_insert_ne, Hn. }
  intros w3 Hl3 Hq3 R3. apply wp_ret. split; [done|]. split; [|split; [relink|]].
  - split; [done|by rewrite Hq3| |done]. rewrite Hl3, Hl2. apply lseg_insert; [set_solver|done].
  - by rewrite Hl3, lookup_insert_eq.
Qed.

Lemma wp_remove_after_middle q pv l1 x l2 w :
  qrep w q (l1 ++ pv :: x :: l2) →
  wp (proc_queue_remove_after q pv) (λ r w', r = x ∧ qrep w' q (l1 ++ pv :: l2) ∧
    relinked w w' (l1 ++ [pv; x]) [q] ∧ links w' !! x = Some 0) w.
Proof.
  intros Hrep. destruct (Hrep) as [Hq Hqu Hl Hnd]. unfold proc_queue_remove_after.
  destruct (lseg_middle _ _ _ _ _ _ Hl) as (Hp0 & Hs1 & n & Hn & -> & Hx0 & k & Hk & Hs2).
  replace (q =? 0) with false by lia. replace (pv =? 0) with false by lia.
  destruct (links_Some _ _ _ Hn) as (v & Hv & Hvn).
  apply wp_bind. eapply wp_get_next; [exact Hv|]. rewrite Hvn. replace (x =? 0) with false by lia.
  destruct (links_Some _ _ _ Hk) as (u & Hu & Huk).
  apply wp_bind. eapply wp_get_next; [exact Hu|]. rewrite Huk.
  rewrite (cons_middle pv l1) in Hrep. rewrite (assoc app) in Hrep.
  pose proof (wp_unlink q x (l1 ++ [pv]) l2 k x w Hrep Hk) as Hun. rewrite last_snoc in Hun.
  cbn [default from_option id] in Hun. replace (pv =? 0) with false in Hun by lia.
  eapply wp_mono; [exact Hun|]. intros r w' (-> & Hr & R & Hlx). split; [done|].
  rewrite <- !(assoc app) in *. done.
Qed.

Lemma wp_remove_after_last q pv l w :
  qrep w q (l ++ [pv]) → wp (proc_queue_remove_after q pv) (λ r w', r = 0 ∧ w' = w) w.
Proof.
  intros [Hq Hqu Hl Hnd]. unfold proc_queue_remove_after.
  destruct (lseg_middle _ _ _ _ _ _ Hl) as (Hp0 & Hs1 & n & Hn & ->).
  replace (q =? 0) with false by lia. replace (pv =? 0) with false by lia.
  destruct (links_Some _ _ _ Hn) as (v & Hv & Hvn).
  apply wp_bind. eapply wp_get_next; [exact Hv|]. rewrite Hvn. by apply wp_ret.
Qed.

(** The removal by value. *)
Lemma wp_remove_loop n q p l1 l2 w :
  qrep w q (l1 ++ l2) → p ∉ l1 → p ≠ 0 → (length l2 < n)%nat →
  wp (remove_loop n q p (default 0 (last l1)) (default 0 (head l2)))
     (λ b w', match decide (p ∈ l2) with
              | left _ => b = true ∧ (∃ k1 k2, l1 ++ l2 = k1 ++ p :: k2 ∧ qrep w' q (k1 ++ k2)) ∧
                          relinked w w' (l1 ++ l2) [q] ∧ links w' !! p = Some 0
              | right _ => b = false ∧ w' = w
              end) w.
Proof.
  revert n l1. induction l2 as [|x l2 IH]; intros [|n] l1 Hrep Hp Hp0 Hn; simpl in Hn; try lia;
    cbn [remove_loop head default from_option id].
  { rewrite Z.eqb_refl. apply wp_ret. cbv beta. rewrite decide_False by set_solver. done. }
  destruct (Hrep) as [Hq Hqu Hl Hnd].
  destruct (lseg_middle _ _ _ _ _ _ Hl) as (Hx0 & Hs1 & k & Hk & Hs2).
  destruct (links_Some _ _ _ Hk) as (u & Hu & Huk).
  replace (x =? 0) with false by lia. destruct (Z.eqb_spec x p) as [->|Hne].
  - apply wp_bind. eapply wp_get_next; [exact Hu|]. rewrite Huk.
    eapply wp_mono; [apply (wp_unlink q p l1 l2 k true w Hrep Hk)|].
    intros b w' (-> & Hr & R & Hlp). cbv beta. rewrite decide_True by set_solver.
    split; [done|]. split; [eauto|]. split; [|done].
    eapply relinked_mono; [exact R|set_solver..].
  - apply wp_bind. eapply wp_get_next; [exact Hu|]. rewrite Huk, (lseg_head _ _ _ Hs2).
    assert ((l1 ++ [x]) ++ l2 = l1 ++ x :: l2) as E by (by rewrite <- (assoc app)).
    rewrite <- E in Hrep.
    pose proof (IH n (l1 ++ [x]) Hrep ltac:(set_solver) Hp0 ltac:(lia)) as Hgo.
    rewrite last_snoc in Hgo. cbn [default from_option id] in Hgo.
    eapply wp_mono; [exact Hgo|]. cbv beta. intros b w' Hb. rewrite <- E.
    destruct (decide (p ∈ l2)), (decide (p ∈ x :: l2)); set_solver.
Qed.

Lemma qrep_fuel w q l : qrep w q l → (length l < S (size (procs w)))%nat.
Proof.
  intros [Hq Hqu Hl Hnd]. pose proof (lseg_size _ _ _ _ Hnd Hl) as Hs.
  unfold links in Hs. rewrite map_size_fmap in Hs. lia.
Qed.

Lemma wp_remove q p l w :
  qrep w q l → p ≠ 0 →
  wp (proc_queue_remove q p)
     (λ b w', match decide (p ∈ l) with
              | left _ => b = true ∧ (∃ k1 k2, l = k1 ++ p :: k2 ∧ qrep w' q (k1 ++ k2)) ∧
                          relinked w w' l [q] ∧ links w' !! p = Some 0
              | right _ => b = false ∧ w' = w
              end) w.
Proof.
  intros Hrep Hp0. pose proof (qrep_fuel _ _ _ Hrep) as Hf. unfold proc_queue_remove.
  pose proof (qr_ptr _ _ _ Hrep). replace ((q =? 0) || (p =? 0)) with false by lia.
  apply wp_bind. eapply wp_load_queue; [apply Hrep|]. apply wp_bind, wp_gets. cbn [qhead].
  apply (wp_remove_loop _ q p [] l w Hrep); [set_solver|done|done].
Qed.

(** *** Searches *)

(** [pred] on the process at an address. *)
Definition holds (w : kworld) (pred : proc → bool) (x : Z) : bool :=
  match procs w !! x with Some v => pred v | None => false end.

(** The longest prefix whose elements satisfy [f]. *)
Fixpoint prefix_while (f : Z → bool) (l : list Z) : list Z :=
  match l with
  | [] => []
  | x :: l' => if f x then x :: prefix_while f l' else []
  end.

(** The first element that satisfies [f], with its predecessor. *)
Fixpoint first_with (f : Z → bool) (prev : Z) (l : list Z) : option (Z * Z) :=
  match l with
  | [] => None
  | x :: l' => if f x then Some (prev, x) else first_with f x l'
  end.

(** The last element that satisfies [f], or [last]. *)
Fixpoint last_with (f : Z → bool) (last : Z) (l : list Z) : Z :=
  match l with [] => last | x :: l' => last_with f (if f x then x else last) l' end.

Section searches.
Context (w : kworld) (pred : proc → bool).

(** One step of a walk along a segment. *)
Lemma lseg_step x l :
  lseg (links w) x (x :: l) 0 →
  x ≠ 0 ∧ ∃ v, procs w !! x = Some v ∧ holds w pred x = pred v ∧ lseg (links w) (next v) l 0.
Proof.
  intros (_ & Hx & n & Hn & Hs). destruct (links_Some _ _ _ Hn) as (v & Hv & <-).
  split; [done|]. exists v. unfold holds. by rewrite Hv.
Qed.

Ltac step_walk Hs :=
  let Hx := fresh "Hx" in let Hv := fresh "Hv" in let Hh := fresh "Hh" in
  pose proof (proj1 Hs) as ->; apply lseg_step in Hs as (Hx & v & Hv & Hh & Hs);
  rewrite (proj2 (Z.eqb_neq _ 0) Hx); apply wp_bind; eapply wp_load_proc; [exact Hv|];
  rewrite <- Hh; clear Hh.

Lemma wp_find_loop n prev h l :
  lseg (links w) h l 0 → (length l < n)%nat →
  wp (find_loop n pred prev h) (λ r w', r = first_with (holds w pred) prev l ∧ w' = w) w.
Proof.
  revert n prev h. induction l as [|x l IH]; intros [|n] prev h Hs Hn; simpl in Hn; try lia;
    cbn [find_loop first_with].
  - rewrite Hs. by apply wp_ret.
  - step_walk Hs. destruct (holds w pred x); [by apply wp_ret|]. apply IH; [done|lia].
Qed.

Lemma wp_find_last_loop n last h l :
  lseg (links w) h l 0 → (length l < n)%nat →
  wp (find_last_loop n pred last h) (λ r w', r = last_with (holds w pred) last l ∧ w' = w) w.
Proof.
  revert n last h. induction l as [|x l IH]; intros [|n] last h Hs Hn; simpl in Hn; try lia;
    cbn [find_last_loop last_with].
  - rewrite Hs. by apply wp_ret.
  - step_walk Hs. apply IH; [done|lia].
Qed.

Lemma wp_find_prefix_loop n last h l :
  lseg (links w) h l 0 → (length l < n)%nat →
  wp (find_prefix_loop n pred last h)
     (λ r w', r = default last (list.last (prefix_while (holds w pred) l)) ∧ w' = w) w.
Proof.
  revert n last h. induction l as [|x l IH]; intros [|n] last h Hs Hn; simpl in Hn; try lia;
    cbn [find_prefix_loop prefix_while].
  - rewrite Hs. by apply wp_ret.
  - step_walk Hs. destruct (holds w pred x); cbn [negb]; [|by apply wp_ret].
    eapply wp_mono; [apply IH; [exact Hs|lia]|]. intros r ? [-> ->]. split; [|done].
    rewrite last_cons. by destruct (list.last _).
Qed.
End searches.

Lemma wp_find_last_prefix q pred l w :
  qrep w q l →
  wp (proc_queue_find_last_prefix q (Some pred))
     (λ r w', r = default 0 (last (prefix_while (holds w pred) l)) ∧ w' = w) w.
Proof.
  intros Hrep. pose proof (qr_ptr _ _ _ Hrep). unfold proc_queue_find_last_prefix.
  replace (q =? 0) with false by lia. apply wp_bind. eapply wp_load_queue; [apply Hrep|].
  apply wp_bind, wp_gets. apply wp_find_prefix_loop; [apply Hrep|by eapply qrep_fuel].
Qed.

Lemma wp_find q pred l w :
  qrep w q l →
  wp (proc_queue_find q (Some pred))
     (λ r w', r = first_with (holds w pred) 0 l ∧ w' = w) w.
Proof.
  intros Hrep. pose proof (qr_ptr _ _ _ Hrep). unfold proc_queue_find.
  replace (q =? 0) with false by lia. apply wp_bind. eapply wp_load_queue; [apply Hrep|].
  apply wp_bind, wp_gets. apply wp_find_loop; [apply Hrep|by eapply qrep_fuel].
Qed.

Lemma wp_find_last q pred l w :
  qrep w q l →
  wp (proc_queue_find_last q (Some pred))
     (λ r w', r = last_with (holds w pred) 0 l ∧ w' = w) w.
Proof.
  intros Hrep. pose proof (qr_ptr _ _ _ Hrep). unfold proc_queue_find_last.
  replace (q =? 0) with false by lia. apply wp_bind. eapply wp_load_queue; [apply Hrep|].
  apply wp_bind, wp_gets. apply wp_find_last_loop; [apply Hrep|by eapply qrep_fuel].
Qed.

Lemma wp_empty q l w :
  qrep w q l → wp (proc_queue_empty q) (λ b w', b = bool_decide (l = []) ∧ w' = w) w.
Proof.
  intros [Hq Hqu Hl Hnd]. unfold proc_queue_empty. replace (q =? 0) with false by lia.
  apply wp_bind. eapply wp_load_queue; [exact Hqu|]. apply wp_ret. split; [|done]. cbn [qhead].
  destruct l as [|x l]; [done|]. destruct Hl as (_ & Hx & _).
  rewrite bool_decide_eq_false_2 by done. cbn [head default from_option id]. lia.
Qed.

(** *** Moving a prefix *)

(** Appending a segment that is in no queue. *)
Lemma wp_append_seg dst d first l t w :
  qrep w dst d → lseg (links w) first (l ++ [t]) 0 → NoDup (l ++ [t]) →
  (∀ x, x ∈ d → x ∉ l ++ [t]) →
  wp (v ← load_queue dst;
      if qhead v =? 0 then _ ← set_qhead dst first; set_qtail dst t
      else _ ← proc_set_next (qtail v) first; set_qtail dst t)
     (λ _ w', qrep w' dst (d ++ l ++ [t]) ∧ relinked w w' d [dst]) w.
Proof.
  intros [Hd Hdu Hdl Hdnd] Hs Hnd Hdis. apply wp_bind. eapply wp_load_queue; [exact Hdu|].
  cbn [qhead qtail]. pose proof (lseg_head _ _ _ Hs) as Hf.
  assert (NoDup (d ++ l ++ [t])) as Hnd' by (apply NoDup_app; split_and!; [done|set_solver|done]).
  destruct (list_end d) as [->|(d' & y & ->)].
  - simpl. apply wp_bind. eapply wp_qhead; [exact Hdu|]. intros w1 Hq1 Hl1 R1.
    eapply wp_qtail; [by rewrite Hq1, lookup_insert_eq|]. intros w2 Hq2 Hl2 R2.
    split; [|relink]. split; [done| |by rewrite Hl2, Hl1, <- Hf|done].
    rewrite Hq2, lookup_insert_eq, last_snoc. cbn [qhead]. by rewrite <- Hf.
  - assert (default 0 (head (d' ++ [y])) ≠ 0) as Hh by (by eapply lseg_head_nonzero).
    replace (_ =? 0) with false by lia. rewrite last_snoc. cbn [default from_option id].
    apply NoDup_snoc in Hdnd as [Hdnd Hy].
    apply wp_bind, wp_set_next; [eapply (lseg_lookup _ _ _ _ y Hdl); set_solver|].
    intros w1 Hl1 Hq1 R1. eapply wp_qtail; [by rewrite Hq1|]. intros w2 Hq2 Hl2 R2.
    split; [|relink]. split; [done| | |done].
    + rewrite Hq2, lookup_insert_eq. cbn [qhead]. rewrite (assoc app), last_snoc. by destruct d'.
    + rewrite Hl2, Hl1. replace (default 0 (head ((d' ++ [y]) ++ l ++ [t])))
        with (default 0 (head (d' ++ [y]))) by (by destruct d').
      apply lseg_app. exists first. split; [by eapply lseg_set_last|].
      apply lseg_insert; [|done]. apply Hdis. set_solver.
Qed.

(** Detaching the prefix that ends in [t]. *)
Lemma wp_detach {R} src l1 t l2 n (k : prog kworld R) Q w :
  qrep w src (l1 ++ t :: l2) → links w !! t = Some n →
  (∀ w', qrep w' src l2 →
     lseg (links w') (default 0 (head (l1 ++ t :: l2))) (l1 ++ [t]) 0 →
     relinked w w' [t] [src] → wp k Q w') →
  wp (_ ← set_qhead src n;
      s ← load_queue src;
      _ ← when (qtail s =? t) (set_qtail src 0);
      _ ← proc_set_next t 0;
      k) Q w.
Proof.
  intros [Hsq Hsqu Hsl Hsnd] Hn Hk.
  destruct (lseg_middle _ _ _ _ _ _ Hsl) as (Ht0 & Hs1 & n' & Hn' & Hs2).
  assert (n' = n) as -> by congruence.
  destruct (nodup_middle_inv _ _ _ Hsnd) as (Hnd' & Ht1 & Ht2).
  apply wp_bind. eapply wp_qhead; [exact Hsqu|]. intros w1 Hq1 Hl1 R1.
  apply wp_bind. eapply wp_load_queue; [by rewrite Hq1, lookup_insert_eq|]. cbn [qtail].
  pose proof (lseg_head _ _ _ Hs2) as Hn2. rewrite Hn2 in Hq1.
  apply wp_bind. eapply wp_mono with (P := λ _ w2, links w2 = links w ∧
    queues w2 !! src = Some (MkQueue (default 0 (head l2)) (default 0 (last l2))) ∧
    relinked w w2 [] [src]).
  { destruct (Z.eqb_spec (default 0 (last (l1 ++ t :: l2))) t) as [E|E]; cbn [when].
    - apply last_is_middle in E as ->; [|done].
      eapply wp_qtail; [by rewrite Hq1, lookup_insert_eq|]. intros w2 Hq2 Hl2 R2.
      split; [congruence|]. split; [by rewrite Hq2, lookup_insert_eq|relink].
    - apply wp_ret. split; [done|]. split; [|done]. rewrite Hq1, lookup_insert_eq. do 2 f_equal.
      destruct (list_end l2) as [->|(l' & y & ->)]; [by rewrite last_is_middle in E by set_solver|].
      cbn [qtail]. by rewrite last_middle, last_cons, last_snoc. }
  intros _ w2 (Hl2 & Hq2 & R2). apply wp_bind, wp_set_next; [by rewrite Hl2, Hn|].
  intros w3 Hl3 Hq3 R3. rewrite Hl2 in Hl3. apply Hk; [| |relink].
  - split; [done|by rewrite Hq3| |by apply NoDup_app in Hnd' as (_ & _ & ?)].
    rewrite Hl3, <- Hn2. by apply lseg_insert.
  - rewrite Hl3. eapply lseg_set_last; [done|]. apply lseg_app. exists t.
    split; [done|]. simpl. eauto.
Qed.

Lemma wp_splice dst src l1 t l2 d w :
  qrep w src (l1 ++ t :: l2) → qrep w dst d → dst ≠ src → (∀ x, x ∈ d → x ∉ l1 ++ t :: l2) →
  wp (proc_queue_splice_prefix_tail dst src t) (λ _ w',
    qrep w' src l2 ∧ qrep w' dst (d ++ l1 ++ [t]) ∧ relinked w w' (t :: d) [src; dst]) w.
Proof.
  intros Hsrc Hdst Hne Hdis. pose proof (qr_ptr _ _ _ Hdst) as Hd0.
  destruct (Hsrc) as [Hsq Hsqu Hsl Hsnd].
  destruct (lseg_middle _ _ _ _ _ _ Hsl) as (Ht0 & _ & n & Hn & _).
  unfold proc_queue_splice_prefix_tail. replace ((dst =? 0) || (src =? 0)) with false by lia.
  apply wp_bind. eapply wp_load_queue; [exact Hsqu|]. cbn [qhead qtail].
  set (first := default 0 (head (l1 ++ t :: l2))).
  assert (first ≠ 0) as Hf0 by (unfold first; destruct l1; [done|]; simpl in Hsl; tauto).
  replace ((first =? 0) || (t =? 0)) with false by lia.
  destruct (links_Some _ _ _ Hn) as (v & Hv & Hvn).
  apply wp_bind. eapply wp_get_next; [exact Hv|]. rewrite Hvn.
  apply (wp_detach src l1 t l2 n); [done|done|]. intros w1 Hsrc1 Hpre R1.
  assert (qrep w1 dst d) as Hdst1.
  { eapply qrep_relinked; [exact R1|exact Hdst|set_solver|]. intros x Hx.
    specialize (Hdis x Hx). set_solver. }
  eapply wp_mono; [apply (wp_append_seg dst d first l1 t w1 Hdst1 Hpre)|].
  - rewrite cons_middle, (assoc app) in Hsnd. by apply NoDup_app in Hsnd as (? & _).
  - intros x Hx. specialize (Hdis x Hx). set_solver.
  - intros _ w2 [Hd2 R2]. split; [|split; [done|relink]].
    eapply qrep_relinked; [exact R2|exact Hsrc1|set_solver|]. intros x Hx Hd.
    specialize (Hdis x Hd). set_solver.
Qed.

(** *** Sequences of calls on one queue *)

Inductive queue_call :=
| PushHead (p : Z)
| PushTail (p : Z)
| PopHead
| InsertAfter (after p : Z)
| RemoveAfter (prev : Z)
| Remove (p : Z)
| IsEmpty
| Head
| Tail.

Definition queue_exec (q : Z) (c : queue_call) : prog kworld Z :=
  match c with
  | PushHead p => _ ← proc_queue_push_head q p; mret 0
  | PushTail p => _ ← proc_queue_push_tail q p; mret 0
  | PopHead => proc_queue_pop_head q
  | InsertAfter a p => _ ← proc_queue_insert_after q a p; mret 0
  | RemoveAfter prev => proc_queue_remove_after q prev
  | Remove p => b ← proc_queue_remove q p; mret (Z.b2z b)
  | IsEmpty => b ← proc_queue_empty q; mret (Z.b2z b)
  | Head => proc_queue_head q
  | Tail => proc_queue_tail q
  end.

Fixpoint list_insert_after (a p : Z) (l : list Z) : list Z :=
  match l with
  | [] => []
  | x :: l' => if x =? a then x :: p :: l' else x :: list_insert_after a p l'
  end.
Fixpoint list_remove_after (prev : Z) (l : list Z) : Z * list Z :=
  match l with
  | [] => (0, [])
  | x :: l' =>
      if x =? prev then match l' with [] => (0, [x]) | y :: l'' => (y, x :: l'') end
      else (fst (list_remove_after prev l'), x :: snd (list_remove_after prev l'))
  end.

Definition list_exec (c : queue_call) (l : list Z) : Z * list Z :=
  match c with
  | PushHead p => (0, p :: l)
  | PushTail p => (0, l ++ [p])
  | PopHead => (default 0 (head l), tail l)
  | InsertAfter a p => (0, list_insert_after a p l)
  | RemoveAfter prev =>
      if prev =? 0 then (default 0 (head l), tail l) else list_remove_after prev l
  | Remove p => (Z.b2z (bool_decide (p ∈ l)), filter (λ x, x ≠ p) l)
  | IsEmpty => (Z.b2z (bool_decide (l = [])), l)
  | Head => (default 0 (head l), l)
  | Tail => (default 0 (last l), l)
  end.

(** A process is put into a queue only while it is in none, and a position
    named in a call is a position of the queue. *)
Definition call_ok (ps : gset Z) (c : queue_call) (l : list Z) : Prop :=
  match c with
  | PushHead p | PushTail p => p ∈ ps ∧ p ≠ 0 ∧ p ∉ l
  | InsertAfter a p => a ∈ l ∧ p ∈ ps ∧ p ≠ 0 ∧ p ∉ l
  | RemoveAfter prev => prev = 0 ∨ prev ∈ l
  | Remove p => p ≠ 0
  | PopHead | IsEmpty | Head | Tail => True
  end.

Fixpoint queue_run (q : Z) (cs : list queue_call) : prog kworld (list Z) :=
  match cs with
  | [] => mret []
  | c :: cs' => a ← queue_exec q c; l ← queue_run q cs'; mret (a :: l)
  end.
Fixpoint list_run (cs : list queue_call) (l : list Z) : list Z * list Z :=
  match cs with
  | [] => ([], l)
  | c :: cs' =>
      (fst (list_exec c l) :: fst (list_run cs' (snd (list_exec c l))),
       snd (list_run cs' (snd (list_exec c l))))
  end.
Fixpoint calls_ok (ps : gset Z) (cs : list queue_call) (l : list Z) : Prop :=
  match cs with
  | [] => True
  | c :: cs' => call_ok ps c l ∧ calls_ok ps cs' (snd (list_exec c l))
  end.

Lemma list_insert_after_middle a p l1 l2 :
  a ∉ l1 → list_insert_after a p (l1 ++ a :: l2) = l1 ++ a :: p :: l2.
Proof.
  induction l1 as [|x l1 IH]; intros Ha; simpl; [by rewrite Z.eqb_refl|].
  replace (x =? a) with false by (symmetry; apply Z.eqb_neq; set_solver).
  rewrite IH; [done|set_solver].
Qed.

Lemma list_remove_after_middle pv l1 l2 :
  pv ∉ l1 → list_remove_after pv (l1 ++ pv :: l2) = (default 0 (head l2), l1 ++ pv :: tail l2).
Proof.
  induction l1 as [|x l1 IH]; intros Ha; simpl; [rewrite Z.eqb_refl; by destruct l2|].
  replace (x =? pv) with false by (symmetry; apply Z.eqb_neq; set_solver).
  rewrite IH; [done|set_solver].
Qed.

Lemma filter_ne_middle (l1 l2 : list Z) p :
  p ∉ l1 → p ∉ l2 → filter (λ x, x ≠ p) (l1 ++ p :: l2) = l1 ++ l2.
Proof.
  intros H1 H2. rewrite filter_app, filter_cons_False by (intros H; by apply H).
  f_equal; apply filter_all; intros x Hx ->; done.
Qed.

(** The processes of the kernel, by address. *)
Definition proc_set (w : kworld) : gset Z := dom (procs w).

Lemma relinked_proc_set w w' ps qs : relinked w w' ps qs → proc_set w' = proc_set w.
Proof.
  intros [P F _ _]. apply set_eq. intros x. unfold proc_set. rewrite !elem_of_dom.
  destruct (F x) as [n ->]. by rewrite fmap_is_Some.
Qed.

Lemma wp_head q l w :
  qrep w q l → wp (proc_queue_head q) (λ r w', r = default 0 (head l) ∧ w' = w) w.
Proof.
  intros [Hq Hqu _ _]. unfold proc_queue_head. replace (q =? 0) with false by lia.
  apply wp_bind. eapply wp_load_queue; [exact Hqu|]. by apply wp_ret.
Qed.

Lemma wp_tail q l w :
  qrep w q l → wp (proc_queue_tail q) (λ r w', r = default 0 (last l) ∧ w' = w) w.
Proof.
  intros [Hq Hqu _ _]. unfold proc_queue_tail. replace (q =? 0) with false by lia.
  apply wp_bind. eapply wp_load_queue; [exact Hqu|]. by apply wp_ret.
Qed.

(** One call: the answer and the new list are the list's, and only this queue
    and links of its processes change. *)
Definition call_post w q c l (r : Z) w' : Prop :=
  r = fst (list_exec c l) ∧ qrep w' q (snd (list_exec c l)) ∧
  ∃ ps, relinked w w' ps [q].

Lemma call_post_ret w q c l :
  qrep w q l → list_exec c l = (fst (list_exec c l), l) →
  call_post w q c l (fst (list_exec c l)) w.
Proof.
  intros Hrep Heq. split; [done|]. split; [by rewrite Heq|].
  exists []. eapply relinked_mono; [apply relinked_refl|set_solver..].
Qed.

Lemma wp_remove_call q p l w :
  qrep w q l → p ≠ 0 → wp (queue_exec q (Remove p)) (call_post w q (Remove p) l) w.
Proof.
  intros Hrep Hp. cbn [queue_exec]. apply wp_bind.
  eapply wp_mono; [by apply wp_remove|]. cbv beta. intros b w'.
  destruct (decide (p ∈ l)) as [Hin|Hin].
  - intros (-> & (k1 & k2 & -> & Hr) & R & _). apply wp_ret.
    destruct (nodup_middle_inv _ _ _ (qr_nodup _ _ _ Hrep)) as (_ & H1 & H2).
    unfold call_post. cbn [list_exec fst snd].
    rewrite filter_ne_middle by done. rewrite bool_decide_eq_true_2 by done.
    split; [done|]. split; [done|]. by eexists.
  - intros [-> ->]. apply wp_ret.
    assert (list_exec (Remove p) l = (0, l)) as E.
    { cbn [list_exec]. rewrite bool_decide_eq_false_2 by done. f_equal.
      apply filter_all. intros x Hx ->. done. }
    pose proof (call_post_ret w q (Remove p) l Hrep) as Hc. rewrite E in Hc. by apply Hc.
Qed.

Lemma wp_remove_after_call q pv l w :
  qrep w q l → pv = 0 ∨ pv ∈ l →
  wp (queue_exec q (RemoveAfter pv)) (call_post w q (RemoveAfter pv) l) w.
Proof.
  intros Hrep Hpv. pose proof (qr_ptr _ _ _ Hrep) as Hq. cbn [queue_exec].
  destruct (Z.eqb_spec pv 0) as [->|Hne].
  - unfold proc_queue_remove_after. replace (q =? 0) with false by lia. cbn [Z.eqb].
    eapply wp_mono; [by apply wp_pop_head|]. intros r w' (-> & Hr & R & _).
    split; [done|]. split; [done|]. by eexists.
  - destruct Hpv as [|Hin]; [done|]. apply list_elem_of_split in Hin as (l1 & l2 & ->).
    destruct (nodup_middle_inv _ _ _ (qr_nodup _ _ _ Hrep)) as (_ & H1 & H2).
    unfold call_post. cbn [list_exec]. replace (pv =? 0) with false by lia.
    rewrite list_remove_after_middle by done. cbn [fst snd]. destruct l2 as [|x l2].
    + eapply wp_mono; [by eapply wp_remove_after_last|]. intros r w' [-> ->].
      split; [done|]. split; [done|]. exists [].
      eapply relinked_mono; [apply relinked_refl|set_solver..].
    + eapply wp_mono; [by apply wp_remove_after_middle|]. intros r w' (-> & Hr & R & _).
      split; [done|]. split; [done|]. by eexists.
Qed.

Lemma wp_queue_exec q c l w :
  qrep w q l → call_ok (proc_set w) c l → wp (queue_exec q c) (call_post w q c l) w.
Proof.
  intros Hrep Hok.
  destruct c as [p|p| |a p|pv|p| | |]; cbn [call_ok] in Hok; unfold proc_set in Hok;
    [| | | |by apply wp_remove_after_call|by apply wp_remove_call| | |]; cbn [queue_exec].
  - destruct Hok as (Hp%elem_of_dom & Hp0 & Hpl). apply wp_bind.
    eapply wp_mono; [by apply wp_push_head|]. intros _ w' [Hr R]. apply wp_ret.
    split; [done|]. split; [done|]. by eexists.
  - destruct Hok as (Hp%elem_of_dom & Hp0 & Hpl). apply wp_bind.
    eapply wp_mono; [by apply wp_push_tail|]. intros _ w' [Hr R]. apply wp_ret.
    split; [done|]. split; [done|]. by eexists.
  - eapply wp_mono; [by apply wp_pop_head|]. intros r w' (-> & Hr & R & _).
    split; [done|]. split; [done|]. by eexists.
  - destruct Hok as (Ha & Hp%elem_of_dom & Hp0 & Hpl).
    apply list_elem_of_split in Ha as (l1 & l2 & ->).
    destruct (nodup_middle_inv _ _ _ (qr_nodup _ _ _ Hrep)) as (_ & H1 & H2).
    apply wp_bind. eapply wp_mono; [by apply wp_insert_after|]. intros _ w' [Hr R].
    apply wp_ret. split; [done|]. cbn [list_exec snd]. rewrite list_insert_after_middle by done.
    split; [done|]. by eexists.
  - apply wp_bind. eapply wp_mono; [by apply wp_empty|]. intros b ? [-> ->]. apply wp_ret.
    by apply (call_post_ret w q IsEmpty).
  - eapply wp_mono; [by apply wp_head|]. intros r ? [-> ->]. by apply (call_post_ret w q Head).
  - eapply wp_mono; [by apply wp_tail|]. intros r ? [-> ->]. by apply (call_post_ret w q Tail).
Qed.

Lemma wp_queue_run q cs l w :
  qrep w q l → calls_ok (proc_set w) cs l →
  wp (queue_run q cs) (λ r w', r = fst (list_run cs l) ∧ qrep w' q (snd (list_run cs l)) ∧
                               ∃ ps qs, relinked w w' ps qs ∧ ∀ q', q' ∈ qs → q' = q) w.
Proof.
  revert l w. induction cs as [|c cs IH]; intros l w Hrep Hok; cbn [queue_run list_run calls_ok] in *.
  - apply wp_ret. split; [done|]. split; [done|]. exists [], [].
    split; [apply relinked_refl|set_solver].
  - destruct Hok as [Hc Hcs]. apply wp_bind. eapply wp_mono; [by apply wp_queue_exec|].
    intros a w1 (-> & Hr & ps & R). rewrite <- (relinked_proc_set _ _ _ _ R) in Hcs.
    apply wp_bind. eapply wp_mono; [by apply IH|].
    intros r w2 (-> & Hr2 & ps2 & qs2 & R2 & Hqs). apply wp_ret. cbn [fst snd].
    split; [done|]. split; [done|]. eexists _, _. split; [by eapply relinked_trans|].
    intros q' [->%list_elem_of_singleton|Hq']%elem_of_app; [done|by apply Hqs].
Qed.

(** ** Theorems *)

(** C16: every sequence of calls on a process queue returns and answers as the
    list of its processes does, the queue's head and tail pointers and the links
    represent the resulting list (so the tail pointer is right after removals at
    either end), and nothing but this queue and [next] fields changes. *)
Theorem proc_queue_refines_list q cs l w :
  qrep w q l → calls_ok (proc_set w) cs l →
  ∃ w', queue_run q cs w = Ret (fst (list_run cs l), w') ∧
        qrep w' q (snd (list_run cs l)) ∧
        ∃ ps qs, relinked w w' ps qs ∧ ∀ q', q' ∈ qs → q' = q.
Proof.
  intros Hrep Hok. pose proof (wp_queue_run q cs l w Hrep Hok) as Hwp.
  apply wp_inv in Hwp as (r & w' & Hr & -> & Hrep' & Hrel). by exists w'.
Qed.

End world.

(** Four processes and two queues; queue 100 holds 1 and 2, queue 200 holds 3. *)
Definition demo_proc (n su : Z) : proc :=
  MkProc PROC_STATUS_BLOCKED true n n 0 su 0 None 0 0.
Definition demo_sched : sched_state := MkSched 0 0 1000000 0 0 0 0 false.
Definition demo_kernel : kworld_of unit :=
  MkWorld {[ 1 := set_next (demo_proc 1 10) 2; 2 := set_next (demo_proc 2 20) 0;
             3 := set_next (demo_proc 3 30) 0; 4 := set_next (demo_proc 4 15) 0 ]}
    {[ 100 := MkQueue 1 2; 200 := MkQueue 3 3 ]} 4 demo_sched 5 true ∅ ∅ tt.

Lemma demo_queue : qrep demo_kernel 100 [1; 2].
Proof.
  split; [done|reflexivity| |apply (bool_decide_unpack _); vm_compute; exact I].
  simpl. split; [done|]. split; [done|]. exists 2. split; [reflexivity|].
  split; [done|]. split; [done|]. exists 0. by split.
Qed.

Lemma proc_queue_refines_list_witness :
  ∃ w', queue_run 100 [PushTail 4; Remove 2; PopHead; Tail; PopHead; IsEmpty] demo_kernel
        = Ret ([0; 1; 1; 4; 4; 1], w') ∧ qrep w' 100 [].
Proof.
  destruct (proc_queue_refines_list 100 [PushTail 4; Remove 2; PopHead; Tail; PopHead; IsEmpty]
              [1; 2] demo_kernel demo_queue) as (w' & Hr & Hrep & _).
  { simpl. split; [|done]. split; [|split; [done|set_solver]]. apply elem_of_dom. by eexists. }
  exists w'. split; [exact Hr|exact Hrep].
Defined.
