(* ===== verification/Sched.v ===== *)
(** * Sched: [kernel/mp/scheduler.c], [kernel/mp/mp_utils.c], [kernel/mp/sleep.c]

    The scheduler on one core: the ready, sleeping and ready-to-die queues, the
    nested interrupt and switch locks, the round-robin switch and the timer.

    A context switch suspends the calling code.  [away] stands for what the rest
    of the system does from the moment another process is switched to until the
    calling process runs again; the theorems hold for every [away], and say what
    the state is at the moment it starts. *)
From S2P Require Import Prelude ProcQueue.

Section world.
Context {X : Type}.
Abbreviation kworld := (kworld_of X).
Implicit Types (w : kworld).

(** ** Addresses *)

(** [&mt], and the three queues inside it. *)
Definition SCHED_BASE : Z := 4096.
Definition mp_ready_queue : Z := SCHED_BASE.
Definition mp_ready_to_die_queue : Z := SCHED_BASE + 16.
Definition mp_sleeping_queue : Z := SCHED_BASE + 32.
(** The wait queues inside a process. *)
Definition child_waiters (p : Z) : Z := p + 184.
Definition exit_waiters (p : Z) : Z := p + 200.

Definition QUANTUM_LENGTH : Z := 50000.

(** ** State updates *)

Definition upd_sched (f : sched_state → sched_state) : prog kworld unit :=
  modify (λ w, MkWorld (procs w) (queues w) (current w) (f (sched w)) (clock w)
                 (interrupts w) (semaphores w) (mutexes w) (ext w)).
Definition set_current (p : Z) : prog kworld unit :=
  modify (λ w, MkWorld (procs w) (queues w) p (sched w) (clock w)
                 (interrupts w) (semaphores w) (mutexes w) (ext w)).
Definition set_interrupts (b : bool) : prog kworld unit :=
  modify (λ w, MkWorld (procs w) (queues w) (current w) (sched w) (clock w)
                 b (semaphores w) (mutexes w) (ext w)).
Definition cli : prog kworld unit := set_interrupts false.
Definition sti : prog kworld unit := set_interrupts true.

Definition set_idle_ts (s : sched_state) (x : Z) : sched_state :=
  MkSched x (quantum_remaining s) (tick_interval_ns s) (time_elapsed s) (time_idle s)
    (irq_lock_count s) (switch_lock_count s) (switch_lock_flag s).
Definition set_quantum (s : sched_state) (x : Z) : sched_state :=
  MkSched (idle_switch_timestamp s) x (tick_interval_ns s) (time_elapsed s) (time_idle s)
    (irq_lock_count s) (switch_lock_count s) (switch_lock_flag s).
Definition set_time_elapsed (s : sched_state) (x : Z) : sched_state :=
  MkSched (idle_switch_timestamp s) (quantum_remaining s) (tick_interval_ns s) x (time_idle s)
    (irq_lock_count s) (switch_lock_count s) (switch_lock_flag s).
Definition set_time_idle (s : sched_state) (x : Z) : sched_state :=
  MkSched (idle_switch_timestamp s) (quantum_remaining s) (tick_interval_ns s) (time_elapsed s) x
    (irq_lock_count s) (switch_lock_count s) (switch_lock_flag s).
Definition set_irq_count (s : sched_state) (x : Z) : sched_state :=
  MkSched (idle_switch_timestamp s) (quantum_remaining s) (tick_interval_ns s) (time_elapsed s)
    (time_idle s) x (switch_lock_count s) (switch_lock_flag s).
Definition set_switch_count (s : sched_state) (x : Z) : sched_state :=
  MkSched (idle_switch_timestamp s) (quantum_remaining s) (tick_interval_ns s) (time_elapsed s)
    (time_idle s) (irq_lock_count s) x (switch_lock_flag s).
Definition set_switch_flag (s : sched_state) (x : bool) : sched_state :=
  MkSched (idle_switch_timestamp s) (quantum_remaining s) (tick_interval_ns s) (time_elapsed s)
    (time_idle s) (irq_lock_count s) (switch_lock_count s) x.

(** ** Interrupt lock *)

Definition sched_lock : prog kworld unit :=
  _ ← cli;
  upd_sched (λ s, set_irq_count s (u64 (irq_lock_count s + 1))).

Definition sched_unlock : prog kworld unit :=
  s ← gets sched;
  _ ← when (0 <? irq_lock_count s) (upd_sched (λ s, set_irq_count s (irq_lock_count s - 1)));
  s ← gets sched;
  when (irq_lock_count s =? 0) sti.

Definition sched_postpone : prog kworld unit :=
  _ ← cli;
  _ ← upd_sched (λ s, set_irq_count s (u64 (irq_lock_count s + 1)));
  upd_sched (λ s, set_switch_count s (u64 (switch_lock_count s + 1))).

(** ** Switching *)
Section switch.
Context (away : prog kworld unit).
(** [sti; hlt; cli]: the interrupts that arrive while the CPU is halted. *)
Context (halted : prog kworld unit) (idle_fuel : nat).

(** [switch_to.asm]: the new current process, marked running unless it has not
    started yet.  Switching to the running process returns at once. *)
Definition switch_to (p : Z) : prog kworld unit :=
  old ← gets current;
  _ ← set_current p;
  _ ← update_proc p (λ v, if status v =? PROC_STATUS_UNINITIALIZED then v
                          else set_status v PROC_STATUS_RUNNING);
  if p =? old then mret tt else away.

Definition multitask_switch (p : Z) : prog kworld unit :=
  _ ← cli;
  _ ← load_proc p;
  _ ← switch_to p;
  sti.

(** [do { sti; hlt; cli; } while (ready queue empty)]. *)
Fixpoint idle_loop (n : nat) : prog kworld unit :=
  match n with
  | O => diverge
  | S n' =>
      _ ← halted;
      e ← proc_queue_empty mp_ready_queue;
      if (e : bool) then idle_loop n' else mret tt
  end.

(** The elapsed time of the process that ran, or the idle time. *)
Definition account : prog kworld unit :=
  now ← gets clock;
  _ ← upd_sched (λ s, set_time_elapsed s now);
  cur ← gets current;
  if negb (cur =? 0)
  then update_proc cur (λ p, set_elapsed p (u64 (elapsed p + (now - switch_timestamp p))))
  else upd_sched (λ s, set_time_idle s (u64 (time_idle s + (now - idle_switch_timestamp s)))).

(** A pre-empted process goes to the end of the ready queue; one that sleeps or
    waits is in another queue already. *)
Definition requeue_current (cur : Z) : prog kworld unit :=
  if negb (cur =? 0) then
    c ← load_proc cur;
    when (status c =? PROC_STATUS_RUNNING)
      (_ ← update_proc cur (λ p, set_status p PROC_STATUS_READY_TO_RUN);
       proc_queue_push_tail mp_ready_queue cur)
  else mret tt.

(** [next->switch_timestamp = time_elapsed; multitask_switch(next)] for the head
    of the ready queue. *)
Definition switch_to_head : prog kworld unit :=
  next ← proc_queue_pop_head mp_ready_queue;
  s ← gets sched;
  _ ← update_proc next (λ p, set_switch_timestamp p (time_elapsed s));
  multitask_switch next.

Definition schedule_advance : prog kworld unit :=
  s ← gets sched;
  if 0 <? switch_lock_count s then upd_sched (λ s, set_switch_flag s true)
  else
    _ ← account;
    cur ← gets current;
    e ← proc_queue_empty mp_ready_queue;
    if negb e then
      _ ← requeue_current cur;
      _ ← upd_sched (λ s, set_quantum s QUANTUM_LENGTH);
      switch_to_head
    else
      c ← load_proc cur;
      if negb (status c =? PROC_STATUS_RUNNING) then
        _ ← set_current 0;
        _ ← upd_sched (λ s, set_idle_ts s (time_elapsed s));
        _ ← idle_loop idle_fuel;
        _ ← upd_sched (λ s, set_quantum s 0);
        _ ← set_current cur;
        s ← gets sched;
        _ ← update_proc cur (λ p, set_switch_timestamp p (time_elapsed s));
        next ← proc_queue_pop_head mp_ready_queue;
        multitask_switch next
      else mret tt.

Definition sched_yield : prog kworld unit :=
  _ ← sched_lock; _ ← schedule_advance; sched_unlock.

Definition sched_resume : prog kworld unit :=
  s ← gets sched;
  _ ← when (0 <? switch_lock_count s)
        (upd_sched (λ s, set_switch_count s (switch_lock_count s - 1)));
  s ← gets sched;
  _ ← when ((switch_lock_count s =? 0) && switch_lock_flag s)
        (_ ← upd_sched (λ s, set_switch_flag s false); schedule_advance);
  sched_unlock.

Definition sched_add_proc (p : Z) : prog kworld unit :=
  _ ← sched_postpone;
  _ ← proc_queue_push_tail mp_ready_queue p;
  sched_resume.

(** ** [mp_utils.c] *)

Definition mp_block_proc (p reason : Z) : prog kworld unit :=
  _ ← sched_lock;
  _ ← update_proc p (λ v, set_status v reason);
  _ ← schedule_advance;
  sched_unlock.

Definition mp_enqueue_ready (p : Z) : prog kworld unit :=
  proc_queue_push_tail mp_ready_queue p.

Definition mp_ready_to_die_remove (p : Z) : prog kworld unit :=
  _ ← proc_queue_remove mp_ready_to_die_queue p; mret tt.

Definition mp_remove_proc (p : Z) : prog kworld unit :=
  v ← load_proc p;
  if (status v =? PROC_STATUS_READY_TO_RUN) || (status v =? PROC_STATUS_UNINITIALIZED)
  then _ ← proc_queue_remove mp_ready_queue p; mret tt
  else if status v =? PROC_STATUS_SLEEPING_TIMER
  then _ ← proc_queue_remove mp_sleeping_queue p; mret tt
  else mret tt.

(** ** [sleep.c] *)

Definition block_current_proc (reason : Z) : prog kworld unit :=
  cur ← gets current; mp_block_proc cur reason.

Definition wake_proc (p : Z) : prog kworld unit :=
  if p =? 0 then mret tt
  else
    _ ← sched_lock;
    _ ← update_proc p (λ v, set_status v PROC_STATUS_READY_TO_RUN);
    _ ← proc_queue_push_tail mp_ready_queue p;
    sched_unlock.

Definition proc_sleep_until_less_than_equal (timestamp : Z) (p : proc) : bool :=
  sleep_until p <=? timestamp.

(** Up to the insertion into the sorted queue; the two branches end alike. *)
Definition enqueue_sleeper (p timestamp : Z) : prog kworld unit :=
  _ ← update_proc p (λ v, set_sleep_until v timestamp);
  _ ← update_proc p (λ v, set_status v PROC_STATUS_SLEEPING_TIMER);
  e ← proc_queue_empty mp_sleeping_queue;
  if (e : bool) then proc_queue_push_head mp_sleeping_queue p
  else
    last ← proc_queue_find_last_prefix mp_sleeping_queue
             (Some (proc_sleep_until_less_than_equal timestamp));
    if last =? 0 then proc_queue_push_head mp_sleeping_queue p
    else proc_queue_insert_after mp_sleeping_queue last p.

Definition sleep_proc_until (p timestamp : Z) : prog kworld unit :=
  _ ← sched_postpone;
  _ ← enqueue_sleeper p timestamp;
  _ ← sched_lock;
  _ ← schedule_advance;
  _ ← sched_unlock;
  sched_resume.

Definition sleep_current_ns (ns : Z) : prog kworld unit :=
  cur ← gets current;
  now ← gets clock;
  sleep_proc_until cur (u64 (now + ns)).

Definition sleep_current (s : Z) : prog kworld unit := sleep_current_ns (u64 (s * 1000000000)).

(** The status loop runs up to [last_to_wake]. *)
Fixpoint mark_ready_loop (n : nat) (last curr : Z) : prog kworld unit :=
  match n with
  | O => diverge
  | S n' =>
      if curr =? 0 then mret tt
      else
        _ ← update_proc curr (λ v, set_status v PROC_STATUS_READY_TO_RUN);
        if curr =? last then mret tt
        else x ← proc_get_next curr; mark_ready_loop n' last x
  end.

Definition wake_procs_before_timestamp (timestamp : Z) : prog kworld unit :=
  last ← proc_queue_find_last_prefix mp_sleeping_queue
           (Some (proc_sleep_until_less_than_equal timestamp));
  if last =? 0 then mret tt
  else
    h ← proc_queue_head mp_sleeping_queue;
    n ← walk_fuel;
    _ ← mark_ready_loop n last h;
    proc_queue_splice_prefix_tail mp_ready_queue mp_sleeping_queue last.

(** ** The timer *)

Definition handle_timer (timestamp : Z) : prog kworld unit :=
  _ ← sched_postpone;
  _ ← wake_procs_before_timestamp timestamp;
  s ← gets sched;
  _ ← (if negb (quantum_remaining s =? 0) then
         if quantum_remaining s <=? tick_interval_ns s then
           _ ← sched_lock; _ ← schedule_advance; sched_unlock
         else upd_sched (λ s, set_quantum s (quantum_remaining s - tick_interval_ns s))
       else mret tt);
  sched_resume.
End switch.

(** ** What the scheduler's queues hold *)

(** A field of the process at an address. *)
Definition field {A} (w : kworld) (f : proc → A) (d : A) (x : Z) : A :=
  match procs w !! x with Some v => f v | None => d end.
Definition status_of (w : kworld) : Z → Z := field w status 0.
Definition wake_time (w : kworld) : Z → Z := field w sleep_until 0.

(** The fields that say who a process is and whom it belongs to; what no
    operation of the scheduler changes. *)
Definition family (v : proc) : bool * Z * option (list Z) * Z * Z :=
  (is_kernel_proc v, pid v, children v, parent v, exit_code v).
Definition kin (w : kworld) : X * gmap Z (bool * Z * option (list Z) * Z * Z) := (ext w, family <$> procs w).

Lemma kin_update w p f v :
  procs w !! p = Some v → family (f v) = family v → kin (set_procs w (<[p := f v]> (procs w))) = kin w.
Proof.
  intros Hv Hf. unfold kin. cbn [set_procs procs ext]. f_equal. rewrite fmap_insert, Hf. apply insert_id.
  by rewrite lookup_fmap, Hv.
Qed.
Lemma kin_relinked w w' ps qs : relinked w w' ps qs → kin w' = kin w.
Proof.
  intros [_ F _ (_ & _ & _ & _ & _ & _ & E)]. unfold kin. f_equal; [done|]. apply map_eq. intros x.
  rewrite !lookup_fmap. destruct (F x) as [n ->]. by destruct (procs w !! x).
Qed.

Record sched_rep (w : kworld) (R S D : list Z) : Prop := {
  sr_ready : qrep w mp_ready_queue R;
  sr_sleep : qrep w mp_sleeping_queue S;
  sr_die : qrep w mp_ready_to_die_queue D;
  sr_disjoint : NoDup (R ++ S ++ D);
  sr_sorted : StronglySorted (λ x y, wake_time w x ≤ wake_time w y) S;
}.

(** *** Updates that leave the queues alone *)

Lemma qrep_same w w' q l :
  links w' = links w → queues w' = queues w → qrep w q l → qrep w' q l.
Proof. intros Hl Hq [H1 H2 H3 H4]. split; rewrite ?Hl, ?Hq; done. Qed.

Lemma links_update w p f v :
  procs w !! p = Some v → next (f v) = next v →
  links (set_procs w (<[p := f v]> (procs w))) = links w.
Proof.
  intros Hv Hf. unfold links. cbn [set_procs procs]. rewrite fmap_insert, Hf.
  apply insert_id. by rewrite lookup_fmap, Hv.
Qed.

(** The fields other than [next] of a process do not depend on the links. *)
Lemma relinked_field {A} (f : proc → A) d w w' ps qs x :
  (∀ v n, f (set_next v n) = f v) → relinked w w' ps qs → field w' f d x = field w f d x.
Proof.
  intros Hf [_ F _ _]. unfold field. destruct (F x) as [n ->].
  by destruct (procs w !! x) as [v|]; simpl.
Qed.

Lemma sorted_ext (f g : Z → Z) l :
  (∀ x, x ∈ l → f x = g x) → StronglySorted (λ x y, f x ≤ f y) l →
  StronglySorted (λ x y, g x ≤ g y) l.
Proof.
  intros Hfg Hs. induction Hs as [|x l Hs IH Hall]; constructor.
  - apply IH. intros y Hy. apply Hfg. set_solver.
  - apply Forall_forall. intros y Hy. rewrite <- !Hfg by set_solver.
    by apply (proj1 (Forall_forall _ _) Hall).
Qed.

(** In a list sorted by [f] the prefix below a bound is all that is below it. *)
Lemma prefix_while_split f l : ∃ l2, l = prefix_while f l ++ l2.
Proof.
  induction l as [|x l [l2 IH]]; simpl; [by exists []|].
  destruct (f x); [|by exists (x :: l)]. exists l2. simpl. by rewrite <- IH.
Qed.

Lemma prefix_while_sorted (f : Z → Z) t l :
  StronglySorted (λ x y, f x ≤ f y) l →
  l = prefix_while (λ x, f x <=? t) l ++ filter (λ x, t < f x) l ∧
  prefix_while (λ x, f x <=? t) l = filter (λ x, f x ≤ t) l.
Proof.
  induction 1 as [|x l Hs [IH1 IH2] Hall]; [done|]. cbn [prefix_while].
  destruct (Z.leb_spec (f x) t).
  - rewrite filter_cons_False by lia. rewrite filter_cons_True by done.
    split; [by rewrite <- app_comm_cons, <- IH1|by rewrite IH2].
  - assert (∀ y, y ∈ l → t < f y) as Hgt.
    { intros y Hy. rewrite Forall_forall in Hall. specialize (Hall y Hy). simpl in Hall. lia. }
    rewrite filter_cons_True by done. rewrite filter_cons_False by lia.
    rewrite (filter_all (λ y, t < f y)) by done. split; [done|]. symmetry.
    clear -Hgt. induction l as [|y l IHl]; [done|].
    rewrite filter_cons_False by (specialize (Hgt y ltac:(set_solver)); lia).
    apply IHl. intros z Hz. apply Hgt. set_solver.
Qed.

(** *** Waking sleepers *)

(** The processes of [ps] have status [st]; nothing else differs. *)
Record retagged (w w' : kworld) (ps : list Z) (st : Z) : Prop := {
  rt_procs : ∀ x, procs w' !! x =
    if decide (x ∈ ps) then (λ v, set_status v st) <$> procs w !! x else procs w !! x;
  rt_queues : queues w' = queues w;
  rt_rest : current w' = current w ∧ sched w' = sched w ∧ clock w' = clock w ∧
            interrupts w' = interrupts w ∧ semaphores w' = semaphores w ∧ mutexes w' = mutexes w;
}.

Lemma retagged_links w w' ps st : retagged w w' ps st → links w' = links w.
Proof.
  intros [P _ _]. apply map_eq. intros x. rewrite !links_lookup, P.
  destruct (decide (x ∈ ps)); [|done]. by destruct (procs w !! x).
Qed.

Lemma retagged_field {A} (f : proc → A) d w w' ps st x :
  (∀ v s, f (set_status v s) = f v) → retagged w w' ps st → field w' f d x = field w f d x.
Proof.
  intros Hf [P _ _]. unfold field. rewrite P. destruct (decide (x ∈ ps)); [|done].
  by destruct (procs w !! x); simpl.
Qed.

Lemma retagged_nil w st : retagged w w [] st.
Proof. by split. Qed.

Lemma retagged_one w p v st :
  procs w !! p = Some v →
  retagged w (set_procs w (<[p := set_status v st]> (procs w))) [p] st.
Proof.
  intros Hv. split; [|done|done]. intros x. simpl. destruct (decide (x ∈ [p])) as [Hx|Hx].
  - apply list_elem_of_singleton in Hx as ->. by rewrite lookup_insert_eq, Hv.
  - apply lookup_insert_ne. set_solver.
Qed.

Lemma retagged_trans w1 w2 w3 ps qs st :
  retagged w1 w2 ps st → retagged w2 w3 qs st → retagged w1 w3 (ps ++ qs) st.
Proof.
  intros [P1 Q1 (R1 & R2 & R3 & R4 & R5 & R6)] [P2 Q2 (S1 & S2 & S3 & S4 & S5 & S6)].
  split; [|congruence|by rewrite S1, S2, S3, S4, S5, S6].
  intros x. rewrite P2, P1.
  destruct (decide (x ∈ ps)), (decide (x ∈ qs)), (decide (x ∈ ps ++ qs)); try set_solver.
  by destruct (procs w1 !! x).
Qed.

Lemma wp_mark_ready n h l1 t l2 w :
  lseg (links w) h (l1 ++ t :: l2) 0 → t ∉ l1 → (length (l1 ++ t :: l2) < n)%nat →
  wp (mark_ready_loop n t h) (λ _ w', retagged w w' (l1 ++ [t]) PROC_STATUS_READY_TO_RUN) w.
Proof.
  revert n h w. induction l1 as [|x l1 IH]; intros [|n] h w Hs Ht Hn; simpl in Hn; try lia;
    cbn [mark_ready_loop app] in *; destruct Hs as (-> & Hx & k & Hk & Hs);
    rewrite (proj2 (Z.eqb_neq _ 0) Hx); destruct (links_Some _ _ _ Hk) as (v & Hv & <-);
    apply wp_bind; (eapply wp_update_proc; [exact Hv|]);
    pose proof (retagged_one w _ v PROC_STATUS_READY_TO_RUN Hv) as Hone.
  - rewrite Z.eqb_refl. by apply wp_ret.
  - rewrite (proj2 (Z.eqb_neq x t)) by set_solver. apply wp_bind.
    eapply wp_get_next; [simpl; by rewrite lookup_insert_eq|]. cbn [next set_status].
    eapply wp_mono; [apply IH; [by rewrite (retagged_links _ _ _ _ Hone)|set_solver|lia]|].
    intros [] w' Hr. exact (retagged_trans _ _ _ _ _ _ Hone Hr).
Qed.

(** The predicate of the searches, on addresses. *)
Lemma holds_wake w t x :
  is_Some (procs w !! x) →
  holds w (proc_sleep_until_less_than_equal t) x = (wake_time w x <=? t).
Proof. intros [v Hv]. unfold holds, wake_time, field. by rewrite Hv. Qed.

Lemma prefix_while_ext (f g : Z → bool) l :
  (∀ x, x ∈ l → f x = g x) → prefix_while f l = prefix_while g l.
Proof.
  induction l as [|x l IH]; intros Hfg; simpl; [done|].
  rewrite (Hfg x) by set_solver. destruct (g x); [|done]. f_equal. apply IH.
  intros y Hy. apply Hfg. set_solver.
Qed.

Lemma qrep_procs w q l x : qrep w q l → x ∈ l → is_Some (procs w !! x) ∧ x ≠ 0.
Proof.
  intros [_ _ Hl _] Hx. destruct (lseg_lookup _ _ _ _ _ Hl Hx) as [H ?].
  rewrite links_lookup, fmap_is_Some in H. done.
Qed.

Lemma prefix_due w S t :
  qrep w mp_sleeping_queue S → StronglySorted (λ x y, wake_time w x ≤ wake_time w y) S →
  prefix_while (holds w (proc_sleep_until_less_than_equal t)) S = filter (λ x, wake_time w x ≤ t) S ∧
  S = filter (λ x, wake_time w x ≤ t) S ++ filter (λ x, t < wake_time w x) S.
Proof.
  intros Hq Hs. destruct (prefix_while_sorted (wake_time w) t S Hs) as [H1 H2].
  rewrite (prefix_while_ext _ (λ x, wake_time w x <=? t)).
  - by rewrite <- H2.
  - intros x Hx. apply holds_wake. by eapply qrep_procs.
Qed.

(** The queues after the due sleepers have moved. *)
Lemma sched_rep_moved w w1 w' R S1 S2 D t :
  sched_rep w R (S1 ++ S2) D → retagged w w1 S1 PROC_STATUS_READY_TO_RUN →
  qrep w' mp_sleeping_queue S2 → qrep w' mp_ready_queue (R ++ S1) →
  relinked w1 w' (t :: R) [mp_sleeping_queue; mp_ready_queue] → t ∈ S1 →
  sched_rep w' (R ++ S1) S2 D.
Proof.
  intros [Hr Hs Hd Hdis Hso] Ht Hs' Hr' Hrel HtS. split; [done|done| | |].
  - eapply qrep_relinked; [exact Hrel| |unfold mp_ready_to_die_queue, mp_sleeping_queue,
      mp_ready_queue; set_solver by lia|].
    + eapply qrep_same; [by eapply retagged_links|apply Ht|exact Hd].
    + intros x Hx. rewrite !NoDup_app in Hdis. set_solver.
  - by rewrite <- (assoc app) in Hdis |- *.
  - apply StronglySorted_app in Hso as (_ & _ & Hso).
    eapply (sorted_ext (wake_time w)); [|exact Hso]. intros x _. unfold wake_time.
    rewrite (relinked_field sleep_until 0 w1 w' _ _ x (λ _ _, eq_refl) Hrel).
    by rewrite (retagged_field sleep_until 0 w w1 _ _ x (λ _ _, eq_refl) Ht).
Qed.

(** What waking changes: statuses of the woken, links and the two queues. *)
Definition woken (w w' : kworld) (ws : list Z) : Prop :=
  (∀ x, status_of w' x = if decide (x ∈ ws) then PROC_STATUS_READY_TO_RUN else status_of w x) ∧
  (∀ x, wake_time w' x = wake_time w x) ∧ proc_set w' = proc_set w ∧
  current w' = current w ∧ sched w' = sched w ∧ clock w' = clock w ∧ interrupts w' = interrupts w.

Lemma woken_refl w : woken w w [].
Proof. split; [|done]. intros x. by rewrite decide_False by set_solver. Qed.

Lemma woken_of w w1 w' ws ps qs :
  retagged w w1 ws PROC_STATUS_READY_TO_RUN → relinked w1 w' ps qs →
  (∀ x, x ∈ ws → is_Some (procs w !! x)) → woken w w' ws.
Proof.
  intros Ht Hrel Hws.
  pose proof (relinked_proc_set _ _ _ _ Hrel) as Hset.
  split; [|split; [|split]].
  - intros x. unfold status_of. rewrite (relinked_field status 0 w1 w' _ _ x (λ _ _, eq_refl) Hrel).
    unfold field. rewrite (rt_procs _ _ _ _ Ht x).
    destruct (decide (x ∈ ws)) as [Hx|]; [|done]. by destruct (Hws x Hx) as [v ->].
  - intros x. unfold wake_time.
    rewrite (relinked_field sleep_until 0 w1 w' _ _ x (λ _ _, eq_refl) Hrel).
    by rewrite (retagged_field sleep_until 0 w w1 _ _ x (λ _ _, eq_refl) Ht).
  - rewrite Hset. apply set_eq. intros x. unfold proc_set. rewrite !elem_of_dom.
    rewrite (rt_procs _ _ _ _ Ht x). destruct (decide (x ∈ ws)); [|done]. apply fmap_is_Some.
  - destruct Hrel as [_ _ _ (E1 & E2 & E3 & E4 & _)]. destruct Ht as [_ _ (F1 & F2 & F3 & F4 & _)].
    split_and!; congruence.
Qed.

Lemma wp_wake_procs w R S D t :
  sched_rep w R S D →
  wp (wake_procs_before_timestamp t) (λ _ w',
    sched_rep w' (R ++ filter (λ x, wake_time w x ≤ t) S) (filter (λ x, t < wake_time w x) S) D ∧
    woken w w' (filter (λ x, wake_time w x ≤ t) S)) w.
Proof.
  intros Hrep. destruct (Hrep) as [Hr Hs Hd Hdis Hso]. unfold wake_procs_before_timestamp.
  destruct (prefix_due w S t Hs Hso) as [Hpre Hsplit].
  apply wp_bind. eapply wp_mono; [by apply wp_find_last_prefix|]. intros last ? [-> ->].
  rewrite Hpre. set (due := filter (λ x, wake_time w x ≤ t) S) in *.
  set (rest := filter (λ x, t < wake_time w x) S) in *.
  destruct (list_end due) as [E|(l1 & y & E)].
  - rewrite E in Hsplit |- *. simpl. apply wp_ret. rewrite app_nil_r. cbn [app] in Hsplit.
    rewrite <- Hsplit. split; [done|apply woken_refl].
  - assert (y ∈ S) as HyS by (rewrite Hsplit, E; set_solver).
    destruct (qrep_procs _ _ _ y Hs HyS) as [_ Hy0].
    rewrite E, last_snoc. cbn [default from_option id]. replace (y =? 0) with false by lia.
    rewrite E, <- (assoc app) in Hsplit. cbn [app] in Hsplit.
    apply wp_bind. eapply wp_mono; [by apply wp_head|]. intros h ? [-> ->].
    apply wp_bind, wp_gets, wp_bind.
    pose proof (qrep_fuel _ _ _ Hs) as Hfuel. pose proof (qr_links _ _ _ Hs) as Hl.
    pose proof (qr_nodup _ _ _ Hs) as Hnd. rewrite Hsplit in Hfuel, Hl, Hnd.
    destruct (nodup_middle_inv _ _ _ Hnd) as (_ & Hy1 & _).
    eapply wp_mono; [rewrite Hsplit; eapply wp_mark_ready; [exact Hl|done|exact Hfuel]|].
    intros [] w1 Ht. pose proof (retagged_links _ _ _ _ Ht) as Hl1.
    rewrite Hsplit in Hs.
    eapply wp_mono; [eapply (wp_splice _ _ l1 y rest R)|].
    + eapply qrep_same; [exact Hl1|apply Ht|exact Hs].
    + eapply qrep_same; [exact Hl1|apply Ht|exact Hr].
    + unfold mp_ready_queue, mp_sleeping_queue. lia.
    + intros x Hx. rewrite Hsplit, NoDup_app in Hdis. set_solver.
    + intros [] w' (Hs' & Hr' & Hrel). split.
      * eapply sched_rep_moved; [|exact Ht|exact Hs'|exact Hr'|exact Hrel|set_solver].
        rewrite <- (assoc app). cbn [app]. by rewrite <- Hsplit.
      * eapply woken_of; [exact Ht|exact Hrel|]. intros x Hx.
        eapply (qrep_procs w mp_sleeping_queue _ x Hs). set_solver.
Qed.

(** *** Going to sleep *)

(** Process [p] sleeps until [t]; the rest is as before. *)
Definition put_to_sleep (w w' : kworld) (p t : Z) : Prop :=
  (∀ x, status_of w' x = if decide (x = p) then PROC_STATUS_SLEEPING_TIMER else status_of w x) ∧
  (∀ x, wake_time w' x = if decide (x = p) then t else wake_time w x) ∧
  proc_set w' = proc_set w ∧
  current w' = current w ∧ sched w' = sched w ∧ clock w' = clock w ∧ interrupts w' = interrupts w.

(** The world between the two stores and the insertion. *)
Definition tagged_sleeper (w : kworld) (p t : Z) (v : proc) : kworld :=
  set_procs w (<[p := set_status (set_sleep_until v t) PROC_STATUS_SLEEPING_TIMER]> (procs w)).

Lemma tagged_sleeper_links w p t v :
  procs w !! p = Some v → links (tagged_sleeper w p t v) = links w.
Proof.
  intros Hv. unfold links, tagged_sleeper. cbn [set_procs procs]. rewrite fmap_insert.
  apply insert_id. rewrite lookup_fmap, Hv. done.
Qed.

Lemma tagged_sleeper_put w w' p t v ps qs :
  procs w !! p = Some v → relinked (tagged_sleeper w p t v) w' ps qs → put_to_sleep w w' p t.
Proof.
  intros Hv Hrel. pose proof (relinked_proc_set _ _ _ _ Hrel) as Hset.
  assert (∀ {A} (f : proc → A) d x, (∀ v n, f (set_next v n) = f v) →
    field w' f d x = if decide (x = p) then f (set_status (set_sleep_until v t) PROC_STATUS_SLEEPING_TIMER)
                     else field w f d x) as Hfield.
  { intros A f d x Hf. rewrite (relinked_field f d _ w' _ _ x Hf Hrel).
    unfold field, tagged_sleeper. cbn [set_procs procs].
    destruct (decide (x = p)) as [->|]; [by rewrite lookup_insert_eq|by rewrite lookup_insert_ne]. }
  split; [|split; [|split]].
  - intros x. unfold status_of. by rewrite Hfield.
  - intros x. unfold wake_time. by rewrite Hfield.
  - rewrite Hset. unfold proc_set, tagged_sleeper. cbn [set_procs procs].
    rewrite dom_insert_L. apply subseteq_union_1_L. apply singleton_subseteq_l.
    apply elem_of_dom. by rewrite Hv.
  - destruct Hrel as [_ _ _ (E1 & E2 & E3 & E4 & _)]. done.
Qed.

(** A list sorted by wake time stays sorted with [p] after all that wake no
    later. *)
Lemma sleepers_sorted (f g : Z → Z) S1 S2 p t :
  StronglySorted (λ x y, f x ≤ f y) (S1 ++ S2) → p ∉ S1 ++ S2 →
  (∀ x, x ∈ S1 → f x ≤ t) → (∀ x, x ∈ S2 → t < f x) →
  (∀ x, g x = if decide (x = p) then t else f x) →
  StronglySorted (λ x y, g x ≤ g y) (S1 ++ p :: S2).
Proof.
  intros Hs Hp H1 H2 Hg. apply StronglySorted_app in Hs as (H12 & Hs1 & Hs2).
  assert (∀ x, x ≠ p → f x = g x) as Hfg by (intros x Hx; by rewrite Hg, decide_False).
  assert (g p = t) as Hgp by (by rewrite Hg, decide_True).
  assert (∀ x, x ∈ S1 ++ S2 → x ≠ p) as Hne by (by intros x Hx ->).
  apply StronglySorted_app. split; [|split].
  - intros x y Hx [->|Hy]%elem_of_cons.
    + rewrite Hgp, <- Hfg by (apply Hne; set_solver). by apply H1.
    + rewrite <- !Hfg by (apply Hne; set_solver). by apply H12.
  - eapply sorted_ext; [|exact Hs1]. intros x Hx. apply Hfg, Hne. set_solver.
  - apply StronglySorted_cons. split.
    + apply Forall_forall. intros y Hy. rewrite Hgp, <- Hfg by (apply Hne; set_solver).
      specialize (H2 y Hy). lia.
    + eapply sorted_ext; [|exact Hs2]. intros x Hx. apply Hfg, Hne. set_solver.
Qed.

Lemma sched_rep_slept w w' p t v R S1 S2 D ps :
  sched_rep w R (S1 ++ S2) D → procs w !! p = Some v → p ∉ R ++ (S1 ++ S2) ++ D →
  (∀ x, x ∈ S1 → wake_time w x ≤ t) → (∀ x, x ∈ S2 → t < wake_time w x) →
  relinked (tagged_sleeper w p t v) w' ps [mp_sleeping_queue] →
  (∀ x, x ∈ ps → x = p ∨ x ∈ S1 ++ S2) →
  qrep w' mp_sleeping_queue (S1 ++ p :: S2) → sched_rep w' R (S1 ++ p :: S2) D.
Proof.
  intros [Hr Hs Hd Hdis Hso] Hv Hp H1 H2 Hrel Hps Hq.
  pose proof (tagged_sleeper_links w p t v Hv) as Hl.
  assert (∀ q l, qrep w q l → q ≠ mp_sleeping_queue → (∀ x, x ∈ l → x ∉ ps) → qrep w' q l) as Hother.
  { intros q l Hql Hne Hl'. eapply qrep_relinked; [exact Hrel| |set_solver|done].
    eapply qrep_same; [exact Hl|done|exact Hql]. }
  split; [| |apply Hother; [done|unfold mp_ready_to_die_queue, mp_sleeping_queue; lia|]| |].
  - apply Hother; [done|unfold mp_ready_queue, mp_sleeping_queue; lia|].
    intros x Hx Hxp. apply Hps in Hxp. rewrite NoDup_app in Hdis. set_solver.
  - done.
  - intros x Hx Hxp. apply Hps in Hxp. rewrite !NoDup_app in Hdis. set_solver.
  - rewrite !NoDup_app in Hdis |- *. rewrite !NoDup_cons. set_solver.
  - destruct (tagged_sleeper_put w w' p t v _ _ Hv Hrel) as (_ & Hw & _).
    eapply sleepers_sorted; [exact Hso|set_solver|done|done|exact Hw].
Qed.

Lemma wp_enqueue_sleeper w R S D p t :
  sched_rep w R S D → is_Some (procs w !! p) → p ≠ 0 → p ∉ R ++ S ++ D →
  wp (enqueue_sleeper p t) (λ _ w',
    sched_rep w' R (filter (λ x, wake_time w x ≤ t) S ++ p :: filter (λ x, t < wake_time w x) S) D ∧
    put_to_sleep w w' p t) w.
Proof.
  intros Hrep [v Hv] Hp0 Hp. destruct (Hrep) as [Hr Hs Hd Hdis Hso].
  unfold enqueue_sleeper. apply wp_bind. eapply wp_update_proc; [exact Hv|].
  apply wp_bind. eapply wp_update_proc; [simpl; by rewrite lookup_insert_eq|].
  cbn [set_procs procs]. rewrite insert_insert_eq.
  match goal with |- wp _ _ ?x => change x with (tagged_sleeper w p t v) end.
  set (w1 := tagged_sleeper w p t v).
  assert (qrep w1 mp_sleeping_queue S) as Hs1
    by (eapply qrep_same; [by apply tagged_sleeper_links|done|done]).
  assert (is_Some (procs w1 !! p)) as Hp1 by (simpl; rewrite lookup_insert_eq; by eexists).
  assert (∀ x, x ∈ S → wake_time w1 x = wake_time w x) as Hwt.
  { intros x Hx. unfold wake_time, field, w1, tagged_sleeper. cbn [set_procs procs].
    by rewrite lookup_insert_ne by set_solver. }
  set (S1 := filter (λ x, wake_time w x ≤ t) S). set (S2 := filter (λ x, t < wake_time w x) S).
  destruct (prefix_due w S t Hs Hso) as [Hpre Hsplit]. fold S1 S2 in Hpre, Hsplit.
  assert (prefix_while (holds w1 (proc_sleep_until_less_than_equal t)) S = S1) as Hpre1.
  { rewrite <- Hpre. apply prefix_while_ext. intros x Hx. unfold holds, w1, tagged_sleeper.
    cbn [set_procs procs]. by rewrite lookup_insert_ne by set_solver. }
  assert (∀ w' ps, relinked w1 w' ps [mp_sleeping_queue] → (∀ x, x ∈ ps → x = p ∨ x ∈ S1 ++ S2) →
    qrep w' mp_sleeping_queue (S1 ++ p :: S2) →
    sched_rep w' R (S1 ++ p :: S2) D ∧ put_to_sleep w w' p t) as Hdone.
  { intros w' ps Hrel Hps Hq. split; [|by eapply tagged_sleeper_put].
    rewrite Hsplit in Hrep, Hp. eapply sched_rep_slept; try done.
    - intros x Hx%list_elem_of_filter. tauto.
    - intros x Hx%list_elem_of_filter. tauto. }
  assert (S1 = [] → wp (proc_queue_push_head mp_sleeping_queue p)
    (λ _ w', sched_rep w' R (S1 ++ p :: S2) D ∧ put_to_sleep w w' p t) w1) as Hfront.
  { intros E. eapply wp_mono; [apply wp_push_head; [exact Hs1|done|done|set_solver]|].
    intros [] w' [Hq Hrel]. eapply Hdone; [exact Hrel|set_solver|].
    rewrite E in Hsplit |- *. cbn [app] in *. by rewrite <- Hsplit. }
  apply wp_bind. eapply wp_mono; [by apply wp_empty|]. intros e ? [-> ->].
  destruct (bool_decide_reflect (S = [])) as [E|E].
  { apply Hfront. unfold S1. by rewrite E. }
  apply wp_bind. eapply wp_mono; [by apply wp_find_last_prefix|]. intros last ? [-> ->].
  rewrite Hpre1. destruct (list_end S1) as [E1|(l & y & E1)].
  - rewrite E1 at 1. by apply Hfront.
  - assert (y ∈ S) as HyS by (rewrite Hsplit, E1; set_solver).
    destruct (qrep_procs _ _ _ y Hs HyS) as [_ Hy0].
    rewrite E1, last_snoc. cbn [default from_option id]. replace (y =? 0) with false by lia.
    assert (S = l ++ y :: S2) as HS by (rewrite Hsplit, E1, <- (assoc app); done).
    eapply wp_mono; [eapply (wp_insert_after _ y p l S2); [by rewrite <- HS|done|done|]|].
    { rewrite <- HS. set_solver. }
    intros [] w' [Hq Hrel]. rewrite <- E1. eapply Hdone; [exact Hrel| |].
    + rewrite E1. set_solver.
    + rewrite E1, <- (assoc app). done.
Qed.

(** *** The switch *)
Section switch_spec.
Context (away : prog kworld unit) (halted : prog kworld unit) (idle_fuel : nat).
Abbreviation advance := (schedule_advance away halted idle_fuel).

(** While switches are postponed, a switch is only noted. *)
Lemma advance_postponed w :
  0 < switch_lock_count (sched w) →
  advance w = upd_sched (λ s, set_switch_flag s true) w.
Proof.
  intros Hc. unfold schedule_advance. rewrite (bind_run _ _ w _ w (eq_refl : gets sched w = _)).
  by replace (0 <? _) with true by lia.
Qed.

(** What a switch from [cur] to [n] leaves behind at the moment it happens. *)
Record switched (w w1 : kworld) (cur n : Z) : Prop := {
  sw_current : current w1 = n;
  sw_status : ∀ x, status_of w1 x =
    if decide (x = n) then
      (if status_of w n =? PROC_STATUS_UNINITIALIZED then PROC_STATUS_UNINITIALIZED
       else PROC_STATUS_RUNNING)
    else if decide (x = cur ∧ status_of w cur = PROC_STATUS_RUNNING)
         then PROC_STATUS_READY_TO_RUN else status_of w x;
  sw_wake : ∀ x, wake_time w1 x = wake_time w x;
  sw_set : proc_set w1 = proc_set w;
  sw_sched : sched w1 = set_quantum (set_time_elapsed (sched w) (clock w)) QUANTUM_LENGTH;
  sw_interrupts : interrupts w1 = false;
  sw_clock : clock w1 = clock w;
}.

(** Queues other than the ready queue, as far as they hold none of [ps],
    semaphores, mutexes and families are as before. *)
Definition other_queues (w w1 : kworld) (ps : list Z) : Prop :=
  (∀ q l, q ≠ mp_ready_queue → (∀ x, x ∈ l → x ∉ ps) → qrep w q l → qrep w1 q l) ∧
  semaphores w1 = semaphores w ∧ mutexes w1 = mutexes w ∧ kin w1 = kin w.

Lemma other_queues_same w w1 ps :
  links w1 = links w → queues w1 = queues w → semaphores w1 = semaphores w → mutexes w1 = mutexes w →
  kin w1 = kin w → other_queues w w1 ps.
Proof using Type. intros Hl Hq Hs Hm Hk. split; [|done]. intros q l _ _. by apply qrep_same. Qed.

Lemma other_queues_relinked w w1 ps :
  relinked w w1 ps [mp_ready_queue] → other_queues w w1 ps.
Proof using Type.
  intros Hrel. split; [|split; [apply Hrel|split; [apply Hrel|by eapply kin_relinked]]].
  intros q l Hq Hl Hrep. eapply qrep_relinked; [exact Hrel|exact Hrep|set_solver|done].
Qed.

Lemma other_queues_trans w w1 w2 ps ps1 ps2 :
  other_queues w w1 ps1 → other_queues w1 w2 ps2 → (∀ x, x ∈ ps1 ++ ps2 → x ∈ ps) →
  other_queues w w2 ps.
Proof using Type.
  intros (Q1 & S1 & M1 & K1) (Q2 & S2 & M2 & K2) Hps. split; [|split_and!; congruence].
  intros q l Hq Hl Hrep. apply Q2; [done|intros x Hx Hx2; apply (Hl x Hx), Hps; set_solver|].
  apply Q1; [done|intros x Hx Hx2; apply (Hl x Hx), Hps; set_solver|done].
Qed.

(** [account] for a process: only times change. *)
Lemma account_run w cur c :
  current w = cur → cur ≠ 0 → procs w !! cur = Some c →
  ∃ w1, account w = Ret (tt, w1) ∧
    procs w1 = <[cur := set_elapsed c (u64 (elapsed c + (clock w - switch_timestamp c)))]> (procs w) ∧
    queues w1 = queues w ∧ current w1 = cur ∧ interrupts w1 = interrupts w ∧ clock w1 = clock w ∧
    sched w1 = set_time_elapsed (sched w) (clock w) ∧
    semaphores w1 = semaphores w ∧ mutexes w1 = mutexes w ∧ kin w1 = kin w.
Proof.
  intros Hcur H0 Hc. unfold account.
  rewrite (bind_run _ _ w _ w (eq_refl : gets clock w = _)).
  erewrite (bind_run _ _ w tt) by reflexivity.
  erewrite (bind_run _ _ _ cur) by (unfold gets; simpl; by rewrite Hcur).
  replace (cur =? 0) with false by lia. cbn [negb].
  unfold update_proc. erewrite bind_run by (unfold load_proc; simpl; by rewrite Hc).
  eexists. split; [reflexivity|]. do 7 (split; [done|]). split; [done|]. unfold kin. cbn. f_equal.
  rewrite fmap_insert. apply insert_id. by rewrite lookup_fmap, Hc.
Qed.

(** The scheduler's queues depend on links, queues and wake times only. *)
Lemma sched_rep_same w w' R S D :
  links w' = links w → queues w' = queues w → (∀ x, wake_time w' x = wake_time w x) →
  sched_rep w R S D → sched_rep w' R S D.
Proof using Type.
  intros Hl Hq Hw [Hr Hs Hd Hdis Hso].
  split; [by eapply qrep_same|by eapply qrep_same|by eapply qrep_same|done|].
  eapply sorted_ext; [|exact Hso]. done.
Qed.

(** A store to one process that keeps its link: what it does to a field. *)
Lemma field_update {Y} (f : proc → Y) d w p v x :
  field (set_procs w (<[p := v]> (procs w))) f d x = if decide (x = p) then f v else field w f d x.
Proof using Type.
  unfold field. simpl. destruct (decide (x = p)) as [->|];
    [by rewrite lookup_insert_eq|by rewrite lookup_insert_ne].
Qed.

Lemma field_at {Y} (f : proc → Y) d w p v : procs w !! p = Some v → field w f d p = f v.
Proof using Type. intros Hv. unfold field. by rewrite Hv. Qed.

Lemma proc_set_update w p v u :
  procs w !! p = Some v → proc_set (set_procs w (<[p := u]> (procs w))) = proc_set w.
Proof using Type.
  intros Hv. unfold proc_set. simpl. rewrite dom_insert_L. apply subseteq_union_1_L.
  apply singleton_subseteq_l, elem_of_dom. by rewrite Hv.
Qed.

(** Stage 1: the process that ran is accounted for and, if it was running,
    goes to the end of the ready queue. *)
Record requeued (w w' : kworld) (cur : Z) : Prop := {
  rq_status : ∀ x, status_of w' x =
    if decide (x = cur ∧ status_of w cur = PROC_STATUS_RUNNING)
    then PROC_STATUS_READY_TO_RUN else status_of w x;
  rq_wake : ∀ x, wake_time w' x = wake_time w x;
  rq_set : proc_set w' = proc_set w;
  rq_rest : current w' = current w ∧ clock w' = clock w ∧ interrupts w' = interrupts w;
}.

Definition queued_again (w : kworld) (cur : Z) : list Z :=
  if status_of w cur =? PROC_STATUS_RUNNING then [cur] else [].

Lemma wp_requeue w cur R S D :
  sched_rep w R S D → is_Some (procs w !! cur) → cur ≠ 0 →
  (status_of w cur = PROC_STATUS_RUNNING → cur ∉ R ++ S ++ D) →
  wp (requeue_current cur) (λ _ w',
    requeued w w' cur ∧ sched w' = sched w ∧ sched_rep w' (R ++ queued_again w cur) S D ∧
    other_queues w w' (R ++ queued_again w cur)) w.
Proof using Type.
  intros Hrep [c Hc] H0 Hfree. unfold requeue_current. replace (cur =? 0) with false by lia.
  cbn [negb]. apply wp_bind. eapply wp_load_proc; [exact Hc|]. unfold queued_again, status_of in *.
  rewrite (field_at status 0 w cur c Hc) in *.
  destruct (Z.eqb_spec (status c) PROC_STATUS_RUNNING) as [E|E]; cbn [when].
  2:{ apply wp_ret. rewrite app_nil_r. split; [|by split_and!; [..|apply other_queues_same]]. split; try done.
      intros x. unfold status_of. rewrite (field_at status 0 w cur c Hc).
      by rewrite decide_False by tauto. }
  specialize (Hfree E). apply wp_bind. eapply wp_update_proc; [exact Hc|].
  set (w1 := set_procs w _).
  assert (links w1 = links w) as Hl1
    by (apply (links_update w cur (λ p, set_status p PROC_STATUS_READY_TO_RUN) c); done).
  assert (∀ x, wake_time w1 x = wake_time w x) as Hw1.
  { intros x. unfold wake_time, w1. rewrite field_update. destruct (decide (x = cur)) as [->|]; [|done].
    by rewrite (field_at sleep_until 0 w cur c Hc). }
  assert (sched_rep w1 R S D) as Hrep1 by (by eapply sched_rep_same).
  destruct (Hrep1) as [Hr Hs Hd Hdis Hso].
  eapply wp_mono; [apply wp_push_tail; [exact Hr|simpl; rewrite lookup_insert_eq; by eexists|done|set_solver]|].
  intros [] w2 [Hr2 Hrel]. split; [|split; [apply Hrel|split]].
  - split.
    + intros x. unfold status_of. rewrite (relinked_field status 0 _ w2 _ _ x (λ _ _, eq_refl) Hrel).
      unfold w1. rewrite field_update, (field_at status 0 w cur c Hc).
      destruct (decide (x = cur)) as [->|]; [by rewrite decide_True|by rewrite decide_False by tauto].
    + intros x. unfold wake_time.
      rewrite (relinked_field sleep_until 0 _ w2 _ _ x (λ _ _, eq_refl) Hrel). apply Hw1.
    + rewrite (relinked_proc_set _ _ _ _ Hrel). by eapply proc_set_update.
    + destruct Hrel as [_ _ _ (? & _ & ? & ? & _)]. done.
  - assert (∀ q l, qrep w1 q l → q ≠ mp_ready_queue → (∀ x, x ∈ l → x ∉ cur :: R) → qrep w2 q l) as Hother
      by (intros q l Hq Hne Hl; eapply qrep_relinked; [exact Hrel|exact Hq|set_solver|done]).
    rewrite !NoDup_app in Hdis. split; [done| | |  |].
    + apply Hother; [done|unfold mp_ready_queue, mp_sleeping_queue; lia|set_solver].
    + apply Hother; [done|unfold mp_ready_queue, mp_ready_to_die_queue; lia|set_solver].
    + rewrite !NoDup_app. pose proof (NoDup_singleton cur). set_solver.
    + eapply sorted_ext; [|exact Hso]. intros x _. unfold wake_time.
      by rewrite (relinked_field sleep_until 0 _ w2 _ _ x (λ _ _, eq_refl) Hrel).
  - eapply (other_queues_trans w w1 w2 _ []); [apply other_queues_same; try done|
      by apply other_queues_relinked|set_solver].
    by apply (kin_update w cur (λ p, set_status p PROC_STATUS_READY_TO_RUN) c).
Qed.

(** Stage 2: the head of the ready queue is current, and running. *)
Record dispatched (w w1 : kworld) (n : Z) : Prop := {
  dp_current : current w1 = n;
  dp_status : ∀ x, status_of w1 x =
    if decide (x = n) then
      (if status_of w n =? PROC_STATUS_UNINITIALIZED then PROC_STATUS_UNINITIALIZED
       else PROC_STATUS_RUNNING)
    else status_of w x;
  dp_wake : ∀ x, wake_time w1 x = wake_time w x;
  dp_set : proc_set w1 = proc_set w;
  dp_rest : sched w1 = sched w ∧ interrupts w1 = false ∧ clock w1 = clock w;
}.

(** The two stores to the process that is switched to. *)
Definition dispatch_proc (ts : Z) (v : proc) : proc :=
  let v := set_switch_timestamp v ts in
  if status v =? PROC_STATUS_UNINITIALIZED then v else set_status v PROC_STATUS_RUNNING.

Definition dispatch_world (w : kworld) (n : Z) (v : proc) : kworld :=
  MkWorld (<[n := dispatch_proc (time_elapsed (sched w)) v]> (procs w)) (queues w) n (sched w)
    (clock w) false (semaphores w) (mutexes w) (ext w).

Lemma multitask_run w n v :
  procs w !! n = Some v → n ≠ current w →
  (s ← gets sched;
   _ ← update_proc n (λ p, set_switch_timestamp p (time_elapsed s));
   multitask_switch away n) w = (_ ← away; sti) (dispatch_world w n v).
Proof using Type.
  intros Hv Hne.
  rewrite (bind_run _ _ w _ w (eq_refl : gets sched w = _)).
  erewrite (bind_run _ _ w tt) by (unfold update_proc; by erewrite bind_run by (unfold load_proc; by rewrite Hv)).
  unfold multitask_switch. erewrite (bind_run cli) by reflexivity.
  erewrite (bind_run (load_proc n)) by (unfold load_proc; simpl; by rewrite lookup_insert_eq).
  unfold switch_to. 
  match goal with |- (?m ≫= _) ?x = _ =>
    assert (m x = away (dispatch_world w n v)) as E end.
  { erewrite bind_run by reflexivity. erewrite (bind_run (set_current n)) by reflexivity.
    erewrite (bind_run (update_proc n _)).
    2:{ unfold update_proc. erewrite bind_run by (unfold load_proc; simpl; by rewrite lookup_insert_eq).
        unfold modify. cbn [set_procs procs]. rewrite insert_insert_eq. reflexivity. }
    cbn [current set_procs]. by replace (n =? current w) with false by lia. }
  unfold mbind, prog_bind in *. by rewrite E.
Qed.

Lemma dispatch_next ts v : next (dispatch_proc ts v) = next v.
Proof using Type. unfold dispatch_proc. by destruct (_ =? _). Qed.

Lemma dispatch_links w n v : procs w !! n = Some v → links (dispatch_world w n v) = links w.
Proof using Type.
  intros Hv. unfold links. cbn [dispatch_world procs]. rewrite fmap_insert, dispatch_next.
  apply insert_id. by rewrite lookup_fmap, Hv.
Qed.

Lemma dispatch_kin w n v : procs w !! n = Some v → kin (dispatch_world w n v) = kin w.
Proof using Type.
  intros Hv. unfold kin. cbn [dispatch_world procs ext]. f_equal. rewrite fmap_insert. apply insert_id.
  rewrite lookup_fmap, Hv. cbn. f_equal. unfold dispatch_proc. by destruct (_ =? _).
Qed.

Lemma dispatch_world_spec w n v : procs w !! n = Some v → dispatched w (dispatch_world w n v) n.
Proof using Type.
  intros Hv.
  assert (∀ Y (f : proc → Y) d x, field (dispatch_world w n v) f d x =
    if decide (x = n) then f (dispatch_proc (time_elapsed (sched w)) v) else field w f d x) as Hf.
  { intros Y f d x. unfold field, dispatch_world. cbn [procs].
    destruct (decide (x = n)) as [->|]; [by rewrite lookup_insert_eq|by rewrite lookup_insert_ne]. }
  split; [done| | | |done].
  - intros x. unfold status_of. rewrite Hf, (field_at status 0 w n v Hv).
    destruct (decide (x = n)); [|done]. unfold dispatch_proc. cbn [set_switch_timestamp status].
    destruct (Z.eqb_spec (status v) PROC_STATUS_UNINITIALIZED) as [E|]; [exact E|done].
  - intros x. unfold wake_time. rewrite Hf. destruct (decide (x = n)) as [->|]; [|done].
    rewrite (field_at sleep_until 0 w n v Hv). unfold dispatch_proc. by destruct (_ =? _).
  - by eapply proc_set_update.
Qed.

Lemma switch_to_head_run w n R S D :
  sched_rep w (n :: R) S D → n ≠ current w →
  ∃ w1, switch_to_head away w = (_ ← away; sti) w1 ∧ dispatched w w1 n ∧ sched_rep w1 R S D ∧
    other_queues w w1 [n].
Proof using Type.
  intros [Hr Hs Hd Hdis Hso] Hne. unfold switch_to_head.
  pose proof (wp_pop_head _ _ _ Hr) as Hpop.
  apply wp_inv in Hpop as (r & w1 & Hpop & -> & Hr1 & Hrel & _).
  rewrite (bind_run _ _ _ _ _ Hpop). cbn [head default from_option id tail take] in *.
  assert (is_Some (procs w !! n)) as [v0 Hv0] by (eapply (qrep_procs _ _ _ n Hr); set_solver).
  destruct (rl_fields _ _ _ _ Hrel n) as [k Hk]. rewrite Hv0 in Hk. cbn in Hk.
  pose proof Hrel as Hrel'. destruct Hrel as [_ _ _ (Ecur & Es & Ec & Ei & _)].
  rewrite (multitask_run w1 n _ Hk) by congruence.
  eexists. split; [reflexivity|].
  destruct (dispatch_world_spec w1 n _ Hk) as [D1 D2 D3 D4 (D5 & D6 & D7)]. split; [|split].
  - assert (∀ x, status_of w1 x = status_of w x) as Hst
      by (intros x; apply (relinked_field status 0 w w1 _ _ x (λ _ _, eq_refl) Hrel')).
    split; [done| | | |].
    + intros x. by rewrite D2, !Hst.
    + intros x. rewrite D3. apply (relinked_field sleep_until 0 w w1 _ _ x (λ _ _, eq_refl) Hrel').
    + by rewrite D4, (relinked_proc_set _ _ _ _ Hrel').
    + split_and!; congruence.
  - rewrite !NoDup_app, !NoDup_cons in Hdis.
    assert (∀ q l, qrep w q l → q ≠ mp_ready_queue → n ∉ l → qrep w1 q l) as Hother
      by (intros q l Hq Hq0 Hl; eapply qrep_relinked; [exact Hrel'|exact Hq|set_solver|set_solver]).
    eapply sched_rep_same; [by apply dispatch_links|done|exact D3|].
    split; [done| | | |].
    + apply Hother; [done|unfold mp_ready_queue, mp_sleeping_queue; lia|set_solver].
    + apply Hother; [done|unfold mp_ready_queue, mp_ready_to_die_queue; lia|set_solver].
    + rewrite !NoDup_app. set_solver.
    + eapply sorted_ext; [|exact Hso]. intros x _. unfold wake_time.
      by rewrite (relinked_field sleep_until 0 w w1 _ _ x (λ _ _, eq_refl) Hrel').
  - eapply (other_queues_trans w w1 _ _ [n] []); [by apply other_queues_relinked| |set_solver].
    apply other_queues_same; [by apply dispatch_links|done|done|done|by apply dispatch_kin].
Qed.

(** The whole switch, for a process that runs, sleeps or waits. *)
Lemma advance_switch w cur n R S D :
  switch_lock_count (sched w) = 0 → current w = cur → cur ≠ 0 → is_Some (procs w !! cur) →
  sched_rep w (n :: R) S D → n ≠ cur →
  (status_of w cur = PROC_STATUS_RUNNING → cur ∉ (n :: R) ++ S ++ D) →
  ∃ w1, advance w = (_ ← away; sti) w1 ∧ switched w w1 cur n ∧
        sched_rep w1 (R ++ queued_again w cur) S D ∧
        other_queues w w1 (n :: R ++ queued_again w cur).
Proof using Type.
  intros Hsw Hcur H0 [c Hc] Hrep Hne Hfree. unfold schedule_advance.
  rewrite (bind_run _ _ w _ w (eq_refl : gets sched w = _)).
  replace (0 <? _) with false by lia.
  destruct (account_run w cur c Hcur H0 Hc) as (w1 & Hacc & P1 & Q1 & C1 & I1 & K1 & S1 & E1 & M1 & Kin1).
  rewrite (bind_run _ _ _ _ _ Hacc).
  erewrite (bind_run _ _ w1 cur w1) by (unfold gets; by rewrite C1).
  (* accounting only changes times *)
  assert (∀ Y (f : proc → Y) d x, (∀ v t, f (set_elapsed v t) = f v) → field w1 f d x = field w f d x) as Hf1.
  { intros Y f d x Hf. unfold field. rewrite P1. destruct (decide (x = cur)) as [->|];
      [by rewrite lookup_insert_eq, Hc, Hf|by rewrite lookup_insert_ne]. }
  assert (∀ x, status_of w1 x = status_of w x) as Hst1 by (intros x; by apply Hf1).
  assert (∀ x, wake_time w1 x = wake_time w x) as Hwk1 by (intros x; by apply Hf1).
  assert (links w1 = links w) as Hl1.
  { unfold links. rewrite P1, fmap_insert. apply insert_id. by rewrite lookup_fmap, Hc. }
  assert (sched_rep w1 (n :: R) S D) as Hrep1 by (by eapply sched_rep_same).
  pose proof (wp_empty _ _ _ (sr_ready _ _ _ _ Hrep1)) as He.
  apply wp_inv in He as (e & ? & He & -> & ->). rewrite (bind_run _ _ _ _ _ He).
  rewrite bool_decide_eq_false_2 by done. cbn [negb].
  assert (is_Some (procs w1 !! cur)) as Hc1 by (rewrite P1, lookup_insert_eq; by eexists).
  rewrite <- Hst1 in Hfree.
  pose proof (wp_requeue w1 cur _ _ _ Hrep1 Hc1 H0 Hfree) as Hq.
  apply wp_inv in Hq as ([] & w2 & Hq & [R1 R2 R3 (R4 & R5 & R6)] & Hs2 & Hrep2 & O2).
  rewrite (bind_run _ _ _ _ _ Hq).
  erewrite (bind_run _ _ w2 tt) by reflexivity.
  assert (queued_again w1 cur = queued_again w cur) as Hqa by (unfold queued_again; by rewrite Hst1).
  rewrite Hqa in Hrep2, O2. rewrite <- app_comm_cons in Hrep2.
  match goal with |- context [switch_to_head away ?x] => set (w3 := x) end.
  assert (sched_rep w3 (n :: R ++ queued_again w cur) S D) as Hrep3
    by (eapply sched_rep_same; [| | |exact Hrep2]; done).
  destruct (switch_to_head_run w3 n _ _ _ Hrep3) as (w4 & Hrun & [D1 D2 D3 D4 (D5 & D6 & D7)] & Hrep4 & O4).
  { simpl. congruence. }
  exists w4. split; [exact Hrun|]. split; [|split; [done|]].
  2:{ eapply other_queues_trans; [eapply (other_queues_trans w w1 w2 (n :: R ++ queued_again w cur) []);
        [by apply other_queues_same|exact O2|set_solver]| |].
      - by eapply (other_queues_trans w2 w3 w4 [n] []); [apply other_queues_same|exact O4|].
      - set_solver. }
  assert (∀ x, status_of w3 x = status_of w2 x) as Hst3 by done.
  split.
  - done.
  - intros x. rewrite D2, !Hst3, !R1, !Hst1. rewrite (decide_False (P := n = cur ∧ _)) by tauto. done.
  - intros x. rewrite D3. transitivity (wake_time w2 x); [done|]. by rewrite R2.
  - rewrite D4. transitivity (proc_set w2); [done|]. rewrite R3. unfold proc_set. rewrite P1.
    rewrite dom_insert_L. apply subseteq_union_1_L, singleton_subseteq_l, elem_of_dom. by rewrite Hc.
  - rewrite D5. simpl. by rewrite Hs2, S1.
  - done.
  - rewrite D7. simpl. congruence.
Qed.

(** *** The nested locks *)

(** The world with other lock counters and interrupt flag. *)
Definition with_locks (w : kworld) (irq sw : Z) (flag intr : bool) : kworld :=
  MkWorld (procs w) (queues w) (current w)
    (set_switch_flag (set_switch_count (set_irq_count (sched w) irq) sw) flag)
    (clock w) intr (semaphores w) (mutexes w) (ext w).

Lemma sched_rep_locks w irq sw flag intr R S D :
  sched_rep w R S D → sched_rep (with_locks w irq sw flag intr) R S D.
Proof using Type. by apply sched_rep_same. Qed.

(** Counters that do not wrap. *)
Definition locks_ok (w : kworld) : Prop :=
  0 ≤ irq_lock_count (sched w) < 2 ^ 32 ∧ 0 ≤ switch_lock_count (sched w) < 2 ^ 32.

Lemma postpone_run w :
  locks_ok w →
  sched_postpone w = Ret (tt, with_locks w (irq_lock_count (sched w) + 1)
                                (switch_lock_count (sched w) + 1) (switch_lock_flag (sched w)) false).
Proof using Type.
  intros [Hi Hs]. unfold sched_postpone, cli, set_interrupts, upd_sched, modify, mbind, prog_bind.
  do 2 f_equal. unfold with_locks. cbn. unfold set_irq_count, set_switch_count, set_switch_flag. cbn.
  rewrite !u64_small by (unfold is_u64; lia). by destruct w as [? ? ? [] ? ? ? ? ?].
Qed.

Lemma lock_run w :
  locks_ok w →
  sched_lock w = Ret (tt, with_locks w (irq_lock_count (sched w) + 1)
                            (switch_lock_count (sched w)) (switch_lock_flag (sched w)) false).
Proof using Type.
  intros [Hi Hs]. unfold sched_lock, cli, set_interrupts, upd_sched, modify, mbind, prog_bind.
  do 2 f_equal. unfold with_locks. cbn. unfold set_irq_count, set_switch_count, set_switch_flag. cbn.
  rewrite !u64_small by (unfold is_u64; lia). by destruct w as [? ? ? [] ? ? ? ? ?].
Qed.

(** Releasing the last interrupt lock enables interrupts; an inner one does not. *)
Lemma unlock_run w :
  0 < irq_lock_count (sched w) →
  sched_unlock w = Ret (tt, with_locks w (irq_lock_count (sched w) - 1)
    (switch_lock_count (sched w)) (switch_lock_flag (sched w))
    (if irq_lock_count (sched w) =? 1 then true else interrupts w)).
Proof using Type.
  intros Hi. unfold sched_unlock, upd_sched, gets, when, modify, mbind, prog_bind.
  replace (0 <? irq_lock_count (sched w)) with true by lia. cbn -[Z.sub Z.eqb].
  unfold with_locks, set_irq_count, set_switch_count, set_switch_flag. cbn -[Z.sub Z.eqb].
  destruct (Z.eqb_spec (irq_lock_count (sched w)) 1) as [E|E].
  - rewrite E. cbn. by destruct w as [? ? ? [] ? ? ? ? ?].
  - replace (irq_lock_count (sched w) - 1 =? 0) with false by lia.
    by destruct w as [? ? ? [] ? ? ? ? ?].
Qed.

(** [sched_resume]: the outermost one performs the switch that was noted while
    switches were postponed; an inner one, or one with nothing noted, only
    gives its locks back. *)
Lemma resume_run w :
  0 < switch_lock_count (sched w) →
  sched_resume away halted idle_fuel w =
    if (switch_lock_count (sched w) =? 1) && switch_lock_flag (sched w)
    then (_ ← advance; sched_unlock)
           (with_locks w (irq_lock_count (sched w)) 0 false (interrupts w))
    else sched_unlock (with_locks w (irq_lock_count (sched w)) (switch_lock_count (sched w) - 1)
                         (switch_lock_flag (sched w)) (interrupts w)).
Proof using Type.
  intros Hs. unfold sched_resume.
  rewrite (bind_run _ _ w _ w (eq_refl : gets sched w = _)).
  replace (0 <? switch_lock_count (sched w)) with true by lia. cbn [when].
  erewrite (bind_run _ _ w tt) by reflexivity.
  erewrite (bind_run (gets sched)) by reflexivity. cbn [sched set_switch_count switch_lock_count switch_lock_flag].
  destruct (Z.eqb_spec (switch_lock_count (sched w)) 1) as [E|E]; cbn [andb].
  - rewrite E. change (1 - 1) with 0. change (0 =? 0) with true.
    destruct (switch_lock_flag (sched w)) eqn:F; cbn [when andb].
    + rewrite bind_assoc_run. by erewrite bind_run by reflexivity.
    + erewrite bind_run by reflexivity. f_equal. unfold with_locks. cbn.
      destruct w as [? ? ? [] ? ? ? ? ?]. cbn in *. by subst.
  - replace (switch_lock_count (sched w) - 1 =? 0) with false by lia. cbn [andb when].
    erewrite bind_run by reflexivity. f_equal. 
Qed.
End switch_spec.
End world.
