(* ===== verification/SchedSpec.v ===== *)
(** * SchedSpec: what the scheduler promises

    The theorems on [Sched]: round robin, pre-emption by the timer, sleeping and
    waking.  They compose the lemmas of [Sched] on one world in which a process
    runs, a list of others is ready, and a sorted list sleeps. *)
From S2P Require Import Prelude ProcQueue Sched.

Section world.
Context {X : Type}.
Abbreviation kworld := (kworld_of X).
Implicit Types (w : kworld).

(** Process [cur] runs, [R] are ready, [S] sleep, [D] are ready to die. *)
Record cpu (w : kworld) (cur : Z) (R S D : list Z) : Prop := {
  cpu_current : current w = cur;
  cpu_nonnull : cur ≠ 0;
  cpu_exists : is_Some (procs w !! cur);
  cpu_running : status_of w cur = PROC_STATUS_RUNNING;
  cpu_queues : sched_rep w R S D;
  cpu_apart : cur ∉ R ++ S ++ D;
}.

(** No scheduler lock is held and no switch is noted. *)
Definition unlocked (w : kworld) : Prop :=
  irq_lock_count (sched w) = 0 ∧ switch_lock_count (sched w) = 0 ∧
  switch_lock_flag (sched w) = false.

Section spec.
Context (away : prog kworld unit) (halted : prog kworld unit) (idle_fuel : nat).
Abbreviation advance := (schedule_advance away halted idle_fuel).

(** A switch asked for inside [sched_postpone] is noted, and nothing else. *)
Lemma noted_switch w :
  locks_ok w → 0 < irq_lock_count (sched w) → 0 < switch_lock_count (sched w) →
  (_ ← sched_lock; _ ← advance; sched_unlock) w =
    Ret (tt, with_locks w (irq_lock_count (sched w)) (switch_lock_count (sched w)) true false).
Proof using Type.
  intros Hok Hi Hs. rewrite (bind_run _ _ _ _ _ (lock_run w Hok)).
  erewrite bind_run by (rewrite advance_postponed; [reflexivity|done]).
  rewrite unlock_run by (cbn; lia). cbn [sched with_locks set_switch_flag set_switch_count set_irq_count
    irq_lock_count switch_lock_count switch_lock_flag interrupts].
  replace (irq_lock_count (sched w) + 1 =? 1) with false by lia.
  do 2 f_equal. unfold with_locks. cbn. by rewrite Z.add_simpl_r.
Qed.

Lemma noted_switch_then {A} (k : prog kworld A) w :
  locks_ok w → 0 < irq_lock_count (sched w) → 0 < switch_lock_count (sched w) →
  (_ ← sched_lock; _ ← advance; _ ← sched_unlock; k) w =
    k (with_locks w (irq_lock_count (sched w)) (switch_lock_count (sched w)) true false).
Proof using Type.
  intros Hok Hi Hs. pose proof (noted_switch w Hok Hi Hs) as E. revert E.
  unfold mbind, prog_bind. destruct (sched_lock w) as [[[] w1]| | |]; try done.
  destruct (advance w1) as [[[] w2]| | |]; try done. by intros ->.
Qed.

(** The outermost [sched_resume] with a switch noted: round robin from here. *)
Lemma resume_switch w cur n R S D :
  irq_lock_count (sched w) = 1 → switch_lock_count (sched w) = 1 → switch_lock_flag (sched w) = true →
  current w = cur → cur ≠ 0 → is_Some (procs w !! cur) → sched_rep w (n :: R) S D → n ≠ cur →
  (status_of w cur = PROC_STATUS_RUNNING → cur ∉ (n :: R) ++ S ++ D) →
  ∃ w1, sched_resume away halted idle_fuel w = (_ ← (_ ← away; sti); sched_unlock) w1 ∧
    switched (with_locks w 1 0 false (interrupts w)) w1 cur n ∧
    sched_rep w1 (R ++ queued_again w cur) S D ∧
    other_queues w w1 (n :: R ++ queued_again w cur).
Proof using Type.
  intros Hi Hs Hf Hcur H0 Hex Hrep Hne Hapart.
  rewrite resume_run by lia. rewrite Hs, Hf, Hi. cbn [andb].
  change (1 =? 1) with true. cbn [andb].
  destruct (advance_switch away halted idle_fuel (with_locks w 1 0 false (interrupts w)) cur n R S D)
    as (w1 & Hrun & Hsw & Hrep' & Ho); try done; [by apply sched_rep_locks|].
  exists w1. split; [|split; [done|split; [done|]]].
  2:{ eapply (other_queues_trans w (with_locks w 1 0 false (interrupts w)) w1 _ []);
        [by apply other_queues_same|exact Ho|done]. }
  unfold mbind at 1, prog_bind at 1. rewrite Hrun.
  by unfold mbind at 3, prog_bind at 2.
Qed.

(** C25: [schedule_advance] with switches allowed and a ready process: the head
    of the ready queue becomes current and runs with a fresh quantum; the process
    that was running goes to the end of the queue, one that sleeps or waits is
    not queued again; the other processes and the other queues keep their state.
    The switch happens with interrupts off, and they are on when the process is
    resumed.  Queues that hold none of these processes, and the semaphores, are
    untouched. *)
Theorem schedule_advance_round_robin w cur n R S D :
  switch_lock_count (sched w) = 0 → current w = cur → cur ≠ 0 → is_Some (procs w !! cur) →
  sched_rep w (n :: R) S D → n ≠ cur →
  (status_of w cur = PROC_STATUS_RUNNING → cur ∉ (n :: R) ++ S ++ D) →
  ∃ w1, advance w = (_ ← away; sti) w1 ∧ switched w w1 cur n ∧
        sched_rep w1 (R ++ queued_again w cur) S D ∧
        other_queues w w1 (n :: R ++ queued_again w cur).
Proof using Type. by apply advance_switch. Qed.

(** C36: [sleep_current_ns] from a running process, with no lock held and another
    process ready: the caller is put in the sleeping queue, behind every sleeper
    that wakes no later and before every other, with the wake-up time now + ns;
    the switch that is asked for while switches are postponed happens at the end,
    to the head of the ready queue, with exactly one interrupt lock held. *)
Theorem sleep_current_switches w cur n R S D ns :
  cpu w cur (n :: R) S D → unlocked w →
  ∃ w1, sleep_current_ns away halted idle_fuel ns w = (_ ← (_ ← away; sti); sched_unlock) w1 ∧
    current w1 = n ∧
    sched_rep w1 R (filter (λ x, wake_time w x ≤ u64 (clock w + ns)) S ++
              cur :: filter (λ x, u64 (clock w + ns) < wake_time w x) S) D ∧
    status_of w1 cur = PROC_STATUS_SLEEPING_TIMER ∧ wake_time w1 cur = u64 (clock w + ns) ∧
    irq_lock_count (sched w1) = 1 ∧ switch_lock_count (sched w1) = 0 ∧ interrupts w1 = false.
Proof using Type.
  intros [Hcur H0 Hex Hrun Hrep Hap] (Hi & Hs & Hf). set (t := u64 (clock w + ns)).
  assert (n ≠ cur) as Hne by set_solver.
  unfold sleep_current_ns. erewrite bind_run by reflexivity. erewrite bind_run by reflexivity.
  rewrite Hcur. fold t. unfold sleep_proc_until.
  rewrite (bind_run _ _ _ _ _ (postpone_run w ltac:(unfold locks_ok; lia))). rewrite Hi, Hs.
  set (wa := with_locks w _ _ _ _).
  destruct (proj1 (wp_inv _ _ _) (wp_enqueue_sleeper wa (n :: R) S D cur t
    (sched_rep_locks _ _ _ _ _ _ _ _ Hrep) Hex H0 Hap)) as ([] & wb & Hb & Hrepb & Pst & Pwk & Pset & Pc & Ps & Pk & Pi).
  rewrite (bind_run _ _ _ _ _ Hb).
  assert (irq_lock_count (sched wb) = 1 ∧ switch_lock_count (sched wb) = 1) as [Hib Hsb] by (by rewrite Ps).
  rewrite noted_switch_then by (unfold locks_ok; lia). rewrite Hib, Hsb.
  match goal with |- context [sched_resume _ _ _ ?x] => set (wc := x) end.
  assert (status_of wc cur = PROC_STATUS_SLEEPING_TIMER) as Hstc
    by (change (status_of wb cur = PROC_STATUS_SLEEPING_TIMER); rewrite Pst; by rewrite decide_True).
  destruct (resume_switch wc cur n R (filter (λ x, wake_time wa x ≤ t) S ++
              cur :: filter (λ x, t < wake_time wa x) S) D) as (w1 & Hres & Hsw & Hrep1 & _); try done.
  - rewrite <- Hcur. exact Pc.
  - apply elem_of_dom. change (cur ∈ proc_set wb). rewrite Pset. by apply elem_of_dom.
  - by apply sched_rep_locks.
  - rewrite Hstc. done.
  - exists w1. split; [exact Hres|]. destruct Hsw as [W1 W2 W3 W4 W5 W6 W7]. split; [done|].
    unfold queued_again in Hrep1. rewrite Hstc, app_nil_r in Hrep1. split; [exact Hrep1|].
    rewrite W2, decide_False, W3, W5, W6 by congruence. split_and!; try done.
    + rewrite decide_False; [done|]. intros [_ Hx]. change (status_of wc cur = PROC_STATUS_RUNNING) in Hx.
      by rewrite Hstc in Hx.
    + transitivity (wake_time wb cur); [done|]. by rewrite Pwk, decide_True.
Qed.

(** [wake_procs_before_timestamp]: exactly the sleepers whose time has come
    become ready, at the end of the ready queue and in wake-up order; the others
    sleep on in their order. *)
Theorem wake_procs_exact w R S D t :
  sched_rep w R S D →
  ∃ w', wake_procs_before_timestamp t w = Ret (tt, w') ∧
    sched_rep w' (R ++ filter (λ x, wake_time w x ≤ t) S) (filter (λ x, t < wake_time w x) S) D ∧
    woken w w' (filter (λ x, wake_time w x ≤ t) S).
Proof using Type.
  intros Hrep. destruct (proj1 (wp_inv _ _ _) (wp_wake_procs w R S D t Hrep)) as ([] & w' & Hr & Hp).
  by exists w'.
Qed.

(** The timer up to its decision: the due sleepers are ready, one level of both
    locks is held. *)
Lemma timer_wakes w cur R S D t :
  cpu w cur R S D → unlocked w →
  ∃ wb, (_ ← sched_postpone; wake_procs_before_timestamp t) w = Ret (tt, wb) ∧
    cpu wb cur (R ++ filter (λ x, wake_time w x ≤ t) S) (filter (λ x, t < wake_time w x) S) D ∧
    sched wb = set_switch_flag (set_switch_count (set_irq_count (sched w) 1) 1) false ∧
    clock wb = clock w ∧ interrupts wb = false.
Proof using Type.
  intros [Hcur H0 Hex Hrun Hrep Hap] (Hi & Hs & Hf).
  rewrite (bind_run _ _ _ _ _ (postpone_run w ltac:(unfold locks_ok; lia))). rewrite Hi, Hs, Hf.
  set (wa := with_locks w _ _ _ _).
  destruct (proj1 (wp_inv _ _ _) (wp_wake_procs wa R S D t (sched_rep_locks _ _ _ _ _ _ _ _ Hrep)))
    as ([] & wb & Hb & Hrepb & Pst & Pwk & Pset & Pc & Ps & Pk & Pi).
  exists wb. split; [exact Hb|]. split; [|done].
  split; try done.
  - by rewrite Pc.
  - apply elem_of_dom. change (cur ∈ proc_set wb). rewrite Pset. by apply elem_of_dom.
  - rewrite Pst, decide_False; [done|]. rewrite list_elem_of_filter. set_solver.
  - rewrite !elem_of_app, !list_elem_of_filter. set_solver.
Qed.

Lemma timer_run w wb t :
  (_ ← sched_postpone; wake_procs_before_timestamp t) w = Ret (tt, wb) →
  handle_timer away halted idle_fuel t w =
    (_ ← (if negb (quantum_remaining (sched wb) =? 0) then
            if quantum_remaining (sched wb) <=? tick_interval_ns (sched wb)
            then _ ← sched_lock; _ ← advance; sched_unlock
            else upd_sched (λ s, set_quantum s (quantum_remaining s - tick_interval_ns s))
          else mret tt);
     sched_resume away halted idle_fuel) wb.
Proof using Type.
  intros H. unfold handle_timer. rewrite <- (bind_assoc_run sched_postpone).
  rewrite (bind_run _ _ _ _ _ H). by erewrite bind_run by reflexivity.
Qed.

(** C37: [handle_timer] when the quantum runs out and a process is ready or
    becomes ready: the running process is pre-empted.  It goes behind all ready
    processes, the ones woken by this tick included, and the head of that queue
    is switched to, with interrupts off and both locks given back but one. *)
Theorem handle_timer_preempts w cur n R R' S D t :
  cpu w cur R S D → unlocked w →
  0 < quantum_remaining (sched w) ≤ tick_interval_ns (sched w) →
  R ++ filter (λ x, wake_time w x ≤ t) S = n :: R' →
  ∃ w1, handle_timer away halted idle_fuel t w = (_ ← (_ ← away; sti); sched_unlock) w1 ∧
    current w1 = n ∧ sched_rep w1 (R' ++ [cur]) (filter (λ x, t < wake_time w x) S) D ∧
    status_of w1 cur = PROC_STATUS_READY_TO_RUN ∧ quantum_remaining (sched w1) = QUANTUM_LENGTH ∧
    irq_lock_count (sched w1) = 1 ∧ switch_lock_count (sched w1) = 0 ∧ interrupts w1 = false.
Proof using Type.
  intros Hcpu Hun Hq HR. destruct (timer_wakes w cur R S D t Hcpu Hun)
    as (wb & Hb & [Hcur H0 Hex Hrun Hrep Hap] & Es & Ek & Ei).
  rewrite (timer_run _ _ _ Hb), Es.
  cbn [quantum_remaining tick_interval_ns set_switch_flag set_switch_count set_irq_count].
  replace (quantum_remaining (sched w) =? 0) with false by lia.
  replace (quantum_remaining (sched w) <=? _) with true by lia. cbn [negb].
  rewrite HR in Hrep, Hap. assert (n ≠ cur) as Hne by set_solver.
  assert (irq_lock_count (sched wb) = 1 ∧ switch_lock_count (sched wb) = 1) as [Hib Hsb] by (by rewrite Es).
  erewrite bind_run by (apply noted_switch; unfold locks_ok; lia). rewrite Hib, Hsb.
  match goal with |- context [sched_resume _ _ _ ?x] => set (wc := x) end.
  destruct (resume_switch wc cur n R' (filter (λ x, t < wake_time w x) S) D)
    as (w1 & Hres & [W1 W2 W3 W4 W5 W6 W7] & Hrep1 & _); try done; [by apply sched_rep_locks|].
  assert (status_of wc cur = PROC_STATUS_RUNNING) as Hstc by exact Hrun.
  exists w1. split; [exact Hres|]. unfold queued_again in Hrep1. rewrite Hstc in Hrep1.
  rewrite W1, W2, W5, W6, decide_False by done. split_and!; try done.
  by rewrite decide_True.
Qed.

(** [handle_timer] when the quantum is not over (or not armed): the due
    sleepers become ready, the quantum shrinks by one tick, the running process
    goes on, and every lock is given back. *)
Theorem handle_timer_continues w cur R S D t :
  cpu w cur R S D → unlocked w →
  (quantum_remaining (sched w) = 0 ∨ tick_interval_ns (sched w) < quantum_remaining (sched w)) →
  ∃ w', handle_timer away halted idle_fuel t w = Ret (tt, w') ∧
    cpu w' cur (R ++ filter (λ x, wake_time w x ≤ t) S) (filter (λ x, t < wake_time w x) S) D ∧
    unlocked w' ∧ interrupts w' = true ∧
    quantum_remaining (sched w') =
      (if quantum_remaining (sched w) =? 0 then 0
       else quantum_remaining (sched w) - tick_interval_ns (sched w)).
Proof using Type.
  intros Hcpu Hun Hq. destruct (timer_wakes w cur R S D t Hcpu Hun)
    as (wb & Hb & [Hcur H0 Hex Hrun Hrep Hap] & Es & Ek & Ei).
  rewrite (timer_run _ _ _ Hb), Es.
  cbn [quantum_remaining tick_interval_ns set_switch_flag set_switch_count set_irq_count].
  destruct (Z.eqb_spec (quantum_remaining (sched w)) 0) as [E|E]; cbn [negb];
    [|replace (quantum_remaining (sched w) <=? tick_interval_ns (sched w)) with false by lia];
    (erewrite bind_run by reflexivity; rewrite resume_run by (cbn; rewrite Es; cbn; lia);
     cbn [sched]; rewrite ?Es; cbn [set_quantum switch_lock_count switch_lock_flag irq_lock_count
       set_switch_flag set_switch_count set_irq_count]; change (1 =? 1) with true; cbn [andb];
     rewrite unlock_run by (cbn; rewrite ?Es; cbn; lia); eexists; split; [reflexivity|]).
  all: split; [by split; try done; eapply sched_rep_same; [| | |exact Hrep]|].
  all: unfold unlocked; cbn; rewrite ?Es; cbn; done.
Qed.

(** The running process with nobody to switch to keeps running. *)
Lemma advance_alone w cur S D :
  cpu w cur [] S D → switch_lock_count (sched w) = 0 →
  ∃ w', advance w = Ret (tt, w') ∧ cpu w' cur [] S D ∧
    sched w' = set_time_elapsed (sched w) (clock w) ∧ interrupts w' = interrupts w ∧
    other_queues w w' [] ∧ ∀ x, status_of w' x = status_of w x.
Proof using Type.
  intros [Hcur H0 [c Hc] Hrun Hrep Hap] Hsw. unfold schedule_advance.
  erewrite bind_run by reflexivity. replace (0 <? _) with false by lia.
  destruct (account_run w cur c Hcur H0 Hc) as (w1 & Hacc & P1 & Q1 & C1 & I1 & K1 & S1 & E1 & M1 & Kin1).
  rewrite (bind_run _ _ _ _ _ Hacc). erewrite (bind_run _ _ w1 cur w1) by (unfold gets; by rewrite C1).
  assert (status c = PROC_STATUS_RUNNING) as Hst
    by (unfold status_of in Hrun; by rewrite (field_at status 0 w cur c Hc) in Hrun).
  assert (links w1 = links w) as Hl1.
  { unfold links. rewrite P1, fmap_insert. apply insert_id. by rewrite lookup_fmap, Hc. }
  assert (sched_rep w1 [] S D) as Hrep1.
  { eapply sched_rep_same; [| |intros x|exact Hrep]; [done|done|].
    - unfold wake_time, field. rewrite P1. destruct (decide (x = cur)) as [->|];
        [by rewrite lookup_insert_eq, Hc|by rewrite lookup_insert_ne]. }
  destruct (proj1 (wp_inv _ _ _) (wp_empty _ _ _ (sr_ready _ _ _ _ Hrep1))) as (e & w2 & He & -> & ->).
  rewrite (bind_run _ _ _ _ _ He), (bool_decide_eq_true_2 _ eq_refl). cbn [negb].
  erewrite bind_run by (unfold load_proc; rewrite P1, lookup_insert_eq; reflexivity).
  cbn [status set_elapsed]. rewrite Hst. exists w1. split; [done|]. split; [|split; [done|split; [done|split]]].
  - split; try done; [rewrite P1, lookup_insert_eq; done|].
    unfold status_of, field. by rewrite P1, lookup_insert_eq.
  - by apply other_queues_same.
  - intros x. unfold status_of, field. rewrite P1. destruct (decide (x = cur)) as [->|];
      [by rewrite lookup_insert_eq, Hc|by rewrite lookup_insert_ne].
Qed.
End spec.

(** ** Fairness *)

(** Processes that yield one after the other: control comes back at once. *)
Fixpoint sched_yields (n : nat) : prog kworld unit :=
  match n with
  | O => mret tt
  | S n' => _ ← sched_yield (mret tt) (mret tt) 0; sched_yields n'
  end.

Definition all_ready (w : kworld) (R : list Z) : Prop :=
  ∀ x, x ∈ R → status_of w x = PROC_STATUS_READY_TO_RUN.

(** A running world in which no lock is held and everything queued is ready. *)
Record turn (w : kworld) (cur : Z) (R S D : list Z) : Prop := {
  tn_cpu : cpu w cur R S D;
  tn_unlocked : unlocked w;
  tn_ready : all_ready w R;
}.

Lemma turn_unlock w w1 cur R S D :
  cpu w1 cur R S D → irq_lock_count (sched w1) = 1 → switch_lock_count (sched w1) = 0 →
  switch_lock_flag (sched w1) = false → all_ready w1 R → w = with_locks w1 0 0 false true →
  sched_unlock w1 = Ret (tt, w) ∧ turn w cur R S D.
Proof.
  intros [C1 C2 C3 C4 C5 C6] Hi Hs Hf Ha ->. rewrite unlock_run by lia. rewrite Hi, Hs, Hf.
  split; [done|]. split; [|done|exact Ha]. split; try done. by apply sched_rep_locks.
Qed.

(** Lock counters do not matter to the queues. *)
Lemma other_queues_locks w a b c d w1 a' b' c' d' ps :
  other_queues (with_locks w a b c d) w1 ps → other_queues w (with_locks w1 a' b' c' d') ps.
Proof.
  intros (Q & S & M). split; [|done]. intros q l Hq Hl Hrep.
  eapply (qrep_same w1); [done|done|]. apply Q; [done|done|]. by eapply (qrep_same w).
Qed.

Lemma other_queues_mono w w1 ps ps' :
  other_queues w w1 ps → (∀ x, x ∈ ps → x ∈ ps') → other_queues w w1 ps'.
Proof.
  intros (Q & S & M) Hps. split; [|done]. intros q l Hq Hl. apply Q; [done|].
  intros x Hx Hx'. exact (Hl x Hx (Hps x Hx')).
Qed.

Lemma yield_step w cur R S D :
  turn w cur R S D →
  ∃ w' c' R', sched_yield (mret tt) (mret tt) 0 w = Ret (tt, w') ∧
    c' :: R' = R ++ [cur] ∧ turn w' c' R' S D ∧
    other_queues w w' (R ++ [cur]) ∧ (∀ x, x ∉ R ++ [cur] → status_of w' x = status_of w x).
Proof.
  intros [Hcpu (Hi & Hs & Hf) Ha]. pose proof Hcpu as [Hcur H0 Hex Hrun Hrep Hap].
  unfold sched_yield. rewrite (bind_run _ _ _ _ _ (lock_run w ltac:(unfold locks_ok; lia))).
  rewrite Hi, Hs, Hf. set (wa := with_locks w _ _ _ _).
  assert (cpu wa cur R S D) as Hcpua by (split; try done; by apply sched_rep_locks).
  destruct R as [|n R].
  - destruct (advance_alone (mret tt) (mret tt) 0 wa cur S D Hcpua eq_refl) as (w1 & Hr & Hc & Es & Ei & Ho & Hst).
    rewrite (bind_run _ _ _ _ _ Hr). exists (with_locks w1 0 0 false true), cur, [].
    destruct (turn_unlock _ w1 cur [] S D Hc ltac:(by rewrite Es) ltac:(by rewrite Es) ltac:(by rewrite Es)
      ltac:(intros x Hx; set_solver) eq_refl) as [-> Ht].
    split; [done|split; [done|split; [done|split; [|intros x _; exact (Hst x)]]]].
    apply (other_queues_locks w (0 + 1) 0 false false). eapply other_queues_mono; [exact Ho|set_solver].
  - assert (n ≠ cur) as Hne by set_solver.
    destruct (advance_switch (mret tt) (mret tt) 0 wa cur n R S D)
      as (w1 & Hr & [W1 W2 W3 W4 W5 W6 W7] & Hrep1 & Ho); try done; [apply Hcpua|].
    assert (queued_again wa cur = [cur]) as Hqa by (unfold queued_again; rewrite (cpu_running _ _ _ _ _ Hcpua); done).
    rewrite Hqa in Hrep1, Ho. set (w2 := with_locks w1 (irq_lock_count (sched w1)) (switch_lock_count (sched w1))
      (switch_lock_flag (sched w1)) true).
    assert (schedule_advance (mret tt) (mret tt) 0 wa = Ret (tt, w2)) as Hr2.
    { rewrite Hr. unfold mbind, prog_bind, mret, prog_ret, sti, set_interrupts, modify, w2, with_locks.
      by destruct w1 as [? ? ? [] ? ? ? ? ?]. }
    rewrite (bind_run _ _ _ _ _ Hr2). exists (with_locks w2 0 0 false true), n, (R ++ [cur]).
    assert (∀ x, x ∈ R ++ [cur] → status_of w2 x = PROC_STATUS_READY_TO_RUN) as Ha2.
    { intros x Hx. change (status_of w1 x = PROC_STATUS_READY_TO_RUN).
      assert (x ≠ n) as Hxn by (pose proof (sr_disjoint _ _ _ _ Hrep) as Hd; inversion Hd; set_solver).
      rewrite W2, decide_False by done. destruct (decide (x = cur)) as [->|Hxc];
        [by rewrite decide_True by (by split)|]. rewrite decide_False by tauto.
      apply Ha. set_solver. }
    destruct (turn_unlock (with_locks w2 0 0 false true) w2 n (R ++ [cur]) S D) as [-> Ht];
      try (unfold w2; cbn; rewrite W5; done); try done.
    2:{ split; [done|split; [done|split; [done|split]]].
        - apply (other_queues_locks w (0 + 1) 0 false false). eapply (other_queues_locks wa). exact Ho.
        - intros x Hx. change (status_of w1 x = status_of w x). rewrite W2, !decide_False by set_solver. done. }
    destruct (qrep_procs _ _ _ n (sr_ready _ _ _ _ Hrep) ltac:(set_solver)) as [Hn Hn0].
    split; try done.
    + apply elem_of_dom. change (n ∈ proc_set w1). rewrite W4. by apply elem_of_dom.
    + change (status_of w1 n = PROC_STATUS_RUNNING). rewrite W2, decide_True by done.
      change (status_of wa n) with (status_of w n). by rewrite (Ha n) by set_solver.
    + by apply sched_rep_locks.
    + pose proof (sr_disjoint _ _ _ _ Hrep) as Hd. inversion Hd. set_solver.
Qed.

(** C26: Round robin is fair.  When the running process and its successors yield
    [k] times, the processes have rotated by [k] places: for [k] up to their
    number the one at position [k] runs, so every ready process runs after at
    most as many yields as there are ready processes, and after a whole round
    the order is the first one again.  The other queues are untouched. *)
Theorem sched_yield_rotates w cur R S D k :
  turn w cur R S D → (k ≤ 1 + length R)%nat →
  ∃ w' c' R', sched_yields k w = Ret (tt, w') ∧ turn w' c' R' S D ∧
    c' :: R' = drop k (cur :: R) ++ take k (cur :: R).
Proof.
  revert w cur R. induction k as [|k IH]; intros w cur R Ht Hk.
  { exists w, cur, R. by rewrite app_nil_r. }
  destruct (yield_step w cur R S D Ht) as (w1 & c1 & R1 & Hy & E & Ht1 & _).
  assert (length R1 = length R) as Hl
    by (apply (f_equal length) in E; rewrite length_app in E; simpl in E; lia).
  destruct (IH w1 c1 R1 Ht1) as (w' & c' & R' & Hys & Ht' & E'); [lia|].
  exists w', c', R'. split; [|split; [done|]].
  - cbn [sched_yields]. by rewrite (bind_run _ _ _ _ _ Hy).
  - rewrite E', E. rewrite drop_app_le, take_app_le by lia. cbn. by rewrite <- (assoc app).
Qed.

End world.

(** ** A concrete kernel *)

(** Process 1 runs, 2 and 3 are ready, 4 and 5 sleep until 10 and 30. *)
Definition demo_cpu (q : Z) : kworld_of unit :=
  MkWorld {[ 1 := set_status (demo_proc 1 0) PROC_STATUS_RUNNING;
             2 := set_status (set_next (demo_proc 2 0) 3) PROC_STATUS_READY_TO_RUN;
             3 := set_status (set_next (demo_proc 3 0) 0) PROC_STATUS_READY_TO_RUN;
             4 := set_status (set_next (demo_proc 4 10) 5) PROC_STATUS_SLEEPING_TIMER;
             5 := set_status (set_next (demo_proc 5 30) 0) PROC_STATUS_SLEEPING_TIMER ]}
    {[ mp_ready_queue := MkQueue 2 3; mp_sleeping_queue := MkQueue 4 5;
       mp_ready_to_die_queue := MkQueue 0 0 ]}
    1 (set_quantum demo_sched q) 20 true ∅ ∅ tt.

(** Decide a representation of a concrete queue. *)
Ltac solve_qrep :=
  split; [done|reflexivity| |apply (bool_decide_unpack _); vm_compute; exact I];
  simpl; repeat first [done | split; [done|] | eexists; split; [reflexivity|]].

Lemma demo_cpu_rep q : cpu (demo_cpu q) 1 [2; 3] [4; 5] [].
Proof.
  split; [done|done|by eexists|done| |apply (bool_decide_unpack _); vm_compute; exact I].
  split; [solve_qrep|solve_qrep|solve_qrep|apply (bool_decide_unpack _); vm_compute; exact I|].
  repeat constructor; vm_compute; congruence.
Qed.

Lemma demo_unlocked q : unlocked (demo_cpu q).
Proof. done. Qed.

Lemma schedule_advance_round_robin_witness :
  ∃ w1, schedule_advance (mret tt) (mret tt) 0 (demo_cpu 0) = (_ ← mret tt; sti) w1 ∧
    current w1 = 2 ∧ sched_rep w1 [3; 1] [4; 5] [].
Proof.
  destruct (schedule_advance_round_robin (mret tt) (mret tt) 0 (demo_cpu 0) 1 2 [3] [4; 5] [])
    as (w1 & Hr & Hs & Hrep & _); [done|done|done|by eexists|apply demo_cpu_rep|done| |].
  { intros _. apply (demo_cpu_rep 0). }
  exists w1. split; [exact Hr|]. split; [apply Hs|exact Hrep].
Defined.

Lemma sleep_current_switches_witness :
  ∃ w1, sleep_current_ns (mret tt) (mret tt) 0 5 (demo_cpu 0) = (_ ← (_ ← mret tt; sti); sched_unlock) w1 ∧
    current w1 = 2 ∧ sched_rep w1 [3] [4; 1; 5] [].
Proof.
  destruct (sleep_current_switches (mret tt) (mret tt) 0 (demo_cpu 0) 1 2 [3] [4; 5] [] 5
    (demo_cpu_rep 0) (demo_unlocked 0)) as (w1 & Hr & Hc & Hrep & _).
  exists w1. split; [exact Hr|]. split; [exact Hc|exact Hrep].
Defined.

Lemma wake_procs_exact_witness :
  ∃ w', wake_procs_before_timestamp 20 (demo_cpu 0) = Ret (tt, w') ∧ sched_rep w' [2; 3; 4] [5] [].
Proof.
  destruct (wake_procs_exact (demo_cpu 0) [2; 3] [4; 5] [] 20) as (w' & Hr & Hrep & _);
    [apply demo_cpu_rep|].
  exists w'. split; [exact Hr|exact Hrep].
Defined.

Lemma handle_timer_preempts_witness :
  ∃ w1, handle_timer (mret tt) (mret tt) 0 20 (demo_cpu 50000) = (_ ← (_ ← mret tt; sti); sched_unlock) w1 ∧
    current w1 = 2 ∧ sched_rep w1 [3; 4; 1] [5] [].
Proof.
  destruct (handle_timer_preempts (mret tt) (mret tt) 0 (demo_cpu 50000) 1 2 [2; 3] [3; 4] [4; 5] [] 20
    (demo_cpu_rep 50000) (demo_unlocked 50000)) as (w1 & Hr & Hc & Hrep & _); [simpl; lia|reflexivity|].
  exists w1. split; [exact Hr|]. split; [exact Hc|exact Hrep].
Defined.

Lemma handle_timer_continues_witness :
  ∃ w', handle_timer (mret tt) (mret tt) 0 20 (demo_cpu 3000000) = Ret (tt, w') ∧
    cpu w' 1 [2; 3; 4] [5] [] ∧ quantum_remaining (sched w') = 2000000.
Proof.
  destruct (handle_timer_continues (mret tt) (mret tt) 0 (demo_cpu 3000000) 1 [2; 3] [4; 5] [] 20
    (demo_cpu_rep _) (demo_unlocked _)) as (w' & Hr & Hc & _ & _ & Hq); [simpl; lia|].
  exists w'. split; [exact Hr|]. split; [exact Hc|exact Hq].
Defined.

Lemma sched_yield_rotates_witness :
  ∃ w' c' R', sched_yields 2 (demo_cpu 0) = Ret (tt, w') ∧ turn w' c' R' [4; 5] [] ∧ c' :: R' = [3; 1; 2].
Proof.
  destruct (sched_yield_rotates (demo_cpu 0) 1 [2; 3] [4; 5] [] 2) as (w' & c' & R' & Hr & Ht & E).
  - split; [apply demo_cpu_rep|apply demo_unlocked|].
    intros x [->|[->|[]%not_elem_of_nil]%elem_of_cons]%elem_of_cons; reflexivity.
  - simpl; lia.
  - exists w', c', R'. split; [exact Hr|]. split; [exact Ht|exact E].
Defined.
