(* ===== verification/Semaphore.v ===== *)
(** * Semaphore: [kernel/mp/wait_queue.c], [semaphore.c] and [mutex.c]

    Wait queues put the running process to sleep and wake sleepers in order;
    a semaphore counts its holders and hands a released lock straight to the
    first waiter; a mutex is a semaphore with one lock.  The waiters' queue of
    the semaphore at [s] is the pair of pointers at [s + 8]. *)
From S2P Require Import Prelude ProcQueue Sched SchedSpec.

Section world.
Context {X : Type}.
Abbreviation kworld := (kworld_of X).
Implicit Types (w : kworld).

Section sem.
Context (away : prog kworld unit) (halted : prog kworld unit) (idle_fuel : nat).
Abbreviation resume := (sched_resume away halted idle_fuel).

(** ** [wait_queue.c] *)

Definition wait_queue_init (q : Z) : prog kworld unit :=
  if q =? 0 then mret tt else _ ← set_qhead q 0; set_qtail q 0.

Definition wait_queue_empty (q : Z) : prog kworld bool :=
  if q =? 0 then mret true else v ← load_queue q; mret (qhead v =? 0).

Definition enqueue_current (q : Z) : prog kworld unit :=
  cur ← gets current;
  if (q =? 0) || (cur =? 0) then mret tt
  else
    _ ← proc_set_next cur 0;
    v ← load_queue q;
    _ ← (if qhead v =? 0 then set_qhead q cur else proc_set_next (qtail v) cur);
    set_qtail q cur.

Definition wait_queue_sleep (q : Z) : prog kworld unit :=
  cur ← gets current;
  if (q =? 0) || (cur =? 0) then mret tt
  else
    _ ← sched_postpone;
    _ ← enqueue_current q;
    _ ← block_current_proc away halted idle_fuel PROC_STATUS_BLOCKED;
    resume.

Definition wait_queue_sleep_postponed (q : Z) : prog kworld unit :=
  cur ← gets current;
  if (q =? 0) || (cur =? 0) then mret tt
  else
    _ ← enqueue_current q;
    _ ← block_current_proc away halted idle_fuel PROC_STATUS_BLOCKED;
    _ ← resume;
    sched_postpone.

Definition wait_queue_wake_one (q : Z) : prog kworld Z :=
  if q =? 0 then mret 0
  else
    _ ← sched_postpone;
    v ← load_queue q;
    let p := qhead v in
    _ ← when (negb (p =? 0))
          (n ← proc_get_next p;
           _ ← set_qhead q n;
           v ← load_queue q;
           _ ← when (qhead v =? 0) (set_qtail q 0);
           _ ← proc_set_next p 0;
           wake_proc p);
    _ ← resume;
    mret p.

Fixpoint wake_all_loop (n : nat) (q : Z) : prog kworld unit :=
  match n with
  | O => diverge
  | S n' =>
      v ← load_queue q;
      let p := qhead v in
      if p =? 0 then mret tt
      else
        x ← proc_get_next p;
        _ ← set_qhead q x;
        _ ← proc_set_next p 0;
        _ ← wake_proc p;
        wake_all_loop n' q
  end.

Definition wait_queue_wake_all (q : Z) : prog kworld unit :=
  if q =? 0 then mret tt
  else
    _ ← sched_postpone;
    n ← walk_fuel;
    _ ← wake_all_loop n q;
    _ ← set_qtail q 0;
    resume.

(** ** [semaphore.c] *)

Definition waiters (s : Z) : Z := s + 8.
Definition set_semaphores (w : kworld) (m : gmap Z (Z * Z)) : kworld :=
  MkWorld (procs w) (queues w) (current w) (sched w) (clock w) (interrupts w) m (mutexes w) (ext w).
(** [limit] and [current_locks], both [uint8_t]. *)
Definition load_sem (s : Z) : prog kworld (Z * Z) := λ w, v ← deref (semaphores w !! s); Ret (v, w).
Definition set_locks (s lim n : Z) : prog kworld unit :=
  modify (λ w, set_semaphores w (<[s := (lim, u8 n)]> (semaphores w))).

(** [s] is what [slab_alloc] returned; its queue comes with it. *)
Definition semaphore_create (s limit : Z) : prog kworld Z :=
  _ ← when (negb (s =? 0))
        (_ ← set_locks s (u8 limit) 0;
         _ ← modify (λ w, set_queues w (<[waiters s := MkQueue 0 0]> (queues w)));
         wait_queue_init (waiters s));
  mret s.

Definition semaphore_lock (s : Z) : prog kworld unit :=
  _ ← sched_postpone;
  v ← load_sem s;
  _ ← (if snd v <? fst v then set_locks s (fst v) (snd v + 1)
       else wait_queue_sleep (waiters s));
  resume.

Definition semaphore_try_lock (s : Z) : prog kworld bool :=
  _ ← sched_postpone;
  v ← load_sem s;
  if snd v <? fst v then
    _ ← semaphore_lock s;
    _ ← resume;
    mret true
  else
    _ ← resume;
    mret false.

Definition semaphore_unlock (s : Z) : prog kworld unit :=
  _ ← sched_postpone;
  e ← wait_queue_empty (waiters s);
  _ ← (if negb e then _ ← wait_queue_wake_one (waiters s); mret tt
       else v ← load_sem s; set_locks s (fst v) (snd v - 1));
  resume.

(** ** [mutex.c] *)

Definition load_mutex (m : Z) : prog kworld Z := λ w, v ← deref (mutexes w !! m); Ret (v, w).
Definition mutex_lock (m : Z) : prog kworld unit := s ← load_mutex m; semaphore_lock s.
Definition mutex_try_lock (m : Z) : prog kworld bool := s ← load_mutex m; semaphore_try_lock s.
Definition mutex_unlock (m : Z) : prog kworld unit := s ← load_mutex m; semaphore_unlock s.
End sem.

(** ** The queue operations are the process queue's *)

Lemma enqueue_push w q : current w ≠ 0 →
  enqueue_current q w = proc_queue_push_tail q (current w) w.
Proof.
  intros H0. unfold enqueue_current, proc_queue_push_tail. erewrite bind_run by reflexivity.
  replace (current w =? 0) with false by lia. rewrite orb_false_r.
  destruct (q =? 0); [done|]. unfold mbind, prog_bind.
  destruct (proc_set_next (current w) 0 w) as [[[] w1]| | |]; try done.
  destruct (load_queue q w1) as [[v w2]| | |]; try done. by destruct (qhead v =? 0).
Qed.

(** [wait_queue_wake_one] pops the head and wakes it. *)
Lemma wake_one_pop away halted idle_fuel w q :
  q ≠ 0 →
  wait_queue_wake_one away halted idle_fuel q w =
    (_ ← sched_postpone;
     p ← proc_queue_pop_head q;
     _ ← wake_proc p;
     _ ← sched_resume away halted idle_fuel;
     mret p) w.
Proof.
  intros H0. unfold wait_queue_wake_one, proc_queue_pop_head. replace (q =? 0) with false by lia.
  unfold mbind, prog_bind, when.
  destruct (sched_postpone w) as [[[] w1]| | |]; try done.
  destruct (load_queue q w1) as [[v w2]| | |]; try done.
  destruct (Z.eqb_spec (qhead v) 0) as [E|E]; cbn [negb]; [by rewrite E|].
  destruct (proc_get_next (qhead v) w2) as [[n w3]| | |]; try done.
  destruct (set_qhead q n w3) as [[[] w4]| | |]; try done.
  destruct (load_queue q w4) as [[v' w5]| | |]; try done.
  destruct (if qhead v' =? 0 then _ else _) as [[[] w6]| | |]; try done.
  destruct (proc_set_next (qhead v) 0 w6) as [[[] w7]| | |]; try done.
Qed.

(** ** The scheduler's queues and one wait queue *)
Record waits (w : kworld) (R S D : list Z) (q : Z) (ws : list Z) : Prop := {
  wt_sched : sched_rep w R S D;
  wt_queue : qrep w q ws;
  wt_addr : q ≠ mp_ready_queue ∧ q ≠ mp_sleeping_queue ∧ q ≠ mp_ready_to_die_queue;
  wt_apart : ∀ x, x ∈ ws → x ∉ R ++ S ++ D;
}.

(** A relinking that leaves the sleeping and dying processes alone. *)
Lemma sched_rep_relinked w w' ps qs R R' S D :
  relinked w w' ps qs → sched_rep w R S D → qrep w' mp_ready_queue R' →
  mp_sleeping_queue ∉ qs → mp_ready_to_die_queue ∉ qs → (∀ x, x ∈ S ++ D → x ∉ ps) →
  NoDup (R' ++ S ++ D) → sched_rep w' R' S D.
Proof.
  intros Hrel [Hr Hs Hd Hdis Hso] Hr' H1 H2 Hps Hnd. split; [done| | |done|].
  - eapply qrep_relinked; [exact Hrel|exact Hs|done|]. intros x Hx. apply Hps. set_solver.
  - eapply qrep_relinked; [exact Hrel|exact Hd|done|]. intros x Hx. apply Hps. set_solver.
  - eapply sorted_ext; [|exact Hso]. intros x _. unfold wake_time.
    by rewrite (relinked_field sleep_until 0 w w' _ _ x (λ _ _, eq_refl) Hrel).
Qed.

Lemma waits_same w w' R S D q ws :
  links w' = links w → queues w' = queues w → (∀ x, wake_time w' x = wake_time w x) →
  waits w R S D q ws → waits w' R S D q ws.
Proof.
  intros Hl Hq Hw [H1 H2 H3 H4]. split; try done; [by eapply sched_rep_same|by eapply qrep_same].
Qed.

Lemma waits_status w p v st R S D q ws :
  procs w !! p = Some v → waits w R S D q ws →
  waits (set_procs w (<[p := set_status v st]> (procs w))) R S D q ws.
Proof.
  intros Hv. apply waits_same; [|done|].
  - by apply (links_update w p (λ v, set_status v st) v).
  - intros x. unfold wake_time. rewrite field_update. destruct (decide (x = p)) as [->|]; [|done].
    by rewrite (field_at sleep_until 0 w p v Hv).
Qed.

(** A process joins the waiters. *)
Lemma waits_join w R S D q ws p :
  waits w R S D q ws → is_Some (procs w !! p) → p ≠ 0 → p ∉ R ++ S ++ D → p ∉ ws →
  wp (proc_queue_push_tail q p) (λ _ w',
    waits w' R S D q (ws ++ [p]) ∧ relinked w w' (p :: ws) [q]) w.
Proof.
  intros [Hsr Hq (A1 & A2 & A3) Hap] Hp H0 Hf Hws.
  eapply wp_mono; [by apply wp_push_tail|]. intros [] w' [Hq' Hrel]. split; [|done].
  split; [|done|done|].
  - assert (∀ x, x ∈ R ++ S ++ D → x ∉ p :: ws) as Hx by (intros x Hx; specialize (Hap x); set_solver).
    eapply sched_rep_relinked; [exact Hrel|exact Hsr| |set_solver|set_solver| |apply Hsr].
    + eapply qrep_relinked; [exact Hrel|apply Hsr|set_solver|]. intros x Hxr. apply Hx. set_solver.
    + intros x Hxs. apply Hx. set_solver.
  - intros x Hx. specialize (Hap x). set_solver.
Qed.

(** The first waiter leaves. *)
Lemma waits_leave w R S D q p ws :
  waits w R S D q (p :: ws) →
  wp (proc_queue_pop_head q) (λ r w', r = p ∧ waits w' R S D q ws ∧ relinked w w' [p] [q]) w.
Proof.
  intros [Hsr Hq (A1 & A2 & A3) Hap]. eapply wp_mono; [by apply wp_pop_head|].
  intros r w' (-> & Hq' & Hrel & _). simpl in Hq', Hrel. split; [done|]. split; [|done].
  assert (∀ x, x ∈ R ++ S ++ D → x ∉ [p]) as Hx by (intros x Hx; specialize (Hap p); set_solver).
  split; [|done|done|].
  - eapply sched_rep_relinked; [exact Hrel|exact Hsr| |set_solver|set_solver| |apply Hsr].
    + eapply qrep_relinked; [exact Hrel|apply Hsr|set_solver|]. intros x Hxr. apply Hx. set_solver.
    + intros x Hxs. apply Hx. set_solver.
  - intros x Hxw. apply Hap. set_solver.
Qed.

(** A process joins the ready queue. *)
Lemma waits_ready w R S D q ws p :
  waits w R S D q ws → is_Some (procs w !! p) → p ≠ 0 → p ∉ R ++ S ++ D → p ∉ ws →
  wp (proc_queue_push_tail mp_ready_queue p) (λ _ w',
    waits w' (R ++ [p]) S D q ws ∧ relinked w w' (p :: R) [mp_ready_queue]) w.
Proof.
  intros [Hsr Hq (A1 & A2 & A3) Hap] Hp H0 Hf Hws.
  eapply wp_mono; [apply wp_push_tail; [apply Hsr|done|done|set_solver]|].
  intros [] w' [Hr' Hrel]. split; [|done].
  pose proof (sr_disjoint _ _ _ _ Hsr) as Hnd. rewrite !NoDup_app in Hnd.
  assert (∀ x, x ∈ S ++ D → x ∉ p :: R) as Hx by set_solver.
  split.
  - eapply sched_rep_relinked; [exact Hrel|exact Hsr|exact Hr'| | |exact Hx|].
    + unfold mp_sleeping_queue, mp_ready_queue. set_solver by lia.
    + unfold mp_ready_to_die_queue, mp_ready_queue. set_solver by lia.
    + rewrite !NoDup_app. pose proof (NoDup_singleton p). set_solver.
  - eapply qrep_relinked; [exact Hrel|exact Hq|set_solver|]. intros x Hxw. specialize (Hap x Hxw). set_solver.
  - done.
  - intros x Hxw. specialize (Hap x Hxw). set_solver.
Qed.

(** ** What a call changes besides queues and locks *)

Record same_but (w w' : kworld) (st : Z → Z) : Prop := {
  sb_status : ∀ x, status_of w' x = st x;
  sb_wake : ∀ x, wake_time w' x = wake_time w x;
  sb_set : proc_set w' = proc_set w;
  sb_rest : current w' = current w ∧ clock w' = clock w ∧
            semaphores w' = semaphores w ∧ mutexes w' = mutexes w;
}.

(** The status of [p] replaced. *)
Definition with_status (f : Z → Z) (p st : Z) (x : Z) : Z := if decide (x = p) then st else f x.

Lemma same_but_relinked w w' ps qs : relinked w w' ps qs → same_but w w' (status_of w).
Proof.
  intros Hrel. split.
  - intros x. unfold status_of. by rewrite (relinked_field status 0 w w' _ _ x (λ _ _, eq_refl) Hrel).
  - intros x. unfold wake_time. by rewrite (relinked_field sleep_until 0 w w' _ _ x (λ _ _, eq_refl) Hrel).
  - by eapply relinked_proc_set.
  - destruct Hrel as [_ _ _ (? & ? & ? & ? & ? & ? & ?)]. done.
Qed.

Lemma same_but_trans w w1 w2 st :
  same_but w w1 (status_of w) → same_but w1 w2 st → same_but w w2 st.
Proof.
  intros [S1 W1 P1 (C1 & K1 & M1 & X1)] [S2 W2 P2 (C2 & K2 & M2 & X2)].
  split; [done|intros x; by rewrite W2|congruence|split_and!; congruence].
Qed.

Lemma same_but_after w w1 w2 st :
  same_but w w1 st → same_but w1 w2 (status_of w1) → same_but w w2 st.
Proof.
  intros [S1 W1 P1 (C1 & K1 & M1 & X1)] [S2 W2 P2 (C2 & K2 & M2 & X2)].
  split; [intros x; by rewrite S2, S1|intros x; by rewrite W2|congruence|split_and!; congruence].
Qed.

Lemma same_but_locks w irq sw flag intr : same_but w (with_locks w irq sw flag intr) (status_of w).
Proof. by split. Qed.

Lemma same_but_status w p v st :
  procs w !! p = Some v →
  same_but w (set_procs w (<[p := set_status v st]> (procs w))) (with_status (status_of w) p st).
Proof.
  intros Hv. split; [| | |done].
  - intros x. unfold status_of, with_status. by rewrite field_update.
  - intros x. unfold wake_time. rewrite field_update. destruct (decide (x = p)) as [->|]; [|done].
    by rewrite (field_at sleep_until 0 w p v Hv).
  - by eapply proc_set_update.
Qed.

Lemma waits_locks w irq sw flag intr R S D q ws :
  waits w R S D q ws → waits (with_locks w irq sw flag intr) R S D q ws.
Proof. by apply waits_same. Qed.

(** Inside a postponed section: one lock held at least, interrupts off. *)
Record held (w : kworld) : Prop := {
  hd_ok : locks_ok w;
  hd_irq : 0 < irq_lock_count (sched w);
  hd_off : interrupts w = false;
}.

Lemma with_locks_id w flag intr :
  switch_lock_flag (sched w) = flag → interrupts w = intr →
  with_locks w (irq_lock_count (sched w)) (switch_lock_count (sched w)) flag intr = w.
Proof. intros <- <-. by destruct w as [? ? ? [] ? ? ? ? ?]. Qed.

Lemma with_locks_locks w a b c d a' b' c' d' :
  with_locks (with_locks w a b c d) a' b' c' d' = with_locks w a' b' c' d'.
Proof. by destruct w as [? ? ? [] ? ? ? ? ?]. Qed.

(** An inner [sched_unlock] leaves interrupts off. *)
Lemma unlock_inner w :
  1 < irq_lock_count (sched w) →
  sched_unlock w = Ret (tt, with_locks w (irq_lock_count (sched w) - 1) (switch_lock_count (sched w))
                              (switch_lock_flag (sched w)) (interrupts w)).
Proof. intros H. rewrite unlock_run by lia. by replace (_ =? 1) with false by lia. Qed.

(** [wake_proc] inside a postponed section. *)
Lemma wp_wake_proc w R S D q ws p :
  waits w R S D q ws → held w → is_Some (procs w !! p) → p ≠ 0 → p ∉ R ++ S ++ D → p ∉ ws →
  wp (wake_proc p) (λ _ w', waits w' (R ++ [p]) S D q ws ∧ sched w' = sched w ∧ interrupts w' = false ∧
    same_but w w' (with_status (status_of w) p PROC_STATUS_READY_TO_RUN)) w.
Proof.
  intros Hw [Hok Hi Hoff] [v Hv] H0 Hf Hws. unfold wake_proc. replace (p =? 0) with false by lia.
  apply wp_bind, wp_inv. eexists tt, _. split; [by apply lock_run|].
  set (w1 := with_locks w _ _ _ _).
  apply wp_bind. eapply wp_update_proc; [exact Hv|]. set (w2 := set_procs w1 _).
  assert (waits w2 R S D q ws) as Hw2 by (apply waits_status; [done|by apply waits_locks]).
  apply wp_bind. eapply wp_mono; [apply (waits_ready w2 R S D q ws p Hw2); [|done|done|done]|].
  { unfold w2. simpl. rewrite lookup_insert_eq. by eexists. }
  intros [] w3 [Hw3 Hrel]. destruct (rl_rest _ _ _ _ Hrel) as (_ & Hs3 & _ & Hi3 & _).
  apply wp_inv. eexists tt, _. split; [apply unlock_inner; rewrite Hs3; simpl; lia|].
  rewrite Hs3. split; [by apply waits_locks|]. split; [|split; [done|]].
  - simpl. rewrite Hs3. unfold w2, w1. simpl. rewrite Z.add_simpl_r. by destruct (sched w).
  - eapply same_but_after; [|apply same_but_locks].
    eapply same_but_after; [|by eapply same_but_relinked].
    eapply same_but_trans; [apply (same_but_locks w (irq_lock_count (sched w) + 1) (switch_lock_count (sched w))
      (switch_lock_flag (sched w)) false)|].
    by apply (same_but_status w1).
Qed.

(** ** The semaphore's state *)

(** The semaphore at [s] has [cnt] of its [lim] locks taken and [ws] wait for
    it; [cur] runs, [R] are ready, [S] sleep, [D] are to die. *)
Record sem_core (w : kworld) (s lim cnt cur : Z) (R S D ws : list Z) : Prop := {
  se_cpu : cpu w cur R S D;
  se_waits : waits w R S D (waiters s) ws;
  se_cur : cur ∉ ws;
  se_sem : semaphores w !! s = Some (lim, cnt);
  se_range : 0 ≤ cnt ≤ lim ∧ lim < 256;
  se_ready : all_ready w R;
  se_blocked : ∀ x, x ∈ ws → status_of w x = PROC_STATUS_BLOCKED;
}.

Definition sem_state (w : kworld) (s lim cnt cur : Z) (R S D ws : list Z) : Prop :=
  sem_core w s lim cnt cur R S D ws ∧ unlocked w.

Lemma sem_core_of w w' st s lim cnt cur R R' S D ws ws' :
  sem_core w s lim cnt cur R S D ws → same_but w w' st → waits w' R' S D (waiters s) ws' →
  st cur = PROC_STATUS_RUNNING → cur ∉ R' ++ S ++ D → cur ∉ ws' →
  (∀ x, x ∈ R' → st x = PROC_STATUS_READY_TO_RUN) → (∀ x, x ∈ ws' → st x = PROC_STATUS_BLOCKED) →
  sem_core w' s lim cnt cur R' S D ws'.
Proof.
  intros [[C1 C2 C3 C4 C5 C6] W1 W2 W3 W4 W5 W6] [St Wk Ps (Ec & Ek & Es & Em)] Hw' H1 H2 H3 H4 H5.
  split; [split| | | | | |]; try done.
  - congruence.
  - apply elem_of_dom. change (cur ∈ proc_set w'). rewrite Ps. by apply elem_of_dom.
  - by rewrite St.
  - apply Hw'.
  - by rewrite Es.
  - intros x Hx. rewrite St. by apply H4.
  - intros x Hx. rewrite St. by apply H5.
Qed.

Lemma sem_core_locks w irq sw flag intr s lim cnt cur R S D ws :
  sem_core w s lim cnt cur R S D ws → sem_core (with_locks w irq sw flag intr) s lim cnt cur R S D ws.
Proof.
  intros H. pose proof H as [[C1 C2 C3 C4 C5 C6] W1 W2 W3 W4 W5 W6].
  eapply sem_core_of; [exact H|apply same_but_locks|by apply waits_locks|done..].
Qed.

(** Another count. *)
Lemma sem_core_count w s lim cnt cnt' cur R S D ws :
  sem_core w s lim cnt cur R S D ws → 0 ≤ cnt' ≤ lim →
  sem_core (set_semaphores w (<[s := (lim, u8 cnt')]> (semaphores w))) s lim cnt' cur R S D ws.
Proof.
  intros [[C1 C2 C3 C4 C5 C6] W1 W2 W3 W4 W5 W6] Hc.
  split; [split| | | | | |]; try done; try lia.
  - by apply (sched_rep_same w).
  - by apply (waits_same w).
  - simpl. rewrite lookup_insert_eq. unfold u8. by rewrite Z.mod_small by lia.
Qed.

Section sem_spec.
Context (away : prog kworld unit) (halted : prog kworld unit) (idle_fuel : nat).
Abbreviation resume := (sched_resume away halted idle_fuel).
Abbreviation lock := (semaphore_lock away halted idle_fuel).
Abbreviation unlock := (semaphore_unlock away halted idle_fuel).
Abbreviation try_lock := (semaphore_try_lock away halted idle_fuel).

(** The outermost [sched_resume] with no switch noted. *)
Lemma resume_quiet w :
  irq_lock_count (sched w) = 1 → switch_lock_count (sched w) = 1 → switch_lock_flag (sched w) = false →
  resume w = Ret (tt, with_locks w 0 0 false true).
Proof using Type.
  intros Hi Hs Hf. rewrite resume_run by lia. rewrite Hf, andb_false_r, unlock_run by (cbn; lia).
  cbn [sched with_locks set_switch_flag set_switch_count set_irq_count irq_lock_count]. by rewrite Hi, Hs.
Qed.

(** An inner one only gives its locks back. *)
Lemma resume_inner w :
  1 < irq_lock_count (sched w) → 1 < switch_lock_count (sched w) →
  resume w = Ret (tt, with_locks w (irq_lock_count (sched w) - 1) (switch_lock_count (sched w) - 1)
                        (switch_lock_flag (sched w)) (interrupts w)).
Proof using Type.
  intros Hi Hs. rewrite resume_run by lia. replace (_ =? 1) with false by lia. cbn [andb].
  by rewrite unlock_inner by (cbn; lia).
Qed.

(** Joining a wait queue inside a postponed section: the process waits in the
    queue, blocked, and a switch is noted. *)
Lemma wp_join_blocked w cur R S D q ws :
  waits w R S D q ws → held w → 0 < switch_lock_count (sched w) →
  current w = cur → cur ≠ 0 → is_Some (procs w !! cur) → cur ∉ R ++ S ++ D → cur ∉ ws →
  wp (_ ← enqueue_current q; block_current_proc away halted idle_fuel PROC_STATUS_BLOCKED) (λ _ w',
    waits w' R S D q (ws ++ [cur]) ∧ sched w' = set_switch_flag (sched w) true ∧ interrupts w' = false ∧
    same_but w w' (with_status (status_of w) cur PROC_STATUS_BLOCKED)) w.
Proof using Type.
  intros Hw [Hok Hi Hoff] Hsw Hcur H0 Hex Hf Hws. apply wp_bind.
  unfold wp at 1. rewrite enqueue_push by congruence. rewrite Hcur.
  pose proof (waits_join w R S D q ws cur Hw Hex H0 Hf Hws) as Hj.
  apply wp_inv in Hj as ([] & w1 & -> & Hw1 & Hrel). destruct (rl_rest _ _ _ _ Hrel) as (C1 & S1 & _ & I1 & _).
  unfold block_current_proc, mp_block_proc. apply wp_bind, wp_gets. rewrite C1, Hcur.
  assert (is_Some (procs w1 !! cur)) as [v Hv].
  { apply elem_of_dom. change (cur ∈ proc_set w1). rewrite (relinked_proc_set _ _ _ _ Hrel). by apply elem_of_dom. }
  apply wp_bind, wp_inv. eexists tt, _. split; [apply lock_run; unfold locks_ok in *; by rewrite S1|].
  set (w2 := with_locks w1 _ _ _ _). apply wp_bind. eapply wp_update_proc; [exact Hv|].
  set (w3 := set_procs w2 _). apply wp_bind, wp_inv. eexists tt, _.
  split; [rewrite advance_postponed by (cbn; rewrite S1; lia); reflexivity|].
  apply wp_inv. eexists tt, _. split; [apply unlock_inner; cbn; rewrite S1; lia|].
  split; [|split; [|split; [done|]]].
  - apply waits_locks. eapply (waits_same w3); [done|done|done|]. by apply waits_status, waits_locks.
  - cbn. rewrite S1, Z.add_simpl_r. by destruct (sched w).
  - eapply same_but_trans; [by eapply same_but_relinked|].
    destruct (same_but_relinked _ _ _ _ Hrel) as [St _ _ _].
    destruct (same_but_status w1 cur v PROC_STATUS_BLOCKED Hv) as [A B C E].
    split; [|exact B|exact C|exact E]. intros x.
    transitivity (with_status (status_of w1) cur PROC_STATUS_BLOCKED x); [exact (A x)|].
    unfold with_status. by rewrite St.
Qed.

(** A world right after the outermost [sched_postpone]. *)
Lemma postponed w s lim cnt cur R S D ws :
  sem_state w s lim cnt cur R S D ws →
  ∃ w1, sched_postpone w = Ret (tt, w1) ∧ sem_core w1 s lim cnt cur R S D ws ∧ held w1 ∧
    irq_lock_count (sched w1) = 1 ∧ switch_lock_count (sched w1) = 1 ∧
    switch_lock_flag (sched w1) = false ∧ status_of w1 = status_of w.
Proof using Type.
  intros [Hc (Hi & Hs & Hf)]. eexists. split; [apply postpone_run; unfold locks_ok; lia|].
  rewrite Hi, Hs, Hf. split; [by apply sem_core_locks|]. split; [|done].
  split; [unfold locks_ok; cbn; lia|cbn; lia|done].
Qed.

(** The end of a call that noted no switch. *)
Lemma finished w s lim cnt cur R S D ws :
  sem_core w s lim cnt cur R S D ws → irq_lock_count (sched w) = 1 → switch_lock_count (sched w) = 1 →
  switch_lock_flag (sched w) = false →
  ∃ w', resume w = Ret (tt, w') ∧ sem_state w' s lim cnt cur R S D ws.
Proof using Type.
  intros Hc Hi Hs Hf. eexists. split; [by apply resume_quiet|]. split; [by apply sem_core_locks|done].
Qed.

Lemma load_sem_run w s lim cnt cur R S D ws :
  sem_core w s lim cnt cur R S D ws → load_sem s w = Ret ((lim, cnt), w).
Proof using Type. intros Hc. unfold load_sem. by rewrite (se_sem _ _ _ _ _ _ _ _ _ Hc). Qed.

(** A free lock is taken. *)
Lemma lock_free w s lim cnt cur R S D ws :
  sem_state w s lim cnt cur R S D ws → cnt < lim →
  ∃ w', lock s w = Ret (tt, w') ∧ sem_state w' s lim (cnt + 1) cur R S D ws.
Proof using Type.
  intros Hst Hlt. destruct (postponed _ _ _ _ _ _ _ _ _ Hst) as (w1 & Hp & Hc & _ & Hi & Hs & Hf & _).
  unfold semaphore_lock. rewrite (bind_run _ _ _ _ _ Hp), (bind_run _ _ _ _ _ (load_sem_run _ _ _ _ _ _ _ _ _ Hc)).
  cbn [fst snd]. replace (cnt <? lim) with true by lia. erewrite bind_run by reflexivity.
  destruct (se_range _ _ _ _ _ _ _ _ _ Hc).
  eapply finished; [eapply sem_core_count; [exact Hc|lia]|done|done|done].
Qed.

(** The last holder without waiters releases. *)
Lemma unlock_free w s lim cnt cur R S D :
  sem_state w s lim cnt cur R S D [] → 0 < cnt →
  ∃ w', unlock s w = Ret (tt, w') ∧ sem_state w' s lim (cnt - 1) cur R S D [].
Proof using Type.
  intros Hst Hlt. destruct (postponed _ _ _ _ _ _ _ _ _ Hst) as (w1 & Hp & Hc & _ & Hi & Hs & Hf & _).
  unfold semaphore_unlock. rewrite (bind_run _ _ _ _ _ Hp).
  pose proof (wp_empty _ _ _ (wt_queue _ _ _ _ _ _ (se_waits _ _ _ _ _ _ _ _ _ Hc))) as He.
  apply wp_inv in He as (e & ? & He & -> & ->).
  rewrite (bind_run (wait_queue_empty (waiters s)) _ _ _ _ He), (bool_decide_eq_true_2 _ eq_refl). cbn [negb].
  rewrite bind_assoc_run, (bind_run _ _ _ _ _ (load_sem_run _ _ _ _ _ _ _ _ _ Hc)). cbn [fst snd].
  erewrite bind_run by reflexivity. destruct (se_range _ _ _ _ _ _ _ _ _ Hc).
  eapply finished; [eapply sem_core_count; [exact Hc|lia]|done|done|done].
Qed.

(** [wait_queue_wake_one] inside a postponed section: the first waiter is ready. *)
Lemma wake_one_run w R S D q p ws :
  waits w R S D q (p :: ws) → held w → 0 < switch_lock_count (sched w) < 2 ^ 31 →
  irq_lock_count (sched w) < 2 ^ 31 →
  ∃ w', wait_queue_wake_one away halted idle_fuel q w = Ret (p, w') ∧ waits w' (R ++ [p]) S D q ws ∧
    sched w' = sched w ∧ interrupts w' = false ∧
    same_but w w' (with_status (status_of w) p PROC_STATUS_READY_TO_RUN).
Proof using Type.
  intros Hw [Hok Hirq Hoff] Hsw Hirq'. rewrite wake_one_pop by apply (wt_queue _ _ _ _ _ _ Hw).
  rewrite (bind_run _ _ _ _ _ (postpone_run w Hok)). set (w2 := with_locks w _ _ _ _).
  pose proof (waits_leave w2 _ _ _ _ _ _ (waits_locks _ _ _ _ _ _ _ _ _ _ Hw)) as Hl.
  apply wp_inv in Hl as (r & w3 & Hl & -> & Hw3 & Hrel).
  rewrite (bind_run _ _ _ _ _ Hl). destruct (rl_rest _ _ _ _ Hrel) as (_ & S3 & _ & I3 & _).
  destruct (qrep_procs _ _ _ p (wt_queue _ _ _ _ _ _ Hw) ltac:(set_solver)) as [Hpx Hp0].
  assert (NoDup (p :: ws)) as Hnd by apply (wt_queue _ _ _ _ _ _ Hw).
  assert (held w3) as Hh3.
  { unfold locks_ok in Hok. split; unfold locks_ok; rewrite ?S3, ?I3; cbn; done || lia. }
  destruct (proj1 (wp_inv _ _ _) (wp_wake_proc w3 R S D q ws p Hw3 Hh3
    ltac:(apply elem_of_dom; change (p ∈ proc_set w3); rewrite (relinked_proc_set _ _ _ _ Hrel);
          by apply elem_of_dom) Hp0
    ltac:(apply (wt_apart _ _ _ _ _ _ Hw); set_solver) ltac:(by inversion Hnd)))
    as ([] & w4 & Hwk & Hw4 & S4 & I4 & Hsb).
  rewrite (bind_run _ _ _ _ _ Hwk).
  erewrite bind_run by (apply resume_inner; rewrite S4, S3; cbn; lia).
  eexists. split; [reflexivity|]. split; [by apply waits_locks|]. split; [|split; [done|]].
  - cbn. rewrite S4, S3. cbn. rewrite !Z.add_simpl_r. by destruct (sched w).
  - eapply same_but_after; [|apply same_but_locks].
    apply (same_but_trans w w2); [apply same_but_locks|].
    destruct (same_but_relinked _ _ _ _ Hrel) as [St Wk Ps (R1 & R2 & R3 & R4)].
    destruct Hsb as [A B C (E1 & E2 & E3 & E4)].
    split; [|intros x; by rewrite B, Wk|by rewrite C, Ps|split_and!; congruence].
    intros x. rewrite A. unfold with_status. by rewrite St.
Qed.

(** A release with waiters hands the lock to the first of them. *)
Lemma unlock_handoff w s lim cnt cur R S D p ws :
  sem_state w s lim cnt cur R S D (p :: ws) →
  ∃ w', unlock s w = Ret (tt, w') ∧ sem_state w' s lim cnt cur (R ++ [p]) S D ws.
Proof using Type.
  intros Hst. destruct (postponed _ _ _ _ _ _ _ _ _ Hst) as (w1 & Hp & Hc & Hh & Hi & Hs & Hf & _).
  unfold semaphore_unlock. rewrite (bind_run _ _ _ _ _ Hp).
  pose proof Hc as [Hcpu Hw Hcw Hsem Hrg Har Hbl].
  pose proof (wp_empty _ _ _ (wt_queue _ _ _ _ _ _ Hw)) as He. apply wp_inv in He as (e & ? & He & -> & ->).
  rewrite (bind_run (wait_queue_empty (waiters s)) _ _ _ _ He), bool_decide_eq_false_2 by done. cbn [negb].
  destruct (wake_one_run w1 R S D (waiters s) p ws Hw Hh ltac:(lia) ltac:(lia)) as (w2 & Hwk & Hw2 & S2 & I2 & Hsb).
  rewrite bind_assoc_run, (bind_run _ _ _ _ _ Hwk). erewrite bind_run by reflexivity.
  assert (NoDup (p :: ws)) as [Hpw Hnd]%NoDup_cons by apply (wt_queue _ _ _ _ _ _ Hw).
  assert (p ≠ cur) as Hpc by set_solver.
  eapply finished; [|congruence..].
  eapply sem_core_of; [exact Hc|exact Hsb|exact Hw2|..]; unfold with_status.
  - rewrite decide_False by done. apply Hcpu.
  - pose proof (cpu_apart _ _ _ _ _ Hcpu). set_solver.
  - set_solver.
  - intros x Hx. destruct (decide (x = p)); [done|]. apply Har. set_solver.
  - intros x Hx. rewrite decide_False by set_solver. apply Hbl. set_solver.
Qed.

(** The switch noted by a process that joined the waiters. *)
Lemma blocked_switches w s lim cnt cur n R S D ws :
  irq_lock_count (sched w) = 1 → switch_lock_count (sched w) = 1 → switch_lock_flag (sched w) = true →
  current w = cur → cur ≠ 0 → is_Some (procs w !! cur) → cur ∈ ws →
  waits w (n :: R) S D (waiters s) ws → semaphores w !! s = Some (lim, cnt) → 0 ≤ cnt ≤ lim ∧ lim < 256 →
  all_ready w (n :: R) → (∀ x, x ∈ ws → status_of w x = PROC_STATUS_BLOCKED) →
  ∃ w1, resume w = (_ ← (_ ← away; sti); sched_unlock) w1 ∧
    sem_core w1 s lim cnt n R S D ws ∧ irq_lock_count (sched w1) = 1 ∧
    switch_lock_count (sched w1) = 0 ∧ switch_lock_flag (sched w1) = false ∧ interrupts w1 = false.
Proof using Type.
  intros Hi Hs Hf Hcur H0 Hex Hcw [Hsr Hq Ha Hap] Hsem Hrg Har Hbl.
  assert (n ≠ cur) as Hne by (specialize (Hap cur Hcw); set_solver).
  pose proof (Hbl cur Hcw) as Hb.
  destruct (resume_switch away halted idle_fuel w cur n R S D) as (w1 & Hres & [W1 W2 W3 W4 W5 W6 W7] & Hrep & Ho);
    try done; [by rewrite Hb|].
  exists w1. split; [exact Hres|]. split; [|by rewrite W5, W6].
  unfold queued_again in Hrep, Ho. rewrite Hb in Hrep, Ho.
  change (PROC_STATUS_BLOCKED =? PROC_STATUS_RUNNING) with false in Hrep, Ho. cbv iota in Hrep, Ho.
  rewrite app_nil_r in Hrep, Ho. destruct Ho as (Oq & Os & Om).
  pose proof (sr_disjoint _ _ _ _ Hsr) as Hnd. rewrite <- app_comm_cons, NoDup_cons in Hnd.
  destruct (qrep_procs _ _ _ n (sr_ready _ _ _ _ Hsr) ltac:(set_solver)) as [Hnx Hn0].
  assert (∀ x, status_of (with_locks w 1 0 false (interrupts w)) x = status_of w x) as Hst by done.
  assert (∀ x, x ∈ ws → x ≠ n ∧ x ∉ R ++ S ++ D) as Hap2 by (intros x Hx; specialize (Hap x Hx); set_solver).
  assert (∀ x, x ≠ n → status_of w1 x = status_of w x) as Hsame.
  { intros x Hx. rewrite W2, decide_False by done. rewrite decide_False; [done|].
    rewrite Hst, Hb. by intros [_ ?]. }
  split; [split| | | | | |]; try done.
  - apply elem_of_dom. change (n ∈ proc_set w1). rewrite W4. by apply elem_of_dom.
  - rewrite W2, decide_True, Hst by done. rewrite (Har n) by set_solver. done.
  - set_solver.
  - split; [done| |done|intros x Hx; apply Hap2, Hx].
    apply Oq; [apply Ha|intros x Hx; specialize (Hap2 x Hx); set_solver|done].
  - intros Hn. by destruct (Hap2 n Hn).
  - by rewrite Os.
  - intros x Hx. rewrite Hsame by set_solver. apply Har. set_solver.
  - intros x Hx. rewrite Hsame by apply Hap2, Hx. by apply Hbl.
Qed.

(** A full semaphore puts the caller at the end of its waiters and switches. *)
Lemma lock_full w s lim cur n R S D ws :
  sem_state w s lim lim cur (n :: R) S D ws →
  ∃ w1, lock s w = (_ ← (_ ← away; sti); sched_unlock) w1 ∧
    sem_core w1 s lim lim n R S D (ws ++ [cur]) ∧ irq_lock_count (sched w1) = 1 ∧
    switch_lock_count (sched w1) = 0 ∧ switch_lock_flag (sched w1) = false ∧ interrupts w1 = false.
Proof using Type.
  intros Hst. destruct (postponed _ _ _ _ _ _ _ _ _ Hst) as (w1 & Hp & Hc & Hh & Hi & Hs & Hf & _).
  unfold semaphore_lock. rewrite (bind_run _ _ _ _ _ Hp), (bind_run _ _ _ _ _ (load_sem_run _ _ _ _ _ _ _ _ _ Hc)).
  cbn [fst snd]. rewrite Z.ltb_irrefl. pose proof Hc as [[C1 C2 C3 C4 C5 C6] Hw Hcw Hsem Hrg Har Hbl].
  unfold wait_queue_sleep. rewrite bind_assoc_run. erewrite bind_run by reflexivity. rewrite C1.
  replace ((waiters s =? 0) || (cur =? 0)) with false
    by (pose proof (qr_ptr _ _ _ (wt_queue _ _ _ _ _ _ Hw)); lia).
  rewrite bind_assoc_run, (bind_run _ _ _ _ _ (postpone_run w1 (hd_ok _ Hh))). rewrite Hi, Hs, Hf.
  set (w2 := with_locks w1 _ _ _ _).
  destruct (proj1 (wp_inv _ _ _) (wp_join_blocked w2 cur (n :: R) S D (waiters s) ws
    (waits_locks _ _ _ _ _ _ _ _ _ _ Hw) ltac:(split; unfold locks_ok; cbn; done || lia)
    ltac:(cbn; lia) C1 C2 C3 C6 Hcw)) as ([] & w3 & Hj & Hw3 & S3 & I3 & [St Wk Ps (Ec & Ek & Es & Em)]).
  match goal with |- context [(?m ≫= _) w2] =>
    assert (m w2 = resume w3) as E by (rewrite <- (bind_assoc_run (enqueue_current _)), (bind_run _ _ _ _ _ Hj); done)
  end.
  rewrite (bind_cong _ _ _ _ _ E). clear E.
  erewrite bind_run by (apply resume_inner; rewrite S3; cbn; lia). rewrite S3.
  eapply (blocked_switches _ s lim lim cur n R S D (ws ++ [cur])); try done.
  - change (current w3 = cur). rewrite Ec. exact C1.
  - apply elem_of_dom. change (cur ∈ proc_set w3). rewrite Ps. by apply elem_of_dom.
  - set_solver.
  - by apply waits_locks.
  - change (semaphores w3 !! s = Some (lim, lim)). by rewrite Es.
  - intros x Hx. change (status_of w3 x = PROC_STATUS_READY_TO_RUN). rewrite St. unfold with_status.
    rewrite decide_False by (intros ->; set_solver). by apply Har.
  - intros x Hx. change (status_of w3 x = PROC_STATUS_BLOCKED). rewrite St. unfold with_status.
    destruct (decide (x = cur)); [done|]. apply Hbl. set_solver.
Qed.
End sem_spec.

(** ** The abstract semaphore *)

(** Who runs, who is ready, who holds a lock, who waits for one. *)
Record sem_abs := MkAbs {
  a_cur : Z; a_ready : list Z; a_holders : list Z; a_waiters : list Z
}.
Inductive sem_call := SLock | STryLock | SUnlock | SYield.

Fixpoint drop_one (x : Z) (l : list Z) : list Z :=
  match l with
  | [] => []
  | y :: l' => if decide (x = y) then l' else y :: drop_one x l'
  end.

(** A call of the process that runs, and its result; [None] when the call is not
    allowed: releasing a lock that is not held, or waiting when no process is
    ready to run. *)
Definition abs_call (lim : Z) (c : sem_call) (a : sem_abs) : option (Z * sem_abs) :=
  match c with
  | SLock =>
      if Z.of_nat (length (a_holders a)) <? lim
      then Some (1, MkAbs (a_cur a) (a_ready a) (a_holders a ++ [a_cur a]) (a_waiters a))
      else match a_ready a with
           | n :: R => Some (1, MkAbs n R (a_holders a) (a_waiters a ++ [a_cur a]))
           | [] => None
           end
  | STryLock =>
      if Z.of_nat (length (a_holders a)) <? lim
      then Some (1, MkAbs (a_cur a) (a_ready a) (a_holders a ++ [a_cur a]) (a_waiters a))
      else Some (0, a)
  | SUnlock =>
      if decide (a_cur a ∈ a_holders a) then
        match a_waiters a with
        | p :: ws => Some (1, MkAbs (a_cur a) (a_ready a ++ [p]) (drop_one (a_cur a) (a_holders a) ++ [p]) ws)
        | [] => Some (1, MkAbs (a_cur a) (a_ready a) (drop_one (a_cur a) (a_holders a)) [])
        end
      else None
  | SYield =>
      match a_ready a ++ [a_cur a] with
      | n :: R => Some (1, MkAbs n R (a_holders a) (a_waiters a))
      | [] => None
      end
  end.

Fixpoint abs_calls (lim : Z) (cs : list sem_call) (a : sem_abs) : option (list Z * sem_abs) :=
  match cs with
  | [] => Some ([], a)
  | c :: cs =>
      '(r, a1) ← abs_call lim c a;
      '(rs, a2) ← abs_calls lim cs a1;
      Some (r :: rs, a2)
  end.

(** The locks are never over-committed, and no process waits while one is free. *)
Definition abs_inv (lim : Z) (a : sem_abs) : Prop :=
  Z.of_nat (length (a_holders a)) ≤ lim ∧
  (a_waiters a ≠ [] → Z.of_nat (length (a_holders a)) = lim).

Lemma drop_one_length x l : x ∈ l → length l = S (length (drop_one x l)).
Proof.
  induction l as [|y l IH]; [set_solver|]. intros Hx. simpl. destruct (decide (x = y)) as [->|]; [done|].
  simpl. rewrite <- IH; [done|]. set_solver.
Qed.

Lemma abs_call_inv lim c a r a' : 0 ≤ lim → abs_inv lim a → abs_call lim c a = Some (r, a') → abs_inv lim a'.
Proof.
  intros Hl [H1 H2] Hc. unfold abs_inv. destruct c; cbn [abs_call] in Hc.
  - destruct (Z.ltb_spec (Z.of_nat (length (a_holders a))) lim) as [E|E].
    + injection Hc as <- <-. cbn. rewrite length_app. cbn. split; [lia|]. intros Hw. specialize (H2 Hw). lia.
    + destruct (a_ready a); [done|]. injection Hc as <- <-. cbn. split; lia.
  - destruct (Z.ltb_spec (Z.of_nat (length (a_holders a))) lim) as [E|E]; injection Hc as <- <-; [|done].
    cbn. rewrite length_app. cbn. split; [lia|]. intros Hw. specialize (H2 Hw). lia.
  - destruct (decide _) as [Hin|]; [|done]. pose proof (drop_one_length _ _ Hin) as Hd.
    destruct (a_waiters a) as [|p ws]; injection Hc as <- <-; cbn; rewrite ?length_app; cbn.
    + split; [lia|done].
    + specialize (H2 ltac:(done)). split; lia.
  - destruct (a_ready a ++ [a_cur a]); [done|]. by injection Hc as <- <-.
Qed.

(** ** Refinement *)

(** The calls, by processes that go on as soon as they are switched to. *)
Definition sem_exec (s : Z) (c : sem_call) : prog kworld Z :=
  match c with
  | SLock => _ ← semaphore_lock (mret tt) (mret tt) 0 s; mret 1
  | STryLock => b ← semaphore_try_lock (mret tt) (mret tt) 0 s; mret (if (b : bool) then 1 else 0)
  | SUnlock => _ ← semaphore_unlock (mret tt) (mret tt) 0 s; mret 1
  | SYield => _ ← sched_yield (mret tt) (mret tt) 0; mret 1
  end.

Fixpoint sem_run (s : Z) (cs : list sem_call) : prog kworld (list Z) :=
  match cs with
  | [] => mret []
  | c :: cs => r ← sem_exec s c; rs ← sem_run s cs; mret (r :: rs)
  end.

Definition sem_rep (w : kworld) (s lim : Z) (S D : list Z) (a : sem_abs) : Prop :=
  sem_state w s lim (Z.of_nat (length (a_holders a))) (a_cur a) (a_ready a) S D (a_waiters a).

(** [semaphore_try_lock]: the nested call of [semaphore_lock] finds the lock free. *)
Lemma try_lock_run away halted idle_fuel w s lim cnt cur R S D ws :
  sem_state w s lim cnt cur R S D ws →
  ∃ w', semaphore_try_lock away halted idle_fuel s w = Ret (cnt <? lim, w') ∧
    sem_state w' s lim (if cnt <? lim then cnt + 1 else cnt) cur R S D ws.
Proof.
  intros Hst. destruct (postponed _ _ _ _ _ _ _ _ _ Hst) as (w1 & Hp & Hc & Hh & Hi & Hs & Hf & _).
  unfold semaphore_try_lock. rewrite (bind_run _ _ _ _ _ Hp), (bind_run _ _ _ _ _ (load_sem_run _ _ _ _ _ _ _ _ _ Hc)).
  cbn [fst snd]. destruct (Z.ltb_spec cnt lim) as [E|E].
  - unfold semaphore_lock. rewrite bind_assoc_run, (bind_run _ _ _ _ _ (postpone_run w1 (hd_ok _ Hh))).
    set (w2 := with_locks w1 _ _ _ _).
    assert (sem_core w2 s lim cnt cur R S D ws) as Hc2 by (by apply sem_core_locks).
    rewrite bind_assoc_run, (bind_run _ _ _ _ _ (load_sem_run _ _ _ _ _ _ _ _ _ Hc2)). cbn [fst snd].
    replace (cnt <? lim) with true by lia. rewrite bind_assoc_run. erewrite bind_run by reflexivity.
    destruct (se_range _ _ _ _ _ _ _ _ _ Hc).
    erewrite bind_run by (apply resume_inner; cbn; lia).
    edestruct (finished away halted idle_fuel) as (w' & Hr & Hs'); [|..|rewrite (bind_run _ _ _ _ _ Hr); by exists w'].
    + apply sem_core_locks. eapply sem_core_count; [exact Hc2|lia].
    + cbn. rewrite Hi. done.
    + cbn. rewrite Hs. done.
    + cbn. exact Hf.
  - destruct (finished away halted idle_fuel w1 s lim cnt cur R S D ws Hc Hi Hs Hf) as (w' & Hr & Hs').
    rewrite (bind_run _ _ _ _ _ Hr). by exists w'.
Qed.

(** The tail of a blocking call in the process that was switched to. *)
Lemma resumed_unlock w s lim cnt cur R S D ws :
  sem_core w s lim cnt cur R S D ws → irq_lock_count (sched w) = 1 → switch_lock_count (sched w) = 0 →
  switch_lock_flag (sched w) = false →
  ∃ w', (_ ← (_ ← mret tt; sti); sched_unlock) w = Ret (tt, w') ∧ sem_state w' s lim cnt cur R S D ws.
Proof.
  intros Hc Hi Hs Hf. set (w1 := with_locks w 1 0 false true).
  assert ((_ ← mret tt; sti) w = Ret (tt, w1)) as E.
  { unfold mbind, prog_bind, mret, prog_ret, sti, set_interrupts, modify, w1, with_locks.
    destruct w as [? ? ? [] ? ? ? ? ?]. cbn in *. by subst. }
  rewrite (bind_run _ _ _ _ _ E), unlock_run by (cbn; lia). eexists. split; [reflexivity|].
  split; [by apply sem_core_locks, sem_core_locks|done].
Qed.

Lemma sem_yield w s lim cnt cur R S D ws :
  sem_state w s lim cnt cur R S D ws →
  ∃ w' c' R', sched_yield (mret tt) (mret tt) 0 w = Ret (tt, w') ∧ c' :: R' = R ++ [cur] ∧
    sem_state w' s lim cnt c' R' S D ws.
Proof.
  intros [[Hcpu [W1 W2 W3 W4] Hcw Hsem Hrg Har Hbl] Hun].
  destruct (yield_step w cur R S D) as (w' & c' & R' & Hy & E & [Hcpu' Hun' Har'] & (Oq & Os & Om) & Hst);
    [by split|].
  assert (∀ x, x ∈ ws → x ∉ R ++ [cur]) as Hap by (intros x Hx; specialize (W4 x Hx); set_solver).
  exists w', c', R'. split; [done|]. split; [done|]. split; [|done].
  assert (∀ x, x ∈ ws → x ∉ c' :: R') as Hap' by (by rewrite E).
  split; try done.
  - split; [apply Hcpu'| |done|].
    + apply Oq; [apply W3|exact Hap|done].
    + intros x Hx. specialize (W4 x Hx). specialize (Hap' x Hx). set_solver.
  - intros Hc. specialize (Hap' c' Hc). set_solver.
  - by rewrite Os.
  - intros x Hx. rewrite Hst by apply Hap, Hx. by apply Hbl.
Qed.

Lemma sem_exec_refines w s lim S D c a r a' :
  sem_rep w s lim S D a → abs_call lim c a = Some (r, a') →
  ∃ w', sem_exec s c w = Ret (r, w') ∧ sem_rep w' s lim S D a'.
Proof.
  unfold sem_rep. destruct a as [cur R H ws]. intros Hst Hc.
  pose proof (se_range _ _ _ _ _ _ _ _ _ (proj1 Hst)) as Hrg.
  destruct c; cbn [abs_call sem_exec a_cur a_ready a_holders a_waiters] in *.
  - destruct (Z.ltb_spec (Z.of_nat (length H)) lim) as [E|E].
    + injection Hc as <- <-. destruct (lock_free (mret tt) (mret tt) 0 _ _ _ _ _ _ _ _ _ Hst E) as (w' & Hr & Hs').
      rewrite (bind_run _ _ _ _ _ Hr). exists w'. split; [done|]. cbn. rewrite length_app. cbn.
      by replace (Z.of_nat (length H + 1)) with (Z.of_nat (length H) + 1) by lia.
    + destruct R as [|n R]; [done|]. injection Hc as <- <-.
      assert (Z.of_nat (length H) = lim) as El by lia. rewrite El in Hst.
      destruct (lock_full (mret tt) (mret tt) 0 _ _ _ _ _ _ _ _ _ Hst) as (w1 & Hr & Hc1 & I1 & S1 & F1 & _).
      destruct (resumed_unlock _ _ _ _ _ _ _ _ _ Hc1 I1 S1 F1) as (w' & Hu & Hs').
      rewrite Hu in Hr. rewrite (bind_run _ _ _ _ _ Hr). exists w'. split; [done|]. cbn. by rewrite El.
  - destruct (try_lock_run (mret tt) (mret tt) 0 _ _ _ _ _ _ _ _ _ Hst) as (w' & Hr & Hs').
    rewrite (bind_run _ _ _ _ _ Hr). exists w'.
    destruct (Z.ltb_spec (Z.of_nat (length H)) lim) as [E|E]; injection Hc as <- <-; (split; [done|]); [|done].
    cbn. rewrite length_app. cbn. by replace (Z.of_nat (length H + 1)) with (Z.of_nat (length H) + 1) by lia.
  - destruct (decide _) as [Hin|]; [|done]. pose proof (drop_one_length _ _ Hin) as Hd.
    destruct ws as [|p ws]; injection Hc as <- <-.
    + destruct (unlock_free (mret tt) (mret tt) 0 _ _ _ _ _ _ _ _ Hst) as (w' & Hr & Hs'); [lia|].
      rewrite (bind_run _ _ _ _ _ Hr). exists w'. split; [done|]. cbn.
      by replace (Z.of_nat (length (drop_one cur H))) with (Z.of_nat (length H) - 1) by lia.
    + destruct (unlock_handoff (mret tt) (mret tt) 0 _ _ _ _ _ _ _ _ _ _ Hst) as (w' & Hr & Hs').
      rewrite (bind_run _ _ _ _ _ Hr). exists w'. split; [done|]. cbn. rewrite length_app. cbn.
      by replace (Z.of_nat (length (drop_one cur H) + 1)) with (Z.of_nat (length H)) by lia.
  - destruct (sem_yield _ _ _ _ _ _ _ _ _ Hst) as (w' & c' & R' & Hr & E & Hs').
    rewrite <- E in Hc. injection Hc as <- <-. rewrite (bind_run _ _ _ _ _ Hr). by exists w'.
Qed.

Lemma sem_run_refines s lim S D cs w a rs a' :
  0 ≤ lim → sem_rep w s lim S D a → abs_inv lim a → abs_calls lim cs a = Some (rs, a') →
  ∃ w', sem_run s cs w = Ret (rs, w') ∧ sem_rep w' s lim S D a' ∧ abs_inv lim a'.
Proof.
  intros Hl. revert w a rs. induction cs as [|c cs IH]; intros w a rs Hrep Hinv Hrun; cbn [abs_calls] in Hrun.
  { injection Hrun as <- <-. by exists w. }
  destruct (abs_call lim c a) as [[r a1]|] eqn:Ec; [|done]. cbn in Hrun.
  destruct (abs_calls lim cs a1) as [[rs1 a2]|] eqn:Ecs; [|done]. cbn in Hrun. injection Hrun as <- <-.
  destruct (sem_exec_refines _ _ _ _ _ _ _ _ _ Hrep Ec) as (w1 & Hx & Hrep1).
  destruct (IH w1 a1 rs1 Hrep1 (abs_call_inv _ _ _ _ _ Hl Hinv Ec) Ecs) as (w' & Hr & Hrep' & Hinv').
  exists w'. split; [|done]. cbn [sem_run]. by rewrite (bind_run _ _ _ _ _ Hx), (bind_run _ _ _ _ _ Hr).
Qed.

(** C14: Every sequence of [semaphore_lock], [semaphore_try_lock],
    [semaphore_unlock] and [sched_yield] calls, by whichever process runs, does
    what the abstract semaphore does: [current_locks] is the number of holders,
    the wait queue holds the waiters in the order they came, blocked, a release
    hands the lock to the first of them and makes it ready, and a call on a full
    semaphore switches to the next ready process.  There are never more holders
    than the limit, and nobody waits while a lock is free. *)
Theorem semaphore_refines s lim S D cs w a rs a' :
  0 ≤ lim → sem_rep w s lim S D a → abs_inv lim a → abs_calls lim cs a = Some (rs, a') →
  ∃ w', sem_run s cs w = Ret (rs, w') ∧ sem_rep w' s lim S D a' ∧
    Z.of_nat (length (a_holders a')) ≤ lim ∧
    (a_waiters a' ≠ [] → Z.of_nat (length (a_holders a')) = lim).
Proof. exact (sem_run_refines s lim S D cs w a rs a'). Qed.

End world.

(** A mutex's semaphore at 8000, free; process 1 runs, 2 and 3 are ready. *)
Definition demo_sem : kworld_of unit :=
  MkWorld (procs (demo_cpu 0)) (<[8008 := MkQueue 0 0]> (queues (demo_cpu 0))) 1
    (sched (demo_cpu 0)) 20 true {[ 8000 := (1, 0) ]} {[ 9000 := 8000 ]} tt.

Lemma demo_sem_rep : sem_rep demo_sem 8000 1 [4; 5] [] (MkAbs 1 [2; 3] [] []).
Proof.
  assert (sched_rep demo_sem [2; 3] [4; 5] []) as Hsr.
  { split; [solve_qrep|solve_qrep|solve_qrep|apply (bool_decide_unpack _); vm_compute; exact I|].
    repeat constructor; vm_compute; congruence. }
  split; [|done]. split.
  - split; [done|done|by eexists|done|done|apply (bool_decide_unpack _); vm_compute; exact I].
  - split; [done|solve_qrep|done|intros x []%not_elem_of_nil].
  - apply not_elem_of_nil.
  - done.
  - cbn. lia.
  - intros x [->|[->|[]%not_elem_of_nil]%elem_of_cons]%elem_of_cons; reflexivity.
  - intros x []%not_elem_of_nil.
Qed.

Lemma semaphore_refines_witness :
  ∃ w', sem_run 8000 [SLock; SYield; SLock; STryLock; SYield; SUnlock] demo_sem
          = Ret ([1; 1; 1; 0; 1; 1], w') ∧
        sem_rep w' 8000 1 [4; 5] [] (MkAbs 1 [3; 2] [2] []).
Proof.
  destruct (semaphore_refines 8000 1 [4; 5] [] [SLock; SYield; SLock; STryLock; SYield; SUnlock] demo_sem
    (MkAbs 1 [2; 3] [] []) [1; 1; 1; 0; 1; 1] (MkAbs 1 [3; 2] [2] []))
    as (w' & Hr & Hs & _); [lia|exact demo_sem_rep|by split; cbn; [lia|]|reflexivity|].
  exists w'. split; [exact Hr|exact Hs].
Defined.
