(* ===== verification/Cstring.v ===== *)
(** * Cstring: [libc/string] and [libc/ctype]

    Memory is a finite map from addresses to bytes; reading or writing outside
    of it faults.  A loop over a string is bounded by the number of mapped bytes,
    which every terminated string respects.  [char] is signed on this target;
    bytes are kept unsigned and the code's comparisons of equal signedness do
    not depend on it. *)
From S2P Require Import Prelude.

Abbreviation mem := (gmap Z Z).
Definition loadb (p : Z) : prog mem Z := λ m, v ← deref (m !! p); Ret (v, m).
Definition storeb (p v : Z) : prog mem unit := _ ← loadb p; modify (λ m, <[p := u8 v]> m).
(** More than the length of every string in memory. *)
Definition string_fuel : prog mem nat := gets (λ m, S (size m)).

(** ** [ctype.h] *)
Definition isspace (c : Z) : bool :=
  (c =? 32) || (c =? 12) || (c =? 10) || (c =? 13) || (c =? 9) || (c =? 11).
Definition isprint (c : Z) : bool := (32 <=? c) && (c <=? 126).
Definition tolower (c : Z) : Z := if (65 <=? c) && (c <=? 90) then c + (97 - 65) else c.
Definition toupper (c : Z) : Z := if (97 <=? c) && (c <=? 122) then c - (97 - 65) else c.

(** ** [string.h] *)

Fixpoint strlen_loop (n : nat) (p len : Z) : prog mem Z :=
  match n with
  | O => diverge
  | S n' => c ← loadb (p + len); if c =? 0 then mret len else strlen_loop n' p (len + 1)
  end.
Definition strlen (p : Z) : prog mem Z := n ← string_fuel; strlen_loop n p 0.

Fixpoint strcmp_loop (n : nat) (a b : Z) : prog mem (Z * Z) :=
  match n with
  | O => diverge
  | S n' =>
      ca ← loadb a;
      if ca =? 0 then mret (a, b)
      else cb ← loadb b; if ca =? cb then strcmp_loop n' (a + 1) (b + 1) else mret (a, b)
  end.
Definition strcmp (a b : Z) : prog mem Z :=
  n ← string_fuel;
  '(a, b) ← strcmp_loop n a b;
  ca ← loadb a; cb ← loadb b; mret (ca - cb).

Fixpoint strncmp_loop (k : nat) (i a b : Z) : prog mem Z :=
  match k with
  | O => mret 0
  | S k' =>
      ac ← loadb (a + i);
      bc ← loadb (b + i);
      if negb (ac =? bc) then mret (ac - bc)
      else if ac =? 0 then mret 0 else strncmp_loop k' (i + 1) a b
  end.
Definition strncmp (a b len : Z) : prog mem Z := strncmp_loop (Z.to_nat len) 0 a b.

Fixpoint strcasecmp_loop (n : nat) (a b : Z) : prog mem Z :=
  match n with
  | O => diverge
  | S n' =>
      x ← loadb a; y ← loadb b;
      let ac := tolower x in
      let bc := tolower y in
      if negb (ac =? bc) || (ac =? 0) then mret (ac - bc)
      else strcasecmp_loop n' (a + 1) (b + 1)
  end.
Definition strcasecmp (a b : Z) : prog mem Z := n ← string_fuel; strcasecmp_loop n a b.

Fixpoint strncasecmp_loop (k : nat) (i a b : Z) : prog mem Z :=
  match k with
  | O => mret 0
  | S k' =>
      x ← loadb (a + i);
      y ← loadb (b + i);
      let ac := tolower x in
      let bc := tolower y in
      if negb (ac =? bc) then mret (ac - bc)
      else if ac =? 0 then mret 0 else strncasecmp_loop k' (i + 1) a b
  end.
Definition strncasecmp (a b len : Z) : prog mem Z := strncasecmp_loop (Z.to_nat len) 0 a b.

Fixpoint memcmp_loop (k : nat) (i a b : Z) : prog mem Z :=
  match k with
  | O => mret 0
  | S k' =>
      x ← loadb (a + i);
      y ← loadb (b + i);
      if x <? y then mret (-1) else if y <? x then mret 1 else memcmp_loop k' (i + 1) a b
  end.
Definition memcmp (a b size : Z) : prog mem Z := memcmp_loop (Z.to_nat size) 0 a b.

Fixpoint strchr_loop (n : nat) (p ch : Z) : prog mem Z :=
  match n with
  | O => diverge
  | S n' =>
      c ← loadb p;
      if c =? 0 then mret (if ch =? 0 then p else 0)
      else if c =? ch then mret p else strchr_loop n' (p + 1) ch
  end.
Definition strchr (p c : Z) : prog mem Z := n ← string_fuel; strchr_loop n p (u8 c).

Fixpoint strrchr_loop (n : nat) (p ch last : Z) : prog mem Z :=
  match n with
  | O => diverge
  | S n' =>
      c ← loadb p;
      let last := if c =? ch then p else last in
      if c =? 0 then mret last else strrchr_loop n' (p + 1) ch last
  end.
Definition strrchr (p c : Z) : prog mem Z := n ← string_fuel; strrchr_loop n p (u8 c) 0.

Fixpoint match_loop (n : nat) (h nd : Z) : prog mem (Z * Z) :=
  match n with
  | O => diverge
  | S n' =>
      ch ← loadb h;
      if ch =? 0 then mret (h, nd)
      else
        cn ← loadb nd;
        if (cn =? 0) || negb (ch =? cn) then mret (h, nd) else match_loop n' (h + 1) (nd + 1)
  end.
Fixpoint strstr_loop (n : nat) (fuel : nat) (hay needle : Z) : prog mem Z :=
  match n with
  | O => diverge
  | S n' =>
      c ← loadb hay;
      if c =? 0 then mret 0
      else
        '(_, nd) ← match_loop fuel hay needle;
        cn ← loadb nd;
        if cn =? 0 then mret hay else strstr_loop n' fuel (hay + 1) needle
  end.
Definition strstr (hay needle : Z) : prog mem Z :=
  c ← loadb needle;
  if c =? 0 then mret hay else n ← string_fuel; strstr_loop n n hay needle.

(** *** Copies *)

Fixpoint copy_up (k : nat) (i d s : Z) : prog mem unit :=
  match k with
  | O => mret tt
  | S k' => v ← loadb (s + i); _ ← storeb (d + i) v; copy_up k' (i + 1) d s
  end.
Fixpoint copy_down (k : nat) (d s : Z) : prog mem unit :=
  match k with
  | O => mret tt
  | S k' => v ← loadb (s + Z.of_nat k'); _ ← storeb (d + Z.of_nat k') v; copy_down k' d s
  end.
(** [memcpy.asm]: [rep movsb]. *)
Definition memcpy (d s size : Z) : prog mem Z := _ ← copy_up (Z.to_nat size) 0 d s; mret d.
Definition memmove (d s size : Z) : prog mem Z :=
  _ ← (if d <? s then copy_up (Z.to_nat size) 0 d s else copy_down (Z.to_nat size) d s);
  mret d.

Definition strcpy (d s : Z) : prog mem Z := n ← strlen s; memcpy d s (n + 1).

Fixpoint strncpy_pad (k : nat) (i d : Z) : prog mem unit :=
  match k with
  | O => mret tt
  | S k' => _ ← storeb (d + i) 0; strncpy_pad k' (i + 1) d
  end.
(** [k] is [n - i]. *)
Fixpoint strncpy_loop (k : nat) (i d s : Z) : prog mem unit :=
  match k with
  | O => mret tt
  | S k' =>
      c ← loadb (s + i);
      if c =? 0 then strncpy_pad k i d
      else _ ← storeb (d + i) c; strncpy_loop k' (i + 1) d s
  end.
Definition strncpy (d s n : Z) : prog mem Z := _ ← strncpy_loop (Z.to_nat n) 0 d s; mret d.

(** *** Tokens *)

(** Skip characters that are ([want]) or are not delimiters. *)
Fixpoint span_loop (n : nat) (want : bool) (delim p : Z) : prog mem Z :=
  match n with
  | O => diverge
  | S n' =>
      c ← loadb p;
      if c =? 0 then mret p
      else
        f ← strchr delim c;
        if Bool.eqb (negb (f =? 0)) want then span_loop n' want delim (p + 1) else mret p
  end.

(** The token and the new [*saveptr]; NULL leaves it as the code does. *)
Definition strtok_r (str delim save : Z) : prog mem (Z * Z) :=
  let token := if negb (str =? 0) then str else save in
  if token =? 0 then mret (0, save)
  else
    n ← string_fuel;
    token ← span_loop n true delim token;
    c ← loadb token;
    if c =? 0 then mret (0, token)
    else
      e ← span_loop n false delim token;
      ce ← loadb e;
      if negb (ce =? 0) then _ ← storeb e 0; mret (token, e + 1)
      else mret (token, e).

(** ** Strings in memory *)

Fixpoint cstr (m : mem) (p : Z) (s : list Z) : Prop :=
  match s with
  | [] => m !! p = Some 0
  | c :: s' => m !! p = Some c ∧ 0 < c < 256 ∧ cstr m (p + 1) s'
  end.

(** [k] mapped bytes from [p] on. *)
Definition mapped (m : mem) (p : Z) (k : nat) : Prop :=
  ∀ i, 0 ≤ i < Z.of_nat k → is_Some (m !! (p + i)).

Lemma mapped_size m p k : mapped m p k → (k ≤ size m)%nat.
Proof.
  intros Hm.
  assert (k = length (seqZ p (Z.of_nat k))) as -> by (rewrite length_seqZ; lia).
  rewrite <- (size_dom (D := gset Z)), <- (size_list_to_set (C := gset Z)) by apply NoDup_seqZ.
  apply subseteq_size. intros x Hx%elem_of_list_to_set%elem_of_seqZ. apply elem_of_dom.
  replace x with (p + (x - p)) by lia. apply Hm. lia.
Qed.

Lemma cstr_mapped m p s : cstr m p s → mapped m p (S (length s)).
Proof.
  revert p. induction s as [|c s IH]; intros p; cbn [cstr length].
  - intros H i Hi. replace (p + i) with p by lia. by eexists.
  - intros (Hc & _ & Hs) i Hi. destruct (decide (i = 0)) as [->|].
    + rewrite Z.add_0_r. by eexists.
    + replace (p + i) with (p + 1 + (i - 1)) by lia. apply (IH _ Hs). lia.
Qed.

Lemma cstr_fuel m p s : cstr m p s → (length s < size m)%nat.
Proof. intros H%cstr_mapped%mapped_size. lia. Qed.

Lemma cstr_first m p s : cstr m p s → m !! p = Some (default 0 (head s)).
Proof. destruct s; [done|]. by intros [? _]. Qed.

Lemma cstr_app m p s t : cstr m p (s ++ t) → cstr m (p + Z.of_nat (length s)) t.
Proof.
  revert p. induction s as [|c s IH]; intros p; cbn [app length].
  - by rewrite Z.add_0_r.
  - intros (_ & _ & Hs). apply IH in Hs. by replace (p + Z.of_nat (S (length s))) with (p + 1 + Z.of_nat (length s)) by lia.
Qed.

Lemma cstr_nonzero m p s : cstr m p s → Forall (λ c, 0 < c < 256) s.
Proof. revert p. induction s as [|c s IH]; intros p; [constructor|]. intros (_ & ? & ?). constructor; eauto. Qed.

Lemma wp_loadb p v (Q : Z → mem → Prop) m : m !! p = Some v → Q v m → wp (loadb p) Q m.
Proof. intros Hv HQ. unfold wp, loadb. by rewrite Hv. Qed.

(** A load in a run. *)
Lemma loadb_run {A} p v (f : Z → prog mem A) m : m !! p = Some v → (loadb p ≫= f) m = f v m.
Proof. intros Hv. apply bind_run. unfold loadb. by rewrite Hv. Qed.

Lemma fuel_run {A} (f : nat → prog mem A) m : (string_fuel ≫= f) m = f (S (size m)) m.
Proof. done. Qed.

(** ** Length and search *)

Lemma strlen_loop_run n m p len s :
  cstr m (p + len) s → (length s < n)%nat → strlen_loop n p len m = Ret (len + Z.of_nat (length s), m).
Proof.
  revert n len. induction s as [|c s IH]; intros [|n] len Hs Hn; cbn [length] in *; try lia;
    cbn [strlen_loop].
  - rewrite (loadb_run _ 0) by done. cbn. by rewrite Z.add_0_r.
  - destruct Hs as (Hc & Hr & Hs). rewrite (loadb_run _ c) by done. replace (c =? 0) with false by lia.
    rewrite IH; [f_equal; f_equal; lia| |lia]. by rewrite Z.add_assoc.
Qed.

Lemma strlen_run m p s : cstr m p s → strlen p m = Ret (Z.of_nat (length s), m).
Proof.
  intros Hs. unfold strlen. rewrite fuel_run. apply cstr_fuel in Hs as Hf.
  rewrite (strlen_loop_run _ _ _ _ s); [done|by rewrite Z.add_0_r|lia].
Qed.

(** The index of the first byte of [s ++ [0]] that equals [c]. *)
Fixpoint index_of (c : Z) (s : list Z) : option nat :=
  match s with
  | [] => if c =? 0 then Some 0%nat else None
  | x :: s' => if x =? c then Some 0%nat else S <$> index_of c s'
  end.

Definition ptr_at (p : Z) (o : option nat) : Z :=
  match o with Some i => p + Z.of_nat i | None => 0 end.

Lemma strchr_loop_run n m p c s :
  cstr m p s → (length s < n)%nat → strchr_loop n p c m = Ret (ptr_at p (index_of c s), m).
Proof.
  revert n p. induction s as [|x s IH]; intros [|n] p Hs Hn; cbn [length] in *; try lia;
    cbn [strchr_loop index_of].
  - rewrite (loadb_run _ 0) by done. cbn. destruct (c =? 0); cbn; [by rewrite Z.add_0_r|done].
  - destruct Hs as (Hx & Hr & Hs). rewrite (loadb_run _ x) by done. replace (x =? 0) with false by lia.
    destruct (x =? c); cbn [ptr_at]; [by rewrite Z.add_0_r|].
    rewrite IH by (done || lia). do 2 f_equal. destruct (index_of c s); cbn; lia.
Qed.

Lemma strchr_run m p c s : cstr m p s → strchr p c m = Ret (ptr_at p (index_of (u8 c) s), m).
Proof. intros Hs. unfold strchr. rewrite fuel_run. apply cstr_fuel in Hs as ?. apply strchr_loop_run; [done|lia]. Qed.

(** ** Comparison *)

(** Bytes compared after [f], [n] of them at most, up to the end. *)
Fixpoint str_ncmp (f : Z → Z) (n : nat) (s t : list Z) : Z :=
  match n with
  | O => 0
  | S n' =>
      let a := f (default 0 (head s)) in
      let b := f (default 0 (head t)) in
      if negb (a =? b) then a - b else if a =? 0 then 0 else str_ncmp f n' (tail s) (tail t)
  end.

(** A mapping that keeps the end of the string apart. *)
Record keeps_end (f : Z → Z) : Prop := {
  ke_zero : f 0 = 0;
  ke_pos : ∀ c, 0 < c < 256 → 0 < f c < 256;
}.
Lemma keeps_end_id : keeps_end (λ c, c).
Proof. by split. Qed.
Lemma keeps_end_tolower : keeps_end tolower.
Proof. split; [done|]. intros c Hc. unfold tolower. zbool; simpl; lia. Qed.

Lemma cstr_tail m p c s : cstr m p (c :: s) → cstr m (p + 1) s.
Proof. by intros (_ & _ & ?). Qed.

(** One step of all four comparisons: equal bytes that are not the end. *)
Lemma cmp_step f m a b s t :
  keeps_end f → cstr m a s → cstr m b t → f (default 0 (head s)) = f (default 0 (head t)) →
  f (default 0 (head s)) ≠ 0 → ∃ c d s' t', s = c :: s' ∧ t = d :: t' ∧ cstr m (a + 1) s' ∧ cstr m (b + 1) t'.
Proof.
  intros [K0 K1] Hs Ht E N. destruct s as [|c s], t as [|d t]; cbn in *; try congruence.
  exists c, d, s, t. tauto.
Qed.

Lemma strncmp_loop_run k i m a b s t :
  cstr m (a + i) s → cstr m (b + i) t →
  strncmp_loop k i a b m = Ret (str_ncmp (λ c, c) k s t, m).
Proof.
  revert i s t. induction k as [|k IH]; intros i s t Hs Ht; [done|]. cbn [strncmp_loop str_ncmp].
  rewrite (loadb_run _ _ _ _ (cstr_first _ _ _ Hs)), (loadb_run _ _ _ _ (cstr_first _ _ _ Ht)).
  destruct (Z.eqb_spec (default 0 (head s)) (default 0 (head t))) as [E|]; cbn [negb]; [|done].
  destruct (Z.eqb_spec (default 0 (head s)) 0) as [|N]; [done|].
  destruct (cmp_step _ _ _ _ _ _ keeps_end_id Hs Ht E N) as (c & d & s' & t' & -> & -> & Hs' & Ht').
  apply IH; by rewrite Z.add_assoc.
Qed.

Lemma strncasecmp_loop_run k i m a b s t :
  cstr m (a + i) s → cstr m (b + i) t →
  strncasecmp_loop k i a b m = Ret (str_ncmp tolower k s t, m).
Proof.
  revert i s t. induction k as [|k IH]; intros i s t Hs Ht; [done|]. cbn [strncasecmp_loop str_ncmp].
  rewrite (loadb_run _ _ _ _ (cstr_first _ _ _ Hs)), (loadb_run _ _ _ _ (cstr_first _ _ _ Ht)). cbv zeta.
  destruct (Z.eqb_spec (tolower (default 0 (head s))) (tolower (default 0 (head t)))) as [E|]; cbn [negb]; [|done].
  destruct (Z.eqb_spec (tolower (default 0 (head s))) 0) as [|N]; [done|].
  destruct (cmp_step _ _ _ _ _ _ keeps_end_tolower Hs Ht E N) as (c & d & s' & t' & -> & -> & Hs' & Ht').
  apply IH; by rewrite Z.add_assoc.
Qed.

Lemma strcasecmp_loop_run n m a b s t :
  cstr m a s → cstr m b t → (length s < n)%nat →
  strcasecmp_loop n a b m = Ret (str_ncmp tolower (S (length s)) s t, m).
Proof.
  revert a b s t. induction n as [|n IH]; intros a b s t Hs Ht Hn; [lia|]. cbn [strcasecmp_loop str_ncmp].
  rewrite (loadb_run _ _ _ _ (cstr_first _ _ _ Hs)), (loadb_run _ _ _ _ (cstr_first _ _ _ Ht)). cbv zeta.
  destruct (Z.eqb_spec (tolower (default 0 (head s))) (tolower (default 0 (head t)))) as [E|];
    cbn [negb orb]; [|done].
  destruct (Z.eqb_spec (tolower (default 0 (head s))) 0) as [Z0|N].
  { by rewrite <- E, Z.sub_diag. }
  destruct (cmp_step _ _ _ _ _ _ keeps_end_tolower Hs Ht E N) as (c & d & s' & t' & -> & -> & Hs' & Ht').
  cbn [length tail] in *. rewrite (IH _ _ _ _ Hs' Ht') by lia. done.
Qed.

Lemma strcmp_loop_run n m a b s t :
  cstr m a s → cstr m b t → (length s < n)%nat →
  ∃ a' b' s' t', strcmp_loop n a b m = Ret ((a', b'), m) ∧ cstr m a' s' ∧ cstr m b' t' ∧
    default 0 (head s') - default 0 (head t') = str_ncmp (λ c, c) (S (length s)) s t.
Proof.
  revert a b s t. induction n as [|n IH]; intros a b s t Hs Ht Hn; [lia|]. cbn [strcmp_loop str_ncmp].
  rewrite (loadb_run _ _ _ _ (cstr_first _ _ _ Hs)).
  destruct (Z.eqb_spec (default 0 (head s)) 0) as [E0|N].
  { exists a, b, s, t. split_and!; try done.
    rewrite E0. destruct (Z.eqb_spec 0 (default 0 (head t))); cbn; lia. }
  rewrite (loadb_run _ _ _ _ (cstr_first _ _ _ Ht)).
  destruct (Z.eqb_spec (default 0 (head s)) (default 0 (head t))) as [E|]; cbn [negb];
    [|by exists a, b, s, t].
  destruct (cmp_step _ _ _ _ _ _ keeps_end_id Hs Ht E N) as (c & d & s' & t' & -> & -> & Hs' & Ht').
  cbn [length tail] in *. destruct (IH _ _ _ _ Hs' Ht' ltac:(lia)) as (a' & b' & u & v & Hr & ?).
  by exists a', b', u, v.
Qed.

(** What the result says: zero for equal prefixes, otherwise the difference of
    the first bytes that differ. *)
Lemma str_ncmp_zero f n s t :
  keeps_end f → Forall (λ c, 0 < c < 256) s → Forall (λ c, 0 < c < 256) t →
  str_ncmp f n s t = 0 ↔ take n (f <$> s) = take n (f <$> t).
Proof.
  intros [K0 K1]. revert s t. induction n as [|n IH]; intros s t Hs Ht; [done|]. cbn [str_ncmp].
  destruct Hs as [|c s Hc Hs], Ht as [|d t Hd Ht]; cbn; rewrite ?K0; [done|..].
  - pose proof (K1 _ Hd). replace (0 =? f d) with false by lia. cbn. split; [lia|done].
  - pose proof (K1 _ Hc). replace (f c =? 0) with false by lia. cbn. split; [lia|done].
  - pose proof (K1 _ Hc). destruct (Z.eqb_spec (f c) (f d)) as [E|]; cbn [negb].
    + replace (f c =? 0) with false by lia. rewrite IH by done. rewrite E. split; [by intros ->|by intros [= ->]].
    + split; [lia|]. intros [= ? ?]. lia.
Qed.

Lemma str_ncmp_first f n s t u c d s' t' :
  keeps_end f → Forall (λ c, 0 < c < 256) s → (length u < n)%nat →
  f <$> s = u ++ s' → f <$> t = u ++ t' → default 0 (head s') = c → default 0 (head t') = d → c ≠ d →
  str_ncmp f n s t = c - d.
Proof.
  intros [K0 K1]. revert u s t. induction n as [|n IH]; intros u s t Hs Hn Es Et Hc Hd Hne; [lia|].
  cbn [str_ncmp]. destruct u as [|x u].
  - cbn [app] in *. subst s' t'.
    assert (∀ l, f (default 0 (head l)) = default 0 (head (f <$> l))) as Hh by (intros []; [exact K0|done]).
    rewrite !Hh, Hc, Hd. by rewrite (proj2 (Z.eqb_neq c d)).
  - destruct s as [|y s], t as [|z t]; [done..|]. injection Es as Ey Es. injection Et as Ez Et.
    cbn [head default from_option id tail]. rewrite Ey, Ez, Z.eqb_refl. cbn [negb].
    apply Forall_cons in Hs as [Hy Hs']. pose proof (K1 _ Hy).
    replace (x =? 0) with false by lia. eapply IH; [done| |done|done|done|done|done]. cbn in Hn. lia.
Qed.

(** ** Substrings *)

(** The first index at which [t] occurs in [s]. *)
Fixpoint find_sub (t s : list Z) : option nat :=
  match s with
  | [] => None
  | _ :: s' => if decide (t `prefix_of` s) then Some 0%nat else S <$> find_sub t s'
  end.

Lemma match_loop_run n m h nd s t :
  cstr m h s → cstr m nd t → (length s < n)%nat →
  ∃ h' nd' t', match_loop n h nd m = Ret ((h', nd'), m) ∧ cstr m nd' t' ∧ (t' = [] ↔ t `prefix_of` s).
Proof.
  revert h nd s t. induction n as [|n IH]; intros h nd s t Hs Ht Hn; [lia|]. cbn [match_loop].
  rewrite (loadb_run _ _ _ _ (cstr_first _ _ _ Hs)). destruct s as [|c s].
  { exists h, nd, t. split_and!; [done|done|]. split; [by intros ->|apply prefix_nil_inv]. }
  pose proof Hs as (_ & Hc & Hs'). cbn [head default from_option id]. replace (c =? 0) with false by lia.
  rewrite (loadb_run _ _ _ _ (cstr_first _ _ _ Ht)). destruct t as [|d t].
  { exists h, nd, []. cbn. split_and!; [done|done|]. split; [intros _; apply prefix_nil|done]. }
  pose proof Ht as (_ & Hd & Ht'). cbn [head default from_option id]. replace (d =? 0) with false by lia.
  destruct (Z.eqb_spec c d) as [->|Hne]; cbn [orb negb].
  - destruct (IH _ _ _ _ Hs' Ht') as (h' & nd' & t' & Hr & Hc' & Hp); [cbn in Hn; lia|].
    exists h', nd', t'. split_and!; [done|done|]. rewrite Hp. split; [apply prefix_cons|apply prefix_cons_inv_2].
  - exists h, nd, (d :: t). split_and!; [done|done|]. split; [done|]. intros Hp%prefix_cons_inv_1. congruence.
Qed.

Lemma strstr_loop_run n k m h nd s t :
  cstr m h s → cstr m nd t → (length s < n)%nat → (length s < k)%nat →
  strstr_loop n k h nd m = Ret (ptr_at h (find_sub t s), m).
Proof.
  revert h s. induction n as [|n IH]; intros h s Hs Ht Hn Hk; [lia|]. cbn [strstr_loop].
  rewrite (loadb_run _ _ _ _ (cstr_first _ _ _ Hs)). destruct s as [|c s]; [done|].
  pose proof Hs as (_ & Hc & Hs'). cbn [head default from_option id]. replace (c =? 0) with false by lia.
  destruct (match_loop_run k m h nd (c :: s) t Hs Ht Hk) as (h' & nd' & t' & Hr & Hc' & Hp).
  rewrite (bind_run _ _ _ _ _ Hr), (loadb_run _ _ _ _ (cstr_first _ _ _ Hc')). cbn [find_sub].
  destruct t' as [|x t'].
  - rewrite decide_True by tauto. cbn. by rewrite Z.add_0_r.
  - rewrite decide_False by (intros E%Hp; done). destruct Hc' as (_ & Hx & _). cbn [head default from_option id].
    replace (x =? 0) with false by lia. cbn in Hn, Hk. rewrite (IH _ _ Hs') by (done || lia).
    do 2 f_equal. destruct (find_sub t s); cbn; lia.
Qed.

(** [find_sub] is the first occurrence. *)
Lemma find_sub_spec t s :
  t ≠ [] →
  match find_sub t s with
  | Some i => t `prefix_of` drop i s ∧ ∀ j, (j < i)%nat → ¬ t `prefix_of` drop j s
  | None => ∀ j, ¬ t `prefix_of` drop j s
  end.
Proof.
  intros Ht. induction s as [|c s IH]; cbn [find_sub].
  { intros j Hp. rewrite drop_nil in Hp. apply prefix_nil_inv in Hp. done. }
  destruct (decide _) as [Hp|Hp]; [split; [done|lia]|].
  destruct (find_sub t s) as [i|]; cbn.
  - destruct IH as [H1 H2]. split; [done|]. intros [|j] Hj; [done|]. apply H2. lia.
  - intros [|j]; [done|apply IH].
Qed.

(** ** Copies *)

Definition bytes_ok (m : mem) : Prop := ∀ a v, m !! a = Some v → 0 ≤ v < 256.

(** [k] bytes from [s] are at [d] too; the rest of memory is as before. *)
Definition copied (m m' : mem) (d s : Z) (k : Z) : Prop :=
  ∀ x, m' !! x = if decide (d ≤ x < d + k) then m !! (s + (x - d)) else m !! x.

Lemma storeb_run {A} p v u (f : unit → prog mem A) m :
  m !! p = Some u → 0 ≤ v < 256 → (storeb p v ≫= f) m = f tt (<[p := v]> m).
Proof.
  intros Hu Hv. apply bind_run. unfold storeb. rewrite (loadb_run _ _ _ _ Hu).
  unfold modify, u8. by rewrite Z.mod_small by lia.
Qed.

Lemma bytes_ok_insert m p v : bytes_ok m → 0 ≤ v < 256 → bytes_ok (<[p := v]> m).
Proof. intros Hm Hv a x. rewrite lookup_insert_Some. intros [[_ <-]|[_ ?]]; eauto. Qed.

Lemma mapped_insert m p k a v : mapped m p k → mapped (<[a := v]> m) p k.
Proof.
  intros Hm i Hi. destruct (decide (p + i = a)) as [<-|];
    [rewrite lookup_insert_eq; by eexists|rewrite lookup_insert_ne by done; by apply Hm].
Qed.

(** Upwards: right when no byte is overwritten before it is read. *)
Lemma copy_up_run k i d s m :
  bytes_ok m → mapped m (s + i) k → mapped m (d + i) k → d ≤ s ∨ s + Z.of_nat k ≤ d →
  ∃ m', copy_up k i d s m = Ret (tt, m') ∧ copied m m' (d + i) (s + i) (Z.of_nat k).
Proof.
  revert i m. induction k as [|k IH]; intros i m Hb Hs Hd Hov; cbn [copy_up].
  { exists m. split; [done|]. intros x. by rewrite decide_False by lia. }
  destruct (Hs 0 ltac:(lia)) as [v Hv]. destruct (Hd 0 ltac:(lia)) as [u Hu]. rewrite Z.add_0_r in Hv, Hu.
  rewrite (loadb_run _ _ _ _ Hv), (storeb_run _ _ _ _ _ Hu) by eauto.
  destruct (IH (i + 1) (<[d + i := v]> m)) as (m' & Hr & Hc).
  - apply bytes_ok_insert; eauto.
  - apply mapped_insert. intros j Hj. replace (s + (i + 1) + j) with (s + i + (j + 1)) by lia. apply Hs. lia.
  - apply mapped_insert. intros j Hj. replace (d + (i + 1) + j) with (d + i + (j + 1)) by lia. apply Hd. lia.
  - lia.
  - exists m'. split; [done|]. intros x. rewrite Hc.
    destruct (decide (d + (i + 1) ≤ x < d + (i + 1) + Z.of_nat k)) as [Hx|Hx].
    + rewrite decide_True by lia. rewrite lookup_insert_ne by lia. f_equal. lia.
    + destruct (decide (x = d + i)) as [->|].
      * rewrite lookup_insert_eq, decide_True by lia. by rewrite Z.sub_diag, Z.add_0_r.
      * rewrite lookup_insert_ne, decide_False by lia. done.
Qed.

(** Downwards: right when the destination is not below the source. *)
Lemma copy_down_run k d s m :
  bytes_ok m → mapped m s k → mapped m d k → s ≤ d →
  ∃ m', copy_down k d s m = Ret (tt, m') ∧ copied m m' d s (Z.of_nat k).
Proof.
  revert m. induction k as [|k IH]; intros m Hb Hs Hd Hov; cbn [copy_down].
  { exists m. split; [done|]. intros x. by rewrite decide_False by lia. }
  destruct (Hs (Z.of_nat k) ltac:(lia)) as [v Hv]. destruct (Hd (Z.of_nat k) ltac:(lia)) as [u Hu].
  rewrite (loadb_run _ _ _ _ Hv), (storeb_run _ _ _ _ _ Hu) by eauto.
  destruct (IH (<[d + Z.of_nat k := v]> m)) as (m' & Hr & Hc).
  - apply bytes_ok_insert; eauto.
  - apply mapped_insert. intros j Hj. apply Hs. lia.
  - apply mapped_insert. intros j Hj. apply Hd. lia.
  - done.
  - exists m'. split; [done|]. intros x. rewrite Hc.
    destruct (decide (d ≤ x < d + Z.of_nat k)) as [Hx|Hx].
    + rewrite decide_True, lookup_insert_ne by lia. done.
    + destruct (decide (x = d + Z.of_nat k)) as [->|].
      * rewrite lookup_insert_eq, decide_True by lia. rewrite <- Hv. f_equal. lia.
      * rewrite lookup_insert_ne, decide_False by lia. done.
Qed.

(** ** Tokens *)

Fixpoint while_take (f : Z → bool) (s : list Z) : list Z :=
  match s with c :: s' => if f c then c :: while_take f s' else [] | [] => [] end.
Fixpoint while_drop (f : Z → bool) (s : list Z) : list Z :=
  match s with c :: s' => if f c then while_drop f s' else s | [] => [] end.

Lemma while_split f s : s = while_take f s ++ while_drop f s.
Proof. induction s as [|c s IH]; [done|]. cbn. destruct (f c); cbn; congruence. Qed.
Lemma while_take_all f s : Forall (λ c, f c = true) (while_take f s).
Proof. induction s as [|c s IH]; cbn; [done|]. destruct (f c) eqn:E; auto. Qed.
Lemma while_drop_head f s c r : while_drop f s = c :: r → f c = false.
Proof. induction s as [|x s IH]; cbn; [done|]. destruct (f x) eqn:E; [auto|]. by intros [= -> _]. Qed.

Definition is_delim (ds : list Z) (c : Z) : bool := bool_decide (c ∈ ds).

(** The maximal runs of characters that are not delimiters. *)
Fixpoint words (f : Z → bool) (s word : list Z) : list (list Z) :=
  match s with
  | [] => match word with [] => [] | _ => [word] end
  | c :: s' =>
      if f c then match word with [] => words f s' [] | _ => word :: words f s' [] end
      else words f s' (word ++ [c])
  end.

Lemma words_skip f s r : Forall (λ c, f c = true) s → words f (s ++ r) [] = words f r [].
Proof. induction 1 as [|c s Hc _ IH]; [done|]. cbn. by rewrite Hc. Qed.
Lemma words_grow f s r word : Forall (λ c, f c = false) s → words f (s ++ r) word = words f r (word ++ s).
Proof.
  intros Hs. revert word. induction Hs as [|c s Hc _ IH]; intros word; [by rewrite app_nil_r|].
  cbn. rewrite Hc, IH. by rewrite <- (assoc app).
Qed.

Lemma index_of_in c s : c ≠ 0 → (∃ i, index_of c s = Some i) ↔ c ∈ s.
Proof.
  intros Hc. induction s as [|x s IH]; cbn [index_of].
  - rewrite (proj2 (Z.eqb_neq c 0) Hc). split; [by intros []|set_solver].
  - destruct (Z.eqb_spec x c) as [->|Hne]; [split; [set_solver|by eexists]|].
    rewrite elem_of_cons. split.
    + intros [i Hi]. destruct (index_of c s); [|done]. right. apply IH. by eexists.
    + intros [->|Hin]; [done|]. apply IH in Hin as [i ->]. by eexists.
Qed.

Lemma strchr_delim m d ds c :
  cstr m d ds → 0 < d → 0 < c < 256 →
  ∃ f, strchr d c m = Ret (f, m) ∧ negb (f =? 0) = is_delim ds c.
Proof.
  intros Hd H0 Hc. eexists. split; [by apply strchr_run|]. unfold u8. rewrite Z.mod_small by lia.
  pose proof (index_of_in c ds ltac:(lia)) as Hin. unfold is_delim.
  destruct (index_of c ds) as [i|]; cbn [ptr_at].
  - rewrite bool_decide_eq_true_2 by (apply Hin; by eexists). destruct (Z.eqb_spec (d + Z.of_nat i) 0); [lia|done].
  - rewrite bool_decide_eq_false_2; [done|]. intros Hx. apply Hin in Hx as [? ?]. done.
Qed.

Lemma span_loop_run n want m d ds p s :
  cstr m d ds → 0 < d → cstr m p s → (length s < n)%nat →
  span_loop n want d p m =
    Ret (p + Z.of_nat (length (while_take (λ c, Bool.eqb (is_delim ds c) want) s)), m).
Proof.
  intros Hd H0. revert p s. induction n as [|n IH]; intros p s Hs Hn; [lia|]. cbn [span_loop].
  rewrite (loadb_run _ _ _ _ (cstr_first _ _ _ Hs)). destruct s as [|c s]; [cbn; by rewrite Z.add_0_r|].
  pose proof Hs as (_ & Hc & Hs'). cbn [head default from_option id while_take].
  replace (c =? 0) with false by lia. destruct (strchr_delim m d ds c Hd H0 Hc) as (f & Hf & Ef).
  rewrite (bind_run _ _ _ _ _ Hf), Ef. destruct (Bool.eqb (is_delim ds c) want); [|cbn; by rewrite Z.add_0_r].
  cbn in Hn. rewrite (IH _ _ Hs') by lia. do 2 f_equal. cbn [length]. lia.
Qed.

Lemma cstr_frame m m' p s :
  cstr m p s → (∀ x, p ≤ x ≤ p + Z.of_nat (length s) → m' !! x = m !! x) → cstr m' p s.
Proof.
  revert p. induction s as [|c s IH]; intros p Hs Hag; cbn [cstr length] in *.
  - rewrite Hag by lia. done.
  - destruct Hs as (Hc & Hr & Hs). rewrite Hag by lia. split_and!; try done; try lia.
    apply IH; [done|]. intros x Hx. apply Hag. lia.
Qed.

(** Cutting a string in two at a character. *)
Lemma cstr_cut m p t c r :
  cstr m p (t ++ c :: r) →
  let e := p + Z.of_nat (length t) in
  m !! e = Some c ∧ cstr (<[e := 0]> m) p t ∧ cstr (<[e := 0]> m) (e + 1) r.
Proof.
  cbv zeta. intros Hs. pose proof (cstr_app _ _ _ _ Hs) as (Hc & _ & Hr). split_and!; [done| |].
  - clear Hc Hr. revert p Hs. induction t as [|x t IH]; intros p; cbn [app length].
    + intros _. cbn. rewrite Z.add_0_r. by rewrite lookup_insert_eq.
    + intros (Hx & Hr & Hs). cbn [cstr]. rewrite lookup_insert_ne by lia. split_and!; [done|lia|lia|].
      replace (p + Z.of_nat (S (length t))) with (p + 1 + Z.of_nat (length t)) by lia. by apply IH.
  - eapply cstr_frame; [exact Hr|]. intros x Hx. apply lookup_insert_ne. lia.
Qed.

(** What one call of [strtok_r] leaves: the word, and the rest of the string. *)
Record token_step (m m' : mem) (p : Z) (s : list Z) (tok save : Z) (word rest : list Z) : Prop := {
  ts_word : cstr m' tok word;
  ts_rest : cstr m' save rest;
  ts_pos : p ≤ tok ∧ 0 < save;
  ts_end : tok + Z.of_nat (length word) < save ∨ rest = [];
  ts_len : save + Z.of_nat (length rest) = p + Z.of_nat (length s) ∧ (length rest < length s)%nat;
  ts_frame : ∀ x, x < p ∨ p + Z.of_nat (length s) ≤ x → m' !! x = m !! x;
}.

(** Skipping delimiters. *)
Lemma skip_words f s :
  let pre := while_take (λ c, Bool.eqb (f c) true) s in
  let r := while_drop (λ c, Bool.eqb (f c) true) s in
  (length s = length pre + length r)%nat ∧ words f s [] = words f r [] ∧
  (∀ m p, cstr m p s → cstr m (p + Z.of_nat (length pre)) r) ∧ (∀ c r', r = c :: r' → f c = false).
Proof.
  cbv zeta. pose proof (while_split (λ c, Bool.eqb (f c) true) s) as E.
  pose proof (while_take_all (λ c, Bool.eqb (f c) true) s) as Hall. split_and!.
  - rewrite E at 1. apply length_app.
  - rewrite E at 1. apply words_skip. eapply Forall_impl; [exact Hall|]. intros c Hc. by apply Bool.eqb_prop in Hc.
  - intros m p Hs. rewrite E in Hs. by apply cstr_app in Hs.
  - intros c r' Hr. apply while_drop_head in Hr. by destruct (f c).
Qed.

(** The word at the front, and what follows it. *)
Lemma take_word f c r :
  f c = false →
  ∃ word rest, while_take (λ c, Bool.eqb (f c) false) (c :: r) = word ∧ c :: r = word ++ rest ∧ word ≠ [] ∧
    ((rest = [] ∧ words f (word ++ rest) [] = word :: words f [] []) ∨
     ∃ x rest', rest = x :: rest' ∧ words f (word ++ rest) [] = word :: words f rest' []).
Proof.
  intros Hc. set (g := λ c, Bool.eqb (f c) false).
  pose proof (while_split g (c :: r)) as E. pose proof (while_take_all g (c :: r)) as Hall.
  assert (while_take g (c :: r) ≠ []) as Hne by (cbn; unfold g at 1; by rewrite Hc).
  exists (while_take g (c :: r)), (while_drop g (c :: r)). split_and!; [done|done|done|].
  rewrite words_grow by (eapply Forall_impl; [exact Hall|]; intros x Hx; by apply Bool.eqb_prop in Hx).
  cbn [app]. destruct (while_drop g (c :: r)) as [|x rest] eqn:Ed.
  - left. split; [done|]. cbn [words]. by destruct (while_take g (c :: r)).
  - right. exists x, rest. split; [done|]. apply while_drop_head in Ed.
    cbn [words]. assert (f x = true) as -> by (unfold g in Ed; by destruct (f x)).
    by destruct (while_take g (c :: r)).
Qed.

Lemma strtok_step m str save p s d ds :
  (if negb (str =? 0) then str else save) = p → 0 < p → cstr m p s → cstr m d ds → 0 < d →
  (words (is_delim ds) s [] = [] ∧ ∃ save', strtok_r str d save m = Ret ((0, save'), m)) ∨
  (∃ tok save' word rest m', strtok_r str d save m = Ret ((tok, save'), m') ∧
     words (is_delim ds) s [] = word :: words (is_delim ds) rest [] ∧
     token_step m m' p s tok save' word rest).
Proof.
  intros Ep Hp Hs Hd H0. unfold strtok_r. cbv zeta. rewrite Ep. replace (p =? 0) with false by lia.
  rewrite fuel_run. pose proof (cstr_fuel _ _ _ Hs) as Hf. set (f := is_delim ds).
  erewrite bind_run by (eapply span_loop_run; [exact Hd|done|exact Hs|lia]). fold f.
  destruct (skip_words f s) as (El & Ew & Hs2 & Hh).
  set (pre := while_take (λ c, Bool.eqb (f c) true) s) in *.
  apply Hs2 in Hs as Hr. set (tok := p + Z.of_nat (length pre)) in *.
  rewrite (loadb_run _ _ _ _ (cstr_first _ _ _ Hr)).
  destruct (while_drop (λ c, Bool.eqb (f c) true) s) as [|c r] eqn:Er.
  { left. split; [done|]. by eexists. }
  right. pose proof Hr as (_ & Hc & _). cbn [head default from_option id]. replace (c =? 0) with false by lia.
  specialize (Hh c r eq_refl).
  erewrite bind_run by (eapply span_loop_run; [exact Hd|done|exact Hr|cbn in *; lia]). fold f.
  destruct (take_word f c r Hh) as (word & rest & Etake & E2 & Hne & Hcase). rewrite Etake.
  rewrite E2 in Hr, El, Ew. rewrite length_app in El. destruct Hcase as [[-> Ew2]|(x & rest' & -> & Ew2)].
  - rewrite app_nil_r in Hr. cbn in El. pose proof (cstr_app m tok word [] ltac:(by rewrite app_nil_r)) as He.
    rewrite (loadb_run _ _ _ _ (cstr_first _ _ _ He)). cbn [head default from_option id negb Z.eqb].
    exists tok, (tok + Z.of_nat (length word)), word, [], m. split; [done|]. split; [by rewrite Ew, Ew2|].
    destruct word; [done|]. cbn in El |- *.
    split; cbn; [exact Hr|exact He|lia|by right|lia|done].
  - destruct (cstr_cut _ _ _ _ _ Hr) as (Hx & Hw & Hrest). cbn in El.
    rewrite (loadb_run _ _ _ _ Hx). pose proof (cstr_nonzero _ _ _ Hr) as Hnz.
    apply Forall_app in Hnz as [_ [Hx0 _]%Forall_cons]. replace (x =? 0) with false by lia. cbn [negb].
    rewrite (storeb_run _ _ _ _ _ Hx) by lia.
    eexists tok, _, word, rest', _. split; [reflexivity|]. split; [by rewrite Ew, Ew2|].
    split; [exact Hw|exact Hrest|lia|left; lia|lia|].
    intros y Hy. apply lookup_insert_ne. lia.
Qed.

(** The loop every caller writes: the first call gets the string, the others NULL. *)
Fixpoint strtok_all (n : nat) (str delim save : Z) : prog mem (list Z) :=
  match n with
  | O => diverge
  | S n' =>
      '(t, save) ← strtok_r str delim save;
      if t =? 0 then mret []
      else ts ← strtok_all n' 0 delim save; mret (t :: ts)
  end.

Lemma strtok_all_run n m str save p s d ds :
  (if negb (str =? 0) then str else save) = p → 0 < p → cstr m p s → cstr m d ds → 0 < d →
  d + Z.of_nat (length ds) < p ∨ p + Z.of_nat (length s) ≤ d → (length s < n)%nat →
  ∃ ts m', strtok_all n str d save m = Ret (ts, m') ∧
    Forall2 (cstr m') ts (words (is_delim ds) s []) ∧ Forall (λ t, p ≤ t) ts ∧
    ∀ x, x < p ∨ p + Z.of_nat (length s) ≤ x → m' !! x = m !! x.
Proof.
  revert m str save p s. induction n as [|n IH]; intros m str save p s Ep Hp Hs Hd H0 Hdis Hn; [lia|].
  cbn [strtok_all]. destruct (strtok_step m str save p s d ds Ep Hp Hs Hd H0)
    as [[-> [save' Hr]]|(tok & save' & word & rest & m1 & Hr & -> & [Tw Tr [Tp Ts] Te [Tl Tn] Tf])].
  { rewrite (bind_run _ _ _ _ _ Hr). by exists [], m. }
  rewrite (bind_run _ _ _ _ _ Hr). cbv beta iota. replace (tok =? 0) with false by lia.
  destruct (IH m1 0 save' save' rest) as (ts & m' & Hr2 & Hall & Hge & Hfr); try done; try lia.
  { eapply cstr_frame; [exact Hd|]. intros x Hx. apply Tf. lia. }
  rewrite (bind_run _ _ _ _ _ Hr2). exists (tok :: ts), m'. split; [done|]. split_and!.
  - constructor; [|done]. eapply cstr_frame; [exact Tw|]. intros x Hx. apply Hfr.
    destruct Te as [?| ->]; cbn in *; lia.
  - constructor; [done|]. eapply Forall_impl; [exact Hge|]. cbn. intros t Ht.
    pose proof (cstr_mapped _ _ _ Tw). lia.
  - intros x Hx. rewrite Hfr, Tf; [done| |]; lia.
Qed.

(** ** Theorems *)

(** [strcmp], [strncmp], [strcasecmp] and [strncasecmp] return on terminated
    strings and compare them byte by byte, the last two after [tolower]: the
    result is zero exactly when the compared prefixes agree, and otherwise the
    difference of the first bytes that differ, the end counting as 0. *)
Theorem string_comparisons m a b s t n :
  cstr m a s → cstr m b t →
  (strcmp a b m = Ret (str_ncmp (λ c, c) (S (length s)) s t, m) ∧
   strcasecmp a b m = Ret (str_ncmp tolower (S (length s)) s t, m) ∧
   strncmp a b (Z.of_nat n) m = Ret (str_ncmp (λ c, c) n s t, m) ∧
   strncasecmp a b (Z.of_nat n) m = Ret (str_ncmp tolower n s t, m)) ∧
  (∀ f k, f = (λ c, c) ∨ f = tolower →
    (str_ncmp f k s t = 0 ↔ take k (f <$> s) = take k (f <$> t)) ∧
    (∀ u s' t' c d, (length u < k)%nat → f <$> s = u ++ s' → f <$> t = u ++ t' →
       default 0 (head s') = c → default 0 (head t') = d → c ≠ d → str_ncmp f k s t = c - d)).
Proof.
  intros Hs Ht. pose proof (cstr_fuel _ _ _ Hs) as Hf. split; [split_and!|].
  - unfold strcmp. rewrite fuel_run.
    destruct (strcmp_loop_run (S (size m)) m a b s t Hs Ht ltac:(lia)) as (a' & b' & s' & t' & Hr & Hs' & Ht' & <-).
    rewrite (bind_run _ _ _ _ _ Hr). cbv beta iota.
    by rewrite (loadb_run _ _ _ _ (cstr_first _ _ _ Hs')), (loadb_run _ _ _ _ (cstr_first _ _ _ Ht')).
  - unfold strcasecmp. rewrite fuel_run. apply strcasecmp_loop_run; [done|done|lia].
  - unfold strncmp. rewrite Nat2Z.id. apply strncmp_loop_run; by rewrite Z.add_0_r.
  - unfold strncasecmp. rewrite Nat2Z.id. apply strncasecmp_loop_run; by rewrite Z.add_0_r.
  - intros f k Hf'. assert (keeps_end f) as Hk
      by (destruct Hf' as [-> | ->]; [apply keeps_end_id|apply keeps_end_tolower]).
    split; [by apply str_ncmp_zero; [|eapply cstr_nonzero..]|].
    intros. eapply str_ncmp_first; [done|by eapply cstr_nonzero|done..].
Qed.

(** [strstr] returns on terminated strings: the haystack itself for an empty
    needle, otherwise the address of the first occurrence of the needle, or NULL
    when it occurs nowhere. *)
Theorem strstr_first_occurrence m h nd s t :
  cstr m h s → cstr m nd t →
  ∃ r, strstr h nd m = Ret (r, m) ∧
    ((t = [] ∧ r = h) ∨
     (t ≠ [] ∧ ∃ i, r = h + Z.of_nat i ∧ t `prefix_of` drop i s ∧ ∀ j, (j < i)%nat → ¬ t `prefix_of` drop j s) ∨
     (t ≠ [] ∧ r = 0 ∧ ∀ j, ¬ t `prefix_of` drop j s)).
Proof.
  intros Hs Ht. unfold strstr. rewrite (loadb_run _ _ _ _ (cstr_first _ _ _ Ht)).
  pose proof (cstr_fuel _ _ _ Hs) as Hf. destruct t as [|c t]; [exists h; by split; [|left]|].
  pose proof Ht as (_ & Hc & _). cbn [head default from_option id]. replace (c =? 0) with false by lia.
  rewrite fuel_run, (strstr_loop_run _ _ _ _ _ _ _ Hs Ht) by lia. eexists. split; [reflexivity|]. right.
  pose proof (find_sub_spec (c :: t) s ltac:(done)) as Hsp. destruct (find_sub (c :: t) s) as [i|]; cbn.
  - left. split; [done|]. by exists i.
  - by right.
Qed.

(** [memmove] copies its source as it was before the call, whether or not
    the two blocks overlap and in whichever direction, and changes nothing else. *)
Theorem memmove_copies m d s n :
  bytes_ok m → mapped m s n → mapped m d n →
  ∃ m', memmove d s (Z.of_nat n) m = Ret (d, m') ∧
    ∀ x, m' !! x = if decide (d ≤ x < d + Z.of_nat n) then m !! (s + (x - d)) else m !! x.
Proof.
  intros Hb Hs Hd. unfold memmove. rewrite Nat2Z.id. destruct (Z.ltb_spec d s).
  - destruct (copy_up_run n 0 d s m Hb) as (m' & Hr & Hc); rewrite ?Z.add_0_r; try done; [lia|].
    rewrite (bind_run _ _ _ _ _ Hr). exists m'. split; [done|]. by rewrite !Z.add_0_r in Hc.
  - destruct (copy_down_run n d s m Hb Hs Hd ltac:(lia)) as (m' & Hr & Hc).
    rewrite (bind_run _ _ _ _ _ Hr). by exists m'.
Qed.

(** C38: Calling [strtok_r] with a string and then with NULL until it returns NULL
    yields, in order, exactly the maximal runs of characters that are not
    delimiters, each terminated in place, and no byte outside of the string
    changes. *)
Theorem strtok_r_splits m p s d ds save :
  0 < p → cstr m p s → 0 < d → cstr m d ds →
  d + Z.of_nat (length ds) < p ∨ p + Z.of_nat (length s) ≤ d →
  ∃ ts m', strtok_all (S (length s)) p d save m = Ret (ts, m') ∧
    Forall2 (cstr m') ts (words (is_delim ds) s []) ∧
    ∀ x, x < p ∨ p + Z.of_nat (length s) ≤ x → m' !! x = m !! x.
Proof.
  intros Hp Hs H0 Hd Hdis.
  destruct (strtok_all_run (S (length s)) m p save p s d ds) as (ts & m' & Hr & Hall & _ & Hf); try done.
  - by replace (p =? 0) with false by lia.
  - lia.
  - by exists ts, m'.
Qed.

(** ** A concrete memory *)

Definition put_str (p : Z) (s : list Z) (m : mem) : mem :=
  list_to_map (zip (seqZ p (Z.of_nat (length s) + 1)) (s ++ [0])) ∪ m.
(** At 100 the text [a,bb,,c], at 200 a comma, at 300 [B], at 400 [bb]. *)
Definition demo_mem : mem :=
  put_str 100 [97; 44; 98; 98; 44; 44; 99] (put_str 200 [44] (put_str 300 [66] (put_str 400 [98; 98] ∅))).

Ltac solve_cstr := vm_compute; repeat split; done || lia.

Lemma demo_text : cstr demo_mem 100 [97; 44; 98; 98; 44; 44; 99].
Proof. solve_cstr. Qed.
Lemma demo_comma : cstr demo_mem 200 [44].
Proof. solve_cstr. Qed.

Lemma string_comparisons_witness :
  strcmp 300 400 demo_mem = Ret (-32, demo_mem) ∧ strncasecmp 300 400 1 demo_mem = Ret (0, demo_mem).
Proof.
  destruct (string_comparisons demo_mem 300 400 [66] [98; 98] 1) as [(H1 & _ & _ & H4) _];
    [solve_cstr|solve_cstr|]. split; [exact H1|exact H4].
Defined.

Lemma strstr_first_occurrence_witness : strstr 100 400 demo_mem = Ret (102, demo_mem).
Proof.
  destruct (strstr_first_occurrence demo_mem 100 400 [97; 44; 98; 98; 44; 44; 99] [98; 98] demo_text)
    as (r & Hr & H); [solve_cstr|].
  rewrite Hr. transitivity (strstr 100 400 demo_mem); [by symmetry|vm_compute; reflexivity].
Defined.

Lemma memmove_copies_witness :
  ∃ m', memmove 102 100 5 demo_mem = Ret (102, m') ∧ m' !! 104 = Some 98 ∧ m' !! 106 = Some 44 ∧ m' !! 101 = Some 44.
Proof.
  destruct (memmove_copies demo_mem 102 100 5) as (m' & Hr & Hc).
  - intros a v Hv.
    assert (map_Forall (λ _ v, 0 ≤ v < 256) demo_mem) as Hall by (apply (bool_decide_unpack _); vm_compute; exact I).
    exact (Hall a v Hv).
  - intros i Hi. assert (i = 0 ∨ i = 1 ∨ i = 2 ∨ i = 3 ∨ i = 4) as Hcase by lia.
    destruct Hcase as [->|[->|[->|[->| ->]]]]; vm_compute; by eexists.
  - intros i Hi. assert (i = 0 ∨ i = 1 ∨ i = 2 ∨ i = 3 ∨ i = 4) as Hcase by lia.
    destruct Hcase as [->|[->|[->|[->| ->]]]]; vm_compute; by eexists.
  - exists m'. split; [exact Hr|]. rewrite !Hc. vm_compute. done.
Defined.

Lemma strtok_r_splits_witness :
  ∃ ts m', strtok_all 8 100 200 0 demo_mem = Ret (ts, m') ∧ Forall2 (cstr m') ts [[97]; [98; 98]; [99]].
Proof.
  destruct (strtok_r_splits demo_mem 100 [97; 44; 98; 98; 44; 44; 99] 200 [44] 0)
    as (ts & m' & Hr & Hall & _); [lia|exact demo_text|lia|exact demo_comma|right; vm_compute; discriminate|].
  exists ts, m'. split; [exact Hr|]. exact Hall.
Defined.
