(* ===== verification/Number.v ===== *)
(** * Number: [libc/stdlib/itoa.c], [utoa.c], [atoi.c] and [libc/stdio/sscanf.c]

    Numbers as text.  Signed overflow and division by zero are undefined in C and
    fault here. *)
From S2P Require Import Prelude Cstring.

Definition INT64_MIN : Z := - 2 ^ 63.
Definition INT_MAX : Z := 2 ^ 31 - 1.
Definition INT_MIN : Z := - 2 ^ 31.

(** The character of a digit, [a] to [z] above nine. *)
Definition digit_char (r : Z) : Z := if 9 <? r then r - 10 + 97 else r + 48.
(** The same with capitals: the string literal of [utoa.c]. *)
Definition digit_char_upper (r : Z) : outcome Z :=
  if (0 <=? r) && (r <? 16) then Ret (if 9 <? r then r - 10 + 65 else r + 48) else Fault.

(** The letter that names the base. *)
Definition base_letter (base : Z) : list Z :=
  if base =? 16 then [120] else if base =? 10 then [100]
  else if base =? 8 then [111] else if base =? 2 then [98] else [].

(** [dst[i++] = c] for each character in turn. *)
Fixpoint put_chars (dst i : Z) (cs : list Z) : prog mem Z :=
  match cs with
  | [] => mret i
  | c :: cs' => _ ← storeb (dst + i) c; put_chars dst (i + 1) cs'
  end.

(** The in-place reversal at the end of both functions. *)
Fixpoint reverse_loop (n : nat) (dst start stop : Z) : prog mem unit :=
  match n with
  | O => diverge
  | S n' =>
      if start <? stop then
        x ← loadb (dst + stop);
        y ← loadb (dst + start);
        _ ← storeb (dst + stop) y;
        _ ← storeb (dst + start) x;
        reverse_loop n' dst (start + 1) (stop - 1)
      else mret tt
  end.

(** C's [%] and [/] truncate towards zero. *)
Fixpoint itoa_digits (n : nat) (num base dst i : Z) : prog mem Z :=
  match n with
  | O => diverge
  | S n' =>
      if num =? 0 then mret i
      else
        _ ← storeb (dst + i) (digit_char (Z.rem num base));
        itoa_digits n' (Z.quot num base) base dst (i + 1)
  end.

Definition itoa (num dst base : Z) : prog mem Z :=
  if base =? 0 then fault
  else
    let neg := (num <? 0) && (base =? 10) in
    if neg && (num =? INT64_MIN) then fault
    else
      let num := if neg then - num else num in
      i ← (if num =? 0 then put_chars dst 0 [48] else itoa_digits 65 num base dst 0);
      i ← put_chars dst i (base_letter base);
      i ← put_chars dst i [48];
      i ← put_chars dst i (if neg && (base =? 10) then [45] else []);
      _ ← storeb (dst + i) 0;
      _ ← reverse_loop (S (Z.to_nat i)) dst 0 (i - 1);
      mret dst.

Fixpoint utoa_digits (n : nat) (num base dst i : Z) : prog mem Z :=
  match n with
  | O => diverge
  | S n' =>
      if num =? 0 then mret i
      else
        c ← lift (digit_char_upper (num mod base));
        _ ← storeb (dst + i) c;
        utoa_digits n' (num / base) base dst (i + 1)
  end.

Definition utoa (num dst base : Z) : prog mem Z :=
  if num =? 0 then
    _ ← storeb dst 48; _ ← storeb (dst + 1) 0; mret dst
  else if base =? 0 then fault
  else
    i ← utoa_digits 65 num base dst 0;
    i ← put_chars dst i (base_letter base);
    i ← put_chars dst i [48];
    _ ← storeb (dst + i) 0;
    _ ← reverse_loop (S (Z.to_nat i)) dst 0 (i - 1);
    mret dst.

(** ** [atoi] *)

Definition is_digit (c : Z) : bool := (48 <=? c) && (c <=? 57).
(** A signed result that must fit in an [int]. *)
Definition int_of (v : Z) : outcome Z := if (INT_MIN <=? v) && (v <=? INT_MAX) then Ret v else Fault.

Fixpoint skip_spaces (n : nat) (p : Z) : prog mem Z :=
  match n with
  | O => diverge
  | S n' => c ← loadb p; if isspace c then skip_spaces n' (p + 1) else mret p
  end.

Fixpoint atoi_digits (n : nat) (p value : Z) : prog mem Z :=
  match n with
  | O => diverge
  | S n' =>
      c ← loadb p;
      if is_digit c then
        v ← lift (int_of (value * 10));
        v ← lift (int_of (v + (c - 48)));
        atoi_digits n' (p + 1) v
      else mret value
  end.

Definition atoi (nptr : Z) : prog mem Z :=
  n ← string_fuel;
  p ← skip_spaces n nptr;
  c ← loadb p;
  let sign := if c =? 45 then -1 else 1 in
  let p := if (c =? 43) || (c =? 45) then p + 1 else p in
  v ← atoi_digits n p 0;
  mret (sign * v).

(** ** [sscanf.c] *)

(** [c] is a [char]: bytes above 127 are negative and in no range. *)
Definition digit_value (c base : Z) : option Z :=
  let v := if (48 <=? c) && (c <=? 57) then Some (c - 48)
           else if (97 <=? c) && (c <=? 102) then Some (c - 97 + 10)
           else if (65 <=? c) && (c <=? 70) then Some (c - 65 + 10)
           else None in
  match v with
  | Some v => if base <=? v then None else Some v
  | None => None
  end.

Fixpoint scan_digits (n : nat) (p base value : Z) (saw : bool) : prog mem (Z * Z * bool) :=
  match n with
  | O => diverge
  | S n' =>
      c ← loadb p;
      if c =? 0 then mret (p, value, saw)
      else match digit_value c base with
           | None => mret (p, value, saw)
           | Some d => scan_digits n' (p + 1) base (u32 (u32 (value * base) + d)) true
           end
  end.

(** [(int)value] of a 32-bit unsigned. *)
Definition to_int (v : Z) : Z := if INT_MAX <? v then v - 2 ^ 32 else v.

(** The new input pointer and the value, or [None] with nothing changed. *)
Definition scan_int (input base : Z) : prog mem (option (Z * Z)) :=
  c ← loadb input;
  let sign := if c =? 45 then -1 else 1 in
  let p := if (c =? 43) || (c =? 45) then input + 1 else input in
  c0 ← loadb p;
  hex ← (if ((base =? 0) || (base =? 16)) && (c0 =? 48)
         then c1 ← loadb (p + 1); mret ((c1 =? 120) || (c1 =? 88)) else mret false);
  let base' := if (hex : bool) then 16 else if (base =? 0) && (c0 =? 48) then 8
               else if base =? 0 then 10 else base in
  let p := if hex then p + 2 else p in
  n ← string_fuel;
  '(p, value, saw) ← scan_digits n p base' 0 false;
  if negb saw then mret None
  else
    v ← (if sign <? 0 then lift (int_of (- to_int value)) else mret (to_int value));
    mret (Some (p, v)).

Definition EINVAL : Z := 22.
Definition EOF : Z := -1.

(** The outputs are the pointers to assign to, the assignments are returned in
    order with the number of them and [errno]. *)
Fixpoint sscanf_loop (n : nat) (fuel : nat) (input fmt : Z) (outs : list Z) (done : list (Z * Z))
    : prog mem (Z * list (Z * Z) * Z) :=
  match n with
  | O => diverge
  | S n' =>
      let stop := mret (Z.of_nat (length done), done, 0) in
      c ← loadb fmt;
      if c =? 0 then stop
      else if isspace c then
        fmt ← skip_spaces fuel fmt;
        input ← skip_spaces fuel input;
        sscanf_loop n' fuel input fmt outs done
      else if negb (c =? 37) then
        i ← loadb input;
        if negb (i =? c) then stop else sscanf_loop n' fuel (input + 1) (fmt + 1) outs done
      else
        k ← loadb (fmt + 1);
        match (if k =? 100 then Some 10 else if k =? 105 then Some 0 else if k =? 111 then Some 8
               else if (k =? 120) || (k =? 88) then Some 16 else None) with
        | None => mret (Z.of_nat (length done), done, EINVAL)
        | Some base =>
            input ← skip_spaces fuel input;
            match outs with
            | [] => fault
            | out :: outs' =>
                r ← scan_int input base;
                match r with
                | None => stop
                | Some (input, v) => sscanf_loop n' fuel input (fmt + 2) outs' (done ++ [(out, v)])
                end
            end
        end
  end.

Definition sscanf (str fmt : Z) (outs : list Z) : prog mem (Z * list (Z * Z) * Z) :=
  if (str =? 0) || (fmt =? 0) then mret (EOF, [], EINVAL)
  else n ← string_fuel; sscanf_loop n n str fmt outs [].

(** ** Digits *)

(** The digits of [v], least significant first; none for zero. *)
Fixpoint digits_rev (n : nat) (base v : Z) : list Z :=
  match n with
  | O => []
  | S n' => if v =? 0 then [] else v mod base :: digits_rev n' base (v / base)
  end.

Fixpoint value_rev (base : Z) (ds : list Z) : Z :=
  match ds with [] => 0 | d :: ds' => d + base * value_rev base ds' end.

(** The text of a number, most significant digit first, [0] for zero. *)
Definition number_digits (base v : Z) : list Z :=
  if v =? 0 then [0] else rev (digits_rev 65 base v).
Definition number_text (base v : Z) : list Z := digit_char <$> number_digits base v.
Definition signed_text (v : Z) : list Z :=
  if v <? 0 then 45 :: number_text 10 (- v) else number_text 10 v.

Lemma digits_rev_range n base v : 2 ≤ base → 0 ≤ v → Forall (λ d, 0 ≤ d < base) (digits_rev n base v).
Proof.
  intros Hb. revert v. induction n as [|n IH]; intros v Hv; cbn [digits_rev]; [constructor|].
  destruct (v =? 0); [constructor|]. constructor; [apply Z.mod_pos_bound; lia|].
  apply IH. apply Z.div_pos; lia.
Qed.

Lemma digits_rev_value n base v : 2 ≤ base → 0 ≤ v < base ^ Z.of_nat n → value_rev base (digits_rev n base v) = v.
Proof.
  intros Hb. revert v. induction n as [|n IH]; intros v Hv; cbn [digits_rev].
  { change (Z.of_nat 0) with 0 in Hv. rewrite Z.pow_0_r in Hv. cbn. lia. }
  destruct (Z.eqb_spec v 0) as [->|]; [done|]. cbn [value_rev]. rewrite IH.
  - pose proof (Z.div_mod v base ltac:(lia)). lia.
  - split; [apply Z.div_pos; lia|]. apply Z.div_lt_upper_bound; [lia|].
    rewrite Nat2Z.inj_succ, Z.pow_succ_r in Hv by lia. lia.
Qed.

Lemma digits_rev_nonempty n base v : v ≠ 0 → (0 < n)%nat → digits_rev n base v ≠ [].
Proof. destruct n; [lia|]. intros Hv _. cbn. by rewrite (proj2 (Z.eqb_neq v 0) Hv). Qed.

(** 64 bits have at most 64 digits in any base. *)
Lemma pow_bound base v n : 2 ≤ base → 0 ≤ v < 2 ^ Z.of_nat n → 0 ≤ v < base ^ Z.of_nat n.
Proof. intros Hb [H0 H1]. split; [done|]. eapply Z.lt_le_trans; [exact H1|]. apply Z.pow_le_mono_l; lia. Qed.

(** Reading digits, most significant first. *)
Definition read_digits (base acc : Z) (ds : list Z) : Z := fold_left (λ a d, a * base + d) ds acc.

Lemma read_digits_rev base ds acc :
  read_digits base acc (rev ds) = acc * base ^ Z.of_nat (length ds) + value_rev base ds.
Proof.
  revert acc. induction ds as [|d ds IH]; intros acc; cbn [rev value_rev length].
  - unfold read_digits. cbn. lia.
  - unfold read_digits in *. rewrite fold_left_app, IH. cbn [fold_left].
    replace (Z.of_nat (S (length ds))) with (Z.succ (Z.of_nat (length ds))) by lia.
    rewrite Z.pow_succ_r by lia. ring.
Qed.

Lemma number_digits_read base v :
  2 ≤ base → 0 ≤ v < 2 ^ 64 → read_digits base 0 (number_digits base v) = v.
Proof.
  intros Hb Hv. unfold number_digits. destruct (Z.eqb_spec v 0) as [->|]; [done|].
  rewrite read_digits_rev, digits_rev_value; [lia|done|]. apply (pow_bound _ _ 65); [done|]. cbn. lia.
Qed.

Lemma number_digits_range base v : 2 ≤ base → 0 ≤ v → Forall (λ d, 0 ≤ d < base) (number_digits base v).
Proof.
  intros Hb Hv. unfold number_digits. destruct (v =? 0); [repeat constructor; lia|].
  apply Forall_rev. by apply digits_rev_range.
Qed.

Lemma number_digits_nonempty base v : number_digits base v ≠ [].
Proof.
  unfold number_digits. destruct (Z.eqb_spec v 0); [done|]. intros E.
  apply (digits_rev_nonempty 65 base v); [done|lia|]. by apply (f_equal (@rev Z)) in E; rewrite rev_involutive in E.
Qed.

Lemma digit_char_range d : 0 ≤ d < 36 → 48 ≤ digit_char d < 123.
Proof. intros Hd. unfold digit_char. destruct (Z.ltb_spec 9 d); lia. Qed.

Lemma digit_value_char d base : 0 ≤ d < base → base ≤ 16 → digit_value (digit_char d) base = Some d.
Proof.
  intros Hd Hb. unfold digit_value, digit_char. destruct (Z.ltb_spec 9 d).
  - replace ((48 <=? d - 10 + 97) && (d - 10 + 97 <=? 57)) with false by lia.
    replace ((97 <=? d - 10 + 97) && (d - 10 + 97 <=? 102)) with true by lia. cbn.
    replace (base <=? d - 10 + 97 - 97 + 10) with false by lia. f_equal. lia.
  - replace ((48 <=? d + 48) && (d + 48 <=? 57)) with true by lia. cbn.
    replace (base <=? d + 48 - 48) with false by lia. f_equal. lia.
Qed.

(** ** Scanning *)

Lemma scan_digits_run n m p base value saw ds :
  cstr m p (digit_char <$> ds) → Forall (λ d, 0 ≤ d < base) ds → 2 ≤ base ≤ 16 → (length ds < n)%nat →
  0 ≤ value → read_digits base value ds < 2 ^ 32 →
  scan_digits n p base value saw m =
    Ret ((p + Z.of_nat (length ds), read_digits base value ds, if decide (ds = []) then saw else true), m).
Proof.
  intros Hs Hds Hb. revert n p value saw Hs.
  induction Hds as [|d ds Hd Hds IH]; intros [|n] p value saw Hs Hn Hv Hlt; cbn [length] in Hn; try lia;
    cbn [scan_digits].
  - rewrite (loadb_run _ _ _ _ (cstr_first _ _ _ Hs)). cbn. by rewrite Z.add_0_r.
  - destruct Hs as (Hc & Hr & Hs). rewrite (loadb_run _ _ _ _ Hc).
    replace (digit_char d =? 0) with false by (pose proof (digit_char_range d); lia).
    rewrite digit_value_char by (done || lia). change (read_digits base value (d :: ds)) with
      (read_digits base (value * base + d) ds) in *.
    assert (∀ l a, Forall (λ d, 0 ≤ d < base) l → 0 ≤ a → a ≤ read_digits base a l) as Hmono.
    { intros l. induction l as [|x l IHl]; intros a Hl Ha; [unfold read_digits; cbn; lia|].
      apply Forall_cons in Hl as [Hx Hl]. specialize (IHl (a * base + x) Hl ltac:(nia)).
      change (read_digits base a (x :: l)) with (read_digits base (a * base + x) l). nia. }
    pose proof (Hmono ds (value * base + d) Hds ltac:(nia)).
    rewrite (IH n (p + 1)); [|exact Hs|lia|unfold u32; rewrite !Z.mod_small by (rewrite ?Z.mod_small; nia); nia|].
    + unfold u32. rewrite !(Z.mod_small (value * base)), Z.mod_small by nia. cbn [length].
      do 2 f_equal. f_equal; [f_equal; lia|]. by destruct (decide (ds = [])).
    + unfold u32. rewrite !(Z.mod_small (value * base)), Z.mod_small by nia. done.
Qed.

Lemma number_text_head base v m p :
  2 ≤ base ≤ 16 → 0 ≤ v → cstr m p (number_text base v) →
  ∃ c c1, m !! p = Some c ∧ 48 ≤ c < 123 ∧ m !! (p + 1) = Some c1 ∧ c1 ≠ 120 ∧ c1 ≠ 88.
Proof.
  intros Hb Hv. unfold number_text. pose proof (number_digits_range base v ltac:(lia) Hv) as Hr.
  destruct (number_digits base v) as [|d ds] eqn:E; [by apply number_digits_nonempty in E|].
  apply Forall_cons in Hr as [Hd Hds]. intros (Hc & _ & Hs). exists (digit_char d).
  destruct ds as [|d1 ds].
  - exists 0. split_and!; try done; apply digit_char_range; lia.
  - apply Forall_cons in Hds as [Hd1 _]. exists (digit_char d1). pose proof (digit_char_range d).
    destruct Hs as (Hc1 & _ & _). assert (48 ≤ digit_char d1 < 103 ∧ digit_char d1 ≠ 88) as Hx
      by (unfold digit_char; destruct (Z.ltb_spec 9 d1); lia).
    split_and!; try done; lia.
Qed.

(** [scan_int] after the sign. *)
Lemma scan_int_run m p base v (neg : bool) :
  base = 8 ∨ base = 10 ∨ base = 16 → 0 ≤ v ≤ INT_MAX →
  cstr m p ((if neg then [45] else []) ++ number_text base v) →
  scan_int p base m =
    Ret (Some (p + Z.of_nat (length ((if neg then [45] else []) ++ number_text base v)),
               if neg then - v else v), m).
Proof.
  intros Hb Hv Hs. unfold INT_MAX in Hv. set (q := if neg then p + 1 else p).
  assert (cstr m q (number_text base v)) as Hq by (destruct neg; [apply Hs|exact Hs]).
  destruct (number_text_head base v m q ltac:(lia) ltac:(lia) Hq) as (c & c1 & Hc & Hcr & Hc1 & N1 & N2).
  set (c' := if neg then 45 else c).
  assert (m !! p = Some c') as Hc' by (destruct neg; [apply Hs|exact Hc]).
  unfold scan_int. rewrite (loadb_run _ _ _ _ Hc'). cbv zeta.
  assert ((if c' =? 45 then -1 else 1) = (if neg then -1 else 1)) as ->
    by (unfold c'; destruct neg; [done|by replace (c =? 45) with false by lia]).
  assert ((if (c' =? 43) || (c' =? 45) then p + 1 else p) = q) as ->
    by (unfold c', q; destruct neg; [done|by replace ((c =? 43) || (c =? 45)) with false by lia]).
  rewrite (loadb_run _ _ _ _ Hc).
  assert ((if ((base =? 0) || (base =? 16)) && (c =? 48)
           then c1 ← loadb (q + 1); mret ((c1 =? 120) || (c1 =? 88)) else mret false) m = Ret (false, m)) as Hhex.
  { destruct (((base =? 0) || (base =? 16)) && (c =? 48)); [|done]. rewrite (loadb_run _ _ _ _ Hc1).
    by replace ((c1 =? 120) || (c1 =? 88)) with false by lia. }
  rewrite (bind_run _ _ _ _ _ Hhex). replace (base =? 0) with false by lia. cbn [andb].
  rewrite fuel_run. pose proof (number_digits_range base v ltac:(lia) ltac:(lia)) as Hr.
  assert (read_digits base 0 (number_digits base v) = v) as Hrd by (apply number_digits_read; lia).
  pose proof (cstr_fuel _ _ _ Hq) as Hf. unfold number_text in Hf. rewrite length_fmap in Hf.
  erewrite bind_run by (apply (scan_digits_run _ _ _ _ _ _ (number_digits base v)); [exact Hq|done|lia|lia|done|lia]).
  cbv beta iota. rewrite decide_False by apply number_digits_nonempty. cbn [negb]. rewrite Hrd.
  unfold to_int, INT_MAX. replace (2 ^ 31 - 1 <? v) with false by lia.
  assert ((if (if neg then -1 else 1) <? 0 then lift (int_of (- v)) else mret v) m = Ret (if neg then - v else v, m)) as Hsg.
  { destruct neg; [|done]. cbn [Z.ltb]. unfold lift, int_of, INT_MIN, INT_MAX.
    by replace ((- 2 ^ 31 <=? - v) && (- v <=? 2 ^ 31 - 1)) with true by lia. }
  rewrite (bind_run _ _ _ _ _ Hsg). unfold number_text. rewrite length_app, length_fmap.
  replace (q + Z.of_nat (length (number_digits base v))) with
    (p + Z.of_nat (length (if neg then [45] else []) + length (number_digits base v)))
    by (unfold q; destruct neg; cbn [length]; lia).
  done.
Qed.

(** ** [atoi] *)

Lemma atoi_digits_run n m p value ds :
  cstr m p (digit_char <$> ds) → Forall (λ d, 0 ≤ d < 10) ds → (length ds < n)%nat →
  0 ≤ value → read_digits 10 value ds ≤ INT_MAX →
  atoi_digits n p value m = Ret (read_digits 10 value ds, m).
Proof.
  intros Hs Hds. revert n p value Hs.
  induction Hds as [|d ds Hd Hds IH]; intros [|n] p value Hs Hn Hv Hlt; cbn [length] in Hn; try lia;
    cbn [atoi_digits].
  - by rewrite (loadb_run _ _ _ _ (cstr_first _ _ _ Hs)).
  - destruct Hs as (Hc & _ & Hs). rewrite (loadb_run _ _ _ _ Hc).
    change (read_digits 10 value (d :: ds)) with (read_digits 10 (value * 10 + d) ds) in *.
    assert (∀ l a, Forall (λ d, 0 ≤ d < 10) l → 0 ≤ a → a ≤ read_digits 10 a l) as Hmono.
    { intros l. induction l as [|x l IHl]; intros a Hl Ha; [unfold read_digits; cbn; lia|].
      apply Forall_cons in Hl as [Hx Hl]. specialize (IHl (a * 10 + x) Hl ltac:(lia)).
      change (read_digits 10 a (x :: l)) with (read_digits 10 (a * 10 + x) l). lia. }
    pose proof (Hmono ds (value * 10 + d) Hds ltac:(lia)).
    assert (digit_char d = d + 48) as -> by (unfold digit_char; by replace (9 <? d) with false by lia).
    unfold is_digit. replace ((48 <=? d + 48) && (d + 48 <=? 57)) with true by lia.
    unfold int_of, INT_MIN, INT_MAX in *.
    replace ((- 2 ^ 31 <=? value * 10) && (value * 10 <=? 2 ^ 31 - 1)) with true by lia.
    erewrite bind_run by reflexivity. replace (value * 10 + (d + 48 - 48)) with (value * 10 + d) by lia.
    replace ((- 2 ^ 31 <=? value * 10 + d) && (value * 10 + d <=? 2 ^ 31 - 1)) with true by lia.
    erewrite bind_run by reflexivity. apply IH; [done|lia|lia|done].
Qed.

Lemma atoi_run m p v :
  INT_MIN < v ≤ INT_MAX → cstr m p (signed_text v) → atoi p m = Ret (v, m).
Proof.
  intros Hv Hs. unfold INT_MIN, INT_MAX in Hv. pose proof (cstr_fuel _ _ _ Hs) as Hf.
  set (q := if v <? 0 then p + 1 else p).
  assert (cstr m q (number_text 10 (Z.abs v))) as Hq.
  { unfold q, signed_text in *. destruct (Z.ltb_spec v 0); [rewrite Z.abs_neq by lia; apply Hs|
      rewrite Z.abs_eq by lia; exact Hs]. }
  destruct (number_text_head 10 (Z.abs v) m q ltac:(lia) ltac:(lia) Hq) as (c & _ & Hc & Hcr & _).
  set (c' := if v <? 0 then 45 else c).
  assert (m !! p = Some c') as Hc'.
  { unfold c', q, signed_text in *. destruct (v <? 0); [apply Hs|exact Hc]. }
  assert (c' = 45 ∨ 48 ≤ c' < 123) as Hcc by (unfold c'; destruct (v <? 0); lia).
  unfold atoi. rewrite fuel_run.
  assert (skip_spaces (S (size m)) p m = Ret (p, m)) as Hsk.
  { cbn [skip_spaces]. rewrite (loadb_run _ _ _ _ Hc'). unfold isspace.
    by replace (_ || _) with false by lia. }
  rewrite (bind_run _ _ _ _ _ Hsk), (loadb_run _ _ _ _ Hc'). cbv zeta.
  assert ((if (c' =? 43) || (c' =? 45) then p + 1 else p) = q) as ->.
  { unfold c', q. destruct (v <? 0); [done|]. by replace ((c =? 43) || (c =? 45)) with false by lia. }
  assert (read_digits 10 0 (number_digits 10 (Z.abs v)) = Z.abs v) as Hrd by (apply number_digits_read; lia).
  pose proof (cstr_fuel _ _ _ Hq) as Hfq. unfold number_text in Hfq. rewrite length_fmap in Hfq.
  erewrite bind_run by (apply (atoi_digits_run _ _ _ _ (number_digits 10 (Z.abs v)));
    [exact Hq|apply number_digits_range; lia|lia|done|unfold INT_MAX; lia]).
  rewrite Hrd. assert ((if c' =? 45 then -1 else 1) * Z.abs v = v) as ->; [|done].
  unfold c'. destruct (Z.ltb_spec v 0); [cbn -[Z.mul]; lia|]. replace (c =? 45) with false by lia. lia.
Qed.


(** ** [itoa] and [utoa] *)

Definition is_char (c : Z) : Prop := 0 < c < 256.

(** The bytes [cs] are at [dst + i]; the rest is as before. *)
Definition wrote (m m' : mem) (dst i : Z) (cs : list Z) : Prop :=
  ∀ x, m' !! x = if decide (dst + i ≤ x < dst + i + Z.of_nat (length cs))
                 then cs !! Z.to_nat (x - dst - i) else m !! x.

Lemma wrote_nil m dst i : wrote m m dst i [].
Proof. intros x. rewrite decide_False; [done|]. cbn. lia. Qed.

Lemma wrote_app m m1 m2 dst i j cs1 cs2 :
  wrote m m1 dst i cs1 → wrote m1 m2 dst j cs2 → j = i + Z.of_nat (length cs1) →
  wrote m m2 dst i (cs1 ++ cs2).
Proof.
  intros H1 H2 -> x. rewrite H2, H1, length_app.
  destruct (decide (dst + (i + Z.of_nat (length cs1)) ≤ x < _)) as [Hx|Hx].
  - rewrite decide_True by lia. rewrite lookup_app_r by lia. f_equal. lia.
  - destruct (decide (dst + i ≤ x < dst + i + Z.of_nat (length cs1))) as [Hy|Hy].
    + rewrite decide_True by lia. rewrite lookup_app_l by lia. done.
    + by rewrite decide_False by lia.
Qed.

Lemma wrote_mapped m m' dst i cs p k : wrote m m' dst i cs → mapped m p k → mapped m' p k.
Proof.
  intros Hw Hm j Hj. rewrite Hw. destruct (decide _) as [Hx|]; [|by apply Hm]. apply lookup_lt_is_Some. lia.
Qed.

Lemma wrote_one m dst i c : wrote m (<[dst + i := c]> m) dst i [c].
Proof.
  intros x. cbn [length]. destruct (decide _) as [Hx|Hx].
  - replace x with (dst + i) by lia. rewrite lookup_insert_eq.
    by replace (Z.to_nat (dst + i - dst - i)) with 0%nat by lia.
  - rewrite lookup_insert_ne by lia. done.
Qed.

Lemma put_chars_run cs m dst i :
  0 ≤ i → mapped m dst (Z.to_nat i + length cs) → Forall is_char cs →
  ∃ m', put_chars dst i cs m = Ret (i + Z.of_nat (length cs), m') ∧ wrote m m' dst i cs.
Proof.
  revert m i. induction cs as [|c cs IH]; intros m i Hi Hm Hcs; cbn [put_chars length] in *.
  { exists m. rewrite Z.add_0_r. split; [done|apply wrote_nil]. }
  apply Forall_cons in Hcs as [Hc Hcs]. destruct (Hm i ltac:(lia)) as [u Hu]. unfold is_char in Hc.
  rewrite (storeb_run _ _ _ _ _ Hu) by lia.
  destruct (IH (<[dst + i := c]> m) (i + 1)) as (m' & Hr & Hw); [lia| |done|].
  { eapply wrote_mapped; [apply wrote_one|]. intros j Hj. apply Hm. lia. }
  exists m'. rewrite Hr. split; [do 2 f_equal; lia|].
  eapply (wrote_app _ _ _ _ _ _ [c]); [apply wrote_one|exact Hw|cbn; lia].
Qed.

Lemma itoa_digits_run k n m num base dst i :
  (n < k)%nat → 2 ≤ base ≤ 36 → 0 ≤ num < 2 ^ Z.of_nat n → 0 ≤ i → mapped m dst (Z.to_nat i + n) →
  ∃ m', itoa_digits k num base dst i m = Ret (i + Z.of_nat (length (digits_rev k base num)), m') ∧
    wrote m m' dst i (digit_char <$> digits_rev k base num).
Proof.
  intros Hk Hb. revert n m num i Hk. induction k as [|k IH]; intros n m num i Hk Hn Hi Hm; [lia|].
  cbn [itoa_digits digits_rev]. destruct (Z.eqb_spec num 0) as [->|Hn0].
  { exists m. cbn. rewrite Z.add_0_r. split; [done|apply wrote_nil]. }
  destruct n as [|n]; [cbn in Hn; lia|].
  destruct (Hm i ltac:(lia)) as [u Hu]. rewrite Z.rem_mod_nonneg, Z.quot_div_nonneg by lia.
  pose proof (Z.mod_pos_bound num base ltac:(lia)) as Hmod.
  pose proof (digit_char_range (num mod base) ltac:(lia)) as Hdc.
  rewrite (storeb_run _ _ _ _ _ Hu) by lia.
  destruct (IH n (<[dst + i := digit_char (num mod base)]> m) (num / base) (i + 1)) as (m' & Hr & Hw); [lia| |lia| |].
  - split; [apply Z.div_pos; lia|]. apply Z.div_lt_upper_bound; [lia|].
    rewrite Nat2Z.inj_succ, Z.pow_succ_r in Hn by lia. nia.
  - eapply wrote_mapped; [apply wrote_one|]. intros j Hj. apply Hm. lia.
  - exists m'. rewrite Hr. cbn [length fmap list_fmap]. split; [do 2 f_equal; lia|].
    eapply (wrote_app _ _ _ _ _ _ [digit_char (num mod base)]); [apply wrote_one|exact Hw|cbn; lia].
Qed.

(** A list with two ends. *)
Lemma list_ends (l : list Z) : (1 < length l)%nat → ∃ a mid b, l = a :: mid ++ [b].
Proof.
  destruct l as [|a l]; cbn; [lia|]. destruct l as [|x l _] using rev_ind; cbn; [lia|]. intros _. by exists a, l, x.
Qed.

Lemma rev_ends (a b : Z) mid : rev (a :: mid ++ [b]) = b :: rev mid ++ [a].
Proof. cbn [rev]. by rewrite rev_app_distr. Qed.

(** Both ends written, then the middle. *)
Lemma wrote_swap m m1 m' dst start a b mid n :
  m1 = <[dst + start := b]> (<[dst + start + Z.of_nat n + 1 := a]> m) →
  wrote m1 m' dst (start + 1) mid → length mid = n →
  wrote m m' dst start (b :: mid ++ [a]).
Proof.
  intros -> Hw <- x. rewrite Hw. cbn [length]. rewrite length_app. cbn [length].
  destruct (decide (dst + (start + 1) ≤ x < _)) as [Hx|Hx].
  - rewrite decide_True by lia. replace (Z.to_nat (x - dst - start)) with (S (Z.to_nat (x - dst - (start + 1)))) by lia.
    transitivity ((mid ++ [a]) !! Z.to_nat (x - dst - (start + 1))); [|done]. by rewrite lookup_app_l by lia.
  - destruct (decide (x = dst + start)) as [->|N1].
    { rewrite lookup_insert_eq, decide_True by lia. by replace (Z.to_nat _) with 0%nat by lia. }
    rewrite lookup_insert_ne by lia. destruct (decide (x = dst + start + Z.of_nat (length mid) + 1)) as [->|N2].
    + rewrite lookup_insert_eq, decide_True by lia.
      replace (Z.to_nat _) with (S (length mid)) by lia.
      transitivity ((mid ++ [a]) !! length mid); [|done]. by rewrite lookup_app_r, Nat.sub_diag by lia.
    + rewrite lookup_insert_ne, decide_False by lia. done.
Qed.

Lemma reverse_run n m dst start l :
  (∀ k c, l !! k = Some c → m !! (dst + start + Z.of_nat k) = Some c) → Forall is_char l →
  (length l < 2 * n)%nat →
  ∃ m', reverse_loop n dst start (start + Z.of_nat (length l) - 1) m = Ret (tt, m') ∧
    wrote m m' dst start (rev l).
Proof.
  revert m start l. induction n as [|n IH]; intros m start l Hm Hl Hn; [lia|]. cbn [reverse_loop].
  destruct (decide (1 < length l)%nat) as [H1|H1].
  - destruct (list_ends l H1) as (a & mid & b & ->). cbn [length] in *. rewrite length_app in *. cbn [length] in *.
    rewrite (proj2 (Z.ltb_lt start _)) by lia.
    apply Forall_cons in Hl as [Ha [Hmid [Hb _]%Forall_cons]%Forall_app]. unfold is_char in Ha, Hb.
    set (e := start + Z.of_nat (S (length mid + 1)) - 1).
    assert (m !! (dst + e) = Some b) as Hme.
    { replace (dst + e) with (dst + start + Z.of_nat (S (length mid))) by (unfold e; lia). apply Hm.
      change ((mid ++ [b]) !! length mid = Some b). by rewrite lookup_app_r, Nat.sub_diag by lia. }
    assert (m !! (dst + start) = Some a) as Hms by (rewrite <- (Z.add_0_r (dst + start)); by apply (Hm 0%nat)).
    rewrite (loadb_run _ _ _ _ Hme), (loadb_run _ _ _ _ Hms), (storeb_run _ _ _ _ _ Hme) by lia.
    erewrite (storeb_run _ _ a) by (rewrite ?lookup_insert_ne by (unfold e; lia); done || lia).
    set (m1 := <[dst + start := b]> (<[dst + e := a]> m)).
    destruct (IH m1 (start + 1) mid) as (m' & Hr & Hw); [|done|lia|].
    { intros k c Hk. pose proof (lookup_lt_Some _ _ _ Hk). unfold m1, e. rewrite !lookup_insert_ne by lia.
      replace (dst + (start + 1) + Z.of_nat k) with (dst + start + Z.of_nat (S k)) by lia. apply Hm.
      change ((mid ++ [b]) !! k = Some c). by rewrite lookup_app_l. }
    exists m'. replace (e - 1) with (start + 1 + Z.of_nat (length mid) - 1) by (unfold e; lia). split; [exact Hr|].
    rewrite rev_ends. eapply (wrote_swap _ _ _ _ _ _ _ (rev mid)); [|exact Hw|by rewrite length_rev].
    unfold m1, e. by replace (dst + (start + Z.of_nat (S (length mid + 1)) - 1)) with
      (dst + start + Z.of_nat (length mid) + 1) by lia.
  - rewrite (proj2 (Z.ltb_ge start _)) by lia. exists m. split; [done|].
    destruct l as [|a [|b l]]; cbn in H1; [apply wrote_nil| |lia].
    intros x. cbn. destruct (decide _) as [Hx|]; [|done]. replace x with (dst + start) by lia.
    replace (Z.to_nat (dst + start - dst - start)) with 0%nat by lia.
    rewrite <- (Z.add_0_r (dst + start)). by apply (Hm 0%nat).
Qed.

Lemma cstr_intro m p l :
  (∀ k c, l !! k = Some c → m !! (p + Z.of_nat k) = Some c) → m !! (p + Z.of_nat (length l)) = Some 0 →
  Forall is_char l → cstr m p l.
Proof.
  intros Hm H0 Hl. revert p Hm H0. induction Hl as [|c l Hc Hl IH]; intros p Hm H0; cbn [cstr length] in *.
  - by rewrite Z.add_0_r in H0.
  - split; [rewrite <- (Z.add_0_r p); by apply (Hm 0%nat)|]. split; [done|]. apply IH.
    + intros k x Hk. replace (p + 1 + Z.of_nat k) with (p + Z.of_nat (S k)) by lia. by apply Hm.
    + by replace (p + 1 + Z.of_nat (length l)) with (p + Z.of_nat (S (length l))) by lia.
Qed.

(** The common end of both functions: terminate, reverse, return. *)
Lemma finish_run m m1 dst l :
  wrote m m1 dst 0 l → Forall is_char l → mapped m dst (S (length l)) →
  ∃ m', (_ ← storeb (dst + Z.of_nat (length l)) 0;
         _ ← reverse_loop (S (Z.to_nat (Z.of_nat (length l)))) dst 0 (Z.of_nat (length l) - 1);
         mret dst) m1 = Ret (dst, m') ∧ cstr m' dst (rev l) ∧
    ∀ x, x < dst ∨ dst + Z.of_nat (length l) < x → m' !! x = m !! x.
Proof.
  intros Hw Hl Hm. set (e := Z.of_nat (length l)).
  destruct (wrote_mapped _ _ _ _ _ _ _ Hw Hm e ltac:(unfold e; lia)) as [u Hu].
  rewrite (storeb_run _ _ _ _ _ Hu) by lia.
  destruct (reverse_run (S (Z.to_nat e)) (<[dst + e := 0]> m1) dst 0 l) as (m' & Hr & Hw').
  - intros k c Hk. pose proof (lookup_lt_Some _ _ _ Hk). rewrite lookup_insert_ne by (unfold e; lia).
    rewrite Hw, decide_True by lia. rewrite <- Hk. f_equal. lia.
  - done.
  - unfold e. lia.
  - rewrite (bind_run _ _ _ _ _ Hr). exists m'. split; [done|]. split.
    + apply cstr_intro; [| |by apply Forall_rev].
      * intros k c Hk. pose proof (lookup_lt_Some _ _ _ Hk). rewrite Hw', decide_True by lia.
        rewrite <- Hk. f_equal. lia.
      * rewrite Hw', length_rev, decide_False by lia. by rewrite lookup_insert_eq.
    + intros x Hx. rewrite Hw', length_rev, decide_False by (unfold e in *; lia).
      rewrite lookup_insert_ne by (unfold e; lia). rewrite Hw, decide_False by (unfold e in *; lia). done.
Qed.

Lemma base_letter_chars base : Forall is_char (base_letter base) ∧ (length (base_letter base) ≤ 1)%nat.
Proof.
  unfold base_letter. repeat match goal with |- context [if ?b then _ else _] => destruct b end;
    (split; [repeat constructor; unfold is_char; lia|cbn; lia]).
Qed.

Lemma base_letter_rev base : rev (base_letter base) = base_letter base.
Proof.
  unfold base_letter. by repeat match goal with |- context [if ?b then _ else _] => destruct b end.
Qed.

Lemma digits_rev_length k n base v :
  2 ≤ base → 0 ≤ v < 2 ^ Z.of_nat n → (length (digits_rev k base v) ≤ n)%nat.
Proof.
  intros Hb. revert n v. induction k as [|k IH]; intros n v Hv; cbn [digits_rev]; [cbn; lia|].
  destruct (Z.eqb_spec v 0); [cbn; lia|]. destruct n as [|n]; [cbn in Hv; lia|]. cbn [length].
  apply le_n_S, IH. split; [apply Z.div_pos; lia|]. apply Z.div_lt_upper_bound; [lia|].
  rewrite Nat2Z.inj_succ, Z.pow_succ_r in Hv by lia. nia.
Qed.

Lemma text_chars base v : 2 ≤ base ≤ 36 → 0 ≤ v → Forall is_char (digit_char <$> number_digits base v).
Proof.
  intros Hb Hv. apply Forall_fmap. eapply Forall_impl; [apply (number_digits_range base v); lia|].
  intros d Hd. cbn. pose proof (digit_char_range d). unfold is_char. cbn in Hd. lia.
Qed.

Lemma rev_fmap (f : Z → Z) l : rev (f <$> l) = f <$> rev l.
Proof. induction l as [|x l IH]; [done|]. cbn [fmap list_fmap rev]. by rewrite fmap_app, <- IH. Qed.

(** The digits of [itoa] in the order they are written. *)
Lemma itoa_digits_written n m num base dst :
  2 ≤ base ≤ 36 → (n ≤ 64)%nat → 0 ≤ num < 2 ^ Z.of_nat n → mapped m dst (S n) →
  ∃ m', (if num =? 0 then put_chars dst 0 [48] else itoa_digits 65 num base dst 0) m =
      Ret (Z.of_nat (length (number_digits base num)), m') ∧
    wrote m m' dst 0 (rev (number_text base num)).
Proof.
  intros Hb H64 Hn Hm. unfold number_text, number_digits. destruct (Z.eqb_spec num 0) as [->|Hn0].
  - destruct (put_chars_run [48] m dst 0) as (m' & Hr & Hw); [lia| |repeat constructor; unfold is_char; lia|].
    { intros i Hi. apply Hm. cbn in Hi. lia. }
    by exists m'.
  - destruct (itoa_digits_run 65 n m num base dst 0) as (m' & Hr & Hw); [lia|done|done|lia| |].
    { intros i Hi. apply Hm. cbn in Hi |- *. lia. }
    exists m'. rewrite Hr, length_rev. split; [done|]. by rewrite rev_fmap, rev_involutive.
Qed.

Lemma number_digits_length n base v :
  2 ≤ base → 0 ≤ v < 2 ^ Z.of_nat n → (length (number_digits base v) ≤ S n)%nat.
Proof.
  intros Hb Hv. unfold number_digits. destruct (v =? 0); [cbn; lia|]. rewrite length_rev.
  pose proof (digits_rev_length 65 n base v Hb Hv). lia.
Qed.

Lemma mapped_le m p k n : mapped m p k → (n ≤ k)%nat → mapped m p n.
Proof. intros Hm Hn i Hi. apply Hm. lia. Qed.

Lemma rev_sign (b : bool) : rev (if b then [45] else []) = (if b then [45] else []).
Proof. by destruct b. Qed.

Lemma put_more m m1 dst l cs :
  wrote m m1 dst 0 l → mapped m dst (length l + length cs) → Forall is_char cs →
  ∃ m2, put_chars dst (Z.of_nat (length l)) cs m1 = Ret (Z.of_nat (length (l ++ cs)), m2) ∧
    wrote m m2 dst 0 (l ++ cs).
Proof.
  intros Hw Hm Hcs. destruct (put_chars_run cs m1 dst (Z.of_nat (length l))) as (m2 & Hr & Hw2); [lia| |done|].
  { eapply wrote_mapped; [exact Hw|]. eapply mapped_le; [exact Hm|lia]. }
  exists m2. rewrite Hr, length_app, Nat2Z.inj_add. split; [done|]. eapply wrote_app; [exact Hw|exact Hw2|lia].
Qed.

(** The end of [itoa] and [utoa] after the digits [l]: the letter, the zero, the
    sign, and the common end. *)
Lemma suffix_written m m1 dst base l sg :
  wrote m m1 dst 0 l → Forall is_char l → Forall is_char sg →
  mapped m dst (length l + length (base_letter base) + length sg + 2) →
  ∃ m', (i ← put_chars dst (Z.of_nat (length l)) (base_letter base);
         i ← put_chars dst i [48];
         i ← put_chars dst i sg;
         _ ← storeb (dst + i) 0;
         _ ← reverse_loop (S (Z.to_nat i)) dst 0 (i - 1);
         mret dst) m1 = Ret (dst, m') ∧ cstr m' dst (rev sg ++ [48] ++ base_letter base ++ rev l) ∧
    ∀ x, x < dst ∨ dst + Z.of_nat (length (rev sg ++ [48] ++ base_letter base ++ rev l)) < x → m' !! x = m !! x.
Proof.
  intros Hw Hl Hsg Hm. destruct (base_letter_chars base) as [Hlc _].
  destruct (put_more m m1 dst l (base_letter base)) as (m2 & Hr2 & Hw2);
    [done|eapply mapped_le; [exact Hm|lia]|done|].
  rewrite (bind_run _ _ _ _ _ Hr2).
  assert (Forall is_char [48]) as Hz by (repeat constructor; unfold is_char; lia).
  destruct (put_more m m2 dst _ [48] Hw2) as (m3 & Hr3 & Hw3);
    [eapply mapped_le; [exact Hm|rewrite length_app; cbn; lia]|done|].
  rewrite (bind_run _ _ _ _ _ Hr3).
  destruct (put_more m m3 dst _ sg Hw3) as (m4 & Hr4 & Hw4);
    [eapply mapped_le; [exact Hm|rewrite !length_app; cbn; lia]|done|].
  rewrite (bind_run _ _ _ _ _ Hr4).
  set (all := ((l ++ base_letter base) ++ [48]) ++ sg) in *.
  destruct (finish_run m m4 dst all Hw4) as (m' & Hr5 & Hcs & Hf).
  - unfold all. rewrite !Forall_app. tauto.
  - eapply mapped_le; [exact Hm|]. unfold all. rewrite !length_app. cbn. lia.
  - assert (rev all = rev sg ++ [48] ++ base_letter base ++ rev l) as E
      by (unfold all; rewrite !rev_app_distr, base_letter_rev; done).
    exists m'. split; [exact Hr5|]. rewrite <- E. split; [exact Hcs|]. by rewrite length_rev.
Qed.

(** The text [itoa] writes. *)
Definition itoa_text (num base : Z) : list Z :=
  (if num <? 0 then [45] else []) ++ [48] ++ base_letter base ++ number_text base (Z.abs num).

Lemma itoa_run n m num dst base :
  2 ≤ base ≤ 36 → (n ≤ 64)%nat → mapped m dst (n + 5) →
  (0 ≤ num < 2 ^ 63 ∨ base = 10 ∧ INT64_MIN < num < 0) → Z.abs num < 2 ^ Z.of_nat n →
  ∃ m', itoa num dst base m = Ret (dst, m') ∧ cstr m' dst (itoa_text num base) ∧
    ∀ x, x < dst ∨ dst + Z.of_nat (length (itoa_text num base)) < x → m' !! x = m !! x.
Proof.
  unfold itoa_text, INT64_MIN. intros Hb H64 Hm Hn Hlt. unfold itoa, INT64_MIN.
  replace (base =? 0) with false by lia. set (neg := num <? 0).
  assert (neg && (base =? 10) = neg) as Eneg by (unfold neg; lia). rewrite !Eneg.
  replace (neg && (num =? - 2 ^ 63)) with false by (unfold neg; lia).
  replace (if neg then - num else num) with (Z.abs num) by (unfold neg; destruct (Z.ltb_spec num 0); lia).
  set (v := Z.abs num) in *. assert (0 ≤ v) as Hv by (unfold v; lia).
  destruct (itoa_digits_written n m v base dst Hb H64) as (m1 & Hr1 & Hw1);
    [lia|eapply mapped_le; [exact Hm|lia]|]. cbv zeta. rewrite (bind_run _ _ _ _ _ Hr1).
  pose proof (number_digits_length n base v ltac:(lia) ltac:(lia)) as Hl.
  destruct (suffix_written m m1 dst base (rev (number_text base v)) (if neg then [45] else []))
    as (m2 & Hr2 & Hcs & Hf).
  - exact Hw1.
  - apply Forall_rev, text_chars; lia.
  - destruct neg; repeat constructor; unfold is_char; lia.
  - eapply mapped_le; [exact Hm|]. rewrite length_rev. unfold number_text. rewrite length_fmap.
    pose proof (base_letter_chars base). destruct neg; cbn; lia.
  - exists m2. rewrite length_rev in Hr2. unfold number_text in Hr2. rewrite length_fmap in Hr2.
    split; [exact Hr2|]. rewrite rev_involutive in Hcs, Hf. rewrite rev_sign in Hcs, Hf.
    split; [exact Hcs|exact Hf].
Qed.

(** [itoa] writes the terminated text of the number: a minus sign for a
    negative one in base ten, the prefix [0d], [0x], [0o] or [0b] of the base,
    and the digits without leading zeroes, whose value is the number.  It writes
    nothing past the terminator, so 69 bytes are enough for every argument.  The
    least 64-bit value cannot be negated and is excluded. *)
Theorem itoa_writes_text m num dst base :
  2 ≤ base ≤ 36 → mapped m dst 69 → (0 ≤ num < 2 ^ 63 ∨ base = 10 ∧ INT64_MIN < num < 0) →
  let text := (if num <? 0 then [45] else []) ++ [48] ++ base_letter base ++ number_text base (Z.abs num) in
  ∃ m', itoa num dst base m = Ret (dst, m') ∧ cstr m' dst text ∧
    read_digits base 0 (number_digits base (Z.abs num)) = Z.abs num ∧
    ∀ x, x < dst ∨ dst + Z.of_nat (length text) < x → m' !! x = m !! x.
Proof.
  intros Hb Hm Hn. unfold INT64_MIN in Hn.
  destruct (itoa_run 64 m num dst base) as (m' & Hr & Hc & Hf); [done|lia|done|done|cbn; lia|].
  exists m'. split; [done|]. split; [done|]. split; [apply number_digits_read; lia|done].
Qed.

(** 70 bytes of room at 500. *)
Definition demo_room : mem := list_to_map ((λ i, (500 + Z.of_nat i, 7)) <$> seq 0 70).
Lemma demo_room_mapped : mapped demo_room 500 70.
Proof.
  intros i Hi. assert (bool_decide (Forall (λ k, is_Some (demo_room !! (500 + Z.of_nat k))) (seq 0 70)) = true) as H
    by (vm_compute; reflexivity).
  apply bool_decide_eq_true_1 in H. rewrite Forall_forall in H.
  replace i with (Z.of_nat (Z.to_nat i)) by lia. apply H, elem_of_seq. lia.
Qed.


Lemma itoa_writes_text_witness :
  ∃ m', itoa (-42) 500 10 demo_room = Ret (500, m') ∧ cstr m' 500 [45; 48; 100; 52; 50].
Proof.
  destruct (itoa_writes_text demo_room (-42) 500 10) as (m' & Hr & Hc & _);
    [lia|eapply mapped_le; [exact demo_room_mapped|lia]|right; unfold INT64_MIN; lia|].
  exists m'. split; [exact Hr|exact Hc].
Defined.
