(* ===== verification/Format.v ===== *)
(** * Format: [libc/stdio/__vformat.c] and [vsnprintf.c]

    The formatter behind [printf] and its callers.  The format and the string
    arguments are read from memory; the output goes to a callback with its own
    state, which gets the bytes of each piece; the arguments are the list that
    [va_arg] walks, and reading past it faults. *)
From S2P Require Import Prelude Cstring Number.

Record format_spec := MkSpec {
  width : Z; precision : Z; precision_set : bool; zero_pad : bool; conversion : Z
}.

(** Reading memory that does not change. *)
Definition rd (m : mem) (p : Z) : outcome Z := deref (m !! p).
Fixpoint bytes_of (m : mem) (p : Z) (n : nat) : outcome (list Z) :=
  match n with
  | O => Ret []
  | S n' => c ← rd m p; cs ← bytes_of m (p + 1) n'; Ret (c :: cs)
  end.
Definition text_of (m : mem) (p : Z) : outcome (list Z) :=
  '(n, _) ← strlen p m; bytes_of m p (Z.to_nat n).

Fixpoint parse_digits (n : nat) (m : mem) (p value : Z) : outcome (Z * Z) :=
  match n with
  | O => OutOfFuel
  | S n' =>
      c ← rd m p;
      if is_digit c then
        v ← int_of (value * 10);
        v ← int_of (v + (c - 48));
        parse_digits n' m (p + 1) v
      else Ret (p, value)
  end.

(** The optional precision: its value and whether there is one. *)
Definition parse_precision (n : nat) (m : mem) (p : Z) : outcome (Z * Z * bool) :=
  c ← rd m p;
  if c =? 46 then '(p, pr) ← parse_digits n m (p + 1) 0; Ret (p, pr, true) else Ret (p, 0, false).

Definition parse_format_spec (m : mem) (p : Z) : outcome (Z * format_spec) :=
  let n := S (size m) in
  c ← rd m p;
  let zero := c =? 48 in
  let p := if zero then p + 1 else p in
  '(p, w) ← parse_digits n m p 0;
  '(p, pr, set) ← parse_precision n m p;
  c ← rd m p;
  Ret (if negb (c =? 0) then p + 1 else p, MkSpec w pr set zero c).

(** [tmp] holds 65 characters. *)
Fixpoint unsigned_loop (n : nat) (value base : Z) (tmp : list Z) : outcome (list Z) :=
  match n with
  | O => Fault
  | S n' =>
      if value =? 0 then Ret tmp
      else unsigned_loop n' (value / base) base (tmp ++ [digit_char (value mod base)])
  end.
Definition format_unsigned (value base : Z) : outcome (list Z) :=
  tmp ← (if value =? 0 then Ret [48] else unsigned_loop 66 value base []);
  Ret (rev tmp).

(** [char buf[40]; itoa(x, buf, 2)]: the local buffer, at an address of its own. *)
Definition local_buf : mem := list_to_map ((λ i, (4096 + Z.of_nat i, 0)) <$> seq 0 40).
Definition binary_text (x : Z) : outcome (list Z) :=
  '(p, m) ← itoa x 4096 2 local_buf; text_of m p.

Section vformat.
Context {C : Type} (write : list Z → prog C bool).

(** The callback's state and [bytes_written]. *)
Record vst := MkV { v_ctx : C; v_written : Z }.

(** [false] stands for the result -1. *)
Definition write_all (data : list Z) : prog vst bool := λ st,
  let len := Z.of_nat (length data) in
  if INT_MAX - v_written st <? len then Ret (false, st)
  else if 0 <? len then
    '(ok, c) ← write data (v_ctx st);
    if (ok : bool) then Ret (true, MkV c (v_written st + len)) else Ret (false, MkV c (v_written st))
  else Ret (true, MkV (v_ctx st) (v_written st + len)).

(** Stop with -1 when a step did. *)
Definition and_then (a b : prog vst bool) : prog vst bool :=
  ok ← a; if (ok : bool) then b else mret false.

Fixpoint write_repeated (c : Z) (count : nat) : prog vst bool :=
  match count with
  | O => mret true
  | S n => and_then (write_all [c]) (write_repeated c n)
  end.

Definition write_formatted_number (spec : format_spec) (is_signed : bool) (value : Z) : prog vst bool :=
  let negative := is_signed && (2 ^ 63 <=? value) in
  if negative && (value =? 2 ^ 63) then fault
  else
    let value := if negative then 2 ^ 64 - value else value in
    digits ← lift (format_unsigned value (if conversion spec =? 120 then 16 else 10));
    let digit_len := Z.of_nat (length digits) in
    let zero_count := if precision_set spec && (digit_len <? precision spec)
                      then precision spec - digit_len else 0 in
    let sign_len := if negative then 1 else 0 in
    let content_len := sign_len + zero_count + digit_len in
    let pad_count := if content_len <? width spec then width spec - content_len else 0 in
    let swap := zero_pad spec && negb (precision_set spec) in
    let zero_count := if swap then zero_count + pad_count else zero_count in
    let pad_count := if swap then 0 else pad_count in
    and_then (write_repeated 32 (Z.to_nat pad_count))
      (and_then (if negative then write_all [45] else mret true)
        (and_then (write_repeated 48 (Z.to_nat zero_count)) (write_all digits))).

(** [(null)] *)
Definition null_text : list Z := [40; 110; 117; 108; 108; 41].

(** The first directive character or end from [p] on. *)
Fixpoint literal_len (n : nat) (m : mem) (p len : Z) : outcome Z :=
  match n with
  | O => OutOfFuel
  | S n' =>
      c ← rd m (p + len);
      if (c =? 0) || (c =? 37) then Ret len else literal_len n' m p (len + 1)
  end.

Definition next_arg (args : list Z) : prog vst (Z * list Z) :=
  match args with a :: args' => mret (a, args') | [] => fault end.

(** One conversion; the rest of the arguments and the next format pointer. *)
Definition convert (m : mem) (delim fmt : Z) (spec : format_spec) (args : list Z)
    : prog vst (bool * list Z * Z) :=
  let k := conversion spec in
  if k =? 99 then
    '(a, args) ← next_arg args;
    ok ← write_all [u8 a]; mret (ok, args, fmt)
  else if k =? 115 then
    '(a, args) ← next_arg args;
    s ← (if a =? 0 then mret null_text else lift (text_of m a));
    ok ← write_all s; mret (ok, args, fmt)
  else if (k =? 100) || (k =? 105) then
    '(a, args) ← next_arg args;
    ok ← write_formatted_number spec true (u64 a); mret (ok, args, fmt)
  else if (k =? 120) || (k =? 117) then
    '(a, args) ← next_arg args;
    ok ← write_formatted_number spec false (u64 a); mret (ok, args, fmt)
  else if k =? 98 then
    '(a, args) ← next_arg args;
    s ← lift (binary_text (u32 a));
    ok ← write_all s; mret (ok, args, fmt)
  else
    s ← lift (text_of m delim);
    ok ← write_all s;
    mret (ok, args, delim + Z.of_nat (length s)).

(** The literal text before a directive: [None] when the output failed,
    otherwise the format pointer and whether the format ended. *)
Definition literal (m : mem) (fmt : Z) : prog vst (option (Z * bool)) :=
  c0 ← lift (rd m fmt);
  lit ← (if negb (c0 =? 37) then mret true else c1 ← lift (rd m (fmt + 1)); mret (c1 =? 37));
  if (lit : bool) then
    let fmt := if c0 =? 37 then fmt + 1 else fmt in
    len ← lift (literal_len (S (size m)) m fmt 1);
    data ← lift (bytes_of m fmt (Z.to_nat len));
    ok ← write_all data;
    if (ok : bool) then
      c ← lift (rd m (fmt + len)); mret (Some (fmt + len, c =? 0))
    else mret None
  else mret (Some (fmt, false)).

Fixpoint vformat_loop (n : nat) (m : mem) (fmt : Z) (args : list Z) : prog vst bool :=
  match n with
  | O => diverge
  | S n' =>
      c ← lift (rd m fmt);
      if c =? 0 then mret true
      else
        l ← literal m fmt;
        match l with
        | None => mret false
        | Some (_, true) => mret true
        | Some (delim, false) =>
            '(fmt, spec) ← lift (parse_format_spec m (delim + 1));
            '(ok, args, fmt) ← convert m delim fmt spec args;
            if (ok : bool) then vformat_loop n' m fmt args else mret false
        end
  end.

(** [__hojicha_vformat]: the number of bytes written, or -1. *)
Definition vformat (m : mem) (fmt : Z) (args : list Z) : prog C Z := λ c,
  '(ok, st) ← vformat_loop (S (size m)) m fmt args (MkV c 0);
  Ret (if (ok : bool) then v_written st else -1, v_ctx st).
End vformat.
Arguments vst C : clear implicits.

(** ** [vsnprintf.c] *)

(** The buffer is an object of its own: its bytes. *)
Record snprintf_ctx := MkCtx { sn_buffer : list Z; sn_size : Z; sn_written : Z }.

Fixpoint snprintf_write (data : list Z) : prog snprintf_ctx bool :=
  match data with
  | [] => mret true
  | d :: data' => λ ctx,
      if (0 <? sn_size ctx) && (sn_written ctx <? sn_size ctx - 1) then
        match sn_buffer ctx !! Z.to_nat (sn_written ctx) with
        | None => Fault
        | Some _ => snprintf_write data'
            (MkCtx (<[Z.to_nat (sn_written ctx) := d]> (sn_buffer ctx)) (sn_size ctx) (sn_written ctx + 1))
        end
      else snprintf_write data' (MkCtx (sn_buffer ctx) (sn_size ctx) (sn_written ctx + 1))
  end.

Definition vsnprintf (m : mem) (buffer : list Z) (size fmt : Z) (args : list Z) : outcome (Z * list Z) :=
  '(ret, ctx) ← vformat snprintf_write m fmt args (MkCtx buffer size 0);
  if ret <? 0 then Ret (ret, sn_buffer ctx)
  else if 0 <? size then
    let terminator := if ret <? size then ret else size - 1 in
    match sn_buffer ctx !! Z.to_nat terminator with
    | None => Fault
    | Some _ => Ret (ret, <[Z.to_nat terminator := 0]> (sn_buffer ctx))
    end
  else Ret (ret, sn_buffer ctx).

(** ** What the formatter promises of its callback *)

(** A sink takes every piece and appends it to what it represents. *)
Class Sink {C : Type} (write : list Z → prog C bool) := {
  sink_rep : C → list Z → Prop;
  sink_write data c o :
    sink_rep c o → ∃ c', write data c = Ret (true, c') ∧ sink_rep c' (o ++ data);
}.

(** ** Format strings *)

(** A directive: flag, width, precision (as digits), conversion. *)
Record directive := MkDir { d_zero : bool; d_width : list Z; d_prec : option (list Z); d_conv : Z }.

Definition digit_text (ds : list Z) : list Z := digit_char <$> ds.
Definition dir_text (d : directive) : list Z :=
  (if d_zero d then [48] else []) ++ digit_text (d_width d) ++
  match d_prec d with Some p => 46 :: digit_text p | None => [] end ++ [d_conv d].

Definition number_of (ds : list Z) : Z := read_digits 10 0 ds.
Definition small_number (ds : list Z) : Prop := Forall (λ d, 0 ≤ d < 10) ds ∧ number_of ds ≤ INT_MAX.
Definition conversions : list Z := [99; 115; 100; 105; 120; 117; 98].

Record dir_ok (d : directive) : Prop := {
  do_width : small_number (d_width d);
  (** A width does not start with zero: that would be the flag. *)
  do_width0 : head (d_width d) ≠ Some 0;
  do_prec : match d_prec d with Some p => small_number p | None => True end;
  do_conv : d_conv d ∈ conversions;
}.

Definition dir_spec (d : directive) : format_spec :=
  MkSpec (number_of (d_width d)) (match d_prec d with Some p => number_of p | None => 0 end)
    (match d_prec d with Some _ => true | None => false end) (d_zero d) (d_conv d).

(** ** The text of a number *)
Definition number_out (d : directive) (is_signed : bool) (a : Z) : list Z :=
  let neg := is_signed && (2 ^ 63 <=? a) in
  let digits := number_text (if d_conv d =? 120 then 16 else 10) (if neg then 2 ^ 64 - a else a) in
  let sign := if neg then [45] else [] in
  let zeros := match d_prec d with Some p => Z.max 0 (number_of p - Z.of_nat (length digits)) | None => 0 end in
  let pad := Z.max 0 (number_of (d_width d) - (Z.of_nat (length (sign ++ digits)) + zeros)) in
  match d_zero d, d_prec d with
  | true, None => sign ++ replicate (Z.to_nat pad) 48 ++ digits
  | _, _ => replicate (Z.to_nat pad) 32 ++ sign ++ replicate (Z.to_nat zeros) 48 ++ digits
  end.

(** The output of a directive for an argument. *)
Inductive converts (m : mem) (d : directive) (a : Z) : list Z → Prop :=
| conv_char : d_conv d = 99 → converts m d a [u8 a]
| conv_null : d_conv d = 115 → a = 0 → converts m d a null_text
| conv_string s : d_conv d = 115 → a ≠ 0 → cstr m a s → converts m d a s
| conv_signed : d_conv d = 100 ∨ d_conv d = 105 → u64 a ≠ 2 ^ 63 → converts m d a (number_out d true (u64 a))
| conv_unsigned : d_conv d = 120 ∨ d_conv d = 117 → converts m d a (number_out d false (u64 a))
| conv_binary : d_conv d = 98 → converts m d a ([48; 98] ++ number_text 2 (u32 a)).

(** ** Reading the format *)

Lemma bytes_of_run m p s r : cstr m p (s ++ r) → bytes_of m p (length s) = Ret s.
Proof.
  revert p. induction s as [|c s IH]; intros p; [done|]. cbn [app cstr length bytes_of].
  intros (Hc & _ & Hs). unfold rd. rewrite Hc. orun. by rewrite (IH _ Hs).
Qed.

Lemma text_of_run m p s : cstr m p s → text_of m p = Ret s.
Proof.
  intros Hs. unfold text_of. rewrite (strlen_run _ _ _ Hs). orun. rewrite Nat2Z.id.
  apply (bytes_of_run m p s []). by rewrite app_nil_r.
Qed.

Lemma rd_head m p s : cstr m p s → rd m p = Ret (default 0 (head s)).
Proof. intros Hs. unfold rd. by rewrite (cstr_first _ _ _ Hs). Qed.

Lemma read_digits_mono base ds a :
  0 < base → Forall (λ d, 0 ≤ d < base) ds → 0 ≤ a → a ≤ read_digits base a ds.
Proof.
  intros Hb Hds. revert a. induction Hds as [|d ds Hd _ IH]; intros a Ha; [done|].
  change (read_digits base a (d :: ds)) with (read_digits base (a * base + d) ds).
  specialize (IH (a * base + d) ltac:(nia)). nia.
Qed.

Lemma parse_digits_run n m p v ds r :
  cstr m p (digit_text ds ++ r) → Forall (λ d, 0 ≤ d < 10) ds → (length ds < n)%nat →
  0 ≤ v → read_digits 10 v ds ≤ INT_MAX → is_digit (default 0 (head r)) = false →
  parse_digits n m p v = Ret (p + Z.of_nat (length ds), read_digits 10 v ds).
Proof.
  intros Hs Hds Hn Hv Hle Hr. revert n p v Hs Hn Hv Hle.
  induction Hds as [|d ds Hd Hds IH]; intros [|n] p v Hs Hn Hv Hle; cbn [length] in Hn; try lia;
    cbn [parse_digits].
  - rewrite (rd_head _ _ _ Hs). orun. cbn [digit_text fmap list_fmap app]. rewrite Hr. by rewrite Z.add_0_r.
  - cbn [digit_text fmap list_fmap app] in Hs. rewrite (rd_head _ _ _ Hs). orun. cbn [head default from_option id].
    assert (digit_char d = d + 48) as Ed by (unfold digit_char; by replace (9 <? d) with false by lia).
    rewrite Ed. unfold is_digit. replace ((48 <=? d + 48) && (d + 48 <=? 57)) with true by lia.
    change (read_digits 10 v (d :: ds)) with (read_digits 10 (v * 10 + d) ds) in *.
    pose proof (read_digits_mono 10 ds (v * 10 + d) ltac:(lia) Hds ltac:(lia)).
    unfold int_of, INT_MIN, INT_MAX in *.
    replace ((- 2 ^ 31 <=? v * 10) && (v * 10 <=? 2 ^ 31 - 1)) with true by lia. orun.
    replace (v * 10 + (d + 48 - 48)) with (v * 10 + d) by lia.
    replace ((- 2 ^ 31 <=? v * 10 + d) && (v * 10 + d <=? 2 ^ 31 - 1)) with true by lia. orun.
    rewrite IH; [|apply Hs|lia|lia|lia]. cbn [length].
    by replace (p + Z.of_nat (S (length ds))) with (p + 1 + Z.of_nat (length ds)) by lia.
Qed.

Lemma conversions_char c : c ∈ conversions → is_digit c = false ∧ c ≠ 46 ∧ c ≠ 48 ∧ c ≠ 0 ∧ c ≠ 37.
Proof. unfold conversions. rewrite !elem_of_cons, elem_of_nil. intros Hc. unfold is_digit. lia. Qed.

Lemma number_of_head ds : head (digit_text ds) = digit_char <$> head ds.
Proof. by destruct ds. Qed.

(** The precision and conversion of a directive. *)
Definition prec_text (o : option (list Z)) : list Z :=
  match o with Some ds => 46 :: digit_text ds | None => [] end.
Definition prec_value (o : option (list Z)) : Z := match o with Some ds => number_of ds | None => 0 end.

Lemma digit_text_length ds : length (digit_text ds) = length ds.
Proof. apply length_fmap. Qed.

Lemma parse_prec_run m q o k r n :
  cstr m q (prec_text o ++ k :: r) → match o with Some ds => small_number ds | None => True end →
  k ∈ conversions → (length (prec_text o) < n)%nat →
  parse_precision n m q =
    Ret (q + Z.of_nat (length (prec_text o)), prec_value o, match o with Some _ => true | None => false end).
Proof.
  intros Hs Ho Hk Hn. destruct (conversions_char k Hk) as (Kd & K46 & _). unfold parse_precision.
  rewrite (rd_head _ _ _ Hs). orun. destruct o as [ds|]; cbn [prec_text app head default from_option id length] in *.
  - change (46 =? 46) with true. cbv iota. destruct Ho as [Hds Hle]. rewrite digit_text_length in Hn.
    rewrite (parse_digits_run _ _ _ _ ds (k :: r)); [|apply Hs|done|lia|done|done|done].
    orun. rewrite digit_text_length. cbn [prec_value].
    by replace (q + Z.of_nat (S (length ds))) with (q + 1 + Z.of_nat (length ds)) by lia.
  - replace (k =? 46) with false by lia. by rewrite Z.add_0_r.
Qed.

Lemma parse_spec_run m p d r :
  dir_ok d → cstr m p (dir_text d ++ r) →
  parse_format_spec m p = Ret (p + Z.of_nat (length (dir_text d)), dir_spec d).
Proof.
  intros [[Hwd Hwl] Hw0 Hp Hk] Hs. pose proof (cstr_fuel _ _ _ Hs) as Hf. rewrite length_app in Hf.
  destruct (conversions_char _ Hk) as (Kd & K46 & K48 & K0 & K37).
  unfold parse_format_spec. fold (prec_text (d_prec d)) in *.
  assert (dir_text d = (if d_zero d then [48] else []) ++ digit_text (d_width d) ++ prec_text (d_prec d) ++ [d_conv d])
    as Et by done.
  rewrite Et in Hs, Hf |- *. rewrite !length_app, digit_text_length in Hf |- *.
  rewrite <- !(assoc app) in Hs. set (t2 := prec_text (d_prec d) ++ [d_conv d] ++ r) in *.
  assert ((default 0 (head ((if d_zero d then [48] else []) ++ digit_text (d_width d) ++ t2)) =? 48) = d_zero d) as E0.
  { destruct (d_zero d); [done|]. cbn [app]. destruct (d_width d) as [|w ws]; cbn [digit_text fmap list_fmap app].
    - unfold t2. destruct (d_prec d); cbn; lia.
    - apply Forall_cons in Hwd as [Hw _]. cbn. unfold digit_char. replace (9 <? w) with false by lia.
      cbn in Hw0. assert (w ≠ 0) by congruence. lia. }
  rewrite (rd_head _ _ _ Hs). orun. rewrite E0.
  set (q := if d_zero d then p + 1 else p).
  assert (q = p + Z.of_nat (length (if d_zero d then [48] else []))) as Eq by (unfold q; destruct (d_zero d); cbn; lia).
  pose proof (cstr_app _ _ _ _ Hs) as Hs1. rewrite <- Eq in Hs1.
  rewrite (parse_digits_run _ _ _ _ (d_width d) t2); [|exact Hs1|done|lia|done|done|].
  2:{ unfold t2. destruct (d_prec d); cbn; [done|exact Kd]. }
  orun. pose proof (cstr_app _ _ _ _ Hs1) as Hs2. rewrite digit_text_length in Hs2. unfold t2 in Hs2.
  rewrite (parse_prec_run _ _ (d_prec d) (d_conv d) r); [|exact Hs2|done|done|lia].
  orun. pose proof (cstr_app _ _ _ _ Hs2) as Hs3. rewrite (rd_head _ _ _ Hs3). orun.
  cbn [head default from_option id app]. replace (d_conv d =? 0) with false by lia. cbn [negb].
  unfold dir_spec. rewrite Eq. cbn [length].
  match goal with |- Ret (?a, _) = Ret (?b, _) => replace a with b by lia end. done.
Qed.

(** ** Digits, as the formatter makes them *)

Lemma unsigned_loop_run k n v base tmp :
  (n < k)%nat → 2 ≤ base → 0 ≤ v < 2 ^ Z.of_nat n →
  unsigned_loop k v base tmp = Ret (tmp ++ digit_text (digits_rev k base v)).
Proof.
  intros Hk Hb. revert n v tmp Hk. induction k as [|k IH]; intros n v tmp Hk Hv; [lia|].
  cbn [unsigned_loop digits_rev]. destruct (Z.eqb_spec v 0); [by rewrite app_nil_r|].
  destruct n as [|n]; [cbn in Hv; lia|]. rewrite (IH n); [by rewrite <- (assoc app)|lia|].
  split; [apply Z.div_pos; lia|]. apply Z.div_lt_upper_bound; [lia|].
  rewrite Nat2Z.inj_succ, Z.pow_succ_r in Hv by lia. nia.
Qed.

Lemma digits_rev_fuel k j n base v :
  (n < k)%nat → (n < j)%nat → 2 ≤ base → 0 ≤ v < 2 ^ Z.of_nat n → digits_rev k base v = digits_rev j base v.
Proof.
  intros Hk Hj Hb. revert j n v Hk Hj. induction k as [|k IH]; intros [|j] n v Hk Hj Hv; try lia.
  cbn [digits_rev]. destruct (Z.eqb_spec v 0); [done|]. f_equal.
  destruct n as [|n]; [cbn in Hv; lia|]. apply (IH j n); [lia|lia|].
  split; [apply Z.div_pos; lia|]. apply Z.div_lt_upper_bound; [lia|].
  rewrite Nat2Z.inj_succ, Z.pow_succ_r in Hv by lia. nia.
Qed.

Lemma format_unsigned_run v base :
  2 ≤ base → 0 ≤ v < 2 ^ 64 → format_unsigned v base = Ret (number_text base v).
Proof.
  intros Hb Hv. unfold format_unsigned, number_text, number_digits. destruct (v =? 0); [done|].
  rewrite (unsigned_loop_run 66 64) by (done || lia). orun. cbn [app]. unfold digit_text.
  rewrite rev_fmap. by rewrite (digits_rev_fuel 66 65 64) by (done || lia).
Qed.

Lemma binary_text_run x : 0 ≤ x < 2 ^ 32 → binary_text x = Ret ([48; 98] ++ number_text 2 x).
Proof.
  intros Hx. unfold binary_text.
  assert (mapped local_buf 4096 37) as Hm.
  { intros i Hi.
    assert (bool_decide (Forall (λ k, is_Some (local_buf !! (4096 + Z.of_nat k))) (seq 0 37)) = true) as H
      by (vm_compute; reflexivity).
    apply bool_decide_eq_true_1 in H. rewrite Forall_forall in H.
    replace i with (Z.of_nat (Z.to_nat i)) by lia. apply H, elem_of_seq. lia. }
  destruct (itoa_run 32 local_buf x 4096 2) as (m' & Hr & Hc & _); [lia|lia|exact Hm|lia|cbn; lia|].
  rewrite Hr. orun. rewrite (text_of_run _ _ _ Hc). unfold itoa_text.
  replace (x <? 0) with false by lia. by rewrite Z.abs_eq by lia.
Qed.

(** ** Writing *)
Section writing.
Context {C : Type} (write : list Z → prog C bool) {sink : Sink write}.
Abbreviation wall := (write_all write).

(** The output so far is [o]. *)
Definition wrote_out (st : vst C) (o : list Z) : Prop :=
  sink_rep (v_ctx st) o ∧ v_written st = Z.of_nat (length o).

(** The program appends [data] to the output and does not fail. *)
Definition emits (p : prog (vst C) bool) (data : list Z) : Prop :=
  ∀ st o, wrote_out st o → Z.of_nat (length (o ++ data)) ≤ INT_MAX →
    ∃ st', p st = Ret (true, st') ∧ wrote_out st' (o ++ data).

Lemma emits_write data : emits (wall data) data.
Proof using Type.
  intros st o [Hr Hw] Hle. unfold write_all. rewrite length_app in Hle.
  rewrite (proj2 (Z.ltb_ge (INT_MAX - v_written st) _)) by lia.
  destruct data as [|c data].
  - cbn. eexists. split; [done|]. rewrite app_nil_r. split; [done|]. cbn. lia.
  - rewrite (proj2 (Z.ltb_lt 0 _)) by (cbn [length]; lia). destruct (sink_write (c :: data) _ _ Hr) as (c' & Hc & Hr').
    rewrite Hc. orun. eexists. split; [done|]. split; [done|]. rewrite length_app. cbn. cbn in Hw. lia.
Qed.

Lemma emits_nil : emits (mret true) [].
Proof using Type. intros st o Hst _. exists st. by rewrite app_nil_r. Qed.

Lemma emits_then a b da db : emits a da → emits b db → emits (and_then a b) (da ++ db).
Proof using Type.
  intros Ha Hb st o Hst Hle. rewrite (assoc app) in Hle. pose proof Hle as Hle'. rewrite length_app in Hle'.
  destruct (Ha st o Hst ltac:(lia)) as (st1 & Hr1 & Hst1). unfold and_then. rewrite (bind_run _ _ _ _ _ Hr1).
  destruct (Hb st1 _ Hst1 Hle) as (st2 & Hr2 & Hst2). exists st2. by rewrite (assoc app).
Qed.

Lemma emits_repeated c n : emits (write_repeated write c n) (replicate n c).
Proof using Type.
  induction n as [|n IH]; [apply emits_nil|]. cbn [write_repeated replicate].
  apply (emits_then _ _ [c]); [apply emits_write|done].
Qed.

Lemma emits_number d is_signed a :
  dir_ok d → 0 ≤ a < 2 ^ 64 → (is_signed = true → a ≠ 2 ^ 63) →
  emits (write_formatted_number write (dir_spec d) is_signed a) (number_out d is_signed a).
Proof using Type.
  intros Hd Ha Hmin st o Hst Hle. unfold write_formatted_number.
  set (neg := is_signed && (2 ^ 63 <=? a)).
  replace (neg && (a =? 2 ^ 63)) with false by (unfold neg; destruct is_signed; [specialize (Hmin eq_refl)|]; lia).
  cbv zeta. cbn [conversion dir_spec]. set (base := if d_conv d =? 120 then 16 else 10).
  set (v := if neg then 2 ^ 64 - a else a).
  assert (0 ≤ v < 2 ^ 64) as Hv by (unfold v, neg in *; destruct is_signed, (Z.leb_spec (2 ^ 63) a); cbn in *; lia).
  assert (2 ≤ base) as Hb by (unfold base; destruct (d_conv d =? 120); lia).
  erewrite bind_run by (unfold lift; rewrite (format_unsigned_run v base Hb Hv); reflexivity).
  revert Hle. unfold number_out. fold neg base v. set (digits := number_text base v). intros Hle.
  set (sg := if neg then [45] else []) in *.
  assert (emits (if neg then wall [45] else mret true) sg) as Hsg
    by (unfold sg; destruct neg; [apply emits_write|apply emits_nil]).
  assert (Z.of_nat (length (sg ++ digits)) = (if neg then 1 else 0) + Z.of_nat (length digits)) as El
    by (rewrite length_app; unfold sg; destruct neg; cbn; lia).
  rewrite El in *. cbn [precision_set precision dir_spec width zero_pad].
  assert (∀ pad zeros, emits (and_then (write_repeated write 32 pad) (and_then (if neg then wall [45] else mret true)
    (and_then (write_repeated write 48 zeros) (wall digits)))) (replicate pad 32 ++ sg ++ replicate zeros 48 ++ digits)) as Hem.
  { intros pad zeros. apply emits_then; [apply emits_repeated|]. apply emits_then; [done|].
    apply emits_then; [apply emits_repeated|apply emits_write]. }
  assert (∀ x y, (if x <? y then y - x else 0) = Z.max 0 (y - x)) as Hmax
    by (intros x y; destruct (Z.ltb_spec x y); lia).
  destruct (d_prec d) as [p|]; cbn [andb negb] in *.
  - rewrite andb_false_r, !Hmax.
    replace ((if neg then 1 else 0) + Z.max 0 (number_of p - Z.of_nat (length digits)) + Z.of_nat (length digits))
      with ((if neg then 1 else 0) + Z.of_nat (length digits) + Z.max 0 (number_of p - Z.of_nat (length digits))) by lia.
    destruct (d_zero d); by apply Hem.
  - rewrite andb_true_r, !Hmax. rewrite !Z.add_0_r in *.
    destruct (d_zero d); cbn [negb] in *; [|by apply Hem].
    by apply (Hem 0%nat).
Qed.

(** One conversion. *)
Lemma convert_run m delim fmt d a args out st o :
  dir_ok d → converts m d a out → wrote_out st o → Z.of_nat (length (o ++ out)) ≤ INT_MAX →
  ∃ st', convert write m delim fmt (dir_spec d) (a :: args) st = Ret ((true, args, fmt), st') ∧
    wrote_out st' (o ++ out).
Proof using Type.
  intros Hd Hc Hst Hle.
  assert (∀ p, emits p out → ∃ st', (ok ← p; mret (ok, args, fmt)) st = Ret ((true, args, fmt), st') ∧
    wrote_out st' (o ++ out)) as Hdone.
  { intros p Hp. destruct (Hp st o Hst Hle) as (st' & Hr & Hw). exists st'. by rewrite (bind_run _ _ _ _ _ Hr). }
  unfold convert. cbn [conversion dir_spec next_arg].
  destruct Hc as [E|E ->|s E Ha Hs|E Hmin|E|E].
  - replace (d_conv d =? 99) with true by lia. erewrite bind_run by reflexivity. cbv beta iota. apply Hdone, emits_write.
  - replace (d_conv d =? 99) with false by lia. replace (d_conv d =? 115) with true by lia.
    erewrite bind_run by reflexivity. cbv beta iota. change (0 =? 0) with true. cbv iota.
    erewrite bind_run by reflexivity. cbv beta iota. apply Hdone, emits_write.
  - replace (d_conv d =? 99) with false by lia. replace (d_conv d =? 115) with true by lia.
    erewrite bind_run by reflexivity. cbv beta iota. rewrite (proj2 (Z.eqb_neq a 0) Ha).
    erewrite bind_run by (unfold lift; rewrite (text_of_run _ _ _ Hs); reflexivity). apply Hdone, emits_write.
  - replace (d_conv d =? 99) with false by lia. replace (d_conv d =? 115) with false by lia.
    replace ((d_conv d =? 100) || (d_conv d =? 105)) with true by lia. erewrite bind_run by reflexivity. cbv beta iota.
    apply Hdone, emits_number; [done|apply u64_range|done].
  - replace (d_conv d =? 99) with false by lia. replace (d_conv d =? 115) with false by lia.
    replace ((d_conv d =? 100) || (d_conv d =? 105)) with false by lia.
    replace ((d_conv d =? 120) || (d_conv d =? 117)) with true by lia. erewrite bind_run by reflexivity. cbv beta iota.
    apply Hdone, emits_number; [done|apply u64_range|done].
  - rewrite E. cbn [Z.eqb Pos.eqb orb]. erewrite bind_run by reflexivity. cbv beta iota.
    erewrite bind_run by (unfold lift; rewrite binary_text_run by (unfold u32; apply Z.mod_pos_bound; lia); reflexivity).
    apply Hdone, emits_write.
Qed.

(** ** Whole formats *)

(** Pieces of literal text, each followed by a directive, and a last text. *)
Fixpoint format_text (segs : list (list Z * directive)) (rest : list Z) : list Z :=
  match segs with
  | [] => rest
  | (t, d) :: segs' => t ++ 37 :: dir_text d ++ format_text segs' rest
  end.

Definition plain (t : list Z) : Prop := Forall (λ c, c ≠ 37) t.

(** The output for an argument list. *)
Inductive expands (m : mem) (rest : list Z) : list (list Z * directive) → list Z → list Z → Prop :=
| ex_nil args : expands m rest [] args rest
| ex_cons t d segs a args out o :
    converts m d a out → expands m rest segs args o →
    expands m rest ((t, d) :: segs) (a :: args) (t ++ out ++ o).

(** The end of a literal piece: the end of the format or a directive. *)
Definition stops (r : list Z) : Prop := default 0 (head r) = 0 ∨ default 0 (head r) = 37.

Lemma literal_len_run n m p len s r :
  cstr m (p + len) (s ++ r) → plain s → stops r → (length s < n)%nat →
  literal_len n m p len = Ret (len + Z.of_nat (length s)).
Proof using Type.
  intros Hs Hp Hr. revert n len Hs. induction Hp as [|c s Hc _ IH]; intros [|n] len Hs Hn; cbn [length] in Hn; try lia;
    cbn [literal_len]; rewrite (rd_head _ _ _ Hs); orun.
  - cbn [app]. destruct Hr as [-> | ->]; cbn; by rewrite Z.add_0_r.
  - destruct Hs as (_ & Hcr & Hs). cbn [app head default from_option id].
    replace ((c =? 0) || (c =? 37)) with false by lia.
    rewrite IH by (rewrite <- ?Z.add_assoc in *; done || lia). cbn [length].
    by replace (len + Z.of_nat (S (length s))) with (len + 1 + Z.of_nat (length s)) by lia.
Qed.

(** A literal piece is written as it is. *)
Lemma literal_run m fmt c t r st o :
  cstr m fmt (c :: t ++ r) → plain (c :: t) → stops r → wrote_out st o →
  Z.of_nat (length (o ++ c :: t)) ≤ INT_MAX →
  ∃ st', literal write m fmt st =
      Ret (Some (fmt + Z.of_nat (length (c :: t)), default 0 (head r) =? 0), st') ∧
    wrote_out st' (o ++ c :: t).
Proof using Type.
  intros Hs [Hc Hp]%Forall_cons Hr Hst Hle. unfold literal.
  erewrite bind_run by (unfold lift; rewrite (rd_head _ _ _ Hs); reflexivity).
  cbn [head default from_option id]. rewrite (proj2 (Z.eqb_neq c 37) Hc). cbn [negb].
  erewrite bind_run by reflexivity. cbv iota.
  pose proof (cstr_fuel _ _ _ Hs) as Hf. cbn [length] in Hf. rewrite length_app in Hf.
  pose proof (cstr_tail _ _ _ _ Hs) as Hs1.
  erewrite bind_run by (unfold lift; rewrite (literal_len_run _ _ _ _ t r) by (done || lia); reflexivity).
  replace (1 + Z.of_nat (length t)) with (Z.of_nat (length (c :: t))) by (cbn [length]; lia). rewrite Nat2Z.id.
  erewrite bind_run by (unfold lift; rewrite (bytes_of_run m fmt (c :: t) r) by done; reflexivity).
  destruct (emits_write (c :: t) st o Hst Hle) as (st' & Hw & Hst').
  rewrite (bind_run _ _ _ _ _ Hw). cbv iota.
  pose proof (cstr_app m fmt (c :: t) r Hs) as Hs2.
  erewrite bind_run by (unfold lift; rewrite (rd_head _ _ _ Hs2); reflexivity). by exists st'.
Qed.

(** A directive at once: nothing is written. *)
Lemma literal_none m fmt c r st :
  cstr m fmt (37 :: c :: r) → c ≠ 37 → literal write m fmt st = Ret (Some (fmt, false), st).
Proof using Type.
  intros Hs Hc. unfold literal. erewrite bind_run by (unfold lift; rewrite (rd_head _ _ _ Hs); reflexivity).
  cbn [head default from_option id]. change (37 =? 37) with true. cbn [negb].
  rewrite bind_assoc_run. pose proof (cstr_tail _ _ _ _ Hs) as Hs1.
  erewrite bind_run by (unfold lift; rewrite (rd_head _ _ _ Hs1); reflexivity).
  erewrite bind_run by reflexivity. cbn [head default from_option id]. by rewrite (proj2 (Z.eqb_neq c 37) Hc).
Qed.

Lemma dir_text_head d r : dir_ok d → ∃ c r', dir_text d ++ r = c :: r' ∧ c ≠ 37.
Proof using Type.
  intros [[Hw _] _ Hp Hk]. destruct (conversions_char _ Hk) as (_ & _ & _ & _ & K). unfold dir_text.
  destruct (d_zero d); [cbn; by eexists _, _|]. cbn [app].
  destruct (d_width d) as [|w ws]; cbn [digit_text fmap list_fmap app].
  - destruct (d_prec d); cbn; by eexists _, _.
  - apply Forall_cons in Hw as [Hw _]. pose proof (digit_char_range w). eexists _, _. split; [done|lia].
Qed.

(** The literal text before a directive, empty or not. *)
Lemma literal_seg m fmt t d r st o :
  cstr m fmt (t ++ 37 :: dir_text d ++ r) → plain t → dir_ok d → wrote_out st o →
  Z.of_nat (length (o ++ t)) ≤ INT_MAX →
  ∃ st', literal write m fmt st = Ret (Some (fmt + Z.of_nat (length t), false), st') ∧ wrote_out st' (o ++ t).
Proof using Type.
  intros Hs Hp Hd Hst Hle. destruct t as [|c t].
  - destruct (dir_text_head d r Hd) as (c & r' & E & Hc). cbn [app] in Hs. rewrite E in Hs.
    exists st. rewrite app_nil_r. split; [|done]. rewrite (literal_none _ _ _ _ _ Hs Hc). cbn. by rewrite Z.add_0_r.
  - exact (literal_run m fmt c t _ st o Hs Hp (or_intror eq_refl) Hst Hle).
Qed.

Lemma vformat_loop_run n m fmt segs rest args out st o :
  cstr m fmt (format_text segs rest) → Forall (λ s, plain (fst s) ∧ dir_ok (snd s)) segs → plain rest →
  expands m rest segs args out → wrote_out st o → Z.of_nat (length (o ++ out)) ≤ INT_MAX →
  (length segs + (if decide (rest = []) then 0 else 1) < n)%nat →
  ∃ st', vformat_loop write n m fmt args st = Ret (true, st') ∧ wrote_out st' (o ++ out).
Proof using Type.
  intros Hs Hsegs Hrest Hex. revert n fmt st o Hs Hsegs.
  induction Hex as [args|t d segs a args out o' Hcv Hex IH]; intros [|n] fmt st o Hs Hsegs Hst Hle Hn; try (cbn in Hn; lia);
    cbn [vformat_loop].
  - cbn [format_text] in Hs. erewrite bind_run by (unfold lift; rewrite (rd_head _ _ _ Hs); reflexivity).
    destruct rest as [|c rest].
    { exists st. by rewrite app_nil_r. }
    cbn [head default from_option id]. pose proof Hs as (_ & Hc & _). replace (c =? 0) with false by lia.
    destruct (literal_run m fmt c rest [] st o) as (st' & Hr & Hw); try done;
      [by rewrite app_nil_r|by left|]. rewrite (bind_run _ _ _ _ _ Hr). by exists st'.
  - apply Forall_cons in Hsegs as [[Hp Hd] Hsegs]. cbn [fst snd format_text] in *.
    rewrite !length_app in Hle.
    assert (default 0 (head (t ++ 37 :: dir_text d ++ format_text segs rest)) ≠ 0) as Hne.
    { destruct t as [|c t]; [done|]. destruct Hs as (_ & Hc & _). cbn. lia. }
    erewrite bind_run by (unfold lift; rewrite (rd_head _ _ _ Hs); reflexivity).
    rewrite (proj2 (Z.eqb_neq _ 0) Hne).
    destruct (literal_seg m fmt t d _ st o Hs Hp Hd Hst) as (st1 & Hr1 & Hst1); [rewrite length_app; lia|].
    rewrite (bind_run _ _ _ _ _ Hr1). cbv beta iota.
    pose proof (cstr_tail _ _ _ _ (cstr_app _ _ _ _ Hs)) as Hs1.
    erewrite bind_run by (unfold lift; rewrite (parse_spec_run _ _ d _ Hd Hs1); reflexivity). cbv beta iota.
    destruct (convert_run m (fmt + Z.of_nat (length t)) (fmt + Z.of_nat (length t) + 1 + Z.of_nat (length (dir_text d)))
      d a args out st1 (o ++ t) Hd Hcv Hst1) as (st2 & Hr2 & Hst2); [rewrite !length_app; lia|].
    rewrite (bind_run _ _ _ _ _ Hr2). cbv beta iota.
    destruct (IH n (fmt + Z.of_nat (length t) + 1 + Z.of_nat (length (dir_text d))) st2 ((o ++ t) ++ out)) as (st3 & Hr3 & Hst3); try done.
    + by apply cstr_app in Hs1.
    + rewrite !length_app. lia.
    + cbn in Hn. lia.
    + exists st3. split; [done|]. by rewrite !(assoc app).
Qed.

Lemma format_text_length segs rest :
  (length segs + (if decide (rest = []) then 0 else 1) ≤ length (format_text segs rest))%nat.
Proof using Type.
  induction segs as [|[t d] segs IH]; cbn [format_text length].
  - destruct (decide (rest = [])); [lia|]. destruct rest; [done|]. cbn; lia.
  - rewrite length_app. cbn [length]. rewrite length_app. lia.
Qed.

Lemma vformat_run m fmt segs rest args out c :
  cstr m fmt (format_text segs rest) → Forall (λ s, plain (fst s) ∧ dir_ok (snd s)) segs → plain rest →
  expands m rest segs args out → sink_rep c [] → Z.of_nat (length out) ≤ INT_MAX →
  ∃ c', vformat write m fmt args c = Ret (Z.of_nat (length out), c') ∧ sink_rep c' out.
Proof using Type.
  intros Hs Hsegs Hrest Hex Hc Hle. unfold vformat.
  pose proof (cstr_fuel _ _ _ Hs) as Hf. pose proof (format_text_length segs rest).
  destruct (vformat_loop_run (S (size m)) m fmt segs rest args out (MkV c 0) []) as (st & Hr & [Hrep Hw]); try done; [lia|].
  rewrite Hr. orun. exists (v_ctx st). cbn [app] in *. by rewrite Hw.
Qed.
End writing.

(** ** The buffer of [vsnprintf] *)

(** How much of an output fits before the terminator. *)
Definition kept (size : Z) (o : list Z) : nat := Z.to_nat (Z.min (Z.of_nat (length o)) (Z.max 0 (size - 1))).

(** The buffer holds the part of the output that fits, then what it held before. *)
Definition buffer_rep (buf0 : list Z) (size : Z) (ctx : snprintf_ctx) (o : list Z) : Prop :=
  sn_size ctx = size ∧ sn_written ctx = Z.of_nat (length o) ∧
  sn_buffer ctx = take (kept size o) o ++ drop (kept size o) buf0.

Lemma snprintf_write_run buf0 size data ctx o :
  0 ≤ size ≤ Z.of_nat (length buf0) → buffer_rep buf0 size ctx o →
  ∃ ctx', snprintf_write data ctx = Ret (true, ctx') ∧ buffer_rep buf0 size ctx' (o ++ data).
Proof.
  intros Hsz. revert ctx o. induction data as [|d data IH]; intros ctx o (E1 & E2 & E3); cbn [snprintf_write].
  { exists ctx. rewrite app_nil_r. by split. }
  rewrite E1, E2. replace (o ++ d :: data) with ((o ++ [d]) ++ data) by (by rewrite <- (assoc app)).
  destruct (Z.ltb_spec 0 size); cbn [andb]; [destruct (Z.ltb_spec (Z.of_nat (length o)) (size - 1))|].
  - assert (kept size o = length o) as Ek by (unfold kept; lia).
    assert (kept size (o ++ [d]) = S (length o)) as Ek' by (unfold kept; rewrite length_app; cbn; lia).
    rewrite E3, Ek, take_ge, Nat2Z.id by lia.
    assert (length o < length buf0)%nat as Hlt by lia.
    destruct (drop (length o) buf0) as [|x r] eqn:Ed; [apply (f_equal length) in Ed; rewrite length_drop in Ed; cbn in Ed; lia|].
    rewrite lookup_app_r, Nat.sub_diag by lia. cbn [lookup list_lookup].
    apply IH. split; [done|]. split; [cbn; rewrite length_app; cbn; lia|]. cbn [sn_buffer].
    rewrite Ek', take_ge by (rewrite length_app; cbn; lia).
    rewrite insert_app_r_alt, Nat.sub_diag by lia. cbn. rewrite <- (assoc app). cbn. do 2 f_equal.
    change (S (length o)) with (1 + length o)%nat. rewrite Nat.add_comm, <- drop_drop, Ed. done.
  - apply IH. split; [done|]. split; [cbn; rewrite length_app; cbn; lia|]. cbn [sn_buffer]. rewrite E3.
    assert (kept size (o ++ [d]) = kept size o) as -> by (unfold kept; rewrite length_app; cbn; lia).
    by rewrite take_app_le by (unfold kept; lia).
  - apply IH. split; [done|]. split; [cbn; rewrite length_app; cbn; lia|]. cbn [sn_buffer]. rewrite E3.
    assert (kept size (o ++ [d]) = kept size o) as -> by (unfold kept; lia).
    by rewrite take_app_le by (unfold kept; lia).
Qed.

#[global] Instance snprintf_sink buf0 size (H : 0 ≤ size ≤ Z.of_nat (length buf0)) : Sink snprintf_write := {
  sink_rep := buffer_rep buf0 size;
  sink_write := λ data c o Hr, snprintf_write_run buf0 size data c o H Hr;
}.

(** C28: The formatter, for any callback that takes what it is given: a format
    made of literal texts and directives ([%c], [%s], [%d], [%i], [%u], [%x],
    [%b] with the zero flag, width and precision) writes exactly the texts and
    the converted arguments in order, and returns their total length, for every
    output an [int] can count.  A number is written with its sign, padded with
    zeroes to its precision and with spaces or zeroes to its width. *)
Theorem vformat_expands {C} (write : list Z → prog C bool) `{Sink C write} m fmt segs rest args out c :
  cstr m fmt (format_text segs rest) → Forall (λ s, plain (fst s) ∧ dir_ok (snd s)) segs → plain rest →
  expands m rest segs args out → sink_rep c [] → Z.of_nat (length out) ≤ INT_MAX →
  ∃ c', vformat write m fmt args c = Ret (Z.of_nat (length out), c') ∧ sink_rep c' out.
Proof. apply vformat_run. Qed.

(** C29: [vsnprintf] returns the length of the whole output and never writes
    outside of the [size] bytes it was given: the buffer holds as much of the
    output as fits, terminated, and its other bytes are as before; with size 0
    it is untouched. *)
Theorem vsnprintf_bounded m buf size fmt segs rest args out :
  cstr m fmt (format_text segs rest) → Forall (λ s, plain (fst s) ∧ dir_ok (snd s)) segs → plain rest →
  expands m rest segs args out → Z.of_nat (length out) ≤ INT_MAX → 0 ≤ size ≤ Z.of_nat (length buf) →
  vsnprintf m buf size fmt args =
    Ret (Z.of_nat (length out),
         if 0 <? size then take (kept size out) out ++ [0] ++ drop (S (kept size out)) buf else buf).
Proof.
  intros Hs Hsegs Hrest Hex Hle Hsz. unfold vsnprintf.
  destruct (vformat_run snprintf_write (sink := snprintf_sink buf size Hsz) m fmt segs rest args out (MkCtx buf size 0))
    as (ctx & Hr & (E1 & E2 & E3)); try done.
  { split; [done|]. split; [done|]. unfold kept. by replace (Z.to_nat _) with 0%nat by (cbn; lia). }
  rewrite Hr. orun. replace (Z.of_nat (length out) <? 0) with false by lia. rewrite E3.
  destruct (Z.ltb_spec 0 size) as [H0|H0].
  - replace (Z.to_nat (if Z.of_nat (length out) <? size then Z.of_nat (length out) else size - 1))
      with (kept size out) by (unfold kept; destruct (Z.ltb_spec (Z.of_nat (length out)) size); lia).
    assert (length (take (kept size out) out) = kept size out) as El by (rewrite length_take; unfold kept; lia).
    destruct (drop (kept size out) buf) as [|x r] eqn:Ed.
    { apply (f_equal length) in Ed. rewrite length_drop in Ed. unfold kept in Ed. cbn in Ed. lia. }
    rewrite lookup_app_r, El, Nat.sub_diag by lia. cbn [lookup list_lookup].
    rewrite insert_app_r_alt, El, Nat.sub_diag by lia. cbn [insert list_insert app].
    change (S (kept size out)) with (1 + kept size out)%nat. by rewrite Nat.add_comm, <- drop_drop, Ed.
  - assert (kept size out = 0%nat) as -> by (unfold kept; lia). done.
Qed.

(** [x=%05d!] at 100. *)
Definition demo_dir : directive := MkDir true [5] None 100.
Definition demo_segs : list (list Z * directive) := [([120; 61], demo_dir)].
Definition demo_format : mem := put_str 100 (format_text demo_segs [33]) ∅.
(** The output for -42: [x=-0042!]. *)
Definition demo_out : list Z := [120; 61; 45; 48; 48; 52; 50; 33].

Lemma demo_segs_ok : Forall (λ s, plain (fst s) ∧ dir_ok (snd s)) demo_segs.
Proof.
  repeat constructor; cbn; try done; try lia; try (unfold number_of, INT_MAX; cbn; lia).
Qed.
Lemma demo_expands : expands demo_format [33] demo_segs [-42] demo_out.
Proof.
  apply (ex_cons demo_format [33] [120; 61] demo_dir [] (-42) [] [45; 48; 48; 52; 50] [33]); [|constructor].
  apply (conv_signed demo_format demo_dir (-42)); [by left|]. vm_compute. congruence.
Qed.
Lemma demo_format_text : cstr demo_format 100 (format_text demo_segs [33]).
Proof. solve_cstr. Qed.
Lemma demo_plain : plain [33].
Proof. repeat constructor. done. Qed.

Lemma vsnprintf_bounded_witness :
  vsnprintf demo_format [9; 9; 9; 9; 9; 9] 5 100 [-42] = Ret (8, [120; 61; 45; 48; 0; 9]).
Proof.
  refine (vsnprintf_bounded demo_format [9; 9; 9; 9; 9; 9] 5 100 demo_segs [33] [-42] demo_out _ _ _ _ _ _);
    [exact demo_format_text|exact demo_segs_ok|exact demo_plain|exact demo_expands|vm_compute; congruence|
     vm_compute; split; congruence].
Defined.

Lemma demo_size : 0 ≤ 9 ≤ Z.of_nat (length [9; 9; 9; 9; 9; 9; 9; 9; 9]).
Proof. vm_compute. split; congruence. Qed.

Lemma vformat_expands_witness :
  ∃ c', vformat snprintf_write demo_format 100 [-42] (MkCtx [9; 9; 9; 9; 9; 9; 9; 9; 9] 9 0) = Ret (8, c') ∧
    buffer_rep [9; 9; 9; 9; 9; 9; 9; 9; 9] 9 c' demo_out.
Proof.
  destruct (vformat_expands snprintf_write (H := snprintf_sink [9; 9; 9; 9; 9; 9; 9; 9; 9] 9 demo_size) demo_format 100
    demo_segs [33] [-42] demo_out (MkCtx [9; 9; 9; 9; 9; 9; 9; 9; 9] 9 0))
    as (c' & Hr & Hb); [exact demo_format_text|exact demo_segs_ok|exact demo_plain|exact demo_expands|
      by split|vm_compute; congruence|].
  exists c'. split; [exact Hr|exact Hb].
Defined.

(** [a%%b] is not unescaped: after a literal text the second test of the loop
    takes the two percent signs for an unknown directive, and the rest of the
    format is written as it stands. *)
Example percent_after_text :
  vsnprintf (put_str 100 [97; 37; 37; 98] ∅) [9; 9; 9; 9; 9; 9] 6 100 [] = Ret (4, [97; 37; 37; 98; 0; 9]).
Proof. vm_compute. reflexivity. Qed.
