(* ===== verification/TtyControl.v ===== *)
(** * TtyControl: [kernel/drivers/tty_control.c]

    The escape-sequence parser of the terminal: a three-state machine that
    passes text through and turns [ESC [ params command] into cursor moves and
    display clears.  The terminal is seen through the calls the parser makes on
    it ([tty_call]) and its size. *)
From S2P Require Import Prelude Cstring Number.

(** ** Data *)
Definition TTY_CONTROL_MAX_PARAMS : Z := 8.
Definition TTY_CONTROL_PARAM_NONE : Z := UINT64_MAX.

Inductive tty_control_state := TEXT | ESCAPE | CSI.

Record tty_control_sequence := MkSeq { command : Z; params : list Z; param_count : Z }.

Record tty_control_parser := MkParser {
  state : tty_control_state;
  sequence : tty_control_sequence;
  current_param : Z;
  has_current_param : bool;
  last_was_separator : bool;
}.

(** The calls on the terminal. *)
Inductive tty_call :=
| terminal_putchar (c : Z)
| terminal_set_cursor_pos (row col : Z)
| terminal_clear_display (mode : Z).

#[global] Instance tty_call_eq_dec : EqDecision tty_call.
Proof. solve_decision. Defined.

(** Characters. *)
Definition ESC : Z := 27.
Definition c_bracket : Z := 91.
Definition c_semicolon : Z := 59.

Definition tty_control_is_alpha (c : Z) : bool :=
  ((65 <=? c) && (c <=? 90)) || ((97 <=? c) && (c <=? 122)).
Definition tty_control_is_digit (c : Z) : bool := (48 <=? c) && (c <=? 57).

(** ** Operations *)
Definition clear_sequence (s : tty_control_sequence) : tty_control_sequence := MkSeq 0 (params s) 0.

Definition tty_control_reset (p : tty_control_parser) : tty_control_parser :=
  MkParser TEXT (clear_sequence (sequence p)) 0 false false.
Definition tty_control_csi_begin (p : tty_control_parser) : tty_control_parser :=
  MkParser CSI (clear_sequence (sequence p)) 0 false false.

Definition tty_control_param_push (p : tty_control_parser) : tty_control_parser :=
  let s := sequence p in
  let s' :=
    if param_count s <? TTY_CONTROL_MAX_PARAMS then
      MkSeq (command s)
        (<[Z.to_nat (param_count s) :=
             if has_current_param p then current_param p else TTY_CONTROL_PARAM_NONE]> (params s))
        (param_count s + 1)
    else s in
  MkParser (state p) s' 0 false (last_was_separator p).

(** An index below [param_count] is inside the array. *)
Definition tty_control_param_or_default (s : tty_control_sequence) (idx default_value : Z) : Z :=
  let v := default 0 (params s !! Z.to_nat idx) in
  if (param_count s <=? idx) || (v =? TTY_CONTROL_PARAM_NONE) then default_value else v.

Definition u16 (z : Z) : Z := z mod 2 ^ 16.

Section parser.
(** [terminal_get_height()], [terminal_get_width()] *)
Context (terminal_height terminal_width : Z).

Definition tty_control_handle_h (s : tty_control_sequence) : list tty_call :=
  let row := tty_control_param_or_default s 0 1 in
  let col := tty_control_param_or_default s 1 1 in
  if (terminal_height =? 0) || (terminal_width =? 0) then []
  else
    let row := if row =? 0 then 1 else row in
    let col := if col =? 0 then 1 else col in
    let row := if terminal_height <? row then terminal_height else row in
    let col := if terminal_width <? col then terminal_width else col in
    [terminal_set_cursor_pos (u16 (row - 1)) (u16 (col - 1))].

Definition tty_control_handle_j (s : tty_control_sequence) : list tty_call :=
  let mode := tty_control_param_or_default s 0 0 in
  if (mode =? 0) || (mode =? 1) || (mode =? 2) then [terminal_clear_display mode] else [].

Definition tty_control_dispatch (s : tty_control_sequence) : list tty_call :=
  if (command s =? 72) || (command s =? 102) then tty_control_handle_h s
  else if command s =? 74 then tty_control_handle_j s
  else [].

(** One character. *)
Definition tty_control_step (p : tty_control_parser) (c : Z) : tty_control_parser * list tty_call :=
  match state p with
  | TEXT =>
      if c =? ESC then
        (MkParser ESCAPE (sequence p) (current_param p) (has_current_param p) (last_was_separator p), [])
      else (p, [terminal_putchar c])
  | ESCAPE =>
      if c =? c_bracket then (tty_control_csi_begin p, [])
      else if negb (c =? ESC) then (tty_control_reset p, [])
      else (p, [])
  | CSI =>
      if tty_control_is_digit c then
        (MkParser CSI (sequence p) (u64 (current_param p * 10 + (c - 48))) true false, [])
      else if c =? c_semicolon then
        let p := tty_control_param_push p in
        (MkParser (state p) (sequence p) (current_param p) (has_current_param p) true, [])
      else if tty_control_is_alpha c then
        let p := if has_current_param p || last_was_separator p then tty_control_param_push p else p in
        let s := MkSeq c (params (sequence p)) (param_count (sequence p)) in
        (tty_control_reset (MkParser (state p) s (current_param p) (has_current_param p)
                              (last_was_separator p)),
         tty_control_dispatch s)
      else (p, [])
  end.

Fixpoint tty_control_write (p : tty_control_parser) (data : list Z)
    : tty_control_parser * list tty_call :=
  match data with
  | [] => (p, [])
  | c :: data' =>
      let '(p1, ev1) := tty_control_step p c in
      let '(p2, ev2) := tty_control_write p1 data' in
      (p2, ev1 ++ ev2)
  end.

(** ** The language of the terminal

    Text, and control sequences with optional parameters. *)
Inductive item :=
| Text (c : Z)
| Control (ps : list (option Z)) (cmd : Z).

Definition param_text (o : option Z) : list Z :=
  match o with Some v => number_text 10 v | None => [] end.
Fixpoint params_text (ps : list (option Z)) : list Z :=
  match ps with
  | [] => []
  | [o] => param_text o
  | o :: ps' => param_text o ++ c_semicolon :: params_text ps'
  end.
Definition encode (i : item) : list Z :=
  match i with
  | Text c => [c]
  | Control ps cmd => ESC :: c_bracket :: params_text ps ++ [cmd]
  end.

(** A parameter the parser can tell from a missing one. *)
Definition param_ok (o : option Z) : Prop :=
  match o with Some v => 0 ≤ v < UINT64_MAX | None => True end.
Definition item_ok (i : item) : Prop :=
  match i with
  | Text c => c ≠ ESC
  | Control ps cmd => tty_control_is_alpha cmd = true ∧ Forall param_ok ps ∧ ps ≠ [None]
  end.

(** What an item means, from its parameters alone. *)
Definition param (ps : list (option Z)) (i : nat) (d : Z) : Z :=
  match ps !! i with Some (Some v) => v | _ => d end.
Definition clamp (v size : Z) : Z := Z.min (Z.max v 1) size - 1.
Definition meaning (i : item) : list tty_call :=
  match i with
  | Text c => [terminal_putchar c]
  | Control ps cmd =>
      if (cmd =? 72) || (cmd =? 102) then
        if (terminal_height =? 0) || (terminal_width =? 0) then []
        else [terminal_set_cursor_pos (u16 (clamp (param ps 0 1) terminal_height))
                (u16 (clamp (param ps 1 1) terminal_width))]
      else if cmd =? 74 then
        if (param ps 0 0 <=? 2) then [terminal_clear_display (param ps 0 0)] else []
      else []
  end.
End parser.

(** ** Reading sequences *)
Section reading.
Context (h w : Z).
Implicit Types (p : tty_control_parser) (s : tty_control_sequence).

(** Chunks of output can be split anywhere. *)
Lemma write_app p l1 l2 :
  tty_control_write h w p (l1 ++ l2) =
    let '(p1, e1) := tty_control_write h w p l1 in
    let '(p2, e2) := tty_control_write h w p1 l2 in (p2, e1 ++ e2).
Proof.
  revert p. induction l1 as [|c l1 IH]; intros p; cbn [app tty_control_write].
  - by destruct (tty_control_write h w p l2).
  - destruct (tty_control_step h w p c) as [p1 e1]. rewrite IH.
    destruct (tty_control_write h w p1 l1) as [p2 e2].
    destruct (tty_control_write h w p2 l2) as [p3 e3]. by rewrite app_assoc.
Qed.

Lemma digit_char_digit d : 0 ≤ d < 10 → tty_control_is_digit (digit_char d) = true ∧ digit_char d - 48 = d.
Proof.
  intros Hd. unfold digit_char, tty_control_is_digit.
  rewrite (proj2 (Z.ltb_ge 9 d)) by lia. split; [|lia]. apply andb_true_iff. lia.
Qed.

Lemma write_digits ds cur has sep s :
  Forall (λ d, 0 ≤ d < 10) ds → is_u64 cur → ds ≠ [] →
  tty_control_write h w (MkParser CSI s cur has sep) (digit_char <$> ds) =
    (MkParser CSI s (u64 (read_digits 10 cur ds)) true false, []).
Proof.
  revert cur has sep. induction ds as [|d ds IH]; intros cur has sep Hall Hc Hne; [done|].
  apply Forall_cons in Hall as [Hd Hall]. destruct (digit_char_digit d Hd) as [Hdig Hval].
  cbn [fmap list_fmap tty_control_write]. unfold tty_control_step. cbn [state sequence current_param].
  rewrite Hdig, Hval. destruct (decide (ds = [])) as [->|Hne'].
  - cbn [fmap list_fmap tty_control_write app]. unfold read_digits. done.
  - rewrite IH by (done || apply u64_range). cbn [app]. do 2 f_equal.
    assert (∀ l a, u64 (read_digits 10 (u64 a) l) = u64 (read_digits 10 a l)) as Hmod.
    { clear. induction l as [|e l IH]; intros a; unfold read_digits in *; cbn [fold_left].
      - unfold u64. by rewrite Z.mod_mod.
      - rewrite <- IH, <- (IH (a * 10 + e)). f_equal. f_equal. unfold u64.
        rewrite <- (Z.add_mod_idemp_l (a mod 2 ^ 64 * 10)), <- (Z.add_mod_idemp_l (a * 10)) by done.
        by rewrite Z.mul_mod_idemp_l. }
    unfold read_digits in *. cbn [fold_left]. apply Hmod.
Qed.

(** [s] holds the parameters pushed so far. *)
Definition pval (o : option Z) : Z := default TTY_CONTROL_PARAM_NONE o.
Record holds s (qs : list (option Z)) : Prop := {
  hd_len : length (params s) = 8%nat;
  hd_count : param_count s = Z.min 8 (Z.of_nat (length qs));
  hd_vals i o : (i < 8)%nat → qs !! i = Some o → params s !! i = Some (pval o);
}.

Lemma push_holds p qs o :
  holds (sequence p) qs → has_current_param p = bool_decide (is_Some o) →
  (has_current_param p = true → current_param p = pval o) →
  tty_control_param_push p = MkParser (state p) (sequence (tty_control_param_push p)) 0 false (last_was_separator p) ∧
  holds (sequence (tty_control_param_push p)) (qs ++ [o]).
Proof.
  intros [Hlen Hcnt Hvals] Hhas Hcur. split; [done|]. unfold tty_control_param_push.
  assert ((if has_current_param p then current_param p else TTY_CONTROL_PARAM_NONE) = pval o) as ->.
  { destruct (has_current_param p); [by apply Hcur|]. destruct o; [|done].
    rewrite bool_decide_true in Hhas; [done|by eexists]. }
  unfold TTY_CONTROL_MAX_PARAMS. cbn [sequence]. rewrite Hcnt.
  destruct (Z.ltb_spec (Z.min 8 (Z.of_nat (length qs))) 8) as [Hlt|Hge].
  - replace (Z.min 8 (Z.of_nat (length qs))) with (Z.of_nat (length qs)) by lia.
    rewrite Nat2Z.id. split; cbn [params param_count].
    + by rewrite length_insert.
    + rewrite length_app. simpl. lia.
    + intros i o' Hi Ho. destruct (decide (i = length qs)) as [->|Hne].
      * rewrite list_lookup_middle in Ho by done. injection Ho as <-.
        apply list_lookup_insert_eq. lia.
      * rewrite list_lookup_insert_ne by done. apply Hvals; [done|].
        apply lookup_app_Some in Ho as [?|[Hge Ho]]; [done|].
        apply list_lookup_singleton_Some in Ho as [? _]. lia.
  - split; cbn; [done|rewrite length_app; simpl; lia|].
    intros i o' Hi Ho. apply Hvals; [done|]. by rewrite lookup_app_l in Ho by lia.
Qed.

(** One parameter's text. *)
Lemma write_param o s sep :
  param_ok o →
  tty_control_write h w (MkParser CSI s 0 false sep) (param_text o) =
    (MkParser CSI s (default 0 o) (bool_decide (is_Some o))
       (if o is Some _ then false else sep), []).
Proof.
  intros Ho. destruct o as [v|]; [|done]. cbn [param_text default param_ok] in *. unfold UINT64_MAX in Ho.
  unfold number_text. rewrite write_digits.
  - by rewrite number_digits_read, u64_small by (unfold is_u64; lia).
  - apply number_digits_range; lia.
  - unfold is_u64; lia.
  - apply number_digits_nonempty.
Qed.

Lemma step_semicolon s cur has sep qs o :
  holds s qs → has = bool_decide (is_Some o) → (has = true → cur = pval o) →
  ∃ s', tty_control_step h w (MkParser CSI s cur has sep) c_semicolon = (MkParser CSI s' 0 false true, []) ∧
        holds s' (qs ++ [o]).
Proof.
  intros Hh Hhas Hcur. destruct (push_holds (MkParser CSI s cur has sep) qs o Hh Hhas Hcur) as [E Hh'].
  eexists. split; [|exact Hh']. unfold tty_control_step. cbn [state].
  change (tty_control_is_digit c_semicolon) with false. rewrite Z.eqb_refl. cbv iota.
  rewrite E. done.
Qed.

Lemma step_alpha p cmd :
  state p = CSI → tty_control_is_alpha cmd = true →
  ∃ p', tty_control_step h w p cmd =
    (p', tty_control_dispatch h w
       (let q := if has_current_param p || last_was_separator p then tty_control_param_push p else p in
        MkSeq cmd (params (sequence q)) (param_count (sequence q)))) ∧
    state p' = TEXT ∧
    params (sequence p') =
      params (sequence (if has_current_param p || last_was_separator p then tty_control_param_push p else p)).
Proof.
  intros Hs Ha. unfold tty_control_step. rewrite Hs.
  assert (tty_control_is_digit cmd = false ∧ (cmd =? c_semicolon) = false) as [-> ->].
  { unfold tty_control_is_alpha, tty_control_is_digit, c_semicolon in *. split; lia. }
  rewrite Ha. eexists. split; [done|]. by destruct (has_current_param p || last_was_separator p).
Qed.

(** The parameters and the command, from the bracket on. *)
Lemma write_params ps qs s sep cmd :
  holds s qs → Forall param_ok ps → tty_control_is_alpha cmd = true →
  (sep = false → ps ≠ [None]) → (ps = [] → sep = false) →
  ∃ p' s', tty_control_write h w (MkParser CSI s 0 false sep) (params_text ps ++ [cmd]) =
      (p', tty_control_dispatch h w s') ∧
    command s' = cmd ∧ holds s' (qs ++ ps) ∧ state p' = TEXT ∧ length (params (sequence p')) = 8%nat.
Proof.
  revert qs s sep. induction ps as [|o ps IH]; intros qs s sep Hh Hok Ha Hsep Hnil.
  { rewrite (Hnil eq_refl). cbn [params_text app tty_control_write].
    destruct (step_alpha (MkParser CSI s 0 false false) cmd eq_refl Ha) as (p' & -> & Hst & Hps).
    exists p'. eexists. rewrite !app_nil_r. split; [done|]. split; [done|]. destruct Hh as [H1 H2 H3].
    split; [by constructor; cbn in *|]. split; [done|]. by rewrite Hps. }
  apply Forall_cons in Hok as [Ho Hok]. destruct ps as [|o2 ps].
  - cbn [params_text]. rewrite write_app, write_param by done.
    set (p1 := MkParser _ _ _ _ _). cbn [tty_control_write].
    destruct (step_alpha p1 cmd eq_refl Ha) as (p' & -> & Hst & Hps).
    assert (has_current_param p1 || last_was_separator p1 = true) as Hpush.
    { destruct o; [done|]. cbn. destruct sep; [done|]. by destruct (Hsep eq_refl). }
    rewrite Hpush in Hps |- *.
    destruct (push_holds p1 qs o Hh eq_refl) as [_ Hh']; [by destruct o|].
    exists p'. eexists. rewrite !app_nil_r. split; [done|]. split; [done|]. destruct Hh' as [H1 H2 H3].
    split; [by constructor; cbn in *|]. split; [done|]. by rewrite Hps.
  - change (params_text (o :: o2 :: ps)) with (param_text o ++ c_semicolon :: params_text (o2 :: ps)).
    rewrite <- app_assoc, write_app, write_param by done. cbn [app tty_control_write].
    destruct (step_semicolon s (default 0 o) (bool_decide (is_Some o)) (if o is Some _ then false else sep)
                qs o Hh eq_refl)
      as (s1 & -> & Hh1); [by destruct o|].
    destruct (IH (qs ++ [o]) s1 true Hh1 Hok Ha) as (p' & s' & -> & Hcmd & Hh' & Hst & Hlen); [done|done|].
    exists p', s'. rewrite <- app_assoc in Hh'. by split_and!.
Qed.

Lemma param_lookup s ps i d :
  holds s ps → Forall param_ok ps → (i < 8)%nat →
  tty_control_param_or_default s (Z.of_nat i) d = param ps i d.
Proof.
  intros [Hlen Hcnt Hvals] Hok Hi. unfold tty_control_param_or_default, param. rewrite Nat2Z.id, Hcnt.
  destruct (ps !! i) as [o|] eqn:E.
  - apply lookup_lt_Some in E as Hlt. rewrite (proj2 (Z.leb_gt _ _)) by lia.
    rewrite (Hvals i o Hi E). cbn [default orb from_option]. rewrite Forall_lookup in Hok.
    specialize (Hok i o E). destruct o as [v|]; unfold pval; cbn [default from_option].
    + cbn in Hok. unfold id. rewrite (proj2 (Z.eqb_neq _ _)); [done|]. unfold TTY_CONTROL_PARAM_NONE. lia.
    + unfold id. by rewrite Z.eqb_refl.
  - apply lookup_ge_None in E. rewrite (proj2 (Z.leb_le _ _)) by lia. done.
Qed.
(** Dispatching a sequence has the meaning of its parameters. *)
Lemma dispatch_meaning s ps cmd :
  holds s ps → Forall param_ok ps → command s = cmd → is_u64 h → is_u64 w →
  tty_control_dispatch h w s = meaning h w (Control ps cmd).
Proof.
  intros Hh Hok Hcmd Hhr Hwr. unfold tty_control_dispatch, tty_control_handle_h, tty_control_handle_j, meaning.
  pose proof (param_lookup s ps 0 1 Hh Hok ltac:(lia)) as H0.
  pose proof (param_lookup s ps 1 1 Hh Hok ltac:(lia)) as H1.
  pose proof (param_lookup s ps 0 0 Hh Hok ltac:(lia)) as H2.
  change (Z.of_nat 0) with 0 in *. change (Z.of_nat 1) with 1 in *. rewrite H0, H1, H2, Hcmd.
  assert (∀ i d, 0 ≤ d → 0 ≤ param ps i d) as Hpos.
  { intros i d Hd. unfold param. destruct (ps !! i) as [[v|]|] eqn:E; [|done|done].
    rewrite Forall_lookup in Hok. specialize (Hok _ _ E). cbn in Hok. lia. }
  assert (∀ v size, 0 ≤ v → 0 < size →
    (let v := if v =? 0 then 1 else v in let v := if size <? v then size else v in v - 1) = clamp v size) as Hclamp.
  { intros v size Hv Hs. unfold clamp. cbv zeta. destruct (Z.eqb_spec v 0), (Z.ltb_spec size (if v =? 0 then 1 else v));
      destruct (Z.eqb_spec v 0); try lia; destruct (Z.ltb_spec size 1); destruct (Z.ltb_spec size v); lia. }
  unfold is_u64 in *. destruct ((cmd =? 72) || (cmd =? 102)).
  - destruct (Z.eqb_spec h 0), (Z.eqb_spec w 0); cbn [orb]; [done..|].
    pose proof (Hclamp (param ps 0 1) h ltac:(apply Hpos; lia) ltac:(lia)) as E1.
    pose proof (Hclamp (param ps 1 1) w ltac:(apply Hpos; lia) ltac:(lia)) as E2.
    cbv zeta in E1, E2. by rewrite E1, E2.
  - destruct (cmd =? 74); [|done]. pose proof (Hpos 0%nat 0 ltac:(lia)).
    destruct (Z.leb_spec (param ps 0 0) 2).
    + destruct (Z.eqb_spec (param ps 0 0) 0), (Z.eqb_spec (param ps 0 0) 1), (Z.eqb_spec (param ps 0 0) 2);
        cbn [orb]; first [done|lia].
    + by rewrite !(proj2 (Z.eqb_neq _ _)) by lia.
Qed.

(** One item, from the text state. *)
Lemma write_item p i :
  is_u64 h → is_u64 w → item_ok i → state p = TEXT → length (params (sequence p)) = 8%nat →
  ∃ p', tty_control_write h w p (encode i) = (p', meaning h w i) ∧
        state p' = TEXT ∧ length (params (sequence p')) = 8%nat.
Proof.
  intros Hh Hw Hok Hst Hlen. destruct i as [c|ps cmd]; cbn [item_ok encode] in *.
  - exists p. cbn [tty_control_write]. unfold tty_control_step. rewrite Hst.
    by rewrite (proj2 (Z.eqb_neq _ _)) by done.
  - destruct Hok as (Ha & Hps & Hne). cbn [tty_control_write]. unfold tty_control_step at 1. rewrite Hst.
    rewrite Z.eqb_refl. unfold tty_control_step at 1. cbn [state].
    rewrite Z.eqb_refl. cbv iota. unfold tty_control_csi_begin. cbn [sequence].
    destruct (write_params ps [] (clear_sequence (sequence p)) false cmd) as (p' & s' & -> & Hcmd & Hs' & Hst' & Hlen');
      [by split|done..|].
    exists p'. by rewrite (dispatch_meaning s' ps cmd).
Qed.
End reading.

(** ** The parser in total *)
(** C30: Output written to the terminal is understood item by item: for every
    sequence of plain characters and control sequences whose parameters are
    missing or numbers below the marker of a missing one, a parser in the text
    state makes exactly the terminal calls the items mean, in order, and is
    back in the text state at the end. *)
Theorem tty_control_roundtrip h w p items :
  is_u64 h → is_u64 w → Forall item_ok items →
  state p = TEXT → length (params (sequence p)) = 8%nat →
  (tty_control_write h w p (concat (encode <$> items))).2 = concat (meaning h w <$> items) ∧
  state (tty_control_write h w p (concat (encode <$> items))).1 = TEXT.
Proof.
  intros Hh Hw Hok. revert p. induction Hok as [|i items Hi Hok IH]; intros p Hst Hlen; [done|].
  cbn [fmap list_fmap concat]. rewrite write_app.
  destruct (write_item h w p i Hh Hw Hi Hst Hlen) as (p1 & -> & Hst1 & Hlen1).
  destruct (IH p1 Hst1 Hlen1) as [He Hs].
  change (list_fmap _ _ encode) with (fmap (M := list) encode) in *.
  destruct (tty_control_write h w p1 _) as [p2 e2]. cbn [fst snd] in *. by rewrite He.
Qed.

(** The parameters a parser has collected are machine words. *)
Definition parser_ok (p : tty_control_parser) : Prop :=
  is_u64 (current_param p) ∧ Forall is_u64 (params (sequence p)) ∧ 0 ≤ param_count (sequence p).

Definition cursor_ok (h w : Z) (e : tty_call) : Prop :=
  match e with terminal_set_cursor_pos r c => 0 ≤ r < h ∧ 0 ≤ c < w | _ => True end.

Lemma push_ok p : parser_ok p → parser_ok (tty_control_param_push p).
Proof.
  intros (Hc & Hp & Hn). unfold tty_control_param_push, parser_ok. cbn [current_param sequence].
  split; [done|]. destruct (_ <? _); [|done]. cbn [params param_count]. split; [|lia].
  apply Forall_insert; [done|]. by destruct (has_current_param p).
Qed.

Lemma param_or_default_word s i d :
  Forall is_u64 (params s) → is_u64 d → is_u64 (tty_control_param_or_default s i d).
Proof.
  intros Hp Hd. unfold tty_control_param_or_default. destruct (_ || _); [done|].
  destruct (params s !! Z.to_nat i) eqn:E; [|done]. cbn. rewrite Forall_lookup in Hp. by eapply Hp.
Qed.

Lemma clamped v size :
  is_u64 v → 0 < size ≤ 2 ^ 16 →
  0 ≤ u16 ((if size <? (if v =? 0 then 1 else v) then size else if v =? 0 then 1 else v) - 1) < size.
Proof.
  intros Hv Hs. unfold is_u64, u16 in *.
  destruct (Z.eqb_spec v 0), (Z.ltb_spec size (if v =? 0 then 1 else v));
    rewrite Z.mod_small; repeat case_match; lia.
Qed.

Lemma step_bounds h w p c :
  0 ≤ h ≤ 2 ^ 16 → 0 ≤ w ≤ 2 ^ 16 → parser_ok p →
  parser_ok (tty_control_step h w p c).1 ∧ Forall (cursor_ok h w) (tty_control_step h w p c).2.
Proof.
  intros Hh Hw Hok. unfold tty_control_step. destruct (state p).
  - case_match; [done|]. split; [done|]. by repeat constructor.
  - destruct Hok as (Hc & Hp & Hn). repeat case_match; split; try constructor; try done; by split_and!.
  - destruct (tty_control_is_digit c). { split; [|constructor]. destruct Hok as (Hc & Hp & Hn). split; [apply u64_range|done]. }
    destruct (c =? c_semicolon). { split; [|constructor]. by apply push_ok in Hok. }
    destruct (tty_control_is_alpha c); [|by split; [|constructor]].
    set (q := if has_current_param p || last_was_separator p then tty_control_param_push p else p).
    assert (parser_ok q) as (Hc & Hp & Hn).
    { unfold q. case_match; [by apply push_ok|done]. }
    cbn [fst snd]. split. { by unfold tty_control_reset, parser_ok; cbn. }
    set (s := MkSeq _ _ _). assert (Forall is_u64 (params s)) as Hps by done.
    unfold tty_control_dispatch. case_match; [|case_match; [|done]].
    + unfold tty_control_handle_h. destruct (Z.eqb_spec h 0), (Z.eqb_spec w 0); cbn [orb]; [done..|].
      constructor; [|constructor]. split; apply clamped; try lia; by apply param_or_default_word.
    + unfold tty_control_handle_j. case_match; by repeat constructor.
Qed.

(** Whatever bytes are written to the terminal, well formed or not, and
    whatever was left of an earlier sequence, the parser moves the cursor only
    to positions inside the terminal. *)
Theorem tty_control_cursor_in_bounds h w p data :
  0 ≤ h ≤ 2 ^ 16 → 0 ≤ w ≤ 2 ^ 16 → parser_ok p →
  Forall (cursor_ok h w) (tty_control_write h w p data).2.
Proof.
  intros Hh Hw. revert p. induction data as [|c data IH]; intros p Hok; [constructor|].
  cbn [tty_control_write]. destruct (step_bounds h w p c Hh Hw Hok) as [Hok1 He].
  destruct (tty_control_step h w p c) as [p1 e1]. specialize (IH p1 Hok1).
  destruct (tty_control_write h w p1 data) as [p2 e2]. cbn [fst snd] in *. by apply Forall_app.
Qed.

Definition parser0 : tty_control_parser :=
  tty_control_reset (MkParser TEXT (MkSeq 0 (replicate 8 0) 0) 0 false false).

(** [ESC[12;;7H], a letter, [ESC[2J] and [ESC[f] on a terminal of 25 by 80. *)
Definition items0 : list item :=
  [Control [Some 12; None; Some 7] 72; Text 65; Control [Some 2] 74; Control [] 102].

Example tty_control_run :
  (tty_control_write 25 80 parser0 (concat (encode <$> items0))).2 =
    [terminal_set_cursor_pos 11 0; terminal_putchar 65; terminal_clear_display 2; terminal_set_cursor_pos 0 0].
Proof. vm_compute. reflexivity. Qed.

Lemma tty_control_roundtrip_witness :
  (tty_control_write 25 80 parser0 (concat (encode <$> items0))).2 = concat (meaning 25 80 <$> items0) ∧
  state (tty_control_write 25 80 parser0 (concat (encode <$> items0))).1 = TEXT.
Proof.
  apply (tty_control_roundtrip 25 80 parser0 items0); [done|done| |done|done].
  unfold items0. repeat constructor; cbn; unfold UINT64_MAX; try done; lia.
Defined.

Lemma tty_control_cursor_in_bounds_witness :
  Forall (cursor_ok 25 80) (tty_control_write 25 80 parser0 [27; 91; 57; 57; 57; 59; 72]).2.
Proof.
  apply (tty_control_cursor_in_bounds 25 80 parser0 [27; 91; 57; 57; 57; 59; 72]); [lia|lia|].
  split; [done|]. split; [|done]. repeat constructor; done.
Defined.
