(* ===== verification/Vfs.v ===== *)
(** * Vfs: [kernel/fs/vfs.c]

    The virtual file system: mounts, path resolution with [.], [..], mount
    points and symbolic links, the reconstruction of paths, and the dispatch of
    the operations on files and directories to the file system that owns them.

    Vnodes, mounts, files and stat buffers live in heaps by address (0 is NULL).
    A string is the list of its bytes before the terminator, a name given by a
    pointer and a length the list of the bytes it views, a NULL pointer [None].
    The tables of function pointers are parameters ([node_ops], [file_ops]): a
    file system is whatever fills them, and an absent operation is [None].  The
    rest of the machine ([X]: the data of the file systems, user memory, the
    allocator behind [calloc]) is reached only through them, [Allocator] and the
    clock. *)
From S2P Require Import Prelude Alloc.

(** ** Data *)
Inductive vfs_status :=
| VFS_STATUS_OK | VFS_STATUS_NOENT | VFS_STATUS_NOTDIR | VFS_STATUS_ISDIR
| VFS_STATUS_NOMEM | VFS_STATUS_INVALID_ARG | VFS_STATUS_TOO_MANY_OPEN
| VFS_STATUS_BAD_FD | VFS_STATUS_NOT_IMPLEMENTED | VFS_STATUS_NOTEMPTY
| VFS_STATUS_EXISTS | VFS_STATUS_XDEV | VFS_STATUS_LOOP | VFS_STATUS_RANGE
| VFS_STATUS_AGAIN.

#[global] Instance vfs_status_eq_dec : EqDecision vfs_status.
Proof. solve_decision. Defined.

Inductive vfs_node_type := VFS_NODE_FILE | VFS_NODE_DIR | VFS_NODE_SYMLINK | VFS_NODE_DEVICE.

#[global] Instance vfs_node_type_eq_dec : EqDecision vfs_node_type.
Proof. solve_decision. Defined.

(** [vfs_open_flags_t]. *)
Definition VFS_OPEN_READ : Z := 1.
Definition VFS_OPEN_WRITE : Z := 2.
Definition VFS_OPEN_DIRECTORY : Z := 4.
Definition VFS_OPEN_CREATE : Z := 8.
Definition VFS_OPEN_APPEND : Z := 64.
Definition flag_set (flags bit : Z) : bool := negb (Z.land flags bit =? 0).

(** [vfs_seek_whence_t]. *)
Definition VFS_SEEK_SET : Z := 0.
Definition VFS_SEEK_CUR : Z := 1.
Definition VFS_SEEK_END : Z := 2.

Definition MAX_FDS : Z := 256.
Definition VFS_SYMLINK_MAX_DEPTH : Z := 40.
Definition VFS_SYMLINK_TARGET_MAX : Z := 1024.

Record vfs_mount_t := MkMount { m_point : Z; m_root : Z; m_parent : Z; m_fs_data : Z }.

Record vfs_node := MkNode {
  n_ops : Z; n_type : vfs_node_type; refcount : Z; link_count : Z;
  accessed_timestamp : Z; modified_timestamp : Z; changed_mdt_timestamp : Z;
  n_mount : Z; n_fs_data : Z;
}.

Record vfs_file := MkFile {
  f_vnode : Z; f_ops : Z; f_flags : Z; f_refcount : Z; f_offset : Z; f_fs_data : Z;
}.

Record vfs_stat_t := MkStat {
  s_type : vfs_node_type; s_size : Z; s_link_count : Z;
  s_accessed : Z; s_modified : Z; s_changed_mdt : Z;
}.

(** The fields of [proc_t] the file system uses. *)
Record vproc := MkVproc { p_cwd : Z; p_fds : list Z }.

(** [g_kernel.current_process] is [current_process], [root_mount] the static. *)
Record vworld (X : Type) := MkWorld {
  nodes : gmap Z vfs_node;
  mounts : gmap Z vfs_mount_t;
  files : gmap Z vfs_file;
  stats : gmap Z vfs_stat_t;
  root_mount : Z;
  current_process : option vproc;
  ext : X;
}.
Arguments MkWorld {X}.
Arguments nodes {X}.
Arguments mounts {X}.
Arguments files {X}.
Arguments stats {X}.
Arguments root_mount {X}.
Arguments current_process {X}.
Arguments ext {X}.

(** The tables of operations.  A result pair is the status and what was stored
    through the out-parameter; [readlink] stores the listed bytes. *)
Record vfs_node_ops (W : Type) := MkNodeOps {
  op_lookup : option (Z → list Z → prog W (vfs_status * Z));
  op_parent : option (Z → prog W (vfs_status * Z));
  op_name : option (Z → prog W (vfs_status * option (list Z)));
  op_open : option (Z → Z → prog W (vfs_status * Z));
  op_create_file : option (Z → list Z → prog W (vfs_status * Z));
  op_create_dir : option (Z → list Z → prog W (vfs_status * Z));
  op_unlink : option (Z → list Z → Z → prog W vfs_status);
  op_rmdir : option (Z → list Z → Z → prog W vfs_status);
  op_link : option (Z → list Z → Z → prog W vfs_status);
  op_symlink : option (Z → list Z → list Z → prog W (vfs_status * Z));
  op_readlink : option (Z → Z → prog W (vfs_status * list Z));
  op_free : option (Z → prog W unit);
  op_stat : option (Z → prog W (vfs_status * Z));
}.
Arguments op_lookup {W}.
Arguments op_parent {W}.
Arguments op_name {W}.
Arguments op_open {W}.
Arguments op_create_file {W}.
Arguments op_create_dir {W}.
Arguments op_unlink {W}.
Arguments op_rmdir {W}.
Arguments op_link {W}.
Arguments op_symlink {W}.
Arguments op_readlink {W}.
Arguments op_free {W}.
Arguments op_stat {W}.

Record vfs_file_ops (W : Type) := MkFileOps {
  op_read : option (Z → Z → Z → prog W (vfs_status * Z));
  op_write : option (Z → Z → Z → prog W (vfs_status * Z));
  op_readdir : option (Z → prog W (vfs_status * Z));
  op_seek : option (Z → Z → Z → prog W (vfs_status * Z));
  op_close : option (Z → prog W vfs_status);
  op_ioctl : option (Z → Z → Z → prog W vfs_status);
}.
Arguments op_read {W}.
Arguments op_write {W}.
Arguments op_readdir {W}.
Arguments op_seek {W}.
Arguments op_close {W}.
Arguments op_ioctl {W}.

(** ** Strings *)
Definition c_slash : Z := 47.
Definition c_dot : Z := 46.

(** [while ( *p == '/') p++]. *)
Fixpoint skip_slashes (p : list Z) : list Z :=
  match p with c :: p' => if c =? c_slash then skip_slashes p' else p | [] => [] end.
(** The component at the cursor, and the cursor after it. *)
Fixpoint component_at (p : list Z) : list Z * list Z :=
  match p with
  | c :: p' => if c =? c_slash then ([], p) else let '(n, r) := component_at p' in (c :: n, r)
  | [] => ([], [])
  end.
(** [while (len > 0 && name[len - 1] == '/') len--]. *)
Definition trim_slashes (name : list Z) : list Z := reverse (skip_slashes (reverse name)).
(** The bytes of a buffer up to its first NUL: what [strlen] sees. *)
Fixpoint c_string (l : list Z) : list Z :=
  match l with c :: l' => if c =? 0 then [] else c :: c_string l' | [] => [] end.

Definition component_is_dot (component : list Z) : bool := bool_decide (component = [c_dot]).
Definition component_is_dotdot (component : list Z) : bool := bool_decide (component = [c_dot; c_dot]).

Definition path_is_root (path : option (list Z)) : bool :=
  match path with None => false | Some p => bool_decide (skip_slashes p = []) end.

Definition open_create_path_invalid (path : list Z) (flags : Z) : bool :=
  if negb (flag_set flags VFS_OPEN_CREATE) then false
  else if flag_set flags VFS_OPEN_DIRECTORY then true
  else (1 <? Z.of_nat (length path)) && bool_decide (last path = Some c_slash).

(** The last byte of a name may be NUL, no other. *)
Fixpoint validate_loop (name : list Z) : bool :=
  match name with
  | [] => true
  | c :: name' => if (c =? c_slash) || ((c =? 0) && negb (bool_decide (name' = []))) then false
                  else validate_loop name'
  end.
Definition vfs_validate_name (name : option (list Z)) : bool :=
  match name with
  | None => false
  | Some n => if bool_decide (n = []) then false else validate_loop n
  end.

(** [errno.h]. *)
Definition ENOENT : Z := 2.
Definition EBADF : Z := 9.
Definition EAGAIN : Z := 11.
Definition ENOMEM : Z := 12.
Definition EEXIST : Z := 17.
Definition EXDEV : Z := 18.
Definition ENOTDIR : Z := 20.
Definition EISDIR : Z := 21.
Definition EINVAL : Z := 22.
Definition EMFILE : Z := 24.
Definition ERANGE : Z := 34.
Definition ENOSYS : Z := 38.
Definition ENOTEMPTY : Z := 39.
Definition ELOOP : Z := 40.

Definition vfs_status_to_errno (s : vfs_status) : Z :=
  match s with
  | VFS_STATUS_OK => 0
  | VFS_STATUS_NOENT => ENOENT
  | VFS_STATUS_NOTDIR => ENOTDIR
  | VFS_STATUS_ISDIR => EISDIR
  | VFS_STATUS_NOMEM => ENOMEM
  | VFS_STATUS_INVALID_ARG => EINVAL
  | VFS_STATUS_TOO_MANY_OPEN => EMFILE
  | VFS_STATUS_BAD_FD => EBADF
  | VFS_STATUS_NOT_IMPLEMENTED => ENOSYS
  | VFS_STATUS_NOTEMPTY => ENOTEMPTY
  | VFS_STATUS_EXISTS => EEXIST
  | VFS_STATUS_XDEV => EXDEV
  | VFS_STATUS_LOOP => ELOOP
  | VFS_STATUS_RANGE => ERANGE
  | VFS_STATUS_AGAIN => EAGAIN
  end.

(** ** Operations *)
Section vfs.
Context {X : Type} {alloc_X : Allocator X}.
Abbreviation W := (vworld X).
Context (node_ops : Z → vfs_node_ops W) (file_ops : Z → vfs_file_ops W).
(** [unix_time()]: the clock chip. *)
Context (clock : X → Z).

(** *** Memory *)
Definition set_nodes (m : gmap Z vfs_node) (w : W) : W :=
  MkWorld m (mounts w) (files w) (stats w) (root_mount w) (current_process w) (ext w).
Definition set_mounts (m : gmap Z vfs_mount_t) (w : W) : W :=
  MkWorld (nodes w) m (files w) (stats w) (root_mount w) (current_process w) (ext w).
Definition set_files (m : gmap Z vfs_file) (w : W) : W :=
  MkWorld (nodes w) (mounts w) m (stats w) (root_mount w) (current_process w) (ext w).
Definition set_stats (m : gmap Z vfs_stat_t) (w : W) : W :=
  MkWorld (nodes w) (mounts w) (files w) m (root_mount w) (current_process w) (ext w).
Definition set_root_mount (r : Z) (w : W) : W :=
  MkWorld (nodes w) (mounts w) (files w) (stats w) r (current_process w) (ext w).
Definition set_process (p : option vproc) (w : W) : W :=
  MkWorld (nodes w) (mounts w) (files w) (stats w) (root_mount w) p (ext w).
Definition set_ext (x : X) (w : W) : W :=
  MkWorld (nodes w) (mounts w) (files w) (stats w) (root_mount w) (current_process w) x.

Definition node (v : Z) : prog W vfs_node := n ← gets nodes; lift (deref (n !! v)).
Definition mount (m : Z) : prog W vfs_mount_t := n ← gets mounts; lift (deref (n !! m)).
Definition file (f : Z) : prog W vfs_file := n ← gets files; lift (deref (n !! f)).

Definition update_node (v : Z) (f : vfs_node → vfs_node) : prog W unit :=
  n ← node v; modify (λ w, set_nodes (<[v := f n]> (nodes w)) w).
Definition update_mount (m : Z) (f : vfs_mount_t → vfs_mount_t) : prog W unit :=
  n ← mount m; modify (λ w, set_mounts (<[m := f n]> (mounts w)) w).
Definition update_file (a : Z) (f : vfs_file → vfs_file) : prog W unit :=
  n ← file a; modify (λ w, set_files (<[a := f n]> (files w)) w).

Definition with_refcount (r : Z) (n : vfs_node) : vfs_node :=
  MkNode (n_ops n) (n_type n) r (link_count n) (accessed_timestamp n) (modified_timestamp n)
    (changed_mdt_timestamp n) (n_mount n) (n_fs_data n).
Definition with_link_count (l : Z) (n : vfs_node) : vfs_node :=
  MkNode (n_ops n) (n_type n) (refcount n) l (accessed_timestamp n) (modified_timestamp n)
    (changed_mdt_timestamp n) (n_mount n) (n_fs_data n).
Definition with_accessed (t : Z) (n : vfs_node) : vfs_node :=
  MkNode (n_ops n) (n_type n) (refcount n) (link_count n) t (modified_timestamp n)
    (changed_mdt_timestamp n) (n_mount n) (n_fs_data n).
Definition with_modified (t : Z) (n : vfs_node) : vfs_node :=
  MkNode (n_ops n) (n_type n) (refcount n) (link_count n) (accessed_timestamp n) t t
    (n_mount n) (n_fs_data n).
Definition with_mount (m : Z) (n : vfs_node) : vfs_node :=
  MkNode (n_ops n) (n_type n) (refcount n) (link_count n) (accessed_timestamp n) (modified_timestamp n)
    (changed_mdt_timestamp n) m (n_fs_data n).
Definition with_f_refcount (r : Z) (f : vfs_file) : vfs_file :=
  MkFile (f_vnode f) (f_ops f) (f_flags f) r (f_offset f) (f_fs_data f).

Definition unix_time : prog W Z := gets (λ w, clock (ext w)).

(** [calloc(n, sizeof(char))] and [free]. *)
Definition calloc (n : Z) : prog W Z := λ w,
  match al_alloc n (ext w) with
  | Ret (p, x) => Ret (p, set_ext x w)
  | Abort => Abort | Fault => Fault | OutOfFuel => OutOfFuel
  end.
Definition free (p : Z) : prog W unit := λ w,
  match al_free p (ext w) with
  | Ret (_, x) => Ret (tt, set_ext x w)
  | Abort => Abort | Fault => Fault | OutOfFuel => OutOfFuel
  end.

(** [HVFS_VOP_MISSING], [HVFS_FOP_MISSING] and the calls through the tables. *)
Definition HVFS_VOP_MISSING {A} (v : Z) (op : vfs_node_ops W → option A) : prog W bool :=
  if v =? 0 then mret true
  else n ← node v;
       mret ((n_ops n =? 0) || match op (node_ops (n_ops n)) with None => true | Some _ => false end).
Definition HVFS_FOP_MISSING {A} (f : Z) (op : vfs_file_ops W → option A) : prog W bool :=
  if f =? 0 then mret true
  else n ← file f;
       mret ((f_ops n =? 0) || match op (file_ops (f_ops n)) with None => true | Some _ => false end).
Definition vop {A} (v : Z) (op : vfs_node_ops W → option A) : prog W A :=
  n ← node v; lift (deref (op (node_ops (n_ops n)))).
Definition fop {A} (f : Z) (op : vfs_file_ops W → option A) : prog W A :=
  n ← file f; lift (deref (op (file_ops (f_ops n)))).

(** *** References *)
Definition vfs_file_borrow (f : Z) : prog W unit :=
  if negb (f =? 0) then update_file f (λ n, with_f_refcount (u32 (f_refcount n + 1)) n) else mret tt.

Definition vfs_file_release (f : Z) : prog W unit :=
  if f =? 0 then mret tt
  else n ← file f;
       if f_refcount n =? 0 then mret tt
       else update_file f (λ n, with_f_refcount (u32 (f_refcount n - 1)) n).

Definition vfs_vnode_borrow (v : Z) : prog W unit :=
  if negb (v =? 0) then update_node v (λ n, with_refcount (u32 (refcount n + 1)) n) else mret tt.

Definition vfs_vnode_release (v : Z) : prog W unit :=
  if v =? 0 then mret tt
  else
    n ← node v;
    if refcount n =? 0 then mret tt
    else
      _ ← update_node v (λ n, with_refcount (u32 (refcount n - 1)) n);
      n ← node v;
      if negb ((refcount n =? 0) && (link_count n =? 0)) then mret tt
      else
        missing ← HVFS_VOP_MISSING v op_free;
        if (missing : bool) then mret tt else f ← vop v op_free; f v.

(** *** The process *)
Definition proc_get_cwd : prog W Z :=
  p ← gets current_process; mret (match p with None => 0 | Some p => p_cwd p end).
Definition proc_set_cwd (cwd : Z) : prog W unit :=
  p ← gets current_process;
  match p with
  | None => mret tt
  | Some _ =>
      _ ← vfs_vnode_borrow cwd;
      old ← proc_get_cwd;
      _ ← vfs_vnode_release old;
      modify (λ w, set_process ((λ p, MkVproc cwd (p_fds p)) <$> current_process w) w)
  end.
(** [current_process->fds[i]]. *)
Definition fd_at (i : Z) : prog W Z :=
  p ← gets current_process;
  lift (deref (p ≫= λ p, if i <? 0 then None else p_fds p !! Z.to_nat i)).
Fixpoint fd_find_loop (n : nat) (i : Z) : prog W (option Z) :=
  match n with
  | O => mret None
  | S n' => f ← fd_at i; if f =? 0 then mret (Some i) else fd_find_loop n' (i + 1)
  end.
Definition proc_fd_find_null : prog W (option Z) := fd_find_loop (Z.to_nat MAX_FDS) 0.
Definition proc_fd_get (idx : Z) : prog W Z := if MAX_FDS <=? idx then mret 0 else fd_at idx.
Definition proc_fd_set (idx val : Z) : prog W unit :=
  if idx <? MAX_FDS then
    _ ← fd_at idx;
    modify (λ w, set_process ((λ p, MkVproc (p_cwd p) (<[Z.to_nat idx := val]> (p_fds p)))
                                <$> current_process w) w)
  else mret tt.

Fixpoint clear_fd_loop (n : nat) (i f : Z) : prog W unit :=
  match n with
  | O => mret tt
  | S n' => g ← proc_fd_get i; if g =? f then proc_fd_set i 0 else clear_fd_loop n' (i + 1) f
  end.
Definition clear_process_fd (f : Z) : prog W unit :=
  p ← gets current_process;
  match p with None => mret tt | Some _ => clear_fd_loop (Z.to_nat MAX_FDS) 0 f end.

(** *** Mounting *)
Definition validate_root_mount (m : Z) : prog W vfs_status :=
  if m =? 0 then mret VFS_STATUS_NOMEM
  else
    mt ← mount m;
    if m_root mt =? 0 then mret VFS_STATUS_NOMEM
    else
      n ← node (m_root mt);
      if negb (bool_decide (n_type n = VFS_NODE_DIR)) then mret VFS_STATUS_NOTDIR
      else
        missing ← HVFS_VOP_MISSING (m_root mt) op_lookup;
        if (missing : bool) then mret VFS_STATUS_NOTDIR else mret VFS_STATUS_OK.

Definition vfs_mount_root (m : Z) : prog W vfs_status :=
  status ← validate_root_mount m;
  if negb (bool_decide (status = VFS_STATUS_OK)) then mret status
  else
    rm ← gets root_mount;
    if negb (rm =? 0) then mret VFS_STATUS_INVALID_ARG
    else
      _ ← update_mount m (λ t, MkMount 0 (m_root t) (m_parent t) (m_fs_data t));
      _ ← update_mount m (λ t, MkMount (m_point t) (m_root t) 0 (m_fs_data t));
      _ ← modify (set_root_mount m);
      mt ← mount m;
      _ ← update_node (m_root mt) (with_mount m);
      _ ← vfs_vnode_borrow (m_root mt);
      p ← gets current_process;
      cwd ← proc_get_cwd;
      _ ← (match p with Some _ => when (cwd =? 0) (proc_set_cwd (m_root mt)) | None => mret tt end);
      mret VFS_STATUS_OK.

Definition vfs_mount (mountpoint m parent : Z) : prog W vfs_status :=
  status ← validate_root_mount m;
  if negb (bool_decide (status = VFS_STATUS_OK)) then mret status
  else
    rm ← gets root_mount;
    if (rm =? 0) || (mountpoint =? 0) then mret VFS_STATUS_INVALID_ARG
    else
      n ← node mountpoint;
      if negb (bool_decide (n_type n = VFS_NODE_DIR)) then mret VFS_STATUS_NOTDIR
      else if negb (n_mount n =? 0) then mret VFS_STATUS_INVALID_ARG
      else
        _ ← update_mount m (λ t, MkMount mountpoint (m_root t) (m_parent t) (m_fs_data t));
        _ ← update_mount m (λ t, MkMount (m_point t) (m_root t) parent (m_fs_data t));
        _ ← update_node mountpoint (with_mount m);
        mt ← mount m;
        _ ← update_node (m_root mt) (with_mount m);
        _ ← vfs_vnode_borrow mountpoint;
        _ ← vfs_vnode_borrow (m_root mt);
        mret VFS_STATUS_OK.

Definition vfs_unmount (m : Z) : prog W vfs_status :=
  if m =? 0 then mret VFS_STATUS_INVALID_ARG
  else
    rm ← gets root_mount;
    if m =? rm then mret VFS_STATUS_INVALID_ARG
    else
      mt ← mount m;
      if (m_point mt =? 0) || (m_root mt =? 0) then mret VFS_STATUS_INVALID_ARG
      else
        p ← node (m_point mt);
        if negb (n_mount p =? m) then mret VFS_STATUS_INVALID_ARG
        else
          _ ← update_node (m_point mt) (with_mount 0);
          _ ← update_node (m_root mt) (with_mount 0);
          _ ← vfs_vnode_release (m_root mt);
          _ ← vfs_vnode_release (m_point mt);
          _ ← update_mount m (λ t, MkMount 0 (m_root t) (m_parent t) (m_fs_data t));
          _ ← update_mount m (λ t, MkMount (m_point t) (m_root t) 0 (m_fs_data t));
          mret VFS_STATUS_OK.

(** *** Walking paths *)

(** Returns the vnode to continue with. *)
Definition cross_mount (current : Z) : prog W Z :=
  if current =? 0 then mret current
  else
    n ← node current;
    if n_mount n =? 0 then mret current
    else
      mt ← mount (n_mount n);
      if (m_root mt =? 0) || (current =? m_root mt) then mret current
      else
        _ ← vfs_vnode_borrow (m_root mt);
        _ ← vfs_vnode_release current;
        mret (m_root mt).

(** Going up inside one file system. *)
Definition parent_of (visible current : Z) : prog W (vfs_status * Z) :=
  missing ← HVFS_VOP_MISSING visible op_parent;
  if (missing : bool) then mret (VFS_STATUS_NOT_IMPLEMENTED, current)
  else
    f ← vop visible op_parent;
    '(status, parent) ← f visible;
    if negb (bool_decide (status = VFS_STATUS_OK)) then mret (status, current)
    else if parent =? 0 then mret (VFS_STATUS_NOENT, current)
    else
      _ ← vfs_vnode_release current;
      mret (VFS_STATUS_OK, parent).

Definition component_parent (current : Z) : prog W (vfs_status * Z) :=
  if current =? 0 then mret (VFS_STATUS_INVALID_ARG, current)
  else
    rm ← gets root_mount;
    rmt ← mount rm;
    if current =? m_root rmt then mret (VFS_STATUS_NOENT, current)
    else
      n ← node current;
      at_root ← (if negb (n_mount n =? 0) && negb (n_mount n =? rm)
                 then mt ← mount (n_mount n); mret (current =? m_root mt) else mret false);
      if (at_root : bool) then
        mt ← mount (n_mount n);
        let parent_mount := if m_parent mt =? 0 then rm else m_parent mt in
        if (m_point mt =? 0) || (parent_mount =? 0) then mret (VFS_STATUS_INVALID_ARG, current)
        else
          pmt ← mount parent_mount;
          if m_point mt =? m_root pmt then
            _ ← vfs_vnode_borrow (m_root pmt);
            _ ← vfs_vnode_release current;
            mret (VFS_STATUS_OK, m_root pmt)
          else parent_of (m_point mt) current
      else parent_of current current.

Record vfs_lookup_request := MkRequest {
  rq_base : Z; rq_path : option (list Z); stop_at_parent : bool; symlink_depth : Z;
}.
Record vfs_lookup_result := MkResult { r_vnode : Z; final_name : option (list Z) }.
Definition no_result : vfs_lookup_result := MkResult 0 None.

(** The target as a string, in a buffer of its own. *)
Definition clone_symlink_target (v : Z) : prog W (vfs_status * (Z * list Z)) :=
  if v =? 0 then mret (VFS_STATUS_INVALID_ARG, (0, []))
  else
    n ← node v;
    if negb (bool_decide (n_type n = VFS_NODE_SYMLINK)) then mret (VFS_STATUS_INVALID_ARG, (0, []))
    else
      missing ← HVFS_VOP_MISSING v op_readlink;
      if (missing : bool) then mret (VFS_STATUS_NOT_IMPLEMENTED, (0, []))
      else
        target ← calloc (VFS_SYMLINK_TARGET_MAX + 1);
        if target =? 0 then mret (VFS_STATUS_NOMEM, (0, []))
        else
          f ← vop v op_readlink;
          '(status, bytes) ← f v VFS_SYMLINK_TARGET_MAX;
          let bytes_read := Z.of_nat (length bytes) in
          if negb (bool_decide (status = VFS_STATUS_OK)) then
            _ ← free target; mret (status, (0, []))
          else if (bytes_read =? 0) || (VFS_SYMLINK_TARGET_MAX <=? bytes_read) then
            _ ← free target; mret (VFS_STATUS_INVALID_ARG, (0, []))
          else mret (VFS_STATUS_OK, (target, c_string bytes)).

Definition join_symlink_path (target remaining : list Z) : prog W (Z * list Z) :=
  let join := negb (bool_decide (remaining = [])) in
  let joined := if join then target ++ c_slash :: remaining else target in
  p ← calloc (Z.of_nat (length joined) + 1);
  if p =? 0 then mret (0, []) else mret (p, joined).

Definition resolve_symlink_component (walk : vfs_lookup_request → prog W (vfs_status * vfs_lookup_result))
    (base link : Z) (remaining : list Z) (depth : Z) : prog W (vfs_status * Z) :=
  if (base =? 0) || (link =? 0) then mret (VFS_STATUS_INVALID_ARG, 0)
  else if VFS_SYMLINK_MAX_DEPTH <=? depth then mret (VFS_STATUS_LOOP, 0)
  else
    '(status, (target, text)) ← clone_symlink_target link;
    if negb (bool_decide (status = VFS_STATUS_OK)) then
      _ ← free 0; _ ← free target; mret (status, 0)
    else
      '(linked_path, linked) ← join_symlink_path text remaining;
      if linked_path =? 0 then
        _ ← free linked_path; _ ← free target; mret (VFS_STATUS_NOMEM, 0)
      else
        let request := MkRequest (if bool_decide (head linked = Some c_slash) then 0 else base)
                         (Some linked) false (u32 (depth + 1)) in
        '(status, result) ← walk request;
        _ ← free linked_path;
        _ ← free target;
        mret (status, if bool_decide (status = VFS_STATUS_OK) then r_vnode result else 0).

(** The loop over the components; [n] exceeds the length of the cursor. *)
Fixpoint walk_loop (walk : vfs_lookup_request → prog W (vfs_status * vfs_lookup_result))
    (request : vfs_lookup_request) (n : nat) (current : Z) (cursor : list Z)
    : prog W (vfs_status * vfs_lookup_result) :=
  match n with
  | O => diverge
  | S n' =>
      if bool_decide (cursor = []) then mret (VFS_STATUS_OK, MkResult current None)
      else
        c ← node current;
        missing ← HVFS_VOP_MISSING current op_lookup;
        if negb (bool_decide (n_type c = VFS_NODE_DIR)) || missing then
          _ ← vfs_vnode_release current; mret (VFS_STATUS_NOTDIR, no_result)
        else
          let '(component, rest) := component_at cursor in
          let cursor := skip_slashes rest in
          if stop_at_parent request && bool_decide (cursor = []) then
            mret (VFS_STATUS_OK, MkResult current (Some component))
          else if component_is_dot component then walk_loop walk request n' current cursor
          else if component_is_dotdot component then
            '(status, current) ← component_parent current;
            if negb (bool_decide (status = VFS_STATUS_OK)) then
              _ ← vfs_vnode_release current; mret (status, no_result)
            else walk_loop walk request n' current cursor
          else
            f ← vop current op_lookup;
            '(status, next) ← f current component;
            if negb (bool_decide (status = VFS_STATUS_OK)) then
              _ ← vfs_vnode_release current; mret (status, no_result)
            else
              next ← cross_mount next;
              nx ← node next;
              if bool_decide (n_type nx = VFS_NODE_SYMLINK) then
                '(status, resolved) ←
                  resolve_symlink_component walk current next cursor (symlink_depth request);
                _ ← vfs_vnode_release next;
                _ ← vfs_vnode_release current;
                mret (status, if bool_decide (status = VFS_STATUS_OK) then MkResult resolved None
                              else no_result)
              else
                _ ← vfs_vnode_release current;
                walk_loop walk request n' next cursor
  end.

(** [n] exceeds the symbolic links that may still be followed. *)
Fixpoint walk_path_fuel (n : nat) (request : vfs_lookup_request) : prog W (vfs_status * vfs_lookup_result) :=
  match n with
  | O => diverge
  | S n' =>
      rm ← gets root_mount;
      match rq_path request with
      | None => mret (VFS_STATUS_NOENT, no_result)
      | Some path =>
          if rm =? 0 then mret (VFS_STATUS_NOENT, no_result)
          else
            rmt ← mount rm;
            if (m_root rmt =? 0) || bool_decide (path = []) then mret (VFS_STATUS_NOENT, no_result)
            else
              let absolute := bool_decide (head path = Some c_slash) in
              base ← (if absolute then mret (rq_base request)
                      else cwd ← proc_get_cwd;
                           mret (if rq_base request =? 0
                                 then if cwd =? 0 then m_root rmt else cwd
                                 else rq_base request));
              let current := if absolute then m_root rmt else base in
              if current =? 0 then mret (VFS_STATUS_NOENT, no_result)
              else
                _ ← vfs_vnode_borrow current;
                current ← cross_mount current;
                let cursor := skip_slashes path in
                walk_loop (walk_path_fuel n') request (S (length path)) current cursor
      end
  end.

(** Links are followed up to depth [VFS_SYMLINK_MAX_DEPTH]. *)
Definition walk_path (request : vfs_lookup_request) : prog W (vfs_status * vfs_lookup_result) :=
  walk_path_fuel (Z.to_nat (VFS_SYMLINK_MAX_DEPTH + 2)) request.

(** *** Lookups: [out] tells whether the out-parameters are there *)
Definition vfs_lookup_at (base : Z) (path : option (list Z)) (out : bool) : prog W (vfs_status * Z) :=
  if negb out then mret (VFS_STATUS_INVALID_ARG, 0)
  else
    '(status, result) ← walk_path (MkRequest base path false 0);
    mret (status, if bool_decide (status = VFS_STATUS_OK) then r_vnode result else 0).

Definition vfs_lookup (path : option (list Z)) (out : bool) : prog W (vfs_status * Z) :=
  if negb out then mret (VFS_STATUS_INVALID_ARG, 0) else vfs_lookup_at 0 path true.

Definition vfs_lookup_parent_at (base : Z) (path : option (list Z)) (out : bool)
    : prog W (vfs_status * (Z * option (list Z))) :=
  if negb out then mret (VFS_STATUS_INVALID_ARG, (0, None))
  else
    '(status, result) ← walk_path (MkRequest base path true 0);
    mret (status, if bool_decide (status = VFS_STATUS_OK) then (r_vnode result, final_name result)
                  else (0, None)).

Definition vfs_lookup_parent (path : option (list Z)) (out : bool)
    : prog W (vfs_status * (Z * option (list Z))) :=
  if negb out then mret (VFS_STATUS_INVALID_ARG, (0, None)) else vfs_lookup_parent_at 0 path true.

Definition lookup_parent_entry (path : option (list Z)) : prog W (vfs_status * (Z * option (list Z))) :=
  '(status, (parent, name)) ← vfs_lookup_parent path true;
  if negb (bool_decide (status = VFS_STATUS_OK)) then mret (status, (parent, name))
  else if bool_decide (default [] name = []) then
    _ ← vfs_vnode_release parent; mret (VFS_STATUS_INVALID_ARG, (0, None))
  else mret (VFS_STATUS_OK, (parent, name)).

Definition lookup_child_no_follow (path : option (list Z)) : prog W (vfs_status * Z) :=
  '(status, (parent, name)) ← lookup_parent_entry path;
  if negb (bool_decide (status = VFS_STATUS_OK)) then mret (status, 0)
  else
    missing ← HVFS_VOP_MISSING parent op_lookup;
    if (missing : bool) then
      _ ← vfs_vnode_release parent; mret (VFS_STATUS_NOTDIR, 0)
    else
      f ← vop parent op_lookup;
      '(status, out) ← f parent (default [] name);
      _ ← vfs_vnode_release parent;
      mret (status, out).

(** *** Paths of vnodes *)
Definition getcwd_is_mount_root (v : Z) : prog W bool :=
  if v =? 0 then mret false
  else
    n ← node v;
    rm ← gets root_mount;
    if (n_mount n =? 0) || (n_mount n =? rm) then mret false
    else mt ← mount (n_mount n); mret (v =? m_root mt).

(** A buffer of bytes; [None] when an access leaves it. *)
Definition put_bytes (buffer : list Z) (pos : Z) (bytes : list Z) : outcome (list Z) :=
  if (0 <=? pos) && (pos + Z.of_nat (length bytes) <=? Z.of_nat (length buffer))
  then Ret (take (Z.to_nat pos) buffer ++ bytes ++ drop (Z.to_nat pos + length bytes) buffer)
  else Fault.

(** The status, the new position and the buffer. *)
Definition getcwd_prepend_component (buffer : list Z) (pos : Z) (name : option (list Z))
    : outcome (vfs_status * Z * list Z) :=
  match name with
  | None => Ret (VFS_STATUS_INVALID_ARG, pos, buffer)
  | Some name =>
      let name := trim_slashes name in
      let name_len := Z.of_nat (length name) in
      if pos <? name_len + 1 then Ret (VFS_STATUS_RANGE, pos, buffer)
      else
        let pos := pos - name_len in
        buffer ← (if 0 <? name_len then put_bytes buffer pos name else Ret buffer);
        let pos := pos - 1 in
        buffer ← put_bytes buffer pos [c_slash];
        Ret (VFS_STATUS_OK, pos, buffer)
  end.

(** The vnode whose parent and name count for [current]: the mount point of a
    mounted root; or the early end of the step. *)
Definition getcwd_visible_child (current : Z) : prog W (option (vfs_status * Z) * Z) :=
  is_root ← getcwd_is_mount_root current;
  if (is_root : bool) then
    n ← node current;
    mt ← mount (n_mount n);
    rm ← gets root_mount;
    let parent_mount := if m_parent mt =? 0 then rm else m_parent mt in
    if (m_point mt =? 0) || (parent_mount =? 0) then mret (Some (VFS_STATUS_INVALID_ARG, current), 0)
    else
      pmt ← mount parent_mount;
      if m_root pmt =? 0 then mret (Some (VFS_STATUS_INVALID_ARG, current), 0)
      else if m_point mt =? m_root pmt then
        _ ← vfs_vnode_borrow (m_root pmt);
        _ ← vfs_vnode_release current;
        mret (Some (VFS_STATUS_OK, m_root pmt), 0)
      else mret (None, m_point mt)
  else mret (None, current).

Definition getcwd_step_to_parent (current : Z) (buffer : list Z) (pos : Z)
    : prog W (vfs_status * Z * (Z * list Z)) :=
  let fail status := mret (status, current, (pos, buffer)) in
  if current =? 0 then fail VFS_STATUS_INVALID_ARG
  else
    '(early, visible) ← getcwd_visible_child current;
    match early with
    | Some (status, current') => mret (status, current', (pos, buffer))
    | None =>
        no_parent ← HVFS_VOP_MISSING visible op_parent;
        no_name ← HVFS_VOP_MISSING visible op_name;
        if (no_parent : bool) || no_name then fail VFS_STATUS_NOT_IMPLEMENTED
        else
          f ← vop visible op_parent;
          '(status, parent) ← f visible;
          if negb (bool_decide (status = VFS_STATUS_OK)) then fail status
          else if (parent =? 0) || (parent =? visible) then
            _ ← vfs_vnode_release parent; fail VFS_STATUS_NOENT
          else
            g ← vop visible op_name;
            '(status, name) ← g visible;
            '(status, pos', buffer') ←
              (if bool_decide (status = VFS_STATUS_OK)
               then lift (getcwd_prepend_component buffer pos name)
               else mret (status, pos, buffer));
            if negb (bool_decide (status = VFS_STATUS_OK)) then
              _ ← vfs_vnode_release parent; mret (status, current, (pos', buffer'))
            else
              _ ← vfs_vnode_release current;
              mret (VFS_STATUS_OK, parent, (pos', buffer'))
    end.

Fixpoint getcwd_loop (n : nat) (current : Z) (buffer : list Z) (pos : Z)
    : prog W (vfs_status * Z * (Z * list Z)) :=
  match n with
  | O => mret (VFS_STATUS_OK, current, (pos, buffer))
  | S n' =>
      rm ← gets root_mount;
      rmt ← mount rm;
      if current =? m_root rmt then
        if pos =? Z.of_nat (length buffer) - 1 then
          '(status, pos, buffer) ← lift (getcwd_prepend_component buffer pos (Some []));
          mret (status, current, (pos, buffer))
        else mret (VFS_STATUS_OK, current, (pos, buffer))
      else
        '(status, current, (pos, buffer)) ← getcwd_step_to_parent current buffer pos;
        if negb (bool_decide (status = VFS_STATUS_OK)) then mret (status, current, (pos, buffer))
        else getcwd_loop n' current buffer pos
  end.

(** [buffer] has [len] bytes.  A walk of the maximal depth leaves the last
    step's status, not [VFS_STATUS_LOOP]. *)
Definition vfs_getcwd (cwd : Z) (buffer : option (list Z)) : prog W (vfs_status * list Z) :=
  match buffer with
  | None => mret (VFS_STATUS_INVALID_ARG, [])
  | Some buffer =>
      let len := Z.of_nat (length buffer) in
      if len =? 0 then mret (VFS_STATUS_RANGE, buffer)
      else
        rm ← gets root_mount;
        if rm =? 0 then mret (VFS_STATUS_NOENT, buffer)
        else
          rmt ← mount rm;
          if m_root rmt =? 0 then mret (VFS_STATUS_NOENT, buffer)
          else
            let current := if cwd =? 0 then m_root rmt else cwd in
            _ ← vfs_vnode_borrow current;
            let pos := len - 1 in
            buffer ← lift (put_bytes buffer pos [0]);
            '(status, current, (pos, buffer)) ←
              getcwd_loop (Z.to_nat VFS_SYMLINK_TARGET_MAX) current buffer pos;
            _ ← vfs_vnode_release current;
            if negb (bool_decide (status = VFS_STATUS_OK)) then mret (status, buffer)
            else
              buffer ← lift (put_bytes buffer 0 (drop (Z.to_nat pos) buffer));
              mret (VFS_STATUS_OK, buffer)
  end.

(** *** Directories *)
Definition mark_dir_changed (dir : Z) : prog W unit :=
  now ← unix_time; update_node dir (with_modified now).

(** The out-parameter, when there is one. *)
Definition return_created_ref (created : Z) (out : bool) : prog W Z :=
  if negb out then _ ← vfs_vnode_release created; mret 0 else mret created.

Definition dir_mutation_allowed (dir : Z) (name : option (list Z)) : prog W vfs_status :=
  if dir =? 0 then mret VFS_STATUS_INVALID_ARG
  else match name with
  | None => mret VFS_STATUS_INVALID_ARG
  | Some _ =>
      n ← node dir;
      if negb (bool_decide (n_type n = VFS_NODE_DIR)) then mret VFS_STATUS_NOTDIR
      else if negb (vfs_validate_name name) then mret VFS_STATUS_INVALID_ARG
      else mret VFS_STATUS_OK
  end.

Definition vfs_create (dir : Z) (name : option (list Z)) (out : bool) : prog W (vfs_status * Z) :=
  status ← dir_mutation_allowed dir name;
  if negb (bool_decide (status = VFS_STATUS_OK)) then mret (status, 0)
  else
    missing ← HVFS_VOP_MISSING dir op_create_file;
    if (missing : bool) then mret (VFS_STATUS_NOT_IMPLEMENTED, 0)
    else
      f ← vop dir op_create_file;
      '(status, created) ← f dir (default [] name);
      if negb (bool_decide (status = VFS_STATUS_OK)) then mret (status, 0)
      else
        _ ← mark_dir_changed dir;
        r ← return_created_ref created out;
        mret (VFS_STATUS_OK, r).

Definition vfs_mkdir (dir : Z) (name : option (list Z)) (out : bool) : prog W (vfs_status * Z) :=
  let name := trim_slashes <$> name in
  status ← dir_mutation_allowed dir name;
  if negb (bool_decide (status = VFS_STATUS_OK)) then mret (status, 0)
  else
    missing ← HVFS_VOP_MISSING dir op_create_dir;
    if (missing : bool) then mret (VFS_STATUS_NOT_IMPLEMENTED, 0)
    else
      f ← vop dir op_create_dir;
      '(status, created) ← f dir (default [] name);
      if negb (bool_decide (status = VFS_STATUS_OK)) then mret (status, 0)
      else
        _ ← mark_dir_changed dir;
        r ← return_created_ref created out;
        mret (VFS_STATUS_OK, r).

Definition remove_child (dir : Z) (name : list Z) (flags : Z) (expect_dir : bool) : prog W vfs_status :=
  n ← node dir;
  no_lookup ← HVFS_VOP_MISSING dir op_lookup;
  if negb (bool_decide (n_type n = VFS_NODE_DIR)) || no_lookup then mret VFS_STATUS_NOTDIR
  else
    missing ← (if expect_dir then HVFS_VOP_MISSING dir op_rmdir else HVFS_VOP_MISSING dir op_unlink);
    if (missing : bool) then mret VFS_STATUS_NOT_IMPLEMENTED
    else
      f ← vop dir op_lookup;
      '(status, target) ← f dir name;
      if negb (bool_decide (status = VFS_STATUS_OK)) then mret status
      else
        t ← node target;
        status ←
          (if expect_dir && negb (bool_decide (n_type t = VFS_NODE_DIR)) then mret VFS_STATUS_NOTDIR
           else if negb expect_dir && bool_decide (n_type t = VFS_NODE_DIR) then mret VFS_STATUS_ISDIR
           else
             status ← (if expect_dir then g ← vop dir op_rmdir; g dir name flags
                       else g ← vop dir op_unlink; g dir name flags);
             if negb (bool_decide (status = VFS_STATUS_OK)) then mret status
             else
               t ← node target;
               _ ← when (0 <? link_count t) (update_node target (with_link_count (link_count t - 1)));
               _ ← mark_dir_changed dir;
               mret VFS_STATUS_OK);
        _ ← vfs_vnode_release target;
        mret status.

Definition vfs_unlink (dir : Z) (name : option (list Z)) (flags : Z) : prog W vfs_status :=
  status ← dir_mutation_allowed dir name;
  if negb (bool_decide (status = VFS_STATUS_OK)) then mret status
  else remove_child dir (default [] name) flags false.

Definition vfs_rmdir (dir : Z) (name : option (list Z)) (flags : Z) : prog W vfs_status :=
  status ← dir_mutation_allowed dir name;
  if negb (bool_decide (status = VFS_STATUS_OK)) then mret status
  else remove_child dir (default [] name) flags true.

(** *** Links *)

(** The mount whose tree holds a vnode; [None] is an out-parameter not written. *)
Fixpoint owning_mount_loop (n : nat) (current : Z) : prog W (vfs_status * Z * option Z) :=
  match n with
  | O => mret (VFS_STATUS_OK, current, None)
  | S n' =>
      rm ← gets root_mount;
      rmt ← mount rm;
      if current =? m_root rmt then mret (VFS_STATUS_OK, current, Some rm)
      else
        c ← node current;
        at_root ← (if n_mount c =? 0 then mret false
                   else mt ← mount (n_mount c); mret (current =? m_root mt));
        if (at_root : bool) then mret (VFS_STATUS_OK, current, Some (n_mount c))
        else
          missing ← HVFS_VOP_MISSING current op_parent;
          if (missing : bool) then mret (VFS_STATUS_NOT_IMPLEMENTED, current, None)
          else
            f ← vop current op_parent;
            '(status, parent) ← f current;
            if negb (bool_decide (status = VFS_STATUS_OK)) then mret (status, current, None)
            else if (parent =? 0) || (parent =? current) then
              _ ← vfs_vnode_release parent; mret (VFS_STATUS_NOENT, current, None)
            else
              _ ← vfs_vnode_release current;
              owning_mount_loop n' parent
  end.
Definition vnode_owning_mount (v : Z) : prog W (vfs_status * option Z) :=
  if v =? 0 then mret (VFS_STATUS_INVALID_ARG, None)
  else
    rm ← gets root_mount;
    if rm =? 0 then mret (VFS_STATUS_NOENT, None)
    else
      rmt ← mount rm;
      if m_root rmt =? 0 then mret (VFS_STATUS_NOENT, None)
      else
        _ ← vfs_vnode_borrow v;
        '(status, current, out) ← owning_mount_loop (Z.to_nat VFS_SYMLINK_TARGET_MAX) v;
        _ ← vfs_vnode_release current;
        mret (status, out).

Definition vfs_link (old_path new_path : option (list Z)) : prog W vfs_status :=
  match old_path, new_path with
  | Some _, Some _ =>
      '(status, target) ← vfs_lookup old_path true;
      if negb (bool_decide (status = VFS_STATUS_OK)) then mret status
      else
        t ← node target;
        '(status, parent) ←
          (if bool_decide (n_type t = VFS_NODE_DIR) then mret (VFS_STATUS_ISDIR, 0)
           else if negb (bool_decide (n_type t = VFS_NODE_FILE)) then mret (VFS_STATUS_INVALID_ARG, 0)
           else
             '(status, (parent, name)) ← lookup_parent_entry new_path;
             if negb (bool_decide (status = VFS_STATUS_OK)) then mret (status, parent)
             else
               status ← dir_mutation_allowed parent name;
               if negb (bool_decide (status = VFS_STATUS_OK)) then mret (status, parent)
               else
                 '(status, target_mount) ← vnode_owning_mount target;
                 '(status, parent_mount) ←
                   (if bool_decide (status = VFS_STATUS_OK) then vnode_owning_mount parent
                    else mret (status, None));
                 if negb (bool_decide (status = VFS_STATUS_OK)) then mret (status, parent)
                 else if negb (default 0 target_mount =? default 0 parent_mount)
                 then mret (VFS_STATUS_XDEV, parent)
                 else
                   missing ← HVFS_VOP_MISSING parent op_link;
                   if (missing : bool) then mret (VFS_STATUS_NOT_IMPLEMENTED, parent)
                   else
                     f ← vop parent op_link;
                     status ← f parent (default [] name) target;
                     _ ← (if bool_decide (status = VFS_STATUS_OK) then
                            _ ← mark_dir_changed parent;
                            update_node target (λ n, with_link_count (u32 (link_count n + 1)) n)
                          else mret tt);
                     mret (status, parent));
        _ ← vfs_vnode_release parent;
        _ ← vfs_vnode_release target;
        mret status
  | _, _ => mret VFS_STATUS_INVALID_ARG
  end.

(** The two early exits jump over the initialisation of [created] and then
    release it: the value is indeterminate. *)
Definition vfs_symlink (target link_path : option (list Z)) : prog W vfs_status :=
  match target, link_path with
  | Some target, Some _ =>
      if bool_decide (target = []) then mret VFS_STATUS_INVALID_ARG
      else
        '(status, (parent, name)) ← lookup_parent_entry link_path;
        if negb (bool_decide (status = VFS_STATUS_OK)) then mret status
        else
          status ← dir_mutation_allowed parent name;
          if negb (bool_decide (status = VFS_STATUS_OK)) then fault
          else
            missing ← HVFS_VOP_MISSING parent op_symlink;
            if (missing : bool) then fault
            else
              f ← vop parent op_symlink;
              '(status, created) ← f parent (default [] name) target;
              _ ← (if bool_decide (status = VFS_STATUS_OK) then mark_dir_changed parent else mret tt);
              _ ← vfs_vnode_release created;
              _ ← vfs_vnode_release parent;
              mret status
  | _, _ => mret VFS_STATUS_INVALID_ARG
  end.

(** The bytes stored in the buffer are the result; [buffer] tells whether it is there. *)
Definition vfs_readlink (path : option (list Z)) (buffer : bool) (len : Z) : prog W (vfs_status * list Z) :=
  match path with
  | None => mret (VFS_STATUS_INVALID_ARG, [])
  | Some _ =>
      if negb buffer then mret (VFS_STATUS_INVALID_ARG, [])
      else
        '(status, link) ← lookup_child_no_follow path;
        if negb (bool_decide (status = VFS_STATUS_OK)) then mret (status, [])
        else
          n ← node link;
          r ← (if negb (bool_decide (n_type n = VFS_NODE_SYMLINK)) then mret (VFS_STATUS_INVALID_ARG, [])
               else
                 missing ← HVFS_VOP_MISSING link op_readlink;
                 if (missing : bool) then mret (VFS_STATUS_NOT_IMPLEMENTED, [])
                 else f ← vop link op_readlink; f link len);
          _ ← vfs_vnode_release link;
          mret r
  end.

(** *** Open files *)
Definition vnode_is_file_like (v : Z) : prog W bool :=
  if v =? 0 then mret false
  else n ← node v; mret (bool_decide (n_type n = VFS_NODE_FILE) || bool_decide (n_type n = VFS_NODE_DEVICE)).

Definition can_open (v flags : Z) : prog W vfs_status :=
  if v =? 0 then mret VFS_STATUS_INVALID_ARG
  else
    n ← node v;
    if flag_set flags VFS_OPEN_DIRECTORY then
      mret (if bool_decide (n_type n = VFS_NODE_DIR) then VFS_STATUS_OK else VFS_STATUS_NOTDIR)
    else if bool_decide (n_type n = VFS_NODE_DIR) then mret VFS_STATUS_ISDIR
    else
      like ← vnode_is_file_like v;
      mret (if (like : bool) then VFS_STATUS_OK else VFS_STATUS_INVALID_ARG).

Definition vfs_get_file_handle (path : option (list Z)) (flags : Z) (out : bool) : prog W (vfs_status * Z) :=
  if negb out then mret (VFS_STATUS_INVALID_ARG, 0)
  else match path with
  | None => mret (VFS_STATUS_INVALID_ARG, 0)
  | Some p =>
      if open_create_path_invalid p flags then mret (VFS_STATUS_INVALID_ARG, 0)
      else
        '(lookup_res, target) ← vfs_lookup path true;
        if negb (bool_decide (lookup_res = VFS_STATUS_OK)) &&
           negb (bool_decide (lookup_res = VFS_STATUS_NOENT) && flag_set flags VFS_OPEN_CREATE &&
                 negb (flag_set flags VFS_OPEN_DIRECTORY))
        then mret (lookup_res, 0)
        else
          '(status, dir, target) ←
            (if bool_decide (lookup_res = VFS_STATUS_NOENT) then
               '(status, (dir, name)) ← lookup_parent_entry path;
               if negb (bool_decide (status = VFS_STATUS_OK)) then mret (status, dir, target)
               else
                 '(status, target) ← vfs_create dir name true;
                 mret (status, dir, target)
             else mret (lookup_res, 0, target));
          '(status, file) ←
            (if negb (bool_decide (status = VFS_STATUS_OK)) then mret (status, 0)
             else
               missing ← HVFS_VOP_MISSING target op_open;
               if (missing : bool) then mret (VFS_STATUS_NOT_IMPLEMENTED, 0)
               else
                 status ← can_open target flags;
                 if negb (bool_decide (status = VFS_STATUS_OK)) then mret (status, 0)
                 else
                   f ← vop target op_open;
                   f target (Z.land flags (Z.lnot VFS_OPEN_CREATE)));
          _ ← vfs_vnode_release dir;
          _ ← when (negb (bool_decide (status = VFS_STATUS_OK))) (vfs_vnode_release target);
          mret (status, file)
  end.

(** The file and the descriptor. *)
Definition vfs_open (path : option (list Z)) (flags : Z) (out : bool) : prog W (vfs_status * (Z * Z)) :=
  if negb out then mret (VFS_STATUS_INVALID_ARG, (0, 0))
  else match path with
  | None => mret (VFS_STATUS_INVALID_ARG, (0, 0))
  | Some p =>
      if open_create_path_invalid p flags then mret (VFS_STATUS_INVALID_ARG, (0, 0))
      else
        slot ← proc_fd_find_null;
        match slot with
        | None => mret (VFS_STATUS_TOO_MANY_OPEN, (0, 0))
        | Some fd_idx =>
            '(status, file) ← vfs_get_file_handle path flags true;
            if bool_decide (status = VFS_STATUS_OK) then
              _ ← proc_fd_set fd_idx file; mret (status, (file, fd_idx))
            else mret (status, (file, 0))
        end
  end.

Definition can_read (f : Z) : prog W vfs_status :=
  if f =? 0 then mret VFS_STATUS_INVALID_ARG
  else
    n ← file f;
    if f_vnode n =? 0 then mret VFS_STATUS_INVALID_ARG
    else mret (if flag_set (f_flags n) VFS_OPEN_READ then VFS_STATUS_OK else VFS_STATUS_BAD_FD).
Definition can_readdir (f : Z) : prog W vfs_status :=
  if f =? 0 then mret VFS_STATUS_NOENT
  else
    n ← file f;
    if f_vnode n =? 0 then mret VFS_STATUS_NOENT
    else v ← node (f_vnode n);
         mret (if bool_decide (n_type v = VFS_NODE_DIR) then VFS_STATUS_OK else VFS_STATUS_NOTDIR).
Definition can_seek (f whence : Z) : prog W vfs_status :=
  if f =? 0 then mret VFS_STATUS_INVALID_ARG
  else if negb (whence =? VFS_SEEK_SET) && negb (whence =? VFS_SEEK_CUR) && negb (whence =? VFS_SEEK_END)
  then mret VFS_STATUS_INVALID_ARG
  else mret VFS_STATUS_OK.
Definition can_write (f buffer : Z) : prog W vfs_status :=
  if f =? 0 then mret VFS_STATUS_INVALID_ARG
  else
    n ← file f;
    if f_vnode n =? 0 then mret VFS_STATUS_INVALID_ARG
    else if negb (flag_set (f_flags n) VFS_OPEN_WRITE) then mret VFS_STATUS_BAD_FD
    else if buffer =? 0 then mret VFS_STATUS_INVALID_ARG
    else mret VFS_STATUS_OK.
Definition can_ioctl (f : Z) : prog W vfs_status :=
  if f =? 0 then mret VFS_STATUS_BAD_FD
  else
    n ← file f;
    if f_vnode n =? 0 then mret VFS_STATUS_BAD_FD
    else v ← node (f_vnode n);
         mret (if bool_decide (n_type v = VFS_NODE_DEVICE) then VFS_STATUS_OK else VFS_STATUS_NOT_IMPLEMENTED).

Definition vfs_read (f buffer len : Z) : prog W (vfs_status * Z) :=
  if f =? 0 then mret (VFS_STATUS_INVALID_ARG, 0)
  else
    missing ← HVFS_FOP_MISSING f op_read;
    if (missing : bool) then mret (VFS_STATUS_NOT_IMPLEMENTED, 0)
    else
      status ← can_read f;
      if negb (bool_decide (status = VFS_STATUS_OK)) then mret (status, 0)
      else
        g ← fop f op_read;
        '(status, bytes_read) ← g f buffer len;
        _ ← (if bool_decide (status = VFS_STATUS_OK) && (0 <? bytes_read) then
               now ← unix_time;
               n ← file f; update_node (f_vnode n) (with_accessed now)
             else mret tt);
        mret (status, bytes_read).

Definition vfs_seek (f offset whence : Z) : prog W (vfs_status * Z) :=
  if f =? 0 then mret (VFS_STATUS_INVALID_ARG, 0)
  else
    missing ← HVFS_FOP_MISSING f op_seek;
    if (missing : bool) then mret (VFS_STATUS_NOT_IMPLEMENTED, 0)
    else
      status ← can_seek f whence;
      if negb (bool_decide (status = VFS_STATUS_OK)) then mret (status, 0)
      else g ← fop f op_seek; g f offset whence.

Definition vfs_write (f buffer len : Z) : prog W (vfs_status * Z) :=
  if f =? 0 then mret (VFS_STATUS_INVALID_ARG, 0)
  else
    missing ← HVFS_FOP_MISSING f op_write;
    if (missing : bool) then mret (VFS_STATUS_NOT_IMPLEMENTED, 0)
    else
      status ← can_write f buffer;
      if negb (bool_decide (status = VFS_STATUS_OK)) then mret (status, 0)
      else
        n ← file f;
        status ←
          (if flag_set (f_flags n) VFS_OPEN_APPEND then
             v ← node (f_vnode n);
             if bool_decide (n_type v = VFS_NODE_FILE) then
               '(status, _) ← vfs_seek f 0 VFS_SEEK_END; mret status
             else mret VFS_STATUS_OK
           else mret VFS_STATUS_OK);
        if negb (bool_decide (status = VFS_STATUS_OK)) then mret (status, 0)
        else
          g ← fop f op_write;
          '(status, written) ← g f buffer len;
          _ ← (if bool_decide (status = VFS_STATUS_OK) && (0 <? written) then
                 now ← unix_time;
                 n ← file f; update_node (f_vnode n) (with_modified now)
               else mret tt);
          mret (status, written).

Definition vfs_readdir (dir : Z) : prog W (vfs_status * Z) :=
  if dir =? 0 then mret (VFS_STATUS_NOENT, 0)
  else
    status ← can_readdir dir;
    if negb (bool_decide (status = VFS_STATUS_OK)) then mret (status, 0)
    else
      missing ← HVFS_FOP_MISSING dir op_readdir;
      if (missing : bool) then mret (VFS_STATUS_NOT_IMPLEMENTED, 0)
      else g ← fop dir op_readdir; g dir.

Definition vfs_ioctl (f request args : Z) : prog W vfs_status :=
  if f =? 0 then mret VFS_STATUS_BAD_FD
  else
    status ← can_ioctl f;
    if negb (bool_decide (status = VFS_STATUS_OK)) then mret status
    else
      missing ← HVFS_FOP_MISSING f op_ioctl;
      if (missing : bool) then mret VFS_STATUS_NOT_IMPLEMENTED
      else g ← fop f op_ioctl; g f request args.

Definition vfs_close (f : Z) : prog W vfs_status :=
  if f =? 0 then mret VFS_STATUS_OK
  else
    n ← file f;
    if f_refcount n =? 0 then mret VFS_STATUS_INVALID_ARG
    else
      missing ← (if f_refcount n =? 1 then HVFS_FOP_MISSING f op_close else mret false);
      if (missing : bool) then mret VFS_STATUS_NOT_IMPLEMENTED
      else
        _ ← clear_process_fd f;
        if 1 <? f_refcount n then
          _ ← vfs_file_release f; mret VFS_STATUS_OK
        else
          g ← fop f op_close;
          status ← g f;
          _ ← vfs_vnode_release (f_vnode n);
          mret status.

(** The file behind a descriptor, NULL on failure. *)
Definition vfs_resolve_fd (fd : Z) : prog W (vfs_status * Z) :=
  ret ← proc_fd_get fd;
  if ret =? 0 then mret (VFS_STATUS_BAD_FD, 0) else mret (VFS_STATUS_OK, ret).

(** *** Metadata *)
Definition cache_vnode_stat_timestamps (v out : Z) : prog W unit :=
  if (v =? 0) || (out =? 0) then mret tt
  else
    n ← node v;
    st ← gets stats;
    s ← lift (deref (st !! out));
    modify (λ w, set_stats (<[out := MkStat (s_type s) (s_size s) (link_count n) (accessed_timestamp n)
                                       (modified_timestamp n) (changed_mdt_timestamp n)]> (stats w)) w).
Definition stat_vnode (v : Z) : prog W (vfs_status * Z) :=
  missing ← HVFS_VOP_MISSING v op_stat;
  if (missing : bool) then mret (VFS_STATUS_NOT_IMPLEMENTED, 0)
  else
    f ← vop v op_stat;
    '(status, out) ← f v;
    _ ← (if bool_decide (status = VFS_STATUS_OK) then cache_vnode_stat_timestamps v out else mret tt);
    mret (status, out).

Definition vfs_stat (path : option (list Z)) : prog W (vfs_status * Z) :=
  '(status, v) ← vfs_lookup path true;
  if negb (bool_decide (status = VFS_STATUS_OK)) then mret (status, 0)
  else r ← stat_vnode v; _ ← vfs_vnode_release v; mret r.
Definition vfs_lstat (path : option (list Z)) : prog W (vfs_status * Z) :=
  '(status, v) ← (if path_is_root path then vfs_lookup path true else lookup_child_no_follow path);
  if negb (bool_decide (status = VFS_STATUS_OK)) then mret (status, 0)
  else r ← stat_vnode v; _ ← vfs_vnode_release v; mret r.
Definition vfs_fstat (f : Z) : prog W (vfs_status * Z) :=
  if f =? 0 then mret (VFS_STATUS_NOENT, 0) else n ← file f; stat_vnode (f_vnode n).

(** A name in memory of its own: its address and bytes, address 0 for NULL. *)
Definition vfs_clone_name (name : list Z) (trailing_slash : bool) : prog W (Z * list Z) :=
  let cloned := name ++ (if trailing_slash then [c_slash] else []) in
  p ← calloc (Z.of_nat (length cloned) + 1);
  if p =? 0 then mret (0, []) else mret (p, cloned).

(** *** Descriptors: [syscall_close_fd] and [syscall_dup2] *)
Definition syscall_close_fd (fd : Z) : prog W vfs_status :=
  if (fd <? 0) || (MAX_FDS <=? fd) then mret VFS_STATUS_BAD_FD
  else
    f ← proc_fd_get fd;
    if f =? 0 then mret VFS_STATUS_BAD_FD
    else
      n ← file f;
      if 1 <? f_refcount n then
        _ ← proc_fd_set fd 0;
        _ ← vfs_file_release f;
        mret VFS_STATUS_OK
      else vfs_close f.

Definition syscall_dup2 (oldfd newfd : Z) : prog W Z :=
  if (oldfd <? 0) || (newfd <? 0) || (MAX_FDS <=? newfd) then mret (- EBADF)
  else
    f ← proc_fd_get oldfd;
    if f =? 0 then mret (- EBADF)
    else if oldfd =? newfd then mret newfd
    else
      g ← proc_fd_get newfd;
      status ← (if negb (g =? 0) then syscall_close_fd newfd else mret VFS_STATUS_OK);
      if negb (bool_decide (status = VFS_STATUS_OK)) then mret (- vfs_status_to_errno status)
      else
        _ ← vfs_file_borrow f;
        _ ← proc_fd_set newfd f;
        mret newfd.
End vfs.
