(* ===== verification/VfsWalk.v ===== *)
(** * VfsWalk: path resolution is what it should be

    [VfsLaws] is what a file system promises the virtual file system: its
    operations answer from a tree that reference counts and allocations do not
    change, and hand out counted references.  Against it, the walk of
    [vfs.c] over the bytes of a path is shown to compute the reference
    resolution of the list of its components, to give back every reference but
    that of its result, and to free what it allocates. *)
From S2P Require Import Prelude Alloc Vfs.

(** ** What a file system promises *)
Definition same_but_refs (ns ns' : gmap Z vfs_node) : Prop :=
  ∀ v, with_refcount 0 <$> ns' !! v = with_refcount 0 <$> ns !! v.

Class VfsFs (X V : Type) := {
  (** The content of the file systems, as [lookup], [parent], [name] and
      [readlink] see it. *)
  fs_view : X → V;
  fs_child : V → Z → list Z → vfs_status + Z;
  fs_up : V → Z → vfs_status + Z;
  fs_name : V → Z → vfs_status + list Z;
  fs_target : V → Z → Z → vfs_status + list Z;
  (** Their invariant. *)
  fs_ok : gmap Z vfs_node → V → Prop;
}.

Section laws.
Context {X V : Type} {alloc_X : Allocator X} {fs_X : VfsFs X V}.
Abbreviation W := (vworld X).
Context (node_ops : Z → vfs_node_ops W).

(** An operation that hands out a counted reference, or fails and does nothing. *)
Definition gives (r : vfs_status + Z) (m : prog W (vfs_status * Z)) (w : W) : Prop :=
  match r with
  | inr v => v ≠ 0 ∧ is_Some (nodes w !! v) ∧ m w = (_ ← vfs_vnode_borrow v; mret (VFS_STATUS_OK, v)) w
  | inl s => s ≠ VFS_STATUS_OK ∧ m w = Ret ((s, 0), w)
  end.
Definition tells {A} (r : vfs_status + A) (none : A) (m : prog W (vfs_status * A)) (w : W) : Prop :=
  match r with
  | inr a => m w = Ret ((VFS_STATUS_OK, a), w)
  | inl s => s ≠ VFS_STATUS_OK ∧ m w = Ret ((s, none), w)
  end.

Class VfsLaws := {
  fs_ok_refs ns ns' (v : V) : same_but_refs ns ns' → fs_ok ns v → fs_ok ns' v;
  fs_view_alloc n (x : X) p x' : al_alloc n x = Ret (p, x') → fs_view x' = fs_view x;
  fs_view_free p (x : X) x' : al_free p x = Ret (tt, x') → fs_view x' = fs_view x;
  fs_lookup_law (w : W) d n f name :
    fs_ok (nodes w) (fs_view (ext w)) → nodes w !! d = Some n → n_type n = VFS_NODE_DIR →
    n_ops n ≠ 0 → op_lookup (node_ops (n_ops n)) = Some f →
    gives (fs_child (fs_view (ext w)) d name) (f d name) w;
  fs_parent_law (w : W) d n f :
    fs_ok (nodes w) (fs_view (ext w)) → nodes w !! d = Some n →
    n_ops n ≠ 0 → op_parent (node_ops (n_ops n)) = Some f →
    gives (fs_up (fs_view (ext w)) d) (f d) w;
  fs_name_law (w : W) d n f :
    fs_ok (nodes w) (fs_view (ext w)) → nodes w !! d = Some n →
    n_ops n ≠ 0 → op_name (node_ops (n_ops n)) = Some f →
    match fs_name (fs_view (ext w)) d with
    | inr a => f d w = Ret ((VFS_STATUS_OK, Some a), w)
    | inl s => s ≠ VFS_STATUS_OK ∧ f d w = Ret ((s, None), w)
    end;
  fs_readlink_law (w : W) d n f len :
    fs_ok (nodes w) (fs_view (ext w)) → nodes w !! d = Some n → n_type n = VFS_NODE_SYMLINK →
    n_ops n ≠ 0 → op_readlink (node_ops (n_ops n)) = Some f →
    tells (fs_target (fs_view (ext w)) d len) [] (f d len) w;
}.
End laws.

(** ** The reference: components *)

(** The pieces between the slashes, empty ones dropped. *)
Fixpoint split_path (p : list Z) : list (list Z) :=
  match p with
  | [] => [[]]
  | c :: p' =>
      if c =? c_slash then [] :: split_path p'
      else match split_path p' with h :: t => (c :: h) :: t | [] => [[c]] end
  end.
Definition comps (p : list Z) : list (list Z) := filter (λ l, l ≠ []) (split_path p).

Lemma split_path_cons p : ∃ h t, split_path p = h :: t.
Proof.
  induction p as [|c p (h & t & IH)]; cbn [split_path]; [by eexists _, _|].
  rewrite IH. destruct (c =? c_slash); by eexists _, _.
Qed.

Lemma comps_slash p : comps (c_slash :: p) = comps p.
Proof. done. Qed.

Lemma comps_skip p : comps (skip_slashes p) = comps p.
Proof.
  induction p as [|c p IH]; [done|]. cbn [skip_slashes].
  destruct (Z.eqb_spec c c_slash) as [->|]; [|done]. by rewrite IH.
Qed.

Lemma component_at_spec p n r :
  component_at p = (n, r) → p = n ++ r ∧ (c_slash ∉ n) ∧ (r = [] ∨ head r = Some c_slash).
Proof.
  revert n. induction p as [|c p IH]; intros n; cbn [component_at].
  - intros [= <- <-]. split_and!; [done|set_solver|by left].
  - destruct (Z.eqb_spec c c_slash) as [->|Hc].
    + intros [= <- <-]. split_and!; [done|set_solver|by right].
    + destruct (component_at p) as [n' r'] eqn:E. intros [= <- <-].
      destruct (IH n' eq_refl) as (-> & Hn & Hr). split_and!; [done|set_solver|done].
Qed.

Lemma split_component n r :
  c_slash ∉ n → split_path (n ++ r) = match split_path r with h :: t => (n ++ h) :: t | [] => [n] end.
Proof.
  induction n as [|c n IH]; intros Hn; cbn [app].
  - destruct (split_path_cons r) as (h & t & ->). done.
  - cbn [split_path]. rewrite (proj2 (Z.eqb_neq c c_slash)) by set_solver.
    rewrite IH by set_solver. destruct (split_path_cons r) as (h & t & ->). done.
Qed.

Lemma comps_component n r :
  n ≠ [] → c_slash ∉ n → (r = [] ∨ head r = Some c_slash) → comps (n ++ r) = n :: comps r.
Proof.
  intros Hn Hs Hr. unfold comps. rewrite split_component by done.
  destruct r as [|c r]; cbn [split_path].
  - rewrite app_nil_r, filter_cons_True by done. done.
  - destruct Hr as [?|[= ->]]; [done|]. rewrite Z.eqb_refl, app_nil_r, filter_cons_True by done. done.
Qed.

(** A cursor at the start of a component. *)
Lemma skip_slashes_head p : head (skip_slashes p) ≠ Some c_slash.
Proof.
  induction p as [|c p IH]; [done|]. cbn [skip_slashes].
  destruct (Z.eqb_spec c c_slash) as [->|Hc]; [done|]. cbn. congruence.
Qed.
Lemma component_nonempty p n r :
  head p ≠ Some c_slash → p ≠ [] → component_at p = (n, r) → n ≠ [].
Proof.
  intros Hh Hne Hc. destruct p as [|c p]; [done|]. cbn [component_at] in Hc.
  rewrite (proj2 (Z.eqb_neq c c_slash)) in Hc by (intros ->; done).
  destruct (component_at p). by injection Hc as <- <-.
Qed.
Lemma comps_nil p : head p ≠ Some c_slash → comps p = [] → p = [].
Proof.
  intros Hh Hc. destruct (decide (p = [])) as [|Hne]; [done|].
  destruct (component_at p) as [n r] eqn:E. destruct (component_at_spec _ _ _ E) as (-> & Hn & Hr).
  rewrite comps_component in Hc; [done| |done|done]. by eapply component_nonempty.
Qed.

Lemma comps_app t r : comps (t ++ c_slash :: r) = comps t ++ comps r.
Proof.
  unfold comps. assert (split_path (t ++ c_slash :: r) = split_path t ++ split_path r) as ->.
  { induction t as [|c t IH]; [done|]. cbn [app split_path]. rewrite IH.
    destruct (c =? c_slash); [done|]. by destruct (split_path_cons t) as (h & u & ->). }
  apply filter_app.
Qed.

(** ** References held *)
Definition occ (v : Z) (H : list Z) : Z := Z.of_nat (length (filter (λ x, x = v) H)).

Lemma occ_cons v x H : occ v (x :: H) = (if decide (x = v) then 1 else 0) + occ v H.
Proof. unfold occ. rewrite filter_cons. destruct (decide (x = v)); [|done]. cbn [length]. lia. Qed.
Lemma occ_nonneg v H : 0 ≤ occ v H.
Proof. unfold occ. lia. Qed.
Lemma occ_bound v H : occ v H ≤ Z.of_nat (length H).
Proof. unfold occ. pose proof (length_filter (λ x, x = v) H). lia. Qed.
Lemma occ_perm v H H' : H ≡ₚ H' → occ v H = occ v H'.
Proof. unfold occ. by intros ->. Qed.

Lemma with_refcount_id n : with_refcount (refcount n) n = n.
Proof. by destruct n. Qed.

Section walk.
Context {X V : Type} {alloc_X : Allocator X} {allaws_X : AllocatorLaws (2 ^ 61) X} {fs_X : VfsFs X V}.
Abbreviation W := (vworld X).
Context (node_ops : Z → vfs_node_ops W).
Context {laws_X : VfsLaws node_ops}.
Implicit Types (w : W).

(** The world [w0] with the references [H] held on top, the blocks [B] live and
    the file systems as they were. *)
Record held w0 (H : list Z) (B : gmap Z Z) w : Prop := {
  hd_nodes v : nodes w !! v = (λ n, with_refcount (refcount n + occ v H) n) <$> nodes w0 !! v;
  hd_mounts : mounts w = mounts w0;
  hd_files : files w = files w0;
  hd_stats : stats w = stats w0;
  hd_root : root_mount w = root_mount w0;
  hd_proc : current_process w = current_process w0;
  hd_view : fs_view (ext w) = fs_view (ext w0);
  hd_alloc : al_ok (ext w);
  hd_blocks : al_live (ext w) = B;
}.

(** A pointer to a vnode. *)
Definition is_node w v : Prop := v ≠ 0 ∧ is_Some (nodes w !! v).

(** Between calls: a vnode is referenced or linked, its count is far from the
    width of its field, and the pointers of vnodes and mounts are valid. *)
Record vfs_ok w : Prop := {
  vo_live v n : nodes w !! v = Some n → 0 ≤ refcount n < 2 ^ 31 ∧ (refcount n = 0 → 0 < link_count n);
  vo_mount v n : nodes w !! v = Some n → n_mount n ≠ 0 → is_Some (mounts w !! n_mount n);
  vo_mroot m t : mounts w !! m = Some t → is_node w (m_root t);
  vo_mpoint m t : mounts w !! m = Some t → m_point t ≠ 0 → is_node w (m_point t);
  vo_mparent m t : mounts w !! m = Some t → m_parent t ≠ 0 → is_Some (mounts w !! m_parent t);
  vo_rootm : root_mount w ≠ 0 → is_Some (mounts w !! root_mount w);
  vo_cwd p : current_process w = Some p → p_cwd p ≠ 0 → is_node w (p_cwd p);
  vo_fs : fs_ok (nodes w) (fs_view (ext w));
  vo_alloc : al_ok (ext w);
}.

Lemma held_init w : vfs_ok w → held w [] (al_live (ext w)) w.
Proof.
  intros Hok. split; try done; [|apply Hok]. intros v. destruct (nodes w !! v) as [n|]; [|done].
  cbn. f_equal. rewrite Z.add_0_r. by rewrite with_refcount_id.
Qed.

Lemma held_perm w0 H H' B w : H ≡ₚ H' → held w0 H B w → held w0 H' B w.
Proof.
  intros Hp [E ? ? ? ? ? ? ? ?]. split; try done. intros v. rewrite E. by rewrite (occ_perm v H H' Hp).
Qed.

Lemma held_node w0 H B w v n :
  held w0 H B w → nodes w0 !! v = Some n → nodes w !! v = Some (with_refcount (refcount n + occ v H) n).
Proof. intros Hh E. by rewrite (hd_nodes _ _ _ _ Hh), E. Qed.

Lemma held_same w0 H B w : held w0 H B w → same_but_refs (nodes w0) (nodes w).
Proof. intros Hh v. rewrite (hd_nodes _ _ _ _ Hh). by destruct (nodes w0 !! v). Qed.

Lemma held_fs_ok w0 H B w : vfs_ok w0 → held w0 H B w → fs_ok (nodes w) (fs_view (ext w)).
Proof.
  intros Hok Hh. rewrite (hd_view _ _ _ _ Hh). eapply (@fs_ok_refs _ _ _ _ _ laws_X); [by eapply held_same|apply Hok].
Qed.

(** *** Reading *)
Lemma wp_node w0 H B w v n Q :
  held w0 H B w → nodes w0 !! v = Some n →
  Q (with_refcount (refcount n + occ v H) n) w → wp (node v) Q w.
Proof.
  intros Hh E HQ. unfold node. apply wp_bind, wp_gets. rewrite (held_node _ _ _ _ _ _ Hh E). done.
Qed.
Lemma wp_mount w0 H B w m t Q :
  held w0 H B w → mounts w0 !! m = Some t → Q t w → wp (mount m) Q w.
Proof.
  intros Hh E HQ. unfold mount. apply wp_bind, wp_gets. rewrite (hd_mounts _ _ _ _ Hh), E. done.
Qed.

(** *** Borrowing and releasing *)
Lemma borrow_run w v n :
  v ≠ 0 → nodes w !! v = Some n →
  vfs_vnode_borrow v w = Ret (tt, set_nodes (<[v := with_refcount (u32 (refcount n + 1)) n]> (nodes w)) w).
Proof.
  intros Hv E. unfold vfs_vnode_borrow. rewrite (proj2 (Z.eqb_neq v 0)) by done. cbn [negb].
  unfold update_node. erewrite (bind_run (node v)); [done|].
  unfold node. erewrite (bind_run (gets nodes)) by done. rewrite E. done.
Qed.

Lemma u32_small z : 0 ≤ z < 2 ^ 32 → u32 z = z.
Proof. intros ?. unfold u32. by apply Z.mod_small. Qed.

Lemma held_insert w0 H H' B w v n r :
  held w0 H B w → nodes w0 !! v = Some n → r = refcount n + occ v H' →
  (∀ u, u ≠ v → occ u H' = occ u H) →
  held w0 H' B (set_nodes (<[v := with_refcount r (with_refcount (refcount n + occ v H) n)]> (nodes w)) w).
Proof.
  intros [E ? ? ? ? ? ? ? ?] Hv -> Hocc. split; try done. intros u. cbn [set_nodes nodes].
  destruct (decide (u = v)) as [->|Hne].
  - by rewrite lookup_insert_eq, Hv.
  - rewrite lookup_insert_ne, E by done. by rewrite Hocc.
Qed.

Lemma wp_borrow w0 H B w v Q :
  vfs_ok w0 → held w0 H B w → is_node w0 v → Z.of_nat (length H) < 2 ^ 30 →
  (∀ w', held w0 (v :: H) B w' → Q tt w') → wp (vfs_vnode_borrow v) Q w.
Proof.
  intros Hok Hh [Hv [n Hn]] Hlen HQ. unfold wp.
  rewrite (borrow_run w v _ Hv (held_node _ _ _ _ _ _ Hh Hn)). apply HQ.
  destruct (vo_live _ Hok v n Hn) as [Hr _]. pose proof (occ_nonneg v H). pose proof (occ_bound v H).
  cbn [with_refcount refcount]. rewrite u32_small by lia. eapply held_insert; [done|done| |].
  - rewrite occ_cons, decide_True by done. lia.
  - intros u Hu. rewrite occ_cons, decide_False by done. lia.
Qed.

Lemma wp_release w0 H H' B w v Q :
  vfs_ok w0 → held w0 H B w → is_node w0 v → H ≡ₚ v :: H' → Z.of_nat (length H) < 2 ^ 30 →
  (∀ w', held w0 H' B w' → Q tt w') → wp (vfs_vnode_release node_ops v) Q w.
Proof.
  intros Hok Hh [Hv [n Hn]] Hp Hlen HQ. destruct (vo_live _ Hok v n Hn) as [Hr Hl].
  assert (occ v H = 1 + occ v H') as Hocc.
  { rewrite (occ_perm v _ _ Hp), occ_cons, decide_True by done. lia. }
  pose proof (occ_nonneg v H'). pose proof (occ_bound v H).
  unfold vfs_vnode_release. rewrite (proj2 (Z.eqb_neq v 0)) by done.
  apply wp_bind. eapply wp_node; [done|done|]. cbn [with_refcount refcount].
  rewrite (proj2 (Z.eqb_neq _ _)) by lia. apply wp_bind. unfold update_node.
  apply wp_bind. eapply wp_node; [done|done|]. apply wp_modify. cbn [with_refcount refcount].
  rewrite u32_small by lia.
  set (w' := set_nodes _ w). assert (held w0 H' B w') as Hh'.
  { eapply held_insert; [done|done|lia|]. intros u Hu.
    by rewrite (occ_perm u _ _ Hp), occ_cons, decide_False. }
  apply wp_bind. eapply wp_node; [exact Hh'|done|]. cbn [with_refcount refcount link_count].
  replace ((refcount n + occ v H' =? 0) && (link_count n =? 0)) with false.
  { by apply wp_ret, HQ. }
  destruct (Z.eqb_spec (refcount n + occ v H') 0) as [E|]; [|done]. cbn [andb]. symmetry.
  apply Z.eqb_neq. assert (refcount n = 0) as E0 by lia. specialize (Hl E0). lia.
Qed.

(** *** Calls through the tables *)
Definition has_op {A} (n : vfs_node) (op : vfs_node_ops W → option A) : bool :=
  negb (n_ops n =? 0) && match op (node_ops (n_ops n)) with Some _ => true | None => false end.

Lemma wp_missing {A} (op : vfs_node_ops W → option A) w0 H B w v n Q :
  held w0 H B w → v ≠ 0 → nodes w0 !! v = Some n →
  Q (negb (has_op n op)) w → wp (HVFS_VOP_MISSING node_ops v op) Q w.
Proof.
  intros Hh Hv Hn HQ. unfold HVFS_VOP_MISSING. rewrite (proj2 (Z.eqb_neq v 0)) by done.
  apply wp_bind. eapply wp_node; [done|done|]. apply wp_ret. cbn [with_refcount n_ops].
  unfold has_op in HQ. destruct (n_ops n =? 0); [done|]. by destruct (op (node_ops (n_ops n))).
Qed.

Lemma wp_vop {A} (op : vfs_node_ops W → option A) w0 H B w v n Q :
  held w0 H B w → nodes w0 !! v = Some n → has_op n op = true →
  (∀ f, n_ops n ≠ 0 → op (node_ops (n_ops n)) = Some f → Q f w) → wp (vop node_ops v op) Q w.
Proof.
  intros Hh Hn Hop HQ. unfold vop. apply wp_bind. eapply wp_node; [done|done|].
  cbn [with_refcount n_ops]. unfold has_op in Hop. apply andb_true_iff in Hop as [H0 H1].
  destruct (op (node_ops (n_ops n))) as [f|] eqn:E; [|done]. apply (HQ f); [|done].
  apply negb_true_iff, Z.eqb_neq in H0. done.
Qed.

(** An operation that hands out a reference. *)
Lemma wp_gives w0 H B w (r : vfs_status + Z) m Q :
  vfs_ok w0 → held w0 H B w → Z.of_nat (length H) < 2 ^ 30 → gives r m w →
  (∀ s v w', match r with
             | inr u => s = VFS_STATUS_OK ∧ v = u ∧ is_node w0 v ∧ held w0 (v :: H) B w'
             | inl e => s = e ∧ e ≠ VFS_STATUS_OK ∧ v = 0 ∧ held w0 H B w'
             end → Q (s, v) w') →
  wp m Q w.
Proof.
  intros Hok Hh Hlen Hg HQ. unfold wp. destruct r as [e|u]; cbn [gives] in Hg.
  - destruct Hg as [He ->]. by apply HQ.
  - destruct Hg as (Hu & Hs & ->). fold (wp (_ ← vfs_vnode_borrow u; mret (VFS_STATUS_OK, u)) Q w).
    assert (is_node w0 u) as Hnode.
    { split; [done|]. rewrite (hd_nodes _ _ _ _ Hh) in Hs. by destruct (nodes w0 !! u); [|destruct Hs]. }
    apply wp_bind. eapply wp_borrow; [done..|]. intros w' Hh'. apply wp_ret, HQ. done.
Qed.

(** ** The reference: resolving components *)
Definition cross w v : Z :=
  match nodes w !! v with
  | Some n => match mounts w !! n_mount n with
              | Some t => if n_mount n =? 0 then v else m_root t
              | None => v
              end
  | None => v
  end.
Definition root_node w : Z := default 0 (m_root <$> mounts w !! root_mount w).
Definition is_dir w v : bool :=
  match nodes w !! v with
  | Some n => bool_decide (n_type n = VFS_NODE_DIR) && has_op n op_lookup
  | None => false
  end.
Definition is_symlink w v : bool :=
  match nodes w !! v with Some n => bool_decide (n_type n = VFS_NODE_SYMLINK) | None => false end.

(** The mount, other than the first, whose root [v] is. *)
Definition mounted_at w v : option vfs_mount_t :=
  match nodes w !! v with
  | Some n => if (n_mount n =? 0) || (n_mount n =? root_mount w) then None
              else match mounts w !! n_mount n with
                   | Some t => if v =? m_root t then Some t else None
                   | None => None
                   end
  | None => None
  end.
Definition up_in w v : vfs_status + Z :=
  match nodes w !! v with
  | Some n => if has_op n op_parent then fs_up (fs_view (ext w)) v else inl VFS_STATUS_NOT_IMPLEMENTED
  | None => inl VFS_STATUS_NOENT
  end.
(** [..]: through the mount point when [v] is the root of a mount. *)
Definition dotdot w v : vfs_status + Z :=
  if v =? root_node w then inl VFS_STATUS_NOENT
  else match mounted_at w v with
  | Some t =>
      if m_point t =? 0 then inl VFS_STATUS_INVALID_ARG
      else match mounts w !! (if m_parent t =? 0 then root_mount w else m_parent t) with
      | Some u => if m_point t =? m_root u then inr (m_root u) else up_in w (m_point t)
      | None => inl VFS_STATUS_INVALID_ARG
      end
  | None => up_in w v
  end.

(** The text of a symbolic link. *)
Definition link_text w v : vfs_status + list Z :=
  match nodes w !! v with
  | Some n =>
      if has_op n op_readlink then
        match fs_target (fs_view (ext w)) v VFS_SYMLINK_TARGET_MAX with
        | inl s => inl s
        | inr bytes => if (Z.of_nat (length bytes) =? 0) || (VFS_SYMLINK_TARGET_MAX <=? Z.of_nat (length bytes))
                       then inl VFS_STATUS_INVALID_ARG else inr (c_string bytes)
        end
      else inl VFS_STATUS_NOT_IMPLEMENTED
  | None => inl VFS_STATUS_INVALID_ARG
  end.

Fixpoint resolve_comps w (stop : bool) (follow : Z → Z → list (list Z) → vfs_status + vfs_lookup_result)
    (base : Z) (cs : list (list Z)) : vfs_status + vfs_lookup_result :=
  match cs with
  | [] => inr (MkResult base None)
  | c :: cs' =>
      if negb (is_dir w base) then inl VFS_STATUS_NOTDIR
      else if stop && bool_decide (cs' = []) then inr (MkResult base (Some c))
      else if component_is_dot c then resolve_comps w stop follow base cs'
      else if component_is_dotdot c then
        match dotdot w base with
        | inl s => inl s
        | inr u => resolve_comps w stop follow u cs'
        end
      else match fs_child (fs_view (ext w)) base c with
      | inl s => inl s
      | inr x => let x := cross w x in
                 if is_symlink w x then follow base x cs' else resolve_comps w stop follow x cs'
      end
  end.

(** [d] symbolic links may still be followed; the components of a link's text
    come before those that follow it. *)
Fixpoint resolve w (d : nat) (stop : bool) : Z → list (list Z) → vfs_status + vfs_lookup_result :=
  resolve_comps w stop
    (match d with
     | O => λ _ _ _, inl VFS_STATUS_LOOP
     | S d' => λ base link cs',
         match link_text w link with
         | inl s => inl s
         | inr t =>
             if bool_decide (t = [] ∧ cs' = []) then inl VFS_STATUS_NOENT
             else resolve w d' false
                    (cross w (if bool_decide (t = [] ∨ head t = Some c_slash) then root_node w else base))
                    (comps t ++ cs')
         end
     end).

(** Where a path starts. *)
Definition start w (base : Z) (path : list Z) : Z :=
  if bool_decide (head path = Some c_slash) then root_node w
  else if negb (base =? 0) then base
  else match current_process w with
       | Some p => if p_cwd p =? 0 then root_node w else p_cwd p
       | None => root_node w
       end.
Definition resolve_path w (base : Z) (stop : bool) (d : nat) (path : option (list Z))
    : vfs_status + vfs_lookup_result :=
  match path with
  | None | Some [] => inl VFS_STATUS_NOENT
  | Some p => if root_mount w =? 0 then inl VFS_STATUS_NOENT
              else resolve w d stop (cross w (start w base p)) (comps p)
  end.

(** ** The steps of the walk *)
Lemma wp_cross_mount w0 H B w v Q :
  vfs_ok w0 → held w0 (v :: H) B w → is_node w0 v → Z.of_nat (length H) + 3 < 2 ^ 30 →
  (∀ w', is_node w0 (cross w0 v) → held w0 (cross w0 v :: H) B w' → Q (cross w0 v) w') →
  wp (cross_mount node_ops v) Q w.
Proof.
  intros Hok Hh [Hv [n Hn]] Hlen HQ. unfold cross in HQ. rewrite Hn in HQ. unfold cross_mount.
  rewrite (proj2 (Z.eqb_neq v 0)) by done. apply wp_bind. eapply wp_node; [done|done|].
  cbn [with_refcount n_mount]. destruct (Z.eqb_spec (n_mount n) 0) as [E0|Hm].
  { apply wp_ret. destruct (mounts w0 !! n_mount n); apply HQ; try done; split; try done; by eexists. }
  destruct (vo_mount _ Hok v n Hn Hm) as [t Ht]. rewrite Ht in HQ.
  destruct (vo_mroot _ Hok _ _ Ht) as [Hr0 Hr]. apply wp_bind. eapply wp_mount; [done|done|].
  rewrite (proj2 (Z.eqb_neq (m_root t) 0)) by done. cbn [orb].
  destruct (Z.eqb_spec v (m_root t)) as [E|Hne]; [apply wp_ret; rewrite E in Hh |- *; by apply HQ|].
  apply wp_bind. eapply wp_borrow; [done|done|by split|cbn [length]; lia|]. intros w1 Hh1.
  apply wp_bind. eapply wp_release; [done|exact Hh1|split; [done|by eexists]|apply Permutation_swap|cbn [length]; lia|].
  intros w2 Hh2. apply wp_ret. by apply HQ.
Qed.

(** The post-condition of a step that replaces the current vnode. *)
Definition replaced w0 (H : list Z) (B : gmap Z Z) (v : Z) (ref : vfs_status + Z)
    (r : vfs_status * Z) w : Prop :=
  match ref with
  | inr u => r = (VFS_STATUS_OK, u) ∧ is_node w0 u ∧ held w0 (u :: H) B w
  | inl e => r = (e, v) ∧ e ≠ VFS_STATUS_OK ∧ held w0 (v :: H) B w
  end.

Lemma wp_parent_of w0 H B w x v :
  vfs_ok w0 → held w0 (v :: H) B w → is_node w0 v → is_node w0 x → Z.of_nat (length H) + 3 < 2 ^ 30 →
  wp (parent_of node_ops x v) (replaced w0 H B v (up_in w0 x)) w.
Proof.
  intros Hok Hh Hv [Hx [n Hn]] Hlen. unfold parent_of, up_in. rewrite Hn. apply wp_bind.
  eapply wp_missing; [done|done|done|]. destruct (has_op n op_parent) eqn:Hop; cbn [negb]; [|by apply wp_ret].
  apply wp_bind. eapply wp_vop; [done|done|done|]. intros f Hops Hf.
  pose proof (fs_parent_law node_ops w x _ f (held_fs_ok _ _ _ _ Hok Hh) (held_node _ _ _ _ _ _ Hh Hn) Hops Hf) as Hg.
  rewrite (hd_view _ _ _ _ Hh) in Hg.
  apply wp_bind. eapply wp_gives; [done|exact Hh|cbn [length]; lia|exact Hg|].
  intros s p w1 Hcase. destruct (fs_up (fs_view (ext w0)) x) as [e|u].
  - destruct Hcase as (-> & He & -> & Hh1). rewrite bool_decide_eq_false_2 by done. by apply wp_ret.
  - destruct Hcase as (-> & -> & Hu & Hh1). rewrite bool_decide_eq_true_2 by done. cbn [negb].
    rewrite (proj2 (Z.eqb_neq u 0)) by apply Hu. apply wp_bind.
    eapply wp_release; [done|exact Hh1|done|apply Permutation_swap|cbn [length]; lia|].
    intros w2 Hh2. by apply wp_ret.
Qed.

Lemma wp_component_parent w0 H B w v :
  vfs_ok w0 → root_mount w0 ≠ 0 → held w0 (v :: H) B w → is_node w0 v → Z.of_nat (length H) + 3 < 2 ^ 30 →
  wp (component_parent node_ops v) (replaced w0 H B v (dotdot w0 v)) w.
Proof.
  intros Hok Hrm Hh Hv Hlen. pose proof Hv as [Hv0 [n Hn]]. unfold component_parent, dotdot, root_node, mounted_at.
  rewrite (proj2 (Z.eqb_neq v 0)) by done. apply wp_bind, wp_gets. rewrite (hd_root _ _ _ _ Hh).
  destruct (vo_rootm _ Hok Hrm) as [rt Hrt]. rewrite Hrt, Hn. cbn [fmap option_fmap option_map default from_option id].
  apply wp_bind. eapply wp_mount; [done|done|]. destruct (v =? m_root rt); [by apply wp_ret|].
  apply wp_bind. eapply wp_node; [done|done|]. cbn [with_refcount n_mount]. apply wp_bind.
  destruct (Z.eqb_spec (n_mount n) 0) as [E0|Hm0]; cbn [negb andb orb].
  { apply wp_ret. by apply wp_parent_of. }
  destruct (n_mount n =? root_mount w0); cbn [negb].
  { apply wp_ret. by apply wp_parent_of. }
  destruct (vo_mount _ Hok v n Hn Hm0) as [t Ht]. rewrite Ht. apply wp_bind.
  eapply wp_mount; [done|done|]. apply wp_ret. destruct (v =? m_root t); [|by apply wp_parent_of].
  apply wp_bind. eapply wp_mount; [done|done|]. destruct (Z.eqb_spec (m_point t) 0) as [|Hp0]; cbn [orb]; [by apply wp_ret|].
  set (pm := if m_parent t =? 0 then root_mount w0 else m_parent t).
  assert (pm ≠ 0 ∧ ∃ u, mounts w0 !! pm = Some u) as (Hpm & u & Hu).
  { unfold pm. destruct (Z.eqb_spec (m_parent t) 0) as [|Hp]; [split; [done|by eexists]|].
    destruct (vo_mparent _ Hok _ _ Ht Hp) as [u Hu]. split; [done|by eexists]. }
  rewrite (proj2 (Z.eqb_neq pm 0)), Hu by done. apply wp_bind. eapply wp_mount; [done|done|].
  destruct (m_point t =? m_root u).
  - apply wp_bind. pose proof (vo_mroot _ Hok _ _ Hu) as Hur.
    eapply wp_borrow; [done|done|done|cbn [length]; lia|]. intros w1 Hh1. apply wp_bind.
    eapply wp_release; [done|exact Hh1|done|apply Permutation_swap|cbn [length]; lia|].
    intros w2 Hh2. by apply wp_ret.
  - apply wp_parent_of; try done. by eapply (vo_mpoint _ Hok).
Qed.

(** Memory. *)
Lemma wp_vfs_calloc w0 H B w n Q :
  held w0 H B w → 0 < n < 2 ^ 61 →
  (∀ w', held w0 H B w' → Q 0 w') →
  (∀ p k w', p ≠ 0 → B !! p = None → held w0 H (<[p := k]> B) w' → Q p w') →
  wp (calloc n) Q w.
Proof.
  intros Hh Hn H0 H1. pose proof Hh as [E ? ? ? ? ? Hview Hal Hlive].
  destruct (al_alloc_law (ext w) n Hal Hn) as (p & x' & Hr & Hok' & Hcase).
  pose proof (@fs_view_alloc _ _ _ _ _ laws_X _ _ _ _ Hr) as Hv.
  unfold wp, calloc. rewrite Hr. destruct Hcase as [[-> Hl]|(k & Hp & _ & _ & Hnone & _ & Hl)].
  - apply H0. split; cbn [set_ext nodes mounts files stats root_mount current_process ext]; try done; congruence.
  - apply (H1 p k); [lia|by rewrite <- Hlive|].
    split; cbn [set_ext nodes mounts files stats root_mount current_process ext]; try done; congruence.
Qed.

Lemma wp_vfs_free w0 H B w p k Q :
  held w0 H B w → B !! p = Some k → (∀ w', held w0 H (delete p B) w' → Q tt w') → wp (free p) Q w.
Proof.
  intros Hh Hp HQ. pose proof Hh as [E ? ? ? ? ? Hview Hal Hlive].
  destruct (al_free_law (ext w) p k Hal ltac:(by rewrite Hlive)) as (x' & Hr & Hok' & Hl).
  pose proof (@fs_view_free _ _ _ _ _ laws_X _ _ _ Hr) as Hv.
  unfold wp, free. rewrite Hr. apply HQ.
  split; cbn [set_ext nodes mounts files stats root_mount current_process ext]; try done; congruence.
Qed.

Lemma wp_free_null w0 H B w Q : held w0 H B w → (∀ w', held w0 H B w' → Q tt w') → wp (free 0) Q w.
Proof.
  intros Hh HQ. unfold wp, free. rewrite al_free_null. apply HQ. pose proof Hh as [? ? ? ? ? ? ? ? ?].
  by split.
Qed.

(** *** Symbolic links *)
Lemma c_string_length l : (length (c_string l) ≤ length l)%nat.
Proof. induction l as [|c l IH]; cbn; [lia|]. destruct (c =? 0); cbn; lia. Qed.

Lemma link_text_length w v txt : link_text w v = inr txt → Z.of_nat (length txt) < 1024.
Proof.
  unfold link_text, VFS_SYMLINK_TARGET_MAX. destruct (nodes w !! v) as [n|]; [|done].
  destruct (has_op n op_readlink); [|done]. destruct (fs_target _ _ _) as [|b]; [done|].
  destruct (Z.leb_spec 1024 (Z.of_nat (length b))); [by rewrite orb_true_r|].
  destruct (_ =? 0); cbn [orb]; [done|]. intros [= <-]. pose proof (c_string_length b). lia.
Qed.

Lemma wp_clone_symlink w0 H B w v :
  vfs_ok w0 → held w0 H B w → is_node w0 v → is_symlink w0 v = true →
  wp (clone_symlink_target node_ops v) (λ '(s, (p, txt)) w',
    (s = VFS_STATUS_NOMEM ∧ p = 0 ∧ held w0 H B w') ∨
    match link_text w0 v with
    | inr t => s = VFS_STATUS_OK ∧ txt = t ∧ p ≠ 0 ∧ B !! p = None ∧ ∃ k, held w0 H (<[p := k]> B) w'
    | inl e => s = e ∧ e ≠ VFS_STATUS_OK ∧ p = 0 ∧ held w0 H B w'
    end) w.
Proof.
  intros Hok Hh [Hv [n Hn]] Hsym. unfold is_symlink in Hsym. rewrite Hn in Hsym. apply bool_decide_eq_true in Hsym.
  unfold clone_symlink_target, link_text. rewrite (proj2 (Z.eqb_neq v 0)), Hn by done.
  apply wp_bind. eapply wp_node; [done|done|]. cbn [with_refcount n_type].
  rewrite bool_decide_eq_true_2 by done. cbn [negb]. apply wp_bind. eapply wp_missing; [done|done|done|].
  destruct (has_op n op_readlink) eqn:Hop; cbn [negb]; [|apply wp_ret; by right].
  apply wp_bind. eapply wp_vfs_calloc; [done|unfold VFS_SYMLINK_TARGET_MAX; lia| |].
  { intros w1 Hh1. rewrite Z.eqb_refl. apply wp_ret. by left. }
  intros p k w1 Hp HpB Hh1. rewrite (proj2 (Z.eqb_neq p 0)) by done.
  apply wp_bind. eapply wp_vop; [exact Hh1|done|done|]. intros f Hops Hf.
  pose proof (fs_readlink_law node_ops w1 v _ f VFS_SYMLINK_TARGET_MAX (held_fs_ok _ _ _ _ Hok Hh1)
    (held_node _ _ _ _ _ _ Hh1 Hn) Hsym Hops Hf) as Ht.
  rewrite (hd_view _ _ _ _ Hh1) in Ht.
  assert (delete p (<[p := k]> B) = B) as Hdel by (by apply delete_insert_id).
  destruct (fs_target _ _ _) as [e|b]; cbn [tells] in Ht.
  - destruct Ht as [He Ht]. apply wp_bind. unfold wp at 1. rewrite Ht.
    rewrite bool_decide_eq_false_2 by done. cbn [negb]. apply wp_bind.
    eapply wp_vfs_free; [exact Hh1|apply lookup_insert_eq|]. intros w2 Hh2. rewrite Hdel in Hh2.
    apply wp_ret. right. done.
  - apply wp_bind. unfold wp at 1. rewrite Ht. rewrite bool_decide_eq_true_2 by done. cbn [negb].
    destruct (_ || _).
    + apply wp_bind. eapply wp_vfs_free; [exact Hh1|apply lookup_insert_eq|]. intros w2 Hh2. rewrite Hdel in Hh2.
      apply wp_ret. right. done.
    + apply wp_ret. right. split_and!; try done. by exists k.
Qed.

(** What a walk leaves behind: every reference given back but that of the
    result, every block freed.  Memory is needed, and can be missing, only when
    a link is met: when [ref0], the resolution that follows none, says so. *)
Definition walked w0 (H : list Z) (B : gmap Z Z) (ref0 ref : vfs_status + vfs_lookup_result)
    (r : vfs_status * vfs_lookup_result) w : Prop :=
  (ref0 = inl VFS_STATUS_LOOP ∧ r = (VFS_STATUS_NOMEM, no_result) ∧ held w0 H B w) ∨
  match ref with
  | inr out => r = (VFS_STATUS_OK, out) ∧ is_node w0 (r_vnode out) ∧ held w0 (r_vnode out :: H) B w
  | inl e => r = (e, no_result) ∧ e ≠ VFS_STATUS_OK ∧ held w0 H B w
  end.

Definition followed w0 (H : list Z) (B : gmap Z Z) (ref : vfs_status + vfs_lookup_result)
    (r : vfs_status * Z) w : Prop :=
  (r = (VFS_STATUS_NOMEM, 0) ∧ held w0 H B w) ∨
  match ref with
  | inr out => r = (VFS_STATUS_OK, r_vnode out) ∧ final_name out = None ∧ is_node w0 (r_vnode out) ∧
               held w0 (r_vnode out :: H) B w
  | inl e => r = (e, 0) ∧ e ≠ VFS_STATUS_OK ∧ held w0 H B w
  end.

Definition follow_ref w0 (d : nat) : Z → Z → list (list Z) → vfs_status + vfs_lookup_result :=
  match d with
  | O => λ _ _ _, inl VFS_STATUS_LOOP
  | S d' => λ base link cs',
      match link_text w0 link with
      | inl s => inl s
      | inr t =>
          if bool_decide (t = [] ∧ cs' = []) then inl VFS_STATUS_NOENT
          else resolve w0 d' false
                 (cross w0 (if bool_decide (t = [] ∨ head t = Some c_slash) then root_node w0 else base))
                 (comps t ++ cs')
      end
  end.

Lemma resolve_unfold w0 d stop : resolve w0 d stop = resolve_comps w0 stop (follow_ref w0 d).
Proof. by destruct d. Qed.

Lemma resolve_no_name w0 d base cs out : resolve w0 d false base cs = inr out → final_name out = None.
Proof.
  revert base cs. induction d as [|d IHd]; intros base cs; rewrite resolve_unfold; revert base;
    (induction cs as [|c cs IH]; intros base; cbn [resolve_comps]; [by intros [= <-]|]);
    (destruct (is_dir w0 base); cbn [negb andb]; [|done]);
    (destruct (component_is_dot c); [apply IH|]);
    (destruct (component_is_dotdot c); [destruct (dotdot w0 base); [done|apply IH]|]);
    (destruct (fs_child _ base c) as [|x]; [done|]); cbv zeta;
    (destruct (is_symlink w0 (cross w0 x)); [|apply IH]); cbn [follow_ref]; [done|].
  destruct (link_text _ _); [done|]. case_bool_decide; [done|]. apply IHd.
Qed.

(** What is assumed of the recursive call: a walk of bounded length with [d]
    links left. *)
Definition walk_spec w0 (d : nat) (walk : vfs_lookup_request → prog W (vfs_status * vfs_lookup_result)) : Prop :=
  ∀ H B w base path stop depth,
    held w0 H B w → (base = 0 ∨ is_node w0 base) → Z.of_nat d = 40 - depth → 0 ≤ depth ≤ 40 →
    Z.of_nat (length H) + 3 * Z.of_nat d + 12 < 2 ^ 30 →
    Z.of_nat (length path) + 1025 * Z.of_nat d < 2 ^ 60 →
    wp (walk (MkRequest base (Some path) stop depth))
       (walked w0 H B (resolve_path w0 base stop 0 (Some path)) (resolve_path w0 base stop d (Some path))) w.

Lemma joined_resolves w0 d base txt rest :
  is_node w0 base → root_mount w0 ≠ 0 → head rest ≠ Some c_slash →
  let joined := if negb (bool_decide (rest = [])) then txt ++ c_slash :: rest else txt in
  resolve_path w0 (if bool_decide (head joined = Some c_slash) then 0 else base) false d (Some joined) =
  if bool_decide (txt = [] ∧ comps rest = []) then inl VFS_STATUS_NOENT
  else resolve w0 d false
         (cross w0 (if bool_decide (txt = [] ∨ head txt = Some c_slash) then root_node w0 else base))
         (comps txt ++ comps rest).
Proof.
  intros [Hb0 _] Hrm Hrest. cbv zeta.
  assert (rest = [] ↔ comps rest = []) as Hnil by (split; [by intros ->|by apply comps_nil]).
  destruct (decide (rest = [])) as [->|Hne].
  - rewrite (bool_decide_eq_true_2 (@nil Z = [])) by done. cbn [negb]. change (comps []) with (@nil (list Z)). rewrite app_nil_r.
    destruct txt as [|c txt].
    + rewrite (bool_decide_eq_true_2 (@nil Z = [] ∧ _)) by done. done.
    + rewrite (bool_decide_eq_false_2 (c :: txt = [] ∧ _)) by (by intros [? _]).
      cbn [resolve_path]. rewrite (proj2 (Z.eqb_neq (root_mount w0) 0)) by done. f_equal. f_equal.
      unfold start. cbn [head]. rewrite (bool_decide_ext (c :: txt = [] ∨ _) (Some c = Some c_slash)) by naive_solver.
      case_bool_decide; [done|]. by rewrite (proj2 (Z.eqb_neq base 0)).
  - rewrite (bool_decide_eq_false_2 (rest = [])) by done. cbn [negb].
    rewrite (bool_decide_eq_false_2 (txt = [] ∧ _)) by tauto.
    assert (∃ c p, txt ++ c_slash :: rest = c :: p) as (c & p & Ej)
      by (destruct txt; by eexists _, _).
    assert (resolve_path w0 (if bool_decide (head (txt ++ c_slash :: rest) = Some c_slash) then 0 else base)
      false d (Some (txt ++ c_slash :: rest)) = resolve w0 d false
      (cross w0 (start w0 (if bool_decide (head (txt ++ c_slash :: rest) = Some c_slash) then 0 else base)
         (txt ++ c_slash :: rest))) (comps (txt ++ c_slash :: rest))) as ->.
    { rewrite Ej. cbn [resolve_path]. by rewrite (proj2 (Z.eqb_neq (root_mount w0) 0)). }
    rewrite comps_app. f_equal. f_equal. unfold start.
    rewrite (bool_decide_ext (txt = [] ∨ head txt = Some c_slash) (head (txt ++ c_slash :: rest) = Some c_slash))
      by (destruct txt; naive_solver).
    case_bool_decide; [done|]. by rewrite (proj2 (Z.eqb_neq base 0)).
Qed.

(** Freeing the two buffers of a followed link. *)
Lemma wp_free_two w0 H B w p k q k' (K : prog W (vfs_status * Z)) Q :
  held w0 H (<[q := k']> (<[p := k]> B)) w → B !! p = None → <[p := k]> B !! q = None →
  (∀ w', held w0 H B w' → wp K Q w') → wp (_ ← free q; _ ← free p; K) Q w.
Proof.
  intros Hh HpB HqB HQ. apply wp_bind. eapply wp_vfs_free; [exact Hh|apply lookup_insert_eq|].
  intros w1 Hh1. rewrite delete_insert_id in Hh1 by done. apply wp_bind.
  eapply wp_vfs_free; [exact Hh1|apply lookup_insert_eq|]. intros w2 Hh2.
  rewrite delete_insert_id in Hh2 by done. by apply HQ.
Qed.
Lemma wp_free_none w0 H B w (K : prog W (vfs_status * Z)) Q :
  held w0 H B w → (∀ w', held w0 H B w' → wp K Q w') → wp (_ ← free 0; _ ← free 0; K) Q w.
Proof.
  intros Hh HQ. apply wp_bind. eapply wp_free_null; [done|]. intros w1 Hh1. apply wp_bind.
  eapply wp_free_null; [done|]. intros w2 Hh2. by apply HQ.
Qed.

(** Following the text of a link, held in the block [p]. *)
Lemma wp_follow_text w0 d depth walk H B w base rest p k txt :
  root_mount w0 ≠ 0 → walk_spec w0 d walk → held w0 H (<[p := k]> B) w → B !! p = None →
  is_node w0 base → head rest ≠ Some c_slash → Z.of_nat d = 40 - (depth + 1) → 0 ≤ depth < 40 →
  Z.of_nat (length H) + 3 * Z.of_nat d + 12 < 2 ^ 30 → Z.of_nat (length txt) < 1024 →
  Z.of_nat (length rest) + 1025 * (Z.of_nat d + 1) < 2 ^ 60 →
  wp ('(linked_path, linked) ← join_symlink_path txt rest;
      if linked_path =? 0 then
        _ ← free linked_path; _ ← free p; mret (VFS_STATUS_NOMEM, 0)
      else
        '(status, result) ← walk (MkRequest (if bool_decide (head linked = Some c_slash) then 0 else base)
                                    (Some linked) false (u32 (depth + 1)));
        _ ← free linked_path;
        _ ← free p;
        mret (status, if bool_decide (status = VFS_STATUS_OK) then r_vnode result else 0))
     (followed w0 H B
        (if bool_decide (txt = [] ∧ comps rest = []) then inl VFS_STATUS_NOENT
         else resolve w0 d false
                (cross w0 (if bool_decide (txt = [] ∨ head txt = Some c_slash) then root_node w0 else base))
                (comps txt ++ comps rest))) w.
Proof.
  intros Hrm Hwalk Hh1 HpB Hbase Hrest Hd Hdep HlenH Et Hlen. unfold join_symlink_path.
  pose proof (joined_resolves w0 d base txt rest Hbase Hrm Hrest) as Hj. cbv zeta in Hj.
  assert (Z.of_nat (length (if negb (bool_decide (rest = [])) then txt ++ c_slash :: rest else txt)) <
          1025 + Z.of_nat (length rest)) as Hjlen.
  { destruct (negb _); [rewrite length_app; cbn [length]|]; lia. }
  set (joined := if negb (bool_decide (rest = [])) then txt ++ c_slash :: rest else txt) in *.
  apply wp_bind, wp_bind. eapply wp_vfs_calloc; [exact Hh1|lia| |].
  { intros w2 Hh2. rewrite Z.eqb_refl. apply wp_ret. rewrite Z.eqb_refl. apply wp_bind.
    eapply wp_free_null; [done|]. intros w3 Hh3. apply wp_bind.
    eapply wp_vfs_free; [exact Hh3|apply lookup_insert_eq|]. intros w4 Hh4.
    rewrite delete_insert_id in Hh4 by done. apply wp_ret. by left. }
  intros q k' w2 Hq HqB Hh2. rewrite (proj2 (Z.eqb_neq q 0)) by done. apply wp_ret.
  rewrite (proj2 (Z.eqb_neq q 0)) by done. apply wp_bind. rewrite u32_small by lia.
  eapply wp_mono; [apply Hwalk; [exact Hh2| |lia|lia|lia|lia]|].
  { case_bool_decide; [by left|by right]. }
  intros [s r] w3 Hw. unfold walked in Hw. rewrite Hj in Hw.
  destruct Hw as [(_ & [= -> ->] & Hh3)|Hw].
  { eapply wp_free_two; [exact Hh3|done..|]. intros w4 Hh4. apply wp_ret. by left. }
  destruct (bool_decide (txt = [] ∧ comps rest = [])).
  { destruct Hw as ([= -> ->] & He & Hh3). eapply wp_free_two; [exact Hh3|done..|].
    intros w4 Hh4. apply wp_ret. by right. }
  destruct (resolve w0 d false _ _) as [e|out] eqn:Er.
  - destruct Hw as ([= -> ->] & He & Hh3). eapply wp_free_two; [exact Hh3|done..|].
    intros w4 Hh4. apply wp_ret. rewrite bool_decide_eq_false_2 by done. by right.
  - destruct Hw as ([= -> ->] & Hnode & Hh3). eapply wp_free_two; [exact Hh3|done..|].
    intros w4 Hh4. apply wp_ret. rewrite bool_decide_eq_true_2 by done. right.
    apply resolve_no_name in Er. done.
Qed.

Lemma wp_resolve_symlink w0 d depth walk H B w base link rest :
  vfs_ok w0 → root_mount w0 ≠ 0 → (∀ d', d = S d' → walk_spec w0 d' walk) →
  held w0 H B w → is_node w0 base → is_node w0 link → is_symlink w0 link = true →
  head rest ≠ Some c_slash → Z.of_nat d = 40 - depth → 0 ≤ depth ≤ 40 →
  Z.of_nat (length H) + 3 * Z.of_nat d + 9 < 2 ^ 30 → Z.of_nat (length rest) + 1025 * Z.of_nat d < 2 ^ 60 →
  wp (resolve_symlink_component node_ops walk base link rest depth)
     (followed w0 H B (follow_ref w0 d base link (comps rest))) w.
Proof.
  intros Hok Hrm Hwalk Hh Hbase Hlink Hsym Hrest Hd Hdep HlenH Hlen.
  unfold resolve_symlink_component. pose proof Hbase as [Hb0 _]. pose proof Hlink as [Hl0 _].
  rewrite (proj2 (Z.eqb_neq base 0)), (proj2 (Z.eqb_neq link 0)) by done. cbn [orb].
  destruct d as [|d'].
  { rewrite (proj2 (Z.leb_le _ _)) by (unfold VFS_SYMLINK_MAX_DEPTH; lia). apply wp_ret. by right. }
  rewrite (proj2 (Z.leb_gt _ _)) by (unfold VFS_SYMLINK_MAX_DEPTH; lia).
  cbn [follow_ref]. apply wp_bind. eapply wp_mono; [by apply wp_clone_symlink|].
  intros [s [p txt]] w1 [(-> & -> & Hh1)|Hcase].
  { rewrite bool_decide_eq_false_2 by done. cbn [negb]. eapply wp_free_none; [done|].
    intros w3 Hh3. apply wp_ret. by left. }
  destruct (link_text w0 link) as [e|txt'] eqn:Et.
  { destruct Hcase as (-> & He & -> & Hh1). rewrite bool_decide_eq_false_2 by done. cbn [negb].
    eapply wp_free_none; [done|]. intros w3 Hh3. apply wp_ret. by right. }
  destruct Hcase as (-> & -> & Hp & HpB & k & Hh1). apply link_text_length in Et.
  rewrite bool_decide_eq_true_2 by done. cbn [negb].
  eapply wp_follow_text; try done; try lia. by apply Hwalk.
Qed.

Lemma wp_release_two w0 H1 H B w y v (K : prog W (vfs_status * vfs_lookup_result)) Q :
  vfs_ok w0 → held w0 H1 B w → H1 ≡ₚ y :: v :: H → is_node w0 y → is_node w0 v →
  Z.of_nat (length H1) < 2 ^ 30 → (∀ w', held w0 H B w' → wp K Q w') →
  wp (_ ← vfs_vnode_release node_ops y; _ ← vfs_vnode_release node_ops v; K) Q w.
Proof.
  intros Hok Hh Hp Hy Hv Hlen HQ. apply Permutation_length in Hp as Hl. cbn [length] in Hl.
  apply wp_bind. eapply wp_release; [done|exact Hh|done|exact Hp|done|]. intros w1 Hh1.
  apply wp_bind. eapply wp_release; [done|exact Hh1|done|done|cbn [length]; lia|]. done.
Qed.

(** Meeting a symbolic link [y] in the directory [v]. *)
Lemma wp_walk_link w0 d depth walk H B w v y rest :
  vfs_ok w0 → root_mount w0 ≠ 0 → (∀ d', d = S d' → walk_spec w0 d' walk) →
  held w0 (y :: v :: H) B w → is_node w0 v → is_node w0 y → is_symlink w0 y = true →
  head rest ≠ Some c_slash → Z.of_nat d = 40 - depth → 0 ≤ depth ≤ 40 →
  Z.of_nat (length H) + 3 * Z.of_nat (S d) + 9 < 2 ^ 30 → Z.of_nat (length rest) + 1025 * Z.of_nat d < 2 ^ 60 →
  wp ('(status, resolved) ← resolve_symlink_component node_ops walk v y rest depth;
      _ ← vfs_vnode_release node_ops y;
      _ ← vfs_vnode_release node_ops v;
      mret (status, if bool_decide (status = VFS_STATUS_OK) then MkResult resolved None else no_result))
     (walked w0 H B (inl VFS_STATUS_LOOP) (follow_ref w0 d v y (comps rest))) w.
Proof.
  intros Hok Hrm Hwalk Hh Hv Hy Hsym Hrest Hd Hdep HlenH Hlen. apply wp_bind.
  eapply wp_mono; [eapply (wp_resolve_symlink w0 d); try done; cbn [length]; lia|].
  intros [s z] w3 Hfol. unfold followed in Hfol.
  destruct Hfol as [[[= -> ->] Hh3]|Hfol]; [|destruct (follow_ref w0 d v y (comps rest)) as [e|out]].
  - eapply wp_release_two; [done|exact Hh3|done|done|done|cbn [length]; lia|].
    intros w4 Hh4. apply wp_ret. by left.
  - destruct Hfol as ([= -> ->] & He & Hh3).
    eapply wp_release_two; [done|exact Hh3|done|done|done|cbn [length]; lia|].
    intros w4 Hh4. apply wp_ret. rewrite bool_decide_eq_false_2 by done. by right.
  - destruct Hfol as ([= -> ->] & Hname & Hz & Hh3).
    eapply (wp_release_two w0 _ (r_vnode out :: H)); [done|exact Hh3| |done|done|cbn [length]; lia|].
    { etransitivity; [apply perm_swap|apply perm_skip, perm_swap]. }
    intros w4 Hh4. apply wp_ret. rewrite bool_decide_eq_true_2 by done. right.
    destruct out as [u nm]. cbn in *. by subst nm.
Qed.

(** A walk that goes up. *)
Lemma wp_walk_up w0 H B w v (K : Z → prog W (vfs_status * vfs_lookup_result)) ref0 ref :
  vfs_ok w0 → root_mount w0 ≠ 0 → held w0 (v :: H) B w → is_node w0 v → Z.of_nat (length H) + 3 < 2 ^ 30 →
  (∀ u w', dotdot w0 v = inr u → is_node w0 u → held w0 (u :: H) B w' → wp (K u) (walked w0 H B (ref0 u) (ref u)) w') →
  wp ('(status, current) ← component_parent node_ops v;
      if negb (bool_decide (status = VFS_STATUS_OK)) then
        _ ← vfs_vnode_release node_ops current; mret (status, no_result)
      else K current)
     (walked w0 H B (match dotdot w0 v with inl s => inl s | inr u => ref0 u end)
        (match dotdot w0 v with inl s => inl s | inr u => ref u end)) w.
Proof.
  intros Hok Hrm Hh Hv Hlen HK. apply wp_bind. eapply wp_mono; [by apply wp_component_parent|].
  intros [s u] w1 Hrep. unfold replaced in Hrep. destruct (dotdot w0 v) as [e|u'].
  - destruct Hrep as ([= -> ->] & He & Hh1). rewrite bool_decide_eq_false_2 by done. cbn [negb].
    apply wp_bind. eapply wp_release; [done|exact Hh1|done|done|cbn [length]; lia|].
    intros w2 Hh2. apply wp_ret. by right.
  - destruct Hrep as ([= -> ->] & Hu & Hh1). rewrite bool_decide_eq_true_2 by done. cbn [negb]. by apply HK.
Qed.

Lemma skip_slashes_length p : (length (skip_slashes p) ≤ length p)%nat.
Proof. induction p as [|x p IH]; cbn; [lia|]. destruct (x =? c_slash); cbn; lia. Qed.

(** *** The loop *)
Lemma wp_walk_loop w0 d depth walk H B stop n base path :
  vfs_ok w0 → root_mount w0 ≠ 0 → (∀ d', d = S d' → walk_spec w0 d' walk) →
  Z.of_nat d = 40 - depth → 0 ≤ depth ≤ 40 → Z.of_nat (length H) + 3 * Z.of_nat (S d) + 9 < 2 ^ 30 →
  ∀ w v cursor,
    held w0 (v :: H) B w → is_node w0 v → head cursor ≠ Some c_slash →
    (length cursor < n)%nat → Z.of_nat (length cursor) + 1025 * Z.of_nat d < 2 ^ 60 →
    wp (walk_loop node_ops walk (MkRequest base path stop depth) n v cursor)
       (walked w0 H B (resolve w0 0 stop v (comps cursor)) (resolve w0 d stop v (comps cursor))) w.
Proof.
  intros Hok Hrm Hwalk Hd Hdep HlenH. rewrite !resolve_unfold.
  induction n as [|n IH]; intros w v cursor Hh Hv Hhead Hn Hlen; [lia|]. cbn [walk_loop].
  destruct (decide (cursor = [])) as [->|Hne].
  { rewrite bool_decide_eq_true_2 by done. apply wp_ret. right. done. }
  rewrite (bool_decide_eq_false_2 (cursor = [])) by done.
  destruct (component_at cursor) as [c rest] eqn:Ec.
  pose proof (component_nonempty _ _ _ Hhead Hne Ec) as Hc.
  destruct (component_at_spec _ _ _ Ec) as (Ecur & Hns & Hr).
  rewrite Ecur, comps_component, <- (comps_skip rest) by done. cbn [resolve_comps].
  assert (length (skip_slashes rest) < length cursor)%nat as Hshort.
  { rewrite Ecur, length_app. destruct c; [done|]. pose proof (skip_slashes_length rest). cbn [length]. lia. }
  pose proof (skip_slashes_head rest) as Hhead'. set (cur' := skip_slashes rest) in *.
  pose proof Hv as [Hv0 [nv Hnv]].
  assert (is_dir w0 v = bool_decide (n_type nv = VFS_NODE_DIR) && has_op nv op_lookup) as ->
    by (unfold is_dir; by rewrite Hnv).
  apply wp_bind. eapply wp_node; [done|done|]. cbn [with_refcount n_type].
  apply wp_bind. eapply wp_missing; [done|done|done|].
  rewrite <- negb_andb. destruct (bool_decide (n_type nv = VFS_NODE_DIR) && has_op nv op_lookup) eqn:Hdir; cbn [negb].
  2:{ apply wp_bind. eapply wp_release; [done|exact Hh|done|done|cbn [length]; lia|].
      intros w1 Hh1. apply wp_ret. by right. }
  apply andb_true_iff in Hdir as [Hty%bool_decide_eq_true Hop].
  assert (bool_decide (cur' = []) = bool_decide (comps cur' = [])) as Hend.
  { apply bool_decide_ext. split; [by intros ->|by apply comps_nil]. }
  cbn [stop_at_parent]. rewrite Hend. destruct (stop && _); [apply wp_ret; by right|].
  destruct (component_is_dot c); [apply IH; try done; lia|].
  destruct (component_is_dotdot c).
  { apply (wp_walk_up w0 H B w v _ (λ u, resolve_comps w0 stop (follow_ref w0 0) u (comps cur'))
      (λ u, resolve_comps w0 stop (follow_ref w0 d) u (comps cur'))); try done; [lia|].
    intros u w1 _ Hu Hh1. apply IH; try done; lia. }
  apply wp_bind. eapply wp_vop; [done|done|done|]. intros f Hops Hf.
  pose proof (fs_lookup_law node_ops w v _ f c (held_fs_ok _ _ _ _ Hok Hh)
    (held_node _ _ _ _ _ _ Hh Hnv) Hty Hops Hf) as Hg.
  rewrite (hd_view _ _ _ _ Hh) in Hg.
  apply wp_bind. eapply wp_gives; [done|exact Hh|cbn [length]; lia|exact Hg|].
  intros s x w1 Hcase. destruct (fs_child (fs_view (ext w0)) v c) as [e|x'].
  { destruct Hcase as (-> & He & -> & Hh1). rewrite bool_decide_eq_false_2 by done. cbn [negb].
    apply wp_bind. eapply wp_release; [done|exact Hh1|done|done|cbn [length]; lia|].
    intros w2 Hh2. apply wp_ret. by right. }
  destruct Hcase as (-> & -> & Hx & Hh1). rewrite bool_decide_eq_true_2 by done. cbn [negb]. cbv zeta.
  apply wp_bind. eapply wp_cross_mount; [done|exact Hh1|done|cbn [length]; lia|]. intros w2 Hy Hh2.
  set (y := cross w0 x') in *. pose proof Hy as [Hy0 [ny Hny]].
  apply wp_bind. eapply wp_node; [exact Hh2|exact Hny|]. cbn [with_refcount n_type].
  assert (is_symlink w0 y = bool_decide (n_type ny = VFS_NODE_SYMLINK)) as Hsy
    by (unfold is_symlink; by rewrite Hny).
  destruct (bool_decide (n_type ny = VFS_NODE_SYMLINK)); rewrite Hsy.
  - apply wp_walk_link; try done; lia.
  - apply wp_bind. eapply wp_release; [done|exact Hh2|exact Hv|apply Permutation_swap|cbn [length]; lia|].
    intros w3 Hh3. apply IH; try done; lia.
Qed.

(** *** The walk *)
Lemma wp_walk_fuel w0 n d : vfs_ok w0 → (d < n)%nat → walk_spec w0 d (walk_path_fuel node_ops n).
Proof.
  intros Hok. revert d. induction n as [|n IH]; intros d Hdn; [lia|].
  intros H B w base path stop depth Hh Hbase Hd Hdep HlenH Hlen. cbn [walk_path_fuel].
  apply wp_bind, wp_gets. cbn [rq_path rq_base]. rewrite (hd_root _ _ _ _ Hh).
  destruct (Z.eqb_spec (root_mount w0) 0) as [E0|Hrm].
  { apply wp_ret. right. cbn [resolve_path]. destruct path; [done|]. by rewrite E0. }
  destruct (vo_rootm _ Hok Hrm) as [rt Hrt]. pose proof (vo_mroot _ Hok _ _ Hrt) as Hroot.
  assert (root_node w0 = m_root rt) as Hrn by (unfold root_node; by rewrite Hrt).
  apply wp_bind. eapply wp_mount; [done|done|]. rewrite (proj2 (Z.eqb_neq (m_root rt) 0)) by apply Hroot.
  cbn [orb]. destruct path as [|c path]; [rewrite bool_decide_eq_true_2 by done; apply wp_ret; by right|].
  rewrite bool_decide_eq_false_2 by done. cbn [resolve_path].
  rewrite (proj2 (Z.eqb_neq (root_mount w0) 0)) by done.
  set (p := c :: path) in *. apply wp_bind.
  assert (wp (if bool_decide (head p = Some c_slash) then mret base
              else cwd ← proc_get_cwd; mret (if base =? 0 then if cwd =? 0 then m_root rt else cwd else base))
    (λ b w', w' = w ∧ (if bool_decide (head p = Some c_slash) then m_root rt else b) = start w0 base p ∧
             is_node w0 (start w0 base p)) w) as Hstart.
  { unfold start, proc_get_cwd. rewrite Hrn. case_bool_decide; [by apply wp_ret|].
    apply wp_bind, wp_bind, wp_gets, wp_ret, wp_ret. rewrite (hd_proc _ _ _ _ Hh). split; [done|].
    destruct (Z.eqb_spec base 0) as [|Hb]; cbn [negb]; [|by split; [done|destruct Hbase]].
    destruct (current_process w0) as [pr|] eqn:Ep; [|done].
    destruct (Z.eqb_spec (p_cwd pr) 0); [done|]. split; [done|]. by eapply (vo_cwd _ Hok). }
  eapply wp_mono; [exact Hstart|]. intros b w' (-> & Hb & Hs). rewrite Hb.
  rewrite (proj2 (Z.eqb_neq (start w0 base p) 0)) by apply Hs.
  apply wp_bind. eapply wp_borrow; [done|done|done|lia|]. intros w1 Hh1.
  apply wp_bind. eapply wp_cross_mount; [done|exact Hh1|done|lia|]. intros w2 Hcr Hh2.
  rewrite <- comps_skip. pose proof (skip_slashes_length p).
  apply wp_walk_loop; try done; [|lia|apply skip_slashes_head|lia|lia].
  intros d' ->. apply IH. lia.
Qed.
End walk.
