(* ===== verification/VfsThm.v ===== *)
(** * VfsThm: what the virtual file system guarantees

    Path lookup and the reconstruction of paths, against the interface of
    [VfsWalk]. *)
From S2P Require Import Prelude Alloc Vfs VfsWalk.

Section lookups.
Context {X V : Type} {alloc_X : Allocator X} {allaws_X : AllocatorLaws (2 ^ 61) X} {fs_X : VfsFs X V}.
Abbreviation W := (vworld X).
Context (node_ops : Z → vfs_node_ops W).
Context {laws_X : VfsLaws node_ops}.
Implicit Types (w : W).

Lemma wp_vfs_walk w base path stop H B w1 :
  vfs_ok w → held w H B w1 → (base = 0 ∨ is_node w base) → Z.of_nat (length H) < 2 ^ 20 →
  Z.of_nat (length path) < 2 ^ 32 →
  wp (walk_path node_ops (MkRequest base (Some path) stop 0))
     (walked w H B (resolve_path node_ops w base stop 0 (Some path))
        (resolve_path node_ops w base stop 40 (Some path))) w1.
Proof.
  intros Hok Hh Hb HlenH Hlen. unfold walk_path.
  apply (wp_walk_fuel node_ops w _ 40); try done; try lia. unfold VFS_SYMLINK_MAX_DEPTH. lia.
Qed.

(** What a lookup returns and leaves. *)
Definition looked_up w (ref0 ref : vfs_status + vfs_lookup_result) (r : vfs_status * Z) w' : Prop :=
  (ref0 = inl VFS_STATUS_LOOP ∧ r = (VFS_STATUS_NOMEM, 0) ∧ held w [] (al_live (ext w)) w') ∨
  match ref with
  | inr out => r = (VFS_STATUS_OK, r_vnode out) ∧ held w [r_vnode out] (al_live (ext w)) w'
  | inl e => r = (e, 0) ∧ held w [] (al_live (ext w)) w'
  end.

Lemma wp_lookup_at w base path :
  vfs_ok w → (base = 0 ∨ is_node w base) → Z.of_nat (length path) < 2 ^ 32 →
  wp (vfs_lookup_at node_ops base (Some path) true)
     (looked_up w (resolve_path node_ops w base false 0 (Some path))
        (resolve_path node_ops w base false 40 (Some path))) w.
Proof.
  intros Hok Hb Hlen. unfold vfs_lookup_at. cbn [negb]. apply wp_bind.
  eapply wp_mono; [apply (wp_vfs_walk w base path false); [done|by apply held_init|done|cbn; lia|done]|].
  intros [s r] w' [(H0 & [= -> ->] & Hh)|Hw]; apply wp_ret; [by left|]. right.
  destruct (resolve_path node_ops w base false 40 (Some path)) as [e|out].
  - destruct Hw as ([= -> ->] & He & Hh). by rewrite bool_decide_eq_false_2.
  - destruct Hw as ([= -> ->] & Hn & Hh). by rewrite bool_decide_eq_true_2.
Qed.

(** C1: [vfs_lookup_at] computes the reference resolution of the path's
    components: [.] stays, [..] goes up through mount points, a name goes to
    the child or to the file system mounted on it, and a symbolic link puts the
    components of its text in front of the rest, at most 40 times.  It always
    returns; it hands out exactly one reference, that of the result, gives back
    all others, and frees what it allocates.  Only a walk that meets a link can
    report a lack of memory. *)
Theorem vfs_lookup_resolves w base path :
  vfs_ok w → (base = 0 ∨ is_node w base) → Z.of_nat (length path) < 2 ^ 32 →
  ∃ r w', vfs_lookup_at node_ops base (Some path) true w = Ret (r, w') ∧
    looked_up w (resolve_path node_ops w base false 0 (Some path))
      (resolve_path node_ops w base false 40 (Some path)) r w'.
Proof.
  intros Hok Hb Hlen. destruct (proj1 (wp_inv _ _ _) (wp_lookup_at w base path Hok Hb Hlen)) as (r & w' & Hr & HQ).
  by exists r, w'.
Qed.

(** *** Parents *)

(** The first component that leads to a symbolic link, before the last one. *)
Fixpoint link_before_last w (base : Z) (cs : list (list Z)) : Prop :=
  match cs with
  | c :: (_ :: _) as cs' =>
      is_dir node_ops w base = true ∧
      if component_is_dot c then link_before_last w base cs'
      else if component_is_dotdot c then
        match dotdot node_ops w base with inr u => link_before_last w u cs' | inl _ => False end
      else match fs_child (fs_view (ext w)) base c with
           | inr x => is_symlink w (cross w x) = true ∨ link_before_last w (cross w x) cs'
           | inl _ => False
           end
  | _ => False
  end.

Lemma link_loses_name w d base cs out :
  link_before_last w base cs → resolve node_ops w d true base cs = inr out → final_name out = None.
Proof.
  rewrite resolve_unfold. revert base. induction cs as [|c cs IH]; intros base Hl; [done|].
  destruct cs as [|c2 cs]; [done|]. destruct Hl as [Hd Hl]. remember (c2 :: cs) as cs' eqn:E.
  cbn [resolve_comps]. rewrite Hd. cbn [negb].
  rewrite bool_decide_eq_false_2 by (by rewrite E). rewrite andb_false_r.
  destruct (component_is_dot c); [by apply IH|].
  destruct (component_is_dotdot c). { destruct (dotdot node_ops w base); [done|]. by apply IH. }
  destruct (fs_child _ base c) as [|x]; [done|]. cbv zeta.
  destruct (is_symlink w (cross w x)); [|destruct Hl as [?|Hl]; [done|by apply IH]]. intros Hout.
  destruct d as [|d]; cbn [follow_ref] in Hout; [done|]. destruct (link_text _ _ _); [done|].
  case_bool_decide; [done|]. by eapply resolve_no_name.
Qed.

(** C40: a path that goes through a symbolic link before its last component has
    no parent entry: [lookup_parent_entry] fails on it, whatever the link leads
    to, so nothing can be created, linked, or inspected without following
    through a linked directory. *)
Theorem parent_through_link_fails w path :
  vfs_ok w → root_mount w ≠ 0 → Z.of_nat (length path) < 2 ^ 32 →
  link_before_last w (cross w (start w 0 path)) (comps path) →
  ∃ s w', lookup_parent_entry node_ops (Some path) w = Ret ((s, (0, None)), w') ∧
    s ≠ VFS_STATUS_OK ∧ held w [] (al_live (ext w)) w'.
Proof.
  intros Hok Hrm Hlen Hl.
  enough (wp (lookup_parent_entry node_ops (Some path))
    (λ r w', r.1 ≠ VFS_STATUS_OK ∧ r.2 = (0, None) ∧ held w [] (al_live (ext w)) w') w) as Hwp.
  { apply wp_inv in Hwp as ([s [v nm]] & w' & Hr & Hs & [= -> ->] & Hh). by exists s, w'. }
  unfold lookup_parent_entry, vfs_lookup_parent, vfs_lookup_parent_at. cbn [negb]. apply wp_bind, wp_bind.
  eapply wp_mono; [apply (wp_vfs_walk w 0 path true); [done|by apply held_init|by left|cbn; lia|done]|].
  intros [s r] w' [(_ & [= -> ->] & Hh)|Hw]; apply wp_ret; [by apply wp_ret|].
  assert (resolve_path node_ops w 0 true 40 (Some path) =
          resolve node_ops w 40 true (cross w (start w 0 path)) (comps path)) as E.
  { destruct path; [done|]. cbn [resolve_path]. by rewrite (proj2 (Z.eqb_neq (root_mount w) 0)). }
  rewrite E in Hw. destruct (resolve node_ops w 40 true _ _) as [e|out] eqn:Er.
  - destruct Hw as ([= -> ->] & He & Hh). rewrite bool_decide_eq_false_2 by done. cbn [negb]. by apply wp_ret.
  - destruct Hw as ([= -> ->] & Hn & Hh). rewrite bool_decide_eq_true_2 by done. cbn [negb].
    rewrite (link_loses_name _ _ _ _ _ Hl Er). cbn [default from_option]. rewrite bool_decide_eq_true_2 by done.
    apply wp_bind. eapply wp_release; [done|exact Hh|done|done|cbn; lia|]. intros w2 Hh2. by apply wp_ret.
Qed.
End lookups.
