(* ===== verification/VfsPath.v ===== *)
(** * VfsPath: the path of a vnode, and the way back

    [vfs_getcwd] climbs from a directory to the root and writes the names it
    meets from the end of the buffer to its front; looking the result up leads
    back to the directory. *)
From S2P Require Import Prelude Alloc Vfs VfsWalk VfsThm.

(** ** Buffers *)
Lemma put_bytes_run buffer pos bytes :
  0 ≤ pos → pos + Z.of_nat (length bytes) ≤ Z.of_nat (length buffer) →
  ∃ b, put_bytes buffer pos bytes = Ret b ∧ length b = length buffer ∧
       drop (Z.to_nat pos) b = bytes ++ drop (Z.to_nat pos + length bytes) buffer.
Proof.
  intros H0 H1. unfold put_bytes. rewrite (proj2 (Z.leb_le 0 pos)), (proj2 (Z.leb_le _ _)) by lia.
  cbn [andb]. eexists. split; [done|]. split.
  - rewrite !length_app, length_take, length_drop. lia.
  - rewrite drop_app_ge by (rewrite length_take; lia). rewrite length_take.
    replace (Z.to_nat pos - _)%nat with 0%nat by lia. done.
Qed.

Definition text (cs : list (list Z)) : list Z := concat ((λ c, c_slash :: c) <$> cs).
Lemma text_app cs1 cs2 : text (cs1 ++ cs2) = text cs1 ++ text cs2.
Proof. unfold text. by rewrite fmap_app, concat_app. Qed.

(** The root is [/], everything else a slash before each component. *)
Definition full_path (cs : list (list Z)) : list Z :=
  match cs with [] => [c_slash] | _ => text cs end.

Definition name_ok (c : list Z) : Prop :=
  c ≠ [] ∧ (c_slash ∉ c) ∧ (0 ∉ c) ∧ component_is_dot c = false ∧ component_is_dotdot c = false.

Lemma comps_text cs : Forall name_ok cs → comps (text cs) = cs.
Proof.
  induction 1 as [|c cs (Hc & Hs & _) _ IH]; [done|]. unfold text. cbn [fmap list_fmap concat app].
  rewrite comps_slash. rewrite comps_component; [f_equal; exact IH|done|done|].
  destruct cs; [by left|by right].
Qed.
Lemma comps_full_path cs : Forall name_ok cs → comps (full_path cs) = cs.
Proof. destruct cs; [done|]. apply comps_text. Qed.

Lemma prepend_run buffer pos nm :
  0 ≤ pos ≤ Z.of_nat (length buffer) →
  let c := trim_slashes nm in
  if pos <? Z.of_nat (length c) + 1
  then getcwd_prepend_component buffer pos (Some nm) = Ret (VFS_STATUS_RANGE, pos, buffer)
  else ∃ b, getcwd_prepend_component buffer pos (Some nm) =
              Ret (VFS_STATUS_OK, pos - Z.of_nat (length c) - 1, b) ∧ length b = length buffer ∧
            drop (Z.to_nat (pos - Z.of_nat (length c) - 1)) b = c_slash :: c ++ drop (Z.to_nat pos) buffer.
Proof.
  intros Hpos. cbv zeta. unfold getcwd_prepend_component. set (c := trim_slashes nm).
  destruct (Z.ltb_spec pos (Z.of_nat (length c) + 1)) as [|Hge]; [done|].
  set (p1 := pos - Z.of_nat (length c)).
  assert (∃ b1, (if 0 <? Z.of_nat (length c) then put_bytes buffer p1 c else Ret buffer) = Ret b1 ∧
    length b1 = length buffer ∧ drop (Z.to_nat p1) b1 = c ++ drop (Z.to_nat pos) buffer) as (b1 & -> & Hl1 & Hd1).
  { destruct (Z.ltb_spec 0 (Z.of_nat (length c))) as [Hc|Hc].
    - destruct (put_bytes_run buffer p1 c) as (b1 & Hb1 & Hl & Hd); [lia|lia|].
      exists b1. split; [done|]. split; [done|]. rewrite Hd. do 2 f_equal. lia.
    - exists buffer. assert (c = []) as Ec by (destruct c; [done|cbn in Hc; lia]). unfold p1. rewrite Ec.
      split; [done|]. split; [done|]. cbn [length app]. f_equal. lia. }
  cbn [mbind outcome_bind].
  destruct (put_bytes_run b1 (p1 - 1) [c_slash]) as (b2 & -> & Hl2 & Hd2); [lia|cbn [length]; lia|].
  exists b2. split; [done|]. split; [congruence|]. rewrite Hd2. cbn [app length]. f_equal.
  rewrite <- Hd1. f_equal. lia.
Qed.

Section paths.
Context {X V : Type} {alloc_X : Allocator X} {allaws_X : AllocatorLaws (2 ^ 61) X} {fs_X : VfsFs X V}.
Abbreviation W := (vworld X).
Context (node_ops : Z → vfs_node_ops W).
Context {laws_X : VfsLaws node_ops}.
Implicit Types (w : W).

(** [x] is the vnode that stands for [v] in the directory above it. *)
Definition seen_as w v x : Prop :=
  match mounted_at w v with
  | Some t => x = m_point t ∧ x ≠ 0 ∧
      ∃ u, mounts w !! (if m_parent t =? 0 then root_mount w else m_parent t) = Some u ∧ x ≠ m_root u
  | None => x = v
  end.

(** [v] is reached from the root by the components [cs], and every file system
    on the way knows the parents and the names. *)
Inductive path_of w : Z → list (list Z) → Prop :=
| path_root : path_of w (root_node w) []
| path_child v x p n nm cs :
    path_of w p cs → is_dir node_ops w p = true → name_ok (trim_slashes nm) →
    fs_child (fs_view (ext w)) p (trim_slashes nm) = inr x → cross w x = v → is_symlink w v = false →
    v ≠ root_node w → is_node w v → seen_as w v x →
    nodes w !! x = Some n → has_op node_ops n op_parent = true → has_op node_ops n op_name = true →
    fs_up (fs_view (ext w)) x = inr p → p ≠ x → fs_name (fs_view (ext w)) x = inr nm →
    path_of w v (cs ++ [trim_slashes nm]).

Lemma path_of_names w v cs : path_of w v cs → Forall name_ok cs.
Proof. induction 1; [done|]. apply Forall_app. split; [done|]. by apply Forall_singleton. Qed.

(** Down: the components resolve to the vnode. *)
Lemma path_resolves w fol v cs rest :
  path_of w v cs →
  resolve_comps node_ops w false fol (root_node w) (cs ++ rest) = resolve_comps node_ops w false fol v rest.
Proof.
  intros Hp. revert rest. induction Hp as [|v x p n nm cs Hp IH Hd (_ & _ & _ & Hdot & Hdd) Hch Hcr Hs Hr];
    intros rest; [done|].
  rewrite <- app_assoc, IH. cbn [app resolve_comps]. rewrite Hd. cbn [negb andb]. rewrite Hdot, Hdd, Hch.
  cbv zeta. by rewrite Hcr, Hs.
Qed.

(** *** Up: one step *)
Lemma wp_visible w0 H B w v x (Q : option (vfs_status * Z) * Z → W → Prop) :
  vfs_ok w0 → root_mount w0 ≠ 0 → held w0 H B w → is_node w0 v → seen_as w0 v x →
  Q (None, x) w → wp (getcwd_visible_child node_ops v) Q w.
Proof.
  intros Hok Hrm Hh [Hv0 [nv Hnv]] Hx HQ. unfold seen_as, mounted_at in Hx. rewrite Hnv in Hx.
  unfold getcwd_visible_child, getcwd_is_mount_root. rewrite (proj2 (Z.eqb_neq v 0)) by done.
  apply wp_bind, wp_bind. eapply wp_node; [done|done|]. cbn [with_refcount n_mount]. apply wp_bind, wp_gets.
  rewrite (hd_root _ _ _ _ Hh). destruct (_ || _) eqn:E; [apply wp_ret, wp_ret; by subst x|].
  apply orb_false_iff in E as [E%Z.eqb_neq _]. destruct (vo_mount _ Hok _ _ Hnv E) as [t Ht]. rewrite Ht in Hx.
  apply wp_bind. eapply wp_mount; [done|done|]. apply wp_ret.
  destruct (v =? m_root t); [|apply wp_ret; by subst x].
  destruct Hx as (Hx & Hx0 & u & Hu & Hxu). subst x.
  apply wp_bind. eapply wp_node; [done|done|]. cbn [with_refcount n_mount].
  apply wp_bind. eapply wp_mount; [done|done|]. apply wp_bind, wp_gets. rewrite (hd_root _ _ _ _ Hh).
  rewrite (proj2 (Z.eqb_neq (m_point t) 0)) by done.
  rewrite (proj2 (Z.eqb_neq (if m_parent t =? 0 then _ else _) 0))
    by (destruct (Z.eqb_spec (m_parent t) 0); done). cbn [orb].
  apply wp_bind. eapply wp_mount; [done|exact Hu|].
  rewrite (proj2 (Z.eqb_neq (m_root u) 0)) by apply (vo_mroot _ Hok _ _ Hu).
  rewrite (proj2 (Z.eqb_neq (m_point t) (m_root u))) by done. by apply wp_ret.
Qed.

Lemma wp_step_up w0 H B w v x p n nm buffer pos :
  vfs_ok w0 → root_mount w0 ≠ 0 → held w0 (v :: H) B w → Z.of_nat (length H) + 6 < 2 ^ 30 →
  is_node w0 v → seen_as w0 v x → nodes w0 !! x = Some n → x ≠ 0 →
  has_op node_ops n op_parent = true → has_op node_ops n op_name = true →
  fs_up (fs_view (ext w0)) x = inr p → p ≠ x → fs_name (fs_view (ext w0)) x = inr nm →
  0 ≤ pos ≤ Z.of_nat (length buffer) →
  wp (getcwd_step_to_parent node_ops v buffer pos)
     (λ '(s, cur, (pos', b)) w',
        let c := trim_slashes nm in
        if pos <? Z.of_nat (length c) + 1
        then s = VFS_STATUS_RANGE ∧ cur = v ∧ held w0 (v :: H) B w'
        else s = VFS_STATUS_OK ∧ cur = p ∧ is_node w0 p ∧ held w0 (p :: H) B w' ∧
             pos' = pos - Z.of_nat (length c) - 1 ∧ length b = length buffer ∧
             drop (Z.to_nat pos') b = c_slash :: c ++ drop (Z.to_nat pos) buffer) w.
Proof.
  intros Hok Hrm Hh Hlen Hv Hx Hn Hx0 Hop1 Hop2 Hup Hpx Hnm Hpos. pose proof Hv as [Hv0 _].
  unfold getcwd_step_to_parent. rewrite (proj2 (Z.eqb_neq v 0)) by done. apply wp_bind.
  eapply wp_visible; [done|done|exact Hh|done|done|].
  apply wp_bind. eapply wp_missing; [exact Hh|done|done|]. rewrite Hop1. cbn [negb].
  apply wp_bind. eapply wp_missing; [exact Hh|done|done|]. rewrite Hop2. cbn [negb orb].
  apply wp_bind. eapply wp_vop; [exact Hh|done|done|]. intros f Hops Hf.
  pose proof (fs_parent_law node_ops w x _ f (held_fs_ok _ _ _ _ _ Hok Hh) (held_node _ _ _ _ _ _ Hh Hn) Hops Hf) as Hg.
  rewrite (hd_view _ _ _ _ Hh), Hup in Hg.
  apply wp_bind. eapply wp_gives; [done|exact Hh|cbn [length]; lia|exact Hg|].
  intros s u w1 (-> & -> & Hp & Hh1). rewrite bool_decide_eq_true_2 by done. cbn [negb].
  rewrite (proj2 (Z.eqb_neq p 0)), (proj2 (Z.eqb_neq p x)) by (done || apply Hp). cbn [orb].
  apply wp_bind. eapply wp_vop; [exact Hh1|done|done|]. intros g _ Hgop.
  pose proof (fs_name_law node_ops w1 x _ g (held_fs_ok _ _ _ _ _ Hok Hh1) (held_node _ _ _ _ _ _ Hh1 Hn) Hops Hgop) as Hname.
  rewrite (hd_view _ _ _ _ Hh1), Hnm in Hname. apply wp_bind. unfold wp at 1. rewrite Hname.
  rewrite bool_decide_eq_true_2 by done. pose proof (prepend_run buffer pos nm Hpos) as Hpre. cbv zeta in Hpre |- *.
  apply wp_bind. destruct (pos <? Z.of_nat (length (trim_slashes nm)) + 1).
  - rewrite Hpre. unfold wp at 1, lift. cbn [mbind outcome_bind].
    rewrite bool_decide_eq_false_2 by done. cbn [negb]. apply wp_bind.
    eapply wp_release; [done|exact Hh1|done|done|cbn [length]; lia|]. intros w2 Hh2. by apply wp_ret.
  - destruct Hpre as (b & -> & Hl & Hd). unfold wp at 1, lift. cbn [mbind outcome_bind].
    rewrite bool_decide_eq_true_2 by done. cbn [negb]. apply wp_bind.
    eapply wp_release; [done|exact Hh1|exact Hv|apply perm_swap|cbn [length]; lia|].
    intros w2 Hh2. apply wp_ret. done.
Qed.

(** *** The climb *)
Definition or_slash (t : list Z) : list Z := match t with [] => [c_slash] | _ => t end.

Definition climbed w0 (H : list Z) (B : gmap Z Z) (t : list Z) (buffer : list Z)
    (r : vfs_status * Z * (Z * list Z)) w : Prop :=
  let '(s, cur, (pos, b)) := r in
  is_node w0 cur ∧ held w0 (cur :: H) B w ∧
  if Z.of_nat (length t) <? Z.of_nat (length buffer)
  then s = VFS_STATUS_OK ∧ length b = length buffer ∧ 0 ≤ pos ∧ drop (Z.to_nat pos) b = t ++ [0]
  else s = VFS_STATUS_RANGE.

Lemma wp_getcwd_root w0 H B w n buffer pos fin :
  vfs_ok w0 → root_mount w0 ≠ 0 → held w0 (root_node w0 :: H) B w →
  drop (Z.to_nat pos) buffer = fin ++ [0] → 0 ≤ pos → pos = Z.of_nat (length buffer) - 1 - Z.of_nat (length fin) →
  wp (getcwd_loop node_ops (S n) (root_node w0) buffer pos) (climbed w0 H B (or_slash fin) buffer) w.
Proof.
  intros Hok Hrm Hh Hdrop Hpos0 Hpos. cbn [getcwd_loop]. apply wp_bind, wp_gets. rewrite (hd_root _ _ _ _ Hh).
  destruct (vo_rootm _ Hok Hrm) as [rt Hrt]. pose proof (vo_mroot _ Hok _ _ Hrt) as Hroot.
  assert (root_node w0 = m_root rt) as Hrn by (unfold root_node; by rewrite Hrt). rewrite Hrn in *.
  apply wp_bind. eapply wp_mount; [done|done|]. rewrite Z.eqb_refl.
  destruct (Z.eqb_spec pos (Z.of_nat (length buffer) - 1)) as [E|E].
  - assert (fin = []) as -> by (destruct fin; [done|cbn [length] in Hpos; lia]). cbn [length or_slash app] in *.
    pose proof (prepend_run buffer pos [] ltac:(lia)) as Hpre. change (trim_slashes []) with (@nil Z) in Hpre.
    cbv zeta in Hpre. cbn [length app] in Hpre. apply wp_bind.
    destruct (Z.ltb_spec pos (Z.of_nat 0 + 1)).
    + rewrite Hpre. unfold wp, lift. cbn [mbind outcome_bind]. split; [done|]. split; [done|]. cbn [length].
      rewrite (proj2 (Z.ltb_ge _ _)) by lia. done.
    + destruct Hpre as (b & -> & Hl & Hd). unfold wp, lift. cbn [mbind outcome_bind]. split; [done|]. split; [done|].
      cbn [length]. rewrite (proj2 (Z.ltb_lt _ _)) by lia. split_and!; [done|done|lia|]. rewrite Hd, Hdrop. done.
  - apply wp_ret. destruct fin as [|c fin]; [cbn [length] in Hpos; lia|]. cbn [or_slash].
    split; [done|]. split; [done|]. rewrite (proj2 (Z.ltb_lt _ _)) by lia. done.
Qed.

Lemma wp_getcwd_loop w0 H B v cs :
  vfs_ok w0 → root_mount w0 ≠ 0 → path_of w0 v cs → Z.of_nat (length H) + 6 < 2 ^ 30 →
  ∀ n w buffer pos fin,
    (length cs < n)%nat → held w0 (v :: H) B w →
    drop (Z.to_nat pos) buffer = fin ++ [0] → 0 ≤ pos → pos = Z.of_nat (length buffer) - 1 - Z.of_nat (length fin) →
    wp (getcwd_loop node_ops n v buffer pos) (climbed w0 H B (or_slash (text cs ++ fin)) buffer) w.
Proof.
  intros Hok Hrm Hp HlenH.
  induction Hp as [|v x p nx nm cs Hp IH Hd Hname Hch Hcr Hs Hr Hv Hseen Hnx Ho1 Ho2 Hup Hpx Hnm];
    intros n w buffer pos fin Hn Hh Hdrop Hpos0 Hpos.
  { destruct n as [|n]; [cbn [length] in Hn; lia|]. by apply wp_getcwd_root. }
  rewrite length_app in Hn. cbn [length] in Hn. destruct n as [|n]; [lia|]. cbn [getcwd_loop].
  apply wp_bind, wp_gets. rewrite (hd_root _ _ _ _ Hh). destruct (vo_rootm _ Hok Hrm) as [rt Hrt].
  apply wp_bind. eapply wp_mount; [done|done|].
  assert (root_node w0 = m_root rt) as Hrn by (unfold root_node; by rewrite Hrt). rewrite <- Hrn.
  rewrite (proj2 (Z.eqb_neq v _)) by done.
  assert (x ≠ 0) as Hx0.
  { unfold seen_as in Hseen. destruct (mounted_at w0 v); [by destruct Hseen as (_ & ? & _)|].
    subst x. apply Hv. }
  apply wp_bind. eapply wp_mono; [apply (wp_step_up w0 H B w v x p nx nm); try done; lia|].
  intros [[s cur] [pos' b]] w1. cbv zeta. set (c := trim_slashes nm) in *.
  rewrite text_app, <- app_assoc. change (text [c]) with ((c_slash :: c) ++ []). rewrite app_nil_r. cbn [app].
  destruct (Z.ltb_spec pos (Z.of_nat (length c) + 1)).
  - intros (-> & -> & Hh1). rewrite bool_decide_eq_false_2 by done. cbn [negb]. apply wp_ret.
    split; [done|]. split; [done|]. rewrite (proj2 (Z.ltb_ge _ _)); [done|].
    assert (or_slash (text cs ++ c_slash :: c ++ fin) = text cs ++ c_slash :: c ++ fin) as ->
      by (by destruct (text cs)).
    rewrite !length_app. cbn [length]. rewrite length_app. lia.
  - intros (-> & -> & Hpn & Hh1 & -> & Hl & Hd1). rewrite bool_decide_eq_true_2 by done. cbn [negb].
    eapply wp_mono; [apply (IH n w1 b (pos - Z.of_nat (length c) - 1) (c_slash :: c ++ fin)); [lia|done| |lia|]|].
    + rewrite Hd1, Hdrop. cbn [app]. by rewrite app_assoc.
    + cbn [length]. rewrite length_app. lia.
    + intros [[s cur] [q b2]] w2 Hc. unfold climbed in *. by rewrite Hl in Hc.
Qed.

Lemma or_slash_full cs : Forall name_ok cs → or_slash (text cs ++ []) = full_path cs.
Proof. intros _. rewrite app_nil_r. by destruct cs. Qed.

Lemma wp_getcwd w v cs buffer :
  vfs_ok w → root_mount w ≠ 0 → path_of w v cs → (length cs < 1024)%nat → buffer ≠ [] →
  wp (vfs_getcwd node_ops v (Some buffer))
    (λ '(s, b) w', held w [] (al_live (ext w)) w' ∧
       if Z.of_nat (length (full_path cs)) <? Z.of_nat (length buffer)
       then s = VFS_STATUS_OK ∧ take (length (full_path cs) + 1) b = full_path cs ++ [0]
       else s = VFS_STATUS_RANGE) w.
Proof.
  intros Hok Hrm Hp Hdepth Hb. destruct (vo_rootm _ Hok Hrm) as [rt Hrt].
  pose proof (vo_mroot _ Hok _ _ Hrt) as Hroot.
  assert (root_node w = m_root rt) as Hrn by (unfold root_node; by rewrite Hrt).
  assert (is_node w v) as Hv by (destruct Hp; [by rewrite Hrn|done]).
  unfold vfs_getcwd. destruct buffer as [|b0 buffer]; [done|]. set (buf := b0 :: buffer) in *.
  rewrite (proj2 (Z.eqb_neq (Z.of_nat (length buf)) 0)) by (cbn [buf length]; lia).
  apply wp_bind, wp_gets. rewrite (proj2 (Z.eqb_neq (root_mount w) 0)) by done.
  pose proof (held_init w Hok) as Hh0.
  apply wp_bind. eapply wp_mount; [exact Hh0|done|]. rewrite (proj2 (Z.eqb_neq (m_root rt) 0)) by apply Hroot.
  rewrite (proj2 (Z.eqb_neq v 0)) by apply Hv.
  apply wp_bind. eapply wp_borrow; [done|exact Hh0|done|cbn; lia|]. intros w1 Hh1.
  assert (1 ≤ Z.of_nat (length buf)) as Hlen by (cbn [buf length]; lia). clearbody buf.
  destruct (put_bytes_run buf (Z.of_nat (length buf) - 1) [0]) as (b1 & Hput & Hl1 & Hd1); [lia|cbn [length]; lia|].
  apply wp_bind. rewrite Hput. unfold wp at 1, lift. cbn [mbind outcome_bind].
  apply wp_bind. eapply wp_mono.
  { eapply (wp_getcwd_loop w [] _ v cs Hok Hrm Hp ltac:(cbn; lia) _ w1 b1 _ []).
    - unfold VFS_SYMLINK_TARGET_MAX. lia.
    - exact Hh1.
    - rewrite Hd1, drop_ge by (cbn [length]; lia). done.
    - lia.
    - cbn [length]. lia. }
  intros [[s cur] [pos b2]] w2 (Hcur & Hh2 & Hres). rewrite or_slash_full in Hres by (by eapply path_of_names).
  rewrite Hl1 in Hres. apply wp_bind.
  eapply wp_release; [done|exact Hh2|done|done|cbn; lia|]. intros w3 Hh3.
  destruct (Z.of_nat (length (full_path cs)) <? Z.of_nat (length buf)).
  - destruct Hres as (-> & Hl2 & Hpos & Hd2). rewrite bool_decide_eq_true_2 by done. cbn [negb].
    destruct (put_bytes_run b2 0 (drop (Z.to_nat pos) b2)) as (b3 & -> & Hl3 & Hd3); [lia|rewrite length_drop; lia|].
    unfold wp at 1, lift. cbn [mbind outcome_bind]. apply wp_bind, wp_ret. apply wp_ret.
    split; [done|]. split; [done|]. rewrite Hd2 in Hd3. change (drop (Z.to_nat 0) b3) with b3 in Hd3.
    rewrite Hd3, take_app_le by (rewrite length_app; cbn [length]; lia).
    apply take_ge. rewrite length_app. cbn [length]. lia.
  - subst s. rewrite bool_decide_eq_false_2 by done. cbn [negb]. by apply wp_ret.
Qed.

(** C18: [vfs_getcwd] and [vfs_lookup] are inverse.  For a directory reached from
    the root by the components [cs], fewer than 1024, [vfs_getcwd] writes
    [/c1/../cn], terminated, at the front of the buffer when it fits and reports
    [VFS_STATUS_RANGE] when it does not, in both cases giving back every
    reference; and looking that path up leads back to the directory. *)
Theorem getcwd_lookup_roundtrip w v cs buffer base :
  vfs_ok w → root_mount w ≠ 0 → cross w (root_node w) = root_node w → path_of w v cs →
  (length cs < 1024)%nat → Z.of_nat (length (full_path cs)) < 2 ^ 32 → buffer ≠ [] →
  (base = 0 ∨ is_node w base) →
  (∃ s b w', vfs_getcwd node_ops v (Some buffer) w = Ret ((s, b), w') ∧ held w [] (al_live (ext w)) w' ∧
     if Z.of_nat (length (full_path cs)) <? Z.of_nat (length buffer)
     then s = VFS_STATUS_OK ∧ take (length (full_path cs) + 1) b = full_path cs ++ [0]
     else s = VFS_STATUS_RANGE) ∧
  ∃ w', vfs_lookup_at node_ops base (Some (full_path cs)) true w = Ret ((VFS_STATUS_OK, v), w') ∧
        held w [v] (al_live (ext w)) w'.
Proof.
  intros Hok Hrm Hroot Hp Hdepth Hlen Hb Hbase. split.
  { destruct (proj1 (wp_inv _ _ _) (wp_getcwd w v cs buffer Hok Hrm Hp Hdepth Hb)) as ([s b] & w' & Hr & HQ).
    by exists s, b, w'. }
  destruct (proj1 (wp_inv _ _ _) (wp_lookup_at node_ops w base (full_path cs) Hok Hbase Hlen)) as (r & w' & Hr & HQ).
  exists w'. assert (∀ d, resolve_path node_ops w base false d (Some (full_path cs)) = inr (MkResult v None)) as E.
  { intros d. assert (∃ q, full_path cs = c_slash :: q) as [q Eq] by (destruct cs; by eexists).
    rewrite Eq. cbn [resolve_path]. rewrite (proj2 (Z.eqb_neq (root_mount w) 0)) by done.
    unfold start. cbn [head]. rewrite bool_decide_eq_true_2 by done. rewrite Hroot, <- Eq.
    rewrite comps_full_path by (by eapply path_of_names). rewrite resolve_unfold, <- (app_nil_r cs).
    by rewrite (path_resolves w _ v cs). }
  unfold looked_up in HQ. rewrite !E in HQ. destruct HQ as [[? _]|(-> & Hh)]; [done|]. by split.
Qed.
End paths.
