(* ===== verification/VfsFd.v ===== *)
(** * VfsFd: descriptors and the reference counts of open files

    The descriptor table of a process and the counts of the files in it, under
    [syscall_close_fd] and [syscall_dup2].  [others f] counts the references
    that other processes hold, which a fork makes. *)
From S2P Require Import Prelude Alloc Vfs VfsWalk.

Section fds.
Context {X : Type} {alloc_X : Allocator X}.
Abbreviation W := (vworld X).
Context (node_ops : Z → vfs_node_ops W) (file_ops : Z → vfs_file_ops W).
Implicit Types (w : W) (others : Z → Z).

(** What closing a file and freeing a vnode may touch. *)
Class VfsFileLaws := {
  fl_close w f n g :
    files w !! f = Some n → op_close (file_ops (f_ops n)) = Some g →
    ∃ s x, g f w = Ret (s, set_ext x (set_files (delete f (files w)) w));
  fl_free w v n g :
    nodes w !! v = Some n → op_free (node_ops (n_ops n)) = Some g →
    ∃ ns x, g v w = Ret (tt, set_ext x (set_nodes ns w));
}.
Context {file_laws : VfsFileLaws}.

(** Every file in use has the count of the slots it is in, here and elsewhere. *)
Record fds_ok w (fds : list Z) others : Prop := {
  fo_proc : ∃ cwd, current_process w = Some (MkVproc cwd fds);
  fo_len : length fds = 256%nat;
  fo_others f : 0 ≤ others f < 2 ^ 31;
  fo_count f : f ≠ 0 → 0 < occ f fds + others f →
    ∃ n, files w !! f = Some n ∧ f_refcount n = occ f fds + others f;
}.

Lemma occ_insert fds i f g x :
  fds !! i = Some f →
  occ x (<[i := g]> fds) = occ x fds - (if decide (f = x) then 1 else 0) + (if decide (g = x) then 1 else 0).
Proof.
  intros Hi. unfold occ. rewrite insert_take_drop by (by eapply lookup_lt_Some).
  rewrite <- (take_drop_middle fds i f Hi) at 3. rewrite !filter_app, !filter_cons, !length_app.
  destruct (decide (f = x)), (decide (g = x)); cbn [length]; lia.
Qed.
Lemma occ_lookup fds i f : fds !! i = Some f → 1 ≤ occ f fds.
Proof.
  intros Hi. unfold occ. rewrite <- (take_drop_middle fds i f Hi), filter_app, filter_cons.
  rewrite decide_True by done. rewrite length_app. cbn [length]. lia.
Qed.

(** *** Slots *)
Lemma fd_at_run w fds others i f :
  fds_ok w fds others → 0 ≤ i < 256 → fds !! Z.to_nat i = Some f → fd_at i w = Ret (f, w).
Proof.
  intros [[cwd Hp] _ _ _] Hi Hf. unfold fd_at, mbind, prog_bind, gets. rewrite Hp. cbn.
  rewrite (proj2 (Z.ltb_ge i 0)) by lia. by rewrite Hf.
Qed.
Lemma wp_fd_get w fds others i f (Q : Z → W → Prop) :
  fds_ok w fds others → 0 ≤ i < 256 → fds !! Z.to_nat i = Some f → Q f w → wp (proc_fd_get i) Q w.
Proof.
  intros Hok Hi Hf HQ. unfold proc_fd_get, MAX_FDS. rewrite (proj2 (Z.leb_gt _ _)) by lia.
  unfold wp. by rewrite (fd_at_run _ _ _ _ _ Hok Hi Hf).
Qed.

(** Storing in a slot. *)
Definition with_fds (fds : list Z) w : W :=
  set_process ((λ p, MkVproc (p_cwd p) fds) <$> current_process w) w.
Lemma wp_fd_set w fds others i f g (Q : unit → W → Prop) :
  fds_ok w fds others → 0 ≤ i < 256 → fds !! Z.to_nat i = Some f →
  Q tt (with_fds (<[Z.to_nat i := g]> fds) w) → wp (proc_fd_set i g) Q w.
Proof.
  intros Hok Hi Hf HQ. unfold proc_fd_set, MAX_FDS. rewrite (proj2 (Z.ltb_lt _ _)) by lia.
  apply wp_bind. unfold wp at 1. rewrite (fd_at_run _ _ _ _ _ Hok Hi Hf). apply wp_modify.
  destruct Hok as [[cwd Hp] _ _ _]. unfold with_fds in HQ. by rewrite Hp in HQ |- *.
Qed.

(** The first slot that holds a file. *)
Lemma wp_clear_fd w fds others f i (Q : unit → W → Prop) :
  fds_ok w fds others → fds !! i = Some f → (∀ j, fds !! j = Some f → j = i) →
  Q tt (with_fds (<[i := 0]> fds) w) → wp (clear_process_fd f) Q w.
Proof.
  intros Hok Hi Huniq HQ. pose proof Hok as [[cwd Hp] Hlen _ _]. unfold clear_process_fd.
  apply wp_bind, wp_gets. rewrite Hp. apply lookup_lt_Some in Hi as Hlt.
  assert (∀ n k, (n + k = 256)%nat → (k ≤ i)%nat → wp (clear_fd_loop n (Z.of_nat k) f) Q w) as Hloop.
  { induction n as [|n IH]; intros k Hk Hki; [lia|]. cbn [clear_fd_loop].
    destruct (lookup_lt_is_Some_2 fds k) as [g Hg]; [lia|].
    apply wp_bind. eapply (wp_fd_get w fds others _ g); [done|lia|by rewrite Nat2Z.id|].
    destruct (Z.eqb_spec g f) as [->|Hne].
    - apply Huniq in Hg as ->. eapply (wp_fd_set w fds others _ f); [done|lia|by rewrite Nat2Z.id|].
      by rewrite Nat2Z.id.
    - assert (k ≠ i) by (intros ->; congruence).
      replace (Z.of_nat k + 1) with (Z.of_nat (S k)) by lia. apply IH; lia. }
  apply (Hloop _ 0%nat); [unfold MAX_FDS; lia|lia].
Qed.

(** *** Releasing *)

(** A released vnode leaves files and descriptors alone. *)
Definition same_files w w' : Prop := files w' = files w ∧ current_process w' = current_process w.

Lemma wp_release_frame w v :
  (v = 0 ∨ is_Some (nodes w !! v)) → wp (vfs_vnode_release node_ops v) (λ _ w', same_files w w') w.
Proof.
  intros Hv. unfold vfs_vnode_release. destruct (Z.eqb_spec v 0) as [|Hv0]; [by apply wp_ret|].
  destruct Hv as [|[n Hn]]; [done|].
  assert (∀ w (n : vfs_node) (Q : vfs_node → W → Prop), nodes w !! v = Some n → Q n w → wp (node v) Q w) as Hnode.
  { intros w1 n1 Q Hn1 HQ. unfold node. apply wp_bind, wp_gets. by rewrite Hn1. }
  apply wp_bind. eapply Hnode; [done|]. destruct (refcount n =? 0); [by apply wp_ret|].
  apply wp_bind. unfold update_node. apply wp_bind. eapply Hnode; [done|]. apply wp_modify.
  set (n1 := with_refcount (u32 (refcount n - 1)) n). set (w1 := set_nodes _ w).
  assert (nodes w1 !! v = Some n1) as Hn1 by apply lookup_insert_eq.
  apply wp_bind. eapply Hnode; [done|]. destruct (negb _); [by apply wp_ret|].
  apply wp_bind. unfold HVFS_VOP_MISSING. rewrite (proj2 (Z.eqb_neq v 0)) by done.
  apply wp_bind. eapply Hnode; [done|]. apply wp_ret.
  destruct (n_ops n1 =? 0); cbn [orb]; [by apply wp_ret|].
  destruct (op_free (node_ops (n_ops n1))) as [g|] eqn:Hg; [|by apply wp_ret].
  apply wp_bind. unfold vop. apply wp_bind. eapply Hnode; [done|]. rewrite Hg. eapply wp_lift; [done|].
  destruct (fl_free w1 v n1 g Hn1 Hg) as (ns & x & Hrun). unfold wp. by rewrite Hrun.
Qed.

Lemma file_run w f n (Q : vfs_file → W → Prop) : files w !! f = Some n → Q n w → wp (file f) Q w.
Proof. intros Hn HQ. unfold file. apply wp_bind, wp_gets. by rewrite Hn. Qed.

(** *** Closing a descriptor *)
Definition close_missing (n : vfs_file) : bool :=
  (f_ops n =? 0) || match op_close (file_ops (f_ops n)) with None => true | Some _ => false end.

(** The slot is empty, the others are as before, and the counts agree again. *)
Definition slot_cleared w (fds : list Z) (fd f : Z) others w' : Prop :=
  fds_ok w' (<[Z.to_nat fd := 0]> fds) others ∧ ∀ g, g ≠ f → files w' !! g = files w !! g.

Lemma only_slot fds i j f : fds !! i = Some f → occ f fds = 1 → fds !! j = Some f → j = i.
Proof.
  intros Hi Hocc Hj. destruct (decide (j = i)) as [|Hne]; [done|].
  pose proof (occ_insert fds i f (f + 1) f Hi) as Hins. rewrite decide_True, decide_False in Hins by lia.
  assert (<[i := f + 1]> fds !! j = Some f) as Hj' by (by rewrite list_lookup_insert_ne).
  pose proof (occ_lookup _ _ _ Hj'). lia.
Qed.

Lemma wp_close_shared w fds others fd f n :
  fds_ok w fds others → 0 ≤ fd < 256 → fds !! Z.to_nat fd = Some f → f ≠ 0 → files w !! f = Some n →
  1 < f_refcount n →
  wp (_ ← proc_fd_set fd 0; _ ← vfs_file_release f; mret VFS_STATUS_OK)
     (λ s w', s = VFS_STATUS_OK ∧ slot_cleared w fds fd f others w') w.
Proof.
  intros Hok Hfd Hf Hf0 Hn Hr. apply wp_bind. eapply wp_fd_set; [done|done|done|].
  apply wp_bind. unfold vfs_file_release. rewrite (proj2 (Z.eqb_neq f 0)) by done.
  apply wp_bind. eapply file_run; [done|]. rewrite (proj2 (Z.eqb_neq (f_refcount n) 0)) by lia.
  unfold update_file. apply wp_bind. eapply file_run; [done|]. apply wp_modify, wp_ret. split; [done|].
  destruct Hok as [[cwd Hp] Hlen Ho Hc]. split.
  - split; [|by rewrite length_insert|done|].
    + exists cwd. cbn. by rewrite Hp.
    + intros x Hx. rewrite (occ_insert _ _ _ _ x Hf), (decide_False (P := 0 = x)) by congruence. intros Hpos.
      destruct (decide (f = x)) as [<-|Hne]; cbn [set_files files with_fds set_process].
      * rewrite lookup_insert_eq. eexists. split; [done|]. cbn [with_f_refcount f_refcount].
        destruct (Hc f Hf0) as (n' & Hn' & Hr'); [pose proof (Ho f); lia|].
        assert (n' = n) as -> by congruence. pose proof (occ_bound f fds). pose proof (Ho f).
        rewrite u32_small by lia. lia.
      * rewrite lookup_insert_ne by done. destruct (Hc x Hx) as (n' & Hn' & Hr'); [lia|].
        exists n'. split; [done|]. lia.
  - intros g Hg. cbn [set_files files with_fds set_process]. by rewrite lookup_insert_ne.
Qed.

Lemma wp_close_last w fds others fd f n :
  fds_ok w fds others → 0 ≤ fd < 256 → fds !! Z.to_nat fd = Some f → f ≠ 0 → files w !! f = Some n →
  f_refcount n = 1 → (f_vnode n = 0 ∨ is_Some (nodes w !! f_vnode n)) →
  wp (vfs_close node_ops file_ops f)
     (λ s w', if close_missing n then s = VFS_STATUS_NOT_IMPLEMENTED ∧ w' = w
              else slot_cleared w fds fd f others w' ∧ files w' !! f = None) w.
Proof.
  intros Hok Hfd Hf Hf0 Hn Hr Hv. unfold vfs_close. rewrite (proj2 (Z.eqb_neq f 0)) by done.
  apply wp_bind. eapply file_run; [done|]. rewrite Hr. cbn [Z.eqb Pos.eqb].
  apply wp_bind. unfold HVFS_FOP_MISSING. rewrite (proj2 (Z.eqb_neq f 0)) by done.
  apply wp_bind. eapply file_run; [done|]. apply wp_ret. fold (close_missing n).
  unfold close_missing. destruct (_ || _) eqn:Hcl; [by apply wp_ret|].
  apply orb_false_iff in Hcl as [_ Hcl].
  destruct (op_close (file_ops (f_ops n))) as [g|] eqn:Hg; [|done].
  pose proof Hok as [[cwd Hp] Hlen Ho Hc]. pose proof (occ_lookup _ _ _ Hf) as Hocc.
  destruct (Hc f Hf0) as (n' & Hn' & Hr'); [pose proof (Ho f); lia|].
  assert (n' = n) as -> by congruence. pose proof (Ho f).
  apply wp_bind. eapply wp_clear_fd; [exact Hok|exact Hf|intros j Hj; by eapply only_slot; [| |]; try done; lia|].
  cbn [Z.ltb Z.compare Pos.compare]. set (w1 := with_fds _ w).
  apply wp_bind. unfold fop. apply wp_bind. eapply (file_run w1); [done|]. rewrite Hg. eapply wp_lift; [done|].
  destruct (fl_close w1 f n g Hn Hg) as (s & x & Hrun). apply wp_bind. unfold wp at 1. rewrite Hrun.
  apply wp_bind. eapply wp_mono; [by apply wp_release_frame|]. intros [] w2 [Hfiles Hproc].
  cbn [set_ext set_files files current_process with_fds set_process] in Hfiles, Hproc. apply wp_ret.
  split; [split|].
  - split; [|by rewrite length_insert|done|].
    + exists cwd. rewrite Hproc. unfold w1. cbn. by rewrite Hp.
    + intros y Hy. rewrite (occ_insert _ _ _ _ y Hf), (decide_False (P := 0 = y)) by congruence. intros Hpos.
      destruct (decide (f = y)) as [<-|Hne]; [lia|]. rewrite Hfiles, lookup_delete_ne by done.
      destruct (Hc y Hy) as (n' & Hn'' & Hr''); [lia|]. exists n'. split; [done|]. lia.
  - intros h Hh. rewrite Hfiles. by rewrite lookup_delete_ne.
  - rewrite Hfiles. apply lookup_delete_eq.
Qed.

(** [syscall_close_fd] on a slot in use. *)
Definition closed w (fds : list Z) (fd f : Z) (n : vfs_file) others (s : vfs_status) w' : Prop :=
  if (f_refcount n =? 1) && close_missing n then s = VFS_STATUS_NOT_IMPLEMENTED ∧ w' = w
  else slot_cleared w fds fd f others w' ∧
       (1 < f_refcount n → s = VFS_STATUS_OK) ∧ (f_refcount n = 1 → files w' !! f = None).

Lemma file_of_slot w fds others fd f :
  fds_ok w fds others → fds !! fd = Some f → f ≠ 0 →
  ∃ n, files w !! f = Some n ∧ f_refcount n = occ f fds + others f ∧ 1 ≤ f_refcount n < 2 ^ 32 - 1.
Proof.
  intros [_ Hlen Ho Hc] Hf Hf0. pose proof (occ_lookup _ _ _ Hf). pose proof (Ho f). pose proof (occ_bound f fds).
  destruct (Hc f Hf0) as (n & Hn & Hr); [lia|]. exists n. split_and!; [done|done|lia|lia].
Qed.

Lemma wp_close_fd w fds others fd f n :
  fds_ok w fds others → 0 ≤ fd < 256 → fds !! Z.to_nat fd = Some f → f ≠ 0 → files w !! f = Some n →
  (f_vnode n = 0 ∨ is_Some (nodes w !! f_vnode n)) →
  wp (syscall_close_fd node_ops file_ops fd) (closed w fds fd f n others) w.
Proof.
  intros Hok Hfd Hf Hf0 Hn Hv. destruct (file_of_slot _ _ _ _ _ Hok Hf Hf0) as (n' & Hn' & _ & Hr).
  assert (n' = n) as -> by congruence. unfold syscall_close_fd, MAX_FDS.
  rewrite (proj2 (Z.ltb_ge fd 0)), (proj2 (Z.leb_gt _ _)) by lia. cbn [orb].
  apply wp_bind. eapply wp_fd_get; [done|done|done|]. rewrite (proj2 (Z.eqb_neq f 0)) by done.
  apply wp_bind. eapply file_run; [done|]. unfold closed. destruct (Z.ltb_spec 1 (f_refcount n)).
  - rewrite (proj2 (Z.eqb_neq (f_refcount n) 1)) by lia. cbn [andb].
    eapply wp_mono; [by apply (wp_close_shared w fds others fd f n)|]. intros s w' [-> Hs]. split_and!; [done|done|lia].
  - assert (f_refcount n = 1) as E by lia. rewrite E. cbn [Z.eqb Pos.eqb andb].
    eapply wp_mono; [by apply (wp_close_last w fds others fd f n)|].
    intros s w'. destruct (close_missing n); [done|]. intros [Hs Hd]. split_and!; [done|lia|done].
Qed.

(** The file in slot [newfd] gets one more reference. *)
Lemma wp_dup_store w fds others newfd f n :
  fds_ok w fds others → 0 ≤ newfd < 256 → fds !! Z.to_nat newfd = Some 0 → f ≠ 0 →
  files w !! f = Some n → f_refcount n = occ f fds + others f → f_refcount n < 2 ^ 32 - 1 →
  wp (_ ← vfs_file_borrow f; _ ← proc_fd_set newfd f; mret newfd)
     (λ r w', r = newfd ∧ fds_ok w' (<[Z.to_nat newfd := f]> fds) others ∧
              ∀ g, g ≠ f → files w' !! g = files w !! g) w.
Proof.
  intros Hok Hfd Hs Hf0 Hn Hr Hb. pose proof Hok as [[cwd Hp] Hlen Ho Hc]. apply wp_bind.
  unfold vfs_file_borrow. rewrite (proj2 (Z.eqb_neq f 0)) by done. cbn [negb]. unfold update_file.
  apply wp_bind. eapply file_run; [done|]. apply wp_modify. pose proof (occ_nonneg f fds). pose proof (Ho f).
  rewrite u32_small by lia. set (w1 := set_files _ w).
  apply wp_bind. unfold proc_fd_set, MAX_FDS. rewrite (proj2 (Z.ltb_lt _ _)) by lia. apply wp_bind.
  unfold wp at 1, fd_at, mbind, prog_bind, gets. cbn [w1 set_files current_process]. rewrite Hp. cbn [option_bind].
  rewrite (proj2 (Z.ltb_ge newfd 0)) by lia. cbn [p_fds]. rewrite Hs. apply wp_modify, wp_ret.
  split; [done|]. split.
  - split; [|by rewrite length_insert|done|].
    + exists cwd. cbn. by rewrite Hp.
    + intros x Hx. rewrite (occ_insert _ _ _ _ x Hs), (decide_False (P := 0 = x)) by congruence. intros Hpos.
      cbn [set_process set_files files w1]. destruct (decide (f = x)) as [<-|Hne].
      * rewrite lookup_insert_eq. eexists. split; [done|]. cbn [with_f_refcount f_refcount]. lia.
      * rewrite lookup_insert_ne by done. destruct (Hc x Hx) as (n' & Hn' & Hr'); [lia|]. exists n'. split; [done|]. lia.
  - intros g Hg. cbn [set_process set_files files w1]. by rewrite lookup_insert_ne.
Qed.

(** What [dup2] leaves: the new slot holds the file; or the file that was there
    could not be closed, and its error is reported. *)
Definition dupped w (fds : list Z) (newfd f : Z) others (r : Z) w' : Prop :=
  (r = newfd ∧ fds_ok w' (<[Z.to_nat newfd := f]> fds) others) ∨
  (∃ s, s ≠ VFS_STATUS_OK ∧ r = - vfs_status_to_errno s ∧
        (w' = w ∨ fds_ok w' (<[Z.to_nat newfd := 0]> fds) others)).

Lemma wp_dup2 w fds others oldfd newfd f g :
  fds_ok w fds others → 0 ≤ oldfd < 256 → 0 ≤ newfd < 256 →
  fds !! Z.to_nat oldfd = Some f → f ≠ 0 → fds !! Z.to_nat newfd = Some g →
  (∀ n, files w !! g = Some n → f_vnode n = 0 ∨ is_Some (nodes w !! f_vnode n)) →
  wp (syscall_dup2 node_ops file_ops oldfd newfd) (dupped w fds newfd f others) w.
Proof.
  intros Hok Hold Hnew Hf Hf0 Hg Hv. unfold syscall_dup2, MAX_FDS.
  rewrite (proj2 (Z.ltb_ge oldfd 0)), (proj2 (Z.ltb_ge newfd 0)), (proj2 (Z.leb_gt _ _)) by lia. cbn [orb].
  apply wp_bind. eapply wp_fd_get; [done|exact Hold|done|]. rewrite (proj2 (Z.eqb_neq f 0)) by done.
  destruct (Z.eqb_spec oldfd newfd) as [<-|Hne].
  { apply wp_ret. left. by rewrite list_insert_id. }
  apply wp_bind. eapply wp_fd_get; [done|exact Hnew|done|]. apply wp_bind.
  assert (∀ w1 fds1, fds_ok w1 fds1 others → fds1 !! Z.to_nat oldfd = Some f → fds1 !! Z.to_nat newfd = Some 0 →
    <[Z.to_nat newfd := f]> fds1 = <[Z.to_nat newfd := f]> fds →
    wp (_ ← vfs_file_borrow f; _ ← proc_fd_set newfd f; mret newfd) (dupped w fds newfd f others) w1) as Hstore.
  { intros w1 fds1 Hok1 Hf1 H01 E. destruct (file_of_slot _ _ _ _ _ Hok1 Hf1 Hf0) as (n & Hn & Hr & Hb).
    eapply wp_mono; [eapply (wp_dup_store w1 fds1 others newfd f n); try done; lia|].
    intros r w' (-> & Hok' & _). left. by rewrite <- E. }
  destruct (Z.eqb_spec g 0) as [->|Hg0]; cbn [negb].
  { apply wp_ret. rewrite bool_decide_eq_true_2 by done. cbn [negb]. by apply (Hstore w fds). }
  destruct (file_of_slot _ _ _ _ _ Hok Hg Hg0) as (n & Hn & Hr & Hb).
  eapply wp_mono; [apply (wp_close_fd w fds others newfd g n); try done; by apply Hv|].
  intros s w1 Hcl. unfold closed in Hcl. destruct (_ && _).
  - destruct Hcl as [-> ->]. rewrite bool_decide_eq_false_2 by done. cbn [negb]. apply wp_ret. right.
    exists VFS_STATUS_NOT_IMPLEMENTED. split; [done|]. split; [done|]. by left.
  - destruct Hcl as ([Hok1 _] & _ & _). destruct (decide (s = VFS_STATUS_OK)) as [->|Hs].
    + rewrite bool_decide_eq_true_2 by done. cbn [negb]. apply lookup_lt_Some in Hg as Hlt. eapply Hstore; [exact Hok1| | |].
      * rewrite list_lookup_insert_ne; [done|lia].
      * by apply list_lookup_insert_eq.
      * by rewrite list_insert_insert_eq.
    + rewrite bool_decide_eq_false_2 by done. cbn [negb]. apply wp_ret. right. exists s.
      split; [done|]. split; [done|]. by right.
Qed.

End fds.

(** ** A process *)

(** File 8 in slots 0 and 3, file 9 in slot 5; closing a file takes it away. *)
Definition demo_close (f : Z) : prog (vworld bump) vfs_status := λ w,
  Ret (VFS_STATUS_OK, set_ext (ext w) (set_files (delete f (files w)) w)).
Definition demo_file_ops (_ : Z) : vfs_file_ops (vworld bump) :=
  MkFileOps _ None None None None (Some demo_close) None.
Definition demo_node_ops (_ : Z) : vfs_node_ops (vworld bump) :=
  MkNodeOps _ None None None None None None None None None None None None None.

#[global] Instance demo_file_laws : VfsFileLaws demo_node_ops demo_file_ops.
Proof. split; [|done]. intros w f n g _ [= <-]. by eexists _, _. Qed.

Definition demo_fds : list Z := <[0%nat := 8]> (<[3%nat := 8]> (<[5%nat := 9]> (replicate 256 0))).
Definition demo_open (n : Z) : vfs_file := MkFile 0 1 1 n 0 0.
Definition demo_process : vworld bump :=
  MkWorld ∅ ∅ (<[8 := demo_open 2]> (<[9 := demo_open 1]> ∅)) ∅ 0 (Some (MkVproc 0 demo_fds)) (MkBump 1 0 ∅).

Lemma demo_fds_ok : fds_ok demo_process demo_fds (λ _, 0).
Proof.
  split; [by eexists|done|done|]. intros f Hf. unfold demo_fds.
  rewrite (occ_insert _ 0 0), (occ_insert _ 3 0), (occ_insert _ 5 0) by done.
  replace (occ f (replicate 256 0)) with 0.
  2:{ unfold occ. generalize 256%nat as k. induction k as [|k IH]; [done|]. cbn [replicate].
      by rewrite filter_cons, decide_False by congruence. }
  rewrite !(decide_False (P := 0 = f)) by congruence.
  destruct (decide (8 = f)) as [<-|H8]; [intros _; by exists (demo_open 2)|].
  destruct (decide (9 = f)) as [<-|H9]; [intros _; by exists (demo_open 1)|lia].
Qed.

