(* ===== verification/Slab.v ===== *)
(** * Slab: [kernel/memory/slab.c]

    The allocator of small objects: ten size classes, each a list of slabs cut
    into equal slots with a header in front of every object and a bitmap of the
    slots in use; larger requests go to [malloc] with a header of their own.

    It is written against [Allocator] (the [malloc] below it) and the bitmaps of
    [Bitmap], and discharges [AllocatorLaws] for everything above it.  Slabs
    and object headers live in heaps by address; the interrupt flag is RFLAGS
    of [Sync]. *)
From S2P Require Import Prelude Alloc Bitmap Sync.
Import BitmapSpec.

(** ** Data *)
Definition SLAB_MAGIC : Z := 0x48534C4142.
(** [(uint64_t)-1]. *)
Definition SLAB_BIG_CLASS : Z := UINT64_MAX.
Definition SLAB_CLASS_COUNT : Z := 10.
Definition SLAB_PAGE_SIZE : Z := 4096.
(** [sizeof(slab_object_header_t)], [sizeof(slab_t)], [sizeof(uintptr_t)]. *)
Definition SIZEOF_OBJECT_HEADER : Z := 24.
Definition SIZEOF_SLAB : Z := 80.
Definition SIZEOF_UINTPTR : Z := 8.

Record slab_object_header := MkHeader { magic : Z; class_idx : Z; hslab : Z }.
Record slab := MkSlab {
  raw_page : Z; page : Z; bitmap : bitmap_t; snext : Z; object_count : Z; free_count : Z;
}.

Definition slab_class_sizes : list Z := [32; 64; 128; 256; 512; 1024; 2048; 4096; 8192; 16384].
Definition class_size (idx : Z) : outcome Z := deref (slab_class_sizes !! Z.to_nat idx).

Record slabs (A : Type) := MkSlabs {
  slab_at : gmap Z slab;
  header_at : gmap Z slab_object_header;
  slab_classes : list Z;
  rflags_ : Z;
  below : A;
}.
Arguments MkSlabs {A}.
Arguments slab_at {A}.
Arguments header_at {A}.
Arguments slab_classes {A}.
Arguments rflags_ {A}.
Arguments below {A}.

(** ** Operations *)

(** The smallest class with room for header and object, [-1] when there is none. *)
Fixpoint class_for_loop (sizes : list Z) (idx needed : Z) : Z :=
  match sizes with
  | [] => -1
  | s :: sizes' => if needed <=? s then idx else class_for_loop sizes' (idx + 1) needed
  end.
Definition slab_class_for_size (sz : Z) : Z :=
  class_for_loop slab_class_sizes 0 (u64 (sz + SIZEOF_OBJECT_HEADER)).

Definition slab_pages_for_class (idx : Z) : outcome Z :=
  s ← class_size idx; Ret ((s + SLAB_PAGE_SIZE - 1) / SLAB_PAGE_SIZE).

Definition slab_align_up (addr alignment : Z) : Z :=
  Z.land (u64 (addr + alignment - 1)) (UINT64_MAX - (alignment - 1)).

Section ops.
Context {A : Type} {alloc_A : Allocator A}.
Abbreviation W := (slabs A).
Implicit Types (w : W).

Definition set_slab_at (m : gmap Z slab) w : W :=
  MkSlabs m (header_at w) (slab_classes w) (rflags_ w) (below w).
Definition set_header_at (m : gmap Z slab_object_header) w : W :=
  MkSlabs (slab_at w) m (slab_classes w) (rflags_ w) (below w).
Definition set_classes (l : list Z) w : W :=
  MkSlabs (slab_at w) (header_at w) l (rflags_ w) (below w).
Definition set_rflags (f : Z) w : W :=
  MkSlabs (slab_at w) (header_at w) (slab_classes w) f (below w).
Definition set_below (a : A) w : W :=
  MkSlabs (slab_at w) (header_at w) (slab_classes w) (rflags_ w) a.

Definition malloc (n : Z) : prog W Z := λ w,
  '(p, a) ← al_alloc n (below w); Ret (p, set_below a w).
Definition mfree (p : Z) : prog W unit := λ w,
  '(u, a) ← al_free p (below w); Ret (u, set_below a w).
Definition load_slab (s : Z) : prog W slab := m ← gets slab_at; lift (deref (m !! s)).
Definition store_slab (s : Z) (v : slab) : prog W unit :=
  modify (λ w, set_slab_at (<[s := v]> (slab_at w)) w).
Definition load_header (h : Z) : prog W slab_object_header :=
  m ← gets header_at; lift (deref (m !! h)).
Definition store_header (h : Z) (v : slab_object_header) : prog W unit :=
  modify (λ w, set_header_at (<[h := v]> (header_at w)) w).
Definition irq_off : prog W Z := λ w,
  let '(old, fl) := irq_store (rflags_ w) in Ret (old, set_rflags fl w).
Definition irq_back (irq_state : Z) : prog W unit :=
  modify (λ w, set_rflags (irq_load irq_state (rflags_ w)) w).
Definition class_head (idx : Z) : prog W Z :=
  l ← gets slab_classes; lift (deref (l !! Z.to_nat idx)).

(** The headers of the slots. *)
Fixpoint header_loop (n : nat) (i pg csize idx s : Z) : prog W unit :=
  match n with
  | O => mret tt
  | S n' =>
      _ ← store_header (u64 (pg + i * csize)) (MkHeader SLAB_MAGIC idx s);
      header_loop n' (i + 1) pg csize idx s
  end.

Definition zero_bitmap : bitmap_t := MkBitmap None 0 0 0 0.

Definition slab_grow (idx : Z) : prog W Z :=
  pages ← lift (slab_pages_for_class idx);
  let bytes := u64 (pages * SLAB_PAGE_SIZE) in
  csize ← lift (class_size idx);
  let count := bytes / csize in
  let bitmap_bytes := bitmap_storage_size count in
  s ← malloc SIZEOF_SLAB;
  storage_ptr ← malloc bitmap_bytes;
  raw ← malloc (u64 (bytes + SIZEOF_UINTPTR - 1));
  if (s =? 0) || (storage_ptr =? 0) || (raw =? 0) then
    _ ← mfree s;
    _ ← mfree storage_ptr;
    _ ← mfree raw;
    mret 0
  else
    let pg := slab_align_up raw SIZEOF_UINTPTR in
    b ← lift (bitmap_init (Some zero_bitmap) (Some (replicate (Z.to_nat bitmap_bytes) 0)) count false);
    b ← lift (deref b);
    next ← class_head idx;
    _ ← store_slab s (MkSlab raw pg b next count count);
    _ ← header_loop (Z.to_nat count) 0 pg csize idx s;
    l ← gets slab_classes;
    _ ← modify (set_classes (<[Z.to_nat idx := s]> l));
    mret s.

(** [while (slab != NULL && slab->free_count == 0) slab = slab->next]. *)
Fixpoint find_slab (fuel : nat) (s : Z) : prog W Z :=
  match fuel with
  | O => diverge
  | S fuel' =>
      if s =? 0 then mret 0
      else v ← load_slab s; if free_count v =? 0 then find_slab fuel' (snext v) else mret s
  end.

(** [bitmap_find_clear(&slab->bitmap, &object_idx)]. *)
Definition find_clear (s : Z) : prog W (option Z) :=
  v ← load_slab s; lift (bitmap_find_clear (Some (bitmap v)) true).

(** Takes the slot [object_idx] of [s]. *)
Definition take_slot (s object_idx csize : Z) : prog W Z :=
  v ← load_slab s;
  '(_, b) ← lift (bitmap_set (Some (bitmap v)) object_idx);
  b ← lift (deref b);
  _ ← store_slab s (MkSlab (raw_page v) (page v) b (snext v) (object_count v) (free_count v));
  v ← load_slab s;
  _ ← store_slab s (MkSlab (raw_page v) (page v) (bitmap v) (snext v) (object_count v)
                      (u64 (free_count v - 1)));
  mret (u64 (page v + object_idx * csize)).

(** The rest of [slab_alloc] once a slab was looked for. *)
Definition alloc_from (idx irq_state s : Z) : prog W Z :=
  full ← (if s =? 0 then mret true else v ← load_slab s; mret (free_count v =? 0));
  if (full : bool) then _ ← irq_back irq_state; mret 0
  else
    found ← find_clear s;
    '(s, found) ←
      (match found with
       | Some i => mret (s, Some i)
       | None =>
           s ← slab_grow idx;
           if s =? 0 then mret (s, None) else found ← find_clear s; mret (s, found)
       end);
    match found with
    | None => _ ← irq_back irq_state; mret 0
    | Some object_idx =>
        csize ← lift (class_size idx);
        header ← take_slot s object_idx csize;
        _ ← irq_back irq_state;
        mret (u64 (header + SIZEOF_OBJECT_HEADER))
    end.

Definition slab_alloc (sz : Z) : prog W Z :=
  let sz := if sz =? 0 then 1 else sz in
  let idx := slab_class_for_size sz in
  if idx <? 0 then
    header ← malloc (u64 (SIZEOF_OBJECT_HEADER + sz));
    if header =? 0 then mret 0
    else
      _ ← store_header header (MkHeader SLAB_MAGIC SLAB_BIG_CLASS 0);
      mret (u64 (header + SIZEOF_OBJECT_HEADER))
  else
    irq_state ← irq_off;
    s ← class_head idx;
    m ← gets slab_at;
    s ← find_slab (S (size m)) s;
    s ← (if s =? 0 then slab_grow idx else mret s);
    alloc_from idx irq_state s.

(** The [memset] clears bytes of the object, which are the caller's. *)
Definition slab_calloc (sz : Z) : prog W Z := slab_alloc sz.

Definition slab_free (ptr : Z) : prog W unit :=
  if ptr =? 0 then mret tt
  else
    let header := u64 (ptr - SIZEOF_OBJECT_HEADER) in
    h ← load_header header;
    if negb (magic h =? SLAB_MAGIC) then mret tt
    else if class_idx h =? SLAB_BIG_CLASS then
      _ ← store_header header (MkHeader 0 (class_idx h) (hslab h));
      _ ← modify (λ w, set_header_at (delete header (header_at w)) w);
      mfree header
    else if (SLAB_CLASS_COUNT <=? class_idx h) || (hslab h =? 0) then mret tt
    else
      irq_state ← irq_off;
      let s := hslab h in
      csize ← lift (class_size (class_idx h));
      v ← load_slab s;
      if header <? page v then irq_back irq_state
      else
        let offset := u64 (header - page v) in
        if negb (offset mod csize =? 0) then irq_back irq_state
        else
          let object_idx := offset / csize in
          used ← (if object_count v <=? object_idx then mret false
                  else lift (bitmap_get (Some (bitmap v)) object_idx));
          if negb used then irq_back irq_state
          else
            '(_, b) ← lift (bitmap_clear (Some (bitmap v)) object_idx);
            b ← lift (deref b);
            _ ← store_slab s (MkSlab (raw_page v) (page v) b (snext v) (object_count v) (free_count v));
            v ← load_slab s;
            _ ← store_slab s (MkSlab (raw_page v) (page v) (bitmap v) (snext v) (object_count v)
                                (u64 (free_count v + 1)));
            irq_back irq_state.
End ops.

(** ** Size classes *)
Definition csz (c : Z) : Z := 32 * 2 ^ c.
Definition cbytes (c : Z) : Z := Z.max 4096 (csz c).
Definition ccount (c : Z) : Z := cbytes c / csz c.

Lemma class_cases (P : Z → Prop) :
  P 0 → P 1 → P 2 → P 3 → P 4 → P 5 → P 6 → P 7 → P 8 → P 9 → ∀ c, 0 ≤ c < 10 → P c.
Proof.
  intros. assert (c = 0 ∨ c = 1 ∨ c = 2 ∨ c = 3 ∨ c = 4 ∨ c = 5 ∨ c = 6 ∨ c = 7 ∨ c = 8 ∨ c = 9) as Hc by lia.
  by repeat destruct Hc as [->|Hc]; [..|subst].
Qed.

Lemma class_geometry c : 0 ≤ c < 10 →
  class_size c = Ret (csz c) ∧ slab_class_sizes !! Z.to_nat c = Some (csz c) ∧
  (∃ p, slab_pages_for_class c = Ret p ∧ p * 4096 = cbytes c) ∧
  ccount c * csz c = cbytes c ∧ 1 ≤ ccount c ≤ 128 ∧ 32 ≤ csz c ≤ 16384 ∧ cbytes c ≤ 16384 ∧
  1 ≤ bitmap_storage_size (ccount c) ∧ bitmap_storage_size (ccount c) = (ccount c + 7) / 8.
Proof.
  revert c. apply class_cases; vm_compute; (split; [done|]); (split; [done|]); (split; [by eexists|]);
    split_and!; done.
Qed.

Lemma class_for_size n : 0 < n < 2 ^ 62 →
  slab_class_for_size n = -1 ∨
  (0 ≤ slab_class_for_size n < 10 ∧ n + 24 ≤ csz (slab_class_for_size n)).
Proof.
  intros Hn. unfold slab_class_for_size, SIZEOF_OBJECT_HEADER.
  rewrite u64_small by (unfold is_u64; lia). cbn [class_for_loop slab_class_sizes Z.add].
  unfold csz. repeat match goal with |- context [?a <=? ?b] => destruct (Z.leb_spec a b); [right; cbn; lia|] end.
  by left.
Qed.

(** ** What a slab is *)
Section spec.
Context {A : Type} {alloc_A : Allocator A}.
Abbreviation W := (slabs A).
Implicit Types (w : W).

(** The slab [v] at [a], of class [c], with the slots [X] in use. *)
Record slab_wf w (c a : Z) (v : slab) (X : gset Z) : Prop := {
  sw_class : 0 ≤ c < 10;
  sw_count : object_count v = ccount c;
  sw_bitmap : bm_rep (bitmap v) (ccount c) X;
  sw_free : free_count v = ccount c - Z.of_nat (size X);
  sw_self : is_Some (al_live (below w) !! a);
  sw_page : ∃ k, al_live (below w) !! raw_page v = Some k ∧ raw_page v ≤ page v ∧
              page v + cbytes c ≤ raw_page v + k;
  sw_headers i : 0 ≤ i < ccount c → header_at w !! (page v + i * csz c) = Some (MkHeader SLAB_MAGIC c a);
}.

(** A header belongs to a large block of its own, or to a slot of a slab. *)
Definition header_wf w (h : Z) (hd : slab_object_header) : Prop :=
  magic hd = SLAB_MAGIC ∧
  ((class_idx hd = SLAB_BIG_CLASS ∧ (∃ k, al_live (below w) !! h = Some k ∧ 24 < k) ∧
    ∀ a v, slab_at w !! a = Some v → raw_page v ≠ h ∧ a ≠ h) ∨
   (∃ v X i, slab_at w !! hslab hd = Some v ∧ slab_wf w (class_idx hd) (hslab hd) v X ∧
      0 ≤ i < ccount (class_idx hd) ∧ h = page v + i * csz (class_idx hd))).

(** The list of slabs from [s]. *)
Fixpoint chain w (c s : Z) (l : list Z) : Prop :=
  match l with
  | [] => s = 0
  | a :: l' => s = a ∧ ∃ v, slab_at w !! a = Some v ∧
                 header_at w !! page v = Some (MkHeader SLAB_MAGIC c a) ∧ chain w c (snext v) l'
  end.

Record slab_ok w : Prop := {
  so_below : al_ok (below w);
  so_blocks : blocks_ok (al_live (below w));
  so_slab a v : slab_at w !! a = Some v → ∃ c X, slab_wf w c a v X;
  so_raw a b v u : slab_at w !! a = Some v → slab_at w !! b = Some u → raw_page v = raw_page u → a = b;
  so_header h hd : header_at w !! h = Some hd → header_wf w h hd;
  so_chain c : 0 ≤ c < 10 →
    ∃ s l, slab_classes w !! Z.to_nat c = Some s ∧ chain w c s l ∧ NoDup l;
}.

(** *** The live objects *)
Definition live_size w (h : Z) (hd : slab_object_header) : option Z :=
  if class_idx hd =? SLAB_BIG_CLASS then k ← al_live (below w) !! h; Some (k - SIZEOF_OBJECT_HEADER)
  else
    v ← slab_at w !! hslab hd;
    cs ← slab_class_sizes !! Z.to_nat (class_idx hd);
    match bitmap_get (Some (bitmap v)) ((h - page v) / cs) with
    | Ret true => Some (cs - SIZEOF_OBJECT_HEADER)
    | _ => None
    end.
Definition slab_live w : gmap Z Z :=
  kmap (λ h, h + SIZEOF_OBJECT_HEADER) (map_imap (live_size w) (header_at w)).

#[local] Instance add_header_inj : Inj (=) (=) (λ h, h + SIZEOF_OBJECT_HEADER).
Proof. intros x y Hxy. cbn in Hxy. lia. Qed.

Lemma live_lookup w p : slab_live w !! p = header_at w !! (p - 24) ≫= live_size w (p - 24).
Proof.
  unfold slab_live. replace p with ((p - 24) + SIZEOF_OBJECT_HEADER) at 1 by (unfold SIZEOF_OBJECT_HEADER; lia).
  rewrite (lookup_kmap (M1 := gmap Z) (M2 := gmap Z) (λ h, h + SIZEOF_OBJECT_HEADER)).
  apply map_lookup_imap.
Qed.

(** The room of a header: what it and its object occupy. *)
Definition room w (hd : slab_object_header) (h : Z) : Z :=
  if class_idx hd =? SLAB_BIG_CLASS then default 0 (al_live (below w) !! h) else csz (class_idx hd).

Lemma class_not_big c : 0 ≤ c < 10 → (c =? SLAB_BIG_CLASS) = false.
Proof. intros. apply Z.eqb_neq. unfold SLAB_BIG_CLASS, UINT64_MAX. lia. Qed.

Lemma slot_bounds w c a v X i :
  blocks_ok (al_live (below w)) → slab_wf w c a v X → 0 ≤ i < ccount c →
  ∃ k, al_live (below w) !! raw_page v = Some k ∧ raw_page v ≤ page v + i * csz c ∧
    page v + i * csz c + csz c ≤ raw_page v + k ∧ 0 < raw_page v ∧ raw_page v + k ≤ 2 ^ 64.
Proof.
  intros Hb [Hc _ _ _ _ (k & Hk & H1 & H2) _] Hi. exists k. split; [done|].
  destruct (class_geometry c Hc) as (_ & _ & _ & Hg & _ & Hs & _). destruct (bo_range _ Hb _ _ Hk) as (? & ? & ?).
  assert (i * csz c + csz c ≤ cbytes c) by (rewrite <- Hg; nia). split; [nia|]. lia.
Qed.

(** A header and its object lie in a live block below. *)
Lemma header_block w h hd :
  slab_ok w → header_at w !! h = Some hd →
  ∃ q k, al_live (below w) !! q = Some k ∧ q ≤ h ∧ h + room w hd h ≤ q + k ∧ 24 < room w hd h ∧
    (if class_idx hd =? SLAB_BIG_CLASS then q = h ∧ ∀ a v, slab_at w !! a = Some v → raw_page v ≠ h
     else ∃ v, slab_at w !! hslab hd = Some v ∧ q = raw_page v).
Proof.
  intros Hok Hh. destruct (so_header _ Hok _ _ Hh) as [_ [(Hbig & (k & Hk & Hk24) & Hn)|(v & X & i & Hv & Hwf & Hi & ->)]].
  - exists h, k. unfold room. rewrite Hbig, Z.eqb_refl, Hk. cbn. split_and!; try done; try lia.
    intros a v Hv. by destruct (Hn a v Hv).
  - destruct (slot_bounds _ _ _ _ _ _ (so_blocks _ Hok) Hwf Hi) as (k & Hk & ? & ? & _).
    pose proof (sw_class _ _ _ _ _ Hwf) as Hc. destruct (class_geometry _ Hc) as (_ & _ & _ & _ & _ & ? & _).
    exists (raw_page v), k. unfold room. rewrite class_not_big by done. split_and!; try done; try lia. by exists v.
Qed.

(** Two headers share no byte, nor do their objects. *)
Lemma rooms_apart w h1 h2 d1 d2 :
  slab_ok w → header_at w !! h1 = Some d1 → header_at w !! h2 = Some d2 → h1 ≠ h2 →
  h1 + room w d1 h1 ≤ h2 ∨ h2 + room w d2 h2 ≤ h1.
Proof.
  intros Hok H1 H2 Hne.
  destruct (header_block _ _ _ Hok H1) as (q1 & k1 & Hq1 & Hl1 & Hu1 & Hr1 & Hc1).
  destruct (header_block _ _ _ Hok H2) as (q2 & k2 & Hq2 & Hl2 & Hu2 & Hr2 & Hc2).
  destruct (decide (q1 = q2)) as [->|Hq]; [|destruct (bo_apart _ (so_blocks _ Hok) _ _ _ _ Hq1 Hq2 Hq); lia].
  destruct (class_idx d1 =? SLAB_BIG_CLASS) eqn:E1, (class_idx d2 =? SLAB_BIG_CLASS) eqn:E2.
  - lia.
  - destruct Hc1 as [-> Hn], Hc2 as (v & Hv & Hr). by destruct (Hn _ _ Hv).
  - destruct Hc2 as [-> Hn], Hc1 as (v & Hv & Hr). by destruct (Hn _ _ Hv).
  - unfold room. rewrite E1, E2.
    destruct (so_header _ Hok _ _ H1) as [_ [(Hb & _)|(v & X & i & Hv & Hwf & Hi & ->)]];
      [by rewrite Hb, Z.eqb_refl in E1|].
    destruct (so_header _ Hok _ _ H2) as [_ [(Hb & _)|(v' & X' & j & Hv' & Hwf' & Hj & ->)]];
      [by rewrite Hb, Z.eqb_refl in E2|].
    destruct Hc1 as (u & Hu & ->), Hc2 as (u' & Hu' & Hraw). rewrite Hv in Hu. rewrite Hv' in Hu'. simplify_eq.
    assert (hslab d1 = hslab d2) as Es by (eapply (so_raw _ Hok); eauto).
    rewrite Es in Hv. rewrite Hv in Hv'. simplify_eq.
    assert (class_idx d1 = class_idx d2) as Ec.
    { pose proof (sw_headers _ _ _ _ _ Hwf 0) as Ha. pose proof (sw_headers _ _ _ _ _ Hwf' 0) as Hb.
      rewrite !Z.mul_0_l, !Z.add_0_r in *. rewrite Ha in Hb by lia.
      specialize (Hb ltac:(lia)). by simplify_eq. }
    rewrite Ec in *. pose proof (sw_class _ _ _ _ _ Hwf') as Hc.
    destruct (class_geometry _ Hc) as (_ & _ & _ & _ & _ & ? & _).
    assert (i ≠ j) by congruence. nia.
Qed.
End spec.

(** ** The allocator below *)
Section below.
Context {A : Type} {alloc_A : Allocator A} {laws_A : AllocatorLaws (2 ^ 62) A}.
Abbreviation W := (slabs A).
Implicit Types (w : W).

Lemma set_below_twice w a b : set_below b (set_below a w) = set_below b w.
Proof. done. Qed.

Lemma wp_malloc w n (Q : Z → W → Prop) :
  al_ok (below w) → 0 < n < 2 ^ 62 →
  (∀ p a, al_ok a → took (al_live (below w)) p n (al_live a) → Q p (set_below a w)) → wp (malloc n) Q w.
Proof using laws_A.
  intros Hok Hn HQ. destruct (al_alloc_law (below w) n Hok Hn) as (p & a & Hr & Hok' & Hcase).
  unfold wp, malloc. rewrite Hr. cbn. by apply HQ.
Qed.
Lemma wp_mfree w p (Q : unit → W → Prop) :
  al_ok (below w) → p = 0 ∨ is_Some (al_live (below w) !! p) →
  (∀ a, al_ok a → al_live a = undo p (al_live (below w)) → Q tt (set_below a w)) → wp (mfree p) Q w.
Proof using laws_A.
  intros Hok Hp HQ. unfold wp, mfree. destruct (Z.eq_dec p 0) as [->|Hne].
  { rewrite al_free_null. cbn. by apply HQ. }
  destruct Hp as [?|[k Hk]]; [done|]. destruct (al_free_law (below w) p k Hok Hk) as (a & Hr & Hok' & Hl).
  rewrite Hr. cbn. apply HQ; [done|]. unfold undo. by rewrite (proj2 (Z.eqb_neq p 0)).
Qed.

End below.

(** ** Growing *)
Section grow.
Context {A : Type} {alloc_A : Allocator A} {laws_A : AllocatorLaws (2 ^ 62) A}.
Abbreviation W := (slabs A).
Implicit Types (w : W).

Definition live_in w w' : Prop :=
  ∀ q k, al_live (below w) !! q = Some k → al_live (below w') !! q = Some k.
Definition headers_in w w' : Prop := ∀ h hd, header_at w !! h = Some hd → header_at w' !! h = Some hd.

Lemma wf_mono w w' c a v X : slab_wf w c a v X → live_in w w' → headers_in w w' → slab_wf w' c a v X.
Proof.
  intros [? ? ? ? [j Hj] (k & Hk & ?) Hh] Hl Hi. split; try done.
  - exists j. by apply Hl.
  - exists k. split; [by apply Hl|done].
  - intros i Hr. by apply Hi, Hh.
Qed.
Lemma chain_mono w w' c s l :
  chain w c s l → (∀ a, a ∈ l → slab_at w' !! a = slab_at w !! a) → headers_in w w' → chain w' c s l.
Proof.
  revert s. induction l as [|a l IH]; intros s; [done|]. cbn [chain]. intros (-> & v & Hv & Hh & Hc) Hs Hi.
  split; [done|]. exists v. split; [by rewrite Hs by set_solver|]. split; [by apply Hi|].
  apply IH; [done| |done]. intros b Hb. apply Hs. set_solver.
Qed.

Lemma live_big w h hd : slab_ok w → header_at w !! h = Some hd → class_idx hd = SLAB_BIG_CLASS →
  is_Some (al_live (below w) !! h).
Proof.
  intros Hok Hh Hb. destruct (so_header _ Hok _ _ Hh) as [_ [(_ & (k & Hk & _) & _)|(v & X & i & _ & Hwf & _)]];
    [by eexists|].
  pose proof (sw_class _ _ _ _ _ Hwf) as Hc. rewrite Hb in Hc. unfold SLAB_BIG_CLASS, UINT64_MAX in Hc. lia.
Qed.
Lemma header_slab w h hd : slab_ok w → header_at w !! h = Some hd → class_idx hd ≠ SLAB_BIG_CLASS →
  is_Some (slab_at w !! hslab hd).
Proof.
  intros Hok Hh Hb. destruct (so_header _ Hok _ _ Hh) as [_ [(? & _)|(v & X & i & Hv & _)]]; [done|by eexists].
Qed.

(** More blocks below change nothing here. *)
Lemma slab_ok_below w a :
  slab_ok w → al_ok a → blocks_ok (al_live a) → live_in w (set_below a w) →
  slab_ok (set_below a w) ∧ slab_live (set_below a w) = slab_live w.
Proof.
  intros Hok Hal Hb Hin. assert (headers_in w (set_below a w)) as Hh by (intros ? ? ?; done). split.
  - destruct Hok as [_ _ Hs Hr Hhd Hc]. split; try done.
    + intros b v Hv. destruct (Hs b v Hv) as (c & X & Hwf). exists c, X. by eapply wf_mono.
    + intros h hd Hhh. destruct (Hhd h hd Hhh) as [Hm [(Hbig & (k & Hk & ?) & Hn)|(v & X & i & Hv & Hwf & ?)]];
        (split; [done|]).
      * left. split; [done|]. split; [|done]. exists k. split; [by apply Hin|done].
      * right. exists v, X, i. split; [done|]. split; [by eapply wf_mono|done].
    + intros c Hc'. destruct (Hc c Hc') as (s & l & Hl & Hch & Hnd). exists s, l. split; [done|]. split; [|done].
      by eapply chain_mono.
  - apply map_eq. intros p. rewrite !live_lookup. cbn [header_at set_below].
    destruct (header_at w !! (p - 24)) as [hd|] eqn:Ehd; [|done]. cbn. unfold live_size.
    destruct (Z.eqb_spec (class_idx hd) SLAB_BIG_CLASS) as [Hbig|]; [|done].
    destruct (live_big _ _ _ Hok Ehd Hbig) as [k Hk]. rewrite Hk. by rewrite (Hin _ _ Hk).
Qed.

Lemma wp_header_loop n w i pg cs c s (Q : unit → W → Prop) :
  0 ≤ pg → 0 ≤ i → 0 < cs → pg + (i + Z.of_nat n) * cs ≤ 2 ^ 64 →
  (∀ m, (∀ j, i ≤ j < i + Z.of_nat n → m !! (pg + j * cs) = Some (MkHeader SLAB_MAGIC c s)) →
        (∀ h, (∀ j, i ≤ j < i + Z.of_nat n → h ≠ pg + j * cs) → m !! h = header_at w !! h) →
        Q tt (set_header_at m w)) →
  wp (header_loop n i pg cs c s) Q w.
Proof.
  intros Hpg. revert i w. induction n as [|n IH]; intros i w Hi Hcs Hend HQ.
  { apply wp_ret. replace w with (set_header_at (header_at w) w) by (by destruct w).
    apply HQ; [lia|done]. }
  cbn [header_loop]. apply wp_bind. unfold store_header. apply wp_modify.
  rewrite u64_small by (unfold is_u64; nia). apply IH; [lia|done|nia|]. intros m Hm1 Hm2.
  cbn [header_at set_header_at] in Hm2.
  change (Q tt (set_header_at m w)). apply HQ.
  - intros j Hj. destruct (Z.eq_dec j i) as [->|]; [|apply Hm1; lia].
    rewrite Hm2 by (intros; nia). by rewrite lookup_insert_eq.
  - intros h Hh. rewrite Hm2 by (intros j Hj; apply Hh; lia).
    rewrite lookup_insert_ne; [done|]. intros <-. apply (Hh i); lia.
Qed.

(** A new slab, all slots free. *)
Record grown w w' (c s : Z) (v : slab) : Prop := {
  gr_al : al_ok (below w');
  gr_blocks : blocks_ok (al_live (below w'));
  gr_live : live_in w w';
  gr_fresh : al_live (below w) !! s = None ∧ al_live (below w) !! raw_page v = None;
  gr_slab : slab_at w' = <[s := v]> (slab_at w);
  gr_wf : slab_wf w' c s v ∅;
  gr_other h : (∀ j, 0 ≤ j < ccount c → h ≠ page v + j * csz c) → header_at w' !! h = header_at w !! h;
  gr_classes : slab_classes w' = <[Z.to_nat c := s]> (slab_classes w);
  gr_next : slab_classes w !! Z.to_nat c = Some (snext v);
  gr_rflags : rflags_ w' = rflags_ w;
}.

Lemma grown_old_header w w' c s v h hd :
  slab_ok w → grown w w' c s v → header_at w !! h = Some hd → ∀ j, 0 ≤ j < ccount c → h ≠ page v + j * csz c.
Proof.
  intros Hok Hg Hh j Hj ->. destruct (header_block _ _ _ Hok Hh) as (q & k & Hq & Hlo & Hhi & Hr & _).
  destruct (slot_bounds _ _ _ _ _ _ (gr_blocks _ _ _ _ _ Hg) (gr_wf _ _ _ _ _ Hg) Hj) as (k' & Hk' & ? & ? & _).
  pose proof (gr_live _ _ _ _ _ Hg _ _ Hq) as Hq'. destruct (gr_fresh _ _ _ _ _ Hg) as [_ Hraw].
  assert (q ≠ raw_page v) as Hne by congruence.
  pose proof (sw_class _ _ _ _ _ (gr_wf _ _ _ _ _ Hg)) as Hc.
  destruct (class_geometry _ Hc) as (_ & _ & _ & _ & _ & ? & _).
  destruct (bo_apart _ (gr_blocks _ _ _ _ _ Hg) _ _ _ _ Hq' Hk' Hne); lia.
Qed.
Lemma grown_headers w w' c s v : slab_ok w → grown w w' c s v → headers_in w w'.
Proof. intros Hok Hg h hd Hh. rewrite (gr_other _ _ _ _ _ Hg); [done|]. by eapply grown_old_header. Qed.
Lemma grown_fresh_slab w w' c s v : slab_ok w → grown w w' c s v → slab_at w !! s = None.
Proof.
  intros Hok Hg. destruct (slab_at w !! s) as [u|] eqn:E; [|done].
  destruct (so_slab _ Hok _ _ E) as (c' & X & Hwf). destruct (sw_self _ _ _ _ _ Hwf) as [k Hk].
  destruct (gr_fresh _ _ _ _ _ Hg). congruence.
Qed.

Lemma slab_raw_live w a v : slab_ok w → slab_at w !! a = Some v → is_Some (al_live (below w) !! raw_page v).
Proof.
  intros Hok Hv. destruct (so_slab _ Hok _ _ Hv) as (c & X & Hwf).
  destruct (sw_page _ _ _ _ _ Hwf) as (k & Hk & _). by eexists.
Qed.

Lemma grown_ok w w' c s v : slab_ok w → s ≠ 0 → grown w w' c s v → slab_ok w'.
Proof.
  intros Hok Hs0 Hg. pose proof (grown_headers _ _ _ _ _ Hok Hg) as Hh.
  pose proof (grown_fresh_slab _ _ _ _ _ Hok Hg) as Hsn. pose proof (gr_live _ _ _ _ _ Hg) as Hl.
  pose proof (gr_wf _ _ _ _ _ Hg) as Hwf. destruct (gr_fresh _ _ _ _ _ Hg) as [Hf1 Hf2].
  split; [apply Hg|apply Hg| | | |].
  - intros a u. rewrite (gr_slab _ _ _ _ _ Hg). intros [[<- <-]|[_ Hu]]%lookup_insert_Some; [by exists c, ∅|].
    destruct (so_slab _ Hok _ _ Hu) as (c' & X & Hwf'). exists c', X. by eapply wf_mono.
  - intros a b u u'. rewrite (gr_slab _ _ _ _ _ Hg).
    intros [[<- <-]|[Hne Hu]]%lookup_insert_Some [[<- <-]|[Hne' Hu']]%lookup_insert_Some Hraw; try done.
    + destruct (slab_raw_live _ _ _ Hok Hu') as [k Hk]. rewrite <- Hraw in Hk. congruence.
    + destruct (slab_raw_live _ _ _ Hok Hu) as [k Hk]. rewrite Hraw in Hk. congruence.
    + by eapply (so_raw _ Hok).
  - intros h hd Hhd.
    destruct (decide (Exists (λ j, h = page v + j * csz c) (seqZ 0 (ccount c)))) as [He|Hne].
    + apply Exists_exists in He as (j & Hj & ->). apply elem_of_seqZ in Hj.
      rewrite (sw_headers _ _ _ _ _ Hwf j ltac:(lia)) in Hhd. injection Hhd as <-. split; [done|]. right.
      exists v, ∅, j. rewrite (gr_slab _ _ _ _ _ Hg). cbn [hslab class_idx]. rewrite lookup_insert_eq.
      split_and!; try done; lia.
    + rewrite (gr_other _ _ _ _ _ Hg) in Hhd.
      2:{ intros j Hj ->. apply Hne, Exists_exists. exists j. split; [|done]. apply elem_of_seqZ. lia. }
      destruct (so_header _ Hok _ _ Hhd) as [Hm [(Hbig & (k & Hk & ?) & Hn)|(u & X & i & Hu & Hwf' & ?)]];
        (split; [done|]).
      * left. split; [done|]. split; [exists k; split; [by apply Hl|done]|].
        intros a u. rewrite (gr_slab _ _ _ _ _ Hg). intros [[<- <-]|[_ Hu]]%lookup_insert_Some; [|by apply Hn].
        split; congruence.
      * right. exists u, X, i. rewrite (gr_slab _ _ _ _ _ Hg). rewrite lookup_insert_ne by congruence.
        split; [done|]. split; [by eapply wf_mono|done].
  - intros c' Hc'. destruct (so_chain _ Hok c' Hc') as (s' & l & Hs' & Hch & Hnd).
    assert (s ∉ l) as Hsl.
    { clear -Hch Hsn. revert s' Hch. induction l as [|a l IH]; intros s'; [set_solver|]. cbn [chain].
      intros (_ & u & Hu & _ & Hch). apply not_elem_of_cons. split; [congruence|by eapply IH]. }
    assert (chain w' c' s' l) as Hch'.
    { eapply chain_mono; [done| |done]. intros a Ha. rewrite (gr_slab _ _ _ _ _ Hg).
      rewrite lookup_insert_ne; [done|]. congruence. }
    rewrite (gr_classes _ _ _ _ _ Hg). destruct (decide (c' = c)) as [->|Hne].
    + exists s, (s :: l). rewrite list_lookup_insert_eq by (by eapply lookup_lt_Some). split; [done|].
      split; [|by constructor]. cbn [chain]. split; [done|]. exists v. rewrite (gr_slab _ _ _ _ _ Hg).
      rewrite lookup_insert_eq. split; [done|]. split.
      * pose proof (sw_headers _ _ _ _ _ Hwf 0) as H0. rewrite Z.mul_0_l, Z.add_0_r in H0. apply H0.
        destruct (class_geometry _ Hc') as (_ & _ & _ & _ & ? & _). lia.
      * rewrite (gr_next _ _ _ _ _ Hg) in Hs'. by simplify_eq.
    + exists s', l. rewrite list_lookup_insert_ne; [done|].
      pose proof (sw_class _ _ _ _ _ Hwf). lia.
Qed.

Lemma empty_bit v c i : bm_rep (bitmap v) c ∅ → 0 ≤ i → bitmap_get (Some (bitmap v)) i = Ret false.
Proof. intros Hb Hi. by rewrite (get_rep _ _ _ Hb) by done. Qed.

Lemma grown_live w w' c s v : slab_ok w → grown w w' c s v → slab_live w' = slab_live w.
Proof.
  intros Hok Hg. apply map_eq. intros p. rewrite !live_lookup. set (h := p - 24).
  pose proof (gr_wf _ _ _ _ _ Hg) as Hwf. pose proof (sw_class _ _ _ _ _ Hwf) as Hc.
  destruct (decide (Exists (λ j, h = page v + j * csz c) (seqZ 0 (ccount c)))) as [He|Hne].
  - apply Exists_exists in He as (j & Ej & Hj). apply elem_of_seqZ in Ej.
    assert (header_at w !! h = None) as ->.
    { destruct (header_at w !! h) as [hd|] eqn:E; [|done].
      by destruct (grown_old_header _ _ _ _ _ _ _ Hok Hg E j ltac:(lia)). }
    rewrite Hj, (sw_headers _ _ _ _ _ Hwf j) by lia. cbn [mbind option_bind]. unfold live_size. cbn [class_idx hslab].
    rewrite class_not_big by done. rewrite (gr_slab _ _ _ _ _ Hg), lookup_insert_eq. cbn [mbind option_bind].
    destruct (class_geometry _ Hc) as (_ & -> & _ & _ & _ & Hs & _). cbn [mbind option_bind].
    rewrite (empty_bit _ _ _ (sw_bitmap _ _ _ _ _ Hwf)); [done|]. apply Z.div_pos; nia.
  - rewrite (gr_other _ _ _ _ _ Hg).
    2:{ intros j Hj Ej. apply Hne, Exists_exists. exists j. split; [|done]. apply elem_of_seqZ. lia. }
    destruct (header_at w !! h) as [hd|] eqn:E; [|done]. cbn. unfold live_size.
    destruct (Z.eqb_spec (class_idx hd) SLAB_BIG_CLASS) as [Hb|Hb].
    + destruct (live_big _ _ _ Hok E Hb) as [k Hk]. by rewrite Hk, (gr_live _ _ _ _ _ Hg _ _ Hk).
    + destruct (header_slab _ _ _ Hok E Hb) as [u Hu]. rewrite (gr_slab _ _ _ _ _ Hg).
      rewrite lookup_insert_ne; [done|]. intros ->. by rewrite (grown_fresh_slab _ _ _ _ _ Hok Hg) in Hu.
Qed.

Lemma align_up_8 a : 0 ≤ a ≤ 2 ^ 64 - 8 → a ≤ slab_align_up a 8 ≤ a + 7.
Proof.
  intros Ha. unfold slab_align_up. rewrite (u64_small (a + 8 - 1)) by (unfold is_u64; lia).
  change (8 - 1) with (2 ^ 3 - 1). rewrite land_high_mask by (unfold is_u64; lia). zdiv.
Qed.

Lemma wp_slab_grow w c (Q : Z → W → Prop) :
  slab_ok w → 0 ≤ c < 10 →
  (∀ w', slab_ok w' → slab_live w' = slab_live w → rflags_ w' = rflags_ w → Q 0 w') →
  (∀ s v w', s ≠ 0 → grown w w' c s v → slab_at w' !! s = Some v → Q s w') →
  wp (slab_grow c) Q w.
Proof using laws_A.
  intros Hok Hc H0 H1. destruct (class_geometry _ Hc) as (Ecs & _ & (pg & Epg & Eb) & Hg & Hn & Hs & Hb & Hst & Est).
  pose proof (so_blocks _ Hok) as Hblk. pose proof (so_below _ Hok) as Hal.
  destruct (so_chain _ Hok c Hc) as (nx & l & Hnx & _ & _).
  unfold slab_grow, SIZEOF_SLAB, SLAB_PAGE_SIZE, SIZEOF_UINTPTR.
  apply wp_bind. eapply wp_lift; [exact Epg|]. rewrite Eb, (u64_small (cbytes c)) by (unfold is_u64, cbytes; lia).
  rewrite (u64_small (cbytes c + 8 - 1)) by (unfold is_u64, cbytes; lia).
  apply wp_bind. eapply wp_lift; [exact Ecs|]. fold (ccount c).
  apply wp_bind, wp_malloc; [done|lia|]. intros s a1 Hal1 T1.
  apply wp_bind, wp_malloc; [done|zdiv|]. intros sp a2 Hal2 T2. cbn [below set_below] in T2.
  apply wp_bind, wp_malloc; [done|unfold cbytes in *; lia|]. intros raw a3 Hal3 T3. cbn [below set_below] in T3.
  rewrite !set_below_twice.
  pose proof (took_blocks _ _ _ _ Hblk T1 ltac:(lia)) as B1.
  pose proof (took_blocks _ _ _ _ B1 T2 ltac:(lia)) as B2.
  pose proof (took_blocks _ _ _ _ B2 T3 ltac:(unfold cbytes; lia)) as B3.
  destruct (_ || _) eqn:Enull.
  - destruct (give_back_three _ _ _ _ _ _ _ _ _ _ T1 T2 T3) as (F1 & F2 & F3 & Eback).
    apply wp_bind, wp_mfree; [done|done|]. intros a4 Hal4 L4. cbn [below set_below] in L4.
    apply wp_bind, wp_mfree; [done|cbn [below set_below]; by rewrite L4|]. intros a5 Hal5 L5. cbn [below set_below] in L5.
    apply wp_bind, wp_mfree; [done|cbn [below set_below]; by rewrite L5, L4|]. intros a6 Hal6 L6. cbn [below set_below] in L6.
    rewrite !set_below_twice. apply wp_ret. rewrite L5, L4, Eback in L6.
    destruct (slab_ok_below w a6 Hok Hal6) as [Hok' Hl']; [by rewrite L6| |by apply H0].
    intros q k Hq. cbn [below set_below]. by rewrite L6.
  - apply orb_false_iff in Enull as [[Hs0 Hsp0]%orb_false_iff Hr0].
    apply Z.eqb_neq in Hs0, Hsp0, Hr0.
    pose proof T1 as T1'. pose proof T2 as T2'. pose proof T3 as T3'.
    destruct T1 as [[? _]|(k1 & P1 & G1 & E1 & N1 & F1 & L1)]; [done|].
    destruct T2 as [[? _]|(k2 & P2 & G2 & E2 & N2 & F2 & L2)]; [done|].
    destruct T3 as [[? _]|(k3 & P3 & G3 & E3 & N3 & F3 & L3)]; [done|].
    pose proof (align_up_8 raw ltac:(unfold cbytes in *; lia)) as Hal8.
    destruct (init_rep zero_bitmap (replicate (Z.to_nat (bitmap_storage_size (ccount c))) 0) (ccount c) false)
      as (b & Hinit & Hrep); [lia|rewrite length_replicate; lia|].
    apply wp_bind. eapply wp_lift; [exact Hinit|]. apply wp_bind. eapply wp_lift; [done|].
    apply wp_bind. unfold class_head. apply wp_bind, wp_gets. cbn [slab_classes set_below]. rewrite Hnx.
    eapply wp_lift; [done|].
    apply wp_bind. unfold store_slab. apply wp_modify. cbn [slab_at set_below].
    apply wp_bind. apply wp_header_loop; [lia|lia|lia|rewrite Z.add_0_l, Z2Nat.id, Hg by lia; lia|].
    rewrite Z.add_0_l, Z2Nat.id by lia. intros m Hm1 Hm2. apply wp_bind, wp_gets.
    apply wp_bind, wp_modify, wp_ret.
    eapply (H1 _ (MkSlab raw (slab_align_up raw 8) b nx (ccount c) (ccount c))); [done| |cbn; by rewrite lookup_insert_eq].
    split; cbn [below header_at slab_at slab_classes rflags_ set_classes set_header_at set_slab_at set_below raw_page page snext];
      try done.
    + intros q k Hq. cbn. exact (took_mono _ _ _ _ _ _ T3' (took_mono _ _ _ _ _ _ T2' (took_mono _ _ _ _ _ _ T1' Hq))).
    + split; [done|]. rewrite L2, L1 in N3. by apply lookup_insert_None in N3 as [[N3 _]%lookup_insert_None _].
    + split; cbn [bitmap object_count free_count raw_page page below header_at]; try done.
      * rewrite size_empty. lia.
      * exists k1. apply (took_mono _ _ _ _ _ _ T3'), (took_mono _ _ _ _ _ _ T2'). rewrite L1. apply lookup_insert_eq.
      * exists k3. cbn. rewrite L3, lookup_insert_eq. split; [done|]. lia.
Qed.
End grow.

(** ** Slots *)
Section slots.
Context {A : Type} {alloc_A : Allocator A} {laws_A : AllocatorLaws (2 ^ 62) A}.
Abbreviation W := (slabs A).
Implicit Types (w : W).

Lemma rep_unique b n X Y : bm_rep b n X → bm_rep b n Y → X = Y.
Proof.
  intros HX HY. apply set_eq. intros i.
  assert (0 ≤ i → i ∈ X ↔ i ∈ Y) as Hbits.
  { intros Hi. pose proof (get_rep _ _ _ HX i Hi) as H1. rewrite (get_rep _ _ _ HY i Hi) in H1.
    injection H1 as H1. by repeat case_bool_decide. }
  pose proof HX as (_ & RX & _). pose proof HY as (_ & RY & _).
  split; intros Hi; (apply Hbits; [|done]); [apply RX in Hi|apply RY in Hi]; lia.
Qed.
Lemma wf_class w c c' a v X X' : slab_wf w c a v X → slab_wf w c' a v X' → c' = c.
Proof.
  intros H H'. pose proof (sw_headers _ _ _ _ _ H 0) as Ha. pose proof (sw_headers _ _ _ _ _ H' 0) as Hb.
  destruct (class_geometry _ (sw_class _ _ _ _ _ H)) as (_ & _ & _ & _ & ? & _).
  destruct (class_geometry _ (sw_class _ _ _ _ _ H')) as (_ & _ & _ & _ & ? & _).
  rewrite !Z.mul_0_l, !Z.add_0_r in *. rewrite Ha in Hb by lia. specialize (Hb ltac:(lia)). by simplify_eq.
Qed.

(** The slab [s] with another set of slots in use. *)
Definition with_slots (v : slab) (b : bitmap_t) (f : Z) : slab :=
  MkSlab (raw_page v) (page v) b (snext v) (object_count v) f.
Definition updated w (s : Z) (v : slab) : W := set_slab_at (<[s := v]> (slab_at w)) w.

Section update.
Context (w : W) (c s : Z) (v : slab) (X X' : gset Z) (b : bitmap_t).
Context (Hok : slab_ok w) (Hv : slab_at w !! s = Some v) (Hwf : slab_wf w c s v X).
Context (Hb : bm_rep b (ccount c) X').
Let v' := with_slots v b (ccount c - Z.of_nat (size X')).
Let w' := updated w s v'.

Lemma update_wf : slab_wf w' c s v' X'.
Proof using Hwf Hb. destruct Hwf. by split. Qed.

Lemma update_other c' a u Y : slab_wf w c' a u Y → slab_wf w' c' a u Y.
Proof using. intros [? ? ? ? ? ? ?]. by split. Qed.

Lemma update_chain c' t l : chain w c' t l → chain w' c' t l.
Proof using Hv.
  revert t. induction l as [|a l IH]; intros t; [done|]. cbn [chain]. intros (-> & u & Hu & Hh & Hc).
  split; [done|]. cbn [slab_at w' updated set_slab_at header_at]. destruct (decide (a = s)) as [->|Hne].
  - rewrite Hv in Hu. injection Hu as <-. exists v'. rewrite lookup_insert_eq. split; [done|]. split; [done|by apply IH].
  - exists u. rewrite lookup_insert_ne by done. split; [done|]. split; [done|by apply IH].
Qed.

Lemma update_ok : slab_ok w'.
Proof using Hok Hv Hwf Hb.
  pose proof Hok as [Hal Hbk Hs Hr Hh Hc].
  assert (slab_at w' = <[s := v']> (slab_at w)) as Ew by done. split; [done|done| | | |]; rewrite ?Ew.
  - intros a u [[<- <-]|[_ Hu]]%lookup_insert_Some; [exists c, X'; apply update_wf|].
    destruct (Hs a u Hu) as (c' & Y & Hwf'). exists c', Y. by apply update_other.
  - intros a a' u u' Ha Ha' Hraw.
    assert (∃ x, slab_at w !! a = Some x ∧ raw_page x = raw_page u) as (x & Hx & Ex).
    { apply lookup_insert_Some in Ha as [[<- <-]|[_ ?]]; [by exists v|by exists u]. }
    assert (∃ x, slab_at w !! a' = Some x ∧ raw_page x = raw_page u') as (x' & Hx' & Ex').
    { apply lookup_insert_Some in Ha' as [[<- <-]|[_ ?]]; [by exists v|by exists u']. }
    eapply Hr; [done|done|congruence].
  - intros h hd Hhd. destruct (Hh h hd Hhd) as [Hm [(Hbig & Hk & Hn)|(u & Y & i & Hu & Hwf' & Hi & ->)]]; (split; [done|]).
    + left. split; [done|]. split; [done|]. intros a u. rewrite Ew.
      intros [[<- <-]|[_ Hu]]%lookup_insert_Some; [apply (Hn s v Hv)|by apply Hn].
    + right. cbn [slab_at w' updated set_slab_at]. destruct (decide (hslab hd = s)) as [Es|Hne].
      * rewrite Es in *. rewrite Hv in Hu. injection Hu as <-. pose proof (wf_class _ _ _ _ _ _ _ Hwf Hwf') as Ec.
        rewrite Ec in *. exists v', X', i. rewrite lookup_insert_eq. split; [done|]. split; [apply update_wf|done].
      * exists u, Y, i. rewrite lookup_insert_ne by done. split; [done|]. split; [by apply update_other|done].
  - intros c' Hc'. destruct (Hc c' Hc') as (t & l & Ht & Hch & Hnd). exists t, l. split; [done|].
    split; [by apply update_chain|done].
Qed.

Lemma slot_index i : 0 ≤ i < ccount c → (page v + i * csz c - page v) / csz c = i.
Proof using Hwf.
  intros Hi. destruct (class_geometry _ (sw_class _ _ _ _ _ Hwf)) as (_ & _ & _ & _ & _ & ? & _).
  replace (page v + i * csz c - page v) with (i * csz c) by lia. apply Z.div_mul. lia.
Qed.

Lemma live_slot i : 0 ≤ i < ccount c →
  slab_live w !! (page v + i * csz c + 24) = if bool_decide (i ∈ X) then Some (csz c - 24) else None.
Proof using Hv Hwf.
  intros Hi. rewrite live_lookup. replace (page v + i * csz c + 24 - 24) with (page v + i * csz c) by lia.
  rewrite (sw_headers _ _ _ _ _ Hwf i Hi). cbn [mbind option_bind]. unfold live_size. cbn [class_idx hslab].
  pose proof (sw_class _ _ _ _ _ Hwf) as Hc.
  rewrite class_not_big, Hv by done. cbn [mbind option_bind].
  destruct (class_geometry _ Hc) as (_ & -> & _). cbn [mbind option_bind]. rewrite slot_index by done.
  rewrite (get_rep _ _ _ (sw_bitmap _ _ _ _ _ Hwf)) by lia. by destruct (bool_decide _).
Qed.

Lemma update_elsewhere i p :
  0 ≤ i < ccount c → (∀ j, j ≠ i → j ∈ X' ↔ j ∈ X) → p ≠ page v + i * csz c + 24 →
  slab_live w' !! p = slab_live w !! p.
Proof using Hok Hv Hwf Hb.
  intros Hi HX Hp. rewrite !live_lookup. change (header_at w') with (header_at w).
  destruct (header_at w !! (p - 24)) as [hd|] eqn:Ehd; [|done]. cbn [mbind option_bind]. unfold live_size.
  destruct (Z.eqb_spec (class_idx hd) SLAB_BIG_CLASS) as [|Hbig]; [done|].
  destruct (so_header _ Hok _ _ Ehd) as [_ [(? & _)|(u & Y & j & Hu & Hwf' & Hj & Eh)]]; [done|].
  cbn [slab_at w' updated set_slab_at]. destruct (decide (hslab hd = s)) as [Es|Hne];
    [|by rewrite lookup_insert_ne by done].
  rewrite Es in *. rewrite lookup_insert_eq, Hv in *. injection Hu as <-.
  pose proof (wf_class _ _ _ _ _ _ _ Hwf Hwf') as Ec. rewrite Ec in *. cbn [mbind option_bind].
  destruct (class_geometry _ (sw_class _ _ _ _ _ Hwf)) as (_ & -> & _). cbn [mbind option_bind].
  change (page v') with (page v). rewrite Eh, slot_index by done. cbn [bitmap v' with_slots].
  rewrite (get_rep _ _ _ Hb), (get_rep _ _ _ (sw_bitmap _ _ _ _ _ Hwf)) by lia.
  rewrite (bool_decide_ext (j ∈ X') (j ∈ X)); [done|]. apply HX. intros ->. lia.
Qed.
End update.

(** A live object fits its room. *)
Lemma live_room w p k : slab_ok w → slab_live w !! p = Some k →
  ∃ hd, header_at w !! (p - 24) = Some hd ∧ k = room w hd (p - 24) - 24.
Proof.
  intros Hok. rewrite live_lookup. destruct (header_at w !! (p - 24)) as [hd|] eqn:Eh; [|done].
  cbn [mbind option_bind]. intros Hk. exists hd. split; [done|]. unfold live_size, room in *.
  destruct (Z.eqb_spec (class_idx hd) SLAB_BIG_CLASS) as [|Hbig].
  - destruct (al_live (below w) !! (p - 24)) as [j|]; [|done]. by injection Hk as <-.
  - destruct (so_header _ Hok _ _ Eh) as [_ [(? & _)|(u & Y & j & Hu & Hwf' & Hj & _)]]; [done|].
    rewrite Hu in Hk. cbn [mbind option_bind] in Hk.
    destruct (class_geometry _ (sw_class _ _ _ _ _ Hwf')) as (_ & E & _). rewrite E in Hk. cbn [mbind option_bind] in Hk.
    destruct (bitmap_get _ _) as [[]| | |]; try done. by injection Hk as <-.
Qed.

Lemma fresh_room w h hd : slab_ok w → header_at w !! h = Some hd → slab_live w !! (h + 24) = None →
  block_fresh (h + 24) (room w hd h - 24) (slab_live w).
Proof.
  intros Hok Hh Hn q k Hq. destruct (live_room _ _ _ Hok Hq) as (hd' & Hh' & ->).
  destruct (decide (q = h + 24)) as [->|Hne]; [congruence|].
  destruct (rooms_apart _ _ _ _ _ Hok Hh Hh'); lia.
Qed.
End slots.

(** ** The calls *)
Section calls.
Context {A : Type} {alloc_A : Allocator A} {laws_A : AllocatorLaws (2 ^ 62) A}.
Abbreviation W := (slabs A).
Implicit Types (w : W).

Lemma size_range (X : gset Z) n : 0 ≤ n → (∀ i, i ∈ X → 0 ≤ i < n) → Z.of_nat (size X) ≤ n.
Proof.
  intros Hn HX. assert (X ⊆ list_to_set (seqZ 0 n)) as Hs%subseteq_size.
  { intros i Hi%HX. apply elem_of_list_to_set, elem_of_seqZ. lia. }
  rewrite size_list_to_set, length_seqZ in Hs by apply NoDup_seqZ. lia.
Qed.
Lemma wf_size w c a v X : slab_wf w c a v X → Z.of_nat (size X) ≤ ccount c.
Proof.
  intros Hwf. destruct (sw_bitmap _ _ _ _ _ Hwf) as (_ & HX & _).
  destruct (class_geometry _ (sw_class _ _ _ _ _ Hwf)) as (_ & _ & _ & _ & ? & _). by apply size_range; [lia|].
Qed.

Lemma wp_load_slab w s v (Q : slab → W → Prop) : slab_at w !! s = Some v → Q v w → wp (load_slab s) Q w.
Proof. intros Hv HQ. unfold load_slab. apply wp_bind, wp_gets. rewrite Hv. by eapply wp_lift. Qed.

Lemma wp_take_slot w c s v X i (Q : Z → W → Prop) :
  slab_ok w → slab_at w !! s = Some v → slab_wf w c s v X → 0 ≤ i < ccount c → i ∉ X →
  (∀ w', slab_ok w' → rflags_ w' = rflags_ w →
     slab_live w' = <[page v + i * csz c + 24 := csz c - 24]> (slab_live w) → Q (page v + i * csz c) w') →
  wp (take_slot s i (csz c)) Q w.
Proof.
  intros Hok Hv Hwf Hi HiX HQ. destruct (set_rep _ _ _ (sw_bitmap _ _ _ _ _ Hwf) i Hi) as (b & Hb & Hrep).
  destruct (slot_bounds _ _ _ _ _ _ (so_blocks _ Hok) Hwf Hi) as (k & _ & ? & ? & ? & ?).
  destruct (class_geometry _ (sw_class _ _ _ _ _ Hwf)) as (_ & _ & _ & _ & Hcc & Hcs & _).
  assert (Z.of_nat (size ({[i]} ∪ X)) = 1 + Z.of_nat (size X)) as Esz.
  { rewrite size_union, size_singleton by set_solver. lia. }
  pose proof (size_range ({[i]} ∪ X) (ccount c) ltac:(lia)) as Hle.
  rewrite Esz in Hle. specialize (Hle ltac:(destruct Hrep as (_ & HX & _); exact HX)).
  unfold take_slot. apply wp_bind. eapply wp_load_slab; [done|]. apply wp_bind. eapply wp_lift; [exact Hb|].
  cbn beta iota. apply wp_bind. eapply wp_lift; [done|]. apply wp_bind. unfold store_slab at 1. apply wp_modify.
  apply wp_bind. eapply wp_load_slab; [apply lookup_insert_eq|]. apply wp_bind. unfold store_slab. apply wp_modify.
  apply wp_ret. cbn [page]. rewrite u64_small by (unfold is_u64; nia).
  cbn [slab_at set_slab_at raw_page page bitmap snext object_count free_count].
  rewrite insert_insert_eq, (sw_free _ _ _ _ _ Hwf), u64_small by (unfold is_u64; lia).
  replace (ccount c - Z.of_nat (size X) - 1) with (ccount c - Z.of_nat (size ({[i]} ∪ X))) by lia.
  change (Q (page v + i * csz c) (updated w s (with_slots v b (ccount c - Z.of_nat (size ({[i]} ∪ X)))))).
  assert (slab_ok (updated w s (with_slots v b (ccount c - Z.of_nat (size ({[i]} ∪ X)))))) as Hok'
    by (eapply update_ok; done).
  apply HQ; [done|done|]. apply map_eq. intros p. destruct (decide (p = page v + i * csz c + 24)) as [->|Hne].
  - rewrite lookup_insert_eq.
    set (v' := with_slots v b (ccount c - Z.of_nat (size ({[i]} ∪ X)))) in *.
    assert (slab_wf (updated w s v') c s v' ({[i]} ∪ X)) as Hwf' by (by eapply update_wf).
    pose proof (live_slot _ c s v' _ (lookup_insert_eq _ _ _) Hwf' i Hi) as Hl.
    rewrite bool_decide_eq_true_2 in Hl by set_solver. exact Hl.
  - rewrite lookup_insert_ne by done. eapply (update_elsewhere _ c s v X ({[i]} ∪ X) b); try done. set_solver.
Qed.

Lemma chain_length w c s l : chain w c s l → NoDup l → (length l ≤ size (slab_at w))%nat.
Proof.
  intros Hch Hnd. rewrite <- size_dom, <- (size_list_to_set (C := gset Z) l) by done. apply subseteq_size.
  intros a Ha%elem_of_list_to_set. apply elem_of_dom. clear Hnd.
  revert s Hch. induction l as [|b l IH]; intros s; [set_solver|]. cbn [chain].
  intros (_ & v & Hv & _ & Hch). apply elem_of_cons in Ha as [->|Ha]; [by eexists|by eapply IH].
Qed.

Lemma wp_find_slab w c s l fuel (Q : Z → W → Prop) :
  slab_ok w → chain w c s l → (length l < fuel)%nat → Q 0 w →
  (∀ a v X, slab_at w !! a = Some v → slab_wf w c a v X → a ≠ 0 → free_count v ≠ 0 → Q a w) →
  wp (find_slab fuel s) Q w.
Proof.
  intros Hok. revert s l. induction fuel as [|fuel IH]; intros s l Hch Hlen H0 H1; [lia|]. cbn [find_slab].
  destruct l as [|a l]; cbn [chain] in Hch; [subst s; by apply wp_ret|].
  destruct Hch as (-> & v & Hv & Hh & Hch). destruct (so_slab _ Hok _ _ Hv) as (c' & X & Hwf).
  destruct (sw_self _ _ _ _ _ Hwf) as [k Hk]. destruct (bo_range _ (so_blocks _ Hok) _ _ Hk) as (Ha & _).
  rewrite (proj2 (Z.eqb_neq a 0)) by lia. apply wp_bind. eapply wp_load_slab; [done|].
  destruct (Z.eqb_spec (free_count v) 0); [apply (IH _ l); try done; cbn [length] in Hlen; lia|].
  apply wp_ret. eapply (H1 a v X); try done; [|lia].
  pose proof (sw_headers _ _ _ _ _ Hwf 0) as Hp. rewrite Z.mul_0_l, Z.add_0_r in Hp. rewrite Hp in Hh.
  - by injection Hh as <-.
  - destruct (class_geometry _ (sw_class _ _ _ _ _ Hwf)) as (_ & _ & _ & _ & ? & _). lia.
Qed.

Lemma slab_ok_rflags w f : slab_ok w → slab_ok (set_rflags f w).
Proof.
  intros [? ? Hs ? Hh Hc]. split; try done.
  - intros a v Hv. destruct (Hs a v Hv) as (c & X & [? ? ? ? ? ? ?]). exists c, X. by split.
  - intros h hd Hhd. destruct (Hh h hd Hhd) as [? [?|(v & X & i & Hv & [? ? ? ? ? ? ?] & ?)]]; (split; [done|]).
    + by left.
    + right. exists v, X, i. split; [done|]. split; [by split|done].
  - intros c Hc'. destruct (Hc c Hc') as (s & l & Hs' & Hch & Hnd). exists s, l. split; [done|]. split; [|done].
    eapply chain_mono; [done|done|]. by intros ? ?.
Qed.

Definition alloc_post w n (fl p : Z) w' : Prop :=
  slab_ok w' ∧ rflags_ w' = fl ∧ took (slab_live w) p n (slab_live w').

Lemma not_full w c a v X :
  slab_wf w c a v X → free_count v ≠ 0 →
  ∃ i, bitmap_find_clear (Some (bitmap v)) true = Ret (Some i) ∧ 0 ≤ i < ccount c ∧ i ∉ X.
Proof.
  intros Hwf Hf. rewrite (sw_free _ _ _ _ _ Hwf) in Hf. pose proof (wf_size _ _ _ _ _ Hwf) as Hle.
  destruct (find_rep _ _ _ (sw_bitmap _ _ _ _ _ Hwf)) as ([i|] & Hr & Hi).
  - exists i. naive_solver.
  - exfalso. destruct (class_geometry _ (sw_class _ _ _ _ _ Hwf)) as (_ & _ & _ & _ & ? & _).
    assert (list_to_set (seqZ 0 (ccount c)) ⊆ X) as Hs%subseteq_size.
    { intros j Hj%elem_of_list_to_set%elem_of_seqZ. apply Hi. lia. }
    rewrite size_list_to_set, length_seqZ in Hs by apply NoDup_seqZ. lia.
Qed.

Lemma wp_alloc_from w c a v X n fl irq :
  slab_ok w → slab_at w !! a = Some v → slab_wf w c a v X → a ≠ 0 → free_count v ≠ 0 →
  n + 24 ≤ csz c → irq_load irq (rflags_ w) = fl →
  wp (alloc_from c irq a) (alloc_post w n fl) w.
Proof.
  intros Hok Hv Hwf Ha Hf Hn Hfl. unfold alloc_from. rewrite (proj2 (Z.eqb_neq a 0)) by done.
  apply wp_bind, wp_bind. eapply wp_load_slab; [done|]. apply wp_ret.
  rewrite (proj2 (Z.eqb_neq _ 0)) by done. destruct (not_full _ _ _ _ _ Hwf Hf) as (i & Hr & Hi & HiX).
  apply wp_bind. unfold find_clear at 1. apply wp_bind. eapply wp_load_slab; [done|]. eapply wp_lift; [exact Hr|].
  apply wp_bind, wp_ret. cbn beta iota.
  pose proof (sw_class _ _ _ _ _ Hwf) as Hc. destruct (class_geometry _ Hc) as (Ecs & _ & _ & _ & _ & Hcs & _).
  apply wp_bind. eapply wp_lift; [exact Ecs|]. apply wp_bind. eapply wp_take_slot; try done.
  intros w' Hok' Hrf Hl. apply wp_bind. unfold irq_back. apply wp_modify, wp_ret.
  destruct (slot_bounds _ _ _ _ _ _ (so_blocks _ Hok) Hwf Hi) as (k & _ & ? & ? & ? & ?).
  unfold SIZEOF_OBJECT_HEADER. rewrite u64_small by (unfold is_u64; lia).
  split; [by apply slab_ok_rflags|]. split; [cbn; by rewrite Hrf|]. right. exists (csz c - 24).
  assert (slab_live w !! (page v + i * csz c + 24) = None) as Hnone.
  { rewrite (live_slot _ c a v X) by done. by rewrite bool_decide_eq_false_2. }
  split_and!; try done; try lia.
  pose proof (fresh_room _ _ _ Hok (sw_headers _ _ _ _ _ Hwf i Hi) Hnone) as Hfr.
  unfold room in Hfr. cbn [class_idx] in Hfr. by rewrite class_not_big in Hfr.
Qed.

(** *** Large blocks *)
Section big.
Context (w : W) (a : A) (h k : Z).
Context (Hok : slab_ok w) (Hal : al_ok a) (Hb : blocks_ok (al_live a)) (Hk : 24 < k).
Context (Hnone : al_live (below w) !! h = None) (Hf : block_fresh h k (al_live (below w)))
  (Hl : al_live a = <[h := k]> (al_live (below w))).
Let hd := MkHeader SLAB_MAGIC SLAB_BIG_CLASS 0.
Let w1 := set_below a w.
Let w2 := set_header_at (<[h := hd]> (header_at w)) w1.

Lemma big_apart h' hd' : header_at w !! h' = Some hd' → h + k ≤ h' ∨ h' + room w hd' h' ≤ h.
Proof using Hok Hf.
  intros Hh. destruct (header_block _ _ _ Hok Hh) as (q & j & Hq & ? & ? & ? & _). destruct (Hf _ _ Hq); lia.
Qed.
Lemma big_header_none : header_at w !! h = None.
Proof using Hok Hf Hk.
  destruct (header_at w !! h) as [hd'|] eqn:E; [|done].
  destruct (header_block _ _ _ Hok E) as (_ & _ & _ & _ & _ & ? & _). destruct (big_apart _ _ E); lia.
Qed.
Lemma big_live_in : live_in w w2.
Proof using Hnone Hl. intros q j Hq. cbn. rewrite Hl, lookup_insert_ne by congruence. done. Qed.
Lemma big_headers_in : headers_in w w2.
Proof using Hok Hf Hk.
  intros h' hd' Hh. cbn. rewrite lookup_insert_ne; [done|]. intros <-. by rewrite big_header_none in Hh.
Qed.

Lemma big_ok : slab_ok w2.
Proof using Hok Hal Hb Hk Hnone Hf Hl laws_A.
  pose proof big_live_in as Hin. pose proof big_headers_in as Hhi.
  pose proof Hok as [_ _ Hs Hr Hh Hc]. split; [done|done| |done| |].
  - intros b v Hv. destruct (Hs b v Hv) as (c & X & Hwf). exists c, X. by eapply wf_mono.
  - intros h' hd'. cbn [header_at w2 set_header_at]. intros [[<- <-]|[_ Hh']]%lookup_insert_Some.
    + split; [done|]. left. split; [done|]. split; [exists k; split; [|done]; cbn; by rewrite Hl, lookup_insert_eq|].
      intros b v Hv. destruct (Hs b v Hv) as (c & X & Hwf). destruct (sw_self _ _ _ _ _ Hwf) as [j Hj].
      destruct (slab_raw_live _ _ _ Hok Hv) as [j' Hj']. split; congruence.
    + destruct (Hh _ _ Hh') as [Hm [(Hbig & (j & Hj & ?) & Hn)|(v & X & i & Hv & Hwf & ?)]]; (split; [done|]).
      * left. split; [done|]. split; [|done]. exists j. split; [by apply Hin|done].
      * right. exists v, X, i. split; [done|]. split; [by eapply wf_mono|done].
  - intros c Hc'. destruct (Hc c Hc') as (s & l & Hs' & Hch & Hnd). exists s, l. split; [done|]. split; [|done].
    by eapply chain_mono.
Qed.

Lemma big_live : slab_live w2 = <[h + 24 := k - 24]> (slab_live w).
Proof using Hok Hk Hnone Hf Hl.
  apply map_eq. intros p. destruct (decide (p = h + 24)) as [->|Hne].
  - rewrite lookup_insert_eq, live_lookup. replace (h + 24 - 24) with h by lia. cbn [header_at w2 set_header_at].
    rewrite lookup_insert_eq. cbn [mbind option_bind]. unfold live_size. cbn [class_idx hd].
    rewrite Z.eqb_refl. cbn [below w2 w1 set_header_at set_below]. by rewrite Hl, lookup_insert_eq.
  - rewrite lookup_insert_ne, !live_lookup by done. cbn [header_at w2 set_header_at].
    rewrite lookup_insert_ne by lia. destruct (header_at w !! (p - 24)) as [hd'|] eqn:E; [|done].
    cbn [mbind option_bind]. unfold live_size. destruct (Z.eqb_spec (class_idx hd') SLAB_BIG_CLASS) as [Hbig|]; [|done].
    destruct (live_big _ _ _ Hok E Hbig) as [j Hj]. by rewrite Hj, (big_live_in _ _ Hj).
Qed.

Lemma big_fresh : slab_live w !! (h + 24) = None ∧ block_fresh (h + 24) (k - 24) (slab_live w).
Proof using Hok Hk Hf.
  split; [rewrite live_lookup; replace (h + 24 - 24) with h by lia; by rewrite big_header_none|].
  intros q j Hq. destruct (live_room _ _ _ Hok Hq) as (hd' & Hh' & ->). destruct (big_apart _ _ Hh'); lia.
Qed.
End big.

Lemma wp_slab_alloc w n : slab_ok w → 0 < n < 2 ^ 61 → wp (slab_alloc n) (alloc_post w n (rflags_ w)) w.
Proof using laws_A.
  intros Hok Hn. unfold slab_alloc. rewrite (proj2 (Z.eqb_neq n 0)) by lia.
  destruct (class_for_size n) as [->|[Hc Hfit]]; [lia| |].
  - cbn [Z.ltb Z.compare]. unfold SIZEOF_OBJECT_HEADER. rewrite (u64_small (24 + n)) by (unfold is_u64; lia).
    apply wp_bind, wp_malloc; [by apply so_below|lia|]. intros h a Hal Ht.
    pose proof (took_blocks _ _ _ _ (so_blocks _ Hok) Ht ltac:(lia)) as Hb.
    destruct Ht as [[-> Hl]|(k & Hh & Hk & Hend & Hnone & Hf & Hl)].
    + apply wp_ret. destruct (slab_ok_below w a Hok Hal Hb) as [Hok' Hl'].
      { intros q j Hq. cbn. by rewrite Hl. }
      split; [done|]. split; [done|]. left. by rewrite Hl'.
    + rewrite (proj2 (Z.eqb_neq h 0)) by lia. apply wp_bind. unfold store_header. apply wp_modify, wp_ret.
      rewrite (u64_small (h + 24)) by (unfold is_u64; lia).
      assert (24 < k) as Hk24 by lia. destruct (big_fresh w h k Hok Hk24 Hf) as [Hn1 Hf1].
      split; [exact (big_ok w a h k Hok Hal Hb Hk24 Hnone Hf Hl)|]. split; [done|]. right. exists (k - 24).
      split_and!; try done; try lia. exact (big_live w a h k Hok Hk24 Hnone Hf Hl).
  - rewrite (proj2 (Z.ltb_ge _ 0)) by lia. set (c := slab_class_for_size n) in *.
    apply wp_bind. unfold irq_off, wp at 1, irq_store. cbn beta iota.
    set (w1 := set_rflags (cli (rflags_ w)) w). assert (slab_ok w1) as Hok1 by (by apply slab_ok_rflags).
    destruct (so_chain _ Hok1 c Hc) as (s & l & Hs & Hch & Hnd).
    apply wp_bind. unfold class_head. apply wp_bind, wp_gets. rewrite Hs. eapply wp_lift; [done|].
    apply wp_bind, wp_gets, wp_bind. pose proof (chain_length _ _ _ _ Hch Hnd).
    eapply (wp_find_slab _ c); [done|exact Hch|lia| |].
    + cbn [Z.eqb]. apply wp_bind. apply wp_slab_grow; [done|done| |].
      * intros w2 Hok2 Hl2 Hr2. unfold alloc_from. cbn [Z.eqb]. apply wp_bind, wp_ret. apply wp_bind.
        unfold irq_back. apply wp_modify, wp_ret. split; [by apply slab_ok_rflags|].
        split; [cbn; rewrite Hr2; apply irq_section|]. left. split; [done|]. exact Hl2.
      * intros s' v w2 Hs' Hg Hv. pose proof (gr_wf _ _ _ _ _ Hg) as Hwf.
        assert (free_count v ≠ 0) as Hf.
        { rewrite (sw_free _ _ _ _ _ Hwf), size_empty.
          destruct (class_geometry _ Hc) as (_ & _ & _ & _ & ? & _). lia. }
        eapply wp_mono; [eapply (wp_alloc_from w2 c s' v ∅ n (rflags_ w)); try done|].
        { exact (grown_ok _ _ _ _ _ Hok1 Hs' Hg). }
        { rewrite (gr_rflags _ _ _ _ _ Hg). apply irq_section. }
        intros p w3 (Hok3 & Hr3 & Ht). split; [done|]. split; [done|].
        rewrite (grown_live _ _ _ _ _ Hok1 Hg) in Ht. exact Ht.
    + intros b v X Hv Hwf Hb Hf. rewrite (proj2 (Z.eqb_neq b 0)) by done. apply wp_bind, wp_ret.
      eapply wp_mono; [eapply (wp_alloc_from w1 c b v X n (rflags_ w)); try done; apply irq_section|].
      intros p w3 (Hok3 & Hr3 & Ht). done.
Qed.

(** *** Giving back *)
Section remove.
Context (w : W) (a : A) (h : Z) (hd : slab_object_header).
Context (Hok : slab_ok w) (Hh : header_at w !! h = Some hd) (Hbig : class_idx hd = SLAB_BIG_CLASS).
Context (Hal : al_ok a) (Hl : al_live a = delete h (al_live (below w))).
Let w' := set_header_at (delete h (header_at w)) (set_below a w).

Lemma big_not_slab : ∀ b v, slab_at w !! b = Some v → raw_page v ≠ h ∧ b ≠ h.
Proof using Hok Hh Hbig.
  destruct (so_header _ Hok _ _ Hh) as [_ [(_ & _ & Hn)|(v & X & i & _ & Hwf & _)]]; [done|].
  pose proof (sw_class _ _ _ _ _ Hwf) as Hc. rewrite Hbig in Hc. unfold SLAB_BIG_CLASS, UINT64_MAX in Hc. lia.
Qed.

Lemma remove_wf c b v X : slab_at w !! b = Some v → slab_wf w c b v X → slab_wf w' c b v X.
Proof using Hok Hh Hbig Hl.
  intros Hv [Hc ? ? ? Hs (k & Hk & ?) Hhd]. destruct (big_not_slab b v Hv) as [Hr Hb].
  split; try done; cbn [below w' set_header_at set_below].
  - by rewrite Hl, lookup_delete_ne by congruence.
  - exists k. by rewrite Hl, lookup_delete_ne by congruence.
  - intros i Hi. cbn [header_at w' set_header_at]. rewrite lookup_delete_ne; [by apply Hhd|].
    intros ->. rewrite (Hhd i Hi) in Hh. injection Hh as <-. cbn in Hbig. subst c.
    unfold SLAB_BIG_CLASS, UINT64_MAX in Hc. lia.
Qed.
Lemma remove_chain c s l : 0 ≤ c < 10 → chain w c s l → chain w' c s l.
Proof using Hh Hbig Hl alloc_A.
  intros Hc. revert s. induction l as [|b l IH]; intros s; [done|]. cbn [chain]. intros (-> & v & Hv & Hp & Hch).
  split; [done|]. exists v. split; [done|]. split; [|by apply IH].
  cbn [header_at w' set_header_at]. rewrite lookup_delete_ne; [done|]. intros ->. rewrite Hp in Hh.
  injection Hh as <-. cbn in Hbig. subst c. unfold SLAB_BIG_CLASS, UINT64_MAX in Hc. lia.
Qed.

Lemma remove_ok : slab_ok w'.
Proof using Hok Hh Hbig Hal Hl.
  pose proof Hok as [_ Hb Hs Hr Hhd Hc]. split; [done| | |done| |].
  - cbn [below w' set_header_at set_below]. rewrite Hl. pose proof (undo_blocks h _ Hb) as Hu. unfold undo in Hu.
    destruct (Z.eqb_spec h 0) as [->|]; [|done]. rewrite delete_id; [done|].
    destruct (al_live (below w) !! 0) as [k|] eqn:E; [|done]. destruct (bo_range _ Hb _ _ E). lia.
  - intros b v Hv. destruct (Hs b v Hv) as (c & X & Hwf). exists c, X. by apply remove_wf.
  - intros h' hd'. cbn [header_at w' set_header_at]. intros [Hne Hh']%lookup_delete_Some.
    destruct (Hhd _ _ Hh') as [Hm [(Hb' & (k & Hk & ?) & Hn)|(v & X & i & Hv & Hwf & ?)]]; (split; [done|]).
    + left. split; [done|]. split; [|done]. exists k. cbn [below w' set_header_at set_below].
      by rewrite Hl, lookup_delete_ne.
    + right. exists v, X, i. split; [done|]. split; [by apply remove_wf|done].
  - intros c Hc'. destruct (Hc c Hc') as (s & l & Hs' & Hch & Hnd). exists s, l. split; [done|].
    split; [by apply remove_chain|done].
Qed.

Lemma remove_live : slab_live w' = delete (h + 24) (slab_live w).
Proof using Hok Hl.
  apply map_eq. intros p. destruct (decide (p = h + 24)) as [->|Hne].
  - rewrite lookup_delete_eq, live_lookup. replace (h + 24 - 24) with h by lia. cbn [header_at w' set_header_at].
    by rewrite lookup_delete_eq.
  - rewrite lookup_delete_ne, !live_lookup by done. cbn [header_at w' set_header_at]. rewrite lookup_delete_ne by lia.
    destruct (header_at w !! (p - 24)) as [hd'|] eqn:E; [|done]. cbn [mbind option_bind]. unfold live_size.
    destruct (Z.eqb_spec (class_idx hd') SLAB_BIG_CLASS); [|done].
    cbn [below w' set_header_at set_below]. by rewrite Hl, lookup_delete_ne by lia.
Qed.
End remove.

Lemma header_range w h hd : slab_ok w → header_at w !! h = Some hd → 0 < h ∧ h + 24 < 2 ^ 64.
Proof.
  intros Hok Hh. destruct (header_block _ _ _ Hok Hh) as (q & k & Hq & ? & ? & ? & _).
  destruct (bo_range _ (so_blocks _ Hok) _ _ Hq) as (? & ? & ?). lia.
Qed.

Definition free_post w (p : Z) w' : Prop :=
  slab_ok w' ∧ rflags_ w' = rflags_ w ∧ slab_live w' = delete p (slab_live w).

Lemma wp_free_big w h hd k :
  slab_ok w → header_at w !! h = Some hd → class_idx hd = SLAB_BIG_CLASS → al_live (below w) !! h = Some k →
  wp (slab_free (h + 24)) (λ _, free_post w (h + 24)) w.
Proof using laws_A.
  intros Hok Hh Hbig Hk. destruct (header_range _ _ _ Hok Hh) as [? ?].
  destruct (so_header _ Hok _ _ Hh) as [Hm _]. unfold slab_free. rewrite (proj2 (Z.eqb_neq _ 0)) by lia.
  unfold SIZEOF_OBJECT_HEADER. replace (h + 24 - 24) with h by lia. rewrite u64_small by (unfold is_u64; lia).
  apply wp_bind. unfold load_header. apply wp_bind, wp_gets. rewrite Hh. eapply wp_lift; [done|].
  rewrite Hm, Hbig, !Z.eqb_refl. cbn [negb]. apply wp_bind. unfold store_header. apply wp_modify.
  apply wp_bind, wp_modify. cbn [header_at set_header_at]. rewrite delete_insert_eq.
  apply wp_mfree; [exact (so_below _ Hok)|right; by eexists|]. intros a Hal Hl. unfold undo in Hl.
  rewrite (proj2 (Z.eqb_neq h 0)) in Hl by lia. cbn [below set_header_at] in Hl.
  split; [exact (remove_ok w a h hd Hok Hh Hbig Hal Hl)|]. split; [done|]. exact (remove_live w a h Hok Hl).
Qed.

(** A slot: given back when in use, left alone otherwise. *)
Lemma wp_free_slot w c s v X i :
  slab_ok w → slab_at w !! s = Some v → slab_wf w c s v X → 0 ≤ i < ccount c →
  wp (slab_free (page v + i * csz c + 24))
    (λ _ w', if decide (i ∈ X) then
       free_post w (page v + i * csz c + 24) w' ∧
       ∃ v', slab_at w' !! s = Some v' ∧ slab_wf w' c s v' (X ∖ {[i]}) ∧ page v' = page v
     else w' = w) w.
Proof.
  intros Hok Hv Hwf Hi. pose proof (sw_headers _ _ _ _ _ Hwf i Hi) as Hh.
  destruct (header_range _ _ _ Hok Hh) as [? ?]. pose proof (sw_class _ _ _ _ _ Hwf) as Hc.
  destruct (class_geometry _ Hc) as (Ecs & _ & _ & _ & Hcc & Hcs & _).
  destruct (sw_self _ _ _ _ _ Hwf) as [k Hk]. destruct (bo_range _ (so_blocks _ Hok) _ _ Hk) as (Hs0 & _).
  unfold slab_free. rewrite (proj2 (Z.eqb_neq _ 0)) by lia. unfold SIZEOF_OBJECT_HEADER.
  set (h := page v + i * csz c) in *. replace (h + 24 - 24) with h by lia. rewrite u64_small by (unfold is_u64; lia).
  apply wp_bind. unfold load_header. apply wp_bind, wp_gets. rewrite Hh. eapply wp_lift; [done|].
  cbn [magic class_idx hslab]. rewrite Z.eqb_refl, class_not_big by done. cbn [negb].
  unfold SLAB_CLASS_COUNT. rewrite (proj2 (Z.leb_gt 10 c)), (proj2 (Z.eqb_neq s 0)) by lia. cbn [orb].
  apply wp_bind. unfold irq_off, wp at 1, irq_store. cbn beta iota.
  set (w1 := set_rflags (cli (rflags_ w)) w).
  assert (∀ Q : unit → W → Prop, Q tt w → wp (irq_back (rflags_ w)) Q w1) as Hback.
  { intros Q HQ. unfold irq_back. apply wp_modify. unfold w1. cbn [rflags_ set_rflags].
    rewrite irq_section. by destruct w. }
  apply wp_bind. eapply wp_lift; [exact Ecs|]. apply wp_bind. eapply wp_load_slab; [done|].
  destruct (slot_bounds _ _ _ _ _ _ (so_blocks _ Hok) Hwf Hi) as (kk & Hkk & ? & ? & ? & ?).
  assert (0 ≤ page v) as Hpg. { destruct (sw_page _ _ _ _ _ Hwf) as (? & _ & ? & _). lia. }
  rewrite (proj2 (Z.ltb_ge h (page v))) by nia.
  rewrite (u64_small (h - page v)) by (unfold is_u64; nia).
  assert (h - page v = i * csz c) as -> by lia.
  rewrite Z.mod_mul, !Z.div_mul, Z.eqb_refl by lia. cbn [negb].
  replace (object_count v <=? i) with false by (rewrite (sw_count _ _ _ _ _ Hwf); lia). apply wp_bind.
  eapply wp_lift; [apply (get_rep _ _ _ (sw_bitmap _ _ _ _ _ Hwf)); lia|].
  destruct (decide (i ∈ X)) as [HiX|HiX];
    [rewrite bool_decide_eq_true_2 by done|rewrite bool_decide_eq_false_2 by done; by apply Hback].
  cbn [negb]. destruct (clear_rep _ _ _ (sw_bitmap _ _ _ _ _ Hwf) i Hi) as (b & Hb & Hrep).
  apply wp_bind. eapply wp_lift; [exact Hb|]. cbn beta iota. apply wp_bind. eapply wp_lift; [done|].
  apply wp_bind. unfold store_slab at 1. apply wp_modify.
  apply wp_bind. eapply wp_load_slab; [apply lookup_insert_eq|]. apply wp_bind. unfold store_slab. apply wp_modify.
  cbn [slab_at set_slab_at raw_page page bitmap snext object_count free_count].
  assert (Z.of_nat (size X) = 1 + Z.of_nat (size (X ∖ {[i]}))) as Esz.
  { rewrite size_difference, size_singleton by set_solver.
    assert (size X ≠ 0%nat) by (intros E%size_empty_inv; set_solver). lia. }
  pose proof (wf_size _ _ _ _ _ Hwf) as Hle.
  rewrite insert_insert_eq, (sw_free _ _ _ _ _ Hwf), u64_small by (unfold is_u64; lia).
  replace (ccount c - Z.of_nat (size X) + 1) with (ccount c - Z.of_nat (size (X ∖ {[i]}))) by lia.
  set (v' := with_slots v b (ccount c - Z.of_nat (size (X ∖ {[i]})))).
  unfold irq_back. apply wp_modify. cbn [rflags_ set_slab_at set_rflags w1]. rewrite irq_section.
  assert (slab_wf (updated w s v') c s v' (X ∖ {[i]})) as Hwf' by (by eapply update_wf).
  match goal with |- free_post _ _ ?x ∧ _ => replace x with (updated w s v') by (by destruct w) end.
  split; [|exists v'; split; [apply lookup_insert_eq|done]].
  split; [by eapply update_ok|]. split; [done|]. apply map_eq. intros p.
  destruct (decide (p = h + 24)) as [->|Hne].
  - rewrite lookup_delete_eq. pose proof (live_slot _ c s v' _ (lookup_insert_eq _ _ _) Hwf' i Hi) as Hl.
    rewrite bool_decide_eq_false_2 in Hl by set_solver. exact Hl.
  - rewrite lookup_delete_ne by done. eapply (update_elsewhere _ c s v X (X ∖ {[i]}) b); try done. set_solver.
Qed.
End calls.

(** ** The interface, discharged, and the theorem *)
Section theorems.
Context {A : Type} {alloc_A : Allocator A} {laws_A : AllocatorLaws (2 ^ 62) A}.
Abbreviation W := (slabs A).
Implicit Types (w : W).

(** The object at [p] lies in a slab. *)
Definition in_slab w (p : Z) : Prop :=
  ∃ hd, header_at w !! (p - SIZEOF_OBJECT_HEADER) = Some hd ∧ class_idx hd ≠ SLAB_BIG_CLASS.

Lemma free_live w p k :
  slab_ok w → slab_live w !! p = Some k →
  ∃ w', slab_free p w = Ret (tt, w') ∧ free_post w p w' ∧ (in_slab w p → slab_free p w' = Ret (tt, w')).
Proof using laws_A.
  intros Hok Hp. destruct (live_room _ _ _ Hok Hp) as (hd & Hh & _). unfold in_slab, SIZEOF_OBJECT_HEADER.
  remember (p - 24) as h eqn:Eh. assert (p = h + 24) as -> by lia. clear Eh.
  destruct (so_header _ Hok _ _ Hh) as [_ [(Hbig & (j & Hj & _) & _)|(v & X & i & Hv & Hwf & Hi & ->)]].
  - pose proof (wp_free_big w h hd j Hok Hh Hbig Hj) as Hwp. apply wp_inv in Hwp as ([] & w' & Hr & Hpost).
    exists w'. split; [done|]. split; [done|]. intros (hd' & Hh' & Hn). congruence.
  - pose proof (wp_free_slot w _ _ v X i Hok Hv Hwf Hi) as Hwp. apply wp_inv in Hwp as ([] & w' & Hr & Hpost).
    rewrite (live_slot _ _ _ _ _ Hv Hwf i Hi) in Hp. case_bool_decide as HiX; [|done].
    destruct (decide (i ∈ X)); [|done]. destruct Hpost as (Hpost & v' & Hv' & Hwf' & Epg).
    exists w'. split; [done|]. split; [done|]. intros _. destruct Hpost as (Hok' & _).
    pose proof (wp_free_slot w' _ _ v' _ i Hok' Hv' Hwf' Hi) as Hwp. rewrite Epg in Hwp.
    apply wp_inv in Hwp as ([] & w2 & Hr2 & Hpost2). rewrite Hr2.
    rewrite decide_False in Hpost2 by set_solver. by subst.
Qed.

#[global] Instance slab_allocator : Allocator W := {
  al_live := slab_live;
  al_ok := slab_ok;
  al_alloc := slab_calloc;
  al_free := slab_free;
}.
#[global] Instance slab_laws : AllocatorLaws (2 ^ 61) W.
Proof using laws_A.
  split.
  - intros w n Hok Hn. pose proof (wp_slab_alloc w n Hok Hn) as Hwp. apply wp_inv in Hwp as (p & w' & Hr & Hok' & _ & Ht).
    exists p, w'. split; [done|]. split; [done|]. destruct Ht as [[-> Hl]|(k & ? & ? & ? & ? & ? & ?)]; [by left|].
    right. exists k. by split_and!.
  - intros w p k Hok Hp. destruct (free_live w p k Hok Hp) as (w' & Hr & (Hok' & _ & Hl) & _). exists w'. done.
  - done.
Qed.

(** The empty slab allocator at boot. *)
Lemma slab_boot (a : A) fl : al_ok a → blocks_ok (al_live a) → slab_ok (MkSlabs ∅ ∅ (replicate 10 0) fl a).
Proof.
  intros Hal Hb. split; [done|done|..]; cbn [slab_at header_at]; try (intros *; by rewrite lookup_empty).
  intros c Hc. exists 0, []. split; [|by split; [|constructor]]. cbn [slab_classes]. apply lookup_replicate. lia.
Qed.

End theorems.

Definition demo_slabs : slabs bump := MkSlabs ∅ ∅ (replicate 10 0) 512 (MkBump 4096 20 ∅).
Lemma demo_slabs_ok : slab_ok demo_slabs.
Proof.
  apply slab_boot; [|split; [intros p k Hp|intros p k q j Hp]; cbn in Hp; by rewrite lookup_empty in Hp].
  split; [split; [done|]|done]. intros p n Hp. cbn in Hp. by rewrite lookup_empty in Hp.
Qed.

