(* ===== verification/Initrd.v ===== *)
(** * Initrd: [kernel/fs/initrd.c]

    The initial ram disk keeps its tree in inodes with first-child and
    next-sibling pointers; the vnode is the first member of the inode, so both
    have the same address.  Here are all operations on the tree and on open
    files; [InitrdFs] proves that they meet the interface of the virtual file
    system, [InitrdFile] and [InitrdCalls] what they do, and [Ustar] models the
    loader of the archive.

    Inodes, open directories and directory entries live in heaps by address.
    The bytes of names and file contents (the archive, the blocks of [calloc],
    the buffers of the callers) are one byte memory; an access outside it is a
    fault.  The two allocators the code uses, [calloc] and [slab_calloc], are two
    states of [Allocator]. *)
From S2P Require Import Prelude Alloc Vfs.

(** ** Data *)
Record initrd_inode := MkInode {
  i_number : Z; i_name : Z; i_name_size : Z; i_name_owned : bool;
  i_buf : Z; i_bufsize : Z; i_buf_owned : bool; i_len : Z;
  i_accessed : Z; i_modified : Z; i_changed_mdt : Z;
  i_parent : Z; i_hard_target : Z; i_first_child : Z; i_next_sibling : Z;
}.
Record vfs_dirent := MkDirent { d_name : Z; d_inode_no : Z }.

(** [dir_cursors] are the [initrd_file_t] of open files, [postponed] counts the
    nested calls of [sched_postpone]. *)
Record iext (A : Type) := MkExt {
  inodes : gmap Z initrd_inode; bytes : gmap Z Z;
  dir_cursors : gmap Z Z; dirents : gmap Z vfs_dirent;
  inode_count : Z; postponed : Z; now : Z;
  heap : A; slab_heap : A;
}.
Arguments MkExt {A}.
Arguments inodes {A}.
Arguments bytes {A}.
Arguments dir_cursors {A}.
Arguments dirents {A}.
Arguments inode_count {A}.
Arguments postponed {A}.
Arguments now {A}.
Arguments heap {A}.
Arguments slab_heap {A}.

Section setters.
Context {A : Type}.
Implicit Types (x : iext A).
Definition set_inodes (m : gmap Z initrd_inode) x : iext A :=
  MkExt m (bytes x) (dir_cursors x) (dirents x) (inode_count x) (postponed x) (now x) (heap x) (slab_heap x).
Definition set_bytes (m : gmap Z Z) x : iext A :=
  MkExt (inodes x) m (dir_cursors x) (dirents x) (inode_count x) (postponed x) (now x) (heap x) (slab_heap x).
Definition set_cursors (m : gmap Z Z) x : iext A :=
  MkExt (inodes x) (bytes x) m (dirents x) (inode_count x) (postponed x) (now x) (heap x) (slab_heap x).
Definition set_dirents (m : gmap Z vfs_dirent) x : iext A :=
  MkExt (inodes x) (bytes x) (dir_cursors x) m (inode_count x) (postponed x) (now x) (heap x) (slab_heap x).
Definition set_inode_count (c : Z) x : iext A :=
  MkExt (inodes x) (bytes x) (dir_cursors x) (dirents x) c (postponed x) (now x) (heap x) (slab_heap x).
Definition set_postponed (c : Z) x : iext A :=
  MkExt (inodes x) (bytes x) (dir_cursors x) (dirents x) (inode_count x) c (now x) (heap x) (slab_heap x).
Definition set_heap (a : A) x : iext A :=
  MkExt (inodes x) (bytes x) (dir_cursors x) (dirents x) (inode_count x) (postponed x) (now x) a (slab_heap x).
Definition set_slab_heap (a : A) x : iext A :=
  MkExt (inodes x) (bytes x) (dir_cursors x) (dirents x) (inode_count x) (postponed x) (now x) (heap x) a.
End setters.

(** [calloc] and [free] of the file system are those of the heap. *)
#[global] Instance iext_allocator {A} `{Allocator A} : Allocator (iext A) := {
  al_live x := al_live (heap x);
  al_ok x := al_ok (heap x);
  al_alloc n x := '(p, a) ← al_alloc n (heap x); Ret (p, set_heap a x);
  al_free p x := '(u, a) ← al_free p (heap x); Ret (u, set_heap a x);
}.

#[global] Instance iext_laws {A} `{AllocatorLaws (2 ^ 61) A} : AllocatorLaws (2 ^ 61) (iext A).
Proof.
  split; cbn.
  - intros x n Hok Hn. destruct (al_alloc_law (heap x) n Hok Hn) as (p & a & Hr & Hok' & Hcase).
    exists p, (set_heap a x). rewrite Hr. by split_and!.
  - intros x p n Hok Hp. destruct (al_free_law (heap x) p n Hok Hp) as (a & Hr & Hok' & Hl).
    exists (set_heap a x). rewrite Hr. by split_and!.
  - intros x. rewrite al_free_null. by destruct x.
Qed.

(** ** Memory *)

(** [memcmp(name, p, length name) == 0]. *)
Fixpoint name_eq (m : gmap Z Z) (name : list Z) (p : Z) : outcome bool :=
  match name with
  | [] => Ret true
  | c :: name' => b ← deref (m !! p); if b =? c then name_eq m name' (p + 1) else Ret false
  end.
(** [n] bytes at [p]. *)
Fixpoint read_bytes (m : gmap Z Z) (p : Z) (n : nat) : outcome (list Z) :=
  match n with
  | O => Ret []
  | S n' => b ← deref (m !! p); l ← read_bytes m (p + 1) n'; Ret (b :: l)
  end.
(** [memcpy]: bytes upwards. *)
Fixpoint copy_bytes (n : nat) (d s : Z) (m : gmap Z Z) : outcome (gmap Z Z) :=
  match n with
  | O => Ret m
  | S n' => b ← deref (m !! s); _ ← deref (m !! d); copy_bytes n' (d + 1) (s + 1) (<[d := b]> m)
  end.
(** New memory with the given contents. *)
Fixpoint init_bytes (l : list Z) (p : Z) (m : gmap Z Z) : gmap Z Z :=
  match l with [] => m | b :: l' => <[p := b]> (init_bytes l' (p + 1) m) end.
(** The memory of a block that was given back. *)
Definition drop_bytes (p n : Z) (m : gmap Z Z) : gmap Z Z :=
  filter (λ '(a, _), ¬ (p ≤ a < p + n)) m.

(** [sizeof] of the structures. *)
Definition SIZEOF_INODE : Z := 184.
Definition SIZEOF_INITRD_FILE : Z := 8.
Definition SIZEOF_VFS_FILE : Z := 40.
Definition SIZEOF_VFS_MOUNT : Z := 32.
Definition SIZEOF_DIRENT : Z := 16.
Definition SIZEOF_STAT : Z := 48.
Definition VFS_OPEN_TRUNC : Z := 32.

Definition INITRD_VNODE_OPS : Z := 1.
Definition INITRD_VFILE_OPS : Z := 1.

(** A 64-bit pattern as a signed number. *)
Definition s64 (z : Z) : Z := if z <? 2 ^ 63 then z else z - 2 ^ 64.

(** ** Operations *)
Section initrd.
Context {A : Type} {alloc_A : Allocator A}.
Abbreviation W := (vworld (iext A)).
Implicit Types (w : W).

(** *** Memory *)
Definition modx (f : iext A → iext A) : prog W unit := modify (λ w, set_ext (f (ext w)) w).
Definition inode (a : Z) : prog W initrd_inode := x ← gets ext; lift (deref (inodes x !! a)).
Definition update_inode (a : Z) (f : initrd_inode → initrd_inode) : prog W unit :=
  i ← inode a; modx (λ x, set_inodes (<[a := f i]> (inodes x)) x).
Definition read_mem (p : Z) (n : nat) : prog W (list Z) := x ← gets ext; lift (read_bytes (bytes x) p n).
Definition memcpy (d s n : Z) : prog W unit :=
  x ← gets ext; m ← lift (copy_bytes (Z.to_nat n) d s (bytes x)); modx (set_bytes m).

(** [calloc] of bytes: the block is zero. *)
Definition calloc_bytes (n : Z) : prog W Z :=
  p ← calloc n;
  if p =? 0 then mret 0
  else _ ← modx (λ x, set_bytes (init_bytes (replicate (Z.to_nat n) 0) p (bytes x)) x); mret p.
Definition free_bytes (p : Z) : prog W unit :=
  x ← gets ext;
  _ ← free p;
  match al_live (heap x) !! p with
  | Some n => modx (λ x, set_bytes (drop_bytes p n (bytes x)) x)
  | None => mret tt
  end.
(** [vfs_clone_name], with the bytes it writes. *)
Definition clone_name (name : list Z) (trailing_slash : bool) : prog W Z :=
  '(p, cloned) ← vfs_clone_name name trailing_slash;
  if p =? 0 then mret 0
  else _ ← modx (λ x, set_bytes (init_bytes (cloned ++ [0]) p (bytes x)) x); mret p.

Definition slab_calloc (n : Z) : prog W Z := λ w,
  '(p, a) ← al_alloc n (slab_heap (ext w)); Ret (p, set_ext (set_slab_heap a (ext w)) w).
(** Whatever object was there is gone. *)
Definition slab_free (p : Z) : prog W unit := λ w,
  '(_, a) ← al_free p (slab_heap (ext w));
  let x := ext w in
  Ret (tt, MkWorld (delete p (nodes w)) (delete p (mounts w)) (delete p (files w)) (stats w) (root_mount w)
             (current_process w)
             (set_slab_heap a (set_inodes (delete p (inodes x)) (set_cursors (delete p (dir_cursors x)) x)))).

(** The scheduler's nesting count, as far as the file system sees it. *)
Definition sched_postpone : prog W unit := modx (λ x, set_postponed (postponed x + 1) x).
Definition sched_resume : prog W unit := modx (λ x, set_postponed (postponed x - 1) x).

(** A zeroed inode and its vnode; the type is stored before it is read. *)
Definition zero_inode : initrd_inode := MkInode 0 0 0 false 0 0 false 0 0 0 0 0 0 0 0.
Definition zero_node : vfs_node := MkNode 0 VFS_NODE_FILE 0 0 0 0 0 0 0.
Definition calloc_inode : prog W Z :=
  p ← slab_calloc SIZEOF_INODE;
  if p =? 0 then mret 0
  else
    _ ← modx (λ x, set_inodes (<[p := zero_inode]> (inodes x)) x);
    _ ← modify (λ w, set_nodes (<[p := zero_node]> (nodes w)) w);
    mret p.
(** [inode_count++]. *)
Definition next_number : prog W Z :=
  x ← gets ext;
  _ ← modx (λ x, set_inode_count (u64 (inode_count x + 1)) x);
  mret (inode_count x).

(** *** Fields *)
Definition with_name (p n : Z) (owned : bool) (i : initrd_inode) : initrd_inode :=
  MkInode (i_number i) p n owned (i_buf i) (i_bufsize i) (i_buf_owned i) (i_len i) (i_accessed i)
    (i_modified i) (i_changed_mdt i) (i_parent i) (i_hard_target i) (i_first_child i) (i_next_sibling i).
Definition with_number (n : Z) (i : initrd_inode) : initrd_inode :=
  MkInode n (i_name i) (i_name_size i) (i_name_owned i) (i_buf i) (i_bufsize i) (i_buf_owned i) (i_len i)
    (i_accessed i) (i_modified i) (i_changed_mdt i) (i_parent i) (i_hard_target i) (i_first_child i)
    (i_next_sibling i).
Definition with_buf (b n : Z) (owned : bool) (i : initrd_inode) : initrd_inode :=
  MkInode (i_number i) (i_name i) (i_name_size i) (i_name_owned i) b n owned (i_len i)
    (i_accessed i) (i_modified i) (i_changed_mdt i) (i_parent i) (i_hard_target i) (i_first_child i)
    (i_next_sibling i).
Definition with_len (n : Z) (i : initrd_inode) : initrd_inode :=
  MkInode (i_number i) (i_name i) (i_name_size i) (i_name_owned i) (i_buf i) (i_bufsize i) (i_buf_owned i) n
    (i_accessed i) (i_modified i) (i_changed_mdt i) (i_parent i) (i_hard_target i) (i_first_child i)
    (i_next_sibling i).
Definition with_times (a m c : Z) (i : initrd_inode) : initrd_inode :=
  MkInode (i_number i) (i_name i) (i_name_size i) (i_name_owned i) (i_buf i) (i_bufsize i) (i_buf_owned i)
    (i_len i) a m c (i_parent i) (i_hard_target i) (i_first_child i) (i_next_sibling i).
Definition with_parent (p : Z) (i : initrd_inode) : initrd_inode :=
  MkInode (i_number i) (i_name i) (i_name_size i) (i_name_owned i) (i_buf i) (i_bufsize i) (i_buf_owned i)
    (i_len i) (i_accessed i) (i_modified i) (i_changed_mdt i) p (i_hard_target i) (i_first_child i)
    (i_next_sibling i).
Definition with_hard_target (t : Z) (i : initrd_inode) : initrd_inode :=
  MkInode (i_number i) (i_name i) (i_name_size i) (i_name_owned i) (i_buf i) (i_bufsize i) (i_buf_owned i)
    (i_len i) (i_accessed i) (i_modified i) (i_changed_mdt i) (i_parent i) t (i_first_child i)
    (i_next_sibling i).
Definition with_first_child (c : Z) (i : initrd_inode) : initrd_inode :=
  MkInode (i_number i) (i_name i) (i_name_size i) (i_name_owned i) (i_buf i) (i_bufsize i) (i_buf_owned i)
    (i_len i) (i_accessed i) (i_modified i) (i_changed_mdt i) (i_parent i) (i_hard_target i) c
    (i_next_sibling i).
Definition with_next (n : Z) (i : initrd_inode) : initrd_inode :=
  MkInode (i_number i) (i_name i) (i_name_size i) (i_name_owned i) (i_buf i) (i_bufsize i) (i_buf_owned i)
    (i_len i) (i_accessed i) (i_modified i) (i_changed_mdt i) (i_parent i) (i_hard_target i) (i_first_child i) n.

Definition sync_vnode_timestamps (a : Z) : prog W unit :=
  if a =? 0 then mret tt
  else
    i ← inode a;
    update_node a (λ n, MkNode (n_ops n) (n_type n) (refcount n) (link_count n) (i_accessed i) (i_modified i)
                          (i_changed_mdt i) (n_mount n) (n_fs_data n)).
Definition set_inode_timestamps (a acc mod_ chg : Z) : prog W unit :=
  if a =? 0 then mret tt else update_inode a (with_times acc mod_ chg).
Definition init_vnode (a : Z) (ty : vfs_node_type) : prog W unit :=
  _ ← update_node a (λ n, MkNode INITRD_VNODE_OPS ty 0 1 (accessed_timestamp n) (modified_timestamp n)
                            (changed_mdt_timestamp n) 0 a);
  sync_vnode_timestamps a.

(** *** The tree *)
Fixpoint find_child_loop (fuel : nat) (n : Z) (name : list Z) : prog W Z :=
  match fuel with
  | O => diverge
  | S fuel' =>
      if n =? 0 then mret 0
      else
        i ← inode n;
        x ← gets ext;
        same ← (if i_name_size i =? Z.of_nat (length name) then lift (name_eq (bytes x) name (i_name i))
                else mret false);
        if (same : bool) then mret n else find_child_loop fuel' (i_next_sibling i) name
  end.
(** The siblings are fewer than the inodes. *)
Definition find_child (first_child : Z) (name : list Z) : prog W Z :=
  x ← gets ext; find_child_loop (S (size (inodes x))) first_child name.

(** [while (target->next_sibling != NULL) target = target->next_sibling]. *)
Fixpoint last_sibling (fuel : nat) (target : Z) : prog W Z :=
  match fuel with
  | O => diverge
  | S fuel' =>
      i ← inode target;
      if i_next_sibling i =? 0 then mret target else last_sibling fuel' (i_next_sibling i)
  end.
Definition add_child (parent new_child : Z) : prog W unit :=
  _ ← update_inode new_child (with_next 0);
  p ← inode parent;
  if i_first_child p =? 0 then
    _ ← update_inode parent (with_first_child new_child);
    update_inode parent (λ i, with_len (u64 (i_len i + 1)) i)
  else
    x ← gets ext;
    target ← last_sibling (S (size (inodes x))) (i_first_child p);
    _ ← update_inode target (with_next new_child);
    update_inode parent (λ i, with_len (u64 (i_len i + 1)) i).

(** The loop over the children [n] of [parent], with the one before. *)
Fixpoint detach_loop (fuel : nat) (parent target prev n : Z) : prog W Z :=
  match fuel with
  | O => diverge
  | S fuel' =>
      if n =? 0 then mret 0
      else
        i ← inode n;
        if n =? target then
          _ ← (if prev =? 0 then update_inode parent (with_first_child (i_next_sibling i))
               else update_inode prev (with_next (i_next_sibling i)));
          _ ← update_inode n (with_next 0);
          _ ← update_inode n (with_parent 0);
          p ← inode parent;
          _ ← when (0 <? i_len p) (update_inode parent (λ i, with_len (i_len i - 1) i));
          mret n
        else detach_loop fuel' parent target n (i_next_sibling i)
  end.
Definition detach_child (target : Z) : prog W Z :=
  if target =? 0 then mret 0
  else
    t ← inode target;
    if i_parent t =? 0 then mret 0
    else
      p ← inode (i_parent t);
      x ← gets ext;
      detach_loop (S (size (inodes x))) (i_parent t) target 0 (i_first_child p).

Definition create_dir (name : list Z) (parent : Z) : prog W Z :=
  dir ← calloc_inode;
  dir_name ← clone_name name false;
  if (dir =? 0) || (dir_name =? 0) then
    _ ← slab_free dir;
    _ ← free_bytes dir_name;
    mret 0
  else
    _ ← update_inode dir (with_name dir_name (Z.of_nat (length name)) true);
    _ ← update_inode dir (with_buf 0 0 false);
    _ ← update_inode dir (with_len 0);
    number ← next_number;
    _ ← update_inode dir (with_number number);
    _ ← update_inode dir (with_parent parent);
    _ ← update_inode dir (with_hard_target 0);
    _ ← update_inode dir (with_first_child 0);
    _ ← update_inode dir (with_next 0);
    t ← unix_time now;
    _ ← set_inode_timestamps dir t t t;
    _ ← init_vnode dir VFS_NODE_DIR;
    mret dir.

(** The name is the empty string literal at [EMPTY_NAME]. *)
Definition EMPTY_NAME : Z := 1100.
Definition create_root : prog W Z :=
  root ← calloc_inode;
  if root =? 0 then mret 0
  else
    _ ← update_inode root (with_name EMPTY_NAME 0 false);
    _ ← update_inode root (with_buf 0 0 false);
    _ ← update_inode root (with_len 0);
    _ ← update_inode root (with_parent 0);
    _ ← update_inode root (with_hard_target 0);
    _ ← update_inode root (with_first_child 0);
    _ ← update_inode root (with_next 0);
    number ← next_number;
    _ ← update_inode root (with_number number);
    t ← unix_time now;
    _ ← set_inode_timestamps root t t t;
    _ ← init_vnode root VFS_NODE_DIR;
    mret root.

(** [parent->modified_timestamp = dir->modified_timestamp; ...]. *)
Definition copy_dir_times (dir : Z) : prog W unit :=
  d ← node dir;
  let parent := n_fs_data d in
  _ ← update_inode parent (λ i, with_times (i_accessed i) (modified_timestamp d) (i_changed_mdt i) i);
  _ ← update_inode parent (λ i, with_times (i_accessed i) (i_modified i) (changed_mdt_timestamp d) i);
  sync_vnode_timestamps parent.

(** *** Vnode operations *)
Definition initrd_lookup (dir : Z) (name : list Z) : prog W (vfs_status * Z) :=
  if dir =? 0 then mret (VFS_STATUS_NOTDIR, 0)
  else
    d ← node dir;
    if negb (bool_decide (n_type d = VFS_NODE_DIR)) then mret (VFS_STATUS_NOTDIR, 0)
    else
      dir_inode ← inode (n_fs_data d);
      child ← find_child (i_first_child dir_inode) name;
      if child =? 0 then mret (VFS_STATUS_NOENT, 0)
      else
        c ← inode child;
        let vnode := if i_hard_target c =? 0 then child else i_hard_target c in
        _ ← vfs_vnode_borrow vnode;
        mret (VFS_STATUS_OK, vnode).

Definition initrd_parent (dir : Z) : prog W (vfs_status * Z) :=
  if dir =? 0 then mret (VFS_STATUS_INVALID_ARG, 0)
  else
    d ← node dir;
    if n_fs_data d =? 0 then mret (VFS_STATUS_NOENT, 0)
    else
      i ← inode (n_fs_data d);
      let parent := if i_parent i =? 0 then n_fs_data d else i_parent i in
      _ ← vfs_vnode_borrow parent;
      mret (VFS_STATUS_OK, parent).

(** The name is a view of memory; it is what the caller reads there. *)
Definition initrd_name (v : Z) : prog W (vfs_status * option (list Z)) :=
  if v =? 0 then mret (VFS_STATUS_INVALID_ARG, None)
  else
    n ← node v;
    if n_fs_data n =? 0 then mret (VFS_STATUS_NOENT, None)
    else
      i ← inode (n_fs_data n);
      if (i_name i =? 0) || (2 ^ 32 - 1 <? i_name_size i) then mret (VFS_STATUS_NOENT, None)
      else
        x ← gets ext;
        l ← lift (read_bytes (bytes x) (i_name i) (Z.to_nat (i_name_size i)));
        mret (VFS_STATUS_OK, Some l).

(** Truncation, when the flags ask for it. *)
Definition open_truncate (v : Z) (n : vfs_node) (flags : Z) : prog W unit :=
  when (flag_set flags VFS_OPEN_TRUNC && flag_set flags VFS_OPEN_WRITE &&
        bool_decide (n_type n = VFS_NODE_FILE))
    (let a := n_fs_data n in
     t ← unix_time now;
     _ ← update_inode a (with_len 0);
     _ ← update_node v (with_modified t);
     _ ← update_inode a (λ i, with_times (i_accessed i) t t i);
     sync_vnode_timestamps a).

Definition initrd_open (v flags : Z) : prog W (vfs_status * Z) :=
  if v =? 0 then mret (VFS_STATUS_INVALID_ARG, 0)
  else
    n ← node v;
    if flag_set flags VFS_OPEN_DIRECTORY && negb (bool_decide (n_type n = VFS_NODE_DIR))
    then mret (VFS_STATUS_NOTDIR, 0)
    else if flag_set flags VFS_OPEN_READ && negb (bool_decide (n_type n = VFS_NODE_FILE))
    then mret (VFS_STATUS_ISDIR, 0)
    else
      f ← slab_calloc SIZEOF_INITRD_FILE;
      vf ← slab_calloc SIZEOF_VFS_FILE;
      if (f =? 0) || (vf =? 0) then
        _ ← slab_free f;
        _ ← slab_free vf;
        mret (VFS_STATUS_NOMEM, 0)
      else
        _ ← modx (λ x, set_cursors (<[f := 0]> (dir_cursors x)) x);
        _ ← (if bool_decide (n_type n = VFS_NODE_DIR) then
               i ← inode (n_fs_data n);
               modx (λ x, set_cursors (<[f := i_first_child i]> (dir_cursors x)) x)
             else mret tt);
        _ ← modify (λ w, set_files (<[vf := MkFile v INITRD_VFILE_OPS flags 1 0 f]> (files w)) w);
        _ ← open_truncate v n flags;
        _ ← (if flag_set flags VFS_OPEN_APPEND && bool_decide (n_type n = VFS_NODE_FILE) then
               i ← inode (n_fs_data n);
               update_file vf (λ g, MkFile (f_vnode g) (f_ops g) (f_flags g) (f_refcount g) (i_len i) (f_fs_data g))
             else mret tt);
        mret (VFS_STATUS_OK, vf).

Definition initrd_free (v : Z) : prog W unit :=
  if v =? 0 then mret tt
  else
    n ← node v;
    let a := n_fs_data n in
    if a =? 0 then mret tt
    else
      i ← inode a;
      _ ← when (i_name_owned i) (free_bytes (i_name i));
      _ ← when (i_buf_owned i) (free_bytes (i_buf i));
      slab_free a.

Definition initrd_create_file (dir : Z) (name : list Z) : prog W (vfs_status * Z) :=
  if dir =? 0 then mret (VFS_STATUS_INVALID_ARG, 0)
  else
    d ← node dir;
    if negb (bool_decide (n_type d = VFS_NODE_DIR)) || negb (vfs_validate_name (Some name))
    then mret (VFS_STATUS_INVALID_ARG, 0)
    else
      a ← calloc_inode;
      if a =? 0 then mret (VFS_STATUS_NOMEM, 0)
      else
        file_name ← clone_name name false;
        if file_name =? 0 then _ ← slab_free a; mret (VFS_STATUS_NOMEM, 0)
        else
          t ← unix_time now;
          _ ← set_inode_timestamps a t t t;
          _ ← init_vnode a VFS_NODE_FILE;
          _ ← update_inode a (with_name file_name (Z.of_nat (length name)) true);
          number ← next_number;
          _ ← update_inode a (with_number number);
          _ ← update_inode a (with_buf 0 0 false);
          _ ← update_inode a (with_len 0);
          _ ← update_inode a (with_parent (n_fs_data d));
          _ ← update_inode a (with_hard_target 0);
          _ ← add_child (n_fs_data d) a;
          _ ← copy_dir_times dir;
          _ ← vfs_vnode_borrow a;
          mret (VFS_STATUS_OK, a).

Definition initrd_create_dir (dir : Z) (name : list Z) : prog W (vfs_status * Z) :=
  if dir =? 0 then mret (VFS_STATUS_INVALID_ARG, 0)
  else
    d ← node dir;
    if negb (bool_decide (n_type d = VFS_NODE_DIR)) then mret (VFS_STATUS_INVALID_ARG, 0)
    else
      let name := trim_slashes name in
      if negb (vfs_validate_name (Some name)) then mret (VFS_STATUS_INVALID_ARG, 0)
      else
        a ← create_dir name (n_fs_data d);
        if a =? 0 then mret (VFS_STATUS_NOMEM, 0)
        else
          _ ← add_child (n_fs_data d) a;
          _ ← copy_dir_times dir;
          _ ← vfs_vnode_borrow a;
          mret (VFS_STATUS_OK, a).

Definition initrd_delete_file (dir : Z) (name : list Z) (flags : Z) : prog W vfs_status :=
  if dir =? 0 then mret VFS_STATUS_INVALID_ARG
  else
    d ← node dir;
    if negb (bool_decide (n_type d = VFS_NODE_DIR)) || bool_decide (name = []) then mret VFS_STATUS_INVALID_ARG
    else
      idir ← inode (n_fs_data d);
      child ← find_child (i_first_child idir) name;
      if child =? 0 then mret VFS_STATUS_NOENT
      else
        c ← node child;
        if bool_decide (n_type c = VFS_NODE_DIR) then mret VFS_STATUS_ISDIR
        else
          detached ← detach_child child;
          if detached =? 0 then mret VFS_STATUS_NOENT
          else
            i ← inode detached;
            _ ← when (negb (i_hard_target i =? 0)) (initrd_free detached);
            mret VFS_STATUS_OK.

Definition initrd_delete_dir (dir : Z) (name : list Z) (flags : Z) : prog W vfs_status :=
  if dir =? 0 then mret VFS_STATUS_INVALID_ARG
  else
    d ← node dir;
    if negb (bool_decide (n_type d = VFS_NODE_DIR)) || bool_decide (name = []) then mret VFS_STATUS_INVALID_ARG
    else
      idir ← inode (n_fs_data d);
      child ← find_child (i_first_child idir) name;
      if child =? 0 then mret VFS_STATUS_NOENT
      else
        c ← node child;
        if negb (bool_decide (n_type c = VFS_NODE_DIR)) then mret VFS_STATUS_NOTDIR
        else
          ci ← inode child;
          if negb (i_first_child ci =? 0) then mret VFS_STATUS_NOTEMPTY
          else
            detached ← detach_child child;
            mret (if detached =? 0 then VFS_STATUS_NOENT else VFS_STATUS_OK).

Definition initrd_link (dir : Z) (name : list Z) (target : Z) : prog W vfs_status :=
  if (dir =? 0) || (target =? 0) then mret VFS_STATUS_INVALID_ARG
  else
    d ← node dir;
    t ← node target;
    if negb (bool_decide (n_type d = VFS_NODE_DIR)) || negb (bool_decide (n_type t = VFS_NODE_FILE)) ||
       negb (vfs_validate_name (Some name))
    then mret VFS_STATUS_INVALID_ARG
    else
      let parent := n_fs_data d in
      p ← inode parent;
      found ← find_child (i_first_child p) name;
      if negb (found =? 0) then mret VFS_STATUS_EXISTS
      else
        alias ← calloc_inode;
        if alias =? 0 then mret VFS_STATUS_NOMEM
        else
          link_name ← clone_name name false;
          if link_name =? 0 then _ ← slab_free alias; mret VFS_STATUS_NOMEM
          else
            tm ← unix_time now;
            _ ← set_inode_timestamps alias tm tm tm;
            _ ← init_vnode alias VFS_NODE_FILE;
            _ ← update_inode alias (with_name link_name (Z.of_nat (length name)) true);
            number ← next_number;
            _ ← update_inode alias (with_number number);
            _ ← update_inode alias (with_buf 0 0 false);
            _ ← update_inode alias (with_len 0);
            _ ← update_inode alias (with_parent parent);
            _ ← update_inode alias (with_hard_target (n_fs_data t));
            _ ← update_inode alias (with_first_child 0);
            _ ← update_inode alias (with_next 0);
            _ ← add_child parent alias;
            _ ← copy_dir_times dir;
            mret VFS_STATUS_OK.

Definition initrd_symlink (dir : Z) (name target : list Z) : prog W (vfs_status * Z) :=
  if dir =? 0 then mret (VFS_STATUS_INVALID_ARG, 0)
  else
    d ← node dir;
    if negb (bool_decide (n_type d = VFS_NODE_DIR)) || negb (vfs_validate_name (Some name)) ||
       bool_decide (target = [])
    then mret (VFS_STATUS_INVALID_ARG, 0)
    else
      let parent := n_fs_data d in
      p ← inode parent;
      found ← find_child (i_first_child p) name;
      if negb (found =? 0) then mret (VFS_STATUS_EXISTS, 0)
      else
        link ← calloc_inode;
        if link =? 0 then mret (VFS_STATUS_NOMEM, 0)
        else
          link_name ← clone_name name false;
          link_target ← clone_name target false;
          if (link_name =? 0) || (link_target =? 0) then
            _ ← slab_free link;
            _ ← free_bytes link_name;
            _ ← free_bytes link_target;
            mret (VFS_STATUS_NOMEM, 0)
          else
            tm ← unix_time now;
            _ ← set_inode_timestamps link tm tm tm;
            _ ← init_vnode link VFS_NODE_SYMLINK;
            _ ← update_inode link (with_name link_name (Z.of_nat (length name)) true);
            number ← next_number;
            _ ← update_inode link (with_number number);
            _ ← update_inode link (with_buf link_target (u32 (Z.of_nat (length target) + 1)) true);
            _ ← update_inode link (with_len (Z.of_nat (length target)));
            _ ← update_inode link (with_parent parent);
            _ ← update_inode link (with_hard_target 0);
            _ ← update_inode link (with_first_child 0);
            _ ← update_inode link (with_next 0);
            _ ← add_child parent link;
            _ ← copy_dir_times dir;
            _ ← vfs_vnode_borrow link;
            mret (VFS_STATUS_OK, link).

Definition initrd_readlink (v len : Z) : prog W (vfs_status * list Z) :=
  if v =? 0 then mret (VFS_STATUS_INVALID_ARG, [])
  else
    n ← node v;
    if negb (bool_decide (n_type n = VFS_NODE_SYMLINK)) then mret (VFS_STATUS_INVALID_ARG, [])
    else
      i ← inode (n_fs_data n);
      let copy_len := if len <? i_len i then len else i_len i in
      x ← gets ext;
      l ← lift (read_bytes (bytes x) (i_buf i) (Z.to_nat copy_len));
      mret (VFS_STATUS_OK, l).

Definition initrd_stat (v : Z) : prog W (vfs_status * Z) :=
  ret ← calloc SIZEOF_STAT;
  if ret =? 0 then mret (VFS_STATUS_NOMEM, 0)
  else
    n ← node v;
    i ← inode (n_fs_data n);
    _ ← modify (λ w, set_stats (<[ret := MkStat (n_type n) (i_len i) (link_count n) (accessed_timestamp n)
                                           (modified_timestamp n) (changed_mdt_timestamp n)]> (stats w)) w);
    mret (VFS_STATUS_OK, ret).

(** *** Operations on open files *)
Definition set_offset (o : Z) (f : vfs_file) : vfs_file :=
  MkFile (f_vnode f) (f_ops f) (f_flags f) (f_refcount f) o (f_fs_data f).

Definition initrd_close (vf : Z) : prog W vfs_status :=
  f ← file vf;
  _ ← slab_free (f_fs_data f);
  _ ← slab_free vf;
  mret VFS_STATUS_OK.

(** [node->accessed_timestamp = vfile->vnode->accessed_timestamp; sync]. *)
Definition touch_accessed (a v : Z) : prog W unit :=
  n ← node v;
  _ ← update_inode a (λ i, with_times (accessed_timestamp n) (i_modified i) (i_changed_mdt i) i);
  sync_vnode_timestamps a.
Definition touch_modified (a v : Z) : prog W unit :=
  n ← node v;
  _ ← update_inode a (λ i, with_times (i_accessed i) (modified_timestamp n) (changed_mdt_timestamp n) i);
  sync_vnode_timestamps a.

Definition initrd_read (vf buffer len : Z) : prog W (vfs_status * Z) :=
  if (vf =? 0) || (buffer =? 0) then mret (VFS_STATUS_INVALID_ARG, 0)
  else
    f ← file vf;
    v ← node (f_vnode f);
    let a := n_fs_data v in
    if len =? 0 then _ ← touch_accessed a (f_vnode f); mret (VFS_STATUS_OK, 0)
    else
      i ← inode a;
      if i_len i <=? f_offset f then mret (VFS_STATUS_OK, 0)
      else
        let remaining := u64 (i_len i - f_offset f) in
        let size_to_copy := if remaining <? len then remaining else len in
        _ ← sched_postpone;
        _ ← memcpy buffer (i_buf i + f_offset f) size_to_copy;
        _ ← update_file vf (λ g, set_offset (u64 (f_offset g + size_to_copy)) g);
        _ ← when (0 <? size_to_copy) (touch_accessed a (f_vnode f));
        _ ← sched_resume;
        mret (VFS_STATUS_OK, size_to_copy).

(** [file->offset += len; if (file->offset > inode->len) ...; timestamps]. *)
Definition advance_write (vf a v len : Z) : prog W unit :=
  _ ← update_file vf (λ g, set_offset (u64 (f_offset g + len)) g);
  f ← file vf;
  i ← inode a;
  _ ← when (i_len i <? f_offset f) (update_inode a (with_len (f_offset f)));
  when (0 <? len) (touch_modified a v).

(** The data fits the buffer there is. *)
Definition write_in_place (vf a v offset buffer len : Z) : prog W (vfs_status * Z) :=
  i ← inode a;
  _ ← sched_postpone;
  _ ← memcpy (i_buf i + offset) buffer len;
  _ ← advance_write vf a v len;
  _ ← sched_resume;
  mret (VFS_STATUS_OK, len).
(** The contents move to a new buffer. *)
Definition write_new_buffer (vf a v offset buffer len fsize new_size : Z) : prog W (vfs_status * Z) :=
  new_buf ← calloc_bytes new_size;
  if new_buf =? 0 then mret (VFS_STATUS_NOMEM, 0)
  else
    i ← inode a;
    _ ← sched_postpone;
    _ ← when (negb (i_buf i =? 0) && (0 <? fsize)) (memcpy new_buf (i_buf i) fsize);
    _ ← memcpy (new_buf + offset) buffer len;
    let old := i_buf i in
    let old_buf_owned := i_buf_owned i in
    _ ← update_inode a (with_buf new_buf new_size true);
    _ ← advance_write vf a v len;
    _ ← when old_buf_owned (free_bytes old);
    _ ← sched_resume;
    mret (VFS_STATUS_OK, len).
(** The first buffer of an inode: whether there is one now, and its size. *)
Definition write_first_buffer (a : Z) (i : initrd_inode) (new_size : Z) : prog W (bool * Z) :=
  if (i_buf i =? 0) || (i_bufsize i =? 0) then
    _ ← sched_postpone;
    new_buf ← calloc_bytes new_size;
    _ ← sched_resume;
    if new_buf =? 0 then mret (false, i_bufsize i)
    else _ ← update_inode a (with_buf new_buf new_size true); mret (true, new_size)
  else mret (true, i_bufsize i).

Definition initrd_write (vf buffer len : Z) : prog W (vfs_status * Z) :=
  if (vf =? 0) || (buffer =? 0) then mret (VFS_STATUS_INVALID_ARG, 0)
  else
    f ← file vf;
    v ← node (f_vnode f);
    let a := n_fs_data v in
    if len =? 0 then _ ← touch_modified a (f_vnode f); mret (VFS_STATUS_OK, 0)
    else
      i ← inode a;
      let fsize := i_len i in
      let content_size := u64 (f_offset f + len) in
      let content_size := if content_size <? fsize then fsize else content_size in
      let new_size := u64 (content_size + Z.shiftr content_size 1) in
      '(ok, bufsize) ← write_first_buffer a i new_size;
      if negb ok then mret (VFS_STATUS_NOMEM, 0)
      else if u64 (f_offset f + len) <=? bufsize
      then write_in_place vf a (f_vnode f) (f_offset f) buffer len
      else write_new_buffer vf a (f_vnode f) (f_offset f) buffer len fsize new_size.

Definition initrd_readdir (vdir : Z) : prog W (vfs_status * Z) :=
  if vdir =? 0 then mret (VFS_STATUS_NOENT, 0)
  else
    f ← file vdir;
    v ← node (f_vnode f);
    if negb (bool_decide (n_type v = VFS_NODE_DIR)) then mret (VFS_STATUS_NOTDIR, 0)
    else
      x ← gets ext;
      current ← lift (deref (dir_cursors x !! f_fs_data f));
      if current =? 0 then mret (VFS_STATUS_OK, 0)
      else
        i ← inode current;
        _ ← modx (λ x, set_cursors (<[f_fs_data f := i_next_sibling i]> (dir_cursors x)) x);
        _ ← update_file vdir (λ g, set_offset (u64 (f_offset g + 1)) g);
        ret ← calloc SIZEOF_DIRENT;
        if ret =? 0 then mret (VFS_STATUS_NOMEM, 0)
        else
          c ← node current;
          name ← read_mem (i_name i) (Z.to_nat (i_name_size i));
          name ← clone_name name (bool_decide (n_type c = VFS_NODE_DIR));
          if name =? 0 then _ ← free ret; mret (VFS_STATUS_NOMEM, 0)
          else
            _ ← modx (λ x, set_dirents (<[ret := MkDirent name (i_number i)]> (dirents x)) x);
            mret (VFS_STATUS_OK, ret).

(** [while (i-- > 0 && d_current != NULL) d_current = d_current->next_sibling]. *)
Fixpoint seek_loop (fuel : nat) (i current : Z) : prog W Z :=
  match fuel with
  | O => diverge
  | S fuel' =>
      if (i =? 0) || (current =? 0) then mret current
      else n ← inode current; seek_loop fuel' (i - 1) (i_next_sibling n)
  end.

(** An overflow of the signed sum is undefined, as is an unknown [whence]. *)
Definition initrd_seek (vf offset whence : Z) : prog W (vfs_status * Z) :=
  if vf =? 0 then mret (VFS_STATUS_INVALID_ARG, 0)
  else
    f ← file vf;
    v ← node (f_vnode f);
    i ← inode (n_fs_data v);
    let len := i_len i in
    origin ← lift (deref (if whence =? VFS_SEEK_SET then Some 0
                          else if whence =? VFS_SEEK_CUR then Some (s64 (f_offset f))
                          else if whence =? VFS_SEEK_END then Some (s64 len) else None));
    let sum := offset + origin in
    if (sum <? - 2 ^ 63) || (2 ^ 63 <=? sum) then fault
    else
      let pos := if sum <? 0 then 0 else if s64 len <? sum then len else sum in
      _ ← (if bool_decide (n_type v = VFS_NODE_DIR) then
             x ← gets ext;
             current ← seek_loop (S (size (inodes x))) pos (i_first_child i);
             _ ← lift (deref (dir_cursors x !! f_fs_data f));
             modx (λ x, set_cursors (<[f_fs_data f := current]> (dir_cursors x)) x)
           else mret tt);
      _ ← update_file vf (set_offset pos);
      mret (VFS_STATUS_OK, pos).

(** *** The tables *)
Definition initrd_vnode_ops : vfs_node_ops W :=
  MkNodeOps W (Some initrd_lookup) (Some initrd_parent) (Some initrd_name) (Some initrd_open)
    (Some initrd_create_file) (Some initrd_create_dir) (Some initrd_delete_file) (Some initrd_delete_dir)
    (Some initrd_link) (Some initrd_symlink) (Some initrd_readlink) (Some initrd_free) (Some initrd_stat).
Definition initrd_vfile_ops : vfs_file_ops W :=
  MkFileOps W (Some initrd_read) (Some initrd_write) (Some initrd_readdir) (Some initrd_seek)
    (Some initrd_close) None.
Definition no_ops : vfs_node_ops W :=
  MkNodeOps W None None None None None None None None None None None None None.
Definition no_file_ops : vfs_file_ops W := MkFileOps W None None None None None None.
Definition initrd_ops (o : Z) : vfs_node_ops W :=
  if o =? INITRD_VNODE_OPS then initrd_vnode_ops else no_ops.
Definition initrd_file_ops (o : Z) : vfs_file_ops W :=
  if o =? INITRD_VFILE_OPS then initrd_vfile_ops else no_file_ops.
End initrd.
