(* ===== verification/InitrdFs.v ===== *)
(** * InitrdFs: the ram disk behind the virtual file system

    The tree the inodes make, as [VfsWalk] wants to see a file system, and the
    proof that lookup, parent, name and readlink of [Initrd] meet its laws; the
    theorems on paths hold on a world of inodes. *)
From S2P Require Import Prelude Alloc Vfs VfsWalk VfsThm VfsPath Initrd.

Section initrd.
Context {A : Type} {alloc_A : Allocator A} {laws_A : AllocatorLaws (2 ^ 61) A}.
Abbreviation W := (vworld (iext A)).
Implicit Types (w : W).

(** ** The tree *)
Definition tree : Type := gmap Z initrd_inode * gmap Z Z.

Fixpoint siblings (I : gmap Z initrd_inode) (fuel : nat) (p : Z) : list Z :=
  match fuel with
  | O => []
  | S fuel' => match I !! p with Some i => p :: siblings I fuel' (i_next_sibling i) | None => [] end
  end.
(** The list of siblings from [p] ends. *)
Fixpoint sib_list (I : gmap Z initrd_inode) (p : Z) (l : list Z) : Prop :=
  match l with
  | [] => p = 0
  | x :: l' => p = x ∧ x ≠ 0 ∧ ∃ i, I !! x = Some i ∧ sib_list I (i_next_sibling i) l'
  end.
Definition name_of (t : tree) (i : initrd_inode) : list Z :=
  match read_bytes t.2 (i_name i) (Z.to_nat (i_name_size i)) with Ret l => l | _ => [] end.
Definition children (t : tree) (d : Z) : list Z :=
  match t.1 !! d with Some i => siblings t.1 (size t.1) (i_first_child i) | None => [] end.
Definition named (t : tree) (name : list Z) (c : Z) : bool :=
  match t.1 !! c with Some i => bool_decide (name_of t i = name) | None => false end.
Definition target_of (t : tree) (c : Z) : Z :=
  match t.1 !! c with Some i => if i_hard_target i =? 0 then c else i_hard_target i | None => c end.

#[global] Instance initrd_fs : VfsFs (iext A) tree := {
  fs_view x := (inodes x, bytes x);
  fs_child t d name :=
    match head (filter (λ c, Is_true (named t name c)) (children t d)) with
    | Some c => inr (target_of t c)
    | None => inl VFS_STATUS_NOENT
    end;
  fs_up t d := match t.1 !! d with
               | Some i => inr (if i_parent i =? 0 then d else i_parent i)
               | None => inl VFS_STATUS_NOENT
               end;
  fs_name t d := match t.1 !! d with
                 | Some i => if (i_name i =? 0) || (2 ^ 32 - 1 <? i_name_size i) then inl VFS_STATUS_NOENT
                             else inr (name_of t i)
                 | None => inl VFS_STATUS_NOENT
                 end;
  fs_target t d len :=
    match t.1 !! d with
    | Some i => match read_bytes t.2 (i_buf i) (Z.to_nat (if len <? i_len i then len else i_len i)) with
                | Ret l => inr l
                | _ => inl VFS_STATUS_INVALID_ARG
                end
    | None => inl VFS_STATUS_INVALID_ARG
    end;
  fs_ok ns t := ∀ a n, ns !! a = Some n →
    a ≠ 0 ∧ n_fs_data n = a ∧ n_ops n = INITRD_VNODE_OPS ∧ ∃ i, t.1 !! a = Some i ∧
      (i_parent i = 0 ∨ is_Some (ns !! i_parent i)) ∧
      (∃ l, read_bytes t.2 (i_name i) (Z.to_nat (i_name_size i)) = Ret l) ∧
      0 ≤ i_name_size i ∧
      (n_type n = VFS_NODE_SYMLINK → ∃ l, read_bytes t.2 (i_buf i) (Z.to_nat (i_len i)) = Ret l) ∧
      sib_list t.1 (i_first_child i) (children t a) ∧
      (∀ c, c ∈ children t a → c ≠ 0 ∧ is_Some (ns !! c) ∧ is_Some (ns !! target_of t c) ∧ target_of t c ≠ 0);
}.

(** ** The interface *)
Lemma name_eq_read m name p l :
  read_bytes m p (length name) = Ret l → name_eq m name p = Ret (bool_decide (l = name)).
Proof.
  revert p l. induction name as [|c name IH]; intros p l; cbn [read_bytes length name_eq].
  { intros [= <-]. done. }
  unfold deref. destruct (m !! p) as [b|]; [|done]. cbn [mbind outcome_bind].
  destruct (read_bytes m (p + 1) (length name)) as [l'| | |] eqn:E; cbn [mbind outcome_bind]; try done.
  intros [= <-]. destruct (Z.eqb_spec b c) as [->|Hne].
  - rewrite (IH _ _ E). f_equal. apply bool_decide_ext. naive_solver.
  - rewrite bool_decide_eq_false_2; [done|naive_solver].
Qed.
Lemma read_bytes_length m p n l : read_bytes m p n = Ret l → length l = n.
Proof.
  revert p l. induction n as [|n IH]; intros p l; cbn [read_bytes]; [by intros [= <-]|].
  unfold deref. destruct (m !! p); [|done]. cbn [mbind outcome_bind].
  destruct (read_bytes m (p + 1) n) as [l'| | |] eqn:E; cbn [mbind outcome_bind]; try done.
  intros [= <-]. cbn [length]. by rewrite (IH _ _ E).
Qed.
Lemma read_bytes_prefix m p n k l :
  read_bytes m p n = Ret l → (k ≤ n)%nat → read_bytes m p k = Ret (take k l).
Proof.
  revert p n l. induction k as [|k IH]; intros p n l Hl Hk; [done|]. destruct n as [|n]; [lia|].
  cbn [read_bytes] in *. unfold deref in *. destruct (m !! p); [|done]. cbn [mbind outcome_bind] in *.
  destruct (read_bytes m (p + 1) n) as [l'| | |] eqn:E; cbn [mbind outcome_bind] in *; try done.
  injection Hl as <-. rewrite (IH _ _ _ E) by lia. done.
Qed.

Lemma inode_run w a i : inodes (ext w) !! a = Some i → inode a w = Ret (i, w).
Proof. intros Hi. unfold inode, mbind, prog_bind, gets, lift. rewrite Hi. done. Qed.

Definition readable (t : tree) (c : Z) : Prop :=
  ∃ i, t.1 !! c = Some i ∧ 0 ≤ i_name_size i ∧ ∃ l, read_bytes t.2 (i_name i) (Z.to_nat (i_name_size i)) = Ret l.

Lemma named_decides t name c i :
  t.1 !! c = Some i → readable t c →
  (if i_name_size i =? Z.of_nat (length name) then name_eq t.2 name (i_name i) else Ret false) =
  Ret (named t name c).
Proof.
  intros Hi (i' & Hi' & H0 & l & Hl). assert (i' = i) as -> by congruence.
  unfold named, name_of. rewrite Hi, Hl. pose proof (read_bytes_length _ _ _ _ Hl) as Hlen.
  destruct (Z.eqb_spec (i_name_size i) (Z.of_nat (length name))) as [E|Hne].
  - apply name_eq_read. rewrite E, Nat2Z.id in Hl. done.
  - rewrite bool_decide_eq_false_2; [done|]. intros ->. lia.
Qed.

Lemma find_loop_run w (t : tree) name fuel p l :
  t = (inodes (ext w), bytes (ext w)) → sib_list t.1 p l → (length l < fuel)%nat → Forall (readable t) l →
  find_child_loop fuel p name w =
    Ret (default 0 (head (filter (λ c, Is_true (named t name c)) l)), w).
Proof.
  intros Et. revert p l. induction fuel as [|fuel IH]; intros p l Hs Hlen Hall; [lia|]. cbn [find_child_loop].
  destruct l as [|x l]; cbn [sib_list] in Hs; [by subst p|]. destruct Hs as (-> & Hx & i & Hi & Hs).
  rewrite (proj2 (Z.eqb_neq x 0)) by done. apply Forall_cons in Hall as [Hr Hall].
  assert (inodes (ext w) !! x = Some i) as Hi' by (by rewrite Et in Hi).
  rewrite (bind_run _ _ _ i w (inode_run _ _ _ Hi')). rewrite (bind_run (gets ext) _ w (ext w) w eq_refl).
  erewrite (bind_run _ _ w (named t name x) w).
  2:{ pose proof (named_decides _ name x i Hi Hr) as Hn. rewrite Et in Hn at 1. cbn [snd] in Hn.
      destruct (_ =? _); [unfold lift; rewrite Hn|unfold mret, prog_ret; injection Hn as <-]; done. }
  rewrite filter_cons. destruct (named t name x) eqn:En.
  - case_decide as Hdec; [done|]. by destruct Hdec.
  - case_decide as Hdec; [by destruct Hdec|]. apply IH; [done|cbn [length] in Hlen; lia|done].
Qed.

Lemma siblings_length I fuel p : (length (siblings I fuel p) ≤ fuel)%nat.
Proof.
  revert p. induction fuel as [|fuel IH]; intros p; cbn [siblings]; [done|].
  destruct (I !! p) as [i|]; cbn [length]; [|lia]. pose proof (IH (i_next_sibling i)). lia.
Qed.

Lemma node_run w v n : nodes w !! v = Some n → node v w = Ret (n, w).
Proof. intros Hn. unfold node, mbind, prog_bind, gets, lift. rewrite Hn. done. Qed.

Lemma initrd_lookup_law w d n name :
  fs_ok (nodes w) (fs_view (ext w)) → nodes w !! d = Some n → n_type n = VFS_NODE_DIR →
  gives (fs_child (fs_view (ext w)) d name) (initrd_lookup d name) w.
Proof.
  intros Hok Hn Hty. destruct (Hok d n Hn) as (Hd & Hfs & _ & i & Hi & _ & _ & _ & _ & Hsib & Hch).
  set (t := (inodes (ext w), bytes (ext w)) : tree). change (fs_view (ext w)) with t in *.
  assert (find_child (i_first_child i) name w =
    Ret (default 0 (head (filter (λ c, Is_true (named t name c)) (children t d))), w)) as Hfind.
  { unfold find_child. rewrite (bind_run (gets ext) _ w (ext w) w eq_refl).
    apply find_loop_run; [done|done| |].
    - unfold children. rewrite Hi. pose proof (siblings_length t.1 (size t.1) (i_first_child i)). cbn in *. lia.
    - apply Forall_forall. intros c Hc. destruct (Hch c Hc) as (_ & [nc Hnc] & _).
      destruct (Hok c nc Hnc) as (_ & _ & _ & j & Hj & _ & Hl & H0 & _). by exists j. }
  assert (∀ r, (child ← find_child (i_first_child i) name; r child) w =
    (r : Z → prog W (vfs_status * Z)) (default 0 (head (filter (λ c, Is_true (named t name c)) (children t d)))) w)
    as Hbind by (intros r; exact (bind_run _ _ _ _ _ Hfind)).
  unfold fs_child, initrd_fs. unfold initrd_lookup. rewrite (proj2 (Z.eqb_neq d 0)) by done.
  unfold gives. 
  destruct (head (filter (λ c, Is_true (named t name c)) (children t d))) as [c|] eqn:Eh; cbn [default from_option id] in Hbind.
  - assert (c ∈ children t d) as Hc.
    { apply head_Some_elem_of, list_elem_of_filter in Eh. by destruct Eh. }
    destruct (Hch c Hc) as (Hc0 & [nc Hnc] & Htgt & Htgt0). split; [done|]. split; [done|].
    rewrite (bind_run _ _ _ _ _ (node_run _ _ _ Hn)). rewrite bool_decide_eq_true_2 by done. cbn [negb].
    rewrite Hfs. rewrite (bind_run _ _ _ i w (inode_run _ _ _ Hi)). rewrite Hbind.
    rewrite (proj2 (Z.eqb_neq c 0)) by done.
    destruct (Hok c nc Hnc) as (_ & _ & _ & j & Hj & _).
    rewrite (bind_run _ _ _ j w (inode_run _ _ _ Hj)). unfold target_of. by rewrite Hj.
  - split; [done|].
    rewrite (bind_run _ _ _ _ _ (node_run _ _ _ Hn)). rewrite bool_decide_eq_true_2 by done. cbn [negb].
    rewrite Hfs. rewrite (bind_run _ _ _ i w (inode_run _ _ _ Hi)). by rewrite Hbind.
Qed.

#[global] Instance initrd_vfs_laws : VfsLaws (V := tree) initrd_ops.
Proof.
  split.
  - intros ns ns' t Hs Hok a n' Hn'. specialize (Hs a) as Ha. rewrite Hn' in Ha.
    destruct (ns !! a) as [n|] eqn:Hn; [|done].
    assert (∀ c, is_Some (ns !! c) → is_Some (ns' !! c)) as Hdom.
    { intros c [m Hm]. specialize (Hs c). rewrite Hm in Hs. destruct (ns' !! c); [by eexists|done]. }
    destruct (Hok a n Hn) as (H0 & H1 & H2 & i & Hi & Hp & Hnm & Hsz & Hsy & Hsib & Hch).
    injection Ha as Eops Ety _ _ _ _ _ Efs. split; [done|]. split; [congruence|]. split; [congruence|].
    exists i. split_and!; try done; [naive_solver|by rewrite Ety|].
    intros c Hc. destruct (Hch c Hc) as (? & ? & ? & ?). split_and!; auto.
  - intros n x p x' Hr. cbn in Hr. destruct (al_alloc n (heap x)) as [[q a]| | |]; cbn in Hr; try done.
    by injection Hr as <- <-.
  - intros p x x' Hr. cbn in Hr. destruct (al_free p (heap x)) as [[[] a]| | |]; cbn in Hr; try done.
    by injection Hr as <-.
  - intros w d n f name Hok Hn Hty _ Hf. destruct (Hok d n Hn) as (_ & _ & Hops & _).
    rewrite Hops in Hf. injection Hf as <-. by eapply initrd_lookup_law.
  - intros w d n f Hok Hn _ Hf. destruct (Hok d n Hn) as (Hd & Hfs & Hops & i & Hi & Hp & _).
    rewrite Hops in Hf. injection Hf as <-. cbn [fs_up initrd_fs]. rewrite Hi. cbn [gives].
    split; [destruct (Z.eqb_spec (i_parent i) 0); done|].
    split; [destruct (Z.eqb_spec (i_parent i) 0); [by eexists|by destruct Hp]|].
    unfold initrd_parent. rewrite (proj2 (Z.eqb_neq d 0)) by done.
    rewrite (bind_run _ _ _ _ _ (node_run _ _ _ Hn)), Hfs. rewrite (proj2 (Z.eqb_neq d 0)) by done.
    by rewrite (bind_run _ _ _ i w (inode_run _ _ _ Hi)).
  - intros w d n f Hok Hn _ Hf. destruct (Hok d n Hn) as (Hd & Hfs & Hops & i & Hi & _ & (l & Hl) & _).
    rewrite Hops in Hf. injection Hf as <-. cbn [fs_name initrd_fs]. rewrite Hi.
    assert (initrd_name d w = (if (i_name i =? 0) || (2 ^ 32 - 1 <? i_name_size i)
      then Ret ((VFS_STATUS_NOENT, None), w) else Ret ((VFS_STATUS_OK, Some (name_of (inodes (ext w), bytes (ext w)) i)), w)))
      as ->; [|by destruct (_ || _)].
    unfold initrd_name. rewrite (proj2 (Z.eqb_neq d 0)) by done.
    rewrite (bind_run _ _ _ _ _ (node_run _ _ _ Hn)), Hfs. rewrite (proj2 (Z.eqb_neq d 0)) by done.
    rewrite (bind_run _ _ _ i w (inode_run _ _ _ Hi)). destruct (_ || _); [done|].
    rewrite (bind_run (gets ext) _ w (ext w) w eq_refl). unfold name_of. cbn in Hl |- *. by rewrite Hl.
  - intros w d n f len Hok Hn Hty _ Hf. destruct (Hok d n Hn) as (Hd & Hfs & Hops & i & Hi & _ & _ & _ & Hb & _).
    destruct (Hb Hty) as (l & Hl). rewrite Hops in Hf. injection Hf as <-. cbn [fs_target initrd_fs]. rewrite Hi.
    cbn [fs_view initrd_fs snd] in Hl |- *.
    assert (∃ l', read_bytes (bytes (ext w)) (i_buf i) (Z.to_nat (if len <? i_len i then len else i_len i)) = Ret l')
      as (l' & Hl').
    { eexists. eapply read_bytes_prefix; [exact Hl|]. destruct (Z.ltb_spec len (i_len i)); lia. }
    rewrite Hl'. cbn [tells]. unfold initrd_readlink. rewrite (proj2 (Z.eqb_neq d 0)) by done.
    rewrite (bind_run _ _ _ _ _ (node_run _ _ _ Hn)). rewrite bool_decide_eq_true_2 by done. cbn [negb].
    rewrite Hfs. rewrite (bind_run _ _ _ i w (inode_run _ _ _ Hi)).
    rewrite (bind_run (gets ext) _ w (ext w) w eq_refl). by rewrite Hl'.
Qed.
End initrd.

(** ** A world *)

(** [/] (100) holds [etc] (200) and [ln] (300), a link to [etc]; [etc/sub] (400) is
    covered by a second disk with root 600, which holds the file [x] (700). *)
Definition dir_node (m a : Z) : vfs_node := MkNode INITRD_VNODE_OPS VFS_NODE_DIR 0 1 0 0 0 m a.
Definition demo_nodes : gmap Z vfs_node :=
  <[100 := dir_node 10 100]> (<[200 := dir_node 0 200]>
  (<[300 := MkNode INITRD_VNODE_OPS VFS_NODE_SYMLINK 0 1 0 0 0 0 300]>
  (<[400 := dir_node 20 400]> (<[600 := dir_node 20 600]>
  (<[700 := MkNode INITRD_VNODE_OPS VFS_NODE_FILE 0 1 0 0 0 0 700]> ∅))))).
Definition demo_inode (name size parent child next : Z) : initrd_inode :=
  MkInode 0 name size false 0 0 false 0 0 0 0 parent 0 child next.
Definition demo_inodes : gmap Z initrd_inode :=
  <[100 := demo_inode 1100 0 0 200 0]> (<[200 := demo_inode 1000 3 100 400 300]>
  (<[300 := MkInode 0 1010 2 false 1040 4 true 3 0 0 0 100 0 0 0]>
  (<[400 := demo_inode 1020 3 200 0 0]> (<[600 := demo_inode 1100 0 0 700 0]>
  (<[700 := demo_inode 1030 1 600 0 0]> ∅))))).
Definition demo_bytes : gmap Z Z :=
  list_to_map [(1000, 101); (1001, 116); (1002, 99); (1010, 108); (1011, 110);
               (1020, 115); (1021, 117); (1022, 98); (1030, 120); (1040, 101); (1041, 116); (1042, 99)].
Definition demo_world : vworld (iext bump) :=
  MkWorld demo_nodes (<[10 := MkMount 0 100 0 0]> (<[20 := MkMount 400 600 10 0]> ∅)) ∅ ∅ 10
    (Some (MkVproc 200 (replicate 256 0))) (MkExt demo_inodes demo_bytes ∅ ∅ 6 0 0 (MkBump 5000 100 ∅) (MkBump 5000 100 ∅)).

(** The entries of a literal map. *)
Ltac map_cases H :=
  repeat (apply lookup_insert_Some in H as [[<- <-]|[_ H]]); [..|by rewrite lookup_empty in H].

Lemma demo_fs_ok : @fs_ok (iext bump) tree initrd_fs (nodes demo_world) (fs_view (ext demo_world)).
Proof.
  intros a n Hn. cbn [nodes demo_world] in Hn. unfold demo_nodes in Hn.
  map_cases Hn; (split; [done|]); (split; [done|]); (split; [done|]); eexists; (split; [reflexivity|]);
    (split; [first [by left|right; by eexists]|]); (split; [eexists; vm_compute; reflexivity|]);
    (split; [done|]); (split; [first [done|intros _; eexists; vm_compute; reflexivity]|]).
  all: split; [vm_compute; repeat (split; [done|]; split; [done|]; eexists; split; [reflexivity|]); reflexivity|].
  all: intros c Hc;
    match type of Hc with _ ∈ ?l => let l' := eval vm_compute in l in change (c ∈ l') in Hc end;
    rewrite ?elem_of_cons, elem_of_nil in Hc; naive_solver (first [by eexists|done]).
Qed.

Lemma demo_ok : vfs_ok demo_world.
Proof.
  split.
  - intros v n Hn. cbn [nodes demo_world] in Hn. unfold demo_nodes in Hn. map_cases Hn; cbn; lia.
  - intros v n Hn. cbn [nodes demo_world] in Hn. unfold demo_nodes in Hn.
    map_cases Hn; cbn; intros; first [done|by eexists].
  - intros m t Hm. cbn [mounts demo_world] in Hm. map_cases Hm; (split; [done|by eexists]).
  - intros m t Hm. cbn [mounts demo_world] in Hm. map_cases Hm; intros ?; [done|split; [done|by eexists]].
  - intros m t Hm. cbn [mounts demo_world] in Hm. map_cases Hm; intros ?; [done|by eexists].
  - intros _. by eexists.
  - intros p [= <-] _. split; [done|by eexists].
  - apply demo_fs_ok.
  - split; [split; [done|]|done]. intros p n Hp. cbn in Hp; by rewrite lookup_empty in Hp.
Qed.

(** [/ln/./sub/x] from anywhere, through the link and the mount. *)
Definition demo_path : list Z := [47; 108; 110; 47; 46; 47; 115; 117; 98; 47; 120].

Example demo_lookup :
  resolve_path initrd_ops demo_world 0 false 40 (Some demo_path) = inr (MkResult 700 None).
Proof. vm_compute. reflexivity. Qed.

Lemma vfs_lookup_resolves_witness :
  ∃ r w', vfs_lookup_at initrd_ops 0 (Some demo_path) true demo_world = Ret (r, w') ∧
    looked_up demo_world (inl VFS_STATUS_LOOP) (inr (MkResult 700 None)) r w'.
Proof.
  destruct (vfs_lookup_resolves initrd_ops demo_world 0 demo_path) as (r & w' & Hr & HQ);
    [apply demo_ok|by left|done|].
  exists r, w'. split; [exact Hr|]. exact HQ.
Defined.

(** Creating [ln/new] is refused, although [etc/new] could be created. *)
Definition demo_new : list Z := [108; 110; 47; 110; 101; 119].
Lemma parent_through_link_fails_witness :
  ∃ s w', lookup_parent_entry initrd_ops (Some ([47] ++ demo_new)) demo_world = Ret ((s, (0, None)), w') ∧
    s ≠ VFS_STATUS_OK ∧ held demo_world [] (al_live (ext demo_world)) w'.
Proof.
  apply (parent_through_link_fails initrd_ops demo_world ([47] ++ demo_new)); [apply demo_ok|done|done|].
  vm_compute. split; [done|]. by left.
Defined.

(** The root of the second disk is [/etc/sub]. *)
Definition etc : list Z := [101; 116; 99].
Definition sub : list Z := [115; 117; 98].
Ltac vm_refl := vm_compute; reflexivity.
Lemma demo_path_of : path_of initrd_ops demo_world 600 [etc; sub].
Proof.
  change [etc; sub] with (([] ++ [trim_slashes etc]) ++ [trim_slashes sub]).
  assert (name_ok (trim_slashes etc) ∧ name_ok (trim_slashes sub)) as [H1 H2]
    by (split; (split; [done|]); split_and!; try done; vm_compute; set_solver).
  apply (path_child initrd_ops demo_world 600 400 200 (dir_node 20 400) sub ([] ++ [trim_slashes etc]));
    [|vm_refl|exact H2|vm_refl|vm_refl|vm_refl|vm_compute; discriminate|split; [done|by eexists]|
     |vm_refl|vm_refl|vm_refl|vm_refl|discriminate|vm_refl].
  - apply (path_child initrd_ops demo_world 200 200 100 (dir_node 0 200) etc []);
      [|vm_refl|exact H1|vm_refl|vm_refl|vm_refl|vm_compute; discriminate|split; [done|by eexists]|
       |vm_refl|vm_refl|vm_refl|vm_refl|discriminate|vm_refl].
    + exact (path_root initrd_ops demo_world).
    + vm_compute. reflexivity.
  - vm_compute. split; [done|]. split; [done|]. eexists. by split.
Qed.

Lemma getcwd_lookup_roundtrip_witness :
  (∃ s b w', vfs_getcwd initrd_ops 600 (Some (replicate 16 7)) demo_world = Ret ((s, b), w') ∧
     s = VFS_STATUS_OK ∧ take 9 b = [47; 101; 116; 99; 47; 115; 117; 98; 0]) ∧
  ∃ w', vfs_lookup_at initrd_ops 0 (Some [47; 101; 116; 99; 47; 115; 117; 98]) true demo_world =
        Ret ((VFS_STATUS_OK, 600), w').
Proof.
  destruct (getcwd_lookup_roundtrip initrd_ops demo_world 600 [etc; sub] (replicate 16 7) 0)
    as [(s & b & w' & Hr & _ & Hs & Hb) (w2 & Hr2 & _)];
    [apply demo_ok|done|vm_compute; reflexivity|apply demo_path_of|cbn; lia|done|done|by left|].
  split; [exists s, b, w'; by split_and!|by exists w2].
Defined.
