(* ===== verification/InitrdMem.v ===== *)
(** * InitrdMem: bytes and steps of the ram disk

    What the byte memory of [Initrd] does: reading, copying between disjoint
    ranges, new and released blocks; and the weakest preconditions of the basic
    steps, shared by the proofs on files and on the tree. *)
From S2P Require Import Prelude Alloc Vfs Initrd.

(** ** Bytes *)
Section bytes.
Implicit Types (m : gmap Z Z) (l : list Z).

(** [m] holds [l] at [p]. *)
Definition holds m (p : Z) l : Prop := ∀ i c, l !! i = Some c → m !! (p + Z.of_nat i) = Some c.

Lemma holds_nil m p : holds m p [].
Proof. by intros i c. Qed.
Lemma holds_cons m p c l : holds m p (c :: l) ↔ m !! p = Some c ∧ holds m (p + 1) l.
Proof.
  split.
  - intros H. split; [by rewrite <- (H 0%nat c), Z.add_0_r|]. intros i d Hi. rewrite <- (H (S i) d Hi). f_equal. lia.
  - intros [H0 H] [|i] d; cbn; [intros [= <-]; by rewrite Z.add_0_r|]. intros Hi. rewrite <- (H i d Hi). f_equal. lia.
Qed.
Lemma read_holds m p n l : read_bytes m p n = Ret l ↔ length l = n ∧ holds m p l.
Proof.
  revert p l. induction n as [|n IH]; intros p l; cbn [read_bytes].
  - split; [intros [= <-]; by split; [|apply holds_nil]|]. intros [Hl _]. by rewrite (nil_length_inv _ Hl).
  - unfold deref. destruct (m !! p) as [b|] eqn:Eb; cbn [mbind outcome_bind].
    2:{ split; [done|]. intros [Hl Hh]. destruct l as [|c l]; [done|]. apply holds_cons in Hh. naive_solver congruence. }
    split.
    + destruct (read_bytes m (p + 1) n) as [l'| | |] eqn:E; cbn [mbind outcome_bind]; try done. intros [= <-].
      apply IH in E as [Hl' Hh']. split; [by cbn; rewrite Hl'|]. by apply holds_cons.
    + intros [Hl Hh]. destruct l as [|c l]; [done|]. apply holds_cons in Hh as [Hc Hh].
      assert (read_bytes m (p + 1) n = Ret l) as -> by (apply IH; split; [by injection Hl|done]).
      cbn [mbind outcome_bind]. congruence.
Qed.
Lemma holds_app m p l k : holds m p (l ++ k) ↔ holds m p l ∧ holds m (p + Z.of_nat (length l)) k.
Proof.
  revert p. induction l as [|c l IH]; intros p; cbn [app length].
  - rewrite Z.add_0_r. split; [|naive_solver]. intros H. split; [apply holds_nil|done].
  - rewrite !holds_cons, IH. replace (p + 1 + Z.of_nat (length l)) with (p + Z.of_nat (S (length l))) by lia. naive_solver.
Qed.
Lemma holds_ext m m' p l :
  holds m p l → (∀ x, p ≤ x < p + Z.of_nat (length l) → m' !! x = m !! x) → holds m' p l.
Proof. intros H He i c Hi. rewrite He; [by apply H|]. apply lookup_lt_Some in Hi. lia. Qed.
Lemma holds_drop m p l n : holds m p l → (n ≤ length l)%nat → holds m (p + Z.of_nat n) (drop n l).
Proof.
  intros H Hn. rewrite <- (take_drop n l) in H. apply holds_app in H as [_ H].
  by rewrite length_take, Nat.min_l in H by done.
Qed.
Lemma holds_take m p l n : holds m p l → holds m p (take n l).
Proof. intros H. rewrite <- (take_drop n l) in H. by apply holds_app in H as [H _]. Qed.
(** Mapped memory holds some bytes. *)
Lemma holds_some m p n :
  (∀ x, p ≤ x < p + Z.of_nat n → is_Some (m !! x)) → ∃ l, length l = n ∧ holds m p l.
Proof.
  revert p. induction n as [|n IH]; intros p Hx; [exists []; split; [done|apply holds_nil]|].
  destruct (Hx p ltac:(lia)) as [c Hc]. destruct (IH (p + 1)) as (l & Hl & Hh); [intros x Hr; apply Hx; lia|].
  exists (c :: l). split; [by cbn; rewrite Hl|]. by apply holds_cons.
Qed.
Lemma holds_mapped m p l x : holds m p l → p ≤ x < p + Z.of_nat (length l) → is_Some (m !! x).
Proof.
  intros H Hx. destruct (lookup_lt_is_Some_2 l (Z.to_nat (x - p))) as [c Hc]; [lia|].
  exists c. rewrite <- (H _ _ Hc). f_equal. lia.
Qed.

Lemma init_out l p m x : x < p ∨ p + Z.of_nat (length l) ≤ x → init_bytes l p m !! x = m !! x.
Proof.
  revert p. induction l as [|c l IH]; intros p Hx; cbn [init_bytes length] in *; [done|].
  rewrite lookup_insert_ne by lia. apply IH. lia.
Qed.
Lemma init_holds l p m : holds (init_bytes l p m) p l.
Proof.
  revert p. induction l as [|c l IH]; intros p; [apply holds_nil|]. cbn [init_bytes]. apply holds_cons.
  split; [by rewrite lookup_insert_eq|]. eapply holds_ext; [apply IH|]. intros x Hx. by rewrite lookup_insert_ne by lia.
Qed.
Lemma init_mapped l p m x : is_Some (m !! x) → is_Some (init_bytes l p m !! x).
Proof.
  intros Hx. destruct (decide (p ≤ x < p + Z.of_nat (length l))) as [Hin|Hout].
  - eapply holds_mapped; [apply init_holds|done].
  - rewrite init_out by lia. done.
Qed.

Lemma init_in l p m x : p ≤ x < p + Z.of_nat (length l) → init_bytes l p m !! x = l !! Z.to_nat (x - p).
Proof.
  intros Hx. destruct (lookup_lt_is_Some_2 l (Z.to_nat (x - p))) as [c Hc]; [lia|]. rewrite Hc.
  rewrite <- (init_holds l p m _ _ Hc). f_equal. lia.
Qed.
Lemma init_cong l p m m' x : m !! x = m' !! x → init_bytes l p m !! x = init_bytes l p m' !! x.
Proof.
  intros E. destruct (decide (p ≤ x < p + Z.of_nat (length l))); [by rewrite !init_in|by rewrite !init_out by lia].
Qed.
Lemma intervals_apart a n b k : 0 < n → 0 < k → (∀ x, a ≤ x < a + n → ¬ b ≤ x < b + k) → a + n ≤ b ∨ b + k ≤ a.
Proof. intros Hn Hk H. specialize (H (Z.max a b)). lia. Qed.

(** Copying between disjoint ranges. *)
Lemma copy_run n d s m l :
  length l = n → holds m s l → (∀ x, d ≤ x < d + Z.of_nat n → is_Some (m !! x)) →
  d + Z.of_nat n ≤ s ∨ s + Z.of_nat n ≤ d → copy_bytes n d s m = Ret (init_bytes l d m).
Proof.
  revert d s m l. induction n as [|n IH]; intros d s m l Hl Hs Hd Hdis.
  { by rewrite (nil_length_inv _ Hl). }
  destruct l as [|c l]; [done|]. injection Hl as Hl. apply holds_cons in Hs as [Hc Hs]. cbn [copy_bytes init_bytes].
  destruct (Hd d ltac:(lia)) as [o Ho]. rewrite Hc. cbn [deref mbind outcome_bind]. rewrite Ho.
  cbn [deref mbind outcome_bind]. rewrite (IH _ _ _ l); [|done| | |lia].
  - f_equal. clear. revert d m. assert (∀ l p d c m, d < p → init_bytes l p (<[d := c]> m) = <[d := c]> (init_bytes l p m)) as H.
    { clear. induction l as [|b l IH]; intros p d c m Hd; cbn [init_bytes]; [done|].
      rewrite IH by lia. apply insert_insert_ne. lia. }
    intros d m. apply H. lia.
  - eapply holds_ext; [done|]. intros x Hx. rewrite lookup_insert_ne by lia. done.
  - intros x Hx. destruct (decide (x = d)) as [->|]; [lia|]. rewrite lookup_insert_ne by done. apply Hd. lia.
Qed.

Lemma drop_out p n m x : x < p ∨ p + n ≤ x → drop_bytes p n m !! x = m !! x.
Proof.
  intros Hx. unfold drop_bytes. rewrite map_lookup_filter. destruct (m !! x) as [c|]; [|done]. cbn.
  by rewrite option_guard_True by lia.
Qed.
Lemma drop_sub p n m x c : drop_bytes p n m !! x = Some c → m !! x = Some c.
Proof. unfold drop_bytes. by intros [? _]%map_lookup_filter_Some. Qed.
End bytes.

(** ** Steps *)
Section steps.
Context {A : Type} {alloc_A : Allocator A} {laws_A : AllocatorLaws (2 ^ 61) A}.
Abbreviation W := (vworld (iext A)).
Implicit Types (w : W).

Lemma wp_inode w a i (Q : initrd_inode → W → Prop) : inodes (ext w) !! a = Some i → Q i w → wp (inode a) Q w.
Proof. intros Hi HQ. unfold inode. apply wp_bind, wp_gets. rewrite Hi. by eapply wp_lift. Qed.
Lemma wp_update_inode w a i f (Q : unit → W → Prop) :
  inodes (ext w) !! a = Some i →
  Q tt (set_ext (set_inodes (<[a := f i]> (inodes (ext w))) (ext w)) w) → wp (update_inode a f) Q w.
Proof. intros Hi HQ. unfold update_inode. apply wp_bind. eapply wp_inode; [done|]. unfold modx. by apply wp_modify. Qed.
Lemma wp_vnode w a n (Q : vfs_node → W → Prop) : nodes w !! a = Some n → Q n w → wp (node a) Q w.
Proof. intros Hi HQ. unfold node. apply wp_bind, wp_gets. rewrite Hi. by eapply wp_lift. Qed.
Lemma wp_update_node w a n f (Q : unit → W → Prop) :
  nodes w !! a = Some n → Q tt (set_nodes (<[a := f n]> (nodes w)) w) → wp (update_node a f) Q w.
Proof. intros Hi HQ. unfold update_node. apply wp_bind. eapply wp_vnode; [done|]. by apply wp_modify. Qed.
Lemma wp_file w a f (Q : vfs_file → W → Prop) : files w !! a = Some f → Q f w → wp (file a) Q w.
Proof. intros Hi HQ. unfold file. apply wp_bind, wp_gets. rewrite Hi. by eapply wp_lift. Qed.
Lemma wp_update_file w a g f (Q : unit → W → Prop) :
  files w !! a = Some g → Q tt (set_files (<[a := f g]> (files w)) w) → wp (update_file a f) Q w.
Proof. intros Hi HQ. unfold update_file. apply wp_bind. eapply wp_file; [done|]. by apply wp_modify. Qed.

Lemma wp_memcpy w d s n l (Q : unit → W → Prop) :
  0 ≤ n → Z.of_nat (length l) = n → holds (bytes (ext w)) s l →
  (∀ x, d ≤ x < d + n → is_Some (bytes (ext w) !! x)) → d + n ≤ s ∨ s + n ≤ d →
  Q tt (set_ext (set_bytes (init_bytes l d (bytes (ext w))) (ext w)) w) → wp (memcpy d s n) Q w.
Proof.
  intros Hn Hl Hs Hd Hdis HQ. unfold memcpy. apply wp_bind, wp_gets, wp_bind.
  eapply wp_lift; [eapply copy_run; [|exact Hs|..]; [lia|rewrite Z2Nat.id by lia; done|rewrite Z2Nat.id by lia; done]|].
  unfold modx. by apply wp_modify.
Qed.

(** A request to the heap. *)
Lemma wp_calloc_heap w n (Q : Z → W → Prop) :
  al_ok (heap (ext w)) → 0 < n < 2 ^ 61 →
  (∀ p a, al_ok a → al_alloc n (heap (ext w)) = Ret (p, a) → took (al_live (heap (ext w))) p n (al_live a) →
     Q p (set_ext (set_heap a (ext w)) w)) → wp (calloc n) Q w.
Proof using laws_A.
  intros Hok Hn HQ. destruct (al_alloc_law (heap (ext w)) n Hok Hn) as (p & a & Hr & Hok' & Hcase).
  unfold wp, calloc. cbn [al_alloc iext_allocator]. rewrite Hr. cbn. by apply HQ.
Qed.
Lemma wp_free_heap w p k (Q : unit → W → Prop) :
  al_ok (heap (ext w)) → al_live (heap (ext w)) !! p = Some k →
  (∀ a, al_ok a → al_free p (heap (ext w)) = Ret (tt, a) → al_live a = delete p (al_live (heap (ext w))) →
     Q tt (set_ext (set_heap a (ext w)) w)) → wp (free p) Q w.
Proof using laws_A.
  intros Hok Hp HQ. destruct (al_free_law (heap (ext w)) p k Hok Hp) as (a & Hr & Hok' & Hl).
  unfold wp, free. cbn [al_free iext_allocator]. rewrite Hr. cbn. by apply HQ.
Qed.
End steps.
