(* ===== verification/InitrdFile.v ===== *)
(** * InitrdFile: the contents of files

    Reading, writing and seeking through the virtual file system on the ram
    disk, against an abstract store: user memory, the contents of files as byte
    strings, and open files as positions in them.  Every sequence of calls on any
    number of open files behaves as the store does, over the growth and
    replacement of buffers that live in the archive or on the heap. *)
From S2P Require Import Prelude Alloc Vfs Initrd InitrdMem.

(** ** The abstract store *)
Record fstore := MkStore {
  a_mem : gmap Z Z;
  a_content : gmap Z (list Z);
  a_open : gmap Z (Z * Z * Z);
}.

(** The contents [c] with [d] written at [o]. *)
Definition splice (o : nat) (d c : list Z) : list Z := take o c ++ d ++ drop (o + length d) c.

(** ** The relation *)
Section relation.
Context {A : Type} {alloc_A : Allocator A} {arena_A : AllocatorArena A}.
Abbreviation W := (vworld (iext A)).
Implicit Types (w : W) (s : fstore).

(** An address the heap neither uses nor may hand out. *)
Definition outside w (x : Z) : Prop :=
  ¬ al_arena (heap (ext w)) x ∧ ∀ q k, al_live (heap (ext w)) !! q = Some k → x < q ∨ q + k ≤ x.

Definition in_buffer (i : initrd_inode) (x : Z) : Prop := i_buf i ≠ 0 ∧ i_buf i ≤ x < i_buf i + i_bufsize i.

(** The buffer of the inode [i] holds [c]. *)
Record buffer_ok w (i : initrd_inode) (c : list Z) : Prop := {
  bu_len : i_len i = Z.of_nat (length c);
  bu_size : Z.of_nat (length c) ≤ i_bufsize i;
  bu_null : i_buf i = 0 → c = [];
  bu_holds : holds (bytes (ext w)) (i_buf i) c;
  bu_mapped x : in_buffer i x → is_Some (bytes (ext w) !! x);
  bu_owned : i_buf_owned i = true →
    i_buf i ≠ 0 ∧ 0 < i_bufsize i ∧ ∃ k, al_live (heap (ext w)) !! i_buf i = Some k ∧ i_bufsize i ≤ k;
  bu_borrowed : i_buf_owned i = false → ∀ x, in_buffer i x → outside w x;
}.

Record file_ok w v (c : list Z) : Prop := {
  fo_node : ∃ n, nodes w !! v = Some n ∧ n_fs_data n = v ∧ n_type n = VFS_NODE_FILE;
  fo_inode : ∃ i, inodes (ext w) !! v = Some i ∧ buffer_ok w i c;
}.

Record stored w s : Prop := {
  st_heap : al_ok (heap (ext w));
  st_blocks : blocks_ok (al_live (heap (ext w)));
  st_mem x b : a_mem s !! x = Some b → bytes (ext w) !! x = Some b ∧ outside w x;
  st_mem_apart x v c i : is_Some (a_mem s !! x) → a_content s !! v = Some c →
    inodes (ext w) !! v = Some i → ¬ in_buffer i x;
  st_file v c : a_content s !! v = Some c → v ≠ 0 ∧ file_ok w v c;
  st_apart u v c d i j x : a_content s !! u = Some c → a_content s !! v = Some d → u ≠ v →
    inodes (ext w) !! u = Some i → inodes (ext w) !! v = Some j → in_buffer i x → ¬ in_buffer j x;
  st_open f v o fl : a_open s !! f = Some (v, o, fl) →
    f ≠ 0 ∧ (∃ g, files w !! f = Some g ∧ f_vnode g = v ∧ f_ops g = INITRD_VFILE_OPS ∧ f_flags g = fl ∧ f_offset g = o) ∧
    ∃ c, a_content s !! v = Some c ∧ 0 ≤ o ≤ Z.of_nat (length c);
}.

(** *** What the relation depends on *)
Definition icore (i : initrd_inode) : Z * Z * bool * Z := (i_buf i, i_bufsize i, i_buf_owned i, i_len i).
Definition ncore (n : vfs_node) : vfs_node_type * Z := (n_type n, n_fs_data n).
Record sim w w' : Prop := {
  sim_heap : heap (ext w') = heap (ext w);
  sim_bytes : bytes (ext w') = bytes (ext w);
  sim_files : files w' = files w;
  sim_inode a : icore <$> inodes (ext w') !! a = icore <$> inodes (ext w) !! a;
  sim_node a : ncore <$> nodes w' !! a = ncore <$> nodes w !! a;
}.

#[global] Instance sim_refl : Reflexive sim.
Proof. by intros w; split. Qed.
#[global] Instance sim_trans : Transitive sim.
Proof. intros w1 w2 w3 [? ? ? Hi Hn] [? ? ? Hi' Hn']. split; try congruence; intros a; by rewrite ?Hi', ?Hn'. Qed.

Lemma icore_buffer i j x : icore i = icore j → in_buffer i x ↔ in_buffer j x.
Proof. intros [= E1 E2 E3 E4]. unfold in_buffer. by rewrite E1, E2. Qed.
Lemma core_ok w w' i j c :
  heap (ext w') = heap (ext w) → bytes (ext w') = bytes (ext w) → icore j = icore i → buffer_ok w i c → buffer_ok w' j c.
Proof.
  intros Eh Eb Ec [? ? ? ? Hm Ho Hbo]. pose proof (λ x, icore_buffer j i x Ec) as Hx. injection Ec as E1 E2 E3 E4.
  split; rewrite ?E1, ?E2, ?E3, ?E4, ?Eb, ?Eh; try done.
  - intros x Hi. by apply Hm, Hx.
  - intros Ef x Hi. unfold outside. rewrite Eh. by apply Hbo, Hx.
Qed.

Lemma sim_inode_some w w' a j : sim w w' → inodes (ext w') !! a = Some j →
  ∃ i, inodes (ext w) !! a = Some i ∧ icore j = icore i.
Proof.
  intros Hs Hj. pose proof (sim_inode _ _ Hs a) as H. rewrite Hj in H. destruct (inodes (ext w) !! a) as [i|]; [|done].
  exists i. split; [done|]. cbn in H. congruence.
Qed.

Lemma stored_sim w w' s : stored w s → sim w w' → stored w' s.
Proof.
  intros [Hh Hb Hm Hma Hf Hap Ho] Hs. pose proof Hs as [Eh Eb Ef Hi Hn]. split.
  - by rewrite Eh.
  - by rewrite Eh.
  - intros x b Hx. unfold outside. rewrite Eb, Eh. by apply Hm.
  - intros x v c j Hx Hc Hj. destruct (sim_inode_some _ _ _ _ Hs Hj) as (i & Hi' & Ec).
    rewrite (icore_buffer _ _ _ Ec). by eapply Hma.
  - intros v c Hc. destruct (Hf v c Hc) as (Hv & [(n & Hnn & E1 & E2) (i & Hii & Hbu)]). split; [done|]. split.
    + specialize (Hn v). rewrite Hnn in Hn. destruct (nodes w' !! v) as [n'|]; [|done].
      exists n'. injection Hn as En1 En2. split; [done|]. split; congruence.
    + specialize (Hi v). rewrite Hii in Hi. destruct (inodes (ext w') !! v) as [j|]; [|done].
      exists j. split; [done|]. injection Hi. intros. eapply core_ok; [done|done| |done]. unfold icore. congruence.
  - intros u v c d i j x Hc Hd Huv Hi' Hj Hx.
    destruct (sim_inode_some _ _ _ _ Hs Hi') as (i0 & Hi0 & Ei). destruct (sim_inode_some _ _ _ _ Hs Hj) as (j0 & Hj0 & Ej).
    rewrite (icore_buffer _ _ _ Ej). rewrite (icore_buffer _ _ _ Ei) in Hx. by eapply (Hap u v).
  - intros f v o fl Hf'. rewrite Ef. by apply Ho.
Qed.

(** *** Changes of the world *)
Definition with_bytes (m : gmap Z Z) w : W := set_ext (set_bytes m (ext w)) w.
Definition with_inode (v : Z) (i : initrd_inode) w : W := set_ext (set_inodes (<[v := i]> (inodes (ext w))) (ext w)) w.
Definition with_file (f : Z) (g : vfs_file) w : W := set_files (<[f := g]> (files w)) w.
Definition with_heap (a : A) w : W := set_ext (set_heap a (ext w)) w.

(** The same buffer, with bytes changed elsewhere. *)
Lemma buffer_elsewhere w m i c :
  buffer_ok w i c → (∀ x, in_buffer i x → m !! x = bytes (ext w) !! x) → buffer_ok (with_bytes m w) i c.
Proof.
  intros [Hl Hs Hn Hh Hm Ho Hb] He. split; try done.
  - eapply holds_ext; [done|]. cbn. intros x Hx. apply He. split; [|lia].
    intros E. rewrite (Hn E) in Hx. cbn in Hx. lia.
  - intros x Hx. cbn. rewrite He by done. by apply Hm.
Qed.

Lemma stored_user w s b l :
  stored w s → (∀ x, b ≤ x < b + Z.of_nat (length l) → is_Some (a_mem s !! x)) →
  stored (with_bytes (init_bytes l b (bytes (ext w))) w) (MkStore (init_bytes l b (a_mem s)) (a_content s) (a_open s)).
Proof.
  intros [Hh Hb Hm Hma Hf Hap Ho] Hin.
  assert (∀ x, is_Some (init_bytes l b (a_mem s) !! x) → is_Some (a_mem s !! x)) as Hdom.
  { intros x Hx. destruct (decide (b ≤ x < b + Z.of_nat (length l))); [by apply Hin|]. by rewrite init_out in Hx by lia. }
  split; try done; cbn [a_mem a_content a_open].
  - intros x c Hx. destruct (Hdom x ltac:(by eexists)) as [c' Hc']. destruct (Hm _ _ Hc') as [E Hout]. split; [|done].
    cbn. rewrite <- Hx. apply init_cong. congruence.
  - intros x v c i Hx. apply Hma. by apply Hdom.
  - intros v c Hc. destruct (Hf v c Hc) as (Hv & [Hn (i & Hi & Hbu)]). split; [done|]. split; [done|].
    exists i. split; [done|]. apply buffer_elsewhere; [done|]. intros x Hx. apply init_out.
    destruct (decide (b ≤ x < b + Z.of_nat (length l))) as [Hr|]; [|lia]. by destruct (Hma x v c i (Hin x Hr) Hc Hi).
Qed.

Lemma splice_length o d c : (o ≤ length c)%nat → length (splice o d c) = Nat.max (length c) (o + length d).
Proof. intros Ho. unfold splice. rewrite !length_app, length_take, length_drop. lia. Qed.

(** Writing [d] at [o] into memory that holds [c]. *)
Lemma holds_splice m p o d c :
  holds m p c → (o ≤ length c)%nat → holds (init_bytes d (p + Z.of_nat o) m) p (splice o d c).
Proof.
  intros Hc Ho. unfold splice. apply holds_app. rewrite length_take, Nat.min_l by done. split.
  - eapply holds_ext; [by apply holds_take|]. intros x Hx. rewrite length_take in Hx. apply init_out. lia.
  - apply holds_app. split; [apply init_holds|]. eapply holds_ext.
    + replace (p + Z.of_nat o + Z.of_nat (length d)) with (p + Z.of_nat (o + length d)) by lia.
      destruct (decide (o + length d ≤ length c)%nat); [by apply holds_drop|].
      rewrite drop_ge by lia. apply holds_nil.
    + intros x Hx. apply init_out. lia.
Qed.

Lemma stored_inplace w s v c i f g fl o d :
  stored w s → a_content s !! v = Some c → inodes (ext w) !! v = Some i → i_buf i ≠ 0 →
  a_open s !! f = Some (v, Z.of_nat o, fl) → files w !! f = Some g → (o ≤ length c)%nat →
  Z.of_nat (o + length d) ≤ i_bufsize i →
  stored (with_file f (set_offset (Z.of_nat (o + length d)) g)
            (with_inode v (with_len (Z.of_nat (length (splice o d c))) i)
              (with_bytes (init_bytes d (i_buf i + Z.of_nat o) (bytes (ext w))) w)))
         (MkStore (a_mem s) (<[v := splice o d c]> (a_content s)) (<[f := (v, Z.of_nat (o + length d), fl)]> (a_open s))).
Proof.
  intros Hst Hc Hi Hb0 Hop Hg Ho Hfit. pose proof Hst as [Hh Hb Hm Hma Hf Hap Hopn].
  destruct (Hf v c Hc) as (Hv & [Hn (i' & Hi' & Hbu)]). rewrite Hi in Hi'. injection Hi' as <-.
  pose proof (splice_length o d c Ho) as Hlen.
  assert (∀ x, i_buf i + Z.of_nat o ≤ x < i_buf i + Z.of_nat o + Z.of_nat (length d) → in_buffer i x) as Hin
    by (intros x Hx; split; [done|lia]).
  assert (∀ u j, inodes (ext (with_inode v (with_len (Z.of_nat (length (splice o d c))) i)
      (with_bytes (init_bytes d (i_buf i + Z.of_nat o) (bytes (ext w))) w))) !! u = Some j →
      ∃ j0, inodes (ext w) !! u = Some j0 ∧ ∀ x, in_buffer j x ↔ in_buffer j0 x) as Hsame.
  { intros u j. cbn. intros [[<- <-]|[_ Hj]]%lookup_insert_Some; [by exists i|by exists j]. }
  assert (∀ u e, <[v := splice o d c]> (a_content s) !! u = Some e → ∃ e0, a_content s !! u = Some e0 ∧
      (length e0 ≤ length e)%nat) as Hcont.
  { intros u e [[<- <-]|[_ He]]%lookup_insert_Some; [exists c; split; [done|lia]|by exists e]. }
  split; cbn [a_mem a_content a_open]; try done.
  - intros x b Hx. destruct (Hm x b Hx) as [E Hout]. split; [|done]. cbn. rewrite init_out; [done|].
    destruct (decide (i_buf i + Z.of_nat o ≤ x < i_buf i + Z.of_nat o + Z.of_nat (length d))) as [Hr|]; [|lia].
    by destruct (Hma x v c i ltac:(by eexists) Hc Hi (Hin x Hr)).
  - intros x u e j Hx (e0 & He0 & _)%Hcont (j0 & Hj0 & Ex)%Hsame. rewrite Ex. by eapply Hma.
  - intros u e [[<- <-]|[Hne He]]%lookup_insert_Some.
    + split; [done|]. split; [done|]. exists (with_len (Z.of_nat (length (splice o d c))) i). cbn. rewrite lookup_insert_eq.
      split; [done|]. destruct Hbu as [Hl Hs Hnu Hho Hmp How Hbo]. split; cbn; try done; [lia|by apply holds_splice|].
      intros x Hx. by apply init_mapped, Hmp.
    + destruct (Hf u e He) as (Hu & [Hnu (j & Hj & Hbj)]). split; [done|]. split; [done|]. exists j.
      cbn. rewrite lookup_insert_ne by done. split; [done|].
      apply (core_ok (with_bytes (init_bytes d (i_buf i + Z.of_nat o) (bytes (ext w))) w) _ j j e); [done..|].
      apply buffer_elsewhere; [done|]. intros x Hx. apply init_out.
      destruct (decide (i_buf i + Z.of_nat o ≤ x < i_buf i + Z.of_nat o + Z.of_nat (length d))) as [Hr|]; [|lia].
      by destruct (Hap v u c e i j x Hc He Hne Hi Hj (Hin x Hr)).
  - intros u u' e e' j j' x (e0 & He0 & _)%Hcont (e0' & He0' & _)%Hcont Huu (j0 & Hj0 & Ex)%Hsame (j0' & Hj0' & Ex')%Hsame.
    rewrite Ex, Ex'. by eapply (Hap u u').
  - intros h u o' fl' Hop'. cbn. apply lookup_insert_Some in Hop' as [[<- E]|[Hne Hop']].
    + injection E as <- <- <-. destruct (Hopn _ _ _ _ Hop) as (Hf0 & (g' & Hg' & ? & ? & ? & ?) & _).
      rewrite Hg in Hg'. injection Hg' as <-. split; [done|]. split.
      * exists (set_offset (Z.of_nat (o + length d)) g). by rewrite lookup_insert_eq.
      * exists (splice o d c). rewrite lookup_insert_eq. split; [done|lia].
    + destruct (Hopn _ _ _ _ Hop') as (Hf0 & Hgg & (e & He & ?)). split; [done|].
      rewrite lookup_insert_ne by done. split; [done|]. destruct (decide (u = v)) as [->|Huv].
      * rewrite Hc in He. injection He as <-. exists (splice o d c). rewrite lookup_insert_eq. split; [done|lia].
      * exists e. by rewrite lookup_insert_ne by done.
Qed.

(** A buffer is apart from a range that is outside of every block but one that it does not use. *)
Lemma buffer_misses w s v c i q k x :
  stored w s → a_content s !! v = Some c → inodes (ext w) !! v = Some i → in_buffer i x →
  (∀ b j, al_live (heap (ext w)) !! b = Some j → i_buf i = b → i_buf_owned i = true → q + k ≤ b ∨ b + j ≤ q) →
  (outside w x → x < q ∨ q + k ≤ x) → x < q ∨ q + k ≤ x.
Proof.
  intros Hst Hc Hi Hx Hblk Hout. destruct (st_file _ _ Hst v c Hc) as (_ & [_ (i' & Hi' & Hbu)]).
  rewrite Hi in Hi'. injection Hi' as <-. destruct (i_buf_owned i) eqn:Eo.
  - destruct (bu_owned _ _ _ Hbu Eo) as (_ & _ & j & Hj & Hle). destruct Hx as [_ Hx].
    destruct (Hblk _ _ Hj eq_refl eq_refl); lia.
  - by apply Hout, (bu_borrowed _ _ _ Hbu Eo).
Qed.

Section rebuf.
Context (w : W) (s : fstore) (v : Z) (c : list Z) (i : initrd_inode) (p n : Z) (a : A) (m : gmap Z Z).
Context (Hst : stored w s) (Hc : a_content s !! v = Some c) (Hi : inodes (ext w) !! v = Some i).
Context (Ha : al_ok a) (Hp : p ≠ 0) (Hn : 0 < n) (Hrun : al_alloc n (heap (ext w)) = Ret (p, a))
  (Ht : took (al_live (heap (ext w))) p n (al_live a)).
Context (Hm : holds m p c) (Hmap : ∀ x, p ≤ x < p + n → is_Some (m !! x))
  (Hrest : ∀ x, x < p ∨ p + n ≤ x → m !! x = bytes (ext w) !! x) (Hlen : Z.of_nat (length c) ≤ n).
Let w' := with_inode v (with_buf p n true i) (with_bytes m (with_heap a w)).

Lemma new_block : ∃ k, 0 < p ∧ n ≤ k ∧ al_live (heap (ext w)) !! p = None ∧
  block_fresh p k (al_live (heap (ext w))) ∧ al_live a = <[p := k]> (al_live (heap (ext w))).
Proof. destruct Ht as [[? _]|(k & ? & ? & _ & ? & ? & ?)]; [done|]. by exists k. Qed.

Lemma rebuf_outside x : outside w x → outside w' x ∧ (x < p ∨ p + n ≤ x).
Proof.
  intros [Hna Hnl]. destruct new_block as (k & Hp0 & Hk & Hnone & Hf & Hl).
  destruct (al_arena_alloc _ _ _ _ (st_heap _ _ Hst) Hn Hrun) as [Hsub Hnew].
  assert (x < p ∨ p + k ≤ x) as Hx.
  { destruct (decide (p ≤ x < p + k)) as [Hr|]; [|lia]. destruct Hna.
    eapply (Hnew Hp k); [by rewrite Hl, lookup_insert_eq|done]. }
  split; [|lia]. split; [intros Hx'; by apply Hna, Hsub|]. intros q j. cbn. rewrite Hl.
  intros [[<- <-]|[_ Hq]]%lookup_insert_Some; [done|by apply Hnl].
Qed.

(** No other buffer meets the new block. *)
Lemma rebuf_apart u e j x : a_content s !! u = Some e → inodes (ext w) !! u = Some j → in_buffer j x → x < p ∨ p + n ≤ x.
Proof.
  intros He Hj Hx. destruct new_block as (k & Hp0 & Hk & Hnone & Hf & Hl).
  eapply buffer_misses; [done|exact He|done|done| |intros Ho; by apply rebuf_outside].
  intros b l Hb _ _. destruct (Hf _ _ Hb); lia.
Qed.

Lemma rebuf_other u e j : a_content s !! u = Some e → inodes (ext w) !! u = Some j → buffer_ok w j e → buffer_ok w' j e.
Proof.
  intros He Hj Hbu. assert (∀ x, in_buffer j x → m !! x = bytes (ext w) !! x) as Hsame
    by (intros x Hx; apply Hrest; by eapply rebuf_apart).
  destruct new_block as (k & Hp0 & Hk & Hnone & Hf & Hl). destruct Hbu as [Hl' Hs Hnu Hh Hmp How Hbo]. split; try done.
  - eapply holds_ext; [done|]. cbn. intros x Hx. apply Hsame. split; [|lia]. intros E. rewrite (Hnu E) in Hx. cbn in Hx. lia.
  - intros x Hx. cbn. rewrite Hsame by done. by apply Hmp.
  - intros Ho. destruct (How Ho) as (? & ? & q & Hq & ?). split; [done|]. split; [done|]. exists q. cbn. rewrite Hl.
    rewrite lookup_insert_ne by congruence. done.
  - intros Ho x Hx. apply rebuf_outside. by apply Hbo.
Qed.

Lemma stored_rebuf : stored w' s.
Proof.
  pose proof Hst as [Hh Hb Hme Hma Hf Hap Hopn]. destruct new_block as (k & Hp0 & Hk & Hnone & Hfr & Hl).
  assert (∀ u j, inodes (ext w') !! u = Some j → (u = v ∧ j = with_buf p n true i) ∨ (u ≠ v ∧ inodes (ext w) !! u = Some j)) as Hcase.
  { intros u j. cbn. intros [[<- <-]|[? ?]]%lookup_insert_Some; [by left|by right]. }
  assert (∀ x, in_buffer (with_buf p n true i) x → p ≤ x < p + n) as Hnewb by (intros x [_ Hx]; done).
  split; try done.
  - exact (took_blocks _ _ _ _ Hb Ht Hn).
  - intros x b Hx. destruct (Hme x b Hx) as [E Ho]. destruct (rebuf_outside x Ho) as [Ho' Hx']. split; [|done].
    cbn. by rewrite Hrest.
  - intros x u e j Hx He Hj. destruct (Hcase u j Hj) as [[-> ->]|[_ Hj']]; [|by eapply Hma].
    destruct Hx as [b Hx]. destruct (Hme x b Hx) as [_ Ho]. destruct (rebuf_outside x Ho) as [_ Hx'].
    intros Hin%Hnewb. lia.
  - intros u e He. destruct (Hf u e He) as (Hu & [Hnu (j & Hj & Hbu)]). split; [done|]. split; [done|].
    destruct (decide (u = v)) as [->|Hne].
    + assert (e = c) as -> by congruence. assert (j = i) as -> by congruence.
      exists (with_buf p n true i). cbn. rewrite lookup_insert_eq. split; [done|].
      split; cbn; try done; [by apply (bu_len _ _ _ Hbu)|intros x Hx; by apply Hmap, Hnewb|].
      intros _. split; [done|]. split; [done|]. exists k. by rewrite Hl, lookup_insert_eq.
    + exists j. cbn. rewrite lookup_insert_ne by done. split; [done|]. by eapply rebuf_other.
  - intros u u' e e' j j' x He He' Hne Hj Hj' Hx.
    destruct (Hcase u j Hj) as [[-> ->]|[Hu Hj0]], (Hcase u' j' Hj') as [[-> ->]|[Hu' Hj0']]; try done.
    + intros Hx'. pose proof (rebuf_apart _ _ _ _ He' Hj0' Hx'). apply Hnewb in Hx. lia.
    + pose proof (rebuf_apart _ _ _ _ He Hj0 Hx). intros Hx'%Hnewb. lia.
    + by eapply (Hap u u').
Qed.
End rebuf.

Lemma stored_unref w s q k a :
  stored w s → al_live (heap (ext w)) !! q = Some k →
  (∀ v c i, a_content s !! v = Some c → inodes (ext w) !! v = Some i → i_buf_owned i = true → i_buf i ≠ q) →
  al_ok a → al_free q (heap (ext w)) = Ret (tt, a) → al_live a = delete q (al_live (heap (ext w))) →
  stored (with_bytes (drop_bytes q k (bytes (ext w))) (with_heap a w)) s.
Proof.
  intros Hst Hq Hun Ha Hrun Hl. pose proof Hst as [Hh Hb Hme Hma Hf Hap Hopn].
  assert (∀ x, outside w x → outside (with_bytes (drop_bytes q k (bytes (ext w))) (with_heap a w)) x) as Hout.
  { intros x [Hna Hnl]. split; [intros Hx; apply Hna; by eapply al_arena_free|]. intros r j. cbn. rewrite Hl.
    intros [_ Hr]%lookup_delete_Some. by apply Hnl. }
  assert (∀ u e j x, a_content s !! u = Some e → inodes (ext w) !! u = Some j → in_buffer j x → x < q ∨ q + k ≤ x) as Hmiss.
  { intros u e j x He Hj Hx. eapply buffer_misses; [done|exact He|done|done| |intros [_ Ho]; by apply Ho].
    intros b l Hbl Eb Eo. destruct (decide (b = q)) as [->|Hne]; [by destruct (Hun u e j He Hj Eo)|].
    destruct (bo_apart _ Hb _ _ _ _ Hbl Hq Hne); lia. }
  split; try done.
  - cbn. rewrite Hl. pose proof (undo_blocks q _ Hb) as Hu. unfold undo in Hu. destruct (Z.eqb_spec q 0) as [->|]; [|done].
    destruct (bo_range _ Hb _ _ Hq). lia.
  - intros x b Hx. destruct (Hme x b Hx) as [E Ho]. split; [|by apply Hout]. cbn. rewrite drop_out; [done|].
    destruct Ho as [_ Ho]. by apply Ho.
  - intros u e He. destruct (Hf u e He) as (Hu & [Hnu (j & Hj & Hbu)]). split; [done|]. split; [done|]. exists j.
    split; [done|]. pose proof (λ x, Hmiss u e j x He Hj) as Hmj. destruct Hbu as [Hl' Hs Hnul Hho Hmp How Hbo]. split; try done.
    + eapply holds_ext; [done|]. cbn. intros x Hx. apply drop_out, Hmj. split; [|lia]. intros E. rewrite (Hnul E) in Hx. cbn in Hx. lia.
    + intros x Hx. cbn. rewrite drop_out by (by apply Hmj). by apply Hmp.
    + intros Eo. destruct (How Eo) as (? & ? & l & Hll & ?). split; [done|]. split; [done|]. exists l. cbn. rewrite Hl.
      rewrite lookup_delete_ne; [done|]. intros E. by destruct (Hun u e j He Hj Eo).
    + intros Eo x Hx. by apply Hout, Hbo.
Qed.

Lemma stored_seek w s f g v fl o o' c :
  stored w s → a_open s !! f = Some (v, o, fl) → files w !! f = Some g → a_content s !! v = Some c →
  0 ≤ o' ≤ Z.of_nat (length c) →
  stored (with_file f (set_offset o' g) w) (MkStore (a_mem s) (a_content s) (<[f := (v, o', fl)]> (a_open s))).
Proof.
  intros [Hh Hb Hme Hma Hf Hap Hopn] Hop Hg Hc Ho. split; try done.
  - intros u e He. destruct (Hf u e He) as (Hu & [Hnu (j & Hj & Hbu)]). split; [done|]. split; [done|].
    exists j. split; [done|]. by apply (core_ok w _ j j e).
  - intros h u o2 fl2. cbn. intros [[<- E]|[Hne Hop']]%lookup_insert_Some.
    + injection E as <- <- <-. destruct (Hopn _ _ _ _ Hop) as (Hf0 & (g' & Hg' & ? & ? & ? & ?) & _).
      rewrite Hg in Hg'. injection Hg' as <-. split; [done|]. split; [|by exists c].
      exists (set_offset o' g). by rewrite lookup_insert_eq.
    + rewrite lookup_insert_ne by done. by apply Hopn.
Qed.
End relation.

(** ** The operations *)
Section operations.
Context {A : Type} {alloc_A : Allocator A} {laws_A : AllocatorLaws (2 ^ 61) A} {arena_A : AllocatorArena A}.
Abbreviation W := (vworld (iext A)).
Implicit Types (w : W) (s : fstore).

Lemma sim_times w v i n n' acc mod_ chg :
  inodes (ext w) !! v = Some i → nodes w !! v = Some n → ncore n' = ncore n →
  sim w (set_nodes (<[v := n']> (nodes w)) (with_inode v (with_times acc mod_ chg i) w)).
Proof.
  intros Hi Hn En. split; try done; intros a; cbn; (destruct (decide (a = v)) as [->|]; [|by rewrite lookup_insert_ne]);
    rewrite lookup_insert_eq; [by rewrite Hi|]. rewrite Hn. cbn. by rewrite En.
Qed.

Lemma wp_sync w v i n acc mod_ chg (Q : unit → W → Prop) :
  inodes (ext w) !! v = Some i → nodes w !! v = Some n → v ≠ 0 → (∀ w', sim w w' → Q tt w') →
  wp (sync_vnode_timestamps v) Q (with_inode v (with_times acc mod_ chg i) w).
Proof.
  intros Hi Hn Hv HQ. unfold sync_vnode_timestamps. rewrite (proj2 (Z.eqb_neq v 0)) by done. apply wp_bind.
  eapply wp_inode; [apply lookup_insert_eq|]. eapply wp_update_node; [done|]. apply HQ.
  eapply (sim_times w v i n); [exact Hi|exact Hn|done].
Qed.
Lemma wp_touch_accessed w v i n (Q : unit → W → Prop) :
  inodes (ext w) !! v = Some i → nodes w !! v = Some n → v ≠ 0 → (∀ w', sim w w' → Q tt w') →
  wp (touch_accessed v v) Q w.
Proof.
  intros Hi Hn Hv HQ. unfold touch_accessed. apply wp_bind. eapply wp_vnode; [done|]. apply wp_bind.
  eapply wp_update_inode; [done|]. by eapply wp_sync.
Qed.
Lemma wp_touch_modified w v i n (Q : unit → W → Prop) :
  inodes (ext w) !! v = Some i → nodes w !! v = Some n → v ≠ 0 → (∀ w', sim w w' → Q tt w') →
  wp (touch_modified v v) Q w.
Proof.
  intros Hi Hn Hv HQ. unfold touch_modified. apply wp_bind. eapply wp_vnode; [done|]. apply wp_bind.
  eapply wp_update_inode; [done|]. by eapply wp_sync.
Qed.

Lemma wp_advance w vf v g i n len (Q : unit → W → Prop) :
  files w !! vf = Some g → inodes (ext w) !! v = Some i → nodes w !! v = Some n → v ≠ 0 → 0 < len →
  (∀ w', sim (with_file vf (set_offset (u64 (f_offset g + len)) g)
               (with_inode v (with_len (Z.max (i_len i) (u64 (f_offset g + len))) i) w)) w' → Q tt w') →
  wp (advance_write vf v v len) Q w.
Proof.
  intros Hg Hi Hn Hv Hl HQ. unfold advance_write. apply wp_bind. eapply wp_update_file; [done|]. apply wp_bind.
  eapply wp_file; [apply lookup_insert_eq|]. apply wp_bind. eapply wp_inode; [done|].
  cbn [f_offset set_offset]. rewrite (proj2 (Z.ltb_lt 0 len)) by done.
  destruct (Z.ltb_spec (i_len i) (u64 (f_offset g + len))) as [Hlt|Hge]; apply wp_bind; cbn [when].
  - eapply wp_update_inode; [done|]. eapply wp_touch_modified; [apply lookup_insert_eq|done|done|].
    intros w' Hs. apply HQ. etransitivity; [|exact Hs]. by rewrite Z.max_r by lia.
  - apply wp_ret. eapply wp_touch_modified; [done|done|done|]. intros w' Hs. apply HQ. etransitivity; [|exact Hs].
    split; try done. intros a. cbn. destruct (decide (a = v)) as [->|]; [|by rewrite lookup_insert_ne].
    rewrite lookup_insert_eq, Hi. cbn. by rewrite Z.max_l by lia.
Qed.

(** What a call needs of the store. *)
Record called w s (f v : Z) (o : nat) (fl : Z) (c : list Z) (i : initrd_inode) (g : vfs_file) (n : vfs_node) : Prop := {
  ca_stored : stored w s;
  ca_open : a_open s !! f = Some (v, Z.of_nat o, fl);
  ca_content : a_content s !! v = Some c;
  ca_offset : (o ≤ length c)%nat;
  ca_inode : inodes (ext w) !! v = Some i;
  ca_buffer : buffer_ok w i c;
  ca_file : files w !! f = Some g;
  ca_fields : f ≠ 0 ∧ v ≠ 0 ∧ f_vnode g = v ∧ f_ops g = INITRD_VFILE_OPS ∧ f_flags g = fl ∧ f_offset g = Z.of_nat o;
  ca_node : nodes w !! v = Some n ∧ n_fs_data n = v ∧ n_type n = VFS_NODE_FILE;
}.
Lemma call_facts w s f v o fl :
  stored w s → a_open s !! f = Some (v, o, fl) →
  ∃ o' c i g n, o = Z.of_nat o' ∧ called w s f v o' fl c i g n.
Proof.
  intros Hst Hop. destruct (st_open _ _ Hst _ _ _ _ Hop) as (Hf & (g & Hg & ? & ? & ? & ?) & (c & Hc & Ho)).
  destruct (st_file _ _ Hst _ _ Hc) as (Hv & [(n & ?) (i & Hi & Hbu)]).
  exists (Z.to_nat o), c, i, g, n. rewrite Z2Nat.id by lia. split; [done|].
  split; rewrite ?Z2Nat.id by lia; try done. lia.
Qed.

(** The user's bytes. *)
Lemma user_holds w s b d : stored w s → holds (a_mem s) b d → holds (bytes (ext w)) b d.
Proof. intros Hst Hd j c Hj. by apply (st_mem _ _ Hst _ _ (Hd j c Hj)). Qed.
Lemma user_apart w s f v o fl c i g n b d x :
  called w s f v o fl c i g n → holds (a_mem s) b d → b ≤ x < b + Z.of_nat (length d) → ¬ in_buffer i x.
Proof.
  intros Hca Hd Hx. eapply (st_mem_apart _ _ (ca_stored _ _ _ _ _ _ _ _ _ _ Hca)); [|apply Hca|apply Hca].
  by eapply holds_mapped.
Qed.

Lemma wp_in_place w s f v o fl c i g n b d :
  called w s f v o fl c i g n → holds (a_mem s) b d → d ≠ [] → i_buf i ≠ 0 →
  Z.of_nat (o + length d) ≤ i_bufsize i → Z.of_nat (o + length d) < 2 ^ 60 →
  wp (write_in_place f v v (Z.of_nat o) b (Z.of_nat (length d)))
    (λ r w', r = (VFS_STATUS_OK, Z.of_nat (length d)) ∧
       stored w' (MkStore (a_mem s) (<[v := splice o d c]> (a_content s)) (<[f := (v, Z.of_nat (o + length d), fl)]> (a_open s)))) w.
Proof.
  intros Hca Hd Hne Hb0 Hfit Hsm. pose proof Hca as [Hst Hop Hc Ho Hi Hbu Hg (Hf & Hv & Ev & _ & _ & Eo) (Hn & _)].
  assert (0 < Z.of_nat (length d)) as Hlen by (destruct d; cbn [length]; [done|lia]).
  unfold write_in_place. apply wp_bind. eapply wp_inode; [done|]. apply wp_bind. unfold sched_postpone, modx. apply wp_modify.
  apply wp_bind. apply (wp_memcpy _ _ _ _ d); [lia|done|exact (user_holds _ _ _ _ Hst Hd)| | |].
  { intros x Hx. apply (bu_mapped _ _ _ Hbu). split; [done|lia]. }
  { apply intervals_apart; [done|done|]. intros x Hx Hx'. eapply (user_apart w s); [done|done|done|]. split; [done|lia]. }
  apply wp_bind. eapply wp_advance; [done|done|done|done|done|]. intros w1 Hs1.
  apply wp_bind. unfold sched_resume, modx. apply wp_modify, wp_ret. split; [done|].
  eapply stored_sim; [eapply (stored_inplace w s v c i f g fl o d); done|].
  etransitivity; [|etransitivity; [exact Hs1|by split]].
  rewrite Eo, u64_small by (unfold is_u64; lia). rewrite (splice_length o d c Ho), (bu_len _ _ _ Hbu).
  replace (Z.of_nat (o + length d)) with (Z.of_nat o + Z.of_nat (length d)) by lia.
  replace (Z.of_nat (length c `max` (o + length d))) with (Z.of_nat (length c) `max` (Z.of_nat o + Z.of_nat (length d))) by lia.
  by split.
Qed.

(** *** New buffers *)
Lemma stored_heap w s a n :
  stored w s → al_ok a → 0 < n → al_alloc n (heap (ext w)) = Ret (0, a) → al_live a = al_live (heap (ext w)) →
  stored (with_heap a w) s.
Proof.
  intros [Hh Hb Hme Hma Hf Hap Hopn] Ha Hn Hr Hl. destruct (al_arena_alloc _ _ _ _ Hh Hn Hr) as [Hsub _].
  assert (∀ x, outside w x → outside (with_heap a w) x) as Hout.
  { intros x [Hna Hnl]. split; [intros Hx; by apply Hna, Hsub|]. cbn. by rewrite Hl. }
  split; try done; [cbn; by rewrite Hl|intros x b Hx; destruct (Hme x b Hx); auto|].
  intros u e He. destruct (Hf u e He) as (Hu & [Hnu (j & Hj & [? ? ? ? ? ? Hbo])]). split; [done|]. split; [done|].
  exists j. split; [done|]. split; try done; [cbn; by rewrite Hl|]. intros Ho x Hx. by apply Hout, Hbo.
Qed.

Lemma wp_calloc_bytes w s n (Q : Z → W → Prop) :
  stored w s → 0 < n < 2 ^ 61 →
  (∀ a, stored (with_heap a w) s → Q 0 (with_heap a w)) →
  (∀ p a, p ≠ 0 → al_ok a → al_alloc n (heap (ext w)) = Ret (p, a) → took (al_live (heap (ext w))) p n (al_live a) →
     Q p (with_bytes (init_bytes (replicate (Z.to_nat n) 0) p (bytes (ext w))) (with_heap a w))) →
  wp (calloc_bytes n) Q w.
Proof using laws_A arena_A.
  intros Hst Hn H0 H1. unfold calloc_bytes. apply wp_bind, wp_calloc_heap; [apply Hst|done|]. intros p a Ha Hr Ht.
  destruct (Z.eqb_spec p 0) as [->|Hp].
  - apply wp_ret, H0. destruct Ht as [[_ Hl]|(k & ? & _)]; [|lia]. eapply stored_heap; try done. lia.
  - apply wp_bind. unfold modx. apply wp_modify, wp_ret. by apply H1.
Qed.

(** A called file after its contents moved to the block [p]. *)
Lemma called_rebuf w s f v o fl c i g n p size_ a m :
  called w s f v o fl c i g n → al_ok a → p ≠ 0 → 0 < size_ → al_alloc size_ (heap (ext w)) = Ret (p, a) →
  took (al_live (heap (ext w))) p size_ (al_live a) → holds m p c →
  (∀ x, p ≤ x < p + size_ → is_Some (m !! x)) → (∀ x, x < p ∨ p + size_ ≤ x → m !! x = bytes (ext w) !! x) →
  Z.of_nat (length c) ≤ size_ →
  called (with_inode v (with_buf p size_ true i) (with_bytes m (with_heap a w))) s f v o fl c
    (with_buf p size_ true i) g n.
Proof.
  intros Hca Ha Hp Hn Hr Ht Hm Hmap Hrest Hlen.
  assert (stored (with_inode v (with_buf p size_ true i) (with_bytes m (with_heap a w))) s) as Hst
    by (apply (stored_rebuf w s v c i p size_ a m); try done; apply Hca).
  pose proof Hca as [_ Hop Hc Ho Hi _ Hg Hfl Hn']. split; try done; [apply lookup_insert_eq|].
  destruct (st_file _ _ Hst _ _ Hc) as (_ & [_ (j & Hj & Hbu)]). cbn in Hj. rewrite lookup_insert_eq in Hj.
  by injection Hj as <-.
Qed.

Lemma zero_block_mapped p size_ m x : 0 < size_ → p ≤ x < p + size_ → is_Some (init_bytes (replicate (Z.to_nat size_) 0) p m !! x).
Proof. intros Hn Hx. eapply holds_mapped; [apply init_holds|]. rewrite length_replicate. lia. Qed.
Lemma zero_block_rest p size_ (m : gmap Z Z) x : 0 < size_ → x < p ∨ p + size_ ≤ x → init_bytes (replicate (Z.to_nat size_) 0) p m !! x = m !! x.
Proof. intros Hn Hx. apply init_out. rewrite length_replicate. lia. Qed.

Lemma wp_first_buffer w s f v o fl c i g n size_ (Q : bool * Z → W → Prop) :
  called w s f v o fl c i g n → (c = [] → 0 < size_ < 2 ^ 61) →
  (i_buf i ≠ 0 → i_bufsize i ≠ 0 → Q (true, i_bufsize i) w) →
  (∀ w', stored w' s → Q (false, i_bufsize i) w') →
  (∀ w' i', called w' s f v o fl c i' g n → c = [] → i_buf i' ≠ 0 → i_bufsize i' = size_ → Q (true, size_) w') →
  wp (write_first_buffer v i size_) Q w.
Proof using laws_A arena_A.
  intros Hca Hn H0 H1 H2. pose proof Hca as [Hst _ _ _ Hi Hbu _ _ _]. unfold write_first_buffer.
  destruct ((i_buf i =? 0) || (i_bufsize i =? 0)) eqn:Enull.
  2:{ apply orb_false_iff in Enull as [E1 E2]. apply Z.eqb_neq in E1, E2. apply wp_ret. auto. }
  assert (c = []) as ->.
  { apply orb_true_iff in Enull as [E|E]; apply Z.eqb_eq in E; [by apply (bu_null _ _ _ Hbu)|].
    pose proof (bu_size _ _ _ Hbu). destruct c; [done|]. cbn [length] in *. lia. }
  specialize (Hn eq_refl). apply wp_bind. unfold sched_postpone, modx. apply wp_modify. set (w1 := set_ext _ _).
  assert (stored w1 s) as Hst1 by (eapply stored_sim; [exact Hst|by split]).
  apply wp_bind. eapply (wp_calloc_bytes w1 s); [done|done| |].
  - intros a Hsa. apply wp_bind. unfold sched_resume, modx. apply wp_modify. cbn [Z.eqb]. apply wp_ret, H1.
    eapply stored_sim; [exact Hsa|by split].
  - intros p a Hp Ha Hr Ht. apply wp_bind. unfold sched_resume, modx. apply wp_modify.
    rewrite (proj2 (Z.eqb_neq p 0)) by done. apply wp_bind. eapply wp_update_inode; [exact Hi|]. apply wp_ret.
    assert (called (with_inode v (with_buf p size_ true i) (with_bytes (init_bytes (replicate (Z.to_nat size_) 0) p (bytes (ext w))) (with_heap a w))) s f v o fl []
      (with_buf p size_ true i) g n) as Hca'.
    { apply called_rebuf; try done; [lia| | |cbn; lia].
      - intros x Hx. apply zero_block_mapped; [lia|done].
      - intros x Hx. apply zero_block_rest; [lia|done]. }
    eapply (H2 _ (with_buf p size_ true i)); try done. destruct Hca' as [Hs' ? ? ? Hi' Hbu' ? ? ?].
    split; try done; [eapply stored_sim; [exact Hs'|by split]|].
    eapply core_ok; [..|exact Hbu']; done.
Qed.

(** Moving to a new buffer, writing there, and giving the old one back. *)
Lemma wp_new_buffer w s f v o fl c i g n b d size_ :
  called w s f v o fl c i g n → holds (a_mem s) b d → d ≠ [] → i_buf i ≠ 0 →
  Z.of_nat (length c) ≤ size_ → Z.of_nat (o + length d) ≤ size_ → size_ < 2 ^ 61 → Z.of_nat (o + length d) < 2 ^ 60 →
  wp (write_new_buffer f v v (Z.of_nat o) b (Z.of_nat (length d)) (i_len i) size_)
    (λ r w', (r = (VFS_STATUS_OK, Z.of_nat (length d)) ∧
       stored w' (MkStore (a_mem s) (<[v := splice o d c]> (a_content s)) (<[f := (v, Z.of_nat (o + length d), fl)]> (a_open s)))) ∨
     (r = (VFS_STATUS_NOMEM, 0) ∧ stored w' s)) w.
Proof using laws_A arena_A.
  intros Hca Hd Hne Hb0 Hlc Hld Hsz Hsm.
  pose proof Hca as [Hst Hop Hc Ho Hi Hbu Hg (Hf & Hv & Ev & _ & _ & Eo) (Hn & _)].
  assert (0 < Z.of_nat (length d)) as Hlen by (destruct d; cbn [length]; [done|lia]).
  unfold write_new_buffer. apply wp_bind. eapply wp_calloc_bytes; [done|lia|intros a Hsa; apply wp_ret; by right|].
  intros p a Hp Ha Hr Ht. rewrite (proj2 (Z.eqb_neq p 0)) by done.
  set (zs := init_bytes (replicate (Z.to_nat size_) 0) p (bytes (ext w))). set (m2 := init_bytes c p zs).
  assert (∀ x, x < p ∨ p + size_ ≤ x → zs !! x = bytes (ext w) !! x) as Hzs
    by (intros x Hx; apply zero_block_rest; [lia|done]).
  assert (∀ x, p ≤ x < p + size_ → is_Some (zs !! x)) as Hzm by (intros x Hx; apply zero_block_mapped; [lia|done]).
  assert (∀ x, is_Some (bytes (ext w) !! x) → x < p ∨ p + size_ ≤ x → is_Some (zs !! x)) as Hzk
    by (intros x Hx Hx'; by rewrite Hzs).
  set (i1 := with_buf p size_ true i).
  assert (called (with_inode v i1 (with_bytes m2 (with_heap a w))) s f v o fl c i1 g n) as Hca1.
  { apply called_rebuf; try done; [lia|apply init_holds|intros x Hx; by apply init_mapped, Hzm|].
    intros x Hx. unfold m2. rewrite init_out by lia. by apply Hzs. }
  destruct (new_block w p size_ a Hp Ht) as (k & Hp0 & Hk & Hnone & Hfresh & Hl).
  assert (∀ x, in_buffer i x → x < p ∨ p + size_ ≤ x) as Hapart
    by (intros x Hx; exact (rebuf_apart w s v c i p size_ a zs Hst Hp ltac:(lia) Hr Ht v c i x Hc Hi Hx)).
  assert (∀ x, outside w x → x < p ∨ p + size_ ≤ x) as Houtp.
  { intros x [Hna _]. destruct (al_arena_alloc (heap (ext w)) size_ p a (st_heap _ _ Hst) ltac:(lia) Hr) as [_ Hnew].
    destruct (decide (p ≤ x < p + size_)) as [Hx|]; [|lia]. destruct Hna. eapply (Hnew Hp k); [by rewrite Hl, lookup_insert_eq|lia]. }
  apply wp_bind. eapply wp_inode; [exact Hi|]. apply wp_bind. unfold sched_postpone, modx. apply wp_modify.
  rewrite (proj2 (Z.eqb_neq (i_buf i) 0)), (bu_len _ _ _ Hbu) by done. cbn [negb andb].
  apply wp_bind.
  assert (∀ (Q : unit → W → Prop) w0, bytes (ext w0) = zs → Q tt (with_bytes m2 w0) →
    wp (when (0 <? Z.of_nat (length c)) (memcpy p (i_buf i) (Z.of_nat (length c)))) Q w0) as Hcopy.
  { intros Q w0 Ew0 HQ. destruct (Z.ltb_spec 0 (Z.of_nat (length c))) as [Hpos|Hz]; cbn [when].
    - apply (wp_memcpy _ _ _ _ c); [lia|done| | | |by rewrite Ew0].
      + rewrite Ew0. eapply holds_ext; [apply (bu_holds _ _ _ Hbu)|]. intros x Hx. apply Hzs, Hapart. split; [done|].
        pose proof (bu_size _ _ _ Hbu). lia.
      + intros x Hx. rewrite Ew0. apply Hzm. lia.
      + apply intervals_apart; [done|done|]. intros x Hx Hx'. pose proof (bu_size _ _ _ Hbu).
        destruct (Hapart x); [split; [done|lia]|lia|lia].
    - apply wp_ret. unfold m2 in HQ. destruct c; [|cbn [length] in Hz; lia]. cbn [init_bytes] in HQ. rewrite <- Ew0 in HQ.
      by destruct w0 as [? ? ? ? ? ? []]. }
  apply Hcopy; [done|]. apply wp_bind.
  pose proof (user_holds _ _ _ _ Hst Hd) as Hdw.
  assert (∀ x, b ≤ x < b + Z.of_nat (length d) → x < p ∨ p + size_ ≤ x) as Hub.
  { intros x Hx. destruct (holds_mapped _ _ _ _ Hd Hx) as [e He]. destruct (st_mem _ _ Hst _ _ He). auto. }
  apply (wp_memcpy _ _ _ _ d); [lia|done| | | |].
  { cbn. eapply holds_ext; [exact Hdw|]. intros x Hx. unfold m2. rewrite init_out; [|destruct (Hub x Hx); lia]. by apply Hzs, Hub. }
  { intros x Hx. cbn. apply init_mapped, Hzm. lia. }
  { apply intervals_apart; [done|done|]. intros x Hx Hx'. destruct (Hub x Hx'); lia. }
  apply wp_bind. eapply wp_update_inode; [exact Hi|]. apply wp_bind.
  eapply (wp_advance _ f v g i1 n); [exact Hg|apply lookup_insert_eq|exact Hn|done|done|]. intros w3 Hs3.
  assert (stored w3 (MkStore (a_mem s) (<[v := splice o d c]> (a_content s)) (<[f := (v, Z.of_nat (o + length d), fl)]> (a_open s)))) as Hst3.
  { eapply stored_sim; [eapply (stored_inplace (with_inode v i1 (with_bytes m2 (with_heap a w))) s v c i1 f g fl o d); try done; apply Hca1|].
    etransitivity; [|exact Hs3]. rewrite Eo, u64_small by (unfold is_u64; lia). rewrite (splice_length o d c Ho).
    change (i_len i1) with (i_len i). rewrite (bu_len _ _ _ Hbu).
    replace (Z.of_nat (o + length d)) with (Z.of_nat o + Z.of_nat (length d)) by lia.
    replace (Z.of_nat (length c `max` (o + length d))) with (Z.of_nat (length c) `max` (Z.of_nat o + Z.of_nat (length d))) by lia.
    by split. }
  assert (∀ w4, stored w4 (MkStore (a_mem s) (<[v := splice o d c]> (a_content s)) (<[f := (v, Z.of_nat (o + length d), fl)]> (a_open s))) →
    wp (sched_resume ≫= λ _, mret (VFS_STATUS_OK, Z.of_nat (length d))) (λ r w', (r = (VFS_STATUS_OK, Z.of_nat (length d)) ∧
       stored w' (MkStore (a_mem s) (<[v := splice o d c]> (a_content s)) (<[f := (v, Z.of_nat (o + length d), fl)]> (a_open s)))) ∨
     (r = (VFS_STATUS_NOMEM, 0) ∧ stored w' s)) w4) as Hresume.
  { intros w4 Hst4. apply wp_bind. unfold sched_resume, modx. apply wp_modify, wp_ret. left. split; [done|].
    eapply stored_sim; [exact Hst4|by split]. }
  apply wp_bind. destruct (i_buf_owned i) eqn:Eown; cbn [when]; [|apply wp_ret; by apply Hresume].
  destruct (bu_owned _ _ _ Hbu Eown) as (_ & Hbs & k0 & Hk0 & Hk0s).
  assert (heap (ext w3) = a) as Eh3 by (by rewrite (sim_heap _ _ Hs3)).
  assert (al_live (heap (ext w3)) !! i_buf i = Some k0) as Hlive by (rewrite Eh3; by eapply took_mono).
  unfold free_bytes. apply wp_bind, wp_gets, wp_bind. eapply wp_free_heap; [apply Hst3|done|]. intros a' Ha' Hr' Hl'.
  rewrite Hlive. unfold modx. apply wp_modify. apply Hresume.
  eapply stored_sim; [eapply (stored_unref w3 _ (i_buf i) k0 a'); [exact Hst3|done| |done|done|done]|by split].
  intros u e j He Hj Ej Eb. destruct (sim_inode_some _ _ _ _ Hs3 Hj) as (j0 & Hj0 & Ec). injection Ec as E1 E2 E3 E4.
  cbn in Hj0. apply lookup_insert_Some in Hj0 as [[<- <-]|[Huv Hj0]]; [cbn in E1; congruence|].
  rewrite lookup_insert_ne in Hj0 by done. cbn in He. rewrite lookup_insert_ne in He by done.
  eapply (st_apart _ _ Hst v u c e i j0 (i_buf i)); try done; [split; [done|lia]|].
  destruct (st_file _ _ Hst _ _ He) as (_ & [_ (j1 & Hj1 & Hbj)]). rewrite Hj0 in Hj1. injection Hj1 as <-.
  destruct (bu_owned _ _ _ Hbj ltac:(congruence)) as (? & ? & _). split; [done|lia].
Qed.

(** The store after writing [d] at [o]. *)
Definition written s (f v : Z) (o : nat) (fl : Z) (d c : list Z) : fstore :=
  MkStore (a_mem s) (<[v := splice o d c]> (a_content s)) (<[f := (v, Z.of_nat (o + length d), fl)]> (a_open s)).
Definition moved s (f v o fl : Z) : fstore := MkStore (a_mem s) (a_content s) (<[f := (v, o, fl)]> (a_open s)).

Lemma splice_nil o c : splice o [] c = c.
Proof. unfold splice. cbn [app length]. rewrite Nat.add_0_r. apply take_drop. Qed.

Lemma wp_initrd_write w s f v o fl c i g n b d :
  called w s f v o fl c i g n → holds (a_mem s) b d → b ≠ 0 → Z.of_nat (o + length d) < 2 ^ 60 →
  wp (initrd_write f b (Z.of_nat (length d)))
    (λ r w', (r = (VFS_STATUS_OK, Z.of_nat (length d)) ∧ stored w' (written s f v o fl d c)) ∨
     (r = (VFS_STATUS_NOMEM, 0) ∧ stored w' s)) w.
Proof using laws_A arena_A.
  intros Hca Hd Hb Hsm. pose proof Hca as [Hst Hop Hc Ho Hi Hbu Hg (Hf & Hv & Ev & _ & _ & Eo) (Hn & En & Et)].
  unfold initrd_write. rewrite (proj2 (Z.eqb_neq f 0)), (proj2 (Z.eqb_neq b 0)) by done. cbn [orb].
  apply wp_bind. eapply wp_file; [done|]. rewrite Ev. apply wp_bind. eapply wp_vnode; [done|]. rewrite En.
  destruct (Z.eqb_spec (Z.of_nat (length d)) 0) as [Hz|Hnz].
  { assert (d = []) as -> by (destruct d; [done|cbn [length] in Hz; lia]). apply wp_bind.
    eapply wp_touch_modified; [done|done|done|]. intros w' Hs. apply wp_ret. left. split; [done|].
    unfold written. rewrite splice_nil, insert_id by done. cbn [length]. rewrite Nat.add_0_r, insert_id by done.
    destruct s. by eapply stored_sim. }
  assert (d ≠ []) as Hne by (by intros ->). apply wp_bind. eapply wp_inode; [done|]. rewrite Eo.
  rewrite (u64_small (Z.of_nat o + Z.of_nat (length d))) by (unfold is_u64; lia).
  set (cs := if _ <? _ then _ else _).
  assert (Z.of_nat (o + length d) ≤ cs ∧ Z.of_nat (length c) ≤ cs ∧
    (Z.of_nat (length c) ≤ Z.of_nat (o + length d) → cs < 2 ^ 60)) as (Hcs1 & Hcs2 & Hcs3).
  { unfold cs. rewrite (bu_len _ _ _ Hbu). zbool; lia. }
  assert (cs < 2 ^ 60 → cs ≤ u64 (cs + Z.shiftr cs 1) < 2 ^ 61) as Hns.
  { intros Hlt. rewrite Z.shiftr_div_pow2 by lia. rewrite u64_small by (unfold is_u64; zdiv). zdiv. }
  apply wp_bind. eapply wp_first_buffer; [exact Hca| | | |].
  - intros ->. cbn [length] in Hcs3. specialize (Hcs3 ltac:(lia)). specialize (Hns Hcs3). lia.
  - intros Hb0 _. cbn [negb]. destruct (Z.leb_spec (Z.of_nat o + Z.of_nat (length d)) (i_bufsize i)).
    + eapply wp_mono; [apply (wp_in_place w s f v o fl c i g n b d); try done; lia|]. intros r w' Hr. by left.
    + pose proof (bu_size _ _ _ Hbu). specialize (Hns ltac:(apply Hcs3; lia)).
      apply (wp_new_buffer w s f v o fl c i g n b d); try done; lia.
  - intros w' Hst'. cbn [negb]. apply wp_ret. by right.
  - intros w' i' Hca' -> Hb0 Hbs. cbn [negb length] in *. specialize (Hns ltac:(apply Hcs3; lia)).
    rewrite (proj2 (Z.leb_le _ _)) by lia.
    eapply wp_mono; [apply (wp_in_place w' s f v o fl [] i' g n b d); try done; lia|]. intros r w2 Hr. by left.
Qed.

Lemma wp_initrd_read w s f v o fl c i g n b k :
  called w s f v o fl c i g n → b ≠ 0 → 0 ≤ k < 2 ^ 64 → (∀ x, b ≤ x < b + k → is_Some (a_mem s !! x)) →
  Z.of_nat (length c) < 2 ^ 60 →
  wp (initrd_read f b k)
    (λ r w', let d := take (Z.to_nat k) (drop o c) in
       r = (VFS_STATUS_OK, Z.of_nat (length d)) ∧
       stored w' (MkStore (init_bytes d b (a_mem s)) (a_content s) (<[f := (v, Z.of_nat (o + length d), fl)]> (a_open s)))) w.
Proof using arena_A.
  intros Hca Hb Hk Hmem Hsm. pose proof Hca as [Hst Hop Hc Ho Hi Hbu Hg (Hf & Hv & Ev & _ & _ & Eo) (Hn & En & Et)].
  unfold initrd_read. rewrite (proj2 (Z.eqb_neq f 0)), (proj2 (Z.eqb_neq b 0)) by done. cbn [orb].
  apply wp_bind. eapply wp_file; [done|]. rewrite Ev. apply wp_bind. eapply wp_vnode; [done|]. rewrite En.
  assert (∀ d w', d = [] → sim w w' → stored w' (MkStore (init_bytes d b (a_mem s)) (a_content s)
    (<[f := (v, Z.of_nat (o + length d), fl)]> (a_open s)))) as Hnone.
  { intros d w' -> Hs. cbn [init_bytes length]. rewrite Nat.add_0_r, insert_id by done. destruct s. by eapply stored_sim. }
  destruct (Z.eqb_spec k 0) as [->|Hk0].
  { apply wp_bind. eapply wp_touch_accessed; [done|done|done|]. intros w' Hs. apply wp_ret. split; [done|]. by apply Hnone. }
  apply wp_bind. eapply wp_inode; [done|]. rewrite Eo, (bu_len _ _ _ Hbu).
  destruct (Z.leb_spec (Z.of_nat (length c)) (Z.of_nat o)) as [Hge|Hlt].
  { apply wp_ret. assert (take (Z.to_nat k) (drop o c) = []) as E by (rewrite drop_ge by lia; by destruct (Z.to_nat k)).
    cbn zeta. rewrite E. split; [done|]. by apply Hnone. }
  rewrite u64_small by (unfold is_u64; lia). set (d := take (Z.to_nat k) (drop o c)).
  assert (length d = Nat.min (Z.to_nat k) (length c - o)) as Hld by (unfold d; by rewrite length_take, length_drop).
  assert ((if Z.of_nat (length c) - Z.of_nat o <? k then Z.of_nat (length c) - Z.of_nat o else k) = Z.of_nat (length d)) as ->
    by (rewrite Hld; zbool; lia).
  assert (0 < Z.of_nat (length d)) as Hpos by lia. pose proof (bu_size _ _ _ Hbu) as Hbs.
  assert (i_buf i ≠ 0) as Hb0 by (intros E; rewrite (bu_null _ _ _ Hbu E) in Hlt; cbn in Hlt; lia).
  assert (∀ x, b ≤ x < b + Z.of_nat (length d) → is_Some (a_mem s !! x)) as Hmem' by (intros x Hx; apply Hmem; lia).
  apply wp_bind. unfold sched_postpone, modx. apply wp_modify. apply wp_bind.
  apply (wp_memcpy _ _ _ _ d); [lia|done| | | |].
  { apply holds_take. apply (holds_drop _ _ _ _ (bu_holds _ _ _ Hbu) Ho). }
  { intros x Hx. destruct (Hmem' x Hx) as [e He]. destruct (st_mem _ _ Hst _ _ He) as [He' _]. by eexists. }
  { apply intervals_apart; [done|done|]. intros x Hx Hx'. eapply (st_mem_apart _ _ Hst x v c i); [by apply Hmem'|done|done|].
    split; [done|]. lia. }
  apply wp_bind. eapply wp_update_file; [exact Hg|]. apply wp_bind. rewrite (proj2 (Z.ltb_lt 0 _)) by done. cbn [when].
  eapply wp_touch_accessed; [exact Hi|exact Hn|done|]. intros w' Hs. apply wp_bind. unfold sched_resume, modx.
  apply wp_modify, wp_ret. split; [done|].
  pose proof (stored_user w s b d Hst Hmem') as Hst1.
  pose proof (stored_seek _ _ f g v fl (Z.of_nat o) (Z.of_nat (o + length d)) c Hst1 Hop Hg Hc ltac:(lia)) as Hst2.
  eapply stored_sim; [exact Hst2|].
  etransitivity; [|etransitivity; [exact Hs|by split]]. rewrite Eo, u64_small by (unfold is_u64; lia).
  replace (Z.of_nat (o + length d)) with (Z.of_nat o + Z.of_nat (length d)) by lia. by split.
Qed.

(** Where a seek ends: inside the file. *)
Definition seek_target (off whence o len : Z) : Z :=
  let sum := off + (if whence =? VFS_SEEK_SET then 0 else if whence =? VFS_SEEK_CUR then o else len) in
  Z.max 0 (Z.min sum len).

Lemma wp_initrd_seek w s f v o fl c i g n off whence :
  called w s f v o fl c i g n → - 2 ^ 62 < off < 2 ^ 62 → 0 ≤ whence ≤ 2 → Z.of_nat (length c) < 2 ^ 60 →
  wp (initrd_seek f off whence)
    (λ r w', let pos := seek_target off whence (Z.of_nat o) (Z.of_nat (length c)) in
       r = (VFS_STATUS_OK, pos) ∧ stored w' (moved s f v pos fl)) w.
Proof.
  intros Hca Hoff Hwh Hsm. pose proof Hca as [Hst Hop Hc Ho Hi Hbu Hg (Hf & Hv & Ev & _ & _ & Eo) (Hn & En & Et)].
  unfold initrd_seek. rewrite (proj2 (Z.eqb_neq f 0)) by done.
  apply wp_bind. eapply wp_file; [done|]. rewrite Ev. apply wp_bind. eapply wp_vnode; [done|]. rewrite En.
  apply wp_bind. eapply wp_inode; [done|]. rewrite Eo, (bu_len _ _ _ Hbu), Et.
  set (len := Z.of_nat (length c)) in *. set (org := if whence =? VFS_SEEK_SET then 0 else if whence =? VFS_SEEK_CUR then Z.of_nat o else len).
  apply wp_bind. eapply (wp_lift _ org).
  { unfold org, s64, VFS_SEEK_SET, VFS_SEEK_CUR, VFS_SEEK_END. zbool; try done; lia. }
  assert (0 ≤ org ≤ len) as Horg by (unfold org; zbool; lia).
  rewrite (proj2 (Z.ltb_ge _ _)), (proj2 (Z.leb_gt _ _)) by lia. cbn [orb].
  rewrite bool_decide_eq_false_2 by done. apply wp_bind, wp_ret. apply wp_bind. eapply wp_update_file; [exact Hg|]. apply wp_ret.
  assert ((if off + org <? 0 then 0 else if s64 len <? off + org then len else off + org) =
    seek_target off whence (Z.of_nat o) len) as ->.
  { unfold seek_target, s64. fold org. zbool; lia. }
  split; [done|]. apply (stored_seek w s f g v fl (Z.of_nat o) _ c); try done. unfold seek_target. fold len. lia.
Qed.
End operations.

(** ** Calls and the store *)
Inductive file_call :=
| CallRead (f b k : Z)
| CallWrite (f b k : Z)
| CallSeek (f off whence : Z).

(** Where a write goes. *)
Definition write_pos (fl : Z) (o : nat) (c : list Z) : nat :=
  if flag_set fl VFS_OPEN_APPEND then length c else o.

(** What a call may answer and do to the store. *)
Inductive store_step (s : fstore) : file_call → vfs_status * Z → fstore → Prop :=
| step_read f b k v o fl c d :
    a_open s !! f = Some (v, Z.of_nat o, fl) → a_content s !! v = Some c → flag_set fl VFS_OPEN_READ = true →
    d = take (Z.to_nat k) (drop o c) →
    store_step s (CallRead f b k) (VFS_STATUS_OK, Z.of_nat (length d))
      (MkStore (init_bytes d b (a_mem s)) (a_content s) (<[f := (v, Z.of_nat (o + length d), fl)]> (a_open s)))
| step_read_denied f b k v o fl :
    a_open s !! f = Some (v, o, fl) → flag_set fl VFS_OPEN_READ = false →
    store_step s (CallRead f b k) (VFS_STATUS_BAD_FD, 0) s
| step_write f b k v o fl c d :
    a_open s !! f = Some (v, Z.of_nat o, fl) → a_content s !! v = Some c → flag_set fl VFS_OPEN_WRITE = true →
    holds (a_mem s) b d → Z.of_nat (length d) = k →
    store_step s (CallWrite f b k) (VFS_STATUS_OK, k) (written s f v (write_pos fl o c) fl d c)
| step_write_nomem f b k v o fl c :
    a_open s !! f = Some (v, Z.of_nat o, fl) → a_content s !! v = Some c → flag_set fl VFS_OPEN_WRITE = true →
    store_step s (CallWrite f b k) (VFS_STATUS_NOMEM, 0) (moved s f v (Z.of_nat (write_pos fl o c)) fl)
| step_write_denied f b k v o fl :
    a_open s !! f = Some (v, o, fl) → flag_set fl VFS_OPEN_WRITE = false →
    store_step s (CallWrite f b k) (VFS_STATUS_BAD_FD, 0) s
| step_seek f off whence v o fl c :
    a_open s !! f = Some (v, Z.of_nat o, fl) → a_content s !! v = Some c →
    store_step s (CallSeek f off whence)
      (VFS_STATUS_OK, seek_target off whence (Z.of_nat o) (Z.of_nat (length c)))
      (moved s f v (seek_target off whence (Z.of_nat o) (Z.of_nat (length c))) fl).

Inductive store_steps (s : fstore) : list file_call → list (vfs_status * Z) → fstore → Prop :=
| steps_nil : store_steps s [] [] s
| steps_cons call calls r rs s' s'' :
    store_step s call r s' → store_steps s' calls rs s'' → store_steps s (call :: calls) (r :: rs) s''.

(** A call on an open file with a buffer in user memory. *)
Definition call_ok (s : fstore) (call : file_call) : Prop :=
  match call with
  | CallRead f b k | CallWrite f b k =>
      is_Some (a_open s !! f) ∧ b ≠ 0 ∧ 0 ≤ k < 2 ^ 64 ∧ ∀ x, b ≤ x < b + k → is_Some (a_mem s !! x)
  | CallSeek f off whence => is_Some (a_open s !! f) ∧ - 2 ^ 62 < off < 2 ^ 62 ∧ 0 ≤ whence ≤ 2
  end.
Fixpoint bytes_written (calls : list file_call) : Z :=
  match calls with
  | [] => 0
  | CallWrite _ _ k :: calls' => Z.max 0 k + bytes_written calls'
  | _ :: calls' => bytes_written calls'
  end.

Section vfs_calls.
Context {A : Type} {alloc_A : Allocator A} {laws_A : AllocatorLaws (2 ^ 61) A} {arena_A : AllocatorArena A}.
Abbreviation W := (vworld (iext A)).
Implicit Types (w : W) (s : fstore).

Definition call_run (call : file_call) : prog W (vfs_status * Z) :=
  match call with
  | CallRead f b k => vfs_read initrd_file_ops now f b k
  | CallWrite f b k => vfs_write initrd_file_ops now f b k
  | CallSeek f off whence => vfs_seek initrd_file_ops f off whence
  end.

Lemma wp_fop_missing {B} w f g (op : vfs_file_ops W → option B) (Q : bool → W → Prop) :
  files w !! f = Some g → f ≠ 0 → f_ops g = INITRD_VFILE_OPS → is_Some (op initrd_vfile_ops) →
  Q false w → wp (HVFS_FOP_MISSING initrd_file_ops f op) Q w.
Proof.
  intros Hg Hf Eo [h Hh] HQ. unfold HVFS_FOP_MISSING. rewrite (proj2 (Z.eqb_neq f 0)) by done.
  apply wp_bind. eapply wp_file; [done|]. apply wp_ret. rewrite Eo. cbn. by rewrite Hh.
Qed.
Lemma wp_fop {B} w f g (op : vfs_file_ops W → option B) h (Q : B → W → Prop) :
  files w !! f = Some g → f_ops g = INITRD_VFILE_OPS → op initrd_vfile_ops = Some h →
  Q h w → wp (fop initrd_file_ops f op) Q w.
Proof.
  intros Hg Eo Hh HQ. unfold fop. apply wp_bind. eapply wp_file; [done|]. rewrite Eo. cbn. rewrite Hh. by eapply wp_lift.
Qed.

(** A new time on the vnode of an open file. *)
Lemma wp_stamp w s f v o fl (h : Z → vfs_node → vfs_node) (Q : unit → W → Prop) :
  stored w s → a_open s !! f = Some (v, o, fl) → (∀ t n, ncore (h t n) = ncore n) →
  (∀ w', stored w' s → Q tt w') →
  wp (t ← unix_time now; n ← file f; update_node (f_vnode n) (h t)) Q w.
Proof.
  intros Hst Hop Hh HQ. destruct (call_facts _ _ _ _ _ _ Hst Hop) as (o' & c & i & g & n & -> & Hca).
  pose proof Hca as [_ _ _ _ _ _ Hg (_ & _ & Ev & _) (Hn & _)].
  apply wp_bind, wp_gets. apply wp_bind. eapply wp_file; [done|]. rewrite Ev. eapply wp_update_node; [done|].
  apply HQ. eapply stored_sim; [exact Hst|]. split; try done. intros a. cbn.
  destruct (decide (a = v)) as [->|]; [|by rewrite lookup_insert_ne]. rewrite lookup_insert_eq, Hn. cbn. by rewrite Hh.
Qed.

Lemma wp_vfs_seek w s f v o fl c i g n off whence :
  called w s f v o fl c i g n → - 2 ^ 62 < off < 2 ^ 62 → 0 ≤ whence ≤ 2 → Z.of_nat (length c) < 2 ^ 60 →
  wp (vfs_seek initrd_file_ops f off whence)
    (λ r w', let pos := seek_target off whence (Z.of_nat o) (Z.of_nat (length c)) in
       r = (VFS_STATUS_OK, pos) ∧ stored w' (moved s f v pos fl)) w.
Proof.
  intros Hca Hoff Hwh Hsm. pose proof Hca as [_ _ _ _ _ _ Hg (Hf & _ & _ & Eops & _) _].
  unfold vfs_seek. rewrite (proj2 (Z.eqb_neq f 0)) by done. apply wp_bind. eapply wp_fop_missing; [done|done|done|by eexists|].
  apply wp_bind. unfold can_seek. rewrite (proj2 (Z.eqb_neq f 0)) by done.
  assert (negb (whence =? VFS_SEEK_SET) && negb (whence =? VFS_SEEK_CUR) && negb (whence =? VFS_SEEK_END) = false) as ->
    by (unfold VFS_SEEK_SET, VFS_SEEK_CUR, VFS_SEEK_END; zbool; cbn; try done; lia).
  apply wp_ret. rewrite bool_decide_eq_true_2 by done. cbn [negb]. apply wp_bind.
  eapply wp_fop; [done|done|done|]. by apply (wp_initrd_seek w s f v o fl c i g n).
Qed.

Lemma wp_vfs_read w s f v o fl c i g n b k :
  called w s f v o fl c i g n → b ≠ 0 → 0 ≤ k < 2 ^ 64 → (∀ x, b ≤ x < b + k → is_Some (a_mem s !! x)) →
  Z.of_nat (length c) < 2 ^ 60 →
  wp (vfs_read initrd_file_ops now f b k) (λ r w', ∃ s', store_step s (CallRead f b k) r s' ∧ stored w' s') w.
Proof using arena_A.
  intros Hca Hb Hk Hmem Hsm. pose proof Hca as [Hst Hop Hc _ _ _ Hg (Hf & Hv & Ev & Eops & Efl & _) _].
  unfold vfs_read. rewrite (proj2 (Z.eqb_neq f 0)) by done. apply wp_bind. eapply wp_fop_missing; [done|done|done|by eexists|].
  apply wp_bind. unfold can_read. rewrite (proj2 (Z.eqb_neq f 0)) by done. apply wp_bind. eapply wp_file; [done|].
  rewrite Ev, Efl, (proj2 (Z.eqb_neq v 0)) by done. apply wp_ret.
  destruct (flag_set fl VFS_OPEN_READ) eqn:Er.
  2:{ rewrite bool_decide_eq_false_2 by done. apply wp_ret. exists s. split; [by eapply step_read_denied|done]. }
  rewrite bool_decide_eq_true_2 by done. cbn [negb]. apply wp_bind. eapply wp_fop; [done|done|done|]. apply wp_bind.
  eapply wp_mono; [by apply (wp_initrd_read w s f v o fl c i g n)|]. cbn zeta. intros r w1 [-> Hst1].
  set (d := take (Z.to_nat k) (drop o c)) in *. set (s1 := MkStore _ _ _) in *.
  rewrite bool_decide_eq_true_2 by done. cbn [andb]. apply wp_bind.
  assert (store_step s (CallRead f b k) (VFS_STATUS_OK, Z.of_nat (length d)) s1) as Hstep by (by eapply step_read).
  destruct (0 <? Z.of_nat (length d)); [|do 2 apply wp_ret; by exists s1].
  eapply (wp_stamp w1 s1 f v); [done|apply lookup_insert_eq|done|]. intros w2 Hst2. apply wp_ret. by exists s1.
Qed.

(** The write itself, at the position of the file. *)
Lemma wp_vfs_write_at w s f v o fl c i g n b d :
  called w s f v o fl c i g n → b ≠ 0 → holds (a_mem s) b d → Z.of_nat (o + length d) < 2 ^ 60 →
  wp (g ← fop initrd_file_ops f op_write;
      '(status, written) ← g f b (Z.of_nat (length d));
      _ ← (if bool_decide (status = VFS_STATUS_OK) && (0 <? written) then
             t ← unix_time now; n ← file f; update_node (f_vnode n) (with_modified t)
           else mret tt);
      mret (status, written))
    (λ r w', (r = (VFS_STATUS_OK, Z.of_nat (length d)) ∧ stored w' (written s f v o fl d c)) ∨
             (r = (VFS_STATUS_NOMEM, 0) ∧ stored w' s)) w.
Proof using laws_A arena_A.
  intros Hca Hb Hd Hsm. pose proof Hca as [_ _ _ _ _ _ Hg (_ & _ & _ & Eops & _) _].
  apply wp_bind. eapply wp_fop; [done|done|done|]. apply wp_bind.
  eapply wp_mono; [by apply (wp_initrd_write w s f v o fl c i g n b d)|]. intros r w1 [[-> Hst1]|[-> Hst1]].
  - rewrite bool_decide_eq_true_2 by done. cbn [andb]. apply wp_bind.
    destruct (0 <? Z.of_nat (length d)); [|do 2 apply wp_ret; by left].
    eapply (wp_stamp w1 (written s f v o fl d c) f v); [done|apply lookup_insert_eq|done|].
    intros w2 Hst2. apply wp_ret. by left.
  - rewrite bool_decide_eq_false_2 by done. cbn [andb]. apply wp_bind. do 2 apply wp_ret. by right.
Qed.

Lemma moved_twice s f v o o' fl d c :
  written (moved s f v o' fl) f v o fl d c = written s f v o fl d c.
Proof. unfold written, moved. cbn. by rewrite insert_insert_eq. Qed.
Lemma moved_same s f v o fl : a_open s !! f = Some (v, o, fl) → moved s f v o fl = s.
Proof. intros H. unfold moved. rewrite insert_id by done. by destruct s. Qed.

Lemma wp_vfs_write w s f v o fl c i g n b d :
  called w s f v o fl c i g n → b ≠ 0 → holds (a_mem s) b d → Z.of_nat (length c) + Z.of_nat (length d) < 2 ^ 60 →
  wp (vfs_write initrd_file_ops now f b (Z.of_nat (length d)))
    (λ r w', ∃ s', store_step s (CallWrite f b (Z.of_nat (length d))) r s' ∧ stored w' s') w.
Proof using laws_A arena_A.
  intros Hca Hb Hd Hsm. pose proof Hca as [Hst Hop Hc Ho _ _ Hg (Hf & Hv & Ev & Eops & Efl & _) (Hn & _ & Et)].
  unfold vfs_write. rewrite (proj2 (Z.eqb_neq f 0)) by done. apply wp_bind. eapply wp_fop_missing; [done|done|done|by eexists|].
  apply wp_bind. unfold can_write. rewrite (proj2 (Z.eqb_neq f 0)) by done. apply wp_bind. eapply wp_file; [done|].
  rewrite Ev, Efl, (proj2 (Z.eqb_neq v 0)), (proj2 (Z.eqb_neq b 0)) by done.
  destruct (flag_set fl VFS_OPEN_WRITE) eqn:Ew; cbn [negb].
  2:{ apply wp_ret. rewrite bool_decide_eq_false_2 by done. apply wp_ret. exists s. split; [by eapply step_write_denied|done]. }
  apply wp_ret. rewrite bool_decide_eq_true_2 by done. cbn [negb]. apply wp_bind. eapply wp_file; [done|]. rewrite Efl.
  assert (∀ w1 p, p = write_pos fl o c → stored w1 (moved s f v (Z.of_nat p) fl) →
    wp (g ← fop initrd_file_ops f op_write;
        '(status, written) ← g f b (Z.of_nat (length d));
        _ ← (if bool_decide (status = VFS_STATUS_OK) && (0 <? written) then
               t ← unix_time now; n ← file f; update_node (f_vnode n) (with_modified t)
             else mret tt);
        mret (status, written)) (λ r w', ∃ s', store_step s (CallWrite f b (Z.of_nat (length d))) r s' ∧ stored w' s') w1) as Hrest.
  { intros w1 p Ep Hst1.
    destruct (call_facts _ _ f v (Z.of_nat p) fl Hst1 (lookup_insert_eq _ _ _)) as (p' & c1 & i1 & g1 & n1 & E & Hca1).
    apply Nat2Z.inj in E as <-. pose proof (ca_content _ _ _ _ _ _ _ _ _ _ Hca1) as Hc1. cbn in Hc1.
    rewrite Hc in Hc1. injection Hc1 as <-.
    eapply wp_mono; [apply (wp_vfs_write_at w1 _ f v p fl c i1 g1 n1 b d Hca1 Hb Hd)|].
    { pose proof (ca_offset _ _ _ _ _ _ _ _ _ _ Hca1). lia. }
    intros r w2 [[-> Hst2]|[-> Hst2]].
    - rewrite moved_twice in Hst2. eexists. split; [|exact Hst2]. rewrite Ep. by eapply step_write.
    - eexists. split; [|exact Hst2]. rewrite Ep. by eapply step_write_nomem. }
  apply wp_bind. destruct (flag_set fl VFS_OPEN_APPEND) eqn:Ea.
  - rewrite Ev. apply wp_bind. eapply wp_vnode; [done|]. rewrite Et, bool_decide_eq_true_2 by done. apply wp_bind.
    eapply wp_mono; [apply (wp_vfs_seek w s f v o fl c i g n 0 VFS_SEEK_END); try done; unfold VFS_SEEK_END; lia|].
    cbn zeta. intros r w1 [-> Hst1]. apply wp_ret. rewrite bool_decide_eq_true_2 by done. cbn [negb].
    apply (Hrest _ (length c)); [unfold write_pos; by rewrite Ea|].
    replace (Z.of_nat (length c)) with (seek_target 0 VFS_SEEK_END (Z.of_nat o) (Z.of_nat (length c))); [done|].
    unfold seek_target, VFS_SEEK_END. cbn. lia.
  - apply wp_ret. rewrite bool_decide_eq_true_2 by done. cbn [negb].
    apply (Hrest _ o); [unfold write_pos; by rewrite Ea|]. by rewrite moved_same.
Qed.

Fixpoint run_calls (calls : list file_call) : prog W (list (vfs_status * Z)) :=
  match calls with
  | [] => mret []
  | call :: calls' => r ← call_run call; rs ← run_calls calls'; mret (r :: rs)
  end.

Lemma wp_call w s call M :
  stored w s → call_ok s call → (∀ v c, a_content s !! v = Some c → Z.of_nat (length c) ≤ M) →
  M + bytes_written [call] < 2 ^ 60 →
  wp (call_run call) (λ r w', ∃ s', store_step s call r s' ∧ stored w' s') w.
Proof using laws_A arena_A.
  intros Hst Hok HM Hsm. destruct call as [f b k|f b k|f off whence]; cbn [call_ok call_run bytes_written] in *.
  - destruct Hok as ([[[v o] fl] Hop] & Hb & Hk & Hmem).
    destruct (call_facts _ _ _ _ _ _ Hst Hop) as (o' & c & i & g & n & -> & Hca).
    pose proof (HM _ _ (ca_content _ _ _ _ _ _ _ _ _ _ Hca)). apply (wp_vfs_read w s f v o' fl c i g n b k); try done. lia.
  - destruct Hok as ([[[v o] fl] Hop] & Hb & Hk & Hmem).
    destruct (call_facts _ _ _ _ _ _ Hst Hop) as (o' & c & i & g & n & -> & Hca).
    destruct (holds_some (a_mem s) b (Z.to_nat k)) as (d & Hd & Hh); [by rewrite Z2Nat.id by lia|].
    replace k with (Z.of_nat (length d)) by lia.
    pose proof (HM _ _ (ca_content _ _ _ _ _ _ _ _ _ _ Hca)). apply (wp_vfs_write w s f v o' fl c i g n b d); try done. lia.
  - destruct Hok as ([[[v o] fl] Hop] & Hoff & Hwh).
    destruct (call_facts _ _ _ _ _ _ Hst Hop) as (o' & c & i & g & n & -> & Hca).
    pose proof (HM _ _ (ca_content _ _ _ _ _ _ _ _ _ _ Hca)) as Hl.
    eapply wp_mono; [apply (wp_vfs_seek w s f v o' fl c i g n off whence); try done; lia|]. cbn zeta. intros r w' [-> Hst'].
    eexists. split; [|exact Hst']. eapply step_seek; [exact Hop|apply Hca].
Qed.

(** A step opens and maps nothing, and files grow by what is written. *)
Lemma step_frame s call r s' M :
  store_step s call r s' → call_ok s call → (∀ v c, a_content s !! v = Some c → Z.of_nat (length c) ≤ M) →
  (∀ v f o fl c, a_open s !! f = Some (v, o, fl) → a_content s !! v = Some c → o ≤ Z.of_nat (length c)) →
  (∀ f, is_Some (a_open s !! f) → is_Some (a_open s' !! f)) ∧ (∀ x, is_Some (a_mem s !! x) → is_Some (a_mem s' !! x)) ∧
  (∀ v c, a_content s' !! v = Some c → Z.of_nat (length c) ≤ M + bytes_written [call]).
Proof.
  intros Hstep Hok HM Hoff. destruct Hstep as [f b k v o fl c d Hop Hc Hr Hd|f b k v o fl Hop Hr|f b k v o fl c d Hop Hc Hw Hd Hk
    |f b k v o fl c Hop Hc Hw|f b k v o fl Hop Hw|f off whence v o fl c Hop Hc]; cbn [bytes_written a_open a_mem a_content moved written].
  all: split; [first [done|intros f' Hf'; destruct (decide (f' = f)) as [->|];
                           [rewrite lookup_insert_eq; by eexists|by rewrite lookup_insert_ne]]|].
  all: split; [first [done|intros x Hx; by apply init_mapped]|].
  all: intros u e He; try (specialize (HM _ _ He); lia).
  apply lookup_insert_Some in He as [[<- <-]|[_ He]]; [|specialize (HM _ _ He); lia].
  pose proof (HM _ _ Hc). pose proof (Hoff _ _ _ _ _ Hop Hc) as Ho. unfold write_pos.
  destruct (flag_set fl VFS_OPEN_APPEND); rewrite splice_length by lia; lia.
Qed.
Lemma call_ok_mono s s' call :
  (∀ f, is_Some (a_open s !! f) → is_Some (a_open s' !! f)) → (∀ x, is_Some (a_mem s !! x) → is_Some (a_mem s' !! x)) →
  call_ok s call → call_ok s' call.
Proof. intros Ho Hm. destruct call; cbn; naive_solver. Qed.

Lemma bytes_written_cons call calls : bytes_written (call :: calls) = bytes_written [call] + bytes_written calls.
Proof. destruct call; cbn [bytes_written]; lia. Qed.
Lemma bytes_written_pos calls : 0 ≤ bytes_written calls.
Proof. induction calls as [|[] calls IH]; cbn [bytes_written]; lia. Qed.

Lemma wp_run_calls calls w s M :
  stored w s → Forall (call_ok s) calls → (∀ v c, a_content s !! v = Some c → Z.of_nat (length c) ≤ M) →
  M + bytes_written calls < 2 ^ 60 →
  wp (run_calls calls) (λ rs w', ∃ s', store_steps s calls rs s' ∧ stored w' s') w.
Proof using laws_A arena_A.
  revert w s M. induction calls as [|call calls IH]; intros w s M Hst Hok HM Hsm; cbn [run_calls].
  { apply wp_ret. exists s. split; [constructor|done]. }
  apply Forall_cons in Hok as [Hok Hoks]. rewrite bytes_written_cons in Hsm. pose proof (bytes_written_pos calls).
  apply wp_bind. eapply wp_mono; [apply (wp_call w s call M); try done; lia|]. intros r w1 (s1 & Hstep & Hst1).
  destruct (step_frame _ _ _ _ M Hstep Hok HM) as (Ho1 & Hm1 & HM1).
  { intros v f o fl c Hop Hc. destruct (st_open _ _ Hst _ _ _ _ Hop) as (_ & _ & (c' & Hc' & ?)). naive_solver lia. }
  apply wp_bind. eapply wp_mono; [apply (IH w1 s1 (M + bytes_written [call])); try done; [|lia]|].
  { eapply Forall_impl; [exact Hoks|]. intros call'. by apply call_ok_mono. }
  intros rs w2 (s2 & Hsteps & Hst2). apply wp_ret. exists s2. split; [by econstructor|done].
Qed.

(** C6: any sequence of reads, writes and seeks on any number of open files of
    the ram disk returns, and answers and changes memory exactly as the abstract
    store does: a read copies the bytes from the position on into the caller's
    buffer, a write splices the caller's bytes into the contents at the position
    (at the end, when opened for appending) or reports lack of memory and leaves
    the contents alone, a seek stays inside the file, and a file not opened for
    the access is refused.  No other file and no other byte of user memory
    changes, wherever buffers are kept and however often they move. *)
Theorem initrd_files_refine_store calls w s M :
  stored w s → Forall (call_ok s) calls → (∀ v c, a_content s !! v = Some c → Z.of_nat (length c) ≤ M) →
  M + bytes_written calls < 2 ^ 60 →
  ∃ rs w' s', run_calls calls w = Ret (rs, w') ∧ store_steps s calls rs s' ∧ stored w' s'.
Proof using laws_A arena_A.
  intros Hst Hok HM Hsm. pose proof (wp_run_calls calls w s M Hst Hok HM Hsm) as Hwp.
  apply wp_inv in Hwp as (rs & w' & Hr & s' & Hs & Hst'). by exists rs, w', s'.
Qed.
End vfs_calls.

(** ** An example

    The file 700 holds the five bytes of [hello] in the archive; it is open for
    reading and writing as 800, and the user's memory is at 3000. *)
Definition hello : list Z := [104; 101; 108; 108; 111].
Definition demo_mem : gmap Z Z := init_bytes [33; 33; 33; 0; 0; 0; 0; 0] 3000 ∅.
Definition demo_store : fstore := MkStore demo_mem {[700 := hello]} {[800 := (700, 0, 3)]}.
Definition demo_disk : vworld (iext bump) :=
  MkWorld {[700 := MkNode INITRD_VNODE_OPS VFS_NODE_FILE 1 1 0 0 0 0 700]} ∅
    {[800 := MkFile 700 INITRD_VFILE_OPS 3 1 0 0]} ∅ 0 None
    (MkExt {[700 := MkInode 0 0 0 false 2000 5 false 5 0 0 0 0 0 0 0]}
       (init_bytes hello 2000 demo_mem) ∅ ∅ 1 0 0 (MkBump 5000 10 ∅) (MkBump 5000 10 ∅)).

Lemma demo_bump_ok : bump_ok (MkBump 5000 10 ∅) ∧ bump_live (MkBump 5000 10 ∅) !! 0 = None.
Proof. split; [split; [done|]|done]. intros p n Hp. cbn in Hp. by rewrite lookup_empty in Hp. Qed.

Lemma demo_outside x : x < 5000 → outside demo_disk x.
Proof. intros Hx. split; [cbn; lia|]. intros q k Hq. cbn in Hq. by rewrite lookup_empty in Hq. Qed.

Lemma demo_mem_range x c : demo_mem !! x = Some c → 3000 ≤ x < 3008.
Proof.
  intros Hx. destruct (decide (3000 ≤ x < 3008)) as [|Hn]; [done|]. unfold demo_mem in Hx.
  rewrite init_out in Hx by (cbn [length]; lia). by rewrite lookup_empty in Hx.
Qed.

Lemma demo_stored : stored demo_disk demo_store.
Proof.
  split; cbn [a_mem a_content a_open demo_store].
  - apply demo_bump_ok.
  - split; [intros p k Hp|intros p k q j Hp]; cbn in Hp; by rewrite lookup_empty in Hp.
  - intros x b Hx. pose proof (demo_mem_range _ _ Hx). split; [|apply demo_outside; lia].
    change (init_bytes hello 2000 demo_mem !! x = Some b). by rewrite init_out by (cbn [hello length]; lia).
  - intros x v c i [b Hx] [<- <-]%lookup_singleton_Some Hi. cbn [ext demo_disk inodes] in Hi.
    apply lookup_singleton_Some in Hi as [_ <-]. pose proof (demo_mem_range _ _ Hx).
    intros [_ Hb]. cbn in Hb. lia.
  - intros v c [<- <-]%lookup_singleton_Some. split; [done|]. split; [by eexists|]. eexists. split; [apply lookup_singleton_eq|].
    split; cbn [i_len i_buf i_bufsize i_buf_owned]; try done; [apply init_holds| |].
    + intros x [_ Hx]. cbn in Hx. eapply holds_mapped; [apply init_holds|]. cbn [hello length]. lia.
    + intros _ x [_ Hx]. cbn in Hx. apply demo_outside. lia.
  - intros u v c d i j x [<- <-]%lookup_singleton_Some [<- <-]%lookup_singleton_Some. done.
  - intros f v o fl [<- [= <- <- <-]]%lookup_singleton_Some. split; [done|]. split; [eexists; split; [apply lookup_singleton_eq|done]|].
    exists hello. split; [apply lookup_singleton_eq|]. cbn. lia.
Qed.

(** Three bytes appended by hand, then the whole file read back. *)
Lemma initrd_files_refine_store_witness :
  let calls := [CallSeek 800 0 VFS_SEEK_END; CallWrite 800 3000 3; CallSeek 800 0 VFS_SEEK_SET; CallRead 800 3000 8] in
  ∃ w' s', run_calls calls demo_disk =
             Ret ([(VFS_STATUS_OK, 5); (VFS_STATUS_OK, 3); (VFS_STATUS_OK, 0); (VFS_STATUS_OK, 8)], w') ∧
    store_steps demo_store calls [(VFS_STATUS_OK, 5); (VFS_STATUS_OK, 3); (VFS_STATUS_OK, 0); (VFS_STATUS_OK, 8)] s' ∧
    stored w' s' ∧ read_bytes (bytes (ext w')) 3000 8 = Ret (hello ++ [33; 33; 33]).
Proof.
  intros calls. destruct (initrd_files_refine_store calls demo_disk demo_store 5) as (rs & w' & s' & Hr & Hs & Hst).
  - apply demo_stored.
  - assert (∀ x, 3000 ≤ x < 3008 → is_Some (demo_mem !! x)) as Hmap.
    { intros x Hx. eapply holds_mapped; [apply init_holds|]. cbn [length]. lia. }
    repeat constructor; try done; cbn; try lia; try (by eexists); intros x Hx; apply Hmap; lia.
  - intros v c Hc. cbn [a_content demo_store] in Hc. apply lookup_singleton_Some in Hc as [_ <-]. cbn. lia.
  - cbn. lia.
  - assert (rs = [(VFS_STATUS_OK, 5); (VFS_STATUS_OK, 3); (VFS_STATUS_OK, 0); (VFS_STATUS_OK, 8)]) as ->.
    { vm_compute in Hr. by injection Hr as <- _. }
    exists w', s'. split; [done|]. split; [done|]. split; [done|]. vm_compute in Hr. injection Hr as <-. vm_compute. reflexivity.
Defined.
