(* ===== verification/InitrdTree.v ===== *)
(** * InitrdTree: creating, linking and removing

    The inodes with their sibling pointers represent a tree: a finite map from
    addresses to nodes with a name, a parent and an ordered list of children.
    Looking up, creating files, directories and links, and removing them act on
    that map; the pointer structure, the names in memory and the blocks of both
    allocators follow. *)
From S2P Require Import Prelude Alloc Vfs VfsWalk Initrd InitrdFs InitrdMem InitrdFile.

(** ** The abstract tree

    [t_data] is the contents of a file or the target of a symbolic link; [t_hard] is
    the node a hard link stands for, or 0. *)
Record dnode := MkD {
  t_type : vfs_node_type; t_name : list Z; t_parent : Z; t_kids : list Z; t_hard : Z; t_data : list Z;
}.
Abbreviation dtree := (gmap Z dnode).

Definition with_kids (l : list Z) (D : dnode) : dnode :=
  MkD (t_type D) (t_name D) (t_parent D) l (t_hard D) (t_data D).
Definition with_t_parent (p : Z) (D : dnode) : dnode :=
  MkD (t_type D) (t_name D) p (t_kids D) (t_hard D) (t_data D).

(** The first child of that name. *)
Definition t_find (T : dtree) (d : Z) (name : list Z) : option Z :=
  D ← T !! d; head (filter (λ c, t_name <$> T !! c = Some name) (t_kids D)).
Definition t_add (T : dtree) (d v : Z) (D : dnode) : dtree :=
  <[v := D]> (alter (λ E, with_kids (t_kids E ++ [v]) E) d T).
Definition t_detach (T : dtree) (d v : Z) : dtree :=
  alter (with_t_parent 0) v (alter (λ E, with_kids (filter (λ c, c ≠ v) (t_kids E)) E) d T).

(** ** Lists of siblings *)
Section siblings.
Implicit Types (I : gmap Z initrd_inode) (l : list Z).

Lemma sibs_ext I I' p l :
  sib_list I p l → (∀ c, c ∈ l → i_next_sibling <$> I' !! c = i_next_sibling <$> I !! c) → sib_list I' p l.
Proof.
  revert p. induction l as [|x l IH]; intros p; [done|]. cbn [sib_list]. intros (-> & Hx & i & Hi & Hs) He.
  split; [done|]. split; [done|]. specialize (He x ltac:(set_solver)) as Hex. rewrite Hi in Hex.
  destruct (I' !! x) as [j|]; [|done]. injection Hex as Hex. exists j. split; [done|]. rewrite Hex.
  apply IH; [done|]. intros c Hc. apply He. set_solver.
Qed.
Lemma sibs_in I p l c : sib_list I p l → c ∈ l → c ≠ 0 ∧ is_Some (I !! c).
Proof.
  revert p. induction l as [|x l IH]; intros p; [set_solver|]. cbn [sib_list]. intros (-> & Hx & i & Hi & Hs).
  intros [->|Hc]%elem_of_cons; [split; [done|by eexists]|by eapply IH].
Qed.
Lemma exists_last_or_nil {B} (l : list B) : l = [] ∨ ∃ k x, l = k ++ [x].
Proof. induction l as [|x l _] using rev_ind; [by left|right; by exists l, x]. Qed.
(** Appending [v] behind the last of a non-empty list. *)
Lemma sibs_snoc I p l x v i j :
  sib_list I p (l ++ [x]) → NoDup (l ++ [x]) → v ∉ l ++ [x] → I !! x = Some i → v ≠ 0 →
  I !! v = Some j → i_next_sibling j = 0 → sib_list (<[x := with_next v i]> I) p (l ++ [x; v]).
Proof.
  intros Hs Hnd Hv Hi Hv0 Hj Hj0. revert p Hs. induction l as [|y l IH]; intros p; cbn [app sib_list].
  - intros (-> & Hx & _). split; [done|]. split; [done|]. exists (with_next v i). rewrite lookup_insert_eq. split; [done|].
    split; [done|]. split; [done|]. exists j. rewrite lookup_insert_ne by set_solver. done.
  - intros (-> & Hy & k & Hk & Hs). split; [done|]. split; [done|]. exists k. cbn [app] in Hnd, Hv.
    apply NoDup_cons in Hnd as [Hyl Hnd]. rewrite lookup_insert_ne by set_solver. split; [done|]. apply IH; [done|set_solver|done].
Qed.
(** Taking [x] out behind [y]. *)
Lemma sibs_cut I p l y x k j i :
  sib_list I p (l ++ [y] ++ [x] ++ k) → NoDup (l ++ [y] ++ [x] ++ k) → I !! y = Some j → I !! x = Some i →
  sib_list (<[y := with_next (i_next_sibling i) j]> I) p (l ++ [y] ++ k).
Proof.
  intros Hs Hnd Hj Hi. revert p Hs. induction l as [|z l IH]; intros p; cbn [app sib_list].
  - intros (-> & Hy & j' & Hj' & Ex & Hx & i' & Hi' & Hs). rewrite Hi in Hi'. injection Hi' as <-.
    split; [done|]. split; [done|]. exists (with_next (i_next_sibling i) j). rewrite lookup_insert_eq. split; [done|].
    cbn [i_next_sibling with_next]. eapply sibs_ext; [done|]. intros c Hc. rewrite lookup_insert_ne; [done|].
    intros <-. cbn [app] in Hnd. apply NoDup_cons in Hnd as [Hn _]. set_solver.
  - intros (-> & Hz & z' & Hz' & Hs). cbn [app] in Hnd. apply NoDup_cons in Hnd as [Hn Hnd]. split; [done|]. split; [done|].
    exists z'. rewrite lookup_insert_ne by set_solver. split; [done|]. by apply IH.
Qed.
End siblings.

(** ** The representation *)
Section shape.
Implicit Types (ns : gmap Z vfs_node) (I : gmap Z initrd_inode) (m : gmap Z Z) (T : dtree) (D : dnode).

Definition node_rep (n : vfs_node) (a : Z) D : Prop :=
  n_fs_data n = a ∧ n_ops n = INITRD_VNODE_OPS ∧ n_type n = t_type D.
Record ino_rep I m (i : initrd_inode) D : Prop := {
  ir_name : holds m (i_name i) (t_name D) ∧ i_name_size i = Z.of_nat (length (t_name D));
  ir_parent : i_parent i = t_parent D;
  ir_hard : i_hard_target i = t_hard D;
  ir_kids : sib_list I (i_first_child i) (t_kids D);
  ir_target : t_type D ≠ VFS_NODE_DIR → holds m (i_buf i) (t_data D) ∧ i_len i = Z.of_nat (length (t_data D));
}.
Record shape ns I m T : Prop := {
  sh_nodes a : is_Some (ns !! a) ↔ is_Some (T !! a);
  sh_inodes a : is_Some (I !! a) ↔ is_Some (T !! a);
  sh_rep a D : T !! a = Some D → a ≠ 0 ∧ (∃ n, ns !! a = Some n ∧ node_rep n a D) ∧ ∃ i, I !! a = Some i ∧ ino_rep I m i D;
  sh_kids a D c : T !! a = Some D → c ∈ t_kids D → ∃ E, T !! c = Some E ∧ t_parent E = a;
  sh_nodup a D : T !! a = Some D → NoDup (t_kids D);
  sh_parent a D : T !! a = Some D → t_parent D = 0 ∨ ∃ E, T !! t_parent D = Some E ∧ t_type E = VFS_NODE_DIR;
  sh_hard a D : T !! a = Some D → t_hard D = 0 ∨ ∃ E, T !! t_hard D = Some E ∧ t_hard E = 0;
}.

(** A child has one parent. *)
Lemma kid_once ns I m T a b D E c :
  shape ns I m T → T !! a = Some D → T !! b = Some E → c ∈ t_kids D → c ∈ t_kids E → a = b.
Proof.
  intros Hs HD HE Hc Hc'. destruct (sh_kids _ _ _ _ Hs a D c HD Hc) as (F & HF & <-).
  destruct (sh_kids _ _ _ _ Hs b E c HE Hc') as (F' & HF' & <-). congruence.
Qed.
Lemma shape_zero ns I m T : shape ns I m T → I !! 0 = None ∧ T !! 0 = None.
Proof.
  intros Hs. destruct (T !! 0) as [D|] eqn:E; [by destruct (sh_rep _ _ _ _ Hs 0 D E)|]. split; [|done].
  apply eq_None_not_Some. intros H%(sh_inodes _ _ _ _ Hs). rewrite E in H. by destruct H.
Qed.

(** The fields the representation reads; the length of a directory is not one of them. *)
Definition istay (i : initrd_inode) := (i_name i, i_name_size i, i_name_owned i, i_buf i, i_buf_owned i, i_hard_target i).
Definition ikey (i : initrd_inode) := (istay i, i_parent i).
Definition nkey (n : vfs_node) := (n_fs_data n, n_ops n, n_type n, link_count n).
Definition same_len D (i i' : initrd_inode) : Prop := t_type D ≠ VFS_NODE_DIR → i_len i' = i_len i.

Lemma ino_rep_ext I I' m m' i i' D :
  ino_rep I m i D → ikey i' = ikey i → same_len D i i' → m ⊆ m' → sib_list I' (i_first_child i') (t_kids D) →
  ino_rep I' m' i' D.
Proof.
  intros [[Hn Hs] Hp Hh Hk Ht] [= E1 E2 E3 E4 E5 E6 E7] El Hm Hk'.
  assert (∀ p l, holds m p l → holds m' p l) as Hmono by (intros p l H j c Hj; eapply lookup_weaken; [by apply H|done]).
  split; rewrite ?E1, ?E2, ?E4, ?E6, ?E7; try done; [by split; [apply Hmono|]|].
  intros Hty. destruct (Ht Hty) as [Hb Hl]. split; [by apply Hmono|]. by rewrite El.
Qed.
Lemma node_rep_ext n n' a D : node_rep n a D → nkey n' = nkey n → node_rep n' a D.
Proof. intros (H1 & H2 & H3) [= E1 E2 E3 _]. unfold node_rep. by rewrite E1, E2, E3. Qed.

Lemma fmap_some {B C} (f : B → C) (x y : option B) b : f <$> y = f <$> x → x = Some b → ∃ b', y = Some b' ∧ f b' = f b.
Proof. intros H ->. destruct y as [b'|]; [|done]. exists b'. split; [done|]. cbn in H. congruence. Qed.
Lemma fmap_is_some {B C} (f : B → C) (x y : option B) : f <$> y = f <$> x → is_Some y ↔ is_Some x.
Proof. intros H. destruct x, y; try done; split; intros; by eexists. Qed.

(** Changes outside of what the representation reads. *)
Lemma shape_ext ns ns' I I' m m' T :
  shape ns I m T → (∀ a, nkey <$> ns' !! a = nkey <$> ns !! a) →
  (∀ a, (λ i, (ikey i, i_first_child i, i_next_sibling i)) <$> I' !! a = (λ i, (ikey i, i_first_child i, i_next_sibling i)) <$> I !! a) →
  (∀ a D i i', T !! a = Some D → I !! a = Some i → I' !! a = Some i' → same_len D i i') → m ⊆ m' → shape ns' I' m' T.
Proof.
  intros Hs Hn Hi Hl Hm. pose proof Hs as [Sn Si Sr Sk Sd Sp Sh]. split; try done.
  - intros a. by rewrite (fmap_is_some _ _ _ (Hn a)).
  - intros a. by rewrite (fmap_is_some _ _ _ (Hi a)).
  - intros a D HD. destruct (Sr a D HD) as (Ha & (n & Hna & Hnr) & i & Hia & Hir). split; [done|]. split.
    + destruct (fmap_some _ _ _ _ (Hn a) Hna) as (n' & Hn' & En). exists n'. split; [done|]. by eapply node_rep_ext.
    + destruct (fmap_some _ _ _ _ (Hi a) Hia) as (i' & Hi' & Ei). exists i'. split; [done|].
      assert (ikey i' = ikey i ∧ i_first_child i' = i_first_child i) as [Ek Ef] by (split; congruence).
      eapply ino_rep_ext; [done|done|by eapply Hl|done|]. rewrite Ef. eapply sibs_ext; [apply Hir|]. intros c _.
      specialize (Hi c). destruct (I !! c), (I' !! c); try done. cbn in Hi |- *. congruence.
Qed.

(** *** The interface of the virtual file system *)
Lemma siblings_run I fuel p l :
  I !! 0 = None → sib_list I p l → (length l ≤ fuel)%nat → siblings I fuel p = l.
Proof.
  intros H0. revert p l. induction fuel as [|fuel IH]; intros p l Hs Hl.
  { destruct l; [done|cbn [length] in Hl; lia]. }
  cbn [siblings]. destruct l as [|x l]; cbn [sib_list] in Hs; [subst; by rewrite H0|].
  destruct Hs as (-> & Hx & i & Hi & Hs). rewrite Hi. f_equal. apply IH; [done|cbn [length] in Hl; lia].
Qed.
Lemma kids_size ns I m T a D : shape ns I m T → T !! a = Some D → (length (t_kids D) ≤ size I)%nat.
Proof.
  intros Hs HD. rewrite <- size_dom, <- (size_list_to_set (C := gset Z) (t_kids D)) by (by eapply sh_nodup).
  apply subseteq_size. intros c Hc%elem_of_list_to_set. apply elem_of_dom.
  destruct (sh_kids _ _ _ _ Hs a D c HD Hc) as (E & HE & _). apply (sh_inodes _ _ _ _ Hs). by eexists.
Qed.
Lemma shape_children ns I m T a D : shape ns I m T → T !! a = Some D → children (I, m) a = t_kids D.
Proof.
  intros Hs HD. destruct (sh_rep _ _ _ _ Hs a D HD) as (_ & _ & i & Hi & Hr). unfold children. cbn [fst]. rewrite Hi.
  apply siblings_run; [by eapply shape_zero|apply Hr|by eapply kids_size].
Qed.

Lemma shape_fs_ok {A} `{Allocator A} ns I m T : shape ns I m T → @fs_ok (iext A) tree initrd_fs ns (I, m).
Proof.
  intros Hs a n Hn. destruct (proj1 (sh_nodes _ _ _ _ Hs a) ltac:(by eexists)) as [D HD].
  destruct (sh_rep _ _ _ _ Hs a D HD) as (Ha & (n' & Hn' & E1 & E2 & E3) & i & Hi & [[Hnm Hsz] Hp Hh Hk Ht]).
  rewrite Hn in Hn'. injection Hn' as <-. split; [done|]. split; [done|]. split; [done|]. exists i. split; [done|].
  split. { rewrite Hp. destruct (sh_parent _ _ _ _ Hs a D HD) as [|(E & HE & _)]; [by left|right]. apply (sh_nodes _ _ _ _ Hs). by eexists. }
  split. { exists (t_name D). apply read_holds. split; [|done]. rewrite Hsz. lia. }
  split; [lia|]. split.
  { intros Hty. rewrite E3 in Hty. destruct (Ht ltac:(congruence)) as [Hb Hl]. exists (t_data D). apply read_holds. split; [|done]. rewrite Hl. lia. }
  rewrite (shape_children ns I m T a D Hs HD). split; [done|]. intros c Hc.
  destruct (sh_kids _ _ _ _ Hs a D c HD Hc) as (E & HE & _).
  destruct (sh_rep _ _ _ _ Hs c E HE) as (Hc0 & (nc & Hnc & _) & j & Hj & Hrj). split; [done|]. split; [by eexists|].
  unfold target_of. cbn [fst]. rewrite Hj, (ir_hard _ _ _ _ Hrj).
  destruct (sh_hard _ _ _ _ Hs c E HE) as [->|(F & HF & _)]; [cbn; split; [by eexists|done]|].
  destruct (sh_rep _ _ _ _ Hs _ F HF) as (Hf0 & (nf & Hnf & _) & _).
  rewrite (proj2 (Z.eqb_neq _ 0)) by done. split; [by eexists|done].
Qed.

(** *** Attaching *)
Definition attach (d v : Z) (kids : list Z) I : gmap Z initrd_inode :=
  alter (λ i, with_len (u64 (i_len i + 1)) i) d
    (match last kids with
     | None => alter (with_first_child v) d I
     | Some x => alter (with_next v) x I
     end).

Lemma attach_some d v kids I a i : I !! a = Some i →
  ∃ i', attach d v kids I !! a = Some i' ∧ ikey i' = ikey i ∧ (a ≠ d → i_len i' = i_len i) ∧
    i_first_child i' = (if decide (a = d ∧ kids = []) then v else i_first_child i) ∧
    i_next_sibling i' = (if decide (last kids = Some a) then v else i_next_sibling i).
Proof.
  intros Hi. unfold attach.
  assert (∀ (f : initrd_inode → initrd_inode) b (J : gmap Z initrd_inode) j, J !! a = Some j → alter f b J !! a = Some (if decide (a = b) then f j else j)) as Halt.
  { intros f b J j Hj. case_decide as E; [subst b; rewrite lookup_alter_eq, Hj; done|by rewrite lookup_alter_ne by done]. }
  destruct (last kids) as [x|] eqn:El.
  - assert (kids ≠ []) as Hne by (by intros ->). rewrite (Halt _ _ _ _ (Halt _ _ _ _ Hi)).
    eexists. split; [done|]. repeat case_decide; naive_solver.
  - apply last_None in El as ->. rewrite (Halt _ _ _ _ (Halt _ _ _ _ Hi)).
    eexists. split; [done|]. repeat case_decide; naive_solver.
Qed.
Lemma attach_dom d v kids I a : is_Some (attach d v kids I !! a) ↔ is_Some (I !! a).
Proof. unfold attach. rewrite lookup_alter_is_Some. destruct (last kids); by rewrite lookup_alter_is_Some. Qed.

(** A new node [v] below the directory [d]. *)
Record new_node m T (d v : Z) (n : vfs_node) (i : initrd_inode) D : Prop := {
  nn_fresh : T !! v = None ∧ v ≠ 0;
  nn_node : node_rep n v D;
  nn_name : holds m (i_name i) (t_name D) ∧ i_name_size i = Z.of_nat (length (t_name D));
  nn_parent : i_parent i = d ∧ t_parent D = d;
  nn_hard : i_hard_target i = t_hard D ∧ (t_hard D = 0 ∨ ∃ E, T !! t_hard D = Some E ∧ t_hard E = 0);
  nn_links : i_first_child i = 0 ∧ i_next_sibling i = 0 ∧ t_kids D = [];
  nn_target : t_type D ≠ VFS_NODE_DIR → holds m (i_buf i) (t_data D) ∧ i_len i = Z.of_nat (length (t_data D));
}.

Lemma attach_kids I d v i kids id :
  NoDup kids → v ∉ kids → v ≠ 0 → I !! d = Some id → I !! v = None → i_next_sibling i = 0 →
  sib_list I (i_first_child id) kids →
  ∀ id', attach d v kids (<[v := i]> I) !! d = Some id' →
  sib_list (attach d v kids (<[v := i]> I)) (i_first_child id') (kids ++ [v]).
Proof.
  intros Hnd Hv Hv0 Hd HvI Hi0 Hs id' Hid'. assert (v ≠ d) as Hvd by congruence.
  assert (<[v := i]> I !! d = Some id) as Hd1 by (by rewrite lookup_insert_ne).
  destruct (attach_some d v kids _ _ _ Hd1) as (id2 & Hid2 & _ & _ & Ef & _). rewrite Hid' in Hid2. injection Hid2 as <-.
  destruct (attach_some d v kids (<[v := i]> I) v i (lookup_insert_eq _ _ _)) as (iv & Hiv & _ & _ & _ & Env).
  rewrite decide_False in Env by (intros Hl%last_Some_elem_of; done). rewrite Hi0 in Env.
  destruct (exists_last_or_nil kids) as [->|(l & y & ->)].
  - rewrite decide_True in Ef by done. rewrite Ef. cbn [app sib_list]. split; [done|]. split; [done|]. by exists iv.
  - rewrite decide_False in Ef by (intros [_ E]; by destruct l). rewrite Ef, <- app_assoc.
    destruct (sibs_in _ _ _ y Hs ltac:(set_solver)) as [_ [iy Hiy]].
    assert (<[v := i]> I !! y = Some iy) as Hy1 by (rewrite lookup_insert_ne by set_solver; done).
    eapply sibs_ext; [eapply (sibs_snoc (<[v := i]> I) _ l y v iy i); [|done|done|done|done|apply lookup_insert_eq|done]|].
    + eapply sibs_ext; [done|]. intros c Hc. rewrite lookup_insert_ne; [done|]. set_solver.
    + intros c Hc. destruct (decide (c = y)) as [->|Hcy].
      * rewrite lookup_insert_eq. destruct (attach_some d v (l ++ [y]) _ _ _ Hy1) as (j & Hj & _ & _ & _ & En).
        rewrite Hj. cbn. f_equal. rewrite En, last_snoc, decide_True by done. done.
      * rewrite lookup_insert_ne by done. destruct (<[v := i]> I !! c) as [ic|] eqn:Hic.
        -- destruct (attach_some d v (l ++ [y]) _ _ _ Hic) as (j & Hj & _ & _ & _ & En).
           rewrite Hj. cbn. f_equal. rewrite En, last_snoc, decide_False by congruence. done.
        -- destruct (attach d v (l ++ [y]) (<[v := i]> I) !! c) eqn:E; [|done].
           assert (is_Some (<[v := i]> I !! c)) as [? E'] by (apply attach_dom with (d := d) (v := v) (kids := l ++ [y]); by eexists).
           congruence.
Qed.

(** Everything of a node but its children. *)
Definition dcore D := (t_type D, t_name D, t_parent D, t_hard D, t_data D).

Lemma t_add_cases T d v D Dd a E :
  T !! d = Some Dd → t_add T d v D !! a = Some E →
  (a = v ∧ E = D) ∨ (a ≠ v ∧ a = d ∧ E = with_kids (t_kids Dd ++ [v]) Dd) ∨ (a ≠ v ∧ a ≠ d ∧ T !! a = Some E).
Proof.
  intros Hd. unfold t_add. intros [[<- <-]|[Hne Ha]]%lookup_insert_Some; [by left|right].
  destruct (decide (a = d)) as [->|Had]; [left|right; by rewrite lookup_alter_ne in Ha].
  rewrite lookup_alter_eq, Hd in Ha. naive_solver.
Qed.
Lemma t_add_old T d v D a E :
  T !! v = None → T !! a = Some E → ∃ E', t_add T d v D !! a = Some E' ∧ dcore E' = dcore E.
Proof.
  intros Hv Ha. unfold t_add. rewrite lookup_insert_ne by congruence. destruct (decide (a = d)) as [->|Had].
  - rewrite lookup_alter_eq, Ha. cbn. by eexists.
  - rewrite lookup_alter_ne by done. by exists E.
Qed.
Lemma t_add_dom T d v D Dd a : T !! d = Some Dd → is_Some (t_add T d v D !! a) ↔ a = v ∨ is_Some (T !! a).
Proof.
  intros Hd. unfold t_add. destruct (decide (a = v)) as [->|Hne].
  - rewrite lookup_insert_eq. split; [by left|by eexists].
  - rewrite lookup_insert_ne, lookup_alter_is_Some by done. naive_solver.
Qed.

Section attach_shape.
Context (ns : gmap Z vfs_node) (I : gmap Z initrd_inode) (m : gmap Z Z) (T : dtree) (d v : Z) (Dd D : dnode).
Context (n : vfs_node) (i : initrd_inode).
Context (Hs : shape ns I m T) (Hd : T !! d = Some Dd) (Hty : t_type Dd = VFS_NODE_DIR) (Hn : new_node m T d v n i D).
Let I' := attach d v (t_kids Dd) (<[v := i]> I).

Lemma attach_fresh : I !! v = None ∧ (v ∉ t_kids Dd) ∧ v ≠ d.
Proof.
  destruct (nn_fresh _ _ _ _ _ _ _ Hn) as [Hv _]. split.
  - apply eq_None_not_Some. intros H%(sh_inodes _ _ _ _ Hs). rewrite Hv in H. by destruct H.
  - split; [|congruence]. intros Hc. destruct (sh_kids _ _ _ _ Hs _ _ _ Hd Hc) as (E & HE & _). congruence.
Qed.
Lemma attach_old_inode a E j : T !! a = Some E → I !! a = Some j → ino_rep I m j E →
  ∃ j', I' !! a = Some j' ∧ ino_rep I' m j' (if decide (a = d) then with_kids (t_kids Dd ++ [v]) Dd else E).
Proof.
  intros HE Hj Hr. destruct attach_fresh as (HvI & Hvk & Hvd). destruct (nn_fresh _ _ _ _ _ _ _ Hn) as [Hv Hv0].
  assert (<[v := i]> I !! a = Some j) as Hj1 by (rewrite lookup_insert_ne by congruence; done).
  destruct (attach_some d v (t_kids Dd) _ _ _ Hj1) as (j' & Hj' & Ek & El & Ef & _). exists j'. split; [done|].
  destruct (decide (a = d)) as [Had|Had].
  - subst a. assert (E = Dd) as -> by congruence.
    destruct Hr as [Hn1 Hp Hh Hk Ht]. pose proof (attach_kids I d v i (t_kids Dd) j) as Hkids.
    specialize (Hkids (sh_nodup _ _ _ _ Hs _ _ Hd) Hvk Hv0 Hj HvI). destruct (nn_links _ _ _ _ _ _ _ Hn) as (_ & Hi0 & _).
    specialize (Hkids Hi0 Hk j' Hj'). injection Ek as E1 E2 E3 E4 E5 E6 E7.
    split; rewrite ?E1, ?E2, ?E4, ?E6, ?E7; done.
  - rewrite decide_False in Ef by naive_solver. eapply ino_rep_ext; [done|done|intros _; by apply El|done|].
    rewrite Ef. eapply sibs_ext; [apply Hr|]. intros c Hc.
    destruct (sh_kids _ _ _ _ Hs _ _ _ HE Hc) as (F & HF & _).
    destruct (proj2 (sh_inodes _ _ _ _ Hs c) ltac:(by eexists)) as [jc Hjc].
    assert (<[v := i]> I !! c = Some jc) as Hjc1 by (rewrite lookup_insert_ne by congruence; done).
    destruct (attach_some d v (t_kids Dd) _ _ _ Hjc1) as (jc' & Hjc' & _ & _ & _ & En).
    unfold I'. rewrite Hjc, Hjc'. cbn. f_equal. rewrite En, decide_False; [done|].
    intros Hl%last_Some_elem_of. apply Had. by eapply kid_once.
Qed.
Lemma attach_new_inode : ∃ j, I' !! v = Some j ∧ ino_rep I' m j D.
Proof.
  destruct attach_fresh as (HvI & Hvk & Hvd). destruct Hn as [_ _ Hnm [Hp1 Hp2] [Hh1 _] (Hf & Hx & Hk) Ht].
  destruct (attach_some d v (t_kids Dd) (<[v := i]> I) v i (lookup_insert_eq _ _ _)) as (j & Hj & Ek & El & Ef & _).
  exists j. split; [done|]. rewrite decide_False in Ef by naive_solver. injection Ek as E1 E2 E3 E4 E5 E6 E7.
  split; rewrite ?E1, ?E2, ?E4, ?E6, ?E7; try done; [congruence|rewrite Hk, Ef; done|]. intros Es. rewrite El by done. by apply Ht.
Qed.

Lemma shape_attach : shape (<[v := n]> ns) I' m (t_add T d v D).
Proof.
  destruct attach_fresh as (HvI & Hvk & Hvd). destruct (nn_fresh _ _ _ _ _ _ _ Hn) as [Hv Hv0].
  pose proof Hs as [Sn Si Sr Sk Sd Sp Sh].
  assert (∀ a E, T !! a = Some E → t_add T d v D !! a = Some (if decide (a = d) then with_kids (t_kids Dd ++ [v]) Dd else E)) as Hold.
  { intros a E HE. unfold t_add. rewrite lookup_insert_ne by congruence. case_decide as Had; [|by rewrite lookup_alter_ne].
    subst a. rewrite lookup_alter_eq, Hd. done. }
  split.
  - intros a. rewrite (t_add_dom _ _ _ _ Dd) by done. rewrite <- Sn. destruct (decide (a = v)) as [->|Hne].
    + rewrite lookup_insert_eq. split; [by left|by eexists].
    + rewrite lookup_insert_ne by done. naive_solver.
  - intros a. rewrite (t_add_dom _ _ _ _ Dd) by done. unfold I'. rewrite attach_dom, <- Si. destruct (decide (a = v)) as [->|Hne].
    + rewrite lookup_insert_eq. split; [by left|by eexists].
    + rewrite lookup_insert_ne by done. naive_solver.
  - intros a E HE. destruct (decide (a = v)) as [->|Hne].
    + unfold t_add in HE. rewrite lookup_insert_eq in HE. injection HE as <-. split; [done|]. split; [|apply attach_new_inode].
      exists n. rewrite lookup_insert_eq. split; [done|]. apply Hn.
    + destruct (proj1 (t_add_dom T d v D Dd a Hd) ltac:(by eexists)) as [->|[F HF]]; [done|].
      destruct (Sr a F HF) as (Ha & (k & Hk & Hkr) & j & Hj & Hjr). rewrite (Hold a F HF) in HE. injection HE as <-.
      split; [done|]. split; [|by eapply attach_old_inode]. exists k. rewrite lookup_insert_ne by done. split; [done|].
      case_decide; [|done]. subst a. assert (F = Dd) as -> by congruence. done.
  - intros a E c HE Hc. destruct (t_add_cases _ _ _ _ _ _ _ Hd HE) as [[-> ->]|[(Hne & -> & ->)|(Hne & Had & HE')]].
    + destruct (nn_links _ _ _ _ _ _ _ Hn) as (_ & _ & Hk). rewrite Hk in Hc. set_solver.
    + cbn in Hc. apply elem_of_app in Hc as [Hc|Hc%list_elem_of_singleton].
      * destruct (Sk _ _ _ Hd Hc) as (F & HF & Hp). destruct (t_add_old T d v D c F Hv HF) as (F' & HF' & Ec).
        exists F'. split; [done|]. injection Ec. congruence.
      * subst c. exists D. unfold t_add. rewrite lookup_insert_eq. split; [done|]. apply Hn.
    + destruct (Sk _ _ _ HE' Hc) as (F & HF & Hp). destruct (t_add_old T d v D c F Hv HF) as (F' & HF' & Ec).
      exists F'. split; [done|]. injection Ec. congruence.
  - intros a E HE. destruct (t_add_cases _ _ _ _ _ _ _ Hd HE) as [[-> ->]|[(Hne & -> & ->)|(Hne & Had & HE')]].
    + destruct (nn_links _ _ _ _ _ _ _ Hn) as (_ & _ & ->). apply NoDup_nil_2.
    + cbn. apply NoDup_app. split; [by eapply Sd|]. split; [|apply NoDup_singleton]. set_solver.
    + by eapply Sd.
  - assert (∀ b E, T !! b = Some E → t_type E = VFS_NODE_DIR → ∃ E', t_add T d v D !! b = Some E' ∧ t_type E' = VFS_NODE_DIR) as Hdir.
    { intros b E HE HEd. destruct (t_add_old T d v D b E Hv HE) as (E' & HE' & Ec). exists E'. split; [done|]. injection Ec. congruence. }
    intros a E HE. destruct (t_add_cases _ _ _ _ _ _ _ Hd HE) as [[-> ->]|[(Hne & -> & ->)|(Hne & Had & HE')]].
    + right. destruct (nn_parent _ _ _ _ _ _ _ Hn) as [_ ->]. by eapply Hdir.
    + cbn. destruct (Sp _ _ Hd) as [|(F & HF & HFd)]; [by left|right]. by eapply Hdir.
    + destruct (Sp _ _ HE') as [|(F & HF & HFd)]; [by left|right]. by eapply Hdir.
  - assert (∀ b E, T !! b = Some E → t_hard E = 0 → ∃ E', t_add T d v D !! b = Some E' ∧ t_hard E' = 0) as Hhard.
    { intros b E HE HEd. destruct (t_add_old T d v D b E Hv HE) as (E' & HE' & Ec). exists E'. split; [done|]. injection Ec. congruence. }
    intros a E HE. destruct (t_add_cases _ _ _ _ _ _ _ Hd HE) as [[-> ->]|[(Hne & -> & ->)|(Hne & Had & HE')]].
    + destruct (nn_hard _ _ _ _ _ _ _ Hn) as [_ [|(F & HF & HFd)]]; [by left|right]. by eapply Hhard.
    + cbn. destruct (Sh _ _ Hd) as [|(F & HF & HFd)]; [by left|right]. by eapply Hhard.
    + destruct (Sh _ _ HE') as [|(F & HF & HFd)]; [by left|right]. by eapply Hhard.
Qed.
End attach_shape.

(** *** Detaching *)

(** [v] was taken out of the children of [d], behind [l] and in front of [nx]. *)
Record unlinked (d v : Z) (l : list Z) (nx : Z) I I' : Prop := {
  un_dom a : is_Some (I' !! a) ↔ is_Some (I !! a);
  un_some a i : I !! a = Some i → ∃ i', I' !! a = Some i' ∧ istay i' = istay i ∧ (a ≠ d → i_len i' = i_len i) ∧
    i_parent i' = (if decide (a = v) then 0 else i_parent i) ∧
    i_first_child i' = (if decide (a = d ∧ l = []) then nx else i_first_child i) ∧
    i_next_sibling i' = (if decide (a = v) then 0 else if decide (last l = Some a) then nx else i_next_sibling i);
}.

Lemma t_detach_cases T d v a E :
  v ≠ d → t_detach T d v !! a = Some E → ∃ F, T !! a = Some F ∧
    E = (if decide (a = v) then with_t_parent 0 F
         else if decide (a = d) then with_kids (filter (λ c, c ≠ v) (t_kids F)) F else F).
Proof.
  intros Hvd. unfold t_detach. destruct (decide (a = v)) as [->|Hav].
  - rewrite lookup_alter_eq, lookup_alter_ne by done. destruct (T !! v) as [F|]; [|done]. intros [= <-]. by exists F.
  - rewrite lookup_alter_ne by done. destruct (decide (a = d)) as [->|Had].
    + rewrite lookup_alter_eq. destruct (T !! d) as [F|]; [|done]. intros [= <-]. by exists F.
    + rewrite lookup_alter_ne by done. intros HE. by exists E.
Qed.
Lemma t_detach_old T d v a F :
  T !! a = Some F → v ≠ d → t_detach T d v !! a = Some (if decide (a = v) then with_t_parent 0 F
    else if decide (a = d) then with_kids (filter (λ c, c ≠ v) (t_kids F)) F else F).
Proof.
  intros HF Hvd. unfold t_detach. destruct (decide (a = v)) as [->|Hav].
  - by rewrite lookup_alter_eq, lookup_alter_ne, HF by done.
  - rewrite lookup_alter_ne by done. destruct (decide (a = d)) as [->|Had].
    + by rewrite lookup_alter_eq, HF.
    + by rewrite lookup_alter_ne.
Qed.
Lemma filter_out (l k : list Z) v : NoDup (l ++ [v] ++ k) → filter (λ c, c ≠ v) (l ++ [v] ++ k) = l ++ k.
Proof.
  intros (Hl & Hlv & Hk)%NoDup_app. cbn [app] in *. apply NoDup_cons in Hk as [Hvk Hk].
  rewrite filter_app, filter_cons_False by (intros H; by apply H). f_equal; apply filter_all; set_solver.
Qed.

Section detach_shape.
Context (ns : gmap Z vfs_node) (I I' : gmap Z initrd_inode) (m : gmap Z Z) (T : dtree) (d v : Z) (Dd : dnode) (l k : list Z) (iv : initrd_inode).
Context (Hs : shape ns I m T) (Hd : T !! d = Some Dd) (Hkids : t_kids Dd = l ++ [v] ++ k) (Hvd : v ≠ d).
Context (Hiv : I !! v = Some iv) (Hun : unlinked d v l (i_next_sibling iv) I I').

Lemma detach_nodup : NoDup (l ++ [v] ++ k).
Proof. rewrite <- Hkids. by eapply sh_nodup. Qed.

(** The siblings that stay. *)
Lemma detach_kids id id' : I !! d = Some id → I' !! d = Some id' → sib_list I (i_first_child id) (t_kids Dd) →
  sib_list I' (i_first_child id') (l ++ k).
Proof.
  intros Hid Hid' Hsib. rewrite Hkids in Hsib. pose proof detach_nodup as Hnd.
  destruct (un_some _ _ _ _ _ _ Hun d id Hid) as (id2 & Hid2 & _ & _ & _ & Ef & _). rewrite Hid' in Hid2. injection Hid2 as <-.
  destruct (exists_last_or_nil l) as [->|(l0 & y & ->)].
  - rewrite decide_True in Ef by done. rewrite Ef. cbn [app] in Hnd, Hsib |- *. cbn [sib_list] in Hsib.
    destruct Hsib as (_ & _ & iv' & Hiv' & Hk). rewrite Hiv in Hiv'. injection Hiv' as <-.
    apply NoDup_cons in Hnd as [Hvk _]. eapply sibs_ext; [exact Hk|]. intros c Hc.
    destruct (sibs_in _ _ _ _ Hk Hc) as [_ [ic Hic]].
    destruct (un_some _ _ _ _ _ _ Hun c ic Hic) as (ic' & -> & _ & _ & _ & _ & En). rewrite Hic. cbn. f_equal.
    rewrite En, decide_False by (intros ->; done). done.
  - rewrite decide_False in Ef by (intros [_ E]; by destruct l0). rewrite Ef.
    rewrite <- !app_assoc in Hsib, Hnd. destruct (sibs_in _ _ _ y Hsib ltac:(set_solver)) as [_ [iy Hiy]].
    pose proof (sibs_cut _ _ _ _ _ _ _ _ Hsib Hnd Hiy Hiv) as Hcut. rewrite <- app_assoc.
    assert (∀ c, c ∈ l0 ++ [y] ++ k → c ≠ v) as Hcv.
    { intros c Hc ->. apply NoDup_app in Hnd as (_ & Hn1 & Hn2). apply NoDup_app in Hn2 as (_ & Hn3 & Hn4).
      apply NoDup_app in Hn4 as (_ & Hn5 & _). set_solver. }
    eapply sibs_ext; [exact Hcut|]. intros c Hc. destruct (sibs_in _ _ _ _ Hcut Hc) as [_ Hsc].
    assert (is_Some (I !! c)) as [ic Hic].
    { destruct (decide (c = y)) as [->|]; [by eexists|by rewrite lookup_insert_ne in Hsc]. }
    destruct (un_some _ _ _ _ _ _ Hun c ic Hic) as (ic' & -> & _ & _ & _ & _ & En).
    rewrite decide_False in En by (by apply Hcv). rewrite last_snoc in En. destruct (decide (c = y)) as [->|Hcy].
    + rewrite lookup_insert_eq. cbn. f_equal. by rewrite decide_True in En.
    + rewrite lookup_insert_ne, Hic by done. cbn. f_equal. by rewrite decide_False in En by congruence.
Qed.

Lemma detach_inode a E j : T !! a = Some E → I !! a = Some j → ino_rep I m j E →
  ∃ j', I' !! a = Some j' ∧
    ino_rep I' m j' (if decide (a = v) then with_t_parent 0 E
                     else if decide (a = d) then with_kids (filter (λ c, c ≠ v) (t_kids E)) E else E).
Proof.
  intros HE Hj [[Hn1 Hn2] Hp Hh Hk Ht]. destruct (un_some _ _ _ _ _ _ Hun a j Hj) as (j' & Hj' & Est & El & Ep & Ef & _).
  exists j'. split; [done|]. injection Est as E1 E2 E3 E4 E5 E6.
  assert (t_type E ≠ VFS_NODE_DIR → a ≠ d) as Hsym.
  { intros Et ->. destruct (sh_kids _ _ _ _ Hs d Dd v Hd) as (F & HF & HFp); [rewrite Hkids; set_solver|].
    destruct (sh_parent _ _ _ _ Hs _ _ HF) as [H0|(G & HG & HGt)]; rewrite HFp in *.
    - by destruct (sh_rep _ _ _ _ Hs _ _ Hd).
    - congruence. }
  assert (a ≠ d → sib_list I' (i_first_child j') (t_kids E)) as Hother.
  { intros Had. rewrite decide_False in Ef by naive_solver. rewrite Ef. eapply sibs_ext; [exact Hk|]. intros c Hc.
    destruct (sibs_in _ _ _ _ Hk Hc) as [_ [ic Hic]].
    destruct (un_some _ _ _ _ _ _ Hun c ic Hic) as (ic' & -> & _ & _ & _ & _ & En). rewrite Hic. cbn. f_equal.
    assert (∀ y, y ∈ l ++ [v] ++ k → c ≠ y) as Hcy.
    { intros y Hy ->. apply Had. rewrite <- Hkids in Hy. by eapply kid_once. }
    rewrite En, !decide_False; [done| |apply Hcy; set_solver].
    intros Hl%last_Some_elem_of. by eapply Hcy; [|reflexivity]; set_solver. }
  destruct (decide (a = v)) as [->|Hav]; [|destruct (decide (a = d)) as [->|Had]].
  - split; cbn; rewrite ?E1, ?E2, ?E4, ?E6; try done; [by apply Hother|]. intros Et. rewrite El by done. by apply Ht.
  - split; cbn; rewrite ?E1, ?E2, ?E4, ?E6; try done; [by rewrite Ep| |intros Et; by destruct (Hsym Et)].
    assert (E = Dd) as -> by congruence. rewrite Hkids, filter_out by apply detach_nodup. by eapply detach_kids.
  - split; rewrite ?E1, ?E2, ?E4, ?E6; try done; [by rewrite Ep|by apply Hother|]. intros Et. rewrite El by done. by apply Ht.
Qed.

Lemma shape_detach : shape ns I' m (t_detach T d v).
Proof.
  pose proof Hs as [Sn Si Sr Sk Sd Sp Sh].
  assert (∀ a, is_Some (t_detach T d v !! a) ↔ is_Some (T !! a)) as Hdom
    by (intros a; unfold t_detach; by rewrite !lookup_alter_is_Some).
  assert (∀ b E, T !! b = Some E → ∃ E', t_detach T d v !! b = Some E' ∧ t_type E' = t_type E ∧ t_hard E' = t_hard E) as Hkeep.
  { intros b E HE. eexists. split; [by apply t_detach_old|]. repeat case_decide; done. }
  split.
  - intros a. by rewrite Hdom.
  - intros a. by rewrite Hdom, (un_dom _ _ _ _ _ _ Hun).
  - intros a E HE. destruct (t_detach_cases _ _ _ _ _ Hvd HE) as (F & HF & ->).
    destruct (Sr a F HF) as (Ha & (n & Hn & Hnr) & j & Hj & Hjr). split; [done|]. split; [|by eapply detach_inode].
    exists n. split; [done|]. repeat case_decide; done.
  - intros a E c HE Hc. destruct (t_detach_cases _ _ _ _ _ Hvd HE) as (F & HF & ->).
    assert (c ∈ t_kids F ∧ (a = d → c ≠ v)) as [HcF Hcv].
    { destruct (decide (a = v)); [split; [done|congruence]|]. destruct (decide (a = d)); [|done].
      cbn in Hc. apply list_elem_of_filter in Hc. naive_solver. }
    destruct (Sk a F c HF HcF) as (G & HG & Hp). assert (c ≠ v) as Hne.
    { intros ->. destruct (Sk d Dd v Hd) as (G' & HG' & Hp'); [rewrite Hkids; set_solver|]. apply Hcv; congruence. }
    eexists. split; [by apply t_detach_old|]. destruct (decide (c = v)); [done|]. by destruct (decide (c = d)).
  - intros a E HE. destruct (t_detach_cases _ _ _ _ _ Hvd HE) as (F & HF & ->). pose proof (Sd a F HF).
    repeat case_decide; cbn; [done|by apply NoDup_filter|done].
  - intros a E HE. destruct (t_detach_cases _ _ _ _ _ Hvd HE) as (F & HF & ->).
    assert (t_parent F = 0 ∨ ∃ E', t_detach T d v !! t_parent F = Some E' ∧ t_type E' = VFS_NODE_DIR) as Hold.
    { destruct (Sp a F HF) as [|(G & HG & HGt)]; [by left|right]. destruct (Hkeep _ _ HG) as (G' & ? & ? & _). exists G'. split; congruence. }
    repeat case_decide; cbn; first [done|by left].
  - intros a E HE. destruct (t_detach_cases _ _ _ _ _ Hvd HE) as (F & HF & ->).
    assert (t_hard F = 0 ∨ ∃ E', t_detach T d v !! t_hard F = Some E' ∧ t_hard E' = 0) as Hold.
    { destruct (Sh a F HF) as [|(G & HG & HGt)]; [by left|right]. destruct (Hkeep _ _ HG) as (G' & ? & _ & ?). exists G'. split; congruence. }
    repeat case_decide; cbn; done.
Qed.
End detach_shape.

(** *** Removing a node nothing refers to *)
Definition unreferenced T (v : Z) : Prop :=
  t_parent <$> T !! v = Some 0 ∧ ∀ a E, T !! a = Some E → t_parent E ≠ v ∧ t_hard E ≠ v.

Lemma shape_remove ns I m m' T v :
  shape ns I m T → unreferenced T v →
  (∀ a E i, a ≠ v → T !! a = Some E → I !! a = Some i → holds m (i_name i) (t_name E) →
     i_name_size i = Z.of_nat (length (t_name E)) → holds m' (i_name i) (t_name E)) →
  (∀ a E i, a ≠ v → T !! a = Some E → I !! a = Some i → t_type E ≠ VFS_NODE_DIR →
     i_len i = Z.of_nat (length (t_data E)) → holds m (i_buf i) (t_data E) → holds m' (i_buf i) (t_data E)) →
  shape (delete v ns) (delete v I) m' (delete v T).
Proof.
  intros [Sn Si Sr Sk Sd Sp Sh] [Hp Hun] Hm1 Hm2. destruct (T !! v) as [D|] eqn:HD; [|done].
  assert (∀ a E, T !! a = Some E → v ∉ t_kids E) as Hnk.
  { intros a E HE Hc. destruct (Sk a E v HE Hc) as (F & HF & HFp). destruct (Sr a E HE). cbn in Hp. congruence. }
  split.
  - intros a. rewrite !lookup_delete_is_Some. by rewrite Sn.
  - intros a. rewrite !lookup_delete_is_Some. by rewrite Si.
  - intros a E [Hne HE]%lookup_delete_Some. destruct (Sr a E HE) as (Ha & (n & Hn & Hnr) & i & Hi & Hr).
    split; [done|]. split; [exists n; by rewrite lookup_delete_ne|]. exists i. rewrite lookup_delete_ne by done. split; [done|].
    destruct Hr as [[Hn1 Hn2] Hpp Hhh Hk Ht]. split; try done.
    + split; [by eapply Hm1|done].
    + eapply sibs_ext; [exact Hk|]. intros c Hc. rewrite lookup_delete_ne; [done|]. intros <-. exact (Hnk a E HE Hc).
    + intros Et. destruct (Ht Et) as [Hb Hl]. split; [by eapply Hm2|done].
  - intros a E c [Hne HE]%lookup_delete_Some Hc. destruct (Sk a E c HE Hc) as (F & HF & HFp). exists F.
    rewrite lookup_delete_ne; [done|]. intros <-. exact (Hnk a E HE Hc).
  - intros a E [Hne HE]%lookup_delete_Some. by eapply Sd.
  - intros a E [Hne HE]%lookup_delete_Some. destruct (Sp a E HE) as [|(F & HF & HFt)]; [by left|right]. exists F.
    rewrite lookup_delete_ne; [done|]. by destruct (Hun a E HE).
  - intros a E [Hne HE]%lookup_delete_Some. destruct (Sh a E HE) as [|(F & HF & HFt)]; [by left|right]. exists F.
    rewrite lookup_delete_ne; [done|]. by destruct (Hun a E HE).
Qed.
End shape.
