(* ===== verification/InitrdDir.v ===== *)
(** * InitrdDir: the operations on directories

    Creating files, directories, hard and symbolic links, removing them, and
    giving a removed node back, against the abstract tree of [InitrdTree]: every
    sequence of calls behaves as the tree does, with the names and link targets
    in their own blocks of the heap and the inodes in those of the slab
    allocator. *)
From S2P Require Import Prelude Alloc Vfs VfsWalk Initrd InitrdFs InitrdMem InitrdTree.

(** ** Blocks and bytes *)
Section memory.
Context {A : Type} {alloc_A : Allocator A} {laws_A : AllocatorLaws (2 ^ 61) A} {arena_A : AllocatorArena A}.
Implicit Types (h : A) (m : gmap Z Z).

(** An address the heap neither uses nor may hand out. *)
Definition out_of h (x : Z) : Prop :=
  ¬ al_arena h x ∧ ∀ q k, al_live h !! q = Some k → x < q ∨ q + k ≤ x.
(** [n] bytes at [p], in a block of their own or outside of the heap. *)
Definition room h (owned : bool) (p n : Z) : Prop :=
  if owned then ∃ k, al_live h !! p = Some k ∧ n ≤ k else ∀ x, p ≤ x < p + n → out_of h x.

(** All memory is in a block or out of the heap's reach. *)
Record mem_ok h m : Prop := {
  mo_ok : al_ok h;
  mo_blocks : blocks_ok (al_live h);
  mo_mapped x : is_Some (m !! x) → out_of h x ∨ ∃ q k, al_live h !! q = Some k ∧ q ≤ x < q + k;
}.

(** Blocks and bytes were added. *)
Record grows h m h' m' : Prop := {
  gr_ok : mem_ok h' m';
  gr_bytes : m ⊆ m';
  gr_live : al_live h ⊆ al_live h';
  gr_out x : out_of h x → out_of h' x;
}.
(** The blocks of [P] were given back. *)
Record shrinks h m (P : list Z) h' m' : Prop := {
  sk_ok : mem_ok h' m';
  sk_live p : p ∉ P → al_live h' !! p = al_live h !! p;
  sk_room b p n : room h b p n → (b = true → p ∉ P) →
    room h' b p n ∧ ∀ x, p ≤ x < p + n → m' !! x = m !! x;
}.

Lemma grows_refl h m : mem_ok h m → grows h m h m.
Proof. by intros; split. Qed.
Lemma grows_trans h1 m1 h2 m2 h3 m3 : grows h1 m1 h2 m2 → grows h2 m2 h3 m3 → grows h1 m1 h3 m3.
Proof. intros [? ? ? ?] [? ? ? ?]. split; [done|by etrans|by etrans|auto]. Qed.
Lemma grows_room h m h' m' b p n : grows h m h' m' → room h b p n → room h' b p n.
Proof.
  intros Hg. destruct b; cbn.
  - intros (k & Hk & Hn). exists k. split; [|done]. eapply lookup_weaken; [done|apply Hg].
  - intros H x Hx. apply (gr_out _ _ _ _ Hg). by apply H.
Qed.
Lemma shrinks_refl h m : mem_ok h m → shrinks h m [] h m.
Proof. by intros; split. Qed.
Lemma shrinks_trans h1 m1 P1 h2 m2 P2 h3 m3 :
  shrinks h1 m1 P1 h2 m2 → shrinks h2 m2 P2 h3 m3 → shrinks h1 m1 (P1 ++ P2) h3 m3.
Proof.
  intros [O1 L1 R1] [O2 L2 R2]. split; [done| |].
  - intros p Hp. rewrite L2, L1 by set_solver. done.
  - intros b p n Hr Hp. destruct (R1 b p n Hr) as [Hr1 E1]; [set_solver|].
    destruct (R2 b p n Hr1) as [Hr2 E2]; [set_solver|]. split; [done|]. intros x Hx. by rewrite E2, E1.
Qed.

(** A request that is refused. *)
Lemma grows_null h m n h' : mem_ok h m → 0 < n → al_alloc n h = Ret (0, h') → al_ok h' → al_live h' = al_live h → grows h m h' m.
Proof.
  intros [Ho Hb Hm] Hn Hr Ho' Hl. destruct (al_arena_alloc _ _ _ _ Ho Hn Hr) as [Hsub _].
  assert (∀ x, out_of h x → out_of h' x) as Hout by (intros x [H1 H2]; split; [naive_solver|by rewrite Hl]).
  split; [|done|by rewrite Hl|done]. split; [done|by rewrite Hl|]. intros x Hx. rewrite Hl. destruct (Hm x Hx); auto.
Qed.
(** A new block, with its first bytes. *)
Lemma grows_block h m n p k h' l :
  mem_ok h m → 0 < n → al_alloc n h = Ret (p, h') → al_ok h' → 0 < p → n ≤ k → p + k ≤ 2 ^ 64 → al_live h !! p = None →
  block_fresh p k (al_live h) → al_live h' = <[p := k]> (al_live h) → Z.of_nat (length l) ≤ n →
  grows h m h' (init_bytes l p m).
Proof.
  intros [Ho Hb Hm] Hn Hr Ho' Hp Hk He Hnone Hf Hl Hlen. destruct (al_arena_alloc _ _ _ _ Ho Hn Hr) as [Hsub Hnew].
  assert (∀ x, p ≤ x < p + k → al_arena h x) as Har.
  { intros x Hx. apply (Hnew ltac:(lia) k x); [by rewrite Hl, lookup_insert_eq|done]. }
  assert (∀ x, is_Some (m !! x) → x < p ∨ p + k ≤ x) as Hfree.
  { intros x Hx. destruct (decide (p ≤ x < p + k)) as [Hin|]; [|lia]. destruct (Hm x Hx) as [[Hna _]|(q & j & Hq & Hqx)].
    - by destruct Hna; apply Har.
    - destruct (Hf _ _ Hq); lia. }
  assert (∀ x, out_of h x → out_of h' x) as Hout.
  { intros x [H1 H2]. split; [naive_solver|]. intros q j. rewrite Hl. intros [[<- <-]|[_ Hq]]%lookup_insert_Some; [|by apply H2].
    destruct (decide (p ≤ x < p + k)); [|lia]. by destruct H1; apply Har. }
  split; [| | |done].
  - split; [done| |].
    + rewrite Hl. apply (took_blocks (al_live h) p k); [done| |lia]. right. exists k. split_and!; done || lia.
    + intros x Hx. destruct (decide (p ≤ x < p + k)) as [Hin|Hno]; [right; exists p, k; by rewrite Hl, lookup_insert_eq|].
      rewrite init_out in Hx by lia. destruct (Hm x Hx) as [|(q & j & Hq & Hqx)]; [by left; apply Hout|right].
      exists q, j. rewrite Hl, lookup_insert_ne by congruence. done.
  - apply map_subseteq_spec. intros x c Hx. rewrite init_out; [done|]. destruct (Hfree x ltac:(by eexists)); lia.
  - rewrite Hl. by apply insert_subseteq.
Qed.

(** A byte of a block is not in another one, nor outside. *)
Lemma room_apart h m b q n p k x :
  mem_ok h m → room h b q n → al_live h !! p = Some k → (b = true → q ≠ p) → q ≤ x < q + n → x < p ∨ p + k ≤ x.
Proof.
  intros [_ Hb _] Hr Hp Hne Hx. destruct b; cbn in Hr.
  - destruct Hr as (j & Hj & Hn). destruct (bo_apart _ Hb _ _ _ _ Hj Hp (Hne eq_refl)); lia.
  - destruct (Hr x Hx) as [_ Ho]. by apply Ho.
Qed.
Lemma shrinks_block h m p k h' :
  mem_ok h m → al_live h !! p = Some k → al_free p h = Ret (tt, h') → al_ok h' → al_live h' = delete p (al_live h) →
  shrinks h m [p] h' (drop_bytes p k m).
Proof.
  intros Hm Hp Hr Ho' Hl. pose proof Hm as [Ho Hb Hmap].
  assert (∀ x, out_of h x → out_of h' x) as Hout.
  { intros x [H1 H2]. split; [intros Hx; apply H1; by eapply al_arena_free|]. intros q j. rewrite Hl.
    intros [_ Hq]%lookup_delete_Some. by apply H2. }
  split.
  - split; [done| |].
    + rewrite Hl. pose proof (undo_blocks p _ Hb) as Hu. unfold undo in Hu. destruct (Z.eqb_spec p 0) as [->|]; [|done].
      destruct (bo_range _ Hb _ _ Hp). lia.
    + intros x Hx. destruct (decide (p ≤ x < p + k)) as [Hin|Hno].
      { destruct Hx as [c Hx]. unfold drop_bytes in Hx. by apply map_lookup_filter_Some in Hx as [_ Hx]. }
      rewrite drop_out in Hx by lia. destruct (Hmap x Hx) as [|(q & j & Hq & Hqx)]; [by left; apply Hout|right].
      exists q, j. rewrite Hl, lookup_delete_ne; [done|]. intros <-. rewrite Hp in Hq. injection Hq as <-. done.
  - intros q Hq. rewrite Hl, lookup_delete_ne by set_solver. done.
  - intros b q n Hr' Hne. split.
    + destruct b; cbn in *; [|intros x Hx; by apply Hout, Hr']. destruct Hr' as (j & Hj & Hn). exists j.
      rewrite Hl, lookup_delete_ne by set_solver. done.
    + intros x Hx. apply drop_out. eapply room_apart; [done..|set_solver|done].
Qed.
(** Giving back what was added. *)
Lemma grows_undo h m h1 m1 p h2 m2 :
  mem_ok h m → grows h m h1 m1 → al_live h !! p = None → shrinks h1 m1 [p] h2 m2 → grows h m h2 m2.
Proof.
  intros [_ _ Hm] [Ho1 Hb1 Hl1 Hout1] Hp [Ho2 Hl2 Hr2].
  split; [done| | |intros x Hx; apply (Hr2 false x 1); [intros y Hy; replace y with x by lia; auto|done|lia]].
  - apply map_subseteq_spec. intros x c Hx. pose proof (lookup_weaken _ _ _ _ Hx Hb1) as Hx1. rewrite <- Hx1.
    destruct (Hm x ltac:(by eexists)) as [Ho|(q & k & Hq & Hqx)].
    + destruct (Hr2 false x 1) as [_ E]; [|done|by apply E; lia]. intros y Hy. replace y with x by lia. by apply Hout1.
    + destruct (Hr2 true q k) as [_ E]; [|set_solver|by apply E; lia]. exists k. split; [|done]. by eapply lookup_weaken.
  - apply map_subseteq_spec. intros q k Hq. rewrite Hl2 by set_solver. by eapply lookup_weaken.
Qed.
End memory.

(** ** The ram disk as a tree *)
Section state.
Context {A : Type} {alloc_A : Allocator A} {laws_A : AllocatorLaws (2 ^ 61) A} {arena_A : AllocatorArena A}.
Implicit Types (N : gmap Z vfs_node) (I : gmap Z initrd_inode) (h s : A) (m : gmap Z Z) (T : dtree) (D : dnode).

(** The blocks an inode owns. *)
Definition owned (i : initrd_inode) : list Z :=
  (if i_name_owned i then [i_name i] else []) ++ (if i_buf_owned i then [i_buf i] else []).

Record slab_has s T : Prop := {
  sl_ok : al_ok s;
  sl_blocks : blocks_ok (al_live s);
  sl_nodes a : is_Some (T !! a) → is_Some (al_live s !! a);
}.
Record places I h T : Prop := {
  pl_name a i : I !! a = Some i → room h (i_name_owned i) (i_name i) (i_name_size i);
  pl_buf a i : I !! a = Some i → i_buf_owned i = true → is_Some (al_live h !! i_buf i);
  pl_target a i D : I !! a = Some i → T !! a = Some D → t_type D ≠ VFS_NODE_DIR → room h (i_buf_owned i) (i_buf i) (i_len i);
  pl_nodup a i : I !! a = Some i → NoDup (owned i);
  pl_apart a b i j p : I !! a = Some i → I !! b = Some j → a ≠ b → p ∈ owned i → p ∉ owned j;
  pl_alias a D : T !! a = Some D → t_hard D ≠ 0 → t_type D = VFS_NODE_FILE;
}.
Record reps N I m h s T : Prop := {
  rp_shape : shape N I m T;
  rp_mem : mem_ok h m;
  rp_slab : slab_has s T;
  rp_places : places I h T;
}.

Lemma owned_live I h T a i p : places I h T → I !! a = Some i → p ∈ owned i → is_Some (al_live h !! p).
Proof.
  intros Hp Hi. unfold owned. rewrite elem_of_app. intros [H|H].
  - pose proof (pl_name _ _ _ Hp a i Hi) as Hn. destruct (i_name_owned i); [|set_solver]. apply list_elem_of_singleton in H as ->.
    destruct Hn as (k & Hk & _). by eexists.
  - pose proof (pl_buf _ _ _ Hp a i Hi) as Hb. destruct (i_buf_owned i); [|set_solver]. apply list_elem_of_singleton in H as ->. by apply Hb.
Qed.

(** More memory, the same tree. *)
Lemma reps_grow N I m h s T m' h' s' : reps N I m h s T → grows h m h' m' → slab_has s' T → reps N I m' h' s' T.
Proof.
  intros [Hs _ _ Hp] Hg Hsl. split; [|apply Hg|done|].
  - eapply shape_ext; [exact Hs|done|done| |apply Hg]. intros a D i i' _ Hi Hi'. by replace i' with i by congruence.
  - pose proof Hp as [P1 P2 P3 P4 P5 P6]. split; try done.
    + intros a i Hi. eapply grows_room; [done|by apply P1 with a].
    + intros a i Hi Ho. destruct (P2 a i Hi Ho) as [k Hk]. exists k. eapply lookup_weaken; [done|apply Hg].
    + intros a i D Hi HD Ht. eapply grows_room; [done|by eapply P3].
Qed.
(** Times and reference counts changed. *)
Definition quiet (i : initrd_inode) : initrd_inode := with_times 0 0 0 i.
Lemma quiet_fields i i' : quiet i' = quiet i →
  (ikey i', i_first_child i', i_next_sibling i', i_len i') = (ikey i, i_first_child i, i_next_sibling i, i_len i).
Proof. destruct i, i'. cbn. unfold quiet, with_times, ikey, istay. cbn. by intros [=]; subst. Qed.
Lemma quiet_some I I' a i' : (∀ b, quiet <$> I' !! b = quiet <$> I !! b) → I' !! a = Some i' → ∃ i, I !! a = Some i ∧ quiet i' = quiet i.
Proof. intros Hq Hi'. specialize (Hq a). rewrite Hi' in Hq. destruct (I !! a) as [i|]; [|done]. exists i. split; [done|]. cbn in Hq. congruence. Qed.
Lemma owned_key i i' : ikey i' = ikey i → owned i' = owned i.
Proof. unfold ikey, istay, owned. intros [= -> _ -> -> -> _ _]. done. Qed.

Lemma places_key I I' h T :
  places I h T → (∀ a i', I' !! a = Some i' → ∃ i, I !! a = Some i ∧ ikey i' = ikey i ∧
    ∀ D, T !! a = Some D → t_type D ≠ VFS_NODE_DIR → i_len i' = i_len i) → places I' h T.
Proof.
  intros [P1 P2 P3 P4 P5 P6] HI. split; try done.
  - intros a i' Hi'. destruct (HI a i' Hi') as (i & Hi & E & _). injection E as -> -> -> _ _ _ _. by eapply P1.
  - intros a i' Hi'. destruct (HI a i' Hi') as (i & Hi & E & _). injection E as _ _ _ -> -> _ _. by eapply P2.
  - intros a i' D Hi' HD Ht. destruct (HI a i' Hi') as (i & Hi & E & El). rewrite (El D HD Ht).
    injection E as _ _ _ -> -> _ _. by eapply P3.
  - intros a i' Hi'. destruct (HI a i' Hi') as (i & Hi & E & _). rewrite (owned_key _ _ E). by eapply P4.
  - intros a b i' j' p Hi' Hj'. destruct (HI a i' Hi') as (i & Hi & E & _). destruct (HI b j' Hj') as (j & Hj & E' & _).
    rewrite (owned_key _ _ E), (owned_key _ _ E'). by eapply P5.
Qed.
Lemma reps_quiet N I m h s T N' I' :
  reps N I m h s T → (∀ a, nkey <$> N' !! a = nkey <$> N !! a) → (∀ a, quiet <$> I' !! a = quiet <$> I !! a) →
  reps N' I' m h s T.
Proof.
  intros [Hs Hm Hsl Hp] Hn Hq. split; try done.
  - eapply shape_ext; [exact Hs|done| | |done].
    + intros a. specialize (Hq a). destruct (I' !! a) as [i'|], (I !! a) as [i|]; try done.
      apply (inj Some), quiet_fields in Hq. cbn. congruence.
    + intros a D i i' _ Hi Hi' _. destruct (quiet_some _ _ _ _ Hq Hi') as (i2 & Hi2 & E). rewrite Hi in Hi2. injection Hi2 as <-.
      apply quiet_fields in E. congruence.
  - eapply places_key; [exact Hp|]. intros a i' Hi'. destruct (quiet_some _ _ _ _ Hq Hi') as (i & Hi & E). exists i.
    apply quiet_fields in E. split; [done|]. split; congruence.
Qed.

(** *** The steps of the tree *)

(** The new inode owns only new blocks of the heap [h] grew into [h']. *)
Record new_places h h' (i : initrd_inode) D : Prop := {
  np_name : room h' (i_name_owned i) (i_name i) (i_name_size i);
  np_fresh p : p ∈ owned i → al_live h !! p = None ∧ is_Some (al_live h' !! p);
  np_nodup : NoDup (owned i);
  np_target : t_type D ≠ VFS_NODE_DIR → room h' (i_buf_owned i) (i_buf i) (i_len i);
  np_alias : t_hard D ≠ 0 → t_type D = VFS_NODE_FILE;
}.

Lemma places_attach I m h h' m' T d Dd v i D :
  places I h T → grows h m h' m' → new_places h h' i D → T !! d = Some Dd → t_type Dd = VFS_NODE_DIR → T !! v = None →
  I !! v = None → places (attach d v (t_kids Dd) (<[v := i]> I)) h' (t_add T d v D).
Proof.
  intros Hp Hg Hn Hd Hty Hv HvI. pose proof Hp as [P1 P2 P3 P4 P5 P6]. pose proof Hn as [N1 N2 N3 N4 N5].
  assert (places (<[v := i]> I) h' (t_add T d v D)) as Hp'.
  { assert (∀ a j p, I !! a = Some j → p ∈ owned j → p ∉ owned i) as Hnew.
    { intros a j p Hj Ho Hi. destruct (owned_live I h T a j p Hp Hj Ho). destruct (N2 p Hi). congruence. }
    split.
    - intros a j [[<- <-]|[_ Hj]]%lookup_insert_Some; [done|]. by eapply grows_room, P1.
    - intros a j [[<- <-]|[_ Hj]]%lookup_insert_Some Ho.
      + apply N2. unfold owned. rewrite Ho. set_solver.
      + destruct (P2 a j Hj Ho) as [k Hk]. exists k. eapply lookup_weaken; [done|apply Hg].
    - intros a j E Hj HE Ht. destruct (t_add_cases _ _ _ _ _ _ _ Hd HE) as [[-> ->]|[(Hne & -> & ->)|(Hne & Had & HE')]].
      + rewrite lookup_insert_eq in Hj. injection Hj as <-. by apply N4.
      + cbn in Ht. congruence.
      + rewrite lookup_insert_ne in Hj by done. by eapply grows_room, P3.
    - intros a j [[<- <-]|[_ Hj]]%lookup_insert_Some; [done|by eapply P4].
    - intros a b j k p [[<- <-]|[_ Hj]]%lookup_insert_Some [[<- <-]|[_ Hk]]%lookup_insert_Some Hab Ho; [done| | |by eapply (P5 a b)].
      + intros Ho'. exact (Hnew b k p Hk Ho' Ho).
      + exact (Hnew a j p Hj Ho).
    - intros a E HE Hh. destruct (t_add_cases _ _ _ _ _ _ _ Hd HE) as [[-> ->]|[(Hne & -> & ->)|(Hne & Had & HE')]];
        [by apply N5|exact (P6 _ _ Hd Hh)|exact (P6 _ _ HE' Hh)]. }
  eapply places_key; [exact Hp'|]. intros a j' Hj'.
  assert (is_Some (<[v := i]> I !! a)) as [j Hj] by (apply (attach_dom d v (t_kids Dd)); by eexists).
  destruct (attach_some d v (t_kids Dd) _ _ _ Hj) as (j2 & Hj2 & Ek & El & _). assert (j' = j2) as -> by congruence.
  exists j. split; [done|]. split; [done|]. intros E HE Ht. apply El. intros ->.
  destruct (t_add_cases _ _ _ _ _ _ _ Hd HE) as [[-> ->]|[(Hne & _ & ->)|(Hne & Had & HE')]]; [congruence|cbn in Ht; congruence|done].
Qed.

Lemma reps_attach N I m h s T d Dd v n i D m' h' s' :
  reps N I m h s T → grows h m h' m' → new_places h h' i D → T !! d = Some Dd → t_type Dd = VFS_NODE_DIR →
  new_node m' T d v n i D → slab_has s' T → is_Some (al_live s' !! v) →
  reps (<[v := n]> N) (attach d v (t_kids Dd) (<[v := i]> I)) m' h' s' (t_add T d v D).
Proof.
  intros Hr Hg Hnp Hd Hty Hn Hsl Hv. pose proof (reps_grow _ _ _ _ _ _ _ _ _ Hr Hg Hsl) as [Hs' Hm' _ _].
  split; [by apply shape_attach|done| |].
  - destruct Hsl as [S1 S2 S3]. split; [done|done|]. intros a [->|Ha]%(t_add_dom _ _ _ _ Dd); [done|by apply S3|done].
  - eapply places_attach; [apply Hr|done|done|done|done|apply Hn|]. by eapply attach_fresh.
Qed.

Lemma reps_detach N I m h s T d v Dd l k iv I' :
  reps N I m h s T → T !! d = Some Dd → t_kids Dd = l ++ [v] ++ k → v ≠ d → I !! v = Some iv →
  unlinked d v l (i_next_sibling iv) I I' → reps N I' m h s (t_detach T d v).
Proof.
  intros [Hs Hm Hsl Hp] Hd Hk Hvd Hiv Hun. split; [by eapply shape_detach|done| |].
  - destruct Hsl as [S1 S2 S3]. split; [done|done|]. intros a. unfold t_detach. rewrite !lookup_alter_is_Some. apply S3.
  - assert (t_type Dd = VFS_NODE_DIR) as Hty.
    { destruct (sh_kids _ _ _ _ Hs d Dd v Hd) as (F & HF & HFp); [rewrite Hk; set_solver|].
      destruct (sh_parent _ _ _ _ Hs _ _ HF) as [H0|(G & HG & HGt)]; [|congruence].
      destruct (sh_rep _ _ _ _ Hs _ _ Hd). congruence. }
    assert (∀ a i', I' !! a = Some i' → ∃ i, I !! a = Some i ∧ istay i' = istay i ∧ (a ≠ d → i_len i' = i_len i)) as HI.
    { intros a i' Hi'. assert (is_Some (I !! a)) as [i Hi] by (apply (un_dom _ _ _ _ _ _ Hun); by eexists).
      destruct (un_some _ _ _ _ _ _ Hun a i Hi) as (i2 & Hi2 & E & El & _). exists i. split; [done|].
      assert (i2 = i') as -> by congruence. done. }
    assert (∀ i i', istay i' = istay i → owned i' = owned i) as Hown
      by (unfold istay, owned; intros i i' [= -> _ -> -> -> _]; done).
    assert (∀ a E, t_detach T d v !! a = Some E → ∃ F, T !! a = Some F ∧ t_type E = t_type F ∧ t_hard E = t_hard F) as HT.
    { intros a E HE. destruct (t_detach_cases _ _ _ _ _ Hvd HE) as (F & HF & ->). exists F. split; [done|]. repeat case_decide; done. }
    destruct Hp as [P1 P2 P3 P4 P5 P6]. split.
    + intros a i' Hi'. destruct (HI a i' Hi') as (i & Hi & E & _). injection E as -> -> -> _ _ _. by eapply P1.
    + intros a i' Hi'. destruct (HI a i' Hi') as (i & Hi & E & _). injection E as _ _ _ -> -> _. by eapply P2.
    + intros a i' E Hi' HE Ht. destruct (HI a i' Hi') as (i & Hi & Es & El). destruct (HT a E HE) as (F & HF & E1 & _).
      rewrite El by (intros ->; congruence). injection Es as _ _ _ -> -> _. eapply P3; [done|done|congruence].
    + intros a i' Hi'. destruct (HI a i' Hi') as (i & Hi & E & _). rewrite (Hown _ _ E). by eapply P4.
    + intros a b i' j' p Hi' Hj'. destruct (HI a i' Hi') as (i & Hi & E & _), (HI b j' Hj') as (j & Hj & E' & _).
      rewrite (Hown _ _ E), (Hown _ _ E'). by eapply P5.
    + intros a E HE Hh. destruct (HT a E HE) as (F & HF & E1 & E2). rewrite E1. eapply P6; [done|congruence].
Qed.

Lemma reps_remove N I m h s T v iv m' h' s' :
  reps N I m h s T → unreferenced T v → I !! v = Some iv → shrinks h m (owned iv) h' m' → al_ok s' →
  al_live s' = delete v (al_live s) → reps (delete v N) (delete v I) m' h' s' (delete v T).
Proof.
  intros [Hs Hm Hsl Hp] Hu Hiv Hsk Hs' Hl. pose proof Hp as [P1 P2 P3 P4 P5 P6]. pose proof Hsk as [K1 K2 K3].
  assert (∀ a i, a ≠ v → I !! a = Some i → (i_name_owned i = true → i_name i ∉ owned iv) ∧ (i_buf_owned i = true → i_buf i ∉ owned iv)) as Hne.
  { intros a i Ha Hi. split; intros Ho; apply (P5 a v i iv); try done; unfold owned; rewrite Ho; set_solver. }
  split; [|done| |].
  - eapply shape_remove; [done|done| |].
    + intros a E i Ha HE Hi Hh Hsz. eapply holds_ext; [done|]. rewrite <- Hsz.
      apply (K3 (i_name_owned i)); [by eapply P1|by apply (Hne a i)].
    + intros a E i Ha HE Hi Ht Hl' Hh. eapply holds_ext; [done|]. rewrite <- Hl'.
      apply (K3 (i_buf_owned i)); [by eapply P3|by apply (Hne a i)].
  - destruct Hsl as [S1 S2 S3]. split; [done| |].
    + rewrite Hl. pose proof (undo_blocks v _ S2) as Hb. unfold undo in Hb. destruct (Z.eqb_spec v 0) as [->|]; [|done].
      destruct Hu as [Hv0 _]. destruct (shape_zero _ _ _ _ Hs) as [_ E]. by rewrite E in Hv0.
    + intros a [Ha HT]%lookup_delete_is_Some. rewrite Hl, lookup_delete_ne by done. by apply S3.
  - split.
    + intros a i [Ha Hi]%lookup_delete_Some. apply (K3 (i_name_owned i)); [by eapply P1|by apply (Hne a i)].
    + intros a i [Ha Hi]%lookup_delete_Some Ho. rewrite K2 by (by apply (Hne a i)). by eapply P2.
    + intros a i D [Ha Hi]%lookup_delete_Some [_ HD]%lookup_delete_Some Ht.
      apply (K3 (i_buf_owned i)); [by eapply P3|by apply (Hne a i)].
    + intros a i [_ Hi]%lookup_delete_Some. by eapply P4.
    + intros a b i j p [_ Hi]%lookup_delete_Some [_ Hj]%lookup_delete_Some. by eapply P5.
    + intros a D [_ HD]%lookup_delete_Some. by eapply P6.
Qed.
End state.
