(* ===== verification/InitrdDirThm.v ===== *)
(** * InitrdDirThm: directory operations refine the tree *)
From S2P Require Import Prelude Alloc Vfs VfsWalk Initrd InitrdFs InitrdMem InitrdTree InitrdDir.

Section steps.
Context {A : Type} {alloc_A : Allocator A} {laws_A : AllocatorLaws (2 ^ 61) A} {arena_A : AllocatorArena A}.
Abbreviation W := (vworld (iext A)).
Implicit Types (w : W) (N : gmap Z vfs_node) (I : gmap Z initrd_inode) (h s : A) (m : gmap Z Z) (T : dtree) (D : dnode).

(** The parts of a world the tree lives in. *)
Record view w N I m h s : Prop := {
  vw_nodes : nodes w = N;
  vw_inodes : inodes (ext w) = I;
  vw_bytes : bytes (ext w) = m;
  vw_heap : heap (ext w) = h;
  vw_slab : slab_heap (ext w) = s;
}.
Ltac same_view H := destruct H as [<- <- <- <- <-]; by split.

Lemma view_self w : view w (nodes w) (inodes (ext w)) (bytes (ext w)) (heap (ext w)) (slab_heap (ext w)).
Proof. by split. Qed.

(** ** Single steps *)
Lemma wpv_inode w N I m h s a i (Q : initrd_inode → W → Prop) :
  view w N I m h s → I !! a = Some i → Q i w → wp (inode a) Q w.
Proof. intros Hv Hi. apply wp_inode. by destruct Hv as [_ -> _ _ _]. Qed.
Lemma wpv_node w N I m h s a n (Q : vfs_node → W → Prop) :
  view w N I m h s → N !! a = Some n → Q n w → wp (node a) Q w.
Proof. intros Hv Hi. apply wp_vnode. by destruct Hv as [-> _ _ _ _]. Qed.
Lemma wpv_update w N I m h s a i f (Q : unit → W → Prop) :
  view w N I m h s → I !! a = Some i → (∀ w', view w' N (<[a := f i]> I) m h s → Q tt w') → wp (update_inode a f) Q w.
Proof.
  intros Hv Hi HQ. eapply wp_update_inode; [by destruct Hv as [_ -> _ _ _]|]. apply HQ. same_view Hv.
Qed.
Lemma wpv_update_node w N I m h s a n f (Q : unit → W → Prop) :
  view w N I m h s → N !! a = Some n → (∀ w', view w' (<[a := f n]> N) I m h s → Q tt w') → wp (update_node a f) Q w.
Proof.
  intros Hv Hi HQ. eapply wp_update_node; [by destruct Hv as [-> _ _ _ _]|]. apply HQ. same_view Hv.
Qed.
(** The inode that is being made. *)
Lemma wpv_make w N I m h s v i f (Q : unit → W → Prop) :
  view w N (<[v := i]> I) m h s → (∀ w', view w' N (<[v := f i]> I) m h s → Q tt w') → wp (update_inode v f) Q w.
Proof.
  intros Hv HQ. eapply wpv_update; [done|apply lookup_insert_eq|]. intros w'. rewrite insert_insert_eq. apply HQ.
Qed.
Lemma wpv_number w N I m h s (Q : Z → W → Prop) :
  view w N I m h s → (∀ n w', view w' N I m h s → Q n w') → wp next_number Q w.
Proof. intros Hv HQ. unfold next_number. apply wp_bind, wp_gets, wp_bind, wp_modify, wp_ret, HQ. same_view Hv. Qed.
Lemma wpv_times w N I m h s v i a b c (Q : unit → W → Prop) :
  v ≠ 0 → view w N (<[v := i]> I) m h s → (∀ w', view w' N (<[v := with_times a b c i]> I) m h s → Q tt w') →
  wp (set_inode_timestamps v a b c) Q w.
Proof.
  intros Hv0 Hv HQ. unfold set_inode_timestamps. rewrite (proj2 (Z.eqb_neq v 0)) by done. by eapply wpv_make.
Qed.
Lemma wpv_sync w N I m h s v i n (Q : unit → W → Prop) :
  v ≠ 0 → view w N I m h s → I !! v = Some i → N !! v = Some n →
  (∀ w' n', nkey n' = nkey n → view w' (<[v := n']> N) I m h s → Q tt w') → wp (sync_vnode_timestamps v) Q w.
Proof.
  intros Hv0 Hv Hi Hn HQ. unfold sync_vnode_timestamps. rewrite (proj2 (Z.eqb_neq v 0)) by done.
  apply wp_bind. eapply wpv_inode; [done|done|]. eapply wpv_update_node; [done|done|]. intros w'. by apply HQ.
Qed.
Lemma wpv_init w N I m h s v i n ty (Q : unit → W → Prop) :
  v ≠ 0 → view w (<[v := n]> N) (<[v := i]> I) m h s →
  (∀ w' n', nkey n' = (v, INITRD_VNODE_OPS, ty, 1) → view w' (<[v := n']> N) (<[v := i]> I) m h s → Q tt w') →
  wp (init_vnode v ty) Q w.
Proof.
  intros Hv0 Hv HQ. unfold init_vnode. apply wp_bind. eapply wpv_update_node; [done|apply lookup_insert_eq|].
  intros w1 Hw1. rewrite insert_insert_eq in Hw1. eapply wpv_sync; [done|done|apply lookup_insert_eq|apply lookup_insert_eq|].
  intros w2 n' Hn'. rewrite insert_insert_eq. by apply HQ.
Qed.
Lemma wpv_borrow w N I m h s v n (Q : unit → W → Prop) :
  view w N I m h s → v ≠ 0 → N !! v = Some n →
  (∀ w' n', nkey n' = nkey n → view w' (<[v := n']> N) I m h s → Q tt w') → wp (vfs_vnode_borrow v) Q w.
Proof.
  intros Hv Hv0 Hn HQ. unfold vfs_vnode_borrow. rewrite (proj2 (Z.eqb_neq v 0)) by done. cbn [negb].
  eapply wpv_update_node; [done|done|]. intros w'. by apply HQ.
Qed.

(** ** The allocators *)
Lemma slab_has_alloc s T n p s' : slab_has s T → 0 < n → al_ok s' → took (al_live s) p n (al_live s') → slab_has s' T.
Proof.
  intros [S1 S2 S3] Hn Hok Ht. split; [done|by eapply took_blocks|]. intros a Ha. destruct (S3 a Ha) as [k Hk].
  exists k. by eapply took_mono.
Qed.
(** A new inode, or none. *)
Lemma wpv_calloc_inode w N I m h s T (Q : Z → W → Prop) :
  view w N I m h s → slab_has s T →
  (∀ w' s', slab_has s' T → view w' N I m h s' → Q 0 w') →
  (∀ p w' s', p ≠ 0 → T !! p = None → slab_has s' T → is_Some (al_live s' !! p) →
     view w' (<[p := zero_node]> N) (<[p := zero_inode]> I) m h s' → Q p w') →
  wp calloc_inode Q w.
Proof.
  intros Hv Hs HQ0 HQ. pose proof Hs as [S1 S2 S3].
  destruct (al_alloc_law s SIZEOF_INODE S1) as (p & s' & Hr & Hok & Hc); [unfold SIZEOF_INODE; lia|].
  pose proof (slab_has_alloc s T SIZEOF_INODE p s' Hs eq_refl Hok Hc) as Hs'.
  unfold calloc_inode. apply wp_bind. unfold wp at 1, slab_calloc.
  destruct Hc as [[-> Hl]|(k & Hp & _ & _ & Hnone & _ & Hl)]; rewrite (vw_slab _ _ _ _ _ _ Hv), Hr; cbn [mbind outcome_bind].
  - apply wp_ret. eapply HQ0; [done|]. same_view Hv.
  - rewrite (proj2 (Z.eqb_neq p 0)) by lia. apply wp_bind, wp_modify, wp_bind, wp_modify, wp_ret.
    apply (HQ p _ s'); [lia| |done|by rewrite Hl, lookup_insert_eq|destruct Hv as [<- <- <- <- <-]; by split].
    apply eq_None_not_Some. intros [k' Hk']%S3. congruence.
Qed.
Lemma wpv_slab_free w N I m h s p s' (Q : unit → W → Prop) :
  view w N I m h s → al_free p s = Ret (tt, s') → (∀ w', view w' (delete p N) (delete p I) m h s' → Q tt w') →
  wp (slab_free p) Q w.
Proof.
  intros Hv Hr HQ. unfold wp, slab_free. rewrite (vw_slab _ _ _ _ _ _ Hv), Hr. cbn [mbind outcome_bind]. apply HQ. same_view Hv.
Qed.
(** Giving back the inode that was just made, if one was. *)
Lemma wpv_drop_inode w N I m h s T p (Q : unit → W → Prop) :
  shape N I m T → (p = 0 ∧ view w N I m h s ∨
    ∃ n i, p ≠ 0 ∧ T !! p = None ∧ is_Some (al_live s !! p) ∧ view w (<[p := n]> N) (<[p := i]> I) m h s) → slab_has s T →
  (∀ w' s', slab_has s' T → view w' N I m h s' → Q tt w') → wp (slab_free p) Q w.
Proof.
  intros Hsh Hcase Hs HQ. destruct Hcase as [[-> Hv]|(n & i & Hp & HT & [k Hk] & Hv)].
  - eapply wpv_slab_free; [done|apply al_free_null|]. intros w' Hv'. eapply HQ; [done|].
    destruct (shape_zero _ _ _ _ Hsh) as [HI HT0]. rewrite !delete_id in Hv'; [done|done|].
    apply eq_None_not_Some. intros H%(sh_nodes _ _ _ _ Hsh). rewrite HT0 in H. by destruct H.
  - pose proof Hs as [S1 S2 S3]. destruct (al_free_law s p k S1 Hk) as (s' & Hr & Hok & Hl).
    assert (N !! p = None ∧ I !! p = None) as [HN HI].
    { split; apply eq_None_not_Some; [intros H%(sh_nodes _ _ _ _ Hsh)|intros H%(sh_inodes _ _ _ _ Hsh)]; rewrite HT in H; by destruct H. }
    eapply wpv_slab_free; [done|done|]. intros w'. rewrite !delete_insert_id by done. apply HQ. split; [done| |].
    + rewrite Hl. pose proof (undo_blocks p _ S2) as Hb. unfold undo in Hb. by rewrite (proj2 (Z.eqb_neq p 0)) in Hb by done.
    + intros a Ha. rewrite Hl, lookup_delete_ne by (intros ->; rewrite HT in Ha; by destruct Ha). by apply S3.
Qed.

(** [p] is a block of at least [n] bytes that [h'] has and [h] has not. *)
Definition new_block h h' (p n : Z) : Prop :=
  p ≠ 0 ∧ al_live h !! p = None ∧ ∃ k, al_live h' !! p = Some k ∧ n ≤ k.

Lemma wpv_clone w N I m h s name (Q : Z → W → Prop) :
  view w N I m h s → mem_ok h m → Z.of_nat (length name) < 2 ^ 60 →
  (∀ w' h', grows h m h' m → view w' N I m h' s → Q 0 w') →
  (∀ p w' h' m', new_block h h' p (Z.of_nat (length name)) → holds m' p name → grows h m h' m' →
     view w' N I m' h' s → Q p w') →
  wp (clone_name name false) Q w.
Proof.
  intros Hv Hm Hlen HQ0 HQ. unfold clone_name, vfs_clone_name. rewrite app_nil_r. apply wp_bind, wp_bind.
  eapply wp_calloc_heap; [rewrite (vw_heap _ _ _ _ _ _ Hv); apply Hm|lia|].
  rewrite (vw_heap _ _ _ _ _ _ Hv). intros p a Ha Hr [[-> Hl]|(k & Hp & Hk & He & Hnone & Hf & Hl)].
  - cbn. apply wp_ret, wp_ret. eapply HQ0; [eapply (grows_null h m); [done| |exact Hr|done|done]; lia|]. same_view Hv.
  - rewrite (proj2 (Z.eqb_neq p 0)) by lia. apply wp_ret. rewrite (proj2 (Z.eqb_neq p 0)) by lia.
    apply wp_bind, wp_modify, wp_ret. apply (HQ p _ a (init_bytes (name ++ [0]) p m)).
    + split; [lia|]. split; [done|]. exists k. rewrite Hl, lookup_insert_eq. split; [done|lia].
    + pose proof (init_holds (name ++ [0]) p m) as Hh. by apply holds_app in Hh as [Hh _].
    + eapply (grows_block h m); [done| |exact Hr|done|done|exact Hk|done|done|done|done|]; rewrite ?length_app; cbn [length]; lia.
    + destruct Hv as [<- <- <- <- <-]. by split.
Qed.
Lemma wpv_free_block w N I m h s p (Q : unit → W → Prop) :
  view w N I m h s → mem_ok h m → is_Some (al_live h !! p) →
  (∀ w' h' m', shrinks h m [p] h' m' → view w' N I m' h' s → Q tt w') → wp (free_bytes p) Q w.
Proof.
  intros Hv Hm [k Hk] HQ. unfold free_bytes. apply wp_bind, wp_gets, wp_bind. pose proof (vw_heap _ _ _ _ _ _ Hv) as Eh.
  eapply wp_free_heap; [rewrite Eh; apply Hm|by rewrite Eh|]. rewrite Eh. intros a Ha Hr Hl. rewrite Hk.
  apply wp_modify. eapply HQ; [by eapply (shrinks_block h m p k)|]. destruct Hv as [<- <- <- <- <-]. by split.
Qed.
Lemma wpv_free_null w N I m h s (Q : unit → W → Prop) :
  view w N I m h s → mem_ok h m → (∀ w', view w' N I m h s → Q tt w') → wp (free_bytes 0) Q w.
Proof.
  intros Hv [_ Hb _] HQ. unfold free_bytes. apply wp_bind, wp_gets, wp_bind. unfold wp at 1, free. cbn [al_free iext_allocator].
  rewrite (vw_heap _ _ _ _ _ _ Hv), al_free_null. cbn [mbind outcome_bind].
  destruct (al_live h !! 0) as [k|] eqn:E; [destruct (bo_range _ Hb _ _ E); lia|].
  apply wp_ret, HQ. destruct Hv as [<- <- <- <- <-]. by split.
Qed.
(** Giving back a block that was just taken, if it was. *)
Lemma wpv_drop_block w N I m0 h0 m h s p n (Q : unit → W → Prop) :
  view w N I m h s → mem_ok h0 m0 → grows h0 m0 h m → p = 0 ∨ new_block h0 h p n →
  (∀ w' h' m', grows h0 m0 h' m' → (∀ q, q ≠ p → al_live h' !! q = al_live h !! q) → view w' N I m' h' s → Q tt w') →
  wp (free_bytes p) Q w.
Proof.
  intros Hv Hm0 Hg Hp HQ. destruct Hp as [->|(Hp & Hnone & k & Hk & _)].
  - eapply wpv_free_null; [done|apply Hg|]. intros w' Hv'. by eapply HQ.
  - eapply wpv_free_block; [done|apply Hg|by eexists|]. intros w' h' m' Hsk Hv'. eapply HQ; [by eapply grows_undo| |done].
    intros q Hq. apply (sk_live _ _ _ _ _ Hsk). set_solver.
Qed.

(** ** Walking and changing the lists of children *)
Lemma filter_ext_in (P P' : Z → Prop) `{∀ x, Decision (P x)} `{∀ x, Decision (P' x)} (l : list Z) :
  (∀ x, x ∈ l → P x ↔ P' x) → filter P l = filter P' l.
Proof.
  induction l as [|x l IH]; intros Hx; [done|]. rewrite !filter_cons, IH by set_solver.
  specialize (Hx x ltac:(set_solver)). repeat case_decide; naive_solver.
Qed.
(** Nodes that are not linked in yet do not matter. *)
Lemma wpv_find_child w N N' I I' m m' h s T d D id name (Q : Z → W → Prop) :
  view w N' I' m' h s → shape N I m T → I ⊆ I' → m ⊆ m' → T !! d = Some D → I !! d = Some id →
  Q (default 0 (t_find T d name)) w → wp (find_child (i_first_child id) name) Q w.
Proof.
  intros Hv Hs HII Hmm HD Hid HQ. destruct (sh_rep _ _ _ _ Hs d D HD) as (_ & _ & id' & Hid' & Hr). rewrite Hid in Hid'. injection Hid' as <-.
  assert (∀ c, c ∈ t_kids D → readable (I', m') c ∧ (Is_true (named (I', m') name c) ↔ t_name <$> T !! c = Some name)) as Hkid.
  { intros c Hc. destruct (sh_kids _ _ _ _ Hs d D c HD Hc) as (E & HE & _).
    destruct (sh_rep _ _ _ _ Hs c E HE) as (_ & _ & i & Hi & Hri). destruct (ir_name _ _ _ _ Hri) as [Hn Hsz].
    pose proof (lookup_weaken _ _ _ _ Hi HII) as Hi'.
    assert (read_bytes m' (i_name i) (Z.to_nat (i_name_size i)) = Ret (t_name E)) as Hrd.
    { apply read_holds. split; [lia|]. intros j b Hj. eapply lookup_weaken; [by apply Hn|done]. }
    split; [exists i; split; [done|]; split; [lia|by eexists]|].
    unfold named, name_of. cbn [fst snd]. rewrite Hi', Hrd, HE. cbn. rewrite bool_decide_spec. naive_solver. }
  unfold find_child. apply wp_bind, wp_gets. unfold wp.
  rewrite (find_loop_run w (I', m') name _ _ (t_kids D)).
  - unfold t_find in HQ. rewrite HD in HQ. cbn [mbind option_bind] in HQ. erewrite filter_ext_in; [exact HQ|]. intros c Hc. by apply Hkid.
  - by destruct Hv as [_ -> -> _ _].
  - eapply sibs_ext; [apply Hr|]. intros c Hc. destruct (sibs_in _ _ _ _ (ir_kids _ _ _ _ Hr) Hc) as [_ [ic Hic]].
    cbn [fst]. by rewrite Hic, (lookup_weaken _ _ _ _ Hic HII).
  - rewrite (vw_inodes _ _ _ _ _ _ Hv). pose proof (kids_size _ _ _ _ _ _ Hs HD). pose proof (map_subseteq_size _ _ HII). lia.
  - apply Forall_forall. intros c Hc. by apply Hkid.
Qed.

Lemma wpv_alter w N I m h s a f (Q : unit → W → Prop) :
  view w N I m h s → is_Some (I !! a) → (∀ w', view w' N (alter f a I) m h s → Q tt w') → wp (update_inode a f) Q w.
Proof.
  intros Hv [i Hi] HQ. eapply wpv_update; [done|done|]. intros w' Hv'. apply HQ.
  replace (alter f a I) with (<[a := f i]> I); [done|]. apply map_eq. intros b. destruct (decide (a = b)) as [<-|Hne].
  - by rewrite lookup_insert_eq, lookup_alter_eq, Hi.
  - by rewrite lookup_insert_ne, lookup_alter_ne.
Qed.

Lemma last_sibling_run w I fuel p l x :
  inodes (ext w) = I → sib_list I p (l ++ [x]) → (length (l ++ [x]) ≤ fuel)%nat → last_sibling fuel p w = Ret (x, w).
Proof.
  intros E. revert p l. induction fuel as [|fuel IH]; intros p l Hs Hl; [rewrite length_app in Hl; cbn in Hl; lia|].
  cbn [last_sibling]. destruct l as [|y l]; cbn [app sib_list] in Hs.
  - destruct Hs as (-> & Hx & i & Hi & Hn). rewrite (bind_run _ _ _ i w) by (apply inode_run; by rewrite E). by rewrite Hn.
  - destruct Hs as (-> & Hy & i & Hi & Hs). rewrite (bind_run _ _ _ i w) by (apply inode_run; by rewrite E).
    destruct (sibs_in _ _ _ x Hs ltac:(set_solver)) as [Hx _].
    assert (i_next_sibling i ≠ 0) as Hne by (destruct l; cbn [app sib_list] in Hs; destruct Hs as (-> & ? & _); done).
    rewrite (proj2 (Z.eqb_neq _ 0)) by done. apply (IH _ l); [done|cbn [app length] in Hl; lia].
Qed.
Lemma wpv_add_child w N N' I m m' h s T d D v i (Q : unit → W → Prop) :
  view w N' (<[v := i]> I) m' h s → shape N I m T → T !! d = Some D → T !! v = None →
  (∀ w', view w' N' (attach d v (t_kids D) (<[v := with_next 0 i]> I)) m' h s → Q tt w') →
  wp (add_child d v) Q w.
Proof.
  intros Hv Hs HD HT HQ. destruct (sh_rep _ _ _ _ Hs d D HD) as (_ & _ & id & Hid & Hr).
  pose proof (ir_kids _ _ _ _ Hr) as Hk. pose proof (kids_size _ _ _ _ _ _ Hs HD) as Hsz.
  assert (v ≠ d ∧ v ∉ t_kids D) as [Hvd Hvk].
  { split; [congruence|]. intros Hc. destruct (sh_kids _ _ _ _ Hs _ _ _ HD Hc) as (E & HE & _). congruence. }
  unfold add_child. apply wp_bind. eapply wpv_make; [done|]. intros w1 H1. set (I1 := <[v := with_next 0 i]> I) in *.
  assert (I1 !! d = Some id) as Hid1 by (unfold I1; by rewrite lookup_insert_ne).
  assert (∀ a, is_Some (I !! a) → is_Some (I1 !! a)) as Hdom.
  { intros a Ha. unfold I1. destruct (decide (a = v)) as [->|]; [rewrite lookup_insert_eq; by eexists|by rewrite lookup_insert_ne]. }
  apply wp_bind. eapply wpv_inode; [done|done|]. unfold attach in HQ.
  destruct (exists_last_or_nil (t_kids D)) as [Ek|(l & x & Ek)].
  - rewrite Ek in Hk, HQ. cbn [sib_list] in Hk. rewrite Hk. cbn [Z.eqb last] in *. apply wp_bind.
    eapply wpv_alter; [done|by eexists|]. intros w2 H2. eapply wpv_alter; [done|by rewrite lookup_alter_is_Some|]. apply HQ.
  - rewrite Ek in Hk, HQ, Hvk, Hsz. rewrite last_snoc in HQ. destruct (sibs_in _ _ _ x Hk ltac:(set_solver)) as [_ Hx].
    assert (i_first_child id ≠ 0) as Hne by (destruct l; cbn [app sib_list] in Hk; destruct Hk as (-> & ? & _); done).
    rewrite (proj2 (Z.eqb_neq _ 0)) by done. apply wp_bind, wp_gets, wp_bind. unfold wp at 1.
    rewrite (last_sibling_run w1 I1 _ _ l x); [|apply H1| |].
    + apply wp_bind. eapply wpv_alter; [done|by apply Hdom|]. intros w2 H2.
      eapply wpv_alter; [done|by rewrite lookup_alter_is_Some|]. apply HQ.
    + eapply sibs_ext; [done|]. intros c Hc. unfold I1. rewrite lookup_insert_ne; [done|]. intros <-. done.
    + rewrite (vw_inodes _ _ _ _ _ _ H1). unfold I1. rewrite map_size_insert.
      destruct (I !! v); cbn; lia.
Qed.

(** The inodes after the link to [v] was redirected to [nx]. *)
Definition skip_node (d : Z) (l : list Z) (nx : Z) I : gmap Z initrd_inode :=
  match last l with None => alter (with_first_child nx) d I | Some y => alter (with_next nx) y I end.
Lemma alter_some f a b I i : I !! b = Some i → alter f a I !! b = Some (if decide (b = a) then f i else i).
Proof.
  intros Hi. case_decide as E; [subst b; rewrite lookup_alter_eq, Hi; done|by rewrite lookup_alter_ne by done].
Qed.
Lemma unlinked_skip d v l nx I f :
  v ≠ d → v ∉ l → (∀ i, istay (f i) = istay i ∧ i_parent (f i) = i_parent i ∧ i_first_child (f i) = i_first_child i ∧
    i_next_sibling (f i) = i_next_sibling i) →
  unlinked d v l nx I (alter f d (alter (with_parent 0) v (alter (with_next 0) v (skip_node d l nx I)))).
Proof.
  intros Hvd Hvl Hf. unfold skip_node. split.
  - intros a. rewrite !lookup_alter_is_Some. destruct (last l); by rewrite lookup_alter_is_Some.
  - intros a i Hi. destruct (last l) as [y|] eqn:El.
    + assert (v ≠ y) as Hvy by (intros ->; by apply Hvl, last_Some_elem_of).
      assert (l ≠ []) as Hne by (by intros ->).
      eexists. split; [exact (alter_some f d a _ _ (alter_some (with_parent 0) v a _ _ (alter_some (with_next 0) v a _ _
        (alter_some (with_next nx) y a I i Hi))))|].
      destruct (decide (a = d)) as [->|Had].
      * rewrite !(decide_False (P := d = v)) by congruence. destruct (Hf (if decide (d = y) then with_next nx i else i)) as (-> & -> & -> & ->).
        repeat case_decide; naive_solver.
      * repeat case_decide; naive_solver.
    + apply last_None in El as ->.
      eexists. split; [exact (alter_some f d a _ _ (alter_some (with_parent 0) v a _ _ (alter_some (with_next 0) v a _ _
        (alter_some (with_first_child nx) d a I i Hi))))|].
      destruct (decide (a = d)) as [->|Had].
      * rewrite !(decide_False (P := d = v)) by congruence. destruct (Hf (with_first_child nx i)) as (-> & -> & -> & ->).
        repeat case_decide; naive_solver.
      * repeat case_decide; naive_solver.
Qed.

Lemma wpv_detach_found w N I m h s d v l iv (Q : Z → W → Prop) :
  view w N I m h s → v ≠ d → v ∉ l → is_Some (I !! d) → I !! v = Some iv → (∀ y, last l = Some y → y ≠ 0 ∧ is_Some (I !! y)) →
  (∀ w' I', unlinked d v l (i_next_sibling iv) I I' → view w' N I' m h s → Q v w') →
  wp (_ ← (if default 0 (last l) =? 0 then update_inode d (with_first_child (i_next_sibling iv))
           else update_inode (default 0 (last l)) (with_next (i_next_sibling iv)));
      _ ← update_inode v (with_next 0);
      _ ← update_inode v (with_parent 0);
      p ← inode d;
      _ ← when (0 <? i_len p) (update_inode d (λ i, with_len (i_len i - 1) i));
      mret v) Q w.
Proof.
  intros Hv Hvd Hvl Hd Hiv Hlast HQ. apply wp_bind.
  assert (∀ f a b (J : gmap Z initrd_inode), is_Some (J !! b) → is_Some (alter f a J !! b)) as Hdom
    by (intros f a b J HJ; by rewrite lookup_alter_is_Some).
  assert (∀ Q' : unit → W → Prop, (∀ w', view w' N (skip_node d l (i_next_sibling iv) I) m h s → Q' tt w') →
    wp (if default 0 (last l) =? 0 then update_inode d (with_first_child (i_next_sibling iv))
        else update_inode (default 0 (last l)) (with_next (i_next_sibling iv))) Q' w) as Hfirst.
  { intros Q' HQ'. unfold skip_node in HQ'. destruct (last l) as [y|]; cbn [default from_option id].
    - destruct (Hlast y eq_refl) as [Hy HyI]. rewrite (proj2 (Z.eqb_neq y 0)) by done. by eapply wpv_alter.
    - by eapply wpv_alter. }
  apply Hfirst. clear Hfirst. intros w1 H1. set (I1 := skip_node d l (i_next_sibling iv) I) in *.
  assert (∀ a, is_Some (I !! a) → is_Some (I1 !! a)) as HI1
    by (intros a Ha; unfold I1, skip_node; destruct (last l); by apply Hdom).
  apply wp_bind. eapply wpv_alter; [done|by apply HI1|]. intros w2 H2.
  apply wp_bind. eapply wpv_alter; [done|by apply Hdom, HI1|]. intros w3 H3. apply wp_bind.
  destruct (HI1 d Hd) as [id Hid].
  eapply wpv_inode; [done|rewrite !lookup_alter_ne by done; exact Hid|]. apply wp_bind.
  destruct (0 <? i_len id); cbn [when].
  - eapply wpv_alter; [done|by apply Hdom, Hdom, HI1|]. intros w4 H4. apply wp_ret. eapply HQ; [|done].
    by apply unlinked_skip.
  - apply wp_ret, wp_ret. eapply HQ; [|done].
    pose proof (unlinked_skip d v l (i_next_sibling iv) I (λ i, i) Hvd Hvl (λ i, conj eq_refl (conj eq_refl (conj eq_refl eq_refl)))) as Hun.
    by rewrite alter_id in Hun.
Qed.

Lemma detach_loop_run N I m h s d v iv fuel p l1 l2 k w (Q : Z → W → Prop) :
  view w N I m h s → v ≠ d → is_Some (I !! d) → I !! v = Some iv → sib_list I p (l2 ++ [v] ++ k) →
  NoDup (l1 ++ l2 ++ [v] ++ k) → (∀ y, last l1 = Some y → y ≠ 0 ∧ is_Some (I !! y)) → (length l2 < fuel)%nat →
  (∀ w' I', unlinked d v (l1 ++ l2) (i_next_sibling iv) I I' → view w' N I' m h s → Q v w') →
  wp (detach_loop fuel d v (default 0 (last l1)) p) Q w.
Proof.
  intros Hv Hvd Hd Hiv. revert p l1 l2. induction fuel as [|fuel IH]; intros p l1 l2 Hs Hnd Hlast Hfuel HQ; [lia|].
  cbn [detach_loop]. destruct l2 as [|x l2]; cbn [app sib_list] in Hs.
  - destruct Hs as (-> & Hv0 & i & Hi & Hs). rewrite (proj2 (Z.eqb_neq v 0)) by done. apply wp_bind.
    eapply wpv_inode; [done|done|]. rewrite Z.eqb_refl. assert (i = iv) as -> by congruence.
    rewrite app_nil_r in HQ. eapply wpv_detach_found; [done|done| |done|done|done|exact HQ].
    cbn [app] in Hnd. apply NoDup_app in Hnd as (_ & Hn & _). intros Hvl. apply (Hn v Hvl). set_solver.
  - destruct Hs as (-> & Hx0 & i & Hi & Hs). rewrite (proj2 (Z.eqb_neq x 0)) by done. apply wp_bind.
    eapply wpv_inode; [done|done|]. assert (x ≠ v) as Hxv.
    { apply NoDup_app in Hnd as (_ & _ & Hn). cbn [app] in Hn. apply NoDup_cons in Hn as [Hn _]. set_solver. }
    rewrite (proj2 (Z.eqb_neq x v)) by done. replace x with (default 0 (last (l1 ++ [x]))) at 1 by (by rewrite last_snoc).
    apply (IH _ (l1 ++ [x]) l2); [done|by rewrite <- app_assoc| |cbn [length] in Hfuel; lia|by rewrite <- app_assoc].
    intros y. rewrite last_snoc. intros [= <-]. split; [done|by eexists].
Qed.
Lemma wpv_detach_child w N I m h s T d D v iv (Q : Z → W → Prop) :
  view w N I m h s → shape N I m T → T !! d = Some D → v ∈ t_kids D → v ≠ d → I !! v = Some iv →
  (∀ w' l k I', t_kids D = l ++ [v] ++ k → unlinked d v l (i_next_sibling iv) I I' → view w' N I' m h s → Q v w') →
  wp (detach_child v) Q w.
Proof.
  intros Hv Hs HD Hk Hvd Hiv HQ. destruct (sh_rep _ _ _ _ Hs d D HD) as (Hd0 & _ & id & Hid & Hr).
  destruct (sh_kids _ _ _ _ Hs _ _ _ HD Hk) as (E & HE & HEp).
  destruct (sh_rep _ _ _ _ Hs v E HE) as (Hv0 & _ & iv' & Hiv' & Hrv). assert (iv' = iv) as -> by congruence.
  unfold detach_child. rewrite (proj2 (Z.eqb_neq v 0)) by done. apply wp_bind. eapply wpv_inode; [done|done|].
  rewrite (ir_parent _ _ _ _ Hrv), HEp, (proj2 (Z.eqb_neq d 0)) by done. apply wp_bind. eapply wpv_inode; [done|done|].
  apply wp_bind, wp_gets. rewrite (vw_inodes _ _ _ _ _ _ Hv). pose proof (kids_size _ _ _ _ _ _ Hs HD) as Hsz.
  pose proof (sh_nodup _ _ _ _ Hs _ _ HD) as Hnd. pose proof (ir_kids _ _ _ _ Hr) as Hsib.
  apply list_elem_of_split in Hk as (l & k & Ek). change (v :: k) with ([v] ++ k) in Ek. rewrite Ek in Hnd, Hsib, Hsz.
  apply (detach_loop_run N I m h s d v iv _ _ [] l k); [done|done|by eexists|done|done|done|done| |intros w' I'; by apply HQ with k].
  rewrite length_app in Hsz. cbn [length app] in Hsz. lia.
Qed.
(** Only times change. *)
Lemma wpv_copy_times w N I m h s d n i (Q : unit → W → Prop) :
  d ≠ 0 → view w N I m h s → N !! d = Some n → n_fs_data n = d → I !! d = Some i →
  (∀ w' N' I', (∀ a, nkey <$> N' !! a = nkey <$> N !! a) → (∀ a, quiet <$> I' !! a = quiet <$> I !! a) →
     view w' N' I' m h s → Q tt w') → wp (copy_dir_times d) Q w.
Proof.
  intros Hd Hv Hn Hfs Hi HQ. unfold copy_dir_times. apply wp_bind. eapply wpv_node; [done|done|]. rewrite Hfs.
  apply wp_bind. eapply wpv_update; [done|done|]. intros w1 H1. apply wp_bind. eapply wpv_make; [done|]. intros w2 H2.
  eapply wpv_sync; [done|done|apply lookup_insert_eq|done|]. intros w3 n' Hn' H3. eapply HQ; [| |done].
  - intros a. destruct (decide (a = d)) as [->|]; [by rewrite lookup_insert_eq, Hn; cbn; f_equal|by rewrite lookup_insert_ne].
  - intros a. destruct (decide (a = d)) as [->|]; [by rewrite lookup_insert_eq, Hi|by rewrite lookup_insert_ne].
Qed.
End steps.
