(* ===== verification/InitrdCalls.v ===== *)
(** * InitrdCalls: every sequence of directory operations refines the tree *)
From S2P Require Import Prelude Alloc Vfs VfsWalk Initrd InitrdFs InitrdMem InitrdTree InitrdDir InitrdDirThm.

(** ** The calls and what they mean *)
Inductive tree_op :=
| TCreate (d : Z) (name : list Z)
| TMkdir (d : Z) (name : list Z)
| TSymlink (d : Z) (name target : list Z)
| TLink (d : Z) (name : list Z) (target : Z)
| TUnlink (d : Z) (name : list Z)
| TRmdir (d : Z) (name : list Z)
| TFree (v : Z).

Definition has_type (T : dtree) (d : Z) (ty : vfs_node_type) : bool :=
  match T !! d with Some D => bool_decide (t_type D = ty) | None => false end.
Definition valid (name : list Z) : bool := vfs_validate_name (Some name).

(** Arguments a caller may pass: a directory and a link target it holds, strings that can exist. *)
Definition known (T : dtree) (d : Z) : Prop := d = 0 ∨ is_Some (T !! d).
Definition short (l : list Z) : Prop := Z.of_nat (length l) < 2 ^ 60.
Definition allowed (T : dtree) (op : tree_op) : Prop :=
  match op with
  | TCreate d name | TMkdir d name | TUnlink d name | TRmdir d name => known T d ∧ short name
  | TSymlink d name target => known T d ∧ short name ∧ short target
  | TLink d name t => known T d ∧ known T t ∧ short name ∧ (∀ D, T !! t = Some D → t_hard D = 0)
  | TFree v => unreferenced T v
  end.

(** A new child of [d], or no memory. *)
Definition t_new (T : dtree) (d : Z) (D : dnode) (ret : bool) (r : vfs_status * Z) (T' : dtree) : Prop :=
  (r = (VFS_STATUS_NOMEM, 0) ∧ T' = T) ∨
  ∃ v, v ≠ 0 ∧ T !! v = None ∧ r = (VFS_STATUS_OK, if ret then v else 0) ∧ T' = t_add T d v D.

Definition t_step (T : dtree) (op : tree_op) (r : vfs_status * Z) (T' : dtree) : Prop :=
  match op with
  | TCreate d name =>
      if has_type T d VFS_NODE_DIR && valid name then t_new T d (MkD VFS_NODE_FILE name d [] 0 []) true r T'
      else r = (VFS_STATUS_INVALID_ARG, 0) ∧ T' = T
  | TMkdir d name =>
      if has_type T d VFS_NODE_DIR && valid (trim_slashes name)
      then t_new T d (MkD VFS_NODE_DIR (trim_slashes name) d [] 0 []) true r T'
      else r = (VFS_STATUS_INVALID_ARG, 0) ∧ T' = T
  | TSymlink d name target =>
      if has_type T d VFS_NODE_DIR && valid name && bool_decide (target ≠ []) then
        if t_find T d name is Some _ then r = (VFS_STATUS_EXISTS, 0) ∧ T' = T
        else t_new T d (MkD VFS_NODE_SYMLINK name d [] 0 target) true r T'
      else r = (VFS_STATUS_INVALID_ARG, 0) ∧ T' = T
  | TLink d name t =>
      if has_type T d VFS_NODE_DIR && has_type T t VFS_NODE_FILE && valid name then
        if t_find T d name is Some _ then r = (VFS_STATUS_EXISTS, 0) ∧ T' = T
        else t_new T d (MkD VFS_NODE_FILE name d [] t []) false r T'
      else r = (VFS_STATUS_INVALID_ARG, 0) ∧ T' = T
  | TUnlink d name =>
      if has_type T d VFS_NODE_DIR && bool_decide (name ≠ []) then
        match t_find T d name with
        | None => r = (VFS_STATUS_NOENT, 0) ∧ T' = T
        | Some v =>
            if has_type T v VFS_NODE_DIR then r = (VFS_STATUS_ISDIR, 0) ∧ T' = T
            else r = (VFS_STATUS_OK, 0) ∧
              T' = (if bool_decide (t_hard <$> T !! v = Some 0) then t_detach T d v else delete v (t_detach T d v))
        end
      else r = (VFS_STATUS_INVALID_ARG, 0) ∧ T' = T
  | TRmdir d name =>
      if has_type T d VFS_NODE_DIR && bool_decide (name ≠ []) then
        match t_find T d name with
        | None => r = (VFS_STATUS_NOENT, 0) ∧ T' = T
        | Some v =>
            if negb (has_type T v VFS_NODE_DIR) then r = (VFS_STATUS_NOTDIR, 0) ∧ T' = T
            else if bool_decide (t_kids <$> T !! v = Some []) then r = (VFS_STATUS_OK, 0) ∧ T' = t_detach T d v
            else r = (VFS_STATUS_NOTEMPTY, 0) ∧ T' = T
        end
      else r = (VFS_STATUS_INVALID_ARG, 0) ∧ T' = T
  | TFree v => r = (VFS_STATUS_OK, 0) ∧ T' = delete v T
  end.

Section calls.
Context {A : Type} {alloc_A : Allocator A} {laws_A : AllocatorLaws (2 ^ 61) A} {arena_A : AllocatorArena A}.
Abbreviation W := (vworld (iext A)).
Implicit Types (w : W) (N : gmap Z vfs_node) (I : gmap Z initrd_inode) (h s : A) (m : gmap Z Z) (T : dtree) (D : dnode).

Definition tree_call (op : tree_op) : prog W (vfs_status * Z) :=
  match op with
  | TCreate d name => initrd_create_file d name
  | TMkdir d name => initrd_create_dir d name
  | TSymlink d name target => initrd_symlink d name target
  | TLink d name t => st ← initrd_link d name t; mret (st, 0)
  | TUnlink d name => st ← initrd_delete_file d name 0; mret (st, 0)
  | TRmdir d name => st ← initrd_delete_dir d name 0; mret (st, 0)
  | TFree v => _ ← initrd_free v; mret (VFS_STATUS_OK, 0)
  end.

(** The world is the tree. *)
Definition tree_rep w T : Prop :=
  reps (nodes w) (inodes (ext w)) (bytes (ext w)) (heap (ext w)) (slab_heap (ext w)) T.
Lemma view_rep w N I m h s T : view w N I m h s → reps N I m h s T → tree_rep w T.
Proof. by intros [<- <- <- <- <-]. Qed.

(** ** Shared parts *)

(** The directory argument. *)
Lemma dir_arg w T d : tree_rep w T → known T d →
  (has_type T d VFS_NODE_DIR = false ∧ (d = 0 ∨ ∃ n, d ≠ 0 ∧ nodes w !! d = Some n ∧ n_type n ≠ VFS_NODE_DIR)) ∨
  (has_type T d VFS_NODE_DIR = true ∧ d ≠ 0 ∧ ∃ D n i, T !! d = Some D ∧ t_type D = VFS_NODE_DIR ∧ nodes w !! d = Some n ∧
     n_type n = VFS_NODE_DIR ∧ n_fs_data n = d ∧ inodes (ext w) !! d = Some i).
Proof.
  intros [Hs _ _ _] [->|[D HD]]; unfold has_type.
  - left. destruct (shape_zero _ _ _ _ Hs) as [_ ->]. split; [done|by left].
  - rewrite HD. destruct (sh_rep _ _ _ _ Hs d D HD) as (Hd0 & (n & Hn & E1 & E2 & E3) & i & Hi & _).
    destruct (decide (t_type D = VFS_NODE_DIR)) as [Ht|Ht].
    + right. rewrite bool_decide_eq_true_2 by done. split; [done|]. split; [done|]. exists D, n, i. split_and!; congruence || done.
    + left. rewrite bool_decide_eq_false_2 by done. split; [done|]. right. exists n. split_and!; congruence || done.
Qed.

(** The new node is linked into the directory. *)
Lemma wp_attach w N I m h s T d Dd v n i D m' h' s' (Q : unit → W → Prop) :
  reps N I m h s T → T !! d = Some Dd → t_type Dd = VFS_NODE_DIR → grows h m h' m' → slab_has s' T → is_Some (al_live s' !! v) →
  new_places h h' (with_next 0 i) D → new_node m' T d v n (with_next 0 i) D →
  view w (<[v := n]> N) (<[v := i]> I) m' h' s' →
  (∀ w' N' I', reps N' I' m' h' s' (t_add T d v D) → N' = <[v := n]> N → view w' N' I' m' h' s' → Q tt w') →
  wp (add_child d v) Q w.
Proof.
  intros Hr Hd Hty Hg Hsl Hv Hnp Hnn Hw HQ. pose proof (reps_attach _ _ _ _ _ _ _ _ _ _ _ _ _ _ _ Hr Hg Hnp Hd Hty Hnn Hsl Hv) as Hr'.
  destruct (nn_fresh _ _ _ _ _ _ _ Hnn) as [HvT Hv0].
  eapply wpv_add_child; [done|apply Hr|done|done|]. intros w1 H1. by eapply HQ.
Qed.
Lemma wp_link_in {B} w N I m h s T d Dd v n i D m' h' s' (k : prog W B) (Q : B → W → Prop) :
  reps N I m h s T → T !! d = Some Dd → t_type Dd = VFS_NODE_DIR → grows h m h' m' → slab_has s' T → is_Some (al_live s' !! v) →
  new_places h h' (with_next 0 i) D → new_node m' T d v n (with_next 0 i) D →
  view w (<[v := n]> N) (<[v := i]> I) m' h' s' →
  (∀ w', tree_rep w' (t_add T d v D) → nkey <$> nodes w' !! v = Some (nkey n) → heap (ext w') = h' → bytes (ext w') = m' → wp k Q w') →
  wp (_ ← add_child d v; _ ← copy_dir_times d; k) Q w.
Proof.
  intros Hr Hd Hty Hg Hsl Hv Hnp Hnn Hw HQ. apply wp_bind. eapply wp_attach; [done..|exact Hw|].
  intros w1 N1 I1 Hr1 EN H1. apply wp_bind.
  assert (is_Some (t_add T d v D !! d)) as [Dd' Hd'] by (apply (t_add_dom _ _ _ _ Dd); [done|right; by eexists]).
  destruct (sh_rep _ _ _ _ (rp_shape _ _ _ _ _ _ Hr1) d Dd' Hd') as (Hd0 & (nd & Hnd & Efs & _) & id & Hid & _).
  eapply wpv_copy_times; [exact Hd0|exact H1|exact Hnd|exact Efs|exact Hid|]. intros w2 N2 I2 HN HI H2. apply HQ.
  - eapply view_rep; [exact H2|]. by eapply reps_quiet.
  - rewrite (vw_nodes _ _ _ _ _ _ H2), HN, EN, lookup_insert_eq. done.
  - apply H2.
  - apply H2.
Qed.
(** The reference handed out. *)
Lemma wp_borrow_out w T v D (Q : unit → W → Prop) :
  tree_rep w T → T !! v = Some D →
  (∀ w', tree_rep w' T → (∀ a, nkey <$> nodes w' !! a = nkey <$> nodes w !! a) → heap (ext w') = heap (ext w) →
     bytes (ext w') = bytes (ext w) → Q tt w') → wp (vfs_vnode_borrow v) Q w.
Proof.
  intros Hr HD HQ. destruct (sh_rep _ _ _ _ (rp_shape _ _ _ _ _ _ Hr) v D HD) as (Hv0 & (n & Hn & _) & _).
  assert (∀ n' a, nkey n' = nkey n → nkey <$> <[v := n']> (nodes w) !! a = nkey <$> nodes w !! a) as Hsame.
  { intros n' a Hn'. destruct (decide (a = v)) as [->|]; [by rewrite lookup_insert_eq, Hn; cbn; f_equal|]. by rewrite lookup_insert_ne. }
  eapply wpv_borrow; [apply view_self|done|done|]. intros w' n' Hn' Hv'. apply HQ.
  - eapply view_rep; [done|]. eapply reps_quiet; [exact Hr| |done]. intros a. by apply Hsame.
  - intros a. rewrite (vw_nodes _ _ _ _ _ _ Hv'). by apply Hsame.
  - apply Hv'.
  - apply Hv'.
Qed.
Lemma t_add_self T d v D : t_add T d v D !! v = Some D.
Proof. unfold t_add. apply lookup_insert_eq. Qed.

(** *** Making nodes *)
Ltac make H := apply wp_bind; eapply wpv_make; [exact H|]; clear H; let w := fresh "w" in intros w H.
(** The place of a name that was cloned, and of a link target. *)
Lemma new_places_name h h' i D p n :
  new_block h h' p n → i_name i = p → i_name_owned i = true → i_name_size i ≤ n → i_buf_owned i = false →
  i_len i = 0 → (t_hard D ≠ 0 → t_type D = VFS_NODE_FILE) → new_places h h' i D.
Proof.
  intros (Hp & Hnone & k & Hk & Hn) E1 E2 E3 E4 Hl0 Hh. unfold new_block in *.
  assert (owned i = [p]) as Ho by (unfold owned; by rewrite E1, E2, E4).
  split; try done; rewrite ?Ho; [|intros q ->%list_elem_of_singleton; split; [done|by eexists]|apply NoDup_singleton|].
  - rewrite E2, E1. exists k. split; [done|lia].
  - intros _. rewrite E4, Hl0. intros x Hx. lia.
Qed.
Lemma new_places_target h h' i D p n q k :
  new_block h h' p n → new_block h h' q k → p ≠ q → i_name i = p → i_name_owned i = true → i_name_size i ≤ n →
  i_buf i = q → i_buf_owned i = true → i_len i ≤ k → (t_hard D ≠ 0 → t_type D = VFS_NODE_FILE) → new_places h h' i D.
Proof.
  intros (Hp & Hpn & kp & Hkp & Hnp) (Hq & Hqn & kq & Hkq & Hnq) Hpq E1 E2 E3 E4 E5 E6 Hh.
  assert (owned i = [p; q]) as Ho by (unfold owned; by rewrite E1, E2, E4, E5).
  split; try done; rewrite ?Ho.
  - rewrite E2, E1. exists kp. split; [done|lia].
  - intros r. rewrite elem_of_cons, list_elem_of_singleton. intros [->| ->]; (split; [done|by eexists]).
  - apply NoDup_cons. split; [set_solver|apply NoDup_singleton].
  - intros _. rewrite E4, E5. exists kq. split; [done|lia].
Qed.

(** The guard most operations start with. *)
Lemma wp_dir_arg {B} w T d (r : B) (g : bool → bool) (k : vfs_node → prog W B) (Q : B → W → Prop) :
  tree_rep w T → known T d → g true = true → (has_type T d VFS_NODE_DIR && negb (g false) = false → Q r w) →
  (∀ D n i, has_type T d VFS_NODE_DIR && negb (g false) = true → d ≠ 0 → T !! d = Some D → t_type D = VFS_NODE_DIR →
     nodes w !! d = Some n → n_fs_data n = d → inodes (ext w) !! d = Some i → wp (k n) Q w) →
  wp (if d =? 0 then mret r else n ← node d; if g (negb (bool_decide (n_type n = VFS_NODE_DIR))) then mret r else k n) Q w.
Proof.
  intros Hr Hk Hg Hno Hyes.
  destruct (dir_arg w T d Hr Hk) as [[E Hbad]|(E & Hd0 & Dd & nd & id & Hd & Hty & Hnd & Ent & Efs & Hid)]; rewrite E in *.
  - destruct Hbad as [->|(n & Hd0 & Hn & Hty)]; [by apply wp_ret, Hno|]. rewrite (proj2 (Z.eqb_neq d 0)) by done.
    apply wp_bind. eapply wp_vnode; [done|]. rewrite bool_decide_eq_false_2 by done. cbn [negb]. rewrite Hg. by apply wp_ret, Hno.
  - rewrite (proj2 (Z.eqb_neq d 0)) by done. apply wp_bind. eapply wp_vnode; [done|]. rewrite bool_decide_eq_true_2 by done.
    cbn [negb]. destruct (g false); cbn [negb orb andb] in *; [by apply wp_ret, Hno|by eapply Hyes].
Qed.
(** The tree is as it was. *)
Lemma rep_grown w w' N I m h s T m' h' s' : tree_rep w T → view w N I m h s → grows h m h' m' → slab_has s' T →
  view w' N I m' h' s' → tree_rep w' T.
Proof. intros Hr [<- <- <- <- <-] Hg Hs Hv. eapply view_rep; [exact Hv|]. by eapply reps_grow. Qed.

Lemma wp_create_file w T d name :
  tree_rep w T → known T d → short name →
  wp (initrd_create_file d name) (λ r w', ∃ T', t_step T (TCreate d name) r T' ∧ tree_rep w' T') w.
Proof.
  intros Hr Hk Hsh. unfold initrd_create_file.
  apply (wp_dir_arg w T d _ (λ b, b || negb (vfs_validate_name (Some name)))); [done|done|done| |];
    cbn [t_step orb]; unfold valid; rewrite negb_involutive.
  { intros ->. by exists T. }
  intros Dd nd id -> Hd0 Hd Hty Hnd Efs Hid. pose proof (view_self w) as Hw0.
  apply wp_bind. eapply wpv_calloc_inode; [exact Hw0|apply Hr| |].
  { intros w1 s1 Hs1 Hw1. apply wp_ret. exists T. split; [by left|]. eapply rep_grown; [exact Hr|done|apply grows_refl, Hr|done|done]. }
  intros v w1 s1 Hv0 HvT Hs1 Hvs Hw1. rewrite (proj2 (Z.eqb_neq v 0)) by done. apply wp_bind.
  eapply wpv_clone; [done|apply Hr|done| |].
  { intros w2 h2 Hg Hw2. cbn [Z.eqb]. apply wp_bind. eapply wpv_drop_inode; [apply Hr|right; eexists _, _; split_and!; done|done|].
    intros w3 s3 Hs3 Hw3. apply wp_ret. exists T. split; [by left|]. by eapply rep_grown. }
  intros p w2 h2 m2 Hp Hh Hg Hw2. rewrite (proj2 (Z.eqb_neq p 0)) by apply Hp. apply wp_bind, wp_gets.
  apply wp_bind. eapply wpv_times; [done|exact Hw2|]. clear Hw2. intros w3 Hw2.
  apply wp_bind. eapply wpv_init; [done|exact Hw2|]. clear Hw2. intros w4 n Hn Hw2. make Hw2.
  apply wp_bind. eapply wpv_number; [exact Hw2|]. clear Hw2. intros num w6 Hw2. do 5 make Hw2. rewrite Efs in Hw2 |- *.
  eapply (wp_link_in _ _ _ _ _ _ T d Dd v n _ (MkD VFS_NODE_FILE name d [] 0 [])); [exact Hr|done|done|exact Hg|done|done| | |exact Hw2|].
  - eapply new_places_name; [exact Hp|done|done|cbn; lia|done|done|done].
  - unfold nkey in Hn. injection Hn as E1 E2 E3 _. split; try done. split; [done|by left].
  - intros wa Hra Hka Eha Eba. apply wp_bind. eapply wp_borrow_out; [done|apply t_add_self|]. intros wb Hrb Hkb Ehb Ebb. apply wp_ret.
    eexists. split; [|exact Hrb]. right. by exists v.
Qed.

(** *** Symbolic and hard links *)
Lemma find_none T d name : default 0 (t_find T d name) = 0 → (∀ D, T !! d = Some D → ∀ c, c ∈ t_kids D → c ≠ 0) → t_find T d name = None.
Proof.
  intros H Hk. destruct (t_find T d name) as [c|] eqn:E; [|done]. cbn in H. subst c. unfold t_find in E.
  destruct (T !! d) as [D|] eqn:HD; [|done]. cbn [mbind option_bind] in E.
  apply head_Some_elem_of, list_elem_of_filter in E as [_ E]. by destruct (Hk D eq_refl 0 E).
Qed.
Lemma find_some T d name v : t_find T d name = Some v → ∃ D, T !! d = Some D ∧ v ∈ t_kids D.
Proof.
  unfold t_find. destruct (T !! d) as [D|]; [|done]. cbn [mbind option_bind]. intros E.
  apply head_Some_elem_of, list_elem_of_filter in E as [_ E]. by exists D.
Qed.
Lemma kid_nonzero w T d name v : tree_rep w T → t_find T d name = Some v → v ≠ 0 ∧ ∃ D, T !! v = Some D ∧ t_parent D = d.
Proof.
  intros Hr (D & HD & Hv)%find_some. destruct (sh_kids _ _ _ _ (rp_shape _ _ _ _ _ _ Hr) d D v HD Hv) as (E & HE & Hp).
  split; [by eapply sh_rep; [apply Hr|]|by exists E].
Qed.

Lemma rep_kid_zero w T : tree_rep w T → ∀ d D, T !! d = Some D → ∀ c, c ∈ t_kids D → c ≠ 0.
Proof.
  intros Hr d D HD c Hc. destruct (sh_kids _ _ _ _ (rp_shape _ _ _ _ _ _ Hr) d D c HD Hc) as (E & HE & _).
  by eapply sh_rep; [apply Hr|].
Qed.
(** Whether the name is there already. *)
Lemma wp_exists_check {B} w T d D i name (r : B) (k : prog W B) (Q : B → W → Prop) :
  tree_rep w T → T !! d = Some D → inodes (ext w) !! d = Some i →
  (is_Some (t_find T d name) → Q r w) → (t_find T d name = None → wp k Q w) →
  wp (p ← inode d; found ← find_child (i_first_child p) name; if negb (found =? 0) then mret r else k) Q w.
Proof.
  intros Hr HD Hi Hyes Hno. apply wp_bind. eapply wp_inode; [done|]. apply wp_bind.
  eapply wpv_find_child; [apply view_self|apply Hr|done|done|done|done|]. destruct (Z.eqb_spec (default 0 (t_find T d name)) 0) as [E|E]; cbn [negb].
  - apply Hno. apply find_none; [done|by eapply rep_kid_zero].
  - apply wp_ret, Hyes. destruct (t_find T d name); [by eexists|done].
Qed.
Lemma is_some_match {B} (o : option B) (P P' : Prop) : is_Some o → P → (if o is Some _ then P else P').
Proof. by intros [b ->]. Qed.

Lemma new_block_grow h h1 m1 h2 m2 p n : new_block h h1 p n → grows h1 m1 h2 m2 → new_block h h2 p n.
Proof.
  intros (Hp & Hn & k & Hk & Hle) Hg. split; [done|]. split; [done|]. exists k. split; [|done]. eapply lookup_weaken; [done|apply Hg].
Qed.
Lemma new_block_later h m h1 m1 h2 q n : grows h m h1 m1 → new_block h1 h2 q n → new_block h h2 q n.
Proof.
  intros Hg (Hq & Hn & Hk). split; [done|]. split; [|done]. eapply lookup_weaken_None; [done|apply Hg].
Qed.
Lemma new_block_apart h h1 h2 p q n k : new_block h h1 p n → new_block h1 h2 q k → p ≠ q.
Proof. intros (_ & _ & j & Hj & _) (_ & Hn & _) ->. congruence. Qed.

(** The new node has one link, and the memory only grew. *)
Definition linked w (r : vfs_status * Z) w' : Prop :=
  (r.1 = VFS_STATUS_OK → link_count <$> nodes w' !! r.2 = Some 1) ∧
  grows (heap (ext w)) (bytes (ext w)) (heap (ext w')) (bytes (ext w')).
Lemma linked_same w T st : tree_rep w T → st ≠ VFS_STATUS_OK → linked w (st, 0) w.
Proof. intros Hr Hst. split; [done|]. apply grows_refl, Hr. Qed.

(** Without memory for both names of a symbolic link, all is given back. *)
Lemma wp_symlink_undo w T d D v n i w3 m3 h3 s3 p q n3 k3 :
  tree_rep w T → view w3 (<[v := n]> (nodes w)) (<[v := i]> (inodes (ext w))) m3 h3 s3 → v ≠ 0 → T !! v = None →
  is_Some (al_live s3 !! v) → slab_has s3 T → grows (heap (ext w)) (bytes (ext w)) h3 m3 →
  p = 0 ∨ new_block (heap (ext w)) h3 p n3 → q = 0 ∨ new_block (heap (ext w)) h3 q k3 → p ≠ q ∨ p = 0 →
  wp (_ ← slab_free v; _ ← free_bytes p; _ ← free_bytes q; mret (VFS_STATUS_NOMEM, 0))
    (λ r w', ∃ T', t_new T d D true r T' ∧ tree_rep w' T' ∧ linked w r w') w3.
Proof.
  intros Hr Hw3 Hv0 HvT Hvs Hs3 Hg3 Hp Hq Hpq. pose proof (view_self w) as Hw0. apply wp_bind.
  eapply wpv_drop_inode; [eapply reps_grow; [exact Hr|exact Hg3|done]|right; eexists _, _; split_and!; done|done|]. intros w4 s4 Hs4 Hw4.
  apply wp_bind. eapply wpv_drop_block; [done|apply Hr|done|exact Hp|]. intros w5 h5 m5 Hg5 Hl5 Hw5.
  apply wp_bind. eapply (wpv_drop_block _ _ _ _ _ _ _ _ q k3); [done|apply Hr|done| |].
  { destruct Hq as [->|(Hq0 & Hqn & k & Hqk & Hqle)]; [by left|right]. split; [done|]. split; [done|]. exists k.
    rewrite Hl5; [done|]. destruct Hpq as [Hpq| ->]; congruence. }
  intros w6 h6 m6 Hg6 _ Hw6. apply wp_ret. exists T. split; [by left|]. split; [by eapply rep_grown|]. split; [done|]. cbn. by rewrite (vw_heap _ _ _ _ _ _ Hw6), (vw_bytes _ _ _ _ _ _ Hw6).
Qed.

Lemma wp_symlink w T d name target :
  tree_rep w T → known T d → short name → short target →
  wp (initrd_symlink d name target) (λ r w', ∃ T', t_step T (TSymlink d name target) r T' ∧ tree_rep w' T' ∧ linked w r w') w.
Proof.
  intros Hr Hk Hsh Hst. unfold initrd_symlink.
  apply (wp_dir_arg w T d _ (λ b, b || negb (vfs_validate_name (Some name)) || bool_decide (target = []))); [done|done|done| |];
    cbn [t_step orb]; unfold valid; rewrite negb_orb, negb_involutive, bool_decide_not, andb_assoc.
  { intros ->. exists T. split; [done|]. split; [done|]. by apply linked_same with T. }
  intros Dd nd id -> Hd0 Hd Hty Hnd Efs Hid. rewrite Efs. eapply wp_exists_check; [done|done|done| |].
  { intros Hf. exists T. split; [by apply is_some_match|]. split; [done|]. by apply linked_same with T. }
  intros ->. pose proof (view_self w) as Hw0. apply wp_bind. eapply wpv_calloc_inode; [exact Hw0|apply Hr| |].
  { intros w1 s1 Hs1 Hw1. apply wp_ret. exists T. split; [by left|].
    split; [eapply rep_grown; [exact Hr|done|apply grows_refl, Hr|done|done]|]. split; [done|].
    rewrite (vw_heap _ _ _ _ _ _ Hw1), (vw_bytes _ _ _ _ _ _ Hw1). apply grows_refl, Hr. }
  intros v w1 s1 Hv0 HvT Hs1 Hvs Hw1. rewrite (proj2 (Z.eqb_neq v 0)) by done. apply wp_bind.
  eapply wpv_clone; [done|apply Hr|done| |].
  { intros w2 h2 Hg Hw2. apply wp_bind. eapply wpv_clone; [done|apply Hg|done| |].
    - intros w3 h3 Hg3 Hw3. cbn [Z.eqb orb].
      eapply (wp_symlink_undo w T d _ v _ _ _ _ _ _ 0 0 0 0); [done..|by eapply grows_trans|by left|by left|by right].
    - intros q w3 h3 m3 Hq Hh Hg3 Hw3. cbn [Z.eqb orb].
      eapply (wp_symlink_undo w T d _ v _ _ _ _ _ _ 0 q 0); [done..|by eapply grows_trans|by left| |by right].
      right. by eapply new_block_later. }
  intros p w2 h2 m2 Hp Hh Hg Hw2. apply wp_bind. rewrite (proj2 (Z.eqb_neq p 0)) by apply Hp. eapply wpv_clone; [done|apply Hg|done| |].
  { intros w3 h3 Hg3 Hw3. cbn [Z.eqb orb].
    eapply (wp_symlink_undo w T d _ v _ _ _ _ _ _ p 0 _ 0); [done..|by eapply grows_trans| |by left|left; apply Hp].
    right. by eapply new_block_grow. }
  intros q w3 h3 m3 Hq Hh3 Hg3 Hw3. rewrite (proj2 (Z.eqb_neq q 0)) by apply Hq. cbn [orb]. apply wp_bind, wp_gets.
  apply wp_bind. eapply wpv_times; [done|exact Hw3|]. clear Hw3. intros w4 Hw3.
  apply wp_bind. eapply wpv_init; [done|exact Hw3|]. clear Hw3. intros w5 n Hn Hw3. make Hw3.
  apply wp_bind. eapply wpv_number; [exact Hw3|]. clear Hw3. intros num w7 Hw3. do 7 make Hw3.
  eapply (wp_link_in _ _ _ _ _ _ T d Dd v n _ (MkD VFS_NODE_SYMLINK name d [] 0 target));
    [exact Hr|done|done|by eapply grows_trans|done|done| | |exact Hw3|].
  - eapply new_places_target; [by eapply new_block_grow|by eapply new_block_later|by eapply new_block_apart|done|done|cbn; lia|done|done|cbn; lia|done].
  - pose proof Hn as Hn'. unfold nkey in Hn'. injection Hn' as E1 E2 E3 _. split; try done.
    + split; [|done]. cbn. intros j c Hj. eapply lookup_weaken; [by apply Hh|apply Hg3].
    + split; [done|by left].
  - intros wa Hra Hka Eha Eba. apply wp_bind. eapply wp_borrow_out; [done|apply t_add_self|]. intros wb Hrb Hkb Ehb Ebb. apply wp_ret.
    eexists. split; [right; by exists v|]. split; [exact Hrb|].
    split; [|rewrite Ehb, Ebb, Eha, Eba; by eapply grows_trans]. intros _. cbn [fst snd]. specialize (Hkb v). rewrite Hka in Hkb.
    destruct (nodes wb !! v) as [nv|]; [|done]. cbn in Hkb |- *. unfold nkey in Hn, Hkb. congruence.
Qed.

Lemma node_arg w T d : tree_rep w T → known T d → d ≠ 0 →
  ∃ D n i, T !! d = Some D ∧ nodes w !! d = Some n ∧ n_fs_data n = d ∧ inodes (ext w) !! d = Some i ∧
    n_type n = t_type D ∧ ∀ ty, has_type T d ty = bool_decide (n_type n = ty).
Proof.
  intros Hr [->|[D HD]] Hd0; [done|]. destruct (sh_rep _ _ _ _ (rp_shape _ _ _ _ _ _ Hr) d D HD) as (_ & (n & Hn & E1 & E2 & E3) & i & Hi & _).
  exists D, n, i. split_and!; try done. intros ty. unfold has_type. by rewrite HD, E3.
Qed.
Lemma no_node w T ty : tree_rep w T → has_type T 0 ty = false.
Proof. intros Hr. unfold has_type. by destruct (shape_zero _ _ _ _ (rp_shape _ _ _ _ _ _ Hr)) as [_ ->]. Qed.

Lemma wp_link w T d name t :
  tree_rep w T → known T d → known T t → short name → (∀ D, T !! t = Some D → t_hard D = 0) →
  wp (tree_call (TLink d name t)) (λ r w', ∃ T', t_step T (TLink d name t) r T' ∧ tree_rep w' T') w.
Proof.
  intros Hr Hk Ht Hsh Hth. cbn [tree_call t_step]. apply wp_bind. unfold initrd_link.
  destruct (Z.eqb_spec d 0) as [->|Hd0]; [rewrite (no_node w T) by done; apply wp_ret, wp_ret; by exists T|].
  destruct (Z.eqb_spec t 0) as [->|Ht0]; [rewrite (no_node w T VFS_NODE_FILE), andb_false_r by done; apply wp_ret, wp_ret; by exists T|].
  cbn [orb]. destruct (node_arg w T d Hr Hk Hd0) as (Dd & nd & id & Hd & Hnd & Efs & Hid & Ety & ->).
  destruct (node_arg w T t Hr Ht Ht0) as (Dt & nt & it & HDt & Hnt & Eft & Hit & Ett & ->).
  apply wp_bind. eapply wp_vnode; [done|]. apply wp_bind. eapply wp_vnode; [done|]. unfold valid.
  rewrite <- !negb_andb. destruct (bool_decide (n_type nd = VFS_NODE_DIR) && bool_decide (n_type nt = VFS_NODE_FILE) && vfs_validate_name (Some name)) eqn:Eg;
    cbn [negb]; [|apply wp_ret, wp_ret; by exists T].
  apply andb_true_iff in Eg as [[Ed Et]%andb_true_iff _]. apply bool_decide_eq_true in Ed, Et.
  rewrite Efs, Eft. eapply wp_exists_check; [done|done|done| |].
  { intros Hf. apply wp_ret. exists T. split; [by apply is_some_match|done]. }
  intros ->. pose proof (view_self w) as Hw0. apply wp_bind. eapply wpv_calloc_inode; [exact Hw0|apply Hr| |].
  { intros w1 s1 Hs1 Hw1. apply wp_ret, wp_ret. exists T. split; [by left|]. eapply rep_grown; [exact Hr|done|apply grows_refl, Hr|done|done]. }
  intros v w1 s1 Hv0 HvT Hs1 Hvs Hw1. rewrite (proj2 (Z.eqb_neq v 0)) by done. apply wp_bind.
  eapply wpv_clone; [done|apply Hr|done| |].
  { intros w2 h2 Hg Hw2. cbn [Z.eqb]. apply wp_bind. eapply wpv_drop_inode; [apply Hr|right; eexists _, _; split_and!; done|done|].
    intros w3 s3 Hs3 Hw3. apply wp_ret, wp_ret. exists T. split; [by left|]. by eapply rep_grown. }
  intros p w2 h2 m2 Hp Hh Hg Hw2. rewrite (proj2 (Z.eqb_neq p 0)) by apply Hp. apply wp_bind, wp_gets.
  apply wp_bind. eapply wpv_times; [done|exact Hw2|]. clear Hw2. intros w3 Hw2.
  apply wp_bind. eapply wpv_init; [done|exact Hw2|]. clear Hw2. intros w4 n Hn Hw2. make Hw2.
  apply wp_bind. eapply wpv_number; [exact Hw2|]. clear Hw2. intros num w6 Hw2. do 7 make Hw2.
  eapply (wp_link_in _ _ _ _ _ _ T d Dd v n _ (MkD VFS_NODE_FILE name d [] t [])); [exact Hr|done|congruence|exact Hg|done|done| | |exact Hw2|].
  - eapply new_places_name; [exact Hp|done|done|cbn; lia|done|done|done].
  - unfold nkey in Hn. injection Hn as E1 E2 E3 _. split; try done. split; [done|right]. exists Dt. split; [done|by apply Hth].
  - intros wa Hra _ _ _. apply wp_ret, wp_ret. eexists. split; [|exact Hra]. right. by exists v.
Qed.

(** *** Directories *)
Lemma wp_create_dir_node w T d name (Q : Z → W → Prop) :
  tree_rep w T → short name → (∀ w', tree_rep w' T → Q 0 w') →
  (∀ v n i w' m' h' s', v ≠ 0 → T !! v = None → slab_has s' T → is_Some (al_live s' !! v) →
     grows (heap (ext w)) (bytes (ext w)) h' m' → new_places (heap (ext w)) h' (with_next 0 i) (MkD VFS_NODE_DIR name d [] 0 []) →
     new_node m' T d v n (with_next 0 i) (MkD VFS_NODE_DIR name d [] 0 []) →
     view w' (<[v := n]> (nodes w)) (<[v := i]> (inodes (ext w))) m' h' s' → Q v w') →
  wp (create_dir name d) Q w.
Proof.
  intros Hr Hsh HQ0 HQ. pose proof (view_self w) as Hw0. unfold create_dir. apply wp_bind.
  eapply wpv_calloc_inode; [exact Hw0|apply Hr| |].
  { intros w1 s1 Hs1 Hw1. apply wp_bind. eapply wpv_clone; [done|apply Hr|done| |].
    - intros w2 h2 Hg Hw2. cbn [Z.eqb orb]. apply wp_bind. eapply wpv_drop_inode; [apply Hr|by left|done|].
      intros w3 s3 Hs3 Hw3. apply wp_bind. eapply wpv_free_null; [done|apply Hg|]. intros w4 Hw4. apply wp_ret, HQ0. by eapply rep_grown.
    - intros p w2 h2 m2 Hp Hh Hg Hw2. cbn [Z.eqb orb]. apply wp_bind.
      eapply wpv_drop_inode; [eapply reps_grow; [exact Hr|exact Hg|done]|by left|done|].
      intros w3 s3 Hs3 Hw3. apply wp_bind. eapply wpv_drop_block; [done|apply Hr|done|by right|]. intros w4 h4 m4 Hg4 _ Hw4.
      apply wp_ret, HQ0. by eapply rep_grown. }
  intros v w1 s1 Hv0 HvT Hs1 Hvs Hw1. apply wp_bind. rewrite (proj2 (Z.eqb_neq v 0)) by done.
  eapply wpv_clone; [done|apply Hr|done| |].
  { intros w2 h2 Hg Hw2. cbn [Z.eqb orb]. apply wp_bind. eapply wpv_drop_inode; [apply Hr|right; eexists _, _; split_and!; done|done|].
    intros w3 s3 Hs3 Hw3. apply wp_bind. eapply wpv_free_null; [done|apply Hg|]. intros w4 Hw4. apply wp_ret, HQ0. by eapply rep_grown. }
  intros p w2 h2 m2 Hp Hh Hg Hw2. rewrite (proj2 (Z.eqb_neq p 0)) by apply Hp. cbn [orb].
  do 3 make Hw2. apply wp_bind. eapply wpv_number; [exact Hw2|]. clear Hw2. intros num w6 Hw2. do 5 make Hw2.
  apply wp_bind, wp_gets. apply wp_bind. eapply wpv_times; [done|exact Hw2|]. clear Hw2. intros wt Hw2.
  apply wp_bind. eapply wpv_init; [done|exact Hw2|]. clear Hw2. intros wi n Hn Hw2. apply wp_ret.
  eapply HQ; [done|done|exact Hs1|done|exact Hg| | |exact Hw2].
  - eapply new_places_name; [exact Hp|done|done|cbn; lia|done|done|done].
  - unfold nkey in Hn. injection Hn as E1 E2 E3 _. split; try done. split; [done|by left].
Qed.
Lemma wp_create_dir w T d name :
  tree_rep w T → known T d → short name →
  wp (initrd_create_dir d name) (λ r w', ∃ T', t_step T (TMkdir d name) r T' ∧ tree_rep w' T') w.
Proof.
  intros Hr Hk Hsh. unfold initrd_create_dir.
  apply (wp_dir_arg w T d _ (λ b, b)); [done|done|done| |]; cbn [t_step negb]; unfold valid; rewrite andb_true_r.
  { intros ->. by exists T. }
  intros Dd nd id -> Hd0 Hd Hty Hnd Efs Hid. cbn [andb]. destruct (vfs_validate_name (Some (trim_slashes name))); cbn [negb]; [|by apply wp_ret; exists T].
  rewrite Efs. apply wp_bind. eapply wp_create_dir_node; [done| |intros w1 Hr1; apply wp_ret; exists T; by split; [left|]|].
  { unfold short in *. unfold trim_slashes. rewrite length_reverse. pose proof (skip_slashes_length (reverse name)) as Hl. rewrite length_reverse in Hl. lia. }
  intros v n i w1 m1 h1 s1 Hv0 HvT Hs1 Hvs Hg Hnp Hnn Hw1. rewrite (proj2 (Z.eqb_neq v 0)) by done.
  eapply wp_link_in; [exact Hr|done|done|exact Hg|done|done|done|exact Hnn|exact Hw1|].
  intros wa Hra Hka Eha Eba. apply wp_bind. eapply wp_borrow_out; [done|apply t_add_self|]. intros wb Hrb Hkb Ehb Ebb. apply wp_ret.
  eexists. split; [|exact Hrb]. right. by exists v.
Qed.

(** *** Removing *)
Lemma wp_initrd_free w T v (Q : unit → W → Prop) :
  tree_rep w T → unreferenced T v → (∀ w', tree_rep w' (delete v T) → Q tt w') → wp (initrd_free v) Q w.
Proof.
  intros Hr Hu HQ. pose proof Hr as [Hs Hm Hsl Hp]. destruct (T !! v) as [D|] eqn:HD; [|by destruct Hu as [Hu _]; rewrite HD in Hu].
  destruct (sh_rep _ _ _ _ Hs v D HD) as (Hv0 & (n & Hn & Efs & _) & i & Hi & _).
  unfold initrd_free. rewrite (proj2 (Z.eqb_neq v 0)) by done. apply wp_bind. eapply wp_vnode; [done|]. rewrite Efs.
  rewrite (proj2 (Z.eqb_neq v 0)) by done. apply wp_bind. eapply wp_inode; [done|].
  assert (∀ (b : bool) p w1 m1 h1 (Q' : unit → W → Prop), mem_ok h1 m1 → (b = true → is_Some (al_live h1 !! p)) →
    view w1 (nodes w) (inodes (ext w)) m1 h1 (slab_heap (ext w)) →
    (∀ w' m' h', shrinks h1 m1 (if b then [p] else []) h' m' → view w' (nodes w) (inodes (ext w)) m' h' (slab_heap (ext w)) → Q' tt w') →
    wp (when b (free_bytes p)) Q' w1) as Hfree.
  { intros b p w1 m1 h1 Q' Hm1 Hl Hw1 HQ'. destruct b; cbn [when].
    - eapply wpv_free_block; [done|done|by apply Hl|]. intros w' h' m' Hsk Hw'. by eapply HQ'.
    - apply wp_ret. eapply HQ'; [by apply shrinks_refl|done]. }
  assert (i_name_owned i = true → is_Some (al_live (heap (ext w)) !! i_name i)) as Hname.
  { intros Ho. eapply owned_live; [exact Hp|exact Hi|]. unfold owned. rewrite Ho. set_solver. }
  apply wp_bind. eapply Hfree; [exact Hm|done|apply view_self|]. intros w1 m1 h1 Hsk1 Hw1.
  apply wp_bind. eapply Hfree; [apply Hsk1| |exact Hw1|].
  { intros Ho. rewrite (sk_live _ _ _ _ _ Hsk1); [by eapply pl_buf|]. pose proof (pl_nodup _ _ _ Hp v i Hi) as Hnd.
    unfold owned in Hnd. rewrite Ho in Hnd. apply NoDup_app in Hnd as (_ & Hnd & _). intros H%Hnd. set_solver. }
  intros w2 m2 h2 Hsk2 Hw2. pose proof (shrinks_trans _ _ _ _ _ _ _ _ Hsk1 Hsk2) as Hsk. fold (owned i) in Hsk.
  destruct (sl_nodes _ _ Hsl v) as [k Hk]; [by eexists|]. destruct (al_free_law _ v k (sl_ok _ _ Hsl) Hk) as (s' & Hrun & Hok & Hl).
  eapply wpv_slab_free; [exact Hw2|exact Hrun|]. intros w3 Hw3. apply HQ. eapply view_rep; [exact Hw3|]. by eapply reps_remove.
Qed.

(** A node that was found, and its place. *)
Lemma found_node w T d name v : tree_rep w T → t_find T d name = Some v →
  ∃ D E n i, T !! d = Some D ∧ v ∈ t_kids D ∧ T !! v = Some E ∧ t_parent E = d ∧ nodes w !! v = Some n ∧ n_type n = t_type E ∧
    inodes (ext w) !! v = Some i ∧ ino_rep (inodes (ext w)) (bytes (ext w)) i E ∧ v ≠ 0.
Proof.
  intros Hr (D & HD & Hv)%find_some. pose proof (rp_shape _ _ _ _ _ _ Hr) as Hs.
  destruct (sh_kids _ _ _ _ Hs d D v HD Hv) as (E & HE & Hp).
  destruct (sh_rep _ _ _ _ Hs v E HE) as (Hv0 & (n & Hn & _ & _ & Hty) & i & Hi & Hri). by exists D, E, n, i.
Qed.
(** Detaching a child that is not its own parent. *)
Lemma wp_tree_detach w T d name v (Q : Z → W → Prop) :
  tree_rep w T → t_find T d name = Some v → v ≠ d →
  (∀ w', tree_rep w' (t_detach T d v) → Q v w') → wp (detach_child v) Q w.
Proof.
  intros Hr Hf Hvd HQ. destruct (found_node w T d name v Hr Hf) as (D & E & n & i & HD & Hk & HE & Hp & Hn & Hty & Hi & Hri & Hv0).
  eapply wpv_detach_child; [apply view_self|apply Hr|exact HD|exact Hk|exact Hvd|exact Hi|]. intros w' l k I' Ek Hun Hw'. apply HQ.
  eapply view_rep; [done|]. by eapply reps_detach.
Qed.

Lemma unlink_unreferenced w T d v E :
  tree_rep w (t_detach T d v) → T !! v = Some E → v ≠ d → t_hard E ≠ 0 → v ≠ 0 → unreferenced (t_detach T d v) v.
Proof.
  intros [Hs _ _ Hp] HE Hvd Hh Hv0. pose proof (t_detach_old T d v v E HE Hvd) as Hv. rewrite decide_True in Hv by done. split; [by rewrite Hv|].
  pose proof (pl_alias _ _ _ Hp v _ Hv Hh) as Hty. intros a F HF. split.
  - intros Ep. destruct (sh_parent _ _ _ _ Hs a F HF) as [|(G & HG & HGt)]; [congruence|]. rewrite Ep, Hv in HG. injection HG as <-. congruence.
  - intros Ep. destruct (sh_hard _ _ _ _ Hs a F HF) as [|(G & HG & HGt)]; [congruence|]. rewrite Ep, Hv in HG. injection HG as <-. done.
Qed.
Lemma wp_tree_unlink w T d name :
  tree_rep w T → known T d →
  wp (tree_call (TUnlink d name)) (λ r w', ∃ T', t_step T (TUnlink d name) r T' ∧ tree_rep w' T') w.
Proof.
  intros Hr Hk. cbn [tree_call]. apply wp_bind. unfold initrd_delete_file.
  apply (wp_dir_arg w T d _ (λ b, b || bool_decide (name = []))); [done|done|done| |]; cbn [t_step orb]; rewrite bool_decide_not.
  { intros ->. apply wp_ret. by exists T. }
  intros Dd nd idir -> Hd0 Hd Hty Hnd Efs Hid. rewrite Efs. apply wp_bind. eapply wp_inode; [done|]. apply wp_bind.
  eapply wpv_find_child; [apply view_self|apply Hr|done|done|done|done|].
  destruct (t_find T d name) as [v|] eqn:Hf; cbn [default from_option id]; [|apply wp_ret, wp_ret; by exists T].
  destruct (found_node w T d name v Hr Hf) as (D & E & n & i & HD & Hkid & HE & Hp & Hn & Ent & Hi & Hri & Hv0).
  rewrite (proj2 (Z.eqb_neq v 0)) by done. apply wp_bind. eapply wp_vnode; [done|]. unfold has_type. rewrite HE, Ent.
  destruct (decide (t_type E = VFS_NODE_DIR)) as [HEt|HEt]; [rewrite !bool_decide_eq_true_2 by done; apply wp_ret, wp_ret; by exists T|].
  rewrite !(bool_decide_eq_false_2 (t_type E = _)) by done. assert (v ≠ d) as Hvd by congruence.
  apply wp_bind. eapply wp_tree_detach; [done|done|done|]. intros w1 Hr1. rewrite (proj2 (Z.eqb_neq v 0)) by done. apply wp_bind.
  pose proof (t_detach_old T d v v E HE Hvd) as Hv1. rewrite decide_True in Hv1 by done.
  destruct (sh_rep _ _ _ _ (rp_shape _ _ _ _ _ _ Hr1) v _ Hv1) as (_ & _ & i1 & Hi1 & Hri1).
  eapply wp_inode; [done|]. rewrite (ir_hard _ _ _ _ Hri1). cbn [t_hard with_t_parent fmap option_fmap option_map]. apply wp_bind.
  destruct (Z.eqb_spec (t_hard E) 0) as [Eh|Eh]; cbn [negb when].
  - apply wp_ret, wp_ret, wp_ret. rewrite bool_decide_eq_true_2 by (by rewrite Eh). by eexists.
  - eapply wp_initrd_free; [done|by eapply unlink_unreferenced|]. intros w2 Hr2. apply wp_ret, wp_ret.
    rewrite bool_decide_eq_false_2 by congruence. by eexists.
Qed.
Lemma wp_rmdir w T d name :
  tree_rep w T → known T d →
  wp (tree_call (TRmdir d name)) (λ r w', ∃ T', t_step T (TRmdir d name) r T' ∧ tree_rep w' T') w.
Proof.
  intros Hr Hk. cbn [tree_call]. apply wp_bind. unfold initrd_delete_dir.
  apply (wp_dir_arg w T d _ (λ b, b || bool_decide (name = []))); [done|done|done| |]; cbn [t_step orb]; rewrite bool_decide_not.
  { intros ->. apply wp_ret. by exists T. }
  intros Dd nd idir -> Hd0 Hd Hty Hnd Efs Hid. rewrite Efs. apply wp_bind. eapply wp_inode; [done|]. apply wp_bind.
  eapply wpv_find_child; [apply view_self|apply Hr|done|done|done|done|].
  destruct (t_find T d name) as [v|] eqn:Hf; cbn [default from_option id]; [|apply wp_ret, wp_ret; by exists T].
  destruct (found_node w T d name v Hr Hf) as (D & E & n & i & HD & Hkid & HE & Hp & Hn & Ent & Hi & Hri & Hv0).
  rewrite (proj2 (Z.eqb_neq v 0)) by done. apply wp_bind. eapply wp_vnode; [done|]. unfold has_type. rewrite HE, Ent.
  destruct (bool_decide (t_type E = VFS_NODE_DIR)); cbn [negb]; [|apply wp_ret, wp_ret; by exists T].
  apply wp_bind. eapply wp_inode; [done|]. cbn [fmap option_fmap option_map]. pose proof (ir_kids _ _ _ _ Hri) as Hsib.
  destruct (t_kids E) as [|c l] eqn:Ek; cbn [sib_list] in Hsib.
  - rewrite Hsib, bool_decide_eq_true_2 by done. cbn [Z.eqb negb]. apply wp_bind. eapply wp_tree_detach; [done|done| |].
    { intros ->. assert (E = D) as -> by congruence. rewrite Ek in Hkid. set_solver. }
    intros w1 Hr1. rewrite (proj2 (Z.eqb_neq v 0)) by done. apply wp_ret, wp_ret. by eexists.
  - destruct Hsib as (-> & Hc0 & _). rewrite (proj2 (Z.eqb_neq c 0)), bool_decide_eq_false_2 by done. cbn [negb].
    apply wp_ret, wp_ret. by exists T.
Qed.

(** ** Every sequence of calls *)
Lemma wp_tree_call w T op :
  tree_rep w T → allowed T op → wp (tree_call op) (λ r w', ∃ T', t_step T op r T' ∧ tree_rep w' T') w.
Proof.
  intros Hr. destruct op; cbn [allowed].
  - intros []. by apply wp_create_file.
  - intros []. by apply wp_create_dir.
  - intros (? & ? & ?). eapply wp_mono; [by apply wp_symlink|]. intros r w' (T' & ? & ? & _). by exists T'.
  - intros (? & ? & ? & ?). by apply wp_link.
  - intros []. by apply wp_tree_unlink.
  - intros []. by apply wp_rmdir.
  - intros Hu. cbn [tree_call t_step]. apply wp_bind. eapply wp_initrd_free; [done|done|]. intros w' Hr'.
    apply wp_ret. by eexists.
Qed.

(** A client that chooses its next call by the results so far; [n] calls of it. *)
Fixpoint drive (n : nat) (client : list (vfs_status * Z) → option tree_op) (past : list (vfs_status * Z)) :
    prog W (list (vfs_status * Z)) :=
  match n with
  | O => mret past
  | S n' =>
      match client past with
      | None => mret past
      | Some op => r ← tree_call op; drive n' client (past ++ [r])
      end
  end.
End calls.

(** The trees a client may see. *)
Inductive reaches (client : list (vfs_status * Z) → option tree_op) (T0 : dtree) : list (vfs_status * Z) → dtree → Prop :=
| reaches_start : reaches client T0 [] T0
| reaches_step past T op r T' :
    reaches client T0 past T → client past = Some op → t_step T op r T' → reaches client T0 (past ++ [r]) T'.

(** What a name in a directory stands for: hard links resolved. *)
Definition t_lookup (T : dtree) (d : Z) (name : list Z) : vfs_status + Z :=
  match t_find T d name with
  | None => inl VFS_STATUS_NOENT
  | Some c => inr (match T !! c with Some D => if t_hard D =? 0 then c else t_hard D | None => c end)
  end.

Section theorem.
Context {A : Type} {alloc_A : Allocator A} {laws_A : AllocatorLaws (2 ^ 61) A} {arena_A : AllocatorArena A}.
Abbreviation W := (vworld (iext A)).
Implicit Types (w : W) (T : dtree).

Lemma wp_drive n client T0 past T w :
  (∀ past T op, reaches client T0 past T → client past = Some op → allowed T op) →
  reaches client T0 past T → tree_rep w T →
  wp (drive n client past) (λ past' w', ∃ T', reaches client T0 past' T' ∧ tree_rep w' T') w.
Proof.
  intros Hall. revert past T w. induction n as [|n IH]; intros past T w Hre Hr; cbn [drive]; [apply wp_ret; by exists T|].
  destruct (client past) as [op|] eqn:Hop; [|apply wp_ret; by exists T]. apply wp_bind.
  eapply wp_mono; [by eapply wp_tree_call, Hall|]. intros r w' (T' & Hst & Hr'). cbn.
  eapply IH; [|exact Hr']. by eapply reaches_step.
Qed.

Lemma rep_lookup w T d D name : tree_rep w T → T !! d = Some D →
  @fs_child (iext A) tree initrd_fs (fs_view (ext w)) d name = t_lookup T d name.
Proof.
  intros [Hs _ _ _] HD. cbn [fs_child fs_view initrd_fs]. rewrite (shape_children _ _ _ _ _ _ Hs HD). unfold t_lookup, t_find.
  rewrite HD. cbn [mbind option_bind].
  rewrite (filter_ext_in _ (λ c, t_name <$> T !! c = Some name)).
  2:{ intros c Hc. destruct (sh_kids _ _ _ _ Hs d D c HD Hc) as (E & HE & _).
      destruct (sh_rep _ _ _ _ Hs c E HE) as (_ & _ & i & Hi & Hri). destruct (ir_name _ _ _ _ Hri) as [Hn Hsz].
      assert (read_bytes (bytes (ext w)) (i_name i) (Z.to_nat (i_name_size i)) = Ret (t_name E)) as Hrd by (apply read_holds; split; [lia|done]).
      unfold named, name_of. cbn [fst snd]. rewrite Hi, Hrd, HE. cbn. rewrite bool_decide_spec. naive_solver. }
  destruct (head _) as [c|] eqn:Eh; [|done]. apply head_Some_elem_of, list_elem_of_filter in Eh as [_ Hc].
  destruct (sh_kids _ _ _ _ Hs d D c HD Hc) as (E & HE & _). destruct (sh_rep _ _ _ _ Hs c E HE) as (_ & _ & i & Hi & Hri).
  unfold target_of. cbn [fst]. by rewrite Hi, HE, (ir_hard _ _ _ _ Hri).
Qed.

(** C7: whatever calls of create, mkdir, symlink, link, unlink, rmdir and free a client makes, each chosen by the results
    so far and with arguments it may pass, the ram disk returns and behaves as the abstract tree of named nodes with
    ordered children: the same statuses, a new node or a clean out-of-memory on creation, refusals without a change, hard
    links removed at once and other nodes detached, the contents of files and the targets of links kept.  The world that results satisfies the invariant the virtual file
    system relies on, and looking up a name finds what the tree has there. *)
Theorem initrd_refines_tree n client w T :
  tree_rep w T → (∀ past T' op, reaches client T past T' → client past = Some op → allowed T' op) →
  ∃ past w' T', drive n client [] w = Ret (past, w') ∧ reaches client T past T' ∧ tree_rep w' T' ∧
    @fs_ok (iext A) tree initrd_fs (nodes w') (fs_view (ext w')) ∧
    ∀ d D name, T' !! d = Some D → @fs_child (iext A) tree initrd_fs (fs_view (ext w')) d name = t_lookup T' d name.
Proof.
  intros Hr Hall. pose proof (wp_drive n client T [] T w Hall (reaches_start _ _) Hr) as Hwp.
  apply wp_inv in Hwp as (past & w' & Hrun & T' & Hre & Hr'). exists past, w', T'. split; [done|]. split; [done|]. split; [done|].
  split; [by eapply shape_fs_ok, Hr'|]. intros d D name HD. by eapply rep_lookup.
Qed.
End theorem.

(** ** An example *)
Definition one_dir : vworld (iext bump) :=
  MkWorld {[100 := dir_node 10 100]} ∅ ∅ ∅ 0 None
    (MkExt {[100 := demo_inode 1100 0 0 0 0]} ∅ ∅ ∅ 1 0 0 (MkBump 5000 3 ∅) (MkBump 9000 100 {[100 := 184]})).
Definition one_tree : dtree := {[100 := MkD VFS_NODE_DIR [] 0 [] 0 []]}.
(** [mkdir a; rmdir a; create b; symlink c -> a; symlink b -> a]: the heap has three blocks, so the first link fails;
    the second finds its name taken. *)
Definition demo_client (past : list (vfs_status * Z)) : option tree_op :=
  match length past with
  | 0%nat => Some (TMkdir 100 [97])
  | 1%nat => Some (TRmdir 100 [97])
  | 2%nat => Some (TCreate 100 [98])
  | 3%nat => Some (TSymlink 100 [99] [97])
  | 4%nat => Some (TSymlink 100 [98] [97])
  | _ => None
  end.

Lemma one_rep : tree_rep one_dir one_tree.
Proof.
  unfold one_tree. split.
  - split.
    + intros a. cbn. destruct (decide (a = 100)) as [->|]; [by split; eexists|]. by rewrite !lookup_singleton_ne.
    + intros a. cbn. destruct (decide (a = 100)) as [->|]; [by split; eexists|]. by rewrite !lookup_singleton_ne.
    + intros a D [<- <-]%lookup_singleton_Some. split; [done|]. split; [eexists; by split|]. eexists. split; [done|]. by split.
    + intros a D c [<- <-]%lookup_singleton_Some Hc. cbn in Hc. set_solver.
    + intros a D [<- <-]%lookup_singleton_Some. apply NoDup_nil_2.
    + intros a D [<- <-]%lookup_singleton_Some. by left.
    + intros a D [<- <-]%lookup_singleton_Some. by left.
  - split; [split; [split; [done|]|done]|split|]; cbn; try (intros *; by rewrite lookup_empty).
  - split; [split; [split; [done|]|done]|split|]; cbn.
    + intros p n [<- <-]%lookup_singleton_Some. lia.
    + intros p n [<- <-]%lookup_singleton_Some. lia.
    + intros p k q j [<- <-]%lookup_singleton_Some [<- <-]%lookup_singleton_Some. done.
    + intros a [D [<- _]%lookup_singleton_Some]. by eexists.
  - split; cbn.
    + intros a i [<- <-]%lookup_singleton_Some. cbn. lia.
    + intros a i [<- <-]%lookup_singleton_Some. done.
    + intros a i D [<- <-]%lookup_singleton_Some [_ <-]%lookup_singleton_Some. done.
    + intros a i [<- <-]%lookup_singleton_Some. apply NoDup_nil_2.
    + intros a b i j p [<- <-]%lookup_singleton_Some [<- <-]%lookup_singleton_Some. done.
    + intros a D [<- <-]%lookup_singleton_Some. done.
Qed.

Lemma t_new_keeps T d D b r T' a : t_new T d D b r T' → is_Some (T !! a) → is_Some (T' !! a).
Proof.
  intros [[_ ->]|(v & _ & _ & _ & ->)] Ha; [done|]. unfold t_add. destruct (decide (a = v)) as [->|].
  - rewrite lookup_insert_eq. by eexists.
  - by rewrite lookup_insert_ne, lookup_alter_is_Some.
Qed.
Lemma demo_client_keeps past T : reaches demo_client one_tree past T → is_Some (T !! 100).
Proof.
  induction 1 as [|past T op r T' _ IH Hop Hst]; [by eexists|]. unfold demo_client in Hop.
  destruct (length past) as [|[|[|[|[|k]]]]]; try done; injection Hop as <-; cbn [t_step] in Hst;
    repeat case_match; try (by destruct Hst as [_ ->]); try (by eapply t_new_keeps).
  destruct Hst as [_ ->]. unfold t_detach. by rewrite !lookup_alter_is_Some.
Qed.

Lemma initrd_refines_tree_witness :
  ∃ past w' T', drive 5 demo_client [] one_dir = Ret (past, w') ∧ reaches demo_client one_tree past T' ∧
    past = [(VFS_STATUS_OK, 9000); (VFS_STATUS_OK, 0); (VFS_STATUS_OK, 9184); (VFS_STATUS_NOMEM, 0); (VFS_STATUS_EXISTS, 0)] ∧
    @fs_child (iext bump) tree initrd_fs (fs_view (ext w')) 100 [98] = inr 9184.
Proof.
  destruct (initrd_refines_tree 5 demo_client one_dir one_tree) as (past & w' & T' & Hrun & Hre & _ & _ & Hl).
  - apply one_rep.
  - intros past T op Hre Hop. pose proof (demo_client_keeps _ _ Hre) as H. unfold demo_client in Hop.
    assert (known T 100) as Hk by (by right). assert (∀ a, short [a]) as Hsh by (intros a; unfold short; cbn; lia).
    destruct (length past) as [|[|[|[|[|k]]]]]; try done; injection Hop as <-; by split_and!.
  - exists past, w', T'. split; [exact Hrun|]. split; [exact Hre|].
    assert (∃ w2, drive 5 demo_client [] one_dir =
      Ret ([(VFS_STATUS_OK, 9000); (VFS_STATUS_OK, 0); (VFS_STATUS_OK, 9184); (VFS_STATUS_NOMEM, 0); (VFS_STATUS_EXISTS, 0)], w2) ∧
      @fs_child (iext bump) tree initrd_fs (fs_view (ext w2)) 100 [98] = inr 9184) as (w2 & Hrun2 & Hc)
      by (eexists; split; vm_compute; reflexivity).
    rewrite Hrun in Hrun2. injection Hrun2 as -> ->. split; [done|exact Hc].
Defined.
