(* ===== verification/Ustar.v ===== *)
(** * Ustar: the loader of the ram disk, [kernel/fs/initrd.c] and [ustar.h]

    [load_ustar] walks the headers of a tar archive in memory and makes an inode
    for every entry; the names and contents of files stay in the archive.  A
    string is the address of its bytes here, because the loader computes
    positions in it and reads until it finds what it looks for. *)
From S2P Require Import Prelude Alloc Vfs Initrd.

Definition HOJICHA_USTAR_HEADER_LEN_BYTES : Z := 512.
Definition USTAR_TYPE_REGULAR_FILE : Z := 48.
Definition USTAR_TYPE_REGULAR_FILE_ALT : Z := 0.
Definition USTAR_TYPE_SYMBOLIC_LINK : Z := 50.
Definition USTAR_TYPE_DIRECTORY : Z := 53.

(** The offsets of the fields in [struct ustar_header]. *)
Definition filesize_bytes_oct : Z := 124.
Definition lmut_oct : Z := 136.
Definition type_field : Z := 156.
Definition linked_filename : Z := 157.

(** A [char] is signed. *)
Definition s8 (b : Z) : Z := if b <? 128 then b else b - 256.
Definition c_dot : Z := 46.

Section ustar.
Context {A : Type} {alloc_A : Allocator A}.
Abbreviation W := (vworld (iext A)).
Implicit Types (w : W).

(** [p[i]]. *)
Definition char_at (p i : Z) : prog W Z := x ← gets ext; lift (deref (bytes x !! u64 (p + i))).

(** [while (size > 0 && str[size - 1] == '\0') size--]. *)
Fixpoint oct_trim (str : Z) (size : nat) : prog W nat :=
  match size with
  | O => mret O
  | S k => c ← char_at str (Z.of_nat k); if c =? 0 then oct_trim str k else mret size
  end.
Fixpoint oct_loop (str : Z) (left : nat) (i n : Z) : prog W Z :=
  match left with
  | O => mret n
  | S left' => c ← char_at str i; oct_loop str left' (i + 1) (u64 (u64 (n * 8) + (s8 c - 48)))
  end.
Definition ustar_oct2dec (str : Z) (size : nat) : prog W Z :=
  size ← oct_trim str size; oct_loop str size 0 0.

(** Searches end: they read a new byte in each step, and leave the memory at the
    latest when they have read all of it. *)
Definition scan_fuel : prog W nat := x ← gets ext; mret (S (size (bytes x))).

Fixpoint entry_len_loop (fuel : nat) (filename len : Z) : prog W Z :=
  match fuel with
  | O => diverge
  | S fuel' => c ← char_at filename len; if c =? 0 then mret len else entry_len_loop fuel' filename (u64 (len + 1))
  end.
Definition get_entry_len (filename : Z) : prog W Z := fuel ← scan_fuel; entry_len_loop fuel filename 0.

Definition get_header_size (header : Z) : prog W Z :=
  file_size ← ustar_oct2dec (header + filesize_bytes_oct) 12;
  mret (u64 (u64 (u64 (file_size + 511) / 512 + 1) * 512)).

(** [while (len > 0 && filename[len - 1] == '/') len--]. *)
Fixpoint name_trim_loop (fuel : nat) (filename len : Z) : prog W Z :=
  match fuel with
  | O => diverge
  | S fuel' =>
      if 0 <? len then
        c ← char_at filename (len - 1);
        if c =? c_slash then name_trim_loop fuel' filename (len - 1) else mret len
      else mret len
  end.
(** [while (filename[len] != '/') --len]: without a slash it goes on below the header. *)
Fixpoint name_start_loop (fuel : nat) (filename len : Z) : prog W Z :=
  match fuel with
  | O => diverge
  | S fuel' => c ← char_at filename len; if c =? c_slash then mret len else name_start_loop fuel' filename (u64 (len - 1))
  end.
Definition get_name_start_idx (filename len : Z) : prog W Z :=
  fuel ← scan_fuel;
  len ← name_trim_loop fuel filename len;
  len ← name_start_loop fuel filename (u64 (len - 1));
  mret (u64 (len + 1)).

(** [while (i < path_len && path[i] == '/') i++] and its opposite. *)
Fixpoint scan_loop (fuel : nat) (slashes : bool) (path path_len i : Z) : prog W Z :=
  match fuel with
  | O => diverge
  | S fuel' =>
      if i <? path_len then
        c ← char_at path i;
        if eqb (c =? c_slash) slashes then scan_loop fuel' slashes path path_len (i + 1) else mret i
      else mret i
  end.
(** The leading [./]. *)
Definition path_begin (path path_len : Z) : prog W Z :=
  if 2 <=? path_len then
    c ← char_at path 0;
    if c =? c_dot then c' ← char_at path 1; mret (if c' =? c_slash then 2 else 0) else mret 0
  else mret 0.

Fixpoint dir_lookup_loop (fuel : nat) (path path_len path_start ret : Z) : prog W Z :=
  match fuel with
  | O => diverge
  | S fuel' =>
      if path_start <? path_len then
        n ← scan_fuel;
        path_start ← scan_loop n true path path_len path_start;
        if path_len <=? path_start then mret ret
        else
          path_end ← scan_loop n false path path_len path_start;
          name ← read_mem (u64 (path + path_start)) (Z.to_nat (path_end - path_start));
          r ← inode ret;
          next ← find_child (i_first_child r) name;
          if next =? 0 then mret 0
          else
            v ← node next;
            if negb (bool_decide (n_type v = VFS_NODE_DIR)) then mret 0
            else dir_lookup_loop fuel' path path_len (u64 (path_end + 1)) next
      else mret ret
  end.
Definition dir_lookup (path path_len root : Z) : prog W Z :=
  if root =? 0 then mret 0
  else
    path_start ← path_begin path path_len;
    fuel ← scan_fuel;
    dir_lookup_loop fuel path path_len path_start root.

Fixpoint prefix_loop (fuel : nat) (path path_len path_start ret : Z) : prog W Z :=
  match fuel with
  | O => diverge
  | S fuel' =>
      if path_start <? path_len then
        n ← scan_fuel;
        path_start ← scan_loop n true path path_len path_start;
        if path_len <=? path_start then mret ret
        else
          path_end ← scan_loop n false path path_len path_start;
          name ← read_mem (u64 (path + path_start)) (Z.to_nat (path_end - path_start));
          r ← inode ret;
          next ← find_child (i_first_child r) name;
          if next =? 0 then
            next ← create_dir name ret;
            _ ← add_child ret next;
            prefix_loop fuel' path path_len (u64 (path_end + 1)) next
          else
            v ← node next;
            if negb (bool_decide (n_type v = VFS_NODE_DIR)) then mret 0
            else prefix_loop fuel' path path_len (u64 (path_end + 1)) next
      else mret ret
  end.
Definition get_or_create_prefix (path path_len root : Z) : prog W Z :=
  ret ← dir_lookup path path_len root;
  if negb (ret =? 0) then mret ret
  else
    path_start ← path_begin path path_len;
    fuel ← scan_fuel;
    prefix_loop fuel path path_len path_start root.

Fixpoint zero_loop (left : nat) (block i : Z) : prog W bool :=
  match left with
  | O => mret true
  | S left' => c ← char_at block i; if c =? 0 then zero_loop left' block (i + 1) else mret false
  end.
Definition is_zero_block (block : Z) : prog W bool :=
  zero_loop (Z.to_nat HOJICHA_USTAR_HEADER_LEN_BYTES) block 0.

(** [(int64_t)ustar_oct2dec(h->lmut_oct, 12)], and the times of an inode. *)
Definition header_time (h : Z) : prog W Z := t ← ustar_oct2dec (h + lmut_oct) 12; mret (s64 t).
Definition stamp (a h : Z) : prog W unit :=
  t ← header_time h; _ ← set_inode_timestamps a t t t; sync_vnode_timestamps a.
(** The directory an entry belongs to. *)
Definition entry_parent (h name_offset root : Z) : prog W Z :=
  if name_offset =? 2 then mret root else get_or_create_prefix h name_offset root.

(** The entries by their type; each says how to go on: [None], or the status to return. *)
Definition load_file (h root entry_len : Z) : prog W (option vfs_status) :=
  name_offset ← get_name_start_idx h entry_len;
  new ← calloc_inode;
  if new =? 0 then mret (Some VFS_STATUS_NOMEM)
  else
    len ← ustar_oct2dec (h + filesize_bytes_oct) 12;
    _ ← update_inode new (with_len len);
    _ ← update_inode new (λ i, with_buf (i_buf i) (i_len i) false i);
    _ ← update_inode new (with_name (u64 (h + name_offset)) (u64 (entry_len - name_offset)) false);
    _ ← update_inode new (λ i, with_buf (u64 (h + HOJICHA_USTAR_HEADER_LEN_BYTES)) (i_bufsize i) (i_buf_owned i) i);
    _ ← update_inode new (with_hard_target 0);
    _ ← update_inode new (with_first_child 0);
    _ ← update_inode new (with_next 0);
    number ← next_number;
    _ ← update_inode new (with_number number);
    t ← header_time h;
    _ ← set_inode_timestamps new t t t;
    _ ← init_vnode new VFS_NODE_FILE;
    parent ← entry_parent h name_offset root;
    if parent =? 0 then _ ← slab_free new; mret (Some VFS_STATUS_NOTDIR)
    else
      _ ← update_inode new (with_parent parent);
      _ ← add_child parent new;
      mret None.
Definition load_link (h root entry_len : Z) : prog W (option vfs_status) :=
  name_offset ← get_name_start_idx h entry_len;
  target_len ← get_entry_len (h + linked_filename);
  parent ← entry_parent h name_offset root;
  if parent =? 0 then mret (Some VFS_STATUS_NOTDIR)
  else
    name ← read_mem (u64 (h + name_offset)) (Z.to_nat (u64 (entry_len - name_offset)));
    target ← read_mem (u64 (h + linked_filename)) (Z.to_nat target_len);
    '(status, created) ← initrd_symlink parent name target;
    if negb (bool_decide (status = VFS_STATUS_OK)) then mret (Some status)
    else
      c ← node created;
      _ ← stamp (n_fs_data c) h;
      _ ← vfs_vnode_release initrd_ops created;
      mret None.
Definition load_directory (h root entry_len : Z) : prog W (option vfs_status) :=
  entry_len ← (if 0 <? entry_len then
                 c ← char_at h (entry_len - 1); mret (if c =? c_slash then entry_len - 1 else entry_len)
               else mret entry_len);
  if 2 <? entry_len then
    name_offset ← get_name_start_idx h entry_len;
    parent ← entry_parent h name_offset root;
    if parent =? 0 then mret (Some VFS_STATUS_NOTDIR)
    else
      p ← inode parent;
      name ← read_mem (u64 (h + name_offset)) (Z.to_nat (u64 (entry_len - name_offset)));
      dir ← find_child (i_first_child p) name;
      if dir =? 0 then
        dir ← create_dir name parent;
        if dir =? 0 then mret (Some VFS_STATUS_NOMEM)
        else _ ← add_child parent dir; _ ← stamp dir h; mret None
      else _ ← stamp dir h; mret None
  else mret None.

(** [entry_len == 2 && memcmp(h->filename, "./", 2) == 0]. *)
Definition is_root_entry (h entry_len : Z) : prog W bool :=
  if entry_len =? 2 then l ← read_mem h 2; mret (bool_decide (l = [c_dot; c_slash])) else mret false.
Definition load_entry (h root entry_len : Z) : prog W (option vfs_status) :=
  is_root ← is_root_entry h entry_len;
  if (is_root : bool) then _ ← stamp root h; mret None
  else
    ty ← char_at h type_field;
    if (ty =? USTAR_TYPE_REGULAR_FILE) || (ty =? USTAR_TYPE_REGULAR_FILE_ALT) then load_file h root entry_len
    else if ty =? USTAR_TYPE_SYMBOLIC_LINK then load_link h root entry_len
    else if ty =? USTAR_TYPE_DIRECTORY then load_directory h root entry_len
    else mret None.

(** Entries take up at least their header, so there are no more than
    [size / 512]; a size field for which the step wraps to zero makes the code
    load the same entry again and again, which exhausts the bound here. *)
Fixpoint load_loop (fuel : nat) (buffer size buf_pos root : Z) : prog W (option vfs_status) :=
  match fuel with
  | O => diverge
  | S fuel' =>
      if u64 (buf_pos + HOJICHA_USTAR_HEADER_LEN_BYTES) <=? size then
        let h := buffer + buf_pos in
        zero ← is_zero_block h;
        if (zero : bool) then mret None
        else
          entry_len ← get_entry_len h;
          header_size ← get_header_size h;
          st ← load_entry h root entry_len;
          match st with
          | Some s => mret (Some s)
          | None => load_loop fuel' buffer size (u64 (buf_pos + header_size)) root
          end
      else mret None
  end.
Definition load_ustar (buffer size : Z) : prog W (vfs_status * Z) :=
  root ← create_root;
  if root =? 0 then mret (VFS_STATUS_NOMEM, 0)
  else
    st ← load_loop (S (Z.to_nat (size / 512))) buffer size 0 root;
    match st with
    | Some s => mret (s, 0)
    | None =>
        m ← slab_calloc SIZEOF_VFS_MOUNT;
        if m =? 0 then mret (VFS_STATUS_NOMEM, 0)
        else
          _ ← modify (λ w, set_mounts (<[m := MkMount 0 root 0 0]> (mounts w)) w);
          mret (VFS_STATUS_OK, m)
    end.

(** [initrd_initalize]; the argument is what [bootmodule_get] returns. *)
Definition initrd_initalize (module : option (Z * Z)) : prog W vfs_status :=
  match module with
  | None => mret VFS_STATUS_NOENT
  | Some (address, size) =>
      '(ret, initrd) ← load_ustar address size;
      if negb (bool_decide (ret = VFS_STATUS_OK)) then mret ret
      else vfs_mount_root initrd_ops initrd
  end.
End ustar.
