(* ===== verification/UstarThm.v ===== *)
(** * UstarThm: the loader builds the tree of the archive

    An archive is a list of entries; [archive] says where the bytes of each are.
    The searches of the loader through the header fields are shown to find the
    parts of a path, and the loader to make the node of every entry. *)
From S2P Require Import Prelude Alloc Vfs VfsWalk Initrd InitrdFs InitrdMem InitrdTree InitrdDir InitrdDirThm InitrdCalls Ustar.

(** ** Reading the archive *)
Definition oct_value (ds : list Z) : Z := foldl (λ n d, n * 8 + (d - 48)) 0 ds.
Lemma oct_value_snoc ds d : oct_value (ds ++ [d]) = oct_value ds * 8 + (d - 48).
Proof. unfold oct_value. by rewrite foldl_app. Qed.
Lemma oct_value_bound ds : Forall (λ d, 48 ≤ d < 56) ds → 0 ≤ oct_value ds < 8 ^ Z.of_nat (length ds).
Proof.
  induction ds as [|d ds IH] using rev_ind; [done|]. rewrite Forall_app, Forall_singleton. intros [Hds Hd]. specialize (IH Hds).
  rewrite oct_value_snoc, length_app, Nat2Z.inj_add, Z.pow_add_r by lia. cbn [length]. change (8 ^ Z.of_nat 1) with 8. lia.
Qed.

Section reading.
Context {A : Type} {alloc_A : Allocator A}.
Abbreviation W := (vworld (iext A)).
Implicit Types (w : W) (m : gmap Z Z).

Lemma holds_size m p l : holds m p l → (length l ≤ size m)%nat.
Proof.
  intros Hl. assert (NoDup ((λ k : nat, p + Z.of_nat k) <$> seq 0 (length l))) as Hnd
    by (apply NoDup_fmap_2; [intros ? ? ?; lia|apply NoDup_seq]).
  rewrite <- size_dom, <- (length_seq (length l) 0), <- (length_fmap (λ k : nat, p + Z.of_nat k)).
  rewrite <- (size_list_to_set (C := gset Z) _ Hnd). apply subseteq_size. intros x Hx%elem_of_list_to_set.
  apply list_elem_of_fmap in Hx as (k & -> & Hk%elem_of_seq). apply elem_of_dom.
  destruct (lookup_lt_is_Some_2 l k) as [c Hc]; [lia|]. exists c. by apply Hl.
Qed.

Section string.
Context (w : W) (p : Z) (l : list Z).
Context (Hl : holds (bytes (ext w)) p l) (Hp : 0 ≤ p) (Hend : p + Z.of_nat (length l) < 2 ^ 64).

Lemma char_run k c : l !! k = Some c → char_at p (Z.of_nat k) w = Ret (c, w).
Proof using Hend Hl Hp.
  intros Hc. pose proof (lookup_lt_Some _ _ _ Hc) as Hk. unfold char_at.
  rewrite (bind_run (gets ext) _ w (ext w) w eq_refl), u64_small by (unfold is_u64; lia). by rewrite (Hl k c Hc).
Qed.
Lemma bind_char {B} k c (f : Z → prog W B) : l !! k = Some c → (char_at p (Z.of_nat k) ≫= f) w = f c w.
Proof using Hend Hl Hp. intros Hc. apply bind_run. by apply char_run. Qed.
Lemma scan_fuel_run {B} (f : nat → prog W B) : (scan_fuel ≫= f) w = f (S (size (bytes (ext w)))) w.
Proof. done. Qed.

(** *** The length of a string *)
Lemma entry_len_run s r : l = s ++ 0 :: r → 0 ∉ s → get_entry_len p w = Ret (Z.of_nat (length s), w).
Proof using Hend Hl Hp.
  intros El H0. unfold get_entry_len. rewrite scan_fuel_run. pose proof (holds_size _ _ _ Hl) as Hsz. rewrite El, length_app in Hsz.
  cbn [length] in Hsz.
  enough (∀ n k fuel, (k + n = length s)%nat → (n < fuel)%nat →
    entry_len_loop fuel p (Z.of_nat k) w = Ret (Z.of_nat (length s), w)) as Hloop
    by (apply (Hloop (length s) 0%nat); lia).
  induction n as [|n IH]; intros k fuel Hk Hf; (destruct fuel as [|fuel]; [lia|]); cbn [entry_len_loop].
  - erewrite bind_char; [|rewrite El, lookup_app_r by lia; replace (k - length s)%nat with 0%nat by lia; done]. cbn [Z.eqb].
    by replace k with (length s) by lia.
  - destruct (lookup_lt_is_Some_2 s k) as [c Hc]; [lia|].
    erewrite bind_char; [|rewrite El, lookup_app_l by lia; exact Hc].
    rewrite (proj2 (Z.eqb_neq c 0)) by (intros ->; apply H0; by eapply list_elem_of_lookup_2).
    rewrite El, length_app in Hend. cbn [length] in Hend.
    rewrite u64_small by (unfold is_u64; lia). replace (Z.of_nat k + 1) with (Z.of_nat (S k)) by lia. apply IH; lia.
Qed.

(** *** Octal numbers *)
Lemma oct_trim_run ds n : l = ds ++ replicate n 0 → Forall (λ d, 48 ≤ d < 56) ds →
  oct_trim p (length l) w = Ret (length ds, w).
Proof using Hend Hl Hp.
  intros El Hd. assert (length l = length ds + n)%nat as -> by (by rewrite El, length_app, length_replicate).
  assert (∀ k, (k ≤ n)%nat → oct_trim p (length ds + k) w = Ret (length ds, w)) as H; [|by apply H].
  induction k as [|k IH]; intros Hk.
  - rewrite Nat.add_0_r. destruct (exists_last_or_nil ds) as [->|(ds' & d & E)]; [done|].
    assert (length ds = S (length ds')) as Elen by (rewrite E, length_app; cbn; lia). rewrite Elen. cbn [oct_trim].
    erewrite bind_char; [|rewrite El, E, <- app_assoc; by apply list_lookup_middle].
    rewrite E in Hd. apply Forall_app in Hd as [_ Hd]. apply Forall_cons in Hd as [Hd _].
    rewrite (proj2 (Z.eqb_neq d 0)) by lia. done.
  - rewrite Nat.add_succ_r. cbn [oct_trim].
    erewrite bind_char; [|rewrite El, lookup_app_r by lia; replace (length ds + k - length ds)%nat with k by lia; by apply lookup_replicate_2].
    cbn [Z.eqb]. apply IH. lia.
Qed.
Lemma oct_loop_run ds r : l = ds ++ r → Forall (λ d, 48 ≤ d < 56) ds → (length ds ≤ 12)%nat →
  oct_loop p (length ds) 0 0 w = Ret (oct_value ds, w).
Proof using Hend Hl Hp.
  intros El Hd Hlen.
  enough (∀ t done, ds = done ++ t → oct_loop p (length t) (Z.of_nat (length done)) (oct_value done) w = Ret (oct_value ds, w)) as H
    by (by apply (H ds [])).
  induction t as [|d t IH]; intros dn E; cbn [length oct_loop]; [by rewrite E, app_nil_r|].
  erewrite bind_char; [|rewrite El, E, <- app_assoc; by apply list_lookup_middle].
  assert (Forall (λ d, 48 ≤ d < 56) (dn ++ [d])) as Hd'.
  { rewrite E in Hd. apply Forall_app in Hd as [H1 H2]. apply Forall_cons in H2 as [H2 _]. by apply Forall_app; split; [|apply Forall_singleton]. }
  pose proof (oct_value_bound _ Hd') as Hb. rewrite oct_value_snoc in Hb.
  assert (8 ^ Z.of_nat (length (dn ++ [d])) ≤ 8 ^ 12) as Hpow.
  { apply Z.pow_le_mono_r; [lia|]. rewrite E, length_app in Hlen. rewrite length_app. cbn [length] in *. lia. }
  apply Forall_app in Hd' as [Hd1 Hd2]. apply Forall_cons in Hd2 as [Hd2 _]. pose proof (oct_value_bound _ Hd1).
  unfold s8. rewrite (proj2 (Z.ltb_lt d 128)) by lia. rewrite (u64_small (_ * 8)) by (unfold is_u64; lia).
  rewrite u64_small by (unfold is_u64; lia). rewrite <- oct_value_snoc.
  replace (Z.of_nat (length dn) + 1) with (Z.of_nat (length (dn ++ [d]))) by (rewrite length_app; cbn; lia).
  apply IH. by rewrite <- app_assoc.
Qed.
Lemma oct2dec_run ds n : l = ds ++ replicate n 0 → Forall (λ d, 48 ≤ d < 56) ds → length l = 12%nat →
  ustar_oct2dec p 12 w = Ret (oct_value ds, w).
Proof using Hend Hl Hp.
  intros El Hd Hlen. unfold ustar_oct2dec. rewrite <- Hlen. rewrite (bind_run _ _ _ _ _ (oct_trim_run ds n El Hd)).
  eapply oct_loop_run; [exact El|done|]. rewrite El, length_app in Hlen. lia.
Qed.

(** *** The start of the last name *)
Lemma name_start_run pre name r : l = pre ++ c_slash :: name ++ r → name ≠ [] → c_slash ∉ name →
  get_name_start_idx p (Z.of_nat (length (pre ++ c_slash :: name))) w = Ret (Z.of_nat (S (length pre)), w).
Proof using Hend Hl Hp.
  intros El Hne Hns. pose proof (holds_size _ _ _ Hl) as Hsz. pose proof Hend as Hend'. rewrite El in Hsz, Hend'.
  rewrite !length_app in Hsz, Hend'. cbn [length] in Hsz, Hend'. rewrite !length_app in Hsz, Hend'.
  unfold get_name_start_idx. rewrite scan_fuel_run. rewrite length_app. cbn [length].
  assert (∀ k, (k < length name)%nat → ∃ c, c ≠ c_slash ∧ l !! (S (length pre + k)) = Some c) as Hname.
  { intros k Hk. destruct (lookup_lt_is_Some_2 name k Hk) as [c Hc]. exists c. split; [intros ->; apply Hns; by eapply list_elem_of_lookup_2|].
    rewrite El, lookup_app_r by lia. replace (S (length pre + k) - length pre)%nat with (S k) by lia.
    change ((name ++ r) !! k = Some c). by rewrite lookup_app_l. }
  destruct (Hname (length name - 1)%nat) as (c & Hc & Hlc); [destruct name; [done|cbn; lia]|].
  assert (0 < length name)%nat by (destruct name; [done|cbn; lia]).
  erewrite (bind_run (name_trim_loop _ _ _) _ w); cycle 1.
  { cbn [name_trim_loop]. rewrite (proj2 (Z.ltb_lt _ _)) by lia.
    replace (Z.of_nat (length pre + S (length name)) - 1) with (Z.of_nat (S (length pre + (length name - 1)))) by lia.
    rewrite (bind_char _ _ _ Hlc). rewrite (proj2 (Z.eqb_neq c c_slash)) by done. done. }
  rewrite u64_small by (unfold is_u64; lia).
  enough (∀ k fuel, (k ≤ length name)%nat → (k < fuel)%nat →
    name_start_loop fuel p (Z.of_nat (length pre + k)) w = Ret (Z.of_nat (length pre), w)) as Hlow.
  { replace (Z.of_nat (length pre + S (length name)) - 1) with (Z.of_nat (length pre + length name)) by lia.
    erewrite bind_run by (apply Hlow; lia). rewrite u64_small by (unfold is_u64; lia). by rewrite Nat2Z.inj_succ. }
  induction k as [|k IH]; intros fuel Hk Hf; (destruct fuel as [|fuel]; [lia|]); cbn [name_start_loop].
  - rewrite Nat.add_0_r. erewrite bind_char; [|rewrite El; by apply list_lookup_middle]. done.
  - destruct (Hname k) as (d & Hd & Hld); [lia|]. rewrite Nat.add_succ_r. rewrite (bind_char _ _ _ Hld).
    rewrite (proj2 (Z.eqb_neq d c_slash)) by done. rewrite u64_small by (unfold is_u64; lia).
    replace (Z.of_nat (S (length pre + k)) - 1) with (Z.of_nat (length pre + k)) by lia. apply IH; lia.
Qed.

(** *** Components of a path *)
Lemma scan_run (slashes : bool) path_len a b fuel :
  (a ≤ b)%nat → Z.of_nat b ≤ path_len → (b - a < fuel)%nat →
  (∀ k, (a ≤ k < b)%nat → ∃ c, l !! k = Some c ∧ eqb (c =? c_slash) slashes = true) →
  (Z.of_nat b < path_len → ∃ c, l !! b = Some c ∧ eqb (c =? c_slash) slashes = false) →
  scan_loop fuel slashes p path_len (Z.of_nat a) w = Ret (Z.of_nat b, w).
Proof using Hend Hl Hp.
  intros Hab Hb Hf Hin Hout. remember (b - a)%nat as n eqn:En. revert a fuel Hab Hf Hin En.
  induction n as [|n IH]; intros a fuel Hab Hf Hin En; (destruct fuel as [|fuel]; [lia|]); cbn [scan_loop].
  - assert (a = b) as -> by lia. destruct (Z.ltb_spec (Z.of_nat b) path_len) as [Hlt|]; [|done].
    destruct (Hout Hlt) as (c & Hc & E). rewrite (bind_char _ _ _ Hc), E. done.
  - rewrite (proj2 (Z.ltb_lt _ _)) by lia. destruct (Hin a) as (c & Hc & E); [lia|]. rewrite (bind_char _ _ _ Hc), E.
    replace (Z.of_nat a + 1) with (Z.of_nat (S a)) by lia. apply IH; [lia|lia| |lia]. intros k Hk. apply Hin. lia.
Qed.
Lemma read_mem_run a n s r : l = a ++ s ++ r → n = length s → read_mem (u64 (p + Z.of_nat (length a))) n w = Ret (s, w).
Proof using Hend Hl Hp.
  intros El ->. pose proof Hend as Hend'. rewrite El, !length_app in Hend'. rewrite u64_small by (unfold is_u64; lia).
  unfold read_mem. rewrite (bind_run (gets ext) _ w (ext w) w eq_refl).
  assert (read_bytes (bytes (ext w)) (p + Z.of_nat (length a)) (length s) = Ret s) as Hr; [|unfold lift; by rewrite Hr].
  apply read_holds. split; [done|]. rewrite El in Hl. apply holds_app in Hl as [_ Hl']. by apply holds_app in Hl' as [Hl' _].
Qed.
End string.
End reading.

(** ** Paths *)

(** The node a list of names leads to. *)
Fixpoint t_path (T : dtree) (d : Z) (p : list (list Z)) : option Z :=
  match p with [] => Some d | c :: p' => v ← t_find T d c; t_path T v p' end.
(** The bytes of a list of directories, each with its slash. *)
Definition join (dirs : list (list Z)) : list Z := concat ((λ c, c ++ [c_slash]) <$> dirs).
Definition comp_ok (c : list Z) : Prop := c ≠ [] ∧ (c_slash ∉ c) ∧ (0 ∉ c).
Definition dot_slash : list Z := [c_dot; c_slash].

Lemma t_path_app T d p q : t_path T d (p ++ q) = (v ← t_path T d p; t_path T v q).
Proof. revert d. induction p as [|c p IH]; intros d; cbn; [done|]. destruct (t_find T d c) as [v|]; cbn; [apply IH|done]. Qed.
Lemma join_app p q : join (p ++ q) = join p ++ join q.
Proof. unfold join. by rewrite fmap_app, concat_app. Qed.

Section lookup.
Context {A : Type} {alloc_A : Allocator A} {laws_A : AllocatorLaws (2 ^ 61) A} {arena_A : AllocatorArena A}.
Abbreviation W := (vworld (iext A)).
Implicit Types (w : W) (N : gmap Z vfs_node) (I : gmap Z initrd_inode) (h s : A) (m : gmap Z Z) (T : dtree) (D : dnode).

Lemma wp_run {B} (f : prog W B) w a w' (Q : B → W → Prop) : f w = Ret (a, w') → Q a w' → wp f Q w.
Proof. intros Hf HQ. unfold wp. by rewrite Hf. Qed.

(** A node with a child is a directory. *)
Lemma parent_is_dir N I m T d D c v : shape N I m T → T !! d = Some D → t_find T d c = Some v → t_type D = VFS_NODE_DIR.
Proof.
  intros Hs HD (D' & HD' & Hv)%find_some. assert (D' = D) as -> by congruence.
  destruct (sh_kids _ _ _ _ Hs d D v HD Hv) as (E & HE & Hp). destruct (sh_parent _ _ _ _ Hs v E HE) as [H0|(F & HF & HFt)]; [|congruence].
  destruct (sh_rep _ _ _ _ Hs d D HD). congruence.
Qed.
Lemma find_in N I m T d c v : shape N I m T → t_find T d c = Some v →
  v ≠ 0 ∧ ∃ D E, T !! d = Some D ∧ T !! v = Some E ∧ t_parent E = d ∧ t_name E = c.
Proof.
  intros Hs. unfold t_find. destruct (T !! d) as [D|] eqn:HD; [|done]. cbn [mbind option_bind]. intros E.
  apply head_Some_elem_of, list_elem_of_filter in E as [Hn Hv]. destruct (sh_kids _ _ _ _ Hs d D v HD Hv) as (E & HE & Hp).
  split; [by eapply sh_rep|]. exists D, E. split_and!; try done. rewrite HE in Hn. cbn in Hn. congruence.
Qed.

Section walk.
Context (w : W) (N N' : gmap Z vfs_node) (I I' : gmap Z initrd_inode) (m m' : gmap Z Z) (h s : A) (T : dtree).
Context (Hv : view w N' I' m' h s) (Hs : shape N I m T) (HN : N ⊆ N') (HI : I ⊆ I') (Hm : m ⊆ m').
Context (p : Z) (dirs : list (list Z)) (r : list Z).
Context (Hl : holds m' p (dot_slash ++ join dirs ++ r)) (Hp : 0 ≤ p) (Hend : p + Z.of_nat (length (dot_slash ++ join dirs ++ r)) < 2 ^ 64).
Context (Hok : Forall comp_ok dirs).

Lemma walk_bytes : holds (bytes (ext w)) p (dot_slash ++ join dirs ++ r).
Proof using Hl Hv. by rewrite (vw_bytes _ _ _ _ _ _ Hv). Qed.

(** The bytes of one component. *)
Lemma comp_bytes dn c todo (a := length (dot_slash ++ join dn)) : dirs = dn ++ c :: todo →
  dot_slash ++ join dirs ++ r = (dot_slash ++ join dn) ++ c ++ c_slash :: join todo ++ r ∧
  length (dot_slash ++ join dirs) = (a + length c + 1 + length (join todo))%nat ∧ (0 < length c)%nat ∧
  (∀ k, (k < length c)%nat → ∃ x, (dot_slash ++ join dirs ++ r) !! (a + k)%nat = Some x ∧ x ≠ c_slash) ∧
  (dot_slash ++ join dirs ++ r) !! (a + length c)%nat = Some c_slash.
Proof using Hok.
  intros Ed. rewrite Ed in Hok. apply Forall_app in Hok as [_ Hoc]. apply Forall_cons in Hoc as [(Hc0 & Hcs & _) _].
  assert (dot_slash ++ join dirs ++ r = (dot_slash ++ join dn) ++ c ++ c_slash :: join todo ++ r) as El.
  { rewrite Ed, join_app. unfold join at 2. cbn [fmap list_fmap concat]. by rewrite <- !app_assoc. }
  split; [done|]. split; [|split; [destruct c; [done|cbn; lia]|]].
  { rewrite Ed, join_app. unfold join at 2, a. cbn [fmap list_fmap concat]. rewrite !length_app. cbn [length]. unfold join. lia. }
  assert (∀ k, (dot_slash ++ join dirs ++ r) !! (a + k)%nat = (c ++ c_slash :: join todo ++ r) !! k) as Hat.
  { intros k. rewrite El, lookup_app_r by (unfold a; lia). f_equal. unfold a. lia. }
  split; [|rewrite Hat; by apply list_lookup_middle]. intros k Hk. rewrite Hat, lookup_app_l by done.
  destruct (lookup_lt_is_Some_2 c k Hk) as [x Hx]. exists x. split; [done|]. intros ->. apply Hcs. by eapply list_elem_of_lookup_2.
Qed.

Lemma dir_loop_run fin Dfin dn todo ret fuel (Q : Z → W → Prop) :
  dirs = dn ++ todo → t_path T ret todo = Some fin → T !! fin = Some Dfin → t_type Dfin = VFS_NODE_DIR → is_Some (T !! ret) →
  (length todo < fuel)%nat → Q fin w →
  wp (dir_lookup_loop fuel p (Z.of_nat (length (dot_slash ++ join dirs))) (Z.of_nat (length (dot_slash ++ join dn))) ret) Q w.
Proof using Type*.
  intros Ed Hpath Hfin Hty Hret Hf HQ. revert dn ret fuel Ed Hpath Hret Hf.
  induction todo as [|c todo IH]; intros dn ret fuel Ed Hpath Hret Hf; (destruct fuel as [|fuel]; [lia|]); cbn [dir_lookup_loop].
  - rewrite app_nil_r in Ed. subst dn. rewrite Z.ltb_irrefl. apply wp_ret. injection Hpath as <-. done.
  - cbn [t_path] in Hpath. destruct (t_find T ret c) as [v|] eqn:Hfind; [|done]. cbn [mbind option_bind] in Hpath.
    destruct (comp_bytes dn c todo Ed) as (El & Elen & Hcl & Hcomp & Hsl). set (a := length (dot_slash ++ join dn)) in *.
    pose proof walk_bytes as Hb. pose proof (holds_size _ _ _ Hb) as Hsz. pose proof Hend as Hend'.
    rewrite app_assoc, length_app, Elen in Hsz, Hend'.
    rewrite (proj2 (Z.ltb_lt _ _)) by lia. apply wp_bind, wp_gets. apply wp_bind.
    eapply wp_run; [eapply (scan_run w p _ Hb Hp Hend true _ a a); [lia|lia|lia|lia|]|].
    { intros _. destruct (Hcomp 0%nat) as (x & Hx & Hne); [lia|]. exists x. rewrite Nat.add_0_r in Hx. split; [done|].
      by rewrite (proj2 (Z.eqb_neq x c_slash)). }
    rewrite (proj2 (Z.leb_gt _ _)) by lia. apply wp_bind.
    eapply wp_run; [eapply (scan_run w p _ Hb Hp Hend false _ a (a + length c)); [lia|lia|lia| |intros _; by exists c_slash]|].
    { intros k Hk. destruct (Hcomp (k - a)%nat) as (x & Hx & Hne); [lia|]. exists x. replace (a + (k - a))%nat with k in Hx by lia.
      split; [done|]. by rewrite (proj2 (Z.eqb_neq x c_slash)). }
    apply wp_bind. eapply wp_run; [eapply (read_mem_run w p _ Hb Hp Hend (dot_slash ++ join dn) _ c (c_slash :: join todo ++ r)); [done|fold a; lia]|].
    destruct Hret as [Dr HDr]. destruct (sh_rep _ _ _ _ Hs ret Dr HDr) as (_ & _ & ir & Hir & _). apply wp_bind.
    eapply wpv_inode; [exact Hv|by eapply lookup_weaken|]. apply wp_bind.
    eapply wpv_find_child; [exact Hv|exact Hs|done|done|exact HDr|exact Hir|]. rewrite Hfind. cbn [default from_option id].
    destruct (find_in _ _ _ _ _ _ _ Hs Hfind) as (Hv0 & _ & E & _ & HE & _). rewrite (proj2 (Z.eqb_neq v 0)) by done.
    destruct (sh_rep _ _ _ _ Hs v E HE) as (_ & (n & Hn & _ & _ & Hnt) & _). apply wp_bind.
    eapply wpv_node; [exact Hv|by eapply lookup_weaken|].
    assert (t_type E = VFS_NODE_DIR) as HEt.
    { destruct todo as [|c' todo]; cbn [t_path] in Hpath; [congruence|]. destruct (t_find T v c') as [v'|] eqn:Hf'; [|done].
      by eapply parent_is_dir. }
    rewrite bool_decide_eq_true_2 by congruence. cbn [negb].
    replace (u64 (Z.of_nat (a + length c) + 1)) with (Z.of_nat (length (dot_slash ++ join (dn ++ [c])))).
    { apply IH; [by rewrite <- app_assoc|done|by eexists|cbn [length] in Hf; lia]. }
    rewrite u64_small by (unfold is_u64; lia). rewrite join_app, app_assoc, length_app. fold a. unfold join. cbn. rewrite app_nil_r, length_app. cbn. lia.
Qed.

(** The directory of an entry, when it is there. *)
Lemma wp_entry_parent root fin Dfin Droot (Q : Z → W → Prop) :
  T !! root = Some Droot → t_path T root dirs = Some fin → T !! fin = Some Dfin → t_type Dfin = VFS_NODE_DIR → Q fin w →
  wp (entry_parent p (Z.of_nat (length (dot_slash ++ join dirs))) root) Q w.
Proof using Type*.
  intros Hroot Hpath Hfin Hty HQ. destruct (sh_rep _ _ _ _ Hs root Droot Hroot) as (Hr0 & _).
  destruct (sh_rep _ _ _ _ Hs fin Dfin Hfin) as (Hf0 & _). unfold entry_parent.
  destruct (Z.eqb_spec (Z.of_nat (length (dot_slash ++ join dirs))) 2) as [E|E].
  - apply wp_ret. assert (dirs = []) as Ed.
    { destruct dirs as [|c ds]; [done|]. unfold join in E. cbn [fmap list_fmap concat] in E. rewrite !length_app in E. cbn [length dot_slash] in E. lia. }
    rewrite Ed in Hpath. injection Hpath as <-. done.
  - unfold get_or_create_prefix. apply wp_bind. unfold dir_lookup. rewrite (proj2 (Z.eqb_neq root 0)) by done.
    apply wp_bind. pose proof walk_bytes as Hb. unfold path_begin. rewrite (proj2 (Z.leb_le 2 _)) by (rewrite length_app; cbn; lia).
    apply wp_bind. eapply wp_run; [apply (char_run w p _ Hb Hp Hend 0 c_dot); done|]. rewrite Z.eqb_refl.
    apply wp_bind. eapply wp_run; [apply (char_run w p _ Hb Hp Hend 1 c_slash); done|]. rewrite Z.eqb_refl.
    apply wp_ret, wp_bind, wp_gets. change 2 with (Z.of_nat (length (dot_slash ++ join []))).
    eapply (dir_loop_run fin Dfin [] dirs); [done|done|done|done|by eexists| |].
    + pose proof (holds_size _ _ _ Hb) as Hsz. rewrite !length_app in Hsz.
      assert (length dirs ≤ length (join dirs))%nat; [|lia]. clear. induction dirs as [|c ds IH]; [done|]. unfold join in *. cbn [fmap list_fmap concat length].
      rewrite !length_app. cbn [length]. lia.
    + rewrite (proj2 (Z.eqb_neq fin 0)) by done. apply wp_ret, HQ.
Qed.
End walk.
End lookup.
