(* ===== verification/UstarLoad.v ===== *)
(** * UstarLoad: what [load_ustar] makes of an archive *)
From S2P Require Import Prelude Alloc Vfs VfsWalk Initrd InitrdFs InitrdMem InitrdTree InitrdDir InitrdDirThm InitrdCalls Ustar UstarThm.

(** ** Archives *)
Inductive ukind := UFile (content : list Z) | ULink (target : list Z) | UDir.
Record uentry := MkU { u_dirs : list (list Z); u_name : list Z; u_kind : ukind }.
(** The entry of the root, one of an unknown type, and the others. *)
Inductive uitem := URoot | USkip | UEntry (e : uentry).

Definition u_full (e : uentry) : list (list Z) := u_dirs e ++ [u_name e].
Definition u_type (e : uentry) : vfs_node_type :=
  match u_kind e with UFile _ => VFS_NODE_FILE | ULink _ => VFS_NODE_SYMLINK | UDir => VFS_NODE_DIR end.
Definition u_data (e : uentry) : list Z := match u_kind e with UFile c => c | ULink t => t | UDir => [] end.
Definition u_path (e : uentry) : list Z := dot_slash ++ join (u_dirs e) ++ u_name e.

(** A number in octal digits, filled up with zero bytes. *)
Definition octal_field (m : gmap Z Z) (p v : Z) : Prop :=
  ∃ ds n, (length ds + n = 12)%nat ∧ Forall (λ d, 48 ≤ d < 56) ds ∧ holds m p (ds ++ replicate n 0) ∧ v = oct_value ds.
Definition entry_ok (e : uentry) : Prop :=
  Forall comp_ok (u_dirs e) ∧ comp_ok (u_name e) ∧
  match u_kind e with
  | ULink t => valid (u_name e) = true ∧ t ≠ [] ∧ (0 ∉ t) ∧ (length t < 100)%nat
  | _ => True
  end.
(** The bytes of the header at [p], for an entry with [sz] bytes of contents. *)
Definition header (m : gmap Z Z) (p : Z) (it : uitem) (sz : Z) : Prop :=
  octal_field m (p + filesize_bytes_oct) sz ∧ (∃ t, octal_field m (p + lmut_oct) t) ∧
  match it with
  | URoot => holds m p (dot_slash ++ [0])
  | USkip => ∃ l ty, l ≠ [] ∧ (0 ∉ l) ∧ l ≠ dot_slash ∧ holds m p (l ++ [0]) ∧ (length l < 100)%nat ∧
      m !! (p + type_field) = Some ty ∧
      ty ∉ [USTAR_TYPE_REGULAR_FILE; USTAR_TYPE_REGULAR_FILE_ALT; USTAR_TYPE_SYMBOLIC_LINK; USTAR_TYPE_DIRECTORY]
  | UEntry e => ∃ ty sl, m !! (p + type_field) = Some ty ∧ holds m p (u_path e ++ sl ++ [0]) ∧
      (length (u_path e ++ sl) < 100)%nat ∧ (sl = [] ∨ (u_kind e = UDir ∧ sl = [c_slash])) ∧ entry_ok e ∧
      match u_kind e with
      | UFile c => (ty = USTAR_TYPE_REGULAR_FILE ∨ ty = USTAR_TYPE_REGULAR_FILE_ALT) ∧ sz = Z.of_nat (length c) ∧
          holds m (p + HOJICHA_USTAR_HEADER_LEN_BYTES) c
      | ULink t => ty = USTAR_TYPE_SYMBOLIC_LINK ∧ holds m (p + linked_filename) (t ++ [0])
      | UDir => ty = USTAR_TYPE_DIRECTORY
      end
  end.
(** The items from [pos] on, up to the end or a block of zeros. *)
Fixpoint archive (m : gmap Z Z) (buf size pos : Z) (items : list uitem) : Prop :=
  match items with
  | [] => size < pos + 512 ∨ ∀ i, 0 ≤ i < 512 → m !! (buf + pos + i) = Some 0
  | it :: items' => ∃ sz, header m (buf + pos) it sz ∧ 0 ≤ sz ∧ pos + 512 + sz ≤ size ∧
      archive m buf size (pos + ((sz + 511) / 512 + 1) * 512) items'
  end.
Definition entries (items : list uitem) : list uentry :=
  omap (λ it, match it with UEntry e => Some e | _ => None end) items.
(** Every path is new and its directory was there before. *)
Fixpoint in_order (before es : list uentry) : Prop :=
  match es with
  | [] => True
  | e :: es' => (u_full e ∉ u_full <$> before) ∧
      (u_dirs e = [] ∨ ∃ d, d ∈ before ∧ u_kind d = UDir ∧ u_full d = u_dirs e) ∧ in_order (before ++ [e]) es'
  end.

(** The tree below [root] has exactly these entries. *)
Record loaded (T : dtree) (root : Z) (es : list uentry) : Prop := {
  ld_root : ∃ D, T !! root = Some D ∧ t_type D = VFS_NODE_DIR ∧ t_parent D = 0;
  ld_in e : e ∈ es → ∃ v D, t_path T root (u_full e) = Some v ∧ T !! v = Some D ∧ t_type D = u_type e ∧ t_data D = u_data e;
  ld_out p v : t_path T root p = Some v → p = [] ∨ p ∈ u_full <$> es;
}.

Definition u_node (e : uentry) (d : Z) : dnode := MkD (u_type e) (u_name e) d [] 0 (u_data e).

(** ** Adding an entry to the tree *)
Section tree.
Context (N : gmap Z vfs_node) (I : gmap Z initrd_inode) (m : gmap Z Z) (T : dtree).
Context (Hs : shape N I m T).

Lemma t_path_in root p v : is_Some (T !! root) → t_path T root p = Some v → is_Some (T !! v).
Proof using Hs.
  revert root. induction p as [|c p IH]; intros root Hr; cbn [t_path]; [by intros [= <-]|].
  destruct (t_find T root c) as [u|] eqn:Hf; [|done]. cbn [mbind option_bind]. apply IH.
  destruct (find_in _ _ _ _ _ _ _ Hs Hf) as (_ & _ & E & _ & HE & _). by eexists.
Qed.
Lemma t_path_snoc root p c v : t_path T root (p ++ [c]) = Some v → ∃ u, t_path T root p = Some u ∧ t_find T u c = Some v.
Proof.
  rewrite t_path_app. destruct (t_path T root p) as [u|]; [|done]. cbn [mbind option_bind t_path].
  destruct (t_find T u c) as [x|] eqn:E; [|done]. cbn. intros [= <-]. by exists u.
Qed.
Lemma t_path_inj root Dr p q v : T !! root = Some Dr → t_parent Dr = 0 →
  t_path T root p = Some v → t_path T root q = Some v → p = q.
Proof using Hs.
  intros Hr H0. assert (∀ p c, t_path T root (p ++ [c]) ≠ Some root) as Hno.
  { intros p' c (u & _ & Hf)%t_path_snoc. destruct (find_in _ _ _ _ _ _ _ Hs Hf) as (_ & D & E & HD & HE & Hp & _).
    destruct (sh_rep _ _ _ _ Hs u D HD). congruence. }
  revert q v. induction p as [|c p IH] using rev_ind; intros q v Hp Hq.
  - injection Hp as <-. destruct (exists_last_or_nil q) as [->|(q' & c & ->)]; [done|by destruct (Hno q' c)].
  - destruct (exists_last_or_nil q) as [->|(q' & c' & ->)].
    { injection Hq as <-. by destruct (Hno p c). }
    apply t_path_snoc in Hp as (u & Hu & Hf). apply t_path_snoc in Hq as (u' & Hu' & Hf').
    destruct (find_in _ _ _ _ _ _ _ Hs Hf) as (_ & _ & E & _ & HE & Hp1 & Hn1).
    destruct (find_in _ _ _ _ _ _ _ Hs Hf') as (_ & _ & E' & _ & HE' & Hp2 & Hn2).
    assert (E' = E) as -> by congruence. rewrite (IH q' u); [congruence|done|congruence].
Qed.

Context (d v : Z) (Dd D : dnode).
Context (Hd : T !! d = Some Dd) (Hv : T !! v = None) (Hnew : t_find T d (t_name D) = None) (Hk : t_kids D = []).

Lemma t_find_add a c : t_find (t_add T d v D) a c =
  if decide (a = d ∧ c = t_name D) then Some v else if decide (a = v) then None else t_find T a c.
Proof using Hd Hk Hnew Hs Hv.
  assert (∀ x, x ≠ v → t_name <$> t_add T d v D !! x = t_name <$> T !! x) as Hname.
  { intros x Hx. unfold t_add. rewrite lookup_insert_ne by done. destruct (decide (x = d)) as [->|].
    - rewrite lookup_alter_eq. by destruct (T !! d).
    - by rewrite lookup_alter_ne. }
  assert (∀ b E, T !! b = Some E → filter (λ x, t_name <$> t_add T d v D !! x = Some c) (t_kids E) =
    filter (λ x, t_name <$> T !! x = Some c) (t_kids E)) as Hfil.
  { intros b E HE. apply filter_ext_in. intros x Hx. destruct (sh_kids _ _ _ _ Hs b E x HE Hx) as (F & HF & _).
    rewrite Hname by congruence. done. }
  unfold t_find at 1. destruct (decide (a = v)) as [->|Hav].
  - rewrite t_add_self. cbn [mbind option_bind]. rewrite Hk. rewrite decide_False; [done|]. intros [-> _]. congruence.
  - destruct (decide (a = d)) as [->|Had].
    + assert (t_add T d v D !! d = Some (with_kids (t_kids Dd ++ [v]) Dd)) as ->
        by (unfold t_add; by rewrite lookup_insert_ne, lookup_alter_eq, Hd by done). cbn [mbind option_bind with_kids t_kids].
      rewrite filter_app, (Hfil d Dd Hd). unfold t_find in Hnew |- *. rewrite Hd in Hnew |- *. cbn [mbind option_bind] in Hnew |- *.
      rewrite filter_cons, t_add_self. cbn [fmap option_fmap option_map]. rewrite filter_nil.
      destruct (decide (c = t_name D)) as [->|Hc].
      * rewrite (decide_True (P := Some (t_name D) = Some (t_name D))), (decide_True (P := d = d ∧ t_name D = t_name D)) by done.
        destruct (filter _ (t_kids Dd)) as [|x l]; [done|]. done.
      * rewrite (decide_False (P := Some (t_name D) = Some c)) by congruence.
        rewrite (decide_False (P := d = d ∧ c = t_name D)) by naive_solver. by rewrite app_nil_r.
    + rewrite (decide_False (P := a = d ∧ c = t_name D)) by naive_solver. 
      assert (t_add T d v D !! a = T !! a) as -> by (unfold t_add; by rewrite lookup_insert_ne, lookup_alter_ne by done).
      unfold t_find. destruct (T !! a) as [E|] eqn:HE; [|done]. cbn [mbind option_bind]. by rewrite (Hfil a E HE).
Qed.
Lemma t_path_add root Dr dirs p : T !! root = Some Dr → t_parent Dr = 0 → t_path T root dirs = Some d →
  t_path (t_add T d v D) root p = if decide (p = dirs ++ [t_name D]) then Some v else t_path T root p.
Proof using Hd Hk Hnew Hs Hv.
  intros Hr H0 Hdirs. induction p as [|c q IH] using rev_ind.
  - rewrite decide_False by (by destruct dirs). done.
  - rewrite !t_path_app, IH. destruct (decide (q = dirs ++ [t_name D])) as [->|Hq].
    + cbn [mbind option_bind t_path]. rewrite t_find_add, decide_False by (intros [-> _]; congruence). rewrite decide_True by done. cbn [mbind option_bind].
      rewrite decide_False by (intros E; apply (f_equal length) in E; rewrite !length_app in E; cbn in E; lia).
      rewrite t_path_app, Hdirs. cbn [mbind option_bind t_path]. by rewrite Hnew.
    + destruct (t_path T root q) as [u|] eqn:Hu; cbn [mbind option_bind t_path].
      2:{ rewrite decide_False; [done|]. intros [-> _]%app_inj_tail. congruence. }
      rewrite t_find_add. assert (u ≠ v) as Huv by (intros ->; destruct (t_path_in _ _ _ ltac:(by eexists) Hu); congruence).
      destruct (decide (u = d ∧ c = t_name D)) as [[-> ->]|Hno].
      * rewrite (t_path_inj root Dr q dirs d) by done. by rewrite decide_True.
      * rewrite decide_False by done. rewrite decide_False; [done|]. intros [-> ->]%app_inj_tail. naive_solver.
Qed.
End tree.

Lemma loaded_add N I m T root es e d v Dd :
  shape N I m T → loaded T root es → T !! d = Some Dd → T !! v = None → t_path T root (u_dirs e) = Some d → u_full e ∉ u_full <$> es →
  loaded (t_add T d v (u_node e d)) root (es ++ [e]).
Proof.
  intros Hs [(Dr & Hr & Hrt & Hr0) Hin Hout] Hd Hv Hdirs Hnew.
  assert (t_find T d (u_name e) = None) as Hnone.
  { destruct (t_find T d (u_name e)) as [x|] eqn:E; [|done]. destruct (Hout (u_full e) x) as [H|H]; [|unfold u_full in H; by destruct (u_dirs e)|done].
    unfold u_full. rewrite t_path_app, Hdirs. cbn [mbind option_bind t_path]. by rewrite E. }
  pose proof (λ p, t_path_add N I m T Hs d v Dd (u_node e d) Hd Hv Hnone eq_refl root Dr (u_dirs e) p Hr Hr0 Hdirs) as Hpath.
  change (u_dirs e ++ [t_name (u_node e d)]) with (u_full e) in Hpath. split.
  - destruct (t_add_old T d v (u_node e d) root Dr Hv Hr) as (Dr' & HDr' & Ec). exists Dr'. split; [done|]. unfold dcore in Ec. split; congruence.
  - intros e' [He| ->%list_elem_of_singleton]%elem_of_app.
    + destruct (Hin e' He) as (x & D & Hx & HD & Ht & Hda). exists x. rewrite Hpath, decide_False.
      * destruct (t_add_old T d v (u_node e d) x D Hv HD) as (D' & HD' & Ec). exists D'. unfold dcore in Ec. split_and!; congruence || done.
      * intros E. apply Hnew. rewrite <- E. by apply list_elem_of_fmap_2.
    + exists v, (u_node e d). rewrite Hpath, decide_True by done. split_and!; try done. apply t_add_self.
  - intros p x. rewrite Hpath, fmap_app. destruct (decide (p = u_full e)) as [->|].
    + intros _. right. set_solver.
    + intros Hx. destruct (Hout p x Hx) as [|Hp]; [by left|right]. set_solver.
Qed.

(** ** Reading a header *)
Lemma holds_mono m m' p l : m ⊆ m' → holds m p l → holds m' p l.
Proof. intros Hm H k c Hk. eapply lookup_weaken; [by apply H|done]. Qed.

(** The part of the path before the name ends with a slash. *)
Lemma prefix_slash dirs : ∃ pre, dot_slash ++ join dirs = pre ++ [c_slash].
Proof.
  destruct (exists_last_or_nil dirs) as [->|(ds & c & ->)]; [by exists [c_dot]|]. exists (dot_slash ++ join ds ++ c).
  rewrite join_app. unfold join at 2. cbn [fmap list_fmap concat]. by rewrite app_nil_r, <- !app_assoc.
Qed.
Lemma u_path_no_zero e : Forall comp_ok (u_dirs e) → comp_ok (u_name e) → 0 ∉ u_path e.
Proof.
  intros Hd (_ & _ & Hn). unfold u_path. rewrite !not_elem_of_app. split; [vm_compute; set_solver|]. split; [|done].
  clear Hn. induction Hd as [|c ds (_ & _ & Hc) _ IH]; [set_solver|]. unfold join in *. cbn [fmap list_fmap concat].
  rewrite !not_elem_of_app. split; [|done]. split; [done|]. vm_compute. set_solver.
Qed.

Section fields.
Context {A : Type} {alloc_A : Allocator A}.
Abbreviation W := (vworld (iext A)).
Context (w : W) (m0 : gmap Z Z) (Hm0 : m0 ⊆ bytes (ext w)).

Lemma octal_run p v : octal_field m0 p v → 0 ≤ p → p + 12 < 2 ^ 64 → ustar_oct2dec p 12 w = Ret (v, w) ∧ 0 ≤ v < 2 ^ 36.
Proof using Hm0.
  intros (ds & n & Hlen & Hd & Hh & ->) Hp Hend. split.
  - assert (length (ds ++ replicate n 0) = 12%nat) as El by (by rewrite length_app, length_replicate).
    eapply (oct2dec_run w p (ds ++ replicate n 0)); [by eapply holds_mono|done|rewrite El; lia|done|done|done].
  - pose proof (oct_value_bound ds Hd) as Hb. assert (8 ^ Z.of_nat (length ds) ≤ 8 ^ 12) by (apply Z.pow_le_mono_r; lia). lia.
Qed.
Lemma time_run p v : octal_field m0 (p + lmut_oct) v → 0 ≤ p → p + 512 < 2 ^ 64 → header_time p w = Ret (s64 v, w).
Proof using Hm0.
  intros Ho Hp Hend. unfold header_time, lmut_oct in *. erewrite bind_run; [done|].
  by destruct (octal_run _ _ Ho) as [Hr _]; [lia|lia|].
Qed.
Lemma header_size_run p sz : octal_field m0 (p + filesize_bytes_oct) sz → 0 ≤ p → p + 512 < 2 ^ 64 →
  get_header_size p w = Ret (((sz + 511) / 512 + 1) * 512, w).
Proof using Hm0.
  intros Ho Hp Hend. unfold get_header_size, filesize_bytes_oct in *. destruct (octal_run _ _ Ho) as [Hr Hb]; [lia|lia|].
  rewrite (bind_run _ _ _ _ _ Hr). unfold mret, prog_ret. do 2 f_equal.
  rewrite (u64_small (sz + 511)) by (unfold is_u64; lia).
  assert (0 ≤ (sz + 511) / 512 < 2 ^ 36) by (split; [apply Z.div_pos; lia|apply Z.div_lt_upper_bound; lia]).
  rewrite (u64_small (_ / _ + 1)) by (unfold is_u64; lia). by rewrite u64_small by (unfold is_u64; lia).
Qed.
Lemma name_offset_run p e r : holds m0 p (u_path e ++ r) → 0 ≤ p → p + Z.of_nat (length (u_path e ++ r)) < 2 ^ 64 → comp_ok (u_name e) →
  get_name_start_idx p (Z.of_nat (length (u_path e))) w = Ret (Z.of_nat (length (dot_slash ++ join (u_dirs e))), w).
Proof using Hm0.
  intros Hh Hp Hend (Hne & Hns & _). destruct (prefix_slash (u_dirs e)) as [pre Epre].
  assert (u_path e = pre ++ c_slash :: u_name e) as Eu by (unfold u_path; by rewrite app_assoc, Epre, <- app_assoc).
  pose proof (name_start_run w p (u_path e ++ r) (holds_mono _ _ _ _ Hm0 Hh) Hp Hend pre (u_name e) r) as Hrun.
  rewrite <- Eu in Hrun. rewrite Hrun; [|by rewrite Eu, <- app_assoc|done|done].
  do 3 f_equal. rewrite Epre, length_app. cbn. lia.
Qed.
Lemma path_len_run p s r : holds m0 p (s ++ [0] ++ r) → 0 ∉ s → 0 ≤ p → p + Z.of_nat (length (s ++ [0] ++ r)) < 2 ^ 64 →
  get_entry_len p w = Ret (Z.of_nat (length s), w).
Proof using Hm0. intros Hh H0 Hp Hend. eapply entry_len_run; [by eapply holds_mono|done|exact Hend|done|done]. Qed.
Lemma type_run p ty : m0 !! (p + type_field) = Some ty → 0 ≤ p → p + 512 < 2 ^ 64 → char_at p type_field w = Ret (ty, w).
Proof using Hm0.
  intros Hty Hp Hend. unfold char_at. rewrite (bind_run (gets ext) _ w (ext w) w eq_refl).
  rewrite u64_small by (unfold is_u64, type_field; lia). by rewrite (lookup_weaken _ _ _ _ Hty Hm0).
Qed.
End fields.

(** ** Loading entries *)
Section load.
Context {A : Type} {alloc_A : Allocator A} {laws_A : AllocatorLaws (2 ^ 61) A} {arena_A : AllocatorArena A}.
Abbreviation W := (vworld (iext A)).
Implicit Types (w : W).
Context (buf size : Z) (m0 : gmap Z Z) (h0 : A) (root : Z).
Context (Hbuf : 0 < buf) (Hfits : buf + size < 2 ^ 63) (Harch : ∀ x, buf ≤ x < buf + size → out_of h0 x).

(** What was loaded so far, over the same archive. *)
Record loading w T es : Prop := {
  lo_rep : tree_rep w T;
  lo_tree : loaded T root es;
  lo_bytes : m0 ⊆ bytes (ext w);
  lo_out x : out_of h0 x → out_of (heap (ext w)) x;
}.
(** The result of one entry. *)
Definition entry_result es (st : option vfs_status) w : Prop :=
  (st = None ∧ ∃ T, loading w T es) ∨ (st = Some VFS_STATUS_NOMEM ∧ ∃ T, tree_rep w T).

Lemma parent_there T es e : loaded T root es → u_dirs e = [] ∨ (∃ d, d ∈ es ∧ u_kind d = UDir ∧ u_full d = u_dirs e) →
  ∃ fin D, t_path T root (u_dirs e) = Some fin ∧ T !! fin = Some D ∧ t_type D = VFS_NODE_DIR.
Proof.
  intros [(Dr & Hr & Hrt & _) Hin _] [->|(d & Hd & Hk & <-)]; [by exists root, Dr|].
  destruct (Hin d Hd) as (v & D & Hv & HD & Ht & _). exists v, D. split_and!; try done. unfold u_type in Ht. by rewrite Hk in Ht.
Qed.
Lemma loading_add w w' T es e fin D v :
  loading w T es → t_path T root (u_dirs e) = Some fin → T !! fin = Some D → T !! v = None → u_full e ∉ u_full <$> es →
  tree_rep w' (t_add T fin v (u_node e fin)) → grows (heap (ext w)) (bytes (ext w)) (heap (ext w')) (bytes (ext w')) →
  loading w' (t_add T fin v (u_node e fin)) (es ++ [e]).
Proof.
  intros [Hr Hl Hb Ho] Hpath HD Hv Hnew Hr' Hg. split; [done| |by etrans; [|apply Hg]|].
  - eapply loaded_add; [apply Hr|done|done|done|done|done].
  - intros x Hx. apply (gr_out _ _ _ _ Hg). by apply Ho.
Qed.
(** Times. *)
Lemma wp_stamp_entry w T v D p t (Q : unit → W → Prop) :
  tree_rep w T → T !! v = Some D → m0 ⊆ bytes (ext w) → octal_field m0 (p + lmut_oct) t → 0 ≤ p → p + 512 < 2 ^ 64 →
  (∀ w', tree_rep w' T → heap (ext w') = heap (ext w) → bytes (ext w') = bytes (ext w) →
     (∀ a, nkey <$> nodes w' !! a = nkey <$> nodes w !! a) → Q tt w') →
  wp (stamp v p) Q w.
Proof.
  intros Hr HD Hb Ht Hp Hend HQ. destruct (sh_rep _ _ _ _ (rp_shape _ _ _ _ _ _ Hr) v D HD) as (Hv0 & (n & Hn & _) & i & Hi & _).
  unfold stamp. apply wp_bind. eapply wp_run; [by eapply time_run|]. apply wp_bind. unfold set_inode_timestamps.
  rewrite (proj2 (Z.eqb_neq v 0)) by done. eapply wpv_update; [apply view_self|done|]. intros w1 H1.
  eapply wpv_sync; [done|done|apply lookup_insert_eq|done|]. intros w2 n' Hn' H2.
  assert (∀ a, nkey <$> <[v := n']> (nodes w) !! a = nkey <$> nodes w !! a) as Hsame.
  { intros a. destruct (decide (a = v)) as [->|]; [by rewrite lookup_insert_eq, Hn; cbn; f_equal|by rewrite lookup_insert_ne]. }
  apply HQ; [|apply H2|apply H2|intros a; by rewrite (vw_nodes _ _ _ _ _ _ H2)]. eapply view_rep; [done|].
  eapply reps_quiet; [exact Hr|done|]. intros a. destruct (decide (a = v)) as [->|]; [by rewrite lookup_insert_eq, Hi|by rewrite lookup_insert_ne].
Qed.
(** A reference that is not the last link. *)
Lemma wp_release_linked w T v D (Q : unit → W → Prop) :
  tree_rep w T → T !! v = Some D → link_count <$> nodes w !! v = Some 1 →
  (∀ w', tree_rep w' T → heap (ext w') = heap (ext w) → bytes (ext w') = bytes (ext w) → Q tt w') →
  wp (vfs_vnode_release initrd_ops v) Q w.
Proof.
  intros Hr HD Hl HQ. destruct (sh_rep _ _ _ _ (rp_shape _ _ _ _ _ _ Hr) v D HD) as (Hv0 & (n & Hn & _) & _).
  rewrite Hn in Hl. injection Hl as Hl. unfold vfs_vnode_release. rewrite (proj2 (Z.eqb_neq v 0)) by done.
  apply wp_bind. eapply wp_vnode; [done|]. destruct (refcount n =? 0); [by apply wp_ret, HQ|].
  apply wp_bind. eapply wpv_update_node; [apply view_self|done|]. intros w1 H1.
  apply wp_bind. eapply wpv_node; [done|apply lookup_insert_eq|]. cbn [link_count with_refcount]. rewrite Hl, andb_false_r. cbn [negb].
  apply wp_ret, HQ; [|apply H1|apply H1]. eapply view_rep; [done|]. eapply reps_quiet; [exact Hr| |done].
  intros a. destruct (decide (a = v)) as [->|]; [by rewrite lookup_insert_eq, Hn|by rewrite lookup_insert_ne].
Qed.

(** A place in the archive. *)
Lemma room_archive h x n : (∀ y, out_of h0 y → out_of h y) → buf ≤ x → x + n ≤ buf + size → room h false x n.
Proof using Harch. intros Ho Hx Hn y Hy. apply Ho, Harch. lia. Qed.

Ltac make H := apply wp_bind; eapply wpv_make; [exact H|]; clear H; let w := fresh "w" in intros w H.

Lemma wp_load_file w T es e c pos sz :
  loading w T es → header m0 (buf + pos) (UEntry e) sz → u_kind e = UFile c → 0 ≤ pos → pos + 512 + sz ≤ size →
  u_full e ∉ u_full <$> es → u_dirs e = [] ∨ (∃ d, d ∈ es ∧ u_kind d = UDir ∧ u_full d = u_dirs e) →
  wp (load_file (buf + pos) root (Z.of_nat (length (u_path e)))) (entry_result (es ++ [e])) w.
Proof using Harch Hbuf Hfits laws_A.
  intros Hlo (Hsz & (t & Ht) & ty & sl & _ & Hpath & Hlen & Hsl & (Hdirs & Hname & _) & Hkind) Hk Hpos Hsize Hnew Hpar.
  rewrite Hk in Hkind. destruct Hkind as (_ & -> & Hc). pose proof Hlo as [Hr Hl Hb Ho].
  destruct Hsl as [->|[? _]]; [|congruence]. cbn [app] in Hpath. rewrite app_nil_r in Hlen.
  assert (Z.of_nat (length (u_path e ++ [0])) ≤ 100) as Hlen1 by (rewrite length_app; cbn [length]; lia).
  destruct (parent_there T es e Hl Hpar) as (fin & D & Hfin & HD & HDt). destruct (ld_root _ _ _ Hl) as (Dr & HDr & _).
  unfold HOJICHA_USTAR_HEADER_LEN_BYTES, filesize_bytes_oct in *.
  unfold load_file, filesize_bytes_oct, HOJICHA_USTAR_HEADER_LEN_BYTES. apply wp_bind. eapply wp_run; [eapply (name_offset_run w m0 Hb _ e [0]); [done|lia|lia|done]|].
  apply wp_bind. eapply wpv_calloc_inode; [apply view_self|apply Hr| |].
  { intros w1 s1 Hs1 Hw1. apply wp_ret. right. split; [done|]. exists T. eapply rep_grown; [exact Hr|apply view_self|apply grows_refl, Hr|done|done]. }
  intros v w1 s1 Hv0 HvT Hs1 Hvs Hw1. rewrite (proj2 (Z.eqb_neq v 0)) by done.
  assert (∀ w', view w' (nodes w') (inodes (ext w')) (bytes (ext w)) (heap (ext w)) s1 → m0 ⊆ bytes (ext w')) as Hkeep
    by (intros w' H'; by rewrite (vw_bytes _ _ _ _ _ _ H')).
  apply wp_bind. eapply wp_run; [eapply (octal_run w1 m0); [by rewrite (vw_bytes _ _ _ _ _ _ Hw1)|exact Hsz|lia|lia]|].
  do 7 make Hw1. apply wp_bind. eapply wpv_number; [exact Hw1|]. clear Hw1. intros num wn Hw1. make Hw1.
  apply wp_bind. eapply wp_run; [eapply (time_run _ m0); [by rewrite (vw_bytes _ _ _ _ _ _ Hw1)|exact Ht|lia|lia]|].
  apply wp_bind. eapply wpv_times; [done|exact Hw1|]. clear Hw1. intros wt Hw1.
  apply wp_bind. eapply wpv_init; [done|exact Hw1|]. clear Hw1. intros wi n Hn Hw1. apply wp_bind.
  assert (nodes w !! v = None ∧ inodes (ext w) !! v = None) as [HvN HvI].
  { pose proof (rp_shape _ _ _ _ _ _ Hr) as Hs. split; apply eq_None_not_Some; [intros H%(sh_nodes _ _ _ _ Hs)|intros H%(sh_inodes _ _ _ _ Hs)]; rewrite HvT in H; by destruct H. }
  eapply (wp_entry_parent wi (nodes w) _ (inodes (ext w)) _ (bytes (ext w)) _ _ _ T Hw1 (rp_shape _ _ _ _ _ _ Hr)
    ltac:(by apply insert_subseteq) ltac:(by apply insert_subseteq) ltac:(done) (buf + pos) (u_dirs e) (u_name e ++ [0]));
    [|lia| |done|exact HDr|exact Hfin|exact HD|exact HDt|].
  { unfold u_path in Hpath. rewrite <- !app_assoc in Hpath. by eapply holds_mono. }
  { unfold u_path in Hlen1. rewrite <- !app_assoc in Hlen1. lia. }
  destruct (sh_rep _ _ _ _ (rp_shape _ _ _ _ _ _ Hr) fin D HD) as (Hf0 & _). rewrite (proj2 (Z.eqb_neq fin 0)) by done.
  make Hw1. apply wp_bind.
  assert (Z.of_nat (length (u_path e)) = Z.of_nat (length (dot_slash ++ join (u_dirs e))) + Z.of_nat (length (u_name e))) as Epl
    by (unfold u_path; rewrite app_assoc, (length_app (_ ++ _)); lia).
  assert (u64 (buf + pos + Z.of_nat (length (dot_slash ++ join (u_dirs e)))) = buf + pos + Z.of_nat (length (dot_slash ++ join (u_dirs e)))) as E1
    by (apply u64_small; unfold is_u64; rewrite length_app in Hlen1; lia).
  assert (u64 (Z.of_nat (length (u_path e)) - Z.of_nat (length (dot_slash ++ join (u_dirs e)))) = Z.of_nat (length (u_name e))) as E2
    by (rewrite Epl; rewrite u64_small; [lia|unfold is_u64; rewrite length_app in Hlen1; lia]).
  assert (u64 (buf + pos + 512) = buf + pos + 512) as E3 by (apply u64_small; unfold is_u64; lia).
  eapply (wp_attach _ _ _ _ _ _ T fin D v n _ (u_node e fin)); [exact Hr|done|done|apply grows_refl, Hr|done|done| | |exact Hw1|].
  - split; cbn [i_name_owned i_name i_name_size owned i_buf_owned i_buf i_len with_next with_parent with_times with_number with_first_child
      with_hard_target with_buf with_name with_len t_type t_hard u_node]; rewrite ?E1, ?E2, ?E3; try done.
    + apply room_archive; [done|lia|rewrite length_app in Hlen1; lia].
    + intros p Hp. unfold owned in Hp. cbn in Hp. set_solver.
    + apply NoDup_nil_2.
    + intros _. apply room_archive; [done|lia|lia].
  - unfold nkey in Hn. injection Hn as F1 F2 F3 _.
    assert (t_type (u_node e fin) = VFS_NODE_FILE) as Ety by (cbn; unfold u_type; by rewrite Hk).
    split; cbn [i_name i_name_size i_parent i_hard_target i_first_child i_next_sibling i_buf i_len with_next with_parent with_times with_number
      with_first_child with_hard_target with_buf with_name with_len t_name t_parent t_hard t_kids t_data u_node]; rewrite ?E1, ?E2, ?E3; try done.
    + by split_and!; rewrite ?Ety.
    + split; [|done]. unfold u_path in Hpath. rewrite app_assoc, <- (app_assoc (dot_slash ++ _)) in Hpath. apply holds_app in Hpath as [_ Hpath].
      apply holds_app in Hpath as [Hpath _]. by eapply holds_mono.
    + split; [done|by left].
    + intros _. unfold u_data. rewrite Hk. split; [by eapply holds_mono|done].
  - intros wa Na Ia Hra _ Hwa. apply wp_ret. left. split; [done|]. eexists. eapply loading_add; [exact Hlo|done|exact HD|exact HvT|done|by eapply view_rep|].
    rewrite (vw_heap _ _ _ _ _ _ Hwa), (vw_bytes _ _ _ _ _ _ Hwa). apply grows_refl, Hr.
Qed.

(** The facts on the path of an entry that all kinds share. *)
Lemma path_facts w T es e pos r :
  loading w T es → holds m0 (buf + pos) (u_path e ++ r) → (length (u_path e ++ r) ≤ 101)%nat → entry_ok e → 0 ≤ pos → pos + 512 ≤ size →
  get_name_start_idx (buf + pos) (Z.of_nat (length (u_path e))) w = Ret (Z.of_nat (length (dot_slash ++ join (u_dirs e))), w) ∧
  read_mem (u64 (buf + pos + Z.of_nat (length (dot_slash ++ join (u_dirs e)))))
    (Z.to_nat (u64 (Z.of_nat (length (u_path e)) - Z.of_nat (length (dot_slash ++ join (u_dirs e)))))) w = Ret (u_name e, w).
Proof using Hbuf Hfits.
  intros [Hr Hl Hb Ho] Hpath Hlen (Hdirs & Hname & _) Hpos Hsize. split.
  - eapply (name_offset_run w m0 Hb _ e r); [done|lia|lia|done].
  - assert (u_path e ++ r = (dot_slash ++ join (u_dirs e)) ++ u_name e ++ r) as Eu by (unfold u_path; by rewrite <- !app_assoc).
    eapply (read_mem_run w _ (u_path e ++ r)); [by eapply holds_mono|lia|lia|exact Eu|].
    assert (length (u_path e) = length (dot_slash ++ join (u_dirs e)) + length (u_name e))%nat as ->
      by (unfold u_path; rewrite app_assoc, (length_app (_ ++ _)); lia).
    rewrite Eu, !length_app in Hlen. rewrite u64_small by (unfold is_u64; rewrite length_app; lia). lia.
Qed.
Lemma wp_parent w T es e pos r (Q : Z → W → Prop) :
  loading w T es → holds m0 (buf + pos) (u_path e ++ r) → (length (u_path e ++ r) ≤ 101)%nat → Forall comp_ok (u_dirs e) → 0 ≤ pos → pos + 512 ≤ size →
  u_dirs e = [] ∨ (∃ d, d ∈ es ∧ u_kind d = UDir ∧ u_full d = u_dirs e) →
  (∀ fin D, t_path T root (u_dirs e) = Some fin → T !! fin = Some D → t_type D = VFS_NODE_DIR → fin ≠ 0 → Q fin w) →
  wp (entry_parent (buf + pos) (Z.of_nat (length (dot_slash ++ join (u_dirs e)))) root) Q w.
Proof using Hbuf Hfits laws_A.
  intros [Hr Hl Hb Ho] Hpath Hlen Hdirs Hpos Hsize Hpar HQ.
  destruct (parent_there T es e Hl Hpar) as (fin & D & Hfin & HD & HDt). destruct (ld_root _ _ _ Hl) as (Dr & HDr & _).
  assert (u_path e ++ r = dot_slash ++ join (u_dirs e) ++ u_name e ++ r) as Eu by (unfold u_path; by rewrite <- !app_assoc).
  rewrite Eu in Hpath, Hlen.
  eapply (wp_entry_parent w (nodes w) _ (inodes (ext w)) _ (bytes (ext w)) _ _ _ T (view_self w) (rp_shape _ _ _ _ _ _ Hr)
    ltac:(done) ltac:(done) ltac:(done) (buf + pos) (u_dirs e) (u_name e ++ r)); [by eapply holds_mono|lia|lia|done|exact HDr|exact Hfin|exact HD|exact HDt|].
  eapply HQ; [done|done|done|]. by destruct (sh_rep _ _ _ _ (rp_shape _ _ _ _ _ _ Hr) fin D HD).
Qed.
Lemma not_there T es e fin : loaded T root es → t_path T root (u_dirs e) = Some fin → u_full e ∉ u_full <$> es → t_find T fin (u_name e) = None.
Proof.
  intros Hl Hpath Hnew. destruct (t_find T fin (u_name e)) as [x|] eqn:E; [|done].
  destruct (ld_out _ _ _ Hl (u_full e) x) as [H|H]; [|unfold u_full in H; by destruct (u_dirs e)|done].
  unfold u_full. rewrite t_path_app, Hpath. cbn [mbind option_bind t_path]. by rewrite E.
Qed.

Lemma wp_load_link w T es e tg pos sz :
  loading w T es → header m0 (buf + pos) (UEntry e) sz → u_kind e = ULink tg → 0 ≤ pos → pos + 512 + sz ≤ size → 0 ≤ sz →
  u_full e ∉ u_full <$> es → u_dirs e = [] ∨ (∃ d, d ∈ es ∧ u_kind d = UDir ∧ u_full d = u_dirs e) →
  wp (load_link (buf + pos) root (Z.of_nat (length (u_path e)))) (entry_result (es ++ [e])) w.
Proof using Harch Hbuf Hfits laws_A.
  intros Hlo (_ & (t & Ht) & ty & sl & _ & Hpath & Hlen & Hsl & Hok & Hkind) Hk Hpos Hsize Hsz0 Hnew Hpar.
  pose proof Hok as (Hdirs & Hname & Hlk). rewrite Hk in Hkind, Hlk. destruct Hkind as (_ & Htg). destruct Hlk as (Hvalid & Htg0 & Htz & Htl).
  pose proof Hlo as [Hr Hl Hb Ho]. destruct Hsl as [->|[? _]]; [|congruence]. cbn [app] in Hpath. rewrite app_nil_r in Hlen.
  assert (length (u_path e ++ [0%Z]) ≤ 101)%nat as Hlen1 by (rewrite length_app; cbn [length]; lia).
  destruct (path_facts w T es e pos [0] Hlo Hpath Hlen1 Hok Hpos ltac:(lia)) as [Hoff Hread]. unfold linked_filename in *.
  unfold load_link, linked_filename. apply wp_bind. eapply wp_run; [exact Hoff|]. apply wp_bind.
  eapply wp_run; [eapply (path_len_run w m0 Hb _ tg []); [done|done|lia|rewrite !length_app; cbn [length]; lia]|]. apply wp_bind.
  eapply wp_parent; [done|exact Hpath|done|done|done|lia|done|]. intros fin D Hfin HD HDt Hf0.
  rewrite (proj2 (Z.eqb_neq fin 0)) by done. apply wp_bind. eapply wp_run; [exact Hread|]. apply wp_bind.
  eapply wp_run.
  { replace (buf + pos + 157) with (buf + pos + 157 + Z.of_nat (@length Z [])) at 1 by (cbn; lia).
    eapply (read_mem_run w _ (tg ++ [0])); [by eapply holds_mono|lia|rewrite length_app; cbn [length]; lia|done|lia]. }
  apply wp_bind. eapply wp_mono.
  { apply (wp_symlink w T fin (u_name e) tg Hr); [right; by eexists| |unfold short; lia].
    unfold short. assert (length (u_name e) ≤ length (u_path e))%nat by (unfold u_path; rewrite !length_app; lia). lia. }
  intros [st v] w1 (T1 & Hst & Hr1 & Hone & Hg). cbn [t_step] in Hst.
  assert (has_type T fin VFS_NODE_DIR && valid (u_name e) && bool_decide (tg ≠ []) = true) as Eg.
  { unfold has_type. rewrite HD, Hvalid, !bool_decide_eq_true_2 by done. done. }
  rewrite Eg, (not_there T es e fin Hl Hfin Hnew) in Hst.
  destruct Hst as [[[= -> ->] ->]|(v' & Hv0 & HvT & [= -> ->] & ->)].
  { apply wp_ret. right. split; [done|]. by exists T. }
  rewrite bool_decide_eq_true_2 by done. cbn [negb fst snd] in *.
  assert (MkD VFS_NODE_SYMLINK (u_name e) fin [] 0 tg = u_node e fin) as En by (unfold u_node, u_type, u_data; by rewrite Hk). rewrite En in Hr1.
  destruct (sh_rep _ _ _ _ (rp_shape _ _ _ _ _ _ Hr1) v' _ (t_add_self _ _ _ _)) as (_ & (n & Hn & Efs & _) & _).
  apply wp_bind. eapply wp_vnode; [done|]. rewrite Efs. apply wp_bind.
  eapply (wp_stamp_entry w1 _ v' (u_node e fin) _ t); [done|apply t_add_self|by etrans; [|apply Hg]|done|lia|lia|]. intros w2 Hr2 Eh2 Eb2 Hk2.
  apply wp_bind. eapply (wp_release_linked w2 _ v' (u_node e fin)); [done|apply t_add_self| |].
  { specialize (Hk2 v'). specialize (Hone eq_refl). destruct (nodes w2 !! v'), (nodes w1 !! v'); try done. cbn in *. unfold nkey in Hk2. congruence. }
  intros w3 Hr3 Eh3 Eb3. apply wp_ret. left. split; [done|]. eexists. eapply loading_add; [exact Hlo|done|exact HD|exact HvT|done|done|].
  by rewrite Eh3, Eb3, Eh2, Eb2.
Qed.

(** The slash at the end of a directory's path is left out. *)
Lemma last_slash w p e sl : holds (bytes (ext w)) p (u_path e ++ sl ++ [0]) → 0 ≤ p → p + Z.of_nat (length (u_path e ++ sl ++ [0])) < 2 ^ 64 →
  u_name e ≠ [] → c_slash ∉ u_name e → sl = [] ∨ sl = [c_slash] →
  ∃ ch, (char_at p (Z.of_nat (length (u_path e ++ sl)) - 1) : prog W Z) w = Ret (ch, w) ∧
    (if ch =? c_slash then Z.of_nat (length (u_path e ++ sl)) - 1 else Z.of_nat (length (u_path e ++ sl))) = Z.of_nat (length (u_path e)).
Proof.
  intros Hh Hp Hend Hne Hns Hsl. destruct (exists_last_or_nil (u_name e)) as [|(n' & ch & En)]; [done|].
  assert (u_path e = (dot_slash ++ join (u_dirs e) ++ n') ++ [ch]) as Eu by (unfold u_path; by rewrite En, <- !app_assoc).
  destruct Hsl as [->| ->]; rewrite length_app; cbn [length].
  - exists ch. rewrite Nat.add_0_r. assert (ch ≠ c_slash) as Hc by (intros ->; apply Hns; rewrite En; set_solver).
    split; [|by rewrite (proj2 (Z.eqb_neq ch c_slash))].
    replace (Z.of_nat (length (u_path e)) - 1) with (Z.of_nat (length (dot_slash ++ join (u_dirs e) ++ n'))) by (rewrite Eu, (length_app _ [ch]); cbn; lia).
    apply (char_run w p _ Hh Hp Hend). rewrite Eu, <- app_assoc. by apply list_lookup_middle.
  - exists c_slash. rewrite Z.eqb_refl. split; [|lia].
    replace (Z.of_nat (length (u_path e) + 1) - 1) with (Z.of_nat (length (u_path e))) by lia.
    apply (char_run w p _ Hh Hp Hend). by apply list_lookup_middle.
Qed.
Lemma wp_load_directory w T es e pos sz sl :
  loading w T es → header m0 (buf + pos) (UEntry e) sz → u_kind e = UDir → 0 ≤ pos → pos + 512 + sz ≤ size → 0 ≤ sz →
  holds m0 (buf + pos) (u_path e ++ sl ++ [0]) → (length (u_path e ++ sl) < 100)%nat → sl = [] ∨ sl = [c_slash] →
  u_full e ∉ u_full <$> es → u_dirs e = [] ∨ (∃ d, d ∈ es ∧ u_kind d = UDir ∧ u_full d = u_dirs e) →
  wp (load_directory (buf + pos) root (Z.of_nat (length (u_path e ++ sl)))) (entry_result (es ++ [e])) w.
Proof using Harch Hbuf Hfits laws_A.
  intros Hlo (_ & (t & Ht) & _ & _ & _ & _ & _ & _ & Hok & _) Hk Hpos Hsize Hsz0 Hpath Hlen Hsl Hnew Hpar.
  pose proof Hok as (Hdirs & Hname & _). pose proof Hlo as [Hr Hl Hb Ho]. pose proof Hname as (Hne & Hns & _).
  assert (length (u_path e ++ sl ++ [0%Z]) ≤ 101)%nat as Hlen1 by (rewrite app_assoc, length_app; cbn [length]; lia).
  destruct (path_facts w T es e pos _ Hlo Hpath Hlen1 Hok Hpos ltac:(lia)) as [Hoff Hread].
  assert (3 ≤ length (u_path e))%nat as Hge.
  { unfold u_path. rewrite !length_app. cbn [length dot_slash]. destruct (u_name e); [done|cbn; lia]. }
  unfold load_directory. apply wp_bind. rewrite (proj2 (Z.ltb_lt 0 _)) by (rewrite length_app; lia).
  assert (∃ ch, (char_at (buf + pos) (Z.of_nat (length (u_path e ++ sl)) - 1) : prog W Z) w = Ret (ch, w) ∧
    (if ch =? c_slash then Z.of_nat (length (u_path e ++ sl)) - 1 else Z.of_nat (length (u_path e ++ sl))) = Z.of_nat (length (u_path e))) as (ch & Hch & Ech).
  { eapply last_slash; [by eapply holds_mono|lia|lia|done|done|done]. }
  apply wp_bind. eapply wp_run; [exact Hch|]. apply wp_ret. rewrite Ech. rewrite (proj2 (Z.ltb_lt 2 _)) by lia.
  apply wp_bind. eapply wp_run; [exact Hoff|]. apply wp_bind.
  eapply wp_parent; [done|exact Hpath|done|done|done|lia|done|]. intros fin D Hfin HD HDt Hf0.
  rewrite (proj2 (Z.eqb_neq fin 0)) by done. pose proof (rp_shape _ _ _ _ _ _ Hr) as Hs.
  destruct (sh_rep _ _ _ _ Hs fin D HD) as (_ & _ & i & Hi & _). apply wp_bind. eapply wp_inode; [done|].
  apply wp_bind. eapply wp_run; [exact Hread|]. apply wp_bind.
  eapply wpv_find_child; [apply view_self|exact Hs|done|done|exact HD|exact Hi|]. rewrite (not_there T es e fin Hl Hfin Hnew). cbn [default from_option id Z.eqb].
  assert (MkD VFS_NODE_DIR (u_name e) fin [] 0 [] = u_node e fin) as En by (unfold u_node, u_type, u_data; by rewrite Hk).
  apply wp_bind. eapply (wp_create_dir_node w T fin); [done| |intros w1 Hr1; apply wp_ret; right; split; [done|by exists T]|].
  { unfold short. assert (length (u_name e) ≤ length (u_path e))%nat by (unfold u_path; rewrite !length_app; lia). rewrite length_app in Hlen. lia. }
  rewrite En. intros v n iv w1 m1 h1 s1 Hv0 HvT Hs1 Hvs Hg Hnp Hnn Hw1. rewrite (proj2 (Z.eqb_neq v 0)) by done. apply wp_bind.
  eapply wp_attach; [exact Hr|exact HD|exact HDt|exact Hg|exact Hs1|exact Hvs|exact Hnp|exact Hnn|exact Hw1|].
  intros w2 N2 I2 Hr2 _ Hw2. apply wp_bind.
  assert (tree_rep w2 (t_add T fin v (u_node e fin))) as Hr2' by (by eapply view_rep).
  eapply (wp_stamp_entry w2 _ v (u_node e fin) _ t); [done|apply t_add_self| |done|lia|lia|].
  { rewrite (vw_bytes _ _ _ _ _ _ Hw2). etrans; [exact Hb|apply Hg]. }
  intros w3 Hr3 Eh3 Eb3 _. apply wp_ret. left. split; [done|]. eexists. eapply loading_add; [exact Hlo|done|exact HD|exact HvT|done|done|].
  by rewrite Eh3, Eb3, (vw_heap _ _ _ _ _ _ Hw2), (vw_bytes _ _ _ _ _ _ Hw2).
Qed.

(** *** The loop *)
Definition item_path (it : uitem) (l : list Z) : Prop :=
  match it with
  | URoot => l = dot_slash
  | USkip => l ≠ dot_slash
  | UEntry e => u_name e ≠ [] ∧ ∃ sl, l = u_path e ++ sl ∧ (sl = [] ∨ (u_kind e = UDir ∧ sl = [c_slash]))
  end.
Lemma header_path p it sz : header m0 p it sz → ∃ l, l ≠ [] ∧ (0 ∉ l) ∧ (length l < 100)%nat ∧ holds m0 p (l ++ [0]) ∧ item_path it l.
Proof.
  intros (_ & _ & Hit). destruct it as [| |e]; cbn [item_path].
  - exists dot_slash. split_and!; try done; [vm_compute; set_solver|cbn; lia].
  - destruct Hit as (l & ty & ? & ? & ? & ? & ? & _). by exists l.
  - destruct Hit as (ty & sl & _ & Hh & Hlen & Hsl & (Hd & Hn & _) & _). exists (u_path e ++ sl).
    split; [by unfold u_path|]. split; [|split; [done|]; split; [by rewrite <- app_assoc|split; [apply Hn|by exists sl]]].
    rewrite not_elem_of_app. split; [by apply u_path_no_zero|]. destruct Hsl as [->|[_ ->]]; vm_compute; set_solver.
Qed.

(** The entries are in order. *)
Definition item_new (es : list uentry) (it : uitem) : Prop :=
  match it with
  | UEntry e => (u_full e ∉ u_full <$> es) ∧ (u_dirs e = [] ∨ ∃ d, d ∈ es ∧ u_kind d = UDir ∧ u_full d = u_dirs e)
  | _ => True
  end.
Lemma read_two w p l : holds m0 p (l ++ [0]) → length l = 2%nat → m0 ⊆ bytes (ext w) → read_mem p 2 w = Ret (l, w).
Proof.
  intros Hh Hl Hb. unfold read_mem. rewrite (bind_run (gets ext) _ w (ext w) w eq_refl).
  assert (read_bytes (bytes (ext w)) p 2 = Ret l) as Hr; [|unfold lift; by rewrite Hr].
  apply read_holds. split; [done|]. apply holds_app in Hh as [Hh _]. by eapply holds_mono.
Qed.
Lemma root_entry_run w it l p : item_path it l → holds m0 p (l ++ [0]) → m0 ⊆ bytes (ext w) → 
  is_root_entry p (Z.of_nat (length l)) w = Ret (match it with URoot => true | _ => false end, w).
Proof.
  intros Hit Hh Hb. unfold is_root_entry. destruct (Z.eqb_spec (Z.of_nat (length l)) 2) as [El|El].
  - rewrite (bind_run _ _ _ _ _ (read_two w p l Hh ltac:(lia) Hb)). change [c_dot; c_slash] with dot_slash. destruct it as [| |e]; cbn [item_path] in Hit.
    + subst l. done.
    + by rewrite bool_decide_eq_false_2.
    + destruct Hit as (Hne & sl & -> & _). unfold u_path in El. rewrite !length_app in El. cbn [length dot_slash] in El.
      destruct (u_name e); [done|cbn [length] in El; lia].
  - destruct it as [| |e]; [|done|done]. cbn [item_path] in Hit. subst l. done.
Qed.

Lemma wp_load_item w T es it pos sz l :
  loading w T es → header m0 (buf + pos) it sz → holds m0 (buf + pos) (l ++ [0]) → item_path it l → (length l < 100)%nat → 0 ≤ pos → 0 ≤ sz → pos + 512 + sz ≤ size →
  item_new es it →
  wp (load_entry (buf + pos) root (Z.of_nat (length l)))
    (entry_result (es ++ entries [it])) w.
Proof using Harch Hbuf Hfits laws_A.
  intros Hlo Hhd Hh Hit Hll Hpos Hsz Hsize Hnew. pose proof Hlo as [Hr Hl Hb Ho]. unfold load_entry. apply wp_bind.
  eapply wp_run; [by eapply root_entry_run|]. pose proof Hhd as (_ & (t & Ht) & Hitem). destruct it as [| |e]; cbn [entries omap list_omap].
  - destruct (ld_root _ _ _ Hl) as (Dr & HDr & _). apply wp_bind.
    eapply (wp_stamp_entry w T root Dr _ t); [done|done|done|done|lia|lia|]. intros w' Hr' Eh Eb _. apply wp_ret. left. split; [done|].
    exists T. rewrite app_nil_r. split; [done|done|by rewrite Eb|by rewrite Eh].
  - destruct Hitem as (l' & ty & _ & _ & _ & _ & _ & Hty & Hno). apply wp_bind. eapply wp_run; [eapply type_run; [done|done|lia|lia]|].
    rewrite !not_elem_of_cons in Hno. destruct Hno as (H1 & H2 & H3 & H4 & _).
    rewrite (proj2 (Z.eqb_neq _ _) H1), (proj2 (Z.eqb_neq _ _) H2), (proj2 (Z.eqb_neq _ _) H3), (proj2 (Z.eqb_neq _ _) H4).
    apply wp_ret. left. split; [done|]. exists T. by rewrite app_nil_r.
  - destruct Hnew as [Hnew Hpar]. destruct Hit as (_ & sl & -> & Hsl). pose proof Hitem as (ty & sl' & Hty & _ & _ & _ & _ & Hkind).
    apply wp_bind. eapply wp_run; [eapply type_run; [done|done|lia|lia]|]. destruct (u_kind e) as [c|tg|] eqn:Hk.
    + destruct Hkind as (Ety & _). destruct Hsl as [->|[? _]]; [|done]. rewrite app_nil_r in *.
      assert ((ty =? USTAR_TYPE_REGULAR_FILE) || (ty =? USTAR_TYPE_REGULAR_FILE_ALT) = true) as ->
        by (destruct Ety as [->| ->]; done). by eapply wp_load_file.
    + destruct Hkind as (-> & _). destruct Hsl as [->|[? _]]; [|done]. rewrite app_nil_r in *. by eapply wp_load_link.
    + subst ty. rewrite <- app_assoc in Hh. eapply wp_load_directory; [done|done|done|done|done|done|exact Hh|done| |done|done]. naive_solver.
Qed.
Lemma zero_run w p n : (∀ i, 0 ≤ i < Z.of_nat n → m0 !! (p + i) = Some 0) → m0 ⊆ bytes (ext w) → 0 ≤ p → p + Z.of_nat n < 2 ^ 64 →
  zero_loop n p 0 w = Ret (true, w).
Proof.
  intros Hz Hb Hp Hend. enough (∀ k i, 0 ≤ i → i + Z.of_nat k = Z.of_nat n → zero_loop k p i w = Ret (true, w)) as H by (apply H; lia).
  induction k as [|k IH]; intros i Hi Hk; cbn [zero_loop]; [done|].
  erewrite bind_run; [|unfold char_at; rewrite (bind_run (gets ext) _ w (ext w) w eq_refl), u64_small by (unfold is_u64; lia);
    rewrite (lookup_weaken _ _ _ _ (Hz i ltac:(lia)) Hb); done]. cbn [Z.eqb]. apply IH; lia.
Qed.
Lemma nonzero_run w p l r : holds m0 p (l ++ r) → l ≠ [] → 0 ∉ l → m0 ⊆ bytes (ext w) → 0 ≤ p < 2 ^ 64 → is_zero_block p w = Ret (false, w).
Proof.
  intros Hh Hl H0 Hb Hp. destruct l as [|c l]; [done|]. cbn [app] in Hh. apply holds_cons in Hh as [Hc _].
  unfold is_zero_block. change (Z.to_nat HOJICHA_USTAR_HEADER_LEN_BYTES) with (S 511). cbn [zero_loop].
  erewrite bind_run; [|unfold char_at; rewrite (bind_run (gets ext) _ w (ext w) w eq_refl), Z.add_0_r, u64_small by (unfold is_u64; lia);
    rewrite (lookup_weaken _ _ _ _ Hc Hb); done].
  rewrite (proj2 (Z.eqb_neq c 0)) by set_solver. done.
Qed.

Lemma wp_load_loop items fuel w T es pos :
  loading w T es → archive m0 buf size pos items → in_order es (entries items) → 0 ≤ pos ≤ size + 512 → (1 ≤ fuel)%nat →
  size - pos < Z.of_nat fuel * 512 →
  wp (load_loop fuel buf size pos root) (entry_result (es ++ entries items)) w.
Proof using Harch Hbuf Hfits laws_A.
  revert fuel w T es pos. induction items as [|it items IH]; intros fuel w T es pos Hlo Har Hord Hpos Hf1 Hf;
    (destruct fuel as [|fuel]; [lia|]); cbn [load_loop]; unfold HOJICHA_USTAR_HEADER_LEN_BYTES; rewrite u64_small by (unfold is_u64; lia);
    pose proof Hlo as [Hr Hl Hb Ho].
  - cbn [archive entries omap list_omap] in *. rewrite app_nil_r.
    assert (entry_result es None w) as Hdone by (left; split; [done|by exists T]).
    destruct (Z.leb_spec (pos + 512) size) as [Hle|]; [|by apply wp_ret]. destruct Har as [|Hz]; [lia|]. apply wp_bind.
    eapply wp_run; [by apply (zero_run w (buf + pos) 512); [..|lia|lia]|]. by apply wp_ret.
  - destruct Har as (sz & Hhd & Hsz & Hsize & Har). rewrite (proj2 (Z.leb_le _ _)) by lia.
    destruct (header_path _ _ _ Hhd) as (l & Hl0 & Hlz & Hll & Hh & Hit). apply wp_bind.
    eapply wp_run; [eapply nonzero_run; [exact Hh|done|done|done|lia]|]. apply wp_bind.
    eapply wp_run; [eapply (path_len_run w m0 Hb _ l []); [done|done|lia|rewrite length_app; cbn [length app]; lia]|]. apply wp_bind.
    pose proof Hhd as (Hosz & _). eapply wp_run; [eapply header_size_run; [done|exact Hosz|lia|lia]|]. apply wp_bind.
    assert (entries (it :: items) = entries [it] ++ entries items) as Ee by (destruct it; done). rewrite Ee in Hord |- *.
    assert (item_new es it ∧ in_order (es ++ entries [it]) (entries items)) as [Hnew Hord'].
    { destruct it as [| |e]; cbn in Hord |- *; [by rewrite app_nil_r|by rewrite app_nil_r|]. naive_solver. }
    eapply wp_mono; [eapply wp_load_item; [exact Hlo|exact Hhd|exact Hh|exact Hit|lia|lia|lia|lia|exact Hnew]|]. intros st w' [[-> (T' & Hlo')]|[-> (T' & Hr')]].
    2:{ apply wp_ret. right. split; [done|by exists T']. }
    assert (0 ≤ (sz + 511) / 512 ∧ (sz + 511) / 512 * 512 ≤ sz + 511) as [Hd1 Hd2] by zdiv.
    rewrite app_assoc, u64_small by (unfold is_u64; lia). by eapply IH; [done|done|done|lia|lia|lia].
Qed.
End load.

(** ** The file system at boot *)
Definition root_node : dnode := MkD VFS_NODE_DIR [] 0 [] 0 [].

Section boot.
Context {A : Type} {alloc_A : Allocator A} {laws_A : AllocatorLaws (2 ^ 61) A} {arena_A : AllocatorArena A}.
Abbreviation W := (vworld (iext A)).
Implicit Types (w : W) (h s : A).

Lemma reps_root v n i m h s :
  v ≠ 0 → mem_ok h m → slab_has s ∅ → is_Some (al_live s !! v) → nkey n = (v, INITRD_VNODE_OPS, VFS_NODE_DIR, 1) →
  ikey i = (EMPTY_NAME, 0, false, 0, false, 0, 0) → i_first_child i = 0 → i_next_sibling i = 0 →
  reps {[v := n]} {[v := i]} m h s {[v := root_node]}.
Proof.
  intros Hv Hm [S1 S2 _] Hvs Hn Hi Hf Hx. unfold nkey in Hn. injection Hn as N1 N2 N3 _.
  unfold ikey, istay in Hi. injection Hi as I1 I2 I3 I4 I5 I6 I7. split; [|done| |].
  - split.
    + intros a. destruct (decide (a = v)) as [->|]; [by rewrite !lookup_singleton_eq; split; eexists|]. by rewrite !lookup_singleton_ne.
    + intros a. destruct (decide (a = v)) as [->|]; [by rewrite !lookup_singleton_eq; split; eexists|]. by rewrite !lookup_singleton_ne.
    + intros a D [<- <-]%lookup_singleton_Some. split; [done|]. split; [exists n; by rewrite lookup_singleton_eq|].
      exists i. rewrite lookup_singleton_eq. split; [done|]. split; rewrite ?I1, ?I2, ?I6, ?I7; done.
    + intros a D c [<- <-]%lookup_singleton_Some Hc. cbn in Hc. set_solver.
    + intros a D [<- <-]%lookup_singleton_Some. apply NoDup_nil_2.
    + intros a D [<- <-]%lookup_singleton_Some. by left.
    + intros a D [<- <-]%lookup_singleton_Some. by left.
  - split; [done|done|]. intros a [D [<- _]%lookup_singleton_Some]. done.
  - split.
    + intros a j [<- <-]%lookup_singleton_Some. rewrite I2, I3. intros x Hx'. lia.
    + intros a j [<- <-]%lookup_singleton_Some. by rewrite I5.
    + intros a j D [<- <-]%lookup_singleton_Some [_ <-]%lookup_singleton_Some. done.
    + intros a j [<- <-]%lookup_singleton_Some. unfold owned. rewrite I3, I5. apply NoDup_nil_2.
    + intros a b j k p [<- <-]%lookup_singleton_Some [<- <-]%lookup_singleton_Some. done.
    + intros a D [<- <-]%lookup_singleton_Some. done.
Qed.
Lemma loaded_root v : loaded {[v := root_node]} v [].
Proof.
  split.
  - exists root_node. by rewrite lookup_singleton_eq.
  - intros e He. set_solver.
  - intros [|c p] x; [by left|]. cbn [t_path]. unfold t_find. by rewrite lookup_singleton_eq.
Qed.
Ltac make H := apply wp_bind; eapply wpv_make; [exact H|]; clear H; let w := fresh "w" in intros w H.
Lemma wp_create_root w (Q : Z → W → Prop) :
  tree_rep w ∅ → (∀ w', tree_rep w' ∅ → Q 0 w') →
  (∀ v w', v ≠ 0 → tree_rep w' {[v := root_node]} → heap (ext w') = heap (ext w) → bytes (ext w') = bytes (ext w) → Q v w') →
  wp create_root Q w.
Proof.
  intros Hr HQ0 HQ. pose proof Hr as [Hs Hm Hsl _].
  assert (nodes w = ∅ ∧ inodes (ext w) = ∅) as [EN EI].
  { split; apply map_eq; intros a; rewrite lookup_empty; apply eq_None_not_Some;
      [intros H%(sh_nodes _ _ _ _ Hs)|intros H%(sh_inodes _ _ _ _ Hs)]; destruct H as [? H]; by rewrite lookup_empty in H. }
  unfold create_root. apply wp_bind. eapply wpv_calloc_inode; [apply view_self|exact Hsl| |].
  { intros w1 s1 Hs1 Hw1. apply wp_ret, HQ0. eapply rep_grown; [exact Hr|apply view_self|by apply grows_refl|done|done]. }
  intros v w1 s1 Hv0 _ Hs1 Hvs Hw1. rewrite (proj2 (Z.eqb_neq v 0)) by done. do 7 make Hw1.
  apply wp_bind. eapply wpv_number; [exact Hw1|]. clear Hw1. intros num wn Hw1. make Hw1. apply wp_bind, wp_gets, wp_bind.
  eapply wpv_times; [done|exact Hw1|]. clear Hw1. intros wt Hw1. apply wp_bind. eapply wpv_init; [done|exact Hw1|]. clear Hw1.
  intros wi n Hn Hw1. apply wp_ret. rewrite EN, EI, !insert_empty in Hw1. apply HQ; [done| |apply Hw1|apply Hw1].
  eapply view_rep; [exact Hw1|]. by eapply reps_root.
Qed.
Lemma wp_calloc_mount w T (Q : Z → W → Prop) :
  tree_rep w T → (∀ w', tree_rep w' T → Q 0 w') → (∀ v w', v ≠ 0 → tree_rep w' T → Q v w') → wp (slab_calloc SIZEOF_VFS_MOUNT) Q w.
Proof.
  intros Hr HQ0 HQ. pose proof Hr as [Hs Hm Hsl Hp]. destruct (al_alloc_law _ SIZEOF_VFS_MOUNT (sl_ok _ _ Hsl)) as (p & s' & Hrun & Hok & Hc);
    [unfold SIZEOF_VFS_MOUNT; lia|].
  pose proof (slab_has_alloc _ T SIZEOF_VFS_MOUNT p s' Hsl eq_refl Hok Hc) as Hs'. unfold wp, slab_calloc. rewrite Hrun. cbn [mbind outcome_bind].
  destruct (decide (p = 0)) as [->|Hp0]; [apply HQ0|apply HQ; [done|]]; split; done.
Qed.

End boot.

(** ** An archive *)
Definition fill (n : nat) (l : list Z) : list Z := l ++ replicate (n - length l) 0.
Definition oct11 (d : Z) : list Z := replicate 10 48 ++ [d; 0].
Definition demo_header (name : list Z) (ty d : Z) (link : list Z) : list Z :=
  fill 124 name ++ oct11 d ++ oct11 49 ++ replicate 8 48 ++ [ty] ++ fill 355 link.
Definition demo_etc : uentry := MkU [] [101; 116; 99] UDir.
Definition demo_file : uentry := MkU [[101; 116; 99]] [97] (UFile [104; 105]).
Definition demo_link : uentry := MkU [] [108] (ULink [101; 116; 99]).
(** [./], [./etc/], [./etc/a] with two bytes, and [./l], a link to [etc]. *)
Definition demo_tar : list Z :=
  demo_header dot_slash 53 48 [] ++ demo_header (u_path demo_etc ++ [c_slash]) 53 48 [] ++
  demo_header (u_path demo_file) 48 50 [] ++ fill 512 [104; 105] ++ demo_header (u_path demo_link) 50 48 [101; 116; 99].
Definition demo_items : list uitem := [URoot; UEntry demo_etc; UEntry demo_file; UEntry demo_link].
Definition empty_world (m : gmap Z Z) (blocks : nat) : vworld (iext bump) :=
  MkWorld ∅ ∅ ∅ ∅ 0 None (MkExt ∅ m ∅ ∅ 0 0 0 (MkBump 5000 blocks ∅) (MkBump 9000 100 ∅)).
Definition tar_world (blocks : nat) : vworld (iext bump) := empty_world (init_bytes demo_tar 1000 ∅) blocks.

(** The position of the next header. *)
Ltac norm_pos := match goal with |- archive ?m ?b ?s ?p ?l => let q := eval vm_compute in p in change (archive m b s q l) end.
Lemma holds_read m p l : read_bytes m p (length l) = Ret l → holds m p l.
Proof. intros H. by apply read_holds in H as [_ H]. Qed.
Lemma octal_read m p d : read_bytes m p 12 = Ret (oct11 d) → 48 ≤ d < 56 → octal_field m p (d - 48).
Proof.
  intros Hr Hd. apply read_holds in Hr as [_ Hr]. exists (replicate 10 48 ++ [d]), 1%nat. split; [done|].
  split; [apply Forall_app; split; [by apply Forall_replicate|by apply Forall_singleton]|]. split; [done|].
  rewrite oct_value_snoc. done.
Qed.
Lemma demo_comp_ok (c : list Z) : c ≠ [] → bool_decide (c_slash ∉ c) && bool_decide (0 ∉ c) = true → comp_ok c.
Proof. intros Hc [H1%bool_decide_eq_true H2%bool_decide_eq_true]%andb_true_iff. done. Qed.
Lemma demo_archive : archive (init_bytes demo_tar 1000 ∅) 1000 2560 0 demo_items.
Proof.
  assert (∀ e : uentry, Forall comp_ok (u_dirs e) → comp_ok (u_name e) → u_kind e = UDir ∨ (∃ c, u_kind e = UFile c) → entry_ok e) as Hplain.
  { intros e H1 H2 H3. split; [done|]. split; [done|]. destruct H3 as [->|[c ->]]; done. }
  assert (comp_ok [101; 116; 99] ∧ comp_ok [97] ∧ comp_ok [108]) as (C1 & C2 & C3)
    by (split_and!; (apply demo_comp_ok; [done|vm_compute; reflexivity])).
  assert (∀ p, read_bytes (init_bytes demo_tar 1000 ∅) (p + lmut_oct) 12 = Ret (oct11 49) → ∃ t, octal_field (init_bytes demo_tar 1000 ∅) (p + lmut_oct) t) as Htime
    by (intros p Hp; exists (49 - 48); apply octal_read; [done|lia]).
  norm_pos. exists 0. split; [|split; [lia|split; [lia|]]].
  { split; [apply (octal_read _ _ 48); [vm_compute; reflexivity|lia]|]. split; [apply Htime; vm_compute; reflexivity|]. apply holds_read. vm_compute. reflexivity. }
  norm_pos. exists 0. split; [|split; [lia|split; [lia|]]].
  { split; [apply (octal_read _ _ 48); [vm_compute; reflexivity|lia]|]. split; [apply Htime; vm_compute; reflexivity|].
    exists 53, [c_slash]. split; [vm_compute; reflexivity|]. split; [apply holds_read; vm_compute; reflexivity|]. split; [cbn; lia|].
    split; [right; done|]. split; [apply Hplain; [done|done|by left]|done]. }
  norm_pos. exists 2. split; [|split; [lia|split; [lia|]]].
  { split; [apply (octal_read _ _ 50); [vm_compute; reflexivity|lia]|]. split; [apply Htime; vm_compute; reflexivity|].
    exists 48, []. split; [vm_compute; reflexivity|]. split; [apply holds_read; vm_compute; reflexivity|]. split; [cbn; lia|].
    split; [by left|]. split; [apply Hplain; [by apply Forall_singleton|done|right; by eexists]|]. cbn [u_kind demo_file].
    split; [by left|]. split; [done|]. apply holds_read. vm_compute. reflexivity. }
  norm_pos. exists 0. split; [|split; [lia|split; [lia|]]].
  { split; [apply (octal_read _ _ 48); [vm_compute; reflexivity|lia]|]. split; [apply Htime; vm_compute; reflexivity|].
    exists 50, []. split; [vm_compute; reflexivity|]. split; [apply holds_read; vm_compute; reflexivity|]. split; [cbn; lia|].
    split; [by left|]. split; [split; [done|]; split; [done|]|]; cbn [u_kind demo_link].
    - split; [vm_compute; reflexivity|]. split; [done|]. split; [|cbn; lia]. apply C1.
    - split; [done|]. apply holds_read. vm_compute. reflexivity. }
  left. vm_compute. reflexivity.
Qed.
Lemma empty_rep m k : (∀ x, is_Some (m !! x) → x < 5000) → tree_rep (empty_world m k) ∅.
Proof.
  intros Hx. split.
  - split; try (intros *; cbn; by rewrite ?lookup_empty). all: intros a; cbn; rewrite !lookup_empty; by split; intros [].
  - split; [split; [split; [done|]|done]|split|]; cbn; try (intros *; by rewrite lookup_empty).
    intros x H%Hx. left. split; [cbn; lia|]. cbn. intros *. by rewrite lookup_empty.
  - split; [split; [split; [done|]|done]|split|]; cbn; intros *; by rewrite lookup_empty.
  - split; cbn; intros *; by rewrite lookup_empty.
Qed.
Lemma tar_rep k : tree_rep (tar_world k) ∅.
Proof.
  apply empty_rep. intros x Hx. destruct (decide (1000 ≤ x < 1000 + Z.of_nat (length demo_tar))) as [H|H].
  - assert (Z.of_nat (length demo_tar) = 2560) as E by (vm_compute; reflexivity). lia.
  - rewrite init_out, lookup_empty in Hx by lia. by destruct Hx.
Qed.

Definition status_of {B} (o : outcome (vfs_status * Z * B)) : option vfs_status :=
  match o with Ret (st, _, _) => Some st | _ => None end.
Lemma tar_status : status_of (load_ustar 1000 2560 (tar_world 9)) = Some VFS_STATUS_OK.
Proof. vm_compute. reflexivity. Qed.
