(* ===== verification/Elf.v ===== *)
(** * Elf: the executable loader, [kernel/kernel/elf.c]

    [elf_read] copies the headers of an executable out of a buffer, [elf_map]
    asks for the pages of its segments and [elf_launch] fills them, builds the
    user stack and enters user mode.  The lower half of the addresses is the
    memory of the running address space, known through [UserPages]; the upper
    half is kernel memory.  Headers, arrays of pointers and the memory state of a
    process are objects by address. *)
From S2P Require Import Prelude Alloc Cstring Pmm Paging.

(** ** What the loader needs of an address space *)

(** [vmm_map] and the accesses of the processor to the lower half. *)
Class UserPages (V : Type) := {
  up_map : Z → Z → Z → Z → V → outcome (Z * V);
  up_load : Z → V → outcome Z;
  up_store : Z → Z → V → outcome V;
}.

(** ** Data *)
Definition ELF_MAGIC : Z := 0x464C457F.
Definition ELF_HEADER_BITS_64 : Z := 2.
Definition ELF_HEADER_ABI_SYSV : Z := 0.
Definition ELF_HEADER_ISA_X86_64 : Z := 0x3E.
Definition ELF_HEADER_TYPE_EXECUTABLE : Z := 2.
Definition ELF_PROG_HEADER_TYPE_LOAD : Z := 1.
Definition ELF_PROG_HEADER_TYPE_DYNAMIC : Z := 2.
Definition USER_SPACE_MIN_VADDR : Z := 0x100000.
Definition USER_SPACE_MAX_VADDR : Z := 0x7FFFFFFFF000.
Definition STACK_SIZE : Z := 16384.

Record elf_header := MkHeader {
  magic : Z; bits : Z; endianness : Z; version_header : Z; abi : Z; reserved : Z;
  h_type : Z; isa : Z; version_elf : Z; offset_entry : Z;
  offset_prog_header_table : Z; offset_sect_header_table : Z; h_flags : Z; size_header : Z;
  size_prog_header_table_entry : Z; count_prog_header_table_entry : Z;
  size_sect_header_table_entry : Z; count_sect_header_table_entry : Z; idx_sect_header_str_table : Z;
}.
Record elf_program_header := MkProgHeader {
  p_type : Z; p_flags : Z; buffer_offset : Z; load_vaddr : Z; reserved_paddr : Z;
  buffer_size : Z; mapped_size : Z; p_align : Z;
}.
Record elf := MkElf { header : Z; program_headers : Z; buffer : Z }.
Record process_mem := MkMem { m_vmm : Z; brk_start : Z; brk : Z; stack_start : Z }.

Definition SIZEOF_ELF_HEADER : Z := 64.
Definition SIZEOF_PROG_HEADER : Z := 56.
Definition SIZEOF_ELF : Z := 32.

Record eworld (V A : Type) := MkE {
  uspace : V; kmem : gmap Z Z; arrays : gmap Z (list Z); eheap : A;
  headers : gmap Z elf_header; prog_headers : gmap Z (list elf_program_header);
  elfs : gmap Z elf; mems : gmap Z process_mem;
}.
Arguments MkE {V A}.
Arguments uspace {V A}.
Arguments kmem {V A}.
Arguments arrays {V A}.
Arguments eheap {V A}.
Arguments headers {V A}.
Arguments prog_headers {V A}.
Arguments elfs {V A}.
Arguments mems {V A}.

(** The first address that is not of the lower half. *)
Definition LOWER_END : Z := 2 ^ 47.

Section elf.
Context {V : Type} {pages_V : UserPages V} {A : Type} {alloc_A : Allocator A}.
Abbreviation W := (eworld V A).
Implicit Types (w : W).

Definition set_uspace (v : V) w : W :=
  MkE v (kmem w) (arrays w) (eheap w) (headers w) (prog_headers w) (elfs w) (mems w).
Definition set_kmem (m : gmap Z Z) w : W :=
  MkE (uspace w) m (arrays w) (eheap w) (headers w) (prog_headers w) (elfs w) (mems w).
Definition set_arrays (m : gmap Z (list Z)) w : W :=
  MkE (uspace w) (kmem w) m (eheap w) (headers w) (prog_headers w) (elfs w) (mems w).
Definition set_eheap (a : A) w : W :=
  MkE (uspace w) (kmem w) (arrays w) a (headers w) (prog_headers w) (elfs w) (mems w).
Definition set_headers (m : gmap Z elf_header) w : W :=
  MkE (uspace w) (kmem w) (arrays w) (eheap w) m (prog_headers w) (elfs w) (mems w).
Definition set_prog_headers (m : gmap Z (list elf_program_header)) w : W :=
  MkE (uspace w) (kmem w) (arrays w) (eheap w) (headers w) m (elfs w) (mems w).
Definition set_elfs (m : gmap Z elf) w : W :=
  MkE (uspace w) (kmem w) (arrays w) (eheap w) (headers w) (prog_headers w) m (mems w).
Definition set_mems (m : gmap Z process_mem) w : W :=
  MkE (uspace w) (kmem w) (arrays w) (eheap w) (headers w) (prog_headers w) (elfs w) m.

(** ** Memory *)
Definition load (x : Z) : prog W Z := λ w,
  b ← (if x <? LOWER_END then up_load x (uspace w) else deref (kmem w !! x)); Ret (b, w).
Definition store (x b : Z) : prog W unit := λ w,
  if x <? LOWER_END then v ← up_store x b (uspace w); Ret (tt, set_uspace v w)
  else _ ← deref (kmem w !! x); Ret (tt, set_kmem (<[x := b]> (kmem w)) w).

(** A little-endian number of [n] bytes. *)
Fixpoint load_le (n : nat) (x : Z) : prog W Z :=
  match n with
  | O => mret 0
  | S n' => b ← load x; r ← load_le n' (x + 1); mret (b + 256 * r)
  end.
Fixpoint store_le (n : nat) (x v : Z) : prog W unit :=
  match n with
  | O => mret tt
  | S n' => _ ← store x (v mod 256); store_le n' (x + 1) (v / 256)
  end.
Fixpoint memcpy_loop (n : nat) (d s : Z) : prog W unit :=
  match n with
  | O => mret tt
  | S n' => b ← load s; _ ← store d b; memcpy_loop n' (d + 1) (s + 1)
  end.
Definition memcpy (d s n : Z) : prog W unit := memcpy_loop (Z.to_nat n) d s.
Fixpoint memset_loop (n : nat) (d b : Z) : prog W unit :=
  match n with
  | O => mret tt
  | S n' => _ ← store d b; memset_loop n' (d + 1) b
  end.
Definition memset (d b n : Z) : prog W unit := memset_loop (Z.to_nat n) d b.
(** [strlen] of a string of the kernel. *)
Definition kstrlen (p : Z) : prog W Z := λ w, '(n, _) ← strlen p (kmem w); Ret (n, w).

Definition slab_alloc (n : Z) : prog W Z := λ w,
  '(p, a) ← al_alloc n (eheap w); Ret (p, set_eheap a w).
Definition slab_free (p : Z) : prog W unit := λ w,
  '(_, a) ← al_free p (eheap w); Ret (tt, set_eheap a w).

(** [slab_calloc] and [slab_free] of an array of [n] words. *)
Definition slab_calloc_words (n : Z) : prog W Z :=
  p ← slab_alloc (u64 (n * 8));
  _ ← when (negb (p =? 0)) (modify (λ w, set_arrays (<[p := replicate (Z.to_nat n) 0]> (arrays w)) w));
  mret p.
Definition slab_free_words (p : Z) : prog W unit :=
  _ ← slab_free p; modify (λ w, set_arrays (delete p (arrays w)) w).
(** [a[i]]. *)
Definition array_get (a i : Z) : prog W Z :=
  m ← gets arrays; l ← lift (deref (m !! a)); lift (deref (l !! Z.to_nat i)).
Definition array_set (a i v : Z) : prog W unit :=
  m ← gets arrays; l ← lift (deref (m !! a)); _ ← lift (deref (l !! Z.to_nat i));
  modify (λ w, set_arrays (<[a := <[Z.to_nat i := v]> l]> (arrays w)) w).

(** ** Reading the headers *)
Definition read_header (p : Z) : prog W elf_header :=
  m ← load_le 4 p; b ← load_le 1 (p + 4); e ← load_le 1 (p + 5); vh ← load_le 1 (p + 6);
  ab ← load_le 1 (p + 7); rs ← load_le 8 (p + 8); ty ← load_le 2 (p + 16); isa_ ← load_le 2 (p + 18);
  ve ← load_le 4 (p + 20); oe ← load_le 8 (p + 24); op ← load_le 8 (p + 32); os ← load_le 8 (p + 40);
  fl ← load_le 4 (p + 48); sh ← load_le 2 (p + 52); sp ← load_le 2 (p + 54); cp ← load_le 2 (p + 56);
  ss ← load_le 2 (p + 58); cs ← load_le 2 (p + 60); ix ← load_le 2 (p + 62);
  mret (MkHeader m b e vh ab rs ty isa_ ve oe op os fl sh sp cp ss cs ix).
Definition read_program_header (p : Z) : prog W elf_program_header :=
  ty ← load_le 4 p; fl ← load_le 4 (p + 4); bo ← load_le 8 (p + 8); lv ← load_le 8 (p + 16);
  rp ← load_le 8 (p + 24); bs ← load_le 8 (p + 32); ms ← load_le 8 (p + 40); al ← load_le 8 (p + 48);
  mret (MkProgHeader ty fl bo lv rp bs ms al).
Fixpoint read_program_headers (n : nat) (p : Z) : prog W (list elf_program_header) :=
  match n with
  | O => mret []
  | S n' =>
      h ← read_program_header p;
      hs ← read_program_headers n' (p + SIZEOF_PROG_HEADER);
      mret (h :: hs)
  end.

Definition is_valid_header (h : elf_header) : bool :=
  if negb (magic h =? ELF_MAGIC) then false
  else if negb (h_type h =? ELF_HEADER_TYPE_EXECUTABLE) then false
  else if negb (abi h =? ELF_HEADER_ABI_SYSV) then false
  else if negb (bits h =? ELF_HEADER_BITS_64) then false
  else if negb (isa h =? ELF_HEADER_ISA_X86_64) then false
  else true.

(** A buffer too small for the header is only logged. *)
Definition elf_read (buf size : Z) : prog W Z :=
  eh ← slab_alloc SIZEOF_ELF_HEADER;
  if eh =? 0 then mret 0
  else
    h ← read_header buf;
    _ ← modify (λ w, set_headers (<[eh := h]> (headers w)) w);
    if negb (is_valid_header h) then
      _ ← slab_free eh;
      _ ← modify (λ w, set_headers (delete eh (headers w)) w);
      mret 0
    else
      let n := count_prog_header_table_entry h in
      ph ← slab_alloc (SIZEOF_PROG_HEADER * n);
      if ph =? 0 then
        _ ← slab_free eh;
        _ ← modify (λ w, set_headers (delete eh (headers w)) w);
        mret 0
      else
        hs ← read_program_headers (Z.to_nat n) (u64 (buf + offset_prog_header_table h));
        _ ← modify (λ w, set_prog_headers (<[ph := hs]> (prog_headers w)) w);
        ret ← slab_alloc SIZEOF_ELF;
        if ret =? 0 then
          _ ← slab_free ph;
          _ ← modify (λ w, set_prog_headers (delete ph (prog_headers w)) w);
          _ ← slab_free eh;
          _ ← modify (λ w, set_headers (delete eh (headers w)) w);
          mret 0
        else
          _ ← modify (λ w, set_elfs (<[ret := MkElf eh ph buf]> (elfs w)) w);
          mret ret.

Definition load_elf (e : Z) : prog W elf := m ← gets elfs; lift (deref (m !! e)).
Definition load_header (e : elf) : prog W elf_header := m ← gets headers; lift (deref (m !! header e)).
(** [elf->program_headers[i]]. *)
Definition load_prog_header (e : elf) (i : Z) : prog W elf_program_header :=
  m ← gets prog_headers; l ← lift (deref (m !! program_headers e)); lift (deref (l !! Z.to_nat i)).

Definition elf_free (e : Z) : prog W unit :=
  el ← load_elf e;
  _ ← slab_free (program_headers el);
  _ ← modify (λ w, set_prog_headers (delete (program_headers el) (prog_headers w)) w);
  _ ← slab_free (header el);
  _ ← modify (λ w, set_headers (delete (header el) (headers w)) w);
  _ ← slab_free e;
  modify (λ w, set_elfs (delete e (elfs w)) w).

(** ** Mapping and filling the segments *)
Definition USER_FLAGS : Z := Z.lor (Z.lor PAGE_USER_ACCESIBLE PAGE_PRESENT) PAGE_WRITABLE.
Definition vmm_map (v virt n flags : Z) : prog W Z := λ w,
  '(r, u) ← up_map v virt n flags (uspace w); Ret (r, set_uspace u w).
Definition page_count (h : elf_program_header) : Z := u64 (mapped_size h + PAGE_SIZE - 1) / PAGE_SIZE.

(** Iteration [i] of the loop and the [n - 1] after it; the result of
    [vmm_map] is not looked at. *)
Fixpoint elf_map_loop (n : nat) (i : Z) (el : elf) (v : Z) : prog W bool :=
  match n with
  | O => mret true
  | S n' =>
      h ← load_prog_header el i;
      if p_type h =? ELF_PROG_HEADER_TYPE_LOAD then
        _ ← vmm_map v (load_vaddr h) (page_count h) USER_FLAGS;
        elf_map_loop n' (i + 1) el v
      else if p_type h =? ELF_PROG_HEADER_TYPE_DYNAMIC then mret false
      else elf_map_loop n' (i + 1) el v
  end.
Definition elf_map (e v : Z) : prog W bool :=
  if v =? 0 then mret false
  else
    el ← load_elf e;
    h ← load_header el;
    elf_map_loop (Z.to_nat (count_prog_header_table_entry h)) 0 el v.

(** The copy of one segment. *)
Definition fill_segment (el : elf) (h : elf_program_header) : prog W unit :=
  _ ← memcpy (load_vaddr h) (u64 (buffer el + buffer_offset h)) (buffer_size h);
  when (buffer_size h <? mapped_size h)
    (memset (u64 (load_vaddr h + buffer_size h)) 0 (mapped_size h - buffer_size h)).
Fixpoint fill_loop (n : nat) (i : Z) (el : elf) (highest : Z) : prog W Z :=
  match n with
  | O => mret highest
  | S n' =>
      h ← load_prog_header el i;
      if p_type h =? ELF_PROG_HEADER_TYPE_LOAD then
        let segment_end := u64 (load_vaddr h + mapped_size h) in
        let highest := if highest <? segment_end then segment_end else highest in
        _ ← fill_segment el h;
        fill_loop n' (i + 1) el highest
      else fill_loop n' (i + 1) el highest
  end.

Definition align_down (addr align : Z) : Z := Z.land addr (UINT64_MAX - (align - 1)).
Definition align_up (addr align : Z) : Z := Z.land (u64 (addr + align - 1)) (UINT64_MAX - (align - 1)).

(** ** The user stack *)

(** At most one more word than the array has. *)
Fixpoint string_array_loop (fuel : nat) (strings count : Z) : prog W Z :=
  match fuel with
  | O => diverge
  | S fuel' =>
      p ← array_get strings count;
      if p =? 0 then mret count else string_array_loop fuel' strings (u64 (count + 1))
  end.
Definition string_array_count (strings : Z) : prog W Z :=
  if strings =? 0 then mret 0
  else
    m ← gets arrays;
    l ← lift (deref (m !! strings));
    string_array_loop (S (length l)) strings 0.

(** One of the two loops that copy strings down from the top: [checked] is the
    test of [argv] and of its element. *)
Fixpoint push_strings (n : nat) (i strings user stack_bottom strings_top : Z) (checked : bool) : prog W Z :=
  match n with
  | O => mret strings_top
  | S n' =>
      s ← (if checked && (strings =? 0) then mret 0 else array_get strings i);
      if checked && (s =? 0) then halt
      else
        sl ← kstrlen s;
        let len := u64 (sl + 1) in
        if u64 (strings_top - stack_bottom) <? len then halt
        else
          let top := u64 (strings_top - len) in
          _ ← memcpy top s len;
          _ ← array_set user i top;
          push_strings n' (i + 1) strings user stack_bottom top checked
  end.
(** [stack[slot++] = a[i]] for the elements of an array. *)
Fixpoint copy_slots (n : nat) (i slot a stack : Z) : prog W Z :=
  match n with
  | O => mret slot
  | S n' =>
      v ← array_get a i;
      _ ← store_le 8 (u64 (stack + 8 * slot)) v;
      copy_slots n' (i + 1) (slot + 1) a stack
  end.

Definition prepare_user_stack (stack_bottom stack_top argc argv envp : Z) : prog W Z :=
  envc ← string_array_count envp;
  argv_user ← slab_calloc_words (argc + 1);
  envp_user ← slab_calloc_words (envc + 1);
  if (argv_user =? 0) || (envp_user =? 0) then
    _ ← slab_free_words argv_user;
    _ ← slab_free_words envp_user;
    halt
  else
    top ← push_strings (Z.to_nat argc) 0 argv argv_user stack_bottom stack_top true;
    top ← push_strings (Z.to_nat envc) 0 envp envp_user stack_bottom top false;
    let stack_slots := u64 (1 + argc + 1 + envc + 1 + 1) in
    let frame_size := u64 (stack_slots * 8) in
    if u64 (top - stack_bottom) <? frame_size then halt
    else
      let stack := align_down (u64 (top - frame_size)) 16 in
      if stack <? stack_bottom then halt
      else
        _ ← store_le 8 stack argc;
        slot ← copy_slots (Z.to_nat argc) 0 1 argv_user stack;
        _ ← store_le 8 (u64 (stack + 8 * slot)) 0;
        slot ← copy_slots (Z.to_nat envc) 0 (slot + 1) envp_user stack;
        _ ← store_le 8 (u64 (stack + 8 * slot)) 0;
        _ ← store_le 8 (u64 (stack + 8 * (slot + 1))) 0;
        _ ← slab_free_words argv_user;
        _ ← slab_free_words envp_user;
        mret stack.

(** ** Launching: the stack pointer and the instruction pointer given to
    [enter_ring3], which does not return. *)
Definition elf_launch (e m argc argv envp : Z) : prog W (Z * Z) :=
  ms ← gets mems;
  if (m =? 0) then halt
  else
    pm ← lift (deref (ms !! m));
    if m_vmm pm =? 0 then halt
    else
      let v := m_vmm pm in
      _ ← elf_map e v;
      el ← load_elf e;
      h ← load_header el;
      highest ← fill_loop (Z.to_nat (count_prog_header_table_entry h)) 0 el USER_SPACE_MIN_VADDR;
      let stack_size := u64 (STACK_SIZE + PAGE_SIZE - 1) / PAGE_SIZE in
      let user_stack_location := u64 (USER_SPACE_MAX_VADDR - pmm_page_to_addr_base stack_size) in
      let initial_brk := u64 (align_up highest PAGE_SIZE + PAGE_SIZE) in
      if user_stack_location <=? initial_brk then halt
      else
        _ ← modify (λ w, set_mems (<[m := MkMem v initial_brk initial_brk user_stack_location]> (mems w)) w);
        _ ← vmm_map v user_stack_location stack_size USER_FLAGS;
        let user_stack_top := u64 (user_stack_location + pmm_page_to_addr_base stack_size) in
        sp ← prepare_user_stack user_stack_location user_stack_top argc argv envp;
        mret (sp, offset_entry h).
End elf.
