(* ===== verification/ElfThm.v ===== *)
(** * ElfThm: what the executable loader promises

    The laws an address space offers the loader ([UserLaws]), the effect of the
    loader's loops on memory, and the theorems: [elf_read] decodes what a file
    encodes, [elf_launch] builds the image of the program and its stack. *)
From S2P Require Import Prelude Alloc Cstring Pmm Paging Elf.

(** ** The laws of an address space

    [up_at] is what the processor reads in the lower half, [up_can vm v rs] says
    that the runs [rs] of pages (first address, number of pages) can be mapped
    one after the other, whatever is written to memory in between. *)
Class UserLaws (V : Type) `{UserPages V} := {
  up_ok : Z → V → Prop;
  up_at : V → Z → option Z;
  up_can : Z → V → list (Z * Z) → Prop;
  up_load_law vm v x : up_ok vm v → up_load x v = deref (up_at v x);
  up_store_law vm v x b :
    up_ok vm v → is_Some (up_at v x) → 0 ≤ b < 256 →
    ∃ v', up_store x b v = Ret v' ∧ up_ok vm v' ∧
      (∀ y, up_at v' y = if y =? x then Some b else up_at v y) ∧
      ∀ rs, up_can vm v rs → up_can vm v' rs;
  (** A run becomes readable, and nothing else changes. *)
  up_map_law vm v virt n rs :
    up_ok vm v → up_can vm v ((virt, n) :: rs) → 4096 ≤ virt → 0 < n → virt + 4096 * n ≤ LOWER_END →
    ∃ r v', up_map vm virt n USER_FLAGS v = Ret (r, v') ∧ up_ok vm v' ∧ up_can vm v' rs ∧
      ∀ x, if bool_decide (virt / 4096 ≤ x / 4096 < virt / 4096 + n) then is_Some (up_at v' x)
           else up_at v' x = up_at v x;
}.

(** ** Bytes *)
Section bytes.
Implicit Types (f : Z → option Z) (l k : list Z).

(** [f] reads [l] at [p]. *)
Definition reads f (p : Z) l : Prop := ∀ i c, l !! i = Some c → f (p + Z.of_nat i) = Some c.
(** [f] with [l] written at [p]. *)
Definition over (p : Z) l f (x : Z) : option Z :=
  if bool_decide (p ≤ x < p + Z.of_nat (length l)) then l !! Z.to_nat (x - p) else f x.

Lemma reads_cons f p c l : reads f p (c :: l) ↔ f p = Some c ∧ reads f (p + 1) l.
Proof.
  split.
  - intros H. split; [by rewrite <- (H 0%nat c), Z.add_0_r|]. intros i d Hi. rewrite <- (H (S i) d Hi). f_equal. lia.
  - intros [H0 H] [|i] d; cbn; [intros [= <-]; by rewrite Z.add_0_r|]. intros Hi. rewrite <- (H i d Hi). f_equal. lia.
Qed.
Lemma reads_app f p l k : reads f p (l ++ k) ↔ reads f p l ∧ reads f (p + Z.of_nat (length l)) k.
Proof.
  revert p. induction l as [|c l IH]; intros p; cbn [app length].
  - rewrite Z.add_0_r. split; [|naive_solver]. intros H. by split.
  - rewrite !reads_cons, IH. replace (p + 1 + Z.of_nat (length l)) with (p + Z.of_nat (S (length l))) by lia. naive_solver.
Qed.
Lemma reads_ext f g p l :
  reads f p l → (∀ x, p ≤ x < p + Z.of_nat (length l) → g x = f x) → reads g p l.
Proof. intros H He i c Hi. rewrite He; [by apply H|]. apply lookup_lt_Some in Hi. lia. Qed.
Lemma over_out p l f x : x < p ∨ p + Z.of_nat (length l) ≤ x → over p l f x = f x.
Proof. intros Hx. unfold over. rewrite bool_decide_false; [done|lia]. Qed.
Lemma over_reads p l f : reads (over p l f) p l.
Proof.
  intros i c Hi. apply lookup_lt_Some in Hi as Hl. unfold over. rewrite bool_decide_true by lia.
  by replace (Z.to_nat (p + Z.of_nat i - p)) with i by lia.
Qed.
Lemma over_nil p f x : over p [] f x = f x.
Proof. apply over_out. cbn. lia. Qed.
Lemma over_app p l k f x : over (p + Z.of_nat (length l)) k (over p l f) x = over p (l ++ k) f x.
Proof.
  unfold over. rewrite length_app.
  destruct (decide (p ≤ x < p + Z.of_nat (length l))).
  - rewrite bool_decide_false by lia. rewrite !bool_decide_true by lia. rewrite lookup_app_l by lia. done.
  - destruct (decide (p + Z.of_nat (length l) ≤ x < p + Z.of_nat (length l) + Z.of_nat (length k))).
    + rewrite !bool_decide_true by lia. rewrite lookup_app_r by lia. f_equal. lia.
    + by rewrite !bool_decide_false by lia.
Qed.
Lemma over_some p l f x : is_Some (f x) → is_Some (over p l f x).
Proof.
  intros Hx. unfold over. case_bool_decide; [|done]. apply lookup_lt_is_Some_2. lia.
Qed.
(** Written bytes that a later write leaves alone. *)
Lemma reads_over p l q k f :
  reads f q k → q + Z.of_nat (length k) ≤ p ∨ p + Z.of_nat (length l) ≤ q → reads (over p l f) q k.
Proof. intros H Hd. eapply reads_ext; [done|]. intros x Hx. apply over_out. lia. Qed.

Definition is_byte (b : Z) : Prop := 0 ≤ b < 256.

(** Little-endian numbers. *)
Fixpoint le_bytes (n : nat) (v : Z) : list Z :=
  match n with O => [] | S n' => v mod 256 :: le_bytes n' (v / 256) end.
Lemma le_length n v : length (le_bytes n v) = n.
Proof. revert v. induction n as [|n IH]; intros v; [done|]. cbn. by rewrite IH. Qed.
Lemma le_is_byte n v : Forall is_byte (le_bytes n v).
Proof. revert v. induction n as [|n IH]; intros v; constructor; [apply Z.mod_pos_bound; lia|apply IH]. Qed.
End bytes.

(** ** Total correctness up to a call of [abort] *)
Section wpo.
Context {S : Type}.
Implicit Types (s : S).

(** [m] returns with [Q], or aborts and [R] is the reason. *)
Definition wpo {A} (m : prog S A) (Q : A → S → Prop) (R : Prop) s : Prop :=
  match m s with Ret (a, s') => Q a s' | Abort => R | _ => False end.
Lemma wpo_bind {A B} (m : prog S A) (f : A → prog S B) Q R s :
  wpo m (λ a s', wpo (f a) Q R s') R s → wpo (m ≫= f) Q R s.
Proof. unfold wpo, mbind, prog_bind. destruct (m s) as [[a s']| | |]; done. Qed.
Lemma wpo_wp {A} (m : prog S A) Q R s : wp m Q s → wpo m Q R s.
Proof. unfold wp, wpo. by destruct (m s) as [[a s']| | |]. Qed.
Lemma wpo_step {A B} (m : prog S A) (f : A → prog S B) Q R s :
  wp m (λ a s', wpo (f a) Q R s') s → wpo (m ≫= f) Q R s.
Proof. intros H. apply wpo_bind. by apply wpo_wp. Qed.
Lemma wpo_halt {A} (Q : A → S → Prop) (R : Prop) s : R → wpo halt Q R s.
Proof. done. Qed.
Lemma wpo_mono {A} (m : prog S A) (P Q : A → S → Prop) (R R' : Prop) s :
  wpo m P R s → (∀ a s', P a s' → Q a s') → (R → R') → wpo m Q R' s.
Proof. unfold wpo. destruct (m s) as [[a s']| | |]; eauto. Qed.
End wpo.

(** ** Writing user memory *)
Section memory.
Context {V : Type} {pages_V : UserPages V} {laws_V : UserLaws V} {A : Type} {alloc_A : Allocator A}.
Abbreviation W := (eworld V A).
Implicit Types (w : W) (v : V).

(** [v'] is [v] with [l] written at [p]. *)
Record writes (vm : Z) v (p : Z) (l : list Z) v' : Prop := {
  wr_ok : up_ok vm v';
  wr_at x : up_at v' x = over p l (up_at v) x;
  wr_can rs : up_can vm v rs → up_can vm v' rs;
}.
(** The user bytes from [p] on are there. *)
Definition present v (p n : Z) : Prop := 0 ≤ p ∧ p + n ≤ LOWER_END ∧ ∀ x, p ≤ x < p + n → is_Some (up_at v x).

Lemma writes_nil vm v p : up_ok vm v → writes vm v p [] v.
Proof. intros Hok. split; [done| |done]. intros x. by rewrite over_nil. Qed.
Lemma over_cong p l (f g : Z → option Z) x : (∀ y, f y = g y) → over p l f x = over p l g x.
Proof. intros H. unfold over. by case_bool_decide. Qed.
Lemma writes_app vm v p l v1 q k v2 :
  writes vm v p l v1 → q = p + Z.of_nat (length l) → writes vm v1 q k v2 → writes vm v p (l ++ k) v2.
Proof.
  intros [H1 H2 H3] -> [K1 K2 K3]. split; [done| |auto]. intros x. rewrite K2.
  rewrite (over_cong _ _ _ (over p l (up_at v))) by done. apply over_app.
Qed.
Lemma writes_present vm v p l v' q n : writes vm v p l v' → present v q n → present v' q n.
Proof. intros H (H0 & H1 & H2). split; [done|]. split; [done|]. intros x Hx. rewrite (wr_at _ _ _ _ _ H). by apply over_some, H2. Qed.
Lemma writes_keep vm v p l v' q k :
  writes vm v p l v' → reads (up_at v) q k → q + Z.of_nat (length k) ≤ p ∨ p + Z.of_nat (length l) ≤ q →
  reads (up_at v') q k.
Proof.
  intros H Hr Hd. eapply reads_ext; [exact Hr|]. intros x Hx. rewrite (wr_at _ _ _ _ _ H). apply over_out. lia.
Qed.
Lemma writes_reads vm v p l v' : writes vm v p l v' → reads (up_at v') p l.
Proof. intros H. eapply reads_ext; [apply (over_reads p l (up_at v))|]. intros x _. apply H. Qed.
Lemma present_sub v p n q k : present v p n → p ≤ q → q + k ≤ p + n → present v q k.
Proof. intros (H0 & H1 & H2) Hq Hk. split; [lia|]. split; [lia|]. intros x Hx. apply H2. lia. Qed.

Lemma wp_store_user vm w x b (Q : unit → W → Prop) :
  up_ok vm (uspace w) → present (uspace w) x 1 → is_byte b →
  (∀ v', writes vm (uspace w) x [b] v' → Q tt (set_uspace v' w)) → wp (store x b) Q w.
Proof.
  intros Hok (H0 & H1 & H2) Hb HQ. unfold wp, store. rewrite (proj2 (Z.ltb_lt x LOWER_END)) by lia.
  destruct (up_store_law vm (uspace w) x b Hok (H2 x ltac:(lia)) Hb) as (v' & -> & Hok' & Hat & Hcan). cbn.
  apply HQ. split; [done| |done]. intros y. rewrite Hat. unfold over. cbn [length].
  destruct (Z.eqb_spec y x) as [->|].
  - rewrite bool_decide_true by lia. by rewrite Z.sub_diag.
  - by rewrite bool_decide_false by lia.
Qed.
Lemma wp_load_kernel w x b (Q : Z → W → Prop) : LOWER_END ≤ x → kmem w !! x = Some b → Q b w → wp (load x) Q w.
Proof. intros Hx Hb HQ. unfold wp, load. rewrite (proj2 (Z.ltb_ge x LOWER_END)) by lia. by rewrite Hb. Qed.

Lemma set_uspace_id w : set_uspace (uspace w) w = w.
Proof. by destruct w. Qed.

(** Copying from the kernel to the user. *)
Lemma wp_memcpy_loop vm l w d s (Q : unit → W → Prop) :
  up_ok vm (uspace w) → present (uspace w) d (Z.of_nat (length l)) → Forall is_byte l →
  LOWER_END ≤ s → reads (λ x, kmem w !! x) s l →
  (∀ v', writes vm (uspace w) d l v' → Q tt (set_uspace v' w)) → wp (memcpy_loop (length l) d s) Q w.
Proof.
  revert w d s. induction l as [|b l IH]; intros w d s Hok Hp Hb Hs Hr HQ; cbn [memcpy_loop length].
  { apply wp_ret. rewrite <- (set_uspace_id w). by apply HQ, writes_nil. }
  apply Forall_cons in Hb as [Hb Hbs]. apply reads_cons in Hr as [Hr0 Hr]. cbn [length] in Hp.
  apply wp_bind. eapply wp_load_kernel; [done|exact Hr0|]. apply wp_bind.
  eapply wp_store_user; [done|eapply present_sub; [exact Hp|lia..]|done|]. intros v1 H1.
  apply IH; [apply H1| |done|lia|done|].
  { eapply writes_present; [exact H1|]. eapply present_sub; [exact Hp|lia..]. }
  cbn [uspace]. intros v2 H2. apply (HQ v2). by eapply (writes_app _ _ _ [b]).
Qed.
Lemma wp_elf_memcpy vm l w d s n (Q : unit → W → Prop) :
  n = Z.of_nat (length l) →
  up_ok vm (uspace w) → present (uspace w) d n → Forall is_byte l →
  LOWER_END ≤ s → reads (λ x, kmem w !! x) s l →
  (∀ v', writes vm (uspace w) d l v' → Q tt (set_uspace v' w)) → wp (memcpy d s n) Q w.
Proof. intros -> . unfold memcpy. rewrite Nat2Z.id. apply wp_memcpy_loop. Qed.
Lemma wp_memset vm w d b n (Q : unit → W → Prop) :
  up_ok vm (uspace w) → present (uspace w) d n → is_byte b → 0 ≤ n →
  (∀ v', writes vm (uspace w) d (replicate (Z.to_nat n) b) v' → Q tt (set_uspace v' w)) → wp (memset d b n) Q w.
Proof.
  intros Hok Hp Hb Hn. unfold memset. rewrite <- (Z2Nat.id n) in Hp by done. generalize dependent (Z.to_nat n).
  clear n Hn. intros n Hp HQ. revert w d Hok Hp HQ.
  induction n as [|n IH]; intros w d Hok Hp HQ; cbn [memset_loop replicate] in *.
  { apply wp_ret. rewrite <- (set_uspace_id w). by apply HQ, writes_nil. }
  apply wp_bind. eapply wp_store_user; [done|eapply present_sub; [exact Hp|lia..]|done|]. intros v1 H1.
  apply IH; [apply H1| |].
  { eapply writes_present; [exact H1|]. eapply present_sub; [exact Hp|lia..]. }
  cbn [uspace]. intros v2 H2. apply (HQ v2). by eapply (writes_app _ _ _ [b]).
Qed.
Lemma wp_store_le vm n w d x (Q : unit → W → Prop) :
  up_ok vm (uspace w) → present (uspace w) d (Z.of_nat n) →
  (∀ v', writes vm (uspace w) d (le_bytes n x) v' → Q tt (set_uspace v' w)) → wp (store_le n d x) Q w.
Proof.
  revert w d x. induction n as [|n IH]; intros w d x Hok Hp HQ; cbn [store_le le_bytes].
  { apply wp_ret. rewrite <- (set_uspace_id w). by apply HQ, writes_nil. }
  apply wp_bind. eapply wp_store_user; [done|eapply present_sub; [exact Hp|lia..]|apply Z.mod_pos_bound; lia|]. intros v1 H1.
  apply IH; [apply H1| |].
  { eapply writes_present; [exact H1|]. eapply present_sub; [exact Hp|lia..]. }
  cbn [uspace]. intros v2 H2. apply (HQ v2). by eapply (writes_app _ _ _ [x mod 256]).
Qed.

(** Reading numbers of the kernel. *)
Lemma wp_load_le n w p x (Q : Z → W → Prop) :
  LOWER_END ≤ p → reads (λ y, kmem w !! y) p (le_bytes n x) → 0 ≤ x < 256 ^ Z.of_nat n → Q x w → wp (load_le n p) Q w.
Proof.
  revert p x Q. induction n as [|n IH]; intros p x Q Hp Hr Hx HQ; cbn [load_le].
  { apply wp_ret. by replace 0 with x by (cbn in Hx; lia). }
  cbn [le_bytes] in Hr. apply reads_cons in Hr as [Hr0 Hr]. apply wp_bind. eapply wp_load_kernel; [done|exact Hr0|].
  apply wp_bind. apply (IH _ (x / 256)); [lia|done| |].
  { rewrite Nat2Z.inj_succ, Z.pow_succ_r in Hx by lia. split; [apply Z.div_pos; lia|]. apply Z.div_lt_upper_bound; lia. }
  apply wp_ret. replace (x mod 256 + 256 * (x / 256)) with x; [done|]. pose proof (Z.div_mod x 256). lia.
Qed.
End memory.

(** ** Reading an executable *)

(** The requests are served one after the other. *)
Fixpoint served {A} `{Allocator A} (ns : list Z) (a : A) : Prop :=
  match ns with
  | [] => True
  | n :: ns' => ∃ p a', al_alloc n a = Ret (p, a') ∧ p ≠ 0 ∧ served ns' a'
  end.
#[global] Arguments served : simpl never.
Lemma refused {A} `{Allocator A} n ns (a a' : A) : al_alloc n a = Ret (0, a') → ¬ served (n :: ns) a.
Proof. intros H1 (p & b & H2 & Hp & _). congruence. Qed.
Lemma refused_later {A} `{Allocator A} n ns (a a' : A) p : al_alloc n a = Ret (p, a') → ¬ served ns a' → ¬ served (n :: ns) a.
Proof. intros H1 Hn (q & b & H2 & _ & Hs). rewrite H1 in H2. injection H2 as -> ->. done. Qed.

(** The file format. *)
Definition encode_header (h : elf_header) : list Z :=
  le_bytes 4 (magic h) ++ le_bytes 1 (bits h) ++ le_bytes 1 (endianness h) ++ le_bytes 1 (version_header h) ++
  le_bytes 1 (abi h) ++ le_bytes 8 (reserved h) ++ le_bytes 2 (h_type h) ++ le_bytes 2 (isa h) ++
  le_bytes 4 (version_elf h) ++ le_bytes 8 (offset_entry h) ++ le_bytes 8 (offset_prog_header_table h) ++
  le_bytes 8 (offset_sect_header_table h) ++ le_bytes 4 (h_flags h) ++ le_bytes 2 (size_header h) ++
  le_bytes 2 (size_prog_header_table_entry h) ++ le_bytes 2 (count_prog_header_table_entry h) ++
  le_bytes 2 (size_sect_header_table_entry h) ++ le_bytes 2 (count_sect_header_table_entry h) ++
  le_bytes 2 (idx_sect_header_str_table h).
Definition encode_prog_header (h : elf_program_header) : list Z :=
  le_bytes 4 (p_type h) ++ le_bytes 4 (p_flags h) ++ le_bytes 8 (buffer_offset h) ++ le_bytes 8 (load_vaddr h) ++
  le_bytes 8 (reserved_paddr h) ++ le_bytes 8 (buffer_size h) ++ le_bytes 8 (mapped_size h) ++ le_bytes 8 (p_align h).

(** The fields fit their types. *)
Definition fits (n x : Z) : Prop := 0 ≤ x < 256 ^ n.
Record header_fits (h : elf_header) : Prop := {
  hf_4 : fits 4 (magic h) ∧ fits 4 (version_elf h) ∧ fits 4 (h_flags h);
  hf_1 : fits 1 (bits h) ∧ fits 1 (endianness h) ∧ fits 1 (version_header h) ∧ fits 1 (abi h);
  hf_8 : fits 8 (reserved h) ∧ fits 8 (offset_entry h) ∧ fits 8 (offset_prog_header_table h) ∧
         fits 8 (offset_sect_header_table h);
  hf_2 : fits 2 (h_type h) ∧ fits 2 (isa h) ∧ fits 2 (size_header h) ∧ fits 2 (size_prog_header_table_entry h) ∧
         fits 2 (count_prog_header_table_entry h) ∧ fits 2 (size_sect_header_table_entry h) ∧
         fits 2 (count_sect_header_table_entry h) ∧ fits 2 (idx_sect_header_str_table h);
}.
Record prog_header_fits (h : elf_program_header) : Prop := {
  pf_4 : fits 4 (p_type h) ∧ fits 4 (p_flags h);
  pf_8 : fits 8 (buffer_offset h) ∧ fits 8 (load_vaddr h) ∧ fits 8 (reserved_paddr h) ∧
         fits 8 (buffer_size h) ∧ fits 8 (mapped_size h) ∧ fits 8 (p_align h);
}.

Lemma reads_more f p n x l :
  reads f p (le_bytes n x ++ l) ↔ reads f p (le_bytes n x) ∧ reads f (p + Z.of_nat n) l.
Proof. by rewrite reads_app, le_length. Qed.

(** Read the next field; the last one has nothing after it. *)
Ltac field H :=
  apply wp_bind; match type of H with
  | reads _ _ (_ ++ _) => let H' := fresh "Hf" in
      apply reads_more in H as [H' H]; eapply wp_load_le; [lia|exact H'|assumption|]; clear H';
      cbn [Z.of_nat Pos.of_succ_nat Pos.succ] in H; rewrite <- ?Z.add_assoc in H; cbn [Z.add Pos.add Pos.succ Pos.add_carry] in H
  | _ => eapply wp_load_le; [lia|exact H|assumption|]
  end.

Section read.
Context {V : Type} {pages_V : UserPages V} {A : Type} {alloc_A : Allocator A} {laws_A : AllocatorLaws (2 ^ 61) A}.
Abbreviation W := (eworld V A).
Implicit Types (w : W).
Abbreviation kreads w := (reads (λ x, kmem w !! x)).

Lemma wp_read_header w p h (Q : elf_header → W → Prop) :
  LOWER_END ≤ p → header_fits h → kreads w p (encode_header h) → Q h w → wp (read_header p) Q w.
Proof.
  intros Hp [] Hr HQ. destruct_and?. unfold read_header. unfold encode_header in Hr. unfold fits in *.
  do 19 field Hr. apply wp_ret. by destruct h.
Qed.
Lemma wp_read_program_header w p h (Q : elf_program_header → W → Prop) :
  LOWER_END ≤ p → prog_header_fits h → kreads w p (encode_prog_header h) → Q h w → wp (read_program_header p) Q w.
Proof.
  intros Hp [] Hr HQ. destruct_and?. unfold read_program_header. unfold encode_prog_header in Hr. unfold fits in *.
  do 8 field Hr. apply wp_ret. by destruct h.
Qed.
Lemma wp_read_program_headers w p hs (Q : list elf_program_header → W → Prop) :
  LOWER_END ≤ p → Forall prog_header_fits hs → kreads w p (concat (encode_prog_header <$> hs)) → Q hs w →
  wp (read_program_headers (length hs) p) Q w.
Proof.
  revert p Q. induction hs as [|h hs IH]; intros p Q Hp Hf Hr HQ; cbn [read_program_headers length]; [by apply wp_ret|].
  apply Forall_cons in Hf as [Hf Hfs]. rewrite fmap_cons in Hr. cbn [concat] in Hr. apply reads_app in Hr as [Hr0 Hr].
  apply wp_bind. eapply wp_read_program_header; [done..|]. apply wp_bind. apply IH; [unfold SIZEOF_PROG_HEADER; lia|done| |by apply wp_ret].
  unfold SIZEOF_PROG_HEADER. unfold encode_prog_header in Hr. rewrite !length_app, !le_length in Hr. exact Hr.
Qed.

Lemma wp_elf_slab_alloc w n (Q : Z → W → Prop) :
  al_ok (eheap w) → 0 < n < 2 ^ 61 →
  (∀ p a, al_alloc n (eheap w) = Ret (p, a) → al_ok a → took (al_live (eheap w)) p n (al_live a) → Q p (set_eheap a w)) →
  wp (slab_alloc n) Q w.
Proof using laws_A.
  intros Hok Hn HQ. destruct (al_alloc_law (eheap w) n Hok Hn) as (p & a & Hr & Hok' & Hcase).
  unfold wp, slab_alloc. rewrite Hr. cbn. by apply HQ.
Qed.
(** Giving back a block, or [NULL]. *)
Lemma wp_slab_free w p (Q : unit → W → Prop) :
  al_ok (eheap w) → p = 0 ∨ is_Some (al_live (eheap w) !! p) →
  (∀ a, al_ok a → al_live a = undo p (al_live (eheap w)) → Q tt (set_eheap a w)) → wp (slab_free p) Q w.
Proof using laws_A.
  intros Hok Hp HQ. unfold wp, slab_free, undo in *. destruct (Z.eqb_spec p 0) as [->|Hne].
  - rewrite al_free_null. cbn. by apply HQ.
  - destruct Hp as [?|[k Hk]]; [done|]. destruct (al_free_law (eheap w) p k Hok Hk) as (a & -> & Hok' & Hl). cbn. by apply HQ.
Qed.

(** What [elf_read] leaves. *)
Definition read_post w (buf : Z) (h : elf_header) (hs : list elf_program_header) (r : Z) w' : Prop :=
  al_ok (eheap w') ∧ kmem w' = kmem w ∧ uspace w' = uspace w ∧
  if r =? 0 then
    al_live (eheap w') = al_live (eheap w) ∧ elfs w' = elfs w ∧
    (is_valid_header h = false ∨ ¬ served [SIZEOF_ELF_HEADER; SIZEOF_PROG_HEADER * Z.of_nat (length hs); SIZEOF_ELF] (eheap w))
  else
    is_valid_header h = true ∧
    ∃ el, elfs w' !! r = Some el ∧ buffer el = buf ∧ headers w' !! header el = Some h ∧
      prog_headers w' !! program_headers el = Some hs ∧
      wp (elf_free r) (λ _ w'', al_live (eheap w'') = al_live (eheap w)) w'.

Lemma wp_elf_read w buf size h hs :
  al_ok (eheap w) → LOWER_END ≤ buf → header_fits h → Forall prog_header_fits hs → hs ≠ [] →
  count_prog_header_table_entry h = Z.of_nat (length hs) → kreads w buf (encode_header h) →
  LOWER_END ≤ u64 (buf + offset_prog_header_table h) →
  kreads w (u64 (buf + offset_prog_header_table h)) (concat (encode_prog_header <$> hs)) →
  wp (elf_read buf size) (read_post w buf h hs) w.
Proof using laws_A.
  intros Hok Hbuf Hf Hfs Hne Hc Hr Hpo Hrs. unfold elf_read.
  assert (0 < Z.of_nat (length hs) < 65536) as Hn.
  { destruct (hf_2 _ Hf) as (_ & _ & _ & _ & H2 & _). rewrite Hc in H2. unfold fits in H2. destruct hs; cbn in *; [done|lia]. }
  apply wp_bind. eapply wp_elf_slab_alloc; [done|unfold SIZEOF_ELF_HEADER; lia|]. intros eh a1 Hr1 Hok1 Ht1.
  destruct (Z.eqb_spec eh 0) as [->|Heh].
  { apply wp_ret. split; [done|]. do 2 (split; [done|]). cbn. split; [by destruct Ht1 as [[_ ?]|(? & ? & _)]; [|lia]|].
    split; [done|]. right. by eapply refused. }
  pose proof (took_live _ _ _ _ Ht1) as [?|Hl1]; [done|].
  apply wp_bind. eapply wp_read_header; [done..|]. apply wp_bind, wp_modify.
  destruct (is_valid_header h) eqn:Hv; cbn [negb].
  2:{ apply wp_bind. eapply wp_slab_free; [done|by right|]. intros a2 Hok2 Hl2. cbn in Hl2. apply wp_bind, wp_modify, wp_ret.
      split; [done|]. do 2 (split; [done|]). cbn. rewrite Hl2, (took_undo _ _ _ _ Ht1). by split_and!; auto. }
  rewrite Hc. apply wp_bind. eapply wp_elf_slab_alloc; [done|unfold SIZEOF_PROG_HEADER; lia|]. intros ph a2 Hr2 Hok2 Ht2. cbn in Hr2, Ht2.
  destruct (Z.eqb_spec ph 0) as [->|Hph].
  { assert (al_live a2 = al_live a1) as E by (destruct Ht2 as [[_ ?]|(? & ? & _)]; [done|lia]).
    apply wp_bind. eapply wp_slab_free; [done|right; cbn; by rewrite E|]. intros a3 Hok3 Hl3. cbn in Hl3.
    apply wp_bind, wp_modify, wp_ret. split; [done|]. do 2 (split; [done|]). cbn.
    rewrite Hl3, E, (took_undo _ _ _ _ Ht1). split; [done|]. split; [done|]. right.
    eapply refused_later; [exact Hr1|]. by eapply refused. }
  pose proof (took_live _ _ _ _ Ht2) as [?|Hl2]; [done|].
  assert (eh ≠ ph) as Hep by (destruct (took_ne _ _ _ _ _ Ht2 Hl1); congruence).
  apply wp_bind. rewrite Nat2Z.id. eapply wp_read_program_headers; [done..|]. apply wp_bind, wp_modify.
  apply wp_bind. eapply wp_elf_slab_alloc; [done|unfold SIZEOF_ELF; lia|]. intros re a3 Hr3 Hok3 Ht3. cbn in Hr3, Ht3.
  pose proof (give_back_three _ _ _ _ _ _ _ _ _ _ Ht1 Ht2 Ht3) as (B1 & B2 & B3 & B4).
  destruct (Z.eqb_spec re 0) as [->|Hre].
  { assert (al_live a3 = al_live a2) as E by (destruct Ht3 as [[_ ?]|(? & ? & _)]; [done|lia]).
    apply wp_bind. eapply wp_slab_free; [done|right; cbn; by rewrite E|]. intros a4 Hok4 Hl4. cbn in Hl4. apply wp_bind, wp_modify.
    apply wp_bind. eapply wp_slab_free; [done|right; cbn; rewrite Hl4; apply undo_keeps; [by left|]; by destruct B1|].
    intros a5 Hok5 Hl5. cbn in Hl5. apply wp_bind, wp_modify, wp_ret. split; [done|]. do 2 (split; [done|]). cbn.
    rewrite Hl5, Hl4, E, (took_undo _ _ _ _ Ht2), (took_undo _ _ _ _ Ht1). split; [done|]. split; [done|]. right.
    eapply refused_later; [exact Hr1|]. eapply refused_later; [exact Hr2|]. by eapply refused. }
  apply wp_bind, wp_modify, wp_ret. split; [done|]. do 2 (split; [done|]). rewrite (proj2 (Z.eqb_neq re 0)) by done.
  split; [done|]. exists (MkElf eh ph buf). cbn. rewrite !lookup_insert_eq. do 4 (split; [done|]).
  unfold elf_free. apply wp_bind. unfold load_elf. apply wp_bind, wp_gets. eapply wp_lift; [cbn; by rewrite lookup_insert_eq|]. cbn [program_headers header].
  apply wp_bind. rewrite (undo_comm ph eh) in B3, B4. rewrite (undo_comm re eh), (undo_comm re ph) in B4.
  assert (is_Some (al_live a3 !! ph)) as L2 by (destruct Hl2 as [k Hk]; eexists; by eapply took_mono).
  eapply wp_slab_free; [done|by right|]. intros a4 Hok4 Hl4. cbn in Hl4. apply wp_bind, wp_modify.
  apply wp_bind. eapply wp_slab_free; [done|right; cbn; rewrite Hl4; apply undo_keeps; [by left|]; by destruct B1|].
  intros a5 Hok5 Hl5. cbn in Hl5. apply wp_bind, wp_modify.
  apply wp_bind. eapply wp_slab_free; [done|cbn; by rewrite Hl5, Hl4|].
  intros a6 Hok6 Hl6. cbn in Hl6. apply wp_modify. cbn. rewrite Hl6, Hl5, Hl4. rewrite (undo_comm re eh), (undo_comm re ph). done.
Qed.
End read.

(** ** Mapping and filling the segments *)
Section segments.
Context {V : Type} {pages_V : UserPages V} {laws_V : UserLaws V} {A : Type} {alloc_A : Allocator A}.
Abbreviation W := (eworld V A).
Implicit Types (w : W) (v : V) (h : elf_program_header) (hs : list elf_program_header).

Definition is_load h : bool := p_type h =? ELF_PROG_HEADER_TYPE_LOAD.
Definition loads hs : list elf_program_header := filter (λ h, is_load h = true) hs.
Definition segment_run h : Z * Z := (load_vaddr h, page_count h).

(** A segment that the loader handles: in the lower half, with its contents in
    the file, ending in the last page that [page_count] accounts for. *)
Record segment_ok w (buf : Z) h : Prop := {
  so_low : 4096 ≤ load_vaddr h;
  so_size : 0 ≤ buffer_size h ≤ mapped_size h ∧ 0 < mapped_size h;
  so_pages : load_vaddr h mod 4096 + mapped_size h ≤ 4096 * page_count h;
  so_high : load_vaddr h + 4096 * page_count h ≤ LOWER_END;
  so_file : LOWER_END ≤ u64 (buf + buffer_offset h);
  so_data : ∃ l, Z.of_nat (length l) = buffer_size h ∧ Forall is_byte l ∧
              reads (λ x, kmem w !! x) (u64 (buf + buffer_offset h)) l;
}.
(** [v] holds the segment: the bytes of the file, then zeros. *)
Definition holds_segment w (buf : Z) v h : Prop :=
  (∀ i, 0 ≤ i < buffer_size h → up_at v (load_vaddr h + i) = kmem w !! (u64 (buf + buffer_offset h) + i)) ∧
  (∀ i, buffer_size h ≤ i < mapped_size h → up_at v (load_vaddr h + i) = Some 0).
Definition in_segment h (x : Z) : Prop := load_vaddr h ≤ x < load_vaddr h + mapped_size h.

Lemma wp_load_elf w e el (Q : elf → W → Prop) : elfs w !! e = Some el → Q el w → wp (load_elf e) Q w.
Proof. intros He HQ. unfold load_elf. apply wp_bind, wp_gets. by eapply wp_lift; [rewrite He|]. Qed.
Lemma wp_load_header w el eh (Q : elf_header → W → Prop) : headers w !! header el = Some eh → Q eh w → wp (load_header el) Q w.
Proof. intros He HQ. unfold load_header. apply wp_bind, wp_gets. by eapply wp_lift; [rewrite He|]. Qed.
Lemma wp_load_prog_header w el hs i h (Q : elf_program_header → W → Prop) :
  prog_headers w !! program_headers el = Some hs → hs !! i = Some h → Q h w →
  wp (load_prog_header el (Z.of_nat i)) Q w.
Proof.
  intros He Hi HQ. unfold load_prog_header. apply wp_bind, wp_gets, wp_bind. eapply wp_lift; [by rewrite He|].
  eapply wp_lift; [by rewrite Nat2Z.id, Hi|done].
Qed.

Lemma page_of x p n : p ≤ x → x < p - p mod 4096 + 4096 * n → p / 4096 ≤ x / 4096 < p / 4096 + n.
Proof. intros. zdiv. Qed.

(** After the loop, the pages of all segments are there. *)
Lemma wp_elf_map_loop vm el hs0 k hs rs w :
  prog_headers w !! program_headers el = Some hs0 → drop k hs0 = hs →
  Forall (λ h, (p_type h =? ELF_PROG_HEADER_TYPE_DYNAMIC) = false) hs →
  Forall (segment_ok w (buffer el)) (loads hs) →
  up_ok vm (uspace w) → up_can vm (uspace w) ((segment_run <$> loads hs) ++ rs) →
  wp (elf_map_loop (length hs) (Z.of_nat k) el vm)
    (λ b w', b = true ∧ ∃ v', w' = set_uspace v' w ∧ up_ok vm v' ∧ up_can vm v' rs ∧
       (∀ x, is_Some (up_at (uspace w) x) → is_Some (up_at v' x)) ∧
       ∀ h, h ∈ loads hs → present v' (load_vaddr h) (mapped_size h)) w.
Proof.
  revert k w. induction hs as [|h hs IH]; intros k w Hp Hd Hdyn Hseg Hok Hcan; cbn [elf_map_loop length].
  { apply wp_ret. split; [done|]. exists (uspace w). rewrite set_uspace_id. split_and!; try done.
    intros h Hh. by apply elem_of_nil in Hh. }
  assert (hs0 !! k = Some h) as Hk by (rewrite <- (Nat.add_0_r k), <- lookup_drop, Hd; done).
  assert (drop (S k) hs0 = hs) as Hd' by (rewrite (drop_S _ _ _ Hk) in Hd; by injection Hd).
  apply Forall_cons in Hdyn as [Hdy Hdyn]. apply wp_bind. eapply wp_load_prog_header; [exact Hp|exact Hk|].
  replace (Z.of_nat k + 1) with (Z.of_nat (S k)) by lia. unfold loads in *. rewrite filter_cons in *.
  destruct (p_type h =? ELF_PROG_HEADER_TYPE_LOAD) eqn:Ety.
  2:{ rewrite Hdy. rewrite decide_False in * by (unfold is_load; congruence). by apply IH. }
  rewrite decide_True in * by done. apply Forall_cons in Hseg as [Hs Hseg]. cbn [fmap list_fmap app] in Hcan.
  destruct Hs as [S1 [S2 S2'] S3 S4 S5 S6]. pose proof (Z.mod_pos_bound (load_vaddr h) 4096 ltac:(lia)) as Hmod.
  assert (0 < page_count h) as Hpc by lia.
  destruct (up_map_law vm (uspace w) _ _ _ Hok Hcan S1 Hpc S4) as (r & v1 & Hr & Hok1 & Hcan1 & Hat1).
  apply wp_bind. unfold wp at 1, vmm_map. rewrite Hr. cbn [mbind outcome_bind].
  eapply wp_mono; [apply (IH (S k) (set_uspace v1 w)); try done|].
  { eapply Forall_impl; [exact Hseg|]. intros h' []. by split. }
  intros b w' (-> & v' & -> & Hok' & Hcan' & Hkeep & Hpr). split; [done|]. exists v'. split; [done|]. do 2 (split; [done|]). split.
  { intros x Hx. apply Hkeep. cbn. specialize (Hat1 x). case_bool_decide; [done|]. by rewrite Hat1. }
  intros h' [->|Hh']%elem_of_cons; [|by apply Hpr]. split; [lia|]. split; [lia|]. intros x Hx. apply Hkeep. cbn.
  specialize (Hat1 x). rewrite bool_decide_true in Hat1; [done|]. apply page_of; lia.
Qed.

(** Filling one segment. *)
Lemma wp_fill_segment vm el w h (Q : unit → W → Prop) :
  segment_ok w (buffer el) h → up_ok vm (uspace w) → present (uspace w) (load_vaddr h) (mapped_size h) →
  (∀ v' l, Z.of_nat (length l) = mapped_size h → writes vm (uspace w) (load_vaddr h) l v' →
     holds_segment w (buffer el) v' h → Q tt (set_uspace v' w)) →
  wp (fill_segment el h) Q w.
Proof.
  intros [S1 [S2 S2'] S3 S4 S5 (l & Hl & Hb & Hr)] Hok Hp HQ. unfold fill_segment. apply wp_bind.
  pose proof (Z.mod_pos_bound (load_vaddr h) 4096 ltac:(lia)) as Hmod.
  eapply (wp_elf_memcpy vm l); [done|done|eapply present_sub; [exact Hp|lia..]|done|done|done|]. intros v1 H1.
  assert (∀ v' k, writes vm (uspace w) (load_vaddr h) (l ++ k) v' → ∀ i, 0 ≤ i < buffer_size h →
     up_at v' (load_vaddr h + i) = kmem w !! (u64 (buffer el + buffer_offset h) + i)) as Hdata.
  { intros v' k Hw i Hi. destruct (lookup_lt_is_Some_2 l (Z.to_nat i)) as [c Hc]; [lia|].
    pose proof (writes_reads _ _ _ _ _ Hw (Z.to_nat i) c) as H2. rewrite lookup_app_l in H2 by lia. rewrite Z2Nat.id in H2 by lia.
    rewrite H2 by done. specialize (Hr _ _ Hc). rewrite Z2Nat.id in Hr by lia. done. }
  unfold when. destruct (Z.ltb_spec (buffer_size h) (mapped_size h)) as [Hlt|Hge].
  2:{ apply wp_ret. eapply HQ; [|exact H1|]; [lia|]. split; [|lia]. eapply (Hdata v1 []). by rewrite app_nil_r. }
  unfold LOWER_END in *. rewrite (u64_small (load_vaddr h + buffer_size h)) by (unfold is_u64; lia).
  eapply (wp_memset vm); [apply H1| |done|lia|].
  { eapply writes_present; [exact H1|]. eapply present_sub; [exact Hp|lia..]. }
  intros v2 H2. cbn in H2. assert (load_vaddr h + buffer_size h = load_vaddr h + Z.of_nat (length l)) as Hq by lia.
  pose proof (writes_app _ _ _ _ _ _ _ _ H1 Hq H2) as H3.
  eapply (HQ v2); [|exact H3|]; [rewrite length_app, length_replicate; lia|]. split; [by eapply Hdata|].
  intros i Hi. pose proof (writes_reads _ _ _ _ _ H2 (Z.to_nat (i - buffer_size h)) 0) as H4.
  rewrite Z2Nat.id in H4 by lia. replace (load_vaddr h + i) with (load_vaddr h + buffer_size h + (i - buffer_size h)) by lia.
  apply H4. apply lookup_replicate_2. lia.
Qed.

Definition highest_end (top : Z) hs : Z := foldl (λ m h, Z.max m (load_vaddr h + mapped_size h)) top (loads hs).
Lemma highest_foldl top l :
  top ≤ foldl (λ m h, Z.max m (load_vaddr h + mapped_size h)) top l.
Proof. revert top. induction l as [|h l IH]; intros top; cbn [foldl]; [lia|]. etrans; [|apply IH]. lia. Qed.
Lemma highest_bound top hs h : h ∈ loads hs → load_vaddr h + mapped_size h ≤ highest_end top hs.
Proof.
  unfold highest_end. generalize (loads hs) as l. intros l. revert top. induction l as [|g l IH]; intros top Hin; [by apply elem_of_nil in Hin|].
  cbn [foldl]. apply elem_of_cons in Hin as [->|Hin]; [|by apply IH]. etrans; [|apply highest_foldl]. lia.
Qed.

Definition segments_apart (g h : elf_program_header) : Prop :=
  load_vaddr g + mapped_size g ≤ load_vaddr h ∨ load_vaddr h + mapped_size h ≤ load_vaddr g.
Lemma holds_segment_ext w buf v v' h :
  holds_segment w buf v h → 0 ≤ buffer_size h ≤ mapped_size h → (∀ x, in_segment h x → up_at v' x = up_at v x) → holds_segment w buf v' h.
Proof.
  unfold in_segment. intros [H1 H2] Hs He. split; intros i Hi; (rewrite He by lia); [by apply H1|by apply H2].
Qed.

(** After the loop, all segments hold their contents and nothing else changed. *)
Lemma wp_fill_loop vm el hs0 k hs top w :
  prog_headers w !! program_headers el = Some hs0 → drop k hs0 = hs →
  Forall (segment_ok w (buffer el)) (loads hs) → ForallOrdPairs segments_apart (loads hs) →
  (∀ h, h ∈ loads hs → present (uspace w) (load_vaddr h) (mapped_size h)) → up_ok vm (uspace w) →
  wp (fill_loop (length hs) (Z.of_nat k) el top)
    (λ top' w', top' = highest_end top hs ∧ ∃ v', w' = set_uspace v' w ∧ up_ok vm v' ∧
       (∀ rs, up_can vm (uspace w) rs → up_can vm v' rs) ∧
       (∀ h, h ∈ loads hs → holds_segment w (buffer el) v' h) ∧
       ∀ x, (∀ h, h ∈ loads hs → ¬ in_segment h x) → up_at v' x = up_at (uspace w) x) w.
Proof.
  revert k top w. induction hs as [|h hs IH]; intros k top w Hp Hd Hseg Hap Hpr Hok; cbn [fill_loop length].
  { apply wp_ret. split; [done|]. exists (uspace w). rewrite set_uspace_id. split_and!; try done.
    intros h Hh. by apply elem_of_nil in Hh. }
  assert (hs0 !! k = Some h) as Hk by (rewrite <- (Nat.add_0_r k), <- lookup_drop, Hd; done).
  assert (drop (S k) hs0 = hs) as Hd' by (rewrite (drop_S _ _ _ Hk) in Hd; by injection Hd).
  apply wp_bind. eapply wp_load_prog_header; [exact Hp|exact Hk|].
  replace (Z.of_nat k + 1) with (Z.of_nat (S k)) by lia. unfold highest_end, loads in *. rewrite filter_cons in *.
  destruct (p_type h =? ELF_PROG_HEADER_TYPE_LOAD) eqn:Ety.
  2:{ rewrite decide_False in * by (unfold is_load; congruence). by apply IH. }
  rewrite decide_True in * by done. apply Forall_cons in Hseg as [Hs Hseg].
  assert (Forall (segments_apart h) (filter (λ h, is_load h = true) hs) ∧
          ForallOrdPairs segments_apart (filter (λ h, is_load h = true) hs)) as [Hap1 Hap2] by (by inversion Hap).
  pose proof Hs as [S1 [S2 S2'] S3 S4 S5 S6]. pose proof (Z.mod_pos_bound (load_vaddr h) 4096 ltac:(lia)) as Hmod.
  rewrite (u64_small (load_vaddr h + mapped_size h)) by (unfold is_u64, LOWER_END in *; lia).
  apply wp_bind. eapply (wp_fill_segment vm); [done|done|apply Hpr; by left|]. intros v1 l Hl Hw1 Hh1.
  eapply wp_mono; [apply (IH (S k) _ (set_uspace v1 w)); try done|].
  { eapply Forall_impl; [exact Hseg|]. intros h' []. by split. }
  { intros h' Hh'. eapply writes_present; [exact Hw1|]. apply Hpr. by right. }
  { apply Hw1. }
  intros top' w' (-> & v' & -> & Hok' & Hcan & Hall & Hout). split.
  { cbn [foldl]. f_equal. destruct (Z.ltb_spec top (load_vaddr h + mapped_size h)); lia. }
  exists v'. split; [done|]. split; [done|]. split; [intros rs Hrs; by apply Hcan, (wr_can _ _ _ _ _ Hw1)|]. split.
  - intros h' [->|Hh']%elem_of_cons; [|by apply Hall]. eapply holds_segment_ext; [exact Hh1|lia|].
    intros x Hx. apply Hout. intros h'' Hh''. rewrite Forall_forall in Hap1. specialize (Hap1 h'' Hh'').
    unfold segments_apart, in_segment in *. lia.
  - intros x Hx. rewrite Hout by (intros; apply Hx; by right). cbn. rewrite (wr_at _ _ _ _ _ Hw1).
    apply over_out. assert (¬ in_segment h x) as Hni by (apply Hx; by left). unfold in_segment in Hni. lia.
Qed.
End segments.

(** ** The user stack *)
Section stack.
Context {V : Type} {pages_V : UserPages V} {laws_V : UserLaws V}.
Context {A : Type} {alloc_A : Allocator A} {laws_A : AllocatorLaws (2 ^ 61) A} {arena_A : AllocatorArena A}.
Abbreviation W := (eworld V A).
Implicit Types (w : W) (v : V) (ss : list (list Z)).

(** A string of the kernel. *)
Definition string_at w (p : Z) (s : list Z) : Prop := LOWER_END ≤ p ∧ cstr (kmem w) p s.
(** A [NULL]-terminated array of strings; [NULL] stands for none. *)
Definition vector w (a : Z) ss : Prop :=
  (a = 0 ∧ ss = []) ∨
  (a ≠ 0 ∧ ∃ ps rest, arrays w !! a = Some (ps ++ 0 :: rest) ∧ Forall2 (string_at w) ps ss).

Definition string_size (s : list Z) : Z := Z.of_nat (length s) + 1.
Definition strings_size ss : Z := foldr (λ s n, string_size s + n) 0 ss.
(** Where the strings go, from [top] down. *)
Fixpoint string_addrs (top : Z) ss : list Z :=
  match ss with [] => [] | s :: ss' => (top - string_size s) :: string_addrs (top - string_size s) ss' end.
Lemma string_addrs_length top ss : length (string_addrs top ss) = length ss.
Proof. revert top. induction ss as [|s ss IH]; intros top; cbn; [done|]. by rewrite IH. Qed.
Lemma strings_size_nonneg ss : 0 ≤ strings_size ss.
Proof. unfold strings_size. induction ss as [|s ss IH]; cbn [foldr]; [lia|]. unfold string_size at 1. lia. Qed.

Lemma cstr_reads m p s : cstr m p s → reads (λ x, m !! x) p (s ++ [0]).
Proof.
  revert p. induction s as [|c s IH]; intros p; cbn [cstr app].
  - intros H. apply reads_cons. by split.
  - intros (Hc & _ & Hs). apply reads_cons. auto.
Qed.
Lemma cstr_bytes m p s : cstr m p s → Forall is_byte (s ++ [0]).
Proof.
  intros H%cstr_nonzero. apply Forall_app. split; [|by constructor]. eapply Forall_impl; [exact H|]. unfold is_byte. lia.
Qed.
Lemma wp_array_get w a l i x (Q : Z → W → Prop) :
  arrays w !! a = Some l → l !! i = Some x → Q x w → wp (array_get a (Z.of_nat i)) Q w.
Proof.
  intros Ha Hi HQ. unfold array_get. apply wp_bind, wp_gets, wp_bind. eapply wp_lift; [by rewrite Ha|].
  eapply wp_lift; [by rewrite Nat2Z.id, Hi|done].
Qed.
Lemma wp_array_set w a l i x (Q : unit → W → Prop) :
  arrays w !! a = Some l → (i < length l)%nat → Q tt (set_arrays (<[a := <[i := x]> l]> (arrays w)) w) →
  wp (array_set a (Z.of_nat i) x) Q w.
Proof.
  intros Ha Hi HQ. destruct (lookup_lt_is_Some_2 l i Hi) as [y Hy]. unfold array_set. apply wp_bind, wp_gets, wp_bind.
  eapply wp_lift; [by rewrite Ha|]. apply wp_bind. eapply wp_lift; [by rewrite Nat2Z.id, Hy|]. apply wp_modify. by rewrite Nat2Z.id.
Qed.
Lemma wp_kstrlen w p s (Q : Z → W → Prop) : cstr (kmem w) p s → Q (Z.of_nat (length s)) w → wp (kstrlen p) Q w.
Proof. intros Hs HQ. unfold wp, kstrlen. by rewrite (strlen_run _ _ _ Hs). Qed.

Lemma string_array_run w a ps rest k fuel :
  arrays w !! a = Some (ps ++ 0 :: rest) → Forall (λ p, p ≠ 0) ps → (k ≤ length ps)%nat → (length ps < fuel + k)%nat →
  Z.of_nat (length ps) < 2 ^ 64 →
  string_array_loop fuel a (Z.of_nat k) w = Ret (Z.of_nat (length ps), w).
Proof.
  intros Ha Hnz. revert k. induction fuel as [|fuel IH]; intros k Hk Hf Hl; [lia|]. cbn [string_array_loop].
  destruct (decide (k = length ps)) as [->|Hne].
  - assert (array_get a (Z.of_nat (length ps)) w = Ret (0, w)) as E.
    { unfold array_get, mbind, prog_bind, gets, lift. rewrite Ha. cbn. rewrite Nat2Z.id.
      by rewrite lookup_app_r, Nat.sub_diag by lia. }
    by rewrite (bind_run _ _ _ _ _ E).
  - destruct (lookup_lt_is_Some_2 ps k) as [p Hp]; [lia|].
    assert (array_get a (Z.of_nat k) w = Ret (p, w)) as E.
    { unfold array_get, mbind, prog_bind, gets, lift. rewrite Ha. cbn. rewrite Nat2Z.id.
      by rewrite (lookup_app_l_Some _ _ _ _ Hp). }
    rewrite (bind_run _ _ _ _ _ E). rewrite Forall_lookup in Hnz. rewrite (proj2 (Z.eqb_neq p 0)) by (by eapply Hnz).
    rewrite u64_small by (unfold is_u64; lia). replace (Z.of_nat k + 1) with (Z.of_nat (S k)) by lia. apply IH; lia.
Qed.

(** ** Copying strings down from the top *)
Record pushed (vm : Z) w (user : Z) (k : nat) (lu : list Z) (top : Z) ss w' : Prop := {
  pu_world : ∃ v' lu', w' = set_arrays (<[user := lu']> (arrays w)) (set_uspace v' w) ∧ length lu' = length lu ∧
    (∀ j a, string_addrs top ss !! j = Some a → lu' !! (k + j)%nat = Some a) ∧ (∀ j, (j < k)%nat → lu' !! j = lu !! j);
  pu_ok : up_ok vm (uspace w');
  pu_can rs : up_can vm (uspace w) rs → up_can vm (uspace w') rs;
  pu_strings : Forall2 (λ a s, reads (up_at (uspace w')) a (s ++ [0])) (string_addrs top ss) ss;
  pu_rest x : ¬ (top - strings_size ss ≤ x < top) → up_at (uspace w') x = up_at (uspace w) x;
  pu_present q n : present (uspace w) q n → present (uspace w') q n;
}.

Lemma wp_push_strings vm checked strings user bottom l0 ps ss k lu top w :
  arrays w !! strings = Some l0 → strings ≠ 0 → (∀ j p, ps !! j = Some p → l0 !! (k + j)%nat = Some p) →
  arrays w !! user = Some lu → user ≠ strings → (k + length ps ≤ length lu)%nat → Forall2 (string_at w) ps ss →
  up_ok vm (uspace w) → present (uspace w) bottom (top - bottom) → bottom + strings_size ss ≤ top →
  wp (push_strings (length ps) (Z.of_nat k) strings user bottom top checked)
    (λ top' w', top' = top - strings_size ss ∧ pushed vm w user k lu top ss w') w.
Proof.
  intros H0 Hs0. revert k lu top w ss H0.
  induction ps as [|p ps IH]; intros k lu top w ss H0 Hps Hu Hne Hlen Hss Hok Hpr Hfit; cbn [push_strings length].
  { apply Forall2_nil_inv_l in Hss as ->. apply wp_ret. split; [cbn; lia|]. split; try done.
    exists (uspace w), lu. rewrite insert_id by done. split; [by destruct w|]. by split_and!.
  }
  apply Forall2_cons_inv_l in Hss as (s & ss' & [Hp Hs] & Hss & ->). cbn [length] in Hlen.
  rewrite (proj2 (Z.eqb_neq strings 0)), andb_false_r by done.
  apply wp_bind. eapply wp_array_get; [exact H0|rewrite <- (Nat.add_0_r k); by apply Hps|].
  assert ((p =? 0) = false) as -> by (unfold LOWER_END in *; lia). rewrite andb_false_r.
  apply wp_bind. eapply wp_kstrlen; [exact Hs|].
  assert (strings_size (s :: ss') = string_size s + strings_size ss') as Esz by done.
  pose proof (strings_size_nonneg ss') as Hn. destruct Hpr as (P0 & P1 & P2).
  assert (string_size s = Z.of_nat (length s) + 1) as Esl by done.
  rewrite !u64_small by (unfold is_u64, LOWER_END in *; lia). rewrite <- Esl.
  rewrite (proj2 (Z.ltb_ge (top - bottom) (string_size s))) by lia.
  apply wp_bind. eapply (wp_elf_memcpy vm (s ++ [0])); [rewrite length_app; cbn; lia|done| |by eapply cstr_bytes|done|by apply cstr_reads|].
  { split; [lia|]. split; [lia|]. intros x Hx. apply P2. lia. }
  intros v1 Hw1. apply wp_bind. eapply wp_array_set; [exact Hu|lia|]. set (w1 := set_arrays _ _).
  replace (Z.of_nat k + 1) with (Z.of_nat (S k)) by lia.
  eapply wp_mono; [apply (IH (S k) (<[k := top - string_size s]> lu) (top - string_size s) w1 ss')|].
  - cbn. by rewrite lookup_insert_ne.
  - intros j q Hj. replace (S k + j)%nat with (k + S j)%nat by lia. by apply Hps.
  - cbn. by rewrite lookup_insert_eq.
  - done.
  - rewrite length_insert. lia.
  - done.
  - apply Hw1.
  - split; [lia|]. split; [lia|]. intros x Hx. cbn. rewrite (wr_at _ _ _ _ _ Hw1). apply over_some, P2. lia.
  - lia.
  - intros top' w' (-> & [(v' & lu' & Hw' & Hl' & Had & Hlow) Q1 Q2 Q3 Q4 Q5]). split; [lia|]. 
    assert (Z.of_nat (length (s ++ [0])) = string_size s) as Els by (rewrite length_app; cbn; lia).
    split.
    + exists v', lu'. split; [rewrite Hw'; unfold w1; cbn; by rewrite insert_insert_eq|].
      split; [by rewrite Hl', length_insert|]. split.
      * intros [|j] a; cbn [string_addrs lookup list_lookup].
        -- intros [= <-]. rewrite Nat.add_0_r, Hlow by lia. apply list_lookup_insert_eq. lia.
        -- intros Hj. replace (k + S j)%nat with (S k + j)%nat by lia. by apply Had.
      * intros j Hj. rewrite Hlow by lia. apply list_lookup_insert_ne. lia.
    + done.
    + intros rs Hrs. by apply Q2, (wr_can _ _ _ _ _ Hw1).
    + cbn [string_addrs]. constructor; [|done]. eapply reads_ext; [eapply writes_reads; exact Hw1|].
      intros x Hx. apply Q4. lia.
    + intros x Hx. rewrite Q4 by lia. cbn. rewrite (wr_at _ _ _ _ _ Hw1). apply over_out. lia.
    + intros q n Hq. apply Q5. by eapply writes_present.
Qed.

(** ** The words of the frame *)
Definition le_words (xs : list Z) : list Z := concat (le_bytes 8 <$> xs).
Lemma le_words_length xs : Z.of_nat (length (le_words xs)) = 8 * Z.of_nat (length xs).
Proof.
  unfold le_words. induction xs as [|x xs IH]; [done|]. rewrite fmap_cons. cbn [concat]. rewrite length_app, le_length.
  cbn [length]. lia.
Qed.
Lemma le_words_app xs ys : le_words (xs ++ ys) = le_words xs ++ le_words ys.
Proof. unfold le_words. by rewrite fmap_app, concat_app. Qed.
Lemma wp_copy_slots vm a l xs k slot stack w :
  arrays w !! a = Some l → (∀ j x, xs !! j = Some x → l !! (k + j)%nat = Some x) →
  0 ≤ stack → 0 ≤ slot → up_ok vm (uspace w) → present (uspace w) (stack + 8 * slot) (8 * Z.of_nat (length xs)) →
  wp (copy_slots (length xs) (Z.of_nat k) slot a stack)
    (λ slot' w', slot' = slot + Z.of_nat (length xs) ∧
       ∃ v', w' = set_uspace v' w ∧ writes vm (uspace w) (stack + 8 * slot) (le_words xs) v') w.
Proof.
  revert k slot w. induction xs as [|x xs IH]; intros k slot w Ha Hxs Hs0 Hsl Hok Hpr; cbn [copy_slots length].
  { apply wp_ret. split; [cbn; lia|]. exists (uspace w). split; [by rewrite set_uspace_id|]. by apply writes_nil. }
  apply wp_bind. eapply wp_array_get; [exact Ha|rewrite <- (Nat.add_0_r k); by apply Hxs|]. cbn [length] in Hpr.
  pose proof Hpr as (P0 & P1 & _). rewrite u64_small by (unfold is_u64, LOWER_END in *; lia).
  apply wp_bind. eapply wp_store_le; [done|eapply present_sub; [exact Hpr|lia..]|]. intros v1 Hw1.
  replace (Z.of_nat k + 1) with (Z.of_nat (S k)) by lia. eapply wp_mono; [apply (IH (S k) (slot + 1) (set_uspace v1 w))|].
  - done.
  - intros j y Hj. replace (S k + j)%nat with (k + S j)%nat by lia. by apply Hxs.
  - done.
  - lia.
  - apply Hw1.
  - eapply writes_present; [exact Hw1|]. eapply present_sub; [exact Hpr|lia..].
  - intros slot' w' (-> & v' & -> & Hw2). split; [lia|]. exists v'. split; [done|]. cbn in Hw2.
    unfold le_words in *. rewrite fmap_cons. cbn [concat]. eapply writes_app; [exact Hw1| |exact Hw2]. rewrite le_length. lia.
Qed.

Definition frame_words (argc : Z) (aa ea : list Z) : list Z := argc :: aa ++ 0 :: ea ++ [0; 0].
Lemma frame_words_length argc aa ea :
  Z.of_nat (length (frame_words argc aa ea)) = Z.of_nat (length aa) + Z.of_nat (length ea) + 4.
Proof. unfold frame_words. cbn [length]. rewrite length_app. cbn [length]. rewrite length_app. cbn [length]. lia. Qed.

(** The stores of the frame, before the rest [K] of the code. *)
Lemma wp_frame {B} vm argc aa ea au eu la le stack w (K : prog W B) (Q : B → W → Prop) :
  arrays w !! au = Some la → (∀ j x, aa !! j = Some x → la !! j = Some x) →
  arrays w !! eu = Some le → (∀ j x, ea !! j = Some x → le !! j = Some x) →
  up_ok vm (uspace w) → present (uspace w) stack (8 * Z.of_nat (length (frame_words argc aa ea))) →
  (∀ v', writes vm (uspace w) stack (le_words (frame_words argc aa ea)) v' → wp K Q (set_uspace v' w)) →
  wp (_ ← store_le 8 stack argc;
      slot ← copy_slots (length aa) 0 1 au stack;
      _ ← store_le 8 (u64 (stack + 8 * slot)) 0;
      slot ← copy_slots (length ea) 0 (slot + 1) eu stack;
      _ ← store_le 8 (u64 (stack + 8 * slot)) 0;
      _ ← store_le 8 (u64 (stack + 8 * (slot + 1))) 0; K) Q w.
Proof.
  intros Hau Haa Heu Hea Hok Hpr HK. rewrite frame_words_length in Hpr. pose proof Hpr as (P0 & P1 & _).
  assert (∀ z, 0 ≤ z ≤ Z.of_nat (length aa) + Z.of_nat (length ea) + 4 → u64 (stack + 8 * z) = stack + 8 * z) as Hu
    by (intros z Hz; apply u64_small; unfold is_u64, LOWER_END in *; lia).
  apply wp_bind. eapply wp_store_le; [done|eapply present_sub; [exact Hpr|lia..]|]. intros v1 W1.
  apply wp_bind. eapply wp_mono; [apply (wp_copy_slots vm au la aa 0 1 stack); [done|done|lia|lia|apply W1|]|].
  { eapply writes_present; [exact W1|]. eapply present_sub; [exact Hpr|lia..]. }
  intros s1 w2 (-> & v2 & -> & W2). cbn in W2. pose proof (writes_app _ _ _ _ _ _ _ _ W1 ltac:(by rewrite le_length) W2) as W12.
  rewrite Hu by lia. apply wp_bind. eapply wp_store_le; [apply W12| |].
  { eapply writes_present; [exact W12|]. eapply present_sub; [exact Hpr|lia..]. }
  intros v3 W3. cbn in W3.
  assert (stack + 8 * (1 + Z.of_nat (length aa)) = stack + Z.of_nat (length (le_bytes 8 argc ++ le_words aa))) as E3
    by (rewrite length_app, le_length, Nat2Z.inj_add, le_words_length; lia).
  pose proof (writes_app _ _ _ _ _ _ _ _ W12 E3 W3) as W13.
  apply wp_bind. eapply wp_mono; [apply (wp_copy_slots vm eu le ea 0 (1 + Z.of_nat (length aa) + 1) stack); [done|done|lia|lia|apply W13|]|].
  { eapply writes_present; [exact W13|]. eapply present_sub; [exact Hpr|lia..]. }
  intros s2 w4 (-> & v4 & -> & W4). cbn in W4.
  assert (stack + 8 * (1 + Z.of_nat (length aa) + 1) =
          stack + Z.of_nat (length ((le_bytes 8 argc ++ le_words aa) ++ le_bytes 8 0))) as E4
    by (rewrite !length_app, !le_length, !Nat2Z.inj_add, le_words_length; lia).
  pose proof (writes_app _ _ _ _ _ _ _ _ W13 E4 W4) as W14.
  rewrite !Hu by lia. apply wp_bind. eapply wp_store_le; [apply W14| |].
  { eapply writes_present; [exact W14|]. eapply present_sub; [exact Hpr|lia..]. }
  intros v5 W5. cbn in W5.
  assert (stack + 8 * (1 + Z.of_nat (length aa) + 1 + Z.of_nat (length ea)) =
          stack + Z.of_nat (length (((le_bytes 8 argc ++ le_words aa) ++ le_bytes 8 0) ++ le_words ea))) as E5
    by (rewrite !length_app, !le_length, !Nat2Z.inj_add, !le_words_length; lia).
  pose proof (writes_app _ _ _ _ _ _ _ _ W14 E5 W5) as W15.
  apply wp_bind. eapply wp_store_le; [apply W15| |].
  { eapply writes_present; [exact W15|]. eapply present_sub; [exact Hpr|lia..]. }
  intros v6 W6. cbn in W6. apply (HK v6).
  assert (le_words (frame_words argc aa ea) =
          ((((le_bytes 8 argc ++ le_words aa) ++ le_bytes 8 0) ++ le_words ea) ++ le_bytes 8 0) ++ le_bytes 8 0) as ->.
  { unfold frame_words. change (argc :: aa ++ 0 :: ea ++ [0; 0]) with ([argc] ++ aa ++ [0] ++ ea ++ [0] ++ [0]).
    rewrite !le_words_app, <- !app_assoc. done. }
  eapply writes_app; [exact W15| |exact W6]. rewrite !length_app, !le_length, !Nat2Z.inj_add, !le_words_length. lia.
Qed.

Lemma align_down_16 x : is_u64 x → align_down x 16 = x - x mod 16.
Proof. intros Hx. unfold align_down. change (UINT64_MAX - (16 - 1)) with (UINT64_MAX - (2 ^ 4 - 1)). by rewrite land_high_mask. Qed.

Lemma wp_array_count w a ss (Q : Z → W → Prop) :
  vector w a ss → Z.of_nat (length ss) < 2 ^ 64 → Q (Z.of_nat (length ss)) w → wp (string_array_count a) Q w.
Proof.
  intros [[-> ->]|(Ha & ps & rest & Har & Hss)] Hl HQ; unfold string_array_count; [by apply wp_ret|].
  rewrite (proj2 (Z.eqb_neq a 0)) by done. apply wp_bind, wp_gets, wp_bind. eapply wp_lift; [by rewrite Har|].
  pose proof (Forall2_length _ _ _ Hss) as Hlen. unfold wp. 
  rewrite (string_array_run w a ps rest 0); [by rewrite Hlen|done| |lia|rewrite length_app; cbn; lia|lia].
  eapply Forall_lookup_2. intros i p Hp. eapply Forall2_lookup_l in Hss as (s & _ & [Hlo _]); [|exact Hp].
  unfold LOWER_END in Hlo. lia.
Qed.

(** Allocating the array of user addresses. *)
Definition arrays_apart w : Prop :=
  ∀ a, is_Some (arrays w !! a) → ¬ al_arena (eheap w) a ∨ is_Some (al_live (eheap w) !! a).
Definition with_array w (p n : Z) (a : A) : W :=
  if p =? 0 then set_eheap a w else set_arrays (<[p := replicate (Z.to_nat n) 0]> (arrays w)) (set_eheap a w).
Lemma wp_calloc_words w n (Q : Z → W → Prop) :
  al_ok (eheap w) → 0 < n < 2 ^ 32 → arrays_apart w →
  (∀ p a, al_alloc (8 * n) (eheap w) = Ret (p, a) → al_ok a → took (al_live (eheap w)) p (8 * n) (al_live a) →
     (p ≠ 0 → arrays w !! p = None) → arrays_apart (with_array w p n a) → Q p (with_array w p n a)) →
  wp (slab_calloc_words n) Q w.
Proof using laws_A.
  intros Hok Hn Har HQ. unfold slab_calloc_words. rewrite u64_small by (unfold is_u64; lia).
  rewrite (Z.mul_comm n 8). apply wp_bind. eapply wp_elf_slab_alloc; [done|lia|]. intros p a Hr Hok' Ht. apply wp_bind.
  destruct (al_arena_alloc (eheap w) (8 * n) p a Hok ltac:(lia) Hr) as [Hsub Hnew].
  specialize (HQ p a Hr Hok' Ht). unfold with_array in HQ.
  destruct (Z.eqb_spec p 0) as [->|Hp]; cbn [negb when].
  { apply wp_ret, wp_ret, HQ; [done|]. intros x Hx. cbn in *. destruct (Har x Hx) as [Hna|[k Hk]]; [left; naive_solver|].
    right. exists k. by eapply took_mono. }
  assert (arrays w !! p = None) as Hnone.
  { apply eq_None_not_Some. intros Hs. destruct Ht as [[? _]|(k & Hp0 & Hk & _ & Hno & _ & Hl)]; [done|].
    destruct (Har p Hs) as [Hna|[j Hj]]; [|congruence]. apply Hna. eapply Hnew; [done|rewrite Hl; apply lookup_insert_eq|lia]. }
  apply wp_modify, wp_ret, HQ; [done|]. intros x. cbn. intros [y Hy]. destruct (decide (x = p)) as [->|].
  - right. by destruct (took_live _ _ _ _ Ht).
  - rewrite lookup_insert_ne in Hy by done. destruct (Har x ltac:(by eexists)) as [Hna|[k Hk]]; [left; naive_solver|].
    right. exists k. by eapply took_mono.
Qed.

Lemma vector_ext w w' a ss :
  kmem w' = kmem w → (is_Some (arrays w !! a) → arrays w' !! a = arrays w !! a) → vector w a ss → vector w' a ss.
Proof.
  intros Hk Ha [?|(Hne & ps & rest & Har & Hss)]; [by left|]. right. split; [done|]. exists ps, rest.
  rewrite Ha by by rewrite Har. split; [done|]. eapply Forall2_impl; [exact Hss|]. intros p s. unfold string_at. by rewrite Hk.
Qed.
Lemma wp_push_vector vm checked strings user bottom ss lu top w :
  vector w strings ss → arrays w !! user = Some lu → user ≠ strings → (length ss ≤ length lu)%nat →
  up_ok vm (uspace w) → present (uspace w) bottom (top - bottom) → bottom + strings_size ss ≤ top →
  wp (push_strings (length ss) 0 strings user bottom top checked)
    (λ top' w', top' = top - strings_size ss ∧ pushed vm w user 0 lu top ss w') w.
Proof.
  intros [[-> ->]|(Hne & ps & rest & Har & Hss)] Hu Hus Hlen Hok Hpr Hfit.
  - apply wp_ret. split; [cbn; lia|]. split; try done. exists (uspace w), lu. rewrite insert_id by done.
    split; [by destruct w|]. by split_and!.
  - rewrite <- (Forall2_length _ _ _ Hss) in *. change 0 with (Z.of_nat 0).
    eapply wp_push_strings; [exact Har|done| |exact Hu|done|lia|done|done|done|done].
    intros j p Hj. by apply lookup_app_l_Some.
Qed.

(** The words of the frame, and strings where they point. *)
Record stack_layout v (sp : Z) (args envs : list (list Z)) : Prop := {
  sl_aligned : sp mod 16 = 0;
  sl_frame : ∃ aa ea, reads (up_at v) sp (le_words (frame_words (Z.of_nat (length args)) aa ea)) ∧
    Forall2 (λ a s, reads (up_at v) a (s ++ [0])) aa args ∧
    Forall2 (λ a s, reads (up_at v) a (s ++ [0])) ea envs;
}.

Lemma wp_slab_free_words w p (Q : unit → W → Prop) :
  al_ok (eheap w) → p = 0 ∨ is_Some (al_live (eheap w) !! p) →
  (∀ a, al_ok a → al_live a = undo p (al_live (eheap w)) → Q tt (set_arrays (delete p (arrays w)) (set_eheap a w))) →
  wp (slab_free_words p) Q w.
Proof using laws_A.
  intros Hok Hp HQ. unfold slab_free_words. apply wp_bind. eapply wp_slab_free; [done|done|]. intros a Ha Hl. by apply wp_modify, HQ.
Qed.

(** Strings stay when memory changes only below them. *)
Lemma strings_above v v' t aa ss :
  Forall2 (λ a s, reads (up_at v) a (s ++ [0])) aa ss → (∀ a, a ∈ aa → t ≤ a) →
  (∀ x, t ≤ x → up_at v' x = up_at v x) → Forall2 (λ a s, reads (up_at v') a (s ++ [0])) aa ss.
Proof.
  intros Hs Ha He. induction Hs as [|a s aa ss Hr Hs IH]; constructor.
  - eapply reads_ext; [exact Hr|]. intros x Hx. apply He. specialize (Ha a ltac:(by left)). lia.
  - apply IH. intros b Hb. apply Ha. by right.
Qed.
Lemma string_addrs_range top ss a : a ∈ string_addrs top ss → top - strings_size ss ≤ a < top.
Proof.
  revert top. induction ss as [|s ss IH]; intros top; cbn [string_addrs]; [intros Ha; by apply elem_of_nil in Ha|].
  assert (strings_size (s :: ss) = string_size s + strings_size ss) as -> by done. pose proof (strings_size_nonneg ss).
  assert (0 < string_size s) by (unfold string_size; lia).
  intros [->|Ha]%elem_of_cons; [lia|]. apply IH in Ha. lia.
Qed.

Section prepare.
Context (vm bottom top argv envp : Z) (args envs : list (list Z)).
Definition stack_need : Z :=
  strings_size args + strings_size envs + 8 * (Z.of_nat (length args) + Z.of_nat (length envs) + 4).
Context (Hfit : bottom + stack_need ≤ top) (Hal : bottom mod 16 = 0) (Hb0 : 0 ≤ bottom) (Htop : top - bottom ≤ 2 ^ 20).
Context (Htl : top ≤ LOWER_END).

(** The frame and the end of the code, once the strings are there. *)
Lemma wp_prepare_end w w0 au eu la le :
  let argc := Z.of_nat (length args) in
  let envc := Z.of_nat (length envs) in
  let st := top - strings_size args - strings_size envs in
  let aa := string_addrs top args in
  let ea := string_addrs (top - strings_size args) envs in
  al_ok (eheap w) → is_Some (al_live (eheap w) !! au) → is_Some (undo au (al_live (eheap w)) !! eu) →
  undo eu (undo au (al_live (eheap w))) = al_live (eheap w0) →
  delete eu (delete au (arrays w)) = arrays w0 →
  arrays w !! au = Some la → (∀ j x, aa !! j = Some x → la !! j = Some x) →
  arrays w !! eu = Some le → (∀ j x, ea !! j = Some x → le !! j = Some x) →
  up_ok vm (uspace w) → present (uspace w) bottom (top - bottom) →
  Forall2 (λ a s, reads (up_at (uspace w)) a (s ++ [0])) aa args →
  Forall2 (λ a s, reads (up_at (uspace w)) a (s ++ [0])) ea envs →
  wpo (let stack_slots := u64 (1 + argc + 1 + envc + 1 + 1) in
       let frame_size := u64 (stack_slots * 8) in
       if u64 (st - bottom) <? frame_size then halt
       else
         let stack := align_down (u64 (st - frame_size)) 16 in
         if stack <? bottom then halt
         else
           _ ← store_le 8 stack argc;
           slot ← copy_slots (length args) 0 1 au stack;
           _ ← store_le 8 (u64 (stack + 8 * slot)) 0;
           slot ← copy_slots (length envs) 0 (slot + 1) eu stack;
           _ ← store_le 8 (u64 (stack + 8 * slot)) 0;
           _ ← store_le 8 (u64 (stack + 8 * (slot + 1))) 0;
           _ ← slab_free_words au;
           _ ← slab_free_words eu;
           mret stack)
    (λ sp w', bottom ≤ sp ∧ ∃ v' a, w' = set_arrays (arrays w0) (set_eheap a (set_uspace v' w)) ∧ al_ok a ∧
       al_live a = al_live (eheap w0) ∧ up_ok vm v' ∧ stack_layout v' sp args envs ∧
       ∀ x, ¬ bottom ≤ x < top → up_at v' x = up_at (uspace w) x) False w.
Proof using Hfit Hal Hb0 Htop Htl laws_A.
  intros argc envc st aa ea Hok Hla Hle Hund Hdel Hau Haa Heu Hea Huk Hpr Hsa Hse. unfold stack_need in Hfit.
  pose proof (strings_size_nonneg args). pose proof (strings_size_nonneg envs).
  assert (0 ≤ argc ∧ 0 ≤ envc) as [Ha0 He0] by (unfold argc, envc; lia). fold argc envc in Hfit.
  assert (0 ≤ st - bottom ∧ st ≤ 2 ^ 47) as [Hst0 Hst1] by (unfold st, LOWER_END in *; lia).
  cbv zeta. rewrite (u64_small (1 + argc + 1 + envc + 1 + 1)) by (unfold is_u64; lia).
  set (fsz := (1 + argc + 1 + envc + 1 + 1) * 8). assert (fsz = 8 * (argc + envc + 4)) as Hfsz by (unfold fsz; lia).
  rewrite (u64_small fsz), (u64_small (st - bottom)) by (unfold is_u64; lia).
  rewrite (proj2 (Z.ltb_ge (st - bottom) fsz)) by (unfold st; lia).
  assert (bottom ≤ st - fsz) as Hge by (unfold st; lia).
  rewrite (u64_small (st - fsz)) by (unfold is_u64; lia). rewrite align_down_16 by (unfold is_u64; lia).
  set (sp := st - fsz - (st - fsz) mod 16). assert (bottom ≤ sp ∧ sp mod 16 = 0 ∧ sp ≤ st - fsz) as (Hsp & Hsp16 & Hspl) by (unfold sp; zdiv).
  rewrite (proj2 (Z.ltb_ge sp bottom)) by done.
  assert (length aa = length args ∧ length ea = length envs) as [Hlaa Hlea] by (unfold aa, ea; by rewrite !string_addrs_length).
  assert (Z.of_nat (length (frame_words argc aa ea)) = argc + envc + 4) as Hfl by (rewrite frame_words_length; unfold argc, envc; lia).
  rewrite <- Hlaa, <- Hlea.
  apply wpo_wp. eapply (wp_frame vm); [exact Hau|done|exact Heu|done|done| |].
  { rewrite Hfl. eapply present_sub; [exact Hpr|lia|]. unfold st in *. lia. }
  intros v' Hw.
  assert (Z.of_nat (length (le_words (frame_words argc aa ea))) = fsz) as Hlf by (rewrite le_words_length, Hfl; lia).
  apply wp_bind. eapply wp_slab_free_words; [done|by right|]. intros a1 Hok1 Hl1. cbn in Hl1.
  apply wp_bind. eapply wp_slab_free_words; [done|right; cbn; by rewrite Hl1|]. intros a2 Hok2 Hl2. cbn in Hl2. apply wp_ret.
  split; [done|]. exists v', a2. split; [cbn; by rewrite Hdel|]. split; [done|]. split; [by rewrite Hl2, Hl1|]. split; [apply Hw|]. split.
  - split; [done|]. exists aa, ea. split; [by eapply writes_reads|]. split.
    1: eapply (strings_above _ _ st); [exact Hsa|intros a Ha%string_addrs_range; unfold st; lia|].
    2: eapply (strings_above _ _ st); [exact Hse|intros a Ha%string_addrs_range; unfold st; lia|].
    all: intros x Hx; rewrite (wr_at _ _ _ _ _ Hw); apply over_out; lia.
  - intros x Hx. rewrite (wr_at _ _ _ _ _ Hw). apply over_out. unfold st in *. lia.
Qed.

Lemma wpo_give_up w p q (Q : Z → W → Prop) (R : Prop) :
  al_ok (eheap w) → p = 0 ∨ is_Some (al_live (eheap w) !! p) → q = 0 ∨ is_Some (undo p (al_live (eheap w)) !! q) → R →
  wpo (_ ← slab_free_words p; _ ← slab_free_words q; halt) Q R w.
Proof using laws_A.
  intros Hok Hp Hq HR. apply wpo_step. eapply wp_slab_free_words; [done|done|]. intros a Ha Hl. cbn in Hl.
  apply wpo_step. eapply wp_slab_free_words; [done|by cbn; rewrite Hl|]. intros a2 _ _. done.
Qed.

Lemma wpo_prepare w :
  vector w argv args → vector w envp envs → al_ok (eheap w) → arrays_apart w →
  up_ok vm (uspace w) → present (uspace w) bottom (top - bottom) →
  wpo (prepare_user_stack bottom top (Z.of_nat (length args)) argv envp)
    (λ sp w', bottom ≤ sp ∧ ∃ v' a, w' = set_eheap a (set_uspace v' w) ∧ al_ok a ∧
       al_live a = al_live (eheap w) ∧ up_ok vm v' ∧ stack_layout v' sp args envs ∧
       ∀ x, ¬ bottom ≤ x < top → up_at v' x = up_at (uspace w) x)
    (¬ served [8 * (Z.of_nat (length args) + 1); 8 * (Z.of_nat (length envs) + 1)] (eheap w)) w.
Proof using Hfit Hal Hb0 Htop Htl laws_A.
  intros Hav Hev Hok Har Huk Hpr. pose proof (strings_size_nonneg args). pose proof (strings_size_nonneg envs).
  assert (Z.of_nat (length args) < 2 ^ 20 ∧ Z.of_nat (length envs) < 2 ^ 20) as [Hla Hle] by (unfold stack_need in Hfit; lia).
  unfold prepare_user_stack. apply wpo_step. eapply wp_array_count; [exact Hev|lia|].
  apply wpo_step. eapply wp_calloc_words; [done|lia|done|]. intros au a1 Hr1 Hok1 Ht1 Hn1 Har1.
  assert (eheap (with_array w au (Z.of_nat (length args) + 1) a1) = a1) as E1 by (unfold with_array; by destruct (au =? 0)).
  apply wpo_step. eapply wp_calloc_words; [by rewrite E1|lia|done|]. rewrite E1. intros eu a2 Hr2 Hok2 Ht2 Hn2 _.
  assert (eheap (with_array (with_array w au (Z.of_nat (length args) + 1) a1) eu (Z.of_nat (length envs) + 1) a2) = a2) as E2
    by (unfold with_array; by destruct (au =? 0), (eu =? 0)).
  pose proof (took_live _ _ _ _ Ht1) as L1. pose proof (took_live _ _ _ _ Ht2) as L2.
  assert (au = 0 ∨ is_Some (al_live a2 !! au)) as L1' by (destruct L1 as [?|[k Hk]]; [by left|right; exists k; by eapply took_mono]).
  assert (eu = 0 ∨ is_Some (undo au (al_live a2) !! eu)) as L2'.
  { destruct (decide (eu = 0)) as [?|Hne]; [by left|right]. destruct L2 as [?|Hs2]; [done|]. apply undo_keeps; [|done].
    destruct L1 as [?|Hs1]; [by right|left]. by destruct (took_ne _ _ _ _ _ Ht2 Hs1). }
  destruct (Z.eqb_spec au 0) as [->|Hau]; cbn [orb].
  { apply wpo_give_up; rewrite ?E2; try done. by eapply refused. }
  destruct (Z.eqb_spec eu 0) as [->|Heu].
  { apply wpo_give_up; rewrite ?E2; try done. eapply refused_later; [exact Hr1|]. by eapply refused. }
  destruct L1' as [?|L1']; [done|]. destruct L2' as [?|L2']; [done|].
  assert (au ≠ eu) as Hne by (intros ->; unfold undo in L2'; rewrite (proj2 (Z.eqb_neq eu 0)), lookup_delete_eq in L2' by done; by destruct L2').
  unfold with_array in *. rewrite (proj2 (Z.eqb_neq au 0)), (proj2 (Z.eqb_neq eu 0)) in * by done. clear E1 E2.
  specialize (Hn1 Hau). specialize (Hn2 Heu). cbn [arrays set_arrays set_eheap] in Hn2. rewrite lookup_insert_ne in Hn2 by done.
  set (w1 := set_arrays _ _) in |- *.
  assert (∀ a, is_Some (arrays w !! a) → a ≠ au ∧ a ≠ eu) as Hold by (intros a [? Ha]; split; congruence).
  assert (∀ a ss, vector w a ss → vector w1 a ss ∧ (a ≠ 0 → a ≠ au ∧ a ≠ eu)) as Hvec.
  { intros a ss Hv. split.
    - eapply vector_ext; [| |exact Hv]; [done|]. intros Ha. destruct (Hold a Ha). unfold w1. cbn. by rewrite !lookup_insert_ne.
    - intros Hz. destruct Hv as [[? _]|(_ & ps & rest & Ha & _)]; [done|]. apply Hold. by rewrite Ha. }
  destruct (Hvec _ _ Hav) as [Hav1 Hava]. destruct (Hvec _ _ Hev) as [Hev1 Heva].
  assert (arrays w1 !! au = Some (replicate (Z.to_nat (Z.of_nat (length args) + 1)) 0)) as A1
    by (unfold w1; cbn; by rewrite lookup_insert_ne, lookup_insert_eq by done).
  assert (arrays w1 !! eu = Some (replicate (Z.to_nat (Z.of_nat (length envs) + 1)) 0)) as A2
    by (unfold w1; cbn; by rewrite lookup_insert_eq).
  rewrite !Nat2Z.id. apply wpo_step. eapply wp_mono.
  { eapply (wp_push_vector vm); [exact Hav1|exact A1| |rewrite length_replicate; lia|done|done|unfold stack_need in Hfit; lia].
    intros ->. destruct (decide (argv = 0)) as [->|Hz]; [done|]. by destruct (Hava Hz). }
  intros top1 w2 (-> & [(v1 & la & -> & Hl1 & Had1 & _) Hok2' Hcan2 Hstr1 Hrest1 Hpr1]). cbn [uspace set_uspace set_arrays] in *.
  apply wpo_step. eapply wp_mono.
  { eapply (wp_push_vector vm _ envp eu bottom envs).
    - eapply vector_ext; [| |exact Hev1]; [done|]. intros Ha. cbn. apply lookup_insert_ne. intros ->.
      destruct (decide (envp = 0)) as [->|Hz]; [done|]. by destruct (Heva Hz).
    - cbn. rewrite lookup_insert_ne by done. exact A2.
    - intros ->. destruct (decide (envp = 0)) as [->|Hz]; [done|]. by destruct (Heva Hz).
    - rewrite length_replicate. lia.
    - done.
    - eapply present_sub; [by apply Hpr1|lia..].
    - unfold stack_need in Hfit. lia. }
  intros top2 w3 (-> & [(v2 & le & -> & Hl2 & Had2 & _) Hok3 Hcan3 Hstr2 Hrest2 Hpr2]). cbn [uspace set_uspace set_arrays arrays] in *.
  eapply wpo_mono; [eapply (wp_prepare_end _ w au eu la le)|..]; cbn [eheap uspace set_uspace set_arrays arrays].
  - done.
  - done.
  - done.
  - change (undo eu (undo au (al_live a2)) = al_live (eheap w)). by rewrite undo_comm, (took_undo _ _ _ _ Ht2), (took_undo _ _ _ _ Ht1).
  - unfold w1. cbn. rewrite delete_insert_ne, delete_insert_eq, delete_insert_eq, (delete_insert_ne _ _ _ _ Hne), delete_insert_eq by done.
    rewrite delete_insert_eq, (delete_id (arrays w) au) by done. by rewrite delete_id.
  - by rewrite lookup_insert_ne, lookup_insert_eq by done.
  - done.
  - by rewrite lookup_insert_eq.
  - done.
  - done.
  - by apply Hpr2, Hpr1.
  - eapply strings_above; [exact Hstr1|intros a Ha%string_addrs_range; apply Ha|]. intros x Hx. apply Hrest2. lia.
  - done.
  - intros sp w' (Hsp & v' & a & -> & Ha & Hlv & Huv & Hlay & Hout). split; [done|]. exists v', a. split; [done|].
    do 4 (split; [done|]). intros x Hx. rewrite Hout by done. rewrite Hrest2, Hrest1; [done|..]; unfold stack_need in Hfit; lia.
  - done.
Qed.
End prepare.
End stack.

(** ** Launching *)

(** The lowest address of the user stack. *)
Definition STACK_BOTTOM : Z := USER_SPACE_MAX_VADDR - STACK_SIZE.

Section launch.
Context {V : Type} {pages_V : UserPages V} {laws_V : UserLaws V}.
Context {A : Type} {alloc_A : Allocator A} {laws_A : AllocatorLaws (2 ^ 61) A} {arena_A : AllocatorArena A}.
Abbreviation W := (eworld V A).
Implicit Types (w : W) (v : V).

(** A process about to be launched: a static executable whose segments the
    loader handles, below the stack, and arguments that fit on it. *)
Record launchable w (e m argv envp : Z) el h hs pm (args envs : list (list Z)) : Prop := {
  la_elf : elfs w !! e = Some el;
  la_header : headers w !! header el = Some h;
  la_headers : prog_headers w !! program_headers el = Some hs;
  la_count : count_prog_header_table_entry h = Z.of_nat (length hs);
  la_static : Forall (λ s, (p_type s =? ELF_PROG_HEADER_TYPE_DYNAMIC) = false) hs;
  la_segments : Forall (segment_ok w (buffer el)) (loads hs);
  la_apart : ForallOrdPairs segments_apart (loads hs);
  la_below s : s ∈ loads hs → load_vaddr s + mapped_size s ≤ STACK_BOTTOM - 2 * PAGE_SIZE;
  la_mem : m ≠ 0 ∧ mems w !! m = Some pm ∧ m_vmm pm ≠ 0;
  la_space : up_ok (m_vmm pm) (uspace w);
  la_can : up_can (m_vmm pm) (uspace w) ((segment_run <$> loads hs) ++ [(STACK_BOTTOM, 4)]);
  la_args : vector w argv args;
  la_envs : vector w envp envs;
  la_fit : stack_need args envs ≤ STACK_SIZE;
  la_heap : al_ok (eheap w);
  la_arrays : arrays_apart w;
}.
(** User mode is entered at [rip] with the stack pointer [sp]. *)
Record launched w m el h hs pm args envs (sp rip : Z) w' : Prop := {
  ld_entry : rip = offset_entry h;
  ld_image s : s ∈ loads hs → holds_segment w (buffer el) (uspace w') s;
  ld_stack : stack_layout (uspace w') sp args envs ∧ STACK_BOTTOM ≤ sp;
  ld_brk : ∃ b, mems w' = <[m := MkMem (m_vmm pm) b b STACK_BOTTOM]> (mems w) ∧ b mod 4096 = 0 ∧ b < STACK_BOTTOM ∧
    ∀ s, s ∈ loads hs → load_vaddr s + mapped_size s + 4096 ≤ b;
  ld_heap : al_ok (eheap w') ∧ al_live (eheap w') = al_live (eheap w) ∧ arrays w' = arrays w ∧ kmem w' = kmem w;
}.

Lemma highest_le top hs B :
  top ≤ B → (∀ s, s ∈ loads hs → load_vaddr s + mapped_size s ≤ B) → highest_end top hs ≤ B.
Proof.
  unfold highest_end. generalize (loads hs) as l. intros l. revert top. induction l as [|s l IH]; intros top Ht Hl; cbn [foldl]; [done|].
  apply IH; [specialize (Hl s ltac:(by left)); lia|]. intros s' Hs'. apply Hl. by right.
Qed.
Lemma align_up_page x : 0 ≤ x < 2 ^ 63 → align_up x 4096 = x + 4095 - (x + 4095) mod 4096.
Proof.
  intros Hx. unfold align_up. replace (x + 4096 - 1) with (x + 4095) by lia. rewrite u64_small by (unfold is_u64; lia).
  change (UINT64_MAX - (4096 - 1)) with (UINT64_MAX - (2 ^ 12 - 1)). by rewrite land_high_mask by (unfold is_u64; lia).
Qed.

Lemma wpo_elf_launch w e m argv envp el h hs pm args envs :
  launchable w e m argv envp el h hs pm args envs →
  wpo (elf_launch e m (Z.of_nat (length args)) argv envp)
    (λ '(sp, rip) w', launched w m el h hs pm args envs sp rip w')
    (¬ served [8 * (Z.of_nat (length args) + 1); 8 * (Z.of_nat (length envs) + 1)] (eheap w)) w.
Proof using laws_A.
  intros [L1 L2 L3 L4 L5 L6 L7 L8 (Hm & L9 & Hv) L10 L11 L12 L13 L14 L15 L16]. unfold elf_launch.
  apply wpo_step, wp_gets. rewrite (proj2 (Z.eqb_neq m 0)) by done. apply wpo_step. eapply wp_lift; [by rewrite L9|].
  rewrite (proj2 (Z.eqb_neq (m_vmm pm) 0)) by done. apply wpo_step. unfold elf_map.
  rewrite (proj2 (Z.eqb_neq (m_vmm pm) 0)) by done. apply wp_bind. eapply wp_load_elf; [exact L1|].
  apply wp_bind. eapply wp_load_header; [exact L2|]. rewrite L4, Nat2Z.id. change 0 with (Z.of_nat 0).
  eapply wp_mono; [eapply wp_elf_map_loop; [exact L3|done|exact L5|exact L6|exact L10|exact L11]|].
  intros b1 w1 (_ & v1 & -> & K1 & K2 & _ & K3).
  apply wpo_step. eapply wp_load_elf; [exact L1|]. apply wpo_step. eapply wp_load_header; [exact L2|].
  rewrite L4, Nat2Z.id. apply wpo_step.
  eapply wp_mono; [eapply (wp_fill_loop (m_vmm pm) el hs 0 hs USER_SPACE_MIN_VADDR); [exact L3|done| |exact L7|exact K3|exact K1]|].
  { eapply Forall_impl; [exact L6|]. intros s []. by split. }
  intros hi w2 (-> & v2 & -> & M1 & M2 & M3 & M4). specialize (M2 _ K2).
  pose proof (highest_foldl USER_SPACE_MIN_VADDR (loads hs)) as Hlow. fold (highest_end USER_SPACE_MIN_VADDR hs) in Hlow.
  pose proof (highest_le USER_SPACE_MIN_VADDR hs (STACK_BOTTOM - 2 * PAGE_SIZE) ltac:(by vm_compute) L8) as Hhigh.
  pose proof (λ s, highest_bound USER_SPACE_MIN_VADDR hs s) as Hends. set (hi := highest_end _ _) in *.
  change (u64 (USER_SPACE_MAX_VADDR - pmm_page_to_addr_base (u64 (STACK_SIZE + PAGE_SIZE - 1) / PAGE_SIZE))) with STACK_BOTTOM.
  change (u64 (STACK_SIZE + PAGE_SIZE - 1) / PAGE_SIZE) with 4.
  change (u64 (STACK_BOTTOM + pmm_page_to_addr_base 4)) with (STACK_BOTTOM + STACK_SIZE).
  change STACK_BOTTOM with 0x7FFFFFFFB000 in *. change STACK_SIZE with 16384 in *. change PAGE_SIZE with 4096 in *.
  change USER_SPACE_MIN_VADDR with 0x100000 in *.
  rewrite (align_up_page hi) by lia. set (brk0 := hi + 4095 - (hi + 4095) mod 4096 + 4096).
  assert (brk0 mod 4096 = 0 ∧ brk0 < 0x7FFFFFFFB000 ∧ hi + 4096 ≤ brk0) as (B1 & B2 & B3) by (unfold brk0; zdiv).
  rewrite u64_small by (unfold is_u64; lia). rewrite (proj2 (Z.leb_gt 0x7FFFFFFFB000 brk0)) by done.
  apply wpo_step, wp_modify.
  destruct (up_map_law (m_vmm pm) v2 0x7FFFFFFFB000 4 [] M1 M2) as (r & v3 & Hr & N1 & _ & N2); [lia..|vm_compute; by intros|].
  apply wpo_step. unfold wp at 1, vmm_map. cbn [uspace set_mems set_uspace]. rewrite Hr. cbn [mbind outcome_bind].
  apply wpo_bind. eapply wpo_mono; [eapply (wpo_prepare (m_vmm pm) 0x7FFFFFFFB000 (0x7FFFFFFFB000 + 16384) argv envp args envs)|..].
  - lia.
  - done.
  - lia.
  - lia.
  - vm_compute. by intros.
  - by eapply (vector_ext w).
  - by eapply (vector_ext w).
  - done.
  - done.
  - done.
  - split; [lia|]. split; [vm_compute; by intros|]. intros x Hx. specialize (N2 x). rewrite bool_decide_true in N2; [done|]. zdiv.
  - intros sp w' (Hsp & v' & a & -> & O1 & O2 & O3 & O4 & O5). apply wpo_wp, wp_ret. split; cbn.
    + done.
    + intros s Hs. specialize (M3 s Hs). specialize (L8 s Hs). rewrite Forall_forall in L6. destruct (L6 s Hs) as [S1 [S2 S2'] S3 S4 S5 S6].
      eapply holds_segment_ext; [exact M3|lia|]. intros x Hx. unfold in_segment in Hx. rewrite O5 by lia. cbn.
      specialize (N2 x). rewrite bool_decide_false in N2; [done|]. zdiv.
    + by split.
    + exists brk0. split; [done|]. split; [done|]. split; [done|]. intros s Hs. specialize (Hends s Hs). lia.
    + by split_and!.
  - done.
Qed.
End launch.
