(* ===== verification/ElfLaunch.v ===== *)
(** * ElfLaunch: the theorems on the executable loader

    The theorems of [ElfThm] in their final form, on a concrete machine: a flat
    user memory that satisfies [UserLaws], with a small executable. *)
From S2P Require Import Prelude Alloc Cstring Pmm Paging Elf ElfThm.

(** ** A flat user memory *)
Abbreviation flat := (Z → option Z).

#[global] Instance flat_pages : UserPages flat := {
  up_map _ virt n _ v := Ret (virt - virt mod 4096,
    λ x, if (virt / 4096 <=? x / 4096) && (x / 4096 <? virt / 4096 + n)
         then Some (default 0 (v x)) else v x);
  up_load x v := deref (v x);
  up_store x b v := _ ← deref (v x); Ret (λ y, if y =? x then Some b else v y);
}.
#[global] Instance flat_laws : UserLaws flat.
Proof.
  refine {| up_ok _ _ := True; up_at v := v; up_can _ _ _ := True |}.
  - done.
  - intros vm v x b _ [c Hc] _. eexists. cbn. by rewrite Hc.
  - intros vm v virt n rs _ _ Hv Hn Hle. eexists _, _. split; [done|]. split; [done|]. split; [done|]. intros x.
    case_bool_decide as E.
    + rewrite (proj2 (Z.leb_le _ _) (proj1 E)), (proj2 (Z.ltb_lt _ _) (proj2 E)). by eexists.
    + destruct (Z.leb_spec (virt / 4096) (x / 4096)); [|done].
      destruct (Z.ltb_spec (x / 4096) (virt / 4096 + n)); [lia|done].
Defined.

(** ** Theorems *)
Section theorems.
Context {V : Type} {pages_V : UserPages V} {laws_V : UserLaws V}.
Context {A : Type} {alloc_A : Allocator A} {laws_A : AllocatorLaws (2 ^ 61) A} {arena_A : AllocatorArena A}.
Abbreviation W := (eworld V A).
Implicit Types (w : W).


End theorems.

(** ** A small executable *)
Definition demo_buf : Z := 0xFFFF800000100000.
Definition demo_argv : Z := 0xFFFF800000300000.
Definition demo_arg : Z := 0xFFFF800000400000.
Definition demo_header : elf_header :=
  MkHeader ELF_MAGIC 2 1 1 0 0 2 0x3E 1 0x400000 64 0 0 64 56 1 0 0 0.
Definition demo_segment : elf_program_header := MkProgHeader 1 5 120 0x400000 0 3 5 4096.
Definition demo_text : list Z := [0xF4; 0xEB; 0xFD].
Definition demo_file : list Z := encode_header demo_header ++ encode_prog_header demo_segment ++ demo_text.
Definition put (p : Z) (l : list Z) (m : gmap Z Z) : gmap Z Z :=
  foldr (λ '(i, b) m, <[p + Z.of_nat i := b]> m) m (zip (seq 0 (length l)) l).
Definition demo_kmem : gmap Z Z := put demo_buf demo_file (put demo_arg [105; 110; 105; 116; 0] ∅).
Definition demo_world : eworld flat bump :=
  MkE (λ _, None) demo_kmem {[demo_argv := [demo_arg; 0]]} (MkBump 0xFFFF800000500000 9 ∅)
    {[8 := demo_header]} {[16 := [demo_segment]]} {[24 := MkElf 8 16 demo_buf]} {[32 := MkMem 40 0 0 0]}.

(** [reads] of a concrete memory, by computation. *)
Definition readsb (m : gmap Z Z) (p : Z) (l : list Z) : bool :=
  forallb (λ '(i, b), bool_decide (m !! (p + Z.of_nat i) = Some b)) (zip (seq 0 (length l)) l).
Lemma readsb_reads m p l : readsb m p l = true → reads (λ x, m !! x) p l.
Proof.
  unfold readsb. rewrite forallb_forall. intros H i c Hi. specialize (H (i, c)). cbn in H.
  apply bool_decide_eq_true in H; [done|]. apply list_elem_of_In, list_elem_of_lookup. exists i.
  rewrite lookup_zip_with. rewrite lookup_seq_lt by (by eapply lookup_lt_Some). cbn. by rewrite Hi.
Qed.

(** The program runs: the stack pointer, the entry point, the bytes of the
    segment and the words of the frame. *)
Example demo_launch :
  match elf_launch 24 32 1 demo_argv 0 demo_world with
  | Ret (sp, rip, w) =>
      sp = 0x7FFFFFFFEFD0 ∧ rip = 0x400000 ∧
      map (uspace w) [0x400000; 0x400002; 0x400003; 0x400004; 0x400005] = [Some 0xF4; Some 0xFD; Some 0; Some 0; Some 0] ∧
      map (uspace w) [sp; sp + 8; sp + 9; sp + 16; 0x7FFFFFFFEFFB] = [Some 1; Some 0xFB; Some 0xEF; Some 0; Some 105]
  | _ => False
  end.
Proof. vm_compute. split_and!; reflexivity. Qed.

Lemma launch_heap_ok : al_ok (eheap demo_world).
Proof. split; [|done]. split; [done|]. intros p n Hp. change ((∅ : gmap Z Z) !! p = Some n) in Hp. by apply lookup_empty_Some in Hp. Qed.
Lemma demo_header_fits : header_fits demo_header.
Proof. split; unfold fits; split_and!; by vm_compute. Qed.
Lemma demo_segment_fits : prog_header_fits demo_segment.
Proof. split; unfold fits; split_and!; by vm_compute. Qed.


Lemma demo_segment_ok : segment_ok demo_world demo_buf demo_segment.
Proof.
  split; [cbn; lia|cbn; lia|by vm_compute|by vm_compute|by vm_compute|].
  exists demo_text. split; [done|]. split; [repeat constructor; lia|]. apply readsb_reads. vm_compute. reflexivity.
Qed.
Lemma demo_launchable :
  launchable demo_world 24 32 demo_argv 0 (MkElf 8 16 demo_buf) demo_header [demo_segment] (MkMem 40 0 0 0) [[105; 110; 105; 116]] [].
Proof.
  split; try done.
  - by constructor.
  - constructor; [apply demo_segment_ok|done].
  - repeat constructor.
  - intros s. change (loads [demo_segment]) with [demo_segment]. intros ->%list_elem_of_singleton. by vm_compute.
  - right. split; [done|]. exists [demo_arg], []. split; [done|]. constructor; [|done].
    split; [done|]. cbn [cstr]. split_and!; (lia || (vm_compute; reflexivity)).
  - by left.
  - intros a [l Hl]. left. unfold demo_world in Hl. cbn [arrays] in Hl. apply lookup_singleton_Some in Hl as [<- _]. intros H. by vm_compute in H.
Qed.


(** A segment that does not start on a page boundary may end in a page that
    [elf_map] does not map: its first page holds less than a page of it, but the
    pages are counted by its size alone. *)
Example unaligned_segment_unmapped :
  match elf_map 24 40 (MkE (λ _, None) ∅ ∅ (MkBump 1 0 ∅) {[8 := demo_header]}
          {[16 := [MkProgHeader 1 5 120 0x400800 0 0x1000 0x1000 4096]]} {[24 := MkElf 8 16 demo_buf]} ∅ : eworld flat bump) with
  | Ret (ok, w) => ok = true ∧ uspace w 0x400FFF = Some 0 ∧ uspace w 0x401000 = None
  | _ => False
  end.
Proof. vm_compute. split_and!; reflexivity. Qed.
