(* ===== verification/UserMem.v ===== *)
(** * UserMem: user memory through the page tables

    The interface [UserPages] of the executable loader, discharged by the page
    tables and [vmm_map]: an access of the processor is a walk from the root
    register, and the pages [vmm_map] gives are apart from each other, from the
    tables and from everything that was there before. *)
From S2P Require Import Prelude Alloc Pmm Frames Vma Elf ElfThm Paging PagingSpec AddrSpace Vmm.

(** ** Bytes of a word *)
Definition byte_of (word k : Z) : Z := (word / 256 ^ k) mod 256.
Definition set_byte (word k b : Z) : Z := word + (b - byte_of word k) * 256 ^ k.

Lemma byte_of_set word k b : 0 ≤ k → 0 ≤ b < 256 → byte_of (set_byte word k b) k = b.
Proof.
  intros Hk Hb. unfold set_byte, byte_of. assert (0 < 256 ^ k) by lia. rewrite Z.div_add by lia.
  set (q := word / 256 ^ k). replace (q + (b - q mod 256)) with (b + (q / 256) * 256) by (pose proof (Z.div_mod q 256); lia).
  rewrite Z.mod_add by lia. by apply Z.mod_small.
Qed.
Lemma byte_of_other word k j b : 0 ≤ k → 0 ≤ j → 0 ≤ b < 256 → j ≠ k → byte_of (set_byte word k b) j = byte_of word j.
Proof.
  intros Hk Hj Hb Hne. unfold set_byte, byte_of. destruct (Z.lt_total j k) as [Hlt|[?|Hgt]]; [|done|].
  - replace (256 ^ k) with (256 ^ (k - j - 1) * 256 * 256 ^ j).
    2:{ rewrite <- (Z.pow_1_r 256) at 2. rewrite <- !Z.pow_add_r by lia. f_equal. lia. }
    rewrite Z.mul_assoc, Z.div_add by lia. rewrite Z.mul_assoc. by rewrite Z.mod_add by lia.
  - replace (256 ^ j) with (256 ^ k * (256 * 256 ^ (j - k - 1))).
    2:{ rewrite <- (Z.pow_1_r 256) at 2. rewrite <- !Z.pow_add_r by lia. f_equal. lia. }
    rewrite <- !Z.div_div by lia. rewrite Z.div_add by lia. set (q := word / 256 ^ k). do 2 f_equal.
    pose proof (Z.mod_pos_bound q 256 ltac:(lia)). replace (q + (b - q mod 256)) with (b + q / 256 * 256) by (pose proof (Z.div_mod q 256); lia).
    rewrite Z.div_add by lia. by rewrite Z.div_small by lia.
Qed.

Section user.
Context {F : Type} {frames_F : FrameAlloc F} {laws_F : FrameLaws F}.
Context {A : Type} {alloc_A : Allocator A} {laws_A : AllocatorLaws (2 ^ 61) A}.
Abbreviation W := (mworld F A).
Implicit Types (w : W) (K : wtabs) (T : tables).

(** ** Accesses *)
Definition user_addrb (x : Z) : bool := (0 <=? x) && (x <? 2 ^ 47).
Definition user_load (x : Z) (w : W) : outcome Z :=
  if user_addrb x then '(word, _) ← vload (x - x mod 8) w; Ret (byte_of word (x mod 8)) else Fault.
Definition user_store (x b : Z) (w : W) : outcome W :=
  if user_addrb x then
    '(word, _) ← vload (x - x mod 8) w;
    '(_, w') ← vstore (x - x mod 8) (set_byte word (x mod 8) b) w;
    Ret w'
  else Fault.
#[global] Instance paging_pages : UserPages W := {
  up_map := Vmm.vmm_map; up_load := user_load; up_store := user_store;
}.

(** The word and the byte of an address. *)
Definition user_word w (x : Z) : option (Z * Z) :=
  e ← entry_at (phys w) (cr3 w) x; Some (entry_phys e, x mod 4096 / 8).
Definition user_at w (x : Z) : option Z :=
  if user_addrb x then k ← user_word w x; word ← phys w !! k; Some (byte_of word (x mod 8)) else None.

Lemma user_addrb_spec x : user_addrb x = true ↔ user_addr x.
Proof. unfold user_addrb, user_addr. lia. Qed.

Lemma translate_user m c x : user_addr x → translate m c (x - x mod 8) = (e ← entry_at m c x; Some (entry_phys e, x mod 4096 / 8)).
Proof.
  unfold user_addr. intros Hx. assert ((x - x mod 8) / 4096 = x / 4096) as Hp by zdiv.
  destruct (page_idx _ _ Hp) as (E4 & E3 & E2 & E1). unfold translate.
  assert (canonical (x - x mod 8) = true) as ->.
  { unfold canonical. rewrite Z.shiftr_div_pow2 by lia. rewrite Z.div_small by zdiv. done. }
  rewrite E4, E3, E2, E1. unfold entry_at.
  destruct (next_table m c (get_pml4_idx x)) as [t3|]; [|done]. cbn [mbind option_bind].
  destruct (next_table m t3 (get_pml3_idx x)) as [t2|]; [|done]. cbn [mbind option_bind].
  destruct (next_table m t2 (get_pd_idx x)) as [t1|]; [|done]. cbn [mbind option_bind].
  unfold next_table. destruct (m !! (t1, get_pt_idx x)) as [e|]; [|done]. cbn [mbind option_bind].
  destruct (entry_is_present e); [|done]. cbn [mbind option_bind]. do 2 f_equal.
  rewrite Z.shiftr_div_pow2 by lia. zdiv.
Qed.

(** ** The invariant *)
Record data_ok w K (L : gset Z) T : Prop := {
  (** The page of an address is a frame in use that is neither a table nor part
      of the window. *)
  da_frame x e : user_addr x → entry_at (phys w) (cr3 w) x = Some e →
    frame_ok (fa_top (frames w)) (entry_phys e) ∧ entry_phys e ∈ L ∧ (∀ p, T !! p ≠ Some (entry_phys e)) ∧
    entry_phys e ≠ S3 K ∧ entry_phys e ≠ S2 K ∧ entry_phys e ≠ S1 K;
  (** Different pages have different frames. *)
  da_inj x y e f : user_addr x → user_addr y → entry_at (phys w) (cr3 w) x = Some e →
    entry_at (phys w) (cr3 w) y = Some f → entry_phys e = entry_phys f → x / 4096 = y / 4096;
}.
Definition user_ok (v : Z) w : Prop :=
  ∃ K L T l, user_space w K L v (cr3 w) T l ∧ data_ok w K L T.

(** ** Loads and stores *)
Lemma idx_of x : is_idx (x mod 4096 / 8).
Proof. unfold is_idx. zdiv. Qed.

Lemma user_load_law v w x : user_ok v w → user_load x w = deref (user_at w x).
Proof.
  intros _. unfold user_load, user_at, user_word. destruct (user_addrb x) eqn:Hb; [|done]. apply user_addrb_spec in Hb.
  unfold vload. rewrite translate_user by done. destruct (entry_at _ _ x) as [e|]; [|done]. cbn [mbind option_bind deref outcome_bind].
  destruct (phys w !! _) as [word|]; done.
Qed.

(** Memory that agrees on the tables has the same pages. *)
Lemma entries_agree w K L P T m x :
  space w K L P T → user_addr x → (∀ p f j, T !! p = Some f → m !! (f, j) = phys w !! (f, j)) →
  entry_at m P x = entry_at (phys w) P x.
Proof.
  intros Hsp Hx%user_low Hm. assert (tree m P T) as HT by (apply (tree_agree (phys w)); [apply Hsp|]; eauto).
  rewrite !(entry_at_leaf _ P T) by (done || apply Hsp).
  destruct (T !! [get_pml4_idx x; get_pml3_idx x; get_pd_idx x]) as [g|] eqn:E; [|unfold leaf; by rewrite E].
  eapply leaf_agree; eauto.
Qed.

(** Writing a word of a page. *)
Lemma user_ok_write v w x e i word :
  user_ok v w → user_addr x → entry_at (phys w) (cr3 w) x = Some e →
  let w' := with_phys (<[(entry_phys e, i) := word]> (phys w)) w in
  user_ok v w' ∧ ∀ y, user_addr y → entry_at (phys w') (cr3 w') y = entry_at (phys w) (cr3 w) y.
Proof.
  intros (K & L & T & l & Hus & Hda) Hx He w'. pose proof (us_space _ _ _ _ _ _ _ Hus) as Hsp.
  destruct (da_frame _ _ _ _ Hda x e Hx He) as (Hfr & HfL & HfT & H3 & H2 & H1).
  pose proof (t_root _ _ _ (sp_tree _ _ _ _ _ Hsp)) as Hroot.
  assert (entry_phys e ≠ cr3 w) as Hc by (intros E; apply (HfT []); by rewrite Hroot, E).
  assert (∀ p f j, T !! p = Some f → phys w' !! (f, j) = phys w !! (f, j)) as Hag.
  { intros p f j Hp. apply lookup_insert_ne. intros [= <- _]. by apply (HfT p). }
  assert (∀ y, user_addr y → entry_at (phys w') (cr3 w') y = entry_at (phys w) (cr3 w) y) as Hent
    by (intros y Hy; by eapply entries_agree).
  split; [|done]. exists K, L, T, l. split.
  - destruct Hus as [_ Hpr (vm & Hvm & HP & Hrep)]. split; [|done|by exists vm].
    eapply (space_sys w); [done| | |done].
    + apply sys_insert; [|apply Hsp]. by apply not_window_word.
    + apply (tree_agree (phys w)); [apply Hsp|]. eauto.
  - split.
    + intros y f Hy. rewrite Hent by done. apply (da_frame _ _ _ _ Hda); done.
    + intros y z f g Hy Hz. rewrite !Hent by done. by apply (da_inj _ _ _ _ Hda).
Qed.

(** Only pages of user memory differ. *)
Definition same_but_data w w' : Prop :=
  ∃ m, w' = with_phys m w ∧
    ∀ f j, (∀ x e, user_addr x → entry_at (phys w) (cr3 w) x = Some e → entry_phys e ≠ f) → m !! (f, j) = phys w !! (f, j).
Lemma same_but_data_refl w : same_but_data w w.
Proof. exists (phys w). split; [by destruct w|done]. Qed.

(** The runs can be mapped one after the other, whatever the data are. *)
Fixpoint user_can (v : Z) w (rs : list (Z * Z)) : Prop :=
  match rs with
  | [] => True
  | (virt, n) :: rs' =>
      ∀ w2, same_but_data w w2 → ∃ r w', Vmm.vmm_map v virt n USER_FLAGS w2 = Ret (r, w') ∧ r ≠ 0 ∧ user_can v w' rs'
  end.

Lemma user_store_law v w x b :
  user_ok v w → is_Some (user_at w x) → 0 ≤ b < 256 →
  ∃ w', user_store x b w = Ret w' ∧ user_ok v w' ∧
    (∀ y, user_at w' y = if y =? x then Some b else user_at w y) ∧ ∀ rs, user_can v w rs → user_can v w' rs.
Proof.
  intros Hok [c Hc] Hb. unfold user_at in Hc. destruct (user_addrb x) eqn:Hxb; [|done].
  pose proof (proj1 (user_addrb_spec x) Hxb) as Hx. unfold user_word in Hc.
  destruct (entry_at (phys w) (cr3 w) x) as [e|] eqn:He; [|done]. cbn [mbind option_bind] in Hc.
  destruct (phys w !! (entry_phys e, x mod 4096 / 8)) as [word|] eqn:Hw; [|done]. clear Hc.
  pose proof (user_ok_write v w x e (x mod 4096 / 8) (set_byte word (x mod 8) b) Hok Hx He) as [Hok' Hent].
  set (w' := with_phys _ w) in *. exists w'. split.
  { unfold user_store. rewrite Hxb. unfold vload, vstore. rewrite translate_user by done. rewrite He.
    cbn [mbind option_bind deref outcome_bind]. rewrite Hw. cbn [deref mbind outcome_bind]. done. }
  split; [done|]. split.
  - intros y. unfold user_at, user_word. destruct (user_addrb y) eqn:Hyb.
    2:{ destruct (Z.eqb_spec y x) as [->|]; [congruence|done]. }
    apply user_addrb_spec in Hyb as Hy. rewrite Hent by done. destruct (entry_at (phys w) (cr3 w) y) as [g|] eqn:Hg; cbn [mbind option_bind].
    2:{ destruct (Z.eqb_spec y x) as [->|]; [congruence|done]. }
    unfold w'. cbn [phys with_phys].
    destruct (decide ((entry_phys e, x mod 4096 / 8) = (entry_phys g, y mod 4096 / 8))) as [E|E].
    + rewrite <- E, lookup_insert_eq, Hw. cbn [mbind option_bind]. injection E as E1 E2. destruct Hok as (K & L & T & l & _ & Hda).
      pose proof (da_inj _ _ _ _ Hda x y e g Hx Hy He Hg E1) as Epg.
      destruct (Z.eqb_spec y x) as [->|Hne]; [by rewrite byte_of_set by zdiv|].
      rewrite byte_of_other; [done|zdiv|zdiv|done|]. zdiv.
    + rewrite lookup_insert_ne by done. destruct (Z.eqb_spec y x) as [->|]; [|done]. congruence.
  - intros [|[virt n] rs]; [done|]. cbn [user_can]. intros H w2 (m & -> & Hm). apply H. exists m. split; [done|].
    intros f j Hf. rewrite Hm by (intros y g Hy; rewrite Hent by done; by apply Hf).
    unfold w'. cbn [phys with_phys]. apply lookup_insert_ne. intros [= E _]. by eapply Hf.
Qed.

(** ** Mapping *)
Lemma on_areas_cr3 {B} v (op : prog (Vma.vworld A) B) w b w' : on_areas v op w = Ret (b, w') → cr3 w' = cr3 w.
Proof.
  unfold on_areas. destruct (vmms w !! v) as [vm|]; [|done]. cbn [mbind outcome_bind deref].
  destruct (op _) as [[b' a]| | |]; try done. cbn [mbind outcome_bind]. by intros [= _ <-].
Qed.
Lemma track_vma_run v virt flags w : ∃ t, track_vma v virt flags w = Ret (t, w).
Proof.
  unfold track_vma, mbind, prog_bind, gets. destruct ((v =? 0) || (v =? g_kernel_vmm w)); [by eexists|].
  destruct (is_higher_half virt); by eexists.
Qed.
Lemma insert_vma_cr3 v virt n flags w b w' : insert_vma v virt n flags w = Ret (b, w') → cr3 w' = cr3 w.
Proof.
  unfold insert_vma. destruct (track_vma_run v virt flags w) as [t Ht]. rewrite (bind_run _ _ _ _ _ Ht).
  destruct (negb t); [by intros [= _ <-]|]. destruct (n =? 0); [by intros [= _ <-]|].
  destruct (UINT64_MAX - virt <? u64 (n - 1)); [by intros [= _ <-]|]. apply on_areas_cr3.
Qed.

(** What a successful [vmm_map] did, for any address of the first page. *)
Record mapped_run w K (L : gset Z) (v : Z) T (virt n : Z) w' : Prop := {
  mr_state : ∃ L' T' l' fs, user_space w' K L' v (cr3 w') T' l' ∧ L ⊆ L' ∧ NoDup fs ∧ Z.of_nat (length fs) = n ∧
    (∀ f, f ∈ fs → frame_ok (fa_top (frames w)) f ∧ (f ∉ L) ∧ f ∈ L' ∧ ∀ p, T' !! p ≠ Some f) ∧
    (∀ f, f ∈ L → (∀ p, T !! p ≠ Some f) → ∀ p, T' !! p ≠ Some f) ∧
    (∀ f j, (∀ p, T' !! p ≠ Some f) → f ≠ S1 K → phys w' !! (f, j) = phys w !! (f, j)) ∧
    (∀ x, user_addr x → entry_at (phys w') (cr3 w) x =
       match run_frame fs virt x with
       | Some f => visible (Z.lor f (normalize_leaf_flags virt USER_FLAGS))
       | None => entry_at (phys w) (cr3 w) x
       end);
  mr_rest : cr3 w' = cr3 w ∧ fa_top (frames w') = fa_top (frames w);
}.

Lemma wp_vmm_map_run w K L v T l virt n :
  user_space w K L v (cr3 w) T l → 4096 ≤ virt → 0 < n → virt + 4096 * n ≤ 2 ^ 47 →
  wp (Vmm.vmm_map v virt n USER_FLAGS) (λ r w', r ≠ 0 → mapped_run w K L v T virt n w') w.
Proof using laws_F laws_A.
  intros Hus Hge Hn Hle. unfold Vmm.vmm_map. rewrite mask_base by (unfold is_u64; lia).
  set (base := virt - virt mod 4096). assert (0 ≤ base ≤ virt ∧ 4096 ≤ base) as [Hb Hb'] by (unfold base; zdiv).
  assert ((UINT64_MAX / PAGE_SIZE <? n) = false) as ->
    by (apply Z.ltb_ge; change (UINT64_MAX / PAGE_SIZE) with (2 ^ 52 - 1); lia).
  replace (u64 (n * PAGE_SIZE)) with (4096 * n)
    by (rewrite u64_small; [unfold PAGE_SIZE; lia|unfold is_u64, PAGE_SIZE; lia]).
  pose proof (wp_insert_vma w K L v (cr3 w) T l base (4096 * n) USER_FLAGS Hus ltac:(done) ltac:(lia) ltac:(lia) ltac:(lia)) as Hins.
  apply wp_inv in Hins as (ok & w1 & Hr1 & Hm1 & Ht1 & Hpost). apply insert_vma_cr3 in Hr1 as Hc1.
  apply wp_bind. unfold wp at 1. rewrite Hr1. destruct ok; cbn [negb]; [|by apply wp_ret].
  destruct Hpost as (l1 & Hus1 & _). destruct (us_process _ _ _ _ _ _ _ Hus1) as [_ Hnk].
  destruct (us_areas _ _ _ _ _ _ _ Hus1) as (vm & Hv & HP & _).
  apply wp_bind. eapply wp_mono.
  { apply (wp_map_loop (Z.to_nat n) w1 K L (cr3 w) T v vm virt USER_FLAGS); try done; [apply Hus1|lia]. }
  intros ok w2 (L2 & T2 & fs & Hto & Hnd & Hfs & Hok & He).
  destruct ok.
  2:{ apply wp_bind. eapply wp_mono; [apply (wp_remove_vma w2 K L2 v (cr3 w) T2 l1)|].
      - by eapply user_space_tables.
      - unfold user_addr. lia.
      - unfold base. zdiv.
      - intros b w3 _. by apply wp_ret. }
  apply wp_ret. intros _. destruct (to_rest _ _ _ _ _ _ _ _ Hto) as (Hc2 & _ & _ & _ & _ & Ht2). split.
  - exists L2, T2, l1, fs. rewrite Hc2, Hc1. split; [by eapply user_space_tables|]. split; [apply (to_live _ _ _ _ _ _ _ _ Hto)|].
    split; [done|]. split; [lia|]. split; [by rewrite <- Ht1|]. split; [intros f; by eapply touched_not_table|]. split.
    + intros f j Hf Hs. rewrite <- Hm1. apply (to_frame _ _ _ _ _ _ _ _ Hto); [done|]. by intros ->.
    + intros x Hx. rewrite He by done. by rewrite Hm1.
  - split; congruence.
Qed.

Lemma run_frame_page fs virt n x :
  Z.of_nat (length fs) = n → 0 < n →
  if bool_decide (virt / 4096 ≤ x / 4096 < virt / 4096 + n) then ∃ f, run_frame fs virt x = Some f ∧ f ∈ fs else run_frame fs virt x = None.
Proof.
  intros Hl Hn. unfold run_frame. destruct (Z.leb_spec (virt / 4096) (x / 4096)) as [H|H]; [|by rewrite bool_decide_false by lia].
  case_bool_decide.
  - destruct (lookup_lt_is_Some_2 fs (Z.to_nat (x / 4096 - virt / 4096))) as [f Hf]; [lia|]. exists f. split; [done|].
    by eapply list_elem_of_lookup_2.
  - apply lookup_ge_None_2. lia.
Qed.
(** A frame given to a page, as the walk finds it. *)
Lemma visible_frame w K L virt f :
  sys w K L → frame_ok (fa_top (frames w)) f → user_addr virt →
  ∃ e, visible (Z.lor f (normalize_leaf_flags virt USER_FLAGS)) = Some e ∧ entry_phys e = f.
Proof using laws_F.
  intros Hs Hf Hu. destruct (frame_bound _ _ _ _ Hs Hf) as [Ha Hb]. unfold visible.
  assert (normalize_leaf_flags virt USER_FLAGS = 7) as -> by (unfold normalize_leaf_flags; rewrite (user_low _ Hu); by vm_compute).
  eexists. rewrite present_testbit, Z.lor_spec, orb_true_r. split; [done|]. rewrite entry_phys_lor by by vm_compute.
  by apply entry_phys_frame.
Qed.

(** After mapping a run the invariant holds again. *)
Lemma user_ok_mapped v w K L T l virt n w' :
  user_space w K L v (cr3 w) T l → data_ok w K L T → 4096 ≤ virt → 0 < n → virt + 4096 * n ≤ 2 ^ 47 →
  mapped_run w K L v T virt n w' →
  user_ok v w' ∧ ∀ x, if bool_decide (virt / 4096 ≤ x / 4096 < virt / 4096 + n) then is_Some (user_at w' x)
                      else user_at w' x = user_at w x.
Proof using laws_F.
  intros Hus Hda Hge Hn Hle [(L' & T' & l' & fs & Hus' & HL & Hnd & Hlen & Hfs & Hkeep & Hmem & Hent) [Hc Ht]].
  pose proof (us_space _ _ _ _ _ _ _ Hus) as Hsp. pose proof (us_space _ _ _ _ _ _ _ Hus') as Hsp'.
  pose proof (sp_sys _ _ _ _ _ Hsp') as Hs'. assert (user_addr virt) as Hu by (unfold user_addr; lia). rewrite <- Hc in Hent.
  assert (∀ x e, user_addr x → entry_at (phys w') (cr3 w') x = Some e →
    (run_frame fs virt x = Some (entry_phys e) ∧ entry_phys e ∈ fs) ∨
    (run_frame fs virt x = None ∧ entry_at (phys w) (cr3 w) x = Some e)) as Hcase.
  { intros x e Hx. rewrite Hent by done. pose proof (run_frame_page fs virt n x Hlen Hn) as Hr. case_bool_decide.
    - destruct Hr as (f & -> & Hf). destruct (visible_frame w' K L' virt f Hs') as (e' & -> & <-); [by rewrite Ht; apply Hfs|done|].
      intros [= <-]. by left.
    - rewrite Hr. rewrite Hc. by right. }
  assert (data_ok w' K L' T') as Hda'.
  { split.
    - intros x e Hx He. rewrite Ht. destruct (Hcase x e Hx He) as [[_ Hf]|[_ Ho]].
      + destruct (Hfs _ Hf) as (H1 & H2 & H3 & H4). split_and!; try done; intros E;
          apply H2; rewrite E; apply (sys_kernel _ _ _ (sp_sys _ _ _ _ _ Hsp)); rewrite !elem_of_cons; tauto.
      + destruct (da_frame _ _ _ _ Hda x e Hx Ho) as (H1 & H2 & H3 & H4). split; [done|]. split; [by apply HL|]. split; [by apply Hkeep|done].
    - intros x y e f Hx Hy He Hf E. destruct (Hcase x e Hx He) as [[Hrx Hex]|[Hrx Hex]], (Hcase y f Hy Hf) as [[Hry Hfy]|[Hry Hfy]].
      + rewrite E in Hrx. revert Hrx Hry. unfold run_frame.
        destruct (Z.leb_spec (virt / 4096) (x / 4096)); [|done]. destruct (Z.leb_spec (virt / 4096) (y / 4096)); [|done].
        intros Hi Hj. pose proof (NoDup_lookup _ _ _ _ Hnd Hi Hj). lia.
      + exfalso. destruct (Hfs _ Hex) as (_ & HnL & _). apply HnL. rewrite E. by destruct (da_frame _ _ _ _ Hda y f Hy Hfy) as (_ & ? & _).
      + exfalso. destruct (Hfs _ Hfy) as (_ & HnL & _). apply HnL. rewrite <- E. by destruct (da_frame _ _ _ _ Hda x e Hx Hex) as (_ & ? & _).
      + by eapply (da_inj _ _ _ _ Hda). }
  split; [by exists K, L', T', l'|]. intros x. pose proof (run_frame_page fs virt n x Hlen Hn) as Hr. case_bool_decide as Hp.
  - destruct Hr as (f & Hr & Hf). assert (user_addr x) as Hx by (unfold user_addr; zdiv).
    unfold user_at, user_word. rewrite (proj2 (user_addrb_spec x) Hx), Hent, Hr by done.
    destruct (Hfs _ Hf) as (Hfo & _). rewrite <- Ht in Hfo.
    destruct (visible_frame w' K L' virt f Hs' Hfo Hu) as (e & -> & Ef). cbn [mbind option_bind]. rewrite Ef.
    destruct (sys_ram _ _ _ Hs' f (x mod 4096 / 8) Hfo (idx_of x)) as [word ->]. by eexists.
  - unfold user_at, user_word. destruct (user_addrb x) eqn:Hxb; [|done]. apply user_addrb_spec in Hxb as Hx.
    rewrite Hent, Hr by done. rewrite Hc. destruct (entry_at (phys w) (cr3 w) x) as [e|] eqn:He; [|done]. cbn [mbind option_bind].
    destruct (da_frame _ _ _ _ Hda x e Hx He) as (_ & HeL & HeT & _ & _ & He1). rewrite Hmem; [done|by apply Hkeep|done].
Qed.

(** Page tables and [vmm_map] keep the promise to the loader. *)
#[global] Instance paging_user_laws : UserLaws W.
Proof using laws_F laws_A.
  refine {| up_ok := user_ok; up_at := user_at; up_can := user_can |}.
  - apply user_load_law.
  - apply user_store_law.
  - intros v w virt n rs Hok Hcan Hge Hn Hle. cbn [user_can] in Hcan.
    destruct (Hcan w (same_but_data_refl w)) as (r & w' & Hr & Hnz & Hcan').
    exists r, w'. split; [done|]. destruct Hok as (K & L & T & l & Hus & Hda).
    pose proof (wp_vmm_map_run w K L v T l virt n Hus Hge Hn Hle) as Hwp. unfold wp in Hwp. cbn [up_map paging_pages] in Hr.
    rewrite Hr in Hwp. destruct (user_ok_mapped v w K L T l virt n w' Hus Hda Hge Hn Hle (Hwp Hnz)). done.
Qed.
End user.

(** ** Theorem *)
Section theorem.
Context {F : Type} {frames_F : FrameAlloc F} {laws_F : FrameLaws F}.
Context {A : Type} {alloc_A : Allocator A} {laws_A : AllocatorLaws (2 ^ 61) A}.
Implicit Types (w : mworld F A).

(** C4: memory that [vmm_map] gives to the running process is memory.  The
    call returns; when it does not return [NULL], a store of the processor through the page tables to any address of
    the run succeeds, a load of that address then gives the byte stored and a
    load of any other address what it gave before, so no two addresses share a
    byte and no store reaches a page table; every address outside the run reads
    as before the call. *)
Theorem vmm_map_gives_memory v w virt n :
  user_ok v w → 4096 ≤ virt → 0 < n → virt + 4096 * n ≤ 2 ^ 47 →
  ∃ r w', Vmm.vmm_map v virt n USER_FLAGS w = Ret (r, w') ∧ (r ≠ 0 →
  user_ok v w' ∧
  (∀ x b, virt / 4096 ≤ x / 4096 < virt / 4096 + n → 0 ≤ b < 256 →
     ∃ w2, user_store x b w' = Ret w2 ∧ user_ok v w2 ∧
       ∀ y, user_load y w2 = if y =? x then Ret b else user_load y w') ∧
  (∀ x, ¬ virt / 4096 ≤ x / 4096 < virt / 4096 + n → user_load x w' = user_load x w)).
Proof using laws_F laws_A.
  intros Hok Hge Hn Hle. pose proof Hok as (K & L & T & l & Hus & Hda).
  destruct (proj1 (wp_inv _ _ _) (wp_vmm_map_run w K L v T l virt n Hus Hge Hn Hle)) as (r & w' & Hr & Hwp).
  exists r, w'. split; [exact Hr|]. intros Hnz.
  destruct (user_ok_mapped v w K L T l virt n w' Hus Hda Hge Hn Hle (Hwp Hnz)) as [Hok' Hat]. split; [done|]. split.
  - intros x b Hx Hb. specialize (Hat x). rewrite bool_decide_true in Hat by done.
    destruct (user_store_law v w' x b Hok' Hat Hb) as (w2 & Hs & Hok2 & Hat2 & _). exists w2. split; [done|]. split; [done|].
    intros y. rewrite (user_load_law v w2), (user_load_law v w'), Hat2 by done. by destruct (y =? x).
  - intros x Hx. rewrite (user_load_law v w'), (user_load_law v w) by done. specialize (Hat x).
    rewrite bool_decide_false in Hat by done. by rewrite Hat.
Qed.
End theorem.

(** ** The concrete machine, with the process running *)
Definition running : mworld pmm_world bump :=
  MkMW machine_memory 0x5000 machine_pmm (vmms machine) (areas machine) 0 64.

Lemma running_ok : user_ok 128 running.
Proof.
  pose proof (machine_space 0x5000 ltac:(set_solver)) as Hsp.
  assert (∀ x, user_addr x → entry_at (phys running) 0x5000 x = None) as Hno.
  { intros x Hx%user_low. rewrite (entry_at_leaf _ 0x5000 (root_only 0x5000)); [|exact (sp_tree _ _ _ _ _ Hsp)|exact Hx]. unfold leaf, root_only.
    by rewrite lookup_singleton_ne. }
  exists machine_tabs, machine_live, machine_tables, []. split.
  - destruct machine_user_space as [_ Hpr Har]. split; [|exact Hpr|exact Har]. split; [split| | |].
    + exact (sys_frames _ _ _ (sp_sys _ _ _ _ _ Hsp)).
    + exact (sys_ram _ _ _ (sp_sys _ _ _ _ _ Hsp)).
    + split; vm_compute; reflexivity.
    + intros f Hf. destruct (decide (f = 0x5000)) as [->|Hne]; [by apply (sp_live _ _ _ _ _ Hsp [])|].
      apply (sys_kernel _ _ _ (sp_sys _ _ _ _ _ Hsp)). rewrite !elem_of_cons in *. destruct Hf as [?|Hf]; [done|by right].
    + exact (sp_tree _ _ _ _ _ Hsp).
    + exact (sp_live _ _ _ _ _ Hsp).
    + intros p f Hp. unfold machine_tables, root_only in Hp. apply lookup_singleton_Some in Hp as [<- <-]. by split_and!.
  - split.
    + intros x e Hx He. change (cr3 running) with 0x5000 in He. rewrite (Hno x Hx) in He. discriminate He.
    + intros x y e f Hx _ He. change (cr3 running) with 0x5000 in He. rewrite (Hno x Hx) in He. discriminate He.
Qed.

Lemma running_maps :
  match Vmm.vmm_map 128 0x400000 2 USER_FLAGS running with Ret (r, _) => r =? 0x400000 | _ => false end = true.
Proof. vm_compute. reflexivity. Qed.

Lemma vmm_map_gives_memory_witness :
  ∃ r w', Vmm.vmm_map 128 0x400000 2 USER_FLAGS running = Ret (r, w') ∧ user_ok 128 w' ∧
    ∃ w2, user_store 0x401FFF 77 w' = Ret w2 ∧ user_load 0x401FFF w2 = Ret 77.
Proof.
  destruct (vmm_map_gives_memory 128 running 0x400000 2 running_ok ltac:(lia) ltac:(lia) ltac:(lia)) as (r & w' & E & H).
  exists r, w'. split; [exact E|]. pose proof running_maps as Hr. rewrite E in Hr. apply Z.eqb_eq in Hr.
  assert (r ≠ 0) as Hnz by (rewrite Hr; lia). destruct (H Hnz) as (Hok & Hst & _).
  split; [exact Hok|]. destruct (Hst 0x401FFF 77) as (w2 & Hs & _ & Hl); [split; [by vm_compute|reflexivity]|lia|].
  exists w2. split; [exact Hs|]. rewrite Hl. reflexivity.
Defined.
