(* ===== verification/Hbfi.v ===== *)
(** * Hbfi: the interpreter of [userspace/hbfi.c]

    [hbfi] reads a Brainfuck program from a file and runs it.  The C code works
    on the text: it looks for matching brackets by counting, every time it
    jumps.  The reference is the structured language.  Reading the file, opening
    it and the two streams of characters are the C library's: their results are
    lists in the world. *)
From S2P Require Import Prelude Alloc.

(** ** Data *)
Definition HBFI_READ_CHUNK : Z := 512.
Definition DATA_SIZE : Z := 1024.

Record bf_source := MkSource { src_data : Z; src_len : Z }.
Inductive message := MHelp | MCannotOpen | MCannotRead | MOutOfMemory | MTooManyOperands.

(** [blocks] are the contents of the heap's blocks; [opened] is the descriptor
    that [open] returns; [chunks] are the results of the next calls of [read]
    ([None] is an error, and past the end it returns 0); [input] and [output] are
    the characters of [getchar] and [putchar]; [msgs] the texts printed. *)
Record hworld (A : Type) := MkH {
  hheap : A; blocks : gmap Z (list Z); opened : Z; chunks : list (option (list Z));
  input : list Z; output : list Z; msgs : list message;
}.
Arguments MkH {A}.
Arguments hheap {A}.
Arguments blocks {A}.
Arguments opened {A}.
Arguments chunks {A}.
Arguments input {A}.
Arguments output {A}.
Arguments msgs {A}.

Definition c_right : Z := 62.
Definition c_left : Z := 60.
Definition c_plus : Z := 43.
Definition c_minus : Z := 45.
Definition c_dot : Z := 46.
Definition c_comma : Z := 44.
Definition c_open : Z := 91.
Definition c_close : Z := 93.

(** ** Jumps: [k] bytes are left to look at *)
Fixpoint skip_backward_loop (src : list Z) (next : nat) (depth : Z) : outcome (option nat) :=
  match next with
  | O => Ret None
  | S next' =>
      c ← deref (src !! next');
      if c =? c_close then skip_backward_loop src next' (depth + 1)
      else if c =? c_open then
        if depth - 1 =? 0 then Ret (Some (S next')) else skip_backward_loop src next' (depth - 1)
      else skip_backward_loop src next' depth
  end.
Definition skip_backward (src : list Z) (current : Z) : outcome Z :=
  r ← skip_backward_loop src (Z.to_nat current) 1;
  Ret (match r with Some i => Z.of_nat i | None => current + 1 end).

Fixpoint skip_forward_loop (src : list Z) (k : nat) (next depth : Z) : outcome Z :=
  match k with
  | O => Ret (Z.of_nat (length src))
  | S k' =>
      c ← deref (src !! Z.to_nat next);
      if c =? c_open then skip_forward_loop src k' (next + 1) (depth + 1)
      else if c =? c_close then
        if depth - 1 =? 0 then Ret (next + 1) else skip_forward_loop src k' (next + 1) (depth - 1)
      else skip_forward_loop src k' (next + 1) depth
  end.
Definition skip_forward (src : list Z) (current : Z) : outcome Z :=
  skip_forward_loop src (Z.to_nat (Z.of_nat (length src) - (current + 1))) (current + 1) 1.

(** ** The interpreter *)

(** The tape, the position on it and the two streams. *)
Record tape := MkTape { cells : list Z; data_idx : Z; t_in : list Z; t_out : list Z }.
Definition set_idx (i : Z) (t : tape) : tape := MkTape (cells t) i (t_in t) (t_out t).
(** [data[data_idx]]: outside of the array it is undefined. *)
Definition cell (t : tape) : outcome Z :=
  if data_idx t <? DATA_SIZE then deref (cells t !! Z.to_nat (data_idx t)) else Fault.
Definition set_cell (v : Z) (t : tape) : outcome tape :=
  _ ← cell t; Ret (MkTape (<[Z.to_nat (data_idx t) := v]> (cells t)) (data_idx t) (t_in t) (t_out t)).
(** [data[data_idx] = getchar()]: the end of the input is -1. *)
Definition read_cell (t : tape) : outcome tape :=
  t' ← set_cell (u8 (default (-1) (head (t_in t)))) t;
  Ret (MkTape (cells t') (data_idx t') (tail (t_in t)) (t_out t')).
Definition write_cell (t : tape) : outcome tape :=
  v ← cell t; Ret (MkTape (cells t) (data_idx t) (t_in t) (t_out t ++ [v])).

(** The commands that do not jump; any other character does nothing. *)
Definition command (c : Z) (t : tape) : outcome tape :=
  if c =? c_right then Ret (set_idx (u64 (data_idx t + 1)) t)
  else if c =? c_left then Ret (set_idx (u64 (data_idx t - 1)) t)
  else if c =? c_plus then v ← cell t; set_cell (u8 (v + 1)) t
  else if c =? c_minus then v ← cell t; set_cell (u8 (v - 1)) t
  else if c =? c_dot then write_cell t
  else if c =? c_comma then read_cell t
  else Ret t.

(** One turn of the [while] loop at [instruction_idx]. *)
Definition step (src : list Z) (ip : Z) (t : tape) : outcome (Z * tape) :=
  c ← deref (src !! Z.to_nat ip);
  if c =? c_open then
    v ← cell t;
    if negb (v =? 0) then Ret (ip + 1, t) else ip' ← skip_forward src ip; Ret (ip', t)
  else if c =? c_close then
    v ← cell t;
    if v =? 0 then Ret (ip + 1, t) else ip' ← skip_backward src ip; Ret (ip', t)
  else t' ← command c t; Ret (ip + 1, t').
Fixpoint run_loop (fuel : nat) (src : list Z) (ip : Z) (t : tape) : outcome tape :=
  match fuel with
  | O => OutOfFuel
  | S fuel' =>
      if ip <? Z.of_nat (length src) then '(ip', t') ← step src ip t; run_loop fuel' src ip' t'
      else Ret t
  end.

Section hbfi.
Context {A : Type} {alloc_A : Allocator A}.
Abbreviation W := (hworld A).
Implicit Types (w : W).

Definition set_hheap (a : A) w : W := MkH a (blocks w) (opened w) (chunks w) (input w) (output w) (msgs w).
Definition set_blocks (b : gmap Z (list Z)) w : W := MkH (hheap w) b (opened w) (chunks w) (input w) (output w) (msgs w).
Definition set_chunks (c : list (option (list Z))) w : W := MkH (hheap w) (blocks w) (opened w) c (input w) (output w) (msgs w).
Definition set_streams (i o : list Z) w : W := MkH (hheap w) (blocks w) (opened w) (chunks w) i o (msgs w).
Definition say (m : message) : prog W unit :=
  modify (λ w, MkH (hheap w) (blocks w) (opened w) (chunks w) (input w) (output w) (msgs w ++ [m])).

(** [malloc] and [free] of the C library. *)
Definition malloc (n : Z) : prog W Z := λ w, '(p, a) ← al_alloc n (hheap w); Ret (p, set_hheap a w).
Definition free (p : Z) : prog W unit := λ w,
  '(_, a) ← al_free p (hheap w); Ret (tt, set_blocks (delete p (blocks w)) (set_hheap a w)).
Definition block (p : Z) : prog W (list Z) := b ← gets blocks; lift (deref (b !! p)).

(** [None] is the [exit(1)] of a failed [calloc]; the tape is never freed. *)
Definition run (fuel : nat) (s : bf_source) : prog W (option Z) :=
  data ← malloc DATA_SIZE;
  if data =? 0 then mret None
  else
    b ← block (src_data s);
    w ← gets (λ w, w);
    t ← lift (run_loop fuel (take (Z.to_nat (src_len s)) b) 0
                (MkTape (replicate (Z.to_nat DATA_SIZE) 0) 0 (input w) (output w)));
    _ ← modify (λ w, set_blocks (<[data := cells t]> (blocks w)) (set_streams (t_in t) (t_out t) w));
    mret (Some 0).

Definition free_source (s : bf_source) : prog W bf_source := _ ← free (src_data s); mret (MkSource 0 0).

(** [None] is the result -1. *)
Definition append_bytes (s : bf_source) (buf : list Z) : prog W (option bf_source) :=
  let len := Z.of_nat (length buf) in
  next ← malloc (u64 (src_len s + len + 1));
  if next =? 0 then mret None
  else
    old ← (if 0 <? src_len s then b ← block (src_data s); lift (deref (if bool_decide (src_len s ≤ Z.of_nat (length b)) then Some (take (Z.to_nat (src_len s)) b) else None))
           else mret []);
    _ ← modify (λ w, set_blocks (<[next := old ++ buf ++ [0]]> (blocks w)) w);
    _ ← free (src_data s);
    mret (Some (MkSource next (u64 (src_len s + len)))).

(** The next call of [read]. *)
Definition read_chunk : prog W (option (list Z)) :=
  c ← gets chunks; _ ← modify (set_chunks (tail c)); mret (default (Some []) (head c)).

(** A turn for every call of [read] that gives something, and one more. *)
Fixpoint read_source_loop (fuel : nat) (s : bf_source) : prog W (Z * bf_source) :=
  match fuel with
  | O => diverge
  | S fuel' =>
      c ← read_chunk;
      match c with
      | None => _ ← say MCannotRead; s ← free_source s; mret (1, s)
      | Some [] => mret (0, s)
      | Some buf =>
          r ← append_bytes s buf;
          match r with
          | None => _ ← say MOutOfMemory; s ← free_source s; mret (1, s)
          | Some s' => read_source_loop fuel' s'
          end
      end
  end.
Definition read_source_fd : prog W (Z * bf_source) :=
  c ← gets chunks;
  '(st, s) ← read_source_loop (S (length c)) (MkSource 0 0);
  if negb (st =? 0) then mret (st, s)
  else if src_data s =? 0 then
    r ← append_bytes s [];
    match r with None => _ ← say MOutOfMemory; mret (1, s) | Some s' => mret (0, s') end
  else mret (0, s).
(** Closing the file has no effect that the program sees. *)
Definition read_source_file : prog W (Z * bf_source) :=
  fd ← gets opened;
  if fd <? 0 then _ ← say MCannotOpen; mret (1, MkSource 0 0) else read_source_fd.

(** ["--help"]. *)
Definition help_option : list Z := [45; 45; 104; 101; 108; 112].
(** [Some] path, or the status at which [main] returns. *)
Fixpoint main_args (args : list (list Z)) (path : option (list Z)) : prog W (Z + option (list Z)) :=
  match args with
  | [] => mret (inr path)
  | a :: args' =>
      if bool_decide (a = help_option) then _ ← say MHelp; mret (inl 0)
      else match path with
           | Some _ => _ ← say MTooManyOperands; mret (inl 1)
           | None => main_args args' (Some a)
           end
  end.
Definition main (fuel : nat) (argv : list (list Z)) : prog W (option Z) :=
  if (Z.of_nat (length argv) <=? 1) then _ ← say MHelp; mret (Some 0)
  else
    r ← main_args (tail argv) None;
    match r with
    | inl st => mret (Some st)
    | inr None => _ ← say MHelp; mret (Some 0)
    | inr (Some _) =>
        '(st, s) ← read_source_file;
        if negb (st =? 0) then mret (Some st)
        else
          r ← run fuel s;
          match r with
          | None => mret None
          | Some st => _ ← free_source s; mret (Some st)
          end
    end.
End hbfi.

(** ** The language *)

(** A program: commands in sequence, and loops. *)
Inductive bf := BDone | BCmd (c : Z) (k : bf) | BLoop (body k : bf).
Fixpoint flat (p : bf) : list Z :=
  match p with
  | BDone => []
  | BCmd c k => c :: flat k
  | BLoop b k => c_open :: flat b ++ c_close :: flat k
  end.
Definition is_bracket (c : Z) : bool := (c =? c_open) || (c =? c_close).
Fixpoint plain (p : bf) : Prop :=
  match p with
  | BDone => True
  | BCmd c k => is_bracket c = false ∧ plain k
  | BLoop b k => plain b ∧ plain k
  end.

(** What a program does: it ends with a tape, or leaves the tape ([None]). *)
Inductive exec : bf → tape → option tape → Prop :=
| exec_done t : exec BDone t (Some t)
| exec_cmd c k t t' o : command c t = Ret t' → exec k t' o → exec (BCmd c k) t o
| exec_cmd_off c k t : command c t = Fault → exec (BCmd c k) t None
| exec_loop_off b k t : cell t = Fault → exec (BLoop b k) t None
| exec_loop_end b k t o : cell t = Ret 0 → exec k t o → exec (BLoop b k) t o
| exec_loop_body_off b k t v : cell t = Ret v → v ≠ 0 → exec b t None → exec (BLoop b k) t None
| exec_loop_turn b k t v t' o :
    cell t = Ret v → v ≠ 0 → exec b t (Some t') → exec (BLoop b k) t' o → exec (BLoop b k) t o.

(** Brackets match: never more closed than opened, and none left open. *)
Fixpoint depth_ok (d : nat) (s : list Z) : bool :=
  match s with
  | [] => (d =? 0)%nat
  | c :: s' =>
      if c =? c_open then depth_ok (S d) s'
      else if c =? c_close then match d with O => false | S d' => depth_ok d' s' end
      else depth_ok d s'
  end.
Definition balanced (s : list Z) : bool := depth_ok 0 s.

(** Every balanced text is a program. *)
Lemma depth_parse s : ∀ d, depth_ok d s = true →
  ∃ ps p, length ps = d ∧ Forall plain ps ∧ plain p ∧ s = foldr (λ q r, flat q ++ c_close :: r) (flat p) ps.
Proof.
  induction s as [|c s IH]; intros d H; cbn [depth_ok] in H.
  { apply Nat.eqb_eq in H as ->. by exists [], BDone. }
  destruct (Z.eqb_spec c c_open) as [->|Ho].
  { destruct (IH _ H) as ([|q ps] & p & Hl & Hps & Hp & ->); [done|]. injection Hl as Hl.
    apply Forall_cons in Hps as [Hq Hps]. destruct ps as [|q' ps].
    - exists [], (BLoop q p). by split_and!.
    - apply Forall_cons in Hps as [Hq' Hps]. exists (BLoop q q' :: ps), p. cbn [foldr flat]. split; [by cbn in *|].
      split; [by constructor|]. split; [done|]. cbn. by rewrite <- app_assoc. }
  destruct (Z.eqb_spec c c_close) as [->|Hc].
  { destruct d as [|d]; [done|]. destruct (IH _ H) as (ps & p & Hl & Hps & Hp & ->).
    exists (BDone :: ps), p. cbn. split; [by rewrite Hl|]. split; [by constructor|]. done. }
  assert (is_bracket c = false) as Hb by (unfold is_bracket; lia).
  destruct (IH _ H) as ([|q ps] & p & Hl & Hps & Hp & ->).
  - exists [], (BCmd c p). by split_and!.
  - apply Forall_cons in Hps as [Hq Hps]. exists (BCmd c q :: ps), p. split; [done|]. split; [by constructor|]. done.
Qed.
Lemma balanced_parse s : balanced s = true → ∃ p, plain p ∧ flat p = s.
Proof.
  intros (ps & p & Hl & _ & Hp & ->)%depth_parse. apply nil_length_inv in Hl as ->. by exists p.
Qed.

(** ** Jumps land after the matching bracket *)

(** [src] has the text of [p] at [i]. *)
Definition text_at (src : list Z) (i : nat) (p : bf) : Prop := ∀ j c, flat p !! j = Some c → src !! (i + j)%nat = Some c.
Lemma text_cmd src i c k : text_at src i (BCmd c k) → src !! i = Some c ∧ text_at src (S i) k.
Proof.
  intros H. split; [rewrite <- (Nat.add_0_r i); by apply H|]. intros j x Hj. rewrite <- (H (S j) x Hj). f_equal. lia.
Qed.
Lemma text_loop src i b k : text_at src i (BLoop b k) →
  src !! i = Some c_open ∧ text_at src (S i) b ∧ src !! (S i + length (flat b))%nat = Some c_close ∧
  text_at src (S (S i + length (flat b))) k.
Proof.
  intros H. assert (∀ j x, (flat b ++ c_close :: flat k) !! j = Some x → src !! (S i + j)%nat = Some x) as H'
    by (intros j x Hj; rewrite <- (H (S j) x Hj); f_equal; lia).
  split; [rewrite <- (Nat.add_0_r i); by apply H|]. split; [intros j x Hj; by apply H', lookup_app_l_Some|]. split.
  - apply H'. by rewrite lookup_app_r, Nat.sub_diag by lia.
  - intros j x Hj. replace (S (S i + length (flat b)) + j)%nat with (S i + (length (flat b) + S j))%nat by lia. apply H'.
    rewrite lookup_app_r by lia. by replace (length (flat b) + S j - length (flat b))%nat with (S j) by lia.
Qed.

Lemma forward_over src p k i d :
  plain p → 1 ≤ d → text_at src i p →
  skip_forward_loop src (length (flat p) + k) (Z.of_nat i) d = skip_forward_loop src k (Z.of_nat (i + length (flat p))) d.
Proof.
  revert i d k. induction p as [|c p IH|b IHb p IHp]; intros i d k Hp Hd Hs; cbn [flat length Nat.add skip_forward_loop].
  - by rewrite Nat.add_0_r.
  - destruct Hp as [Hc Hp]. unfold is_bracket in Hc. apply text_cmd in Hs as [H0 Hs]. rewrite Nat2Z.id, H0.
    cbn [deref mbind outcome_bind]. replace (c =? c_open) with false by lia. replace (c =? c_close) with false by lia.
    replace (Z.of_nat i + 1) with (Z.of_nat (S i)) by lia. rewrite IH by done. do 2 f_equal. lia.
  - destruct Hp as [Hb Hp]. apply text_loop in Hs as (H0 & Hsb & H1 & Hsk). rewrite Nat2Z.id, H0.
    cbn [deref mbind outcome_bind]. rewrite (Z.eqb_refl c_open), length_app. cbn [length].
    replace (length (flat b) + S (length (flat p)) + k)%nat with (length (flat b) + S (length (flat p) + k))%nat by lia.
    replace (Z.of_nat i + 1) with (Z.of_nat (S i)) by lia. rewrite IHb by (done || lia).
    cbn [skip_forward_loop]. rewrite Nat2Z.id, H1.
    cbn [deref mbind outcome_bind]. change (c_close =? c_open) with false. rewrite (Z.eqb_refl c_close).
    replace (d + 1 - 1 =? 0) with false by lia. replace (d + 1 - 1) with d by lia.
    replace (Z.of_nat (S i + length (flat b)) + 1) with (Z.of_nat (S (S i + length (flat b)))) by lia.
    rewrite IHp by done. do 2 f_equal. lia.
Qed.

Lemma backward_over src p i d :
  plain p → 1 ≤ d → text_at src i p → skip_backward_loop src (i + length (flat p)) d = skip_backward_loop src i d.
Proof.
  revert i d. induction p as [|c p IH|b IHb p IHp]; intros i d Hp Hd Hs; cbn [flat length].
  - by rewrite Nat.add_0_r.
  - destruct Hp as [Hc Hp]. unfold is_bracket in Hc. apply text_cmd in Hs as [H0 Hs].
    replace (i + S (length (flat p)))%nat with (S i + length (flat p))%nat by lia. rewrite IH by done.
    cbn [skip_backward_loop]. rewrite H0.
    cbn [deref mbind outcome_bind]. replace (c =? c_open) with false by lia. by replace (c =? c_close) with false by lia.
  - destruct Hp as [Hb Hp]. apply text_loop in Hs as (H0 & Hsb & H1 & Hsk). rewrite length_app. cbn [length].
    replace (i + S (length (flat b) + S (length (flat p))))%nat with (S (S i + length (flat b)) + length (flat p))%nat by lia.
    rewrite IHp by done. cbn [skip_backward_loop]. rewrite H1.
    cbn [deref mbind outcome_bind]. rewrite (Z.eqb_refl c_close).
    rewrite IHb by (done || lia).
    cbn [skip_backward_loop]. rewrite H0. cbn [deref mbind outcome_bind].
    change (c_open =? c_close) with false. rewrite (Z.eqb_refl c_open).
    replace (d + 1 - 1 =? 0) with false by lia. by replace (d + 1 - 1) with d by lia.
Qed.

Section interpreter.
Context (src : list Z).
Abbreviation run n i := (run_loop n src (Z.of_nat i)).

(** The jumps of a loop. *)
Lemma forward_loop i b k : plain b → text_at src i (BLoop b k) →
  skip_forward src (Z.of_nat i) = Ret (Z.of_nat (S (S i + length (flat b)))).
Proof.
  intros Hb Hs. apply text_loop in Hs as (H0 & Hsb & H1 & Hsk). unfold skip_forward.
  apply lookup_lt_Some in H1 as Hl. replace (Z.of_nat i + 1) with (Z.of_nat (S i)) by lia.
  replace (Z.to_nat (Z.of_nat (length src) - Z.of_nat (S i)))
    with (length (flat b) + S (length src - S (S i + length (flat b))))%nat by lia.
  rewrite forward_over by done. cbn [skip_forward_loop]. rewrite Nat2Z.id, H1. cbn [deref mbind outcome_bind].
  change (c_close =? c_open) with false. rewrite (Z.eqb_refl c_close). cbn. f_equal. lia.
Qed.
Lemma backward_loop i b k : plain b → text_at src i (BLoop b k) →
  skip_backward src (Z.of_nat (S i + length (flat b))) = Ret (Z.of_nat (S i)).
Proof.
  intros Hb Hs. apply text_loop in Hs as (H0 & Hsb & H1 & Hsk). unfold skip_backward.
  rewrite Nat2Z.id, backward_over by done. cbn [skip_backward_loop]. rewrite H0. cbn [deref mbind outcome_bind].
  change (c_open =? c_close) with false. by rewrite (Z.eqb_refl c_open).
Qed.

Lemma run_step n i t c :
  src !! i = Some c → run (S n) i t = ('(ip, t') ← step src (Z.of_nat i) t; run_loop n src ip t').
Proof. intros Hc. apply lookup_lt_Some in Hc. cbn [run_loop]. by rewrite (proj2 (Z.ltb_lt (Z.of_nat i) _)) by lia. Qed.
Lemma run_cmd n i t c : src !! i = Some c → is_bracket c = false →
  run (S n) i t = (t' ← command c t; run n (S i) t').
Proof.
  intros Hc Hb. unfold is_bracket in Hb. rewrite (run_step _ _ _ _ Hc). unfold step. rewrite Nat2Z.id, Hc. cbn [deref mbind outcome_bind].
  replace (c =? c_open) with false by lia. replace (c =? c_close) with false by lia.
  destruct (command c t); try done. cbn [mbind outcome_bind]. by replace (Z.of_nat i + 1) with (Z.of_nat (S i)) by lia.
Qed.
(** Both brackets of a loop do the same. *)
Lemma run_loop_open n i b k t : plain b → text_at src i (BLoop b k) →
  run (S n) i t = (v ← cell t; if v =? 0 then run n (S (S i + length (flat b))) t else run n (S i) t).
Proof.
  intros Hb Hs. pose proof (forward_loop i b k Hb Hs) as Hf. apply text_loop in Hs as (H0 & _).
  rewrite (run_step _ _ _ _ H0). unfold step. rewrite Nat2Z.id, H0. cbn [deref mbind outcome_bind]. rewrite (Z.eqb_refl c_open).
  destruct (cell t) as [v| | |]; try done. cbn [mbind outcome_bind]. destruct (v =? 0); cbn [negb].
  - by rewrite Hf.
  - cbn [mbind outcome_bind]. by replace (Z.of_nat i + 1) with (Z.of_nat (S i)) by lia.
Qed.
Lemma run_loop_close n i b k t : plain b → text_at src i (BLoop b k) → run n (S i + length (flat b)) t = run n i t.
Proof.
  intros Hb Hs. destruct n as [|n]; [done|]. rewrite (run_loop_open n i b k) by done. pose proof (backward_loop i b k Hb Hs) as Hf.
  apply text_loop in Hs as (_ & _ & H1 & _).
  rewrite (run_step _ _ _ _ H1). unfold step. rewrite Nat2Z.id, H1. cbn [deref mbind outcome_bind].
  change (c_close =? c_open) with false. rewrite (Z.eqb_refl c_close).
  destruct (cell t) as [v| | |]; try done. cbn [mbind outcome_bind]. destruct (v =? 0); cbn [negb].
  - cbn [mbind outcome_bind]. by replace (Z.of_nat (S i + length (flat b)) + 1) with (Z.of_nat (S (S i + length (flat b)))) by lia.
  - by rewrite Hf.
Qed.

(** ** The program does what the language says *)
Definition as_outcome (o : option tape) : outcome tape := match o with Some t => Ret t | None => Fault end.

Lemma exec_run p t o : exec p t o → ∀ i, plain p → text_at src i p →
  ∃ m, ∀ n, run (m + n) i t = match o with Some t' => run n (i + length (flat p)) t' | None => Fault end.
Proof.
  induction 1 as [t|c k t t' o Hc Hk IH|c k t Hc|b k t Hc|b k t o Hc Hk IH|b k t v Hc Hv Hb IH|b k t v t' o Hc Hv Hb IHb Hl IHl];
    intros i Hp Hs; cbn [flat length].
  - exists 0%nat. intros n. by rewrite Nat.add_0_r.
  - destruct Hp as [Hb Hp]. destruct (text_cmd _ _ _ _ Hs) as [H0 Hsk]. destruct (IH (S i) Hp Hsk) as [m Hm]. exists (S m). intros n.
    cbn [Nat.add]. rewrite (run_cmd _ _ _ c), Hc by done. cbn [mbind outcome_bind]. rewrite Hm. destruct o; [|done]. f_equal. lia.
  - destruct Hp as [Hb Hp]. destruct (text_cmd _ _ _ _ Hs) as [H0 Hsk]. exists 1%nat. intros n. cbn [Nat.add].
    by rewrite (run_cmd _ _ _ c), Hc by done.
  - destruct Hp as [Hb Hp]. exists 1%nat. intros n. cbn [Nat.add]. by rewrite (run_loop_open _ _ b k), Hc by done.
  - destruct Hp as [Hb Hp]. destruct (text_loop _ _ _ _ Hs) as (_ & _ & _ & Hsk). destruct (IH _ Hp Hsk) as [m Hm]. exists (S m). intros n.
    cbn [Nat.add]. rewrite (run_loop_open _ _ b k), Hc by done. cbn [mbind outcome_bind]. rewrite (Z.eqb_refl 0), Hm. destruct o; [|done]. f_equal.
    rewrite length_app. cbn [length]. lia.
  - destruct Hp as [Hpb Hp]. destruct (text_loop _ _ _ _ Hs) as (_ & Hsb & _). destruct (IH _ Hpb Hsb) as [m Hm]. exists (S m). intros n.
    cbn [Nat.add]. rewrite (run_loop_open _ _ b k), Hc by done. cbn [mbind outcome_bind]. rewrite (proj2 (Z.eqb_neq v 0)) by done. by rewrite Hm.
  - destruct Hp as [Hpb Hp]. destruct (text_loop _ _ _ _ Hs) as (_ & Hsb & _). destruct (IHb _ Hpb Hsb) as [m Hm].
    destruct (IHl i (conj Hpb Hp) Hs) as [m2 Hm2]. exists (S (m + m2)). intros n. cbn [Nat.add].
    rewrite (run_loop_open _ _ b k), Hc by done. cbn [mbind outcome_bind]. rewrite (proj2 (Z.eqb_neq v 0)) by done.
    rewrite <- Nat.add_assoc, Hm. rewrite (run_loop_close _ i b k) by done. rewrite Hm2. done.
Qed.

Lemma command_result c t : (∃ t', command c t = Ret t') ∨ command c t = Fault.
Proof.
  assert (∀ t, (∃ v, cell t = Ret v) ∨ cell t = Fault) as Hcell.
  { intros u. unfold cell. destruct (_ <? _); [|by right]. destruct (cells u !! _); [left; by eexists|by right]. }
  unfold command, write_cell, read_cell, set_cell. destruct (Hcell t) as [[v ->]| ->]; cbn [mbind outcome_bind];
    repeat case_match; eauto.
Qed.
Lemma cell_result t : (∃ v, cell t = Ret v) ∨ cell t = Fault.
Proof. unfold cell. destruct (_ <? _); [|by right]. destruct (cells t !! _); [left; by eexists|by right]. Qed.

Lemma run_exec n : ∀ p i t r, plain p → text_at src i p → run n i t = r → r ≠ OutOfFuel →
  (∃ t' m, exec p t (Some t') ∧ (m ≤ n)%nat ∧ run m (i + length (flat p)) t' = r) ∨ (exec p t None ∧ r = Fault).
Proof.
  induction n as [n IHn] using (well_founded_induction lt_wf).
  intros [|c k|b k] i t r Hp Hs Hr Hne; cbn [flat length].
  - left. exists t, n. rewrite Nat.add_0_r. split; [constructor|done].
  - destruct Hp as [Hb Hp]. destruct (text_cmd _ _ _ _ Hs) as [H0 Hsk]. destruct n as [|n]; [by cbn in Hr; congruence|].
    rewrite (run_cmd _ _ _ c) in Hr by done. destruct (command_result c t) as [[t' Hc]|Hc]; rewrite Hc in Hr; cbn [mbind outcome_bind] in Hr.
    + destruct (IHn n ltac:(lia) k (S i) t' r Hp Hsk Hr Hne) as [(t2 & m & He & Hm & Hrm)|[He ->]].
      * left. exists t2, m. split; [by econstructor|]. split; [lia|]. by replace (i + S (length (flat k)))%nat with (S i + length (flat k))%nat by lia.
      * right. split; [by econstructor|done].
    + right. split; [by constructor|done].
  - destruct Hp as [Hpb Hp]. destruct (text_loop _ _ _ _ Hs) as (_ & Hsb & _ & Hsk). destruct n as [|n]; [by cbn in Hr; congruence|].
    rewrite (run_loop_open _ _ b k) in Hr by done. destruct (cell_result t) as [[v Hc]|Hc]; rewrite Hc in Hr; cbn [mbind outcome_bind] in Hr.
    2:{ right. split; [by constructor|done]. }
    destruct (Z.eqb_spec v 0) as [Hv|Hv]; [rewrite Hv in Hc|].
    + destruct (IHn n ltac:(lia) k _ t r Hp Hsk Hr Hne) as [(t2 & m & He & Hm & Hrm)|[He ->]].
      * left. exists t2, m. split; [by apply exec_loop_end|]. split; [lia|]. rewrite length_app. cbn [length].
        by replace (i + S (length (flat b) + S (length (flat k))))%nat with (S (S i + length (flat b)) + length (flat k))%nat by lia.
      * right. split; [by apply exec_loop_end|done].
    + destruct (IHn n ltac:(lia) b _ t r Hpb Hsb Hr Hne) as [(t1 & m1 & He1 & Hm1 & Hr1)|[He ->]].
      2:{ right. split; [by eapply exec_loop_body_off|done]. }
      rewrite (run_loop_close _ i b k) in Hr1 by done.
      destruct (IHn m1 ltac:(lia) (BLoop b k) i t1 r (conj Hpb Hp) Hs Hr1 Hne) as [(t2 & m & He & Hm & Hrm)|[He ->]].
      * left. exists t2, m. split; [by eapply exec_loop_turn|]. split; [lia|done].
      * right. split; [by eapply exec_loop_turn|done].
Qed.
End interpreter.

(** ** Reading the source *)
Section reading.
Context {A : Type} {alloc_A : Allocator A} {laws_A : AllocatorLaws (2 ^ 61) A}.
Abbreviation W := (hworld A).
Implicit Types (w : W).

(** The source read so far: [text], in a block of its own besides [L]. *)
Definition holds_source (L : gmap Z Z) w (s : bf_source) (text : list Z) : Prop :=
  al_ok (hheap w) ∧ src_len s = Z.of_nat (length text) ∧
  ((src_data s = 0 ∧ text = [] ∧ al_live (hheap w) = L) ∨
   (src_data s ≠ 0 ∧ blocks w !! src_data s = Some (text ++ [0]) ∧ is_Some (al_live (hheap w) !! src_data s) ∧
    undo (src_data s) (al_live (hheap w)) = L)).

Lemma wp_hbfi_malloc w n (Q : Z → W → Prop) :
  al_ok (hheap w) → 0 < n < 2 ^ 61 →
  (∀ p a, al_ok a → took (al_live (hheap w)) p n (al_live a) → Q p (set_hheap a w)) → wp (malloc n) Q w.
Proof using laws_A.
  intros Hok Hn HQ. destruct (al_alloc_law (hheap w) n Hok Hn) as (p & a & Hr & Hok' & Hcase).
  unfold wp, malloc. rewrite Hr. cbn. by apply HQ.
Qed.
Lemma wp_hbfi_free w p (Q : unit → W → Prop) :
  al_ok (hheap w) → p = 0 ∨ is_Some (al_live (hheap w) !! p) →
  (∀ a, al_ok a → al_live a = undo p (al_live (hheap w)) → Q tt (set_blocks (delete p (blocks w)) (set_hheap a w))) → wp (free p) Q w.
Proof using laws_A.
  intros Hok Hp HQ. unfold wp, free, undo in *. destruct (Z.eqb_spec p 0) as [->|Hne].
  - rewrite al_free_null. cbn. by apply HQ.
  - destruct Hp as [?|[k Hk]]; [done|]. destruct (al_free_law (hheap w) p k Hok Hk) as (a & -> & Hok' & Hl). cbn. by apply HQ.
Qed.
Lemma wp_block w p b (Q : list Z → W → Prop) : blocks w !! p = Some b → Q b w → wp (block p) Q w.
Proof. intros Hb HQ. unfold block. apply wp_bind, wp_gets. by eapply wp_lift; [rewrite Hb|]. Qed.

Lemma wp_free_source L w s text (Q : bf_source → W → Prop) :
  holds_source L w s text →
  (∀ w', al_ok (hheap w') → al_live (hheap w') = L → Q (MkSource 0 0) w') → wp (free_source s) Q w.
Proof using laws_A.
  intros (Hok & _ & Hcase) HQ. unfold free_source. apply wp_bind. eapply wp_hbfi_free; [done|naive_solver|].
  intros a Ha Hl. apply wp_ret, HQ; [done|]. cbn. rewrite Hl. destruct Hcase as [(-> & _ & <-)|(_ & _ & _ & <-)]; done.
Qed.

Lemma wp_append_bytes L w s text buf (Q : option bf_source → W → Prop) :
  holds_source L w s text → Z.of_nat (length text) + Z.of_nat (length buf) + 1 < 2 ^ 61 →
  (∀ w', holds_source L w' s text → chunks w' = chunks w → Q None w') →
  (∀ w' s', holds_source L w' s' (text ++ buf) → src_data s' ≠ 0 → chunks w' = chunks w → Q (Some s') w') →
  wp (append_bytes s buf) Q w.
Proof using laws_A.
  intros (Hok & Hlen & Hcase) Hbig HN HS. unfold append_bytes. rewrite Hlen.
  rewrite !u64_small by (unfold is_u64; lia). apply wp_bind. eapply wp_hbfi_malloc; [done|lia|]. intros p a Ha Ht.
  destruct (Z.eqb_spec p 0) as [->|Hp].
  { apply wp_ret, HN; [|done]. split; [done|]. split; [done|]. cbn. destruct Ht as [[_ ->]|(k & ? & _)]; [done|lia]. }
  apply wp_bind. apply (wp_mono _ (λ old w', old = text ∧ w' = set_hheap a w)).
  { destruct (Z.ltb_spec 0 (Z.of_nat (length text))) as [Hl|Hl].
    2:{ apply wp_ret. split; [|done]. destruct text; cbn in *; [done|lia]. }
    destruct Hcase as [(_ & -> & _)|(Hd & Hb & _)]; [cbn in Hl; lia|]. apply wp_bind. eapply wp_block; [exact Hb|].
    rewrite bool_decide_true by (rewrite length_app; cbn; lia). eapply wp_lift; [done|]. rewrite Nat2Z.id. split; [|done].
    by rewrite take_app_length. }
  intros old w' [-> ->]. apply wp_bind, wp_modify. apply wp_bind.
  assert (src_data s = 0 ∨ is_Some (al_live a !! src_data s)) as Hlive.
  { destruct Hcase as [(-> & _)|(_ & _ & [k Hk] & _)]; [by left|right]. exists k. by eapply took_mono. }
  assert (src_data s ≠ p) as Hne.
  { destruct Hcase as [(-> & _)|(_ & _ & Hs & _)]; [congruence|]. destruct (took_ne _ _ _ _ _ Ht Hs); congruence. }
  eapply wp_hbfi_free; [done|done|]. intros a2 Ha2 Hl2. apply wp_ret, HS; [|done|done]. split; [done|].
  split; [cbn; rewrite length_app; lia|]. right. cbn. split; [done|]. rewrite lookup_delete_ne, lookup_insert_eq by done.
  split; [by rewrite app_assoc|]. cbn in Hl2. rewrite Hl2. split.
  - apply undo_keeps; [by left|]. by destruct (took_live _ _ _ _ Ht).
  - rewrite undo_comm, (took_undo _ _ _ _ Ht). destruct Hcase as [(-> & _ & <-)|(_ & _ & _ & <-)]; done.
Qed.

Lemma wp_read_chunk w (Q : option (list Z) → W → Prop) :
  Q (default (Some []) (head (chunks w))) (set_chunks (tail (chunks w)) w) → wp read_chunk Q w.
Proof. intros HQ. unfold read_chunk. by apply wp_bind, wp_gets, wp_bind, wp_modify, wp_ret. Qed.

Definition read_result L (text : list Z) (r : Z * bf_source) w' : Prop :=
  (fst r = 0 ∧ holds_source L w' (snd r) text ∧ (text ≠ [] → src_data (snd r) ≠ 0)) ∨
  (fst r = 1 ∧ al_ok (hheap w') ∧ al_live (hheap w') = L).
Lemma wp_read_loop L cs : ∀ w s text, holds_source L w s text → (text ≠ [] → src_data s ≠ 0) →
  chunks w = Some <$> cs → Forall (λ c, c ≠ []) cs → Z.of_nat (length (text ++ concat cs)) + 1 < 2 ^ 61 →
  wp (read_source_loop (S (length cs)) s) (read_result L (text ++ concat cs)) w.
Proof using laws_A.
  induction cs as [|c cs IH]; intros w s text Hs Hd Hch Hne Hbig; cbn [read_source_loop length]; apply wp_bind, wp_read_chunk; rewrite Hch; cbn [fmap list_fmap head default].
  { apply wp_ret. left. cbn. rewrite app_nil_r. by split_and!. }
  apply Forall_cons in Hne as [Hc Hne]. destruct c as [|x c]; [done|]. apply wp_bind. cbn [concat] in Hbig. rewrite !length_app in Hbig.
  eapply wp_append_bytes; [exact Hs|lia| |].
  - intros w' Hs' _. apply wp_bind, wp_modify, wp_bind. eapply wp_free_source; [exact Hs'|]. intros w2 Ho Hl. apply wp_ret. by right.
  - intros w' s' Hs' Hz Hch'. cbn [concat]. rewrite app_assoc. apply IH; [done|done|by rewrite Hch'|done|].
    rewrite !length_app. lia.
Qed.

(** [read_source_fd] collects what [read] gives, however it is cut in pieces:
    the source is their concatenation, terminated, in one block that is the only
    one kept, or the heap is exhausted and no block is kept. *)
Theorem read_source_collects w cs :
  al_ok (hheap w) → chunks w = Some <$> cs → Forall (λ c, c ≠ []) cs → Z.of_nat (length (concat cs)) + 1 < 2 ^ 61 →
  wp read_source_fd (λ r w', (fst r = 0 ∧ src_data (snd r) ≠ 0 ∧ holds_source (al_live (hheap w)) w' (snd r) (concat cs)) ∨
    (fst r = 1 ∧ al_live (hheap w') = al_live (hheap w))) w.
Proof using laws_A.
  intros Hok Hch Hne Hbig. unfold read_source_fd. apply wp_bind, wp_gets, wp_bind. rewrite Hch, length_fmap.
  eapply wp_mono; [apply (wp_read_loop (al_live (hheap w)) cs w (MkSource 0 0) []); try done|].
  { split; [done|]. split; [done|]. by left. }
  intros [st s] w1 [(Hst & Hs & Hd)|(Hst & Ho & Hl)]; cbn [fst snd app] in *; rewrite Hst; cbn [Z.eqb negb].
  2:{ apply wp_ret. by right. }
  destruct (Z.eqb_spec (src_data s) 0) as [Ez|Hz]; [|apply wp_ret; by left].
  apply wp_bind. pose proof Hs as (_ & _ & [(_ & Et & _)|(? & _)]); [|done].
  eapply wp_append_bytes; [exact Hs|rewrite Et; cbn; lia| |].
  - intros w2 (_ & _ & [(_ & _ & Hl)|(? & _)]) _; [|done]. apply wp_bind, wp_modify, wp_ret. by right.
  - intros w2 s2 Hs2 Hz _. apply wp_ret. left. cbn. by rewrite app_nil_r in Hs2.
Qed.
End reading.

(** ** Theorems *)

(** C31: the interpreter and the language agree on every text whose brackets
    match: the text is a program of the structured language, and from any tape
    the loop of [run] ends with a tape, or leaves the 1024 cells, exactly when
    the program does, with the same cells, position, input left and output; so it
    runs forever exactly when the program does. *)
Theorem hbfi_interprets src :
  balanced src = true →
  ∃ p, plain p ∧ flat p = src ∧
    ∀ t o, (∃ n, run_loop n src 0 t = as_outcome o) ↔ exec p t o.
Proof.
  intros (p & Hp & Hf)%balanced_parse. exists p. split; [done|]. split; [done|]. intros t o.
  assert (text_at src 0 p) as Ht by (rewrite <- Hf; by intros j c).
  assert (∀ n t', run_loop (S n) src (Z.of_nat (0 + length (flat p))) t' = Ret t') as Hend.
  { intros n t'. cbn [run_loop]. rewrite Hf. by rewrite (proj2 (Z.ltb_ge _ _)) by lia. }
  split.
  - intros [n Hn]. change 0 with (Z.of_nat 0) in Hn.
    destruct (run_exec src n p 0 t (as_outcome o) Hp Ht Hn) as [(t' & m & He & _ & Hm)|[He Ho]]; [by destruct o| |].
    + destruct m as [|m]; [by destruct o|]. rewrite Hend in Hm. destruct o as [t2|]; [|done]. by injection Hm as ->.
    + by destruct o.
  - intros He. destruct (exec_run src p t o He 0 Hp Ht) as [m Hm]. exists (m + 1)%nat. change 0 with (Z.of_nat 0).
    rewrite Hm. destruct o as [t'|]; [|done]. apply Hend.
Qed.

(** The text [++>,[<.>-]]. *)
Definition demo_text : list Z := [43; 43; 62; 44; 91; 60; 46; 62; 45; 93].
Definition demo_tape : tape := MkTape (replicate 1024 0) 0 [3] [].
Example demo_run :
  match run_loop 40 demo_text 0 demo_tape with Ret t => data_idx t = 1 ∧ t_in t = [] ∧ t_out t = [2; 2; 2] | _ => False end.
Proof. vm_compute. by split_and!. Qed.

Lemma hbfi_interprets_witness :
  ∃ p, plain p ∧ flat p = demo_text ∧ ∃ t, exec p demo_tape (Some t) ∧ t_out t = [2; 2; 2].
Proof.
  destruct (hbfi_interprets demo_text eq_refl) as (p & Hp & Hf & He). exists p. split; [exact Hp|]. split; [exact Hf|].
  pose proof demo_run as Hd. destruct (run_loop 40 demo_text 0 demo_tape) as [t| | |] eqn:E; try contradiction.
  exists t. split; [|apply Hd]. apply He. exists 40%nat. exact E.
Defined.
