(* ===== verification/Proc.v ===== *)
(** * Proc: the life of a process, [kernel/mp/proc.c], [fork.c], [execve.c], [wait.c]

    Creation, fork, the replacement of the image, exit, collection by the parent
    and the reaper of [scheduler.c].  The scheduler's part of a process is in
    [ProcQueue]; what it owns besides (its stack, its memory state, its
    descriptors, its strings) is kept here by address.  Loggers, FPU areas,
    address spaces, open files and vnodes belong to other components, reached
    through [Services]; small objects come from the slab allocator. *)
From S2P Require Import Prelude Alloc Cstring Number Elf ProcQueue Sched SchedSpec Semaphore.

(** ** What other components offer *)

(** Things that are made and destroyed elsewhere: loggers, FPU areas, address
    spaces, executables, and blocks of the heap behind [malloc]. *)
Inductive kind := KLogger | KFpu | KVmm | KElf | KHeap.
#[global] Instance kind_eq_dec : EqDecision kind.
Proof. solve_decision. Defined.
#[global] Instance kind_countable : Countable kind.
Proof.
  refine (inj_countable' (λ k, match k with KLogger => 0%nat | KFpu => 1%nat | KVmm => 2%nat | KElf => 3%nat | KHeap => 4%nat end)
    (λ n, match n with O => KLogger | 1%nat => KFpu | 2%nat => KVmm | 3%nat => KElf | _ => KHeap end) _).
  by intros [].
Defined.
(** [hlog_new], [fpu_new], [vmm_new], [vmm_copy]. *)
Inductive maker := NewLogger | NewFpu | NewVmm | CopyVmm (v : Z).
Definition made (m : maker) : kind :=
  match m with NewLogger => KLogger | NewFpu => KFpu | NewVmm | CopyVmm _ => KVmm end.

Class Services (S : Type) := {
  sv_make : maker → S → outcome (Z * S);
  (** [hlog_free_logger], [fpu_free], [vmm_free], [elf_free], [free]. *)
  sv_drop : kind → Z → S → outcome (unit * S);
  sv_vmm_cr3 : Z → S → outcome Z;
  (** [fpu_save] and [fpu_copy] to the second; [fpu_reset] and [fpu_restore]. *)
  sv_fpu_dup : Z → Z → S → outcome (unit * S);
  sv_fpu_reset : Z → S → outcome (unit * S);
  (** [file->refcount], [file->flags]. *)
  sv_file : Z → S → outcome (Z * Z);
  sv_file_borrow : Z → S → outcome (unit * S);
  sv_file_release : Z → S → outcome (unit * S);
  sv_file_close : Z → S → outcome (unit * S);
  sv_vnode_borrow : Z → S → outcome (unit * S);
  sv_vnode_release : Z → S → outcome (unit * S);
}.

(** ** Data *)
Definition MAX_FDS : Z := 256.
Definition VFS_OPEN_CLOEXEC : Z := 16.
Definition SIZEOF_PROC : Z := 224.
Definition SIZEOF_INTERRUPT_FRAME : Z := 192.
Definition WAITPID_WNOHANG : Z := 1.
Definition ECHILD : Z := 10.
Definition EAGAIN : Z := 11.
Definition ENOMEM : Z := 12.
Definition EINVAL : Z := 22.

(** The other fields of [struct proc]; [o_children] is the address of the array
    whose contents are in [children]. *)
Record owned := MkOwned {
  o_cr3 : Z; o_rsp : Z; o_rsp0 : Z; o_entry : Z; o_fpu : Z; o_logger : Z; o_name : Z; o_stack_end : Z;
  o_mem : Z; o_elf : Z; o_argc : Z; o_argv : Z; o_envp : Z; o_fds : Z; o_cwd : Z; o_children : Z;
}.

(** [ptrs] are arrays of pointers, [names] strings, [kwords] the words of kernel
    stacks and [uints] integers of user memory. *)
Record pext (Srv A : Type) := MkExt {
  own : gmap Z owned; pmems : gmap Z process_mem; ptrs : gmap Z (list Z); names : gmap Z (list Z);
  kwords : gmap Z Z; uints : gmap Z Z; pheap : A; services : Srv;
  total_processes_added : Z; process_count : Z; kernel_vmm : Z; has_fpu : bool;
}.
Arguments MkExt {Srv A}.
Arguments own {Srv A}.
Arguments pmems {Srv A}.
Arguments ptrs {Srv A}.
Arguments names {Srv A}.
Arguments kwords {Srv A}.
Arguments uints {Srv A}.
Arguments pheap {Srv A}.
Arguments services {Srv A}.
Arguments total_processes_added {Srv A}.
Arguments process_count {Srv A}.
Arguments kernel_vmm {Srv A}.
Arguments has_fpu {Srv A}.

Section proc.
Context {Srv : Type} {services_S : Services Srv} {A : Type} {alloc_A : Allocator A}.
Abbreviation X := (pext Srv A).
Abbreviation W := (kworld_of X).
(** The rest of the system while the caller is switched away, and the addresses
    of [proc_prelude] and [make_fork_kstack]. *)
Context (away halted : prog W unit) (idle_fuel : nat) (prelude_addr fork_kstack_addr : Z).
Implicit Types (w : W) (e : X).

(** ** State updates *)
Definition set_own (m : gmap Z owned) e : X :=
  MkExt m (pmems e) (ptrs e) (names e) (kwords e) (uints e) (pheap e) (services e)
    (total_processes_added e) (process_count e) (kernel_vmm e) (has_fpu e).
Definition set_pmems (m : gmap Z process_mem) e : X :=
  MkExt (own e) m (ptrs e) (names e) (kwords e) (uints e) (pheap e) (services e)
    (total_processes_added e) (process_count e) (kernel_vmm e) (has_fpu e).
Definition set_ptrs (m : gmap Z (list Z)) e : X :=
  MkExt (own e) (pmems e) m (names e) (kwords e) (uints e) (pheap e) (services e)
    (total_processes_added e) (process_count e) (kernel_vmm e) (has_fpu e).
Definition set_names (m : gmap Z (list Z)) e : X :=
  MkExt (own e) (pmems e) (ptrs e) m (kwords e) (uints e) (pheap e) (services e)
    (total_processes_added e) (process_count e) (kernel_vmm e) (has_fpu e).
Definition set_kwords (m : gmap Z Z) e : X :=
  MkExt (own e) (pmems e) (ptrs e) (names e) m (uints e) (pheap e) (services e)
    (total_processes_added e) (process_count e) (kernel_vmm e) (has_fpu e).
Definition set_uints (m : gmap Z Z) e : X :=
  MkExt (own e) (pmems e) (ptrs e) (names e) (kwords e) m (pheap e) (services e)
    (total_processes_added e) (process_count e) (kernel_vmm e) (has_fpu e).
Definition set_pheap (a : A) e : X :=
  MkExt (own e) (pmems e) (ptrs e) (names e) (kwords e) (uints e) a (services e)
    (total_processes_added e) (process_count e) (kernel_vmm e) (has_fpu e).
Definition set_services (s : Srv) e : X :=
  MkExt (own e) (pmems e) (ptrs e) (names e) (kwords e) (uints e) (pheap e) s
    (total_processes_added e) (process_count e) (kernel_vmm e) (has_fpu e).
Definition count_process e : X :=
  MkExt (own e) (pmems e) (ptrs e) (names e) (kwords e) (uints e) (pheap e) (services e)
    (u64 (total_processes_added e + 1)) (u64 (process_count e + 1)) (kernel_vmm e) (has_fpu e).

Definition set_ext (e : X) w : W :=
  MkWorld (procs w) (queues w) (current w) (sched w) (clock w) (interrupts w) (semaphores w) (mutexes w) e.
Definition upd_ext (f : X → X) : prog W unit := modify (λ w, set_ext (f (ext w)) w).
(** A step of the part kept here. *)
Definition on_ext {B} (m : prog X B) : prog W B := λ w, '(b, e) ← m (ext w); Ret (b, set_ext e w).

Definition slab_calloc (n : Z) : prog W Z :=
  on_ext (λ e, '(p, a) ← al_alloc n (pheap e); Ret (p, set_pheap a e)).
Definition slab_free (p : Z) : prog W unit :=
  on_ext (λ e, '(_, a) ← al_free p (pheap e); Ret (tt, set_pheap a e)).
Definition service {B} (m : Srv → outcome (B * Srv)) : prog W B :=
  on_ext (λ e, '(b, s) ← m (services e); Ret (b, set_services s e)).
Definition make (m : maker) : prog W Z := service (sv_make m).
Definition drop_it (k : kind) (p : Z) : prog W unit := service (sv_drop k p).

Definition owned_of (p : Z) : prog W owned := m ← gets (λ w, own (ext w)); lift (deref (m !! p)).
Definition update_owned (p : Z) (f : owned → owned) : prog W unit :=
  o ← owned_of p; upd_ext (λ e, set_own (<[p := f o]> (own e)) e).
Definition mem_of (m : Z) : prog W process_mem := t ← gets (λ w, pmems (ext w)); lift (deref (t !! m)).
Definition update_mem (m : Z) (f : process_mem → process_mem) : prog W unit :=
  v ← mem_of m; upd_ext (λ e, set_pmems (<[m := f v]> (pmems e)) e).
(** [a[i]] of an array of pointers. *)
Definition ptr_at (a i : Z) : prog W Z :=
  m ← gets (λ w, ptrs (ext w)); l ← lift (deref (m !! a)); lift (deref (l !! Z.to_nat i)).
Definition set_ptr (a i v : Z) : prog W unit :=
  m ← gets (λ w, ptrs (ext w)); l ← lift (deref (m !! a)); _ ← lift (deref (l !! Z.to_nat i));
  upd_ext (λ e, set_ptrs (<[a := <[Z.to_nat i := v]> l]> (ptrs e)) e).
(** [p->children[i]]. *)
Definition child_at (p i : Z) : prog W Z :=
  v ← load_proc p; l ← lift (deref (children v)); lift (deref (l !! Z.to_nat i)).
Definition set_child (p i c : Z) : prog W unit :=
  v ← load_proc p; l ← lift (deref (children v)); _ ← lift (deref (l !! Z.to_nat i));
  update_proc p (λ v, set_children v (Some (<[Z.to_nat i := c]> l))).

Definition with_o_cwd (x : Z) (o : owned) : owned :=
  MkOwned (o_cr3 o) (o_rsp o) (o_rsp0 o) (o_entry o) (o_fpu o) (o_logger o) (o_name o) (o_stack_end o)
    (o_mem o) (o_elf o) (o_argc o) (o_argv o) (o_envp o) (o_fds o) x (o_children o).
Definition with_o_rsp (x : Z) (o : owned) : owned :=
  MkOwned (o_cr3 o) x (o_rsp0 o) (o_entry o) (o_fpu o) (o_logger o) (o_name o) (o_stack_end o)
    (o_mem o) (o_elf o) (o_argc o) (o_argv o) (o_envp o) (o_fds o) (o_cwd o) (o_children o).
Definition with_o_entry (x : Z) (o : owned) : owned :=
  MkOwned (o_cr3 o) (o_rsp o) (o_rsp0 o) x (o_fpu o) (o_logger o) (o_name o) (o_stack_end o)
    (o_mem o) (o_elf o) (o_argc o) (o_argv o) (o_envp o) (o_fds o) (o_cwd o) (o_children o).
Definition set_kernel_proc (v : proc) (b : bool) : proc :=
  MkProc (status v) b (pid v) (next v) (elapsed v) (sleep_until v) (switch_timestamp v)
    (children v) (parent v) (exit_code v).
(** ** Memory state, strings, working directory *)
Definition process_mem_new (vmm : Z) : prog W Z :=
  m ← slab_calloc 32;
  if m =? 0 then mret 0
  else _ ← upd_ext (λ e, set_pmems (<[m := MkMem vmm 0 0 0]> (pmems e)) e); mret m.
Definition process_mem_free (m : Z) : prog W unit :=
  if m =? 0 then mret tt
  else
    v ← mem_of m;
    k ← gets (λ w, kernel_vmm (ext w));
    _ ← when (negb (m_vmm v =? 0) && negb (m_vmm v =? k)) (drop_it KVmm (m_vmm v));
    _ ← slab_free m;
    upd_ext (λ e, set_pmems (delete m (pmems e)) e).

(** The first [name_len] bytes of a string, and a terminator. *)
Definition proc_name_new (name : option (list Z)) (name_len : Z) : prog W Z :=
  match name with
  | None => mret 0
  | Some b =>
      ret ← slab_calloc (u64 (name_len + 1));
      if ret =? 0 then mret 0
      else _ ← upd_ext (λ e, set_names (<[ret := take (Z.to_nat name_len) b]> (names e)) e); mret ret
  end.
Definition free_name (p : Z) : prog W unit :=
  _ ← slab_free p; upd_ext (λ e, set_names (delete p (names e)) e).
Definition free_ptrs (p : Z) : prog W unit :=
  _ ← slab_free p; upd_ext (λ e, set_ptrs (delete p (ptrs e)) e).

(** At most one turn more than the array has entries. *)
Fixpoint strings_loop (n : nat) (strings i : Z) : prog W unit :=
  match n with
  | O => diverge
  | S n' =>
      s ← ptr_at strings i;
      if s =? 0 then mret tt else _ ← drop_it KHeap s; strings_loop n' strings (i + 1)
  end.
Definition proc_strings_free (strings : Z) : prog W unit :=
  if strings =? 0 then mret tt
  else
    m ← gets (λ w, ptrs (ext w));
    l ← lift (deref (m !! strings));
    _ ← strings_loop (length l) strings 0;
    _ ← drop_it KHeap strings;
    upd_ext (λ e, set_ptrs (delete strings (ptrs e)) e).

Definition proc_set_cwd (p cwd : Z) : prog W unit :=
  if p =? 0 then mret tt
  else
    _ ← service (sv_vnode_borrow cwd);
    o ← owned_of p;
    _ ← service (sv_vnode_release (o_cwd o));
    update_owned p (with_o_cwd cwd).

(** ** Creation *)

(** [itoa] into a buffer of 21 zeros. *)
Definition pid_name (n : Z) : outcome (list Z) :=
  let zeros := list_to_map ((λ i, (Z.of_nat i, 0)) <$> seq 1 21) in
  '(_, m) ← itoa n 1 10 zeros;
  '(k, _) ← Cstring.strlen 1 m;
  Ret (omap (λ i, m !! Z.of_nat i) (seq 1 (Z.to_nat k))).
Definition name_bytes (name n : Z) : prog W (list Z) :=
  if name =? 0 then lift (pid_name n)
  else m ← gets (λ w, names (ext w)); lift (deref (m !! name)).

(** A word of the stack at [base]. *)
Definition store_stack (base x v : Z) : prog W unit :=
  if (base <=? x) && (x + 8 <=? base + STACK_SIZE)
  then upd_ext (λ e, set_kwords (<[x := v]> (kwords e)) e) else fault.
Fixpoint zero_words (n : nat) (base x : Z) : prog W unit :=
  match n with O => mret tt | S n' => _ ← store_stack base x 0; zero_words n' base (x + 8) end.
Fixpoint copy_words (n : nat) (base d s : Z) : prog W unit :=
  match n with
  | O => mret tt
  | S n' =>
      m ← gets (λ w, kwords (ext w));
      v ← lift (deref (m !! s));
      _ ← store_stack base d v;
      copy_words n' base (d + 8) (s + 8)
  end.

(** The fields of a zeroed [proc_t] that is not running yet. *)
Definition blank_proc (n : Z) : proc :=
  MkProc PROC_STATUS_UNINITIALIZED false n 0 0 0 0 (Some (replicate (Z.to_nat MAX_CHILDREN) 0)) 0 0.

Definition proc_new_shared (name cr3 : Z) : prog W Z :=
  new_proc ← slab_calloc SIZEOF_PROC;
  fds ← slab_calloc (8 * MAX_FDS);
  kids ← slab_calloc (8 * MAX_CHILDREN);
  stack_end ← slab_calloc STACK_SIZE;
  logger ← make NewLogger;
  mem ← process_mem_new 0;
  e ← gets ext;
  fpu ← (if has_fpu e then make NewFpu else mret 0);
  let n := u64 (total_processes_added e + 1) in
  b ← name_bytes name n;
  proc_name ← proc_name_new (Some b) (Z.of_nat (length b));
  if (new_proc =? 0) || (mem =? 0) || (fds =? 0) || (kids =? 0) || (stack_end =? 0) || (logger =? 0) ||
     (proc_name =? 0) || (has_fpu e && (fpu =? 0))
  then
    _ ← slab_free new_proc;
    _ ← slab_free fds;
    _ ← slab_free kids;
    _ ← slab_free stack_end;
    _ ← drop_it KFpu fpu;
    _ ← process_mem_free mem;
    _ ← free_name proc_name;
    _ ← when (negb (logger =? 0)) (drop_it KLogger logger);
    mret 0
  else
    let rsp0 := u64 (stack_end + STACK_SIZE) in
    let return_slot := u64 (Z.land rsp0 (UINT64_MAX - 15) - 16) in
    let switch_rsp := u64 (return_slot - 15 * 8) in
    _ ← zero_words 16 stack_end switch_rsp;
    _ ← store_stack stack_end (switch_rsp + 8 * 9) new_proc;
    _ ← store_stack stack_end (switch_rsp + 8 * 15) prelude_addr;
    _ ← modify (λ w, set_queues w (<[exit_waiters new_proc := MkQueue 0 0]>
                  (<[child_waiters new_proc := MkQueue 0 0]> (queues w))));
    _ ← wait_queue_init (child_waiters new_proc);
    _ ← wait_queue_init (exit_waiters new_proc);
    _ ← modify (λ w, set_procs w (<[new_proc := blank_proc n]> (procs w)));
    _ ← upd_ext (λ e, set_ptrs (<[fds := replicate (Z.to_nat MAX_FDS) 0]> (ptrs e)) e);
    _ ← upd_ext (λ e, set_own (<[new_proc :=
          MkOwned cr3 switch_rsp rsp0 0 fpu logger proc_name stack_end mem 0 0 0 0 fds 0 kids]> (own e)) e);
    _ ← upd_ext count_process;
    mret new_proc.

Definition proc_new_kernel (name entry cr3 : Z) : prog W Z :=
  p ← proc_new_shared name cr3;
  if p =? 0 then mret 0
  else
    _ ← update_proc p (λ v, set_kernel_proc v true);
    _ ← update_owned p (with_o_entry entry);
    o ← owned_of p;
    k ← gets (λ w, kernel_vmm (ext w));
    _ ← update_mem (o_mem o) (λ m, MkMem k (brk_start m) (brk m) (stack_start m));
    mret p.

(** ** Release *)
Definition process_fd_release (f : Z) : prog W unit :=
  if f =? 0 then mret tt
  else
    e ← gets ext;
    '(rc, _) ← lift (sv_file f (services e));
    if 1 <? rc then service (sv_file_release f) else service (sv_file_close f).

(** The first slot of the parent that holds the process. *)
Fixpoint clear_slot_loop (n : nat) (i par p : Z) : prog W unit :=
  match n with
  | O => mret tt
  | S n' => c ← child_at par i; if c =? p then set_child par i 0 else clear_slot_loop n' (i + 1) par p
  end.
Fixpoint orphan_loop (n : nat) (i p : Z) : prog W unit :=
  match n with
  | O => mret tt
  | S n' =>
      c ← child_at p i;
      _ ← when (negb (c =? 0)) (update_proc c (λ v, set_parent v 0));
      orphan_loop n' (i + 1) p
  end.
Fixpoint close_fds_loop (n : nat) (i fds : Z) : prog W unit :=
  match n with
  | O => mret tt
  | S n' =>
      f ← ptr_at fds i;
      _ ← when (negb (f =? 0)) (_ ← set_ptr fds i 0; process_fd_release f);
      close_fds_loop n' (i + 1) fds
  end.
Definition CHILD_SLOTS : nat := Z.to_nat (MAX_CHILDREN - 1).

Definition proc_free (p : Z) : prog W unit :=
  if p =? 0 then mret tt
  else
    v ← load_proc p;
    _ ← (if negb (parent v =? 0) then
           pv ← load_proc (parent v);
           match children pv with
           | None => mret tt
           | Some _ => clear_slot_loop CHILD_SLOTS 1 (parent v) p
           end
         else mret tt);
    o ← owned_of p;
    v ← load_proc p;
    _ ← match children v with
        | None => mret tt
        | Some _ =>
            _ ← orphan_loop CHILD_SLOTS 1 p;
            _ ← slab_free (o_children o);
            update_proc p (λ v, set_children v None)
        end;
    _ ← drop_it KLogger (o_logger o);
    _ ← when (negb (o_fds o =? 0))
          (_ ← close_fds_loop (Z.to_nat MAX_FDS) 0 (o_fds o); free_ptrs (o_fds o));
    _ ← free_name (o_name o);
    _ ← proc_strings_free (o_argv o);
    _ ← proc_strings_free (o_envp o);
    _ ← proc_set_cwd p 0;
    _ ← drop_it KFpu (o_fpu o);
    _ ← process_mem_free (o_mem o);
    _ ← slab_free (o_stack_end o);
    _ ← slab_free p;
    _ ← upd_ext (λ e, set_own (delete p (own e)) e);
    _ ← modify (λ w, set_queues w (delete (child_waiters p) (delete (exit_waiters p) (queues w))));
    modify (λ w, set_procs w (delete p (procs w))).

(** ** Exit *)
Definition proc_exit (p code : Z) : prog W unit :=
  if p =? 0 then mret tt
  else
    _ ← sched_postpone;
    _ ← sched_lock;
    v ← load_proc p;
    if status v =? PROC_STATUS_READY_TO_DIE then
      _ ← sched_unlock;
      sched_resume away halted idle_fuel
    else
      _ ← update_proc p (λ v, set_exit_code v code);
      cur ← gets current;
      _ ← when (negb (p =? cur)) (mp_remove_proc p);
      _ ← proc_queue_push_head mp_ready_to_die_queue p;
      _ ← sched_unlock;
      _ ← mp_block_proc away halted idle_fuel p PROC_STATUS_READY_TO_DIE;
      v ← load_proc p;
      _ ← when (negb (parent v =? 0))
            (_ ← wait_queue_wake_all away halted idle_fuel (exit_waiters p);
             wait_queue_wake_all away halted idle_fuel (child_waiters (parent v)));
      sched_resume away halted idle_fuel.
Definition proc_terminate (p : Z) : prog W unit := proc_exit p 0.

(** ** Waiting *)

(** The child and its slot: the first one that is dead, else the first one. *)
Fixpoint child_find_loop (n : nat) (i par wanted first first_slot : Z) : prog W (option (Z * Z)) :=
  match n with
  | O => mret (if first =? 0 then None else Some (first, first_slot))
  | S n' =>
      c ← child_at par i;
      if c =? 0 then child_find_loop n' (i + 1) par wanted first first_slot
      else
        v ← load_proc c;
        if negb (wanted =? -1) && negb (pid v =? u64 wanted)
        then child_find_loop n' (i + 1) par wanted first first_slot
        else if status v =? PROC_STATUS_READY_TO_DIE then mret (Some (c, i))
        else if first =? 0 then child_find_loop n' (i + 1) par wanted c i
        else child_find_loop n' (i + 1) par wanted first first_slot
  end.
Definition wait_child_find (par wanted : Z) : prog W (option (Z * Z)) :=
  if par =? 0 then mret None
  else
    v ← load_proc par;
    match children v with
    | None => mret None
    | Some _ => child_find_loop CHILD_SLOTS 1 par wanted 0 0
    end.

Definition process_wait_collect (par child slot wstatus : Z) : prog W Z :=
  if (par =? 0) || (child =? 0) then mret (- ECHILD)
  else
    pv ← load_proc par;
    match children pv with
    | None => mret (- ECHILD)
    | Some _ =>
        v ← load_proc child;
        if negb (status v =? PROC_STATUS_READY_TO_DIE) then mret (- ECHILD)
        else
          _ ← when (negb (wstatus =? 0))
                (upd_ext (λ e, set_uints (<[wstatus := Z.shiftl (Z.land (exit_code v) 255) 8]> (uints e)) e));
          _ ← set_child par slot 0;
          _ ← update_proc child (λ v, set_parent v 0);
          _ ← mp_ready_to_die_remove child;
          _ ← proc_free child;
          mret (pid v)
    end.

Definition waitpid_proc (process wanted wstatus options : Z) : prog W Z :=
  if process =? 0 then mret (- ECHILD)
  else
    pv ← load_proc process;
    match children pv with
    | None => mret (- ECHILD)
    | Some _ =>
        if negb (Z.land options (Z.lnot WAITPID_WNOHANG) =? 0) || (wanted =? 0) || (wanted <? -1)
        then mret (- EINVAL)
        else
          _ ← sched_postpone;
          r ← wait_child_find process wanted;
          match r with
          | None => _ ← sched_resume away halted idle_fuel; mret (- ECHILD)
          | Some (child, slot) =>
              v ← load_proc child;
              if status v =? PROC_STATUS_READY_TO_DIE then
                ret ← process_wait_collect process child slot wstatus;
                _ ← sched_resume away halted idle_fuel;
                mret ret
              else if negb (Z.land options WAITPID_WNOHANG =? 0) then
                _ ← sched_resume away halted idle_fuel; mret 0
              else
                r ← (if wanted =? -1 then
                       _ ← wait_queue_sleep_postponed away halted idle_fuel (child_waiters process);
                       r ← wait_child_find process wanted;
                       mret (match r with None => (false, (child, slot)) | Some cs => (true, cs) end)
                     else
                       _ ← wait_queue_sleep_postponed away halted idle_fuel (exit_waiters child);
                       mret (true, (child, slot)));
                let '(found, (child, slot)) := r in
                if negb found then _ ← sched_resume away halted idle_fuel; mret (- ECHILD)
                else
                  v ← load_proc child;
                  if negb (status v =? PROC_STATUS_READY_TO_DIE)
                  then _ ← sched_resume away halted idle_fuel; mret (- ECHILD)
                  else
                    ret ← process_wait_collect process child slot wstatus;
                    _ ← sched_resume away halted idle_fuel;
                    mret ret
          end
    end.

(** ** The reaper: a turn of [terminator] that finds dead processes; [local] is
    the address of its queue. *)
Fixpoint reap_loop (n : nat) (local p : Z) (freed : bool) : prog W bool :=
  match n with
  | O => diverge
  | S n' =>
      if p =? 0 then mret freed
      else
        v ← load_proc p;
        freed ← (if negb (parent v =? 0) then _ ← proc_queue_push_head local p; mret freed
                 else _ ← proc_free p; mret true);
        p ← proc_queue_pop_head mp_ready_to_die_queue;
        reap_loop n' local p freed
  end.
Fixpoint give_back_loop (n : nat) (local : Z) : prog W unit :=
  match n with
  | O => diverge
  | S n' =>
      e ← proc_queue_empty local;
      if (e : bool) then mret tt
      else
        p ← proc_queue_pop_head local;
        _ ← proc_queue_push_tail mp_ready_to_die_queue p;
        give_back_loop n' local
  end.
Definition reap (local : Z) : prog W bool :=
  _ ← sched_postpone;
  _ ← proc_queue_init local;
  n ← walk_fuel;
  p ← proc_queue_pop_head mp_ready_to_die_queue;
  freed ← reap_loop n local p false;
  n ← walk_fuel;
  _ ← give_back_loop n local;
  _ ← sched_resume away halted idle_fuel;
  mret freed.

(** ** Fork *)
Fixpoint child_null_loop (n : nat) (i p : Z) : prog W (option Z) :=
  match n with
  | O => mret None
  | S n' => c ← child_at p i; if c =? 0 then mret (Some i) else child_null_loop n' (i + 1) p
  end.
Definition proc_child_find_null (p : Z) : prog W (option Z) :=
  if p =? 0 then mret None
  else
    v ← load_proc p;
    match children v with None => mret None | Some _ => child_null_loop CHILD_SLOTS 1 p end.

Fixpoint share_fds_loop (n : nat) (i src dst : Z) : prog W unit :=
  match n with
  | O => mret tt
  | S n' =>
      f ← ptr_at src i;
      _ ← set_ptr dst i f;
      _ ← service (sv_file_borrow f);
      share_fds_loop n' (i + 1) src dst
  end.

Definition fork_proc (process frame : Z) : prog W Z :=
  if (process =? 0) || (frame =? 0) then mret (- EINVAL)
  else
    o ← owned_of process;
    v ← load_proc process;
    if (o_stack_end o =? 0) || (o_fds o =? 0) || bool_decide (children v = None) then mret (- EINVAL)
    else
      slot ← proc_child_find_null process;
      match slot with
      | None => mret (- EAGAIN)
      | Some slot =>
          if (frame <? o_stack_end o) || (u64 (o_stack_end o + STACK_SIZE) <? u64 (frame + SIZEOF_INTERRUPT_FRAME))
          then mret (- EINVAL)
          else if o_mem o =? 0 then mret (- EINVAL)
          else
            m ← mem_of (o_mem o);
            new_vmm ← make (CopyVmm (m_vmm m));
            if new_vmm =? 0 then mret (- ENOMEM)
            else
              e ← gets ext;
              cr3 ← lift (sv_vmm_cr3 new_vmm (services e));
              new_proc ← proc_new_shared (o_name o) cr3;
              if new_proc =? 0 then _ ← drop_it KVmm new_vmm; mret (- ENOMEM)
              else
                n ← owned_of new_proc;
                _ ← update_mem (o_mem n) (λ _, MkMem new_vmm (brk_start m) (brk m) (stack_start m));
                e ← gets ext;
                _ ← when (has_fpu e) (service (sv_fpu_dup (o_fpu o) (o_fpu n)));
                let child_frame := u64 (u64 (o_stack_end n + STACK_SIZE) - SIZEOF_INTERRUPT_FRAME) in
                _ ← copy_words 24 (o_stack_end n) child_frame frame;
                _ ← store_stack (o_stack_end n) (child_frame + 8 * 2) 0;
                let switch_rsp := u64 (child_frame - 16 * 8) in
                _ ← zero_words 16 (o_stack_end n) switch_rsp;
                _ ← store_stack (o_stack_end n) (switch_rsp + 8 * 15) fork_kstack_addr;
                _ ← share_fds_loop (Z.to_nat MAX_FDS) 0 (o_fds o) (o_fds n);
                _ ← proc_set_cwd new_proc (o_cwd o);
                _ ← update_owned new_proc (λ x, with_o_entry (o_entry o) (with_o_rsp switch_rsp x));
                _ ← update_proc new_proc (λ x,
                      set_status (set_kernel_proc (set_parent x process) (is_kernel_proc v)) PROC_STATUS_READY_TO_RUN);
                _ ← set_child process slot new_proc;
                _ ← mp_enqueue_ready new_proc;
                x ← load_proc new_proc;
                mret (pid x)
      end.
End proc.
