(* ===== verification/ProcThm.v ===== *)
(** * ProcThm: what the life cycle of processes promises

    The laws of the services a process uses, as a ledger: which things exist,
    how often each open file and vnode is referenced.  The lemmas say what the
    operations of [Proc] add to it and take from it, and what they do to the
    processes and the queues of the scheduler. *)
From S2P Require Import Prelude Alloc Cstring Number Elf ProcQueue Sched SchedSpec Semaphore Proc.

(** How often [x] is in [l]. *)
Definition count (x : Z) (l : list Z) : Z := Z.of_nat (length (filter (λ y, y = x) l)).

Lemma count_nonneg x l : 0 ≤ count x l.
Proof. unfold count. lia. Qed.
Lemma count_cons x y l : count x (y :: l) = (if decide (y = x) then 1 else 0) + count x l.
Proof. unfold count. rewrite filter_cons. destruct (decide (y = x)); cbn [length]; lia. Qed.
Lemma count_app x l k : count x (l ++ k) = count x l + count x k.
Proof. unfold count. rewrite filter_app, length_app. lia. Qed.
Lemma count_length x l : count x l ≤ Z.of_nat (length l).
Proof. unfold count. pose proof (length_filter (λ y, y = x) l). lia. Qed.

(** ** The laws of the services *)
Class ServiceLaws (Srv : Type) `{Services Srv} := {
  sv_ok : Srv → Prop;
  (** What was made and not destroyed. *)
  sv_held : Srv → gset (kind * Z);
  (** References to open files and to vnodes. *)
  sv_files : Srv → Z → Z;
  sv_nodes : Srv → Z → Z;
  sv_make_law s m :
    sv_ok s → (∀ v, m = CopyVmm v → ((KVmm, v) ∈ sv_held s)) →
    ∃ p s', sv_make m s = Ret (p, s') ∧ sv_ok s' ∧ sv_files s' = sv_files s ∧ sv_nodes s' = sv_nodes s ∧
      ((p = 0 ∧ sv_held s' = sv_held s) ∨
       (p ≠ 0 ∧ ((made m, p) ∉ sv_held s) ∧ sv_held s' = {[ (made m, p) ]} ∪ sv_held s));
  sv_drop_law s k p :
    sv_ok s → (k, p) ∈ sv_held s →
    ∃ s', sv_drop k p s = Ret (tt, s') ∧ sv_ok s' ∧ sv_files s' = sv_files s ∧ sv_nodes s' = sv_nodes s ∧
      sv_held s' = sv_held s ∖ {[ (k, p) ]};
  (** [fpu_free(NULL)] and [free(NULL)] do nothing. *)
  sv_drop_null s k : k = KFpu ∨ k = KHeap → sv_drop k 0 s = Ret (tt, s);
  sv_cr3_law s v : sv_ok s → (KVmm, v) ∈ sv_held s → ∃ c, sv_vmm_cr3 v s = Ret c;
  sv_fpu_law s p q :
    sv_ok s → (KFpu, p) ∈ sv_held s → (KFpu, q) ∈ sv_held s →
    ∃ s', sv_fpu_dup p q s = Ret (tt, s') ∧ sv_ok s' ∧ sv_files s' = sv_files s ∧ sv_nodes s' = sv_nodes s ∧
      sv_held s' = sv_held s;
  sv_file_law s f : sv_ok s → 0 < sv_files s f → ∃ fl, sv_file f s = Ret (sv_files s f, fl);
  (** [vfs_file_borrow(NULL)] does nothing. *)
  sv_borrow_law s f :
    sv_ok s → f = 0 ∨ 0 < sv_files s f < 2 ^ 32 - 1 →
    ∃ s', sv_file_borrow f s = Ret (tt, s') ∧ sv_ok s' ∧ sv_held s' = sv_held s ∧ sv_nodes s' = sv_nodes s ∧
      ∀ g, g ≠ 0 → sv_files s' g = sv_files s g + (if decide (g = f) then 1 else 0);
  sv_release_law s f :
    sv_ok s → 1 < sv_files s f →
    ∃ s', sv_file_release f s = Ret (tt, s') ∧ sv_ok s' ∧ sv_held s' = sv_held s ∧ sv_nodes s' = sv_nodes s ∧
      ∀ g, sv_files s' g = sv_files s g - (if decide (g = f) then 1 else 0);
  sv_close_law s f :
    sv_ok s → sv_files s f = 1 →
    ∃ s', sv_file_close f s = Ret (tt, s') ∧ sv_ok s' ∧ sv_held s' = sv_held s ∧ sv_nodes s' = sv_nodes s ∧
      ∀ g, sv_files s' g = sv_files s g - (if decide (g = f) then 1 else 0);
  sv_vborrow_law s n :
    sv_ok s → n = 0 ∨ 0 < sv_nodes s n < 2 ^ 32 - 1 →
    ∃ s', sv_vnode_borrow n s = Ret (tt, s') ∧ sv_ok s' ∧ sv_held s' = sv_held s ∧ sv_files s' = sv_files s ∧
      ∀ g, g ≠ 0 → sv_nodes s' g = sv_nodes s g + (if decide (g = n) then 1 else 0);
  sv_vrelease_law s n :
    sv_ok s → n = 0 ∨ 0 < sv_nodes s n →
    ∃ s', sv_vnode_release n s = Ret (tt, s') ∧ sv_ok s' ∧ sv_held s' = sv_held s ∧ sv_files s' = sv_files s ∧
      ∀ g, g ≠ 0 → sv_nodes s' g = sv_nodes s g - (if decide (g = n) then 1 else 0);
}.

(** ** The ledger *)
Section ledger.
Context {Srv : Type} {services_S : Services Srv} {laws_S : ServiceLaws Srv}.
Context {A : Type} {alloc_A : Allocator A} {laws_A : AllocatorLaws (2 ^ 61) A}.
Abbreviation X := (pext Srv A).
Abbreviation W := (kworld_of X).
Implicit Types (w : W) (e : X).

Definition res_ok e : Prop := al_ok (pheap e) ∧ sv_ok (services e).
Definition e_live e : gmap Z Z := al_live (pheap e).
Definition e_held e : gset (kind * Z) := sv_held (services e).
Definition e_files e : Z → Z := sv_files (services e).
Definition e_nodes e : Z → Z := sv_nodes (services e).

(** The blocks of the heap behind [malloc]. *)
Definition heap_addrs (hs : list (kind * Z)) : list Z := snd <$> filter (λ x, x.1 = KHeap) hs.
Lemma heap_addrs_app hs hs' : heap_addrs (hs ++ hs') = heap_addrs hs ++ heap_addrs hs'.
Proof. unfold heap_addrs. by rewrite filter_app, fmap_app. Qed.
Lemma heap_addrs_elem x hs : (KHeap, x) ∈ hs → x ∈ heap_addrs hs.
Proof. intros Hx. apply list_elem_of_fmap. exists (KHeap, x). by rewrite list_elem_of_filter. Qed.
Lemma heap_addrs_heap (l : list Z) : heap_addrs ((λ x, (KHeap, x)) <$> l) = l.
Proof. unfold heap_addrs. induction l as [|x l IH]; [done|]. cbn [fmap list_fmap]. rewrite filter_cons_True by done. cbn. by f_equal. Qed.

(** From [e] to [e'] the blocks [bl] and the things [hs] were destroyed and the
    references [fs] to files and [ns] to vnodes given back, nothing else. *)
Record released e e' (bl : list Z) (hs : list (kind * Z)) (fs ns : list Z) : Prop := {
  re_ok : res_ok e';
  re_live q : e_live e' !! q = if decide (q ∈ bl) then None else e_live e !! q;
  re_held x : x ∈ e_held e' ↔ x ∈ e_held e ∧ x ∉ hs;
  re_files f : f ≠ 0 → e_files e' f = e_files e f - count f fs;
  re_nodes n : n ≠ 0 → e_nodes e' n = e_nodes e n - count n ns;
  re_maps q : q ∉ bl ++ heap_addrs hs →
    ptrs e' !! q = ptrs e !! q ∧ pmems e' !! q = pmems e !! q ∧ names e' !! q = names e !! q;
  re_rest : kwords e' = kwords e ∧ uints e' = uints e ∧ kernel_vmm e' = kernel_vmm e ∧ has_fpu e' = has_fpu e ∧
    total_processes_added e' = total_processes_added e ∧ process_count e' = process_count e;
}.

Lemma released_refl e : res_ok e → released e e [] [] [] [].
Proof.
  intros Hok. split; try done.
  - intros x. split; [|tauto]. intros Hx. split; [done|apply not_elem_of_nil].
  - intros f _. unfold count. cbn. lia.
  - intros f _. unfold count. cbn. lia.
Qed.
Lemma released_trans e e1 e2 bl1 hs1 fs1 ns1 bl2 hs2 fs2 ns2 :
  released e e1 bl1 hs1 fs1 ns1 → released e1 e2 bl2 hs2 fs2 ns2 →
  released e e2 (bl1 ++ bl2) (hs1 ++ hs2) (fs1 ++ fs2) (ns1 ++ ns2).
Proof.
  intros [O1 L1 H1 F1 N1 M1 R1] [O2 L2 H2 F2 N2 M2 R2]. split.
  - done.
  - intros q. rewrite L2, L1. repeat case_decide; set_solver.
  - intros x. rewrite H2, H1, elem_of_app. tauto.
  - intros f Hf. rewrite F2, F1, count_app by done. lia.
  - intros f Hf. rewrite N2, N1, count_app by done. lia.
  - intros q Hq. rewrite heap_addrs_app in Hq. destruct (M2 q) as (-> & -> & ->); [set_solver|].
    apply (M1 q). set_solver.
  - destruct R1 as (? & ? & ? & ? & ? & ?), R2 as (? & ? & ? & ? & ? & ?). split_and!; congruence.
Qed.

(** The step [m] does that and no more. *)
Definition gives_back (m : prog W unit) w bl hs fs ns : Prop :=
  wp m (λ _ w', ∃ e', w' = set_ext e' w ∧ released (ext w) e' bl hs fs ns ∧ own e' = own (ext w)) w.

Lemma set_ext_id w : set_ext (ext w) w = w.
Proof. by destruct w. Qed.
Lemma gives_back_ret w : res_ok (ext w) → gives_back (mret tt) w [] [] [] [].
Proof. intros Hok. exists (ext w). rewrite set_ext_id. split; [done|]. split; [by apply released_refl|done]. Qed.
Lemma gives_back_bind m k w bl hs fs ns (Q : unit → W → Prop) :
  gives_back m w bl hs fs ns →
  (∀ e', released (ext w) e' bl hs fs ns → own e' = own (ext w) → wp k Q (set_ext e' w)) →
  wp (_ ← m; k) Q w.
Proof. intros Hm Hk. apply wp_bind. eapply wp_mono; [exact Hm|]. intros [] w' (e' & -> & Hr & Ho). by apply Hk. Qed.
Lemma gives_back_then m k w bl1 hs1 fs1 ns1 bl2 hs2 fs2 ns2 :
  gives_back m w bl1 hs1 fs1 ns1 →
  (∀ e', released (ext w) e' bl1 hs1 fs1 ns1 → own e' = own (ext w) → gives_back k (set_ext e' w) bl2 hs2 fs2 ns2) →
  gives_back (_ ← m; k) w (bl1 ++ bl2) (hs1 ++ hs2) (fs1 ++ fs2) (ns1 ++ ns2).
Proof.
  intros Hm Hk. eapply gives_back_bind; [exact Hm|]. intros e1 H1 O1. eapply wp_mono; [by apply Hk|].
  intros [] w' (e2 & -> & H2 & O2). exists e2. split; [done|]. split; [by eapply released_trans|]. cbn in O2. congruence.
Qed.

(** Blocks of the slab allocator. *)
Lemma slab_free_gives q w :
  res_ok (ext w) → is_Some (e_live (ext w) !! q) → gives_back (slab_free q) w [q] [] [] [].
Proof.
  intros [Ha Hs] [k Hk]. destruct (al_free_law _ _ _ Ha Hk) as (a' & Hr & Ha' & Hl).
  unfold gives_back, slab_free, on_ext, wp. rewrite Hr. cbn. eexists. split; [done|]. split; [|done]. split; try done.
  - intros x. unfold e_live. cbn [pheap set_pheap]. rewrite Hl. destruct (decide (x ∈ [q])) as [->%list_elem_of_singleton|Hx].
    + apply lookup_delete_eq.
    + apply lookup_delete_ne. set_solver.
  - intros x. split; [|tauto]. intros Hx. split; [done|apply not_elem_of_nil].
  - intros f _. unfold e_files, count. cbn. lia.
  - intros f _. unfold e_nodes, count. cbn. lia.
Qed.
(** Freed contents go away with their block. *)
Lemma forget_gives (f : X → X) w bl hs fs ns m :
  gives_back m w bl hs fs ns →
  (∀ e e', released e e' bl hs fs ns → released e (f e') bl hs fs ns) → (∀ e, own (f e) = own e) →
  gives_back (_ ← m; upd_ext f) w bl hs fs ns.
Proof.
  intros Hm Hf Ho. eapply gives_back_bind; [exact Hm|]. intros e' He Hown. apply wp_modify. exists (f e'). split; [done|].
  split; [by apply Hf|]. by rewrite Ho.
Qed.
Ltac forget q :=
  let Hr := fresh in intros ? ? Hr; split; try apply Hr;
  let x := fresh in let Hx := fresh in intros x Hx; pose proof (re_maps _ _ _ _ _ _ Hr x Hx) as (? & ? & ?);
  cbn [ptrs pmems names set_ptrs set_pmems set_names]; split_and!; try done;
  rewrite lookup_delete_ne; [done|intros <-; apply Hx; set_solver].
Lemma free_name_gives q w :
  res_ok (ext w) → is_Some (e_live (ext w) !! q) → gives_back (free_name q) w [q] [] [] [].
Proof. intros Hok Hq. apply forget_gives; [by apply slab_free_gives| |done]. forget q. Qed.
Lemma free_ptrs_gives q w :
  res_ok (ext w) → is_Some (e_live (ext w) !! q) → gives_back (free_ptrs q) w [q] [] [] [].
Proof. intros Hok Hq. apply forget_gives; [by apply slab_free_gives| |done]. forget q. Qed.

(** Things of the services. *)
Lemma drop_gives k q w :
  res_ok (ext w) → (k, q) ∈ e_held (ext w) → gives_back (drop_it k q) w [] [(k, q)] [] [].
Proof.
  intros [Ha Hs] Hq. destruct (sv_drop_law _ _ _ Hs Hq) as (s' & Hr & Hs' & Hf & Hn & Hh).
  unfold gives_back, drop_it, service, on_ext, wp. rewrite Hr. cbn. eexists. split; [done|]. split; [|done]. split; try done.
  - intros x. unfold e_held. cbn [services set_services]. rewrite Hh. set_solver.
  - intros f _. unfold e_files, count. cbn. rewrite Hf. lia.
  - intros f _. unfold e_nodes, count. cbn. rewrite Hn. lia.
Qed.
Lemma drop_null_gives k w :
  res_ok (ext w) → k = KFpu ∨ k = KHeap → gives_back (drop_it k 0) w [] [] [] [].
Proof.
  intros Hok Hk. unfold gives_back, drop_it, service, on_ext, wp. rewrite sv_drop_null by done. cbn.
  eexists. split; [done|]. split; [|done]. apply released_refl in Hok. by destruct (ext w).
Qed.

(** Strings of arguments: the array and what its entries point to. *)
Definition owned_strings e (a : Z) (hs : list (kind * Z)) : Prop :=
  (a = 0 ∧ hs = []) ∨
  (a ≠ 0 ∧ ∃ strs, ptrs e !! a = Some (strs ++ [0]) ∧ (∀ x, x ∈ strs → x ≠ 0) ∧
     hs = ((λ x, (KHeap, x)) <$> strs) ++ [(KHeap, a)]).

Lemma ptr_at_run w a i l x (Q : Z → W → Prop) :
  ptrs (ext w) !! a = Some l → l !! Z.to_nat i = Some x → Q x w → wp (ptr_at a i) Q w.
Proof.
  intros Ha Hi HQ. apply wp_bind, wp_gets, wp_bind. rewrite Ha. eapply wp_lift; [done|].
  rewrite Hi. by eapply wp_lift.
Qed.

Lemma strings_loop_gives a pre ss w :
  res_ok (ext w) → ptrs (ext w) !! a = Some (pre ++ ss ++ [0]) → (∀ x, x ∈ ss → x ≠ 0) →
  (∀ x, x ∈ ss → (KHeap, x) ∈ e_held (ext w)) → NoDup (ss ++ [a]) →
  gives_back (strings_loop (length (ss ++ [0])) a (Z.of_nat (length pre))) w [] ((λ x, (KHeap, x)) <$> ss) [] [].
Proof.
  revert pre w. induction ss as [|s ss IH]; intros pre w Hok Ha Hnz Hh Hnd; cbn [app length strings_loop].
  - apply wp_bind. eapply ptr_at_run; [done|by rewrite Nat2Z.id, lookup_app_r, Nat.sub_diag by lia|].
    by apply gives_back_ret.
  - apply wp_bind. eapply ptr_at_run; [done|by rewrite Nat2Z.id, lookup_app_r, Nat.sub_diag by lia|].
    rewrite (proj2 (Z.eqb_neq s 0)) by (apply Hnz; set_solver).
    apply (gives_back_then _ _ _ [] [(KHeap, s)] [] [] [] _ [] []); [apply drop_gives; [done|apply Hh; set_solver]|].
    intros e' He Hown. replace (Z.of_nat (length pre) + 1) with (Z.of_nat (length (pre ++ [s]))) by (rewrite length_app; cbn; lia).
    apply NoDup_cons in Hnd as [Hs Hnd]. apply IH; cbn [ext set_ext].
    + apply He.
    + rewrite <- app_assoc. destruct (re_maps _ _ _ _ _ _ He a) as (-> & _); [set_solver|done].
    + set_solver.
    + intros x Hx. apply (re_held _ _ _ _ _ _ He). split; [apply Hh; set_solver|]. set_solver.
    + done.
Qed.

Lemma strings_free_gives a hs w :
  res_ok (ext w) → owned_strings (ext w) a hs → (∀ x, x ∈ hs → x ∈ e_held (ext w)) → NoDup hs →
  gives_back (proc_strings_free a) w [] hs [] [].
Proof.
  intros Hok [[-> ->]|(Ha & strs & Hp & Hnz & ->)] Hh Hnd; unfold proc_strings_free; [by apply gives_back_ret|].
  rewrite (proj2 (Z.eqb_neq a 0)) by done. apply wp_bind, wp_gets, wp_bind. rewrite Hp. eapply wp_lift; [done|].
  assert (NoDup (strs ++ [a])) as Hnd'.
  { apply (NoDup_fmap_1 (λ x, (KHeap, x))). by rewrite fmap_app. }
  apply (gives_back_then _ _ _ [] _ [] [] [] [(KHeap, a)] [] []).
  - apply (strings_loop_gives a [] strs); try done. intros x Hx. apply Hh. set_solver.
  - intros e' He Hown. apply forget_gives; [|forget a|done]. apply drop_gives; [apply He|].
    apply (re_held _ _ _ _ _ _ He). split; [apply Hh; set_solver|].
    apply NoDup_app in Hnd' as (_ & Hd & _). intros (x & [= <-] & Hx)%list_elem_of_fmap. by apply (Hd a Hx); set_solver.
Qed.

(** ** Descriptors, working directory, memory *)
Lemma fd_release_run f w :
  sv_ok (services (ext w)) → 0 < e_files (ext w) f → f ≠ 0 →
  wp (process_fd_release f) (λ _ w', ∃ s', w' = set_ext (set_services s' (ext w)) w ∧ sv_ok s' ∧
    sv_held s' = e_held (ext w) ∧ sv_nodes s' = e_nodes (ext w) ∧
    ∀ g, sv_files s' g = e_files (ext w) g - (if decide (g = f) then 1 else 0)) w.
Proof.
  intros Hs Hf H0. unfold process_fd_release. rewrite (proj2 (Z.eqb_neq f 0)) by done.
  apply wp_bind, wp_gets, wp_bind. destruct (sv_file_law _ _ Hs Hf) as [fl Hfl]. eapply wp_lift; [exact Hfl|]. cbv beta iota.
  unfold e_files in Hf. destruct (Z.ltb_spec 1 (sv_files (services (ext w)) f)) as [H1|H1].
  - destruct (sv_release_law _ _ Hs H1) as (s' & Hr & Hs' & Hh & Hn & Hg). unfold service, on_ext, wp. rewrite Hr. cbn. by exists s'.
  - destruct (sv_close_law (services (ext w)) f Hs) as (s' & Hr & Hs' & Hh & Hn & Hg); [lia|].
    unfold service, on_ext, wp. rewrite Hr. cbn. by exists s'.
Qed.

Lemma set_ptr_run w a i l x v (Q : unit → W → Prop) :
  ptrs (ext w) !! a = Some l → l !! Z.to_nat i = Some x →
  Q tt (set_ext (set_ptrs (<[a := <[Z.to_nat i := v]> l]> (ptrs (ext w))) (ext w)) w) → wp (set_ptr a i v) Q w.
Proof.
  intros Ha Hi HQ. apply wp_bind, wp_gets, wp_bind. rewrite Ha. eapply wp_lift; [done|].
  apply wp_bind. rewrite Hi. eapply wp_lift; [done|]. by apply wp_modify.
Qed.

Lemma close_fds_run n i a l w :
  sv_ok (services (ext w)) → ptrs (ext w) !! a = Some l → (i + n = length l)%nat →
  (∀ f, f ≠ 0 → count f (drop i l) ≤ e_files (ext w) f) →
  wp (close_fds_loop n (Z.of_nat i) a) (λ _ w', ∃ s' l',
    w' = set_ext (set_services s' (set_ptrs (<[a := l']> (ptrs (ext w))) (ext w))) w ∧ sv_ok s' ∧
    sv_held s' = e_held (ext w) ∧ sv_nodes s' = e_nodes (ext w) ∧
    ∀ g, g ≠ 0 → sv_files s' g = e_files (ext w) g - count g (drop i l)) w.
Proof.
  revert i l w. induction n as [|n IH]; intros i l w Hs Ha Hn Hc; cbn [close_fds_loop].
  - apply wp_ret. exists (services (ext w)), l. rewrite insert_id by done. split; [by destruct w as [? ? ? ? ? ? ? ? []]|].
    split_and!; try done. intros g _. rewrite drop_ge by lia. unfold count, e_files. cbn. lia.
  - destruct (lookup_lt_is_Some_2 l i) as [f Hf]; [lia|]. pose proof (drop_S l f i Hf) as Hd.
    apply wp_bind. eapply ptr_at_run; [done|by rewrite Nat2Z.id|].
    replace (Z.of_nat i + 1) with (Z.of_nat (S i)) by lia. apply wp_bind.
    destruct (Z.eqb_spec f 0) as [->|H0]; cbn [negb when].
    + apply wp_ret. eapply wp_mono; [apply (IH (S i) l); try done; [lia|]|].
      * intros g Hg. specialize (Hc g Hg). rewrite Hd, count_cons in Hc. rewrite decide_False in Hc by congruence. lia.
      * intros [] w' (s' & l' & -> & H1 & H2 & H3 & H4). exists s', l'. split_and!; try done.
        intros g Hg. rewrite H4, Hd, count_cons by done. rewrite decide_False by congruence. lia.
    + apply wp_bind. eapply set_ptr_run; [done|by rewrite Nat2Z.id|]. rewrite Nat2Z.id.
      set (l1 := <[i := 0]> l). set (w1 := set_ext _ w).
      pose proof (Hc f H0) as Hcf. rewrite Hd, count_cons, decide_True in Hcf by done. pose proof (count_nonneg f (drop (S i) l)).
      eapply wp_mono; [apply (fd_release_run f w1); [done|unfold w1, e_files in *; cbn in *; lia|done]|].
      intros [] w2 (s2 & -> & H1 & H2 & H3 & H4). cbn [w1 ext set_ext] in *.
      assert (drop (S i) l1 = drop (S i) l) as Hdr by (unfold l1; by rewrite drop_insert_lt by lia).
      eapply wp_mono; [apply (IH (S i) l1)|].
      * done.
      * cbn. apply lookup_insert_eq.
      * unfold l1. rewrite length_insert. lia.
      * intros g Hg. specialize (Hc g Hg). rewrite Hd, count_cons in Hc. rewrite Hdr. unfold e_files in *. cbn in *. rewrite H4.
        destruct (decide (g = f)) as [->|]; [rewrite decide_True in Hc by done|rewrite decide_False in Hc by congruence]; lia.
      * intros [] w' (s' & l' & -> & G1 & G2 & G3 & G4). exists s', l'. split; [by cbn; rewrite insert_insert_eq|].
        split; [done|]. split; [by rewrite G2|]. split; [by rewrite G3|]. intros g Hg. rewrite G4, Hdr, Hd, count_cons by done.
        unfold e_files. cbn. rewrite H4. unfold e_files. cbn.
        destruct (decide (g = f)) as [->|]; [rewrite decide_True by done|rewrite decide_False by congruence]; lia.
Qed.

Lemma close_fds_gives a l w :
  res_ok (ext w) → ptrs (ext w) !! a = Some l → length l = 256%nat → is_Some (e_live (ext w) !! a) →
  (∀ f, f ≠ 0 → count f l ≤ e_files (ext w) f) →
  gives_back (_ ← close_fds_loop (Z.to_nat MAX_FDS) 0 a; free_ptrs a) w [a] [] l [].
Proof.
  intros [Hh Hs] Ha Hl Hlive Hc. apply wp_bind.
  eapply wp_mono; [apply (close_fds_run (Z.to_nat MAX_FDS) 0 a l); try done; by rewrite Hl|].
  intros [] w' (s' & l' & -> & H1 & H2 & H3 & H4). set (w1 := set_ext _ w).
  eapply wp_mono; [apply (free_ptrs_gives a w1); [by split|done]|].
  intros [] w2 (e' & -> & He & Ho). exists e'. split; [done|]. split; [|by rewrite Ho].
  destruct He as [G1 G2 G3 G4 G5 G6 G7]. split; try done.
  - intros x. rewrite G3. unfold e_held, w1. cbn. by rewrite H2.
  - intros f Hf. rewrite G4 by done. change (e_files (ext w1) f) with (sv_files s' f).
    rewrite H4, drop_0 by done. change (count f []) with 0. lia.
  - intros f Hf. rewrite G5 by done. unfold e_nodes, w1. cbn. by rewrite H3.
  - intros q Hq. destruct (G6 q Hq) as (-> & -> & ->). cbn. split_and!; try done. apply lookup_insert_ne. set_solver.
Qed.

Definition vmm_things (k : Z) (m : process_mem) : list (kind * Z) :=
  if (m_vmm m =? 0) || (m_vmm m =? k) then [] else [(KVmm, m_vmm m)].
Lemma mem_free_gives q m w :
  res_ok (ext w) → q ≠ 0 → pmems (ext w) !! q = Some m → is_Some (e_live (ext w) !! q) →
  (∀ x, x ∈ vmm_things (kernel_vmm (ext w)) m → x ∈ e_held (ext w)) →
  gives_back (process_mem_free q) w [q] (vmm_things (kernel_vmm (ext w)) m) [] [].
Proof.
  intros Hok H0 Hm Hl Hh. unfold process_mem_free. rewrite (proj2 (Z.eqb_neq q 0)) by done.
  apply wp_bind. apply wp_bind, wp_gets. rewrite Hm. eapply wp_lift; [done|]. apply wp_bind, wp_gets.
  unfold vmm_things in *. rewrite <- negb_orb. destruct (_ || _) eqn:E; cbn [negb when].
  - apply (gives_back_then _ _ _ [] [] [] [] [q] [] [] []); [by apply gives_back_ret|]. intros e' He Hown.
    apply forget_gives; [|forget q|done]. apply slab_free_gives; [apply He|]. cbn. by rewrite (re_live _ _ _ _ _ _ He).
  - apply (gives_back_then _ _ _ [] [(KVmm, m_vmm m)] [] [] [q] [] [] []); [apply drop_gives; [done|apply Hh; set_solver]|].
    intros e' He Hown. apply forget_gives; [|forget q|done]. apply slab_free_gives; [apply He|]. cbn. by rewrite (re_live _ _ _ _ _ _ He).
Qed.

Lemma set_cwd_none_run p o w :
  res_ok (ext w) → p ≠ 0 → own (ext w) !! p = Some o → o_cwd o = 0 ∨ 0 < e_nodes (ext w) (o_cwd o) →
  wp (proc_set_cwd p 0) (λ _ w', ∃ e', w' = set_ext e' w ∧ released (ext w) e' [] [] [] [o_cwd o] ∧
    own e' = <[p := with_o_cwd 0 o]> (own (ext w))) w.
Proof.
  intros [Hh Hs] H0 Ho Hc. unfold proc_set_cwd. rewrite (proj2 (Z.eqb_neq p 0)) by done.
  destruct (sv_vborrow_law _ 0 Hs (or_introl eq_refl)) as (s1 & R1 & O1 & H1 & F1 & N1).
  assert (sv_nodes s1 (o_cwd o) = e_nodes (ext w) (o_cwd o) ∨ o_cwd o = 0) as Hn1.
  { destruct (decide (o_cwd o = 0)) as [|Hne]; [by right|left]. rewrite N1 by done. rewrite decide_False by done. unfold e_nodes. lia. }
  destruct (sv_vrelease_law s1 (o_cwd o) O1) as (s2 & R2 & O2 & H2 & F2 & N2); [destruct Hc, Hn1; (by left) || lia|].
  apply wp_bind. unfold service, on_ext, wp at 1. rewrite R1. cbn -[o_cwd].
  apply wp_bind, wp_bind, wp_gets. cbn [ext set_ext set_services own]. rewrite Ho. eapply wp_lift; [done|].
  apply wp_bind. unfold service, on_ext, wp at 1. cbn [ext set_ext set_services services]. rewrite R2. cbn -[o_cwd].
  apply wp_bind, wp_bind, wp_gets. cbn [ext set_ext set_services own]. rewrite Ho. eapply wp_lift; [done|].
  apply wp_modify. eexists. split; [reflexivity|]. split; [|done]. split; try done.
  - intros x. unfold e_held. cbn. rewrite H2, H1. split; [|tauto]. intros Hx. split; [done|apply not_elem_of_nil].
  - intros f _. unfold e_files, count. cbn. rewrite F2, F1. lia.
  - intros n Hn. unfold e_nodes. cbn. rewrite N2, N1 by done. rewrite count_cons, (decide_False (P := n = 0)) by done.
    unfold count. cbn. destruct (decide (n = o_cwd o)), (decide (o_cwd o = n)); congruence || lia.
Qed.

(** ** Children *)

(** Processes that lose their parent. *)
Definition orphan_one (m : gmap Z proc) (c : Z) : gmap Z proc :=
  if c =? 0 then m else alter (λ v, set_parent v 0) c m.
Definition orphan (ks : list Z) (m : gmap Z proc) : gmap Z proc := foldl orphan_one m ks.

Lemma orphan_lookup ks m q :
  orphan ks m !! q = (λ v, if decide (q ∈ ks ∧ q ≠ 0) then set_parent v 0 else v) <$> m !! q.
Proof.
  revert m. induction ks as [|c ks IH]; intros m; unfold orphan; cbn [foldl].
  - destruct (m !! q); cbn; [|done]. by rewrite decide_False by set_solver.
  - fold (orphan ks (orphan_one m c)). rewrite IH. unfold orphan_one. destruct (Z.eqb_spec c 0) as [->|Hc].
    + destruct (m !! q); cbn; [|done]. f_equal. repeat case_decide; set_solver.
    + destruct (decide (q = c)) as [->|Hne].
      * rewrite lookup_alter_eq. destruct (m !! c) as [v|]; cbn; [|done]. rewrite (decide_True (P := c ∈ c :: ks ∧ _)) by set_solver.
        by case_decide; destruct v.
      * rewrite lookup_alter_ne by done. destruct (m !! q); cbn; [|done]. f_equal. repeat case_decide; set_solver.
Qed.
Lemma orphan_links (w : W) ks : links (set_procs w (orphan ks (procs w))) = links w.
Proof.
  unfold links. cbn [set_procs procs]. apply map_eq. intros q. rewrite !lookup_fmap, orphan_lookup.
  destruct (procs w !! q); cbn; [|done]. by case_decide.
Qed.

Lemma child_at_run w p v l i c (Q : Z → W → Prop) :
  procs w !! p = Some v → children v = Some l → l !! Z.to_nat i = Some c → Q c w → wp (child_at p i) Q w.
Proof.
  intros Hp Hl Hi HQ. apply wp_bind. eapply wp_load_proc; [done|]. apply wp_bind. rewrite Hl. eapply wp_lift; [done|].
  rewrite Hi. by eapply wp_lift.
Qed.

Lemma orphan_loop_run n i p w v l :
  procs w !! p = Some v → children v = Some l → (i + n = length l)%nat →
  (∀ c, c ∈ drop i l → c ≠ 0 → is_Some (procs w !! c)) →
  wp (orphan_loop n (Z.of_nat i) p) (λ _ w', w' = set_procs w (orphan (drop i l) (procs w))) w.
Proof.
  revert i w v. induction n as [|n IH]; intros i w v Hp Hl Hn Hc; cbn [orphan_loop].
  - apply wp_ret. rewrite drop_ge by lia. by destruct w.
  - destruct (lookup_lt_is_Some_2 l i) as [c Hci]; [lia|]. pose proof (drop_S l c i Hci) as Hd.
    apply wp_bind. eapply child_at_run; [done|done|by rewrite Nat2Z.id|].
    replace (Z.of_nat i + 1) with (Z.of_nat (S i)) by lia. rewrite Hd in *. unfold orphan. cbn [foldl].
    unfold orphan_one at 2. apply wp_bind. destruct (Z.eqb_spec c 0) as [->|H0]; cbn [negb when].
    + apply wp_ret. apply (IH (S i) w v); try done; [lia|]. set_solver.
    + destruct (Hc c) as [u Hu]; [set_solver|done|]. eapply wp_update_proc; [exact Hu|].
      set (w1 := set_procs w (<[c := set_parent u 0]> (procs w))).
      assert (procs w1 = alter (λ v, set_parent v 0) c (procs w)) as E.
      { unfold w1. cbn [set_procs procs]. apply map_eq. intros q. destruct (decide (q = c)) as [->|].
        - by rewrite lookup_insert_eq, lookup_alter_eq, Hu.
        - by rewrite lookup_insert_ne, lookup_alter_ne by done. }
      rewrite <- E. change (foldl orphan_one (procs w1) (drop (S i) l)) with (orphan (drop (S i) l) (procs w1)).
      replace (set_procs w (orphan (drop (S i) l) (procs w1))) with (set_procs w1 (orphan (drop (S i) l) (procs w1))) by done.
      destruct (decide (p = c)) as [->|Hpc].
      * apply (IH (S i) w1 (set_parent u 0)); [by unfold w1; cbn [set_procs procs]; rewrite lookup_insert_eq| |lia|].
        -- cbn. congruence.
        -- intros x Hx Hx0. rewrite E, lookup_alter_is_Some. apply Hc; [set_solver|done].
      * apply (IH (S i) w1 v); [by unfold w1; cbn [set_procs procs]; rewrite lookup_insert_ne|done|lia|].
        intros x Hx Hx0. rewrite E, lookup_alter_is_Some. apply Hc; [set_solver|done].
Qed.

(** ** Releasing a process *)
Definition fpu_things (o : owned) : list (kind * Z) := if o_fpu o =? 0 then [] else [(KFpu, o_fpu o)].
(** Everything a process owns: blocks, and things of other components. *)
Definition proc_blocks (p : Z) (o : owned) : list Z :=
  [o_children o; o_fds o; o_name o; o_mem o; o_stack_end o; p].
Definition proc_things (k : Z) (o : owned) (m : process_mem) (avs evs : list (kind * Z)) : list (kind * Z) :=
  (KLogger, o_logger o) :: avs ++ evs ++ fpu_things o ++ vmm_things k m.

Record owns e (p : Z) (o : owned) (m : process_mem) (fds : list Z) (avs evs : list (kind * Z)) : Prop := {
  ow_own : own e !! p = Some o;
  ow_mem : pmems e !! o_mem o = Some m;
  ow_fds : ptrs e !! o_fds o = Some fds;
  ow_len : length fds = 256%nat;
  ow_argv : owned_strings e (o_argv o) avs;
  ow_envp : owned_strings e (o_envp o) evs;
  ow_null : o_mem o ≠ 0 ∧ o_fds o ≠ 0 ∧ p ≠ 0;
  ow_blocks q : q ∈ proc_blocks p o → is_Some (e_live e !! q);
  ow_things x : x ∈ proc_things (kernel_vmm e) o m avs evs → x ∈ e_held e;
  ow_apart : NoDup (proc_blocks p o ++ heap_addrs (avs ++ evs)) ∧ NoDup (proc_things (kernel_vmm e) o m avs evs);
  ow_files f : f ≠ 0 → count f fds ≤ e_files e f;
  ow_cwd : o_cwd o = 0 ∨ 0 < e_nodes e (o_cwd o);
}.

(** What is still to be released is as it was. *)
Lemma owned_strings_kept e e' bl hs fs ns a ss :
  released e e' bl hs fs ns → owned_strings e a ss → (∀ x, x ∈ heap_addrs ss → x ∉ bl ++ heap_addrs hs) → owned_strings e' a ss.
Proof.
  intros Hr [[-> ->]|(Ha & strs & Hp & Hnz & ->)] Hd; [by left|right]. split; [done|]. exists strs.
  destruct (re_maps _ _ _ _ _ _ Hr a) as (-> & _); [|done]. apply Hd. apply heap_addrs_elem. set_solver.
Qed.
Lemma held_kept e e' bl hs fs ns x :
  released e e' bl hs fs ns → x ∈ e_held e → x ∉ hs → x ∈ e_held e'.
Proof. intros Hr Hx Hd. by apply (re_held _ _ _ _ _ _ Hr). Qed.
Lemma live_kept e e' bl hs fs ns q :
  released e e' bl hs fs ns → is_Some (e_live e !! q) → q ∉ bl → is_Some (e_live e' !! q).
Proof. intros Hr Hq Hd. by rewrite (re_live _ _ _ _ _ _ Hr), decide_False. Qed.

(** The worlds after the release: without the process, its children orphaned. *)
Definition freed_world (p : Z) (ks : list Z) e' w : W :=
  set_ext e' (set_queues (set_procs w (delete p (orphan ks (procs w))))
    (delete (child_waiters p) (delete (exit_waiters p) (queues w)))).

Lemma heap_fpu o : heap_addrs (fpu_things o) = [].
Proof. unfold fpu_things. by destruct (o_fpu o =? 0). Qed.
Lemma fpu_free_gives o w :
  res_ok (ext w) → (∀ x, x ∈ fpu_things o → x ∈ e_held (ext w)) → gives_back (drop_it KFpu (o_fpu o)) w [] (fpu_things o) [] [].
Proof.
  intros Hok Hh. unfold fpu_things in *. destruct (Z.eqb_spec (o_fpu o) 0) as [->|].
  - apply drop_null_gives; [done|by left].
  - apply drop_gives; [done|]. apply Hh. set_solver.
Qed.

(** Things at different addresses, taken in order. *)
Lemma apart_block (B : list Z) (H : list (kind * Z)) b1 q b2 h1 h2 :
  NoDup (B ++ heap_addrs H) → B = b1 ++ q :: b2 → H = h1 ++ h2 → (q ∉ b1) ∧ q ∉ b1 ++ heap_addrs h1.
Proof.
  intros Hnd -> ->. apply NoDup_app in Hnd as (Hb & Hd & _). apply NoDup_app in Hb as (_ & Hb & _).
  assert (q ∉ b1) as Hq by (intros Hq; apply (Hb q Hq); by left). split; [done|]. intros [|Hx]%elem_of_app; [done|].
  apply (Hd q); [apply elem_of_app; right; by left|]. rewrite heap_addrs_app. by apply elem_of_app; left.
Qed.
Lemma apart_strings (B : list Z) (H : list (kind * Z)) b1 b2 h1 hx h2 :
  NoDup (B ++ heap_addrs H) → B = b1 ++ b2 → H = h1 ++ hx ++ h2 → ∀ x, x ∈ heap_addrs hx → x ∉ b1 ++ heap_addrs h1.
Proof.
  intros Hnd -> -> x Hx. apply NoDup_app in Hnd as (_ & Hd & Hh). rewrite !heap_addrs_app in Hh, Hd.
  apply NoDup_app in Hh as (_ & H1 & _). intros [Hb|Hb]%elem_of_app.
  - apply (Hd x); [by apply elem_of_app; left|]. rewrite !elem_of_app. tauto.
  - apply (H1 x Hb). by apply elem_of_app; left.
Qed.
Lemma apart_things (H : list (kind * Z)) h1 hx h2 :
  NoDup H → H = h1 ++ hx ++ h2 → NoDup hx ∧ ∀ x, x ∈ hx → x ∉ h1.
Proof.
  intros Hnd ->. apply NoDup_app in Hnd as (_ & H1 & Hh). apply NoDup_app in Hh as (Hh & _ & _). split; [done|].
  intros x Hx Hx1. apply (H1 x Hx1). by apply elem_of_app; left.
Qed.
Lemma held_all e e' bl hs fs ns (hx : list (kind * Z)) :
  released e e' bl hs fs ns → (∀ x, x ∈ hx → x ∈ e_held e) → (∀ x, x ∈ hx → x ∉ hs) → ∀ x, x ∈ hx → x ∈ e_held e'.
Proof. intros Hr Hh Hd x Hx. eapply held_kept; [exact Hr|by apply Hh|by apply Hd]. Qed.

(** Everything after the children. *)
Definition release_rest (p : Z) (o : owned) : prog W unit :=
  _ ← drop_it KLogger (o_logger o);
  _ ← when (negb (o_fds o =? 0))
        (_ ← close_fds_loop (Z.to_nat MAX_FDS) 0 (o_fds o); free_ptrs (o_fds o));
  _ ← free_name (o_name o);
  _ ← proc_strings_free (o_argv o);
  proc_strings_free (o_envp o).

Definition release_end (p : Z) (o : owned) : prog W unit :=
  _ ← proc_set_cwd p 0;
  _ ← drop_it KFpu (o_fpu o);
  _ ← process_mem_free (o_mem o);
  _ ← slab_free (o_stack_end o);
  _ ← slab_free p;
  _ ← upd_ext (λ e, set_own (delete p (own e)) e);
  _ ← modify (λ w, set_queues w (delete (child_waiters p) (delete (exit_waiters p) (queues w))));
  modify (λ w, set_procs w (delete p (procs w))).

Lemma release_rest_gives w e p o m fds avs evs :
  owns e p o m fds avs evs → released e (ext w) [o_children o] [] [] [] →
  gives_back (release_rest p o) w [o_fds o; o_name o] ((KLogger, o_logger o) :: avs ++ evs) fds [].
Proof.
  intros [W1 W2 W3 W4 W5 W6 (N1 & N2 & N3) W7 W8 [W9 W9'] W10 W11] A1. unfold release_rest.
  set (B := proc_blocks p o) in *. set (H := proc_things _ o m avs evs) in *.
  destruct (apart_block B (avs ++ evs) [o_children o] (o_fds o) [o_name o; o_mem o; o_stack_end o; p] [] (avs ++ evs) W9
    eq_refl eq_refl) as [B2 B2'].
  destruct (apart_block B (avs ++ evs) [o_children o; o_fds o] (o_name o) [o_mem o; o_stack_end o; p] [] (avs ++ evs) W9
    eq_refl eq_refl) as [B3 B3'].
  pose proof (apart_strings B (avs ++ evs) [o_children o; o_fds o; o_name o] [o_mem o; o_stack_end o; p] [] avs evs W9
    eq_refl eq_refl) as T4'.
  pose proof (apart_strings B (avs ++ evs) [o_children o; o_fds o; o_name o] [o_mem o; o_stack_end o; p] avs evs [] W9
    eq_refl ltac:(by rewrite app_nil_r)) as T5'.
  destruct (apart_things H [(KLogger, o_logger o)] avs (evs ++ fpu_things o ++ vmm_things (kernel_vmm e) m) W9' eq_refl) as [D4 T4].
  destruct (apart_things H ((KLogger, o_logger o) :: avs) evs (fpu_things o ++ vmm_things (kernel_vmm e) m) W9') as [D5 T5];
    [by unfold H, proc_things|].
  apply (gives_back_then _ _ _ [] [(KLogger, o_logger o)] [] [] [o_fds o; o_name o] (avs ++ evs) fds []).
  { apply drop_gives; [apply A1|]. eapply held_kept; [exact A1|apply W8; by left|]. apply not_elem_of_nil. }
  intros e2 R2 O2. pose proof (released_trans _ _ _ _ _ _ _ _ _ _ _ A1 R2) as A2. cbn [app] in A2.
  rewrite (proj2 (Z.eqb_neq (o_fds o) 0)) by done. cbn [negb when].
  replace fds with (fds ++ []) at 1 by apply app_nil_r.
  apply (gives_back_then _ _ _ [o_fds o] [] fds [] [o_name o] (avs ++ evs) [] []).
  { apply close_fds_gives; [apply A2| |done| |].
    - cbn [ext set_ext]. by destruct (re_maps _ _ _ _ _ _ A2 (o_fds o) B2') as (-> & _).
    - eapply live_kept; [exact A2|apply W7; right; by left|exact B2].
    - intros f Hf. cbn [ext set_ext]. rewrite (re_files _ _ _ _ _ _ A2) by done. change (count f []) with 0.
      specialize (W10 f Hf). lia. }
  intros e3 R3 O3. pose proof (released_trans _ _ _ _ _ _ _ _ _ _ _ A2 R3) as A3. cbn [app] in A3.
  apply (gives_back_then _ _ _ [o_name o] [] [] [] [] (avs ++ evs) [] []).
  { apply free_name_gives; [apply A3|]. eapply live_kept; [exact A3|apply W7; do 2 right; by left|exact B3]. }
  intros e4 R4 O4. pose proof (released_trans _ _ _ _ _ _ _ _ _ _ _ A3 R4) as A4. cbn [app] in A4.
  apply (gives_back_then _ _ _ [] avs [] [] [] evs [] []).
  { apply strings_free_gives; [apply A4| | |done].
    - eapply owned_strings_kept; [exact A4|exact W5|]. intros x Hx. by apply T4'.
    - eapply held_all; [exact A4| |].
      + intros x Hx. apply W8. right. by apply elem_of_app; left.
      + intros x Hx. by apply T4. }
  intros e5 R5 O5. pose proof (released_trans _ _ _ _ _ _ _ _ _ _ _ A4 R5) as A5. cbn [app] in A5.
  apply strings_free_gives; [apply A5| | |done].
  - eapply owned_strings_kept; [exact A5|exact W6|]. intros x Hx. by apply T5'.
  - eapply held_all; [exact A5| |].
    + intros x Hx. apply W8. right. rewrite !elem_of_app. tauto.
    + intros x Hx. by apply T5.
Qed.

Lemma release_end_run w0 e w p o m fds avs evs :
  owns (ext w0) p o m fds avs evs → ext w = e → own e = own (ext w0) →
  released (ext w0) e [o_children o; o_fds o; o_name o] ((KLogger, o_logger o) :: avs ++ evs) fds [] →
  wp (release_end p o) (λ _ w', ∃ e',
    w' = set_ext e' (set_queues (set_procs w (delete p (procs w)))
           (delete (child_waiters p) (delete (exit_waiters p) (queues w)))) ∧
    own e' = delete p (own (ext w0)) ∧
    released (ext w0) e' (proc_blocks p o) (proc_things (kernel_vmm (ext w0)) o m avs evs) fds [o_cwd o]) w.
Proof.
  intros [W1 W2 W3 W4 W5 W6 (N1 & N2 & N3) W7 W8 [W9 W9'] W10 W11] <- Hown A1. unfold release_end.
  set (B := proc_blocks p o) in *. set (H := proc_things _ o m avs evs) in *.
  set (hs := (KLogger, o_logger o) :: avs ++ evs) in *.
  destruct (apart_things H hs (fpu_things o) (vmm_things (kernel_vmm (ext w0)) m) W9') as [_ T1];
    [by unfold H, proc_things, hs; cbn; rewrite <- !app_assoc|].
  destruct (apart_things H (hs ++ fpu_things o) (vmm_things (kernel_vmm (ext w0)) m) [] W9') as [_ T2].
  { unfold H, proc_things, hs; cbn. by rewrite app_nil_r, <- !app_assoc. }
  destruct (apart_block B (avs ++ evs) [o_children o; o_fds o; o_name o] (o_mem o) [o_stack_end o; p] (avs ++ evs) [] W9
    eq_refl ltac:(by rewrite app_nil_r)) as [B2 B2'].
  assert (o_mem o ∉ [o_children o; o_fds o; o_name o] ++ heap_addrs (hs ++ fpu_things o)) as B2''.
  { rewrite heap_addrs_app, heap_fpu, app_nil_r. exact B2'. }
  destruct (apart_block B (avs ++ evs) [o_children o; o_fds o; o_name o; o_mem o] (o_stack_end o) [p] [] _ W9 eq_refl eq_refl) as [B3 _].
  destruct (apart_block B (avs ++ evs) [o_children o; o_fds o; o_name o; o_mem o; o_stack_end o] p [] [] _ W9 eq_refl eq_refl) as [B4 _].
  apply wp_bind. eapply wp_mono; [apply (set_cwd_none_run p o w); [apply A1|done|by rewrite Hown|]|].
  { destruct W11 as [|Hc]; [by left|]. destruct (decide (o_cwd o = 0)); [by left|right].
    rewrite (re_nodes _ _ _ _ _ _ A1) by done. change (count (o_cwd o) []) with 0. lia. }
  intros [] w1 (e1 & -> & R1 & O1). pose proof (released_trans _ _ _ _ _ _ _ _ _ _ _ A1 R1) as A2.
  cbn [app] in A2. rewrite (app_nil_r hs), (app_nil_r fds) in A2.
  eapply gives_back_bind; [apply fpu_free_gives; [apply A2|eapply held_all; [exact A2| |]]|].
  { intros x Hx. apply W8. unfold H, proc_things. right. rewrite !elem_of_app. tauto. }
  { intros x Hx. by apply T1. }
  intros e2 R2 O2. pose proof (released_trans _ _ _ _ _ _ _ _ _ _ _ A2 R2) as A3. cbn [app] in A3. rewrite (app_nil_r fds) in A3.
  destruct (re_rest _ _ _ _ _ _ A3) as (_ & _ & Hk & _). destruct (re_maps _ _ _ _ _ _ A3 (o_mem o) B2'') as (_ & Hm & _).
  eapply gives_back_bind; [apply (mem_free_gives (o_mem o) m); [apply A3|done|by cbn; rewrite Hm| |]|].
  { cbn. eapply live_kept; [exact A3|apply W7; do 3 right; by left|exact B2]. }
  { cbn [ext set_ext]. rewrite Hk. eapply held_all; [exact A3| |].
    - intros x Hx. apply W8. unfold H, proc_things. right. rewrite !elem_of_app. tauto.
    - intros x Hx. by apply T2. }
  intros e3 R3 O3. pose proof (released_trans _ _ _ _ _ _ _ _ _ _ _ A3 R3) as A4. cbn [app ext set_ext] in A4.
  rewrite (app_nil_r fds), Hk in A4. 
  eapply gives_back_bind; [apply slab_free_gives; [apply A4|eapply live_kept; [exact A4|apply W7; do 4 right; by left|exact B3]]|].
  intros e4 R4 O4. pose proof (released_trans _ _ _ _ _ _ _ _ _ _ _ A4 R4) as A5. cbn [app] in A5. rewrite (app_nil_r fds) in A5.
  eapply gives_back_bind; [apply slab_free_gives; [apply A5|eapply live_kept; [exact A5|apply W7; do 5 right; by left|exact B4]]|].
  intros e5 R5 O5. pose proof (released_trans _ _ _ _ _ _ _ _ _ _ _ A5 R5) as A6. cbn [app] in A6. rewrite (app_nil_r fds) in A6.
  apply wp_bind, wp_modify, wp_bind, wp_modify, wp_modify. eexists. split; [reflexivity|]. cbn [ext set_ext] in *. split.
  - cbn. rewrite O5, O4, O3, O2, O1. rewrite delete_insert_eq. by rewrite Hown.
  - rewrite !(app_nil_r (_ ++ _)) in A6. unfold hs in A6. cbn [app] in A6. rewrite <- !app_assoc in A6.
    destruct A6 as [G1 G2 G3 G4 G5 G6 G7]. by split.
Qed.

Lemma wp_proc_free w p o m fds avs evs v ks :
  res_ok (ext w) → owns (ext w) p o m fds avs evs →
  procs w !! p = Some v → parent v = 0 → children v = Some ks → length ks = 256%nat →
  (∀ c, c ∈ drop 1 ks → c ≠ 0 → is_Some (procs w !! c)) →
  wp (proc_free p) (λ _ w', ∃ e', w' = freed_world p (drop 1 ks) e' w ∧ own e' = delete p (own (ext w)) ∧
    released (ext w) e' (proc_blocks p o) (proc_things (kernel_vmm (ext w)) o m avs evs) fds [o_cwd o]) w.
Proof.
  intros Hok [W1 W2 W3 W4 W5 W6 (N1 & N2 & N3) W7 W8 W9 W10 W11] Hp Hpar Hks Hlen Hkids.
  unfold proc_free. rewrite (proj2 (Z.eqb_neq p 0)) by done.
  apply wp_bind. eapply wp_load_proc; [exact Hp|]. rewrite Hpar. cbn [Z.eqb negb]. apply wp_bind, wp_ret.
  apply wp_bind, wp_bind, wp_gets. rewrite W1. eapply wp_lift; [done|].
  apply wp_bind. eapply wp_load_proc; [exact Hp|]. rewrite Hks. apply wp_bind, wp_bind.
  eapply wp_mono; [apply (orphan_loop_run CHILD_SLOTS 1 p w v ks); [done|done|by rewrite Hlen|done]|].
  intros [] w1 ->. set (w1 := set_procs w _).
  assert (∃ u, procs w1 !! p = Some u) as [u Hu].
  { unfold w1. cbn [set_procs procs]. rewrite orphan_lookup, Hp. by eexists. }
  eapply gives_back_bind; [apply (slab_free_gives (o_children o) w1); [done|apply W7; by left]|].
  intros e1 A1 O1. eapply wp_update_proc; [exact Hu|]. set (w2 := set_procs (set_ext e1 w1) _).
  assert (wp (_ ← release_rest p o; release_end p o) (λ _ w', ∃ e', w' = freed_world p (drop 1 ks) e' w ∧
    own e' = delete p (own (ext w)) ∧
    released (ext w) e' (proc_blocks p o) (proc_things (kernel_vmm (ext w)) o m avs evs) fds [o_cwd o]) w2) as Hrest; [|].
  2:{ revert Hrest. unfold release_rest, release_end, wp. unfold mbind, prog_bind.
      destruct (drop_it KLogger _ _) as [[[] ?]| | |]; try done. destruct (when _ _ _) as [[[] ?]| | |]; try done.
      destruct (free_name _ _) as [[[] ?]| | |]; try done. destruct (proc_strings_free _ _) as [[[] ?]| | |]; try done. }
  assert (released (ext w) (ext w2) [o_children o] [] [] []) as A2 by exact A1.
  pose proof (Build_owns _ _ _ _ _ _ _ W1 W2 W3 W4 W5 W6 (conj N1 (conj N2 N3)) W7 W8 W9 W10 W11) as Hown.
  eapply gives_back_bind; [by apply (release_rest_gives w2 (ext w) p o m fds avs evs)|].
  intros e3 R3 O3. pose proof (released_trans _ _ _ _ _ _ _ _ _ _ _ A2 R3) as A3. cbn [app] in A3.
  eapply wp_mono.
  { apply (release_end_run w e3 (set_ext e3 w2) p o m fds avs evs); [exact Hown|done| |exact A3]. rewrite O3. exact O1. }
  intros [] w' (e' & -> & Ho & He). exists e'. split; [|done]. unfold freed_world, w2, w1. cbn. by rewrite delete_insert_eq.
Qed.
End ledger.

(** ** A ledger as an implementation of the services *)

(** What exists, the next address, and the references of files and vnodes. *)
Record ledger := MkLedger {
  l_held : gset (kind * Z); l_next : Z; l_files : gmap Z Z; l_nodes : gmap Z Z;
}.
(** Entry [x] of a table of references grows or shrinks by one. *)
Definition refs_of (m : gmap Z Z) (x : Z) : Z := default 0 (m !! x).
Definition refs_add (m : gmap Z Z) (x d : Z) : gmap Z Z := if x =? 0 then m else <[x := refs_of m x + d]> m.
Definition l_set_files (s : ledger) (m : gmap Z Z) : ledger := MkLedger (l_held s) (l_next s) m (l_nodes s).
Definition l_set_nodes (s : ledger) (m : gmap Z Z) : ledger := MkLedger (l_held s) (l_next s) (l_files s) m.
Definition l_drop (k : kind) (p : Z) (s : ledger) : outcome (unit * ledger) :=
  if p =? 0 then Ret (tt, s)
  else if bool_decide ((k, p) ∈ l_held s)
       then Ret (tt, MkLedger (l_held s ∖ {[ (k, p) ]}) (l_next s) (l_files s) (l_nodes s))
       else Fault.
Definition l_move (d : Z) (f : Z) (s : ledger) : outcome (unit * ledger) :=
  Ret (tt, l_set_files s (refs_add (l_files s) f d)).
Definition l_move_node (d : Z) (f : Z) (s : ledger) : outcome (unit * ledger) :=
  Ret (tt, l_set_nodes s (refs_add (l_nodes s) f d)).

#[global] Instance ledger_services : Services ledger := {
  sv_make m s := Ret (l_next s, MkLedger ({[ (made m, l_next s) ]} ∪ l_held s) (l_next s + 1) (l_files s) (l_nodes s));
  sv_drop := l_drop;
  sv_vmm_cr3 v _ := Ret v;
  sv_fpu_dup _ _ s := Ret (tt, s);
  sv_fpu_reset _ s := Ret (tt, s);
  sv_file f s := Ret (refs_of (l_files s) f, 0);
  sv_file_borrow := l_move 1;
  sv_file_release := l_move (-1);
  sv_file_close := l_move (-1);
  sv_vnode_borrow := l_move_node 1;
  sv_vnode_release := l_move_node (-1);
}.

Definition ledger_ok (s : ledger) : Prop :=
  0 < l_next s ∧ (∀ x, x ∈ l_held s → 0 < snd x < l_next s) ∧ refs_of (l_files s) 0 = 0.

Lemma refs_add_at m x d g : g ≠ 0 → refs_of (refs_add m x d) g = refs_of m g + (if decide (g = x) then d else 0).
Proof.
  intros Hg. unfold refs_add. destruct (Z.eqb_spec x 0) as [->|]; [rewrite decide_False by done; lia|].
  unfold refs_of at 1. destruct (decide (g = x)) as [->|].
  - rewrite lookup_insert_eq. done.
  - rewrite lookup_insert_ne by done. fold (refs_of m g). lia.
Qed.
Lemma refs_add_null m x d : refs_of (refs_add m x d) 0 = refs_of m 0.
Proof.
  unfold refs_add. destruct (Z.eqb_spec x 0) as [->|]; [done|]. unfold refs_of. by rewrite lookup_insert_ne.
Qed.
Lemma ledger_files s m : ledger_ok s → refs_of m 0 = 0 → ledger_ok (l_set_files s m).
Proof. by intros (H1 & H2 & _) Hm. Qed.
(** One reference less of a file that has some. *)
Lemma ledger_minus s f : ledger_ok s → 0 < refs_of (l_files s) f →
  ∀ g, refs_of (refs_add (l_files s) f (-1)) g = refs_of (l_files s) g - (if decide (g = f) then 1 else 0).
Proof.
  intros (_ & _ & H0) Hf g. assert (f ≠ 0) as Hf0 by (intros ->; lia). destruct (decide (g = 0)) as [->|Hg].
  - rewrite refs_add_null, decide_False by done. lia.
  - rewrite refs_add_at by done. case_decide; lia.
Qed.

#[global] Instance ledger_laws : ServiceLaws ledger.
Proof.
  refine {| sv_ok := ledger_ok; sv_held := l_held; sv_files := λ s, refs_of (l_files s); sv_nodes := λ s, refs_of (l_nodes s) |}.
  - intros s m (H1 & H2 & H3) _. eexists _, _. split; [reflexivity|]. cbn. split; [split_and!; cbn; [lia| |done]|].
    { intros x [->%elem_of_singleton|Hx%H2]%elem_of_union; cbn; lia. }
    split; [done|]. split; [done|]. right. split; [lia|]. split; [|done]. intros Hx%H2. cbn in Hx. lia.
  - intros s k p (H1 & H2 & H3) Hp. pose proof (H2 _ Hp) as Hp'. cbn in Hp'. unfold sv_drop, ledger_services, l_drop.
    rewrite (proj2 (Z.eqb_neq p 0)), bool_decide_true by (done || lia). eexists. split; [reflexivity|]. cbn.
    split; [split_and!; cbn; [lia| |done]|done]. intros x [Hx _]%elem_of_difference. by apply H2.
  - done.
  - intros s v _ _. by eexists.
  - intros s p q Hs _ _. by exists s.
  - intros s f _ _. by eexists.
  - intros s f Hs _. eexists. split; [reflexivity|]. cbn. split; [apply ledger_files; [done|by rewrite refs_add_null; apply Hs]|].
    split; [done|]. split; [done|]. intros g Hg. by rewrite refs_add_at.
  - intros s f Hs Hf. eexists. split; [reflexivity|]. cbn. split; [apply ledger_files; [done|by rewrite refs_add_null; apply Hs]|].
    split; [done|]. split; [done|]. apply ledger_minus; [done|lia].
  - intros s f Hs Hf. eexists. split; [reflexivity|]. cbn. split; [apply ledger_files; [done|by rewrite refs_add_null; apply Hs]|].
    split; [done|]. split; [done|]. apply ledger_minus; [done|lia].
  - intros s n Hs _. eexists. split; [reflexivity|]. cbn. split; [exact Hs|]. split; [done|]. split; [done|].
    intros g Hg. by rewrite refs_add_at.
  - intros s n Hs _. eexists. split; [reflexivity|]. cbn. split; [exact Hs|]. split; [done|]. split; [done|].
    intros g Hg. rewrite refs_add_at by done. case_decide; lia.
Defined.
