(* ===== verification/ProcLife.v ===== *)
(** * ProcLife: exit, wait and reap

    What [waitpid_proc] answers and collects, on every branch that does not
    block, and what the reaper frees. *)
From S2P Require Import Prelude Alloc Cstring Number Elf ProcQueue Sched SchedSpec Semaphore Proc ProcThm.

Section life.
Context {Srv : Type} {services_S : Services Srv} {laws_S : ServiceLaws Srv}.
Context {A : Type} {alloc_A : Allocator A} {laws_A : AllocatorLaws (2 ^ 61) A}.
Abbreviation X := (pext Srv A).
Abbreviation W := (kworld_of X).
Context (away halted : prog W unit) (idle_fuel : nat).
Implicit Types (w : W) (e : X).

(** ** Which child is meant *)

(** A child that [wanted] names, and one of them that is dead. *)
Definition kid_match w (wanted c : Z) : Prop := c ≠ 0 ∧ (wanted = -1 ∨ field w pid 0 c = u64 wanted).
Definition kid_dead w (wanted c : Z) : Prop := kid_match w wanted c ∧ status_of w c = PROC_STATUS_READY_TO_DIE.
#[global] Instance kid_match_dec w wanted c : Decision (kid_match w wanted c).
Proof. unfold kid_match. apply _. Defined.
#[global] Instance kid_dead_dec w wanted c : Decision (kid_dead w wanted c).
Proof. unfold kid_dead. apply _. Defined.

(** The reference: the first dead one, else the first one; with its position. *)
Definition find_kid w (wanted : Z) (ks : list Z) : option (nat * Z) :=
  match list_find (kid_dead w wanted) ks with Some r => Some r | None => list_find (kid_match w wanted) ks end.

Lemma list_find_cons {B} (P : B → Prop) `{∀ x, Decision (P x)} x l :
  list_find P (x :: l) = if decide (P x) then Some (0%nat, x) else prod_map S id <$> list_find P l.
Proof. done. Qed.

Lemma child_find_run n i par wanted first slot w v l :
  procs w !! par = Some v → children v = Some l → (i + n = length l)%nat →
  (∀ c, c ∈ drop i l → c ≠ 0 → is_Some (procs w !! c)) →
  child_find_loop n (Z.of_nat i) par wanted first slot w = Ret
    (match list_find (kid_dead w wanted) (drop i l) with
     | Some (j, c) => Some (c, Z.of_nat (i + j))
     | None =>
         if first =? 0 then (λ '(j, c), (c, Z.of_nat (i + j))) <$> list_find (kid_match w wanted) (drop i l)
         else Some (first, slot)
     end, w).
Proof.
  intros Hp Hl. revert i first slot. induction n as [|n IH]; intros i first slot Hn Hex; cbn [child_find_loop].
  - rewrite drop_ge by lia. cbn. by destruct (first =? 0).
  - destruct (lookup_lt_is_Some_2 l i) as [c Hc]; [lia|]. pose proof (drop_S l c i Hc) as Hd. rewrite Hd in Hex |- *.
    erewrite bind_run; [|unfold child_at, load_proc, mbind, prog_bind; rewrite Hp; cbn; rewrite Hl; cbn;
      rewrite Nat2Z.id, Hc; reflexivity].
    replace (Z.of_nat i + 1) with (Z.of_nat (S i)) by lia.
    assert (∀ first slot, child_find_loop n (Z.of_nat (S i)) par wanted first slot w = _) as IH'
      by (intros f s; apply IH; [lia|set_solver]). clear IH.
    rewrite !list_find_cons. destruct (Z.eqb_spec c 0) as [->|H0].
    { rewrite IH', !(decide_False (P := _ 0)) by (unfold kid_dead, kid_match; tauto).
      destruct (list_find (kid_dead w wanted) _) as [[j x]|]; cbn; [do 4 f_equal; lia|].
      destruct (first =? 0); [|done]. destruct (list_find _ _) as [[j x]|]; cbn; [do 4 f_equal; lia|done]. }
    destruct (Hex c) as [u Hu]; [set_solver|done|].
    erewrite bind_run; [|unfold load_proc; rewrite Hu; reflexivity]. 
    assert (field w pid 0 c = pid u) as Ep by (unfold field; by rewrite Hu).
    assert (status_of w c = status u) as Es by (unfold status_of, field; by rewrite Hu).
    destruct (negb (wanted =? -1) && negb (pid u =? u64 wanted)) eqn:Em.
    { rewrite IH', (decide_False (P := kid_dead w wanted c)), (decide_False (P := kid_match w wanted c))
        by (unfold kid_dead, kid_match; lia).
      destruct (list_find (kid_dead w wanted) _) as [[j x]|]; cbn; [do 4 f_equal; lia|].
      destruct (first =? 0); [|done]. destruct (list_find _ _) as [[j x]|]; cbn; [do 4 f_equal; lia|done]. }
    assert (kid_match w wanted c) as Hm by (unfold kid_match; lia). rewrite (decide_True (P := kid_match w wanted c)) by done.
    destruct (Z.eqb_spec (status u) PROC_STATUS_READY_TO_DIE) as [Ed|Ed].
    { rewrite decide_True by (split; [done|congruence]). cbn. by rewrite Nat.add_0_r. }
    rewrite decide_False by (intros [_ ?]; congruence). destruct (Z.eqb_spec first 0) as [->|Hf]; rewrite IH'.
    + rewrite (proj2 (Z.eqb_neq c 0)) by done.
      destruct (list_find (kid_dead w wanted) _) as [[j x]|]; cbn; [do 4 f_equal; lia|]. by rewrite Nat.add_0_r.
    + rewrite (proj2 (Z.eqb_neq first 0)) by done.
      destruct (list_find (kid_dead w wanted) _) as [[j x]|]; cbn; [do 4 f_equal; lia|done].
Qed.

(** [wait_child_find] is the reference, and reads only. *)
Lemma wait_child_find_run par wanted w v l :
  par ≠ 0 → procs w !! par = Some v → children v = Some l → length l = 256%nat →
  (∀ c, c ∈ drop 1 l → c ≠ 0 → is_Some (procs w !! c)) →
  wait_child_find par wanted w = Ret ((λ '(j, c), (c, Z.of_nat (S j))) <$> find_kid w wanted (drop 1 l), w).
Proof.
  intros H0 Hp Hl Hlen Hex. unfold wait_child_find. rewrite (proj2 (Z.eqb_neq par 0)) by done.
  erewrite bind_run; [|unfold load_proc; rewrite Hp; reflexivity]. rewrite Hl.
  pose proof (child_find_run CHILD_SLOTS 1 par wanted 0 0 w v l) as E. cbn [Z.of_nat] in E. change (Z.of_nat 1) with 1 in E.
  rewrite E by (done || by rewrite Hlen).
  unfold find_kid. cbn [Z.eqb]. by destruct (list_find (kid_dead w wanted) _) as [[j c]|].
Qed.
Lemma find_kid_elem w wanted ks j c :
  find_kid w wanted ks = Some (j, c) → ks !! j = Some c ∧ kid_match w wanted c.
Proof.
  unfold find_kid. destruct (list_find (kid_dead w wanted) ks) as [[j' c']|] eqn:E.
  - intros [= -> ->]. apply list_find_Some in E as (? & [? _] & _). done.
  - intros (? & ? & _)%list_find_Some. done.
Qed.

(** ** The queues without a process that is gone *)
Definition sched_queues : list Z := [mp_ready_queue; mp_sleeping_queue; mp_ready_to_die_queue].
(** The wait queues inside [p] are not those of the scheduler. *)
Definition own_queues (p : Z) : Prop := (child_waiters p ∉ sched_queues) ∧ exit_waiters p ∉ sched_queues.

Lemma links_freed p ks e' w : links (freed_world p ks e' w) = delete p (links w).
Proof. unfold links. cbn. rewrite fmap_delete. f_equal. exact (orphan_links w ks). Qed.
Lemma queues_freed p ks e' w q :
  q ≠ child_waiters p → q ≠ exit_waiters p → queues (freed_world p ks e' w) !! q = queues w !! q.
Proof. intros H1 H2. cbn. by rewrite !lookup_delete_ne. Qed.

Lemma qrep_freed p ks e' w q l :
  qrep w q l → p ∉ l → q ≠ child_waiters p → q ≠ exit_waiters p → qrep (freed_world p ks e' w) q l.
Proof.
  intros [H1 H2 H3 H4] Hp Hq1 Hq2. split; [done|by rewrite queues_freed| |done].
  rewrite links_freed. eapply lseg_agree; [|exact H3]. intros x Hx. apply lookup_delete_ne. by intros ->.
Qed.
Lemma field_freed {B} (f : proc → B) d p ks e' w x :
  (∀ v, f (set_parent v 0) = f v) → x ≠ p → field (freed_world p ks e' w) f d x = field w f d x.
Proof.
  intros Hf Hx. unfold field. cbn. rewrite lookup_delete_ne, orphan_lookup by done.
  destruct (procs w !! x); cbn; [|done]. by case_decide.
Qed.
Lemma sched_rep_freed p ks e' w R Sl D :
  sched_rep w R Sl D → p ∉ R ++ Sl ++ D → own_queues p → sched_rep (freed_world p ks e' w) R Sl D.
Proof.
  intros [H1 H2 H3 H4 H5] Hp [Hc He]. unfold sched_queues in *. split.
  - apply qrep_freed; [done|set_solver..].
  - apply qrep_freed; [done|set_solver..].
  - apply qrep_freed; [done|set_solver..].
  - done.
  - eapply sorted_ext; [|exact H5]. intros x Hx. unfold wake_time. rewrite field_freed; [done|done|]. set_solver.
Qed.

(** ** Collecting a dead child *)
Definition wrote_status (wstatus code : Z) e : X :=
  if wstatus =? 0 then e else set_uints (<[wstatus := Z.shiftl (Z.land code 255) 8]> (uints e)) e.

(** Without the child: its slot is empty, its children have no parent. *)
Record collected w w' (par c : Z) (slot : nat) (kids gks : list Z) : Prop := {
  co_gone : procs w' !! c = None;
  co_rest q : q ≠ c → family <$> procs w' !! q = (λ v,
    let v := if decide (q = par) then set_children v (Some (<[slot := 0]> kids)) else v in
    family (if decide (q ∈ drop 1 gks ∧ q ≠ 0) then set_parent v 0 else v)) <$> procs w !! q;
  co_status q : q ≠ c → status_of w' q = status_of w q;
  co_queues q : q ∉ [mp_ready_to_die_queue; child_waiters c; exit_waiters c] → queues w' !! q = queues w !! q;
  co_same : current w' = current w ∧ sched w' = sched w ∧ clock w' = clock w ∧ interrupts w' = interrupts w ∧
    semaphores w' = semaphores w ∧ mutexes w' = mutexes w;
}.

Lemma owns_uints u e p o m fds avs evs : owns e p o m fds avs evs → owns (set_uints u e) p o m fds avs evs.
Proof. intros []. by split. Qed.

Lemma filter_middle (x : Z) k1 k2 : NoDup (k1 ++ x :: k2) → filter (λ y, y ≠ x) (k1 ++ x :: k2) = k1 ++ k2.
Proof.
  intros Hnd. rewrite filter_app, filter_cons_False by tauto. apply NoDup_app in Hnd as (_ & Hd & Hnd).
  apply NoDup_cons in Hnd as [Hx _]. rewrite !filter_all; [done| |].
  - intros y Hy ->. done.
  - intros y Hy ->. apply (Hd x Hy). by left.
Qed.

(** The child leaves the queue of the dead. *)
Lemma wp_unqueue_dead w R Sl D c :
  sched_rep w R Sl D → c ∈ D →
  wp (mp_ready_to_die_remove c) (λ _ w', sched_rep w' R Sl (filter (λ y, y ≠ c) D) ∧
    relinked w w' D [mp_ready_to_die_queue] ∧ ext w' = ext w) w.
Proof.
  intros [H1 H2 H3 H4 H5] Hc. pose proof (qrep_procs _ _ _ _ H3 Hc) as [_ Hc0]. unfold mp_ready_to_die_remove.
  apply wp_bind. eapply wp_mono; [by apply wp_remove|].
  intros b w' Hr. cbv beta in Hr. rewrite decide_True in Hr by done. destruct Hr as (_ & (k1 & k2 & -> & Hq) & Hrel & _).
  apply wp_ret. split; [|split; [done|apply Hrel]]. pose proof (qr_nodup _ _ _ H3) as Hnd. rewrite filter_middle by done.
  assert (∀ x, x ∈ R ++ Sl → x ∉ k1 ++ c :: k2) as Hx.
  { intros x Hx Hx'. rewrite app_assoc in H4. apply NoDup_app in H4 as (_ & Hd & _). by apply (Hd x Hx). }
  split.
  - eapply qrep_relinked; [exact Hrel|exact H1| |intros x Hx'; apply Hx; set_solver].
    unfold mp_ready_queue, mp_ready_to_die_queue. set_solver by lia.
  - eapply qrep_relinked; [exact Hrel|exact H2| |intros x Hx'; apply Hx; set_solver].
    unfold mp_sleeping_queue, mp_ready_to_die_queue. set_solver by lia.
  - done.
  - rewrite !NoDup_app, ?NoDup_cons in *. set_solver.
  - eapply sorted_ext; [|exact H5]. intros x _. unfold wake_time.
    by rewrite (relinked_field sleep_until 0 w w' _ _ x (λ _ _, eq_refl) Hrel).
Qed.

(** A store to a process that keeps links and wake time. *)
Lemma sched_rep_update w p f v R Sl D :
  procs w !! p = Some v → next (f v) = next v → sleep_until (f v) = sleep_until v →
  sched_rep w R Sl D → sched_rep (set_procs w (<[p := f v]> (procs w))) R Sl D.
Proof.
  intros Hv Hn Hs. apply sched_rep_same; [by apply links_update|done|]. intros x. unfold wake_time.
  rewrite field_update. destruct (decide (x = p)) as [->|]; [|done]. by rewrite (field_at sleep_until 0 w p v Hv).
Qed.

Lemma wp_collect w par pv kids slot c v gks o m fds avs evs R Sl D wstatus :
  res_ok (ext w) → owns (ext w) c o m fds avs evs → par ≠ 0 → c ≠ par →
  procs w !! par = Some pv → children pv = Some kids → kids !! slot = Some c →
  procs w !! c = Some v → status v = PROC_STATUS_READY_TO_DIE → children v = Some gks → length gks = 256%nat →
  (∀ g, g ∈ drop 1 gks → g ≠ 0 → is_Some (procs w !! g)) →
  sched_rep w R Sl D → c ∈ D → own_queues c →
  wp (process_wait_collect par c (Z.of_nat slot) wstatus) (λ r w',
    r = pid v ∧ sched_rep w' R Sl (filter (λ y, y ≠ c) D) ∧ collected w w' par c slot kids gks ∧
    own (ext w') = delete c (own (ext w)) ∧
    released (wrote_status wstatus (exit_code v) (ext w)) (ext w') (proc_blocks c o)
      (proc_things (kernel_vmm (ext w)) o m avs evs) fds [o_cwd o]) w.
Proof.
  intros Hok Hown Hpar0 Hne Hpar Hkids Hslot Hc Hst Hg Hglen Hgex Hsr HcD Hoq.
  pose proof (proj2 (proj2 (ow_null _ _ _ _ _ _ _ Hown))) as Hc0. unfold process_wait_collect.
  rewrite (proj2 (Z.eqb_neq par 0)), (proj2 (Z.eqb_neq c 0)) by done. cbn [orb].
  apply wp_bind. eapply wp_load_proc; [exact Hpar|]. rewrite Hkids.
  apply wp_bind. eapply wp_load_proc; [exact Hc|]. rewrite Hst, Z.eqb_refl. cbn [negb].
  apply wp_bind. set (e1 := wrote_status wstatus (exit_code v) (ext w)).
  assert (owns e1 c o m fds avs evs ∧ res_ok e1 ∧ kernel_vmm e1 = kernel_vmm (ext w) ∧ own e1 = own (ext w)) as (Hown1 & Hok1 & Hk1 & Ho1).
  { unfold e1, wrote_status. destruct (wstatus =? 0); [done|]. split; [by apply owns_uints|done]. }
  apply (wp_mono _ (λ _ w1, w1 = set_ext e1 w)).
  { unfold e1, wrote_status. destruct (wstatus =? 0); cbn [negb when]; [by apply wp_ret; rewrite set_ext_id|by apply wp_modify]. }
  intros [] w1 ->. set (w1 := set_ext e1 w).
  apply wp_bind. unfold set_child. apply wp_bind. eapply (wp_load_proc par pv); [exact Hpar|]. apply wp_bind. rewrite Hkids.
  eapply wp_lift; [done|]. apply wp_bind. rewrite Nat2Z.id, Hslot. eapply wp_lift; [done|].
  eapply (wp_update_proc par _ pv); [exact Hpar|]. set (w2 := set_procs w1 _).
  assert (procs w2 !! c = Some v) as Hc2 by (unfold w2; cbn [set_procs procs]; by rewrite lookup_insert_ne).
  apply wp_bind. eapply (wp_update_proc c _ v); [exact Hc2|]. set (w3 := set_procs w2 _).
  assert (sched_rep w3 R Sl D) as Hsr3.
  { apply (sched_rep_update w2 c (λ v, set_parent v 0) v); [done..|].
    apply (sched_rep_update w1 par (λ v, set_children v (Some (<[slot := 0]> kids))) pv); [done..|]. by apply (sched_rep_same w). }
  apply wp_bind. eapply wp_mono; [by apply (wp_unqueue_dead w3 R Sl D c)|]. intros [] w4 (Hsr4 & Hrel & He4).
  destruct (rl_fields _ _ _ _ Hrel c) as [n4 Hc4]. unfold w3 in Hc4. cbn [set_procs procs] in Hc4. rewrite lookup_insert_eq in Hc4.
  assert (∀ q, is_Some (procs w !! q) → is_Some (procs w4 !! q)) as Hex.
  { intros q Hq. destruct (rl_fields _ _ _ _ Hrel q) as [n ->]. apply fmap_is_Some. unfold w3, w2. cbn [set_procs procs].
    rewrite !lookup_insert_is_Some'. tauto. }
  apply wp_bind. change (ext w3) with e1 in He4. eapply wp_mono.
  { apply (wp_proc_free w4 c o m fds avs evs (set_next (set_parent v 0) n4) gks); try done; rewrite ?He4; try done.
    intros g Hgi Hg0. by apply Hex, Hgex. }
  intros [] w5 (e5 & -> & Ho5 & Hrel5). apply wp_ret. rewrite He4, Hk1 in Hrel5. rewrite He4, Ho1 in Ho5.
  assert (NoDup D) as HndD by apply (qr_nodup _ _ _ (sr_die _ _ _ _ Hsr)).
  split; [done|]. split.
  { apply sched_rep_freed; [done| |done]. pose proof (sr_disjoint _ _ _ _ Hsr) as Hnd. rewrite !NoDup_app in Hnd.
    rewrite !elem_of_app, list_elem_of_filter. set_solver. }
  split; [|split; [exact Ho5|exact Hrel5]]. split.
  - cbn. apply lookup_delete_eq.
  - intros q Hq. cbn. rewrite lookup_delete_ne, orphan_lookup by done. destruct (rl_fields _ _ _ _ Hrel q) as [n ->].
    unfold w3, w2. cbn [set_procs procs]. rewrite lookup_insert_ne by done. destruct (decide (q = par)) as [->|Hqp].
    + rewrite lookup_insert_eq, Hpar. cbn. f_equal. by case_decide.
    + rewrite lookup_insert_ne by done. change (procs w1) with (procs w). destruct (procs w !! q); cbn; [|done].
      f_equal. by case_decide.
  - intros q Hq. unfold status_of. rewrite field_freed by done.
    rewrite (relinked_field status 0 w3 w4 _ _ q (λ _ _, eq_refl) Hrel). unfold w3. rewrite field_update, decide_False by done.
    unfold w2. rewrite field_update. case_decide as E; [|done]. subst. by rewrite (field_at status 0 w par pv Hpar).
  - intros q Hq. rewrite queues_freed by set_solver. apply (rl_queues _ _ _ _ Hrel). set_solver.
  - destruct (rl_rest _ _ _ _ Hrel) as (E1 & E2 & E3 & E4 & E5 & E6 & _). cbn. by rewrite E1, E2, E3, E4, E5, E6.
Qed.

(** ** Waiting *)

(** After a call that took and released the scheduler's locks. *)
Definition resumed w : W := with_locks w 0 0 false true.

(** A child that can be collected when it is dead: a process of its own, whose
    children exist, which owns what it refers to. *)
Record child_ok w (par c : Z) (D : list Z) : Prop := {
  ck_proc : ∃ v gks, procs w !! c = Some v ∧ children v = Some gks ∧ length gks = 256%nat ∧
    ∀ g, g ∈ drop 1 gks → g ≠ 0 → is_Some (procs w !! g);
  ck_other : c ≠ par;
  ck_queues : own_queues c;
  ck_dead : status_of w c = PROC_STATUS_READY_TO_DIE →
    c ∈ D ∧ ∃ o m fds avs evs, owns (ext w) c o m fds avs evs;
}.
(** The running process [par], its children in [kids], no lock held. *)
Record parent_ok w (par : Z) (kids R Sl D : list Z) : Prop := {
  pa_cpu : cpu w par R Sl D;
  pa_unlocked : unlocked w;
  pa_res : res_ok (ext w);
  pa_kids : ∃ pv, procs w !! par = Some pv ∧ children pv = Some kids;
  pa_len : length kids = 256%nat;
  pa_child c : c ∈ drop 1 kids → c ≠ 0 → child_ok w par c D;
}.

(** What [waitpid] answers and leaves. *)
Definition waited w (par wanted wstatus : Z) (kids R Sl D : list Z) (r : Z) w' : Prop :=
  match find_kid w wanted (drop 1 kids) with
  | None => r = - ECHILD ∧ w' = resumed w
  | Some (j, c) =>
      if decide (status_of w c = PROC_STATUS_READY_TO_DIE) then
        ∃ v gks o m fds avs evs, procs w !! c = Some v ∧ children v = Some gks ∧
          owns (ext w) c o m fds avs evs ∧ r = pid v ∧
          cpu w' par R Sl (filter (λ y, y ≠ c) D) ∧ unlocked w' ∧
          collected (resumed w) w' par c (S j) kids gks ∧ own (ext w') = delete c (own (ext w)) ∧
          released (wrote_status wstatus (exit_code v) (ext w)) (ext w') (proc_blocks c o)
            (proc_things (kernel_vmm (ext w)) o m avs evs) fds [o_cwd o]
      else r = 0 ∧ w' = resumed w
  end.

Lemma postponed_run w : unlocked w → sched_postpone w = Ret (tt, with_locks w 1 1 false false).
Proof using Type.
  intros (Hi & Hs & Hf). rewrite postpone_run by (unfold locks_ok; lia). by rewrite Hi, Hs, Hf.
Qed.
Lemma resume_end w : irq_lock_count (sched w) = 1 → switch_lock_count (sched w) = 1 → switch_lock_flag (sched w) = false →
  sched_resume away halted idle_fuel w = Ret (tt, resumed w).
Proof using Type. apply resume_quiet. Qed.

Lemma options_bits options : (Z.land options (Z.lnot WAITPID_WNOHANG) =? 0) = bool_decide (options = 0 ∨ options = WAITPID_WNOHANG).
Proof using Type.
  assert (Z.land options (Z.lnot WAITPID_WNOHANG) = 2 * (options / 2)) as ->.
  { rewrite <- Z.ldiff_land. unfold WAITPID_WNOHANG. change 1 with (Z.ones 1) at 1. rewrite Z.ldiff_ones_r by lia.
    rewrite Z.shiftl_mul_pow2, Z.shiftr_div_pow2 by lia. change (2 ^ 1) with 2. apply Z.mul_comm. }
  unfold WAITPID_WNOHANG. pose proof (Z.div_mod options 2 ltac:(lia)). pose proof (Z.mod_pos_bound options 2 ltac:(lia)).
  case_bool_decide as E; [apply Z.eqb_eq|apply Z.eqb_neq]; lia.
Qed.

(** Collecting at the end of a call. *)
Lemma collect_end w par wanted wstatus kids R Sl D j c :
  parent_ok w par kids R Sl D → find_kid w wanted (drop 1 kids) = Some (j, c) →
  status_of w c = PROC_STATUS_READY_TO_DIE →
  ∃ r w', (ret ← process_wait_collect par c (Z.of_nat (S j)) wstatus; _ ← sched_resume away halted idle_fuel; mret ret)
      (with_locks w 1 1 false false) = Ret (r, w') ∧
    waited w par wanted wstatus kids R Sl D r w'.
Proof using laws_A laws_S.
  intros [Hcpu Hun Hok (pv & Hpv & Hkids) Hlen Hchild] Efk Est. set (w1 := with_locks w 1 1 false false).
  pose proof (cpu_nonnull _ _ _ _ _ Hcpu) as Hp0. destruct (find_kid_elem _ _ _ _ _ Efk) as [Hj [Hc0 _]].
  destruct (Hchild c (list_elem_of_lookup_2 _ _ _ Hj) Hc0) as [(v & gks & Hv & Hgks & Hgl & Hgex) Hne Hoq Hdead].
  destruct Hdead as (HD & o & m & fds & avs & evs & Hown); [done|].
  assert (status v = PROC_STATUS_READY_TO_DIE) as Ed by (unfold status_of, field in Est; by rewrite Hv in Est).
  assert (kids !! S j = Some c) as Hslot by (by rewrite lookup_drop in Hj).
  pose proof (sched_rep_locks w 1 1 false false R Sl D (cpu_queues _ _ _ _ _ Hcpu)) as Hsr1.
  pose proof (wp_collect w1 par pv kids (S j) c v gks o m fds avs evs R Sl D wstatus Hok Hown Hp0 Hne Hpv Hkids Hslot
    Hv Ed Hgks Hgl Hgex Hsr1 HD Hoq) as Hwp.
  apply wp_inv in Hwp as (r & w2 & Hrun & -> & Hsr & Hco & Hown2 & Hrel). rewrite (bind_run _ _ _ _ _ Hrun).
  destruct Hco as [C1 C2 C3 C4 (E1 & E2 & E3 & E4 & E5 & E6)].
  rewrite (bind_run _ _ _ _ _ (resume_end w2 ltac:(by rewrite E2) ltac:(by rewrite E2) ltac:(by rewrite E2))).
  eexists _, _. split; [reflexivity|]. unfold waited. rewrite Efk. destruct (decide _) as [_|]; [|done].
  exists v, gks, o, m, fds, avs, evs. split_and!; try done; [|split; try done].
  - destruct Hcpu as [D1 D2 D3 D4 D5 D6]. split; cbn.
    + by rewrite E1.
    + done.
    + specialize (C2 par (not_eq_sym Hne)). change (procs w1) with (procs w) in C2. rewrite Hpv in C2. cbn in C2.
      destruct (procs w2 !! par); [by eexists|done].
    + change (status_of w2 par = PROC_STATUS_RUNNING). by rewrite C3.
    + by apply sched_rep_locks.
    + rewrite !elem_of_app, list_elem_of_filter in *. tauto.
  - cbn. split_and!; try done. by rewrite E2; cbn.
Qed.

(** The search of a postponed call. *)
Lemma find_postponed w par wanted kids R Sl D :
  parent_ok w par kids R Sl D →
  wait_child_find par wanted (with_locks w 1 1 false false) =
    Ret ((λ '(j, c), (c, Z.of_nat (S j))) <$> find_kid w wanted (drop 1 kids), with_locks w 1 1 false false).
Proof using laws_A laws_S.
  intros [Hcpu _ _ (pv & Hpv & Hkids) Hlen Hchild].
  apply (wait_child_find_run par wanted (with_locks w 1 1 false false) pv kids); [apply Hcpu|done|done|done|].
  intros c Hc Hc0. destruct (ck_proc _ _ _ _ (Hchild c Hc Hc0)) as (v & _ & Hv & _). by exists v.
Qed.

Lemma waitpid_answers w par wanted wstatus options kids R Sl D :
  parent_ok w par kids R Sl D → options = 0 ∨ options = WAITPID_WNOHANG → wanted = -1 ∨ 0 < wanted →
  (options = 0 → ∀ j c, find_kid w wanted (drop 1 kids) = Some (j, c) → status_of w c = PROC_STATUS_READY_TO_DIE) →
  ∃ r w', waitpid_proc away halted idle_fuel par wanted wstatus options w = Ret (r, w') ∧
    waited w par wanted wstatus kids R Sl D r w'.
Proof using laws_A laws_S.
  intros Hpa Hopt Hwant Hnb. pose proof Hpa as [Hcpu Hun _ (pv & Hpv & Hkids) _ Hchild].
  pose proof (cpu_nonnull _ _ _ _ _ Hcpu) as Hp0. unfold waitpid_proc. rewrite (proj2 (Z.eqb_neq par 0)) by done.
  erewrite bind_run; [|unfold load_proc; rewrite Hpv; reflexivity]. rewrite Hkids, options_bits, bool_decide_true by done.
  replace ((wanted =? 0) || (wanted <? -1)) with false by lia. cbn [negb orb].
  replace ((wanted =? 0) || (wanted <? -1)) with false by lia.
  rewrite (bind_run _ _ _ _ _ (postponed_run w Hun)), (bind_run _ _ _ _ _ (find_postponed _ _ _ _ _ _ _ Hpa)).
  set (w1 := with_locks w 1 1 false false).
  destruct (find_kid w wanted (drop 1 kids)) as [[j c]|] eqn:Efk; cbn [fmap option_fmap option_map].
  2:{ unfold waited. rewrite Efk. rewrite (bind_run _ _ _ _ _ (resume_end w1 eq_refl eq_refl eq_refl)). eexists _, _. by split. }
  destruct (find_kid_elem _ _ _ _ _ Efk) as [Hj [Hc0 _]].
  destruct (Hchild c (list_elem_of_lookup_2 _ _ _ Hj) Hc0) as [(v & _ & Hv & _) _ _ _].
  erewrite bind_run; [|unfold load_proc; change (procs w1) with (procs w); rewrite Hv; reflexivity].
  assert (status_of w c = status v) as Est by (unfold status_of, field; by rewrite Hv).
  destruct (Z.eqb_spec (status v) PROC_STATUS_READY_TO_DIE) as [Ed|Ed].
  { apply (collect_end w par wanted wstatus kids R Sl D j c Hpa Efk). congruence. }
  unfold waited. rewrite Efk. destruct (decide _) as [|_]; [congruence|].
  destruct Hopt as [-> | ->]; [by destruct (Hnb eq_refl j c eq_refl)|].
  change (Z.land WAITPID_WNOHANG WAITPID_WNOHANG =? 0) with false. cbn [negb].
  rewrite (bind_run _ _ _ _ _ (resume_end w1 eq_refl eq_refl eq_refl)). eexists _, _. by split.
Qed.

(** C12: [waitpid_proc] for the running process when it need not sleep: bad
    options or a bad process number give -EINVAL and change nothing; no child
    that is named gives -ECHILD; else the first dead child that is named is
    collected, and with WNOHANG the answer is 0 if all that are named live.
    Collecting stores the exit code, clears the child's slot, takes the child
    from the queue of the dead, makes its children orphans, gives back exactly
    what it owned (blocks, logger, FPU area, address space, strings, descriptors,
    working directory) and answers its number; other processes, queues and locks
    are as before the call. *)
Theorem waitpid_collects w par wanted wstatus options kids R Sl D :
  parent_ok w par kids R Sl D →
  (options = 0 → ∀ j c, find_kid w wanted (drop 1 kids) = Some (j, c) → status_of w c = PROC_STATUS_READY_TO_DIE) →
  ∃ r w', waitpid_proc away halted idle_fuel par wanted wstatus options w = Ret (r, w') ∧
    if decide ((options = 0 ∨ options = WAITPID_WNOHANG) ∧ (wanted = -1 ∨ 0 < wanted))
    then waited w par wanted wstatus kids R Sl D r w' else r = - EINVAL ∧ w' = w.
Proof using laws_A laws_S.
  intros Hpa Hnb. destruct (decide _) as [[Hopt Hwant]|Hbad]; [by apply waitpid_answers|].
  pose proof (cpu_nonnull _ _ _ _ _ (pa_cpu _ _ _ _ _ _ Hpa)) as Hp0. destruct (pa_kids _ _ _ _ _ _ Hpa) as (pv & Hpv & Hkids).
  unfold waitpid_proc. rewrite (proj2 (Z.eqb_neq par 0)) by done.
  erewrite bind_run; [|unfold load_proc; rewrite Hpv; reflexivity]. rewrite Hkids, options_bits.
  replace (negb (bool_decide (options = 0 ∨ options = WAITPID_WNOHANG)) || (wanted =? 0) || (wanted <? -1)) with true.
  2:{ case_bool_decide; cbn [negb orb]; [|done]. lia. }
  eexists _, _. by split.
Qed.
End life.

(** ** A concrete family *)

(** Process 4096 runs; its child 8192 is dead, has exit code 3, an open file and
    a child 12288, which is ready. *)
Definition demo_kids (c : Z) : list Z := 0 :: c :: replicate 254 0.
Definition family_proc (st n par : Z) (ks : list Z) (code : Z) : proc := MkProc st false n 0 0 0 0 (Some ks) par code.
Definition family_own : owned := MkOwned 7 0 0 0 5 6 300 400 500 0 0 0 0 600 0 700.
Definition demo_ext : pext ledger bump :=
  MkExt {[ 8192 := family_own ]} {[ 500 := MkMem 9 0 0 0 ]} {[ 600 := 77 :: replicate 255 0 ]} ∅ ∅ ∅
    (MkBump 10000 0 {[ 300 := 1; 400 := 1; 500 := 1; 600 := 1; 700 := 1; 8192 := 1 ]})
    (MkLedger {[ (KFpu, 5); (KLogger, 6); (KVmm, 9) ]} 10 {[ 77 := 2 ]} ∅) 3 3 1 true.
Definition demo_family : kworld_of (pext ledger bump) :=
  MkWorld {[ 4096 := family_proc PROC_STATUS_RUNNING 1 0 (demo_kids 8192) 0;
             8192 := family_proc PROC_STATUS_READY_TO_DIE 2 4096 (demo_kids 12288) 3;
             12288 := family_proc PROC_STATUS_READY_TO_RUN 3 8192 (demo_kids 0) 0 ]}
    {[ mp_ready_queue := MkQueue 12288 12288; mp_sleeping_queue := MkQueue 0 0; mp_ready_to_die_queue := MkQueue 8192 8192 ]}
    4096 demo_sched 20 true ∅ ∅ demo_ext.

Lemma demo_kids_elem c x : x ∈ drop 1 (demo_kids c) → x ≠ 0 → x = c.
Proof. intros [->|Hx]%elem_of_cons Hx0; [done|]. change (x ∈ replicate 254 0) in Hx. apply elem_of_replicate in Hx as [-> _]. by destruct Hx0. Qed.

Lemma demo_family_owns : owns (ext demo_family) 8192 family_own (MkMem 9 0 0 0) (77 :: replicate 255 0) [] [].
Proof.
  split; try reflexivity; try (by left); try done.
  - intros q Hq. unfold proc_blocks in Hq. rewrite !elem_of_cons, elem_of_nil in Hq. cbn in Hq.
    destruct Hq as [->|[->|[->|[->|[->|[->|[]]]]]]]; by eexists.
  - intros x Hx. cbn in Hx. unfold proc_things, fpu_things, vmm_things in Hx. cbn in Hx. set_solver.
  - apply (bool_decide_unpack _). vm_compute. exact I.
  - intros f Hf. change (e_files (ext demo_family) f) with (refs_of {[ 77 := 2 ]} f). rewrite count_cons. assert (count f (replicate 255 0) = 0) as ->.
    { unfold count. assert (filter (λ y, y = f) (replicate 255 0) = []) as ->; [|done]. apply elem_of_nil_inv.
      intros x [-> [-> _]%elem_of_replicate]%list_elem_of_filter. done. }
    unfold refs_of. destruct (decide (77 = f)) as [<-|Hn]; [by rewrite lookup_singleton_eq|].
    rewrite lookup_singleton_ne by done. cbn. lia.
Qed.

Lemma demo_family_parent : parent_ok demo_family 4096 (demo_kids 8192) [12288] [] [8192].
Proof.
  split; [| | |by eexists|done|].
  - split; [done|done|by eexists|done| |apply (bool_decide_unpack _); vm_compute; exact I].
    split; [solve_qrep|solve_qrep|solve_qrep|apply (bool_decide_unpack _); vm_compute; exact I|constructor].
  - done.
  - split; [split; [split; [done|]|done]|split_and!; [done| |done]].
    + intros p n Hp. cbn in Hp. repeat (apply lookup_insert_Some in Hp as [[<- <-]|[_ Hp]]; [cbn; lia|]).
      apply lookup_singleton_Some in Hp as [<- <-]. cbn. lia.
    + intros x Hx. cbn in Hx |- *. set_unfold. destruct Hx as [[->| ->]| ->]; cbn; lia.
  - intros c Hc Hc0. rewrite (demo_kids_elem _ _ Hc Hc0). split.
    + eexists _, _. split; [reflexivity|]. split; [reflexivity|]. split; [done|].
      intros g Hg Hg0. rewrite (demo_kids_elem _ _ Hg Hg0). by eexists.
    + done.
    + by split; apply (bool_decide_unpack _); vm_compute.
    + intros _. split; [set_solver|]. eexists _, _, _, _, _. exact demo_family_owns.
Qed.

Lemma demo_family_find : find_kid demo_family (-1) (drop 1 (demo_kids 8192)) = Some (0%nat, 8192).
Proof. vm_compute. reflexivity. Qed.

Lemma waitpid_collects_witness :
  ∃ w', waitpid_proc (mret tt) (mret tt) 0 4096 (-1) 9000 0 demo_family = Ret (2, w') ∧
    uints (ext w') !! 9000 = Some 768 ∧ procs w' !! 8192 = None.
Proof.
  destruct (waitpid_collects (mret tt) (mret tt) 0 demo_family 4096 (-1) 9000 0 (demo_kids 8192) [12288] [] [8192]
    demo_family_parent) as (r & w' & Hrun & Hpost).
  { intros _ j c. rewrite demo_family_find. intros [= <- <-]. reflexivity. }
  rewrite decide_True in Hpost by lia. unfold waited in Hpost. rewrite demo_family_find in Hpost.
  rewrite decide_True in Hpost by reflexivity.
  destruct Hpost as (v & gks & o & m & fds & avs & evs & Hv & _ & _ & -> & _ & _ & Hco & _ & Hrel).
  injection Hv as <-. exists w'. split; [exact Hrun|]. split; [|exact (co_gone _ _ _ _ _ _ _ Hco)].
  rewrite (proj1 (proj2 (re_rest _ _ _ _ _ _ Hrel))). unfold wrote_status. change (9000 =? 0) with false. cbv iota.
  exact (lookup_insert_eq _ _ _).
Defined.
