(* ===== verification/ProcExit.v ===== *)
(** * ProcExit: a process that exits, and the waiters it wakes *)
From S2P Require Import Prelude Alloc Cstring Number Elf ProcQueue Sched SchedSpec Semaphore Proc ProcThm ProcLife.

(** ** Waking a whole queue *)
Section wake_all.
Context {X : Type}.
Abbreviation kworld := (kworld_of X).
Implicit Types (w : kworld).
Context (away halted : prog kworld unit) (idle_fuel : nat).

(** Links of [ps] and queues [qs] may differ, nothing else that queues need. *)
Definition touched w w' (ps qs : list Z) : Prop :=
  (∀ x, x ∉ ps → links w' !! x = links w !! x) ∧ (∀ q, q ∉ qs → queues w' !! q = queues w !! q).

Lemma moved_trans w w1 w2 ps qs ps1 qs1 ps2 qs2 :
  touched w w1 ps1 qs1 → touched w1 w2 ps2 qs2 →
  (∀ x, x ∈ ps1 ++ ps2 → x ∈ ps) → (∀ x, x ∈ qs1 ++ qs2 → x ∈ qs) → touched w w2 ps qs.
Proof.
  intros [P1 Q1] [P2 Q2] Hps Hqs. split.
  - intros x Hx. rewrite P2, P1; [done| |]; intros Hx'; apply Hx, Hps; set_solver.
  - intros x Hx. rewrite Q2, Q1; [done| |]; intros Hx'; apply Hx, Hqs; set_solver.
Qed.
Lemma touched_relinked w w' ps qs : relinked w w' ps qs → touched w w' ps qs.
Proof. intros [P _ Q _]. split; [|done]. intros x Hx. by rewrite !links_lookup, P. Qed.
Lemma touched_same w w' ps qs : links w' = links w → queues w' = queues w → touched w w' ps qs.
Proof. intros Hl Hq. split; intros; by rewrite ?Hl, ?Hq. Qed.
Lemma qrep_touched w w' ps qs q l :
  touched w w' ps qs → qrep w q l → q ∉ qs → (∀ x, x ∈ l → x ∉ ps) → qrep w' q l.
Proof.
  intros [P Q] [H1 H2 H3 H4] Hq Hl. split; [done|by rewrite Q| |done]. eapply lseg_agree; [|exact H3].
  intros x Hx. apply P. by apply Hl.
Qed.

(** What waking does: to statuses, and to nothing else of a process. *)
Record woke w w' (ps : list Z) : Prop := {
  wk_status x : status_of w' x = if decide (x ∈ ps) then PROC_STATUS_READY_TO_RUN else status_of w x;
  wk_wake x : wake_time w' x = wake_time w x;
  wk_set : proc_set w' = proc_set w;
  wk_kin : kin w' = kin w;
  wk_rest : current w' = current w ∧ clock w' = clock w ∧ semaphores w' = semaphores w ∧ mutexes w' = mutexes w;
  wk_sched : sched w' = sched w;
  wk_off : interrupts w' = false;
}.
Lemma woke_nil w : interrupts w = false → woke w w [].
Proof. intros Hi. by split. Qed.
Lemma woke_trans w w1 w2 ps1 ps2 : woke w w1 ps1 → woke w1 w2 ps2 → woke w w2 (ps1 ++ ps2).
Proof.
  intros [S1 W1 P1 K1 (A1 & A2 & A3 & A4) C1 O1] [S2 W2 P2 K2 (B1 & B2 & B3 & B4) C2 O2]. split; try congruence.
  - intros x. rewrite S2, S1. repeat case_decide; set_solver.
  - split_and!; congruence.
Qed.

(** [wake_proc] inside a postponed section. *)
Lemma wp_wake_one w R Sl D p :
  sched_rep w R Sl D → held w → is_Some (procs w !! p) → p ≠ 0 → p ∉ R ++ Sl ++ D →
  wp (wake_proc p) (λ _ w', sched_rep w' (R ++ [p]) Sl D ∧ woke w w' [p] ∧ touched w w' (p :: R) [mp_ready_queue]) w.
Proof.
  intros Hsr [Hok Hi Hoff] [v Hv] H0 Hf. unfold wake_proc. rewrite (proj2 (Z.eqb_neq p 0)) by done.
  apply wp_bind, wp_inv. eexists tt, _. split; [by apply lock_run|].
  set (w1 := with_locks w _ _ _ _). apply wp_bind. eapply wp_update_proc; [exact Hv|]. set (w2 := set_procs w1 _).
  assert (links w2 = links w1) as Hl2 by (by apply (links_update w1 p (λ v, set_status v PROC_STATUS_READY_TO_RUN) v)).
  assert (∀ x, wake_time w2 x = wake_time w x) as Hwk2.
  { intros x. unfold wake_time, w2. rewrite field_update. case_decide as E; [|done]. subst x.
    by rewrite (field_at sleep_until 0 w p v Hv). }
  assert (sched_rep w2 R Sl D) as Hsr2 by (by apply (sched_rep_same w)).
  apply wp_bind. eapply wp_mono; [apply wp_push_tail; [apply Hsr2| |done|set_solver]|].
  { unfold w2. cbn [set_procs procs]. rewrite lookup_insert_eq. by eexists. }
  intros [] w3 [Hr3 Hrel]. destruct (rl_rest _ _ _ _ Hrel) as (E1 & E2 & E3 & E4 & E5 & E6 & _).
  apply wp_inv. eexists tt, _. split; [apply unlock_inner; rewrite E2; cbn; lia|]. rewrite E2. split; [|split].
  - apply sched_rep_locks. eapply sched_rep_relinked; [exact Hrel|exact Hsr2|exact Hr3| | | |].
    + unfold mp_sleeping_queue, mp_ready_queue. set_solver by lia.
    + unfold mp_ready_to_die_queue, mp_ready_queue. set_solver by lia.
    + pose proof (sr_disjoint _ _ _ _ Hsr) as Hnd. rewrite !NoDup_app in Hnd. set_solver.
    + pose proof (sr_disjoint _ _ _ _ Hsr) as Hnd. rewrite !NoDup_app in *. pose proof (NoDup_singleton p). set_solver.
  - split.
    + intros x. unfold status_of. change (field (with_locks w3 _ _ _ _) status 0 x) with (field w3 status 0 x).
      rewrite (relinked_field status 0 w2 w3 _ _ x (λ _ _, eq_refl) Hrel). unfold w2. rewrite field_update.
      destruct (decide (x = p)), (decide (x ∈ [p])); set_solver.
    + intros x. unfold wake_time. change (field (with_locks w3 _ _ _ _) sleep_until 0 x) with (field w3 sleep_until 0 x).
      rewrite (relinked_field sleep_until 0 w2 w3 _ _ x (λ _ _, eq_refl) Hrel). apply Hwk2.
    + change (proc_set w3 = proc_set w). rewrite (relinked_proc_set _ _ _ _ Hrel). by eapply (proc_set_update w1).
    + change (kin w3 = kin w). rewrite (kin_relinked _ _ _ _ Hrel).
      by apply (kin_update w1 p (λ v, set_status v PROC_STATUS_READY_TO_RUN) v).
    + cbn. by rewrite E1, E3, E5, E6.
    + cbn. rewrite E2. cbn. rewrite Z.add_simpl_r. by destruct (sched w).
    + cbn. by rewrite E4.
  - eapply (moved_trans w w2 _ _ _ [] []); [by apply touched_same| |done|done].
    eapply moved_trans; [by apply touched_relinked|by apply (touched_same _ _ [] [])| |]; set_solver.
Qed.
Lemma held_woke w w' ps : held w → woke w w' ps → held w'.
Proof. intros [H1 H2 H3] Hw. pose proof (wk_sched _ _ _ Hw) as E. split; [by unfold locks_ok; rewrite E|by rewrite E|apply Hw]. Qed.

(** A queue whose tail pointer may be stale once it is empty. *)
Record loose w (q : Z) (ws : list Z) : Prop := {
  lo_head : ∃ t, queues w !! q = Some (MkQueue (default 0 (head ws)) t);
  lo_links : lseg (links w) (default 0 (head ws)) ws 0;
  lo_nodup : NoDup ws;
}.
Lemma loose_touched w w' ps qs q l :
  touched w w' ps qs → loose w q l → q ∉ qs → (∀ x, x ∈ l → x ∉ ps) → loose w' q l.
Proof.
  intros [P Q] [H1 H2 H3] Hq Hl. split; [by rewrite Q| |done]. eapply lseg_agree; [|exact H2].
  intros x Hx. apply P. by apply Hl.
Qed.
(** Detaching the head. *)
Lemma wp_detach_head w q p ws :
  loose w q (p :: ws) →
  wp (x ← proc_get_next p; _ ← set_qhead q x; proc_set_next p 0) (λ _ w', loose w' q ws ∧ relinked w w' [p] [q]) w.
Proof.
  intros [[t Ht] Hl Hnd]. cbn [head default from_option id] in *. destruct Hl as (_ & Hp0 & n & Hn & Hl).
  destruct (links_Some _ _ _ Hn) as (v & Hv & <-). apply NoDup_cons in Hnd as [Hpw Hnd].
  apply wp_bind. eapply wp_get_next; [exact Hv|]. apply wp_bind. eapply wp_qhead; [exact Ht|].
  intros w1 Hq1 Hl1 Hrel1. eapply wp_set_next; [by rewrite Hl1, Hn|]. intros w2 Hl2 Hq2 Hrel2. split.
  - split; [|rewrite Hl2, Hl1; rewrite <- (lseg_head _ _ _ Hl); by apply lseg_insert|done].
    exists t. rewrite Hq2, Hq1, lookup_insert_eq. by rewrite (lseg_head _ _ _ Hl).
  - eapply relinked_mono; [eapply relinked_trans; [exact Hrel1|exact Hrel2]|set_solver|set_solver].
Qed.

Lemma wp_wake_all_loop n w R Sl D q ws :
  (length ws < n)%nat → sched_rep w R Sl D → held w → loose w q ws → q ∉ sched_queues →
  (∀ x, x ∈ ws → x ∉ R ++ Sl ++ D) →
  wp (wake_all_loop n q) (λ _ w', sched_rep w' (R ++ ws) Sl D ∧ woke w w' ws ∧ loose w' q [] ∧
    touched w w' (R ++ ws) [mp_ready_queue; q]) w.
Proof.
  revert w R ws. induction n as [|n IH]; intros w R ws Hlen Hsr Hh Hlo Hq Hap; [lia|]. cbn [wake_all_loop].
  destruct (lo_head _ _ _ Hlo) as [t Ht]. apply wp_bind. eapply wp_load_queue; [exact Ht|]. cbn [qhead].
  destruct ws as [|p ws]; cbn [head default from_option id].
  { apply wp_ret. rewrite app_nil_r. split; [done|]. split; [by apply woke_nil, Hh|]. split; [done|by apply touched_same]. }
  pose proof (lseg_nonzero _ _ _ _ (lo_links _ _ _ Hlo)) as Hp0. rewrite (proj2 (Z.eqb_neq p 0)) by done.
  destruct (proj1 (wp_inv _ _ _) (wp_detach_head w q p ws Hlo)) as ([] & w1 & Hrun & Hlo1 & Hrel1).
  assert (wp (_ ← wake_proc p; wake_all_loop n q) (λ _ w', sched_rep w' (R ++ p :: ws) Sl D ∧ woke w w' (p :: ws) ∧
    loose w' q [] ∧ touched w w' (R ++ p :: ws) [mp_ready_queue; q]) w1) as Hgo.
  2:{ revert Hgo Hrun. clear. unfold wp, mbind, prog_bind.
      destruct (proc_get_next p w) as [[x w2]| | |]; try done. destruct (set_qhead q x w2) as [[[] w3]| | |]; try done.
      destruct (proc_set_next p 0 w3) as [[[] w4]| | |]; try done. by intros Hgo [= ->]. }
  assert (NoDup (p :: ws)) as [Hpw Hnd]%NoDup_cons by apply Hlo.
  unfold sched_queues in Hq.
  assert (sched_rep w1 R Sl D) as Hsr1.
  { destruct Hsr as [H1 H2 H3 H4 H5]. pose proof (Hap p ltac:(set_solver)) as Hp. split; [..|done|].
    - eapply qrep_relinked; [exact Hrel1|exact H1|set_solver|set_solver].
    - eapply qrep_relinked; [exact Hrel1|exact H2|set_solver|set_solver].
    - eapply qrep_relinked; [exact Hrel1|exact H3|set_solver|set_solver].
    - eapply sorted_ext; [|exact H5]. intros x _. unfold wake_time.
      by rewrite (relinked_field sleep_until 0 w w1 _ _ x (λ _ _, eq_refl) Hrel1). }
  destruct (rl_rest _ _ _ _ Hrel1) as (E1 & E2 & E3 & E4 & E5 & E6 & _).
  assert (woke w w1 []) as Hwk1.
  { split; try done.
    - intros x. apply (relinked_field status 0 w w1 _ _ x (λ _ _, eq_refl) Hrel1).
    - intros x. apply (relinked_field sleep_until 0 w w1 _ _ x (λ _ _, eq_refl) Hrel1).
    - by eapply relinked_proc_set.
    - by eapply kin_relinked.
    - rewrite E4. apply Hh. }
  assert (is_Some (procs w1 !! p)) as Hp1.
  { destruct (proj1 (lseg_lookup _ _ _ _ p (lo_links _ _ _ Hlo) ltac:(set_solver))) as [k Hk].
    destruct (links_Some _ _ _ Hk) as (v & Hv & _). destruct (rl_fields _ _ _ _ Hrel1 p) as [? ->]. rewrite Hv. by eexists. }
  apply wp_bind. eapply wp_mono.
  { apply (wp_wake_one w1 R Sl D p Hsr1); [by eapply held_woke|done|done|apply Hap; set_solver]. }
  intros [] w2 (Hsr2 & Hwk2 & Ht2).
  eapply wp_mono; [apply (IH w2 (R ++ [p]) ws); [cbn in Hlen; lia|done| | |done|]|].
  - eapply held_woke; [by eapply held_woke|done].
  - eapply loose_touched; [exact Ht2|done|set_solver|]. intros x Hx. specialize (Hap x). set_solver.
  - intros x Hx. specialize (Hap x). set_solver.
  - intros [] w3 (Hsr3 & Hwk3 & Hlo3 & Ht3). rewrite <- app_assoc in Hsr3. split; [done|]. split.
    + exact (woke_trans _ _ _ _ _ (woke_trans _ _ _ _ _ Hwk1 Hwk2) Hwk3).
    + split; [done|]. eapply moved_trans; [eapply moved_trans; [by eapply touched_relinked|exact Ht2|done|done]|exact Ht3| |]; set_solver.
Qed.

(** [wait_queue_wake_all] inside a postponed section: all waiters are ready, in
    their order behind the others, and the queue is empty. *)
Lemma wp_wake_all w R Sl D q ws :
  sched_rep w R Sl D → held w → 0 < switch_lock_count (sched w) → irq_lock_count (sched w) < 2 ^ 31 →
  switch_lock_count (sched w) < 2 ^ 31 → qrep w q ws → q ∉ sched_queues → (∀ x, x ∈ ws → x ∉ R ++ Sl ++ D) →
  wp (wait_queue_wake_all away halted idle_fuel q) (λ _ w', sched_rep w' (R ++ ws) Sl D ∧ woke w w' ws ∧
    qrep w' q [] ∧ touched w w' (R ++ ws) [mp_ready_queue; q]) w.
Proof using Type.
  intros Hsr [Hok Hi Hoff] Hsw Hib Hsb Hq Hqs Hap. unfold wait_queue_wake_all.
  pose proof (qr_ptr _ _ _ Hq) as Hq0. rewrite (proj2 (Z.eqb_neq q 0)) by done.
  apply wp_bind, wp_inv. eexists tt, _. split; [by apply postpone_run|]. set (w1 := with_locks w _ _ _ _).
  apply wp_bind, wp_gets. apply wp_bind. eapply wp_mono.
  { apply (wp_wake_all_loop _ w1 R Sl D q ws).
    - apply (qrep_fuel w1 q ws). by apply (qrep_same w).
    - by apply sched_rep_locks.
    - split; unfold locks_ok; cbn; [lia|lia|done].
    - destruct Hq as [_ G1 G2 G3]. split; [by eexists|done|done].
    - done.
    - done. }
  intros [] w2 (Hsr2 & Hwk2 & [[t Ht] Hl2 _] & Ht2). apply wp_bind. eapply wp_qtail; [exact Ht|]. intros w3 Hq3 Hl3 Hrel3.
  destruct (rl_rest _ _ _ _ Hrel3) as (E1 & E2 & E3 & E4 & E5 & E6 & _). destruct Hwk2 as [W1 W2 W3 W4 (A1 & A2 & A3 & A4) W5 W6].
  assert (sched w3 = sched w1) as Es by congruence.
  apply wp_inv. eexists tt, _. split; [apply resume_inner; rewrite Es; cbn; lia|]. rewrite Es. split; [|split; [|split]].
  - apply sched_rep_locks. unfold sched_queues in Hqs. destruct Hsr2 as [H1 H2 H3 H4 H5]. split; [..|done|].
    + eapply qrep_relinked; [exact Hrel3|exact H1|set_solver|set_solver].
    + eapply qrep_relinked; [exact Hrel3|exact H2|set_solver|set_solver].
    + eapply qrep_relinked; [exact Hrel3|exact H3|set_solver|set_solver].
    + eapply sorted_ext; [|exact H5]. intros x _. unfold wake_time.
      by rewrite (relinked_field sleep_until 0 w2 w3 _ _ x (λ _ _, eq_refl) Hrel3).
  - split.
    + intros x. change (status_of (with_locks w3 _ _ _ _) x) with (status_of w3 x). unfold status_of at 1.
      rewrite (relinked_field status 0 w2 w3 _ _ x (λ _ _, eq_refl) Hrel3). apply W1.
    + intros x. change (wake_time (with_locks w3 _ _ _ _) x) with (wake_time w3 x). unfold wake_time at 1.
      rewrite (relinked_field sleep_until 0 w2 w3 _ _ x (λ _ _, eq_refl) Hrel3). apply W2.
    + change (proc_set w3 = proc_set w). by rewrite (relinked_proc_set _ _ _ _ Hrel3).
    + change (kin w3 = kin w). by rewrite (kin_relinked _ _ _ _ Hrel3).
    + cbn. rewrite E1, E3, E5, E6. done.
    + cbn. rewrite Es. cbn. rewrite !Z.add_simpl_r. by destruct (sched w).
    + cbn. rewrite E4. done.
  - apply (qrep_same w3); [done|done|]. split; [done|by rewrite Hq3, lookup_insert_eq|by rewrite Hl3|constructor].
  - eapply (moved_trans w w2); [exact Ht2| | |].
    + eapply (moved_trans w2 w3 _ [] [q]); [by eapply touched_relinked|by apply (touched_same _ _ [] [])| |]; set_solver.
    + set_solver.
    + set_solver.
Qed.
End wake_all.

(** ** Exit *)
Section exit.
Context {Srv : Type} {services_S : Services Srv} {A : Type} {alloc_A : Allocator A}.
Abbreviation X := (pext Srv A).
Abbreviation W := (kworld_of X).
Implicit Types (w : W).
Context (away halted : prog W unit) (idle_fuel : nat).

(** Blocking inside a postponed section: the status, and a switch is noted. *)
Lemma block_run w p v st :
  held w → 0 < switch_lock_count (sched w) → procs w !! p = Some v →
  ∃ w', mp_block_proc away halted idle_fuel p st w = Ret (tt, w') ∧
    w' = with_locks (set_procs w (<[p := set_status v st]> (procs w))) (irq_lock_count (sched w))
           (switch_lock_count (sched w)) true false.
Proof using Type.
  intros [Hok Hi Hoff] Hsw Hv. unfold mp_block_proc. rewrite (bind_run _ _ _ _ _ (lock_run w Hok)).
  set (w1 := with_locks w _ _ _ _).
  erewrite (bind_run (update_proc p _)) by (unfold update_proc; erewrite bind_run by (unfold load_proc; cbn; by rewrite Hv); reflexivity).
  set (w2 := set_procs w1 _).
  erewrite bind_run by (rewrite advance_postponed by (cbn; lia); reflexivity).
  rewrite unlock_inner by (cbn; lia). eexists. split; [reflexivity|]. unfold w2, w1, with_locks, set_procs. cbn.
  by rewrite Z.add_simpl_r.
Qed.

(** What exit needs: the queues of those who wait for the process and for any
    child of its parent. *)
Record exits w (cur : Z) (v : proc) (R Sl D ws1 ws2 : list Z) : Prop := {
  ex_cpu : cpu w cur R Sl D;
  ex_unlocked : unlocked w;
  ex_proc : procs w !! cur = Some v;
  ex_parent : parent v ≠ 0;
  ex_exit : qrep w (exit_waiters cur) ws1;
  ex_child : qrep w (child_waiters (parent v)) ws2;
  ex_queues : (exit_waiters cur ∉ sched_queues) ∧ (child_waiters (parent v) ∉ sched_queues) ∧
    exit_waiters cur ≠ child_waiters (parent v);
  ex_apart : NoDup (cur :: ws1 ++ ws2) ∧ ∀ x, x ∈ ws1 ++ ws2 → x ∉ R ++ Sl ++ D;
}.

(** The state when the next process starts to run. *)
Record exited w (cur code : Z) (v : proc) (n : Z) (R' Sl D ws : list Z) w1 : Prop := {
  xd_current : current w1 = n;
  xd_queues : sched_rep w1 R' Sl (cur :: D);
  xd_exit : qrep w1 (exit_waiters cur) [];
  xd_child : qrep w1 (child_waiters (parent v)) [];
  xd_dead : status_of w1 cur = PROC_STATUS_READY_TO_DIE;
  xd_ready x : x ∈ ws → x ≠ n → status_of w1 x = PROC_STATUS_READY_TO_RUN;
  xd_runs : n ∈ ws ∨ status_of w n ≠ PROC_STATUS_UNINITIALIZED → status_of w1 n = PROC_STATUS_RUNNING;
  xd_other x : x ≠ cur → x ∉ ws → x ≠ n → status_of w1 x = status_of w x;
  xd_kin : kin w1 = (ext w, <[cur := family (set_exit_code v code)]> (family <$> procs w));
  xd_locks : irq_lock_count (sched w1) = 1 ∧ switch_lock_count (sched w1) = 0 ∧ switch_lock_flag (sched w1) = false;
}.

(** Up to the waking: the process is the first of the dead. *)
Lemma exit_marks w cur code v R Sl D ws1 ws2 :
  exits w cur v R Sl D ws1 ws2 →
  ∃ w1, (proc_exit away halted idle_fuel cur code) w =
      (_ ← wait_queue_wake_all away halted idle_fuel (exit_waiters cur);
       _ ← wait_queue_wake_all away halted idle_fuel (child_waiters (parent v));
       sched_resume away halted idle_fuel) w1 ∧
    sched_rep w1 R Sl (cur :: D) ∧ held w1 ∧ touched w w1 [cur] [mp_ready_to_die_queue] ∧ current w1 = cur ∧
    is_Some (procs w1 !! cur) ∧
    irq_lock_count (sched w1) = 1 ∧ switch_lock_count (sched w1) = 1 ∧ switch_lock_flag (sched w1) = true ∧
    kin w1 = (ext w, <[cur := family (set_exit_code v code)]> (family <$> procs w)) ∧
    ∀ x, status_of w1 x = if decide (x = cur) then PROC_STATUS_READY_TO_DIE else status_of w x.
Proof using Type.
  intros [Hcpu Hun Hv Hpar Hq1 Hq2 Hqs [Hnd Hap]]. pose proof Hcpu as [C1 C2 C3 C4 C5 C6].
  unfold proc_exit. rewrite (proj2 (Z.eqb_neq cur 0)) by done.
  rewrite (bind_run _ _ _ _ _ (postponed_run w Hun)). set (w1 := with_locks w 1 1 false false).
  erewrite bind_run by (apply lock_run; unfold locks_ok; cbn; lia). set (w2 := with_locks w1 _ _ _ _).
  erewrite (bind_run (load_proc cur)) by (unfold load_proc; cbn; rewrite Hv; reflexivity).
  assert (status v = PROC_STATUS_RUNNING) as Hst by (unfold status_of, field in C4; by rewrite Hv in C4).
  rewrite Hst. change (PROC_STATUS_RUNNING =? PROC_STATUS_READY_TO_DIE) with false. cbv iota.
  erewrite (bind_run (update_proc cur _)) by (unfold update_proc; erewrite bind_run by (unfold load_proc; cbn; by rewrite Hv); reflexivity).
  set (w3 := set_procs w2 _). erewrite (bind_run (gets current)) by reflexivity.
  change (current w3) with (current w). rewrite C1, Z.eqb_refl. cbn [negb when]. erewrite (bind_run (mret tt)) by reflexivity.
  assert (sched_rep w3 R Sl D) as Hsr3.
  { apply (sched_rep_update w2 cur (λ v, set_exit_code v code) v); [done..|]. by apply (sched_rep_same w). }
  assert (cur ∉ D) as HcD by set_solver.
  assert (is_Some (procs w3 !! cur)) as Hc3 by (unfold w3; cbn [set_procs procs]; rewrite lookup_insert_eq; by eexists).
  destruct (proj1 (wp_inv _ _ _) (wp_push_head mp_ready_to_die_queue cur D w3 (sr_die _ _ _ _ Hsr3) Hc3 C2 HcD))
    as ([] & w4 & Hpush & Hd4 & Hrel4). rewrite (bind_run _ _ _ _ _ Hpush).
  destruct (rl_rest _ _ _ _ Hrel4) as (E1 & E2 & E3 & E4 & E5 & E6 & E7). cbn in E1, E2, E3, E4, E5, E6, E7.
  erewrite bind_run by (apply unlock_inner; rewrite E2; cbn; lia). rewrite E2. set (w5 := with_locks w4 _ _ _ _).
  destruct (rl_fields _ _ _ _ Hrel4 cur) as [k4 Hk4]. unfold w3 in Hk4. cbn [set_procs procs] in Hk4.
  rewrite lookup_insert_eq in Hk4. set (v4 := set_next (set_exit_code v code) k4) in *. cbn in Hk4. fold v4 in Hk4.
  destruct (block_run w5 cur v4 PROC_STATUS_READY_TO_DIE) as (w6 & Hb & Hw6).
  { split; unfold locks_ok; cbn; [lia|lia|by rewrite E4]. }
  { cbn. lia. }
  { exact Hk4. }
  rewrite (bind_run _ _ _ _ _ Hb).
  assert (procs w6 !! cur = Some (set_status v4 PROC_STATUS_READY_TO_DIE)) as Hc6 by (rewrite Hw6; cbn; apply lookup_insert_eq).
  erewrite (bind_run (load_proc cur)) by (unfold load_proc; rewrite Hc6; reflexivity).
  change (parent (set_status v4 PROC_STATUS_READY_TO_DIE)) with (parent v). rewrite (proj2 (Z.eqb_neq (parent v) 0)) by done.
  cbn [negb when]. rewrite bind_assoc_run. exists w6. split; [reflexivity|].
  assert (links w6 = links w4) as Hl6.
  { rewrite Hw6. by apply (links_update w4 cur (λ v, set_status v PROC_STATUS_READY_TO_DIE) v4). }
  assert (∀ x, wake_time w4 x = wake_time w x) as Hwk4.
  { intros x. unfold wake_time. rewrite (relinked_field sleep_until 0 w3 w4 _ _ x (λ _ _, eq_refl) Hrel4).
    unfold w3. rewrite field_update. case_decide as E; [|done]. subst x. by rewrite (field_at sleep_until 0 w cur v Hv). }
  assert (∀ x, wake_time w6 x = wake_time w4 x) as Hwk6.
  { intros x. rewrite Hw6. unfold wake_time. change (field (with_locks ?a _ _ _ _) sleep_until 0 x) with (field a sleep_until 0 x).
    rewrite field_update. case_decide as E; [|done]. subst x. by rewrite (field_at sleep_until 0 w4 cur v4 Hk4). }
  assert (sched_rep w4 R Sl (cur :: D)) as Hsr4.
  { destruct Hsr3 as [H1 H2 H3 H4 H5]. split; [| |done| |].
    - eapply qrep_relinked; [exact Hrel4|exact H1|unfold mp_ready_queue, mp_ready_to_die_queue; set_solver by lia|set_solver].
    - eapply qrep_relinked; [exact Hrel4|exact H2|unfold mp_sleeping_queue, mp_ready_to_die_queue; set_solver by lia|set_solver].
    - rewrite !NoDup_app in *. rewrite !NoDup_cons. set_solver.
    - eapply sorted_ext; [|exact (sr_sorted _ _ _ _ C5)]. intros x _. by rewrite Hwk4. }
  split; [by apply (sched_rep_same w4); [|rewrite Hw6| |]|].
  split; [rewrite Hw6; by split; unfold locks_ok; cbn; rewrite ?E2; cbn|].
  split.
  { assert (touched w w3 [] []) as T1.
    { apply touched_same; [|done]. by apply (links_update w2 cur (λ v, set_exit_code v code) v). }
    assert (touched w4 w6 [] []) as T3 by (apply touched_same; [exact Hl6|by rewrite Hw6]).
    apply (moved_trans w w4 w6 _ _ [cur] [mp_ready_to_die_queue] [] []); [|exact T3|by rewrite app_nil_r..].
    apply (moved_trans w w3 w4 _ _ [] [] [cur] [mp_ready_to_die_queue]); [exact T1|by apply touched_relinked|done..]. }
  split; [rewrite Hw6; cbn; congruence|]. split; [by rewrite Hc6; eexists|].
  split; [rewrite Hw6; cbn; lia|]. split; [rewrite Hw6; cbn; lia|]. split; [by rewrite Hw6|]. split.
  - transitivity (kin w4); [rewrite Hw6; by apply (kin_update w4 cur (λ v, set_status v PROC_STATUS_READY_TO_DIE) v4)|].
    rewrite (kin_relinked _ _ _ _ Hrel4). unfold kin, w3. cbn. by rewrite fmap_insert.
  - intros x. rewrite Hw6. unfold status_of. change (field (with_locks ?a _ _ _ _) status 0 x) with (field a status 0 x).
    rewrite field_update. case_decide as E; [done|].
    change (field w5 status 0 x) with (field w4 status 0 x).
    rewrite (relinked_field status 0 w3 w4 _ _ x (λ _ _, eq_refl) Hrel4). unfold w3. by rewrite field_update, decide_False.
Qed.

(** The waking and the switch. *)
Lemma exit_switches w cur code v R Sl D ws1 ws2 n R' :
  exits w cur v R Sl D ws1 ws2 → R ++ ws1 ++ ws2 = n :: R' →
  ∃ w1, proc_exit away halted idle_fuel cur code w = (_ ← (_ ← away; sti); sched_unlock) w1 ∧
    exited w cur code v n R' Sl D (ws1 ++ ws2) w1.
Proof using Type.
  intros Hex Hn. destruct (exit_marks w cur code v R Sl D ws1 ws2 Hex)
    as (w1 & Hrun & Hsr1 & Hh1 & Ht1 & Hc1 & Hp1 & I1 & S1 & F1 & K1 & St1).
  destruct Hex as [Hcpu Hun Hv Hpar Hq1 Hq2 (Q1 & Q2 & Q3) [Hnd Hap]]. pose proof (cpu_apart _ _ _ _ _ Hcpu) as Hca.
  pose proof (cpu_nonnull _ _ _ _ _ Hcpu) as Hc0.
  apply NoDup_cons in Hnd as [Hcw Hnd]. apply NoDup_app in Hnd as (_ & Hd12 & _). unfold sched_queues in Q1, Q2.
  assert (qrep w1 (exit_waiters cur) ws1) as Hq1'.
  { eapply qrep_touched; [exact Ht1|exact Hq1|set_solver|set_solver]. }
  assert (qrep w1 (child_waiters (parent v)) ws2) as Hq2'.
  { eapply qrep_touched; [exact Ht1|exact Hq2|set_solver|set_solver]. }
  destruct (proj1 (wp_inv _ _ _) (wp_wake_all away halted idle_fuel w1 R Sl (cur :: D) (exit_waiters cur) ws1 Hsr1 Hh1
    ltac:(lia) ltac:(lia) ltac:(lia) Hq1' Q1 ltac:(set_solver))) as ([] & w2 & Hw2 & Hsr2 & Hk2 & He2 & Ht2).
  assert (qrep w2 (child_waiters (parent v)) ws2) as Hq2''.
  { eapply qrep_touched; [exact Ht2|exact Hq2'|set_solver|]. intros x Hx. specialize (Hap x). specialize (Hd12 x). set_solver. }
  pose proof (wk_sched _ _ _ Hk2) as Es2.
  destruct (proj1 (wp_inv _ _ _) (wp_wake_all away halted idle_fuel w2 (R ++ ws1) Sl (cur :: D)
    (child_waiters (parent v)) ws2 Hsr2 (held_woke _ _ _ Hh1 Hk2) ltac:(rewrite Es2; lia) ltac:(rewrite Es2; lia)
    ltac:(rewrite Es2; lia) Hq2'' Q2 ltac:(intros x Hx; specialize (Hap x); specialize (Hd12 x); set_solver)))
    as ([] & w3 & Hw3 & Hsr3 & Hk3 & He3 & Ht3).
  assert (qrep w3 (exit_waiters cur) []) as He3'.
  { eapply qrep_touched; [exact Ht3|exact He2|set_solver|set_solver]. }
  rewrite Hrun, (bind_run _ _ _ _ _ Hw2), (bind_run _ _ _ _ _ Hw3).
  pose proof (woke_trans _ _ _ _ _ Hk2 Hk3) as [W1 _ W3 W4 (W5 & _) W6 _].
  rewrite <- app_assoc, Hn in Hsr3.
  assert (n ≠ cur) as Hnc.
  { intros ->. assert (cur ∈ R ++ ws1 ++ ws2) by (rewrite Hn; set_solver). set_solver. }
  assert (status_of w3 cur = PROC_STATUS_READY_TO_DIE) as Hdie.
  { rewrite W1, decide_False, St1, decide_True by set_solver. done. }
  destruct (resume_switch away halted idle_fuel w3 cur n R' Sl (cur :: D))
    as (w4 & Hres & [V1 V2 V3 V4 V5 V6 V7] & Hsr4 & O1 & _ & _ & O4); [congruence..| | |done|exact Hnc|by rewrite Hdie|].
  { done. }
  { apply elem_of_dom. change (cur ∈ proc_set w3). rewrite W3. by apply elem_of_dom. }
  assert (queued_again w3 cur = []) as Hqa by (unfold queued_again; by rewrite Hdie).
  rewrite Hqa, app_nil_r in Hsr4. rewrite Hqa in O1. exists w4. split; [exact Hres|].
  change (∀ x, status_of w4 x = if decide (x = n) then (if status_of w3 n =? PROC_STATUS_UNINITIALIZED then
    PROC_STATUS_UNINITIALIZED else PROC_STATUS_RUNNING) else if decide (x = cur ∧ status_of w3 cur = PROC_STATUS_RUNNING)
    then PROC_STATUS_READY_TO_RUN else status_of w3 x) in V2.
  split; [done|done| | | | | | |by rewrite O4, W4|by rewrite V5].
  - apply O1; [set_solver|set_solver|done].
  - apply O1; [set_solver|set_solver|done].
  - rewrite V2, decide_False, decide_False by (rewrite ?Hdie; naive_solver). done.
  - intros x Hx Hxn. rewrite V2, decide_False, decide_False by (rewrite ?Hdie; naive_solver).
    by rewrite W1, decide_True.
  - intros Hor. rewrite V2, decide_True by done. rewrite (proj2 (Z.eqb_neq _ _)); [done|]. rewrite W1, St1.
    destruct (decide (n ∈ ws1 ++ ws2)); [done|]. rewrite decide_False by done. by destruct Hor.
  - intros x Hxc Hx Hxn. rewrite V2, decide_False, decide_False by (rewrite ?Hdie; naive_solver).
    by rewrite W1, decide_False, St1, decide_False.
Qed.
(** C13: [proc_exit] by the running process [cur], with no lock held: its exit
    code is stored, it is the first of those that are ready to die, every process
    that waited for it or for any child of its parent is ready in waiting order
    behind those that were ready, the two wait queues are empty, and the head of
    the ready queue runs next, with no switch postponed and one interrupt lock
    held.  Of every process, what a parent, a child or a resource owner reads is
    as before but for the exit code. *)
Theorem proc_exit_wakes w cur code v R Sl D ws1 ws2 n R' :
  exits w cur v R Sl D ws1 ws2 → R ++ ws1 ++ ws2 = n :: R' →
  ∃ w1, proc_exit away halted idle_fuel cur code w = (_ ← (_ ← away; sti); sched_unlock) w1 ∧
    exited w cur code v n R' Sl D (ws1 ++ ws2) w1.
Proof using Type. apply exit_switches. Qed.
End exit.

(** ** A concrete exit *)

(** Process 8192 runs, its parent 4096 waits for it, 12288 is ready. *)
Definition demo_exit : kworld_of (pext ledger bump) :=
  MkWorld {[ 4096 := family_proc PROC_STATUS_BLOCKED 1 0 (demo_kids 8192) 0;
             8192 := family_proc PROC_STATUS_RUNNING 2 4096 (demo_kids 12288) 0;
             12288 := family_proc PROC_STATUS_READY_TO_RUN 3 8192 (demo_kids 0) 0 ]}
    {[ mp_ready_queue := MkQueue 12288 12288; mp_sleeping_queue := MkQueue 0 0; mp_ready_to_die_queue := MkQueue 0 0;
       exit_waiters 8192 := MkQueue 4096 4096; child_waiters 4096 := MkQueue 0 0 ]}
    8192 demo_sched 20 true ∅ ∅ demo_ext.

Lemma demo_exits : exits demo_exit 8192 (family_proc PROC_STATUS_RUNNING 2 4096 (demo_kids 12288) 0) [12288] [] [] [4096] [].
Proof.
  split; [|done|reflexivity|done|solve_qrep|solve_qrep| |].
  - split; [done|done|by eexists|done| |apply (bool_decide_unpack _); vm_compute; exact I].
    split; [solve_qrep|solve_qrep|solve_qrep|apply (bool_decide_unpack _); vm_compute; exact I|constructor].
  - split_and!; apply (bool_decide_unpack _); vm_compute; exact I.
  - split; [apply (bool_decide_unpack _); vm_compute; exact I|]. intros x [->|[]%not_elem_of_nil]%elem_of_cons.
    apply (bool_decide_unpack _). vm_compute. exact I.
Qed.

Lemma proc_exit_wakes_witness :
  ∃ w1, proc_exit (mret tt) (mret tt) 0 8192 3 demo_exit = (_ ← (_ ← mret tt; sti); sched_unlock) w1 ∧
    current w1 = 12288 ∧ sched_rep w1 [4096] [] [8192] ∧ status_of w1 4096 = PROC_STATUS_READY_TO_RUN.
Proof.
  destruct (proc_exit_wakes (mret tt) (mret tt) 0 demo_exit 8192 3
    (family_proc PROC_STATUS_RUNNING 2 4096 (demo_kids 12288) 0) [12288] [] [] [4096] [] 12288 [4096] demo_exits eq_refl)
    as (w1 & Hrun & Hx).
  exists w1. split; [exact Hrun|]. split; [exact (xd_current _ _ _ _ _ _ _ _ _ _ Hx)|].
  split; [exact (xd_queues _ _ _ _ _ _ _ _ _ _ Hx)|]. apply (xd_ready demo_exit 8192 3 _ 12288 [4096] [] [] [4096] w1 Hx 4096); [by apply list_elem_of_singleton|lia].
Defined.
