(* ===== verification/ProcWait.v ===== *)
(** * ProcWait: a parent that sleeps in [waitpid] until a child exits

    The sleep of a blocking [waitpid], what the parent does when it runs again,
    and the two sides together: the parent waits, the child exits, the parent
    collects it. *)
From S2P Require Import Prelude Alloc Cstring Number Elf ProcQueue Sched SchedSpec Semaphore Proc ProcThm ProcLife ProcExit.

Section sleep.
Context {Srv A : Type}.
Abbreviation X := (pext Srv A).
Abbreviation W := (kworld_of X).
Implicit Types (w : W).
Context (away halted : prog W unit) (idle_fuel : nat).

(** ** Sleeping in a wait queue *)

(** The world when the next process starts to run. *)
Record slept w (cur q : Z) (ws : list Z) (n : Z) (R Sl D : list Z) w1 : Prop := {
  sl_current : current w1 = n;
  sl_queues : sched_rep w1 R Sl D;
  sl_waiters : qrep w1 q (ws ++ [cur]);
  sl_other q' l : q' ≠ q → q' ∉ sched_queues → (∀ x, x ∈ l → x ∉ cur :: ws ++ n :: R) → qrep w q' l → qrep w1 q' l;
  sl_blocked : status_of w1 cur = PROC_STATUS_BLOCKED;
  sl_runs : status_of w n ≠ PROC_STATUS_UNINITIALIZED → status_of w1 n = PROC_STATUS_RUNNING;
  sl_status x : x ≠ cur → x ≠ n → status_of w1 x = status_of w x;
  sl_kin : kin w1 = kin w;
  sl_locks : irq_lock_count (sched w1) = 1 ∧ switch_lock_count (sched w1) = 0 ∧ switch_lock_flag (sched w1) = false ∧
    interrupts w1 = false;
}.

Lemma sleep_switches w cur q ws n R Sl D :
  cpu w cur (n :: R) Sl D → qrep w q ws → q ∉ sched_queues → cur ∉ ws → (∀ x, x ∈ ws → x ∉ (n :: R) ++ Sl ++ D) →
  ∃ w1, wait_queue_sleep_postponed away halted idle_fuel q (with_locks w 1 1 false false) =
      (_ ← (_ ← (_ ← away; sti); sched_unlock); sched_postpone) w1 ∧
    slept w cur q ws n R Sl D w1.
Proof using Type.
  intros [C1 C2 C3 C4 C5 C6] Hq Hqs Hcw Hap. set (w0 := with_locks w 1 1 false false).
  pose proof (qr_ptr _ _ _ Hq) as Hq0. unfold wait_queue_sleep_postponed. erewrite bind_run by reflexivity.
  change (current w0) with (current w). rewrite C1, (proj2 (Z.eqb_neq q 0)), (proj2 (Z.eqb_neq cur 0)) by done. cbn [orb].
  assert (qrep w0 q ws) as Hq' by exact (qrep_same w w0 q ws eq_refl eq_refl Hq).
  destruct (proj1 (wp_inv _ _ _) (wp_push_tail q cur ws w0 Hq' C3 C2 Hcw)) as ([] & w2 & Hpush & Hq2 & Hrel).
  erewrite bind_run by (rewrite enqueue_push by (change (current w0) with (current w); congruence);
    change (current w0) with (current w); rewrite C1; exact Hpush).
  destruct (rl_rest _ _ _ _ Hrel) as (E1 & E2 & E3 & E4 & E5 & E6 & E7). cbn in E1, E2, E3, E4.
  destruct C3 as [v Hv]. destruct (rl_fields _ _ _ _ Hrel cur) as [k Hk]. change (procs w0) with (procs w) in Hk. rewrite Hv in Hk.
  cbn in Hk. unfold block_current_proc. rewrite bind_assoc_run. erewrite bind_run by reflexivity. rewrite E1, C1.
  destruct (block_run away halted idle_fuel w2 cur (set_next v k) PROC_STATUS_BLOCKED) as (w3 & Hb & Hw3).
  { split; unfold locks_ok; rewrite ?E2; cbn; [lia|lia|by rewrite E4]. }
  { rewrite E2. cbn. lia. }
  { exact Hk. }
  rewrite (bind_run _ _ _ _ _ Hb). rewrite E2 in Hw3. cbn in Hw3.
  assert (links w3 = links w2) as Hl3.
  { rewrite Hw3. by apply (links_update w2 cur (λ v, set_status v PROC_STATUS_BLOCKED) (set_next v k)). }
  assert (queues w3 = queues w2) as Hqq3 by (by rewrite Hw3).
  assert (∀ x, status_of w3 x = if decide (x = cur) then PROC_STATUS_BLOCKED else status_of w x) as Hst3.
  { intros x. rewrite Hw3. unfold status_of. change (field (with_locks ?a _ _ _ _) status 0 x) with (field a status 0 x).
    rewrite field_update. case_decide; [done|]. apply (relinked_field status 0 w0 w2 _ _ x (λ _ _, eq_refl) Hrel). }
  assert (∀ x, wake_time w3 x = wake_time w x) as Hwk3.
  { intros x. rewrite Hw3. unfold wake_time. change (field (with_locks ?a _ _ _ _) sleep_until 0 x) with (field a sleep_until 0 x).
    rewrite field_update. destruct (decide (x = cur)) as [->|].
    - by rewrite (field_at sleep_until 0 w cur v Hv).
    - apply (relinked_field sleep_until 0 w0 w2 _ _ x (λ _ _, eq_refl) Hrel). }
  assert (kin w3 = kin w) as Hkin3.
  { transitivity (kin w2); [rewrite Hw3; by apply (kin_update w2 cur (λ v, set_status v PROC_STATUS_BLOCKED) (set_next v k))|].
    exact (kin_relinked _ _ _ _ Hrel). }
  assert (∀ q' l, q' ≠ q → (∀ x, x ∈ l → x ∉ cur :: ws) → qrep w q' l → qrep w3 q' l) as Hoth.
  { intros q' l Hne Hl Hr. apply (qrep_same w2 w3); [done|done|].
    eapply qrep_relinked; [exact Hrel|exact (qrep_same w w0 q' l eq_refl eq_refl Hr)|set_solver|done]. }
  unfold sched_queues in Hqs.
  assert (sched_rep w3 (n :: R) Sl D) as Hsr3.
  { destruct C5 as [H1 H2 H3 H4 H5].
    split; [apply Hoth|apply Hoth|apply Hoth|done|eapply sorted_ext; [|exact H5]; intros x _; by rewrite Hwk3];
      try done; try set_solver; intros x Hx Hx'; apply elem_of_cons in Hx' as [-> |Hx']; try set_solver;
      apply (Hap x Hx'); set_solver. }
  assert (n ≠ cur) as Hnc by set_solver.
  destruct (resume_switch away halted idle_fuel w3 cur n R Sl D)
    as (w4 & Hres & [V1 V2 V3 V4 V5 V6 V7] & Hsr4 & O1 & _ & _ & O4); [rewrite Hw3; cbn; congruence..| | |done|done| |].
  { done. }
  { rewrite Hw3. cbn. rewrite lookup_insert_eq. by eexists. }
  { rewrite Hst3, decide_True by done. done. }
  assert (queued_again w3 cur = []) as Hqa by (unfold queued_again; by rewrite Hst3, decide_True).
  rewrite Hqa, app_nil_r in Hsr4. rewrite Hqa, app_nil_r in O1. exists w4. split; [by rewrite (bind_cong _ _ _ _ _ Hres)|].
  change (∀ x, status_of w4 x = if decide (x = n) then (if status_of w3 n =? PROC_STATUS_UNINITIALIZED then
    PROC_STATUS_UNINITIALIZED else PROC_STATUS_RUNNING) else if decide (x = cur ∧ status_of w3 cur = PROC_STATUS_RUNNING)
    then PROC_STATUS_READY_TO_RUN else status_of w3 x) in V2.
  assert (∀ x, x ≠ n → status_of w4 x = status_of w3 x) as Hst4.
  { intros x Hx. rewrite V2, decide_False by done. rewrite decide_False; [done|]. rewrite Hst3, decide_True by done. by intros []. }
  split; [done|done| | | | | |congruence|by rewrite V5, V6].
  - apply O1; [set_solver| |by apply (qrep_same w2 w3)]. intros x Hx. apply elem_of_app in Hx as [Hx| ->%list_elem_of_singleton].
    + specialize (Hap x Hx). set_solver.
    + set_solver.
  - intros q' l Hne Hs Hl Hr. unfold sched_queues in Hs. apply O1; [set_solver|set_solver|apply Hoth; [done|set_solver|done]].
  - rewrite Hst4, Hst3, decide_True by done. done.
  - intros Hun. rewrite V2, decide_True, Hst3, decide_False by done. by rewrite (proj2 (Z.eqb_neq _ _)).
  - intros x Hx Hxn. by rewrite Hst4, Hst3, decide_False.
Qed.
End sleep.

Section wait.
Context {Srv : Type} {services_S : Services Srv} {laws_S : ServiceLaws Srv}.
Context {A : Type} {alloc_A : Allocator A} {laws_A : AllocatorLaws (2 ^ 61) A}.
Abbreviation X := (pext Srv A).
Abbreviation W := (kworld_of X).
Implicit Types (w : W).
Context (away halted : prog W unit) (idle_fuel : nat).

(** ** When the parent runs again *)

(** What [waitpid] does after the switch back to it. *)
Definition wait_rest (par wanted wstatus c slot : Z) : prog W Z :=
  _ ← sched_postpone;
  r ← (if wanted =? -1 then
         r ← wait_child_find par wanted;
         mret (match r with None => (false, (c, slot)) | Some cs => (true, cs) end)
       else mret (true, (c, slot)));
  let '(found, (child, slot)) := r in
  if negb found then _ ← sched_resume away halted idle_fuel; mret (- ECHILD)
  else
    v ← load_proc child;
    if negb (status v =? PROC_STATUS_READY_TO_DIE)
    then _ ← sched_resume away halted idle_fuel; mret (- ECHILD)
    else
      ret ← process_wait_collect par child slot wstatus;
      _ ← sched_resume away halted idle_fuel;
      mret ret.

(** A blocking [waitpid] whose child lives sleeps in the child's queue, or in
    the parent's when any child will do. *)
Lemma waitpid_sleeps w par wanted wstatus kids n R Sl D j c ws :
  parent_ok w par kids (n :: R) Sl D → wanted = -1 ∨ 0 < wanted →
  find_kid w wanted (drop 1 kids) = Some (j, c) → status_of w c ≠ PROC_STATUS_READY_TO_DIE →
  let q := if wanted =? -1 then child_waiters par else exit_waiters c in
  qrep w q ws → q ∉ sched_queues → par ∉ ws → (∀ x, x ∈ ws → x ∉ (n :: R) ++ Sl ++ D) →
  ∃ w1, waitpid_proc away halted idle_fuel par wanted wstatus 0 w =
      (_ ← (_ ← (_ ← away; sti); sched_unlock); wait_rest par wanted wstatus c (Z.of_nat (S j))) w1 ∧
    slept w par q ws n R Sl D w1.
Proof using laws_A laws_S.
  intros Hpa Hwant Efk Est q Hq Hqs Hpw Hap. pose proof Hpa as [Hcpu Hun _ (pv & Hpv & Hkids) _ Hchild].
  destruct (sleep_switches away halted idle_fuel w par q ws n R Sl D Hcpu Hq Hqs Hpw Hap) as (w1 & Hsl & Hslept).
  exists w1. split; [|exact Hslept].
  pose proof (cpu_nonnull _ _ _ _ _ Hcpu) as Hp0. unfold waitpid_proc. rewrite (proj2 (Z.eqb_neq par 0)) by done.
  erewrite bind_run; [|unfold load_proc; rewrite Hpv; reflexivity]. rewrite Hkids. change (Z.land 0 (Z.lnot WAITPID_WNOHANG) =? 0) with true.
  cbn [negb orb]. replace ((wanted =? 0) || (wanted <? -1)) with false by lia.
  rewrite (bind_run _ _ _ _ _ (postponed_run w Hun)), (bind_run _ _ _ _ _ (find_postponed _ _ _ _ _ _ _ Hpa)).
  rewrite Efk. cbn [fmap option_fmap option_map]. destruct (find_kid_elem _ _ _ _ _ Efk) as [Hj [Hc0 _]].
  destruct (Hchild c (list_elem_of_lookup_2 _ _ _ Hj) Hc0) as [(v & _ & Hv & _) _ _ _].
  erewrite bind_run; [|unfold load_proc; cbn [with_locks procs]; rewrite Hv; reflexivity].
  assert (status_of w c = status v) as Ev by (unfold status_of, field; by rewrite Hv).
  rewrite (proj2 (Z.eqb_neq (status v) _)) by congruence. change (Z.land 0 WAITPID_WNOHANG =? 0) with true. cbn [negb].
  unfold wait_rest. unfold q in Hsl. destruct (wanted =? -1); cbv iota in Hsl.
  all: rewrite bind_assoc_run, (bind_cong _ _ _ _ _ Hsl), !bind_assoc_run; reflexivity.
Qed.

(** The search that follows the exit of the child the first one found. *)
Lemma find_again w w' wanted ks j c :
  find_kid w wanted ks = Some (j, c) → status_of w c ≠ PROC_STATUS_READY_TO_DIE →
  (∀ x, field w' pid 0 x = field w pid 0 x) → status_of w' c = PROC_STATUS_READY_TO_DIE →
  (∀ x, x ∈ ks → x ≠ c → status_of w' x = PROC_STATUS_READY_TO_DIE → status_of w x = PROC_STATUS_READY_TO_DIE) →
  find_kid w' wanted ks = Some (j, c).
Proof using Type.
  intros Hf Hst Hpid Hdead Hoth. unfold find_kid in Hf |- *.
  destruct (list_find (kid_dead w wanted) ks) as [[j' c']|] eqn:E.
  { injection Hf as -> ->. apply list_find_Some in E as (_ & [_ ?] & _). done. }
  apply list_find_Some in Hf as (Hj & [Hc0 Hm] & Hfirst). apply list_find_None in E.
  assert (list_find (kid_dead w' wanted) ks = Some (j, c)) as ->; [|done].
  apply list_find_Some. split; [done|]. split; [split; [split; [done|]|done]; by rewrite Hpid|].
  intros i y Hi Hlt [[Hy0 Hym] Hyd]. rewrite Hpid in Hym. destruct (decide (y = c)) as [->|Hyc].
  - by apply (Hfirst i c Hi Hlt).
  - rewrite Forall_forall in E. pose proof (list_elem_of_lookup_2 _ _ _ Hi) as Hin.
    apply (E y Hin). split; [done|by apply Hoth].
Qed.

(** The parent runs again and the child is dead. *)
Lemma wait_rest_collects w par wanted wstatus kids R Sl D j c :
  parent_ok w par kids R Sl D → find_kid w wanted (drop 1 kids) = Some (j, c) →
  status_of w c = PROC_STATUS_READY_TO_DIE →
  ∃ r w', wait_rest par wanted wstatus c (Z.of_nat (S j)) w = Ret (r, w') ∧ waited w par wanted wstatus kids R Sl D r w'.
Proof using laws_A laws_S.
  intros Hpa Efk Est. unfold wait_rest. rewrite (bind_run _ _ _ _ _ (postponed_run w (pa_unlocked _ _ _ _ _ _ Hpa))).
  assert (∃ v, procs w !! c = Some v ∧ status v = PROC_STATUS_READY_TO_DIE) as (v & Hv & Ev).
  { unfold status_of, field in Est. destruct (procs w !! c) as [v|]; [by exists v|done]. }
  destruct (collect_end away halted idle_fuel w par wanted wstatus kids R Sl D j c Hpa Efk Est) as (r & w' & Hrun & Hw').
  exists r, w'. split; [|exact Hw'].
  erewrite (bind_run _ _ _ (true, (c, Z.of_nat (S j))) (with_locks w 1 1 false false)).
  2:{ destruct (wanted =? -1); [|done]. by rewrite (bind_run _ _ _ _ _ (find_postponed _ _ _ _ _ _ _ Hpa)), Efk. }
  cbn [negb]. erewrite bind_run by (unfold load_proc; cbn [with_locks procs]; rewrite Hv; reflexivity).
  by rewrite Ev, Z.eqb_refl.
Qed.

(** ** The parent and the child *)

(** A process that is switched to finishes the switch it was left in. *)
Definition take_up : prog W unit := _ ← sti; sched_unlock.
Lemma take_up_run w : irq_lock_count (sched w) = 1 → switch_lock_count (sched w) = 0 → switch_lock_flag (sched w) = false →
  take_up w = Ret (tt, resumed w).
Proof using Type.
  intros Hi Hs Hf. unfold take_up, sti. erewrite bind_run by reflexivity. rewrite unlock_run by (cbn; lia).
  cbn. rewrite Hi, Hs, Hf. reflexivity.
Qed.

(** [par] runs, its child [c] is the one it would wait for and the only process
    that is ready, and nobody waits for [c] or for another child of [par]. *)
Record pair w (par c wanted : Z) (j : nat) (kids : list Z) (v : proc) (Sl D : list Z) : Prop := {
  pr_parent : parent_ok w par kids [c] Sl D;
  pr_wanted : wanted = -1 ∨ 0 < wanted;
  pr_find : find_kid w wanted (drop 1 kids) = Some (j, c);
  pr_ready : status_of w c = PROC_STATUS_READY_TO_RUN;
  pr_child : procs w !! c = Some v;
  pr_link : parent v = par;
  pr_owns : ∃ o m fds avs evs, owns (ext w) c o m fds avs evs;
  pr_exit : qrep w (exit_waiters c) [];
  pr_any : qrep w (child_waiters par) [];
  pr_apart : (child_waiters par ∉ sched_queues) ∧ exit_waiters c ≠ child_waiters par;
}.
(** What a process has of a family is what [kin] says. *)
Lemma kin_proc w w' x v : kin w' = kin w → procs w !! x = Some v → ∃ v', procs w' !! x = Some v' ∧ family v' = family v.
Proof using Type.
  intros [= _ Hk] Hv. assert ((family <$> procs w') !! x = Some (family v)) as Hx by (by rewrite Hk, lookup_fmap, Hv).
  rewrite lookup_fmap in Hx. destruct (procs w' !! x) as [v'|]; [|done]. injection Hx as Hx. exists v'. split; [done|].
  unfold family. congruence.
Qed.
Lemma family_fields v v' : family v' = family v → pid v' = pid v ∧ children v' = children v ∧ parent v' = parent v ∧ exit_code v' = exit_code v.
Proof using Type. by intros [= _ -> -> -> ->]. Qed.

(** The child in the world it runs in. *)
Lemma pair_exits w par c wanted j kids v Sl D w1 :
  pair w par c wanted j kids v Sl D →
  slept w par (if wanted =? -1 then child_waiters par else exit_waiters c) [] c [] Sl D w1 →
  ∃ v1 ws1 ws2, exits (resumed w1) c v1 [] Sl D ws1 ws2 ∧ family v1 = family v ∧ ws1 ++ ws2 = [par].
Proof using laws_A laws_S.
  intros [Hpa Hwant Hf Hrd Hv Hpl Hown He Ha (Q1 & Q2)] [S1 S2 S3 S4 S5 S6 S7 S8 (L1 & L2 & L3 & L4)].
  destruct (find_kid_elem _ _ _ _ _ Hf) as [Hj [Hc0 _]].
  destruct (pa_child _ _ _ _ _ _ Hpa c (list_elem_of_lookup_2 _ _ _ Hj) Hc0) as [_ Hne [Hq1 Hq2] _].
  destruct (kin_proc w w1 c v S8 Hv) as (v1 & Hv1 & Hfam). destruct (family_fields _ _ Hfam) as (_ & _ & Ep & _).
  pose proof (cpu_apart _ _ _ _ _ (pa_cpu _ _ _ _ _ _ Hpa)) as Hap. pose proof (cpu_nonnull _ _ _ _ _ (pa_cpu _ _ _ _ _ _ Hpa)) as Hp0.
  pose proof (sr_disjoint _ _ _ _ (cpu_queues _ _ _ _ _ (pa_cpu _ _ _ _ _ _ Hpa))) as Hnd. cbn in Hnd. apply NoDup_cons in Hnd as [Hcf _].
  exists v1, (if wanted =? -1 then [] else [par]), (if wanted =? -1 then [par] else []).
  split; [|split; [done|by destruct (wanted =? -1)]]. split; try done.
  - split; [exact S1|exact Hc0|by exists v1|apply S6; by rewrite Hrd|by apply sched_rep_locks|exact Hcf].
  - congruence.
  - apply (qrep_same w1); [done|done|]. destruct (wanted =? -1); [|exact S3]. apply S4; [done|done|by intros x []%not_elem_of_nil|done].
  - rewrite Ep, Hpl. apply (qrep_same w1); [done|done|]. destruct (wanted =? -1); [exact S3|].
    apply S4; [congruence|done|by intros x []%not_elem_of_nil|done].
  - rewrite Ep, Hpl. done.
  - cbn in Hap. assert (((if wanted =? -1 then [] else [par]) ++ (if wanted =? -1 then [par] else [])) = [par]) as ->
      by (by destruct (wanted =? -1)).
    split; [rewrite NoDup_cons, list_elem_of_singleton; split; [done|apply NoDup_singleton]|].
    intros x ->%list_elem_of_singleton. set_solver.
Qed.

(** The parent in the world after the exit. *)
Lemma pair_parent w par c code wanted j kids v Sl D w1 v1 w3 :
  pair w par c wanted j kids v Sl D →
  slept w par (if wanted =? -1 then child_waiters par else exit_waiters c) [] c [] Sl D w1 →
  procs w1 !! c = Some v1 → exited (resumed w1) c code v1 par [] Sl D [par] w3 →
  parent_ok (resumed w3) par kids [] Sl (c :: D) ∧ find_kid (resumed w3) wanted (drop 1 kids) = Some (j, c) ∧
  ext w3 = ext w ∧ ∃ v3, procs w3 !! c = Some v3 ∧ family v3 = family (set_exit_code v code).
Proof using laws_A laws_S.
  intros [Hpa Hwant Hf Hrd Hv Hpl Hown He Ha (Q1 & Q2)] [S1 S2 S3 S4 S5 S6 S7 S8 _] Hv1 [X1 X2 X3 X4 X5 X6 X7 X8 X9 X10].
  destruct (find_kid_elem _ _ _ _ _ Hf) as [Hj [Hc0 _]].
  pose proof Hpa as [Hcpu Hun Hok (pv & Hpv & Hkids) Hlen Hchild]. pose proof (cpu_apart _ _ _ _ _ Hcpu) as Hap.
  destruct (Hchild c (list_elem_of_lookup_2 _ _ _ Hj) Hc0) as [Hcp Hne Hoq _].
  assert (ext w3 = ext w ∧ ∀ x, family <$> procs w3 !! x = family <$> (<[c := set_exit_code v code]> (procs w)) !! x) as [Hext Hkin].
  { injection X9 as XE XF. injection S8 as SE SF. change (ext (resumed w1)) with (ext w1) in XE. split; [congruence|].
    intros x. rewrite <- lookup_fmap, XF. change (procs (resumed w1)) with (procs w1). rewrite SF, <- lookup_fmap, fmap_insert.
    do 2 f_equal. assert (family v1 = family v) as Hfv.
    { assert ((family <$> procs w1) !! c = Some (family v)) as E by (by rewrite SF, lookup_fmap, Hv).
      rewrite lookup_fmap, Hv1 in E. exact (Some_inj _ _ E). }
    unfold family in *. cbn. injection Hfv. congruence. }
  assert (∀ x y, x ≠ c → procs w !! x = Some y → ∃ y', procs w3 !! x = Some y' ∧ family y' = family y) as Hoth.
  { intros x y Hx Hy. specialize (Hkin x). rewrite lookup_insert_ne, Hy in Hkin by done. cbn in Hkin.
    destruct (procs w3 !! x) as [y'|]; [|done]. exists y'. split; [done|]. exact (Some_inj _ _ Hkin). }
  assert (∃ v3, procs w3 !! c = Some v3 ∧ family v3 = family (set_exit_code v code)) as Hc3.
  { specialize (Hkin c). rewrite lookup_insert_eq in Hkin. cbn in Hkin. destruct (procs w3 !! c) as [v3|]; [|done]. exists v3. split; [done|]. exact (Some_inj _ _ Hkin). }
  assert (∀ x, is_Some (procs w !! x) → is_Some (procs w3 !! x)) as Hex.
  { intros x [y Hy]. destruct (decide (x = c)) as [->|Hx]; [destruct Hc3 as (v3 & -> & _); by eexists|].
    destruct (Hoth x y Hx Hy) as (y' & -> & _). by eexists. }
  assert (∀ x, x ≠ c → x ≠ par → status_of w3 x = status_of w x) as Hst.
  { intros x Hxc Hxp. rewrite X8 by (done || by rewrite list_elem_of_singleton). by apply S7. }
  split; [|split; [|split; [done|done]]].
  - split; [|done| | |done|].
    + split; try done; [by apply Hcpu|by apply (Hex par); rewrite Hpv; eexists|by apply X7; left; apply list_elem_of_singleton
        |by apply sched_rep_locks|set_solver].
    + change (res_ok (ext w3)). by rewrite Hext.
    + destruct (Hoth par pv (not_eq_sym Hne) Hpv) as (pv' & Hpv' & Hfam). exists pv'. split; [done|].
      destruct (family_fields _ _ Hfam) as (_ & -> & _). done.
    + intros x Hx Hx0. destruct (Hchild x Hx Hx0) as [(y & gks & Hy & Hg & Hgl & Hge) Hxp Hxq Hxd]. split; [| done|done|].
      * assert (∃ y', procs w3 !! x = Some y' ∧ children y' = children y) as (y' & Hy' & Hch).
        { destruct (decide (x = c)) as [->|Hxc].
          - destruct Hc3 as (v3 & Hv3 & Hf3). destruct (family_fields _ _ Hf3) as (_ & Hch & _). exists v3. split; [done|].
            rewrite Hch. rewrite Hv in Hy. by injection Hy as <-.
          - destruct (Hoth x y Hxc Hy) as (y' & Hy' & Hf'). exists y'. split; [done|]. apply (family_fields _ _ Hf'). }
        exists y', gks. split; [done|]. split; [congruence|]. split; [done|]. intros g Hgi Hg0. by apply Hex, Hge.
      * intros Hd. destruct (decide (x = c)) as [->|Hxc].
        { split; [set_solver|]. change (ext (resumed w3)) with (ext w3). by rewrite Hext. }
        change (status_of w3 x = PROC_STATUS_READY_TO_DIE) in Hd. rewrite Hst in Hd by done.
        destruct (Hxd Hd) as [HD Ho]. split; [set_solver|]. change (ext (resumed w3)) with (ext w3). by rewrite Hext.
  - apply (find_again w _ wanted _ j c Hf); [by rewrite Hrd| |exact X5|].
    + intros x. change (field (resumed w3) pid 0 x) with (field w3 pid 0 x). unfold field.
      destruct (decide (x = c)) as [->|Hxc].
      { destruct Hc3 as (v3 & -> & Hf3). rewrite Hv. cbn. by destruct (family_fields _ _ Hf3) as (-> & _). }
      specialize (Hkin x). rewrite lookup_insert_ne in Hkin by done.
      destruct (procs w3 !! x) as [y'|], (procs w !! x) as [y|]; try done. cbn in Hkin |- *. injection Hkin. congruence.
    + intros x Hx Hxc Hd. change (status_of w3 x = PROC_STATUS_READY_TO_DIE) in Hd. destruct (decide (x = 0)) as [->|Hx0].
      * rewrite <- Hst; [done|done|]. intros E. apply (cpu_nonnull _ _ _ _ _ Hcpu). done.
      * destruct (Hchild x Hx Hx0) as [_ Hxp _ _]. by rewrite <- Hst.
Qed.

End wait.

(** ** A concrete family *)

(** Process 4096 runs and its child 8192 is ready; 12288 is a child of 8192 that
    sleeps. *)
Definition demo_wait : kworld_of (pext ledger bump) :=
  MkWorld {[ 4096 := family_proc PROC_STATUS_RUNNING 1 0 (demo_kids 8192) 0;
             8192 := family_proc PROC_STATUS_READY_TO_RUN 2 4096 (demo_kids 12288) 0;
             12288 := family_proc PROC_STATUS_SLEEPING_TIMER 3 8192 (demo_kids 0) 0 ]}
    {[ mp_ready_queue := MkQueue 8192 8192; mp_sleeping_queue := MkQueue 12288 12288; mp_ready_to_die_queue := MkQueue 0 0;
       exit_waiters 8192 := MkQueue 0 0; child_waiters 4096 := MkQueue 0 0 ]}
    4096 demo_sched 20 true ∅ ∅ demo_ext.

Lemma demo_pair : pair demo_wait 4096 8192 2 0 (demo_kids 8192) (family_proc PROC_STATUS_READY_TO_RUN 2 4096 (demo_kids 12288) 0) [12288] [].
Proof.
  split; [|by right|vm_compute; reflexivity|reflexivity|reflexivity|reflexivity| |solve_qrep|solve_qrep|].
  - split; [|done|exact (pa_res _ _ _ _ _ _ demo_family_parent)|by eexists|done|].
    + split; [done|done|by eexists|done| |apply (bool_decide_unpack _); vm_compute; exact I].
      split; [solve_qrep|solve_qrep|solve_qrep|apply (bool_decide_unpack _); vm_compute; exact I|repeat constructor].
    + intros c Hc Hc0. rewrite (demo_kids_elem _ _ Hc Hc0). split.
      * eexists _, _. split; [reflexivity|]. split; [reflexivity|]. split; [done|].
        intros g Hg Hg0. rewrite (demo_kids_elem _ _ Hg Hg0). by eexists.
      * done.
      * by split; apply (bool_decide_unpack _); vm_compute.
      * intros Hd. by vm_compute in Hd.
  - eexists _, _, _, _, _. exact demo_family_owns.
  - split; apply (bool_decide_unpack _); vm_compute; exact I.
Qed.

